(* ===== verification/_CoqProject ===== *)
-Q . S2P
Prelude.v
PageSupply.v
Paging.v
Vm.v
VmStock.v
VmRegions.v
VmSpec.v
PoolPages.v
SysVa.v
Pool.v
PoolShare.v
Contig.v
ContigRace.v
Bignum.v
Bytes.v
Rsa.v
Sha.v
Rc4.v
Des.v
SmBus.v
Eeprom.v
RwLock.v
SList.v
XcVector.v
ExfList.v
PartXbox.v
XdvdDir.v
XdvdIo.v
Xdvdfs.v
XdvdQuery.v
XdvdScan.v
XdvdHistory.v
TitleMem.v
XbeSections.v
XbeLoad.v
