(* ===== verification/Prelude.v ===== *)
(** * A verification of the console kernel's own components

    The repository is a kernel for the original Xbox, a 733 MHz single-CPU
    console with 64 MB of memory, forked from ReactOS.  The parts written for
    the console sit in [ntoskrnl/xb], [hal/halx86/xbox],
    [drivers/filesystems/xdvdfs] and the few library routines they call; this
    development models those, one file per
    component, as executable functions on explicit state, and proves what
    makes each of them correct.  Paths below are relative to [src/].

    ** Parts and how they interact

    - The page supply hands out physical frames to everything else.
      [PageSupply.v] models [ntoskrnl/xb/mm/pagesupply.c]: the packed free
      lists in one link array, the single-frame and run allocators and the
      owner records.  [Paging.v] adds the self-mapped page tables and the
      frames' contents, zeroed takes, and the run allocator that relocates
      owned frames out of its way.
    - The title's virtual memory draws on both.  [Vm.v] models
      [ntoskrnl/xb/mm/vm.c], [VmRegions.v] proves the region list's lemmas,
      [VmStock.v] when frames suffice for a commit, and [VmSpec.v] states and
      proves the calls' contracts.
    - The kernel's own memory.  [PoolPages.v] models
      [ntoskrnl/xb/mm/poolpages.c], runs of pages in a window of addresses,
      backed and mapped page by page from the supply, page tables included;
      [Pool.v] models [ntoskrnl/xb/mm/pool.c], the size-class lists threaded
      through the blocks, written against an interface of a page layer
      ([PagePool], [PagePoolRuns]) that the window implements.  [SysVa.v] is
      [ntoskrnl/xb/mm/sysva.c], the aperture for system memory.
    - Contiguous memory, for devices.  [Contig.v] models
      [ntoskrnl/xb/mm/contig.c] over the pool and the frames: its table grows
      through the pool, its runs come from the supply, by relocation where
      they must, and graphics memory is claimed at the top.  [PoolShare.v] has
      what the pool promises a client that works on the same frames.
      [ContigRace.v] cuts the calls into the sections they run under their
      lock and lets any number of threads take them in any order.
    - The title.  [TitleMem.v] reads and writes the title's bytes through the
      page tables; [XbeSections.v] is the loading and unloading of sections
      in [ntoskrnl/xb/xbe.c], whose counters lie in the title's own headers;
      [XbeLoad.v] is [XeLoadXbe] of the same file, from the first read to the
      start of the entry thread, with the title's keys of
      [ntoskrnl/xb/titlekeys.c].
    - The crypto services.  [Bignum.v] is the multi-word arithmetic and
      [XcpModExp], [Rsa.v] the key operations and signature verification,
      [Sha.v] the SHA-1 and HMAC services over [sdk/lib/cryptlib/sha1.c],
      [Rc4.v] the stream cipher over [sdk/lib/cryptlib/rc4.c], [Des.v] the
      block cipher, all of [ntoskrnl/xb/crypto.c]; [XcVector.v] is the vector
      through which titles reach and replace them.  [Bytes.v] holds the byte
      strings they share.
    - The console's settings.  [SmBus.v] has the interface of a slave that is
      a memory and the driver [hal/halx86/xbox/smbus.c] that meets it over
      the controller's ports; [Eeprom.v] is [ntoskrnl/xb/eeprom.c], written
      against the interface and using [Sha.v] and [Rc4.v].
    - Small executive and HAL services: [RwLock.v] is
      [ntoskrnl/xb/rwlock.c], [SList.v] the lists without a lock of
      [ntoskrnl/xb/xbe.c] with the flush of
      [ntoskrnl/ex/i386/fastinterlck_asm.S], [ExfList.v] is [ntoskrnl/xb/exflist.c] with the
      list splices of [sdk/include/xdk/rtlfuncs.h], and [PartXbox.v] is
      [hal/halx86/xbox/part_xbox.c].
    - The disc file system, [drivers/filesystems/xdvdfs/xdvdfs.c], through
      which titles are read.  [XdvdDir.v] has the directory tables, bytes that
      hold a search tree, with [XdvdFindInTable] and [XdvdEnumerateTable];
      [XdvdIo.v] the machine below the driver and the reads, from
      [XdvdTargetRead] to [XdvdReadIntoBuffer]; [Xdvdfs.v] the driver's state,
      mount, path walk, open, close, read and the information requests;
      [XdvdQuery.v] the directory query with its records and the string
      comparison of [sdk/lib/rtl]; [XdvdScan.v] a client's whole listing;
      [XdvdHistory.v] any sequence of requests.

    ** How code becomes definitions

    An integer of the source is a [Z] with the reduction its width performs
    written out ([u8] to [u64], [add32] and so on, below).  Memory the code
    shares - link arrays, page tables, tables of bytes - is a finite map or a
    list in a record with the source's field names; a routine is a function
    from that record to the record after it and what the routine returns.
    Statuses are the source's numbers.  A loop is a structural recursion over
    what it walks or over a counter with the source's bound; the three
    searches of the page supply that follow links or step by an alignment run
    on fuel of one more than the number of frames, the pool's walk along a
    free list on one more than the number of words in memory, and the
    theorems prove that they never run out.  In the disc file system a lookup
    has one round for each aligned offset of the table and one more, an
    enumeration two for each entry it may write and two more, a path one for
    each character and one more, a read four where three are enough; the
    theorems prove that these end the loops, but for a lookup on a table with
    a cycle, which is proved not to return and makes its caller [Hangs].  The
    search of the aperture and the growth of the table of contiguous runs run
    on fuel that the theorems show to suffice; the title loader's two loops
    take any fuel above the number of sections and of thunks.  A section with
    interrupts off or under a lock is one step; in [RwLock.v],
    [SList.v] and [ContigRace.v], where the order of steps of different
    threads is the point, the steps form a relation and the theorems are about
    every interleaving; a step of [SList.v] is one access to memory.  Where a routine needs pool memory only for scratch, the
    allocation is a flag that says whether it succeeds.

    Hardware and code reached through pointers are parameters with their
    documented behaviour as the laws of a class: the bus and the controller
    in [SmBus.v], whose status register keeps its bits until they are cleared,
    the disk and the kernel's own partition services in
    [PartXbox.v], the device below the disc file system with request building,
    device creation and buffer mapping ([Machine], [MachineLaws], and
    [healthy] for a machine on which nothing fails, where the device serves
    reads of whole sectors and may refuse any other, in [XdvdIo.v]).  There
    the pool is the set of live blocks, and a free of a block that is not
    live is recorded.  The title loader takes the file as a function from offset
    and length to a status and bytes, with what a file system promises in
    [serves], and the pool's answers, the export table of the kernel's image
    and the outcome of thread creation in [world].  Each class has an instance, so its laws can hold; the page
    layer of [Pool.v] is a class because the source selects it at build time,
    and its instance is the window of [PoolPages.v].

    ** What the theorems show

    - Page supply: every call refines a set of free frames with owner
      records, from every reachable state; the run allocators return the
      highest run that fits; relocation keeps every owned page's contents.
    - Virtual memory: the region list stays sorted and disjoint, and each
      call does what its contract says on every branch; for a free the
      contract says which calls succeed and with which status the others
      fail; a commit is all or nothing, and fails only for want of frames.
    - Kernel memory: the window's bitmap, run table, page tables and frame
      owners always agree, its calls refine a set of disjoint runs, frames
      move between the free set, the window and the page tables and none is
      lost, and a free undoes its allocation.  The pool adds or removes exactly the block
      it is asked for, no two live blocks overlap, no call touches the
      contents of a block it does not free, whatever the holders write into
      their own blocks; misuse is caught with the documented stop codes; the
      sweep of empty pages gives back exactly those and terminates; in every
      history the pool stays consistent and the size query answers, but for a
      page block that the table of 128 had no room for.  The aperture refines a
      set of live runs, with the same conservation of frames.
    - Contiguous memory: every call refines live allocations with frames of
      their own; in every interleaving no frame is handed out twice and no
      step fails.
    - The title: a file that is a title is loaded, with every byte, address
      and key in its place, whenever memory suffices and nothing outside
      fails; the entry point and the imports are those of a description that
      does not refer to the loader; loads and unloads of sections refine
      sections with counts and bytes, for a layout in which sections that
      share a page share its counter.
    - Crypto: exponentiation is [Base ^ Exponent mod Modulus] at every width
      and for odd and even moduli; the RSA operations invert each other and
      verification accepts exactly the standard's encodings; the hashes are
      FIPS 180 and RFC 2104, however a message is cut; the ciphers' round
      trips, RC4's state being a permutation and the DES key table holding
      the standard's round keys.
    - Settings: saved values read back, saves touch the user section only and
      leave its sum valid, refusals change nothing, and the sealed section
      opens exactly under a key that verifies it; the bus driver meets the
      interface and always returns.  The claims on the user section are about
      images that agree with the device outside it, which every save keeps.
    - Disc file system: a lookup finds exactly the entry of that name but for
      case, an enumeration every entry; opening a path is the descent by name
      through the files the disc holds; a read delivers exactly the file's
      bytes; from a bare device mount, open and read succeed; a listing
      returns each matching entry once; in every history, on any disc and
      with any failures below, no block is leaked or freed twice and the open
      counts are right.
    - Lock, lists, partitions: mutual exclusion and no lost wake-up; the lists
      without a lock are stacks in every interleaving in which the sequence
      number can tell headers apart, and no thread waits for another; sequence
      semantics of the locked lists; the fixed partitions tile the disk.

    Theorems without a claim number in their comment are further facts; some
    evaluate the model at an input that shows a behaviour the code probably
    does not intend, such as the run that a shrinking claim or a sweep loses
    track of, the unload that takes a neighbour's page, or the flush that a
    pop does not notice.

    ** What is not modelled

    The translation-lookaside buffer and interrupt levels; the ReactOS code
    the console's parts call (dispatcher objects appear by their signal
    state, the I/O manager by a request's outcome); the adapters in
    [ntoskrnl/xb/xbe.c] from the console's signatures to the ReactOS managers;
    the file cache, the boot loader and the device tree; the programming of
    video, network and PCI hardware.

    This file holds what the components share: fixed-width arithmetic, status
    codes, arrays as finite maps, and generic lemmas. *)

From stdpp Require Import prelude gmap list numbers sets.
From Stdlib Require Import ZArith Lia.

Local Open Scope Z_scope.

(** ** Fixed-width integers

    The sources are C compiled for i386: [ULONG], [ULONG_PTR], [SIZE_T] and
    [PFN_NUMBER] are 32 bits wide, [USHORT] 16, [UCHAR] 8 and [ULONGLONG] 64,
    all unsigned.  A value is an integer of [Z]; each operation that can leave
    the range of its type is followed by the reduction the hardware performs. *)

Definition u8 (x : Z) : Z := x mod 2 ^ 8.
Definition u16 (x : Z) : Z := x mod 2 ^ 16.
Definition u32 (x : Z) : Z := x mod 2 ^ 32.
Definition u64 (x : Z) : Z := x mod 2 ^ 64.

Definition add32 (a b : Z) : Z := u32 (a + b).
Definition sub32 (a b : Z) : Z := u32 (a - b).
Definition mul32 (a b : Z) : Z := u32 (a * b).
Definition shl32 (a n : Z) : Z := u32 (Z.shiftl a n).
Definition not32 (a : Z) : Z := 2 ^ 32 - 1 - a.

Declare Scope w32_scope.
Delimit Scope w32_scope with w32.
Infix "+" := add32 : w32_scope.
Infix "-" := sub32 : w32_scope.
Infix "*" := mul32 : w32_scope.

(** [x] is a value of the 32-bit type. *)
Definition is_u32 (x : Z) : Prop := 0 <= x < 2 ^ 32.

Lemma u32_range x : 0 <= u32 x < 2 ^ 32.
Proof. apply Z.mod_pos_bound. lia. Qed.

Lemma u32_id x : 0 <= x < 2 ^ 32 -> u32 x = x.
Proof. apply Z.mod_small. Qed.

Lemma add32_id a b : 0 <= a + b < 2 ^ 32 -> add32 a b = a + b.
Proof. apply Z.mod_small. Qed.

Lemma sub32_id a b : 0 <= a - b < 2 ^ 32 -> sub32 a b = a - b.
Proof. apply Z.mod_small. Qed.

Lemma sub32_wrap a b : 0 <= a < 2 ^ 32 -> 0 <= b < 2 ^ 32 -> a < b -> sub32 a b = 2 ^ 32 + a - b.
Proof.
  intros Ha Hb Hlt. unfold sub32, u32.
  replace (a - b) with ((2 ^ 32 + a - b) + (-1) * 2 ^ 32) by lia.
  rewrite Z.mod_add by lia. apply Z.mod_small. lia.
Qed.

(** [ROUND_DOWN(x, a)] and [ROUND_UP(x, a)] for a power of two [a]. *)
Definition ROUND_DOWN (x a : Z) : Z := Z.land x (not32 (sub32 a 1)).
Definition ROUND_UP (x a : Z) : Z := ROUND_DOWN (sub32 (add32 x a) 1) a.

(** [BooleanFlagOn(F, SF)]. *)
Definition BooleanFlagOn (F SF : Z) : bool := negb (Z.land F SF =? 0).

(** ** Status codes *)

Definition STATUS_SUCCESS : Z := 0.
Definition STATUS_PENDING : Z := 0x103.
Definition STATUS_INVALID_PARAMETER : Z := 0xC000000D.
Definition STATUS_NO_MEMORY : Z := 0xC0000017.
Definition STATUS_ACCESS_DENIED : Z := 0xC0000022.
Definition STATUS_BUFFER_TOO_SMALL : Z := 0xC0000023.
Definition STATUS_OBJECT_NAME_NOT_FOUND : Z := 0xC0000034.
Definition STATUS_DEVICE_NOT_READY : Z := 0xC00000A3.
Definition STATUS_IO_DEVICE_ERROR : Z := 0xC0000185.
Definition STATUS_CONFLICTING_ADDRESSES : Z := 0xC0000018.
Definition STATUS_UNABLE_TO_FREE_VM : Z := 0xC000001A.
Definition STATUS_NOT_COMMITTED : Z := 0xC000002D.
Definition STATUS_INVALID_PAGE_PROTECTION : Z := 0xC0000045.
Definition STATUS_INSUFFICIENT_RESOURCES : Z := 0xC000009A.
Definition STATUS_FREE_VM_NOT_AT_BASE : Z := 0xC000009F.
Definition STATUS_MEMORY_NOT_ALLOCATED : Z := 0xC00000A0.

(** [NT_SUCCESS]: the sign bit of the status is clear. *)
Definition NT_SUCCESS (st : Z) : bool := st <? 2 ^ 31.

Create HintDb word.
Create Rewrite HintDb word.
#[export] Hint Resolve u32_range : word.
#[export] Hint Rewrite u32_id add32_id sub32_id using lia : word.

(** ** Arrays

    A C array is a finite map from index to value; an entry never written
    reads as zero (every array modelled here is zeroed before its first use).
    A write outside the array's bounds would enlarge the map's domain, so an
    invariant that fixes the domain also shows every write is in bounds. *)

Definition rd (a : gmap Z Z) (i : Z) : Z := default 0 (a !! i).

Lemma rd_insert_eq (a : gmap Z Z) i v : rd (<[i := v]> a) i = v.
Proof. unfold rd. by rewrite lookup_insert_eq. Qed.

Lemma rd_insert_ne (a : gmap Z Z) i j v : i <> j -> rd (<[i := v]> a) j = rd a j.
Proof. intros H. unfold rd. by rewrite lookup_insert_ne. Qed.

Lemma rd_insert (a : gmap Z Z) i j v :
  rd (<[i := v]> a) j = if decide (i = j) then v else rd a j.
Proof. case_decide; [subst; apply rd_insert_eq | by apply rd_insert_ne]. Qed.

Lemma rd_Some (a : gmap Z Z) i v : a !! i = Some v -> rd a i = v.
Proof. unfold rd. by intros ->. Qed.

#[export] Hint Rewrite rd_insert_eq : word.
#[export] Hint Rewrite rd_insert_ne using (first [done | lia]) : word.

(** ** Bit fields *)

Lemma land_mul_pow2_small a b n : 0 <= n -> 0 <= b < 2 ^ n -> Z.land (a * 2 ^ n) b = 0.
Proof.
  intros Hn Hb. destruct (Z.eq_dec b 0) as [-> | Hb0]; [apply Z.land_0_r |].
  apply Z.bits_inj'. intros i Hi. rewrite Z.land_spec, Z.bits_0.
  destruct (Z.lt_ge_cases i n) as [H | H].
  - by rewrite Z.mul_pow2_bits_low.
  - rewrite (Z.bits_above_log2 b i), andb_false_r; [done | lia |].
    apply Z.lt_le_trans with n; [| done]. apply Z.log2_lt_pow2; lia.
Qed.

Lemma lor_mul_pow2_small a b n : 0 <= n -> 0 <= b < 2 ^ n -> Z.lor (a * 2 ^ n) b = a * 2 ^ n + b.
Proof. intros Hn Hb. symmetry. apply Z.add_nocarry_lor. by apply land_mul_pow2_small. Qed.

(** Extracting a field of width [w] at bit [n]. *)
Lemma shiftr_div x n : 0 <= n -> Z.shiftr x n = x / 2 ^ n.
Proof. apply Z.shiftr_div_pow2. Qed.

Lemma land_ones_mod x n : 0 <= n -> Z.land x (Z.ones n) = x mod 2 ^ n.
Proof. apply Z.land_ones. Qed.

(** A single bit is clear or set. *)
Lemma land_pow2_testbit x n : 0 <= n -> Z.land x (2 ^ n) = if Z.testbit x n then 2 ^ n else 0.
Proof.
  intros Hn. apply Z.bits_inj'. intros i Hi. rewrite Z.land_spec, Z.pow2_bits_eqb by lia.
  destruct (Z.eqb_spec n i) as [<- | Hne].
  - rewrite andb_true_r. destruct (Z.testbit x n); [by rewrite Z.pow2_bits_true | by rewrite Z.bits_0].
  - rewrite andb_false_r. destruct (Z.testbit x n); [by rewrite Z.pow2_bits_false | by rewrite Z.bits_0].
Qed.

(** The top bit of a word in range. *)
Lemma testbit_top x n : 0 <= n -> 0 <= x < 2 ^ (n + 1) -> Z.testbit x n = (2 ^ n <=? x).
Proof.
  intros Hn Hx. rewrite Z.testbit_eqb by lia. rewrite Z.pow_add_r in Hx by lia.
  destruct (Z.leb_spec (2 ^ n) x) as [H | H].
  - replace (x / 2 ^ n) with 1; [done |]. apply (Z.div_unique x (2 ^ n) 1 (x - 2 ^ n)); lia.
  - by rewrite Z.div_small by lia.
Qed.

Lemma log2_u32 x : 0 <= x < 2 ^ 32 -> Z.log2 x < 32.
Proof.
  intros Hx. destruct (Z.eq_dec x 0) as [-> | Hx0]; [simpl; lia |].
  apply Z.log2_lt_pow2; lia.
Qed.

(** [x & ~m] on words. *)
Lemma land_not32 x m : 0 <= x < 2 ^ 32 -> 0 <= m < 2 ^ 32 -> Z.land x (not32 m) = Z.ldiff x m.
Proof.
  intros Hx Hm.
  assert (E : not32 m = Z.ldiff (Z.ones 32) m).
  { rewrite <- Z.sub_nocarry_ldiff; [by unfold not32; rewrite Z.ones_equiv |].
    apply Z.ldiff_ones_r_low; [lia | by apply log2_u32]. }
  rewrite E, Z.ldiff_land, Z.land_assoc, Z.land_ones, Z.mod_small by lia.
  by rewrite <- Z.ldiff_land.
Qed.

(** Clearing the low [n] bits of a word rounds it down to a multiple of
    [2 ^ n]. *)
Lemma land_not_ones x n : 0 <= n <= 32 -> 0 <= x < 2 ^ 32 ->
  Z.land x (not32 (2 ^ n - 1)) = x - x mod 2 ^ n.
Proof.
  intros Hn Hx.
  assert (2 ^ n <= 2 ^ 32) by (apply Z.pow_le_mono_r; lia).
  assert (0 < 2 ^ n) by (apply Z.pow_pos_nonneg; lia).
  rewrite land_not32 by lia.
  replace (2 ^ n - 1) with (Z.ones n) by (rewrite Z.ones_equiv; lia).
  rewrite Z.ldiff_ones_r, Z.shiftl_mul_pow2, Z.shiftr_div_pow2 by lia.
  pose proof (Z.div_mod x (2 ^ n)). lia.
Qed.

(** Two congruent integers less than a modulus apart are equal. *)
Lemma mod_near a b m : 0 < m -> a mod m = b mod m -> b - m < a <= b -> a = b.
Proof.
  intros Hm E H. pose proof (Z.div_mod a m ltac:(lia)) as Ha. pose proof (Z.div_mod b m ltac:(lia)) as Hb.
  assert (b / m = a / m) by nia. congruence.
Qed.

(** Two multiples of a modulus are at least the modulus apart. *)
Lemma mult_gap a b m : 0 < m -> a mod m = 0 -> b mod m = 0 -> a < b -> a + m <= b.
Proof.
  intros Hm Ea Eb H. pose proof (Z.div_mod a m ltac:(lia)) as Ha. pose proof (Z.div_mod b m ltac:(lia)) as Hb.
  rewrite Ea in Ha. rewrite Eb in Hb. assert (a / m < b / m) by nia. nia.
Qed.

Lemma elem_of_rev {A} (x : A) (l : list A) : x ∈ rev l <-> x ∈ l.
Proof. by rewrite !list_elem_of_In, <- in_rev. Qed.
