(* ===== verification/PageSupply.v ===== *)
(** The physical page database: [ntoskrnl/xb/mm/pagesupply.c], built with
    [NXK_MM_PHYS].  One 32-bit word per page frame; the words of the free
    frames thread two doubly-linked lists (kernel-preferred and title), the
    words of the frames in use carry the index of the page-table entry that
    owns the frame.  This file holds the state, the list primitives and every
    operation that needs nothing but the database; relocation, which also
    rewrites page tables and copies frames, is in [Paging.v]. *)

From stdpp Require Import prelude gmap list numbers sets.
From Stdlib Require Import ZArith Lia.
From S2P Require Import Prelude.

Local Open Scope Z_scope.

(** ** Entries *)

Definition NXP_FREE : Z := 0x80000000.
Definition NXP_PFN_MASK : Z := 0x7FFF.
Definition NXP_PREV_SHIFT : Z := 15.
Definition NXP_OWNER_BASE : Z := 0xC0000000.
Definition NXP_OWNER_LIMIT : Z := 0xC0400000.
Definition NXP_GENERIC_FLOOR_PFN : Z := 0x10.

Definition NXP_NEXT (e : Z) : Z := Z.land e NXP_PFN_MASK.
Definition NXP_PREV (e : Z) : Z := Z.land (Z.shiftr e NXP_PREV_SHIFT) NXP_PFN_MASK.

(** [Entry & NXP_FREE] as a condition. *)
Definition entry_free (e : Z) : bool := negb (Z.land e NXP_FREE =? 0).

(** ** State: the file's static variables and [MmAvailablePages] *)

Record supply : Type := Supply {
  NxpLinks : gmap Z Z;
  NxpHighestPfn : Z;
  NxpFreeHeadKernel : Z;
  NxpFreeHeadTitle : Z;
  NxpKernelLowPfn : Z;
  NxpKernelHighPfn : Z;
  NxpSpillHint : Z;
  NxpGenericAvail : Z;
  MmAvailablePages : Z
}.

Definition set_links (l : gmap Z Z) (s : supply) : supply :=
  Supply l (NxpHighestPfn s) (NxpFreeHeadKernel s) (NxpFreeHeadTitle s) (NxpKernelLowPfn s)
    (NxpKernelHighPfn s) (NxpSpillHint s) (NxpGenericAvail s) (MmAvailablePages s).

Definition set_hint (h : Z) (s : supply) : supply :=
  Supply (NxpLinks s) (NxpHighestPfn s) (NxpFreeHeadKernel s) (NxpFreeHeadTitle s)
    (NxpKernelLowPfn s) (NxpKernelHighPfn s) h (NxpGenericAvail s) (MmAvailablePages s).

Definition set_counts (g a : Z) (s : supply) : supply :=
  Supply (NxpLinks s) (NxpHighestPfn s) (NxpFreeHeadKernel s) (NxpFreeHeadTitle s)
    (NxpKernelLowPfn s) (NxpKernelHighPfn s) (NxpSpillHint s) g a.

(** The word of a frame. *)
Definition link (s : supply) (p : Z) : Z := rd (NxpLinks s) p.

(** [NxpHeadFor] returns the address of one of the two list heads; which one
    is this test, and [head_for]/[set_head_for] read and write through it. *)
Definition kernel_class (s : supply) (Page : Z) : bool :=
  (NxpKernelLowPfn s <=? Page) && (Page <=? NxpKernelHighPfn s).

Definition NxpHeadFor (s : supply) (Page : Z) : Z :=
  if kernel_class s Page then NxpFreeHeadKernel s else NxpFreeHeadTitle s.

Definition set_head_for (s : supply) (Page h : Z) : supply :=
  if kernel_class s Page then
    Supply (NxpLinks s) (NxpHighestPfn s) h (NxpFreeHeadTitle s) (NxpKernelLowPfn s)
      (NxpKernelHighPfn s) (NxpSpillHint s) (NxpGenericAvail s) (MmAvailablePages s)
  else
    Supply (NxpLinks s) (NxpHighestPfn s) (NxpFreeHeadKernel s) h (NxpKernelLowPfn s)
      (NxpKernelHighPfn s) (NxpSpillHint s) (NxpGenericAvail s) (MmAvailablePages s).

Definition generic (Page : Z) : bool := NXP_GENERIC_FLOOR_PFN <=? Page.

(** ** List primitives *)

Definition NxpPushHead (s : supply) (Page : Z) : supply :=
  let Head := NxpHeadFor s Page in
  let l1 := <[Page := Z.lor NXP_FREE Head]> (NxpLinks s) in
  let l2 :=
    if Head =? 0 then l1
    else <[Head := Z.lor (Z.lor NXP_FREE (shl32 Page NXP_PREV_SHIFT))
                         (NXP_NEXT (rd l1 Head))]> l1 in
  let s1 := set_head_for (set_links l2 s) Page Page in
  set_counts
    (if generic Page then add32 (NxpGenericAvail s) 1 else NxpGenericAvail s)
    (add32 (MmAvailablePages s) 1) s1.

Definition NxpUnlink (s : supply) (Page : Z) : supply :=
  let Entry := link s Page in
  let Prev := NXP_PREV Entry in
  let Next := NXP_NEXT Entry in
  let s1 :=
    if Prev =? 0 then set_head_for s Page Next
    else
      set_links (<[Prev := Z.lor (Z.lor NXP_FREE
                                    (shl32 (NXP_PREV (link s Prev)) NXP_PREV_SHIFT)) Next]>
                   (NxpLinks s)) s in
  let l2 :=
    if Next =? 0 then NxpLinks s1
    else <[Next := Z.lor (Z.lor NXP_FREE (shl32 Prev NXP_PREV_SHIFT))
                         (NXP_NEXT (link s1 Next))]> (NxpLinks s1) in
  let s2 := set_links (<[Page := 0]> l2) s1 in
  set_counts
    (if generic Page then sub32 (NxpGenericAvail s) 1 else NxpGenericAvail s)
    (sub32 (MmAvailablePages s) 1) s2.

(** ** Initialisation

    [LinksArray] is zeroed over [HighestPfn + 1] words; [Retail] is the answer
    of [NxkMmRetailShapedMap].  The heads and counters are statics, zero at
    load. *)

Fixpoint zero_words (n : nat) (i : Z) : gmap Z Z :=
  match n with
  | O => ∅
  | S n' => <[i := 0]> (zero_words n' (i + 1))
  end.

Definition zero_links (HighestPfn : Z) : gmap Z Z := zero_words (Z.to_nat (HighestPfn + 1)) 0.

Definition NXK_HIGH_ZONE_BASE : Z := 0x03400000.
Definition NXK_HIGH_ZONE_LIMIT : Z := 0x03C00000.
Definition NXK_KSEG0_RAM_SIZE : Z := 0x04000000.
Definition PAGE_SHIFT : Z := 12.
Definition PAGE_SIZE : Z := 4096.

Definition NxkPageSupplyInitialize (Retail : bool) (HighestPfn : Z) : supply :=
  Supply (zero_links HighestPfn) HighestPfn 0 0
    (if Retail then Z.shiftr NXK_HIGH_ZONE_BASE PAGE_SHIFT
     else Z.shiftr NXK_KSEG0_RAM_SIZE PAGE_SHIFT)
    (if Retail then Z.shiftr NXK_HIGH_ZONE_LIMIT PAGE_SHIFT - 1 else HighestPfn)
    1 0 0.

(** ** Single pages *)

(** The spill scan: [while (!(NxpLinks[Pfn] & NXP_FREE)) { if (Pfn >=
    NxpHighestPfn) return 0; Pfn++; }].  The outer [option] is the fuel. *)
Fixpoint spill_scan (fuel : nat) (s : supply) (Pfn : Z) : option Z :=
  match fuel with
  | O => None
  | S f =>
      if entry_free (link s Pfn) then Some Pfn
      else if NxpHighestPfn s <=? Pfn then Some 0
      else spill_scan f s (Pfn + 1)
  end.

(** [Pfn = NxpSpillHint; if (Pfn < NXP_GENERIC_FLOOR_PFN) Pfn = ...]. *)
Definition spill_start (s : supply) : Z :=
  if NxpSpillHint s <? NXP_GENERIC_FLOOR_PFN then NXP_GENERIC_FLOOR_PFN else NxpSpillHint s.

(** Every scan of the database visits each frame at most once. *)
Definition scan_fuel (s : supply) : nat := S (Z.to_nat (NxpHighestPfn s)).

Definition NxkPageSupplyTakeAny (s : supply) : option (Z * supply) :=
  let Pfn := NxpFreeHeadKernel s in
  if Pfn =? 0 then
    if NxpFreeHeadTitle s =? 0 then Some (0, s)
    else
      match spill_scan (scan_fuel s) s (spill_start s) with
      | None => None
      | Some p => if p =? 0 then Some (0, s) else Some (p, NxpUnlink (set_hint p s) p)
      end
  else Some (Pfn, NxpUnlink s Pfn).

Definition NxkPageSupplyTakeZeroIfReady (s : supply) : Z * supply := (0, s).

Definition NxkPageSupplyReturn (s : supply) (Page : Z) : supply :=
  let s1 := NxpPushHead s Page in
  if Page <? NxpSpillHint s1 then set_hint Page s1 else s1.

Definition NxkPageSupplyAvailable (s : supply) : Z := MmAvailablePages s.

(** ** Ownership *)

Definition NxkPageSupplySetOwner (s : supply) (Page PteVa : Z) : supply :=
  if (0 <? Page) && (Page <=? NxpHighestPfn s) && negb (entry_free (link s Page)) then
    set_links (<[Page := if PteVa =? 0 then 0
                         else Z.shiftr (sub32 PteVa NXP_OWNER_BASE) 2]> (NxpLinks s)) s
  else s.

Definition NxkPageSupplyGetOwner (s : supply) (Page : Z) : Z :=
  if (Page =? 0) || (NxpHighestPfn s <? Page) then 0
  else
    let Entry := link s Page in
    if entry_free Entry || (Entry =? 0) then 0
    else add32 NXP_OWNER_BASE (shl32 Entry 2).

(** ** Targeted takes *)

Definition in_window (LowPfn HighPfn Pfn : Z) : bool := (LowPfn <=? Pfn) && (Pfn <=? HighPfn).

Definition outside (LowPfn HighPfn Pfn : Z) : bool := negb (in_window LowPfn HighPfn Pfn).

(** The upward scan of [NxkPageSupplyTakeAnyOutside]: at most [n] frames from
    [Pfn]; the loop's bound [Pfn <= NxpHighestPfn] makes [n] exact. *)
Fixpoint outside_scan (n : nat) (s : supply) (LowPfn HighPfn Pfn : Z) : Z :=
  match n with
  | O => 0
  | S n' =>
      if entry_free (link s Pfn) && negb (in_window LowPfn HighPfn Pfn) then Pfn
      else outside_scan n' s LowPfn HighPfn (Pfn + 1)
  end.

(** A walk down a free list for the first frame satisfying [ok]; [None] is out
    of fuel. *)
Fixpoint list_walk (fuel : nat) (s : supply) (ok : Z -> bool) (Pfn : Z) : option Z :=
  match fuel with
  | O => None
  | S f =>
      if Pfn =? 0 then Some 0
      else if ok Pfn then Some Pfn
      else list_walk f s ok (NXP_NEXT (link s Pfn))
  end.

Definition NxkPageSupplyTakeAnyOutside (s : supply) (LowPfn HighPfn : Z) : option (Z * supply) :=
  let Pfn := NxpFreeHeadKernel s in
  if negb (Pfn =? 0) && outside LowPfn HighPfn Pfn then Some (Pfn, NxpUnlink s Pfn)
  else
    let Pfn :=
      outside_scan (Z.to_nat (NxpHighestPfn s - NxpSpillHint s + 1)) s LowPfn HighPfn
        (NxpSpillHint s) in
    if negb (Pfn =? 0) then Some (Pfn, NxpUnlink s Pfn)
    else
      match list_walk (scan_fuel s) s (outside LowPfn HighPfn) (NxpFreeHeadKernel s) with
      | None => None
      | Some p =>
          if negb (p =? 0) then Some (p, NxpUnlink s p)
          else
            match list_walk (scan_fuel s) s (fun q => generic q && outside LowPfn HighPfn q)
                    (NxpFreeHeadTitle s) with
            | None => None
            | Some q => if negb (q =? 0) then Some (q, NxpUnlink s q) else Some (0, s)
            end
      end.

Definition NxkPageSupplyIsFree (s : supply) (Page : Z) : bool :=
  if (Page =? 0) || (NxpHighestPfn s <? Page) then false else entry_free (link s Page).

Definition NxkPageSupplyTakeSpecific (s : supply) (Page : Z) : bool * supply :=
  if NxkPageSupplyIsFree s Page then (true, NxpUnlink s Page) else (false, s).

(** ** Contiguous runs *)

(** [for (i = RunPages; i-- > 0;)]: the highest frame of the run at [Base] that
    is not free, or [None] when the run fits. *)
Fixpoint run_miss (s : supply) (Base : Z) (i : nat) : option Z :=
  match i with
  | O => None
  | S i' =>
      let p := add32 Base (Z.of_nat i') in
      if NxkPageSupplyIsFree s p then run_miss s Base i' else Some p
  end.

(** [for (i = 0; i < RunPages; i++) NxpUnlink(Base + i);] *)
Fixpoint unlink_run (s : supply) (Base : Z) (n : nat) : supply :=
  match n with
  | O => s
  | S n' => unlink_run (NxpUnlink s Base) (add32 Base 1) n'
  end.

Definition align_down (x AlignPages : Z) : Z := Z.land x (not32 (sub32 AlignPages 1)).

Fixpoint run_search (fuel : nat) (s : supply) (RunPages LowPfn AlignPages Base : Z) : option Z :=
  match fuel with
  | O => None
  | S f =>
      if LowPfn <=? Base then
        match run_miss s Base (Z.to_nat RunPages) with
        | None => Some Base
        | Some Failed =>
            if Failed <? RunPages then Some 0
            else run_search f s RunPages LowPfn AlignPages
                   (align_down (sub32 Failed RunPages) AlignPages)
        end
      else Some 0
  end.

(** The clamps shared by the two run allocators: [None] is their early
    [return 0]; otherwise the clamped low bound, alignment and first base. *)
Definition run_window (s : supply) (RunPages LowPfn HighPfn AlignPages : Z)
  : option (Z * Z * Z) :=
  if RunPages =? 0 then None
  else
    let AlignPages := if AlignPages =? 0 then 1 else AlignPages in
    let HighPfn := if NxpHighestPfn s <? HighPfn then NxpHighestPfn s else HighPfn in
    let LowPfn := if LowPfn =? 0 then 1 else LowPfn in
    if (HighPfn <? LowPfn) || (add32 (sub32 HighPfn LowPfn) 1 <? RunPages) then None
    else Some (LowPfn, AlignPages, align_down (add32 (sub32 HighPfn RunPages) 1) AlignPages).

Definition NxkPageSupplyTakeRun (s : supply) (RunPages LowPfn HighPfn AlignPages : Z)
  : option (Z * supply) :=
  match run_window s RunPages LowPfn HighPfn AlignPages with
  | None => Some (0, s)
  | Some (LowPfn, AlignPages, Base) =>
      match run_search (S (Z.to_nat Base)) s RunPages LowPfn AlignPages Base with
      | None => None
      | Some b =>
          if b =? 0 then Some (0, s) else Some (b, unlink_run s b (Z.to_nat RunPages))
      end
  end.

(** ** Invariant

    [enc prev next] is the word of a free frame.  [dseg L prev l next]: the
    frames of [l], in order, form a doubly-linked segment in the array [L]
    whose first frame has predecessor [prev] and whose last has successor
    [next]. *)

Definition enc (prev next : Z) : Z :=
  Z.lor (Z.lor NXP_FREE (shl32 prev NXP_PREV_SHIFT)) next.

Definition first_of (l : list Z) (d : Z) : Z := default d (head l).
Definition last_of (l : list Z) (d : Z) : Z := default d (last l).

Fixpoint dseg (L : gmap Z Z) (prev : Z) (l : list Z) (next : Z) : Prop :=
  match l with
  | [] => True
  | p :: l' => L !! p = Some (enc prev (first_of l' next)) /\ dseg L p l' next
  end.

(** The frames the machine can supply: page 0 never is. *)
Definition in_range (s : supply) (p : Z) : Prop := 1 <= p <= NxpHighestPfn s.

(** [supply_rep s lk lt]: the kernel-preferred free list is [lk] and the title
    free list is [lt]. *)
Record supply_rep (s : supply) (lk lt : list Z) : Prop := {
  rep_highest : NXP_GENERIC_FLOOR_PFN <= NxpHighestPfn s <= NXP_PFN_MASK;
  rep_klow : NXP_GENERIC_FLOOR_PFN <= NxpKernelLowPfn s;
  rep_dom : forall p, is_Some (NxpLinks s !! p) <-> 0 <= p <= NxpHighestPfn s;
  rep_kernel : dseg (NxpLinks s) 0 lk 0;
  rep_title : dseg (NxpLinks s) 0 lt 0;
  rep_headk : NxpFreeHeadKernel s = first_of lk 0;
  rep_headt : NxpFreeHeadTitle s = first_of lt 0;
  rep_nodup : NoDup (lk ++ lt);
  rep_kclass : forall p, p ∈ lk -> in_range s p /\ kernel_class s p = true;
  rep_tclass : forall p, p ∈ lt -> in_range s p /\ kernel_class s p = false;
  rep_used : forall p e, NxpLinks s !! p = Some e -> p ∉ lk ++ lt -> 0 <= e < 2 ^ 20;
  rep_avail : MmAvailablePages s = Z.of_nat (length (lk ++ lt));
  rep_generic : NxpGenericAvail s = Z.of_nat (length (filter (fun p => generic p = true) (lk ++ lt)));
  rep_hint : 1 <= NxpSpillHint s <= NxpHighestPfn s;
  rep_hint_low : forall p, p ∈ lt -> NXP_GENERIC_FLOOR_PFN <= p -> NxpSpillHint s <= p
}.

Definition supply_wf (s : supply) : Prop := exists lk lt, supply_rep s lk lt.

(** The abstract state: the set of free frames. *)
Definition free_set (s : supply) : gset Z :=
  list_to_set (filter (fun p => NxkPageSupplyIsFree s p = true)
                 (map Z.of_nat (seq 0 (S (Z.to_nat (NxpHighestPfn s)))))).

(** ** The word encoding *)

Lemma enc_val prev next : 0 <= prev <= NXP_PFN_MASK -> 0 <= next <= NXP_PFN_MASK ->
  enc prev next = 2 ^ 31 + prev * 2 ^ 15 + next.
Proof.
  unfold enc, NXP_FREE, NXP_PREV_SHIFT, NXP_PFN_MASK. intros Hp Hn.
  unfold shl32. rewrite Z.shiftl_mul_pow2, u32_id by lia.
  change 0x80000000 with (1 * 2 ^ 31).
  rewrite (lor_mul_pow2_small 1) by lia.
  replace (1 * 2 ^ 31 + prev * 2 ^ 15) with ((2 ^ 16 + prev) * 2 ^ 15) by lia.
  rewrite lor_mul_pow2_small by lia. lia.
Qed.

Lemma NXP_NEXT_mod e : NXP_NEXT e = e mod 2 ^ 15.
Proof. apply (Z.land_ones e 15). lia. Qed.

Lemma NXP_PREV_mod e : NXP_PREV e = (e / 2 ^ 15) mod 2 ^ 15.
Proof.
  unfold NXP_PREV, NXP_PREV_SHIFT. rewrite Z.shiftr_div_pow2 by lia.
  apply (Z.land_ones _ 15). lia.
Qed.

Lemma NXP_NEXT_enc prev next : 0 <= prev <= NXP_PFN_MASK -> 0 <= next <= NXP_PFN_MASK ->
  NXP_NEXT (enc prev next) = next.
Proof.
  intros Hp Hn. rewrite NXP_NEXT_mod, enc_val by done. unfold NXP_PFN_MASK in *.
  replace (2 ^ 31 + prev * 2 ^ 15 + next) with (next + (2 ^ 16 + prev) * 2 ^ 15) by lia.
  rewrite Z.mod_add by lia. apply Z.mod_small. lia.
Qed.

Lemma NXP_PREV_enc prev next : 0 <= prev <= NXP_PFN_MASK -> 0 <= next <= NXP_PFN_MASK ->
  NXP_PREV (enc prev next) = prev.
Proof.
  intros Hp Hn. rewrite NXP_PREV_mod, enc_val by done. unfold NXP_PFN_MASK in *.
  replace (2 ^ 31 + prev * 2 ^ 15 + next) with (next + (2 ^ 16 + prev) * 2 ^ 15) by lia.
  rewrite Z.div_add, Z.div_small by lia.
  replace (0 + (2 ^ 16 + prev)) with (prev + 2 * 2 ^ 15) by lia.
  rewrite Z.mod_add by lia. apply Z.mod_small. lia.
Qed.

Lemma entry_free_val e : 0 <= e < 2 ^ 32 -> entry_free e = (2 ^ 31 <=? e).
Proof.
  intros He. unfold entry_free. change NXP_FREE with (2 ^ 31).
  rewrite land_pow2_testbit, testbit_top by lia. by destruct (2 ^ 31 <=? e).
Qed.

Lemma entry_free_enc prev next : 0 <= prev <= NXP_PFN_MASK -> 0 <= next <= NXP_PFN_MASK ->
  entry_free (enc prev next) = true.
Proof.
  intros Hp Hn. rewrite entry_free_val, enc_val by (rewrite ?enc_val by done; unfold NXP_PFN_MASK in *; lia).
  unfold NXP_PFN_MASK in *. lia.
Qed.

Lemma entry_used e : 0 <= e < 2 ^ 20 -> entry_free e = false.
Proof. intros He. rewrite entry_free_val by lia. lia. Qed.

(** [NXP_FREE | Head] is the encoding with no predecessor. *)
Lemma enc_head next : Z.lor NXP_FREE next = enc 0 next.
Proof. done. Qed.

(** ** Segments *)

Lemma first_of_app l1 l2 d : first_of (l1 ++ l2) d = first_of l1 (first_of l2 d).
Proof. by destruct l1. Qed.

Lemma last_of_snoc l x d : last_of (l ++ [x]) d = x.
Proof. unfold last_of. by rewrite last_snoc. Qed.

Lemma last_of_cons x l d : last_of (x :: l) d = last_of l x.
Proof. unfold last_of. rewrite last_cons. by destruct (last l). Qed.

Lemma dseg_app L prev l1 l2 next :
  dseg L prev (l1 ++ l2) next <->
  dseg L prev l1 (first_of l2 next) /\ dseg L (last_of l1 prev) l2 next.
Proof.
  revert prev. induction l1 as [| p l1 IH]; intros prev; simpl; [tauto |].
  rewrite IH, first_of_app, last_of_cons. tauto.
Qed.

Lemma dseg_frame L p e prev l next : p ∉ l -> dseg L prev l next -> dseg (<[p := e]> L) prev l next.
Proof.
  revert prev. induction l as [| q l IH]; intros prev Hp; simpl; [done |].
  intros [Hq Hl]. rewrite not_elem_of_cons in Hp. destruct Hp as [Hpq Hp].
  split; [by rewrite lookup_insert_ne | by apply IH].
Qed.

Lemma dseg_lookup L prev l1 p l2 next :
  dseg L prev (l1 ++ p :: l2) next -> L !! p = Some (enc (last_of l1 prev) (first_of l2 next)).
Proof. rewrite dseg_app. simpl. tauto. Qed.

Definition small (l : list Z) : Prop := Forall (fun p => 1 <= p <= NXP_PFN_MASK) l.

Lemma small_first l d : small l -> 0 <= d <= NXP_PFN_MASK -> 0 <= first_of l d <= NXP_PFN_MASK.
Proof. intros H Hd. destruct H; unfold first_of; simpl; lia. Qed.

Lemma small_last l d : small l -> 0 <= d <= NXP_PFN_MASK -> 0 <= last_of l d <= NXP_PFN_MASK.
Proof.
  intros H. revert d. induction H as [| x l Hx Hl IH]; intros d Hd; [done |].
  rewrite last_of_cons. apply IH. lia.
Qed.

Lemma last_of_elem l d : last_of l d = d \/ last_of l d ∈ l.
Proof.
  destruct l as [| x l] using rev_ind; [by left |]. right. rewrite last_of_snoc. set_solver.
Qed.

(** Re-pointing the last frame of a segment. *)
Lemma dseg_set_last L prev l q x y : small (l ++ [q]) -> q ∉ l -> 0 <= prev <= NXP_PFN_MASK ->
  0 <= x <= NXP_PFN_MASK -> dseg L prev (l ++ [q]) x ->
  dseg (<[q := enc (NXP_PREV (rd L q)) y]> L) prev (l ++ [q]) y.
Proof.
  intros Hs Hq Hp Hx H. apply dseg_app in H as [H1 [H2 _]]. apply dseg_app. split.
  - apply dseg_frame; [done |]. exact H1.
  - simpl in *. split; [| done]. rewrite lookup_insert_eq. unfold rd. rewrite H2. simpl.
    rewrite NXP_PREV_enc; [done | | done].
    apply small_last; [| done]. by apply Forall_app in Hs as [? _].
Qed.

(** Re-pointing the first frame of a segment. *)
Lemma dseg_set_first L prev r l next y : small (r :: l) -> r ∉ l -> 0 <= prev <= NXP_PFN_MASK ->
  0 <= next <= NXP_PFN_MASK -> dseg L prev (r :: l) next ->
  dseg (<[r := enc y (NXP_NEXT (rd L r))]> L) y (r :: l) next.
Proof.
  intros Hs Hr Hp Hn [H1 H2]. split.
  - rewrite lookup_insert_eq. unfold rd. rewrite H1. simpl.
    rewrite NXP_NEXT_enc; [done | done |]. apply small_first; [| done]. by inversion Hs.
  - by apply dseg_frame.
Qed.

(** The array after [NxpUnlink]. *)
Definition unlink_links (L : gmap Z Z) (p : Z) : gmap Z Z :=
  let Prev := NXP_PREV (rd L p) in
  let Next := NXP_NEXT (rd L p) in
  let L1 := if Prev =? 0 then L else <[Prev := enc (NXP_PREV (rd L Prev)) Next]> L in
  <[p := 0]> (if Next =? 0 then L1 else <[Next := enc Prev (NXP_NEXT (rd L1 Next))]> L1).

Lemma NxpLinks_unlink s p : NxpLinks (NxpUnlink s p) = unlink_links (NxpLinks s) p.
Proof.
  unfold NxpUnlink, unlink_links, link, enc, set_head_for.
  destruct (NXP_PREV _ =? 0), (kernel_class s p), (NXP_NEXT _ =? 0); done.
Qed.

Lemma dseg_unlink L l1 p l2 : small (l1 ++ p :: l2) -> NoDup (l1 ++ p :: l2) ->
  dseg L 0 (l1 ++ p :: l2) 0 -> dseg (unlink_links L p) 0 (l1 ++ l2) 0.
Proof.
  intros Hs Hnd H.
  pose proof (dseg_lookup _ _ _ _ _ _ H) as Hp.
  pose proof Hs as Hs'. apply Forall_app in Hs' as [Hs1 Hs2]. inversion Hs2 as [| ? ? Hps Hs2']; subst.
  assert (B0 : 0 <= 0 <= NXP_PFN_MASK) by (unfold NXP_PFN_MASK; lia).
  unfold unlink_links. rewrite (rd_Some _ _ _ Hp), NXP_PREV_enc, NXP_NEXT_enc
    by auto using small_last, small_first.
  apply NoDup_app in Hnd as (Hn1 & Hdis & Hn2). apply NoDup_cons in Hn2 as [Hp2 Hn2].
  apply dseg_app in H as [H1 [_ H2]].
  set (L1 := if last_of l1 0 =? 0 then L else _).
  assert (A1 : dseg L1 0 l1 (first_of l2 0) /\ dseg L1 p l2 0).
  { subst L1. destruct l1 as [| q l1 _] using rev_ind; [by split |].
    rewrite last_of_snoc in *. destruct (q =? 0) eqn:E.
    - apply Forall_app in Hs1 as [_ Hq]. inversion Hq; subst. lia.
    - split.
      + apply (dseg_set_last L 0 l1 q p); auto; [| lia].
        apply NoDup_app in Hn1 as (_ & Hd & _). intros Hin. apply (Hd _ Hin). set_solver.
      + apply dseg_frame; [| done]. intros Hin. apply (Hdis q); set_solver. }
  destruct A1 as [A1 A2].
  assert (N1 : p ∉ l1) by (intros Hin; apply (Hdis p Hin); set_solver).
  apply dseg_frame; [set_solver |]. apply dseg_app.
  destruct l2 as [| r l2]; simpl in *; [done |].
  inversion Hs2' as [| ? ? Hr Hs3]; subst. apply NoDup_cons in Hn2 as [Hr2 Hn2].
  change (first_of (r :: l2) 0) with r in *. destruct (r =? 0) eqn:E; [lia |]. split.
  - apply dseg_frame; [| done]. intros Hin. apply (Hdis r Hin). set_solver.
  - apply (dseg_set_first L1 p r l2 0); auto; lia.
Qed.

Lemma unlink_links_frame L l1 p l2 q : small (l1 ++ p :: l2) -> dseg L 0 (l1 ++ p :: l2) 0 ->
  q ∉ l1 ++ p :: l2 -> unlink_links L p !! q = L !! q.
Proof.
  intros Hs H Hq. pose proof (dseg_lookup _ _ _ _ _ _ H) as Hp.
  pose proof Hs as Hs'. apply Forall_app in Hs' as [Hs1 Hs2]. inversion Hs2 as [| ? ? Hps Hs2']; subst.
  assert (B0 : 0 <= 0 <= NXP_PFN_MASK) by (unfold NXP_PFN_MASK; lia).
  unfold unlink_links. rewrite (rd_Some _ _ _ Hp), NXP_PREV_enc, NXP_NEXT_enc
    by auto using small_last, small_first.
  rewrite lookup_insert_ne by set_solver.
  set (L1 := if last_of l1 0 =? 0 then L else _).
  assert (A : L1 !! q = L !! q).
  { subst L1. destruct (Z.eqb_spec (last_of l1 0) 0); [done |]. apply lookup_insert_ne.
    intros <-. destruct (last_of_elem l1 0); [done | set_solver]. }
  destruct l2 as [| r l2]; unfold first_of; simpl; [done |].
  destruct (r =? 0); [done |]. rewrite lookup_insert_ne; [done | set_solver].
Qed.

Lemma unlink_links_self L p : unlink_links L p !! p = Some 0.
Proof. unfold unlink_links. by rewrite lookup_insert_eq. Qed.

(** Fields [NxpUnlink] and [NxpPushHead] leave alone. *)
Lemma unlink_fields s p :
  NxpHighestPfn (NxpUnlink s p) = NxpHighestPfn s /\
  NxpKernelLowPfn (NxpUnlink s p) = NxpKernelLowPfn s /\
  NxpKernelHighPfn (NxpUnlink s p) = NxpKernelHighPfn s /\
  NxpSpillHint (NxpUnlink s p) = NxpSpillHint s.
Proof.
  unfold NxpUnlink, set_head_for. destruct (NXP_PREV _ =? 0), (kernel_class s p); done.
Qed.

Lemma push_fields s p :
  NxpHighestPfn (NxpPushHead s p) = NxpHighestPfn s /\
  NxpKernelLowPfn (NxpPushHead s p) = NxpKernelLowPfn s /\
  NxpKernelHighPfn (NxpPushHead s p) = NxpKernelHighPfn s /\
  NxpSpillHint (NxpPushHead s p) = NxpSpillHint s.
Proof.
  unfold NxpPushHead, set_head_for, kernel_class.
  by destruct (_ && _).
Qed.

Lemma kernel_class_ext s s' p :
  NxpKernelLowPfn s' = NxpKernelLowPfn s -> NxpKernelHighPfn s' = NxpKernelHighPfn s ->
  kernel_class s' p = kernel_class s p.
Proof. unfold kernel_class. by intros -> ->. Qed.

(** ** Facts that follow from the invariant *)

Section Rep.
Context (s : supply) (lk lt : list Z) (R : supply_rep s lk lt).

Lemma rep_in_range p : p ∈ lk ++ lt -> in_range s p.
Proof using R.
  rewrite elem_of_app. intros [H | H]; [by apply (rep_kclass _ _ _ R) | by apply (rep_tclass _ _ _ R)].
Qed.

Lemma rep_small_in p : in_range s p -> 1 <= p <= NXP_PFN_MASK.
Proof using R. destruct (rep_highest _ _ _ R). unfold in_range. lia. Qed.

Lemma rep_small l : (forall p, p ∈ l -> p ∈ lk ++ lt) -> small l.
Proof using R.
  intros H. apply Forall_forall. intros p Hp. apply rep_small_in, rep_in_range, H, Hp.
Qed.

Lemma rep_small_k : small lk.
Proof using R. apply rep_small. set_solver. Qed.

Lemma rep_small_t : small lt.
Proof using R. apply rep_small. set_solver. Qed.

Lemma rep_link_free p : p ∈ lk ++ lt -> exists a b, NxpLinks s !! p = Some (enc a b) /\
  0 <= a <= NXP_PFN_MASK /\ 0 <= b <= NXP_PFN_MASK.
Proof using R.
  assert (G : forall l, small l -> dseg (NxpLinks s) 0 l 0 -> p ∈ l ->
    exists a b, NxpLinks s !! p = Some (enc a b) /\ 0 <= a <= NXP_PFN_MASK /\ 0 <= b <= NXP_PFN_MASK).
  { intros l Hs Hd Hp. apply list_elem_of_split in Hp as (l1 & l2 & ->).
    apply Forall_app in Hs as [Hs1 Hs2]. inversion Hs2; subst.
    exists (last_of l1 0), (first_of l2 0). split; [exact (dseg_lookup _ _ _ _ _ _ Hd) |].
    split; [apply small_last | apply small_first]; auto; unfold NXP_PFN_MASK; lia. }
  rewrite elem_of_app. intros [H | H].
  - by apply (G lk rep_small_k (rep_kernel _ _ _ R)).
  - by apply (G lt rep_small_t (rep_title _ _ _ R)).
Qed.

Lemma rep_entry_free p : 0 <= p <= NxpHighestPfn s ->
  entry_free (link s p) = true <-> p ∈ lk ++ lt.
Proof using R.
  intros Hp. destruct (decide (p ∈ lk ++ lt)) as [Hin | Hout].
  - split; [done |]. intros _. destruct (rep_link_free p Hin) as (a & b & E & Ha & Hb).
    unfold link. rewrite (rd_Some _ _ _ E). by apply entry_free_enc.
  - split; [| done]. destruct (proj2 (rep_dom _ _ _ R p) Hp) as [e E].
    unfold link. rewrite (rd_Some _ _ _ E), entry_used; [done |].
    by apply (rep_used _ _ _ R p).
Qed.

Lemma rep_IsFree p : NxkPageSupplyIsFree s p = true <-> p ∈ lk ++ lt.
Proof using R.
  unfold NxkPageSupplyIsFree. destruct ((p =? 0) || (NxpHighestPfn s <? p)) eqn:E.
  - split; [done |]. intros H%rep_in_range. unfold in_range in H. lia.
  - destruct (decide (0 <= p)) as [Hp | Hp]; [apply rep_entry_free; lia |].
    split.
    + unfold link, rd. destruct (NxpLinks s !! p) as [e |] eqn:E'; [| done].
      assert (0 <= p <= NxpHighestPfn s) by (apply (rep_dom _ _ _ R p); eauto). lia.
    + intros H%rep_in_range. unfold in_range in H. lia.
Qed.

Lemma rep_free_set : free_set s = list_to_set (lk ++ lt).
Proof using R.
  apply set_eq. intros p. unfold free_set. rewrite !elem_of_list_to_set, list_elem_of_filter, rep_IsFree.
  split; [tauto |]. intros H. split; [done |]. apply rep_in_range in H. unfold in_range in H.
  apply list_elem_of_fmap. exists (Z.to_nat p). split; [lia |]. apply elem_of_seq. lia.
Qed.

Lemma rep_size : Z.of_nat (size (free_set s)) = MmAvailablePages s.
Proof using R.
  rewrite rep_free_set, size_list_to_set by apply (rep_nodup _ _ _ R). by rewrite (rep_avail _ _ _ R).
Qed.

Lemma rep_length_bound : Z.of_nat (length (lk ++ lt)) <= NxpHighestPfn s.
Proof using R.
  assert (H : (length (lk ++ lt) <= length (map Z.of_nat (seq 1 (Z.to_nat (NxpHighestPfn s)))))%nat).
  { apply submseteq_length, NoDup_submseteq; [apply (rep_nodup _ _ _ R) |].
    intros p Hp%rep_in_range. unfold in_range in Hp. apply list_elem_of_fmap.
    exists (Z.to_nat p). split; [lia |]. apply elem_of_seq. lia. }
  rewrite length_map, length_seq in H. destruct (rep_highest _ _ _ R).
  unfold NXP_GENERIC_FLOOR_PFN in *. lia.
Qed.

End Rep.

(** ** [NxpUnlink] *)

Definition without (p : Z) (l : list Z) : list Z := filter (fun q => q <> p) l.

Lemma without_notin p l : p ∉ l -> without p l = l.
Proof.
  induction l as [| q l IH]; intros H; [done |]. unfold without.
  rewrite filter_cons_True by set_solver. f_equal. apply IH. set_solver.
Qed.

Lemma without_split p l1 l2 : NoDup (l1 ++ p :: l2) -> without p (l1 ++ p :: l2) = l1 ++ l2.
Proof.
  intros (H1 & Hd & [Hp H2]%NoDup_cons)%NoDup_app. unfold without.
  rewrite filter_app, filter_cons_False by tauto.
  fold (without p l1) (without p l2). rewrite !without_notin; [done | done |].
  intros Hin. apply (Hd p Hin). set_solver.
Qed.

Lemma elem_of_without p q l : q ∈ without p l <-> q ∈ l /\ q <> p.
Proof. unfold without. rewrite list_elem_of_filter. tauto. Qed.

Lemma without_app p l1 l2 : without p (l1 ++ l2) = without p l1 ++ without p l2.
Proof. apply filter_app. Qed.

Lemma without_length p l : NoDup l -> p ∈ l -> length l = S (length (without p l)).
Proof.
  intros Hn (l1 & l2 & ->)%list_elem_of_split. rewrite without_split by done.
  rewrite !length_app. simpl. lia.
Qed.

Lemma without_filter_length (P : Z -> Prop) `{!forall x, Decision (P x)} p l : NoDup l -> p ∈ l ->
  length (filter P l) =
  if decide (P p) then S (length (filter P (without p l))) else length (filter P (without p l)).
Proof.
  intros Hn (l1 & l2 & ->)%list_elem_of_split. rewrite without_split by done.
  rewrite !filter_app, filter_cons, !length_app. case_decide; simpl; lia.
Qed.

(** The segment an unlinked frame was on, and the segment it was not on. *)
Lemma dseg_without L l p : small l -> NoDup l -> p ∈ l -> dseg L 0 l 0 ->
  dseg (unlink_links L p) 0 (without p l) 0.
Proof.
  intros Hs Hn (l1 & l2 & ->)%list_elem_of_split H. rewrite without_split by done.
  by apply dseg_unlink.
Qed.

Lemma unlink_links_other L l p q : small l -> p ∈ l -> dseg L 0 l 0 -> q ∉ l ->
  unlink_links L p !! q = L !! q.
Proof.
  intros Hs (l1 & l2 & ->)%list_elem_of_split. by apply unlink_links_frame.
Qed.

Lemma dseg_ext L L' prev l next : (forall q, q ∈ l -> L' !! q = L !! q) ->
  dseg L prev l next -> dseg L' prev l next.
Proof.
  revert prev. induction l as [| p l IH]; intros prev H; simpl; [done |].
  intros [H1 H2]. split; [rewrite H; [done | set_solver] |]. apply IH; [set_solver | done].
Qed.

Lemma first_of_without L l p : small l -> NoDup l -> p ∈ l -> dseg L 0 l 0 ->
  first_of (without p l) 0 =
  if NXP_PREV (rd L p) =? 0 then NXP_NEXT (rd L p) else first_of l 0.
Proof.
  intros Hs Hn (l1 & l2 & ->)%list_elem_of_split H.
  pose proof (dseg_lookup _ _ _ _ _ _ H) as Hp.
  pose proof Hs as Hs'. apply Forall_app in Hs' as [Hs1 Hs2]. inversion Hs2 as [| ? ? Hps Hs2']; subst.
  assert (B0 : 0 <= 0 <= NXP_PFN_MASK) by (unfold NXP_PFN_MASK; lia).
  rewrite (rd_Some _ _ _ Hp), NXP_PREV_enc, NXP_NEXT_enc by auto using small_last, small_first.
  rewrite without_split by done. rewrite !first_of_app.
  destruct l1 as [| q l1 _] using rev_ind; [done |]. rewrite last_of_snoc.
  apply Forall_app in Hs1 as [_ Hq]. inversion Hq; subst.
  destruct (q =? 0) eqn:E; [lia |]. by destruct l1.
Qed.

Lemma unlink_heads s p :
  NxpFreeHeadKernel (NxpUnlink s p) =
    (if kernel_class s p && (NXP_PREV (link s p) =? 0) then NXP_NEXT (link s p)
     else NxpFreeHeadKernel s) /\
  NxpFreeHeadTitle (NxpUnlink s p) =
    (if negb (kernel_class s p) && (NXP_PREV (link s p) =? 0) then NXP_NEXT (link s p)
     else NxpFreeHeadTitle s).
Proof.
  unfold NxpUnlink, set_head_for. by destruct (kernel_class s p), (NXP_PREV (link s p) =? 0).
Qed.

Lemma unlink_counts s p :
  MmAvailablePages (NxpUnlink s p) = sub32 (MmAvailablePages s) 1 /\
  NxpGenericAvail (NxpUnlink s p) =
    (if generic p then sub32 (NxpGenericAvail s) 1 else NxpGenericAvail s).
Proof. done. Qed.

Lemma dseg_two L a b p : small a -> NoDup a -> (forall q, q ∈ a -> q ∉ b) -> p ∈ a ->
  dseg L 0 a 0 -> dseg L 0 b 0 ->
  dseg (unlink_links L p) 0 (without p a) 0 /\ dseg (unlink_links L p) 0 (without p b) 0.
Proof.
  intros Hs Hn Hd Hp Ha Hb. split; [by apply dseg_without |].
  rewrite (without_notin p b) by auto. apply (dseg_ext L); [| done].
  intros q Hq. apply (unlink_links_other L a); auto. intros Hin. by apply (Hd q).
Qed.

Lemma rep_which s lk lt p : supply_rep s lk lt -> p ∈ lk ++ lt ->
  (p ∈ lk /\ (p ∉ lt) /\ kernel_class s p = true) \/ (p ∈ lt /\ (p ∉ lk) /\ kernel_class s p = false).
Proof.
  intros R Hp. pose proof (rep_nodup _ _ _ R) as (_ & Nd & _)%NoDup_app.
  apply elem_of_app in Hp as [Hp | Hp].
  - left. destruct (rep_kclass _ _ _ R p Hp). auto.
  - right. destruct (rep_tclass _ _ _ R p Hp). split; [done |]. split; [| done].
    intros Hin. by apply (Nd p).
Qed.

Lemma unlink_dsegs s lk lt p : supply_rep s lk lt -> p ∈ lk ++ lt ->
  dseg (unlink_links (NxpLinks s) p) 0 (without p lk) 0 /\
  dseg (unlink_links (NxpLinks s) p) 0 (without p lt) 0.
Proof.
  intros R Hp. pose proof (rep_nodup _ _ _ R) as (Nk & Nd & Nt)%NoDup_app.
  destruct (rep_which _ _ _ _ R Hp) as [(H1 & _) | (H1 & _)].
  - apply dseg_two; eauto using rep_small_k, rep_kernel, rep_title.
  - apply and_comm. apply dseg_two; eauto using rep_small_t, rep_kernel, rep_title.
    intros q Hq Hin. by apply (Nd q).
Qed.

Lemma unlink_heads_rep s lk lt p : supply_rep s lk lt -> p ∈ lk ++ lt ->
  NxpFreeHeadKernel (NxpUnlink s p) = first_of (without p lk) 0 /\
  NxpFreeHeadTitle (NxpUnlink s p) = first_of (without p lt) 0.
Proof.
  intros R Hp. pose proof (rep_nodup _ _ _ R) as (Nk & Nd & Nt)%NoDup_app.
  destruct (unlink_heads s p) as [-> ->]. rewrite (rep_headk _ _ _ R), (rep_headt _ _ _ R).
  destruct (rep_which _ _ _ _ R Hp) as [(H1 & H2 & ->) | (H1 & H2 & ->)];
    cbn [andb negb]; rewrite (without_notin p _ H2).
  - split; [| done]. symmetry. apply first_of_without; eauto using rep_small_k, rep_kernel.
  - split; [done |]. symmetry. apply first_of_without; eauto using rep_small_t, rep_title.
Qed.

Lemma unlink_rep_frame s lk lt p q : supply_rep s lk lt -> p ∈ lk ++ lt -> q ∉ lk ++ lt ->
  NxpLinks (NxpUnlink s p) !! q = NxpLinks s !! q.
Proof.
  intros R Hp Hq. rewrite NxpLinks_unlink.
  destruct (rep_which _ _ _ _ R Hp) as [(H1 & _) | (H1 & _)].
  - apply (unlink_links_other _ lk); eauto using rep_small_k, rep_kernel. set_solver.
  - apply (unlink_links_other _ lt); eauto using rep_small_t, rep_title. set_solver.
Qed.

(** The writes of [NxpUnlink] stay inside the array. *)
Lemma unlink_rep_dom s lk lt p q : supply_rep s lk lt -> p ∈ lk ++ lt ->
  is_Some (NxpLinks (NxpUnlink s p) !! q) <-> 0 <= q <= NxpHighestPfn s.
Proof.
  intros R Hp. destruct (decide (q ∈ lk ++ lt)) as [Hq | Hq].
  - pose proof (rep_in_range _ _ _ R q Hq) as Hr. unfold in_range in Hr. split; [lia | intros _].
    destruct (unlink_dsegs _ _ _ _ R Hp) as [Dk Dt]. rewrite NxpLinks_unlink.
    destruct (decide (q = p)) as [-> | Hne]; [rewrite unlink_links_self; eauto |].
    assert (G : forall l, dseg (unlink_links (NxpLinks s) p) 0 (without p l) 0 -> q ∈ l ->
      is_Some (unlink_links (NxpLinks s) p !! q)).
    { intros l Hd Hin. assert (q ∈ without p l) as (l1 & l2 & E)%list_elem_of_split
        by by apply elem_of_without.
      rewrite E in Hd. rewrite (dseg_lookup _ _ _ _ _ _ Hd). eauto. }
    apply elem_of_app in Hq as [Hq | Hq]; eauto.
  - rewrite (unlink_rep_frame _ _ _ _ _ R Hp Hq). apply (rep_dom _ _ _ R).
Qed.

Lemma unlink_rep s lk lt p : supply_rep s lk lt -> p ∈ lk ++ lt ->
  supply_rep (NxpUnlink s p) (without p lk) (without p lt).
Proof.
  intros R Hp. pose proof (rep_nodup _ _ _ R) as Hn.
  destruct (unlink_fields s p) as (F1 & F2 & F3 & F4).
  destruct (unlink_heads_rep _ _ _ _ R Hp) as [Hk Ht].
  destruct (unlink_dsegs _ _ _ _ R Hp) as [Dk Dt].
  pose proof (rep_length_bound _ _ _ R) as Hlen. pose proof (rep_highest _ _ _ R) as Hh.
  pose proof (without_length p _ Hn Hp) as Hw.
  pose proof (without_filter_length (fun q => generic q = true) p _ Hn Hp) as Hg.
  pose proof (rep_avail _ _ _ R) as Ha. pose proof (rep_generic _ _ _ R) as Hga.
  unfold NXP_GENERIC_FLOOR_PFN, NXP_PFN_MASK in Hh.
  constructor; rewrite <- ?without_app, ?F1, ?F2, ?F4, ?NxpLinks_unlink; try done;
    eauto using rep_highest, rep_klow, rep_hint.
  - intros q. rewrite <- NxpLinks_unlink. by apply (unlink_rep_dom _ lk lt).
  - by apply NoDup_filter.
  - intros q [Hq _]%elem_of_without. unfold in_range. rewrite F1, (kernel_class_ext s) by done.
    by apply (rep_kclass _ _ _ R).
  - intros q [Hq _]%elem_of_without. unfold in_range. rewrite F1, (kernel_class_ext s) by done.
    by apply (rep_tclass _ _ _ R).
  - intros q e He Hq. rewrite elem_of_without in Hq.
    destruct (decide (q = p)) as [-> | Hne].
    + rewrite unlink_links_self in He. injection He as <-. lia.
    + rewrite <- NxpLinks_unlink, (unlink_rep_frame _ _ _ _ _ R Hp) in He by tauto.
      apply (rep_used _ _ _ R q); tauto.
  - destruct (unlink_counts s p) as [-> _]. rewrite sub32_id; lia.
  - destruct (unlink_counts s p) as [_ ->].
    pose proof (length_filter (λ q : Z, generic q = true) (lk ++ lt)).
    destruct (generic p) eqn:G; [rewrite decide_True in Hg by done | rewrite decide_False in Hg by congruence].
    + rewrite sub32_id; lia.
    + lia.
  - intros q [Hq _]%elem_of_without. by apply (rep_hint_low _ _ _ R).
Qed.

(** ** [NxpPushHead] and [NxkPageSupplyReturn] *)

(** The array after pushing [p] on a list whose head is [h]. *)
Definition push_links (L : gmap Z Z) (p h : Z) : gmap Z Z :=
  let l1 := <[p := enc 0 h]> L in
  if h =? 0 then l1 else <[h := enc p (NXP_NEXT (rd l1 h))]> l1.

Lemma NxpLinks_push s p :
  NxpLinks (NxpPushHead s p) = push_links (NxpLinks s) p (NxpHeadFor s p).
Proof.
  unfold NxpPushHead, push_links, set_head_for. rewrite !enc_head.
  by destruct (kernel_class _ p).
Qed.

Lemma push_heads s p :
  NxpFreeHeadKernel (NxpPushHead s p) = (if kernel_class s p then p else NxpFreeHeadKernel s) /\
  NxpFreeHeadTitle (NxpPushHead s p) = (if kernel_class s p then NxpFreeHeadTitle s else p).
Proof.
  unfold NxpPushHead, set_head_for, set_links, kernel_class. simpl NxpKernelLowPfn.
  simpl NxpKernelHighPfn. by destruct (_ && _).
Qed.

Lemma dseg_push L l p : small l -> NoDup l -> p ∉ l -> dseg L 0 l 0 ->
  dseg (push_links L p (first_of l 0)) 0 (p :: l) 0.
Proof.
  intros Hs Hn Hp H. unfold push_links. destruct l as [| h l].
  - simpl. by rewrite lookup_insert_eq.
  - change (first_of (h :: l) 0) with h. inversion Hs as [| ? ? Hh Hs']; subst.
    destruct (Z.eqb_spec h 0) as [-> | H0]; [lia |].
    apply NoDup_cons in Hn as [Hhl Hn]. split.
    + rewrite lookup_insert_ne by set_solver. by rewrite lookup_insert_eq.
    + apply (dseg_set_first _ 0 h l 0); auto; [unfold NXP_PFN_MASK; lia.. |].
      by apply dseg_frame.
Qed.

Lemma push_links_frame L l p q : q ∉ l -> q <> p ->
  push_links L p (first_of l 0) !! q = L !! q.
Proof.
  intros Hq Hne. unfold push_links. destruct l as [| h l].
  - simpl. by rewrite lookup_insert_ne.
  - change (first_of (h :: l) 0) with h. destruct (h =? 0).
    + by rewrite lookup_insert_ne.
    + by rewrite !lookup_insert_ne by set_solver.
Qed.

Lemma push_links_dom L l p q : is_Some (L !! p) -> (forall x, x ∈ l -> is_Some (L !! x)) ->
  is_Some (push_links L p (first_of l 0) !! q) <-> is_Some (L !! q).
Proof.
  intros Hp Hl. unfold push_links.
  assert (G : forall (M : gmap Z Z) x v, is_Some (M !! x) -> is_Some (<[x := v]> M !! q) <-> is_Some (M !! q)).
  { intros M x v Hx. rewrite lookup_insert_is_Some. destruct (decide (x = q)) as [-> |]; tauto. }
  destruct l as [| h l]; [by apply G |]. change (first_of (h :: l) 0) with h.
  destruct (h =? 0); [by apply G |].
  rewrite G; [by apply G |]. apply lookup_insert_is_Some.
  destruct (decide (p = h)) as [-> | Hne]; [by left | right; split; [done |]].
  apply Hl. set_solver.
Qed.

(** The lists after pushing [p]. *)
Definition push_k (s : supply) (p : Z) (lk : list Z) : list Z := if kernel_class s p then p :: lk else lk.
Definition push_t (s : supply) (p : Z) (lt : list Z) : list Z := if kernel_class s p then lt else p :: lt.

Lemma push_perm s p lk lt : push_k s p lk ++ push_t s p lt ≡ₚ p :: (lk ++ lt).
Proof. unfold push_k, push_t. destruct (kernel_class s p); [done |]. symmetry. apply Permutation_middle. Qed.

Lemma push_head_for s lk lt p : supply_rep s lk lt ->
  NxpHeadFor s p = first_of (if kernel_class s p then lk else lt) 0.
Proof.
  intros R. unfold NxpHeadFor. rewrite (rep_headk _ _ _ R), (rep_headt _ _ _ R).
  by destruct (kernel_class s p).
Qed.

Lemma push_dsegs s lk lt p : supply_rep s lk lt -> p ∉ lk ++ lt ->
  dseg (NxpLinks (NxpPushHead s p)) 0 (push_k s p lk) 0 /\
  dseg (NxpLinks (NxpPushHead s p)) 0 (push_t s p lt) 0.
Proof.
  intros R Hp. pose proof (rep_nodup _ _ _ R) as (Nk & Nd & Nt)%NoDup_app.
  rewrite NxpLinks_push, (push_head_for _ _ _ _ R). unfold push_k, push_t.
  rewrite not_elem_of_app in Hp. destruct Hp as [Hpk Hpt].
  destruct (kernel_class s p).
  - split; [apply dseg_push; eauto using rep_small_k, rep_kernel |].
    apply (dseg_ext (NxpLinks s)); [| by apply (rep_title _ _ _ R)].
    intros q Hq. apply push_links_frame; [| by intros ->]. intros Hin. by apply (Nd q).
  - split; [| apply dseg_push; eauto using rep_small_t, rep_title].
    apply (dseg_ext (NxpLinks s)); [| by apply (rep_kernel _ _ _ R)].
    intros q Hq. apply push_links_frame; [by apply Nd | by intros ->].
Qed.

Lemma push_frame s lk lt p q : supply_rep s lk lt -> q ∉ lk ++ lt -> q <> p ->
  NxpLinks (NxpPushHead s p) !! q = NxpLinks s !! q.
Proof.
  intros R Hq Hne. rewrite NxpLinks_push, (push_head_for _ _ _ _ R).
  apply push_links_frame; [| done]. destruct (kernel_class s p); set_solver.
Qed.

Lemma return_links s p : NxpLinks (NxkPageSupplyReturn s p) = NxpLinks (NxpPushHead s p).
Proof. unfold NxkPageSupplyReturn. by destruct (_ <? _). Qed.

Lemma return_fields s p :
  NxpHighestPfn (NxkPageSupplyReturn s p) = NxpHighestPfn s /\
  NxpKernelLowPfn (NxkPageSupplyReturn s p) = NxpKernelLowPfn s /\
  NxpKernelHighPfn (NxkPageSupplyReturn s p) = NxpKernelHighPfn s /\
  NxpSpillHint (NxkPageSupplyReturn s p) = Z.min p (NxpSpillHint s) /\
  NxpFreeHeadKernel (NxkPageSupplyReturn s p) = NxpFreeHeadKernel (NxpPushHead s p) /\
  NxpFreeHeadTitle (NxkPageSupplyReturn s p) = NxpFreeHeadTitle (NxpPushHead s p) /\
  MmAvailablePages (NxkPageSupplyReturn s p) = add32 (MmAvailablePages s) 1 /\
  NxpGenericAvail (NxkPageSupplyReturn s p) =
    (if generic p then add32 (NxpGenericAvail s) 1 else NxpGenericAvail s).
Proof.
  destruct (push_fields s p) as (F1 & F2 & F3 & F4).
  unfold NxkPageSupplyReturn. rewrite F4.
  destruct (Z.ltb_spec p (NxpSpillHint s)) as [H | H]; [rewrite Z.min_l by lia | rewrite Z.min_r by lia];
    repeat split; done.
Qed.

Lemma return_rep s lk lt p : supply_rep s lk lt -> in_range s p -> p ∉ lk ++ lt ->
  supply_rep (NxkPageSupplyReturn s p) (push_k s p lk) (push_t s p lt).
Proof.
  intros R Hr Hp.
  destruct (return_fields s p) as (F1 & F2 & F3 & F4 & F5 & F6 & F7 & F8).
  destruct (push_heads s p) as [Hk Ht]. destruct (push_dsegs _ _ _ _ R Hp) as [Dk Dt].
  pose proof (push_perm s p lk lt) as HP. pose proof (rep_length_bound _ _ _ R) as Hlen.
  pose proof (rep_highest _ _ _ R) as Hh. pose proof (rep_hint _ _ _ R) as Hhint.
  pose proof (length_filter (λ q : Z, generic q = true) (lk ++ lt)) as Hf.
  pose proof (rep_avail _ _ _ R) as Ha. pose proof (rep_generic _ _ _ R) as Hga.
  pose proof (rep_headk _ _ _ R). pose proof (rep_headt _ _ _ R).
  unfold NXP_GENERIC_FLOOR_PFN, NXP_PFN_MASK, in_range in Hh, Hr.
  constructor; rewrite ?return_links, ?F1, ?F2, ?F4, ?F5, ?F6, ?F7, ?F8, ?HP; try done;
    eauto using rep_highest, rep_klow.
  - intros q. rewrite NxpLinks_push, (push_head_for _ _ _ _ R), <- (rep_dom _ _ _ R q).
    apply push_links_dom; [apply (rep_dom _ _ _ R p); lia |].
    intros x Hx. apply (rep_dom _ _ _ R x).
    assert (in_range s x) by (apply (rep_in_range _ _ _ R); destruct (kernel_class s p); set_solver).
    unfold in_range in *. lia.
  - rewrite Hk. unfold push_k. by destruct (kernel_class s p).
  - rewrite Ht. unfold push_t. by destruct (kernel_class s p).
  - apply NoDup_cons. split; [done | by apply (rep_nodup _ _ _ R)].
  - intros q Hq. unfold in_range. rewrite F1, (kernel_class_ext s) by done. unfold push_k in Hq.
    destruct (kernel_class s p) eqn:E; [| by apply (rep_kclass _ _ _ R)].
    apply elem_of_cons in Hq as [-> | Hq]; [done | by apply (rep_kclass _ _ _ R)].
  - intros q Hq. unfold in_range. rewrite F1, (kernel_class_ext s) by done. unfold push_t in Hq.
    destruct (kernel_class s p) eqn:E; [by apply (rep_tclass _ _ _ R) |].
    apply elem_of_cons in Hq as [-> | Hq]; [done | by apply (rep_tclass _ _ _ R)].
  - intros q e He Hq. rewrite HP, not_elem_of_cons in Hq. destruct Hq as [Hne Hq].
    rewrite (push_frame _ _ _ _ _ R Hq Hne) in He. by apply (rep_used _ _ _ R q).
  - rewrite add32_id by lia. simpl. lia.
  - rewrite filter_cons. destruct (generic p) eqn:G.
    + rewrite decide_True by done. rewrite add32_id by lia. simpl. lia.
    + by rewrite decide_False by done.
  - lia.
  - intros q Hq Hg. unfold push_t in Hq. destruct (kernel_class s p).
    + pose proof (rep_hint_low _ _ _ R q Hq Hg). lia.
    + apply elem_of_cons in Hq as [-> | Hq]; [lia |].
      pose proof (rep_hint_low _ _ _ R q Hq Hg). lia.
Qed.

(** ** The operations on well-formed databases *)

(** The words of the frames in use are unchanged, except at [p]. *)
Definition used_kept (s s' : supply) : Prop :=
  forall q, q ∉ free_set s -> q ∉ free_set s' -> link s' q = link s q.

(** One frame leaves the free set, with no owner recorded yet. *)
Definition took (s : supply) (p : Z) (s' : supply) : Prop :=
  supply_wf s' /\ p ∈ free_set s /\ free_set s' = free_set s ∖ {[p]} /\
  link s' p = 0 /\ used_kept s s' /\ NxpHighestPfn s' = NxpHighestPfn s.

Lemma elem_of_free_set s p : supply_wf s -> p ∈ free_set s <-> NxkPageSupplyIsFree s p = true.
Proof.
  intros (lk & lt & R). rewrite (rep_free_set _ _ _ R), elem_of_list_to_set. symmetry.
  apply (rep_IsFree _ _ _ R).
Qed.

Lemma free_set_range s p : supply_wf s -> p ∈ free_set s -> in_range s p.
Proof.
  intros (lk & lt & R). rewrite (rep_free_set _ _ _ R), elem_of_list_to_set.
  apply (rep_in_range _ _ _ R).
Qed.

Lemma entry_free_free_set s p : supply_wf s -> 0 <= p <= NxpHighestPfn s ->
  entry_free (link s p) = true <-> p ∈ free_set s.
Proof.
  intros (lk & lt & R) Hp. rewrite (rep_free_set _ _ _ R), elem_of_list_to_set.
  by apply rep_entry_free.
Qed.

Lemma wf_highest s : supply_wf s -> 16 <= NxpHighestPfn s <= 32767.
Proof. intros (lk & lt & R). apply (rep_highest _ _ _ R). Qed.

Lemma wf_counts s : supply_wf s ->
  MmAvailablePages s = Z.of_nat (size (free_set s)) /\
  NxpGenericAvail s = Z.of_nat (size (filter (fun p => generic p = true) (free_set s))).
Proof.
  intros (lk & lt & R). rewrite (rep_size _ _ _ R). split; [done |].
  rewrite (rep_free_set _ _ _ R), (rep_generic _ _ _ R). f_equal.
  rewrite <- (size_list_to_set (C := gset Z)) by apply NoDup_filter, (rep_nodup _ _ _ R). f_equal.
  apply set_eq. intros q. by rewrite elem_of_filter, !elem_of_list_to_set, list_elem_of_filter.
Qed.

Lemma wf_counts_bound s : supply_wf s ->
  0 <= NxpGenericAvail s <= NxpHighestPfn s /\ 0 <= MmAvailablePages s <= NxpHighestPfn s.
Proof.
  intros (lk & lt & R). rewrite (rep_generic _ _ _ R), (rep_avail _ _ _ R).
  pose proof (rep_length_bound _ _ _ R).
  pose proof (length_filter (λ q : Z, generic q = true) (lk ++ lt)). lia.
Qed.

Lemma set_hint_rep h s lk lt : supply_rep s lk lt -> 1 <= h <= NxpHighestPfn s ->
  (forall p, p ∈ lt -> NXP_GENERIC_FLOOR_PFN <= p -> h <= p) -> supply_rep (set_hint h s) lk lt.
Proof. intros [] Hh Hl. by constructor. Qed.

Lemma unlink_took s p : supply_wf s -> p ∈ free_set s -> took s p (NxpUnlink s p).
Proof.
  intros (lk & lt & R) Hp.
  assert (Hin : p ∈ lk ++ lt) by by rewrite (rep_free_set _ _ _ R), elem_of_list_to_set in Hp.
  pose proof (unlink_rep _ _ _ _ R Hin) as R'.
  assert (HF : free_set (NxpUnlink s p) = free_set s ∖ {[p]}).
  { rewrite (rep_free_set _ _ _ R), (rep_free_set _ _ _ R'), <- without_app.
    apply set_eq. intros q. rewrite elem_of_list_to_set, elem_of_without. set_solver. }
  split; [by exists (without p lk), (without p lt) |]. split; [done |]. split; [done |].
  split; [unfold link; rewrite NxpLinks_unlink; by apply rd_Some, unlink_links_self |].
  split; [| apply unlink_fields].
  intros q Hq _. rewrite (rep_free_set _ _ _ R), elem_of_list_to_set in Hq. unfold link, rd.
  by rewrite (unlink_rep_frame _ _ _ _ _ R Hin Hq).
Qed.

(** Setting the hint changes neither the free set nor any word. *)
Lemma took_set_hint h s p s' : took (set_hint h s) p s' -> took s p s'.
Proof. done. Qed.

(** *** Scans *)

Lemma spill_scan_spec fuel s Pfn : 0 < Pfn <= NxpHighestPfn s ->
  NxpHighestPfn s - Pfn < Z.of_nat fuel ->
  exists r, spill_scan fuel s Pfn = Some r /\
    ((r = 0 /\ forall q, Pfn <= q <= NxpHighestPfn s -> entry_free (link s q) = false) \/
     (Pfn <= r <= NxpHighestPfn s /\ entry_free (link s r) = true /\
      forall q, Pfn <= q < r -> entry_free (link s q) = false)).
Proof.
  revert Pfn. induction fuel as [| f IH]; intros Pfn HP Hf; [lia |]. simpl.
  destruct (entry_free (link s Pfn)) eqn:E.
  - exists Pfn. split; [done |]. right. repeat split; try lia; done.
  - destruct (Z.leb_spec (NxpHighestPfn s) Pfn) as [H | H].
    + exists 0. split; [done |]. left. split; [done |]. intros q Hq. by replace q with Pfn by lia.
    + destruct (IH (Pfn + 1)) as (r & -> & Hr); [lia.. |]. exists r. split; [done |].
      destruct Hr as [[-> Hr] | (Hr & Hfr & Hn)]; [left | right]; repeat split; try lia; try done;
        intros q Hq; (destruct (decide (q = Pfn)) as [-> |]; [done |]); [apply Hr | apply Hn]; lia.
Qed.

Lemma outside_scan_spec n s lo hi Pfn : 0 < Pfn ->
  let r := outside_scan n s lo hi Pfn in
  (r = 0 /\ forall q, Pfn <= q < Pfn + Z.of_nat n -> in_window lo hi q = false ->
     entry_free (link s q) = false) \/
  (Pfn <= r < Pfn + Z.of_nat n /\ entry_free (link s r) = true /\ in_window lo hi r = false).
Proof.
  revert Pfn. induction n as [| n IH]; intros Pfn HP; cbn [outside_scan].
  - left. split; [done | lia].
  - destruct (entry_free (link s Pfn) && negb (in_window lo hi Pfn)) eqn:E.
    + right. apply andb_true_iff in E as [E1 E2%negb_true_iff]. repeat split; try done; lia.
    + destruct (IH (Pfn + 1)) as [[-> H] | H]; [lia | left | right].
      * split; [done |]. intros q Hq Hw. destruct (decide (q = Pfn)) as [-> |].
        -- rewrite Hw, andb_true_r in E. done.
        -- apply H; [lia | done].
      * destruct H as (H1 & H2 & H3). repeat split; try done; lia.
Qed.

Lemma list_walk_spec fuel s ok prev l : small l -> 0 <= prev <= NXP_PFN_MASK ->
  dseg (NxpLinks s) prev l 0 -> (length l < fuel)%nat ->
  exists r, list_walk fuel s ok (first_of l 0) = Some r /\
    ((r = 0 /\ forall q, q ∈ l -> ok q = false) \/ (r ∈ l /\ ok r = true)).
Proof.
  revert fuel prev. induction l as [| p l IH]; intros fuel prev Hs Hp Hd Hf.
  - destruct fuel; [simpl in Hf; lia |]. exists 0. split; [done |]. left. split; [done | set_solver].
  - destruct fuel as [| f]; [lia |]. inversion Hs as [| ? ? Hps Hs']; subst. destruct Hd as [H1 H2].
    change (first_of (p :: l) 0) with p. cbn [list_walk].
    destruct (Z.eqb_spec p 0); [lia |]. destruct (ok p) eqn:E.
    + exists p. split; [done |]. right. split; [set_solver | done].
    + unfold link. rewrite (rd_Some _ _ _ H1), NXP_NEXT_enc; [| done |].
      2: apply small_first; [done | unfold NXP_PFN_MASK; lia].
      destruct (IH f p) as (r & -> & Hr); [done | lia | done | simpl in Hf; lia |].
      exists r. split; [done |]. destruct Hr as [[-> Hr] | [Hr Ho]]; [left | right]; set_solver.
Qed.

Lemma scan_fuel_enough s lk lt : supply_rep s lk lt ->
  (length lk < scan_fuel s)%nat /\ (length lt < scan_fuel s)%nat.
Proof.
  intros R. pose proof (rep_length_bound _ _ _ R) as H. rewrite length_app in H.
  unfold scan_fuel. lia.
Qed.

Lemma first_of_cases l : small l -> (first_of l 0 = 0 /\ l = []) \/ (first_of l 0 ∈ l /\ first_of l 0 <> 0).
Proof.
  intros H. destruct H as [| x l Hx]; [by left |]. right. change (first_of (x :: l) 0) with x.
  split; [set_solver | lia].
Qed.

Lemma rep_kernel_generic s lk lt p : supply_rep s lk lt -> p ∈ lk -> 16 <= p.
Proof.
  intros R Hp. destruct (rep_kclass _ _ _ R p Hp) as [_ Hc]. pose proof (rep_klow _ _ _ R).
  unfold kernel_class, NXP_GENERIC_FLOOR_PFN in *. lia.
Qed.

(** What [NxkPageSupplyTakeAny] promises: a frame of the kernel class while
    one is free, otherwise the lowest free frame above the pin-only floor. *)
Definition any_choice (s : supply) (p : Z) : Prop :=
  16 <= p /\
  (kernel_class s p = true \/
   ((forall q, q ∈ free_set s -> kernel_class s q = false) /\
    forall q, q ∈ free_set s -> 16 <= q -> p <= q)).

Lemma spill_lowest s lt : supply_rep s [] lt ->
  exists r, spill_scan (scan_fuel s) s (spill_start s) = Some r /\
    ((r = 0 /\ forall q, q ∈ lt -> q < 16) \/
     (16 <= r <= NxpHighestPfn s /\ r ∈ lt /\ forall q, q ∈ lt -> 16 <= q -> r <= q)).
Proof.
  intros R. pose proof (rep_hint _ _ _ R) as Hhint. pose proof (rep_highest _ _ _ R) as Hh.
  unfold NXP_GENERIC_FLOOR_PFN, NXP_PFN_MASK in Hh.
  assert (HP : 16 <= spill_start s <= NxpHighestPfn s)
    by (unfold spill_start, NXP_GENERIC_FLOOR_PFN; destruct (Z.ltb_spec (NxpSpillHint s) 16); lia).
  assert (Low : forall q, q ∈ lt -> 16 <= q -> spill_start s <= q).
  { intros q Hq Hg. pose proof (rep_hint_low _ _ _ R q Hq Hg).
    unfold spill_start, NXP_GENERIC_FLOOR_PFN. destruct (_ <? _); lia. }
  assert (FS : forall q, 0 <= q <= NxpHighestPfn s -> entry_free (link s q) = false -> q ∉ lt).
  { intros q Hq E Hin. apply (rep_entry_free _ _ _ R q Hq) in Hin. congruence. }
  assert (Rng : forall q, q ∈ lt -> q <= NxpHighestPfn s)
    by (intros q Hq; apply (rep_in_range _ _ _ R q Hq)).
  destruct (spill_scan_spec (scan_fuel s) s (spill_start s)) as (r & -> & Hr);
    [lia | unfold scan_fuel; lia |].
  exists r. split; [done |]. destruct Hr as [[-> Hr] | (Hr & Hf & Hn)]; [left | right].
  - split; [done |]. intros q Hq. destruct (Z.lt_ge_cases q 16) as [| Hg]; [done |].
    pose proof (Low q Hq Hg). pose proof (Rng q Hq). destruct (FS q); [lia | apply Hr; lia | done].
  - split; [lia |]. split; [apply (rep_entry_free _ _ _ R r); [lia | done] |].
    intros q Hq Hg. destruct (Z.lt_ge_cases q r) as [Hlt |]; [| done].
    pose proof (Low q Hq Hg). destruct (FS q); [lia | apply Hn; lia | done].
Qed.

Lemma take_any_spec s : supply_wf s -> exists p s', NxkPageSupplyTakeAny s = Some (p, s') /\
  ((p = 0 /\ s' = s /\ forall q, q ∈ free_set s -> q < 16) \/ (took s p s' /\ any_choice s p)).
Proof.
  intros W. pose proof W as (lk & lt & R).
  assert (FS : forall q, q ∈ free_set s <-> q ∈ lk ++ lt)
    by (intros q; by rewrite (rep_free_set _ _ _ R), elem_of_list_to_set).
  unfold NxkPageSupplyTakeAny. rewrite (rep_headk _ _ _ R), (rep_headt _ _ _ R).
  destruct (first_of_cases lk (rep_small_k _ _ _ R)) as [[-> ->] | [Hk Hk0]].
  - destruct (first_of_cases lt (rep_small_t _ _ _ R)) as [[-> ->] | [Ht Ht0]].
    { exists 0, s. split; [done |]. left. repeat split. intros q. rewrite FS. set_solver. }
    destruct (Z.eqb_spec (first_of lt 0) 0) as [? | _]; [done |]. rewrite Z.eqb_refl.
    destruct (spill_lowest _ _ R) as (r & -> & [[-> Hr] | (Hr & Hin & Hlow)]).
    + exists 0, s. split; [done |]. left. repeat split. intros q Hq%FS. by apply Hr.
    + destruct (Z.eqb_spec r 0); [lia |]. eexists r, _. split; [done |]. right. split.
      * apply (took_set_hint r), unlink_took; [| by apply FS]. exists [], lt.
        by apply set_hint_rep; [| lia |].
      * split; [lia |]. right. split; intros q Hq%FS; [by apply (rep_tclass _ _ _ R) | by apply Hlow].
  - destruct (Z.eqb_spec (first_of lk 0) 0) as [? | _]; [done |].
    eexists _, _. split; [done |]. right. split.
    + apply unlink_took; [done |]. apply FS. set_solver.
    + split; [by apply (rep_kernel_generic _ _ _ _ R) |]. left. by apply (rep_kclass _ _ _ R).
Qed.

Lemma take_outside_spec s lo hi : supply_wf s ->
  exists p s', NxkPageSupplyTakeAnyOutside s lo hi = Some (p, s') /\
    ((p = 0 /\ s' = s /\ forall q, q ∈ free_set s -> 16 <= q -> in_window lo hi q = true) \/
     (took s p s' /\ in_window lo hi p = false /\
      (16 <= p \/ NxpSpillHint s <= p))).
Proof.
  intros W. pose proof W as (lk & lt & R).
  assert (FS : forall q, q ∈ free_set s <-> q ∈ lk ++ lt)
    by (intros q; by rewrite (rep_free_set _ _ _ R), elem_of_list_to_set).
  pose proof (rep_hint _ _ _ R) as Hhint. destruct (scan_fuel_enough _ _ _ R) as [Fk Ft].
  assert (B0 : 0 <= 0 <= NXP_PFN_MASK) by (unfold NXP_PFN_MASK; lia).
  unfold NxkPageSupplyTakeAnyOutside. rewrite (rep_headk _ _ _ R), (rep_headt _ _ _ R).
  cbn zeta. set (ok := outside lo hi).
  destruct (negb (first_of lk 0 =? 0) && ok (first_of lk 0)) eqn:E1.
  { apply andb_true_iff in E1 as [E1 E2%negb_true_iff].
    destruct (first_of_cases lk (rep_small_k _ _ _ R)) as [[E0 _] | [Hk Hk0]]; [by rewrite E0 in E1 |].
    eexists _, _. split; [done |]. right. split; [apply unlink_took; [done | apply FS; set_solver] |].
    split; [done |]. left. by apply (rep_kernel_generic _ _ _ _ R). }
  pose proof (outside_scan_spec (Z.to_nat (NxpHighestPfn s - NxpSpillHint s + 1)) s lo hi
    (NxpSpillHint s) ltac:(lia)) as Hs.
  set (r := outside_scan _ _ _ _ _) in *. cbn zeta in Hs.
  destruct Hs as [[-> Hs] | (Hr & Hf & Hw)].
  2: { destruct (Z.eqb_spec r 0); [lia |]. eexists _, _. split; [done |]. right.
    split; [apply unlink_took; [done | apply entry_free_free_set; [done | lia | done]] |].
    split; [done | right; lia]. }
  rewrite Z.eqb_refl. cbn [negb].
  destruct (list_walk_spec (scan_fuel s) s ok 0 lk (rep_small_k _ _ _ R) B0 (rep_kernel _ _ _ R) Fk)
    as (rk & -> & [[-> Hk] | [Hk Hok]]).
  2: { pose proof (rep_kernel_generic _ _ _ _ R Hk). destruct (Z.eqb_spec rk 0); [lia |].
    eexists _, _. split; [done |]. right. split; [apply unlink_took; [done | apply FS; set_solver] |].
    split; [by apply negb_true_iff in Hok | by left]. }
  rewrite Z.eqb_refl. cbn [negb].
  destruct (list_walk_spec (scan_fuel s) s (fun q => generic q && ok q) 0 lt
    (rep_small_t _ _ _ R) B0 (rep_title _ _ _ R) Ft) as (rt & -> & [[-> Ht] | [Ht Hok]]).
  - rewrite Z.eqb_refl. exists 0, s. split; [done |]. left. repeat split.
    intros q Hq%FS Hg. apply negb_false_iff. fold (ok q).
    apply elem_of_app in Hq as [Hq | Hq]; [by apply Hk |].
    specialize (Ht q Hq). unfold generic, NXP_GENERIC_FLOOR_PFN in Ht.
    rewrite (proj2 (Z.leb_le 16 q) Hg) in Ht. done.
  - apply andb_true_iff in Hok as [Hg Hok%negb_true_iff]. unfold generic, NXP_GENERIC_FLOOR_PFN in Hg.
    destruct (Z.eqb_spec rt 0); [lia |]. eexists _, _. split; [done |]. right.
    split; [apply unlink_took; [done | apply FS; set_solver] |]. split; [done | left; lia].
Qed.

Lemma return_wf s p : supply_wf s -> in_range s p -> p ∉ free_set s ->
  supply_wf (NxkPageSupplyReturn s p) /\
  free_set (NxkPageSupplyReturn s p) = {[p]} ∪ free_set s /\
  used_kept s (NxkPageSupplyReturn s p).
Proof.
  intros (lk & lt & R) Hr Hp. rewrite (rep_free_set _ _ _ R), elem_of_list_to_set in Hp.
  pose proof (return_rep _ _ _ _ R Hr Hp) as R'.
  assert (HF : free_set (NxkPageSupplyReturn s p) = {[p]} ∪ free_set s).
  { rewrite (rep_free_set _ _ _ R), (rep_free_set _ _ _ R').
    apply set_eq. intros q. rewrite elem_of_list_to_set, push_perm. set_solver. }
  split; [by eexists _, _ |]. split; [done |].
  intros q Hq Hq'. rewrite HF in Hq'. rewrite (rep_free_set _ _ _ R), elem_of_list_to_set in Hq.
  unfold link, rd. rewrite return_links, (push_frame _ _ _ _ _ R Hq); [done | set_solver].
Qed.

Lemma zero_words_lookup n : forall j i, zero_words n j !! i = if decide (j <= i < j + Z.of_nat n) then Some 0 else None.
Proof.
  induction n as [| n IH]; intros j i; cbn [zero_words]; [rewrite decide_False by lia; apply lookup_empty |].
  destruct (decide (i = j)) as [-> | Hne]; [rewrite lookup_insert_eq, decide_True by lia; done |].
  rewrite lookup_insert_ne, IH by done. apply decide_ext. lia.
Qed.

Lemma zero_links_lookup h i : 0 <= h -> zero_links h !! i = if decide (0 <= i <= h) then Some 0 else None.
Proof. intros Hh. unfold zero_links. rewrite zero_words_lookup. apply decide_ext. lia. Qed.

Lemma init_wf retail h : 16 <= h <= 32767 ->
  supply_wf (NxkPageSupplyInitialize retail h) /\ free_set (NxkPageSupplyInitialize retail h) = ∅.
Proof.
  intros Hh. assert (R : supply_rep (NxkPageSupplyInitialize retail h) [] []).
  { constructor; simpl; try done; try (unfold NXP_GENERIC_FLOOR_PFN, NXP_PFN_MASK; lia).
    - by destruct retail.
    - intros p. rewrite zero_links_lookup by lia. case_decide; [by eauto | split; [intros [? ?]; done | done]].
    - constructor.
    - set_solver.
    - set_solver.
    - intros p e He _. rewrite zero_links_lookup in He by lia. case_decide; [| done]. injection He as <-. lia. }
  split; [by eexists _, _ | by rewrite (rep_free_set _ _ _ R)].
Qed.

(** *** Ownership words *)

(** The words an owner can leave: a page-table entry's index is 20 bits. *)
Definition owner_va (PteVa : Z) : Prop :=
  NXP_OWNER_BASE < PteVa < NXP_OWNER_LIMIT /\ PteVa mod 4 = 0.

Lemma owner_index PteVa : owner_va PteVa ->
  let i := Z.shiftr (sub32 PteVa NXP_OWNER_BASE) 2 in
  0 < i < 2 ^ 20 /\ add32 NXP_OWNER_BASE (shl32 i 2) = PteVa.
Proof.
  unfold owner_va, NXP_OWNER_BASE, NXP_OWNER_LIMIT. intros [Hr Hm]. set (i := Z.shiftr _ 2).
  assert (Hi : i = (PteVa - 0xC0000000) / 4)
    by (subst i; rewrite sub32_id, Z.shiftr_div_pow2 by lia; done).
  assert (E : PteVa = 0xC0000000 + 4 * i) by (rewrite Hi; pose proof (Z.div_mod (PteVa - 0xC0000000) 4);
    pose proof (Z.mod_add PteVa (-0x30000000) 4); replace (PteVa + -0x30000000 * 4) with (PteVa - 0xC0000000) in * by lia; lia).
  split; [lia |]. unfold shl32. rewrite Z.shiftl_mul_pow2 by lia.
  rewrite u32_id by lia. rewrite add32_id by lia. lia.
Qed.

Lemma set_owner_rep s lk lt p e : supply_rep s lk lt -> in_range s p -> p ∉ lk ++ lt ->
  0 <= e < 2 ^ 20 -> supply_rep (set_links (<[p := e]> (NxpLinks s)) s) lk lt.
Proof.
  intros R Hr Hp He. unfold in_range in Hr. rewrite not_elem_of_app in Hp. destruct Hp as [Hpk Hpt].
  pose proof (rep_dom _ _ _ R) as Hdom. pose proof (rep_used _ _ _ R) as Hu.
  destruct R. constructor; simpl; try done.
  - intros q. rewrite <- Hdom, lookup_insert_is_Some. destruct (decide (p = q)) as [-> |]; [| tauto].
    split; [intros _; apply Hdom; lia | by left].
  - by apply dseg_frame.
  - by apply dseg_frame.
  - intros q x Hx Hq. destruct (decide (p = q)) as [-> | Hne].
    + rewrite lookup_insert_eq in Hx. by injection Hx as <-.
    + rewrite lookup_insert_ne in Hx by done. by apply (Hu q).
Qed.

Lemma write_used_wf s p e : supply_wf s -> in_range s p -> p ∉ free_set s -> 0 <= e < 2 ^ 20 ->
  let s' := set_links (<[p := e]> (NxpLinks s)) s in
  supply_wf s' /\ free_set s' = free_set s /\ link s' p = e /\
  forall q, q <> p -> link s' q = link s q.
Proof.
  intros (lk & lt & R) Hr Hp He s'. rewrite (rep_free_set _ _ _ R), elem_of_list_to_set in Hp.
  pose proof (set_owner_rep _ _ _ _ _ R Hr Hp He) as R'. fold s' in R'.
  split; [by eexists _, _ |]. split; [by rewrite (rep_free_set _ _ _ R), (rep_free_set _ _ _ R') |].
  split; [apply rd_insert_eq |]. intros q Hq. apply rd_insert_ne. congruence.
Qed.

(** *** Runs *)

Definition run_free (s : supply) (b n : Z) : Prop := forall q, b <= q < b + n -> q ∈ free_set s.

Lemma run_miss_spec s Base n : supply_wf s -> 0 < Base -> Base + Z.of_nat n < 2 ^ 32 ->
  match run_miss s Base n with
  | None => run_free s Base (Z.of_nat n)
  | Some f => Base <= f < Base + Z.of_nat n /\ f ∉ free_set s
  end.
Proof.
  intros W HB Hn. induction n as [| n IH]; cbn [run_miss].
  - intros q Hq. lia.
  - rewrite add32_id by lia. destruct (NxkPageSupplyIsFree s (Base + Z.of_nat n)) eqn:E.
    + specialize (IH ltac:(lia)). apply (elem_of_free_set _ _ W) in E.
      destruct (run_miss s Base n) as [f |]; [split; [lia | tauto] |].
      intros q Hq. destruct (decide (q = Base + Z.of_nat n)) as [-> |]; [done |]. apply IH. lia.
    + split; [lia |]. rewrite (elem_of_free_set _ _ W). congruence.
Qed.

Definition pages_of (b n : Z) : gset Z := list_to_set (map (fun i => b + Z.of_nat i) (seq 0 (Z.to_nat n))).

Lemma elem_of_pages_of q b n : 0 <= n -> q ∈ pages_of b n <-> b <= q < b + n.
Proof.
  intros Hn. unfold pages_of. rewrite elem_of_list_to_set, list_elem_of_fmap. split.
  - intros (i & -> & Hi%elem_of_seq). lia.
  - intros Hq. exists (Z.to_nat (q - b)). split; [lia |]. apply elem_of_seq. lia.
Qed.

Lemma unlink_run_spec n : forall s b, supply_wf s -> 0 < b -> b + Z.of_nat n < 2 ^ 32 ->
  run_free s b (Z.of_nat n) ->
  let s' := unlink_run s b n in
  supply_wf s' /\ free_set s' = free_set s ∖ pages_of b (Z.of_nat n) /\
  (forall q, b <= q < b + Z.of_nat n -> link s' q = 0) /\ used_kept s s' /\
  NxpHighestPfn s' = NxpHighestPfn s.
Proof.
  induction n as [| n IH]; intros s b W Hb Hn Hf; cbn [unlink_run].
  - repeat split; try done; [| lia]. change (pages_of b (Z.of_nat 0)) with (∅ : gset Z). set_solver.
  - destruct (unlink_took s b W) as (W1 & _ & F1 & L1 & U1 & H1); [apply Hf; lia |].
    rewrite add32_id by lia.
    destruct (IH (NxpUnlink s b) (b + 1)) as (W2 & F2 & L2 & U2 & H2); [done | lia | lia | |].
    { intros q Hq. rewrite F1. apply elem_of_difference. split; [apply Hf; lia |].
      rewrite elem_of_singleton. lia. }
    assert (P : forall q, q ∈ pages_of b (Z.of_nat (S n)) <-> q = b \/ q ∈ pages_of (b + 1) (Z.of_nat n))
      by (intros q; rewrite !elem_of_pages_of by lia; lia).
    split; [done |]. split; [| split; [| split; [| congruence]]].
    + rewrite F2, F1. apply set_eq. intros q. rewrite !elem_of_difference, P, elem_of_singleton. tauto.
    + intros q Hq. destruct (decide (q = b)) as [-> | Hne]; [| apply L2; lia].
      assert (Nb : b ∉ free_set (NxpUnlink s b)) by (rewrite F1, elem_of_difference, elem_of_singleton; tauto).
      rewrite (U2 b Nb); [exact L1 |]. rewrite F2, elem_of_difference. tauto.
    + intros q Hq Hq'. assert (Nq : q ∉ free_set (NxpUnlink s b)) by (rewrite F1, elem_of_difference; tauto).
      rewrite (U2 q Nq Hq'). by apply U1.
Qed.

Lemma align_down_spec x k : 0 <= k < 32 -> 0 <= x < 2 ^ 32 ->
  align_down x (2 ^ k) = x - x mod 2 ^ k.
Proof.
  intros Hk Hx. unfold align_down.
  assert (0 < 2 ^ k) by (apply Z.pow_pos_nonneg; lia).
  assert (2 ^ k < 2 ^ 32) by (apply Z.pow_lt_mono_r; lia).
  rewrite sub32_id by lia. apply land_not_ones; lia.
Qed.

(** The properties of rounding down that the searches use. *)
Lemma align_down_props x k : 0 <= k < 32 -> 0 <= x < 2 ^ 32 ->
  0 <= align_down x (2 ^ k) <= x /\ align_down x (2 ^ k) mod 2 ^ k = 0 /\
  forall b, b mod 2 ^ k = 0 -> b <= x -> b <= align_down x (2 ^ k).
Proof.
  intros Hk Hx. rewrite align_down_spec by done.
  assert (Hp : 0 < 2 ^ k) by (apply Z.pow_pos_nonneg; lia).
  pose proof (Z.mod_pos_bound x (2 ^ k) Hp) as Hb. pose proof (Z.div_mod x (2 ^ k)) as Hd.
  pose proof (Z.mod_le x (2 ^ k)) as Hle. split; [lia |]. split.
  - replace (x - x mod 2 ^ k) with (0 + (x / 2 ^ k) * 2 ^ k) by lia. rewrite Z.mod_add, Z.mod_0_l by lia. done.
  - intros b Hm Hbx. pose proof (Z.div_mod b (2 ^ k)) as Hdb. rewrite Hm in Hdb.
    assert (b / 2 ^ k <= x / 2 ^ k) by (apply Z.div_le_mono; lia). nia.
Qed.

(** A base the run allocators may return. *)
Definition run_fits (s : supply) (n lo hi align b : Z) : Prop :=
  Z.max lo 1 <= b /\ b + n - 1 <= Z.min hi (NxpHighestPfn s) /\ b mod align = 0.

Lemma run_search_spec s n lo k : supply_wf s -> 0 < n -> 1 <= lo -> 0 <= k < 32 ->
  forall fuel Base, 0 <= Base -> Base + n < 2 ^ 32 -> Base mod 2 ^ k = 0 -> Base < Z.of_nat fuel ->
  exists r, run_search fuel s n lo (2 ^ k) Base = Some r /\
    ((r = 0 /\ forall b, lo <= b <= Base -> b mod 2 ^ k = 0 -> ~ run_free s b n) \/
     (lo <= r <= Base /\ r mod 2 ^ k = 0 /\ run_free s r n /\
      forall b, r < b <= Base -> b mod 2 ^ k = 0 -> ~ run_free s b n)).
Proof.
  intros W Hn Hlo Hk. induction fuel as [| f IH]; intros Base HB Hbn Hal Hf; [lia |].
  cbn [run_search]. destruct (Z.leb_spec lo Base) as [Hl | Hl].
  2: { exists 0. split; [done |]. left. split; [done | intros; lia]. }
  pose proof (run_miss_spec s Base (Z.to_nat n) W ltac:(lia) ltac:(lia)) as Hm.
  rewrite Z2Nat.id in Hm by lia. destruct (run_miss s Base (Z.to_nat n)) as [x |].
  2: { exists Base. split; [done |]. right. repeat split; try done; try lia. }
  destruct Hm as [Hx Hxf].
  assert (Miss : forall b, x - n < b <= Base -> ~ run_free s b n)
    by (intros b Hb Hr; apply Hxf, Hr; lia).
  destruct (Z.ltb_spec x n) as [Hxn | Hxn].
  { exists 0. split; [done |]. left. split; [done |]. intros b Hb _. apply Miss. lia. }
  rewrite sub32_id by lia.
  destruct (align_down_props (x - n) k Hk ltac:(lia)) as (A1 & A2 & A3).
  set (B' := align_down (x - n) (2 ^ k)) in *.
  assert (Skip : forall b, B' < b <= Base -> b mod 2 ^ k = 0 -> ~ run_free s b n).
  { intros b Hb Hbm. apply Miss. destruct (Z.le_gt_cases b (x - n)); [| lia].
    pose proof (A3 b Hbm ltac:(lia)). lia. }
  destruct (IH B') as (r & -> & Hr); [lia | lia | done | lia |].
  exists r. split; [done |]. destruct Hr as [[-> Hr] | (Hr & Hrm & Hrf & Hrh)]; [left | right].
  - split; [done |]. intros b Hb Hbm. destruct (Z.le_gt_cases b B'); [apply Hr | apply Skip]; (done || lia).
  - repeat split; try done; try lia. intros b Hb Hbm.
    destruct (Z.le_gt_cases b B'); [apply Hrh | apply Skip]; (done || lia).
Qed.

(** The alignment actually used. *)
Definition align_of (AlignPages : Z) : Z := if AlignPages =? 0 then 1 else AlignPages.

Lemma run_window_spec s n lo hi al k : supply_wf s -> is_u32 n -> is_u32 lo -> is_u32 hi ->
  align_of al = 2 ^ k -> 0 <= k < 32 ->
  match run_window s n lo hi al with
  | None => forall b, n <> 0 -> ~ run_fits s n lo hi (2 ^ k) b
  | Some (lo', al', Base) =>
      0 < n /\ lo' = Z.max lo 1 /\ al' = 2 ^ k /\ 0 <= Base /\ Base + n <= 2 ^ 15 /\
      Base mod 2 ^ k = 0 /\ Base + n - 1 <= Z.min hi (NxpHighestPfn s) /\
      forall b, run_fits s n lo hi (2 ^ k) b -> b <= Base
  end.
Proof.
  intros W Hn Hlo Hhi Hal Hk. unfold is_u32 in *. pose proof (wf_highest _ W) as Hh.
  unfold run_window. fold (align_of al). rewrite Hal.
  destruct (Z.eqb_spec n 0) as [-> | Hn0]; [done |].
  set (hi' := if NxpHighestPfn s <? hi then _ else _).
  assert (Ehi : hi' = Z.min hi (NxpHighestPfn s))
    by (subst hi'; destruct (Z.ltb_spec (NxpHighestPfn s) hi); lia).
  set (lo' := if lo =? 0 then 1 else lo).
  assert (Elo : lo' = Z.max lo 1) by (subst lo'; destruct (Z.eqb_spec lo 0); lia).
  clearbody hi' lo'.
  destruct (Z.ltb_spec hi' lo') as [H1 | H1]; cbn [orb].
  { intros b _ (Hb1 & Hb2 & _). lia. }
  rewrite (sub32_id hi' lo'), (add32_id (hi' - lo') 1) by lia.
  destruct (Z.ltb_spec (hi' - lo' + 1) n) as [H2 | H2].
  { intros b _ (Hb1 & Hb2 & _). lia. }
  rewrite (sub32_id hi' n), add32_id by lia.
  destruct (align_down_props (hi' - n + 1) k Hk ltac:(lia)) as (A1 & A2 & A3).
  repeat split; try done; try lia.
  intros b (Hb1 & Hb2 & Hb3). apply A3; [done | lia].
Qed.

Lemma take_run_spec s n lo hi al k : supply_wf s -> is_u32 n -> is_u32 lo -> is_u32 hi ->
  align_of al = 2 ^ k -> 0 <= k < 32 ->
  exists b s', NxkPageSupplyTakeRun s n lo hi al = Some (b, s') /\
  ((b = 0 /\ s' = s /\ forall c, n <> 0 -> run_fits s n lo hi (2 ^ k) c -> ~ run_free s c n) \/
   (0 < n /\ run_fits s n lo hi (2 ^ k) b /\ run_free s b n /\
    (forall c, b < c -> run_fits s n lo hi (2 ^ k) c -> ~ run_free s c n) /\
    supply_wf s' /\ free_set s' = free_set s ∖ pages_of b n /\
    (forall q, b <= q < b + n -> link s' q = 0) /\ used_kept s s' /\
    NxpHighestPfn s' = NxpHighestPfn s)).
Proof.
  intros W Hn Hlo Hhi Hal Hk. unfold NxkPageSupplyTakeRun.
  pose proof (run_window_spec s n lo hi al k W Hn Hlo Hhi Hal Hk) as Hw.
  destruct (run_window s n lo hi al) as [[[lo' al'] Base] |].
  2: { exists 0, s. split; [done |]. left. repeat split. intros c Hc Hf. by destruct (Hw c Hc). }
  destruct Hw as (Hn0 & -> & -> & HB & HBn & HBm & HBh & Hmax).
  destruct (run_search_spec s n (Z.max lo 1) k W Hn0 ltac:(lia) Hk (S (Z.to_nat Base)) Base)
    as (r & -> & Hr); [lia | lia | done | lia |].
  destruct Hr as [[-> Hr] | (Hr & Hrm & Hrf & Hrh)].
  - exists 0, s. split; [done |]. left. repeat split. intros c _ Hf.
    apply Hr; [| by destruct Hf as (_ & _ & ?)]. split; [by destruct Hf | by apply Hmax].
  - destruct (Z.eqb_spec r 0); [lia |]. eexists r, _. split; [done |]. right.
    destruct (unlink_run_spec (Z.to_nat n) s r W) as (W2 & F2 & L2 & U2 & H2);
      [lia | lia | by rewrite Z2Nat.id by lia |].
    rewrite Z2Nat.id in F2, L2 by lia. split; [done |].
    split; [unfold run_fits; repeat split; [lia | lia | done] |]. split; [done |].
    split; [| done]. intros c Hc Hf. apply Hrh; [| by destruct Hf as (_ & _ & ?)].
    split; [done | by apply Hmax].
Qed.

(** ** The contract

    What the rest of the memory manager sees: a set of free frames and an
    owner per frame.  [call] lists the entry points, [exec] runs the code. *)

Inductive call : Type :=
| TakeAny
| TakeAnyOutside (LowPfn HighPfn : Z)
| TakeSpecific (Page : Z)
| TakeRun (RunPages LowPfn HighPfn AlignPages : Z)
| Return (Page : Z)
| SetOwner (Page PteVa : Z).

Definition exec (s : supply) (c : call) : option (Z * supply) :=
  match c with
  | TakeAny => NxkPageSupplyTakeAny s
  | TakeAnyOutside lo hi => NxkPageSupplyTakeAnyOutside s lo hi
  | TakeSpecific p => let '(ok, s') := NxkPageSupplyTakeSpecific s p in Some (Z.b2z ok, s')
  | TakeRun n lo hi al => NxkPageSupplyTakeRun s n lo hi al
  | Return p => Some (0, NxkPageSupplyReturn s p)
  | SetOwner p va => Some (0, NxkPageSupplySetOwner s p va)
  end.

(** The callers' obligations: the [ASSERT]s of the code, and the widths of
    the arguments. *)
Definition legal (s : supply) (c : call) : Prop :=
  match c with
  | TakeRun n lo hi al =>
      is_u32 n /\ is_u32 lo /\ is_u32 hi /\ exists k, 0 <= k < 32 /\ align_of al = 2 ^ k
  | Return p => in_range s p /\ NxkPageSupplyIsFree s p = false
  | SetOwner p va => va = 0 \/ owner_va va
  | _ => True
  end.

(** The abstract step: from free set [F] and owners [own] to [F'] and
    [own'], returning [r]. *)
Definition spec_step (high : Z) (F : gset Z) (own : Z -> Z) (c : call) (r : Z)
    (F' : gset Z) (own' : Z -> Z) : Prop :=
  match c with
  | TakeAny =>
      (forall q, own' q = own q) /\
      ((r = 0 /\ F' = F /\ forall q, q ∈ F -> q < NXP_GENERIC_FLOOR_PFN) \/
       (r ∈ F /\ NXP_GENERIC_FLOOR_PFN <= r /\ F' = F ∖ {[r]}))
  | TakeAnyOutside lo hi =>
      (forall q, own' q = own q) /\
      ((r = 0 /\ F' = F /\ forall q, q ∈ F -> NXP_GENERIC_FLOOR_PFN <= q -> lo <= q <= hi) \/
       (r ∈ F /\ ~ (lo <= r <= hi) /\ F' = F ∖ {[r]}))
  | TakeSpecific p =>
      (forall q, own' q = own q) /\
      ((r = 0 /\ F' = F /\ (p ∉ F)) \/ (r = 1 /\ p ∈ F /\ F' = F ∖ {[p]}))
  | TakeRun n lo hi al =>
      (forall q, own' q = own q) /\
      ((r = 0 /\ F' = F) \/
       (0 < n /\ Z.max lo 1 <= r /\ r + n - 1 <= hi /\ r mod align_of al = 0 /\
        pages_of r n ⊆ F /\ F' = F ∖ pages_of r n))
  | Return p => F' = {[p]} ∪ F /\ own' p = 0 /\ forall q, q <> p -> own' q = own q
  | SetOwner p va =>
      F' = F /\ (forall q, q <> p -> own' q = own q) /\
      own' p = if decide (1 <= p <= high /\ (p ∉ F)) then va else own p
  end.

(** Databases the code can reach from [NxkPageSupplyInitialize]. *)
Inductive reachable : supply -> Prop :=
| reach_init retail h :
    NXP_GENERIC_FLOOR_PFN <= h <= NXP_PFN_MASK -> reachable (NxkPageSupplyInitialize retail h)
| reach_call s c r s' : reachable s -> legal s c -> exec s c = Some (r, s') -> reachable s'.

Lemma get_owner_free s p : p ∈ free_set s -> supply_wf s -> NxkPageSupplyGetOwner s p = 0.
Proof.
  intros Hp W. pose proof (free_set_range _ _ W Hp) as Hr. unfold in_range in Hr.
  unfold NxkPageSupplyGetOwner. destruct ((p =? 0) || _); [done |].
  by rewrite (proj2 (entry_free_free_set s p W ltac:(lia)) Hp).
Qed.

Lemma get_owner_ext s s' q : NxpHighestPfn s' = NxpHighestPfn s -> link s' q = link s q ->
  NxkPageSupplyGetOwner s' q = NxkPageSupplyGetOwner s q.
Proof. intros H1 H2. unfold NxkPageSupplyGetOwner. by rewrite H1, H2. Qed.

Lemma get_owner_zero s q : link s q = 0 -> NxkPageSupplyGetOwner s q = 0.
Proof. intros H. unfold NxkPageSupplyGetOwner. rewrite H. by destruct (_ || _). Qed.

(** Taking frames changes no frame's owner. *)
Lemma take_owners s s' D : supply_wf s -> supply_wf s' -> free_set s' = free_set s ∖ D ->
  (forall q, q ∈ D -> link s' q = 0) -> used_kept s s' -> NxpHighestPfn s' = NxpHighestPfn s ->
  forall q, NxkPageSupplyGetOwner s' q = NxkPageSupplyGetOwner s q.
Proof.
  intros W W' HF HD HU HH q.
  destruct (decide (q ∈ free_set s)) as [Hq | Hq].
  - rewrite (get_owner_free s q Hq W). destruct (decide (q ∈ D)) as [Hd | Hd].
    + by apply get_owner_zero, HD.
    + apply get_owner_free; [| done]. rewrite HF. by apply elem_of_difference.
  - apply get_owner_ext; [done |]. apply HU; [done |]. rewrite HF, elem_of_difference. tauto.
Qed.

Lemma took_owners s p s' : supply_wf s -> took s p s' ->
  forall q, NxkPageSupplyGetOwner s' q = NxkPageSupplyGetOwner s q.
Proof.
  intros W (W' & Hp & HF & HL & HU & HH). apply (take_owners _ _ {[p]}); auto.
  intros q ->%elem_of_singleton. done.
Qed.

Lemma set_owner_spec s p va : supply_wf s -> va = 0 \/ owner_va va ->
  let s' := NxkPageSupplySetOwner s p va in
  supply_wf s' /\ free_set s' = free_set s /\ NxpHighestPfn s' = NxpHighestPfn s /\
  (forall q, q <> p -> link s' q = link s q) /\
  NxkPageSupplyGetOwner s' p =
    if decide (1 <= p <= NxpHighestPfn s /\ (p ∉ free_set s)) then va else NxkPageSupplyGetOwner s p.
Proof.
  intros W Hva s'. subst s'. unfold NxkPageSupplySetOwner.
  destruct ((0 <? p) && (p <=? NxpHighestPfn s)) eqn:Er; cbn [andb].
  2: { repeat split; try done. rewrite decide_False; [done |]. intros [? _]. lia. }
  assert (Hr : in_range s p) by (unfold in_range; lia).
  pose proof (entry_free_free_set s p W ltac:(unfold in_range in Hr; lia)) as Hef.
  destruct (entry_free (link s p)) eqn:Ef; cbn [negb].
  { repeat split; try done. rewrite decide_False; [done |]. tauto. }
  assert (Hnf : p ∉ free_set s) by (intros H; apply Hef in H; done).
  set (e := if va =? 0 then 0 else _).
  assert (He : 0 <= e < 2 ^ 20 /\ (if e =? 0 then 0 else add32 NXP_OWNER_BASE (shl32 e 2)) = va).
  { subst e. destruct Hva as [-> | Hva]; [rewrite Z.eqb_refl; split; [lia | done] |].
    destruct (Z.eqb_spec va 0) as [-> | _]; [unfold owner_va, NXP_OWNER_BASE in Hva; lia |].
    destruct (owner_index va Hva) as [H1 H2]. split; [lia |].
    destruct (Z.eqb_spec (Z.shiftr (sub32 va NXP_OWNER_BASE) 2) 0); [lia | done]. }
  destruct He as [He Hback]. destruct (write_used_wf s p e W Hr Hnf He) as (W' & F' & L' & O').
  repeat split; try done. rewrite decide_True by (unfold in_range in Hr; tauto).
  unfold NxkPageSupplyGetOwner. rewrite L', entry_used by done. simpl NxpHighestPfn.
  destruct ((p =? 0) || (NxpHighestPfn s <? p)) eqn:E; [lia |]. cbn [orb]. done.
Qed.

Lemma exec_refines s c : supply_wf s -> legal s c ->
  exists r s', exec s c = Some (r, s') /\ supply_wf s' /\ NxpHighestPfn s' = NxpHighestPfn s /\
    spec_step (NxpHighestPfn s) (free_set s) (NxkPageSupplyGetOwner s) c r
      (free_set s') (NxkPageSupplyGetOwner s').
Proof.
  intros W HL. destruct c as [| lo hi | p | n lo hi al | p | p va]; simpl exec; simpl legal in HL.
  - destruct (take_any_spec s W) as (p & s' & -> & H). exists p, s'. split; [done |].
    destruct H as [(-> & -> & H) | [H [Hc _]]]; [split; [done |]; split; [done |]; split; [done |]; left; done |].
    pose proof H as (W' & Hp & HF & _ & _ & HH). split; [done |]. split; [done |].
    split; [by apply (took_owners _ p) | right; done].
  - destruct (take_outside_spec s lo hi W) as (p & s' & -> & H). exists p, s'. split; [done |].
    destruct H as [(-> & -> & H) | (H & Hw & _)].
    + split; [done |]. split; [done |]. split; [done |]. left. repeat split; try done;
      specialize (H q H0 H1); unfold in_window in H; lia.
    + pose proof H as (W' & Hp & HF & _ & _ & HH). split; [done |]. split; [done |].
      split; [by apply (took_owners _ p) | right]. unfold in_window in Hw. repeat split; try done. lia.
  - unfold NxkPageSupplyTakeSpecific. destruct (NxkPageSupplyIsFree s p) eqn:E.
    + apply (elem_of_free_set _ _ W) in E. pose proof (unlink_took s p W E) as H.
      exists 1, (NxpUnlink s p). split; [done |]. pose proof H as (W' & Hp & HF & _ & _ & HH).
      split; [done |]. split; [done |]. split; [by apply (took_owners _ p) | right; done].
    + exists 0, s. split; [done |]. split; [done |]. split; [done |]. split; [done |]. left.
      split; [done |]. split; [done |]. intros H%(elem_of_free_set _ _ W). congruence.
  - destruct HL as (Hn & Hlo & Hhi & k & Hk & Hal).
    destruct (take_run_spec s n lo hi al k W Hn Hlo Hhi Hal Hk) as (b & s' & -> & H).
    exists b, s'. split; [done |].
    destruct H as [(-> & -> & _) | (Hn0 & (Hf1 & Hf2 & Hf3) & Hrf & _ & W' & HF & HL & HU & HH)].
    + split; [done |]. split; [done |]. split; [done |]. by left.
    + split; [done |]. split; [done |]. split.
      * apply (take_owners _ _ (pages_of b n)); auto. intros q Hq%elem_of_pages_of; [auto | lia].
      * right. rewrite Hal. repeat split; try done; try lia.
        intros q Hq%elem_of_pages_of; [auto | lia].
  - destruct HL as [Hr Hnf]. assert (Hp : p ∉ free_set s) by (rewrite (elem_of_free_set _ _ W); congruence).
    destruct (return_wf s p W Hr Hp) as (W' & HF & HU). destruct (return_fields s p) as (HH & _).
    exists 0, (NxkPageSupplyReturn s p). split; [done |]. split; [done |]. split; [done |].
    split; [done |]. split; [apply get_owner_free; [rewrite HF; set_solver | done] |].
    intros q Hq. destruct (decide (q ∈ free_set s)) as [Hin | Hin].
    + rewrite !get_owner_free; [done | done | done | rewrite HF; set_solver | done].
    + apply get_owner_ext; [done |]. apply HU; [done |]. rewrite HF. set_solver.
  - destruct (set_owner_spec s p va W HL) as (W' & HF & HH & HO & HP).
    exists 0, (NxkPageSupplySetOwner s p va). split; [done |]. split; [done |]. split; [done |].
    split; [done |]. split; [| done]. intros q Hq. by apply get_owner_ext, HO.
Qed.

Lemma reachable_wf s : reachable s -> supply_wf s.
Proof.
  induction 1 as [retail h Hh | s c r s' _ W HL E].
  - by apply init_wf.
  - destruct (exec_refines s c W HL) as (r' & s2 & E' & W' & _).
    rewrite E in E'. by injection E' as <- <-.
Qed.

(** ** Properties *)

(** C1: every legal call on a page database reached by legal calls from
    [NxkPageSupplyInitialize] returns (no scan or list walk runs out of frames
    to visit), leaves a reachable database, and implements the abstract step on
    the set of free frames and the owner of each frame. *)
Theorem page_supply_refines s c : reachable s -> legal s c ->
  exists r s', exec s c = Some (r, s') /\ reachable s' /\
    spec_step (NxpHighestPfn s) (free_set s) (NxkPageSupplyGetOwner s) c r
      (free_set s') (NxkPageSupplyGetOwner s').
Proof.
  intros HR HL. destruct (exec_refines s c (reachable_wf _ HR) HL) as (r & s' & E & _ & _ & H).
  exists r, s'. split; [done |]. split; [by apply (reach_call s c r) | done].
Qed.

(** A 100-frame machine, none of whose frames is in the kernel class. *)
Definition small_machine : supply := NxkPageSupplyInitialize false 99.

Lemma small_machine_reachable : reachable small_machine.
Proof. apply reach_init. unfold NXP_GENERIC_FLOOR_PFN, NXP_PFN_MASK. lia. Qed.

Lemma page_supply_refines_witness :
  exists r s', exec small_machine (Return 40) = Some (r, s') /\ reachable s' /\
    spec_step 99 (free_set small_machine) (NxkPageSupplyGetOwner small_machine) (Return 40) r
      (free_set s') (NxkPageSupplyGetOwner s').
Proof.
  apply (page_supply_refines small_machine (Return 40)).
  - exact small_machine_reachable.
  - split; [unfold in_range; simpl; lia | vm_compute; reflexivity].
Defined.

(** in every reachable database [MmAvailablePages] is the number of free
    frames, [NxpGenericAvail] the number of those at or above the pin-only
    floor, the two list heads thread exactly the free frames, each once, the
    kernel list holding exactly those of the kernel class, and no free frame
    has an owner. *)
Theorem reachable_consistent s : reachable s ->
  MmAvailablePages s = Z.of_nat (size (free_set s)) /\
  NxpGenericAvail s = Z.of_nat (size (filter (fun p => generic p = true) (free_set s))) /\
  (exists lk lt, NxpFreeHeadKernel s = first_of lk 0 /\ NxpFreeHeadTitle s = first_of lt 0 /\
     dseg (NxpLinks s) 0 lk 0 /\ dseg (NxpLinks s) 0 lt 0 /\ NoDup (lk ++ lt) /\
     (forall p, p ∈ lk <-> p ∈ free_set s /\ kernel_class s p = true) /\
     (forall p, p ∈ lt <-> p ∈ free_set s /\ kernel_class s p = false)) /\
  (forall p, p ∈ free_set s -> 1 <= p <= NxpHighestPfn s /\ NxkPageSupplyGetOwner s p = 0).
Proof.
  intros HR. pose proof (reachable_wf _ HR) as W. destruct (wf_counts s W) as [C1 C2].
  split; [done |]. split; [done |]. split.
  - destruct W as (lk & lt & R). exists lk, lt.
    assert (FS : forall q, q ∈ free_set s <-> q ∈ lk ++ lt)
      by (intros q; by rewrite (rep_free_set _ _ _ R), elem_of_list_to_set).
    do 5 (split; [apply R |]). split; intros p; rewrite FS; (split; [intros Hp |]).
    + split; [set_solver | by apply (rep_kclass _ _ _ R)].
    + intros [Hp Hc]. destruct (rep_which _ _ _ _ R Hp) as [? | (? & ? & ?)]; [tauto | congruence].
    + split; [set_solver | by apply (rep_tclass _ _ _ R)].
    + intros [Hp Hc]. destruct (rep_which _ _ _ _ R Hp) as [(? & ? & ?) | ?]; [congruence | tauto].
  - intros p Hp. split; [by apply free_set_range | by apply get_owner_free].
Qed.

Lemma reachable_consistent_witness :
  MmAvailablePages (NxkPageSupplyReturn small_machine 40) = 1.
Proof.
  apply (reachable_consistent (NxkPageSupplyReturn small_machine 40)).
  apply (reach_call small_machine (Return 40) 0); [exact small_machine_reachable | | reflexivity].
  split; [unfold in_range; simpl; lia | vm_compute; reflexivity].
Defined.

(** [NxkPageSupplyTakeRun] with a power-of-two (or zero) alignment returns
    0 only when the window holds no aligned run of free frames, and otherwise
    the highest one; exactly the frames of that run leave the free set. *)
Theorem take_run_highest s n lo hi al k : reachable s -> is_u32 n -> is_u32 lo -> is_u32 hi ->
  align_of al = 2 ^ k -> 0 <= k < 32 -> n <> 0 ->
  exists b s', NxkPageSupplyTakeRun s n lo hi al = Some (b, s') /\
  ((b = 0 /\ s' = s /\ forall c, run_fits s n lo hi (2 ^ k) c -> ~ run_free s c n) \/
   (run_fits s n lo hi (2 ^ k) b /\ run_free s b n /\
    (forall c, b < c -> run_fits s n lo hi (2 ^ k) c -> ~ run_free s c n) /\
    free_set s' = free_set s ∖ pages_of b n)).
Proof.
  intros HR Hn Hlo Hhi Hal Hk Hn0.
  destruct (take_run_spec s n lo hi al k (reachable_wf _ HR) Hn Hlo Hhi Hal Hk) as (b & s' & E & H).
  exists b, s'. split; [done |].
  destruct H as [(-> & -> & H) | (_ & H1 & H2 & H3 & _ & H4 & _)]; [left | right]; auto.
Qed.

Lemma take_run_highest_witness :
  exists b s', NxkPageSupplyTakeRun small_machine 4 1 60 2 = Some (b, s') /\
  ((b = 0 /\ s' = small_machine /\
    forall c, run_fits small_machine 4 1 60 (2 ^ 1) c -> ~ run_free small_machine c 4) \/
   (run_fits small_machine 4 1 60 (2 ^ 1) b /\ run_free small_machine b 4 /\
    (forall c, b < c -> run_fits small_machine 4 1 60 (2 ^ 1) c -> ~ run_free small_machine c 4) /\
    free_set s' = free_set small_machine ∖ pages_of b 4)).
Proof.
  apply (take_run_highest small_machine 4 1 60 2 1); try (unfold is_u32; lia); try reflexivity.
  exact small_machine_reachable.
Defined.

(** [NxkPageSupplyTakeAny] takes a frame of the kernel class as long as one
    is free, then the lowest free frame at or above the pin-only floor, and
    fails only when no such frame is left. *)
Theorem take_any_order s : reachable s -> exists p s', NxkPageSupplyTakeAny s = Some (p, s') /\
  ((p = 0 /\ s' = s /\ forall q, q ∈ free_set s -> q < NXP_GENERIC_FLOOR_PFN) \/
   (p ∈ free_set s /\ NXP_GENERIC_FLOOR_PFN <= p /\ free_set s' = free_set s ∖ {[p]} /\
    (kernel_class s p = true \/
     ((forall q, q ∈ free_set s -> kernel_class s q = false) /\
      forall q, q ∈ free_set s -> NXP_GENERIC_FLOOR_PFN <= q -> p <= q)))).
Proof.
  intros HR. destruct (take_any_spec s (reachable_wf _ HR)) as (p & s' & E & H).
  exists p, s'. split; [done |].
  destruct H as [H | [(W' & Hp & HF & _) [Hc1 Hc2]]]; [by left | right; auto].
Qed.

Lemma take_any_order_witness : exists p s',
  NxkPageSupplyTakeAny (NxkPageSupplyReturn small_machine 40) = Some (p, s').
Proof.
  destruct (take_any_order (NxkPageSupplyReturn small_machine 40)) as (p & s' & E & _).
  - apply (reach_call small_machine (Return 40) 0); [exact small_machine_reachable | | reflexivity].
    split; [unfold in_range; simpl; lia | vm_compute; reflexivity].
  - exists p, s'. exact E.
Defined.

(** With the spill hint still below the floor, as it is from boot until
    the kernel class first runs dry, [NxkPageSupplyTakeAnyOutside] hands out a
    pin-only frame even though a frame above the floor is free. *)
Theorem take_outside_pin_only :
  let s := NxkPageSupplyReturn (NxkPageSupplyReturn small_machine 40) 5 in
  reachable s /\ 40 ∈ free_set s /\
  exists s', NxkPageSupplyTakeAnyOutside s 60 70 = Some (5, s').
Proof.
  cbv zeta. split; [| split].
  - apply (reach_call (NxkPageSupplyReturn small_machine 40) (Return 5) 0); [| | reflexivity].
    + apply (reach_call small_machine (Return 40) 0); [exact small_machine_reachable | | reflexivity].
      split; [unfold in_range; simpl; lia | vm_compute; reflexivity].
    + split; [unfold in_range; simpl; lia | vm_compute; reflexivity].
  - apply elem_of_list_to_set. vm_compute. set_solver.
  - eexists. vm_compute. reflexivity.
Qed.
