(* ===== verification/Paging.v ===== *)
(** The page tables and the frame contents beside the page database, and the
    two operations of [ntoskrnl/xb/mm/pagesupply.c] that touch them:
    [NxkPageSupplyTakeZero] and [NxkPageSupplyTakeRunRelocate].

    The kernel reaches every page-table entry through the self-map at
    0xC0000000: the entry of virtual page [v] is word [v] of that window and
    the page-directory entry of the 4 MB block [b] is word [0xC0000 + b] of the
    same window.  [ptes] is the window as one array; an entry's index in it is
    what the page database stores as a frame's owner.  [frames] is what each
    data frame holds.  The CPU is single and the code runs under the PFN lock
    at raised IRQL, so an operation is one step; the TLB is not modelled. *)

From stdpp Require Import prelude gmap list numbers sets.
From Stdlib Require Import ZArith Lia.
From S2P Require Import Prelude PageSupply.

Local Open Scope Z_scope.

Local Opaque free_set NxpUnlink.

(** A frame is 1024 words. *)
Definition frame : Type := list Z.
Definition zero_frame : frame := replicate 1024 0.

Record mm : Type := Mm {
  sup : supply;
  ptes : gmap Z Z;
  frames : gmap Z frame
}.

Definition with_sup (s : supply) (m : mm) : mm := Mm s (ptes m) (frames m).
Definition with_ptes (t : gmap Z Z) (m : mm) : mm := Mm (sup m) t (frames m).

Definition pte (m : mm) (k : Z) : Z := rd (ptes m) k.
Definition set_pte (k e : Z) (m : mm) : mm := with_ptes (<[k := e]> (ptes m)) m.
Definition frame_at (m : mm) (p : Z) : frame := default zero_frame (frames m !! p).
Definition set_frame (p : Z) (f : frame) (m : mm) : mm := Mm (sup m) (ptes m) (<[p := f]> (frames m)).

(** [MiZeroPhysicalPage], and a copy through the KSEG0 identity window. *)
Definition zero_page (p : Z) (m : mm) : mm := set_frame p zero_frame m.
Definition copy_page (src dst : Z) (m : mm) : mm := set_frame dst (frame_at m src) m.

Definition NxkPageSupplyTakeZero (m : mm) : option (Z * mm) :=
  match NxkPageSupplyTakeAny (sup m) with
  | None => None
  | Some (Pfn, s) =>
      let m1 := with_sup s m in
      Some (Pfn, if Pfn =? 0 then m1 else zero_page Pfn m1)
  end.

(** [MmAllocPage] and [MmDereferencePage] of [ntoskrnl/mm/freelist.c] in the
    [NXK_MM_PHYS] build. *)
Definition MmAllocPage (m : mm) : option (Z * mm) := NxkPageSupplyTakeZero m.
Definition MmDereferencePage (m : mm) (Pfn : Z) : mm := with_sup (NxkPageSupplyReturn (sup m) Pfn) m.

(** ** Relocation *)

(** The probe of one window, from its highest frame down: the first immovable
    frame, or the numbers of free and movable frames. *)
Fixpoint reloc_scan (s : supply) (Base : Z) (i : nat) (FreeInWindow Movable : Z) : Z + (Z * Z) :=
  match i with
  | O => inr (FreeInWindow, Movable)
  | S i' =>
      let Page := add32 Base (Z.of_nat i') in
      if entry_free (link s Page) then reloc_scan s Base i' (add32 FreeInWindow 1) Movable
      else if negb (link s Page =? 0) then reloc_scan s Base i' FreeInWindow (add32 Movable 1)
      else inl Page
  end.

(** What one iteration of the search decides about [Base]. *)
Inductive probe : Type :=
| Fits
| Stop
| Retry (Failed : Z).

Definition reloc_probe (s : supply) (RunPages AlignPages Base : Z) : probe :=
  match reloc_scan s Base (Z.to_nat RunPages) 0 0 with
  | inl Page => Retry Page
  | inr (FreeInWindow, Movable) =>
      if sub32 (NxpGenericAvail s) FreeInWindow <? Movable then
        if Base <? AlignPages then Stop
        else Retry (add32 (sub32 Base AlignPages) RunPages)
      else Fits
  end.

Fixpoint reloc_search (fuel : nat) (s : supply) (RunPages LowPfn AlignPages Base : Z) : option Z :=
  match fuel with
  | O => None
  | S f =>
      if LowPfn <=? Base then
        match reloc_probe s RunPages AlignPages Base with
        | Fits => Some Base
        | Stop => Some 0
        | Retry Failed =>
            if Failed <? RunPages then Some 0
            else reloc_search f s RunPages LowPfn AlignPages
                   (align_down (sub32 Failed RunPages) AlignPages)
        end
      else Some 0
  end.

(** Moving one frame out of the window: copy, retarget the owning entry, hand
    the owner over.  [NxpLinks[Page] << 2] added to the owner base is the
    entry's address, so the entry is word [NxpLinks[Page]] of the window. *)
Definition retarget (m : mm) (Page Dest : Z) : mm :=
  let k := link (sup m) Page in
  let Entry := pte m k in
  let NewEntry := Z.lor (shl32 Dest PAGE_SHIFT) (Z.land Entry (PAGE_SIZE - 1)) in
  let m1 := set_pte k NewEntry (copy_page Page Dest m) in
  let l1 := <[Dest := k]> (NxpLinks (sup m1)) in
  with_sup (set_links (<[Page := 0]> l1) (sup m1)) m1.

(** The fill loop: [Some (false, _)] is its [return 0]. *)
Fixpoint reloc_fill (n : nat) (m : mm) (Lo Hi Page : Z) : option (bool * mm) :=
  match n with
  | O => Some (true, m)
  | S n' =>
      if entry_free (link (sup m) Page) then
        reloc_fill n' (with_sup (NxpUnlink (sup m) Page) m) Lo Hi (add32 Page 1)
      else
        match NxkPageSupplyTakeAnyOutside (sup m) Lo Hi with
        | None => None
        | Some (Dest, s1) =>
            let m1 := with_sup s1 m in
            if Dest =? 0 then Some (false, m1)
            else reloc_fill n' (retarget m1 Page Dest) Lo Hi (add32 Page 1)
        end
  end.

Definition NxkPageSupplyTakeRunRelocate (m : mm) (RunPages LowPfn HighPfn AlignPages : Z)
  : option (Z * mm) :=
  match run_window (sup m) RunPages LowPfn HighPfn AlignPages with
  | None => Some (0, m)
  | Some (LowPfn, AlignPages, Base) =>
      match reloc_search (S (Z.to_nat Base)) (sup m) RunPages LowPfn AlignPages Base with
      | None => None
      | Some b =>
          if b =? 0 then Some (0, m)
          else
            match reloc_fill (Z.to_nat RunPages) m b (sub32 (add32 b RunPages) 1) b with
            | None => None
            | Some (true, m') => Some (b, m')
            | Some (false, m') => Some (0, m')
            end
      end
  end.

(** ** Invariant: the recorded owners are the entries that map the frames *)

(** Frame [p] is in use and owned by the entry with index [k]. *)
Definition owned (m : mm) (k p : Z) : Prop :=
  in_range (sup m) p /\ (p ∉ free_set (sup m)) /\ link (sup m) p = k /\ k <> 0.

(** Frame [p] is in use and immovable. *)
Definition pinned (m : mm) (p : Z) : Prop :=
  in_range (sup m) p /\ (p ∉ free_set (sup m)) /\ link (sup m) p = 0.

Record mm_wf (m : mm) : Prop := {
  mm_sup : supply_wf (sup m);
  mm_owner : forall k p, owned m k p -> pte m k / 2 ^ 12 = p
}.

(** What a virtual page shows: the low twelve bits of its entry and the
    contents of its frame.  [view_kept m m']: every owned entry keeps its view
    under a possibly different frame, every other entry is untouched, and so is
    every immovable frame. *)
Record view_kept (m m' : mm) : Prop := {
  vk_owned : forall k p, owned m k p -> exists p', owned m' k p' /\
    frame_at m' p' = frame_at m p /\ Z.land (pte m' k) 4095 = Z.land (pte m k) 4095;
  vk_other : forall k, (forall p, ~ owned m k p) ->
    pte m' k = pte m k /\ forall p, ~ owned m' k p;
  vk_pinned : forall p, pinned m p -> pinned m' p /\ frame_at m' p = frame_at m p;
  vk_high : NxpHighestPfn (sup m') = NxpHighestPfn (sup m)
}.

#[export] Instance view_kept_refl : Reflexive view_kept.
Proof. intros m. constructor; eauto. Qed.

#[export] Instance view_kept_trans : Transitive view_kept.
Proof.
  intros m1 m2 m3 [O1 N1 P1 H1] [O2 N2 P2 H2]. constructor; [| | | congruence].
  - intros k p Ho. destruct (O1 k p Ho) as (p2 & Ho2 & F2 & E2).
    destruct (O2 k p2 Ho2) as (p3 & Ho3 & F3 & E3). exists p3. repeat split; try apply Ho3; congruence.
  - intros k Hk. destruct (N1 k Hk) as [E1 K1]. destruct (N2 k K1) as [E2 K2]. split; [congruence | done].
  - intros p Hp. destruct (P1 p Hp) as [Q1 F1]. destruct (P2 p Q1) as [Q2 F2]. split; [done | congruence].
Qed.

(** ** The window's census *)

(** Frames of [Page .. Page + n - 1] that are in use. *)
Fixpoint movable_count (s : supply) (Page : Z) (n : nat) : nat :=
  match n with
  | O => 0
  | S n' => (if decide (Page ∈ free_set s) then 0 else 1) + movable_count s (Page + 1) n'
  end.

(** Frames above the floor, free and outside the window. *)
Definition generic_out (s : supply) (lo hi : Z) : nat :=
  size (filter (fun p => generic p = true /\ in_window lo hi p = false) (free_set s)).

Definition all_movable (s : supply) (Page : Z) (n : nat) : Prop :=
  forall q, Page <= q < Page + Z.of_nat n -> in_range s q /\ (q ∈ free_set s \/ link s q <> 0).

Lemma movable_count_ext s s' n : forall Page,
  (forall q, Page <= q < Page + Z.of_nat n -> q ∈ free_set s' <-> q ∈ free_set s) ->
  movable_count s' Page n = movable_count s Page n.
Proof.
  induction n as [| n IH]; intros Page H; [done |]. cbn [movable_count]. f_equal.
  - destruct (H Page ltac:(lia)). repeat case_decide; tauto.
  - apply IH. intros q Hq. apply H. lia.
Qed.

Lemma generic_out_take s s' lo hi p : free_set s' = free_set s ∖ {[p]} ->
  (generic_out s lo hi <= S (generic_out s' lo hi))%nat /\
  (in_window lo hi p = true -> generic_out s' lo hi = generic_out s lo hi).
Proof.
  intros HF. unfold generic_out. rewrite HF.
  set (P := fun q => generic q = true /\ in_window lo hi q = false).
  assert (E : filter P (free_set s ∖ {[p]}) = filter P (free_set s) ∖ {[p]})
    by (apply set_eq; intros q; rewrite elem_of_difference, !elem_of_filter, elem_of_difference; tauto).
  rewrite E. split.
  - rewrite size_difference_alt.
    assert (size (filter P (free_set s) ∩ {[p]}) <= size ({[p]} : gset Z))%nat
      by (apply subseteq_size; set_solver).
    rewrite (size_singleton (C := gset Z)) in *. lia.
  - intros Hw. f_equal. apply set_eq. intros q.
    rewrite elem_of_difference, elem_of_filter, elem_of_singleton. unfold P.
    split; [tauto |]. intros H. split; [done |]. intros ->. destruct H as [[_ H] _]. congruence.
Qed.

(** ** One step of the fill loop *)

Lemma frame_at_ne m p q f : p <> q -> frame_at (set_frame p f m) q = frame_at m q.
Proof. intros H. unfold frame_at, set_frame. simpl. by rewrite lookup_insert_ne. Qed.

Lemma frame_at_eq m p f : frame_at (set_frame p f m) p = f.
Proof. unfold frame_at, set_frame. simpl. by rewrite lookup_insert_eq. Qed.

(** Taking a free frame out of the database changes no view. *)
Lemma took_owned m p s' k q : supply_wf (sup m) -> took (sup m) p s' ->
  owned (with_sup s' m) k q <-> owned m k q.
Proof.
  intros W (W' & Hp & HF & HL & HU & HH). unfold owned, in_range. simpl. rewrite HF, HH.
  rewrite elem_of_difference, elem_of_singleton. split.
  - intros (Hr & Hn & Hk & Hk0). destruct (decide (q = p)) as [-> | Hne]; [congruence |].
    assert (q ∉ free_set (sup m)) by tauto. rewrite HU in Hk; [tauto | done |].
    rewrite HF, elem_of_difference. tauto.
  - intros (Hr & Hn & Hk & Hk0). rewrite HU; [tauto | done |]. rewrite HF, elem_of_difference. tauto.
Qed.

Lemma took_pinned m p s' q : supply_wf (sup m) -> took (sup m) p s' -> pinned m q ->
  pinned (with_sup s' m) q.
Proof.
  intros W (W' & Hp & HF & HL & HU & HH) (Hr & Hn & Hk). unfold pinned, in_range. simpl.
  unfold in_range in Hr.
  rewrite HH, HU, HF, elem_of_difference; [tauto | done |]. rewrite HF, elem_of_difference. tauto.
Qed.

Lemma took_mm m p s' : mm_wf m -> took (sup m) p s' ->
  mm_wf (with_sup s' m) /\ view_kept m (with_sup s' m).
Proof.
  intros [W O] T. split.
  - constructor; [by destruct T |]. intros k q Ho. apply (took_owned _ _ _ _ _ W T) in Ho. by apply O.
  - constructor.
    + intros k q Ho. exists q. split; [by apply (took_owned _ _ _ _ _ W T) | done].
    + intros k Hk. split; [done |]. intros q Ho. apply (took_owned _ _ _ _ _ W T) in Ho. by apply (Hk q).
    + intros q Hq. split; [by apply (took_pinned _ _ _ _ W T) | done].
    + apply T.
Qed.

Lemma new_entry Dest Entry : 0 <= Dest <= NXP_PFN_MASK ->
  let e := Z.lor (shl32 Dest PAGE_SHIFT) (Z.land Entry (PAGE_SIZE - 1)) in
  e / 2 ^ 12 = Dest /\ Z.land e 4095 = Z.land Entry 4095.
Proof.
  intros HD. unfold NXP_PFN_MASK, PAGE_SHIFT, PAGE_SIZE in *. cbv zeta.
  change (4096 - 1) with (Z.ones 12). change 4095 with (Z.ones 12).
  unfold shl32. rewrite Z.shiftl_mul_pow2, u32_id by lia. rewrite !Z.land_ones by lia.
  pose proof (Z.mod_pos_bound Entry (2 ^ 12) ltac:(lia)).
  rewrite lor_mul_pow2_small by lia. rewrite Z.add_comm. split.
  - rewrite Z.div_add, Z.div_small by lia. lia.
  - rewrite Z.mod_add by lia. by apply Z.mod_small.
Qed.

(** Handing frame [Page] over to the fresh frame [Dest]. *)
Lemma retarget_mm m Page Dest : mm_wf m -> pinned m Dest -> Page <> Dest ->
  in_range (sup m) Page -> Page ∉ free_set (sup m) -> link (sup m) Page <> 0 ->
  (forall k, ~ owned m k Dest) ->
  let m' := retarget m Page Dest in
  mm_wf m' /\ free_set (sup m') = free_set (sup m) /\ pinned m' Page /\
  (forall q, q <> Page -> q <> Dest -> link (sup m') q = link (sup m) q) /\
  NxpHighestPfn (sup m') = NxpHighestPfn (sup m) /\
  (forall k q, owned m' k q <-> (owned m k q /\ q <> Page) \/ (q = Dest /\ owned m k Page)).
Proof.
  intros [W O] (HDr & HDf & HDl) Hne HPr HPf HPl HDo m'.
  set (k := link (sup m) Page) in *.
  assert (Hk : 0 <= k < 2 ^ 20).
  { destruct W as (lk & lt & R). rewrite (rep_free_set _ _ _ R), elem_of_list_to_set in HPf.
    unfold in_range in HPr. destruct (proj2 (rep_dom _ _ _ R Page) ltac:(lia)) as [e E].
    unfold k, link. rewrite (rd_Some _ _ _ E). by apply (rep_used _ _ _ R Page). }
  destruct (write_used_wf (sup m) Dest k W HDr HDf Hk) as (W1 & F1 & L1 & O1).
  set (s1 := set_links (<[Dest := k]> (NxpLinks (sup m))) (sup m)) in *.
  destruct (write_used_wf s1 Page 0 W1 HPr ltac:(by rewrite F1) ltac:(lia)) as (W2 & F2 & L2 & O2).
  assert (Es : sup m' = set_links (<[Page := 0]> (NxpLinks s1)) s1) by done.
  rewrite <- Es in W2, F2, L2, O2.
  assert (HH : NxpHighestPfn (sup m') = NxpHighestPfn (sup m)) by done.
  assert (HF : free_set (sup m') = free_set (sup m)) by congruence.
  assert (HLd : link (sup m') Dest = k) by (rewrite O2 by congruence; done).
  assert (HLq : forall q, q <> Page -> q <> Dest -> link (sup m') q = link (sup m) q)
    by (intros q Hq1 Hq2; rewrite O2, O1; done).
  assert (HO : forall j q, owned m' j q <-> (owned m j q /\ q <> Page) \/ (q = Dest /\ owned m j Page)).
  { intros j q. unfold owned, in_range in *. rewrite HF, HH. fold k.
    destruct (decide (q = Page)) as [-> | Hq1].
    - rewrite L2. split; [intros (_ & _ & <- & ?); done |]. intros [[_ ?] | [? _]]; done.
    - destruct (decide (q = Dest)) as [-> | Hq2]; [| rewrite HLq by done; tauto].
      rewrite HLd. pose proof (HDo j). unfold owned in *. tauto. }
  split; [| split; [exact HF |]; split; [| auto]].
  2: { unfold pinned, in_range in *. rewrite HF, HH, L2. auto. }
  constructor; [done |]. intros j q Ho.
  destruct (new_entry Dest (pte m k)) as [N1 _]; [pose proof (wf_highest _ W); unfold in_range, NXP_PFN_MASK in *; lia |].
  assert (Hpte : forall j, pte m' j = if decide (k = j) then Z.lor (shl32 Dest PAGE_SHIFT)
    (Z.land (pte m k) (PAGE_SIZE - 1)) else pte m j) by (intros; unfold pte; apply rd_insert).
  apply HO in Ho as [[Ho Hq] | [-> (_ & _ & Hj & _)]]; rewrite Hpte.
  - rewrite decide_False; [by apply O |]. intros <-. apply Hq. rewrite <- (O _ _ Ho). apply O.
    unfold owned. auto.
  - by rewrite decide_True.
Qed.

Lemma retarget_view m Page Dest : mm_wf m -> pinned m Dest -> Page <> Dest ->
  in_range (sup m) Page -> Page ∉ free_set (sup m) -> link (sup m) Page <> 0 ->
  (forall k, ~ owned m k Dest) ->
  let m' := retarget m Page Dest in
  (forall k p, owned m k p -> exists p', owned m' k p' /\
     frame_at m' p' = frame_at m p /\ Z.land (pte m' k) 4095 = Z.land (pte m k) 4095) /\
  (forall k, (forall p, ~ owned m k p) -> pte m' k = pte m k /\ forall p, ~ owned m' k p) /\
  (forall p, p <> Dest -> pinned m p -> pinned m' p /\ frame_at m' p = frame_at m p).
Proof.
  intros Wm HD Hne HPr HPf HPl HDo m'.
  destruct (retarget_mm m Page Dest Wm HD Hne HPr HPf HPl HDo) as (W' & HF & HP & HL & HH & HO).
  fold m' in W', HF, HP, HL, HH, HO. set (k := link (sup m) Page) in *.
  assert (HoP : owned m k Page) by (unfold owned; auto).
  assert (Hpte : forall j, pte m' j = if decide (k = j) then Z.lor (shl32 Dest PAGE_SHIFT)
    (Z.land (pte m k) (PAGE_SIZE - 1)) else pte m j) by (intros; unfold pte; apply rd_insert).
  assert (HFr : forall p, p <> Dest -> frame_at m' p = frame_at m p)
    by (intros p Hp; by apply (frame_at_ne m Dest p)).
  assert (HFd : frame_at m' Dest = frame_at m Page) by apply (frame_at_eq m Dest).
  destruct HD as (HDr & HDf & HDl). split; [| split].
  - intros j p Ho. destruct (decide (p = Page)) as [-> | Hp].
    + exists Dest. split; [apply HO; auto |]. split; [done |].
      assert (j = k) as -> by (destruct Ho as (_ & _ & ? & _); done). rewrite Hpte, decide_True by done.
      apply new_entry. pose proof (wf_highest _ (mm_sup _ Wm)). unfold in_range, NXP_PFN_MASK in *. lia.
    + exists p. split; [apply HO; auto |]. split; [apply HFr; intros ->; by apply (HDo j) |].
      rewrite Hpte, decide_False; [done |]. intros <-. apply Hp.
      rewrite <- (mm_owner _ Wm _ _ Ho). by apply (mm_owner _ Wm).
  - intros j Hj. split.
    + rewrite Hpte, decide_False; [done |]. intros <-. by apply (Hj Page).
    + intros p Ho%HO. destruct Ho as [[Ho _] | [_ Ho]]; by apply (Hj _ Ho).
  - intros p Hp (Hpr & Hpf & Hpl). split; [| by apply HFr].
    destruct (decide (p = Page)) as [-> | Hp']; [done |].
    unfold pinned, in_range in *. rewrite HF, HH, HL by done. auto.
Qed.

(** Moving one frame: take a destination, then hand over. *)
Lemma move_mm m Page Dest s1 : mm_wf m -> took (sup m) Dest s1 ->
  in_range (sup m) Page -> Page ∉ free_set (sup m) -> link (sup m) Page <> 0 ->
  let m' := retarget (with_sup s1 m) Page Dest in
  mm_wf m' /\ view_kept m m' /\ pinned m' Page /\ free_set (sup m') = free_set (sup m) ∖ {[Dest]} /\
  (forall q, q <> Page -> q ∉ free_set (sup m) -> link (sup m') q = link (sup m) q).
Proof.
  intros Wm T HPr HPf HPl m'. pose proof T as (W1 & HD & HF1 & HL1 & HU1 & HH1).
  destruct (took_mm m Dest s1 Wm T) as [Wm1 V1].
  assert (Hne : Page <> Dest) by (intros ->; done).
  assert (HPf1 : Page ∉ free_set s1) by (rewrite HF1, elem_of_difference; tauto).
  assert (HDf1 : Dest ∉ free_set s1) by (rewrite HF1, elem_of_difference, elem_of_singleton; tauto).
  assert (HDr : in_range s1 Dest)
    by (unfold in_range; rewrite HH1; apply (free_set_range _ _ (mm_sup _ Wm) HD)).
  assert (PD : pinned (with_sup s1 m) Dest) by (unfold pinned; simpl; auto).
  assert (NO : forall k, ~ owned (with_sup s1 m) k Dest)
    by (intros k (_ & _ & Hl & Hk); simpl in Hl; congruence).
  assert (HPr1 : in_range s1 Page) by (unfold in_range in *; by rewrite HH1).
  assert (HPl1 : link s1 Page <> 0) by (by rewrite HU1).
  destruct (retarget_mm (with_sup s1 m) Page Dest Wm1 PD Hne HPr1 HPf1 HPl1 NO)
    as (W2 & HF2 & HP2 & HL2 & HH2 & _).
  destruct (retarget_view (with_sup s1 m) Page Dest Wm1 PD Hne HPr1 HPf1 HPl1 NO) as (VO & VN & VP).
  fold m' in W2, HF2, HP2, HL2, HH2, VO, VN, VP. simpl in HF2, HL2, HH2.
  split; [done |]. split.
  - constructor.
    + intros k p Ho. apply (took_owned _ _ _ _ _ (mm_sup _ Wm) T) in Ho. apply (VO k p Ho).
    + intros k Hk. apply VN. intros p Ho. apply (took_owned _ _ _ _ _ (mm_sup _ Wm) T) in Ho.
      by apply (Hk p).
    + intros p Hp. apply (VP p); [intros ->; by destruct Hp as (_ & ? & _) |].
      by apply (took_pinned _ Dest _ _ (mm_sup _ Wm)).
    + exact (eq_trans HH2 HH1).
  - split; [done |]. split; [exact (eq_trans HF2 HF1) |]. intros q Hq Hqf.
    rewrite HL2; [| done | intros ->; done]. apply HU1; [done |]. rewrite HF1, elem_of_difference. tauto.
Qed.

(** ** The fill loop *)

Lemma took_rest s s' p Page n : free_set s' = free_set s ∖ {[p]} ->
  (forall q, Page <= q -> q ∉ free_set s -> link s' q = link s q) -> ~ (Page <= p < Page + Z.of_nat n) -> NxpHighestPfn s' = NxpHighestPfn s ->
  all_movable s Page n -> all_movable s' Page n /\ movable_count s' Page n = movable_count s Page n.
Proof.
  intros HF HU Hp HH HA.
  assert (E : forall q, Page <= q < Page + Z.of_nat n -> q ∈ free_set s' <-> q ∈ free_set s)
    by (intros q Hq; rewrite HF, elem_of_difference, elem_of_singleton; split; [tauto | intros; split; [done | lia]]).
  split; [| by apply movable_count_ext].
  intros q Hq. destruct (HA q Hq) as [Hr Hl]. unfold in_range in *. rewrite HH. split; [done |].
  rewrite (E q Hq). destruct (decide (q ∈ free_set s)) as [Hin | Hin]; [by left | right].
  destruct Hl as [? | Hl]; [done |]. rewrite HU; [done | lia | done].
Qed.

Lemma generic_out_pos s lo hi : (0 < generic_out s lo hi)%nat ->
  exists q, q ∈ free_set s /\ 16 <= q /\ in_window lo hi q = false.
Proof.
  intros H. unfold generic_out in H. apply size_pos_elem_of in H as [q Hq].
  apply elem_of_filter in Hq as [[Hg Hw] Hq]. exists q.
  unfold generic, NXP_GENERIC_FLOOR_PFN in Hg. split; [done |]. split; [lia | done].
Qed.

(** The loop keeps every view whether or not it ends well, and it does end
    well when there are destinations enough. *)
Lemma reloc_fill_spec n : forall m Lo Hi Page, mm_wf m -> 1 <= Lo <= Page ->
  Page + Z.of_nat n = Hi + 1 -> Hi < 2 ^ 31 -> all_movable (sup m) Page n ->
  exists b m', reloc_fill n m Lo Hi Page = Some (b, m') /\ mm_wf m' /\ view_kept m m' /\
    free_set (sup m') ⊆ free_set (sup m) /\ (b = true -> forall q, Page <= q <= Hi -> pinned m' q) /\
    ((movable_count (sup m) Page n <= generic_out (sup m) Lo Hi)%nat -> b = true).
Proof.
  induction n as [| n IH]; intros m Lo Hi Page Wm HLo HHi HB HA.
  - exists true, m. split; [done |]. split; [done |]. split; [done |]. split; [done |]. split; [intros; lia | done].
  - cbn [reloc_fill]. destruct (HA Page ltac:(lia)) as [HPr HPm].
    assert (HA' : all_movable (sup m) (Page + 1) n) by (intros q Hq; apply HA; lia).
    pose proof (entry_free_free_set (sup m) Page (mm_sup _ Wm) ltac:(unfold in_range in HPr; lia)) as Hef.
    rewrite add32_id by lia. cbn [movable_count].
    assert (HwP : in_window Lo Hi Page = true) by (unfold in_window; lia).
    destruct (entry_free (link (sup m) Page)) eqn:E.
    + assert (Hfree : Page ∈ free_set (sup m)) by tauto. rewrite decide_True by done.
      pose proof (unlink_took _ _ (mm_sup _ Wm) Hfree) as T.
      pose proof T as (W1 & _ & HF1 & HL1 & HU1 & HH1).
      destruct (took_mm m Page _ Wm T) as [Wm1 V1].
      destruct (took_rest (sup m) (NxpUnlink (sup m) Page) Page (Page + 1) n HF1) as [HA1 HM1];
        [| lia | done | done |].
      { intros q _ Hq. apply HU1; [done |]. rewrite HF1, elem_of_difference. tauto. }
      destruct (generic_out_take _ _ Lo Hi _ HF1) as [_ HG]. specialize (HG HwP).
      destruct (IH (with_sup (NxpUnlink (sup m) Page) m) Lo Hi (Page + 1))
        as (b & m' & -> & Wm' & V' & HS' & HP' & HC'); [done | lia | lia | lia | done |].
      exists b, m'. split; [done |]. split; [done |]. split; [by transitivity (with_sup (NxpUnlink (sup m) Page) m) |].
      split; [intros q Hq%HS'; simpl in Hq; rewrite HF1, elem_of_difference in Hq; tauto |].
      split; [| intros HC; apply HC'; simpl; lia].
      intros Hb q Hq. destruct (decide (q = Page)) as [-> | Hne]; [| apply HP'; [done | lia]].
      apply (vk_pinned _ _ V'). unfold pinned, in_range in *. simpl.
      rewrite HH1, HF1, HL1, elem_of_difference, elem_of_singleton. tauto.
    + assert (Hused : Page ∉ free_set (sup m)) by (intros Hin; apply Hef in Hin; done).
      rewrite decide_False by done. destruct HPm as [? | HPl]; [done |].
      destruct (take_outside_spec (sup m) Lo Hi (mm_sup _ Wm)) as (Dest & s1 & -> & HD).
      destruct HD as [(-> & -> & HD) | (T & HDw & _)].
      { exists false, m. split; [by destruct m |]. split; [done |]. split; [done |]. split; [done |]. split; [done |]. intros HC.
        destruct (generic_out_pos (sup m) Lo Hi ltac:(lia)) as (q & Hq & Hg & Hw). by rewrite (HD q Hq Hg) in Hw. }
      pose proof T as (_ & HDf & HF1 & HL1 & HU1 & HH1).
      destruct (Z.eqb_spec Dest 0) as [-> | HD0].
      { pose proof (free_set_range _ _ (mm_sup _ Wm) HDf) as Hr. unfold in_range in Hr. lia. }
      destruct (move_mm m Page Dest s1 Wm T HPr Hused HPl) as (W2 & V2 & HP2 & HF2 & HL2).
      set (m2 := retarget (with_sup s1 m) Page Dest) in *.
      destruct (took_rest (sup m) (sup m2) Dest (Page + 1) n HF2) as [HA2 HM2];
        [| unfold in_window in HDw; lia | by apply vk_high | done |].
      { intros q Hq Hqf. apply HL2; [lia | done]. }
      destruct (generic_out_take _ _ Lo Hi _ HF2) as [HG _].
      destruct (IH m2 Lo Hi (Page + 1)) as (b & m' & -> & Wm' & V' & HS' & HP' & HC'); [done | lia | lia | lia | done |].
      exists b, m'. split; [done |]. split; [done |]. split; [by transitivity m2 |].
      split; [intros q Hq%HS'; rewrite HF2, elem_of_difference in Hq; tauto |].
      split; [| intros HC; apply HC'; lia].
      intros Hb q Hq. destruct (decide (q = Page)) as [-> | Hne]; [| apply HP'; [done | lia]].
      by apply (vk_pinned _ _ V').
Qed.

(** ** The search *)

Fixpoint free_count (s : supply) (Page : Z) (n : nat) : nat :=
  match n with
  | O => 0
  | S n' => (if decide (Page ∈ free_set s) then 1 else 0) + free_count s (Page + 1) n'
  end.

(** The counts are taken from the top frame down. *)
Lemma counts_snoc s n : forall Page,
  free_count s Page (S n) =
    (free_count s Page n + if decide ((Page + Z.of_nat n)%Z ∈ free_set s) then 1 else 0)%nat /\
  movable_count s Page (S n) =
    (movable_count s Page n + if decide ((Page + Z.of_nat n)%Z ∈ free_set s) then 0 else 1)%nat.
Proof.
  induction n as [| n IH]; intros Page.
  - simpl. rewrite Z.add_0_r. split; case_decide; lia.
  - cbn [free_count movable_count] in *. destruct (IH (Page + 1)) as [-> ->].
    replace (Page + 1 + Z.of_nat n) with (Page + Z.of_nat (S n)) by lia. lia.
Qed.

Lemma free_count_size s n : forall Page,
  free_count s Page n =
  size (filter (fun q => Page <= q < Page + Z.of_nat n) (free_set s)).
Proof.
  induction n as [| n IH]; intros Page; cbn [free_count].
  - symmetry. apply size_empty_iff. intros q. rewrite elem_of_filter. split; [lia | set_solver].
  - rewrite IH. set (P := fun q => Page + 1 <= q < Page + 1 + Z.of_nat n).
    set (Q := fun q => Page <= q < Page + Z.of_nat (S n)). case_decide as H.
    + rewrite <- (size_singleton (C := gset Z) Page), <- size_union.
      * f_equal. apply set_eq. intros q. rewrite elem_of_union, elem_of_singleton, !elem_of_filter.
        unfold P, Q. destruct (decide (q = Page)) as [-> |]; [split; [intros _; split; [lia | done] | by left] |].
        split; [intros [? | [? ?]]; [done | split; [lia | done]] | intros [? ?]; right; split; [lia | done]].
      * intros q ->%elem_of_singleton [HP _]%elem_of_filter. unfold P in HP. lia.
    + simpl. f_equal. apply set_eq. intros q. rewrite !elem_of_filter. unfold P, Q.
      destruct (decide (q = Page)) as [-> |]; [tauto |]. split; intros [? ?]; (split; [lia | done]).
Qed.

Lemma generic_split s b n : 16 <= b -> 0 <= n ->
  size (filter (fun p => generic p = true) (free_set s)) =
  (generic_out s b (b + n - 1)%Z + free_count s b (Z.to_nat n))%nat.
Proof.
  intros Hb Hn. rewrite free_count_size. unfold generic_out.
  rewrite <- size_union.
  - f_equal. apply set_eq. intros q. rewrite elem_of_union, !elem_of_filter.
    unfold generic, in_window, NXP_GENERIC_FLOOR_PFN.
    destruct (decide (q ∈ free_set s)); [| tauto].
    assert ((16 <=? q) = true <-> ((16 <=? q) = true /\ (b <=? q) && (q <=? b + n - 1) = false) \/
      b <= q < b + Z.of_nat (Z.to_nat n)) by lia. tauto.
  - intros q [[_ Hw] _]%elem_of_filter [Hq _]%elem_of_filter. unfold in_window in Hw. lia.
Qed.

Lemma reloc_scan_spec s Base : supply_wf s -> 1 <= Base -> forall i F M,
  Base + Z.of_nat i - 1 <= NxpHighestPfn s -> 0 <= F -> 0 <= M -> F + M + Z.of_nat i < 2 ^ 31 ->
  match reloc_scan s Base i F M with
  | inl p => Base <= p < Base + Z.of_nat i /\ (p ∉ free_set s) /\ link s p = 0
  | inr (F', M') => all_movable s Base i /\ F' = F + Z.of_nat (free_count s Base i) /\
      M' = M + Z.of_nat (movable_count s Base i)
  end.
Proof.
  intros W HB. pose proof (wf_highest _ W) as Hh.
  induction i as [| i IH]; intros F M Hi HF HM HS; cbn [reloc_scan].
  - split; [intros q Hq; lia |]. simpl. lia.
  - destruct (counts_snoc s i Base) as [-> ->]. rewrite add32_id by lia.
    set (p := Base + Z.of_nat i) in *.
    pose proof (entry_free_free_set s p W ltac:(lia)) as Hef.
    assert (Snoc : in_range s p /\ (p ∈ free_set s \/ link s p <> 0) -> all_movable s Base i ->
      all_movable s Base (S i)).
    { intros Hp HA q Hq. destruct (decide (q = p)) as [-> | Hne]; [done |]. apply HA. lia. }
    destruct (entry_free (link s p)) eqn:E; [| destruct (Z.eqb_spec (link s p) 0) as [E0 | E0]; cbn [negb]].
    + assert (Hp : p ∈ free_set s) by tauto. rewrite add32_id, !decide_True by (done || lia).
      specialize (IH (F + 1) M ltac:(lia) ltac:(lia) ltac:(lia) ltac:(lia)).
      destruct (reloc_scan s Base i (F + 1) M) as [x | [F' M']]; [split; [lia | tauto] |].
      destruct IH as (IA & -> & ->). split; [apply Snoc; [unfold in_range; split; [lia | auto] | done] | lia].
    + split; [lia |]. split; [intros Hin%Hef; done | done].
    + assert (Hp : p ∉ free_set s) by (intros Hin%Hef; done). rewrite add32_id, !decide_False by (done || lia).
      specialize (IH F (M + 1) ltac:(lia) ltac:(lia) ltac:(lia) ltac:(lia)).
      destruct (reloc_scan s Base i F (M + 1)) as [x | [F' M']]; [split; [lia | tauto] |].
      destruct IH as (IA & -> & ->). split; [apply Snoc; [unfold in_range; split; [lia | auto] | done] | lia].
Qed.

(** The run at [b] can be assembled: every frame is free or movable, and there
    is a destination outside the run for each movable one. *)
Definition feasible (s : supply) (n b : Z) : Prop :=
  all_movable s b (Z.to_nat n) /\
  (movable_count s b (Z.to_nat n) <= generic_out s b (b + n - 1)%Z)%nat.

Lemma counts_bound s Page n : (free_count s Page n + movable_count s Page n = n)%nat.
Proof.
  revert Page. induction n as [| n IH]; intros Page; [done |]. cbn [free_count movable_count].
  specialize (IH (Page + 1)). case_decide; lia.
Qed.

Lemma reloc_probe_spec s n k b : supply_wf s -> 0 < n -> 16 <= b -> b + n - 1 <= NxpHighestPfn s ->
  0 <= k < 32 ->
  match reloc_probe s n (2 ^ k) b with
  | Fits => feasible s n b
  | Stop => ~ feasible s n b /\ b < 2 ^ k
  | Retry f => f < b + n /\ forall c, f - n < c <= b -> c mod 2 ^ k = b mod 2 ^ k -> ~ feasible s n c
  end.
Proof.
  intros W Hn Hb Hbn Hk. pose proof (wf_highest _ W) as Hh.
  assert (Hp : 0 < 2 ^ k) by (apply Z.pow_pos_nonneg; lia).
  unfold reloc_probe.
  pose proof (reloc_scan_spec s b W ltac:(lia) (Z.to_nat n) 0 0 ltac:(lia) ltac:(lia) ltac:(lia) ltac:(lia)) as HS.
  destruct (reloc_scan s b (Z.to_nat n) 0 0) as [x | [F M]].
  { destruct HS as (Hx & Hxf & Hxl). split; [lia |]. intros c Hc _ [HA _].
    destruct (HA x ltac:(lia)) as [_ [? | ?]]; done. }
  destruct HS as (HA & -> & ->).
  pose proof (generic_split s b n Hb ltac:(lia)) as HG. destruct (wf_counts s W) as [_ HGA].
  pose proof (counts_bound s b (Z.to_nat n)). destruct (wf_counts_bound s W) as [HGB _].
  rewrite HGA, HG in *. rewrite sub32_id by lia.
  destruct (Z.ltb_spec (Z.of_nat (generic_out s b (b + n - 1) + free_count s b (Z.to_nat n)) -
    (0 + Z.of_nat (free_count s b (Z.to_nat n)))) (0 + Z.of_nat (movable_count s b (Z.to_nat n)))) as [Hlt | Hge].
  - assert (NF : ~ feasible s n b) by (intros [_ ?]; lia).
    destruct (Z.ltb_spec b (2 ^ k)) as [Hbk | Hbk]; [done |].
    rewrite sub32_id, add32_id by lia. split; [lia |]. intros c Hc Hcm.
    by rewrite (mod_near c b (2 ^ k)) by (done || lia).
  - split; [done | lia].
Qed.

Lemma reloc_search_spec s n lo k : supply_wf s -> 0 < n -> 16 <= lo -> 0 <= k < 32 ->
  forall fuel Base, 0 <= Base -> Base + n - 1 <= NxpHighestPfn s -> Base mod 2 ^ k = 0 ->
  Base < Z.of_nat fuel ->
  exists r, reloc_search fuel s n lo (2 ^ k) Base = Some r /\
    ((r = 0 /\ forall b, lo <= b <= Base -> b mod 2 ^ k = 0 -> ~ feasible s n b) \/
     (lo <= r <= Base /\ r mod 2 ^ k = 0 /\ feasible s n r /\
      forall b, r < b <= Base -> b mod 2 ^ k = 0 -> ~ feasible s n b)).
Proof.
  intros W Hn Hlo Hk. pose proof (wf_highest _ W) as Hh.
  assert (Hp : 0 < 2 ^ k) by (apply Z.pow_pos_nonneg; lia).
  induction fuel as [| f IH]; intros Base HB Hbn Hal Hf; [lia |].
  cbn [reloc_search]. destruct (Z.leb_spec lo Base) as [Hl | Hl].
  2: { exists 0. split; [done |]. left. split; [done | intros; lia]. }
  pose proof (reloc_probe_spec s n k Base W Hn ltac:(lia) Hbn Hk) as HP. rewrite Hal in HP.
  destruct (reloc_probe s n (2 ^ k) Base) as [| | x].
  - exists Base. split; [done |]. right. split; [lia |]. split; [done |]. split; [done | intros; lia].
  - exists 0. split; [done |]. left. split; [done |]. intros b Hb Hbm.
    destruct HP as [HP Hlt]. replace b with Base; [done |].
    rewrite Z.mod_small in Hbm by lia. lia.
  - destruct HP as [Hx Miss]. destruct (Z.ltb_spec x n) as [Hxn | Hxn].
    { exists 0. split; [done |]. left. split; [done |]. intros b Hb Hbm. apply Miss; [lia | done]. }
    rewrite sub32_id by lia.
    destruct (align_down_props (x - n) k Hk ltac:(lia)) as (A1 & A2 & A3).
    set (B' := align_down (x - n) (2 ^ k)) in *.
    assert (Skip : forall b, B' < b <= Base -> b mod 2 ^ k = 0 -> ~ feasible s n b).
    { intros b Hb Hbm. apply Miss; [| done]. destruct (Z.le_gt_cases b (x - n)); [| lia].
      pose proof (A3 b Hbm ltac:(lia)). lia. }
    destruct (IH B') as (r & -> & Hr); [lia | lia | done | lia |].
    exists r. split; [done |]. destruct Hr as [[-> Hr] | (Hr & Hrm & Hrf & Hrh)]; [left | right].
    + split; [done |]. intros b Hb Hbm. destruct (Z.le_gt_cases b B'); [apply Hr | apply Skip]; (done || lia).
    + split; [lia |]. split; [done |]. split; [done |]. intros b Hb Hbm.
      destruct (Z.le_gt_cases b B'); [apply Hrh | apply Skip]; (done || lia).
Qed.

Lemma relocate_spec m n lo hi al k : mm_wf m -> is_u32 n -> is_u32 lo -> is_u32 hi ->
  align_of al = 2 ^ k -> 0 <= k < 32 -> 16 <= lo ->
  exists b m', NxkPageSupplyTakeRunRelocate m n lo hi al = Some (b, m') /\
  ((b = 0 /\ m' = m /\ forall c, n <> 0 -> run_fits (sup m) n lo hi (2 ^ k) c -> ~ feasible (sup m) n c) \/
   (0 < n /\ run_fits (sup m) n lo hi (2 ^ k) b /\
    (forall c, b < c -> run_fits (sup m) n lo hi (2 ^ k) c -> ~ feasible (sup m) n c) /\
    mm_wf m' /\ view_kept m m' /\ (forall q, b <= q < b + n -> pinned m' q) /\
    free_set (sup m') ⊆ free_set (sup m))).
Proof.
  intros Wm Hn Hlo Hhi Hal Hk Hfl. pose proof (mm_sup _ Wm) as W. pose proof (wf_highest _ W) as Hh.
  unfold NxkPageSupplyTakeRunRelocate.
  pose proof (run_window_spec (sup m) n lo hi al k W Hn Hlo Hhi Hal Hk) as Hw.
  destruct (run_window (sup m) n lo hi al) as [[[lo' al'] Base] |].
  2: { exists 0, m. split; [done |]. left. repeat split. intros c Hc Hf. by destruct (Hw c Hc). }
  destruct Hw as (Hn0 & -> & -> & HB & HBn & HBm & HBh & Hmax).
  destruct (reloc_search_spec (sup m) n (Z.max lo 1) k W Hn0 ltac:(lia) Hk (S (Z.to_nat Base)) Base)
    as (r & -> & Hr); [lia | lia | done | lia |].
  destruct Hr as [[-> Hr] | (Hr & Hrm & [HA HC] & Hrh)].
  - exists 0, m. split; [done |]. left. repeat split. intros c _ Hf.
    apply Hr; [| by destruct Hf as (_ & _ & ?)]. split; [by destruct Hf | by apply Hmax].
  - destruct (Z.eqb_spec r 0); [lia |]. rewrite add32_id, sub32_id by lia.
    destruct (reloc_fill_spec (Z.to_nat n) m r (r + n - 1) r) as (b & m' & -> & Wm' & V & HS & HP & HC');
      [done | lia | lia | lia | done |].
    rewrite (HC' HC) in *. exists r, m'. split; [done |]. right. split; [done |].
    split; [unfold run_fits; repeat split; [lia | lia | done] |].
    split; [| split; [done |]; split; [done |]; split; [intros; apply HP; [done | lia] | done]].
    intros c Hc Hf. apply Hrh; [| by destruct Hf as (_ & _ & ?)]. split; [done | by apply Hmax].
Qed.

(** *** Any window

    Below the floor the count of destinations can wrap, so that the search
    admits a run that the fill cannot complete; the views are kept all the
    same. *)

Lemma reloc_probe_any s n k b : supply_wf s -> 0 < n -> 1 <= b -> b + n - 1 <= NxpHighestPfn s -> 0 <= k < 32 ->
  match reloc_probe s n (2 ^ k) b with
  | Fits => all_movable s b (Z.to_nat n)
  | Stop => True
  | Retry f => f < b + n
  end.
Proof.
  intros W Hn Hb Hbn Hk. pose proof (wf_highest _ W). assert (0 < 2 ^ k) by (apply Z.pow_pos_nonneg; lia). unfold reloc_probe.
  pose proof (reloc_scan_spec s b W Hb (Z.to_nat n) 0 0 ltac:(lia) ltac:(lia) ltac:(lia) ltac:(lia)) as HS.
  destruct (reloc_scan s b (Z.to_nat n) 0 0) as [x | [F M]]; [lia |]. destruct HS as (HA & _ & _).
  destruct (_ <? M); [| done]. destruct (Z.ltb_spec b (2 ^ k)); [done |]. rewrite sub32_id, add32_id by lia. lia.
Qed.

Lemma reloc_search_any s n lo k : supply_wf s -> 0 < n -> 1 <= lo -> 0 <= k < 32 ->
  forall fuel Base, 0 <= Base -> Base + n - 1 <= NxpHighestPfn s -> Base mod 2 ^ k = 0 -> Base < Z.of_nat fuel ->
  exists r, reloc_search fuel s n lo (2 ^ k) Base = Some r /\
    (r = 0 \/ lo <= r <= Base /\ r mod 2 ^ k = 0 /\ all_movable s r (Z.to_nat n)).
Proof.
  intros W Hn Hlo Hk. pose proof (wf_highest _ W) as Hh.
  induction fuel as [| f IH]; intros Base HB Hbn Hal Hf; [lia |]. cbn [reloc_search].
  destruct (Z.leb_spec lo Base) as [Hl | Hl]; [| exists 0; auto].
  pose proof (reloc_probe_any s n k Base W Hn ltac:(lia) Hbn Hk) as HP. destruct (reloc_probe s n (2 ^ k) Base) as [| | x].
  - exists Base. split; [done |]. right. split; [lia | done].
  - exists 0. auto.
  - destruct (Z.ltb_spec x n); [exists 0; auto |]. rewrite sub32_id by lia.
    destruct (align_down_props (x - n) k Hk ltac:(lia)) as (A1 & A2 & _).
    destruct (IH (align_down (x - n) (2 ^ k))) as (r & -> & Hr); [lia | lia | done | lia |]. exists r. split; [done |].
    destruct Hr as [? | (? & ? & ?)]; [by left | right]. split; [lia | done].
Qed.

Lemma relocate_any m n lo hi al k : mm_wf m -> is_u32 n -> is_u32 lo -> is_u32 hi -> align_of al = 2 ^ k -> 0 <= k < 32 ->
  exists b m', NxkPageSupplyTakeRunRelocate m n lo hi al = Some (b, m') /\ mm_wf m' /\ view_kept m m' /\
    free_set (sup m') ⊆ free_set (sup m) /\
    (b = 0 \/ 0 < n /\ run_fits (sup m) n lo hi (2 ^ k) b /\ all_movable (sup m) b (Z.to_nat n) /\
       forall q, b <= q < b + n -> pinned m' q).
Proof.
  intros Wm Hn Hlo Hhi Hal Hk. pose proof (mm_sup _ Wm) as W. pose proof (wf_highest _ W) as Hh. unfold NxkPageSupplyTakeRunRelocate.
  pose proof (run_window_spec (sup m) n lo hi al k W Hn Hlo Hhi Hal Hk) as Hw.
  destruct (run_window (sup m) n lo hi al) as [[[lo' al'] Base] |]; [| exists 0, m; do 4 (split; [done |]); by left].
  destruct Hw as (Hn0 & -> & -> & HB & HBn & HBm & HBh & _).
  destruct (reloc_search_any (sup m) n (Z.max lo 1) k W Hn0 ltac:(lia) Hk (S (Z.to_nat Base)) Base) as (r & -> & Hr); [lia | lia | done | lia |].
  destruct Hr as [-> | (Hr & Hrm & HA)]; [exists 0, m; do 4 (split; [done |]); by left |].
  destruct (Z.eqb_spec r 0); [lia |]. rewrite add32_id, sub32_id by lia.
  destruct (reloc_fill_spec (Z.to_nat n) m r (r + n - 1) r) as (b & m' & -> & Wm' & V & HS & HP & _); [done | lia | lia | lia | done |].
  destruct b; [exists r, m' | exists 0, m'; do 4 (split; [done |]); by left]. do 4 (split; [done |]). right. split; [done |].
  split; [unfold run_fits; repeat split; [lia | lia | done] |]. split; [done |]. intros q Hq. apply HP; [done | lia].
Qed.

(** ** Mapping and unmapping a frame

    The sequences every client of the supply uses: take a frame and enter it
    in a page-table entry with its owner recorded; clear the entry, drop the
    owner and return the frame. *)

Lemma take_zero_spec m : mm_wf m -> exists p m', NxkPageSupplyTakeZero m = Some (p, m') /\
  ((p = 0 /\ m' = m /\ forall q, q ∈ free_set (sup m) -> q < 16) \/
   (exists s', took (sup m) p s' /\ 16 <= p /\ m' = zero_page p (with_sup s' m))).
Proof.
  intros [W O]. unfold NxkPageSupplyTakeZero.
  destruct (take_any_spec (sup m) W) as (p & s' & -> & H). eexists p, _. split; [done |].
  destruct H as [(-> & -> & H) | [H [Hc _]]].
  - left. split; [done |]. split; [by destruct m | done].
  - right. exists s'. split; [done |]. split; [done |].
    destruct (Z.eqb_spec p 0); [lia | done].
Qed.

Lemma set_frame_wf m p f : mm_wf m -> mm_wf (set_frame p f m).
Proof. intros [W O]. constructor; [done |]. intros k q H. by apply (O k q). Qed.

(** Entering frame [p] at entry [k]. *)
Definition map_frame (k e p : Z) (m : mm) : mm :=
  let m1 := set_pte k e m in
  with_sup (NxkPageSupplySetOwner (sup m1) p (NXP_OWNER_BASE + 4 * k)) m1.

(** Clearing entry [k], which holds frame [p]. *)
Definition unmap_frame (k p : Z) (m : mm) : mm :=
  let m1 := set_pte k 0 m in
  MmDereferencePage (with_sup (NxkPageSupplySetOwner (sup m1) p 0) m1) p.

Lemma owner_va_index k : 0 < k < 2 ^ 20 -> owner_va (NXP_OWNER_BASE + 4 * k).
Proof.
  intros Hk. unfold owner_va, NXP_OWNER_BASE, NXP_OWNER_LIMIT. split; [lia |].
  replace (3221225472 + 4 * k) with ((805306368 + k) * 4) by lia. apply Z.mod_mul. lia.
Qed.

Lemma set_owner_link s p k : supply_wf s -> in_range s p -> p ∉ free_set s -> 0 < k < 2 ^ 20 ->
  link (NxkPageSupplySetOwner s p (NXP_OWNER_BASE + 4 * k)) p = k.
Proof.
  intros W Hr Hf Hk. pose proof (entry_free_free_set s p W ltac:(unfold in_range in Hr; lia)) as Hef.
  unfold NxkPageSupplySetOwner. unfold in_range in Hr.
  destruct ((0 <? p) && (p <=? NxpHighestPfn s)) eqn:E; [| lia].
  destruct (entry_free (link s p)); [tauto |]. cbn [andb negb].
  destruct (Z.eqb_spec (NXP_OWNER_BASE + 4 * k) 0); [unfold NXP_OWNER_BASE in *; lia |].
  unfold link, set_links. cbn [NxpLinks]. rewrite rd_insert_eq.
  unfold NXP_OWNER_BASE in *. rewrite sub32_id, Z.shiftr_div_pow2 by lia.
  replace (3221225472 + 4 * k - 3221225472) with (k * 2 ^ 2) by lia. apply Z.div_mul. lia.
Qed.

Lemma map_frame_mm m k e p : mm_wf m -> pinned m p -> 0 < k < 2 ^ 20 -> e / 2 ^ 12 = p ->
  (forall q, ~ owned m k q) ->
  let m' := map_frame k e p m in
  mm_wf m' /\ free_set (sup m') = free_set (sup m) /\
  (forall j q, owned m' j q <-> owned m j q \/ (j = k /\ q = p)) /\
  (forall q, q <> p -> pinned m' q <-> pinned m q) /\
  (forall j, pte m' j = if decide (k = j) then e else pte m j) /\
  (forall q, frame_at m' q = frame_at m q) /\
  NxpHighestPfn (sup m') = NxpHighestPfn (sup m).
Proof.
  intros [W O] (Hr & Hf & Hl) Hk He Hno m'.
  destruct (set_owner_spec (sup m) p (NXP_OWNER_BASE + 4 * k) W (or_intror (owner_va_index k Hk)))
    as (W' & HF & HH & HL & _).
  pose proof (set_owner_link (sup m) p k W Hr Hf Hk) as Hlp.
  assert (Es : sup m' = NxkPageSupplySetOwner (sup m) p (NXP_OWNER_BASE + 4 * k)) by done.
  rewrite <- Es in W', HF, HH, HL, Hlp.
  assert (HO : forall j q, owned m' j q <-> owned m j q \/ (j = k /\ q = p)).
  { intros j q. unfold owned, in_range in *. rewrite HF, HH.
    destruct (decide (q = p)) as [-> | Hq]; [rewrite Hlp | rewrite HL by done; intuition congruence].
    split; [intros (_ & _ & <- & _); auto |]. intros [(_ & _ & E & Hj) | [-> _]]; [congruence |].
    repeat split; try done; lia. }
  assert (HP : forall j, pte m' j = if decide (k = j) then e else pte m j)
    by (intros j; unfold pte; apply rd_insert).
  split; [| split; [done |]; split; [done |]; split; [| split; [done |]; split; done]].
  - constructor; [done |]. intros j q Ho%HO. rewrite HP. destruct Ho as [Ho | [-> ->]].
    + rewrite decide_False; [by apply O |]. intros <-. by apply (Hno q).
    + by rewrite decide_True.
  - intros q Hq. unfold pinned, in_range. by rewrite HF, HH, HL.
Qed.

Lemma unmap_used_mm m k p : mm_wf m -> in_range (sup m) p -> p ∉ free_set (sup m) -> pte m k / 2 ^ 12 = p ->
  let m' := unmap_frame k p m in
  mm_wf m' /\ free_set (sup m') = {[p]} ∪ free_set (sup m) /\
  (forall j q, owned m' j q <-> owned m j q /\ q <> p) /\
  (forall q, q <> p -> pinned m q -> pinned m' q) /\
  (forall j, pte m' j = if decide (k = j) then 0 else pte m j) /\
  (forall q, frame_at m' q = frame_at m q) /\
  NxpHighestPfn (sup m') = NxpHighestPfn (sup m).
Proof.
  intros [W O] Hr Hf Hp m'.
  destruct (set_owner_spec (sup m) p 0 W (or_introl eq_refl)) as (W1 & F1 & H1 & L1 & _).
  set (s1 := NxkPageSupplySetOwner (sup m) p 0) in *.
  assert (Hr1 : in_range s1 p) by (unfold in_range in *; by rewrite H1).
  destruct (return_wf s1 p W1 Hr1 ltac:(by rewrite F1)) as (W2 & F2 & U2).
  destruct (return_fields s1 p) as (H2 & _).
  assert (Es : sup m' = NxkPageSupplyReturn s1 p) by done. rewrite <- Es in W2, F2, U2, H2.
  assert (HF : free_set (sup m') = {[p]} ∪ free_set (sup m)) by congruence.
  assert (HH : NxpHighestPfn (sup m') = NxpHighestPfn (sup m)) by congruence.
  assert (HL : forall q, q <> p -> q ∉ free_set (sup m) -> link (sup m') q = link (sup m) q).
  { intros q Hq Hqf. rewrite U2, L1; [done | done | by rewrite F1 |].
    rewrite HF, elem_of_union, elem_of_singleton. tauto. }
  assert (HO : forall j q, owned m' j q <-> owned m j q /\ q <> p).
  { intros j q. unfold owned, in_range in *. rewrite HF, HH, elem_of_union, elem_of_singleton.
    destruct (decide (q = p)) as [-> | Hq]; [tauto |].
    destruct (decide (q ∈ free_set (sup m))); [tauto |]. rewrite HL by done. tauto. }
  assert (HP : forall j, pte m' j = if decide (k = j) then 0 else pte m j)
    by (intros j; unfold pte; apply rd_insert).
  split; [| split; [done |]; split; [done |]; split; [| split; [done |]; split; done]].
  - constructor; [done |]. intros j q Hoj%HO. destruct Hoj as [Hoj Hq]. rewrite HP.
    rewrite decide_False; [by apply O |]. intros <-. apply Hq. by rewrite <- (O _ _ Hoj).
  - intros q Hq (Hqr & Hqf & Hql). unfold pinned, in_range in *. rewrite HF, HH, elem_of_union, elem_of_singleton.
    rewrite HL by done. tauto.
Qed.

Lemma unmap_frame_mm m k p : mm_wf m -> owned m k p ->
  let m' := unmap_frame k p m in
  mm_wf m' /\ free_set (sup m') = {[p]} ∪ free_set (sup m) /\
  (forall j q, owned m' j q <-> owned m j q /\ q <> p) /\
  (forall q, pinned m q -> pinned m' q) /\
  (forall j, pte m' j = if decide (k = j) then 0 else pte m j) /\
  (forall q, frame_at m' q = frame_at m q) /\
  NxpHighestPfn (sup m') = NxpHighestPfn (sup m).
Proof.
  intros W Ho m'. pose proof Ho as (Hr & Hf & Hl & Hk).
  destruct (unmap_used_mm m k p W Hr Hf (mm_owner _ W _ _ Ho)) as (A & B & C & D & E). fold m' in A, B, C, D, E.
  repeat (split; [done |]). split; [| done]. intros q Hq. apply D; [| done]. intros ->. destruct Hq as (_ & _ & ?). congruence.
Qed.

(** ** Properties *)

(** C14: [NxkPageSupplyTakeRunRelocate] on a window above the pin-only floor
    always returns.  It fails exactly when no aligned run of the window can be
    assembled, and then changes nothing; otherwise it yields the highest run
    that can, all of whose frames are now in use and ownerless, while every
    virtual page owned by a page-table entry keeps its contents and flags,
    every other entry and every immovable frame is untouched. *)
Theorem relocate_preserves_views m n lo hi al k : mm_wf m -> is_u32 n -> is_u32 lo -> is_u32 hi ->
  align_of al = 2 ^ k -> 0 <= k < 32 -> NXP_GENERIC_FLOOR_PFN <= lo -> n <> 0 ->
  exists b m', NxkPageSupplyTakeRunRelocate m n lo hi al = Some (b, m') /\
  ((b = 0 /\ m' = m /\ forall c, run_fits (sup m) n lo hi (2 ^ k) c -> ~ feasible (sup m) n c) \/
   (run_fits (sup m) n lo hi (2 ^ k) b /\
    (forall c, b < c -> run_fits (sup m) n lo hi (2 ^ k) c -> ~ feasible (sup m) n c) /\
    mm_wf m' /\ view_kept m m' /\ (forall q, b <= q < b + n -> pinned m' q) /\
    free_set (sup m') ⊆ free_set (sup m))).
Proof.
  intros Wm Hn Hlo Hhi Hal Hk Hfl Hn0.
  destruct (relocate_spec m n lo hi al k Wm Hn Hlo Hhi Hal Hk Hfl) as (b & m' & E & H).
  exists b, m'. split; [done |]. destruct H as [(-> & -> & H) | (_ & H)]; [left; auto | right; done].
Qed.

(** Frame 30 holds the page of virtual page 0x100; frames 40 and 41 are free. *)
Definition one_page : mm :=
  let s := NxkPageSupplyReturn (NxkPageSupplyReturn small_machine 40) 41 in
  Mm (NxkPageSupplySetOwner s 30 0xC0000400) {[ 0x100 := 30 * 4096 + 3 ]} {[ 30 := replicate 1024 7 ]}.

Lemma one_page_wf : mm_wf one_page.
Proof.
  assert (R : forall s p, supply_wf s -> NxkPageSupplyIsFree s p = false -> in_range s p ->
    supply_wf (NxkPageSupplyReturn s p)).
  { intros s p W F Hr. apply return_wf; [done | done |]. rewrite (elem_of_free_set _ _ W). congruence. }
  assert (W0 : supply_wf small_machine) by (apply init_wf; lia).
  assert (W1 : supply_wf (NxkPageSupplyReturn small_machine 40))
    by (apply R; [done | vm_compute; done | unfold in_range; simpl; lia]).
  assert (W2 : supply_wf (NxkPageSupplyReturn (NxkPageSupplyReturn small_machine 40) 41))
    by (apply R; [done | vm_compute; done | unfold in_range; simpl; lia]).
  assert (Hva : owner_va 0xC0000400) by done.
  constructor.
  - apply set_owner_spec; [exact W2 | right; exact Hva].
  - intros k p (Hr & Hf & Hl & Hk).
    assert (Hh : NxpHighestPfn (sup one_page) = 99) by (vm_compute; reflexivity).
    assert (Hall : forallb (fun i => let p := Z.of_nat i in
      (link (sup one_page) p =? 0) || NxkPageSupplyIsFree (sup one_page) p ||
      (pte one_page (link (sup one_page) p) / 2 ^ 12 =? p)) (seq 0 100) = true)
      by (vm_compute; reflexivity).
    unfold in_range in Hr. rewrite Hh in Hr. rewrite forallb_forall in Hall.
    specialize (Hall (Z.to_nat p)). cbv zeta in Hall. rewrite Z2Nat.id, Hl in Hall by lia.
    assert (W3 : supply_wf (sup one_page)) by (apply set_owner_spec; [exact W2 | right; exact Hva]).
    rewrite (elem_of_free_set _ _ W3) in Hf. apply not_true_is_false in Hf.
    rewrite Hf in Hall.
    specialize (Hall ltac:(apply in_seq; lia)). lia.
Qed.

Lemma relocate_preserves_views_witness :
  exists b m', NxkPageSupplyTakeRunRelocate one_page 1 30 30 1 = Some (b, m') /\
  ((b = 0 /\ m' = one_page /\
    forall c, run_fits (sup one_page) 1 30 30 (2 ^ 0) c -> ~ feasible (sup one_page) 1 c) \/
   (run_fits (sup one_page) 1 30 30 (2 ^ 0) b /\
    (forall c, b < c -> run_fits (sup one_page) 1 30 30 (2 ^ 0) c -> ~ feasible (sup one_page) 1 c) /\
    mm_wf m' /\ view_kept one_page m' /\ (forall q, b <= q < b + 1 -> pinned m' q) /\
    free_set (sup m') ⊆ free_set (sup one_page))).
Proof.
  apply (relocate_preserves_views one_page 1 30 30 1 0); try (unfold is_u32; lia); try reflexivity.
  - exact one_page_wf.
  - unfold NXP_GENERIC_FLOOR_PFN. lia.
Defined.

(** A window below the floor: frames 7 to 9 are owned, frames 5 and 6 of it
    are free, and nothing else is free. *)
Definition low_window : mm :=
  let s := NxkPageSupplyReturn (NxkPageSupplyReturn small_machine 5) 6 in
  let s := fold_left (fun s p => NxkPageSupplySetOwner s p (0xC0000000 + 4 * p)) (map Z.of_nat (seq 7 3)) s in
  Mm s (list_to_map (map (fun i => (Z.of_nat i, Z.of_nat i * 4096 + 3)) (seq 7 3))) ∅.

(** with pin-only frames free inside the window the pre-flight subtraction
    [NxpGenericAvail - FreeInWindow] wraps and admits a window that has no
    destination outside: the call returns 0 after unlinking the window's free
    frames, which no list and no owner accounts for any more. *)
Theorem relocate_leaks_low_window :
  MmAvailablePages (sup low_window) = 2 /\ NxpGenericAvail (sup low_window) = 0 /\
  exists m', NxkPageSupplyTakeRunRelocate low_window 5 5 9 1 = Some (0, m') /\
    MmAvailablePages (sup m') = 0 /\ link (sup m') 5 = 0 /\ link (sup m') 6 = 0.
Proof.
  split; [vm_compute; reflexivity |]. split; [vm_compute; reflexivity |].
  assert (E : option_map (fun r => (fst r, MmAvailablePages (sup (snd r)), link (sup (snd r)) 5,
    link (sup (snd r)) 6)) (NxkPageSupplyTakeRunRelocate low_window 5 5 9 1) = Some (0, 0, 0, 0))
    by (vm_compute; reflexivity).
  destruct (NxkPageSupplyTakeRunRelocate low_window 5 5 9 1) as [[b m'] |]; [| discriminate E].
  cbn [option_map fst snd] in E. injection E as -> E1 E2 E3. exists m'. auto.
Qed.
