(* ===== verification/Vm.v ===== *)
(** The title virtual-memory manager: [ntoskrnl/xb/mm/vm.c].

    A sorted list of reservations, and the page tables as the only record of
    what is committed and how it is protected.  Each call runs under one mutex,
    so it is one step.  Region nodes come from the non-paged pool; whether that
    allocation succeeds is an argument of the calls that make one. *)

From stdpp Require Import prelude gmap list numbers sets.
From Stdlib Require Import ZArith Lia.
From S2P Require Import Prelude PageSupply Paging.

Local Open Scope Z_scope.

(** ** Constants *)

Definition MEM_COMMIT : Z := 0x1000.
Definition MEM_RESERVE : Z := 0x2000.
Definition MEM_DECOMMIT : Z := 0x4000.
Definition MEM_RELEASE : Z := 0x8000.
Definition MEM_FREE : Z := 0x10000.
Definition MEM_PRIVATE : Z := 0x20000.
Definition MEM_RESET : Z := 0x80000.
Definition MEM_TOP_DOWN : Z := 0x100000.
Definition MEM_NOZERO : Z := 0x00800000.

Definition PAGE_NOACCESS : Z := 0x01.
Definition PAGE_READONLY : Z := 0x02.
Definition PAGE_READWRITE : Z := 0x04.
Definition PAGE_WRITECOPY : Z := 0x08.
Definition PAGE_EXECUTE : Z := 0x10.
Definition PAGE_EXECUTE_READ : Z := 0x20.
Definition PAGE_EXECUTE_READWRITE : Z := 0x40.
Definition PAGE_EXECUTE_WRITECOPY : Z := 0x80.
Definition PAGE_GUARD : Z := 0x100.
Definition PAGE_NOCACHE : Z := 0x200.
Definition PAGE_WRITECOMBINE : Z := 0x400.

Definition NXV_LOWEST : Z := 0x00010000.
Definition NXV_HIGHEST : Z := 0x7FFE0000.
Definition NXV_GRANULARITY : Z := 0x00010000.

Definition NXV_PTE_P : Z := 0x001.
Definition NXV_PTE_RW : Z := 0x002.
Definition NXV_PTE_PWT : Z := 0x008.
Definition NXV_PTE_PCD : Z := 0x010.
Definition NXV_PTE_SW_COMMIT : Z := 0x800.
Definition NXV_PTE_FRESH : Z := 0x400.

(** Indices of [NXV_PDE(Va)] and [NXV_PTE(Va)] in the self-map window. *)
Definition NXV_PDE (Va : Z) : Z := 0xC0000 + Z.shiftr Va 22.
Definition NXV_PTE (Va : Z) : Z := Z.shiftr Va 12.

(** Their addresses, as recorded for relocation. *)
Definition pte_va (k : Z) : Z := 0xC0000000 + 4 * k.

(** ** State *)

Record region : Type := Region { Base : Z; Size : Z; AllocProtect : Z }.

Record vm : Type := Vm {
  mem : mm;
  NxvRegionList : list region;
  NxvCommitted : Z;
  NxvReserved : Z
}.

Definition with_mem (m : mm) (v : vm) : vm := Vm m (NxvRegionList v) (NxvCommitted v) (NxvReserved v).
Definition with_regions (l : list region) (v : vm) : vm := Vm (mem v) l (NxvCommitted v) (NxvReserved v).
Definition with_committed (c : Z) (v : vm) : vm := Vm (mem v) (NxvRegionList v) c (NxvReserved v).
Definition with_reserved (r : Z) (v : vm) : vm := Vm (mem v) (NxvRegionList v) (NxvCommitted v) r.

(** End address of a region, in the machine's arithmetic. *)
Definition REnd (r : region) : Z := add32 (Base r) (Size r).

(** ** Protection mapping *)

Definition NxvProtectToPte (Protect : Z) : option Z :=
  let c1 := if BooleanFlagOn Protect PAGE_NOCACHE then NXV_PTE_PCD else 0 in
  let Caching := if BooleanFlagOn Protect PAGE_WRITECOMBINE then Z.lor c1 NXV_PTE_PWT else c1 in
  if BooleanFlagOn Caching NXV_PTE_PCD && BooleanFlagOn Caching NXV_PTE_PWT then None
  else
    let p := Z.land Protect (not32 (Z.lor (Z.lor PAGE_NOCACHE PAGE_WRITECOMBINE) PAGE_GUARD)) in
    if p =? PAGE_NOACCESS then
      if negb (Caching =? 0) then None else Some NXV_PTE_SW_COMMIT
    else if (p =? PAGE_READONLY) || (p =? PAGE_EXECUTE) || (p =? PAGE_EXECUTE_READ) then
      Some (Z.lor NXV_PTE_P Caching)
    else if (p =? PAGE_READWRITE) || (p =? PAGE_WRITECOPY) || (p =? PAGE_EXECUTE_READWRITE) ||
            (p =? PAGE_EXECUTE_WRITECOPY) then
      Some (Z.lor (Z.lor NXV_PTE_P NXV_PTE_RW) Caching)
    else None.

Definition NxvPteToProtect (Pte : Z) : Z :=
  if Pte =? 0 then 0
  else if negb (BooleanFlagOn Pte NXV_PTE_P) then PAGE_NOACCESS
  else
    let p := if BooleanFlagOn Pte NXV_PTE_RW then PAGE_READWRITE else PAGE_READONLY in
    let p := if BooleanFlagOn Pte NXV_PTE_PCD then Z.lor p PAGE_NOCACHE else p in
    if BooleanFlagOn Pte NXV_PTE_PWT then Z.lor p PAGE_WRITECOMBINE else p.

(** ** Page-table helpers *)

Definition pde_present (m : mm) (Va : Z) : bool := BooleanFlagOn (pte m (NXV_PDE Va)) NXV_PTE_P.

(** Writing a directory entry brings the 1024 entries of the table's frame into
    the window; the frame is zeroed, so they read 0. *)
Definition install_table (Va e : Z) (m : mm) : mm :=
  set_pte (NXV_PDE Va) e
    (with_ptes (filter (fun kv => Z.shiftr (fst kv) 10 <> Z.shiftr Va 22) (ptes m)) m).

Definition NxvEnsurePageTable (m : mm) (Va : Z) : option (bool * mm) :=
  if pde_present m Va then Some (true, m)
  else
    match MmAllocPage m with
    | None => None
    | Some (Pfn, m1) =>
        if Pfn =? 0 then Some (false, m1)
        else
          let m2 := install_table Va
                      (Z.lor (Z.lor (shl32 Pfn PAGE_SHIFT) NXV_PTE_P) NXV_PTE_RW) m1 in
          Some (true, with_sup (NxkPageSupplySetOwner (sup m2) Pfn (pte_va (NXV_PDE Va))) m2)
    end.

Definition NxvFreePageAtPte (m : mm) (k : Z) : mm :=
  let Pfn := Z.shiftr (pte m k) PAGE_SHIFT in
  let m1 := set_pte k 0 m in
  MmDereferencePage (with_sup (NxkPageSupplySetOwner (sup m1) Pfn 0) m1) Pfn.

(** ** Region list *)

Fixpoint find_region (l : list region) (Va : Z) (i : nat) : option (nat * region) :=
  match l with
  | [] => None
  | R :: l' =>
      if Va <? Base R then None
      else if Va <? REnd R then Some (i, R)
      else find_region l' Va (S i)
  end.

Definition NxvFindRegion (v : vm) (Va : Z) : option (nat * region) :=
  find_region (NxvRegionList v) Va 0.

Fixpoint overlaps_region (l : list region) (Start End : Z) : bool :=
  match l with
  | [] => false
  | R :: l' =>
      if End <=? Base R then false
      else if Start <? REnd R then true
      else overlaps_region l' Start End
  end.

Definition NxvRangeOverlapsRegion (v : vm) (Start End : Z) : bool :=
  overlaps_region (NxvRegionList v) Start End.

(** The position before the first region with a larger base. *)
Fixpoint insert_pos (l : list region) (base : Z) : nat :=
  match l with
  | [] => 0
  | R :: l' => if base <? Base R then 0 else S (insert_pos l' base)
  end.

Definition insert_at (i : nat) (r : region) (l : list region) : list region :=
  take i l ++ r :: drop i l.

Definition NxvInsertRegion (v : vm) (r : region) : vm :=
  let l := NxvRegionList v in
  with_reserved (add32 (NxvReserved v) (Size r))
    (with_regions (insert_at (insert_pos l (Base r)) r l) v).

(** [RemoveEntryList(&Region->Link); NxvReserved -= Region->Size;] for the
    region just inserted. *)
Definition undo_insert (v : vm) (i : nat) (r : region) : vm :=
  with_reserved (sub32 (NxvReserved v) (Size r))
    (with_regions (delete i (NxvRegionList v)) v).

Definition NxvAllocRegion (node : bool) (base size protect : Z) : option region :=
  if node then Some (Region base size protect) else None.

(** [NxvFindGap]: upwards, then downwards from the highest region. *)
Fixpoint gap_up (l : list region) (size Cursor : Z) : Z :=
  match l with
  | [] => if add32 Cursor size <=? NXV_HIGHEST then Cursor else 0
  | R :: l' =>
      if (Cursor <=? Base R) && (size <=? sub32 (Base R) Cursor) then Cursor
      else gap_up l' size
             (if Cursor <? REnd R then ROUND_UP (REnd R) NXV_GRANULARITY else Cursor)
  end.

Fixpoint gap_down (l : list region) (size Cursor : Z) : Z :=
  match l with
  | [] => if NXV_LOWEST <=? Cursor then Cursor else 0
  | R :: l' =>
      if REnd R <=? Cursor then if NXV_LOWEST <=? Cursor then Cursor else 0
      else if Base R <? add32 size NXV_LOWEST then 0
      else gap_down l' size (ROUND_DOWN (sub32 (Base R) size) NXV_GRANULARITY)
  end.

Definition NxvFindGap (v : vm) (size : Z) (TopDown : bool) : Z :=
  if negb TopDown then gap_up (NxvRegionList v) size NXV_LOWEST
  else gap_down (rev (NxvRegionList v)) size (ROUND_DOWN (sub32 NXV_HIGHEST size) NXV_GRANULARITY).

(** ** Commit and decommit *)

(** Iterations of [for (Va = Start; Va < End; Va += PAGE_SIZE)]. *)
Definition npages (Start End : Z) : nat := Z.to_nat ((End - Start + 4095) / 4096).

(** The take of one data page. *)
Definition take_page (Zero : bool) (m : mm) : option (Z * mm) :=
  if Zero then NxkPageSupplyTakeZero m
  else match NxkPageSupplyTakeAny (sup m) with
       | None => None
       | Some (Pfn, s) => Some (Pfn, with_sup s m)
       end.

(** The protection bits of an entry replaced. *)
Definition reprotect (e PteBits : Z) : Z := Z.lor (Z.land e (not32 (PAGE_SIZE - 1))) PteBits.

(** One iteration of the commit loop; [Some (false, _)] is [goto rollback]. *)
Definition commit_page (v : vm) (Va PteBits : Z) (Zero : bool) : option (bool * vm) :=
  match NxvEnsurePageTable (mem v) Va with
  | None => None
  | Some (false, m1) => Some (false, with_mem m1 v)
  | Some (true, m1) =>
      let k := NXV_PTE Va in
      if negb (pte m1 k =? 0) then
        Some (true, with_mem (set_pte k (reprotect (pte m1 k) PteBits) m1) v)
      else
        match take_page Zero m1 with
        | None => None
        | Some (Pfn, m2) =>
            if Pfn =? 0 then Some (false, with_mem m2 v)
            else
              let m3 := set_pte k (Z.lor (Z.lor (shl32 Pfn PAGE_SHIFT) PteBits) NXV_PTE_FRESH) m2 in
              let m4 := with_sup (NxkPageSupplySetOwner (sup m3) Pfn (pte_va k)) m3 in
              Some (true, with_committed (add32 (NxvCommitted v) PAGE_SIZE) (with_mem m4 v))
        end
  end.

(** The loop: the flag and the [Va] it left with. *)
Fixpoint commit_pages (n : nat) (v : vm) (Va PteBits : Z) (Zero : bool) : option (bool * Z * vm) :=
  match n with
  | O => Some (true, Va, v)
  | S n' =>
      match commit_page v Va PteBits Zero with
      | None => None
      | Some (false, v1) => Some (false, Va, v1)
      | Some (true, v1) => commit_pages n' v1 (add32 Va PAGE_SIZE) PteBits Zero
      end
  end.

Definition clear_fresh_page (v : vm) (Va : Z) : vm :=
  let k := NXV_PTE Va in
  if BooleanFlagOn (pte (mem v) k) NXV_PTE_FRESH then
    with_mem (set_pte k (Z.land (pte (mem v) k) (not32 NXV_PTE_FRESH)) (mem v)) v
  else v.

Fixpoint clear_fresh (n : nat) (v : vm) (Va : Z) : vm :=
  match n with
  | O => v
  | S n' => clear_fresh n' (clear_fresh_page v Va) (add32 Va PAGE_SIZE)
  end.

Definition rollback_page (v : vm) (Va : Z) : vm :=
  if pde_present (mem v) Va && BooleanFlagOn (pte (mem v) (NXV_PTE Va)) NXV_PTE_FRESH then
    with_committed (sub32 (NxvCommitted v) PAGE_SIZE) (with_mem (NxvFreePageAtPte (mem v) (NXV_PTE Va)) v)
  else v.

(** [while (Va > Start) { Va -= PAGE_SIZE; ... }] over [n] pages. *)
Fixpoint rollback (n : nat) (v : vm) (Va : Z) : vm :=
  match n with
  | O => v
  | S n' => let Va' := sub32 Va PAGE_SIZE in rollback n' (rollback_page v Va') Va'
  end.

Definition NxvCommitRange (v : vm) (Start End PteBits : Z) (Zero : bool) : option (Z * vm) :=
  match commit_pages (npages Start End) v Start PteBits Zero with
  | None => None
  | Some (true, _, v1) => Some (STATUS_SUCCESS, clear_fresh (npages Start End) v1 Start)
  | Some (false, Va, v1) => Some (STATUS_NO_MEMORY, rollback (npages Start Va) v1 Va)
  end.

(** [NxvDecommitRange]; an absent page table skips to the next 4 MB block. *)
Fixpoint decommit (fuel : nat) (v : vm) (Va End : Z) : option vm :=
  if End <=? Va then Some v
  else
    match fuel with
    | O => None
    | S f =>
        if negb (pde_present (mem v) Va) then
          decommit f v (add32 (sub32 (ROUND_UP (add32 Va 1) 0x400000) PAGE_SIZE) PAGE_SIZE) End
        else if negb (pte (mem v) (NXV_PTE Va) =? 0) then
          decommit f
            (with_committed (sub32 (NxvCommitted v) PAGE_SIZE)
               (with_mem (NxvFreePageAtPte (mem v) (NXV_PTE Va)) v)) (add32 Va PAGE_SIZE) End
        else decommit f v (add32 Va PAGE_SIZE) End
    end.

Definition NxvDecommitRange (v : vm) (Start End : Z) : option vm := decommit (npages Start End) v Start End.

(** ** Allocate

    A call returns its status, the state and the two in/out values. *)

Record result : Type := Result { status : Z; st : vm; OutBase : Z; OutSize : Z }.

Definition zero_fill (AllocationType : Z) : bool := negb (BooleanFlagOn AllocationType MEM_NOZERO).

(** Reserve [base, base + size), then commit all of it when asked, undoing the
    reservation if the commit fails. *)
Definition reserve_commit (v : vm) (node : bool) (base size AllocationType Protect PteBits : Z)
    (inB inS : Z) : option result :=
  match NxvAllocRegion node base size Protect with
  | None => Some (Result STATUS_INSUFFICIENT_RESOURCES v inB inS)
  | Some Reg =>
      let i := insert_pos (NxvRegionList v) base in
      let v1 := NxvInsertRegion v Reg in
      if BooleanFlagOn AllocationType MEM_COMMIT then
        match NxvCommitRange v1 base (add32 base size) PteBits (zero_fill AllocationType) with
        | None => None
        | Some (Status, v2) =>
            if negb (NT_SUCCESS Status) then Some (Result Status (undo_insert v2 i Reg) inB inS)
            else Some (Result STATUS_SUCCESS v2 base size)
        end
      else Some (Result STATUS_SUCCESS v1 base size)
  end.

Definition NxVmAllocateVirtualMemory (v : vm) (node : bool)
    (BaseAddress RegionSize AllocationType Protect : Z) : option result :=
  let ret s v' := Some (Result s v' BaseAddress RegionSize) in
  if RegionSize =? 0 then ret STATUS_INVALID_PARAMETER v
  else if negb (BooleanFlagOn AllocationType (Z.lor (Z.lor MEM_COMMIT MEM_RESERVE) MEM_RESET)) then
    ret STATUS_INVALID_PARAMETER v
  else
    match NxvProtectToPte Protect with
    | None => ret STATUS_INVALID_PAGE_PROTECTION v
    | Some PteBits =>
        if BooleanFlagOn AllocationType MEM_RESET then ret STATUS_SUCCESS v
        else if BaseAddress =? 0 then
          let size := ROUND_UP RegionSize PAGE_SIZE in
          let Start := NxvFindGap v size (BooleanFlagOn AllocationType MEM_TOP_DOWN) in
          if Start =? 0 then ret STATUS_NO_MEMORY v
          else reserve_commit v node Start size AllocationType Protect PteBits BaseAddress RegionSize
        else if (BaseAddress <? NXV_LOWEST) || (NXV_HIGHEST <=? BaseAddress) then
          ret STATUS_INVALID_PARAMETER v
        else
          let End := ROUND_UP (add32 BaseAddress RegionSize) PAGE_SIZE in
          if BooleanFlagOn AllocationType MEM_RESERVE then
            let Start := ROUND_DOWN BaseAddress NXV_GRANULARITY in
            if NxvRangeOverlapsRegion v Start End then ret STATUS_CONFLICTING_ADDRESSES v
            else reserve_commit v node Start (sub32 End Start) AllocationType Protect PteBits
                   BaseAddress RegionSize
          else
            let Start := ROUND_DOWN BaseAddress PAGE_SIZE in
            let commit v1 :=
              match NxvCommitRange v1 Start End PteBits (zero_fill AllocationType) with
              | None => None
              | Some (Status, v2) =>
                  if NT_SUCCESS Status then Some (Result Status v2 Start (sub32 End Start))
                  else ret Status v2
              end in
            match NxvFindRegion v Start with
            | None =>
                let RStart := ROUND_DOWN Start NXV_GRANULARITY in
                if NxvRangeOverlapsRegion v RStart End then ret STATUS_CONFLICTING_ADDRESSES v
                else
                  match NxvAllocRegion node RStart (sub32 End RStart) Protect with
                  | None => ret STATUS_INSUFFICIENT_RESOURCES v
                  | Some Reg => commit (NxvInsertRegion v Reg)
                  end
            | Some (_, Reg) =>
                if REnd Reg <? End then ret STATUS_CONFLICTING_ADDRESSES v else commit v
            end
    end.

(** ** Free *)

(** [Carve the released range out of the region], region [i] of the list;
    [None] is the refused split. *)
Definition carve (v : vm) (node : bool) (i : nat) (Reg : region) (Start End : Z) : Z * vm :=
  let l := NxvRegionList v in
  let v1 := with_reserved (sub32 (NxvReserved v) (sub32 End Start)) v in
  if (Start =? Base Reg) && (End =? REnd Reg) then (STATUS_SUCCESS, with_regions (delete i l) v1)
  else if Start =? Base Reg then
    (STATUS_SUCCESS,
     with_regions (<[i := Region End (sub32 (Size Reg) (sub32 End Start)) (AllocProtect Reg)]> l) v1)
  else if End =? REnd Reg then
    (STATUS_SUCCESS,
     with_regions (<[i := Region (Base Reg) (sub32 Start (Base Reg)) (AllocProtect Reg)]> l) v1)
  else
    match NxvAllocRegion node End (sub32 (REnd Reg) End) (AllocProtect Reg) with
    | None => (STATUS_INSUFFICIENT_RESOURCES, with_reserved (add32 (NxvReserved v1) (sub32 End Start)) v1)
    | Some Tail =>
        let v2 := with_regions (<[i := Region (Base Reg) (sub32 Start (Base Reg)) (AllocProtect Reg)]> l) v1 in
        let v3 := NxvInsertRegion v2 Tail in
        (STATUS_SUCCESS, with_reserved (sub32 (NxvReserved v3) (Size Tail)) v3)
    end.

Definition NxVmFreeVirtualMemory (v : vm) (node : bool) (BaseAddress RegionSize FreeType : Z)
  : option result :=
  let ret s v' := Some (Result s v' BaseAddress RegionSize) in
  let f := Z.land FreeType (Z.lor MEM_RELEASE MEM_DECOMMIT) in
  if (f =? 0) || (f =? Z.lor MEM_RELEASE MEM_DECOMMIT) then ret STATUS_INVALID_PARAMETER v
  else
    match NxvFindRegion v BaseAddress with
    | None => ret STATUS_MEMORY_NOT_ALLOCATED v
    | Some (i, Reg) =>
        if BooleanFlagOn FreeType MEM_RELEASE then
          let range :=
            if RegionSize =? 0 then
              if negb (BaseAddress =? Base Reg) then inl STATUS_FREE_VM_NOT_AT_BASE
              else inr (Base Reg, REnd Reg)
            else
              let Start := ROUND_DOWN BaseAddress PAGE_SIZE in
              let End := ROUND_UP (add32 BaseAddress RegionSize) PAGE_SIZE in
              if REnd Reg <? End then inl STATUS_UNABLE_TO_FREE_VM else inr (Start, End) in
          match range with
          | inl s => ret s v
          | inr (Start, End) =>
              match NxvDecommitRange v Start End with
              | None => None
              | Some v1 =>
                  let '(s, v2) := carve v1 node i Reg Start End in
                  if s =? STATUS_SUCCESS then Some (Result s v2 Start (sub32 End Start)) else ret s v2
              end
          end
        else
          let Start := ROUND_DOWN BaseAddress PAGE_SIZE in
          let End := if RegionSize =? 0 then REnd Reg
                     else ROUND_UP (add32 BaseAddress RegionSize) PAGE_SIZE in
          if REnd Reg <? End then ret STATUS_UNABLE_TO_FREE_VM v
          else
            match NxvDecommitRange v Start End with
            | None => None
            | Some v1 => Some (Result STATUS_SUCCESS v1 Start (sub32 End Start))
            end
    end.

(** ** Query *)

Record mbi : Type := Mbi {
  mbi_BaseAddress : Z;
  mbi_AllocationBase : Z;
  mbi_AllocationProtect : Z;
  mbi_RegionSize : Z;
  mbi_State : Z;
  mbi_Protect : Z;
  mbi_Type : Z
}.

(** The protection a page shows: 0 when it is not committed. *)
Definition page_protect (m : mm) (Va : Z) : Z :=
  if pde_present m Va then NxvPteToProtect (pte m (NXV_PTE Va)) else 0.

Fixpoint next_base (l : list region) (Va : Z) : Z :=
  match l with
  | [] => NXV_HIGHEST
  | R :: l' => if Va <? Base R then Base R else next_base l' Va
  end.

(** The run of pages from [Run] that share [Protect], [n] pages left. *)
Fixpoint run_end (n : nat) (m : mm) (Run Protect : Z) : Z :=
  match n with
  | O => Run
  | S n' =>
      if negb (page_protect m Run =? Protect) then Run
      else run_end n' m (add32 Run PAGE_SIZE) Protect
  end.

Definition NxVmQueryVirtualMemory (v : vm) (Address : Z) : Z + mbi :=
  let Va := ROUND_DOWN Address PAGE_SIZE in
  if NXV_HIGHEST <=? Va then inl STATUS_INVALID_PARAMETER
  else
    match NxvFindRegion v Va with
    | None =>
        inr (Mbi Va 0 0 (sub32 (next_base (NxvRegionList v) Va) Va) MEM_FREE PAGE_NOACCESS 0)
    | Some (_, Reg) =>
        let Protect := page_protect (mem v) Va in
        let Limit := REnd Reg in
        let Run := run_end (npages (add32 Va PAGE_SIZE) Limit) (mem v) (add32 Va PAGE_SIZE) Protect in
        inr (Mbi Va (Base Reg) (AllocProtect Reg) (sub32 Run Va)
               (if negb (Protect =? 0) then MEM_COMMIT else MEM_RESERVE) Protect MEM_PRIVATE)
    end.

(** ** Address protection *)

Definition NxVmOwnsAddress (Address : Z) : bool := (NXV_LOWEST <=? Address) && (Address <? NXV_HIGHEST).

Definition NxVmQueryAddressProtect (v : vm) (Address : Z) : Z :=
  page_protect (mem v) (ROUND_DOWN Address PAGE_SIZE).

Definition set_protect_page (m : mm) (Va PteBits : Z) : mm :=
  let k := NXV_PTE Va in
  if negb (pde_present m Va) then m
  else if pte m k =? 0 then m
  else if negb (BooleanFlagOn (pte m k) NXV_PTE_P) then m
  else set_pte k (reprotect (pte m k) PteBits) m.

Fixpoint set_protect (n : nat) (m : mm) (Va PteBits : Z) : mm :=
  match n with
  | O => m
  | S n' => set_protect n' (set_protect_page m Va PteBits) (add32 Va PAGE_SIZE) PteBits
  end.

Definition NxVmSetAddressProtect (v : vm) (BaseAddress NumberOfBytes NewProtect : Z) : vm :=
  let Start := ROUND_DOWN BaseAddress PAGE_SIZE in
  let End := ROUND_UP (add32 BaseAddress NumberOfBytes) PAGE_SIZE in
  match NxvProtectToPte NewProtect with
  | None => v
  | Some PteBits =>
      if PteBits =? NXV_PTE_SW_COMMIT then v
      else with_mem (set_protect (npages Start End) (mem v) Start PteBits) v
  end.

(** ** Protect *)

Definition page_committed (m : mm) (Va : Z) : bool :=
  pde_present m Va && negb (pte m (NXV_PTE Va) =? 0).

Fixpoint all_committed (n : nat) (m : mm) (Va : Z) : bool :=
  match n with
  | O => true
  | S n' => if negb (page_committed m Va) then false else all_committed n' m (add32 Va PAGE_SIZE)
  end.

Fixpoint protect_pages (n : nat) (m : mm) (Va PteBits : Z) : mm :=
  match n with
  | O => m
  | S n' =>
      protect_pages n' (set_pte (NXV_PTE Va) (reprotect (pte m (NXV_PTE Va)) PteBits) m)
        (add32 Va PAGE_SIZE) PteBits
  end.

(** The status, the state, the two in/out values and [OldProtect] ([None]:
    not written). *)
Definition NxVmProtectVirtualMemory (v : vm) (BaseAddress RegionSize NewProtect : Z)
  : result * option Z :=
  let ret s := (Result s v BaseAddress RegionSize, None) in
  match NxvProtectToPte NewProtect with
  | None => ret STATUS_INVALID_PAGE_PROTECTION
  | Some PteBits =>
      let Start := ROUND_DOWN BaseAddress PAGE_SIZE in
      let End := ROUND_UP (add32 BaseAddress RegionSize) PAGE_SIZE in
      if End <=? Start then ret STATUS_INVALID_PARAMETER
      else
        match NxvFindRegion v Start with
        | None => ret STATUS_CONFLICTING_ADDRESSES
        | Some (_, Reg) =>
            if REnd Reg <? End then ret STATUS_CONFLICTING_ADDRESSES
            else if negb (all_committed (npages Start End) (mem v) Start) then ret STATUS_NOT_COMMITTED
            else
              (Result STATUS_SUCCESS
                 (with_mem (protect_pages (npages Start End) (mem v) Start PteBits) v)
                 Start (sub32 End Start),
               Some (NxvPteToProtect (pte (mem v) (NXV_PTE Start))))
        end
  end.

(** ** Statistics *)

Definition NxVmCommittedBytes (v : vm) : Z := NxvCommitted v.
Definition NxVmReservedBytes (v : vm) : Z := NxvReserved v.

Fixpoint committed_in (fuel : nat) (m : mm) (Va End Count : Z) : option Z :=
  if End <=? Va then Some Count
  else
    match fuel with
    | O => None
    | S f =>
        if negb (pde_present m Va) then
          committed_in f m (add32 (sub32 (ROUND_UP (add32 Va 1) 0x400000) PAGE_SIZE) PAGE_SIZE) End Count
        else committed_in f m (add32 Va PAGE_SIZE) End
               (if negb (pte m (NXV_PTE Va) =? 0) then add32 Count 1 else Count)
    end.

Definition NxVmCommittedPagesInRange (m : mm) (Start End : Z) : option Z :=
  committed_in (npages Start End) m Start End 0.

(** ** Invariant of the title page tables

    Pages are numbered by their index [k]; [title k] are the pages the manager
    owns.  [title_ok m F]: every committed title page is mapped by the entry
    that owns its frame; [F] are the pages that carry the transient marker. *)

Local Opaque free_set NxpUnlink.

Definition title (k : Z) : Prop := 0x10 <= k < 0x7FFE0.

(** The directory entry over page [k]. *)
Definition pdx (k : Z) : Z := 0xC0000 + k / 1024.

Definition present (e : Z) : bool := BooleanFlagOn e NXV_PTE_P.
Definition fresh (e : Z) : bool := BooleanFlagOn e NXV_PTE_FRESH.

Record title_ok (m : mm) (F : gset Z) : Prop := {
  to_mm : mm_wf m;
  to_page : forall k, title k -> pte m k <> 0 ->
    present (pte m (pdx k)) = true /\ owned m k (pte m k / 2 ^ 12) /\ 0 <= pte m k < 2 ^ 32 /\
    (fresh (pte m k) = true <-> k ∈ F);
  to_fresh : forall k, k ∈ F -> title k /\ pte m k <> 0;
  to_block : forall k, 0 <= k < 0x80000 -> present (pte m (pdx k)) = false -> pte m k = 0;
  to_pde : forall b p, 0 <= b < 512 -> owned m (0xC0000 + b) p -> present (pte m (0xC0000 + b)) = true
}.

(** Page [k] is the same page in [m'], with the same contents. *)
Definition kept (m m' : mm) (k : Z) : Prop :=
  pte m' k = pte m k /\ frame_at m' (pte m k / 2 ^ 12) = frame_at m (pte m k / 2 ^ 12).

(** ** Addresses and page numbers *)

Lemma NXV_PTE_page k : NXV_PTE (4096 * k) = k.
Proof. unfold NXV_PTE. rewrite Z.shiftr_div_pow2 by lia. rewrite Z.mul_comm. apply Z.div_mul. lia. Qed.

Lemma NXV_PDE_page k : NXV_PDE (4096 * k) = pdx k.
Proof.
  unfold NXV_PDE, pdx. rewrite Z.shiftr_div_pow2 by lia. f_equal.
  replace (2 ^ 22) with (1024 * 4096) by lia. rewrite Z.mul_comm. apply Z.div_mul_cancel_r; lia.
Qed.

Lemma add32_page k : 0 <= k -> k + 1 < 2 ^ 20 -> add32 (4096 * k) PAGE_SIZE = 4096 * (k + 1).
Proof. intros H1 H2. unfold PAGE_SIZE. rewrite add32_id; lia. Qed.

Lemma npages_page a b : npages (4096 * a) (4096 * b) = Z.to_nat (b - a).
Proof.
  unfold npages. f_equal. replace (4096 * b - 4096 * a + 4095) with (4095 + (b - a) * 4096) by lia.
  rewrite Z.div_add by lia. change (4095 / 4096) with 0. lia.
Qed.

Lemma pdx_range k : 0 <= k < 0x80000 -> 0 <= k / 1024 < 512.
Proof. intros H. split; [apply Z.div_pos; lia | apply Z.div_lt_upper_bound; lia]. Qed.

Lemma pte_install m k e j :
  pte (install_table (4096 * k) e m) j =
  if decide (pdx k = j) then e else if decide (j / 1024 = k / 1024) then 0 else pte m j.
Proof.
  unfold install_table, pte, set_pte, with_ptes. cbn [ptes]. rewrite rd_insert, NXV_PDE_page.
  case_decide; [done |]. unfold rd. rewrite map_lookup_filter.
  assert (E : Z.shiftr (4096 * k) 22 = k / 1024).
  { rewrite Z.shiftr_div_pow2 by lia. replace (2 ^ 22) with (1024 * 4096) by lia.
    rewrite Z.mul_comm. apply Z.div_mul_cancel_r; lia. }
  rewrite E. destruct (ptes m !! j) as [x |]; cbn [mbind option_bind]; [| by case_decide].
  rewrite Z.shiftr_div_pow2 by lia. change (2 ^ 10) with 1024.
  destruct (decide (j / 1024 = k / 1024)) as [Hj | Hj].
  - rewrite option_guard_False; [done |]. simpl. tauto.
  - rewrite option_guard_True; [done |]. done.
Qed.

(** ** The page-table allocation *)

(** The frame side of taking a zeroed page. *)
Lemma took_zero_mm m p s' : mm_wf m -> took (sup m) p s' ->
  let m1 := zero_page p (with_sup s' m) in
  mm_wf m1 /\ pinned m1 p /\ (forall k q, owned m1 k q <-> owned m k q) /\
  (forall q, pinned m q -> pinned m1 q) /\ (forall k, pte m1 k = pte m k) /\
  frame_at m1 p = zero_frame /\ (forall q, q <> p -> frame_at m1 q = frame_at m q) /\
  (forall k, ~ owned m k p).
Proof.
  intros Wm T m1. pose proof T as (W1 & Hp & HF & HL & HU & HH).
  destruct (took_mm m p s' Wm T) as [Wm1 _].
  split; [by apply set_frame_wf |]. split.
  { split; [unfold in_range; simpl; rewrite HH; apply (free_set_range _ _ (mm_sup _ Wm) Hp) |].
    split; [simpl; rewrite HF, elem_of_difference, elem_of_singleton; tauto | done]. }
  split; [intros k q; apply (took_owned m p s' k q (mm_sup _ Wm) T) |].
  split; [intros q; apply (took_pinned m p s' q (mm_sup _ Wm) T) |].
  split; [done |]. split; [apply frame_at_eq |]. split; [intros q Hq; apply (frame_at_ne (with_sup s' m) p q); congruence |].
  intros k (_ & Hf & _). done.
Qed.

Lemma present_table_entry p : 0 <= p <= NXP_PFN_MASK ->
  let e := Z.lor (Z.lor (shl32 p PAGE_SHIFT) NXV_PTE_P) NXV_PTE_RW in
  present e = true /\ e / 2 ^ 12 = p.
Proof.
  intros Hp. unfold NXP_PFN_MASK, PAGE_SHIFT, NXV_PTE_P, NXV_PTE_RW in *. cbv zeta.
  unfold shl32. rewrite Z.shiftl_mul_pow2, u32_id by lia. rewrite <- Z.lor_assoc.
  change (Z.lor 1 2) with 3. rewrite lor_mul_pow2_small by lia. split.
  - unfold present, BooleanFlagOn, NXV_PTE_P. change 1 with (Z.ones 1). rewrite Z.land_ones by lia.
    replace (p * 2 ^ 12 + 3) with (1 + (p * 2 ^ 11 + 1) * 2) by lia.
    change (2 ^ 1) with 2. by rewrite Z.mod_add by lia.
  - rewrite Z.add_comm, Z.div_add by lia. done.
Qed.

(** Installing a zeroed frame as the table over page [k], whose entries read
    zero already. *)
Lemma install_table_mm m p s' k e : mm_wf m -> took (sup m) p s' -> 0 < pdx k < 2 ^ 20 -> e / 2 ^ 12 = p ->
  (forall j, j / 1024 = k / 1024 -> pte m j = 0) -> (forall q, ~ owned m (pdx k) q) ->
  let m2 := install_table (4096 * k) e (zero_page p (with_sup s' m)) in
  let m' := with_sup (NxkPageSupplySetOwner (sup m2) p (pte_va (pdx k))) m2 in
  mm_wf m' /\ free_set (sup m') = free_set (sup m) ∖ {[p]} /\
  (forall j q, owned m' j q <-> owned m j q \/ (j = pdx k /\ q = p)) /\
  (forall q, pinned m q -> pinned m' q) /\
  (forall j, pte m' j = if decide (pdx k = j) then e else pte m j) /\
  (forall q, q <> p -> frame_at m' q = frame_at m q) /\
  NxpHighestPfn (sup m') = NxpHighestPfn (sup m).
Proof.
  intros Wm Tk Hk He Hblk Hno m2 m'.
  destruct (took_zero_mm m p s' Wm Tk) as (W1 & Pn1 & O1 & P1 & T1 & Z1 & Fr1 & N1).
  pose proof Tk as (_ & _ & HF & _ & _ & HH).
  set (m1 := zero_page p (with_sup s' m)) in *.
  destruct (map_frame_mm m1 (pdx k) e p W1 Pn1 Hk He) as (W2 & F2 & O2 & P2 & T2 & Fr2 & H2).
  { intros q Ho%O1. by apply (Hno q). }
  set (m3 := map_frame (pdx k) e p m1) in *.
  assert (Es : sup m' = sup m3) by done.
  assert (T' : forall j, pte m' j = pte m3 j).
  { intros j. transitivity (pte m2 j); [done |]. unfold m2. rewrite pte_install, T2. case_decide; [done |].
    case_decide as Hj; [| done]. by rewrite T1, Hblk. }
  assert (O' : forall j q, owned m' j q <-> owned m3 j q) by (intros j q; unfold owned; by rewrite Es).
  split; [constructor; [rewrite Es; apply W2 | intros j q Ho%O'; rewrite T'; by apply W2] |].
  split; [by rewrite Es, F2; cbn; rewrite HF |]. split; [intros j q; rewrite O', O2, O1; tauto |]. split.
  { intros q Hq. assert (q <> p) as Hne by (intros ->; destruct Hq as (_ & Hq & _); destruct Tk as (_ & ? & _); done).
    unfold pinned, in_range. rewrite Es. apply (P2 q Hne). by apply P1. }
  split; [intros j; rewrite T', T2; case_decide; [done | apply T1] |]. split; [| rewrite Es, H2; done].
  intros q Hq. by apply Fr1.
Qed.

Lemma ensure_table_spec m F k : title_ok m F -> 0 <= k < 0x80000 ->
  exists b m', NxvEnsurePageTable m (4096 * k) = Some (b, m') /\
  ((b = false /\ m' = m) \/
   (b = true /\ title_ok m' F /\ present (pte m' (pdx k)) = true /\
    (forall j q, owned m j q -> owned m' j q) /\
    (forall j, 0 <= j < 0x80000 -> pte m' j = pte m j) /\
    (forall j q, owned m j q -> frame_at m' q = frame_at m q) /\
    free_set (sup m') ⊆ free_set (sup m) /\
    (forall q, q ∈ free_set (sup m) -> q ∈ free_set (sup m') \/ owned m' (pdx k) q))).
Proof.
  intros T Hk. pose proof (to_mm _ _ T) as Wm. pose proof (pdx_range k Hk) as Hb.
  unfold NxvEnsurePageTable, pde_present. rewrite NXV_PDE_page. fold (present (pte m (pdx k))).
  destruct (present (pte m (pdx k))) eqn:HP.
  { exists true, m. split; [done |]. right. repeat (split; [done |]). auto. }
  unfold MmAllocPage.
  destruct (take_zero_spec m Wm) as (p & m1 & -> & [(-> & -> & _) | (s' & Tk & Hp16 & ->)]).
  { exists false, m. split; [done | by left]. }
  destruct (Z.eqb_spec p 0) as [? | _]; [lia |]. eexists true, _. split; [done |]. right. split; [done |].
  pose proof (wf_highest _ (mm_sup _ Wm)) as Hh. pose proof Tk as (_ & Hpf & _).
  destruct (present_table_entry p) as [He1 He2].
  { pose proof (free_set_range _ _ (mm_sup _ Wm) Hpf). unfold in_range, NXP_PFN_MASK in *. lia. }
  set (e := Z.lor (Z.lor (shl32 p PAGE_SHIFT) NXV_PTE_P) NXV_PTE_RW) in *.
  destruct (install_table_mm m p s' k e Wm Tk ltac:(unfold pdx; lia) He2) as (W4 & F4 & O4 & P4 & T4 & Fr4 & H4).
  { intros j Hj. pose proof (Z.div_mod j 1024 ltac:(lia)). pose proof (Z.mod_pos_bound j 1024 ltac:(lia)).
    apply (to_block _ _ T); [lia |]. unfold pdx. by rewrite Hj. }
  { intros q Ho. unfold pdx in *. rewrite (to_pde _ _ T _ _ Hb Ho) in HP. done. }
  set (m4 := with_sup _ _) in *.
  assert (Tj : forall j, 0 <= j < 0x80000 -> pte m4 j = pte m j).
  { intros j Hj. rewrite T4, decide_False; [done |]. unfold pdx. lia. }
  assert (Tp : forall j, present (pte m j) = true -> present (pte m4 j) = true).
  { intros j Hj. rewrite T4. by case_decide. }
  split.
  { constructor; [done | | | |].
    - intros j Hj. unfold title in Hj. rewrite Tj by lia. intros Hne.
      destruct (to_page _ _ T j Hj Hne) as (A1 & A2 & A3 & A4). rewrite O4. auto.
    - intros j Hj%(to_fresh _ _ T). unfold title in *. rewrite Tj by lia. done.
    - intros j Hj Hpj. rewrite Tj by done. apply (to_block _ _ T); [done |].
      destruct (present (pte m (pdx j))) eqn:E; [| done]. by rewrite (Tp _ E) in Hpj.
    - intros b q Hb' [Ho | [E _]]%O4; [apply Tp; by apply (to_pde _ _ T b q) |].
      by rewrite E, T4, decide_True. }
  split; [by rewrite T4, decide_True |]. split; [intros j q Ho; apply O4; auto |]. split; [done |]. split.
  - intros j q (_ & Hf & _). apply Fr4. intros ->. done.
  - rewrite F4. split; [set_solver |]. intros q Hq. destruct (decide (q = p)) as [-> | Hne]; [right; apply O4; auto | left; set_solver].
Qed.

(** ** Entry bits *)

Lemma protect_bits Protect b : NxvProtectToPte Protect = Some b ->
  b ∈ [0x800; 1; 0x11; 9; 3; 0x13; 0xB].
Proof.
  unfold NxvProtectToPte.
  destruct (BooleanFlagOn Protect PAGE_NOCACHE), (BooleanFlagOn Protect PAGE_WRITECOMBINE);
    cbv zeta; (try discriminate);
    repeat (case_match; try discriminate); intros [= <-]; vm_compute; set_solver.
Qed.

Definition bits_ok (b : Z) : Prop := 0 < b < 4096 /\ Z.land b NXV_PTE_FRESH = 0.

Lemma protect_bits_ok Protect b : NxvProtectToPte Protect = Some b -> bits_ok b.
Proof.
  intros H%protect_bits. unfold bits_ok.
  repeat (apply elem_of_cons in H as [-> | H]; [by vm_compute |]). set_solver.
Qed.

(** An entry is a frame number and twelve bits. *)
Definition entry (p b : Z) : Z := p * 4096 + b.

Lemma entry_frame p b : 0 <= b < 4096 -> entry p b / 2 ^ 12 = p.
Proof. intros Hb. unfold entry. change (2 ^ 12) with 4096. rewrite Z.add_comm, Z.div_add, Z.div_small; lia. Qed.

Lemma entry_low p b : 0 <= b < 4096 -> entry p b mod 4096 = b.
Proof. intros Hb. unfold entry. rewrite Z.add_comm, Z.mod_add by lia. by apply Z.mod_small. Qed.

Lemma entry_split e : e = entry (e / 2 ^ 12) (e mod 4096).
Proof. unfold entry. change (2 ^ 12) with 4096. pose proof (Z.div_mod e 4096). lia. Qed.

Lemma land_low e c : 0 <= c < 4096 -> Z.land e c = Z.land (e mod 4096) c.
Proof.
  intros Hc. change 4096 with (2 ^ 12) in *. rewrite <- Z.land_ones, <- Z.land_assoc by lia.
  f_equal. rewrite Z.land_comm, Z.land_ones by lia. symmetry. by apply Z.mod_small.
Qed.

Lemma flag_entry p b c : 0 <= b < 4096 -> 0 <= c < 4096 ->
  BooleanFlagOn (entry p b) c = BooleanFlagOn b c.
Proof. intros Hb Hc. unfold BooleanFlagOn. by rewrite land_low, entry_low. Qed.

Lemma lor_fresh b : bits_ok b -> Z.lor b NXV_PTE_FRESH = b + 0x400 /\ b + 0x400 < 4096.
Proof.
  intros [Hb Hf]. rewrite <- Z.add_nocarry_lor by done. split; [done |].
  destruct (Z.lt_ge_cases (b + 0x400) 4096) as [? | Hge]; [done |]. exfalso.
  unfold NXV_PTE_FRESH in Hf.
  assert (E : Z.testbit b 10 = true).
  { rewrite Z.testbit_eqb by lia. change (2 ^ 10) with 1024.
    replace (b / 1024) with 3; [done |]. apply (Z.div_unique b 1024 3 (b - 3072)); lia. }
  assert (Z.testbit (Z.land b 0x400) 10 = true) by (rewrite Z.land_spec, E; done).
  rewrite Hf in *. done.
Qed.

Lemma new_page_entry p b : 0 < p <= NXP_PFN_MASK -> bits_ok b ->
  Z.lor (Z.lor (shl32 p PAGE_SHIFT) b) NXV_PTE_FRESH = entry p (b + 0x400) /\
  0 < entry p (b + 0x400) < 2 ^ 32 /\ fresh (entry p (b + 0x400)) = true.
Proof.
  intros Hp Hb. destruct (lor_fresh b Hb) as [Hl Hlt]. pose proof Hb as [Hb1 _].
  unfold NXP_PFN_MASK, PAGE_SHIFT in *. unfold shl32. rewrite Z.shiftl_mul_pow2, u32_id by lia.
  rewrite <- Z.lor_assoc, Hl, lor_mul_pow2_small by lia. split; [done |].
  unfold entry at 1 2. split; [lia |]. unfold fresh. rewrite flag_entry by (unfold NXV_PTE_FRESH; lia).
  rewrite <- Hl. unfold BooleanFlagOn. rewrite Z.land_lor_distr_l, (proj2 Hb). done.
Qed.

Lemma reprotect_entry e b : 0 <= e < 2 ^ 32 -> 0 <= b < 4096 ->
  reprotect e b = entry (e / 2 ^ 12) b.
Proof.
  intros He Hb. unfold reprotect, PAGE_SIZE. change (4096 - 1) with (2 ^ 12 - 1).
  rewrite land_not_ones by lia. pose proof (Z.div_mod e (2 ^ 12) ltac:(lia)).
  replace (e - e mod 2 ^ 12) with (e / 2 ^ 12 * 2 ^ 12) by lia.
  rewrite lor_mul_pow2_small by lia. done.
Qed.

Lemma fresh_entry_old p b : bits_ok b -> fresh (entry p b) = false.
Proof.
  intros [Hb Hf]. unfold fresh. rewrite flag_entry by (unfold NXV_PTE_FRESH; lia).
  unfold BooleanFlagOn. by rewrite Hf.
Qed.

Lemma clear_fresh_entry p b : 0 <= p -> entry p (b + 0x400) < 2 ^ 32 -> bits_ok b ->
  Z.land (entry p (b + 0x400)) (not32 NXV_PTE_FRESH) = entry p b.
Proof.
  intros Hp He Hb. destruct (lor_fresh b Hb) as [Hl Hlt]. pose proof Hb as [Hb1 Hbf].
  rewrite land_not32 by (unfold entry, NXV_PTE_FRESH in *; lia).
  rewrite <- Z.sub_nocarry_ldiff; [unfold entry, NXV_PTE_FRESH; lia |].
  apply Z.bits_inj'. intros i Hi. rewrite Z.ldiff_spec, Z.bits_0.
  assert (E : Z.land (entry p (b + 0x400)) NXV_PTE_FRESH = NXV_PTE_FRESH).
  { rewrite land_low, entry_low, <- Hl by (unfold NXV_PTE_FRESH; lia).
    by rewrite Z.land_lor_distr_l, Hbf. }
  destruct (Z.testbit NXV_PTE_FRESH i) eqn:Ei; [| done].
  rewrite <- E, Z.land_spec in Ei. apply andb_true_iff in Ei as [-> _]. done.
Qed.

(** ** Commit as a transition on the title pages

    [progress z m0 m F lo hi]: [m] is what a commit call on the pages
    [lo .. hi - 1] has made of [m0] so far, the pages of [F] being the ones it
    committed and still marks; [z] says that fresh pages are zeroed. *)

Record progress (z : bool) (m0 m : mm) (F : gset Z) (lo hi : Z) : Prop := {
  pg_ok : title_ok m F;
  pg_new : forall k, k ∈ F -> pte m0 k = 0 /\ lo <= k < hi;
  pg_old : forall k, title k -> pte m0 k <> 0 ->
    pte m k <> 0 /\ pte m k / 2 ^ 12 = pte m0 k / 2 ^ 12 /\
    frame_at m (pte m0 k / 2 ^ 12) = frame_at m0 (pte m0 k / 2 ^ 12);
  pg_out : forall k, title k -> ~ (lo <= k < hi) -> pte m k = pte m0 k;
  pg_fill : z = true -> forall k, title k -> pte m0 k = 0 -> pte m k <> 0 ->
    frame_at m (pte m k / 2 ^ 12) = zero_frame;
  pg_took : forall k, title k -> pte m0 k = 0 -> pte m k <> 0 -> pte m k / 2 ^ 12 ∈ free_set (sup m0);
  pg_sub : free_set (sup m) ⊆ free_set (sup m0);
  pg_lost : forall q, q ∈ free_set (sup m0) -> q ∈ free_set (sup m) \/
    (exists b, 0 <= b < 512 /\ owned m (0xC0000 + b) q) \/
    (exists k, title k /\ pte m0 k = 0 /\ pte m k <> 0 /\ q = pte m k / 2 ^ 12)
}.

Lemma progress_refl z m lo hi : title_ok m ∅ -> progress z m m ∅ lo hi.
Proof. intros T. constructor; try done; try (intros; congruence); auto. Qed.

(** Two title pages never share a frame. *)
Lemma title_frame_inj m F j k : title_ok m F -> title j -> title k -> pte m j <> 0 -> pte m k <> 0 ->
  pte m j / 2 ^ 12 = pte m k / 2 ^ 12 -> j = k.
Proof.
  intros T Hj Hk Nj Nk E. destruct (to_page _ _ T j Hj Nj) as (_ & (_ & _ & Lj & _) & _).
  destruct (to_page _ _ T k Hk Nk) as (_ & (_ & _ & Lk & _) & _). congruence.
Qed.

(** Changing the low bits of a committed page's entry. *)
Lemma retitle m F F' k b : title_ok m F -> title k -> pte m k <> 0 -> 0 <= b < 4096 ->
  let e := entry (pte m k / 2 ^ 12) b in
  (fresh e = true <-> k ∈ F') -> (forall j, j <> k -> j ∈ F' <-> j ∈ F) ->
  title_ok (set_pte k e m) F' /\ e <> 0 /\ e / 2 ^ 12 = pte m k / 2 ^ 12.
Proof.
  intros T Hk Hne Hb e HF HF'.
  destruct (to_page _ _ T k Hk Hne) as (A1 & A2 & A3 & A4).
  assert (Ep : e / 2 ^ 12 = pte m k / 2 ^ 12) by by apply entry_frame.
  assert (Hp1 : 1 <= pte m k / 2 ^ 12) by (destruct A2 as ((? & _) & _); done).
  assert (Hp2 : pte m k / 2 ^ 12 < 2 ^ 20) by (apply Z.div_lt_upper_bound; lia).
  assert (He : 0 < e < 2 ^ 32) by (unfold e, entry; lia).
  assert (P : forall j, pte (set_pte k e m) j = if decide (k = j) then e else pte m j)
    by (intros j; unfold pte; apply rd_insert).
  assert (D : forall j, 0 <= j < 0x80000 -> pte (set_pte k e m) (pdx j) = pte m (pdx j)).
  { intros j Hj. rewrite P, decide_False; [done |]. pose proof (pdx_range j Hj).
    unfold title, pdx in *. lia. }
  split; [| split; [lia | done]]. destruct T as [TW TP TF TB TD]. constructor.
  - constructor; [apply TW |]. intros j q Ho. rewrite P. case_decide as Hj; [subst j |]; [| by apply TW].
    rewrite Ep. by apply (mm_owner _ TW).
  - intros j Hj. rewrite D, P by (unfold title in Hj; lia). case_decide as E.
    + subst j. intros _. rewrite Ep. split; [done |]. split; [exact A2 |]. split; [lia | done].
    + intros Hn. destruct (TP j Hj Hn) as (B1 & B2 & B3 & B4). rewrite HF' by congruence. done.
  - intros j Hj. rewrite P. case_decide as E; [subst j; split; [done | lia] |].
    apply TF. apply HF'; [congruence | done].
  - intros j Hj Hp. rewrite D in Hp by done. rewrite P. case_decide as E; [| by apply TB].
    subst j. rewrite A1 in Hp. done.
  - intros b' q Hb' Ho. rewrite P, decide_False by (unfold title in Hk; lia). by apply (TD b' q).
Qed.

Lemma progress_retitle z m0 m F F' lo hi k b : progress z m0 m F lo hi -> title k -> lo <= k < hi ->
  pte m k <> 0 -> 0 <= b < 4096 ->
  let e := entry (pte m k / 2 ^ 12) b in
  (fresh e = true <-> k ∈ F') -> (forall j, j <> k -> j ∈ F' <-> j ∈ F) ->
  (k ∈ F' -> pte m0 k = 0) ->
  progress z m0 (set_pte k e m) F' lo hi.
Proof.
  intros G Hk Hr Hne Hb e HF HF' Hnew.
  destruct (retitle m F F' k b (pg_ok _ _ _ _ _ _ G) Hk Hne Hb HF HF') as (T' & Hn & Ep). fold e in T', Hn, Ep.
  assert (P : forall j, pte (set_pte k e m) j = if decide (k = j) then e else pte m j)
    by (intros j; unfold pte; apply rd_insert).
  assert (Pf : forall j, pte (set_pte k e m) j / 2 ^ 12 = pte m j / 2 ^ 12)
    by (intros j; rewrite P; case_decide; [subst j |]; done).
  assert (P0 : forall j, pte (set_pte k e m) j <> 0 <-> pte m j <> 0)
    by (intros j; rewrite P; case_decide; [subst j |]; tauto).
  destruct G as [_ G2 G3 G4 G5 G6 G7 G8]. constructor; try done.
  - intros j Hj. destruct (decide (j = k)) as [-> | Hjk]; [auto |]. apply G2, HF'; done.
  - intros j Hj Hn0. rewrite P0, Pf. by apply G3.
  - intros j Hj Ho. rewrite P, decide_False by (intros ->; done). by apply G4.
  - intros Hz j Hj Hj0. rewrite P0, Pf. by apply G5.
  - intros j Hj Hj0. rewrite P0, Pf. by apply G6.
  - intros q Hq. destruct (G8 q Hq) as [? | [? | (j & Hj & H0 & H1 & ->)]]; [by left | by right; left |].
    right. right. exists j. by rewrite P0, Pf.
Qed.

Lemma progress_table z m0 m m' F lo hi k : progress z m0 m F lo hi -> title_ok m' F -> 0 <= k < 0x80000 ->
  (forall j q, owned m j q -> owned m' j q) ->
  (forall j, 0 <= j < 0x80000 -> pte m' j = pte m j) ->
  (forall j q, owned m j q -> frame_at m' q = frame_at m q) ->
  free_set (sup m') ⊆ free_set (sup m) ->
  (forall q, q ∈ free_set (sup m) -> q ∈ free_set (sup m') \/ owned m' (pdx k) q) ->
  progress z m0 m' F lo hi.
Proof.
  intros [G1 G2 G3 G4 G5 G6 G7 G8] T' Hk HO HP HFr HS HL.
  assert (E : forall j, title j -> pte m' j = pte m j) by (intros j Hj; apply HP; unfold title in Hj; lia).
  assert (Fr : forall j, title j -> pte m j <> 0 ->
    frame_at m' (pte m j / 2 ^ 12) = frame_at m (pte m j / 2 ^ 12)).
  { intros j Hj Hn. apply (HFr j). by apply (to_page _ _ G1). }
  constructor; try done.
  - intros j Hj Hn. rewrite E by done. destruct (G3 j Hj Hn) as (A1 & A2 & A3).
    split; [done |]. split; [done |]. rewrite <- A3, <- A2. by apply Fr.
  - intros j Hj Ho. rewrite E by done. by apply G4.
  - intros Hz j Hj Hj0. rewrite E by done. intros Hn. rewrite Fr by done. by apply G5.
  - intros j Hj Hj0. rewrite E by done. by apply G6.
  - set_solver.
  - intros q Hq. destruct (G8 q Hq) as [Hf | [(b & Hb & Ho) | (j & Hj & H0 & H1 & ->)]].
    + destruct (HL q Hf) as [? | Ho]; [by left |]. right. left. exists (k / 1024).
      split; [by apply pdx_range | exact Ho].
    + right. left. exists b. auto.
    + right. right. exists j. by rewrite E.
Qed.

(** Entering the fresh frame [p] at the uncommitted page [k]. *)
Lemma progress_new z m0 m m1 F lo hi k p b : progress z m0 m F lo hi -> title k -> lo <= k < hi ->
  pte m k = 0 -> present (pte m (pdx k)) = true -> bits_ok b -> p ∈ free_set (sup m) ->
  mm_wf m1 -> pinned m1 p -> (forall j q, owned m1 j q <-> owned m j q) ->
  (forall j, pte m1 j = pte m j) -> (z = true -> frame_at m1 p = zero_frame) ->
  (forall q, q <> p -> frame_at m1 q = frame_at m q) ->
  free_set (sup m1) = free_set (sup m) ∖ {[p]} ->
  progress z m0 (map_frame k (entry p (b + 0x400)) p m1) ({[k]} ∪ F) lo hi.
Proof.
  intros G Hk Hr H0 Hpd Hb Hpf W1 Pn O1 T1 Z1 Fr1 F1.
  pose proof (pg_ok _ _ _ _ _ _ G) as T. pose proof (to_mm _ _ T) as Wm.
  destruct (lor_fresh b Hb) as [_ Hlt]. pose proof Hb as [Hb1 _].
  assert (Hp : 0 < p <= NXP_PFN_MASK).
  { pose proof (free_set_range _ _ (mm_sup _ Wm) Hpf). pose proof (wf_highest _ (mm_sup _ Wm)).
    unfold in_range, NXP_PFN_MASK in *. lia. }
  destruct (new_page_entry p b Hp Hb) as (_ & He & Hfr). set (e := entry p (b + 0x400)) in *.
  assert (Ep : e / 2 ^ 12 = p) by (apply entry_frame; lia).
  assert (Hno : forall q, ~ owned m1 k q).
  { intros q Ho%O1. pose proof (mm_owner _ Wm _ _ Ho) as E. rewrite H0 in E.
    destruct Ho as (Hq & _). unfold in_range in Hq. change (0 / 2 ^ 12) with 0 in E. lia. }
  destruct (map_frame_mm m1 k e p W1 Pn ltac:(unfold title in Hk; lia) Ep Hno)
    as (W2 & F2 & O2 & P2 & T2 & Fr2 & H2). set (m2 := map_frame k e p m1) in *.
  assert (P : forall j, pte m2 j = if decide (k = j) then e else pte m j)
    by (intros j; rewrite T2; case_decide; [done | apply T1]).
  assert (Hnp : forall j, title j -> pte m j <> 0 -> pte m j / 2 ^ 12 <> p).
  { intros j Hj Hn E. destruct (to_page _ _ T j Hj Hn) as (_ & (_ & Hf & _) & _). rewrite E in Hf. done. }
  assert (Fr : forall j, title j -> pte m j <> 0 ->
    frame_at m2 (pte m j / 2 ^ 12) = frame_at m (pte m j / 2 ^ 12))
    by (intros j Hj Hn; rewrite Fr2, Fr1; [done | by apply Hnp]).
  assert (Hk0 : pte m0 k = 0).
  { destruct (Z.eq_dec (pte m0 k) 0) as [? | Hn]; [done |].
    by destruct (pg_old _ _ _ _ _ _ G k Hk Hn) as (? & _). }
  assert (Pd : forall j, 0 <= j < 0x80000 -> pte m2 (pdx j) = pte m (pdx j)).
  { intros j Hj. rewrite P, decide_False; [done |]. pose proof (pdx_range j Hj). unfold title, pdx in *. lia. }
  assert (FS : free_set (sup m2) = free_set (sup m) ∖ {[p]}) by congruence.
  assert (T' : title_ok m2 ({[k]} ∪ F)).
  { constructor; [done | | | |].
    - intros j Hj. rewrite Pd, P by (unfold title in Hj; lia). case_decide as E.
      + subst j. intros _. rewrite Ep. split; [done |]. split; [apply O2; auto |]. split; [lia |]. set_solver.
      + intros Hn. destruct (to_page _ _ T j Hj Hn) as (A1 & A2 & A3 & A4). split; [done |].
        split; [apply O2; left; by apply O1 |]. split; [done |]. rewrite A4. set_solver.
    - intros j [->%elem_of_singleton | Hj]%elem_of_union; rewrite P.
      + rewrite decide_True by done. split; [done | lia].
      + destruct (to_fresh _ _ T j Hj). case_decide; [split; [done | lia] | done].
    - intros j Hj Hpj. rewrite Pd in Hpj by done. rewrite P. case_decide as E; [subst j; congruence |].
      by apply (to_block _ _ T).
    - intros b' q Hb' Ho%O2. rewrite P, decide_False by (unfold title in Hk; lia).
      destruct Ho as [Ho%O1 | [E _]]; [by apply (to_pde _ _ T b' q) | unfold title in Hk; lia]. }
  destruct G as [_ G2 G3 G4 G5 G6 G7 G8]. constructor; try done.
  - intros j [->%elem_of_singleton | Hj]%elem_of_union; [done | by apply G2].
  - intros j Hj Hn. destruct (G3 j Hj Hn) as (A1 & A2 & A3). rewrite P, decide_False by congruence.
    split; [done |]. split; [done |]. rewrite <- A3, <- A2. by apply Fr.
  - intros j Hj Ho. rewrite P, decide_False by (intros ->; done). by apply G4.
  - intros Hz j Hj Hj0. rewrite P. case_decide as E; [subst j; intros _; rewrite Ep, Fr2; auto |].
    intros Hn. rewrite Fr by done. by apply G5.
  - intros j Hj Hj0. rewrite P. case_decide as E; [subst j; intros _; rewrite Ep; by apply G7 |]. by apply G6.
  - rewrite FS. set_solver.
  - intros q Hq. rewrite FS, elem_of_difference, elem_of_singleton.
    destruct (decide (q = p)) as [-> | Hqp].
    + right. right. exists k. rewrite P, decide_True by done. rewrite Ep.
      split; [exact Hk |]. split; [exact Hk0 |]. split; [lia | done].
    + destruct (G8 q Hq) as [? | [(b' & Hb' & Ho) | (j & Hj & A0 & A1 & ->)]]; [by left | |].
      * right. left. exists b'. split; [done |]. apply O2. left. by apply O1.
      * right. right. exists j. rewrite P, decide_False by congruence. done.
Qed.

Lemma free_page_unmap m k : NxvFreePageAtPte m k = unmap_frame k (pte m k / 2 ^ 12) m.
Proof. unfold NxvFreePageAtPte, PAGE_SHIFT. by rewrite Z.shiftr_div_pow2 by lia. Qed.

(** Freeing a committed page. *)
Lemma free_page_title m F k : title_ok m F -> title k -> pte m k <> 0 ->
  let m' := NxvFreePageAtPte m k in
  title_ok m' (F ∖ {[k]}) /\
  (forall j, pte m' j = if decide (k = j) then 0 else pte m j) /\
  (forall q, frame_at m' q = frame_at m q) /\
  free_set (sup m') = {[pte m k / 2 ^ 12]} ∪ free_set (sup m) /\
  (forall j q, owned m' j q <-> owned m j q /\ q <> pte m k / 2 ^ 12).
Proof.
  intros T Hk Hne m'. destruct (to_page _ _ T k Hk Hne) as (A1 & A2 & A3 & A4).
  destruct (unmap_frame_mm m k (pte m k / 2 ^ 12) (to_mm _ _ T) A2) as (W2 & F2 & O2 & P2 & T2 & Fr2 & H2).
  rewrite <- free_page_unmap in *. fold m' in W2, F2, O2, P2, T2, Fr2, H2.
  assert (Pd : forall j, 0 <= j < 0x80000 -> pte m' (pdx j) = pte m (pdx j)).
  { intros j Hj. rewrite T2, decide_False; [done |]. pose proof (pdx_range j Hj). unfold title, pdx in *. lia. }
  split; [| done]. constructor; [done | | | |].
  - intros j Hj. rewrite Pd, T2 by (unfold title in Hj; lia). case_decide as E; [done |]. intros Hn.
    destruct (to_page _ _ T j Hj Hn) as (B1 & B2 & B3 & B4). split; [done |]. split.
    { apply O2. split; [done |]. intros Ej. apply E. symmetry. by apply (title_frame_inj m F). }
    split; [done |]. rewrite B4, elem_of_difference, elem_of_singleton. intuition congruence.
  - intros j [Hj Hjk]%elem_of_difference. rewrite elem_of_singleton in Hjk.
    rewrite T2, decide_False by congruence. by apply (to_fresh _ _ T).
  - intros j Hj Hp. rewrite Pd in Hp by done. rewrite T2. case_decide; [done |]. by apply (to_block _ _ T).
  - intros b q Hb [Ho _]%O2. rewrite T2, decide_False by (unfold title in Hk; lia).
    by apply (to_pde _ _ T b q).
Qed.

Lemma progress_free z m0 m F lo hi k : progress z m0 m F lo hi -> k ∈ F ->
  progress z m0 (NxvFreePageAtPte m k) (F ∖ {[k]}) lo hi.
Proof.
  intros G HkF. pose proof (pg_ok _ _ _ _ _ _ G) as T. destruct (to_fresh _ _ T k HkF) as [Hk Hne].
  destruct (pg_new _ _ _ _ _ _ G k HkF) as [Hk0 Hkr].
  destruct (free_page_title m F k T Hk Hne) as (T' & P & Fr & FS & HO).
  set (m' := NxvFreePageAtPte m k) in *. set (p := pte m k / 2 ^ 12) in *.
  destruct G as [_ G2 G3 G4 G5 G6 G7 G8]. constructor; [done | | | | | | |].
  - intros j [Hj _]%elem_of_difference. by apply G2.
  - intros j Hj Hn. rewrite P, decide_False by congruence. rewrite Fr. by apply G3.
  - intros j Hj Ho. rewrite P, decide_False by (intros ->; done). by apply G4.
  - intros Hz j Hj Hj0. rewrite P. case_decide; [done |]. rewrite Fr. by apply G5.
  - intros j Hj Hj0. rewrite P. case_decide; [done |]. by apply G6.
  - rewrite FS. intros q [->%elem_of_singleton | Hq]%elem_of_union; [by apply G6 | by apply G7].
  - intros q Hq. rewrite FS, elem_of_union, elem_of_singleton.
    destruct (decide (q = p)) as [-> | Hqp]; [auto |].
    destruct (G8 q Hq) as [? | [(b & Hb & Ho) | (j & Hj & A0 & A1 & ->)]]; [auto | |].
    + right. left. exists b. split; [done |]. apply HO. auto.
    + right. right. exists j. rewrite P, decide_False by (intros ->; done). done.
Qed.

(** ** One page *)

Lemma take_page_spec z m : mm_wf m -> exists p m1, take_page z m = Some (p, m1) /\
  ((p = 0 /\ m1 = m) \/
   (p <> 0 /\ p ∈ free_set (sup m) /\ mm_wf m1 /\ pinned m1 p /\
    (forall j q, owned m1 j q <-> owned m j q) /\ (forall j, pte m1 j = pte m j) /\
    (z = true -> frame_at m1 p = zero_frame) /\
    (forall q, q <> p -> frame_at m1 q = frame_at m q) /\
    free_set (sup m1) = free_set (sup m) ∖ {[p]})).
Proof.
  intros Wm. destruct z; unfold take_page.
  - destruct (take_zero_spec m Wm) as (p & m1 & -> & [(-> & -> & _) | (s' & Tk & Hp & ->)]).
    { exists 0, m. split; [done | by left]. }
    eexists p, _. split; [done |]. right. pose proof Tk as (_ & Hpf & HF & _).
    destruct (took_zero_mm m p s' Wm Tk) as (W1 & Pn1 & O1 & P1 & T1 & Z1 & Fr1 & N1).
    split; [lia |]. repeat (split; [done |]). done.
  - destruct (take_any_spec (sup m) (mm_sup _ Wm)) as (p & s' & -> & [(-> & -> & _) | [Tk [Hp _]]]).
    { exists 0, m. split; [by destruct m | by left]. }
    eexists p, _. split; [done |]. right. pose proof Tk as (_ & Hpf & HF & _).
    destruct (took_zero_mm m p s' Wm Tk) as (_ & Pn1 & O1 & P1 & T1 & _ & _ & N1).
    destruct (took_mm m p s' Wm Tk) as [W1 _].
    split; [lia |]. repeat (split; [done |]). done.
Qed.

(** What one iteration of the commit loop does. *)
Lemma commit_page_spec z v m0 F lo hi k b : progress z m0 (mem v) F lo hi -> title k -> lo <= k < hi ->
  k ∉ F -> bits_ok b ->
  exists ok v' F', commit_page v (4096 * k) b z = Some (ok, v') /\
    progress z m0 (mem v') F' lo hi /\
    NxvRegionList v' = NxvRegionList v /\ NxvReserved v' = NxvReserved v /\
    (forall j, 0 <= j < 0x80000 -> j <> k -> pte (mem v') j = pte (mem v) j) /\
    ((ok = false /\ F' = F /\ NxvCommitted v' = NxvCommitted v /\ pte (mem v') k = pte (mem v) k) \/
     (ok = true /\ pte (mem v) k <> 0 /\ F' = F /\ NxvCommitted v' = NxvCommitted v /\
      pte (mem v') k mod 4096 = b) \/
     (ok = true /\ pte (mem v) k = 0 /\ F' = {[k]} ∪ F /\
      NxvCommitted v' = add32 (NxvCommitted v) PAGE_SIZE /\
      pte (mem v') k mod 4096 = b + 0x400)).
Proof.
  intros G Hk Hr HkF Hb. set (m := mem v) in *.
  pose proof (pg_ok _ _ _ _ _ _ G) as T. assert (Hk' : 0 <= k < 0x80000) by (unfold title in Hk; lia).
  unfold commit_page. fold m. rewrite NXV_PTE_page.
  destruct (ensure_table_spec m F k T Hk') as (ok & m1 & -> & [[-> ->] | (-> & T1 & Hpd & O1 & P1 & Fr1 & S1 & L1)]).
  { exists false, (with_mem m v), F. split; [done |]. split; [done |]. repeat (split; [done |]). left. done. }
  pose proof (progress_table z m0 m m1 F lo hi k G T1 Hk' O1 P1 Fr1 S1 L1) as G1.
  pose proof (P1 k Hk') as Pk. destruct (lor_fresh b Hb) as [_ Hlt]. pose proof Hb as [Hb1 _].
  destruct (Z.eqb_spec (pte m1 k) 0) as [E0 | E0]; cbn [negb].
  - destruct (take_page_spec z m1 (to_mm _ _ T1)) as
      (p & m2 & -> & [(-> & ->) | (Hp & Hpf & W2 & Pn2 & O2 & T2 & Z2 & Fr2 & F2)]).
    { exists false, (with_mem m1 v), F. split; [done |]. split; [done |]. repeat (split; [done |]).
      split; [intros j Hj _; by apply P1 |]. left. done. }
    destruct (Z.eqb_spec p 0) as [? | _]; [done |].
    pose proof (progress_new z m0 m1 m2 F lo hi k p b G1 Hk Hr E0 Hpd Hb Hpf W2 Pn2 O2 T2 Z2 Fr2 F2) as G3.
    assert (Hpr : 0 < p <= NXP_PFN_MASK).
    { pose proof (free_set_range _ _ (mm_sup _ (to_mm _ _ T1)) Hpf).
      pose proof (wf_highest _ (mm_sup _ (to_mm _ _ T1))). unfold in_range, NXP_PFN_MASK in *. lia. }
    destruct (new_page_entry p b Hpr Hb) as (-> & He & _).
    eexists true, _, ({[k]} ∪ F). split; [reflexivity |]. split; [exact G3 |].
    split; [done |]. split; [done |].
    assert (P3 : forall j, pte (map_frame k (entry p (b + 0x400)) p m2) j =
      if decide (k = j) then entry p (b + 0x400) else pte m1 j).
    { intros j. transitivity (if decide (k = j) then entry p (b + 0x400) else pte m2 j);
        [unfold pte; apply rd_insert | by rewrite T2]. }
    split.
    + intros j Hj Hne. transitivity (pte m1 j); [| by apply P1].
      transitivity (if decide (k = j) then entry p (b + 0x400) else pte m1 j); [apply P3 |].
      by rewrite decide_False.
    + right. right. split; [done |]. split; [congruence |]. split; [done |]. split; [done |].
      transitivity (entry p (b + 0x400) mod 4096); [| by apply entry_low; lia]. f_equal.
      transitivity (if decide (k = k) then entry p (b + 0x400) else pte m1 k); [apply P3 |].
      by rewrite decide_True.
  - assert (A3 : 0 <= pte m1 k < 2 ^ 32) by (apply (to_page _ _ T1 k Hk E0)).
    rewrite reprotect_entry by lia.
    eexists true, _, F. split; [reflexivity |]. cbn [mem with_mem NxvRegionList NxvReserved NxvCommitted].
    split.
    { apply (progress_retitle z m0 m1 F F lo hi k b G1); try done; try lia.
      rewrite fresh_entry_old by done. split; [done |]. intros; done. }
    split; [done |]. split; [done |].
    assert (P3 : forall j, pte (set_pte k (entry (pte m1 k / 2 ^ 12) b) m1) j =
      if decide (k = j) then entry (pte m1 k / 2 ^ 12) b else pte m1 j)
      by (intros j; unfold pte at 1; apply rd_insert).
    split; [intros j Hj Hne; rewrite P3, decide_False by congruence; by apply P1 |].
    right. left. split; [done |]. split; [congruence |]. split; [done |]. split; [done |].
    rewrite P3, decide_True by done. apply entry_low. lia.
Qed.

(** ** The loops *)

(** The committed byte count with [F] fresh pages on top of [c]. *)
Definition charged (c : Z) (v : vm) (F : gset Z) : Prop :=
  NxvCommitted v = u32 (c + 4096 * Z.of_nat (size F)).

(** Pages [lo .. k - 1] are committed with bits [b]. *)
Definition marked (m : mm) (F : gset Z) (lo k b : Z) : Prop :=
  forall j, lo <= j < k -> pte m j <> 0 /\
    pte m j mod 4096 = b + if decide (j ∈ F) then 0x400 else 0.

Definition same_regions (v v' : vm) : Prop :=
  NxvRegionList v' = NxvRegionList v /\ NxvReserved v' = NxvReserved v.

(** The pages committed since [m0] are those of [F]. *)
Definition exact (m0 m : mm) (F : gset Z) : Prop :=
  forall k, title k -> pte m0 k = 0 -> pte m k <> 0 -> k ∈ F.

Definition within (F : gset Z) (lo k : Z) : Prop := forall j, j ∈ F -> lo <= j < k.

Lemma charged_add c v F v' k : charged c v F -> k ∉ F ->
  NxvCommitted v' = add32 (NxvCommitted v) PAGE_SIZE -> charged c v' ({[k]} ∪ F).
Proof.
  unfold charged. intros HC Hk ->. rewrite HC, size_union, size_singleton by set_solver.
  unfold add32, u32, PAGE_SIZE. rewrite Zplus_mod_idemp_l. f_equal. lia.
Qed.

Lemma charged_sub c v F v' k : charged c v F -> k ∈ F ->
  NxvCommitted v' = sub32 (NxvCommitted v) PAGE_SIZE -> charged c v' (F ∖ {[k]}).
Proof.
  unfold charged. intros HC Hk ->. rewrite HC, size_difference, size_singleton by set_solver.
  assert (size F <> 0)%nat by (intros E%size_empty_inv; set_solver).
  unfold sub32, u32, PAGE_SIZE. rewrite Zminus_mod_idemp_l. f_equal. lia.
Qed.

Lemma commit_pages_spec z m0 lo hi b c n : bits_ok b -> 0x10 <= lo -> hi <= 0x7FFE0 ->
  forall v F k, progress z m0 (mem v) F lo hi -> lo <= k -> k + Z.of_nat n = hi ->
  within F lo k -> marked (mem v) F lo k b -> charged c v F -> exact m0 (mem v) F ->
  exists ok k' v' F', commit_pages n v (4096 * k) b z = Some (ok, 4096 * k', v') /\
    progress z m0 (mem v') F' lo hi /\ same_regions v v' /\ charged c v' F' /\
    within F' lo k' /\ lo <= k' <= hi /\ exact m0 (mem v') F' /\
    (ok = true -> k' = hi /\ marked (mem v') F' lo hi b).
Proof.
  intros Hb Hlo Hhi. induction n as [| n IH]; intros v F k G Hk Hn HW HM HC HE; cbn [commit_pages].
  - exists true, k, v, F. split; [done |]. split; [done |]. split; [done |]. split; [done |].
    split; [done |]. split; [lia |]. split; [done |]. intros _. split; [lia |]. by replace hi with k by lia.
  - assert (Hkt : title k) by (unfold title; lia).
    assert (HkF : k ∉ F) by (intros Hin%HW; lia).
    destruct (commit_page_spec z v m0 F lo hi k b G Hkt ltac:(lia) HkF Hb)
      as (ok & v1 & F1 & -> & G1 & HR1 & HR2 & HP & Hcase).
    destruct Hcase as [(-> & -> & HC1 & Hk0) | Hcase].
    { exists false, k, v1, F. split; [done |]. split; [done |]. split; [done |].
      split; [unfold charged; congruence |]. split; [done |]. split; [lia |]. split; [| intros; discriminate].
      intros j Hj Hj0. destruct (decide (j = k)) as [-> | Hjk]; [rewrite Hk0 | rewrite HP by (done || unfold title in Hj; lia)];
        by apply HE. }
    assert (Hok : ok = true) by (destruct Hcase as [(? & _) | (? & _)]; done). subst ok.
    assert (HE1 : exact m0 (mem v1) F1).
    { intros j Hj Hj0 Hjn. destruct (decide (j = k)) as [-> | Hjk].
      - destruct Hcase as [(_ & Hne & -> & _) | (_ & _ & -> & _)]; [by apply HE | set_solver].
      - rewrite HP in Hjn by (done || unfold title in Hj; lia). pose proof (HE j Hj Hj0 Hjn).
        destruct Hcase as [(_ & _ & -> & _) | (_ & _ & -> & _)]; set_solver. }
    assert (A : within F1 lo (k + 1) /\ marked (mem v1) F1 lo (k + 1) b /\ charged c v1 F1).
    { assert (Hold : forall j, lo <= j < k -> pte (mem v1) j = pte (mem v) j)
        by (intros j Hj; apply HP; lia).
      destruct Hcase as [(_ & Hne & -> & HC1 & Hm) | (_ & H0 & -> & HC1 & Hm)].
      - split; [intros j Hj%HW; lia |]. split; [| unfold charged; congruence].
        intros j Hj. destruct (decide (j = k)) as [-> | Hjk].
        + rewrite decide_False, Z.add_0_r by done. split; [| done].
          intros E. rewrite E in Hm. destruct Hb as [Hb _]. change (0 mod 4096) with 0 in Hm. lia.
        + rewrite Hold by lia. apply HM. lia.
      - split; [intros j [->%elem_of_singleton | Hj%HW]%elem_of_union; lia |].
        split; [| by apply (charged_add c v F)].
        intros j Hj. destruct (decide (j = k)) as [-> | Hjk].
        + rewrite decide_True by set_solver. split; [| done]. apply (to_fresh _ _ (pg_ok _ _ _ _ _ _ G1)).
          set_solver.
        + rewrite Hold by lia. destruct (HM j ltac:(lia)) as [? ->]. split; [done |]. f_equal.
          repeat case_decide; set_solver. }
    destruct A as (HW1 & HM1 & HC1). rewrite add32_page by lia.
    destruct (IH v1 F1 (k + 1) G1 ltac:(lia) ltac:(lia) HW1 HM1 HC1 HE1)
      as (ok & k' & v' & F' & -> & G' & [S1 S2] & HC' & HW' & Hk' & Hok).
    exists ok, k', v', F'. split; [done |]. split; [done |]. split; [unfold same_regions; split; congruence |]. done.
Qed.

Lemma rollback_page_spec z m0 v F lo hi k c : progress z m0 (mem v) F lo hi -> title k -> charged c v F ->
  let v' := rollback_page v (4096 * k) in
  progress z m0 (mem v') (F ∖ {[k]}) lo hi /\ same_regions v v' /\ charged c v' (F ∖ {[k]}) /\
  (exact m0 (mem v) F -> exact m0 (mem v') (F ∖ {[k]})).
Proof.
  intros G Hk HC v'. pose proof (pg_ok _ _ _ _ _ _ G) as T. subst v'.
  unfold rollback_page, pde_present. rewrite NXV_PDE_page, NXV_PTE_page.
  fold (present (pte (mem v) (pdx k))) (fresh (pte (mem v) k)).
  destruct (decide (k ∈ F)) as [Hin | Hout].
  - destruct (to_fresh _ _ T k Hin) as [_ Hne]. destruct (to_page _ _ T k Hk Hne) as (-> & _ & _ & Hf).
    rewrite (proj2 Hf Hin). cbn [andb]. split; [by apply progress_free |]. split; [done |].
    split; [by apply (charged_sub c v F) |]. intros HE j Hj Hj0. cbn [mem with_committed with_mem].
    destruct (free_page_title _ F k T Hk Hne) as (_ & P & _). rewrite P. case_decide; [done |].
    intros Hn. apply elem_of_difference. split; [by apply HE | set_solver].
  - assert (EF : F ∖ {[k]} = F) by set_solver. rewrite EF.
    assert (Hnf : fresh (pte (mem v) k) = false).
    { destruct (Z.eq_dec (pte (mem v) k) 0) as [-> | Hne]; [done |].
      destruct (to_page _ _ T k Hk Hne) as (_ & _ & _ & Hf).
      destruct (fresh (pte (mem v) k)); [tauto | done]. }
    rewrite Hnf, andb_false_r. done.
Qed.

Lemma rollback_spec z m0 lo hi c n : 0x10 <= lo -> hi <= 0x7FFE0 -> forall v F k,
  progress z m0 (mem v) F lo hi -> within F lo k -> k <= hi -> k = lo + Z.of_nat n -> charged c v F ->
  exact m0 (mem v) F ->
  let v' := rollback n v (4096 * k) in
  progress z m0 (mem v') ∅ lo hi /\ same_regions v v' /\ charged c v' ∅ /\ exact m0 (mem v') ∅.
Proof.
  intros Hlo Hhi. induction n as [| n IH]; intros v F k G HW Hk Hn HC HE; cbn [rollback].
  - assert (F = ∅) as -> by (apply set_eq; intros j; split; [intros Hj%HW; lia | set_solver]). done.
  - assert (E : sub32 (4096 * k) PAGE_SIZE = 4096 * (k - 1)) by (unfold PAGE_SIZE; rewrite sub32_id; lia).
    rewrite E. cbv zeta.
    destruct (rollback_page_spec z m0 v F lo hi (k - 1) c G ltac:(unfold title; lia) HC) as (G1 & [S1 S2] & C1 & E1).
    destruct (IH (rollback_page v (4096 * (k - 1))) (F ∖ {[k - 1]}) (k - 1) G1) as (G2 & [S3 S4] & C2);
      [| lia | lia | done | by apply E1 |].
    { intros j [Hj Hne]%elem_of_difference. apply HW in Hj. rewrite elem_of_singleton in Hne. lia. }
    split; [done |]. split; [split; congruence | done].
Qed.

Lemma clear_fresh_page_spec z m0 v F lo hi k b c : progress z m0 (mem v) F lo hi -> title k -> lo <= k < hi ->
  marked (mem v) F lo hi b -> bits_ok b -> NxvCommitted v = c ->
  let v' := clear_fresh_page v (4096 * k) in
  progress z m0 (mem v') (F ∖ {[k]}) lo hi /\ same_regions v v' /\ NxvCommitted v' = c /\
  marked (mem v') (F ∖ {[k]}) lo hi b.
Proof.
  intros G Hk Hr HM Hb HC v'. pose proof (pg_ok _ _ _ _ _ _ G) as T.
  destruct (HM k Hr) as [Hne Hlow]. destruct (to_page _ _ T k Hk Hne) as (_ & A2 & A3 & Hf).
  destruct (lor_fresh b Hb) as [_ Hlt]. pose proof Hb as [Hb1 _].
  subst v'. unfold clear_fresh_page. rewrite NXV_PTE_page. fold (fresh (pte (mem v) k)).
  destruct (decide (k ∈ F)) as [Hin | Hout].
  - rewrite (proj2 Hf Hin).
    pose proof (entry_split (pte (mem v) k)) as Es. rewrite Hlow in Es.
    assert (Hp : 0 <= pte (mem v) k / 2 ^ 12) by (apply Z.div_pos; lia).
    assert (Ec : Z.land (pte (mem v) k) (not32 NXV_PTE_FRESH) = entry (pte (mem v) k / 2 ^ 12) b)
      by (rewrite Es at 1; apply clear_fresh_entry; [done | rewrite <- Es; lia | done]).
    rewrite Ec. cbn [mem with_mem].
    split; [| split; [done |]; split; [done |]].
    + apply (progress_retitle z m0 (mem v) F (F ∖ {[k]}) lo hi k b G Hk Hr Hne ltac:(lia)).
      * rewrite fresh_entry_old by done. split; [done | set_solver].
      * set_solver.
      * set_solver.
    + intros j Hj. unfold pte, set_pte, with_ptes. cbn [ptes]. rewrite rd_insert. case_decide as E.
      * subst j. rewrite decide_False by set_solver. rewrite entry_low, Z.add_0_r by lia. split; [| done].
        destruct A2 as ((? & _) & _). unfold entry. lia.
      * destruct (HM j Hj) as [H1 H2]. fold (pte (mem v) j). split; [done |]. rewrite H2. f_equal.
        repeat case_decide; set_solver.
  - assert (EF : F ∖ {[k]} = F) by set_solver. rewrite EF.
    destruct (fresh (pte (mem v) k)); [tauto | done].
Qed.

Lemma clear_fresh_spec z m0 lo hi b c n : bits_ok b -> 0x10 <= lo -> hi <= 0x7FFE0 -> forall v F k,
  progress z m0 (mem v) F lo hi -> lo <= k -> k + Z.of_nat n = hi -> within F k hi ->
  marked (mem v) F lo hi b -> NxvCommitted v = c ->
  let v' := clear_fresh n v (4096 * k) in
  progress z m0 (mem v') ∅ lo hi /\ same_regions v v' /\ NxvCommitted v' = c /\ marked (mem v') ∅ lo hi b.
Proof.
  intros Hb Hlo Hhi. induction n as [| n IH]; intros v F k G Hk Hn HW HM HC; cbn [clear_fresh].
  - assert (F = ∅) as -> by (apply set_eq; intros j; split; [intros Hj%HW; lia | set_solver]). done.
  - destruct (clear_fresh_page_spec z m0 v F lo hi k b c G ltac:(unfold title; lia) ltac:(lia) HM Hb HC)
      as (G1 & [S1 S2] & C1 & M1).
    rewrite add32_page by lia.
    destruct (IH (clear_fresh_page v (4096 * k)) (F ∖ {[k]}) (k + 1) G1) as (G2 & [S3 S4] & C2 & M2);
      [lia | lia | | done | done |].
    { intros j [Hj Hne]%elem_of_difference. apply HW in Hj. rewrite elem_of_singleton in Hne. lia. }
    split; [done |]. split; [split; congruence | done].
Qed.

(** ** The committed set *)

Definition cset (m : mm) : gset Z :=
  list_to_set (filter (fun k => pte m k <> 0) (seqZ 0x10 0x7FFD0)).

Lemma elem_of_cset m k : k ∈ cset m <-> title k /\ pte m k <> 0.
Proof.
  unfold cset, title. rewrite elem_of_list_to_set, list_elem_of_filter, elem_of_seqZ. lia.
Qed.

Local Opaque cset.

Lemma cset_exact z m0 m F lo hi : progress z m0 m F lo hi -> exact m0 m F ->
  cset m = cset m0 ∪ F /\ cset m0 ## F.
Proof.
  intros G HE. split.
  - apply set_eq. intros k. rewrite elem_of_union, !elem_of_cset. split.
    + intros [Hk Hn]. destruct (Z.eq_dec (pte m0 k) 0) as [H0 | H0]; [right; by apply HE | by left].
    + intros [[Hk Hn] | Hk]; [| by apply (to_fresh _ _ (pg_ok _ _ _ _ _ _ G))].
      split; [done |]. by apply (pg_old _ _ _ _ _ _ G).
  - intros k [_ Hn]%elem_of_cset HkF. by destruct (pg_new _ _ _ _ _ _ G k HkF) as [? _].
Qed.

Definition counted (v : vm) : Prop := NxvCommitted v = u32 (4096 * Z.of_nat (size (cset (mem v)))).

Lemma commit_range_spec z v lo hi b : title_ok (mem v) ∅ -> counted v -> bits_ok b ->
  0x10 <= lo <= hi -> hi <= 0x7FFE0 ->
  exists st v', NxvCommitRange v (4096 * lo) (4096 * hi) b z = Some (st, v') /\
    progress z (mem v) (mem v') ∅ lo hi /\ same_regions v v' /\ counted v' /\
    ((st = STATUS_SUCCESS /\ marked (mem v') ∅ lo hi b) \/
     (st = STATUS_NO_MEMORY /\ exact (mem v) (mem v') ∅ /\ NxvCommitted v' = NxvCommitted v)).
Proof.
  intros T HC Hb Hlo Hhi. set (c := 4096 * Z.of_nat (size (cset (mem v)))).
  unfold NxvCommitRange. rewrite npages_page.
  destruct (commit_pages_spec z (mem v) lo hi b c (Z.to_nat (hi - lo)) Hb ltac:(lia) Hhi v ∅ lo)
    as (ok & k' & v1 & F & -> & G & [S1 S2] & C1 & W1 & Hk' & E1 & Hok);
    [by apply progress_refl | lia | lia | intros j Hj; set_solver | intros j Hj; lia | |
     intros j _ H0 Hn; done |].
  { unfold charged. rewrite HC. fold c. by rewrite size_empty, Z.mul_0_r, Z.add_0_r. }
  destruct (cset_exact _ _ _ _ _ _ G E1) as [CS CD].
  assert (Cnt : NxvCommitted v1 = u32 (4096 * Z.of_nat (size (cset (mem v1))))).
  { rewrite CS, size_union by done. unfold charged, c in C1. rewrite C1. f_equal. lia. }
  destruct ok.
  - destruct (Hok eq_refl) as [-> M1].
    destruct (clear_fresh_spec z (mem v) lo hi b (NxvCommitted v1) (Z.to_nat (hi - lo)) Hb ltac:(lia) Hhi v1 F lo)
      as (G2 & [S3 S4] & C2 & M2); [done | lia | lia | done | done | done |].
    eexists _, _. split; [done |]. split; [done |]. split; [split; congruence |]. split; [| by left].
    unfold counted. rewrite C2, Cnt. do 4 f_equal. apply set_eq. intros k. rewrite !elem_of_cset.
    destruct (decide (lo <= k < hi)) as [Hr | Hr]; [destruct (M1 k Hr), (M2 k Hr); tauto |].
    split; intros [Hk Hn]; (split; [done |]).
    + rewrite (pg_out _ _ _ _ _ _ G2 k Hk Hr). by rewrite (pg_out _ _ _ _ _ _ G k Hk Hr) in Hn.
    + rewrite (pg_out _ _ _ _ _ _ G k Hk Hr). by rewrite (pg_out _ _ _ _ _ _ G2 k Hk Hr) in Hn.
  - rewrite npages_page.
    destruct (rollback_spec z (mem v) lo hi c (Z.to_nat (k' - lo)) ltac:(lia) Hhi v1 F k')
      as (G2 & [S3 S4] & C2 & E2); [done | done | lia | lia | done | done |].
    eexists _, _. split; [done |]. split; [done |]. split; [split; congruence |].
    destruct (cset_exact _ _ _ _ _ _ G2 E2) as [CS2 _].
    assert (EC : NxvCommitted (rollback (Z.to_nat (k' - lo)) v1 (4096 * k')) = NxvCommitted v).
    { unfold charged in C2. rewrite C2, HC. fold c. by rewrite size_empty, Z.mul_0_r, Z.add_0_r. }
    split; [| right; done]. unfold counted. rewrite EC, HC. do 4 f_equal. rewrite CS2. set_solver.
Qed.

(** ** Decommit *)

(** [m'] is [m] with the title pages [lo .. hi - 1] freed. *)
Record dropped (m m' : mm) (lo hi : Z) : Prop := {
  dr_ok : title_ok m' ∅;
  dr_pte : forall j, pte m' j = if decide (lo <= j < hi) then 0 else pte m j;
  dr_frame : forall q, frame_at m' q = frame_at m q;
  dr_free : forall q, q ∈ free_set (sup m') <->
    q ∈ free_set (sup m) \/ exists k, lo <= k < hi /\ pte m k <> 0 /\ q = pte m k / 2 ^ 12
}.

Lemma round_up_block k : 0 <= k < 0x80000 ->
  add32 (sub32 (ROUND_UP (add32 (4096 * k) 1) 0x400000) PAGE_SIZE) PAGE_SIZE = 4096 * (1024 * (k / 1024 + 1)).
Proof.
  intros Hk. pose proof (pdx_range k Hk) as Hb. unfold ROUND_UP, ROUND_DOWN, PAGE_SIZE.
  rewrite (add32_id (4096 * k) 1), (add32_id _ 0x400000), (sub32_id _ 1), (sub32_id 0x400000 1) by lia.
  change (0x400000 - 1) with (2 ^ 22 - 1). rewrite land_not_ones by lia.
  pose proof (Z.div_mod k 1024 ltac:(lia)) as Hd. pose proof (Z.mod_pos_bound k 1024 ltac:(lia)) as Hm.
  assert (E : (4096 * k + 1 + 4194304 - 1) mod 2 ^ 22 = 4096 * (k mod 1024)).
  { symmetry. apply (Z.mod_unique _ _ (k / 1024 + 1)); lia. }
  rewrite E, sub32_id, add32_id by lia. lia.
Qed.

Lemma dropped_refl m lo : title_ok m ∅ -> dropped m m lo lo.
Proof.
  intros T. constructor; try done.
  - intros j. by rewrite decide_False by lia.
  - intros q. split; [by left |]. intros [? | (k & Hk & _)]; [done | lia].
Qed.

(** A prefix of pages that are already uncommitted. *)
Lemma dropped_skip m m' lo mid hi : dropped m m' mid hi -> lo <= mid ->
  (forall j, lo <= j < mid -> pte m j = 0) -> dropped m m' lo hi.
Proof.
  intros [D1 D2 D3 D4] Hl Hz. constructor; try done.
  - intros j. rewrite D2. repeat case_decide; try done; try lia. apply Hz. lia.
  - intros q. rewrite D4. split; (intros [? | (k & Hk & Hn & ->)]; [by left | right; exists k]).
    + split; [lia | done].
    + split; [| done]. split; [| lia]. destruct (Z.lt_ge_cases k mid); [| done].
      by rewrite Hz in Hn by lia.
Qed.

Lemma dropped_cons m m' k hi : title_ok m ∅ -> title k -> pte m k <> 0 -> k < hi ->
  dropped (NxvFreePageAtPte m k) m' (k + 1) hi -> dropped m m' k hi.
Proof.
  intros T Hk Hn Hlt [D1 D2 D3 D4].
  destruct (free_page_title m ∅ k T Hk Hn) as (_ & P & Fr & FS & _). constructor.
  - done.
  - intros j. rewrite D2, P. repeat case_decide; try done; lia.
  - intros q. by rewrite D3, Fr.
  - intros q. rewrite D4, FS, elem_of_union, elem_of_singleton. split.
    + intros [[-> | ?] | (j & Hj & Hjn & ->)]; [right; exists k; split; [lia | done] | by left |].
      rewrite P, decide_False in * by lia. right. exists j. split; [lia | done].
    + intros [? | (j & Hj & Hjn & ->)]; [auto |].
      destruct (decide (j = k)) as [-> | Hjk]; [auto |]. right. exists j.
      rewrite P, decide_False by lia. split; [lia | done].
Qed.

Lemma cset_free m k : title_ok m ∅ -> title k -> pte m k <> 0 ->
  Z.of_nat (size (cset (NxvFreePageAtPte m k))) = Z.of_nat (size (cset m)) - 1.
Proof.
  intros T Hk Hn. destruct (free_page_title m ∅ k T Hk Hn) as (_ & P & _).
  assert (E : cset m = {[k]} ∪ cset (NxvFreePageAtPte m k)).
  { apply set_eq. intros j. rewrite elem_of_union, elem_of_singleton, !elem_of_cset, P.
    case_decide; [subst; tauto |]. intuition congruence. }
  rewrite E, size_union, size_singleton; [lia |].
  intros j ->%elem_of_singleton [_ Hj]%elem_of_cset. rewrite P, decide_True in Hj; done.
Qed.

Lemma decommit_spec hi : hi <= 0x7FFE0 -> forall fuel v k, title_ok (mem v) ∅ -> counted v ->
  0x10 <= k <= hi + 1024 -> (Z.to_nat (hi - k) <= fuel)%nat ->
  exists v', decommit fuel v (4096 * k) (4096 * hi) = Some v' /\
    (k <= hi -> dropped (mem v) (mem v') k hi) /\ (hi <= k -> v' = v) /\ same_regions v v' /\ counted v'.
Proof.
  intros Hhi. induction fuel as [| f IH]; intros v k T HC Hk Hf; cbn [decommit].
  - rewrite (proj2 (Z.leb_le _ _)) by lia. exists v. split; [done |].
    split; [intros; replace k with hi by lia; by apply dropped_refl | done].
  - destruct (Z.leb_spec (4096 * hi) (4096 * k)) as [Hle | Hlt].
    { exists v. split; [done |]. split; [intros; replace k with hi by lia; by apply dropped_refl | done]. }
    assert (Hkt : title k) by (unfold title; lia). assert (Hk8 : 0 <= k < 0x80000) by lia.
    unfold pde_present. rewrite NXV_PDE_page, NXV_PTE_page. fold (present (pte (mem v) (pdx k))).
    destruct (present (pte (mem v) (pdx k))) eqn:HP; cbn [negb].
    + destruct (Z.eqb_spec (pte (mem v) k) 0) as [E0 | E0]; cbn [negb]; rewrite add32_page by lia.
      * destruct (IH v (k + 1) T HC ltac:(lia) ltac:(lia)) as (v' & -> & D & _ & S & C').
        exists v'. split; [done |]. split; [| split; [lia | done]]. intros _.
        apply (dropped_skip _ _ k (k + 1)); [apply D; lia | lia |]. intros j Hj. by replace j with k by lia.
      * destruct (free_page_title (mem v) ∅ k T Hkt E0) as (T1 & P & _).
        assert (Ee : (∅ : gset Z) ∖ {[k]} = ∅) by set_solver. rewrite Ee in T1. clear Ee.
        set (v1 := with_committed _ _).
        assert (C1 : counted v1).
        { unfold counted, v1. cbn [mem with_committed with_mem NxvCommitted]. rewrite HC, cset_free by done.
          unfold sub32, u32, PAGE_SIZE. rewrite Zminus_mod_idemp_l. f_equal. lia. }
        destruct (IH v1 (k + 1) T1 C1 ltac:(lia) ltac:(lia)) as (v' & -> & D & _ & S & C').
        exists v'. split; [done |]. split; [| split; [lia |]; split; [apply S | done]]. intros _.
        apply dropped_cons; auto; [lia | apply D; lia].
    + rewrite round_up_block by done. pose proof (Z.div_mod k 1024 ltac:(lia)) as Hd.
      pose proof (Z.mod_pos_bound k 1024 ltac:(lia)) as Hm. set (k' := 1024 * (k / 1024 + 1)).
      assert (Hz : forall j, k <= j < k' -> pte (mem v) j = 0).
      { intros j Hj. assert (Hjd : j / 1024 = k / 1024)
          by (symmetry; apply (Z.div_unique j 1024 (k / 1024) (j - 1024 * (k / 1024))); unfold k' in Hj; lia).
        apply (to_block _ _ T); [unfold k' in Hj; pose proof (pdx_range k Hk8); lia |].
        unfold pdx in *. by rewrite Hjd. }
      destruct (IH v k' T HC ltac:(unfold k'; lia) ltac:(unfold k'; lia)) as (v' & -> & D & Dn & S & C').
      exists v'. split; [done |]. split; [| split; [lia | done]]. intros _.
      destruct (Z.le_gt_cases k' hi) as [Hle | Hgt].
      * apply (dropped_skip _ _ k k'); [by apply D | unfold k'; lia | done].
      * rewrite Dn by lia. apply (dropped_skip _ _ k hi); [by apply dropped_refl | lia |].
        intros j Hj. apply Hz. lia.
Qed.

Lemma decommit_range_spec v lo hi : title_ok (mem v) ∅ -> counted v -> 0x10 <= lo <= hi -> hi <= 0x7FFE0 ->
  exists v', NxvDecommitRange v (4096 * lo) (4096 * hi) = Some v' /\
    dropped (mem v) (mem v') lo hi /\ same_regions v v' /\ counted v'.
Proof.
  intros T HC Hlo Hhi. unfold NxvDecommitRange. rewrite npages_page.
  destruct (decommit_spec hi Hhi (Z.to_nat (hi - lo)) v lo T HC ltac:(lia) ltac:(lia))
    as (v' & -> & D & _ & S & C). exists v'. split; [done |]. split; [apply D; lia | done].
Qed.
