(* ===== verification/VmStock.v ===== *)
(** * When a commit succeeds

    A commit fails only for want of frames.  [stocked m LO HI]: the frames
    that can be handed out are as many as the pages of the window that are
    not committed and the page tables it lacks.  A commit of a stocked
    window, or of part of it, succeeds and leaves the window stocked, so
    that a sequence of commits needs its frames counted once. *)

From stdpp Require Import prelude gmap list numbers sets.
From Stdlib Require Import ZArith Lia.
From S2P Require Import Prelude PageSupply Paging Vm.

Local Open Scope Z_scope.
Local Opaque free_set NxpUnlink cset.

(** The frames below 16 are for pinned use and never taken for a page. *)
Definition avail (m : mm) : gset Z := filter (fun p => 16 <= p) (free_set (sup m)).
Definition interval (a b : Z) : gset Z := list_to_set (seqZ a (b - a)).
Definition bare_pages (m : mm) (LO HI : Z) : gset Z := filter (fun k => pte m k = 0) (interval LO HI).
Definition bare_tables (m : mm) (LO HI : Z) : gset Z :=
  filter (fun b => present (pte m (0xC0000 + b)) = false) (interval (LO / 1024) ((HI - 1) / 1024 + 1)).
Definition stocked (m : mm) (LO HI : Z) : Prop := (size (bare_pages m LO HI) + size (bare_tables m LO HI) <= size (avail m))%nat.

#[export] Instance stocked_dec m LO HI : Decision (stocked m LO HI).
Proof. unfold stocked. apply _. Defined.

Lemma elem_interval a b x : x ∈ interval a b <-> a <= x < b.
Proof. unfold interval. rewrite elem_of_list_to_set, elem_of_seqZ. lia. Qed.

Lemma elem_avail m p : p ∈ avail m <-> 16 <= p /\ p ∈ free_set (sup m).
Proof. unfold avail. apply elem_of_filter. Qed.

Lemma elem_bare_pages m LO HI k : k ∈ bare_pages m LO HI <-> pte m k = 0 /\ LO <= k < HI.
Proof. unfold bare_pages. by rewrite elem_of_filter, elem_interval. Qed.

Lemma elem_bare_tables m LO HI b : b ∈ bare_tables m LO HI <-> present (pte m (0xC0000 + b)) = false /\ LO / 1024 <= b < (HI - 1) / 1024 + 1.
Proof. unfold bare_tables. by rewrite elem_of_filter, elem_interval. Qed.

Local Opaque avail bare_pages bare_tables.

(** What counts are the free frames, the entries that are 0 and the tables
    that are there. *)
Lemma stocked_keep m m' LO HI : free_set (sup m') = free_set (sup m) -> (forall k, LO <= k < HI -> pte m' k = 0 <-> pte m k = 0) ->
  (forall b, LO / 1024 <= b <= (HI - 1) / 1024 -> present (pte m' (0xC0000 + b)) = present (pte m (0xC0000 + b))) ->
  stocked m LO HI -> stocked m' LO HI.
Proof.
  intros HF HP HT. unfold stocked. assert (avail m' = avail m) as ->.
  { apply set_eq. intros p. by rewrite !elem_avail, HF. }
  assert (bare_pages m' LO HI = bare_pages m LO HI) as ->.
  { apply set_eq. intros k. rewrite !elem_bare_pages. split; intros [A B]; (split; [by apply HP | done]). }
  assert (bare_tables m' LO HI = bare_tables m LO HI) as ->; [| done].
  apply set_eq. intros b. rewrite !elem_bare_tables. split; intros [A B]; (split; [| done]); [rewrite <- HT | rewrite HT]; (done || lia).
Qed.

Lemma stocked_sub m LO HI lo hi : LO <= lo -> lo < hi -> hi <= HI -> stocked m LO HI -> stocked m lo hi.
Proof.
  intros H1 H2 H3. unfold stocked. assert (LO / 1024 <= lo / 1024) by (apply Z.div_le_mono; lia).
  assert ((hi - 1) / 1024 <= (HI - 1) / 1024) by (apply Z.div_le_mono; lia).
  assert (size (bare_pages m lo hi) <= size (bare_pages m LO HI))%nat by (apply subseteq_size; intros k; rewrite !elem_bare_pages; intros [? ?]; split; [done | lia]).
  assert (size (bare_tables m lo hi) <= size (bare_tables m LO HI))%nat by (apply subseteq_size; intros k; rewrite !elem_bare_tables; intros [? ?]; split; [done | lia]).
  lia.
Qed.

(** A window with no page and no table in it. *)
Lemma stocked_none m : stocked m 1024 1024.
Proof.
  unfold stocked. assert (bare_pages m 1024 1024 = ∅) as -> by (apply set_eq; intros k; rewrite elem_bare_pages, elem_of_empty; lia).
  assert (bare_tables m 1024 1024 = ∅) as ->; [| rewrite !size_empty; lia].
  apply set_eq. intros b. rewrite elem_bare_tables, elem_of_empty. change (1024 / 1024) with 1. change ((1024 - 1) / 1024) with 0. lia.
Qed.

Lemma size_take (A A' : gset Z) x : x ∈ A -> (forall y, y ∈ A' <-> y ∈ A /\ y <> x) -> size A = S (size A').
Proof.
  intros Hx HA. assert (A = {[x]} ∪ A') as ->.
  { apply set_eq. intros y. rewrite elem_of_union, elem_of_singleton, HA. destruct (decide (y = x)) as [-> |]; tauto. }
  rewrite size_union, size_singleton; [done |]. intros y ->%elem_of_singleton. rewrite HA. tauto.
Qed.

(** A frame is taken for a table that was missing. *)
Lemma stocked_table m m' LO HI b p : stocked m LO HI -> LO / 1024 <= b <= (HI - 1) / 1024 -> 0 <= LO -> HI <= 0x80000 ->
  present (pte m (0xC0000 + b)) = false -> present (pte m' (0xC0000 + b)) = true -> (forall j, j <> 0xC0000 + b -> pte m' j = pte m j) ->
  16 <= p -> p ∈ free_set (sup m) -> free_set (sup m') = free_set (sup m) ∖ {[p]} -> stocked m' LO HI.
Proof.
  intros S Hb HL HH E1 E2 E3 Hp Hf EF. unfold stocked in *. assert (0 <= b) by (pose proof (Z.div_pos LO 1024 HL); lia).
  assert (Ea : size (avail m) = Datatypes.S (size (avail m'))) by (apply (size_take _ _ p); [by apply elem_avail | intros q; rewrite !elem_avail, EF; set_solver]).
  assert (Et : size (bare_tables m LO HI) = Datatypes.S (size (bare_tables m' LO HI))).
  { apply (size_take _ _ b); [apply elem_bare_tables; split; [done | lia] |]. intros c. rewrite !elem_bare_tables. destruct (decide (c = b)) as [-> | Hn].
    - rewrite E2. split; [by intros [? _] | tauto].
    - rewrite E3 by lia. tauto. }
  assert (Ep : bare_pages m' LO HI = bare_pages m LO HI).
  { apply set_eq. intros k. rewrite !elem_bare_pages. split; intros [A B]; (split; [| done]); [rewrite <- E3 | rewrite E3]; (done || lia). }
  rewrite Ep. lia.
Qed.

(** A frame is taken for a page that was not committed. *)
Lemma stocked_page m m' LO HI k p : stocked m LO HI -> LO <= k < HI -> 0 <= LO -> HI <= 0x80000 ->
  pte m k = 0 -> pte m' k <> 0 -> (forall j, j <> k -> pte m' j = pte m j) ->
  16 <= p -> p ∈ free_set (sup m) -> free_set (sup m') = free_set (sup m) ∖ {[p]} -> stocked m' LO HI.
Proof.
  intros S Hk HL HH E1 E2 E3 Hp Hf EF. unfold stocked in *. pose proof (Z.div_pos LO 1024 HL).
  assert (Ea : size (avail m) = Datatypes.S (size (avail m'))) by (apply (size_take _ _ p); [by apply elem_avail | intros q; rewrite !elem_avail, EF; set_solver]).
  assert (Ep : size (bare_pages m LO HI) = Datatypes.S (size (bare_pages m' LO HI))).
  { apply (size_take _ _ k); [by apply elem_bare_pages |]. intros c. rewrite !elem_bare_pages. destruct (decide (c = k)) as [-> | Hn]; [tauto |].
    rewrite E3 by done. tauto. }
  assert (Et : bare_tables m' LO HI = bare_tables m LO HI).
  { apply set_eq. intros b. rewrite !elem_bare_tables. split; intros [A B]; (split; [| done]); [rewrite <- E3 | rewrite E3]; (done || lia). }
  rewrite Et. lia.
Qed.

(** *** One page *)

Lemma stocked_some m LO HI : stocked m LO HI -> (0 < size (bare_pages m LO HI) + size (bare_tables m LO HI))%nat -> exists p, 16 <= p /\ p ∈ free_set (sup m).
Proof.
  unfold stocked. intros S Hn. destruct (set_choose_or_empty (avail m)) as [[p Hp%elem_avail] | E]; [by exists p |].
  assert (size (avail m) = 0)%nat by (by apply size_empty_iff). lia.
Qed.

Lemma ensure_stocked m F k LO HI : title_ok m F -> LO <= k < HI -> 0 <= LO -> HI <= 0x80000 -> stocked m LO HI ->
  exists m', NxvEnsurePageTable m (4096 * k) = Some (true, m') /\ stocked m' LO HI.
Proof.
  intros T Hk HL HH S. pose proof (to_mm _ _ T) as Wm. pose proof (pdx_range k ltac:(lia)) as Hb.
  unfold NxvEnsurePageTable, pde_present. rewrite NXV_PDE_page. fold (present (pte m (pdx k))). destruct (present (pte m (pdx k))) eqn:HP; [by exists m |].
  assert (Hin : LO / 1024 <= k / 1024 <= (HI - 1) / 1024) by (split; apply Z.div_le_mono; lia). unfold MmAllocPage.
  destruct (take_zero_spec m Wm) as (p & m1 & -> & [(-> & -> & Hlow) | (s' & Tk & Hp16 & ->)]).
  { exfalso. destruct (stocked_some m LO HI S) as (p & H16 & Hp); [| specialize (Hlow p Hp); lia].
    assert (Ht : k / 1024 ∈ bare_tables m LO HI) by (apply elem_bare_tables; split; [exact HP | lia]).
    assert (size (bare_tables m LO HI) <> 0)%nat by (intros E%size_empty_inv; set_solver). lia. }
  destruct (Z.eqb_spec p 0) as [? | _]; [lia |]. eexists. split; [done |]. pose proof Tk as (_ & Hpf & _).
  pose proof (wf_highest _ (mm_sup _ Wm)) as Hh. destruct (present_table_entry p) as [He1 He2].
  { pose proof (free_set_range _ _ (mm_sup _ Wm) Hpf). unfold in_range, NXP_PFN_MASK in *. lia. }
  set (e := Z.lor (Z.lor (shl32 p PAGE_SHIFT) NXV_PTE_P) NXV_PTE_RW) in *.
  destruct (install_table_mm m p s' k e Wm Tk ltac:(unfold pdx; lia) He2) as (W4 & F4 & O4 & P4 & T4 & Fr4 & H4).
  { intros j Hj. pose proof (Z.div_mod j 1024 ltac:(lia)). pose proof (Z.mod_pos_bound j 1024 ltac:(lia)). apply (to_block _ _ T); [lia |]. unfold pdx. by rewrite Hj. }
  { intros q Ho. unfold pdx in *. rewrite (to_pde _ _ T _ _ Hb Ho) in HP. done. }
  apply (stocked_table m _ LO HI (k / 1024) p S Hin HL HH HP); [| | done | done | exact F4].
  - fold (pdx k). rewrite T4, decide_True by done. exact He1.
  - fold (pdx k). intros j Hj. rewrite T4, decide_False by done. done.
Qed.

Lemma take_page_avail z m p m1 : mm_wf m -> take_page z m = Some (p, m1) ->
  (p = 0 /\ forall q, q ∈ free_set (sup m) -> q < 16) \/ 16 <= p.
Proof.
  intros Wm. unfold take_page. destruct z.
  - destruct (take_zero_spec m Wm) as (q & m2 & -> & [(-> & _ & H) | (_ & _ & H & _)]); intros [= <- _]; [by left | by right].
  - destruct (take_any_spec (sup m) (mm_sup _ Wm)) as (q & s' & -> & [(-> & _ & H) | [_ [H _]]]); intros [= <- _]; [by left | by right].
Qed.

Lemma commit_page_stocked z v F k b LO HI : title_ok (mem v) F -> title k -> LO <= k < HI -> 0 <= LO -> HI <= 0x80000 -> bits_ok b ->
  stocked (mem v) LO HI -> exists v', commit_page v (4096 * k) b z = Some (true, v') /\ stocked (mem v') LO HI.
Proof.
  intros T Ht Hk HL HH Hb S. unfold commit_page. rewrite NXV_PTE_page.
  destruct (ensure_stocked (mem v) F k LO HI T Hk HL HH S) as (m1 & E1 & S1).
  destruct (ensure_table_spec (mem v) F k T ltac:(lia)) as (ok & m1' & E1' & HC). rewrite E1 in E1'. injection E1' as <- <-.
  destruct HC as [[? _] | (_ & T1 & Hpd & _)]; [done |]. rewrite E1. destruct (Z.eqb_spec (pte m1 k) 0) as [E0 | E0]; cbn [negb].
  - destruct (take_page_spec z m1 (to_mm _ _ T1)) as (p & m2 & E2 & HC). rewrite E2. destruct (take_page_avail z m1 p m2 (to_mm _ _ T1) E2) as [[-> Hlow] | H16].
    { exfalso. destruct (stocked_some m1 LO HI S1) as (p & H16 & Hp); [| specialize (Hlow p Hp); lia].
      assert (Hb' : k ∈ bare_pages m1 LO HI) by (by apply elem_bare_pages).
      assert (size (bare_pages m1 LO HI) <> 0)%nat by (intros E%size_empty_inv; set_solver). lia. }
    destruct HC as [[-> _] | (Hp & Hpf & W2 & Pn2 & O2 & T2 & _ & _ & F2)]; [lia |]. rewrite (proj2 (Z.eqb_neq p 0)) by done.
    assert (Hpr : 0 < p <= NXP_PFN_MASK).
    { pose proof (free_set_range _ _ (mm_sup _ (to_mm _ _ T1)) Hpf). pose proof (wf_highest _ (mm_sup _ (to_mm _ _ T1))). unfold in_range, NXP_PFN_MASK in *. lia. }
    destruct (new_page_entry p b Hpr Hb) as (-> & He & _). eexists. split; [reflexivity |]. cbn [mem with_committed with_mem].
    destruct (lor_fresh b Hb) as [_ Hlt]. pose proof Hb as [Hb1 _].
    destruct (map_frame_mm m2 k (entry p (b + 0x400)) p W2 Pn2 ltac:(unfold title in Ht; lia)) as (_ & F3 & _ & _ & T3 & _); [apply entry_frame; lia | |].
    { intros q Ho%O2. pose proof (mm_owner _ (to_mm _ _ T1) _ _ Ho) as E. rewrite E0 in E. destruct Ho as (Hq & _). unfold in_range in Hq. change (0 / 2 ^ 12) with 0 in E. lia. }
    change (stocked (map_frame k (entry p (b + 0x400)) p m2) LO HI).
    apply (stocked_page m1 _ LO HI k p S1 Hk HL HH E0); [rewrite T3, decide_True by done; lia | | done | done | by rewrite F3].
    intros j Hj. rewrite T3, decide_False by done. apply T2.
  - eexists. split; [reflexivity |]. cbn [mem with_mem]. destruct (to_page _ _ T1 k Ht E0) as (_ & A2 & A3 & _). pose proof Hb as [Hb1 _].
    rewrite reprotect_entry by lia.
    assert (P3 : forall j, pte (set_pte k (entry (pte m1 k / 2 ^ 12) b) m1) j = if decide (k = j) then entry (pte m1 k / 2 ^ 12) b else pte m1 j) by (intros j; unfold pte at 1; apply rd_insert).
    apply (stocked_keep m1); [done | | | done].
    + intros j Hj. rewrite P3. case_decide as E; [subst j | done]. unfold entry. assert (0 <= pte m1 k / 2 ^ 12) by (apply Z.div_pos; lia). split; [lia | done].
    + intros c Hc. rewrite P3, decide_False; [done |]. pose proof (Z.div_pos LO 1024 HL). unfold title in Ht. lia.
Qed.

(** *** The loops *)

Lemma commit_pages_stocked z m0 b lo hi LO HI n : bits_ok b -> 0x10 <= LO -> HI <= 0x7FFE0 -> LO <= lo -> hi <= HI ->
  forall v F k, progress z m0 (mem v) F lo hi -> lo <= k -> k + Z.of_nat n = hi -> within F lo k -> stocked (mem v) LO HI ->
  exists Va v', commit_pages n v (4096 * k) b z = Some (true, Va, v') /\ stocked (mem v') LO HI.
Proof.
  intros Hb HL HH Hlo Hhi. induction n as [| n IH]; intros v F k G Hk Hn HW S; cbn [commit_pages]; [by eexists _, _ |].
  assert (Ht : title k) by (unfold title; lia). assert (HkF : k ∉ F) by (intros Hin%HW; lia).
  destruct (commit_page_stocked z v F k b LO HI (pg_ok _ _ _ _ _ _ G) Ht) as (v1 & E1 & S1); [lia | lia | lia | done | done |].
  destruct (commit_page_spec z v m0 F lo hi k b G Ht ltac:(lia) HkF Hb) as (ok & v1' & F1 & E1' & G1 & _ & _ & _ & HC). rewrite E1 in E1'. injection E1' as <- <-.
  rewrite E1, add32_page by lia. apply (IH v1 F1); [done | lia | lia | | done].
  destruct HC as [(? & _) | [(_ & _ & -> & _) | (_ & _ & -> & _)]]; [done | intros j Hj%HW; lia | intros j [->%elem_of_singleton | Hj%HW]%elem_of_union; lia].
Qed.

Lemma clear_fresh_outside n : forall v k, 0 <= k -> k + Z.of_nat n <= 0x80000 ->
  sup (mem (clear_fresh n v (4096 * k))) = sup (mem v) /\ forall j, 0x80000 <= j -> pte (mem (clear_fresh n v (4096 * k))) j = pte (mem v) j.
Proof.
  induction n as [| n IH]; intros v k Hk Hn; [done |]. cbn [clear_fresh]. rewrite add32_page by lia.
  destruct (IH (clear_fresh_page v (4096 * k)) (k + 1) ltac:(lia) ltac:(lia)) as [E1 E2]. unfold clear_fresh_page in *. rewrite NXV_PTE_page in *.
  destruct (BooleanFlagOn _ _); [| done]. split; [by rewrite E1 |]. intros j Hj. rewrite E2 by done. cbn [mem with_mem].
  transitivity (if decide (k = j) then Z.land (pte (mem v) k) (not32 NXV_PTE_FRESH) else pte (mem v) j); [unfold pte at 1; apply rd_insert |].
  by rewrite decide_False by lia.
Qed.

Lemma commit_range_stocked z v lo hi b LO HI : title_ok (mem v) ∅ -> counted v -> bits_ok b -> 0x10 <= LO -> LO <= lo -> lo <= hi -> hi <= HI -> HI <= 0x7FFE0 ->
  stocked (mem v) LO HI -> exists v', NxvCommitRange v (4096 * lo) (4096 * hi) b z = Some (STATUS_SUCCESS, v') /\ stocked (mem v') LO HI.
Proof.
  intros T C Hb HL H1 H2 H3 HH S. destruct (commit_range_spec z v lo hi b T C Hb ltac:(lia) ltac:(lia)) as (s & v' & E & G & _ & _ & HS).
  assert (G0 : progress z (mem v) (mem v) ∅ lo hi) by (by apply progress_refl).
  destruct (commit_pages_stocked z (mem v) b lo hi LO HI (Z.to_nat (hi - lo)) Hb HL HH H1 H3 v ∅ lo G0 ltac:(lia) ltac:(lia) ltac:(set_solver) S) as (Va & v1 & E1 & S1).
  unfold NxvCommitRange in *. rewrite npages_page in *. rewrite E1 in *. injection E as <- <-. eexists. split; [done |].
  destruct HS as [[_ M] | [? _]]; [| done]. destruct (clear_fresh_outside (Z.to_nat (hi - lo)) v1 lo ltac:(lia) ltac:(lia)) as [X1 X2].
  apply (stocked_keep (mem v1)); [by rewrite X1 | | | done].
  - destruct (commit_pages_spec z (mem v) lo hi b (4096 * Z.of_nat (size (cset (mem v)))) (Z.to_nat (hi - lo)) Hb ltac:(lia) ltac:(lia) v ∅ lo)
      as (ok & k' & v1' & F & E1' & G1 & _ & _ & _ & _ & _ & Hok); [done | lia | lia | set_solver | intros j Hj; lia | | intros j _ H0 Hn; done |].
    { unfold charged. rewrite C. by rewrite size_empty, Z.mul_0_r, Z.add_0_r. }
    rewrite E1 in E1'. injection E1' as <- _ <-. destruct (Hok eq_refl) as [_ M1].
    intros k Hk. assert (Ht : title k) by (unfold title; lia). destruct (decide (lo <= k < hi)) as [Hr | Hr]; [destruct (M k Hr), (M1 k Hr); tauto |].
    by rewrite (pg_out _ _ _ _ _ _ G k Ht Hr), (pg_out _ _ _ _ _ _ G1 k Ht Hr).
  - intros c Hc. rewrite X2; [done |]. pose proof (Z.div_pos LO 1024 ltac:(lia)). lia.
Qed.

