(* ===== verification/VmRegions.v ===== *)
(** The reservation list of the title virtual-memory manager
    ([ntoskrnl/xb/mm/vm.c]): what a well-formed list is, and what the searches,
    the insertion and the gap search of [Vm.v] do on one. *)

From stdpp Require Import prelude gmap list numbers sets.
From Stdlib Require Import ZArith Lia.
From S2P Require Import Prelude PageSupply Paging Vm.

Local Open Scope Z_scope.

#[export] Instance region_eq_dec : EqDecision region.
Proof. solve_decision. Defined.

(** End of a region, without the machine's wrap-around. *)
Definition rend (r : region) : Z := Base r + Size r.

Definition region_ok (r : region) : Prop :=
  0 < Size r /\ Base r mod 4096 = 0 /\ Size r mod 4096 = 0.

(** Sorted by base, pairwise disjoint, page aligned, between [lo] and [hi]. *)
Fixpoint regions_ok (lo : Z) (l : list region) (hi : Z) : Prop :=
  match l with
  | [] => lo <= hi
  | r :: l' => lo <= Base r /\ region_ok r /\ regions_ok (rend r) l' hi
  end.

Fixpoint total (l : list region) : Z :=
  match l with
  | [] => 0
  | r :: l' => Size r + total l'
  end.

Definition contains (r : region) (Va : Z) : Prop := Base r <= Va < rend r.

(** [a, b) meets no region of [l]. *)
Definition clear_of (l : list region) (a b : Z) : Prop :=
  forall r, r ∈ l -> rend r <= a \/ b <= Base r.

Lemma regions_ok_le lo l hi : regions_ok lo l hi -> lo <= hi.
Proof.
  revert lo. induction l as [| r l IH]; intros lo; [done |]. intros (H1 & (H2 & _) & H3).
  apply IH in H3. unfold rend in H3. lia.
Qed.

Lemma regions_ok_weaken lo lo' l hi : lo' <= lo -> regions_ok lo l hi -> regions_ok lo' l hi.
Proof. destruct l; simpl; [lia |]. intros H (H1 & H2). split; [lia | done]. Qed.

Lemma regions_ok_weaken_hi lo l hi hi' : hi <= hi' -> regions_ok lo l hi -> regions_ok lo l hi'.
Proof.
  intros H. revert lo. induction l as [| r l IH]; intros lo; simpl; [lia |].
  intros (H1 & H2 & H3). auto.
Qed.

Lemma regions_ok_app lo l1 l2 hi : regions_ok lo (l1 ++ l2) hi <->
  exists mid, regions_ok lo l1 mid /\ regions_ok mid l2 hi.
Proof.
  revert lo. induction l1 as [| r l1 IH]; intros lo; simpl.
  - split; [intros H; exists lo; split; [lia | done] |]. intros (mid & H1 & H2).
    by apply (regions_ok_weaken mid).
  - rewrite IH. naive_solver.
Qed.

Lemma regions_ok_elem lo l hi r : regions_ok lo l hi -> r ∈ l ->
  lo <= Base r /\ rend r <= hi /\ region_ok r.
Proof.
  revert lo. induction l as [| x l IH]; intros lo; [set_solver |]. intros (H1 & H2 & H3) Hr.
  apply elem_of_cons in Hr as [-> | Hr].
  - split; [done |]. split; [by apply regions_ok_le in H3 | done].
  - destruct (IH _ H3 Hr) as (A & B & C). split; [| done]. destruct H2 as [H2 _]. unfold rend in A. lia.
Qed.

Lemma total_bound lo l hi : regions_ok lo l hi -> 0 <= total l <= hi - lo.
Proof.
  revert lo. induction l as [| r l IH]; intros lo; simpl; [lia |].
  intros (H1 & (H2 & _) & H3). apply IH in H3. unfold rend in H3. lia.
Qed.

Lemma total_app l1 l2 : total (l1 ++ l2) = total l1 + total l2.
Proof. induction l1 as [| r l IH]; simpl; lia. Qed.

(** Regions of a list inside the machine's range end where they say. *)
Lemma REnd_rend lo l hi r : regions_ok lo l hi -> 0 <= lo -> hi < 2 ^ 32 -> r ∈ l -> REnd r = rend r.
Proof.
  intros H Hlo Hhi Hr. destruct (regions_ok_elem _ _ _ _ H Hr) as (A & B & (C & _)).
  unfold REnd, rend in *. apply add32_id. lia.
Qed.

Section Lists.
Context (hi : Z) (Hhi : hi < 2 ^ 32).

Lemma find_region_spec l : forall lo' i Va, 0 <= lo' -> regions_ok lo' l hi ->
  match find_region l Va i with
  | Some (j, r) => (i <= j)%nat /\ l !! (j - i)%nat = Some r /\ contains r Va
  | None => forall r, r ∈ l -> ~ contains r Va
  end.
Proof using Hhi.
  induction l as [| x l IH]; intros lo' i Va Hlo' H; cbn [find_region]; [set_solver |].
  rewrite (REnd_rend lo' (x :: l) hi x H Hlo' Hhi) by set_solver.
  pose proof H as (H1 & (H2 & _) & H3).
  destruct (Z.ltb_spec Va (Base x)) as [Hb | Hb].
  - intros r Hr Hc. destruct (regions_ok_elem _ _ _ _ H Hr) as (A & _). unfold contains in Hc.
    apply elem_of_cons in Hr as [-> | Hr]; [lia |].
    destruct (regions_ok_elem _ _ _ _ H3 Hr) as (B & _). unfold rend in B. lia.
  - destruct (Z.ltb_spec Va (rend x)) as [He | He].
    + split; [lia |]. by rewrite Nat.sub_diag.
    + specialize (IH (rend x) (S i) Va ltac:(unfold rend; lia) H3).
      destruct (find_region l Va (S i)) as [[j r] |].
      * destruct IH as (A & B & C). split; [lia |]. split; [| done].
        replace (j - i)%nat with (S (j - S i)) by lia. done.
      * intros r [-> | Hr]%elem_of_cons; [unfold contains; lia | by apply IH].
Qed.

Lemma overlaps_region_spec l : forall lo' a b, 0 <= lo' -> regions_ok lo' l hi -> a < b ->
  if overlaps_region l a b then exists r, r ∈ l /\ Base r < b /\ a < rend r else clear_of l a b.
Proof using Hhi.
  induction l as [| x l IH]; intros lo' a b Hlo' H Hab; cbn [overlaps_region].
  { intros r Hr. set_solver. }
  rewrite (REnd_rend lo' (x :: l) hi x H Hlo' Hhi) by set_solver. pose proof H as (H1 & (H2 & _) & H3).
  destruct (Z.leb_spec b (Base x)) as [Hb | Hb].
  - intros r Hr. right. apply elem_of_cons in Hr as [-> | Hr]; [done |].
    destruct (regions_ok_elem _ _ _ _ H3 Hr) as (B & _). unfold rend in B. lia.
  - destruct (Z.ltb_spec a (rend x)) as [He | He].
    + exists x. split; [set_solver | done].
    + specialize (IH (rend x) a b ltac:(unfold rend; lia) H3 Hab).
      destruct (overlaps_region l a b).
      * destruct IH as (r & Hr & A). exists r. split; [set_solver | done].
      * intros r [-> | Hr]%elem_of_cons; [by left | by apply IH].
Qed.

End Lists.

(** Inserting a region into a gap. *)
Lemma insert_at_ok hi l r : forall lo', regions_ok lo' l hi -> region_ok r -> lo' <= Base r -> rend r <= hi ->
  clear_of l (Base r) (rend r) -> regions_ok lo' (insert_at (insert_pos l (Base r)) r l) hi.
Proof.
  unfold insert_at.
  induction l as [| x l IH]; intros lo' H Hr Hb He Hc; cbn [insert_pos].
  { simpl. done. }
  pose proof H as (H1 & H2 & H3). destruct (Z.ltb_spec (Base r) (Base x)) as [Hlt | Hge].
  - simpl. split; [done |]. split; [done |]. destruct (Hc x ltac:(set_solver)) as [Hx | Hx].
    + destruct H2 as [H2 _]. unfold rend in Hx. lia.
    + done.
  - simpl. split; [done |]. split; [done |]. apply IH; try done.
    + destruct (Hc x ltac:(set_solver)) as [Hx | Hx]; [done |].
      destruct Hr as [Hr _]. unfold rend in *. lia.
    + intros y Hy. apply Hc. set_solver.
Qed.

Lemma insert_at_elem i r l x : x ∈ insert_at i r l <-> x = r \/ x ∈ l.
Proof.
  unfold insert_at. rewrite <- (take_drop i l) at 3. rewrite !elem_of_app, elem_of_cons. tauto.
Qed.

Lemma insert_at_total i r l : total (insert_at i r l) = Size r + total l.
Proof. unfold insert_at. rewrite <- (take_drop i l) at 3. rewrite !total_app. simpl. lia. Qed.

Lemma insert_pos_le l b : (insert_pos l b <= length l)%nat.
Proof. induction l as [| x l IH]; simpl; [done |]. destruct (_ <? _); lia. Qed.

Lemma insert_pos_app l1 l2 b : (forall y, y ∈ l1 -> Base y <= b) -> (forall y, y ∈ l2 -> b < Base y) ->
  insert_pos (l1 ++ l2) b = length l1.
Proof.
  induction l1 as [| x l1 IH]; intros H1 H2; simpl.
  - destruct l2 as [| y l2]; [done |]. simpl. by rewrite (proj2 (Z.ltb_lt _ _)) by (apply H2; set_solver).
  - rewrite (proj2 (Z.ltb_ge _ _)) by (apply H1; set_solver). f_equal. apply IH; [set_solver | done].
Qed.

Lemma insert_middle {A} (l1 l2 : list A) x y : <[length l1 := y]> (l1 ++ x :: l2) = l1 ++ y :: l2.
Proof. induction l1 as [| z l1 IH]; simpl; [done | by rewrite <- IH]. Qed.

(** Undoing the insertion. *)
Lemma delete_insert_at l r : delete (insert_pos l (Base r)) (insert_at (insert_pos l (Base r)) r l) = l.
Proof.
  unfold insert_at. set (i := insert_pos l (Base r)).
  assert (Hi : (i <= length l)%nat) by apply insert_pos_le.
  assert (E : i = length (take i l)) by (rewrite length_take; lia).
  rewrite E at 1. rewrite delete_middle. apply take_drop.
Qed.

(** ** Rounding *)

Lemma round_down_pow x k : 0 <= k < 32 -> 0 <= x < 2 ^ 32 -> ROUND_DOWN x (2 ^ k) = x - x mod 2 ^ k.
Proof. apply align_down_spec. Qed.

Lemma round_down_props x k : 0 <= k < 32 -> 0 <= x < 2 ^ 32 ->
  0 <= ROUND_DOWN x (2 ^ k) <= x /\ x < ROUND_DOWN x (2 ^ k) + 2 ^ k /\ ROUND_DOWN x (2 ^ k) mod 2 ^ k = 0 /\
  forall c, c mod 2 ^ k = 0 -> c <= x -> c <= ROUND_DOWN x (2 ^ k).
Proof.
  intros Hk Hx. destruct (align_down_props x k Hk Hx) as (A & B & C).
  split; [exact A |]. split; [| split; [exact B | exact C]].
  rewrite round_down_pow by done. pose proof (Z.mod_pos_bound x (2 ^ k) ltac:(apply Z.pow_pos_nonneg; lia)). lia.
Qed.

Lemma round_up_props x k : 0 <= k < 32 -> 0 <= x -> x + 2 ^ k <= 2 ^ 32 ->
  x <= ROUND_UP x (2 ^ k) < x + 2 ^ k /\ ROUND_UP x (2 ^ k) mod 2 ^ k = 0 /\
  forall c, c mod 2 ^ k = 0 -> x <= c -> ROUND_UP x (2 ^ k) <= c.
Proof.
  intros Hk Hx Hb. assert (Hp : 0 < 2 ^ k) by (apply Z.pow_pos_nonneg; lia).
  unfold ROUND_UP.
  assert (E : sub32 (add32 x (2 ^ k)) 1 = x + 2 ^ k - 1).
  { unfold add32, sub32, u32. rewrite Zminus_mod_idemp_l. apply Z.mod_small. lia. }
  rewrite E. destruct (round_down_props (x + 2 ^ k - 1) k Hk ltac:(lia)) as (A & B & C & D).
  split; [lia |]. split; [done |]. intros c Hc Hxc.
  destruct (Z.le_gt_cases (ROUND_DOWN (x + 2 ^ k - 1) (2 ^ k)) c) as [? | Hgt]; [done |]. exfalso.
  set (r := ROUND_DOWN (x + 2 ^ k - 1) (2 ^ k)) in *.
  pose proof (mult_gap c r (2 ^ k) Hp Hc C Hgt). lia.
Qed.

(** ** The gap search *)

Lemma regions_unique hi x y Va : forall l lo, regions_ok lo l hi -> x ∈ l -> y ∈ l -> contains x Va -> contains y Va -> x = y.
Proof.
  induction l as [| r l IH]; intros lo; [intros _ Hx; by apply not_elem_of_nil in Hx |]. intros (_ & _ & Hl) Hx Hy Cx Cy. unfold contains in *.
  apply elem_of_cons in Hx as [-> | Hx]; apply elem_of_cons in Hy as [-> | Hy]; [done | | |].
  - destruct (regions_ok_elem _ _ _ _ Hl Hy). lia.
  - destruct (regions_ok_elem _ _ _ _ Hl Hx). lia.
  - by apply (IH (rend r)).
Qed.

(** A 64 KiB-aligned range of the title space that meets no region. *)
Definition gap (l : list region) (size c : Z) : Prop :=
  NXV_LOWEST <= c /\ c + size <= NXV_HIGHEST /\ c mod NXV_GRANULARITY = 0 /\ clear_of l c (c + size).

Lemma gran_pow : NXV_GRANULARITY = 2 ^ 16.
Proof. done. Qed.

Lemma gap_up_spec size : 0 < size <= 0x7FFD0000 -> forall l lo c,
  regions_ok lo l NXV_HIGHEST -> 0 <= lo <= c -> NXV_LOWEST <= c <= 2 ^ 31 -> c mod NXV_GRANULARITY = 0 ->
  let r := gap_up l size c in
  (r = 0 /\ forall d, c <= d -> ~ gap l size d) \/
  (c <= r /\ gap l size r /\ forall d, c <= d -> gap l size d -> r <= d).
Proof.
  intros Hs. induction l as [| x l IH]; intros lo c H Hlo Hc Hm; cbn [gap_up].
  - unfold NXV_LOWEST, NXV_HIGHEST in *. rewrite add32_id by lia.
    destruct (Z.leb_spec (c + size) 2147352576) as [Hf | Hf].
    + right. split; [lia |]. split; [| intros; lia].
      unfold gap, NXV_LOWEST, NXV_HIGHEST. split; [lia |]. split; [lia |]. split; [done |].
      intros y Hy. set_solver.
    + left. split; [done |]. intros d Hd (G1 & G2 & _). unfold NXV_HIGHEST in G2. lia.
  - pose proof H as (H1 & (H2 & H2' & H2'') & H3).
    pose proof (regions_ok_le _ _ _ H3) as He. unfold NXV_HIGHEST in He.
    rewrite (REnd_rend lo (x :: l) NXV_HIGHEST x H) by (done || lia || set_solver).
    assert (Hre : Base x < rend x) by (unfold rend; lia).
    assert (Later : forall y, y ∈ l -> rend x <= Base y)
      by (intros y Hy; by destruct (regions_ok_elem _ _ _ _ H3 Hy)).
    destruct ((c <=? Base x) && (size <=? sub32 (Base x) c)) eqn:E.
    + apply andb_true_iff in E as [E1 E2]. rewrite sub32_id in E2 by lia.
      right. split; [lia |]. split; [| intros; lia].
      split; [lia |]. split; [unfold NXV_HIGHEST; lia |]. split; [done |].
      intros y [-> | Hy]%elem_of_cons; [right; lia | right; pose proof (Later y Hy); lia].
    + assert (Hfit : ~ (c + size <= Base x)) by (intros ?; rewrite sub32_id in E by lia; lia).
      set (c' := if c <? rend x then ROUND_UP (rend x) NXV_GRANULARITY else c).
      assert (Hc' : c <= c' /\ rend x <= c' <= 2 ^ 31 /\ c' mod NXV_GRANULARITY = 0 /\
        forall d, d mod NXV_GRANULARITY = 0 -> c <= d -> rend x <= d -> c' <= d).
      { subst c'. rewrite gran_pow in *. destruct (Z.ltb_spec c (rend x)) as [Hl | Hl].
        - destruct (round_up_props (rend x) 16) as (A & B & C); [lia | lia | lia |].
          split; [lia |]. split; [split; [lia |] |].
          + pose proof (C (2 ^ 31) eq_refl ltac:(lia)). lia.
          + split; [done |]. intros; by apply C.
        - repeat split; try done; try lia. }
      destruct Hc' as (C1 & C2 & C3 & C4).
      destruct (IH (rend x) c' H3 ltac:(lia) ltac:(lia) C3) as [[-> Hn] | (R1 & R2 & R3)]; [left | right].
      * split; [done |]. intros d Hd G. apply (Hn d); [| by destruct G as (G1 & G2 & G3 & G4);
          repeat split; try done; intros y Hy; apply G4; set_solver].
        destruct G as (G1 & G2 & G3 & G4). apply C4; [done | done |].
        destruct (G4 x ltac:(set_solver)) as [? | ?]; [done | lia].
      * split; [lia |]. split.
        -- destruct R2 as (G1 & G2 & G3 & G4). repeat split; try done.
           intros y [-> | Hy]%elem_of_cons; [left; lia | by apply G4].
        -- intros d Hd G. apply R3; [| by destruct G as (G1 & G2 & G3 & G4);
             repeat split; try done; intros y Hy; apply G4; set_solver].
           destruct G as (G1 & G2 & G3 & G4). apply C4; [done | done |].
           destruct (G4 x ltac:(set_solver)) as [? | ?]; [done | lia].
Qed.

(** Downwards, over the list from its end. *)
Lemma gap_down_spec size : 0 < size <= 0x7FFD0000 -> forall l top c,
  regions_ok NXV_LOWEST (rev l) top -> top <= NXV_HIGHEST -> 0 <= c -> c mod NXV_GRANULARITY = 0 ->
  c + size <= top -> (forall d, d mod NXV_GRANULARITY = 0 -> d + size <= top -> d <= c) ->
  let r := gap_down l size c in
  (r = 0 /\ forall d, d <= c -> ~ gap l size d) \/
  (r <= c /\ gap l size r /\ forall d, d <= c -> gap l size d -> d <= r).
Proof.
  intros Hs. unfold NXV_HIGHEST. induction l as [| x l IH]; intros top c H Htop Hc Hm Hch Hmax; cbn [gap_down].
  - destruct (Z.leb_spec NXV_LOWEST c) as [Hl | Hl].
    + right. split; [lia |]. split; [| intros; lia]. split; [done |]. split; [unfold NXV_HIGHEST; lia |].
      split; [done |]. intros y Hy. set_solver.
    + left. split; [done |]. intros d Hd (G1 & _). lia.
  - simpl rev in H. pose proof H as (mid & Hpre & (Hmx & (Hx & Hxb & Hxs) & Htx))%regions_ok_app.
    assert (Htx' : rend x <= top) by exact Htx.
    assert (Ex : REnd x = rend x).
    { apply (REnd_rend NXV_LOWEST (rev l ++ [x]) top); [done | unfold NXV_LOWEST; lia | lia | set_solver]. }
    assert (Hbx : NXV_LOWEST <= Base x) by (apply regions_ok_le in Hpre; lia).
    assert (Earlier : forall y, y ∈ l -> rend y <= Base x).
    { intros y Hy. destruct (regions_ok_elem _ _ _ y Hpre) as (_ & ? & _); [| lia].
      by apply elem_of_rev. }
    rewrite Ex. assert (Hrx : Base x < rend x) by (unfold rend; lia).
    unfold NXV_LOWEST in Hbx.
    destruct (Z.leb_spec (rend x) c) as [Hle | Hgt].
    + destruct (Z.leb_spec NXV_LOWEST c) as [Hl | Hl]; [| unfold NXV_LOWEST in Hl; lia].
      right. split; [lia |]. split; [| intros; lia]. split; [done |]. split; [unfold NXV_HIGHEST; lia |].
      split; [done |]. intros y [-> | Hy]%elem_of_cons; [left; lia | left; pose proof (Earlier y Hy); lia].
    + assert (Ea : add32 size NXV_LOWEST = size + 65536) by (apply add32_id; unfold NXV_LOWEST; lia).
      rewrite Ea.
      assert (Sub : forall d, d <= c -> gap (x :: l) size d -> gap l size d /\ d + size <= Base x).
      { intros d Hd (G1 & G2 & G3 & G4). split.
        - split; [done |]. split; [done |]. split; [done |]. intros y Hy. apply G4. set_solver.
        - destruct (G4 x ltac:(set_solver)); [lia | done]. }
      destruct (Z.ltb_spec (Base x) (size + 65536)) as [Hs' | Hs'].
      { left. split; [done |]. intros d Hd G. destruct (Sub d Hd G) as [(G1 & _) ?].
        unfold NXV_LOWEST in G1. lia. }
      rewrite sub32_id by lia. rewrite gran_pow in *.
      destruct (round_down_props (Base x - size) 16) as (A & B & C & D); [lia | lia |].
      set (c' := ROUND_DOWN (Base x - size) (2 ^ 16)) in *.
      destruct (IH (Base x) c') as [[-> Hn] | (R1 & R2 & R3)];
        [by apply (regions_ok_weaken_hi _ _ mid) | lia | lia | done | lia |
         intros d Hd1 Hd2; apply D; [done | lia] | left | right].
      * split; [done |]. intros d Hd G. destruct (Sub d Hd G) as [G' Hdb]. apply (Hn d); [| done].
        apply D; [by destruct G as (_ & _ & ? & _) | lia].
      * split; [apply Hmax; [exact (proj1 (proj2 (proj2 R2))) | lia] |]. split.
        -- destruct R2 as (G1 & G2 & G3 & G4). split; [done |]. split; [done |]. split; [done |].
           intros y [-> | Hy]%elem_of_cons; [right; lia | by apply G4].
        -- intros d Hd G. destruct (Sub d Hd G) as [G' Hdb]. apply R3; [| done].
           apply D; [by destruct G as (_ & _ & ? & _) | lia].
Qed.

Lemma gap_perm l l' size c : (forall r, r ∈ l <-> r ∈ l') -> gap l size c <-> gap l' size c.
Proof. intros H. unfold gap, clear_of. split; intros (A & B & C & D); repeat split; try done; intros r Hr; apply D; by apply H. Qed.

(** [NxvFindGap] finds a gap if there is one: the lowest, or from the top the
    highest. *)
Lemma find_gap_spec v size (TopDown : bool) : regions_ok NXV_LOWEST (NxvRegionList v) NXV_HIGHEST ->
  0 < size <= 0x7FFD0000 ->
  let r := NxvFindGap v size TopDown in
  (r = 0 /\ forall d, ~ gap (NxvRegionList v) size d) \/
  (gap (NxvRegionList v) size r /\
   forall d, gap (NxvRegionList v) size d -> if TopDown then d <= r else r <= d).
Proof.
  intros H Hs. unfold NxvFindGap. destruct TopDown; cbn [negb].
  - set (l := NxvRegionList v) in *.
    assert (P : forall r, r ∈ rev l <-> r ∈ l)
      by (intros r; apply elem_of_rev).
    assert (Eh : sub32 NXV_HIGHEST size = 0x7FFE0000 - size) by (apply sub32_id; unfold NXV_HIGHEST; lia).
    rewrite Eh, gran_pow.
    destruct (round_down_props (0x7FFE0000 - size) 16) as (A & B & C & D); [lia | lia |].
    destruct (gap_down_spec size Hs (rev l) NXV_HIGHEST (ROUND_DOWN (0x7FFE0000 - size) (2 ^ 16)))
      as [[-> Hn] | (R1 & R2 & R3)]; [by rewrite rev_involutive | done | lia | done |
        unfold NXV_HIGHEST; lia | unfold NXV_HIGHEST; intros d Hd1 Hd2; apply D; [done | lia] | left | right].
    + split; [done |]. intros d G. apply (Hn d); [| by apply (gap_perm (rev l) l)].
      destruct G as (_ & G2 & G3 & _). apply D; [done | unfold NXV_HIGHEST in G2; lia].
    + split; [by apply (gap_perm (rev l) l) |]. intros d G. apply R3; [| by apply (gap_perm (rev l) l)].
      destruct G as (_ & G2 & G3 & _). apply D; [done | unfold NXV_HIGHEST in G2; lia].
  - destruct (gap_up_spec size Hs (NxvRegionList v) NXV_LOWEST NXV_LOWEST) as [[-> Hn] | (R1 & R2 & R3)];
      [done | unfold NXV_LOWEST; lia | unfold NXV_LOWEST; lia | done | left | right].
    + split; [done |]. intros d G. apply (Hn d); [by destruct G | done].
    + split; [done |]. intros d G. apply R3; [by destruct G | done].
Qed.
