(* ===== verification/VmSpec.v ===== *)
(** What the title virtual-memory manager promises ([ntoskrnl/xb/mm/vm.c]):
    its invariant, that every call preserves it, and what each call does to the
    reservations, the committed pages and their contents. *)

From stdpp Require Import prelude gmap list numbers sets.
From Stdlib Require Import ZArith Lia.
From S2P Require Import Prelude PageSupply Paging Vm VmStock VmRegions.

Local Open Scope Z_scope.
Local Opaque free_set NxpUnlink cset.

Record vm_wf (v : vm) : Prop := {
  vw_title : title_ok (mem v) ∅;
  vw_counted : counted v;
  vw_regions : regions_ok NXV_LOWEST (NxvRegionList v) NXV_HIGHEST;
  vw_reserved : NxvReserved v = total (NxvRegionList v);
  vw_covered : forall k, k ∈ cset (mem v) -> exists r, r ∈ NxvRegionList v /\ contains r (4096 * k)
}.

(** Every committed page is still committed, in the same frame with the same
    contents. *)
Definition contents_kept (m m' : mm) : Prop :=
  forall k, k ∈ cset m -> k ∈ cset m' /\ pte m' k / 2 ^ 12 = pte m k / 2 ^ 12 /\
    frame_at m' (pte m k / 2 ^ 12) = frame_at m (pte m k / 2 ^ 12).

(** The pages of [a, b) are committed with the entry bits [bits]; those that
    were not committed in [m] are zero when [z] is set. *)
Definition committed_with (z : bool) (m m' : mm) (a b bits : Z) : Prop :=
  forall k, a <= 4096 * k < b -> k ∈ cset m' /\ pte m' k mod 4096 = bits /\
    (z = true -> k ∉ cset m -> frame_at m' (pte m' k / 2 ^ 12) = zero_frame).

Lemma progress_contents z m0 m F lo hi : progress z m0 m F lo hi -> contents_kept m0 m.
Proof.
  intros G k [Hk Hn]%elem_of_cset. destruct (pg_old _ _ _ _ _ _ G k Hk Hn) as (A & B & C).
  split; [by apply elem_of_cset | done].
Qed.

Lemma exact_cset z m0 m lo hi : progress z m0 m ∅ lo hi -> exact m0 m ∅ -> cset m = cset m0.
Proof. intros G E. destruct (cset_exact _ _ _ _ _ _ G E) as [-> _]. set_solver. Qed.

(** The commit of a page-aligned range of the title space. *)
Lemma commit_range_vm z v a b bits : title_ok (mem v) ∅ -> counted v -> bits_ok bits ->
  NXV_LOWEST <= a <= b -> b <= NXV_HIGHEST -> a mod 4096 = 0 -> b mod 4096 = 0 ->
  exists s v', NxvCommitRange v a b bits z = Some (s, v') /\
    title_ok (mem v') ∅ /\ counted v' /\ same_regions v v' /\ contents_kept (mem v) (mem v') /\
    (forall k, k ∈ cset (mem v') -> k ∈ cset (mem v) \/ a <= 4096 * k < b) /\
    ((s = STATUS_SUCCESS /\ committed_with z (mem v) (mem v') a b bits) \/
     (s = STATUS_NO_MEMORY /\ cset (mem v') = cset (mem v) /\ NxvCommitted v' = NxvCommitted v)).
Proof.
  intros T HC Hb Ha Hbh Ham Hbm. unfold NXV_LOWEST, NXV_HIGHEST in *.
  pose proof (Z.div_mod a 4096 ltac:(lia)) as Ea. pose proof (Z.div_mod b 4096 ltac:(lia)) as Eb.
  rewrite Ham in Ea. rewrite Hbm in Eb. set (lo := a / 4096) in *. set (hi := b / 4096) in *.
  destruct (commit_range_spec z v lo hi bits T HC Hb ltac:(lia) ltac:(lia))
    as (s & v' & E & G & S & C & HS).
  exists s, v'. rewrite Ea, Eb, !Z.add_0_r. split; [done |]. split; [apply G |]. split; [done |].
  split; [done |]. split; [by apply (progress_contents z _ _ ∅ lo hi) |]. split.
  - intros k [Hk Hn]%elem_of_cset. destruct (Z.eq_dec (pte (mem v) k) 0) as [H0 | H0].
    + right. destruct (decide (lo <= k < hi)) as [? | Ho]; [lia |].
      by rewrite (pg_out _ _ _ _ _ _ G k Hk Ho) in Hn.
    + left. by apply elem_of_cset.
  - destruct HS as [[-> M] | (-> & HE & HN)]; [left | right].
    + split; [done |]. intros k Hk. destruct (M k ltac:(lia)) as [A B].
      rewrite decide_False, Z.add_0_r in B by set_solver.
      assert (Hkt : title k) by (unfold title; lia).
      split; [by apply elem_of_cset |]. split; [done |]. intros Hz Hnc.
      apply (pg_fill _ _ _ _ _ _ G Hz k Hkt); [| done].
      destruct (Z.eq_dec (pte (mem v) k) 0); [done |]. exfalso. apply Hnc. by apply elem_of_cset.
    + split; [done |]. split; [by apply (exact_cset z _ _ lo hi) | done].
Qed.

Lemma insert_region_wf v r : vm_wf v -> region_ok r -> NXV_LOWEST <= Base r -> rend r <= NXV_HIGHEST ->
  clear_of (NxvRegionList v) (Base r) (rend r) -> vm_wf (NxvInsertRegion v r).
Proof.
  intros [T C R Rs Cv] Hr Hb He Hc. constructor; try done.
  - by apply insert_at_ok.
  - cbn [NxvReserved NxvRegionList NxvInsertRegion with_reserved with_regions].
    rewrite insert_at_total, Rs. pose proof (total_bound _ _ _ R). destruct Hr as (Hs & _).
    unfold rend, NXV_LOWEST, NXV_HIGHEST in *. rewrite add32_id; lia.
  - intros k Hk. destruct (Cv k Hk) as (x & Hx & Hcx). exists x. split; [| done].
    apply insert_at_elem. by right.
Qed.

(** Committing inside one region of the list. *)
Lemma commit_in_region v z a b bits r : vm_wf v -> bits_ok bits -> r ∈ NxvRegionList v ->
  Base r <= a <= b -> b <= rend r -> a mod 4096 = 0 -> b mod 4096 = 0 ->
  exists s v', NxvCommitRange v a b bits z = Some (s, v') /\ vm_wf v' /\
    NxvRegionList v' = NxvRegionList v /\ contents_kept (mem v) (mem v') /\
    ((s = STATUS_SUCCESS /\ committed_with z (mem v) (mem v') a b bits) \/
     (s = STATUS_NO_MEMORY /\ cset (mem v') = cset (mem v) /\ NxvCommitted v' = NxvCommitted v)).
Proof.
  intros [T C R Rs Cv] Hb Hr Ha Hbr Ham Hbm.
  destruct (regions_ok_elem _ _ _ _ R Hr) as (R1 & R2 & _).
  destruct (commit_range_vm z v a b bits T C Hb) as (s & v' & E & T' & C' & [S1 S2] & K & N & HS); [lia | lia | done | done |].
  exists s, v'. split; [done |]. split; [| done]. constructor; try done; try congruence.
  intros k Hk. rewrite S1. destruct (N k Hk) as [Hk' | Hk']; [by apply Cv |].
  exists r. split; [done |]. unfold contains. lia.
Qed.

(** ** Allocate *)

(** What an allocation call leaves behind.  [bits] are the entry bits of the
    requested protection and [z] the zero-fill flag. *)
Record alloc_post (v : vm) (inB inS bits : Z) (commit z : bool) (r : result) : Prop := {
  ap_wf : vm_wf (st r);
  ap_contents : contents_kept (mem v) (mem (st r));
  ap_result :
    (status r = STATUS_SUCCESS /\ inS <= OutSize r /\
     OutBase r mod 4096 = 0 /\ OutSize r mod 4096 = 0 /\
     (inB <> 0 -> OutBase r <= inB /\ inB + inS <= OutBase r + OutSize r) /\
     (exists x, x ∈ NxvRegionList (st r) /\ Base x <= OutBase r /\ OutBase r + OutSize r <= rend x) /\
     (commit = true ->
      committed_with z (mem v) (mem (st r)) (OutBase r) (OutBase r + OutSize r) bits) /\
     (commit = false -> mem (st r) = mem v)) \/
    (status r <> STATUS_SUCCESS /\ OutBase r = inB /\ OutSize r = inS /\
     cset (mem (st r)) = cset (mem v) /\ NxvCommitted (st r) = NxvCommitted v)
}.

Lemma contents_refl m : contents_kept m m.
Proof. intros k Hk. done. Qed.

Lemma alloc_fail v inB inS bits c z s : vm_wf v -> s <> STATUS_SUCCESS ->
  alloc_post v inB inS bits c z (Result s v inB inS).
Proof. intros W Hs. constructor; [done | apply contents_refl | right; done]. Qed.

(** A fresh reservation, committed when asked. *)
Lemma reserve_commit_spec v node base size AllocType Protect bits inB inS :
  vm_wf v -> NxvProtectToPte Protect = Some bits ->
  NXV_LOWEST <= base -> base + size <= NXV_HIGHEST -> 0 < size ->
  base mod 4096 = 0 -> size mod 4096 = 0 -> clear_of (NxvRegionList v) base (base + size) ->
  0 <= inS <= size -> (inB <> 0 -> base <= inB /\ inB + inS <= base + size) ->
  exists r, reserve_commit v node base size AllocType Protect bits inB inS = Some r /\
    alloc_post v inB inS bits (BooleanFlagOn AllocType MEM_COMMIT) (zero_fill AllocType) r /\
    (status r <> STATUS_SUCCESS -> NxvRegionList (st r) = NxvRegionList v /\ NxvReserved (st r) = NxvReserved v) /\
    (status r = STATUS_SUCCESS -> OutBase r = base /\ OutSize r = size /\
       forall x, x ∈ NxvRegionList (st r) <-> x = Region base size Protect \/ x ∈ NxvRegionList v).
Proof.
  intros W HP Hb He Hs Hbm Hsm Hc HS HB. pose proof (protect_bits_ok _ _ HP) as Hbits.
  unfold reserve_commit, NxvAllocRegion.
  destruct node; [| eexists; split; [done |]; split; [by apply alloc_fail |]; split; [done | discriminate]].
  set (x := Region base size Protect). set (v1 := NxvInsertRegion v x).
  assert (W1 : vm_wf v1) by (apply insert_region_wf; done).
  assert (Hx : x ∈ NxvRegionList v1) by (apply insert_at_elem; by left).
  assert (Hin : exists y, y ∈ NxvRegionList v1 /\ Base y <= base /\ base + size <= rend y)
    by (exists x; split; [done |]; unfold rend; simpl; lia).
  assert (Hel : forall y, y ∈ NxvRegionList v1 <-> y = x \/ y ∈ NxvRegionList v)
    by (intros y; apply insert_at_elem).
  unfold NXV_LOWEST, NXV_HIGHEST in *. rewrite add32_id by lia.
  destruct (BooleanFlagOn AllocType MEM_COMMIT) eqn:Ec.
  - destruct (commit_in_region v1 (zero_fill AllocType) base (base + size) bits x W1 Hbits Hx)
      as (s & v2 & -> & W2 & L2 & K2 & HR); [simpl; lia | unfold rend; simpl; lia | done | |].
    { rewrite Z.add_mod, Hbm, Hsm by lia. done. }
    destruct HR as [[-> M] | (-> & HC & HN)].
    + cbn [negb NT_SUCCESS]. change (NT_SUCCESS STATUS_SUCCESS) with true. cbn [negb].
      eexists. split; [done |]. split; [| split; [done | intros _; cbn [st OutBase OutSize]; rewrite L2; done]].
      constructor; cbn [st status OutBase OutSize]; [done | done |].
      left. split; [done |]. split; [lia |]. split; [done |]. split; [done |]. split; [done |].
      split; [rewrite L2; done |]. done.
    + change (NT_SUCCESS STATUS_NO_MEMORY) with false. cbn [negb].
      set (v3 := undo_insert v2 _ _).
      assert (L3 : NxvRegionList v3 = NxvRegionList v).
      { unfold v3, undo_insert. cbn [NxvRegionList with_reserved with_regions]. rewrite L2.
        apply (delete_insert_at (NxvRegionList v) x). }
      assert (R3 : NxvReserved v3 = NxvReserved v).
      { unfold v3, undo_insert. cbn [NxvReserved with_reserved]. rewrite (vw_reserved _ W2), L2.
        unfold v1. cbn [NxvRegionList NxvInsertRegion with_reserved with_regions].
        rewrite insert_at_total, (vw_reserved _ W). pose proof (total_bound _ _ _ (vw_regions _ W)).
        unfold NXV_LOWEST, NXV_HIGHEST in *. cbn [Size x]. rewrite sub32_id; lia. }
      assert (W3 : vm_wf v3).
      { destruct W as [T C R Rs Cv]. constructor.
        - apply W2.
        - apply W2.
        - by rewrite L3.
        - by rewrite R3, L3.
        - intros k Hk. rewrite L3. apply Cv. change (cset (mem v1)) with (cset (mem v)) in HC.
          rewrite <- HC. exact Hk. }
      eexists. split; [done |]. split; [| split; [done | discriminate]].
      constructor; cbn [st status OutBase OutSize]; [done | done | right; done].
  - eexists. split; [done |]. split; [| split; [done | done]].
    constructor; cbn [st status OutBase OutSize]; [done | apply contents_refl |].
    left. repeat (split; [done || lia |]). done.
Qed.

(** The requests whose range fits the title space. *)
Definition alloc_fits (inB inS : Z) : Prop :=
  0 <= inB /\ 0 <= inS /\
  (inB = 0 -> inS <= NXV_HIGHEST - NXV_LOWEST) /\ (inB <> 0 -> inB + inS <= NXV_HIGHEST).

Lemma round_page_up x : 0 <= x <= NXV_HIGHEST ->
  x <= ROUND_UP x PAGE_SIZE <= NXV_HIGHEST /\ ROUND_UP x PAGE_SIZE mod 4096 = 0.
Proof.
  intros Hx. unfold NXV_HIGHEST in *. change PAGE_SIZE with (2 ^ 12).
  destruct (round_up_props x 12) as (A & B & C); [lia | lia | lia |].
  pose proof (C 0x7FFE0000 eq_refl ltac:(lia)). split; [lia | done].
Qed.

Lemma round_page_down x : 0 <= x < 2 ^ 32 ->
  0 <= ROUND_DOWN x PAGE_SIZE <= x /\ x < ROUND_DOWN x PAGE_SIZE + 4096 /\ ROUND_DOWN x PAGE_SIZE mod 4096 = 0 /\
  forall c, c mod 4096 = 0 -> c <= x -> c <= ROUND_DOWN x PAGE_SIZE.
Proof. intros Hx. change PAGE_SIZE with (2 ^ 12). apply (round_down_props x 12); lia. Qed.

Lemma round_gran_down x : NXV_LOWEST <= x < 2 ^ 32 ->
  NXV_LOWEST <= ROUND_DOWN x NXV_GRANULARITY <= x /\ ROUND_DOWN x NXV_GRANULARITY mod 4096 = 0.
Proof.
  intros Hx. rewrite gran_pow. unfold NXV_LOWEST in *.
  destruct (round_down_props x 16) as (A & B & C & D); [lia | lia |].
  split; [split; [apply D; [done | lia] | lia] |].
  apply Z.mod_divide; [lia |]. apply Z.mod_divide in C; [| lia].
  apply Z.divide_trans with (2 ^ 16); [by exists 16 | done].
Qed.

Lemma sub_mod_page a b : a mod 4096 = 0 -> b mod 4096 = 0 -> (a - b) mod 4096 = 0.
Proof. intros Ha Hb. by rewrite Zminus_mod, Ha, Hb. Qed.

(** Committing an explicit range in region [x] of [v1], the state after a
    possible reservation. *)
Lemma commit_explicit v v1 inB inS Start End bits z x : vm_wf v1 -> bits_ok bits -> mem v1 = mem v ->
  NxvCommitted v1 = NxvCommitted v -> x ∈ NxvRegionList v1 ->
  Base x <= Start -> Start <= inB -> inB + inS <= End -> 0 <= inS -> End <= rend x ->
  Start mod 4096 = 0 -> End mod 4096 = 0 ->
  exists r,
    match NxvCommitRange v1 Start End bits z with
    | None => None
    | Some (Status, v2) =>
        if NT_SUCCESS Status then Some (Result Status v2 Start (sub32 End Start))
        else Some (Result Status v2 inB inS)
    end = Some r /\ alloc_post v inB inS bits true z r /\ NxvRegionList (st r) = NxvRegionList v1.
Proof.
  intros W Hb Hm Hcm Hx Hs1 Hs2 He1 HS He2 Hsm Hem.
  destruct (regions_ok_elem _ _ _ _ (vw_regions _ W) Hx) as (X1 & X2 & _).
  destruct (commit_in_region v1 z Start End bits x W Hb Hx) as (s & v2 & -> & W2 & L2 & K2 & HR);
    [lia | lia | done | done |].
  rewrite Hm in K2. unfold NXV_LOWEST, NXV_HIGHEST in *. destruct HR as [[-> M] | (-> & HC & HN)].
  - change (NT_SUCCESS STATUS_SUCCESS) with true. eexists. split; [done |]. split; [| done].
    rewrite sub32_id by lia. constructor; cbn [st status OutBase OutSize]; [done | done |].
    left. split; [done |]. split; [lia |]. split; [done |]. split; [by apply sub_mod_page |].
    split; [lia |]. split; [exists x; rewrite L2; split; [done | lia] |].
    replace (Start + (End - Start)) with End by lia. rewrite Hm in M. done.
  - change (NT_SUCCESS STATUS_NO_MEMORY) with false. eexists. split; [done |]. split; [| done].
    constructor; cbn [st status OutBase OutSize]; [done | done |]. right.
    rewrite <- Hm, <- Hcm. done.
Qed.

Lemma flag_lor F a b : BooleanFlagOn F (Z.lor a b) = BooleanFlagOn F a || BooleanFlagOn F b.
Proof.
  unfold BooleanFlagOn. rewrite Z.land_lor_distr_r.
  destruct (Z.eqb_spec (Z.land F a) 0) as [-> | Ha]; [by rewrite Z.lor_0_l |].
  destruct (Z.eqb_spec (Z.lor (Z.land F a) (Z.land F b)) 0) as [E | E]; [| done].
  apply Z.lor_eq_0_iff in E as [? _]. done.
Qed.

(** The outcome of a whole call. *)
Definition alloc_result (v : vm) (inB inS AllocType Protect : Z) (r : result) : Prop :=
  match NxvProtectToPte Protect with
  | None => st r = v /\ status r <> STATUS_SUCCESS
  | Some bits =>
      (BooleanFlagOn AllocType MEM_RESET = true /\ st r = v) \/
      alloc_post v inB inS bits (BooleanFlagOn AllocType MEM_COMMIT) (zero_fill AllocType) r
  end.

Lemma allocate_spec v node inB inS AllocType Protect : vm_wf v -> alloc_fits inB inS ->
  exists r, NxVmAllocateVirtualMemory v node inB inS AllocType Protect = Some r /\
    alloc_result v inB inS AllocType Protect r.
Proof.
  intros W (HB & HS & HF0 & HF1). unfold NXV_HIGHEST, NXV_LOWEST in HF0, HF1.
  unfold NxVmAllocateVirtualMemory. cbv zeta.
  set (post := alloc_result v inB inS AllocType Protect).
  assert (Fail : forall s, s <> STATUS_SUCCESS -> exists r, Some (Result s v inB inS) = Some r /\ post r).
  { intros s Hs. eexists. split; [done |]. unfold post, alloc_result. destruct (NxvProtectToPte Protect); [| done].
    right. by apply alloc_fail. }
  destruct (Z.eqb_spec inS 0) as [? | HS0]; [by apply Fail |].
  rewrite !flag_lor.
  destruct (BooleanFlagOn AllocType MEM_COMMIT || BooleanFlagOn AllocType MEM_RESERVE ||
    BooleanFlagOn AllocType MEM_RESET) eqn:Eany; cbn [negb]; [| by apply Fail].
  destruct (NxvProtectToPte Protect) as [bits |] eqn:EP; [| by apply Fail].
  pose proof (protect_bits_ok _ _ EP) as Hbits.
  destruct (BooleanFlagOn AllocType MEM_RESET) eqn:Er.
  { eexists. split; [done |]. unfold post, alloc_result. rewrite EP. by left. }
  rewrite orb_false_r in Eany.
  assert (Done : forall o, (exists r, o = Some r /\ alloc_post v inB inS bits
      (BooleanFlagOn AllocType MEM_COMMIT) (zero_fill AllocType) r) -> exists r, o = Some r /\ post r).
  { intros o (r & -> & A). exists r. split; [done |]. unfold post, alloc_result. rewrite EP. by right. }
  destruct (Z.eqb_spec inB 0) as [HB0 | HB0].
  { specialize (HF0 HB0). destruct (round_page_up inS) as [A B]; [unfold NXV_HIGHEST; lia |].
    unfold NXV_HIGHEST in A. set (size := ROUND_UP inS PAGE_SIZE) in *.
    assert (Hsz : 0 < size <= 0x7FFD0000).
    { split; [lia |]. change PAGE_SIZE with (2 ^ 12) in size.
      destruct (round_up_props inS 12) as (_ & _ & D); [lia | lia | lia |]. apply D; [done | lia]. }
    destruct (find_gap_spec v size (BooleanFlagOn AllocType MEM_TOP_DOWN) (vw_regions _ W) Hsz)
      as [[-> _] | [(G1 & G2 & G3 & G4) _]]; [by apply Fail |].
    set (Start := NxvFindGap _ _ _) in *. unfold NXV_LOWEST in G1.
    destruct (Z.eqb_spec Start 0) as [? | _]; [lia |].
    destruct (reserve_commit_spec v node Start size AllocType Protect bits inB inS W EP)
      as (r & -> & P & _); try done; try lia.
    { apply Z.mod_divide; [lia |]. apply Z.mod_divide in G3; [| done].
      apply Z.divide_trans with NXV_GRANULARITY; [by exists 16 | done]. }
    apply Done. by exists r. }
  specialize (HF1 HB0).
  destruct ((inB <? NXV_LOWEST) || (NXV_HIGHEST <=? inB)) eqn:Erange; [by apply Fail |].
  unfold NXV_LOWEST, NXV_HIGHEST in Erange.
  rewrite add32_id by lia. destruct (round_page_up (inB + inS)) as [E1 E2]; [unfold NXV_HIGHEST; lia |].
  unfold NXV_HIGHEST in E1. set (End := ROUND_UP (inB + inS) PAGE_SIZE) in *.
  destruct (BooleanFlagOn AllocType MEM_RESERVE) eqn:Eres.
  { destruct (round_gran_down inB) as [S1 S2]; [unfold NXV_LOWEST; lia |].
    set (Start := ROUND_DOWN inB NXV_GRANULARITY) in *. unfold NXV_LOWEST in S1.
    pose proof (overlaps_region_spec NXV_HIGHEST ltac:(done) (NxvRegionList v) NXV_LOWEST Start End
      ltac:(done) (vw_regions _ W) ltac:(lia)) as Ho.
    unfold NxvRangeOverlapsRegion. destruct (overlaps_region _ Start End); [by apply Fail |].
    rewrite sub32_id by lia.
    destruct (reserve_commit_spec v node Start (End - Start) AllocType Protect bits inB inS W EP)
      as (r & -> & P & _); try done; try (unfold NXV_LOWEST, NXV_HIGHEST; lia).
    - by apply sub_mod_page.
    - by replace (Start + (End - Start)) with End by lia.
    - apply Done. by exists r. }
  rewrite orb_false_r in Eany. rewrite Eany in Done.
  destruct (round_page_down inB) as (S1 & S2 & S3 & S4); [lia |].
  set (Start := ROUND_DOWN inB PAGE_SIZE) in *. pose proof (S4 65536 eq_refl ltac:(lia)) as Hst.
  pose proof (find_region_spec NXV_HIGHEST ltac:(done) (NxvRegionList v) NXV_LOWEST 0 Start ltac:(done)
    (vw_regions _ W)) as Hf.
  unfold NxvFindRegion. destruct (find_region _ Start 0) as [[i x] |].
  - destruct Hf as (_ & Hx%list_elem_of_lookup_2 & Hcx).
    rewrite (REnd_rend NXV_LOWEST (NxvRegionList v) NXV_HIGHEST x) by (done || apply W).
    destruct (Z.ltb_spec (rend x) End) as [? | Hend]; [by apply Fail |].
    destruct (commit_explicit v v inB inS Start End bits (zero_fill AllocType) x) as (r & -> & P & _);
      try done; try lia; [by destruct Hcx |]. apply Done. by exists r.
  - destruct (round_gran_down Start) as [R1 R2]; [unfold NXV_LOWEST; lia |].
    set (RStart := ROUND_DOWN Start NXV_GRANULARITY) in *. unfold NXV_LOWEST in R1.
    pose proof (overlaps_region_spec NXV_HIGHEST ltac:(done) (NxvRegionList v) NXV_LOWEST RStart End
      ltac:(done) (vw_regions _ W) ltac:(lia)) as Ho.
    unfold NxvRangeOverlapsRegion. destruct (overlaps_region _ RStart End); [by apply Fail |].
    unfold NxvAllocRegion. destruct node; [| by apply Fail]. rewrite sub32_id by lia.
    set (x := Region RStart (End - RStart) Protect).
    assert (W1 : vm_wf (NxvInsertRegion v x)).
    { apply insert_region_wf; try done.
      - unfold region_ok; simpl. split; [lia |]. split; [done | by apply sub_mod_page].
      - simpl. unfold NXV_LOWEST. lia.
      - unfold rend; simpl. unfold NXV_HIGHEST. lia.
      - unfold rend; simpl. by replace (RStart + (End - RStart)) with End by lia. }
    destruct (commit_explicit v (NxvInsertRegion v x) inB inS Start End bits (zero_fill AllocType) x)
      as (r & -> & P & _); try done; try (unfold rend; simpl; lia); [apply insert_at_elem; by left |].
    apply Done. by exists r.
Qed.

(** *** When an allocation succeeds

    There is room for a request: the pool gives a node, a gap is there or the
    range is clear or in a region, and the frames suffice for what is to be
    committed. *)
Definition room (v : vm) (inB inS AllocType : Z) : Prop :=
  let commit := BooleanFlagOn AllocType MEM_COMMIT in
  let l := NxvRegionList v in
  0 < inS /\ commit || BooleanFlagOn AllocType MEM_RESERVE = true /\
  if inB =? 0 then
    let size := ROUND_UP inS PAGE_SIZE in
    (exists d, gap l size d) /\ (commit = true -> forall d, gap l size d -> stocked (mem v) (d / 4096) ((d + size) / 4096))
  else
    let Start := ROUND_DOWN inB NXV_GRANULARITY in
    let End := ROUND_UP (inB + inS) PAGE_SIZE in
    NXV_LOWEST <= inB /\ (commit = true -> stocked (mem v) (Start / 4096) (End / 4096)) /\
    (clear_of l Start End \/ BooleanFlagOn AllocType MEM_RESERVE = false /\ exists x, x ∈ l /\ Base x <= inB /\ End <= rend x).

Lemma commit_bytes_stocked z v a b bits LO HI : title_ok (mem v) ∅ -> counted v -> bits_ok bits -> a mod 4096 = 0 -> b mod 4096 = 0 ->
  NXV_LOWEST <= LO -> LO <= a -> a <= b -> b <= HI -> HI <= NXV_HIGHEST -> LO mod 4096 = 0 -> HI mod 4096 = 0 -> stocked (mem v) (LO / 4096) (HI / 4096) ->
  exists v', NxvCommitRange v a b bits z = Some (STATUS_SUCCESS, v').
Proof.
  intros T C Hb Ha Hb' H1 H2 H3 H4 H5 HL HH S. unfold NXV_LOWEST, NXV_HIGHEST in *.
  pose proof (Z.div_mod a 4096 ltac:(lia)). pose proof (Z.div_mod b 4096 ltac:(lia)). pose proof (Z.div_mod LO 4096 ltac:(lia)). pose proof (Z.div_mod HI 4096 ltac:(lia)).
  destruct (commit_range_stocked z v (a / 4096) (b / 4096) bits (LO / 4096) (HI / 4096) T C Hb) as (v' & E & _); [lia | lia | lia | lia | lia | done |].
  exists v'. rewrite <- E. f_equal; lia.
Qed.

Lemma reserve_commit_ok v base size AllocType Protect bits inB inS : vm_wf v -> bits_ok bits -> NXV_LOWEST <= base -> base + size <= NXV_HIGHEST -> 0 < size ->
  base mod 4096 = 0 -> size mod 4096 = 0 -> (BooleanFlagOn AllocType MEM_COMMIT = true -> stocked (mem v) (base / 4096) ((base + size) / 4096)) ->
  exists r, reserve_commit v true base size AllocType Protect bits inB inS = Some r /\ status r = STATUS_SUCCESS.
Proof.
  intros [T C _ _ _] Hb H1 H2 H3 Hm Hs S. unfold reserve_commit, NxvAllocRegion. destruct (BooleanFlagOn AllocType MEM_COMMIT); [| by eexists].
  assert (Em : (base + size) mod 4096 = 0) by (by rewrite Z.add_mod, Hm, Hs by lia).
  rewrite add32_id by (unfold NXV_LOWEST, NXV_HIGHEST in *; lia).
  destruct (commit_bytes_stocked (zero_fill AllocType) (NxvInsertRegion v (Region base size Protect)) base (base + size) bits base (base + size)) as (v' & ->); try done; try lia; [by apply S |].
  by eexists.
Qed.

Lemma round_gran_page x : 0 <= x < 2 ^ 32 -> ROUND_DOWN (ROUND_DOWN x PAGE_SIZE) NXV_GRANULARITY = ROUND_DOWN x NXV_GRANULARITY.
Proof.
  intros Hx. change PAGE_SIZE with (2 ^ 12). destruct (round_down_props x 12) as (A & _); [lia | lia |].
  rewrite gran_pow, !round_down_pow in * by lia. change (2 ^ 12) with 4096 in *. change (2 ^ 16) with 65536.
  pose proof (Z.div_mod x 4096 ltac:(lia)). pose proof (Z.mod_pos_bound x 4096 ltac:(lia)). pose proof (Z.div_mod x 65536 ltac:(lia)). pose proof (Z.mod_pos_bound x 65536 ltac:(lia)).
  assert (x / 4096 / 16 = x / 65536) by (by rewrite Z.div_div by lia). pose proof (Z.div_mod (x / 4096) 16 ltac:(lia)). pose proof (Z.mod_pos_bound (x / 4096) 16 ltac:(lia)).
  assert ((x - x mod 4096) mod 65536 = x mod 65536 - x mod 4096) by (symmetry; apply (Z.mod_unique _ _ (x / 65536)); lia). lia.
Qed.

Lemma allocate_ok v inB inS AllocType Protect bits : vm_wf v -> alloc_fits inB inS -> NxvProtectToPte Protect = Some bits -> room v inB inS AllocType ->
  exists r, NxVmAllocateVirtualMemory v true inB inS AllocType Protect = Some r /\ status r = STATUS_SUCCESS.
Proof.
  intros W (HB & HS & HF0 & HF1) EP (Hn & Hfl & R). pose proof (protect_bits_ok _ _ EP) as Hbits. unfold NXV_HIGHEST, NXV_LOWEST in HF0, HF1.
  unfold NxVmAllocateVirtualMemory. cbv zeta. rewrite (proj2 (Z.eqb_neq inS 0)), !flag_lor, Hfl, EP by lia. cbn [orb negb].
  destruct (BooleanFlagOn AllocType MEM_RESET); [by eexists |]. destruct (Z.eqb_spec inB 0) as [HB0 | HB0].
  { specialize (HF0 HB0). destruct R as [[d Hd] Hst]. destruct (round_page_up inS) as [A B]; [unfold NXV_HIGHEST; lia |]. unfold NXV_HIGHEST in A. set (size := ROUND_UP inS PAGE_SIZE) in *.
    assert (Hsz : 0 < size <= 0x7FFD0000).
    { split; [lia |]. change PAGE_SIZE with (2 ^ 12) in size. destruct (round_up_props inS 12) as (_ & _ & D); [lia | lia | lia |]. apply D; [done | lia]. }
    destruct (find_gap_spec v size (BooleanFlagOn AllocType MEM_TOP_DOWN) (vw_regions _ W) Hsz) as [[_ Hno] | [G _]]; [by destruct (Hno d) |].
    set (Start := NxvFindGap _ _ _) in *. pose proof G as (G1 & G2 & G3 & G4). destruct (Z.eqb_spec Start 0) as [? | _]; [unfold NXV_LOWEST in G1; lia |].
    apply reserve_commit_ok; try done; [lia | | intros Hc; by apply Hst].
    apply Z.mod_divide; [lia |]. apply Z.mod_divide in G3; [| done]. apply Z.divide_trans with NXV_GRANULARITY; [by exists 16 | done]. }
  specialize (HF1 HB0). destruct R as (R1 & Hst & R2). unfold NXV_LOWEST in R1. unfold NXV_LOWEST, NXV_HIGHEST.
  rewrite (proj2 (Z.ltb_ge inB _)), (proj2 (Z.leb_gt _ inB)) by lia. cbn [orb].
  rewrite add32_id by lia. destruct (round_page_up (inB + inS)) as [E1 E2]; [unfold NXV_HIGHEST; lia |]. unfold NXV_HIGHEST in E1. set (End := ROUND_UP (inB + inS) PAGE_SIZE) in *.
  destruct (round_gran_down inB) as [S1 S2]; [unfold NXV_LOWEST; lia |]. set (Start := ROUND_DOWN inB NXV_GRANULARITY) in *. unfold NXV_LOWEST in S1.
  pose proof (overlaps_region_spec NXV_HIGHEST ltac:(done) (NxvRegionList v) NXV_LOWEST Start End ltac:(done) (vw_regions _ W) ltac:(lia)) as Ho.
  destruct (BooleanFlagOn AllocType MEM_RESERVE) eqn:Eres.
  { destruct R2 as [Hc | [? _]]; [| done]. unfold NxvRangeOverlapsRegion. destruct (overlaps_region _ Start End); [exfalso; destruct Ho as (r & Hr & ? & ?); destruct (Hc r Hr); lia |]. rewrite sub32_id by lia.
    apply reserve_commit_ok; try done; try (unfold NXV_LOWEST, NXV_HIGHEST; lia); [by apply sub_mod_page |]. by replace (Start + (End - Start)) with End by lia. }
  rewrite orb_false_r in Hfl. specialize (Hst Hfl). destruct (round_page_down inB) as (P1 & P2 & P3 & P4); [lia |]. set (Page := ROUND_DOWN inB PAGE_SIZE) in *.
  pose proof (P4 Start S2 ltac:(lia)) as Hsp. pose proof W as [T C _ _ _].
  pose proof (find_region_spec NXV_HIGHEST ltac:(done) (NxvRegionList v) NXV_LOWEST 0 Page ltac:(done) (vw_regions _ W)) as Hf.
  unfold NxvFindRegion. destruct (find_region _ Page 0) as [[i x] |].
  - destruct Hf as (_ & Hx%list_elem_of_lookup_2 & Hcx). destruct R2 as [Hc | (_ & y & Hy & Hy1 & Hy2)]; [destruct (Hc x Hx); unfold contains in Hcx; lia |].
    assert (x = y) as ->.
    { destruct (regions_ok_elem _ _ _ _ (vw_regions _ W) Hy) as (_ & _ & (_ & Hym & _)). pose proof (P4 (Base y) Hym Hy1).
      apply (regions_unique NXV_HIGHEST x y Page (NxvRegionList v) NXV_LOWEST (vw_regions _ W)); (done || unfold contains; lia). }
    rewrite (REnd_rend NXV_LOWEST (NxvRegionList v) NXV_HIGHEST y), (proj2 (Z.ltb_ge (rend y) End)) by (done || apply W).
    destruct (commit_bytes_stocked (zero_fill AllocType) v Page End bits Start End) as (v' & ->); try done; try (unfold NXV_LOWEST, NXV_HIGHEST; lia). by eexists.
  - assert (Hc : clear_of (NxvRegionList v) Start End).
    { destruct R2 as [? | (_ & y & Hy & Hy1 & Hy2)]; [done |]. destruct (regions_ok_elem _ _ _ _ (vw_regions _ W) Hy) as (_ & _ & (_ & Hym & _)).
      pose proof (P4 (Base y) Hym Hy1). destruct (Hf y Hy). unfold contains. lia. }
    assert (ROUND_DOWN Page NXV_GRANULARITY = Start) as -> by (apply round_gran_page; lia).
    unfold NxvRangeOverlapsRegion. destruct (overlaps_region _ Start End); [exfalso; destruct Ho as (r & Hr & ? & ?); destruct (Hc r Hr); lia |].
    unfold NxvAllocRegion. rewrite sub32_id by lia.
    destruct (commit_bytes_stocked (zero_fill AllocType) (NxvInsertRegion v (Region Start (End - Start) Protect)) Page End bits Start End) as (v' & ->);
      try done; try (unfold NXV_LOWEST, NXV_HIGHEST; lia). by eexists.
Qed.

(** ** Free *)

Definition reserved_at (l : list region) (Va : Z) : Prop := exists r, r ∈ l /\ contains r Va.

(** The list after a carve: the same addresses reserved, less [a, b). *)
Definition carved (l l' : list region) (a b : Z) : Prop :=
  forall Va, reserved_at l' Va <-> reserved_at l Va /\ ~ (a <= Va < b).

(** Replacing region [x] by the regions [xs] inside it. *)
Lemma replace_region_ok lo l1 x xs l2 hi : regions_ok lo (l1 ++ x :: l2) hi ->
  regions_ok (Base x) xs (rend x) -> regions_ok lo (l1 ++ xs ++ l2) hi.
Proof.
  rewrite regions_ok_app. intros (mid & H1 & (H2 & H3 & H4)) Hx.
  apply regions_ok_app. exists mid. split; [done |]. apply regions_ok_app. exists (rend x).
  split; [by apply (regions_ok_weaken (Base x)) | done].
Qed.

Lemma replace_region_carved l1 x xs l2 lo hi a b : regions_ok lo (l1 ++ x :: l2) hi ->
  Base x <= a -> b <= rend x ->
  (forall Va, (exists y, y ∈ xs /\ contains y Va) <-> contains x Va /\ ~ (a <= Va < b)) ->
  carved (l1 ++ x :: l2) (l1 ++ xs ++ l2) a b.
Proof.
  intros H Ha Hb Hx Va. pose proof H as (mid & H1 & (H2 & H3 & H4))%regions_ok_app.
  assert (Out : forall y, y ∈ l1 ++ l2 -> contains y Va -> ~ (a <= Va < b)).
  { intros y [Hy | Hy]%elem_of_app Hc Hab; unfold contains in *.
    - destruct (regions_ok_elem _ _ _ _ H1 Hy) as (_ & ? & _). lia.
    - destruct (regions_ok_elem _ _ _ _ H4 Hy) as (? & _ & _). lia. }
  unfold reserved_at. split.
  - intros (y & Hy & Hc). rewrite !elem_of_app in Hy. destruct (decide (y ∈ xs)) as [Hin | Hout].
    + destruct (proj1 (Hx Va) (ex_intro _ y (conj Hin Hc))) as [Hcx Hn]. split; [| done].
      exists x. split; [set_solver | done].
    + split; [exists y; split; [set_solver | done] |]. apply (Out y); [set_solver | done].
  - intros [(y & Hy & Hc) Hn]. rewrite elem_of_app, elem_of_cons in Hy.
    destruct (decide (y = x)) as [-> | Hne].
    + destruct (proj2 (Hx Va) (conj Hc Hn)) as (z & Hz & Hcz). exists z. split; [set_solver | done].
    + exists y. split; [set_solver | done].
Qed.

(** The carve on the list: what remains of region [x]. *)
Definition remains (x : region) (a b : Z) : list region :=
  (if a =? Base x then [] else [Region (Base x) (a - Base x) (AllocProtect x)]) ++
  (if b =? rend x then [] else [Region b (rend x - b) (AllocProtect x)]).

Lemma remains_ok x a b : region_ok x -> Base x <= a < b -> b <= rend x -> a mod 4096 = 0 -> b mod 4096 = 0 ->
  regions_ok (Base x) (remains x a b) (rend x) /\
  (forall Va, (exists y, y ∈ remains x a b /\ contains y Va) <-> contains x Va /\ ~ (a <= Va < b)) /\
  total (remains x a b) = Size x - (b - a).
Proof.
  intros (Hs & Hb & Hsz) Ha Hbx Ham Hbm. unfold remains, contains.
  assert (Hm : rend x mod 4096 = 0) by (unfold rend; rewrite Z.add_mod, Hb, Hsz by lia; done).
  destruct (Z.eqb_spec a (Base x)) as [Ea | Ea], (Z.eqb_spec b (rend x)) as [Eb | Eb];
    simpl; unfold region_ok, rend in *; simpl.
  - split; [lia |]. split; [| lia]. intros Va. split; [intros (y & Hy & _); set_solver | lia].
  - split; [repeat split; try done; try lia; by apply sub_mod_page |]. split; [| lia].
    intros Va. split; [intros (y & ->%list_elem_of_singleton & Hc); simpl in Hc; lia |].
    intros H. eexists. split; [by left |]. simpl. lia.
  - split; [repeat split; try done; try lia; by apply sub_mod_page |]. split; [| lia].
    intros Va. split; [intros (y & ->%list_elem_of_singleton & Hc); simpl in Hc; lia |].
    intros H. eexists. split; [by left |]. simpl. lia.
  - split; [repeat split; try done; try lia; by apply sub_mod_page |]. split; [| lia].
    intros Va. split.
    + intros (y & [-> | ->%list_elem_of_singleton]%elem_of_cons & Hc); simpl in Hc; lia.
    + intros H. destruct (Z.lt_ge_cases Va a).
      * eexists. split; [by left |]. simpl. lia.
      * eexists. split; [right; by left |]. simpl. lia.
Qed.

Lemma carve_spec v node i x a b : vm_wf v -> NxvRegionList v !! i = Some x ->
  Base x <= a < b -> b <= rend x -> a mod 4096 = 0 -> b mod 4096 = 0 ->
  (forall k, k ∈ cset (mem v) -> ~ (a <= 4096 * k < b)) ->
  exists s v', carve v node i x a b = (s, v') /\ vm_wf v' /\ mem v' = mem v /\ NxvCommitted v' = NxvCommitted v /\
    ((s = STATUS_SUCCESS /\ carved (NxvRegionList v) (NxvRegionList v') a b /\
      NxvReserved v' = NxvReserved v - (b - a) /\ (node = true \/ a = Base x \/ b = rend x)) \/
     (s = STATUS_INSUFFICIENT_RESOURCES /\ node = false /\ a <> Base x /\ b <> rend x /\ v' = v)).
Proof.
  intros W Hi Ha Hb Ham Hbm Hcl. pose proof W as [T C R Rs Cv].
  pose proof (list_elem_of_lookup_2 _ _ _ Hi) as Hx.
  destruct (regions_ok_elem _ _ _ _ R Hx) as (X1 & X2 & X3). pose proof X3 as (X4 & _).
  pose proof (total_bound _ _ _ R) as Htot. unfold NXV_LOWEST, NXV_HIGHEST in X1, X2, Htot.
  assert (ER : REnd x = rend x) by (apply (REnd_rend NXV_LOWEST (NxvRegionList v) NXV_HIGHEST); done).
  apply list_elem_of_split_length in Hi as (l1 & l2 & El & Ei).
  destruct (remains_ok x a b X3 Ha Hb Ham Hbm) as (M1 & M2 & M3).
  set (l' := l1 ++ remains x a b ++ l2).
  rewrite El in R. pose proof (replace_region_ok _ _ _ _ _ _ R M1) as R'.
  pose proof (replace_region_carved _ _ _ _ _ _ a b R ltac:(lia) Hb M2) as CV'. fold l' in R', CV'.
  assert (T' : total l' = total (NxvRegionList v) - (b - a)).
  { unfold l'. rewrite El, !total_app. simpl. rewrite M3. lia. }
  assert (Hxt : b - a <= total (NxvRegionList v)).
  { rewrite El, total_app. simpl.
    pose proof (total_bound _ _ _ R) as Ht. rewrite El in *.
    apply regions_ok_app in R as (mid & Ra & (_ & _ & Rb)).
    pose proof (total_bound _ _ _ Ra). pose proof (total_bound _ _ _ Rb). unfold rend in *. lia. }
  assert (Goal' : forall v', mem v' = mem v -> NxvRegionList v' = l' -> NxvCommitted v' = NxvCommitted v ->
    NxvReserved v' = NxvReserved v - (b - a) -> vm_wf v' /\ carved (NxvRegionList v) (NxvRegionList v') a b).
  { intros v' E1 E2 E3 E4. split.
    - constructor; [by rewrite E1 | unfold counted in *; congruence | by rewrite E2 | congruence |].
      intros k Hk. rewrite E1 in Hk. rewrite E2. apply CV'. split; [| by apply Hcl].
      rewrite <- El. by apply Cv.
    - by rewrite E2, El. }
  unfold carve. rewrite ER. rewrite (sub32_id b a) by lia. rewrite Rs in *.
  rewrite sub32_id by lia.
  assert (El1 : forall y, <[i := y]> (NxvRegionList v) = l1 ++ y :: l2) by (intros y; rewrite El, Ei; apply insert_middle).
  assert (Eld : delete i (NxvRegionList v) = l1 ++ l2) by (rewrite El, Ei; apply delete_middle).
  unfold remains in l'. destruct (Z.eqb_spec a (Base x)) as [Ea | Ea], (Z.eqb_spec b (rend x)) as [Eb | Eb];
    cbn [andb].
  - eexists _, _. split; [done |].
    destruct (Goal' (with_regions (delete i (NxvRegionList v)) (with_reserved (total (NxvRegionList v) - (b - a)) v)))
      as [W' C']; try done.
    split; [done |]. split; [done |]. split; [done |]. left. split_and!; auto.
  - eexists _, _. split; [done |]. rewrite El1, sub32_id by (unfold rend in *; lia).
    destruct (Goal' (with_regions (l1 ++ Region b (Size x - (b - a)) (AllocProtect x) :: l2)
      (with_reserved (total (NxvRegionList v) - (b - a)) v))) as [W' C']; try done.
    { cbn [NxvRegionList with_regions]. unfold l'. cbn [app]. replace (Size x - (b - a)) with (rend x - b) by (unfold rend in *; lia). done. }
    split; [done |]. split; [done |]. split; [done |]. left. split_and!; auto.
  - eexists _, _. split; [done |]. rewrite El1, sub32_id by (unfold rend in *; lia).
    destruct (Goal' (with_regions (l1 ++ Region (Base x) (a - Base x) (AllocProtect x) :: l2)
      (with_reserved (total (NxvRegionList v) - (b - a)) v))) as [W' C']; try done.
    split; [done |]. split; [done |]. split; [done |]. left. split_and!; auto.
  - unfold NxvAllocRegion. destruct node.
    2: { eexists _, _. split; [done |]. cbn [NxvReserved with_reserved]. rewrite add32_id by lia.
      replace (total (NxvRegionList v) - (b - a) + (b - a)) with (NxvReserved v) by lia.
      assert (Ev : with_reserved (NxvReserved v) (with_reserved (total (NxvRegionList v) - (b - a)) v) = v)
        by by destruct v.
      rewrite Ev. repeat (split; [done |]). by right. }
    eexists _, _. split; [done |]. rewrite El1, (sub32_id (rend x) b), (sub32_id a (Base x)) by (unfold rend in *; lia).
    set (R1 := Region (Base x) (a - Base x) (AllocProtect x)).
    set (Tail := Region b (rend x - b) (AllocProtect x)).
    assert (Ep : insert_at (insert_pos (l1 ++ R1 :: l2) b) Tail (l1 ++ R1 :: l2) = l').
    { pose proof R as (mid & Ra & (Rm & _ & Rb))%regions_ok_app.
      replace (l1 ++ R1 :: l2) with ((l1 ++ [R1]) ++ l2) by by rewrite <- app_assoc.
      rewrite insert_pos_app.
      - unfold insert_at. rewrite take_app_length, drop_app_length. unfold l'. by rewrite <- !app_assoc.
      - intros y [Hy | ->%list_elem_of_singleton]%elem_of_app; [| simpl; lia].
        destruct (regions_ok_elem _ _ _ _ Ra Hy) as (_ & ? & (? & _)). unfold rend in *. lia.
      - intros y Hy. destruct (regions_ok_elem _ _ _ _ Rb Hy) as (? & _). lia. }
    set (v2 := with_regions (l1 ++ R1 :: l2) (with_reserved (total (NxvRegionList v) - (b - a)) v)).
    destruct (Goal' (with_reserved (sub32 (NxvReserved (NxvInsertRegion v2 Tail)) (Size Tail)) (NxvInsertRegion v2 Tail)))
      as [W' C']; try done.
    { cbn [NxvReserved with_reserved NxvInsertRegion with_regions v2 Size Tail].
      rewrite add32_id by (unfold rend in *; lia). rewrite sub32_id by (unfold rend in *; lia). lia. }
    split; [done |]. split; [done |]. split; [done |]. left. split; [done |]. split; [done |]. split; [| by left].
    cbn [NxvReserved with_reserved NxvInsertRegion with_regions v2 Size Tail].
    rewrite add32_id by (unfold rend in *; lia). rewrite sub32_id by (unfold rend in *; lia). lia.
Qed.

(** The pages a free of [inS] bytes at [inB] means in region [x]: those that
    hold a byte of the range, or with no size all to the end of the region. *)
Definition free_range (x : region) (inB inS : Z) : Z * Z :=
  (4096 * (inB / 4096), if inS =? 0 then rend x else 4096 * ((inB + inS + 4095) / 4096)).

(** Exactly one of release and decommit is asked for. *)
Definition one_kind (FreeType : Z) : Prop := BooleanFlagOn FreeType MEM_RELEASE <> BooleanFlagOn FreeType MEM_DECOMMIT.

(** The request names a range inside region [x]; a release without a size
    starts at its base. *)
Record names_range (v : vm) (inB inS FreeType : Z) (x : region) : Prop := {
  nr_kind : one_kind FreeType;
  nr_region : x ∈ NxvRegionList v;
  nr_base : contains x inB;
  nr_whole : BooleanFlagOn FreeType MEM_RELEASE = true -> inS = 0 -> inB = Base x;
  nr_end : inB + inS <= rend x
}.

(** The pages of [a, b) are uncommitted and their frames free; every other
    entry and the contents of all frames are as before. *)
Definition freed (v : vm) (a b : Z) (r : result) : Prop := dropped (mem v) (mem (st r)) (a / 4096) (b / 4096).

(** The release of [a, b) leaves parts of [x] on both sides. *)
Definition splits (FreeType : Z) (x : region) (a b : Z) : Prop :=
  BooleanFlagOn FreeType MEM_RELEASE = true /\ a <> Base x /\ b <> rend x.

(** The outcome of a free call, case by case; the cases exclude each other. *)
Inductive free_result (v : vm) (node : bool) (inB inS FreeType : Z) (r : result) : Prop :=
| free_kind : ~ one_kind FreeType -> r = Result STATUS_INVALID_PARAMETER v inB inS -> free_result v node inB inS FreeType r
| free_absent : one_kind FreeType -> ~ reserved_at (NxvRegionList v) inB -> r = Result STATUS_MEMORY_NOT_ALLOCATED v inB inS ->
    free_result v node inB inS FreeType r
| free_inside x : one_kind FreeType -> x ∈ NxvRegionList v -> contains x inB ->
    BooleanFlagOn FreeType MEM_RELEASE = true -> inS = 0 -> inB <> Base x -> r = Result STATUS_FREE_VM_NOT_AT_BASE v inB inS ->
    free_result v node inB inS FreeType r
| free_beyond x : one_kind FreeType -> x ∈ NxvRegionList v -> contains x inB -> rend x < inB + inS ->
    r = Result STATUS_UNABLE_TO_FREE_VM v inB inS -> free_result v node inB inS FreeType r
| free_no_node x a b : names_range v inB inS FreeType x -> free_range x inB inS = (a, b) -> splits FreeType x a b -> node = false ->
    status r = STATUS_INSUFFICIENT_RESOURCES -> OutBase r = inB -> OutSize r = inS ->
    freed v a b r -> NxvRegionList (st r) = NxvRegionList v -> free_result v node inB inS FreeType r
| free_done x a b : names_range v inB inS FreeType x -> free_range x inB inS = (a, b) -> ~ (splits FreeType x a b /\ node = false) ->
    status r = STATUS_SUCCESS -> OutBase r = a -> OutSize r = b - a -> freed v a b r ->
    (if BooleanFlagOn FreeType MEM_RELEASE
     then carved (NxvRegionList v) (NxvRegionList (st r)) a b /\ NxvReserved (st r) = NxvReserved v - (b - a)
     else NxvRegionList (st r) = NxvRegionList v) -> free_result v node inB inS FreeType r.

(** A request that names a range succeeds where a node can be had. *)
Lemma names_range_done v inB inS FreeType x r : vm_wf v -> names_range v inB inS FreeType x -> free_result v true inB inS FreeType r ->
  status r = STATUS_SUCCESS.
Proof.
  intros W [N1 N2 N3 N4 N5] Fr.
  assert (U : forall y, y ∈ NxvRegionList v -> contains y inB -> y = x).
  { intros y Hy Cy. by apply (regions_unique NXV_HIGHEST y x inB (NxvRegionList v) NXV_LOWEST (vw_regions _ W)). }
  destruct Fr as [Hk | _ Ha | y _ Hy Cy Hr H0 Hb | y _ Hy Cy He | | ]; try done; exfalso.
  - apply Ha. by exists x.
  - apply Hb. rewrite (U y) by done. by apply N4.
  - rewrite (U y) in He by done. lia.
Qed.

Lemma kind_flags FreeType : let f := Z.land FreeType (Z.lor MEM_RELEASE MEM_DECOMMIT) in
  (f =? 0) || (f =? Z.lor MEM_RELEASE MEM_DECOMMIT) = true <-> ~ one_kind FreeType.
Proof.
  unfold one_kind, BooleanFlagOn. rewrite Z.land_lor_distr_r. change MEM_RELEASE with (2 ^ 15). change MEM_DECOMMIT with (2 ^ 14).
  rewrite !land_pow2_testbit by lia. destruct (Z.testbit FreeType 15), (Z.testbit FreeType 14); vm_compute;
    (split; [intros H; try discriminate H; intros N; by apply N | intros N; try reflexivity; exfalso; apply N; intros H; discriminate H]).
Qed.

(** Decommitting part of one region. *)
Lemma decommit_vm v a b x : vm_wf v -> x ∈ NxvRegionList v -> Base x <= a <= b -> b <= rend x ->
  a mod 4096 = 0 -> b mod 4096 = 0 ->
  exists v', NxvDecommitRange v a b = Some v' /\ vm_wf v' /\
    dropped (mem v) (mem v') (a / 4096) (b / 4096) /\ same_regions v v' /\
    (forall k, k ∈ cset (mem v') -> ~ (a <= 4096 * k < b)).
Proof.
  intros [T C R Rs Cv] Hx Ha Hb Ham Hbm.
  destruct (regions_ok_elem _ _ _ _ R Hx) as (X1 & X2 & _). unfold NXV_LOWEST, NXV_HIGHEST in X1, X2.
  pose proof (Z.div_mod a 4096 ltac:(lia)) as Ea. pose proof (Z.div_mod b 4096 ltac:(lia)) as Eb.
  rewrite Ham in Ea. rewrite Hbm in Eb. set (lo := a / 4096) in *. set (hi := b / 4096) in *.
  rewrite Z.add_0_r in Ea, Eb.
  destruct (decommit_range_spec v lo hi T C ltac:(lia) ltac:(lia)) as (v' & E & D & S & C').
  rewrite <- Ea, <- Eb in E. exists v'. split; [done |].
  assert (Sub : forall k, k ∈ cset (mem v') -> k ∈ cset (mem v) /\ ~ (lo <= k < hi)).
  { intros k [Hk Hn]%elem_of_cset. rewrite (dr_pte _ _ _ _ D) in Hn. case_decide; [done |].
    split; [by apply elem_of_cset | done]. }
  destruct S as [S1 S2]. split; [| split; [done |]; split; [done |]].
  - constructor; [apply D | done | by rewrite S1 | congruence |].
    intros k [Hk _]%Sub. rewrite S1. by apply Cv.
  - intros k [_ Hk]%Sub. lia.
Qed.

Lemma round_page_up' x : 0 <= x -> x + 4096 <= 2 ^ 32 ->
  x <= ROUND_UP x PAGE_SIZE < x + 4096 /\ ROUND_UP x PAGE_SIZE mod 4096 = 0.
Proof.
  intros H1 H2. change PAGE_SIZE with (2 ^ 12). destruct (round_up_props x 12) as (A & B & _); [lia | lia | lia |].
  done.
Qed.

(** The page boundaries around an address. *)
Lemma page_floor x y : y mod 4096 = 0 -> y <= x < y + 4096 -> y = 4096 * (x / 4096).
Proof.
  intros Hm Hy. pose proof (Z.div_mod y 4096 ltac:(lia)) as D. rewrite Hm in D.
  assert (x / 4096 = y / 4096); [| lia]. symmetry. apply (Z.div_unique_pos x 4096 _ (x - y)); lia.
Qed.

Lemma page_ceiling x y : y mod 4096 = 0 -> x <= y < x + 4096 -> y = 4096 * ((x + 4095) / 4096).
Proof. intros Hm Hy. apply (page_floor (x + 4095)); [done | lia]. Qed.

Lemma release_range v node inB inS FreeType i x a b : vm_wf v -> NxvRegionList v !! i = Some x ->
  BooleanFlagOn FreeType MEM_RELEASE = true -> names_range v inB inS FreeType x -> free_range x inB inS = (a, b) ->
  Base x <= a < b -> b <= rend x -> a mod 4096 = 0 -> b mod 4096 = 0 ->
  exists r,
    match NxvDecommitRange v a b with
    | None => None
    | Some v1 =>
        let '(s, v2) := carve v1 node i x a b in
        if s =? STATUS_SUCCESS then Some (Result s v2 a (sub32 b a)) else Some (Result s v2 inB inS)
    end = Some r /\ vm_wf (st r) /\ free_result v node inB inS FreeType r.
Proof.
  intros W Hi Hrel N E Ha Hb Ham Hbm. pose proof (list_elem_of_lookup_2 _ _ _ Hi) as Hx.
  destruct (regions_ok_elem _ _ _ _ (vw_regions _ W) Hx) as (X1 & X2 & _). unfold NXV_LOWEST, NXV_HIGHEST in X1, X2.
  destruct (decommit_vm v a b x W Hx) as (v1 & -> & W1 & D & [S1 S2] & Hcl); [lia | done | done | done |].
  destruct (carve_spec v1 node i x a b W1) as (s & v2 & -> & W2 & M2 & C2 & HR); [by rewrite S1 | done | done | done | done | done |].
  rewrite sub32_id by lia.
  destruct HR as [(-> & HC & HV & Hnode) | (-> & Hn & Hna & Hnb & ->)].
  - rewrite Z.eqb_refl. eexists. split; [done |]. split; [done |]. apply (free_done _ _ _ _ _ _ x a b); try done.
    + intros [(_ & Hna & Hnb) Hn]. destruct Hnode as [? | [? | ?]]; congruence.
    + unfold freed. cbn [st]. by rewrite M2.
    + rewrite Hrel, <- S1, <- S2. done.
  - change (STATUS_INSUFFICIENT_RESOURCES =? STATUS_SUCCESS) with false. eexists. split; [done |].
    split; [done |]. by apply (free_no_node _ _ _ _ _ _ x a b).
Qed.

Lemma free_spec v node inB inS FreeType : vm_wf v -> 0 <= inB -> 0 <= inS -> inB + inS + 4096 <= 2 ^ 32 ->
  exists r, NxVmFreeVirtualMemory v node inB inS FreeType = Some r /\ vm_wf (st r) /\
    free_result v node inB inS FreeType r.
Proof.
  intros W HB HS HE.
  assert (Fail : forall s, free_result v node inB inS FreeType (Result s v inB inS) ->
    exists r, Some (Result s v inB inS) = Some r /\ vm_wf (st r) /\ free_result v node inB inS FreeType r) by eauto.
  unfold NxVmFreeVirtualMemory. cbv zeta. pose proof (kind_flags FreeType) as Kf. cbv zeta in Kf.
  destruct (_ || _); [by apply Fail, free_kind; [apply Kf |] |].
  assert (K : one_kind FreeType).
  { unfold one_kind in *. destruct (BooleanFlagOn FreeType MEM_RELEASE), (BooleanFlagOn FreeType MEM_DECOMMIT); try done; exfalso;
      (assert (false = true) by (apply Kf; auto)); done. }
  pose proof (find_region_spec NXV_HIGHEST ltac:(done) (NxvRegionList v) NXV_LOWEST 0 inB ltac:(done)
    (vw_regions _ W)) as Hf.
  unfold NxvFindRegion. destruct (find_region _ inB 0) as [[i x] |].
  2: { apply Fail, free_absent; [done | | done]. intros (y & Hy & Cy). by apply (Hf y). }
  destruct Hf as (_ & Hi & Hc). rewrite Nat.sub_0_r in Hi. pose proof (list_elem_of_lookup_2 _ _ _ Hi) as Hx.
  destruct (regions_ok_elem _ _ _ _ (vw_regions _ W) Hx) as (X1 & X2 & (X3 & X4 & X5)).
  rewrite (REnd_rend NXV_LOWEST (NxvRegionList v) NXV_HIGHEST x) by (done || apply W).
  assert (Xm : rend x mod 4096 = 0) by (unfold rend; rewrite Z.add_mod, X4, X5 by lia; done).
  pose proof Hc as [Hc1 Hc2]. unfold NXV_LOWEST, NXV_HIGHEST in X1, X2.
  destruct (round_page_down inB) as (S1 & S2 & S3 & S4); [lia |].
  pose proof (S4 (Base x) X4 ltac:(lia)) as Hst. set (Start := ROUND_DOWN inB PAGE_SIZE) in *.
  rewrite add32_id by lia. destruct (round_page_up' (inB + inS)) as [E1 E2]; [lia | lia |].
  set (End := ROUND_UP (inB + inS) PAGE_SIZE) in *.
  assert (Es : Start = 4096 * (inB / 4096)) by (apply page_floor; [done | lia]).
  assert (Ee : End = 4096 * ((inB + inS + 4095) / 4096)) by (by apply page_ceiling).
  assert (Hr : free_range x inB inS = (Start, if inS =? 0 then rend x else End)) by (unfold free_range; by rewrite <- Es, <- Ee).
  assert (Past : rend x < End -> rend x < inB + inS).
  { intros Hlt. pose proof (Z.div_mod (rend x) 4096 ltac:(lia)). pose proof (Z.div_mod End 4096 ltac:(lia)). lia. }
  destruct (BooleanFlagOn FreeType MEM_RELEASE) eqn:Erel.
  - destruct (Z.eqb_spec inS 0) as [HS0 | HS0].
    + destruct (Z.eqb_spec inB (Base x)) as [Eb | ?]; cbn [negb]; [| by apply Fail, (free_inside _ _ _ _ _ _ x)].
      assert (Est : Start = Base x) by lia. rewrite <- Est. apply release_range; auto; [| lia | unfold rend in *; lia].
      constructor; auto. lia.
    + destruct (Z.ltb_spec (rend x) End) as [? | ?]; [apply Fail, (free_beyond _ _ _ _ _ _ x); auto |].
      apply release_range; auto; [| lia]. constructor; auto; [lia | lia].
  - set (End' := if inS =? 0 then rend x else End) in *.
    destruct (Z.ltb_spec (rend x) End') as [Hlt | Hend].
    { apply Fail, (free_beyond _ _ _ _ _ _ x); auto. unfold End' in Hlt. destruct (Z.eqb_spec inS 0); [lia | auto]. }
    assert (HE' : End' mod 4096 = 0 /\ Start < End' /\ inB + inS <= rend x)
      by (unfold End' in *; destruct (Z.eqb_spec inS 0); repeat split; try done; lia).
    destruct HE' as (HE1 & HE2 & HE3).
    destruct (decommit_vm v Start End' x W Hx) as (v1 & -> & W1 & D & [R1 R2] & Hcl); [lia | done | done | done |].
    eexists. split; [done |]. split; [done |]. apply (free_done _ _ _ _ _ _ x Start End'); try done.
    + constructor; auto. congruence.
    + intros [(? & _) _]. congruence.
    + cbn [OutSize]. rewrite sub32_id; lia.
    + by rewrite Erel.
Qed.

(** ** Protect *)

(** Pages [lo .. hi - 1] have their bits replaced by [bits]; nothing else
    changes. *)
Definition reprotected (m m' : mm) (lo hi bits : Z) : Prop :=
  title_ok m' ∅ /\
  (forall j, pte m' j = if decide (lo <= j < hi) then entry (pte m j / 2 ^ 12) bits else pte m j) /\
  (forall q, frame_at m' q = frame_at m q) /\ sup m' = sup m.

Lemma protect_pages_spec bits hi : bits_ok bits -> hi <= 0x7FFE0 -> forall n m k, title_ok m ∅ ->
  0x10 <= k -> k + Z.of_nat n = hi -> (forall j, k <= j < hi -> pte m j <> 0) ->
  reprotected m (protect_pages n m (4096 * k) bits) k hi bits.
Proof.
  intros Hb Hhi. induction n as [| n IH]; intros m k T Hk Hn HA; cbn [protect_pages].
  - split; [done |]. split; [| done]. intros j. by rewrite decide_False by lia.
  - assert (Hkt : title k) by (unfold title; lia). pose proof (HA k ltac:(lia)) as Hne.
    destruct (to_page _ _ T k Hkt Hne) as (_ & A2 & A3 & _). pose proof Hb as [Hb1 _].
    rewrite NXV_PTE_page, reprotect_entry by lia.
    set (e := entry (pte m k / 2 ^ 12) bits).
    destruct (retitle m ∅ ∅ k bits T Hkt Hne ltac:(lia)) as (T1 & He & Ep).
    { rewrite fresh_entry_old by done. set_solver. }
    { done. }
    fold e in T1, He, Ep. rewrite add32_page by lia.
    assert (P : forall j, pte (set_pte k e m) j = if decide (k = j) then e else pte m j)
      by (intros j; unfold pte; apply rd_insert).
    destruct (IH (set_pte k e m) (k + 1) T1 ltac:(lia) ltac:(lia)) as (T2 & P2 & F2 & S2).
    { intros j Hj. rewrite P, decide_False by lia. apply HA. lia. }
    split; [done |]. split; [| done]. intros j. rewrite P2, P.
    repeat case_decide; subst; try done; lia.
Qed.

Lemma all_committed_spec hi : hi <= 0x80000 -> forall n m F k, title_ok m F -> 0x10 <= k ->
  k + Z.of_nat n = hi -> (n = 0%nat \/ hi <= 0x7FFE0) ->
  all_committed n m (4096 * k) = true <-> forall j, k <= j < hi -> pte m j <> 0.
Proof.
  intros Hhi. induction n as [| n IH]; intros m F k T Hk Hn Ht; cbn [all_committed].
  - split; [intros _ j Hj; lia | done].
  - destruct Ht as [? | Ht]; [done |].
    unfold page_committed, pde_present. rewrite NXV_PTE_page, NXV_PDE_page. fold (present (pte m (pdx k))).
    rewrite add32_page by lia.
    assert (E : present (pte m (pdx k)) && negb (pte m k =? 0) = negb (pte m k =? 0)).
    { destruct (Z.eqb_spec (pte m k) 0) as [_ | Hne]; [by rewrite andb_false_r |].
      by destruct (to_page _ _ T k ltac:(unfold title; lia) Hne) as (-> & _). }
    rewrite E. destruct (Z.eqb_spec (pte m k) 0) as [E0 | Hne]; cbn [negb].
    + split; [done |]. intros HA. exfalso. apply (HA k); [lia | done].
    + rewrite (IH m F (k + 1) T) by (lia || auto). split; intros HA j Hj.
      * destruct (decide (j = k)) as [-> |]; [done |]. apply HA. lia.
      * apply HA. lia.
Qed.

Lemma entry_nonzero m F k b : title_ok m F -> title k -> pte m k <> 0 -> 0 <= b ->
  entry (pte m k / 2 ^ 12) b <> 0.
Proof.
  intros T Hk Hne Hb. destruct (to_page _ _ T k Hk Hne) as (_ & ((? & _) & _) & _). unfold entry. lia.
Qed.

Lemma reprotected_cset m m' lo hi bits : title_ok m ∅ -> bits_ok bits -> reprotected m m' lo hi bits ->
  (forall j, lo <= j < hi -> title j /\ pte m j <> 0) -> cset m' = cset m.
Proof.
  intros T [Hb _] (T' & P & _) HA. apply set_eq. intros k. rewrite !elem_of_cset, P. case_decide as Hr; [| done].
  destruct (HA k Hr) as [Hk Hne]. pose proof (entry_nonzero m ∅ k bits T Hk Hne ltac:(lia)). tauto.
Qed.

(** The outcome of a protect call. *)
Definition protect_result (v : vm) (inB inS NewProtect : Z) (r : result) (old : option Z) : Prop :=
  (status r <> STATUS_SUCCESS /\ st r = v /\ OutBase r = inB /\ OutSize r = inS /\ old = None) \/
  exists bits lo hi x, NxvProtectToPte NewProtect = Some bits /\ status r = STATUS_SUCCESS /\
    OutBase r = 4096 * lo /\ OutSize r = 4096 * (hi - lo) /\ lo < hi /\ 4096 * lo <= inB < 4096 * (lo + 1) /\
    x ∈ NxvRegionList v /\ Base x <= 4096 * lo /\ 4096 * hi <= rend x /\
    (forall k, lo <= k < hi -> k ∈ cset (mem v)) /\
    reprotected (mem v) (mem (st r)) lo hi bits /\
    old = Some (NxvPteToProtect (pte (mem v) lo)).

Lemma protect_spec v inB inS NewProtect r old : vm_wf v -> is_u32 inB -> is_u32 inS ->
  inB < NXV_HIGHEST -> NxVmProtectVirtualMemory v inB inS NewProtect = (r, old) ->
  vm_wf (st r) /\ protect_result v inB inS NewProtect r old.
Proof.
  intros W HB HS HH HR. unfold is_u32, NXV_HIGHEST in *.
  assert (Fail : forall s, s <> STATUS_SUCCESS -> (Result s v inB inS, None) = (r, old) ->
    vm_wf (st r) /\ protect_result v inB inS NewProtect r old)
    by (intros s Hs [= <- <-]; split; [done | by left]).
  unfold NxVmProtectVirtualMemory in HR. cbv zeta in HR.
  destruct (NxvProtectToPte NewProtect) as [bits |] eqn:EP; [| by eapply Fail, HR].
  pose proof (protect_bits_ok _ _ EP) as Hbits.
  destruct (round_page_down inB) as (S1 & S2 & S3 & S4); [lia |].
  set (Start := ROUND_DOWN inB PAGE_SIZE) in *.
  set (End := ROUND_UP (add32 inB inS) PAGE_SIZE) in *.
  assert (HEm : End mod 4096 = 0 /\ 0 <= End < 2 ^ 32).
  { unfold End, ROUND_UP. set (y := sub32 _ _).
    destruct (round_page_down y ltac:(apply u32_range)) as (A & _ & B & _).
    pose proof (u32_range (add32 (add32 inB inS) PAGE_SIZE - 1)). unfold y, sub32 in *. split; [done | lia]. }
  destruct HEm as [HEm HEr].
  destruct (Z.leb_spec End Start) as [? | Hlt]; [by eapply Fail, HR |].
  pose proof (find_region_spec NXV_HIGHEST ltac:(done) (NxvRegionList v) NXV_LOWEST 0 Start ltac:(done)
    (vw_regions _ W)) as Hf.
  unfold NxvFindRegion in HR. destruct (find_region _ Start 0) as [[i x] |]; [| by eapply Fail, HR].
  destruct Hf as (_ & Hi & Hc). pose proof (list_elem_of_lookup_2 _ _ _ Hi) as Hx.
  destruct (regions_ok_elem _ _ _ _ (vw_regions _ W) Hx) as (X1 & X2 & _).
  rewrite (REnd_rend NXV_LOWEST (NxvRegionList v) NXV_HIGHEST x) in HR by (done || apply W).
  destruct (Z.ltb_spec (rend x) End) as [? | Hend]; [by eapply Fail, HR |].
  unfold contains, NXV_LOWEST, NXV_HIGHEST in *.
  pose proof (Z.div_mod Start 4096 ltac:(lia)) as Ea. pose proof (Z.div_mod End 4096 ltac:(lia)) as Eb.
  rewrite S3 in Ea. rewrite HEm in Eb. set (lo := Start / 4096) in *. set (hi := End / 4096) in *.
  rewrite Z.add_0_r in Ea, Eb. rewrite Ea, Eb, npages_page, NXV_PTE_page in HR.
  pose proof (all_committed_spec hi ltac:(lia) (Z.to_nat (hi - lo)) (mem v) ∅ lo (vw_title _ W)
    ltac:(lia) ltac:(lia) ltac:(right; lia)) as HA.
  destruct (all_committed (Z.to_nat (hi - lo)) (mem v) (4096 * lo)) eqn:EA; cbn [negb] in HR; [| by eapply Fail, HR].
  pose proof (proj1 HA eq_refl) as Hall.
  injection HR as <- <-. cbn [st].
  pose proof (protect_pages_spec bits hi Hbits ltac:(lia) (Z.to_nat (hi - lo)) (mem v) lo (vw_title _ W)
    ltac:(lia) ltac:(lia) Hall) as RP.
  assert (Hc' : forall j, lo <= j < hi -> title j /\ pte (mem v) j <> 0)
    by (intros j Hj; split; [unfold title; lia | by apply Hall]).
  pose proof (reprotected_cset _ _ _ _ _ (vw_title _ W) Hbits RP Hc') as HCS. split.
  - destruct W as [T C R Rs Cv]. constructor; cbn [mem with_mem]; [apply RP | | done | done |].
    + unfold counted. cbn [mem with_mem NxvCommitted]. by rewrite HCS.
    + intros k. rewrite HCS. apply Cv.
  - right. exists bits, lo, hi, x. cbn [status OutBase OutSize st mem with_mem].
    rewrite sub32_id by lia. repeat (split; [done || lia |]).
    split; [intros k Hk; apply elem_of_cset; by apply Hc' |]. done.
Qed.

(** ** Query *)

Lemma page_protect_zero m F k : title_ok m F -> title k ->
  page_protect m (4096 * k) = 0 <-> k ∉ cset m.
Proof.
  intros T Hk. unfold page_protect, pde_present. rewrite NXV_PDE_page, NXV_PTE_page.
  fold (present (pte m (pdx k))). rewrite elem_of_cset.
  destruct (Z.eq_dec (pte m k) 0) as [E0 | Hne].
  - rewrite E0. destruct (present _); split; try done; intros; tauto.
  - destruct (to_page _ _ T k Hk Hne) as (-> & _). split; [| tauto].
    unfold NxvPteToProtect. destruct (Z.eqb_spec (pte m k) 0) as [? | _]; [done |].
    destruct (BooleanFlagOn (pte m k) NXV_PTE_P), (BooleanFlagOn (pte m k) NXV_PTE_RW),
      (BooleanFlagOn (pte m k) NXV_PTE_PCD), (BooleanFlagOn (pte m k) NXV_PTE_PWT); done.
Qed.

Lemma run_end_spec m P n : forall k, 0 <= k -> k + Z.of_nat n < 2 ^ 20 ->
  exists k', run_end n m (4096 * k) P = 4096 * k' /\ k <= k' <= k + Z.of_nat n /\
    (forall j, k <= j < k' -> page_protect m (4096 * j) = P) /\
    (k' = k + Z.of_nat n \/ page_protect m (4096 * k') <> P).
Proof.
  induction n as [| n IH]; intros k Hk Hn; cbn [run_end].
  - exists k. split; [done |]. split; [lia |]. split; [intros; lia | left; lia].
  - destruct (Z.eqb_spec (page_protect m (4096 * k)) P) as [E | E]; cbn [negb].
    + rewrite add32_page by lia. destruct (IH (k + 1) ltac:(lia) ltac:(lia)) as (k' & -> & H1 & H2 & H3).
      exists k'. split; [done |]. split; [lia |]. split; [| destruct H3; [left; lia | by right]].
      intros j Hj. destruct (decide (j = k)) as [-> |]; [done |]. apply H2. lia.
    + exists k. split; [done |]. split; [lia |]. split; [intros; lia | by right].
Qed.

Lemma next_base_spec l : forall lo Va, regions_ok lo l NXV_HIGHEST -> Va < NXV_HIGHEST ->
  (forall r, r ∈ l -> ~ contains r Va) ->
  Va < next_base l Va <= NXV_HIGHEST /\ clear_of l Va (next_base l Va) /\
  (next_base l Va = NXV_HIGHEST \/ exists r, r ∈ l /\ Base r = next_base l Va).
Proof.
  induction l as [| x l IH]; intros lo Va H HV HN; cbn [next_base].
  - split; [lia |]. split; [intros r Hr; set_solver | by left].
  - pose proof H as (H1 & (H2 & _) & H3). destruct (Z.ltb_spec Va (Base x)) as [Hlt | Hge].
    + pose proof (regions_ok_le _ _ _ H3). unfold rend in *. split; [lia |]. split.
      * intros r [-> | Hr]%elem_of_cons; [by right |]. right.
        destruct (regions_ok_elem _ _ _ _ H3 Hr) as (? & _). unfold rend in *. lia.
      * right. exists x. split; [set_solver | done].
    + assert (Hx : rend x <= Va) by (pose proof (HN x ltac:(set_solver)) as Hc; unfold contains in Hc; lia).
      destruct (IH (rend x) Va H3 HV ltac:(set_solver)) as (A & B & C). split; [done |]. split.
      * intros r [-> | Hr]%elem_of_cons; [by left | by apply B].
      * destruct C as [? | (r & Hr & ?)]; [by left |]. right. exists r. split; [set_solver | done].
Qed.

(** The answer for page [k]: free space up to the next region, or the maximal
    run of pages of its region that share its state and protection. *)
Definition query_result (v : vm) (k : Z) (i : mbi) : Prop :=
  mbi_BaseAddress i = 4096 * k /\ 0 < mbi_RegionSize i /\
  ((~ reserved_at (NxvRegionList v) (4096 * k) /\ mbi_State i = MEM_FREE /\ mbi_AllocationBase i = 0 /\
    mbi_Protect i = PAGE_NOACCESS /\
    clear_of (NxvRegionList v) (4096 * k) (4096 * k + mbi_RegionSize i) /\
    (4096 * k + mbi_RegionSize i = NXV_HIGHEST \/
     exists r, r ∈ NxvRegionList v /\ Base r = 4096 * k + mbi_RegionSize i)) \/
   exists x k', x ∈ NxvRegionList v /\ contains x (4096 * k) /\ mbi_AllocationBase i = Base x /\
    mbi_AllocationProtect i = AllocProtect x /\ mbi_RegionSize i = 4096 * (k' - k) /\ 4096 * k' <= rend x /\
    mbi_State i = (if decide (k ∈ cset (mem v)) then MEM_COMMIT else MEM_RESERVE) /\
    (forall j, k <= j < k' -> page_protect (mem v) (4096 * j) = mbi_Protect i) /\
    (4096 * k' = rend x \/ page_protect (mem v) (4096 * k') <> mbi_Protect i)).

Lemma query_spec v Address : vm_wf v -> 0 <= Address < NXV_HIGHEST ->
  exists k i, NxVmQueryVirtualMemory v Address = inr i /\ 4096 * k <= Address < 4096 * (k + 1) /\
    query_result v k i.
Proof.
  intros W HA. unfold NXV_HIGHEST in HA. destruct (round_page_down Address) as (S1 & S2 & S3 & S4); [lia |].
  unfold NxVmQueryVirtualMemory. cbv zeta. set (Va := ROUND_DOWN Address PAGE_SIZE) in *.
  pose proof (Z.div_mod Va 4096 ltac:(lia)) as Ea. rewrite S3, Z.add_0_r in Ea. set (k := Va / 4096) in *.
  destruct (Z.leb_spec NXV_HIGHEST Va) as [? | HV]; [unfold NXV_HIGHEST in *; lia |].
  pose proof (find_region_spec NXV_HIGHEST ltac:(done) (NxvRegionList v) NXV_LOWEST 0 Va ltac:(done)
    (vw_regions _ W)) as Hf.
  exists k. unfold NxvFindRegion. destruct (find_region _ Va 0) as [[i x] |].
  - destruct Hf as (_ & Hi & Hc). pose proof (list_elem_of_lookup_2 _ _ _ Hi) as Hx.
    destruct (regions_ok_elem _ _ _ _ (vw_regions _ W) Hx) as (X1 & X2 & (X3 & X4 & X5)).
    rewrite (REnd_rend NXV_LOWEST (NxvRegionList v) NXV_HIGHEST x) by (done || apply W).
    assert (Xm : rend x mod 4096 = 0) by (unfold rend; rewrite Z.add_mod, X4, X5 by lia; done).
    pose proof (Z.div_mod (rend x) 4096 ltac:(lia)) as Eb. rewrite Xm, Z.add_0_r in Eb. set (hi := rend x / 4096) in *.
    unfold contains, NXV_LOWEST, NXV_HIGHEST in *. rewrite Eb, Ea, add32_page, npages_page by lia.
    destruct (run_end_spec (mem v) (page_protect (mem v) (4096 * k)) (Z.to_nat (hi - (k + 1))) (k + 1))
      as (k' & -> & H1 & H2 & H3); [lia | lia |].
    eexists. split; [done |]. split; [lia |]. unfold query_result.
    cbn [mbi_BaseAddress mbi_AllocationBase mbi_AllocationProtect mbi_RegionSize mbi_State mbi_Protect].
    rewrite sub32_id by lia. split; [done |]. split; [lia |]. right. exists x, k'.
    split; [done |]. split; [unfold contains; lia |]. split; [done |]. split; [done |]. split; [lia |].
    split; [lia |]. pose proof (page_protect_zero (mem v) ∅ k (vw_title _ W) ltac:(unfold title; lia)) as HP.
    split; [| split].
    + destruct (Z.eqb_spec (page_protect (mem v) (4096 * k)) 0) as [E | E]; cbn [negb].
      * by rewrite decide_False by tauto.
      * destruct (decide (k ∈ cset (mem v))); [done | tauto].
    + intros j Hj. destruct (decide (j = k)) as [-> |]; [done |]. apply H2. lia.
    + destruct H3 as [H3 | H3]; [left; lia | by right].
  - destruct (next_base_spec (NxvRegionList v) NXV_LOWEST Va (vw_regions _ W) HV Hf) as (N1 & N2 & N3).
    unfold NXV_HIGHEST in N1.
    eexists. split; [done |]. split; [lia |]. unfold query_result.
    cbn [mbi_BaseAddress mbi_AllocationBase mbi_AllocationProtect mbi_RegionSize mbi_State mbi_Protect].
    rewrite sub32_id by lia. rewrite <- Ea. split; [done |]. split; [lia |]. left.
    replace (Va + (next_base (NxvRegionList v) Va - Va)) with (next_base (NxvRegionList v) Va) by lia.
    split; [intros (r & Hr & Hc); by apply (Hf r) | done].
Qed.

(** Bits a protection maps to map back to a protection with the same bits. *)
Lemma protect_roundtrip_bits Protect b p : NxvProtectToPte Protect = Some b -> 0 < p ->
  NxvProtectToPte (NxvPteToProtect (entry p b)) = Some b.
Proof.
  intros H%protect_bits Hp.
  assert (Hb : 0 <= b < 4096)
    by (repeat (apply elem_of_cons in H as [-> | H]; [lia |]); set_solver).
  unfold NxvPteToProtect. rewrite !flag_entry by (done || unfold NXV_PTE_P, NXV_PTE_RW, NXV_PTE_PCD, NXV_PTE_PWT; lia).
  destruct (Z.eqb_spec (entry p b) 0) as [? | _]; [unfold entry in *; lia |].
  repeat (apply elem_of_cons in H as [-> | H]; [vm_compute; reflexivity |]). set_solver.
Qed.

(** ** A boot state

    No page table entry is set and no frame is owned. *)
Lemma empty_vm_wf s : supply_wf s -> (forall p, in_range s p -> p ∉ free_set s -> link s p = 0) ->
  vm_wf (Vm (Mm s ∅ ∅) [] 0 0).
Proof.
  intros W HL. assert (NO : forall k p, ~ owned (Mm s ∅ ∅) k p).
  { intros k p (Hr & Hf & Hk & Hk0). pose proof (HL p Hr Hf). simpl in Hk. congruence. }
  assert (P : forall k, pte (Mm s ∅ ∅) k = 0) by (intros k; unfold pte, rd; simpl; by rewrite lookup_empty).
  assert (CS : cset (Mm s ∅ ∅) = ∅) by (apply set_eq; intros k; rewrite elem_of_cset, P, elem_of_empty; tauto).
  constructor; cbn [mem NxvRegionList NxvReserved]; [| | done | done |].
  - constructor.
    + constructor; [exact W |]. intros k p Ho. destruct (NO k p Ho).
    + intros k _ Hn. destruct (Hn (P k)).
    + intros k []%not_elem_of_empty.
    + intros k _ _. apply P.
    + intros b p _ Ho. destruct (NO _ p Ho).
  - unfold counted. cbn [mem NxvCommitted]. rewrite CS, size_empty. reflexivity.
  - intros k Hk. rewrite CS in Hk. destruct (not_elem_of_empty _ Hk).
Qed.

(** A 100-frame machine with frames 20 to 59 free. *)
Definition boot_supply : supply := fold_left NxkPageSupplyReturn (seqZ 20 40) small_machine.
Definition boot_vm : vm := Vm (Mm boot_supply ∅ ∅) [] 0 0.

Lemma return_all_wf l : forall s, supply_wf s -> NoDup l ->
  (forall p, p ∈ l -> in_range s p /\ (p ∉ free_set s)) ->
  supply_wf (fold_left NxkPageSupplyReturn l s) /\
  (forall p, p ∉ l -> p ∉ free_set s -> link (fold_left NxkPageSupplyReturn l s) p = link s p) /\
  (forall p, p ∈ l -> p ∈ free_set (fold_left NxkPageSupplyReturn l s)) /\
  NxpHighestPfn (fold_left NxkPageSupplyReturn l s) = NxpHighestPfn s /\
  free_set s ⊆ free_set (fold_left NxkPageSupplyReturn l s).
Proof.
  induction l as [| x l IH]; intros s W Hn Hl; cbn [fold_left]; [repeat split; set_solver |].
  apply NoDup_cons in Hn as [Hx Hn]. destruct (Hl x ltac:(set_solver)) as [Hxr Hxf].
  destruct (return_wf s x W Hxr Hxf) as (W1 & F1 & U1). destruct (return_fields s x) as (H1 & _).
  destruct (IH (NxkPageSupplyReturn s x) W1 Hn) as (W2 & L2 & M2 & H2 & S2).
  { intros p Hp. unfold in_range. rewrite H1, F1. destruct (Hl p ltac:(set_solver)) as [? ?].
    split; [done |]. rewrite elem_of_union, elem_of_singleton. intros [-> | ?]; done. }
  split; [done |]. split; [| split; [| split; [congruence |]]].
  - intros p Hp Hpf. rewrite not_elem_of_cons in Hp. destruct Hp as [Hpx Hpl].
    assert (Hp1 : p ∉ free_set (NxkPageSupplyReturn s x))
      by (rewrite F1, elem_of_union, elem_of_singleton; tauto).
    rewrite L2 by done. by apply U1.
  - intros p [-> | Hp]%elem_of_cons; [| by apply M2]. apply S2. rewrite F1. set_solver.
  - rewrite F1 in S2. set_solver.
Qed.

Lemma boot_wf retail h l : 16 <= h <= 32767 -> NoDup l -> (forall p, p ∈ l -> 1 <= p <= h) ->
  vm_wf (Vm (Mm (fold_left NxkPageSupplyReturn l (NxkPageSupplyInitialize retail h)) ∅ ∅) [] 0 0).
Proof.
  intros Hh Hn Hl. destruct (init_wf retail h Hh) as [W0 F0].
  assert (HH : NxpHighestPfn (NxkPageSupplyInitialize retail h) = h) by reflexivity.
  assert (HL : forall p, 0 <= p <= h -> link (NxkPageSupplyInitialize retail h) p = 0).
  { intros p Hp. unfold link, NxkPageSupplyInitialize, rd. cbn [NxpLinks].
    rewrite zero_links_lookup by lia. by rewrite decide_True by lia. }
  revert W0 F0 HH HL. generalize (NxkPageSupplyInitialize retail h) as s0. intros s0 W0 F0 HH HL.
  destruct (return_all_wf l s0 W0 Hn) as (W & L & M & H & _).
  - intros p Hp. rewrite F0. split; [| apply not_elem_of_empty]. unfold in_range. rewrite HH. by apply Hl.
  - apply empty_vm_wf; [exact W |]. intros p Hr Hf.
    rewrite L; [| intros Hp; exact (Hf (M p Hp)) | rewrite F0; apply not_elem_of_empty].
    unfold in_range in Hr. rewrite H, HH in Hr. apply HL. lia.
Qed.

Lemma boot_vm_wf : vm_wf boot_vm.
Proof.
  apply (boot_wf false 99 (seqZ 20 40)); [lia | apply NoDup_seqZ |].
  intros p Hp%elem_of_seqZ. lia.
Qed.

Lemma boot_stocked : stocked (mem boot_vm) (ROUND_DOWN 0x10000 NXV_GRANULARITY / 4096) (ROUND_UP (0x10000 + 0x3000) PAGE_SIZE / 4096).
Proof. apply (bool_decide_eq_true_1 _). vm_compute. reflexivity. Qed.

Lemma boot_room : room boot_vm 0x10000 0x3000 (MEM_RESERVE + MEM_COMMIT).
Proof.
  unfold room. cbv zeta. change (0x10000 =? 0) with false. cbv iota. split; [lia |]. split; [reflexivity |]. split; [unfold NXV_LOWEST; lia |].
  split; [intros _; exact boot_stocked |]. left. change (NxvRegionList boot_vm) with (@nil region). intros r Hr. by apply not_elem_of_nil in Hr.
Qed.

(** ** Properties *)



(** C5: a well-formed manager answers every free request whose range does not
    wrap, stays well formed, and does what the request's case says.  Refused,
    with everything as it was, are exactly a request that is not one of
    release and decommit, one outside the regions, a release without a size
    that is not at a region's base, and one that runs past its region.  Any
    other acts on the pages that hold a byte of the range: they are
    uncommitted, their frames are back in the supply, every other page table
    entry and all frame contents are unchanged; a decommit keeps the regions,
    a release takes exactly the range out of them.  It reports success, unless
    a release splits a region and gets no node: then the reservation stays.
    Where a node can be had, a request that names a range inside a region
    succeeds. *)
Theorem vm_free_correct v node BaseAddress RegionSize FreeType :
  vm_wf v -> 0 <= BaseAddress -> 0 <= RegionSize -> BaseAddress + RegionSize + PAGE_SIZE <= 2 ^ 32 ->
  exists r, NxVmFreeVirtualMemory v node BaseAddress RegionSize FreeType = Some r /\
    vm_wf (st r) /\ free_result v node BaseAddress RegionSize FreeType r /\
    (node = true -> (exists x, names_range v BaseAddress RegionSize FreeType x) -> status r = STATUS_SUCCESS).
Proof.
  intros W HB HS HE. destruct (free_spec v node BaseAddress RegionSize FreeType W HB HS HE) as (r & E & W' & Fr).
  exists r. split; [done |]. split; [done |]. split; [done |]. intros -> [x N]. by apply (names_range_done v BaseAddress RegionSize FreeType x).
Qed.

(** Three pages committed at the bottom of the title space. *)
Lemma three_pages : exists v, vm_wf v /\ NxvRegionList v = [Region 0x10000 0x3000 PAGE_READWRITE] /\ pte (mem v) 0x11 <> 0.
Proof.
  destruct (allocate_spec boot_vm true 0x10000 0x3000 (MEM_RESERVE + MEM_COMMIT) PAGE_READWRITE boot_vm_wf) as (r & E & H).
  { unfold alloc_fits, NXV_HIGHEST, NXV_LOWEST. lia. }
  assert (W : vm_wf (st r)).
  { unfold alloc_result in H. destruct (NxvProtectToPte PAGE_READWRITE); [destruct H as [[_ ->] | H]; [apply boot_vm_wf | apply H] |].
    destruct H as [-> _]. apply boot_vm_wf. }
  assert (C : option_map (fun r => (NxvRegionList (st r), pte (mem (st r)) 0x11 =? 0))
    (NxVmAllocateVirtualMemory boot_vm true 0x10000 0x3000 (MEM_RESERVE + MEM_COMMIT) PAGE_READWRITE) =
    Some ([Region 0x10000 0x3000 PAGE_READWRITE], false)) by (vm_compute; reflexivity).
  rewrite E in C. injection C as C1 C2. exists (st r). split; [exact W |]. split; [exact C1 |]. by apply Z.eqb_neq.
Qed.

(** The middle one is released: it is uncommitted and no longer reserved. *)
Lemma vm_free_correct_witness : exists v r, pte (mem v) 0x11 <> 0 /\
  NxVmFreeVirtualMemory v true 0x11000 0x1000 MEM_RELEASE = Some r /\ vm_wf (st r) /\ status r = STATUS_SUCCESS /\
  free_result v true 0x11000 0x1000 MEM_RELEASE r.
Proof.
  destruct three_pages as (v & W & El & Hp).
  destruct (vm_free_correct v true 0x11000 0x1000 MEM_RELEASE W ltac:(lia) ltac:(lia) ltac:(unfold PAGE_SIZE; lia)) as (r & E & W' & Fr & Ok).
  exists v, r. split; [exact Hp |]. split; [exact E |]. split; [exact W' |]. split; [| exact Fr]. apply Ok; [reflexivity |].
  exists (Region 0x10000 0x3000 PAGE_READWRITE). split; [intros K; discriminate K | rewrite El; by left | unfold contains, rend; simpl; lia | lia |].
  unfold rend. simpl. lia.
Defined.



(** a protect call either fails and changes neither the state nor
    [OldProtect], or every page of the range was committed, all of them take
    the new bits and keep their frames, nothing else changes and [OldProtect]
    is the first page's previous protection. *)
Theorem vm_protect_correct v BaseAddress RegionSize NewProtect r old :
  vm_wf v -> is_u32 BaseAddress -> is_u32 RegionSize -> BaseAddress < NXV_HIGHEST ->
  NxVmProtectVirtualMemory v BaseAddress RegionSize NewProtect = (r, old) ->
  vm_wf (st r) /\ protect_result v BaseAddress RegionSize NewProtect r old.
Proof. apply protect_spec. Qed.

Lemma vm_protect_correct_witness : exists r old,
  NxVmProtectVirtualMemory boot_vm 0x10000 0x1000 PAGE_READONLY = (r, old) /\ vm_wf (st r).
Proof.
  eexists _, _. split; [reflexivity |].
  eapply (vm_protect_correct boot_vm 0x10000 0x1000 PAGE_READONLY).
  - exact boot_vm_wf.
  - unfold is_u32. lia.
  - unfold is_u32. lia.
  - unfold NXV_HIGHEST. lia.
  - reflexivity.
Defined.



(** [NxvFindGap] returns 0 only when no 64 KiB-aligned gap of the size
    exists; otherwise the lowest gap, or the highest with [MEM_TOP_DOWN]. *)
Theorem find_gap_best v size TopDown : regions_ok NXV_LOWEST (NxvRegionList v) NXV_HIGHEST ->
  0 < size <= NXV_HIGHEST - NXV_LOWEST ->
  (NxvFindGap v size TopDown = 0 /\ forall d, ~ gap (NxvRegionList v) size d) \/
  (gap (NxvRegionList v) size (NxvFindGap v size TopDown) /\
   forall d, gap (NxvRegionList v) size d ->
     if TopDown then d <= NxvFindGap v size TopDown else NxvFindGap v size TopDown <= d).
Proof. intros H Hs. by apply find_gap_spec. Qed.

Lemma find_gap_best_witness :
  gap [] 0x3000 (NxvFindGap boot_vm 0x3000 true) \/ NxvFindGap boot_vm 0x3000 true = 0.
Proof.
  destruct (find_gap_best boot_vm 0x3000 true) as [[E _] | [G _]].
  - exact (vw_regions _ boot_vm_wf).
  - unfold NXV_HIGHEST, NXV_LOWEST. lia.
  - right. exact E.
  - left. exact G.
Defined.

(** The bits a protection maps to determine it up to what the hardware
    can tell apart: reading an entry back as a protection and mapping it again
    gives the same bits. *)
Theorem protect_roundtrip Protect bits p : NxvProtectToPte Protect = Some bits -> 0 < p ->
  NxvProtectToPte (NxvPteToProtect (entry p bits)) = Some bits.
Proof. apply protect_roundtrip_bits. Qed.

Lemma protect_roundtrip_witness :
  NxvProtectToPte (NxvPteToProtect (entry 5 0x13)) = Some 0x13.
Proof.
  apply (protect_roundtrip (PAGE_EXECUTE_WRITECOPY + PAGE_NOCACHE) 0x13 5); [reflexivity | lia].
Defined.

(** a size above the title space makes the gap search wrap: with nothing
    reserved it returns an address for a size that does not fit, upwards and
    downwards, and rounding a size of 4 GiB - 1 up gives 0, so the reservation
    is empty. *)
Theorem find_gap_wraps :
  NxvFindGap boot_vm 0xFFFFF000 false = NXV_LOWEST /\
  NxvFindGap boot_vm 0x80000000 true = 0xFFFE0000 /\
  ROUND_UP 0xFFFFFFFF PAGE_SIZE = 0 /\
  exists r, NxVmAllocateVirtualMemory boot_vm true 0 0xFFFFF000 MEM_RESERVE PAGE_READWRITE = Some r /\
    status r = STATUS_SUCCESS /\ NxvReserved (st r) = 0xFFFFF000.
Proof.
  split; [vm_compute; reflexivity |]. split; [vm_compute; reflexivity |]. split; [vm_compute; reflexivity |].
  assert (E : option_map (fun r => (status r, NxvReserved (st r)))
    (NxVmAllocateVirtualMemory boot_vm true 0 0xFFFFF000 MEM_RESERVE PAGE_READWRITE) =
    Some (STATUS_SUCCESS, 0xFFFFF000)) by (vm_compute; reflexivity).
  revert E. generalize (NxVmAllocateVirtualMemory boot_vm true 0 0xFFFFF000 MEM_RESERVE PAGE_READWRITE).
  intros [r |] E; [| discriminate E]. injection E as E1 E2. exists r. auto.
Qed.

(** One reservation of 64 KiB at the bottom of the title space. *)
Definition one_region_vm : vm := Vm (mem boot_vm) [Region 0x10000 0x10000 PAGE_READWRITE] 0 0x10000.

(** a release whose base plus size wraps is not refused: it succeeds,
    leaves two overlapping regions and a reserved count larger than before. *)
Theorem free_wraps_overlap :
  exists r, NxVmFreeVirtualMemory one_region_vm true 0x18000 0xFFFF9000 MEM_RELEASE = Some r /\
    status r = STATUS_SUCCESS /\
    NxvRegionList (st r) = [Region 0x10000 0x8000 PAGE_READWRITE; Region 0x11000 0xF000 PAGE_READWRITE] /\
    NxvReserved (st r) = 0x17000.
Proof.
  assert (E : option_map (fun r => (status r, NxvRegionList (st r), NxvReserved (st r)))
    (NxVmFreeVirtualMemory one_region_vm true 0x18000 0xFFFF9000 MEM_RELEASE) =
    Some (STATUS_SUCCESS, [Region 0x10000 0x8000 PAGE_READWRITE; Region 0x11000 0xF000 PAGE_READWRITE], 0x17000))
    by (vm_compute; reflexivity).
  revert E. generalize (NxVmFreeVirtualMemory one_region_vm true 0x18000 0xFFFF9000 MEM_RELEASE).
  intros [r |] E; [| discriminate E]. injection E as E1 E2 E3. exists r. auto.
Qed.
