(* ===== verification/PoolPages.v ===== *)
(** * The pool window

    Models [src/ntoskrnl/xb/mm/poolpages.c]: whole-page runs for the pool,
    carved by a bitmap out of a fixed window of addresses and backed page by
    page from the supply, page tables included.  The run lengths live in a
    table of their own.  The state is those tables and the page-table and
    frame state of [Paging.v]; the theorems are that the window's tables and
    page-table entries always agree, what an allocation and a free do on
    every branch, and that an allocation fails only for want of room or
    frames. *)

From stdpp Require Import prelude gmap list numbers sets.
From Stdlib Require Import ZArith Lia.
From S2P Require Import Prelude PageSupply Paging Vm.

Local Open Scope Z_scope.

(** ** Window *)

Definition NXPP_BASE : Z := 0xC1000000.
Definition NXPP_PAGES : Z := 4096.
Definition NXPP_END : Z := NXPP_BASE + NXPP_PAGES * 4096.
Definition NXPP_PTE_BITS : Z := 0x3.

(** [NXPP_PDE(Va)] and [NXPP_PTE(Va)] as indices of the self-map. *)
Definition NXPP_PDE (Va : Z) : Z := 0xC0000 + Z.shiftr Va 22.
Definition NXPP_PTE (Va : Z) : Z := Z.shiftr Va 12.

(** [NxppReady]: the table pointer [NxppRunPages] is set. *)
Record window : Type := Window {
  wmem : mm;
  NxppReady : bool;
  NxppRunPages : gmap Z Z;
  NxppUsedMap : gmap Z Z;
  NxppScanHint : Z;
  NxppCommitted : Z
}.

Definition with_wmem (m : mm) (w : window) : window :=
  Window m (NxppReady w) (NxppRunPages w) (NxppUsedMap w) (NxppScanHint w) (NxppCommitted w).

Definition BYTES_TO_PAGES (Size : Z) : Z :=
  add32 (Z.shiftr Size 12) (if Z.land Size 4095 =? 0 then 0 else 1).

(** ** The bitmap *)

Definition used_bit (map : gmap Z Z) (i : Z) : bool :=
  negb (Z.land (rd map (Z.shiftr i 5)) (shl32 1 (Z.land i 31)) =? 0).

(** The loops over [n] bits from [i]. *)
Fixpoint test_range (map : gmap Z Z) (n : nat) (i : Z) : bool :=
  match n with
  | O => true
  | S n' => if used_bit map i then false else test_range map n' (i + 1)
  end.

Definition NxppTestRange (w : window) (Start Count : Z) : bool := test_range (NxppUsedMap w) (Z.to_nat Count) Start.

Definition set_bit (map : gmap Z Z) (i : Z) (Set' : bool) : gmap Z Z :=
  let k := Z.shiftr i 5 in
  let b := shl32 1 (Z.land i 31) in
  if Set' then <[k := Z.lor (rd map k) b]> map else <[k := Z.land (rd map k) (not32 b)]> map.

Fixpoint set_range (map : gmap Z Z) (n : nat) (i : Z) (Set' : bool) : gmap Z Z :=
  match n with
  | O => map
  | S n' => set_range (set_bit map i Set') n' (i + 1) Set'
  end.

Definition NxppSetRange (w : window) (Start Count : Z) (Set' : bool) : window :=
  Window (wmem w) (NxppReady w) (NxppRunPages w) (set_range (NxppUsedMap w) (Z.to_nat Count) Start Set') (NxppScanHint w) (NxppCommitted w).

(** ** Initialisation *)

(** The metadata carve: the run table and the bitmap (a release build). *)
Definition NxPoolPagesMetadataSize : Z := NXPP_PAGES * 2 + (NXPP_PAGES / 32) * 4.

(** The state at boot, and the tables as the zeroed carve leaves them. *)
Definition window_boot (m : mm) : window := Window m false ∅ ∅ 0 0.

Definition NxPoolPagesInitialize (w : window) : window := Window (wmem w) true ∅ ∅ (NxppScanHint w) (NxppCommitted w).

(** ** Allocation *)

Definition NxPoolPagesOwns (Va : Z) : bool := (NXPP_BASE <=? Va) && (Va <? NXPP_END).

(** [for (Probe = ...; Probe + Count <= NXPP_PAGES; Probe++)], stopping
    below [limit]; [n] bounds the probes. *)
Fixpoint first_fit (w : window) (n : nat) (Count limit Probe : Z) : option Z :=
  match n with
  | O => None
  | S n' =>
      if (Probe <? limit) && (add32 Probe Count <=? NXPP_PAGES) then
        if NxppTestRange w Probe Count then Some Probe else first_fit w n' Count limit (Probe + 1)
      else None
  end.

(** First fit from the hint, then from the start up to it.  A scan visits
    each page of the window at most once. *)
Definition find_start (w : window) (Count : Z) : option Z :=
  let n := S (Z.to_nat NXPP_PAGES) in
  match first_fit w n Count (2 ^ 32) (NxppScanHint w) with
  | Some Start => Some Start
  | None => first_fit w n Count (NxppScanHint w) 0
  end.

(** The page table over [PageVa], taken from the supply when absent. *)
Definition back_table (m : mm) (PageVa : Z) : option (bool * mm) :=
  if negb (Z.land (pte m (NXPP_PDE PageVa)) 1 =? 0) then Some (true, m)
  else
    match NxkPageSupplyTakeZero m with
    | None => None
    | Some (PtPfn, m) =>
        if PtPfn =? 0 then Some (false, m)
        else
          let m := install_table PageVa (Z.lor (shl32 PtPfn PAGE_SHIFT) NXPP_PTE_BITS) m in
          Some (true, with_sup (NxkPageSupplySetOwner (sup m) PtPfn (pte_va (NXPP_PDE PageVa))) m)
    end.

(** One page of the run. *)
Definition back_page (m : mm) (PageVa : Z) : option (bool * mm) :=
  match back_table m PageVa with
  | None => None
  | Some (false, m) => Some (false, m)
  | Some (true, m) =>
      match NxkPageSupplyTakeAny (sup m) with
      | None => None
      | Some (Pfn, s) =>
          let m := with_sup s m in
          if Pfn =? 0 then Some (false, m)
          else
            let m := set_pte (NXPP_PTE PageVa) (Z.lor (shl32 Pfn PAGE_SHIFT) NXPP_PTE_BITS) m in
            Some (true, with_sup (NxkPageSupplySetOwner (sup m) Pfn (pte_va (NXPP_PTE PageVa))) m)
      end
  end.

(** One page given back. *)
Definition drop_page (m : mm) (PageVa : Z) : mm :=
  let Pfn := Z.shiftr (pte m (NXPP_PTE PageVa)) PAGE_SHIFT in
  let m := with_sup (NxkPageSupplySetOwner (sup m) Pfn 0) m in
  let m := with_sup (NxkPageSupplyReturn (sup m) Pfn) m in
  set_pte (NXPP_PTE PageVa) 0 m.

(** [while (i--)]: the pages below [PageVa], downwards. *)
Fixpoint unwind (n : nat) (m : mm) (PageVa : Z) : mm :=
  match n with
  | O => m
  | S n' => let Va := PageVa - 4096 in unwind n' (drop_page m Va) Va
  end.

(** The backing loop: [n] pages to go, [done] behind; [(false, m)] when the
    supply ran out and the run was rolled back. *)
Fixpoint back_run (n done : nat) (m : mm) (PageVa : Z) : option (bool * mm) :=
  match n with
  | O => Some (true, m)
  | S n' =>
      match back_page m PageVa with
      | None => None
      | Some (false, m) => Some (false, unwind done m PageVa)
      | Some (true, m) => back_run n' (S done) m (PageVa + 4096)
      end
  end.

(** The outer [option] is the fuel of the supply's scans; the address is 0
    for failure. *)
Definition NxPoolPagesAlloc (w : window) (NumberOfBytes : Z) : option (Z * window) :=
  let Count := BYTES_TO_PAGES NumberOfBytes in
  if negb (NxppReady w) then Some (0, w)
  else match find_start w Count with
  | None => Some (0, w)
  | Some Start =>
      let Va := NXPP_BASE + Start * 4096 in
      match back_run (Z.to_nat Count) 0 (wmem w) Va with
      | None => None
      | Some (false, m) => Some (0, with_wmem m w)
      | Some (true, m) =>
          let w := NxppSetRange (with_wmem m w) Start Count true in
          let Hint := Start + Count in
          Some (Va, Window (wmem w) (NxppReady w) (<[Start := u16 Count]> (NxppRunPages w)) (NxppUsedMap w)
                      (if NXPP_PAGES <=? Hint then 0 else Hint) (add32 (NxppCommitted w) Count))
      end
  end.

(** ** Free and the rest *)

Fixpoint drop_run (n : nat) (m : mm) (PageVa : Z) : mm :=
  match n with
  | O => m
  | S n' => drop_run n' (drop_page m PageVa) (PageVa + 4096)
  end.

Definition NxPoolPagesFree (w : window) (Va : Z) : Z * window :=
  let Start := Z.shiftr (sub32 Va NXPP_BASE) 12 in
  let Count := rd (NxppRunPages w) Start in
  let w := Window (drop_run (Z.to_nat Count) (wmem w) Va) (NxppReady w) (<[Start := 0]> (NxppRunPages w)) (NxppUsedMap w)
             (NxppScanHint w) (NxppCommitted w) in
  let w := NxppSetRange w Start Count false in
  (Count, Window (wmem w) (NxppReady w) (NxppRunPages w) (NxppUsedMap w) (NxppScanHint w) (sub32 (NxppCommitted w) Count)).

(** [NxPoolPagesCommitted]. *)
Definition PoolPagesCommitted (w : window) : Z := NxppCommitted w.

(** The loop over the pages of [n] strides from [Va] below [End]. *)
Fixpoint movable_pages (n : nat) (m : mm) (Va : Z) (Movable : bool) : mm :=
  match n with
  | O => m
  | S n' =>
      let Pte := pte m (NXPP_PTE Va) in
      let m := if negb (Z.land Pte 1 =? 0)
               then with_sup (NxkPageSupplySetOwner (sup m) (Z.shiftr Pte PAGE_SHIFT)
                                (if Movable then pte_va (NXPP_PTE Va) else 0)) m
               else m in
      movable_pages n' m (Va + 4096) Movable
  end.

Definition NxPoolPagesSetMovable (w : window) (BaseAddress NumberOfBytes : Z) (Movable : bool) : window :=
  let Va := Z.land BaseAddress (not32 4095) in
  let End := add32 BaseAddress NumberOfBytes in
  if (Va <? NXPP_BASE) || (NXPP_END <=? Va) then w
  else with_wmem (movable_pages (npages Va End) (wmem w) Va Movable) w.

(** ** The bitmap's lemmas *)

Lemma land_pow2 x b : 0 <= b -> negb (Z.land x (2 ^ b) =? 0) = Z.testbit x b.
Proof.
  intros Hb. destruct (Z.testbit x b) eqn:E.
  - destruct (Z.eqb_spec (Z.land x (2 ^ b)) 0) as [H0 | ?]; [| done]. exfalso.
    assert (Z.testbit (Z.land x (2 ^ b)) b = true) by (rewrite Z.land_spec, E, Z.pow2_bits_true by lia; done).
    rewrite H0, Z.bits_0 in *. done.
  - assert (H0 : Z.land x (2 ^ b) = 0).
    { apply Z.bits_inj'. intros n Hn. rewrite Z.land_spec, Z.bits_0. destruct (Z.eq_dec n b) as [-> | Hne]; [by rewrite E |].
      rewrite Z.pow2_bits_false by done. apply andb_false_r. }
    by rewrite H0.
Qed.

Lemma bit_mask i : 0 <= i -> shl32 1 (Z.land i 31) = 2 ^ (i mod 32) /\ 0 <= i mod 32 < 32.
Proof.
  intros Hi. change 31 with (Z.ones 5). rewrite Z.land_ones by lia. change (2 ^ 5) with 32.
  pose proof (Z.mod_pos_bound i 32 ltac:(lia)). split; [| done].
  unfold shl32. rewrite Z.shiftl_1_l. apply u32_id. split; [apply Z.pow_nonneg; lia | apply Z.pow_lt_mono_r; lia].
Qed.

Lemma used_bit_testbit map i : 0 <= i -> used_bit map i = Z.testbit (rd map (i / 32)) (i mod 32).
Proof.
  intros Hi. unfold used_bit. destruct (bit_mask i Hi) as [-> Hb]. rewrite Z.shiftr_div_pow2 by lia.
  apply land_pow2. lia.
Qed.

(** Every word of the bitmap is a 32-bit value. *)
Definition map_ok (map : gmap Z Z) : Prop := forall j, is_u32 (rd map j).

Lemma set_bit_spec map i v : map_ok map -> 0 <= i ->
  map_ok (set_bit map i v) /\ forall j, 0 <= j -> used_bit (set_bit map i v) j = if decide (j = i) then v else used_bit map j.
Proof.
  intros M Hi. destruct (bit_mask i Hi) as [Em Hb]. unfold set_bit. rewrite Em, Z.shiftr_div_pow2 by lia. change (2 ^ 5) with 32.
  assert (H2 : is_u32 (2 ^ (i mod 32))) by (split; [apply Z.pow_nonneg; lia | apply Z.pow_lt_mono_r; lia]).
  set (k := i / 32). pose proof (M k) as Mk.
  assert (Hbits : forall x n, is_u32 x -> 32 <= n -> Z.testbit x n = false).
  { intros x n Hx Hn. destruct (Z.eq_dec x 0) as [-> | ?]; [apply Z.bits_0 |].
    apply Z.bits_above_log2; [apply Hx |]. pose proof (Z.log2_lt_pow2 x 32). unfold is_u32 in *. lia. }
  set (x := if v then Z.lor (rd map k) (2 ^ (i mod 32)) else Z.land (rd map k) (not32 (2 ^ (i mod 32)))).
  assert (Ex : (if v then <[k := Z.lor (rd map k) (2 ^ (i mod 32))]> map
                else <[k := Z.land (rd map k) (not32 (2 ^ (i mod 32)))]> map) = <[k := x]> map) by (unfold x; by destruct v).
  rewrite Ex.
  assert (Tx : forall n, 0 <= n -> Z.testbit x n = if decide (n = i mod 32) then v else Z.testbit (rd map k) n).
  { intros n Hn. unfold x. destruct v.
    - rewrite Z.lor_spec. case_decide as E; [subst; rewrite Z.pow2_bits_true by lia; apply orb_true_r |].
      rewrite Z.pow2_bits_false by congruence. apply orb_false_r.
    - rewrite land_not32 by done. rewrite Z.ldiff_spec. case_decide as E; [subst; rewrite Z.pow2_bits_true by lia; apply andb_false_r |].
      rewrite Z.pow2_bits_false by congruence. apply andb_true_r. }
  assert (Hx : is_u32 x).
  { assert (0 <= x) as H0 by (unfold x; destruct v; [apply Z.lor_nonneg | apply Z.land_nonneg]; unfold is_u32 in *; lia).
    split; [done |]. destruct (Z.lt_ge_cases x (2 ^ 32)) as [? | Hge]; [done |]. exfalso.
    pose proof (Z.log2_le_pow2 x 32 ltac:(lia)) as HL. apply HL in Hge.
    assert (E : Z.testbit x (Z.log2 x) = true) by (apply Z.bit_log2; unfold is_u32 in *; lia).
    rewrite Tx in E by lia. rewrite decide_False in E by lia. by rewrite Hbits in E by (done || lia). }
  split.
  - intros j. rewrite rd_insert. by case_decide.
  - intros j Hj. rewrite !used_bit_testbit by done. rewrite rd_insert. pose proof (Z.mod_pos_bound j 32 ltac:(lia)).
    pose proof (Z.div_mod i 32 ltac:(lia)) as Di. pose proof (Z.div_mod j 32 ltac:(lia)) as Dj. unfold k in *.
    destruct (decide (i / 32 = j / 32)) as [E | E].
    + rewrite Tx by lia. destruct (decide (j mod 32 = i mod 32)); [rewrite decide_True by lia; done |].
      rewrite decide_False by congruence. by rewrite E.
    + by rewrite decide_False by congruence.
Qed.

Lemma set_range_spec map n i v : map_ok map -> 0 <= i ->
  map_ok (set_range map n i v) /\
  forall j, 0 <= j -> used_bit (set_range map n i v) j = if decide (i <= j < i + Z.of_nat n) then v else used_bit map j.
Proof.
  revert map i. induction n as [|n IH]; intros map i M Hi; cbn [set_range].
  - split; [done |]. intros j Hj. by rewrite decide_False by lia.
  - destruct (set_bit_spec map i v M Hi) as [M1 U1]. destruct (IH _ (i + 1) M1 ltac:(lia)) as [M2 U2]. split; [done |].
    intros j Hj. rewrite U2, U1 by done. repeat case_decide; try done; lia.
Qed.

Lemma test_range_spec map n i : 0 <= i ->
  test_range map n i = true <-> forall j, i <= j < i + Z.of_nat n -> used_bit map j = false.
Proof.
  revert i. induction n as [|n IH]; intros i Hi; cbn [test_range]; [split; [lia | done] |].
  destruct (used_bit map i) eqn:E.
  - split; [done |]. intros H. rewrite H in E by lia. done.
  - rewrite IH by lia. split; intros H j Hj; [| apply H; lia].
    destruct (Z.eq_dec j i) as [-> | ?]; [done | apply H; lia].
Qed.

(** ** The search *)

(** [Count] unused pages at [s]. *)
Definition hole (w : window) (Count s : Z) : Prop :=
  0 <= s /\ s + Count <= NXPP_PAGES /\ forall j, s <= j < s + Count -> used_bit (NxppUsedMap w) j = false.

Lemma hole_test w Count s : 0 <= s -> 0 <= Count -> s + Count <= NXPP_PAGES -> NxppTestRange w s Count = true <-> hole w Count s.
Proof. intros Hs Hc Hr. unfold NxppTestRange, hole. rewrite test_range_spec, Z2Nat.id by done. tauto. Qed.

Lemma first_fit_spec w Count limit n s : 0 < Count < 2 ^ 21 -> 0 <= s <= 4096 -> 4096 < s + Z.of_nat n ->
  match first_fit w n Count limit s with
  | Some r => s <= r < limit /\ hole w Count r /\ forall t, s <= t < r -> ~ hole w Count t
  | None => forall t, s <= t < limit -> ~ hole w Count t
  end.
Proof.
  intros Hc. revert s. induction n as [|n IH]; intros s Hs Hn; cbn [first_fit]; [lia |].
  assert (Hout : ~ (s < limit /\ s + Count <= NXPP_PAGES) -> forall t, s <= t < limit -> ~ hole w Count t).
  { unfold hole. intros Ho t Ht (_ & H1 & _). apply Ho. unfold NXPP_PAGES in *. lia. }
  destruct (Z.ltb_spec s limit) as [Hl | Hl]; [| cbn [andb]; apply Hout; lia].
  rewrite add32_id by lia. destruct (Z.leb_spec (s + Count) NXPP_PAGES) as [Hf | Hf]; cbn [andb]; [| apply Hout; lia].
  destruct (NxppTestRange w s Count) eqn:E.
  - split; [lia |]. split; [apply hole_test; try lia; done | lia].
  - assert (Hno : ~ hole w Count s) by (rewrite <- hole_test by lia; congruence).
    unfold NXPP_PAGES in Hf. specialize (IH (s + 1) ltac:(lia) ltac:(lia)). destruct (first_fit w n Count limit (s + 1)) as [r|].
    + destruct IH as (I1 & I2 & I3). split; [lia |]. split; [done |]. intros t Ht. destruct (Z.eq_dec t s) as [-> | ?]; [done | apply I3; lia].
    + intros t Ht. destruct (Z.eq_dec t s) as [-> | ?]; [done | apply IH; lia].
Qed.

(** First fit from the hint, wrapping once: a hole when there is one. *)
Lemma find_start_spec w Count : 0 < Count < 2 ^ 21 -> 0 <= NxppScanHint w < NXPP_PAGES ->
  match find_start w Count with
  | Some s => hole w Count s
  | None => forall s, ~ hole w Count s
  end.
Proof.
  intros Hc Hh. unfold find_start, NXPP_PAGES in *.
  pose proof (first_fit_spec w Count (2 ^ 32) (S (Z.to_nat 4096)) (NxppScanHint w) Hc ltac:(lia) ltac:(lia)) as P1.
  destruct (first_fit w _ Count (2 ^ 32) _) as [s|]; [by destruct P1 as (_ & ? & _) |].
  pose proof (first_fit_spec w Count (NxppScanHint w) (S (Z.to_nat 4096)) 0 Hc ltac:(lia) ltac:(lia)) as P2.
  destruct (first_fit w _ Count (NxppScanHint w) 0) as [s|]; [by destruct P2 as (_ & ? & _) |].
  intros s Hs. pose proof Hs as (H0 & H1 & _). unfold NXPP_PAGES in H1.
  destruct (Z.lt_ge_cases s (NxppScanHint w)); [apply (P2 s); [lia | done] | apply (P1 s); [lia | done]].
Qed.

(** ** The page-table side *)

(** The page of index [i] in the window, as a self-map index. *)
Definition wpage (i : Z) : Z := 0xC1000 + i.
Definition pool_page (k : Z) : Prop := 0xC1000 <= k < 0xC2000.
Definition window_pde (k : Z) : Prop := 0xC0304 <= k < 0xC0308.

Local Opaque free_set NxpUnlink.

Lemma window_pdx k : pool_page k -> window_pde (pdx k) /\ 0 < pdx k < 2 ^ 20.
Proof.
  unfold pool_page, window_pde, pdx. intros Hk. assert (0x304 <= k / 1024 < 0x308); [| lia].
  split; [apply Z.div_le_lower_bound; lia | apply Z.div_lt_upper_bound; lia].
Qed.

Lemma window_block k j : pool_page k -> j / 1024 = k / 1024 -> pool_page j /\ pdx j = pdx k.
Proof.
  unfold pool_page, pdx. intros Hk E. rewrite E. split; [| done].
  pose proof (Z.div_mod j 1024 ltac:(lia)). pose proof (Z.mod_pos_bound j 1024 ltac:(lia)).
  assert (0x304 <= k / 1024 <= 0x307); [| lia].
  split; [apply Z.div_le_lower_bound; lia |]. assert (k / 1024 < 0x308) by (apply Z.div_lt_upper_bound; lia). lia.
Qed.

(** A frame in use. *)
Definition in_use (m : mm) (q : Z) : Prop := in_range (sup m) q /\ q ∉ free_set (sup m).

Lemma in_use_cases m q : in_use m q -> pinned m q \/ owned m (link (sup m) q) q.
Proof. intros [Hr Hf]. unfold pinned, owned. destruct (Z.eq_dec (link (sup m) q) 0); [by left | by right]. Qed.

(** The frames in use outside [D] stay so, with their owners and contents. *)
Record frames_kept (D : Z -> Prop) (m m' : mm) : Prop := {
  fk_owned : forall j q, owned m j q -> ~ D q -> owned m' j q;
  fk_pinned : forall q, pinned m q -> ~ D q -> pinned m' q;
  fk_frame : forall q, in_use m q -> ~ D q -> frame_at m' q = frame_at m q;
  fk_high : NxpHighestPfn (sup m') = NxpHighestPfn (sup m)
}.

Lemma frames_kept_use D m m' q : frames_kept D m m' -> in_use m q -> ~ D q ->
  in_use m' q /\ link (sup m') q = link (sup m) q.
Proof.
  intros K Hu Hd. destruct (in_use_cases m q Hu) as [Hp | Ho].
  - destruct (fk_pinned _ _ _ K q Hp Hd) as (A & B & C). destruct Hp as (_ & _ & ->). by repeat split; try apply A.
  - destruct (fk_owned _ _ _ K _ q Ho Hd) as (A & B & C & _). by repeat split; try apply A.
Qed.

Lemma frames_kept_refl D m : frames_kept D m m.
Proof. by constructor. Qed.

Lemma frames_kept_trans D E m1 m2 m3 : frames_kept D m1 m2 -> frames_kept E m2 m3 ->
  frames_kept (fun q => D q \/ E q) m1 m3.
Proof.
  intros K1 K2. constructor.
  - intros j q Ho Hd. apply (fk_owned _ _ _ K2); [apply (fk_owned _ _ _ K1) |]; tauto.
  - intros q Hp Hd. apply (fk_pinned _ _ _ K2); [apply (fk_pinned _ _ _ K1) |]; tauto.
  - intros q Hu Hd. rewrite (fk_frame _ _ _ K2), (fk_frame _ _ _ K1); try tauto.
    apply (frames_kept_use _ _ _ _ K1); tauto.
  - rewrite (fk_high _ _ _ K2). apply (fk_high _ _ _ K1).
Qed.

Lemma frames_kept_mono D E m m' : frames_kept D m m' -> (forall q, in_use m q -> D q -> E q) -> frames_kept E m m'.
Proof.
  intros K H. constructor.
  - intros j q Ho He. apply (fk_owned _ _ _ K); [done |]. intros Hd. apply He, H; [| done]. destruct Ho as (? & ? & _). by split.
  - intros q Hp He. apply (fk_pinned _ _ _ K); [done |]. intros Hd. apply He, H; [| done]. destruct Hp as (? & ? & _). by split.
  - intros q Hu He. apply (fk_frame _ _ _ K); [done |]. intros Hd. by apply He, H.
  - apply (fk_high _ _ _ K).
Qed.

Definition none (q : Z) : Prop := False.

Lemma frames_kept_none m1 m2 m3 : frames_kept none m1 m2 -> frames_kept none m2 m3 -> frames_kept none m1 m3.
Proof. intros K1 K2. eapply frames_kept_mono; [by eapply frames_kept_trans |]. unfold none. tauto. Qed.

(** The window's page tables: an owned directory entry is present, and under
    an absent one every entry reads zero. *)
Record tables_ok (m : mm) : Prop := {
  tb_mm : mm_wf m;
  tb_pde : forall k p, window_pde k -> owned m k p -> present (pte m k) = true;
  tb_block : forall k, pool_page k -> present (pte m (pdx k)) = false -> pte m k = 0
}.

(** What changed outside the window's own entries: nothing. *)
Definition outside_same (m m' : mm) : Prop := forall k, ~ pool_page k -> ~ window_pde k -> pte m' k = pte m k.

(** [free frames that single-page requests may take]. *)
Definition takable (m : mm) : gset Z := filter (fun q => 16 <= q) (free_set (sup m)).

Lemma shl_entry p b : 0 <= p <= NXP_PFN_MASK -> 0 <= b < 4096 -> Z.lor (shl32 p PAGE_SHIFT) b = entry p b.
Proof.
  intros Hp Hb. unfold NXP_PFN_MASK, PAGE_SHIFT, shl32 in *. rewrite Z.shiftl_mul_pow2, u32_id by lia.
  rewrite lor_mul_pow2_small by lia. done.
Qed.

Lemma entry3 p : 0 < p <= NXP_PFN_MASK ->
  present (entry p 3) = true /\ entry p 3 / 2 ^ 12 = p /\ entry p 3 <> 0 /\ 0 <= entry p 3 < 2 ^ 32 /\ Z.land (entry p 3) 1 <> 0.
Proof.
  intros Hp. unfold NXP_PFN_MASK in Hp. assert (E : present (entry p 3) = true) by (unfold present; rewrite flag_entry by (unfold NXV_PTE_P; lia); done).
  split; [done |]. split; [apply entry_frame; lia |]. split; [unfold entry; lia |]. split; [unfold entry; lia |].
  unfold present, BooleanFlagOn, NXV_PTE_P in E. destruct (Z.eqb_spec (Z.land (entry p 3) 1) 0); done.
Qed.

Lemma frame_pfn m p : mm_wf m -> p ∈ free_set (sup m) -> 0 < p <= NXP_PFN_MASK.
Proof.
  intros W Hp. pose proof (free_set_range _ _ (mm_sup _ W) Hp). pose proof (wf_highest _ (mm_sup _ W)).
  unfold in_range, NXP_PFN_MASK in *. lia.
Qed.

Lemma takable_empty m : (forall q, q ∈ free_set (sup m) -> q < 16) -> takable m = ∅.
Proof. intros H. unfold takable. apply set_eq. intros q. rewrite elem_of_filter. split; [| set_solver]. intros [? Hq%H]. lia. Qed.

(** The frame an entry names. *)
Definition fr (m : mm) (k : Z) : Z := pte m k / 2 ^ 12.

(** *** The balance of frames

    Frame [q] is behind a present entry of [D]. *)
Definition backs (D : Z -> Prop) (m : mm) (q : Z) : Prop := exists k, D k /\ present (pte m k) = true /\ fr m k = q.

(** The free frames and those behind the entries of [D], together, are the
    same: none is lost and none is made up. *)
Definition conserved (D : Z -> Prop) (m m' : mm) : Prop :=
  forall q, q ∈ free_set (sup m') \/ backs D m' q <-> q ∈ free_set (sup m) \/ backs D m q.

Lemma conserved_refl D m : conserved D m m.
Proof. done. Qed.

Lemma conserved_trans D m1 m2 m3 : conserved D m1 m2 -> conserved D m2 m3 -> conserved D m1 m3.
Proof. intros A B q. by rewrite (B q). Qed.

(** A free frame entered where no frame was. *)
Lemma conserved_enter (D : Z -> Prop) m k p m' : D k -> present (pte m k) = false -> p ∈ free_set (sup m) -> 0 < p <= NXP_PFN_MASK ->
  free_set (sup m') = free_set (sup m) ∖ {[p]} -> (forall j, pte m' j = if decide (k = j) then entry p 3 else pte m j) -> conserved D m m'.
Proof.
  intros Hk E0 Hp Hb F P q. destruct (entry3 p Hb) as (E1 & E2 & _). rewrite F, elem_of_difference, elem_of_singleton. split.
  - intros [[? _] | (j & Hj & Hn & <-)]; [by left |]. unfold fr. rewrite P in *. case_decide; [left; by rewrite E2 | right; by exists j].
  - intros [Hq | (j & Hj & Hn & <-)].
    + destruct (decide (q = p)) as [-> | Hne]; [right | by left]. exists k. unfold fr. by rewrite P, decide_True.
    + right. exists j. unfold fr. rewrite P, decide_False by congruence. done.
Qed.

(** The frame of an entry freed and the entry cleared. *)
Lemma conserved_release (D : Z -> Prop) m k m' : D k -> present (pte m k) = true -> free_set (sup m') = {[fr m k]} ∪ free_set (sup m) ->
  (forall j, pte m' j = if decide (k = j) then 0 else pte m j) -> conserved D m m'.
Proof.
  intros Hk Hn F P q. rewrite F, elem_of_union, elem_of_singleton. split.
  - intros [[-> | ?] | (j & Hj & Hz & <-)]; [right; by exists k | by left | right].
    rewrite P in Hz. case_decide; [done |]. exists j. unfold fr. by rewrite P, decide_False.
  - intros [? | (j & Hj & Hz & <-)]; [by left; right |]. destruct (decide (k = j)) as [<- | Hne]; [by left; left | right].
    exists j. unfold fr. by rewrite P, decide_False.
Qed.

(** The window's pages and its part of the directory. *)
Definition window_entry (k : Z) : Prop := pool_page k \/ window_pde k.

(** The directory is as it was, but for missing tables over the pages [lo]
    to [hi - 1]. *)
Definition tables_added (lo hi : Z) (m m' : mm) : Prop :=
  forall j, window_pde j -> pte m' j = pte m j \/ present (pte m j) = false /\ exists i, lo <= i < hi /\ pdx i = j.

Lemma tables_added_trans lo hi m1 m2 m3 : tables_added lo hi m1 m2 -> tables_added lo hi m2 m3 -> tables_added lo hi m1 m3.
Proof. intros A B j Hj. destruct (A j Hj) as [E | ?]; [| by right]. rewrite <- E. by apply B. Qed.

Lemma tables_added_mono lo hi lo' hi' m m' : lo' <= lo -> hi <= hi' -> tables_added lo hi m m' -> tables_added lo' hi' m m'.
Proof. intros Hl Hh A j Hj. destruct (A j Hj) as [? | (? & i & ? & ?)]; [by left | right]. split; [done |]. exists i. split; [lia | done]. Qed.

Lemma back_table_spec m k : tables_ok m -> pool_page k ->
  exists b m', back_table m (4096 * k) = Some (b, m') /\ tables_ok m' /\ frames_kept none m m' /\ outside_same m m' /\
  conserved window_entry m m' /\ tables_added k (k + 1) m m' /\
  (forall j, pool_page j -> pte m' j = pte m j) /\
  (b = false -> m' = m /\ takable m = ∅) /\
  (b = true -> present (pte m' (pdx k)) = true /\ (forall j, present (pte m j) = true -> present (pte m' j) = true) /\
     free_set (sup m') ⊆ free_set (sup m)).
Proof.
  intros T Hk. pose proof (tb_mm _ T) as Wm. destruct (window_pdx k Hk) as [Hd Hd2].
  unfold back_table. change (NXPP_PDE (4096 * k)) with (NXV_PDE (4096 * k)). rewrite NXV_PDE_page.
  change (negb (Z.land (pte m (pdx k)) 1 =? 0)) with (present (pte m (pdx k))).
  destruct (present (pte m (pdx k))) eqn:HP.
  { exists true, m. split; [done |]. split; [done |]. split; [apply frames_kept_refl |]. split; [done |]. split; [done |].
    split; [intros j _; by left |]. by repeat split. }
  destruct (take_zero_spec m Wm) as (p & m1 & -> & [(-> & -> & Hex) | (s' & Tk & Hp16 & ->)]).
  { exists false, m. split; [done |]. split; [done |]. split; [apply frames_kept_refl |]. split; [done |]. split; [done |].
    split; [intros j _; by left |]. split; [done |]. split; [intros _; split; [done | by apply takable_empty] | done]. }
  destruct (Z.eqb_spec p 0) as [? | _]; [lia |]. pose proof Tk as (_ & Hpf & _). pose proof (frame_pfn m p Wm Hpf) as Hp.
  unfold NXPP_PTE_BITS. rewrite shl_entry by lia. destruct (entry3 p Hp) as (E1 & E2 & _).
  destruct (install_table_mm m p s' k (entry p 3) Wm Tk Hd2 E2) as (W4 & F4 & O4 & P4 & T4 & Fr4 & H4).
  { intros j Hj. destruct (window_block k j Hk Hj) as [Hwj Ej]. apply (tb_block _ T); [done | by rewrite Ej]. }
  { intros q Ho. by rewrite (tb_pde _ T _ _ Hd Ho) in HP. }
  eexists true, _. split; [done |]. set (m4 := with_sup _ _) in *.
  assert (Tw : forall j, pool_page j -> pte m4 j = pte m j).
  { intros j Hj. rewrite T4, decide_False; [done |]. unfold pool_page, window_pde in *. lia. }
  assert (Tp : forall j, present (pte m j) = true -> present (pte m4 j) = true) by (intros j Hj; rewrite T4; by case_decide).
  split.
  { constructor; [done | |].
    - intros j q Hj [Ho | [-> _]]%O4; [apply Tp; by apply (tb_pde _ T j q) | by rewrite T4, decide_True].
    - intros j Hj Ha. rewrite Tw by done. apply (tb_block _ T); [done |].
      destruct (present (pte m (pdx j))) eqn:E; [| done]. by rewrite (Tp _ E) in Ha. }
  split.
  { constructor; [intros j q Ho _; apply O4; auto | auto | | done]. intros q [_ Hq] _. apply Fr4. congruence. }
  split; [intros j Hj1 Hj2; rewrite T4, decide_False; [done | congruence] |].
  split; [apply (conserved_enter _ m (pdx k) p m4); try done; by right |].
  split; [intros j Hj; rewrite T4; case_decide as Hjk; [right; rewrite <- Hjk; split; [done |]; exists k; split; [lia | done] | by left] |].
  split; [done |]. split; [done |].
  intros _. split; [by rewrite T4, decide_True |]. split; [done |]. rewrite F4. set_solver.
Qed.

(** Page [k] holds frame [p], which belongs to it or to nobody. *)
Definition mapped (m : mm) (k p : Z) : Prop :=
  pte m k = entry p 3 /\ in_use m p /\ (link (sup m) p = 0 \/ link (sup m) p = k).

Lemma mapped_pfn m k p : mm_wf m -> mapped m k p -> 0 < p <= NXP_PFN_MASK.
Proof.
  intros W (_ & [Hr _] & _). pose proof (wf_highest _ (mm_sup _ W)). unfold in_range, NXP_PFN_MASK in *. lia.
Qed.

Lemma mapped_kept D m m' k p : frames_kept D m m' -> pte m' k = pte m k -> ~ D p -> mapped m k p -> mapped m' k p.
Proof.
  intros K E Hd (H1 & H2 & H3). destruct (frames_kept_use _ _ _ _ K H2 Hd) as [U L]. unfold mapped. rewrite E, L. auto.
Qed.

Lemma back_page_spec m k : tables_ok m -> pool_page k -> pte m k = 0 ->
  exists b m', back_page m (4096 * k) = Some (b, m') /\ tables_ok m' /\ frames_kept none m m' /\ outside_same m m' /\
  conserved window_entry m m' /\ tables_added k (k + 1) m m' /\
  (forall j, pool_page j -> j <> k -> pte m' j = pte m j) /\
  (forall j, window_pde j -> present (pte m j) = true -> present (pte m' j) = true) /\
  (b = false -> pte m' k = 0 /\ takable m' = ∅) /\
  (b = true -> exists p, p ∈ free_set (sup m) /\ 16 <= p /\ pte m' k = entry p 3 /\ owned m' k p /\
     present (pte m' (pdx k)) = true /\ free_set (sup m') ⊆ free_set (sup m)).
Proof.
  intros T Hk H0. unfold back_page.
  destruct (back_table_spec m k T Hk) as (b1 & m1 & -> & T1 & K1 & S1 & C1 & A1 & P1 & F1 & G1).
  destruct b1; [| destruct (F1 eq_refl) as [-> Hex]].
  2: { exists false, m. do 6 (split; [done |]). split; [done |]. split; [done |]. by split. }
  destruct (G1 eq_refl) as (Pd & Pm & Sub). clear F1 G1. pose proof (tb_mm _ T1) as W1.
  destruct (take_any_spec (sup m1) (mm_sup _ W1)) as (p & s' & -> & [(-> & -> & Hex) | [Tk [Hp16 _]]]).
  { exists false, m1. cbn [Z.eqb]. split; [by destruct m1 |]. do 5 (split; [done |]).
    split; [intros j Hj _; by apply P1 |]. split; [intros j _; apply Pm |]. split; [| done]. intros _.
    split; [by rewrite P1 | by apply takable_empty]. }
  destruct (Z.eqb_spec p 0) as [? | _]; [lia |]. pose proof Tk as (Ws & Hpf & Fs & Ls & Us & Hs).
  pose proof (frame_pfn m1 p W1 Hpf) as Hp. destruct (entry3 p Hp) as (E1 & E2 & E3 & E4 & _).
  unfold NXPP_PTE_BITS. change (NXPP_PTE (4096 * k)) with (NXV_PTE (4096 * k)). rewrite NXV_PTE_page, shl_entry by lia.
  destruct (took_mm m1 p s' W1 Tk) as [W2 _]. set (m2 := with_sup s' m1) in *.
  assert (Pn : pinned m2 p).
  { split; [unfold in_range; cbn; rewrite Hs; apply (free_set_range _ _ (mm_sup _ W1) Hpf) |]. split; [cbn; rewrite Fs; set_solver | done]. }
  assert (Hno : forall q, ~ owned m2 k q).
  { intros q Ho. pose proof (mm_owner _ W2 _ _ Ho) as E. change (pte m2 k) with (pte m1 k) in E. rewrite P1, H0 in E by done.
    destruct Ho as ((Hq & _) & _). change (0 / 2 ^ 12) with 0 in E. lia. }
  destruct (map_frame_mm m2 k (entry p 3) p W2 Pn ltac:(unfold pool_page in Hk; lia) E2 Hno) as (W3 & F3 & O3 & P3 & T3 & Fr3 & H3).
  eexists true, _. split; [done |]. set (m3 := with_sup _ _). change m3 with (map_frame k (entry p 3) p m2).
  clear m3. set (m3 := map_frame k (entry p 3) p m2) in *.
  assert (Ow : forall j q, owned m2 j q <-> owned m1 j q) by (intros; apply (took_owned m1 p s'); [apply W1 | done]).
  assert (K3 : frames_kept none m1 m3).
  { constructor; [intros j q Ho _; apply O3; left; by apply Ow | | | by rewrite H3; cbn].
    - intros q Hq _. apply P3; [intros ->; by destruct Hq as (_ & ? & _) |]. by apply (took_pinned m1 p s' q (mm_sup _ W1) Tk).
    - intros q [_ Hq] _. by rewrite Fr3. }
  assert (D : forall j, j <> k -> pte m3 j = pte m1 j) by (intros j Hj; rewrite T3, decide_False; done).
  assert (Dk : forall j, window_pde j -> j <> k) by (unfold window_pde, pool_page in *; lia).
  split; [constructor; [done | |] |].
  - intros j q Hj [Ho%Ow | [-> _]]%O3; [rewrite D by auto; by apply (tb_pde _ T1 j q) | by specialize (Dk _ Hj)].
  - intros j Hj Ha. rewrite D in Ha by (apply Dk; by apply window_pdx). destruct (decide (j = k)) as [-> | Hne].
    + congruence.
    + rewrite D by done. by apply (tb_block _ T1).
  - split; [by eapply frames_kept_none |]. split.
    { intros j Hj1 Hj2. rewrite D by (intros ->; done). by apply S1. }
    split.
    { apply (conserved_trans _ _ m1); [done |]. apply (conserved_enter _ m1 k p m3); [by left | by rewrite P1, H0 | done | done | | done].
      rewrite F3. cbn. exact Fs. }
    split; [intros j Hj; rewrite D by auto; by apply A1 |].
    split; [intros j Hj Hne; rewrite D, P1; done |]. split; [intros j Hj Ha; rewrite D by auto; by apply Pm |]. split; [done |].
    intros _. exists p. split; [by apply Sub |]. split; [done |]. split; [by rewrite T3, decide_True |].
    split; [apply O3; auto |]. split; [rewrite D by (apply Dk; by apply window_pdx); done |].
    rewrite F3. cbn. rewrite Fs. set_solver.
Qed.

Lemma drop_page_spec m k p : tables_ok m -> pool_page k -> mapped m k p ->
  let m' := drop_page m (4096 * k) in
  tables_ok m' /\ frames_kept (eq p) m m' /\ free_set (sup m') = {[p]} ∪ free_set (sup m) /\
  (forall j, pte m' j = if decide (k = j) then 0 else pte m j).
Proof.
  intros T Hk M m'. pose proof (tb_mm _ T) as W. pose proof (mapped_pfn m k p W M) as Hp. destruct M as (E & [Hr Hf] & Hl).
  destruct (entry3 p Hp) as (_ & E2 & _).
  assert (Em : m' = unmap_frame k p m).
  { unfold m', drop_page. change (NXPP_PTE (4096 * k)) with (NXV_PTE (4096 * k)). rewrite NXV_PTE_page, E.
    unfold PAGE_SHIFT. rewrite Z.shiftr_div_pow2, E2 by lia. done. }
  destruct (unmap_used_mm m k p W Hr Hf ltac:(by rewrite E)) as (W' & F' & O' & P' & T' & Fr' & H'). rewrite <- Em in *.
  assert (Dk : forall j, window_pde j -> k <> j) by (unfold window_pde, pool_page in *; lia).
  split; [constructor; [done | |] |].
  - intros j q Hj [Ho _]%O'. rewrite T', decide_False by auto. by apply (tb_pde _ T j q).
  - intros j Hj. rewrite T', decide_False by (apply Dk; by apply window_pdx). intros Ha. rewrite T'. case_decide; [done |]. by apply (tb_block _ T).
  - split; [| by split]. constructor; [| | | done].
    + intros j q Ho Hd. apply O'. split; [done | congruence].
    + intros q Hq Hd. apply P'; [congruence | done].
    + intros q _ _. apply Fr'.
Qed.

(** ** Runs of pages *)

Definition drop_all (ks : list Z) (m : mm) : mm := fold_left (fun m k => drop_page m (4096 * k)) ks m.

Lemma unwind_drop_all n m k : unwind n m (4096 * k) = drop_all (map (fun i => k - 1 - Z.of_nat i) (seq 0 n)) m.
Proof.
  revert m k. induction n as [|n IH]; intros m k; [done |]. cbn [unwind seq map drop_all fold_left].
  replace (4096 * k - 4096) with (4096 * (k - 1)) by lia. rewrite IH. unfold drop_all. rewrite <- seq_shift, map_map.
  replace (k - 1 - Z.of_nat 0) with (k - 1) by lia. f_equal. apply map_ext. intros i. lia.
Qed.

Lemma drop_run_drop_all n m k : drop_run n m (4096 * k) = drop_all (map (fun i => k + Z.of_nat i) (seq 0 n)) m.
Proof.
  revert m k. induction n as [|n IH]; intros m k; [done |]. cbn [drop_run seq map drop_all fold_left].
  replace (4096 * k + 4096) with (4096 * (k + 1)) by lia. rewrite IH. unfold drop_all. rewrite <- seq_shift, map_map.
  replace (k + Z.of_nat 0) with k by lia. f_equal. apply map_ext. intros i. lia.
Qed.

Lemma elem_of_list_here' (k : Z) ks : k ∈ k :: ks.
Proof. apply elem_of_cons. by left. Qed.

Lemma elem_of_further (k j : Z) ks : j ∈ ks -> j ∈ k :: ks.
Proof. intros Hj. apply elem_of_cons. by right. Qed.

Lemma size_of_list (l : list Z) : (size (list_to_set l : gset Z) <= length l)%nat.
Proof.
  induction l as [|x l IH]; [done |]. cbn [list_to_set length]. rewrite size_union_alt, size_singleton.
  assert ((size ((list_to_set l : gset Z) ∖ {[x]}) <= size (list_to_set l : gset Z))%nat); [| lia].
  apply subseteq_size. intros y Hy. by apply elem_of_difference in Hy as [].
Qed.

Lemma drop_all_spec ks m : tables_ok m -> NoDup ks -> (forall k, k ∈ ks -> pool_page k /\ mapped m k (fr m k)) ->
  (forall j k, j ∈ ks -> k ∈ ks -> fr m j = fr m k -> j = k) ->
  let m' := drop_all ks m in
  tables_ok m' /\ frames_kept (fun q => exists k, k ∈ ks /\ q = fr m k) m m' /\
  (forall q, q ∈ free_set (sup m') <-> q ∈ free_set (sup m) \/ exists k, k ∈ ks /\ q = fr m k) /\ conserved window_entry m m' /\
  (forall j, pte m' j = if decide (j ∈ ks) then 0 else pte m j).
Proof.
  revert m. induction ks as [|k ks IH]; intros m T N M I; cbn [drop_all fold_left].
  - split; [done |]. split; [apply frames_kept_refl |]. split; [| by split]. intros q. split; [by left |].
    intros [? | (k & Hk & _)]; [done | by apply not_elem_of_nil in Hk].
  - apply NoDup_cons in N as [Nk N]. destruct (M k (elem_of_list_here' k ks)) as [Hk Mk].
    destruct (drop_page_spec m k _ T Hk Mk) as (T1 & K1 & F1 & P1). set (m1 := drop_page m (4096 * k)) in *.
    assert (Pj : forall j, j ∈ ks -> pte m1 j = pte m j) by (intros j Hj; rewrite P1, decide_False; [done | intros ->; done]).
    assert (Fj : forall j, j ∈ ks -> fr m1 j = fr m j) by (intros j Hj; unfold fr; by rewrite Pj).
    assert (C1 : conserved window_entry m m1).
    { apply (conserved_release _ m k m1); [by left | | done | done]. pose proof (mapped_pfn _ _ _ (tb_mm _ T) Mk) as Hp.
      destruct Mk as [-> _]. by apply entry3. }
    destruct (IH m1 T1 N) as (T2 & K2 & F2 & C2 & P2).
    { intros j Hj. destruct (M j (elem_of_further k j ks Hj)) as [Hw Mj]. split; [done |]. rewrite Fj by done.
      eapply mapped_kept; [exact K1 | by apply Pj | | done]. intros E. apply Nk. rewrite (I k j); [done | apply elem_of_list_here' | by apply elem_of_further | done]. }
    { intros i j Hi Hj. rewrite !Fj by done. apply I; by apply elem_of_further. }
    fold (drop_all ks m1). split; [done |]. split; [| split; [| split; [by eapply conserved_trans |]]].
    + eapply frames_kept_mono; [by eapply frames_kept_trans |]. intros q _ [<- | (j & Hj & ->)]; [exists k; split; [apply elem_of_list_here' | done] |].
      exists j. rewrite Fj by done. split; [by apply elem_of_further | done].
    + intros q. rewrite F2, F1, elem_of_union, elem_of_singleton. split.
      * intros [[-> | ?] | (j & Hj & ->)]; [right; exists k; split; [apply elem_of_list_here' | done] | by left |].
        right. exists j. rewrite Fj by done. split; [by apply elem_of_further | done].
      * intros [? | (j & Hj & ->)]; [by left; right |]. apply elem_of_cons in Hj as [-> | Hj]; [by left; left |].
        right. exists j. by rewrite Fj.
    + intros j. rewrite P2, P1. destruct (decide (j ∈ ks)) as [Hj | Hj]; [by rewrite decide_True by (by apply elem_of_further) |].
      destruct (decide (k = j)) as [<- | Hne]; [by rewrite decide_True by apply elem_of_list_here' |].
      rewrite decide_False; [done |]. intros [-> | ?]%elem_of_cons; done.
Qed.

(** Pages a run has entered: each entry owns its frame. *)
Definition run_owned (m : mm) (lo hi : Z) : Prop := forall j, lo <= j < hi -> pte m j = entry (fr m j) 3 /\ owned m j (fr m j).

Lemma run_owned_mapped m lo hi j : run_owned m lo hi -> lo <= j < hi -> mapped m j (fr m j).
Proof. intros R Hj. destruct (R j Hj) as (E & Hr & Hf & Hl & _). split; [done |]. split; [by split | by right]. Qed.

Lemma run_owned_inj m lo hi i j : run_owned m lo hi -> lo <= i < hi -> lo <= j < hi -> fr m i = fr m j -> i = j.
Proof. intros R Hi Hj E. destruct (R i Hi) as (_ & _ & _ & Li & _). destruct (R j Hj) as (_ & _ & _ & Lj & _). congruence. Qed.

(** Rolling a run back. *)
Lemma unwind_spec n m k : tables_ok m -> 0xC1000 <= k - Z.of_nat n -> k <= 0xC2000 -> run_owned m (k - Z.of_nat n) k -> takable m = ∅ ->
  let m' := unwind n m (4096 * k) in
  tables_ok m' /\ frames_kept (fun q => exists j, k - Z.of_nat n <= j < k /\ q = fr m j) m m' /\ conserved window_entry m m' /\
  (forall j, pte m' j = if decide (k - Z.of_nat n <= j < k) then 0 else pte m j) /\
  (size (takable m') <= n)%nat.
Proof.
  intros T H1 H2 R Hex. rewrite unwind_drop_all. set (ks := map _ _).
  assert (Hks : forall j, j ∈ ks <-> k - Z.of_nat n <= j < k).
  { intros j. unfold ks. rewrite list_elem_of_fmap. setoid_rewrite elem_of_seq. split; [intros (i & -> & Hi); lia |].
    intros Hj. exists (Z.to_nat (k - 1 - j)). lia. }
  destruct (drop_all_spec ks m T) as (T' & K' & F' & C' & P').
  - apply NoDup_fmap_2; [intros i j; lia | apply NoDup_seq].
  - intros j Hj%Hks. split; [unfold pool_page; lia | by eapply run_owned_mapped].
  - intros i j Hi%Hks Hj%Hks. by eapply run_owned_inj.
  - split; [done |]. split.
    { eapply frames_kept_mono; [exact K' |]. intros q _ (j & Hj%Hks & ->). by exists j. }
    split; [done |]. split; [intros j; rewrite P'; destruct (decide (j ∈ ks)) as [Hj | Hj]; rewrite Hks in Hj; [by rewrite decide_True | by rewrite decide_False] |].
    assert (Sub : takable (drop_all ks m) ⊆ list_to_set (map (fr m) ks)).
    { intros q. unfold takable. rewrite elem_of_filter, F', elem_of_list_to_set, list_elem_of_fmap.
      intros [Hq [Hf | (j & Hj & ->)]]; [| by exists j]. exfalso. apply (not_elem_of_empty (C := gset Z) q).
      rewrite <- Hex. unfold takable. rewrite elem_of_filter. done. }
    apply subseteq_size in Sub. rewrite Sub.
    etransitivity; [apply size_of_list |]. unfold ks. by rewrite !length_map, length_seq.
Qed.

(** What a backing loop may have done: entries outside the window are as
    they were, the directory only gained tables. *)
Record run_frame (lo hi : Z) (m m' : mm) : Prop := {
  rf_tables : tables_ok m';
  rf_outside : outside_same m m';
  rf_window : forall j, pool_page j -> ~ (lo <= j < hi) -> pte m' j = pte m j;
  rf_pde : forall j, window_pde j -> present (pte m j) = true -> present (pte m' j) = true;
  rf_conserved : conserved window_entry m m';
  rf_added : tables_added lo hi m m'
}.

Lemma run_owned_kept m m' lo hi : frames_kept none m m' -> (forall j, lo <= j < hi -> pte m' j = pte m j) ->
  run_owned m lo hi -> run_owned m' lo hi.
Proof.
  intros K E R j Hj. destruct (R j Hj) as [A B]. unfold fr. rewrite E by done. split; [done |].
  apply (fk_owned _ _ _ K); [done | intros []].
Qed.

Lemma back_run_spec n : forall dn m k, tables_ok m -> 0xC1000 <= k - Z.of_nat dn -> k + Z.of_nat n <= 0xC2000 ->
  run_owned m (k - Z.of_nat dn) k -> (forall j, k <= j < k + Z.of_nat n -> pte m j = 0) ->
  exists b m', back_run n dn m (4096 * k) = Some (b, m') /\ run_frame (k - Z.of_nat dn) (k + Z.of_nat n) m m' /\
  (b = true -> frames_kept none m m' /\ run_owned m' (k - Z.of_nat dn) (k + Z.of_nat n) /\
     free_set (sup m') ⊆ free_set (sup m) /\
     (forall j, k - Z.of_nat dn <= j < k -> pte m' j = pte m j) /\
     (forall j, k <= j < k + Z.of_nat n -> fr m' j ∈ free_set (sup m) /\ 16 <= fr m' j /\ present (pte m' (pdx j)) = true)) /\
  (b = false -> frames_kept (fun q => exists j, k - Z.of_nat dn <= j < k /\ q = fr m j) m m' /\
     (forall j, k - Z.of_nat dn <= j < k + Z.of_nat n -> pte m' j = 0) /\ (size (takable m') < dn + n)%nat).
Proof.
  induction n as [|n IH]; intros dn m k T H1 H2 R H0; cbn [back_run].
  - exists true, m. split; [done |]. split; [constructor; auto; done || (intros j _; by left) |]. split; [| done]. intros _. split; [apply frames_kept_refl |].
    split; [by replace (k + Z.of_nat 0) with k by lia |]. split; [done |]. split; [done |]. lia.
  - destruct (back_page_spec m k T ltac:(unfold pool_page; lia) ltac:(apply H0; lia))
      as (b & m1 & -> & T1 & K1 & S1 & C1 & A1 & P1 & D1 & F1 & G1). destruct b.
    + destruct (G1 eq_refl) as (p & Hpf & Hp16 & Ek & Ok & Pk & Sub). clear F1 G1.
      assert (Fk : fr m1 k = p).
      { unfold fr. rewrite Ek. apply entry_frame. lia. }
      assert (R1 : run_owned m1 (k + 1 - Z.of_nat (S dn)) (k + 1)).
      { intros j Hj. destruct (Z.eq_dec j k) as [-> | ?]; [by rewrite Fk |].
        apply (run_owned_kept m m1 (k - Z.of_nat dn) k); [done | | done | lia]. intros i Hi. apply P1; [unfold pool_page |]; lia. }
      destruct (IH (S dn) m1 (k + 1) T1 ltac:(lia) ltac:(lia) R1) as (b & m2 & E2 & RF & G2 & G3).
      { intros j Hj. rewrite P1 by (unfold pool_page; lia). apply H0. lia. }
      replace (4096 * k + 4096) with (4096 * (k + 1)) by lia. exists b, m2. split; [done |].
      replace (k + 1 - Z.of_nat (S dn)) with (k - Z.of_nat dn) in * by lia.
      replace (k + 1 + Z.of_nat n) with (k + Z.of_nat (S n)) in * by lia.
      destruct RF as [RT RO RW RD RC RA]. split; [constructor; [done | | | | by eapply conserved_trans |] | split].
      * intros j Hj1 Hj2. rewrite RO, S1; done.
      * intros j Hj Hn. rewrite RW, P1; [done | done | lia | done | lia].
      * auto.
      * eapply tables_added_trans; [eapply tables_added_mono; [| | exact A1]; lia | exact RA].
      * intros ->. destruct (G2 eq_refl) as (A & B & C & D & E). clear G2 G3. split; [by eapply frames_kept_none |]. split; [done |].
        split; [set_solver |]. split; [intros j Hj; rewrite D, P1 by (unfold pool_page; lia); done |].
        intros j Hj. destruct (Z.eq_dec j k) as [-> | ?].
        { assert (Ef : fr m2 k = p) by (unfold fr in *; rewrite D by lia; done). rewrite Ef. split; [done |]. split; [done |].
          apply RD; [apply window_pdx; unfold pool_page; lia | done]. }
        destruct (E j ltac:(lia)) as (E1 & E2' & E3). split; [set_solver |]. done.
      * intros ->. destruct (G3 eq_refl) as (A & B & C). clear G2 G3. split; [| split; [done | lia]].
        eapply frames_kept_mono; [eapply frames_kept_trans; [exact K1 | exact A] |].
        intros q [_ Hq] [[] | (j & Hj & ->)]. destruct (Z.eq_dec j k) as [-> | ?].
        { exfalso. apply Hq. by rewrite Fk. }
        exists j. split; [lia |]. unfold fr. by rewrite P1 by (unfold pool_page; lia).
    + destruct (F1 eq_refl) as [Ek Hex]. clear F1 G1.
      assert (R1 : run_owned m1 (k - Z.of_nat dn) k).
      { apply (run_owned_kept m m1); [done | | done]. intros i Hi. apply P1; [unfold pool_page |]; lia. }
      destruct (unwind_spec dn m1 k T1 H1 ltac:(lia) R1 Hex) as (T2 & K2 & C2 & P2 & Sz). set (m2 := unwind dn m1 (4096 * k)) in *.
      exists false, m2. split; [done |]. split; [constructor; [done | | | | by eapply conserved_trans |] | split; [done |]].
      * intros j Hj1 Hj2. rewrite P2, decide_False by (unfold pool_page in *; lia). by apply S1.
      * intros j Hj Hn. rewrite P2, decide_False by lia. apply P1; [done | lia].
      * intros j Hj Ha. rewrite P2, decide_False by (unfold window_pde in *; lia). by apply D1.
      * apply (tables_added_trans _ _ _ m1); [eapply tables_added_mono; [| | exact A1]; lia |].
        intros j Hj. left. rewrite P2, decide_False; [done | unfold window_pde in *; lia].
      * intros _. split; [| split; [| lia]].
        { eapply frames_kept_mono; [eapply frames_kept_trans; [exact K1 | exact K2] |].
          intros q _ [[] | (j & Hj & ->)]. exists j. split; [done |]. unfold fr. by rewrite P1 by (unfold pool_page; lia). }
        intros j Hj. rewrite P2. case_decide as Hd; [done |]. destruct (Z.eq_dec j k) as [-> | ?]; [done |].
        rewrite P1 by (unfold pool_page; lia). apply H0. lia.
Qed.

(** ** The window's invariant *)

Definition used (w : window) (i : Z) : bool := used_bit (NxppUsedMap w) i.

(** The length of the run that starts at a page, 0 for none. *)
Definition run_at (w : window) (s : Z) : Z := rd (NxppRunPages w) s.

(** The pages in use as a set, sealed against evaluation. *)
Definition used_pages_def (map : gmap Z Z) : gset Z := filter (fun i => used_bit map i = true) (pages_of 0 NXPP_PAGES).

Definition used_pages_aux : seal used_pages_def.
Proof. by eexists. Qed.

Definition used_pages : gmap Z Z -> gset Z := unseal used_pages_aux.

Lemma used_pages_eq : used_pages = used_pages_def.
Proof. apply seal_eq. Qed.

Record window_ok (w : window) : Prop := {
  wo_tables : tables_ok (wmem w);
  wo_map : map_ok (NxppUsedMap w);
  wo_page : forall i, 0 <= i < 4096 -> used w i = true ->
    mapped (wmem w) (wpage i) (fr (wmem w) (wpage i)) /\ present (pte (wmem w) (pdx (wpage i))) = true;
  wo_unused : forall i, 0 <= i < 4096 -> used w i = false -> pte (wmem w) (wpage i) = 0;
  wo_inj : forall i j, 0 <= i < 4096 -> 0 <= j < 4096 -> used w i = true -> used w j = true ->
    fr (wmem w) (wpage i) = fr (wmem w) (wpage j) -> i = j;
  wo_hint : 0 <= NxppScanHint w < NXPP_PAGES;
  wo_run : forall s, run_at w s <> 0 -> 0 <= s /\ 0 < run_at w s /\ s + run_at w s <= NXPP_PAGES;
  wo_runs : forall i, 0 <= i < 4096 -> used w i = true <-> exists s, s <= i < s + run_at w s;
  wo_apart : forall s t, run_at w s <> 0 -> run_at w t <> 0 -> s < t -> s + run_at w s <= t;
  wo_committed : NxppCommitted w = Z.of_nat (size (used_pages (NxppUsedMap w)));
  wo_ready : NxppReady w = true
}.

Lemma size_pages_of b n : 0 <= n -> Z.of_nat (size (pages_of b n)) = n.
Proof.
  intros Hn. unfold pages_of. rewrite size_list_to_set; [rewrite length_map, length_seq; lia |].
  apply NoDup_fmap_2; [intros i j; lia | apply NoDup_seq].
Qed.

Lemma elem_of_used_pages map i : i ∈ used_pages map <-> 0 <= i < 4096 /\ used_bit map i = true.
Proof. rewrite used_pages_eq. unfold used_pages_def, NXPP_PAGES. rewrite elem_of_filter, elem_of_pages_of by lia. tauto. Qed.

Lemma used_pages_bound map : Z.of_nat (size (used_pages map)) <= 4096.
Proof.
  assert (S : used_pages map ⊆ pages_of 0 NXPP_PAGES) by (intros i; rewrite used_pages_eq; unfold used_pages_def; rewrite elem_of_filter; tauto).
  apply subseteq_size in S. pose proof (size_pages_of 0 NXPP_PAGES ltac:(done)) as E. unfold NXPP_PAGES in *. lia.
Qed.

Lemma used_pages_set map s n v : map_ok map -> 0 <= s -> 0 <= n -> s + n <= 4096 ->
  (forall j, s <= j < s + n -> used_bit map j = negb v) ->
  Z.of_nat (size (used_pages (set_range map (Z.to_nat n) s v))) =
    Z.of_nat (size (used_pages map)) + (if v then n else - n).
Proof.
  intros M Hs Hn Hr Hf. destruct (set_range_spec map (Z.to_nat n) s v M Hs) as [_ U]. rewrite Z2Nat.id in U by done.
  assert (Hp : forall j, j ∈ pages_of s n <-> s <= j < s + n) by (intros j; apply elem_of_pages_of; lia).
  pose proof (size_pages_of s n Hn) as Sz. destruct v.
  - assert (E : used_pages (set_range map (Z.to_nat n) s true) = pages_of s n ∪ used_pages map).
    { apply set_eq. intros j. rewrite (elem_of_union (pages_of s n) _ j), (elem_of_used_pages map j), (elem_of_used_pages (set_range map _ s true) j), Hp.
      destruct (Z.lt_ge_cases j 0); [split; [intros [] | intros [?|[]]]; lia |]. rewrite U by done. case_decide; [| tauto].
      split; [by left |]. intros _. split; [lia | done]. }
    assert (Dj : pages_of s n ## used_pages map).
    { apply elem_of_disjoint. intros j Hj Hu. apply Hp in Hj. apply elem_of_used_pages in Hu as [_ Hu]. rewrite (Hf j Hj) in Hu. discriminate. }
    pose proof (size_union _ _ Dj) as Su. rewrite <- E in Su. clear - Su Sz. lia.
  - assert (E : used_pages map = pages_of s n ∪ used_pages (set_range map (Z.to_nat n) s false)).
    { apply set_eq. intros j. rewrite (elem_of_union (pages_of s n) _ j), (elem_of_used_pages map j), (elem_of_used_pages (set_range map _ s false) j), Hp.
      destruct (Z.lt_ge_cases j 0); [split; [intros [] | intros [?|[]]]; lia |]. rewrite U by done. case_decide as Hd.
      - rewrite (Hf j Hd). cbn [negb]. split; [by left |]. intros _. split; [lia | done].
      - tauto. }
    assert (Dj : pages_of s n ## used_pages (set_range map (Z.to_nat n) s false)).
    { apply elem_of_disjoint. intros j Hj Hu. apply Hp in Hj. apply elem_of_used_pages in Hu as [Hj2 Hu]. rewrite U, decide_True in Hu by lia. discriminate. }
    pose proof (size_union _ _ Dj) as Su. rewrite <- E in Su. clear - Su Sz. lia.
Qed.

Lemma bytes_to_pages b : 0 < b < 2 ^ 32 -> BYTES_TO_PAGES b = (b + 4095) / 4096 /\ 0 < (b + 4095) / 4096 < 2 ^ 21.
Proof.
  intros Hb. unfold BYTES_TO_PAGES. rewrite Z.shiftr_div_pow2 by lia. change 4095 with (Z.ones 12) at 1. rewrite Z.land_ones by lia.
  change (2 ^ 12) with 4096. pose proof (Z.div_mod b 4096 ltac:(lia)) as D. pose proof (Z.mod_pos_bound b 4096 ltac:(lia)) as M.
  assert (H1 : b / 4096 < 2 ^ 20) by (apply Z.div_lt_upper_bound; lia). pose proof (Z.div_pos b 4096 ltac:(lia) ltac:(lia)).
  destruct (Z.eqb_spec (b mod 4096) 0) as [E | E].
  - assert (Ev : (b + 4095) / 4096 = b / 4096) by (symmetry; apply (Z.div_unique _ _ _ 4095); lia). rewrite Ev, add32_id by lia. lia.
  - assert (Ev : (b + 4095) / 4096 = b / 4096 + 1) by (symmetry; apply (Z.div_unique _ _ _ (b mod 4096 - 1)); lia). rewrite Ev, add32_id by lia. lia.
Qed.

Lemma page_va s : NXPP_BASE + s * 4096 = 4096 * wpage s.
Proof. unfold NXPP_BASE, wpage. lia. Qed.

(** The pages in use keep their frames through a change that keeps frames
    and entries. *)
Lemma window_ok_backed w m' : window_ok w -> tables_ok m' -> frames_kept none (wmem w) m' ->
  (forall i, 0 <= i < 4096 -> pte m' (wpage i) = pte (wmem w) (wpage i)) ->
  (forall j, window_pde j -> present (pte (wmem w) j) = true -> present (pte m' j) = true) ->
  window_ok (with_wmem m' w).
Proof.
  intros [O1 O2 O3 O4 O5 O6 O7 O8 O9 O10 O11] T K P D. constructor; [exact T | exact O2 | | | | exact O6 | exact O7 | exact O8 | exact O9 | exact O10 | exact O11].
  - intros i Hi Hu. destruct (O3 i Hi Hu) as [A B]. cbn [wmem with_wmem]. unfold fr. rewrite P by done. split.
    + eapply mapped_kept; [exact K | by apply P | intros [] | done].
    + apply D; [| done]. apply window_pdx. unfold wpage, pool_page. lia.
  - intros i Hi Hu. cbn [wmem with_wmem]. rewrite P by done. by apply O4.
  - intros i j Hi Hj Hui Huj. cbn [wmem with_wmem]. unfold fr. rewrite !P by done. by apply O5.
Qed.

(** A fresh run entered at [s]. *)
Lemma window_ok_add w m' s n hint : window_ok w -> 0 < n -> hole w n s -> tables_ok m' -> frames_kept none (wmem w) m' ->
  run_owned m' (wpage s) (wpage s + n) ->
  (forall j, pool_page j -> ~ (wpage s <= j < wpage s + n) -> pte m' j = pte (wmem w) j) ->
  (forall j, window_pde j -> present (pte (wmem w) j) = true -> present (pte m' j) = true) ->
  (forall j, wpage s <= j < wpage s + n -> fr m' j ∈ free_set (sup (wmem w)) /\ present (pte m' (pdx j)) = true) ->
  0 <= hint < NXPP_PAGES ->
  window_ok (Window m' (NxppReady w) (<[s := n]> (NxppRunPages w)) (set_range (NxppUsedMap w) (Z.to_nat n) s true) hint
               (add32 (NxppCommitted w) n)).
Proof.
  intros [O1 O2 O3 O4 O5 O6 O7 O8 O9 O10 O11] Hn (Hs0 & Hs1 & Hs2) T K R P D Fp Hh. unfold NXPP_PAGES in *.
  destruct (set_range_spec (NxppUsedMap w) (Z.to_nat n) s true O2 Hs0) as [M' U']. rewrite Z2Nat.id in U' by lia.
  assert (Rt : forall t, rd (<[s := n]> (NxppRunPages w)) t = if decide (s = t) then n else run_at w t)
    by (intros t; apply rd_insert).
  assert (Hrs : forall t, run_at w t <> 0 -> t + run_at w t <= s \/ s + n <= t).
  { intros t Ht. destruct (O7 t Ht) as (A & B & C). destruct (Z.lt_ge_cases t s) as [Hlt | Hge].
    - left. destruct (Z.le_gt_cases (t + run_at w t) s); [done |]. exfalso.
      assert (used w s = true) as Hu by (apply O8; [lia | exists t; lia]). unfold used in Hu. rewrite Hs2 in Hu by lia. done.
    - right. destruct (Z.le_gt_cases (s + n) t); [done |]. exfalso.
      assert (used w t = true) as Hu by (apply O8; [lia | exists t; lia]). unfold used in Hu. rewrite Hs2 in Hu by lia. done. }
  assert (Hs3 : run_at w s = 0).
  { destruct (Z.eq_dec (run_at w s) 0) as [? | Hne]; [done |]. destruct (O7 s Hne). destruct (Hrs s Hne); lia. }
  assert (Pk : forall i, 0 <= i < 4096 -> ~ (s <= i < s + n) -> pte m' (wpage i) = pte (wmem w) (wpage i)).
  { intros i Hi Ho. apply P; unfold pool_page, wpage in *; lia. }
  assert (Old : forall i, 0 <= i < 4096 -> used w i = true -> ~ (s <= i < s + n)).
  { intros i Hi Hu Hr. unfold used in Hu. rewrite Hs2 in Hu by done. done. }
  assert (Nf : forall i, 0 <= i < 4096 -> used w i = true -> fr (wmem w) (wpage i) ∉ free_set (sup (wmem w))).
  { intros i Hi Hu. destruct (O3 i Hi Hu) as [(_ & [_ ?] & _) _]. done. }
  constructor; [exact T | exact M' | | | | exact Hh | | | | | exact O11]; unfold used, run_at, NXPP_PAGES in *;
    cbn [wmem NxppRunPages NxppUsedMap NxppScanHint NxppCommitted] in *.
  - intros i Hi. rewrite U' by lia. case_decide as Hr; intros Hu.
    + split; [eapply run_owned_mapped; [exact R |]; unfold wpage; lia | apply Fp; unfold wpage; lia].
    + destruct (O3 i Hi Hu) as [A B]. unfold fr. rewrite Pk by done. split; [eapply mapped_kept; [exact K | by apply Pk | intros [] | done] |].
      apply D; [| done]. apply window_pdx. unfold wpage, pool_page. lia.
  - intros i Hi. rewrite U' by lia. case_decide as Hr; [done |]. intros Hu. rewrite Pk by done. by apply O4.
  - intros i j Hi Hj. rewrite !U' by lia.
    destruct (decide (s <= i < s + n)) as [Ri | Ri], (decide (s <= j < s + n)) as [Rj | Rj]; intros Hui Huj E.
    + apply (run_owned_inj m' (wpage s) (wpage s + n)) in E; unfold wpage in *; [lia | done | lia | lia].
    + exfalso. apply (Nf j Hj Huj). destruct (Fp (wpage i) ltac:(unfold wpage; lia)) as [Hf _]. rewrite E in Hf. unfold fr in *. by rewrite Pk in Hf.
    + exfalso. apply (Nf i Hi Hui). destruct (Fp (wpage j) ltac:(unfold wpage; lia)) as [Hf _]. rewrite <- E in Hf. unfold fr in *. by rewrite Pk in Hf.
    + unfold fr in E. rewrite !Pk in E by done. by apply O5.
  - intros t. rewrite Rt. case_decide; [lia | apply O7].
  - intros i Hi. rewrite U' by lia. setoid_rewrite Rt. case_decide as Hr.
    + split; [| done]. intros _. exists s. rewrite decide_True by done. done.
    + rewrite O8 by done. split; intros (t & Ht).
      * exists t. rewrite decide_False; [done |]. intros <-. lia.
      * exists t. destruct (decide (s = t)) as [<- | ?]; [done | done].
  - intros t1 t2. rewrite !Rt. destruct (decide (s = t1)) as [<- | ?], (decide (s = t2)) as [<- | ?]; intros H1 H2 Hlt; try lia.
    + destruct (Hrs t2 H2) as [Ha | ?]; [| lia]. destruct (O7 t2 H2). lia.
    + destruct (Hrs t1 H1); lia.
    + by apply O9.
  - rewrite used_pages_set by (try done; try lia; intros j Hj; by apply Hs2). pose proof (used_pages_bound (set_range (NxppUsedMap w) (Z.to_nat n) s true)) as B.
    rewrite used_pages_set in B by (try done; try lia; intros j Hj; by apply Hs2). rewrite add32_id; lia.
Qed.

(** A run taken out at [s]. *)
Lemma window_ok_remove w m' s n : window_ok w -> run_at w s = n -> n <> 0 -> tables_ok m' ->
  frames_kept (fun q => exists j, wpage s <= j < wpage s + n /\ q = fr (wmem w) j) (wmem w) m' ->
  (forall j, pte m' j = if decide (wpage s <= j < wpage s + n) then 0 else pte (wmem w) j) ->
  window_ok (Window m' (NxppReady w) (<[s := 0]> (NxppRunPages w)) (set_range (NxppUsedMap w) (Z.to_nat n) s false) (NxppScanHint w)
               (sub32 (NxppCommitted w) n)).
Proof.
  intros [O1 O2 O3 O4 O5 O6 O7 O8 O9 O10 O11] En Hn T K P. unfold NXPP_PAGES in *.
  destruct (O7 s ltac:(congruence)) as (Hs0 & Hn0 & Hs1). rewrite En in Hn0, Hs1.
  destruct (set_range_spec (NxppUsedMap w) (Z.to_nat n) s false O2 Hs0) as [M' U']. rewrite Z2Nat.id in U' by lia.
  assert (Rt : forall t, rd (<[s := 0]> (NxppRunPages w)) t = if decide (s = t) then 0 else run_at w t)
    by (intros t; apply rd_insert).
  assert (Hin : forall i, s <= i < s + n -> used w i = true) by (intros i Hi; apply O8; [lia | exists s; rewrite En; done]).
  assert (Pk : forall i, 0 <= i < 4096 -> ~ (s <= i < s + n) -> pte m' (wpage i) = pte (wmem w) (wpage i)).
  { intros i Hi Ho. rewrite P, decide_False; [done | unfold wpage; lia]. }
  assert (Nd : forall i, 0 <= i < 4096 -> used w i = true -> ~ (s <= i < s + n) ->
    ~ exists j, wpage s <= j < wpage s + n /\ fr (wmem w) (wpage i) = fr (wmem w) j).
  { intros i Hi Hu Ho (j & Hj & E). replace j with (wpage (j - 0xC1000)) in E by (unfold wpage; lia).
    apply O5 in E; unfold wpage in *; try lia; [done |]. apply Hin. lia. }
  constructor; [exact T | exact M' | | | | exact O6 | | | | | exact O11]; unfold used, run_at, NXPP_PAGES in *;
    cbn [wmem NxppRunPages NxppUsedMap NxppScanHint NxppCommitted] in *.
  - intros i Hi. rewrite U' by lia. case_decide as Hr; [done |]. intros Hu. destruct (O3 i Hi Hu) as [A B]. unfold fr. rewrite Pk by done.
    split; [eapply mapped_kept; [exact K | by apply Pk | by apply Nd | done] |].
    rewrite P, decide_False; [done |]. pose proof (proj1 (window_pdx (wpage i) ltac:(unfold pool_page, wpage; lia))). unfold window_pde, wpage in *. lia.
  - intros i Hi. rewrite U' by lia. case_decide as Hr; intros Hu.
    + rewrite P, decide_True; [done | unfold wpage; lia].
    + rewrite Pk by done. by apply O4.
  - intros i j Hi Hj. rewrite !U' by lia. repeat case_decide; try done. intros Hui Huj. unfold fr. rewrite !Pk by done. by apply O5.
  - intros t. rewrite Rt. case_decide; [lia | apply O7].
  - intros i Hi. rewrite U' by lia. setoid_rewrite Rt. case_decide as Hr.
    + split; [done |]. intros (t & Ht). case_decide as Hd; [lia |]. exfalso.
      assert (Hne : rd (NxppRunPages w) t <> 0) by lia. destruct (O7 t Hne).
      destruct (Z.lt_ge_cases s t); [pose proof (O9 s t ltac:(congruence) Hne ltac:(lia)); lia |].
      pose proof (O9 t s Hne ltac:(congruence) ltac:(lia)). lia.
    + rewrite O8 by done. split; intros (t & Ht).
      * exists t. rewrite decide_False; [done |]. intros <-. lia.
      * exists t. case_decide; [lia | done].
  - intros t1 t2. rewrite !Rt. repeat case_decide; try lia. apply O9.
  - rewrite used_pages_set by (try done; try lia; intros j Hj; by apply Hin). rewrite O10.
    pose proof (used_pages_bound (NxppUsedMap w)). assert (n <= Z.of_nat (size (used_pages (NxppUsedMap w)))).
    { pose proof (used_pages_set (NxppUsedMap w) s n false O2 Hs0 ltac:(lia) ltac:(lia) ltac:(intros j Hj; by apply Hin)). lia. }
    rewrite sub32_id; lia.
Qed.

(** The frames of the run at [s]. *)
Definition run_frames (w : window) (s : Z) (q : Z) : Prop :=
  exists j, wpage s <= j < wpage s + run_at w s /\ q = fr (wmem w) j.

Lemma window_alloc_spec w bytes : window_ok w -> 0 < bytes < 2 ^ 32 ->
  let n := (bytes + 4095) / 4096 in
  exists r w', NxPoolPagesAlloc w bytes = Some (r, w') /\ window_ok w' /\ outside_same (wmem w) (wmem w') /\
    frames_kept none (wmem w) (wmem w') /\ conserved window_entry (wmem w) (wmem w') /\
    (forall j, window_pde j -> pte (wmem w') j = pte (wmem w) j \/
       present (pte (wmem w) j) = false /\ exists s i, hole w n s /\ s <= i < s + n /\ pdx (wpage i) = j) /\
    (forall i, 0 <= i < 4096 -> used w i = true -> pte (wmem w') (wpage i) = pte (wmem w) (wpage i)) /\
    ((r = 0 /\ (forall s, run_at w' s = run_at w s) /\ ((forall s, ~ hole w n s) \/ Z.of_nat (size (takable (wmem w'))) < n)) \/
     exists s, r = NXPP_BASE + 4096 * s /\ hole w n s /\ (forall t, run_at w' t = if decide (s = t) then n else run_at w t) /\
       (forall q, run_frames w' s q -> q ∈ free_set (sup (wmem w)) /\ 16 <= q) /\
       (forall i, s <= i < s + n -> link (sup (wmem w')) (fr (wmem w') (wpage i)) = wpage i)).
Proof.
  intros O Hb n. destruct (bytes_to_pages bytes Hb) as [Eb Hn]. fold n in Eb, Hn. unfold NxPoolPagesAlloc. rewrite Eb.
  assert (negb (NxppReady w) = false) as -> by (by rewrite (wo_ready _ O)).
  pose proof (find_start_spec w n Hn (wo_hint _ O)) as Fs. destruct (find_start w n) as [s|].
  2: { exists 0, w. split; [done |]. split; [done |]. split; [done |]. split; [apply frames_kept_refl |]. split; [done |].
       split; [intros j _; by left |]. split; [done |]. left. split; [done |]. split; [done |]. by left. }
  pose proof Fs as (Hs0 & Hs1 & Hs2). unfold NXPP_PAGES in Hs1. rewrite page_va.
  destruct (back_run_spec (Z.to_nat n) 0 (wmem w) (wpage s) (wo_tables _ O)) as (b & m' & -> & RF & Gt & Gf).
  { unfold wpage. lia. }
  { unfold wpage. lia. }
  { intros j Hj. lia. }
  { intros j Hj. rewrite Z2Nat.id in Hj by lia. replace j with (wpage (j - 0xC1000)) by (unfold wpage; lia).
    unfold wpage in Hj. apply (wo_unused _ O); [lia |]. apply Hs2. lia. }
  replace (wpage s - Z.of_nat 0) with (wpage s) in * by lia. rewrite Z2Nat.id in * by lia. destruct RF as [RT RO RW RD RC RA].
  assert (RA' : forall j, window_pde j -> pte m' j = pte (wmem w) j \/
    present (pte (wmem w) j) = false /\ exists s i, hole w n s /\ s <= i < s + n /\ pdx (wpage i) = j).
  { intros j Hj. destruct (RA j Hj) as [? | (? & i & Hi & <-)]; [by left | right]. split; [done |]. exists s, (i - 0xC1000).
    unfold wpage in *. split; [done |]. split; [lia | f_equal; lia]. }
  destruct b.
  - destruct (Gt eq_refl) as (K & R & _ & _ & Fp). clear Gt Gf.
    assert (E16 : u16 n = n) by (apply Z.mod_small; lia). rewrite E16.
    eexists _, _. split; [reflexivity |]. cbn [wmem NxppReady NxppSetRange with_wmem NxppRunPages NxppUsedMap NxppCommitted].
    split; [apply window_ok_add; try done; [lia | intros j Hj; by destruct (Fp j Hj) as (? & ? & ?) |
      unfold NXPP_PAGES; destruct (Z.leb_spec 4096 (s + n)); lia] |].
    do 4 (split; [done |]). split.
    { intros i Hi Hu. apply RW; [unfold pool_page, wpage; lia |]. unfold wpage. intros Hr. unfold used in Hu. rewrite Hs2 in Hu by lia. done. }
    right. exists s. rewrite page_va || idtac. split; [unfold NXPP_BASE, wpage; lia |]. split; [done |]. split; [intros t; apply rd_insert |].
    split; [| intros i Hi; cbn [wmem]; apply (R (wpage i)); unfold wpage; lia].
    intros q (j & Hj & ->). unfold run_at in Hj. cbn [NxppRunPages] in Hj. rewrite rd_insert, decide_True in Hj by done.
    cbn [wmem]. by destruct (Fp j Hj) as (? & ? & ?).
  - destruct (Gf eq_refl) as (K & P & Sz). clear Gt Gf.
    assert (K' : frames_kept none (wmem w) m').
    { eapply frames_kept_mono; [exact K |]. intros q _ (j & Hj & _). lia. }
    assert (Pi : forall i, 0 <= i < 4096 -> pte m' (wpage i) = pte (wmem w) (wpage i)).
    { intros i Hi. destruct (decide (wpage s <= wpage i < wpage s + n)) as [Hr | Hr].
      - rewrite P by done. symmetry. apply (wo_unused _ O); [done |]. apply Hs2. unfold wpage in Hr. lia.
      - apply RW; [unfold pool_page, wpage; lia | done]. }
    eexists 0, _. split; [reflexivity |]. split; [by apply window_ok_backed |]. do 4 (split; [done |]).
    split; [intros i Hi _; by apply Pi |]. left. split; [done |]. split; [done |]. right. cbn [wmem with_wmem]. lia.
Qed.

(** The pages of a run as the list the freeing loop walks. *)
Lemma elem_of_run_list k n j : j ∈ map (fun i => k + Z.of_nat i) (seq 0 n) <-> k <= j < k + Z.of_nat n.
Proof.
  rewrite list_elem_of_In, in_map_iff. setoid_rewrite in_seq. split; [intros (i & <- & ?); lia |].
  intros Hj. exists (Z.to_nat (j - k)). lia.
Qed.

Lemma window_free_spec w s : window_ok w -> run_at w s <> 0 ->
  let n := run_at w s in
  exists w', NxPoolPagesFree w (NXPP_BASE + 4096 * s) = (n, w') /\ window_ok w' /\
    (forall k, pte (wmem w') k = if decide (wpage s <= k < wpage s + n) then 0 else pte (wmem w) k) /\
    (forall q, q ∈ free_set (sup (wmem w')) <-> q ∈ free_set (sup (wmem w)) \/ run_frames w s q) /\
    frames_kept (run_frames w s) (wmem w) (wmem w') /\ conserved window_entry (wmem w) (wmem w') /\
    (forall t, run_at w' t = if decide (s = t) then 0 else run_at w t) /\
    NxppCommitted w' = NxppCommitted w - n.
Proof.
  intros O Hn n. destruct (wo_run _ O s Hn) as (Hs0 & Hn0 & Hs1). fold n in Hn, Hn0, Hs1. unfold NXPP_PAGES in Hs1.
  unfold NxPoolPagesFree. rewrite sub32_id by (unfold NXPP_BASE; lia).
  replace (NXPP_BASE + 4096 * s - NXPP_BASE) with (s * 2 ^ 12) by lia. rewrite <- Z.shiftl_mul_pow2, Z.shiftr_shiftl_l, Z.sub_diag, Z.shiftl_0_r by lia.
  fold (run_at w s). fold n. replace (NXPP_BASE + 4096 * s) with (4096 * wpage s) by (unfold NXPP_BASE, wpage; lia).
  rewrite drop_run_drop_all. set (ks := map (fun i => wpage s + Z.of_nat i) (seq 0 (Z.to_nat n))).
  assert (Hk : forall j, j ∈ ks <-> wpage s <= j < wpage s + n) by (intros j; unfold ks; rewrite elem_of_run_list, Z2Nat.id by lia; done).
  assert (Hu : forall i, s <= i < s + n -> used w i = true) by (intros i Hi; apply (wo_runs _ O); [lia | by exists s]).
  assert (Hi : forall j, j ∈ ks -> j = wpage (j - 0xC1000) /\ s <= j - 0xC1000 < s + n) by (intros j ?%Hk; unfold wpage in *; lia).
  destruct (drop_all_spec ks (wmem w) (wo_tables _ O)) as (T & K & F & C & P).
  { apply NoDup_fmap_2; [intros i j; lia | apply NoDup_seq]. }
  { intros j [Ej Hj]%Hi. rewrite Ej. split; [unfold pool_page, wpage; lia |]. apply (wo_page _ O); [lia | by apply Hu]. }
  { intros i j [Ei Hii]%Hi [Ej Hj]%Hi E. rewrite Ei, Ej in E. apply (wo_inj _ O) in E; try lia; by apply Hu. }
  assert (Hq : forall q, (exists k, k ∈ ks /\ q = fr (wmem w) k) <-> run_frames w s q) by (intros q; unfold run_frames; setoid_rewrite Hk; done).
  assert (P' : forall k, pte (drop_all ks (wmem w)) k = if decide (wpage s <= k < wpage s + n) then 0 else pte (wmem w) k).
  { intros k. rewrite P. apply decide_ext, Hk. }
  assert (K' : frames_kept (run_frames w s) (wmem w) (drop_all ks (wmem w))) by (eapply frames_kept_mono; [exact K | intros q _; apply Hq]).
  pose proof (window_ok_remove w _ s n O eq_refl Hn T K' P') as O'.
  eexists. split; [reflexivity |]. split; [exact O' |]. split; [exact P' |]. cbn [wmem NxppSetRange].
  split; [intros q; rewrite F, Hq; done |]. split; [exact K' |]. split; [exact C |]. split; [intros t; apply rd_insert |].
  etransitivity; [exact (wo_committed _ O') |]. cbn [NxppUsedMap]. rewrite used_pages_set by (try apply (wo_map _ O); try lia; intros j Hj; by apply Hu).
  rewrite (wo_committed _ O). lia.
Qed.

(** ** Movability *)

(** [m'] is [m] but for who owns the frames of [R]. *)
Record same_but_owner (R : Z -> Prop) (m m' : mm) : Prop := {
  so_pte : forall k, pte m' k = pte m k;
  so_free : free_set (sup m') = free_set (sup m);
  so_high : NxpHighestPfn (sup m') = NxpHighestPfn (sup m);
  so_frame : forall q, frame_at m' q = frame_at m q;
  so_link : forall q, ~ R q -> link (sup m') q = link (sup m) q
}.

(** Who an entry's frame belongs to after the pin or the release. *)
Definition owner_of (Movable : bool) (k : Z) : Z := if Movable then k else 0.

Lemma set_owner_mm m k p (v : bool) : tables_ok m -> pool_page k -> mapped m k p ->
  let m' := with_sup (NxkPageSupplySetOwner (sup m) p (if v then pte_va k else 0)) m in
  tables_ok m' /\ same_but_owner (eq p) m m' /\ link (sup m') p = owner_of v k.
Proof.
  intros T Hk (E & [Hr Hf] & Hl) m'. pose proof (tb_mm _ T) as [W O]. unfold pool_page in Hk.
  assert (Hv : (if v then pte_va k else 0) = 0 \/ owner_va (if v then pte_va k else 0)).
  { destruct v; [right; apply (owner_va_index k); lia | by left]. }
  destruct (set_owner_spec (sup m) p _ W Hv) as (W' & F' & H' & L' & G').
  assert (Lp : link (sup m') p = owner_of v k).
  { destruct v; [apply (set_owner_link (sup m) p k); try done; lia |]. cbn [m' sup with_sup owner_of].
    unfold NxkPageSupplySetOwner. pose proof (entry_free_free_set (sup m) p W ltac:(unfold in_range in Hr; lia)) as Hef.
    unfold in_range in Hr. destruct ((0 <? p) && (p <=? NxpHighestPfn (sup m))) eqn:Er; [| lia].
    destruct (entry_free (link (sup m) p)); [tauto |]. cbn [andb negb]. apply rd_insert_eq. }
  assert (S : same_but_owner (eq p) m m').
  { constructor; try done. intros q Hq. apply L'. congruence. }
  split; [| by split]. constructor; [constructor; [done |] | |].
  - intros j q (Hq & Hqf & Hql & Hj). rewrite (so_pte _ _ _ S). destruct (decide (q = p)) as [-> | Hne].
    + rewrite Lp in Hql. destruct v; cbn [owner_of] in Hql; [| congruence]. subst j. rewrite E. apply entry3.
      pose proof (mapped_pfn m k p (tb_mm _ T) (conj E (conj (conj Hr Hf) Hl))). lia.
    + apply O. rewrite (so_link _ _ _ S) in Hql by congruence. rewrite (so_free _ _ _ S) in Hqf. unfold in_range in *. rewrite (so_high _ _ _ S) in Hq. done.
  - intros j q Hj (Hq & Hqf & Hql & Hj0). rewrite (so_pte _ _ _ S). apply (tb_pde _ T j q Hj).
    destruct (decide (q = p)) as [-> | Hne].
    + rewrite Lp in Hql. unfold window_pde in Hj. destruct v; cbn [owner_of] in Hql; lia.
    + rewrite (so_link _ _ _ S) in Hql by congruence. rewrite (so_free _ _ _ S) in Hqf. unfold owned, in_range in *. rewrite (so_high _ _ _ S) in Hq. done.
  - intros j Hj. rewrite !(so_pte _ _ _ S). by apply (tb_block _ T).
Qed.

Lemma same_but_owner_refl R m : same_but_owner R m m.
Proof. by constructor. Qed.

Lemma same_but_owner_trans R S m1 m2 m3 : same_but_owner R m1 m2 -> same_but_owner S m2 m3 ->
  same_but_owner (fun q => R q \/ S q) m1 m3.
Proof.
  intros [P1 F1 H1 C1 L1] [P2 F2 H2 C2 L2]. constructor; intros;
    [by rewrite P2 | congruence | congruence | by rewrite C2 | rewrite L2, L1; tauto].
Qed.

Lemma same_but_owner_mono (R S : Z -> Prop) m m' : same_but_owner R m m' -> (forall q, R q -> S q) -> same_but_owner S m m'.
Proof. intros [P F H C L] I. constructor; try done. intros q Hq. apply L. intros Hr. by apply Hq, I. Qed.

Lemma mapped_same R m m' k p : same_but_owner R m m' -> ~ R p -> mapped m k p -> mapped m' k p.
Proof.
  intros S Hp (E & [Hr Hf] & Hl). unfold mapped, in_use, in_range in *.
  rewrite (so_pte _ _ _ S), (so_high _ _ _ S), (so_free _ _ _ S), (so_link _ _ _ S) by done. done.
Qed.

(** The window's pages, apart from its tables: present entries map their
    frames, no frame twice. *)
Definition pages_mapped (m : mm) : Prop :=
  (forall k, pool_page k -> present (pte m k) = true -> mapped m k (fr m k)) /\
  (forall i j, pool_page i -> pool_page j -> present (pte m i) = true -> present (pte m j) = true -> fr m i = fr m j -> i = j).

(** The frames of the present pages of a range. *)
Definition range_frames (m : mm) (lo hi : Z) (q : Z) : Prop :=
  exists k, lo <= k < hi /\ present (pte m k) = true /\ q = fr m k.

Lemma movable_pages_spec n v : forall m k, tables_ok m -> pages_mapped m -> 0xC1000 <= k -> k + Z.of_nat n <= 0xC2000 ->
  let m' := movable_pages n m (4096 * k) v in
  tables_ok m' /\ pages_mapped m' /\ same_but_owner (range_frames m k (k + Z.of_nat n)) m m' /\
  (forall j, k <= j < k + Z.of_nat n -> present (pte m j) = true -> link (sup m') (fr m j) = owner_of v j).
Proof.
  induction n as [|n IH]; intros m k T [M I] Hk Hn; cbn [movable_pages].
  { split; [done |]. split; [done |]. split; [apply same_but_owner_refl | intros j Hj; lia]. }
  assert (Hw : pool_page k) by (unfold pool_page; lia).
  change (NXPP_PTE (4096 * k)) with (NXV_PTE (4096 * k)). rewrite NXV_PTE_page.
  replace (4096 * k + 4096) with (4096 * (k + 1)) by lia.
  replace (k + Z.of_nat (S n)) with (k + 1 + Z.of_nat n) in * by lia.
  change (negb (Z.land (pte m k) 1 =? 0)) with (present (pte m k)). destruct (present (pte m k)) eqn:Ep.
  - unfold PAGE_SHIFT. rewrite Z.shiftr_div_pow2 by lia. fold (fr m k).
    destruct (set_owner_mm m k (fr m k) v T Hw (M k Hw Ep)) as (T1 & S1 & L1).
    set (m1 := with_sup _ m) in *. pose proof (so_pte _ _ _ S1) as P1.
    assert (Fj : forall j, fr m1 j = fr m j) by (intros j; unfold fr; by rewrite P1).
    destruct (IH m1 (k + 1) T1) as (T2 & M2 & S2 & L2); try lia.
    { split; [| intros i j Hi Hj; rewrite !P1, !Fj; by apply I].
      intros j Hj. rewrite P1, Fj. intros Hp. destruct (decide (j = k)) as [-> | Hne].
      - destruct (M k Hw Ep) as (E & [Hr Hf] & _). unfold mapped, in_use, in_range in *.
        rewrite P1, (so_high _ _ _ S1), (so_free _ _ _ S1), L1. split; [done |]. split; [done |]. destruct v; auto.
      - eapply mapped_same; [exact S1 | | by apply M]. intros E. by apply Hne, I. }
    split; [done |]. split; [done |]. split.
    + eapply same_but_owner_mono; [by eapply same_but_owner_trans |]. intros q [<- | (j & Hj & Hp & ->)].
      * exists k. split; [lia | done].
      * rewrite P1 in Hp. rewrite Fj. exists j. split; [lia | done].
    + intros j Hj Hp. destruct (decide (j = k)) as [-> | Hne].
      * rewrite (so_link _ _ _ S2); [exact L1 |]. intros (i & Hi & Hpi & E). rewrite P1 in Hpi. rewrite Fj in E.
        apply I in E; try done; [lia | unfold pool_page; lia].
      * rewrite <- Fj. apply L2; [lia | by rewrite P1].
  - destruct (IH m (k + 1) T) as (T2 & M2 & S2 & L2); try done; try lia.
    split; [done |]. split; [done |]. split.
    + eapply same_but_owner_mono; [exact S2 |]. intros q (j & Hj & Hp & ->). exists j. split; [lia | done].
    + intros j Hj Hp. destruct (decide (j = k)) as [-> | Hne]; [congruence |]. apply L2; [lia | done].
Qed.

Lemma present_used w i : window_ok w -> 0 <= i < 4096 -> present (pte (wmem w) (wpage i)) = used w i.
Proof.
  intros O Hi. destruct (used w i) eqn:Hu.
  - destruct (wo_page _ O i Hi Hu) as [M _]. pose proof (mapped_pfn _ _ _ (tb_mm _ (wo_tables _ O)) M) as Hp. destruct M as [-> _].
    by apply entry3.
  - by rewrite (wo_unused _ O i Hi Hu).
Qed.

Lemma window_ok_pages w : window_ok w -> pages_mapped (wmem w).
Proof.
  intros O. assert (C : forall k, pool_page k -> exists i, k = wpage i /\ 0 <= i < 4096).
  { intros k Hk. exists (k - 0xC1000). unfold pool_page, wpage in *. lia. }
  split.
  - intros k (n & -> & Hn)%C. rewrite present_used by done. intros Hu. by apply (wo_page _ O).
  - intros i j (n & -> & Hi)%C (n' & -> & Hj)%C. rewrite !present_used by done. intros Hui Huj E. by rewrite (wo_inj _ O _ _ Hi Hj Hui Huj E).
Qed.

Lemma window_ok_owner w R m' : window_ok w -> tables_ok m' -> pages_mapped m' -> same_but_owner R (wmem w) m' -> window_ok (with_wmem m' w).
Proof.
  intros O T [M _] S. pose proof (so_pte _ _ _ S) as P. pose proof O as [O1 O2 O3 O4 O5 O6 O7 O8 O9 O10 O11].
  constructor; [exact T | exact O2 | | | | exact O6 | exact O7 | exact O8 | exact O9 | exact O10 | exact O11].
  - intros i Hi Hu. cbn [wmem with_wmem]. split; [| rewrite P; by apply O3]. apply M; [unfold pool_page, wpage; lia |].
    rewrite P, present_used by done. done.
  - intros i Hi Hu. cbn [wmem with_wmem]. rewrite P. by apply O4.
  - intros i j Hi Hj Hui Huj. cbn [wmem with_wmem]. unfold fr. rewrite !P. by apply O5.
Qed.

(** The pages the loop of [NxPoolPagesSetMovable] visits. *)
Lemma movable_range base bytes : NXPP_BASE <= base < NXPP_END -> 0 <= bytes -> base + bytes <= NXPP_END ->
  let lo := base / 4096 in let hi := (base + bytes + 4095) / 4096 in
  Z.land base (not32 4095) = 4096 * lo /\ 0xC1000 <= lo /\ hi <= 0xC2000 /\ lo <= hi /\
  npages (4096 * lo) (add32 base bytes) = Z.to_nat (hi - lo).
Proof.
  intros Hb Hn Hl lo hi. unfold NXPP_END, NXPP_PAGES, NXPP_BASE in *.
  assert (E : Z.land base (not32 4095) = 4096 * lo).
  { rewrite land_not32 by lia. replace 4095 with (Z.ones 12) by done.
    rewrite Z.ldiff_ones_r, Z.shiftl_mul_pow2, Z.shiftr_div_pow2 by lia. apply Z.mul_comm. }
  pose proof (Z.div_mod base 4096 ltac:(lia)) as Dm. pose proof (Z.mod_pos_bound base 4096 ltac:(lia)). fold lo in Dm.
  split; [done |]. split; [apply Z.div_le_lower_bound; lia |].
  split; [assert (hi < 0xC2000 + 1); [apply Z.div_lt_upper_bound; lia | lia] |].
  split; [apply Z.div_le_mono; lia |]. unfold npages. rewrite add32_id by lia. f_equal.
  replace (base + bytes - 4096 * lo + 4095) with (base + bytes + 4095 + - lo * 4096) by lia. rewrite Z.div_add by lia. fold hi. lia.
Qed.

Lemma set_movable_spec w base bytes v : window_ok w -> NXPP_BASE <= base < NXPP_END -> 0 <= bytes -> base + bytes <= NXPP_END ->
  let w' := NxPoolPagesSetMovable w base bytes v in
  let lo := base / 4096 in let hi := (base + bytes + 4095) / 4096 in
  window_ok w' /\ NxppRunPages w' = NxppRunPages w /\ same_but_owner (range_frames (wmem w) lo hi) (wmem w) (wmem w') /\
  (forall i, lo <= wpage i < hi -> used w i = true -> link (sup (wmem w')) (fr (wmem w) (wpage i)) = owner_of v (wpage i)).
Proof.
  intros O Hb Hn Hl w' lo hi. destruct (movable_range base bytes Hb Hn Hl) as (E & H1 & H2 & H3 & En). fold lo hi in H1, H2, H3, En, E.
  assert (Ew : w' = with_wmem (movable_pages (Z.to_nat (hi - lo)) (wmem w) (4096 * lo) v) w).
  { unfold w', NxPoolPagesSetMovable. rewrite E, En. unfold NXPP_END, NXPP_BASE, NXPP_PAGES in *.
    pose proof (Z.div_mod base 4096 ltac:(lia)) as Dm. pose proof (Z.mod_pos_bound base 4096 ltac:(lia)). fold lo in Dm.
    destruct (Z.ltb_spec (4096 * lo) 0xC1000000); [lia |].
    destruct (Z.leb_spec (0xC1000000 + 4096 * 4096) (4096 * lo)); [lia | done]. }
  destruct (movable_pages_spec (Z.to_nat (hi - lo)) v (wmem w) lo (wo_tables _ O) (window_ok_pages w O) ltac:(lia) ltac:(lia)) as (T & M & S & L).
  rewrite Ew. replace (lo + Z.of_nat (Z.to_nat (hi - lo))) with hi in * by lia.
  split; [by eapply window_ok_owner |]. split; [done |]. split; [done |].
  intros i Hi Hu. cbn [wmem with_wmem]. apply L; [lia |]. rewrite present_used; [done | done | unfold wpage in *; lia].
Qed.

(** ** Refinement

    What the window promises the pool: a set of disjoint runs.  [runs] is the
    set the tables stand for, by first page. *)

Definition runs (w : window) : gmap Z Z := filter (fun kv => kv.2 <> 0) (NxppRunPages w).

Lemma runs_lookup w s n : runs w !! s = Some n <-> run_at w s = n /\ n <> 0.
Proof.
  unfold runs, run_at, rd. rewrite map_lookup_filter_Some. cbn [snd].
  destruct (NxppRunPages w !! s) as [z|]; simpl; split; intros [E Hn]; split; try done; congruence.
Qed.

Lemma runs_insert w w' s n : n <> 0 -> (forall t, run_at w' t = if decide (s = t) then n else run_at w t) ->
  runs w' = <[s := n]> (runs w).
Proof.
  intros Hn H. apply map_eq. intros t. apply option_eq. intros c. rewrite runs_lookup, H, lookup_insert.
  repeat case_decide; try done; [intuition congruence |]. by rewrite runs_lookup.
Qed.

Lemma runs_delete w w' s : (forall t, run_at w' t = if decide (s = t) then 0 else run_at w t) -> runs w' = delete s (runs w).
Proof.
  intros H. apply map_eq. intros t. apply option_eq. intros c. rewrite runs_lookup, H, lookup_delete_Some, runs_lookup.
  case_decide; intuition congruence.
Qed.

Lemma runs_same w w' : (forall t, run_at w' t = run_at w t) -> runs w' = runs w.
Proof. intros H. apply map_eq. intros t. apply option_eq. intros c. by rewrite !runs_lookup, H. Qed.

(** Pages [s] to [s + n] are in the window and in no run. *)
Definition vacant (R : gmap Z Z) (s n : Z) : Prop :=
  0 <= s /\ s + n <= NXPP_PAGES /\ forall t c, R !! t = Some c -> t + c <= s \/ s + n <= t.

Lemma hole_vacant w n s : window_ok w -> 0 < n -> hole w n s <-> vacant (runs w) s n.
Proof.
  intros O Hn. unfold hole, vacant, NXPP_PAGES. split; intros (H0 & H1 & H2); (split; [done |]); (split; [done |]).
  - intros t c [<- Hc]%runs_lookup. destruct (wo_run _ O t Hc) as (? & ? & ?). unfold NXPP_PAGES in *.
    destruct (Z.le_gt_cases (t + run_at w t) s); [by left |]. right. apply Z.nlt_ge. intros Hlt.
    assert (U : used w (Z.max s t) = true) by (apply (wo_runs _ O); [lia | exists t; lia]).
    unfold used in U. rewrite H2 in U by lia. done.
  - intros i Hi. apply not_true_is_false. intros U. apply (wo_runs _ O) in U as (t & Ht); [| lia].
    destruct (H2 t (run_at w t)); [apply runs_lookup |..]; lia.
Qed.

Inductive pool_call : Type :=
  | PoolAlloc (NumberOfBytes : Z)
  | PoolFree (Va : Z)
  | PoolSetMovable (Va NumberOfBytes : Z) (Movable : bool).

(** What the callers guarantee; the source asserts the second. *)
Definition call_ok (R : gmap Z Z) (c : pool_call) : Prop :=
  match c with
  | PoolAlloc bytes => 0 < bytes < 2 ^ 32
  | PoolFree Va => exists s, Va = NXPP_BASE + 4096 * s /\ is_Some (R !! s)
  | PoolSetMovable Va bytes _ => NXPP_BASE <= Va < NXPP_END /\ 0 <= bytes /\ Va + bytes <= NXPP_END
  end.

Definition do_call (w : window) (c : pool_call) : option (Z * window) :=
  match c with
  | PoolAlloc bytes => NxPoolPagesAlloc w bytes
  | PoolFree Va => Some (NxPoolPagesFree w Va)
  | PoolSetMovable Va bytes v => Some (0, NxPoolPagesSetMovable w Va bytes v)
  end.

(** The calls on the runs; [short n] when the supply has fewer than [n] frames
    to give. *)
Inductive pool_spec (short : Z -> Prop) (R : gmap Z Z) : pool_call -> Z -> gmap Z Z -> Prop :=
  | spec_alloc bytes s : vacant R s ((bytes + 4095) / 4096) ->
      pool_spec short R (PoolAlloc bytes) (NXPP_BASE + 4096 * s) (<[s := (bytes + 4095) / 4096]> R)
  | spec_no_room bytes : (forall s, ~ vacant R s ((bytes + 4095) / 4096)) -> pool_spec short R (PoolAlloc bytes) 0 R
  | spec_no_frames bytes : short ((bytes + 4095) / 4096) -> pool_spec short R (PoolAlloc bytes) 0 R
  | spec_free s n : R !! s = Some n -> pool_spec short R (PoolFree (NXPP_BASE + 4096 * s)) n (delete s R)
  | spec_movable Va bytes v : pool_spec short R (PoolSetMovable Va bytes v) 0 R.

(** The page at index [i] is in a run of [R]. *)
Definition in_run (R : gmap Z Z) (i : Z) : Prop := map_Exists (fun s n => s <= i < s + n) R.

#[global] Instance in_run_decision R i : Decision (in_run R i).
Proof. unfold in_run. apply _. Defined.

(** Who the frame of a page belongs to: 0 for a pinned frame, otherwise the
    page-table entry that relocation may rewrite. *)
Definition page_owner (w : window) (i : Z) : Z := link (sup (wmem w)) (fr (wmem w) (wpage i)).

(** The owners after a call: a new page is movable, a pin or a release
    reaches the pages that hold a byte of its range, the others keep theirs. *)
Definition owner_after (R : gmap Z Z) (own : Z -> Z) (c : pool_call) (i : Z) : Z :=
  match c with
  | PoolAlloc _ => if decide (in_run R i) then own i else wpage i
  | PoolFree _ => own i
  | PoolSetMovable Va bytes v =>
      if decide (Va / 4096 <= wpage i < (Va + bytes + 4095) / 4096) then (if v then wpage i else 0) else own i
  end.

(** The page tables a call may add: those over a vacant stretch that is long
    enough. *)
Definition table_for (R : gmap Z Z) (c : pool_call) (j : Z) : Prop :=
  match c with
  | PoolAlloc bytes => exists s i, vacant R s ((bytes + 4095) / 4096) /\ s <= i < s + (bytes + 4095) / 4096 /\ pdx (wpage i) = j
  | _ => False
  end.

Lemma in_run_used w i : window_ok w -> in_run (runs w) i -> 0 <= i < 4096 /\ used w i = true.
Proof.
  intros O (s & n & [<- Hn]%runs_lookup & Hi). destruct (wo_run _ O s Hn) as (? & ? & ?). unfold NXPP_PAGES in *.
  split; [lia |]. apply (wo_runs _ O); [lia |]. by exists s.
Qed.

Lemma run_page_use w i : window_ok w -> in_run (runs w) i -> in_use (wmem w) (fr (wmem w) (wpage i)).
Proof. intros O [Hi Hu]%in_run_used; [| done]. by apply (wo_page _ O). Qed.

(** Pages with different frames. *)
Lemma run_frame_apart w i j : window_ok w -> in_run (runs w) i -> in_run (runs w) j ->
  fr (wmem w) (wpage i) = fr (wmem w) (wpage j) -> i = j.
Proof. intros O [Hi Ui]%in_run_used [Hj Uj]%in_run_used; [| done | done]. by apply (wo_inj _ O). Qed.

(** A page whose entry and frame are kept has the owner it had. *)
Lemma owner_kept D w w' i : window_ok w -> in_run (runs w) i -> frames_kept D (wmem w) (wmem w') -> ~ D (fr (wmem w) (wpage i)) ->
  pte (wmem w') (wpage i) = pte (wmem w) (wpage i) -> page_owner w' i = page_owner w i.
Proof.
  intros O Hi K Hd E. destruct (frames_kept_use _ _ _ _ K (run_page_use w i O Hi) Hd) as [_ L]. unfold page_owner, fr in *. by rewrite E.
Qed.

Lemma alloc_owners w w' n s i : window_ok w -> frames_kept none (wmem w) (wmem w') ->
  (forall i, 0 <= i < 4096 -> used w i = true -> pte (wmem w') (wpage i) = pte (wmem w) (wpage i)) ->
  (forall t, run_at w' t = if decide (s = t) then n else run_at w t) ->
  (forall i, s <= i < s + n -> page_owner w' i = wpage i) ->
  in_run (runs w') i -> page_owner w' i = if decide (in_run (runs w) i) then page_owner w i else wpage i.
Proof.
  intros O K P Rt Own Hi. case_decide as Hd.
  - apply (owner_kept none); [done | done | done | by intros [] |]. destruct (in_run_used w i O Hd). by apply P.
  - destruct Hi as (t & l & [<- Hn]%runs_lookup & Hit). rewrite Rt in Hit, Hn. case_decide as Ht; [subst t; by apply Own |].
    destruct Hd. exists t, (run_at w t). split; [by apply runs_lookup | done].
Qed.

(** A page of another run is not in the run at [s]. *)
Lemma other_run w w' s i : window_ok w -> run_at w s <> 0 -> (forall t, run_at w' t = if decide (s = t) then 0 else run_at w t) ->
  in_run (runs w') i -> in_run (runs w) i /\ ~ (s <= i < s + run_at w s) /\ ~ run_frames w s (fr (wmem w) (wpage i)).
Proof.
  intros O Hn Rt (t & l & [<- Hnz]%runs_lookup & Hit). rewrite Rt in Hit, Hnz. case_decide as Ht; [done |].
  assert (Hi : in_run (runs w) i) by (exists t, (run_at w t); split; [by apply runs_lookup | done]).
  assert (Ho : ~ (s <= i < s + run_at w s)).
  { intros Hin. destruct (Z.lt_ge_cases s t); [pose proof (wo_apart _ O s t Hn Hnz) | pose proof (wo_apart _ O t s Hnz Hn)]; lia. }
  split; [done |]. split; [done |]. intros (j & Hj & Ef). apply Ho. replace j with (wpage (j - 0xC1000)) in Ef by (unfold wpage; lia).
  unfold wpage in Hj. assert (Hjr : in_run (runs w) (j - 0xC1000)) by (exists s, (run_at w s); split; [by apply runs_lookup | lia]).
  rewrite (run_frame_apart w i (j - 0xC1000) O Hi Hjr Ef). lia.
Qed.

Lemma movable_owners w Va bytes v i : window_ok w -> call_ok (runs w) (PoolSetMovable Va bytes v) -> in_run (runs w) i ->
  page_owner (NxPoolPagesSetMovable w Va bytes v) i = owner_after (runs w) (page_owner w) (PoolSetMovable Va bytes v) i.
Proof.
  intros O (Hb & Hn & Hl) Hi. destruct (set_movable_spec w Va bytes v O Hb Hn Hl) as (_ & _ & S & L). cbn [owner_after].
  pose proof (in_run_used w i O Hi) as [Hi4 Hu]. unfold page_owner. unfold fr at 1. rewrite (so_pte _ _ _ S). fold (fr (wmem w) (wpage i)).
  case_decide as Hd; [rewrite L by done; by destruct v |]. apply (so_link _ _ _ S). intros (k & Hk & Hp & Ef).
  destruct (movable_range Va bytes Hb Hn Hl) as (_ & H1 & H2 & _ & _).
  replace k with (wpage (k - 0xC1000)) in Hp, Ef by (unfold wpage; lia). rewrite present_used in Hp by (try done; lia).
  apply (wo_inj _ O) in Ef; [| done | lia | done | done]. unfold wpage in Hd. lia.
Qed.

(** C16: every call returns, keeps the window's tables, page-table entries and
    frame owners in agreement, and does to the set of runs what the
    specification says: an allocation takes a vacant stretch or fails because
    there is none or the supply is short, a free gives its run back, a change
    of movability leaves the runs.  A page of a new run is movable; a change
    of movability records or clears the owner of the frames behind its range;
    every other page keeps the owner it had.  The free frames and those
    behind the window's pages and page tables are together the same as before,
    so what a free or a failed allocation gives up is in the supply again; of
    the page tables only missing ones over a vacant stretch are added.  The
    pages of every run that lives on keep their frames, their contents and
    their addresses, and no entry outside the window changes. *)
Theorem pool_window_refines w c : window_ok w -> call_ok (runs w) c ->
  exists r w', do_call w c = Some (r, w') /\ window_ok w' /\
    pool_spec (fun n => Z.of_nat (size (takable (wmem w'))) < n) (runs w) c r (runs w') /\
    outside_same (wmem w) (wmem w') /\
    (forall i, in_run (runs w) i -> in_run (runs w') i ->
       pte (wmem w') (wpage i) = pte (wmem w) (wpage i) /\
       frame_at (wmem w') (fr (wmem w) (wpage i)) = frame_at (wmem w) (fr (wmem w) (wpage i))) /\
    (forall i, in_run (runs w') i -> page_owner w' i = owner_after (runs w) (page_owner w) c i) /\
    conserved window_entry (wmem w) (wmem w') /\
    (forall j, window_pde j -> pte (wmem w') j = pte (wmem w) j \/ present (pte (wmem w) j) = false /\ table_for (runs w) c j).
Proof.
  intros O Hc. destruct c as [bytes | Va | Va bytes v]; cbn [call_ok do_call table_for] in *.
  - destruct (window_alloc_spec w bytes O Hc) as (r & w' & E & O' & Os & K & C & Ta & P & Hr). exists r, w'.
    destruct (bytes_to_pages bytes Hc) as [_ Hn]. split; [done |]. split; [done |]. split; [| split; [done |]].
    + destruct Hr as [(-> & Hs & [Hno | Hsh]) | (s & -> & Hh & Hs & _)].
      * rewrite (runs_same w w' Hs). apply spec_no_room. intros s. rewrite <- hole_vacant by (try done; lia). apply Hno.
      * rewrite (runs_same w w' Hs). by apply spec_no_frames.
      * rewrite (runs_insert w w' s ((bytes + 4095) / 4096) ltac:(lia) Hs). apply spec_alloc. apply hole_vacant; [done | lia | done].
    + split; [intros i Hi _; pose proof (in_run_used w i O Hi) as [Hi4 Hu]; split; [by apply P |];
        apply (fk_frame _ _ _ K); [by apply run_page_use | intros []] |].
      split; [| split; [done |]].
      * intros i Hi. cbn [owner_after]. destruct Hr as [(-> & Hs & _) | (s & -> & Hh & Hs & _ & Own)]; [| exact (alloc_owners w w' _ s i O K P Hs Own Hi)].
        rewrite (runs_same w w' Hs) in Hi. rewrite decide_True by done. pose proof (in_run_used w i O Hi) as [Hi4 Hu].
        apply (owner_kept none); [done | done | done | by intros [] | by apply P].
      * intros j Hj. destruct (Ta j Hj) as [? | (? & s & i & Hh & Hi)]; [by left | right]. split; [done |]. exists s, i.
        split; [apply hole_vacant; [done | lia | done] | done].
  - destruct Hc as (s & -> & [n Hs]). pose proof Hs as [Es Hn]%runs_lookup. subst n.
    destruct (window_free_spec w s O Hn) as (w' & E & O' & P & F & K & C & Rt & _). exists (run_at w s), w'. rewrite E.
    split; [done |]. split; [done |]. destruct (wo_run _ O s Hn) as (Hs0 & _ & Hs1). unfold NXPP_PAGES in Hs1.
    assert (Pi : forall i, in_run (runs w') i -> pte (wmem w') (wpage i) = pte (wmem w) (wpage i)).
    { intros i Hi. destruct (other_run w w' s i O Hn Rt Hi) as (_ & Ho & _). rewrite P, decide_False; [done | unfold wpage; lia]. }
    split; [rewrite (runs_delete w w' s Rt); by apply spec_free |].
    split; [intros k Hk _; rewrite P, decide_False; [done |]; unfold pool_page, wpage in *; lia |].
    split; [| split; [| split; [done |]]].
    + intros i _ Hi'. destruct (other_run w w' s i O Hn Rt Hi') as (Hi & _ & Hf). split; [by apply Pi |].
      apply (fk_frame _ _ _ K); [by apply run_page_use | done].
    + intros i Hi'. destruct (other_run w w' s i O Hn Rt Hi') as (Hi & _ & Hf). by apply (owner_kept (run_frames w s)); auto.
    + intros j Hj. left. rewrite P, decide_False; [done |]. unfold window_pde, wpage in *. lia.
  - pose proof Hc as (Hb & Hn & Hl). destruct (set_movable_spec w Va bytes v O Hb Hn Hl) as (O' & Er & S & _).
    eexists _, _. split; [reflexivity |]. split; [done |].
    assert (Eru : runs (NxPoolPagesSetMovable w Va bytes v) = runs w) by (unfold runs; by rewrite Er). rewrite Eru. split; [constructor |].
    split; [intros k _ _; apply (so_pte _ _ _ S) |].
    split; [intros i _ _; split; [apply (so_pte _ _ _ S) | apply (so_frame _ _ _ S)] |].
    split; [intros i Hi; by apply movable_owners |]. split; [| intros j _; left; apply (so_pte _ _ _ S)].
    intros q. unfold backs, fr. rewrite (so_free _ _ _ S). by setoid_rewrite (so_pte _ _ _ S).
Qed.

Lemma hole_no_run w n s : window_ok w -> 0 < n -> hole w n s -> run_at w s = 0.
Proof.
  intros O Hn (H0 & H1 & H2). destruct (decide (run_at w s = 0)) as [| Hr]; [done |]. destruct (wo_run _ O s Hr) as (_ & ? & ?).
  unfold NXPP_PAGES in *. assert (U : used w s = true) by (apply (wo_runs _ O); [lia | exists s; lia]).
  unfold used in U. rewrite H2 in U by lia. done.
Qed.

Lemma committed_runs w w' : window_ok w -> window_ok w' -> (forall t, run_at w' t = run_at w t) -> NxppCommitted w' = NxppCommitted w.
Proof.
  intros O O' R. rewrite (wo_committed _ O), (wo_committed _ O').
  assert (E : used_pages (NxppUsedMap w') = used_pages (NxppUsedMap w)); [| by rewrite E].
  apply set_eq. intros i. rewrite (elem_of_used_pages (NxppUsedMap w') i), (elem_of_used_pages (NxppUsedMap w) i).
  assert (G : forall A B C : Prop, (A -> B <-> C) -> A /\ B <-> A /\ C) by tauto. apply G. intros Hi. rewrite (wo_runs _ O' i Hi : used_bit (NxppUsedMap w') i = true <-> _), (wo_runs _ O i Hi : used_bit (NxppUsedMap w) i = true <-> _).
  by setoid_rewrite R.
Qed.

(** an allocation and its free undo each other: the free returns the
    number of pages asked for, the runs, the window's entries and the
    commitment are as before, and every frame of the run, free before, is free
    again.  Page tables the allocation had to add stay. *)
Theorem pool_alloc_free w bytes r w1 : window_ok w -> 0 < bytes < 2 ^ 32 -> NxPoolPagesAlloc w bytes = Some (r, w1) -> r <> 0 ->
  exists w2, NxPoolPagesFree w1 r = ((bytes + 4095) / 4096, w2) /\ window_ok w2 /\ runs w2 = runs w /\
    (forall k, pool_page k -> pte (wmem w2) k = pte (wmem w) k) /\ PoolPagesCommitted w2 = PoolPagesCommitted w /\
    (forall k, pool_page k -> pte (wmem w1) k <> pte (wmem w) k ->
       fr (wmem w1) k ∈ free_set (sup (wmem w)) /\ fr (wmem w1) k ∈ free_set (sup (wmem w2))).
Proof.
  intros O Hb E Hr. destruct (bytes_to_pages bytes Hb) as [_ Hn]. set (n := (bytes + 4095) / 4096) in *.
  destruct (window_alloc_spec w bytes O Hb) as (r' & w1' & E' & O1 & _ & _ & _ & _ & P & H). rewrite E in E'. injection E' as <- <-.
  destruct H as [[-> _] | (s & -> & Hh & R1 & F1 & _)]; [done |]. fold n in Hh, R1.
  pose proof (R1 s) as Rs. rewrite decide_True in Rs by done.
  destruct (window_free_spec w1 s O1 ltac:(rewrite Rs; lia)) as (w2 & E2 & O2 & P2 & F2 & _ & _ & R2 & C2). rewrite Rs in *.
  destruct Hh as (Hs0 & Hs1 & Hs2).
  assert (Pw : forall k, pool_page k -> ~ (wpage s <= k < wpage s + n) -> pte (wmem w1) k = pte (wmem w) k).
  { intros k Hk Ho. replace k with (wpage (k - 0xC1000)) by (unfold wpage; lia). unfold pool_page in Hk. destruct (used w (k - 0xC1000)) eqn:Hu; [apply P; [lia | done] |].
    rewrite (wo_unused _ O) by (try done; lia). apply (wo_unused _ O1); [lia |]. apply not_true_is_false. intros U1.
    apply (wo_runs _ O1) in U1 as (t & Ht); [| lia]. rewrite R1 in Ht. case_decide; [subst t; unfold wpage in Ho; lia |].
    assert (used w (k - 0xC1000) = true) by (apply (wo_runs _ O); [lia | by exists t]). congruence. }
  assert (Rw : forall t, run_at w2 t = run_at w t).
  { intros t. rewrite R2. case_decide; [subst t; symmetry; apply (hole_no_run w n); [done | lia | done] | rewrite R1, decide_False; done]. }
  exists w2. split; [exact E2 |]. split; [done |]. split; [by apply runs_same |]. split; [| split; [by apply committed_runs |]].
  - intros k Hk. rewrite P2. case_decide as Hd; [| by apply Pw]. replace k with (wpage (k - 0xC1000)) by (unfold wpage; lia).
    unfold pool_page, wpage in Hk, Hd. symmetry. apply (wo_unused _ O); [lia |]. apply Hs2. lia.
  - intros k Hk Hne. destruct (decide (wpage s <= k < wpage s + n)) as [Hd | Hd]; [| by rewrite Pw in Hne].
    assert (Rf : run_frames w1 s (fr (wmem w1) k)) by (exists k; rewrite Rs; done). split; [by apply F1 | apply F2; by right].
Qed.

(** ** Witnesses *)

Lemma initialize_ok m : tables_ok m -> (forall k, pool_page k -> pte m k = 0) -> window_ok (NxPoolPagesInitialize (window_boot m)).
Proof.
  intros T Z0. assert (U : forall i, 0 <= i -> used_bit ∅ i = false) by (intros i Hi; by rewrite used_bit_testbit, Z.testbit_0_l by (try done; apply Z.mod_pos_bound; lia)).
  constructor; unfold used, run_at; cbn [wmem NxppReady NxppUsedMap NxppRunPages NxppScanHint NxppCommitted NxPoolPagesInitialize window_boot]; try done.
  - intros i Hi _. apply Z0. unfold pool_page, wpage. lia.
  - intros i Hi. rewrite U by lia. split; [done |]. intros (s & Hs). change (rd ∅ s) with 0 in Hs. lia.
  - assert (E : used_pages ∅ = ∅).
    { apply set_eq. intros i. rewrite (elem_of_used_pages ∅ i). split; [| by intros ?%not_elem_of_empty]. intros [Hi Hu]. rewrite U in Hu by lia. done. }
    by rewrite E, size_empty.
Qed.

(** The machine of [Paging.v] with two free frames, under an empty window. *)
Definition fresh_window : window := NxPoolPagesInitialize (window_boot one_page).

Lemma one_page_pte k : k <> 0x100 -> pte one_page k = 0.
Proof. intros Hk. unfold pte, one_page. cbn [ptes]. unfold rd. by rewrite lookup_singleton_ne. Qed.

Lemma one_page_owner k p : owned one_page k p -> k = 0x100.
Proof.
  intros Ho. pose proof (mm_owner _ one_page_wf k p Ho) as E. destruct (decide (k = 0x100)) as [| Hk]; [done |].
  rewrite one_page_pte in E by done. destruct Ho as (Hr & _). unfold in_range in Hr. change (0 / 2 ^ 12) with 0 in E. lia.
Qed.

Lemma fresh_window_ok : window_ok fresh_window.
Proof.
  apply initialize_ok; [constructor; [exact one_page_wf | |] |].
  - intros k p Hk Ho%one_page_owner. unfold window_pde in Hk. lia.
  - intros k Hk _. apply one_page_pte. unfold pool_page in Hk. lia.
  - intros k Hk. apply one_page_pte. unfold pool_page in Hk. lia.
Qed.

Lemma spec_new_run short R bytes r R' s : pool_spec short R (PoolAlloc bytes) r R' -> r = NXPP_BASE + 4096 * s -> 0 <= s ->
  R' !! s = Some ((bytes + 4095) / 4096).
Proof.
  intros H E Hs. unfold NXPP_BASE in *. inversion H as [? t Hv E1 E2 | | | |]; subst; try (unfold NXPP_BASE in *; lia).
  replace t with s by (unfold NXPP_BASE in *; lia). by rewrite lookup_insert_eq.
Qed.

Lemma spec_same_runs short R Va bytes v r R' : pool_spec short R (PoolSetMovable Va bytes v) r R' -> r = 0 /\ R' = R.
Proof. intros H. inversion H. done. Qed.

(** A page is allocated, movable, and pinned. *)
Lemma pool_window_refines_witness : exists w1 w2,
  do_call fresh_window (PoolAlloc 4096) = Some (0xC1000000, w1) /\ window_ok w1 /\ page_owner w1 0 = wpage 0 /\
  do_call w1 (PoolSetMovable 0xC1000000 4096 false) = Some (0, w2) /\ window_ok w2 /\ page_owner w2 0 = 0.
Proof.
  destruct (pool_window_refines fresh_window (PoolAlloc 4096) fresh_window_ok ltac:(simpl; lia)) as (r & w1 & E1 & O1 & Sp & _ & _ & Ow1 & _).
  assert (Er : option_map fst (do_call fresh_window (PoolAlloc 4096)) = Some 0xC1000000) by (vm_compute; reflexivity).
  rewrite E1 in Er. injection Er as ->. pose proof (spec_new_run _ _ _ _ _ 0 Sp eq_refl ltac:(lia)) as Hr.
  assert (I1 : in_run (runs w1) 0) by (exists 0, 1; split; [exact Hr | lia]).
  assert (C2 : call_ok (runs w1) (PoolSetMovable 0xC1000000 4096 false)) by (unfold call_ok, NXPP_BASE, NXPP_END, NXPP_PAGES, NXPP_BASE; lia).
  destruct (pool_window_refines w1 (PoolSetMovable 0xC1000000 4096 false) O1 C2) as (r2 & w2 & E2 & O2 & Sp2 & _ & _ & Ow2 & _).
  destruct (spec_same_runs _ _ _ _ _ _ _ Sp2) as [-> Hr2].
  exists w1, w2. split; [exact E1 |]. split; [exact O1 |]. split; [rewrite Ow1 by exact I1; reflexivity |].
  split; [exact E2 |]. split; [exact O2 |]. rewrite Ow2 by (rewrite Hr2; exact I1). reflexivity.
Defined.

Lemma pool_alloc_free_witness : exists w1 w2,
  NxPoolPagesAlloc fresh_window 100 = Some (0xC1000000, w1) /\ NxPoolPagesFree w1 0xC1000000 = (1, w2) /\ runs w2 = ∅.
Proof.
  destruct (NxPoolPagesAlloc fresh_window 100) as [[r w1] |] eqn:E; [| vm_compute in E; discriminate E].
  assert (Er : r = 0xC1000000).
  { assert (Q : option_map fst (NxPoolPagesAlloc fresh_window 100) = Some 0xC1000000) by (vm_compute; reflexivity).
    rewrite E in Q. by injection Q. }
  subst r. destruct (pool_alloc_free fresh_window 100 0xC1000000 w1 fresh_window_ok ltac:(lia) E ltac:(lia)) as (w2 & F & _ & R & _).
  exists w1, w2. split; [done |]. split; [exact F |]. rewrite R. reflexivity.
Defined.
