(* ===== verification/SysVa.v ===== *)
(** * The system-memory aperture

    [ntoskrnl/xb/mm/sysva.c]: [NxkSysVaAllocate] maps fresh frames at the
    first hole of the aperture at 0xD0000000 that is long enough, with the
    page-table entries as the only record of what is in use, and
    [NxkSysVaFree] walks the entries and hands the frames back.  The frames
    and the page tables have no owner recorded, so relocation leaves them
    where they are.

    The model works on the page-table and supply state of [Paging.v].  The
    two locks make a call one step; the flushes of the translation buffer
    are not modelled, nor is [NxkMmInitSystemVa], which creates the lock. *)

From stdpp Require Import prelude gmap list numbers sets.
From Stdlib Require Import ZArith Lia.
From S2P Require Import Prelude PageSupply Paging Vm PoolPages.

Local Open Scope Z_scope.

(** ** Constants *)

Definition NXK_4MB : Z := 0x00400000.
Definition NXK_PDE_PT : Z := 0x00000003.
Definition NXK_PTE_VALID : Z := 0x00000003.
Definition NXK_SYSMEM_BASE : Z := 0xD0000000.
Definition NXK_SYSMEM_PT_COUNT : Z := 16.
Definition NXK_SYSMEM_BYTES : Z := NXK_SYSMEM_PT_COUNT * NXK_4MB.
Definition NXK_SYSMEM_LIMIT : Z := NXK_SYSMEM_BASE + NXK_SYSMEM_BYTES.

(** [Pde[i]] and [Pte[i]] as indices of the self-map: the directory is the
    page 0xC0300 of the tables' window. *)
Definition Pde (m : mm) (i : Z) : Z := pte m (0xC0000 + i).

(** ** The search *)

(** The test of one page: under an absent table the page is free, otherwise
    when its entry is zero. *)
Definition page_free (m : mm) (Va : Z) : bool :=
  if Z.land (Pde m (Z.shiftr Va 22)) 1 =? 0 then true else pte m (Z.shiftr Va PAGE_SHIFT) =? 0.

(** The loop, with [n] pages left below the limit. *)
Fixpoint hole_scan (n : nat) (m : mm) (Pages Va RunStart Run : Z) : Z :=
  match n with
  | O => 0
  | S n' =>
      if page_free m Va then
        let RunStart := if Run =? 0 then Va else RunStart in
        let Run := add32 Run 1 in
        if Run =? Pages then RunStart else hole_scan n' m Pages (add32 Va PAGE_SIZE) RunStart Run
      else hole_scan n' m Pages (add32 Va PAGE_SIZE) RunStart 0
  end.

Definition NxpSysVaFindHoleLocked (m : mm) (Pages : Z) : Z :=
  hole_scan (Z.to_nat (NXK_SYSMEM_BYTES / PAGE_SIZE)) m Pages NXK_SYSMEM_BASE 0 0.

(** ** Allocation *)

(** The page tables [i] to [i + n - 1]; [(false, m)] when the supply ran
    out.  The outer [option] is the fuel of the supply's scans. *)
Fixpoint back_tables (n : nat) (m : mm) (i : Z) : option (bool * mm) :=
  match n with
  | O => Some (true, m)
  | S n' =>
      if negb (Z.land (Pde m i) 1 =? 0) then back_tables n' m (i + 1)
      else
        match NxkPageSupplyTakeZero m with
        | None => None
        | Some (PtPfn, m) =>
            if PtPfn =? 0 then Some (false, m)
            else back_tables n' (install_table (Z.shiftl i 22) (Z.lor (shl32 PtPfn PAGE_SHIFT) NXK_PDE_PT) m) (i + 1)
        end
  end.

(** The pages [j] to [j + n - 1] of the run, given back. *)
Fixpoint roll_back (n : nat) (m : mm) (Va j : Z) : mm :=
  match n with
  | O => m
  | S n' =>
      let Idx := Z.shiftr Va PAGE_SHIFT + j in
      let m := with_sup (NxkPageSupplyReturn (sup m) (Z.shiftr (pte m Idx) PAGE_SHIFT)) m in
      roll_back n' (set_pte Idx 0 m) Va (j + 1)
  end.

(** [n] pages to go, [i] behind. *)
Fixpoint commit_frames (n : nat) (m : mm) (Va i : Z) : option (bool * mm) :=
  match n with
  | O => Some (true, m)
  | S n' =>
      match NxkPageSupplyTakeZero m with
      | None => None
      | Some (Pfn, m) =>
          if Pfn =? 0 then Some (false, roll_back (Z.to_nat i) m Va 0)
          else commit_frames n' (set_pte (Z.shiftr Va PAGE_SHIFT + i) (Z.lor (shl32 Pfn PAGE_SHIFT) NXK_PTE_VALID) m) Va (i + 1)
      end
  end.

(** [(ULONG)((Size + PAGE_SIZE - 1) >> PAGE_SHIFT)]. *)
Definition sys_page_count (Size : Z) : Z := Z.shiftr (sub32 (add32 Size PAGE_SIZE) 1) PAGE_SHIFT.

(** The address is 0 for failure. *)
Definition NxkSysVaAllocate (m : mm) (Size : Z) : option (Z * mm) :=
  if Size =? 0 then Some (0, m)
  else
    let Pages := sys_page_count Size in
    let Va := NxpSysVaFindHoleLocked m Pages in
    if Va =? 0 then Some (0, m)
    else
      let first := Z.shiftr Va 22 in
      let last := Z.shiftr (sub32 (add32 Va (shl32 Pages PAGE_SHIFT)) 1) 22 in
      match back_tables (Z.to_nat (last - first + 1)) m first with
      | None => None
      | Some (false, m) => Some (0, m)
      | Some (true, m) =>
          match commit_frames (Z.to_nat Pages) m Va 0 with
          | None => None
          | Some (false, m) => Some (0, m)
          | Some (true, m) => Some (Va, m)
          end
      end.

(** ** Free *)

(** [n] pages to go from page [i]; [None] is the fault of reading an entry
    whose page table is absent. *)
Fixpoint free_pages (n : nat) (m : mm) (Va i Freed : Z) : option (Z * mm) :=
  match n with
  | O => Some (Freed, m)
  | S n' =>
      let Idx := Z.shiftr Va PAGE_SHIFT + i in
      if Z.land (Pde m (Z.shiftr Idx 10)) 1 =? 0 then None
      else
        let PteVal := pte m Idx in
        if Z.land PteVal 1 =? 0 then free_pages n' m Va (i + 1) Freed
        else
          let m := set_pte Idx 0 m in
          let m := with_sup (NxkPageSupplyReturn (sup m) (Z.shiftr PteVal PAGE_SHIFT)) m in
          free_pages n' m Va (i + 1) (add32 Freed 1)
  end.

Definition NxkSysVaFree (m : mm) (VaPtr Size : Z) : option (Z * mm) :=
  if VaPtr =? 0 then Some (0, m)
  else if (VaPtr <? NXK_SYSMEM_BASE) || (NXK_SYSMEM_LIMIT <=? VaPtr) then Some (0, m)
  else free_pages (Z.to_nat (sys_page_count Size)) m VaPtr 0 0.

(** ** The invariant *)

Definition sys_page (k : Z) : Prop := 0xD0000 <= k < 0xD4000.
Definition sys_pde (k : Z) : Prop := 0xC0340 <= k < 0xC0350.
Definition sys_entry (k : Z) : Prop := sys_page k \/ sys_pde k.

(** Every entry of the aperture is zero or maps an immovable frame of its
    own, and a page is mapped only under a table. *)
Record sys_ok (m : mm) : Prop := {
  sy_mm : mm_wf m;
  sy_entry : forall k, sys_entry k -> pte m k = 0 \/ pte m k = entry (fr m k) 3 /\ pinned m (fr m k);
  sy_table : forall k, sys_page k -> pte m k <> 0 -> pte m (pdx k) <> 0;
  sy_inj : forall j k, sys_entry j -> sys_entry k -> pte m j <> 0 -> pte m k <> 0 -> fr m j = fr m k -> j = k
}.

Local Opaque free_set NxpUnlink.

Lemma sys_pdx k : sys_page k -> sys_pde (pdx k).
Proof.
  unfold sys_page, sys_pde, pdx. intros Hk.
  assert (0x340 <= k / 1024 < 0x350); [split; [apply Z.div_le_lower_bound; lia | apply Z.div_lt_upper_bound; lia] | lia].
Qed.

(** The two kinds of entries are apart. *)
Lemma page_not_pde k j : sys_page k -> sys_pde j -> k <> j.
Proof. unfold sys_page, sys_pde. lia. Qed.

Lemma sys_unowned m k q : sys_ok m -> sys_entry k -> ~ owned m k q.
Proof.
  intros S Hk Ho. pose proof (mm_owner _ (sy_mm _ S) _ _ Ho) as E. destruct Ho as ((Hr & _) & _ & Hl & Hn).
  destruct (sy_entry _ S k Hk) as [E0 | [_ (_ & _ & Hz)]].
  - rewrite E0 in E. change (0 / 2 ^ 12) with 0 in E. lia.
  - unfold fr in Hz. rewrite E in Hz. congruence.
Qed.

Lemma fr_free m k : sys_ok m -> sys_entry k -> pte m k <> 0 -> fr m k ∉ free_set (sup m).
Proof. intros S Hk Hn. destruct (sy_entry _ S k Hk) as [? | [_ (_ & Hf & _)]]; [done | exact Hf]. Qed.

Lemma fr_pfn m k : sys_ok m -> sys_entry k -> pte m k <> 0 -> 0 < fr m k <= NXP_PFN_MASK.
Proof.
  intros S Hk Hn. destruct (sy_entry _ S k Hk) as [? | [_ (Hr & _)]]; [done |]. pose proof (wf_highest _ (mm_sup _ (sy_mm _ S))).
  unfold in_range, NXP_PFN_MASK in *. lia.
Qed.

Lemma entry_present m k : sys_ok m -> sys_entry k -> (Z.land (pte m k) 1 =? 0) = bool_decide (pte m k = 0).
Proof.
  intros S Hk. destruct (decide (pte m k = 0)) as [E | Hn]; [by rewrite bool_decide_true, E by done |]. rewrite bool_decide_false by done.
  destruct (sy_entry _ S k Hk) as [? | [E _]]; [done |]. destruct (entry3 (fr m k) (fr_pfn m k S Hk Hn)) as (_ & _ & _ & _ & H1).
  rewrite E. by apply Z.eqb_neq.
Qed.

(** A free frame entered at a zero entry. *)
Record entered (m : mm) (k p : Z) (m' : mm) : Prop := {
  en_ok : sys_ok m';
  en_kept : frames_kept none m m';
  en_free : free_set (sup m') = free_set (sup m) ∖ {[p]};
  en_pte : forall j, pte m' j = if decide (k = j) then entry p 3 else pte m j;
  en_zero : frame_at m' p = zero_frame
}.

Lemma enter_entry m p s' k m' : sys_ok m -> took (sup m) p s' -> sys_entry k -> pte m k = 0 -> (sys_page k -> pte m (pdx k) <> 0) ->
  sup m' = s' -> frames m' = frames (zero_page p (with_sup s' m)) ->
  (forall j, pte m' j = if decide (k = j) then entry p 3 else pte m j) -> entered m k p m'.
Proof.
  intros S Tk Hk H0 Ht Es Ef Ep. pose proof (sy_mm _ S) as Wm.
  destruct (took_zero_mm m p s' Wm Tk) as (W1 & Pn1 & O1 & P1 & _ & Z1 & Fr1 & N1). set (m1 := zero_page p (with_sup s' m)) in *.
  assert (E1 : sup m' = sup m1) by done. assert (F1 : forall q, frame_at m' q = frame_at m1 q) by (intros q; unfold frame_at; by rewrite Ef).
  assert (O' : forall j q, owned m' j q <-> owned m j q) by (intros j q; rewrite <- O1; unfold owned; by rewrite E1).
  assert (Pn : forall q, pinned m q -> pinned m' q) by (intros q Hq; unfold pinned; rewrite E1; by apply P1).
  pose proof Tk as (_ & Hpf & HF & _ & _ & HH). pose proof (frame_pfn m p Wm Hpf) as Hp. destruct (entry3 p Hp) as (_ & E2 & E3 & _).
  assert (Fp : fr m' k = p) by (unfold fr; by rewrite Ep, decide_True).
  assert (Fj : forall j, j <> k -> fr m' j = fr m j) by (intros j Hj; unfold fr; by rewrite Ep, decide_False by congruence).
  assert (Pj : forall j, j <> k -> pte m' j = pte m j) by (intros j Hj; by rewrite Ep, decide_False by congruence).
  assert (Pk : pte m' k = entry p 3) by (by rewrite Ep, decide_True).
  assert (New : forall j, sys_entry j -> j <> k -> pte m' j <> 0 -> fr m' j = p -> False).
  { intros j Hj Hne Hn E. rewrite Pj in Hn by done. rewrite Fj in E by done. apply (fr_free m j S Hj Hn). by rewrite E. }
  constructor; [constructor | | by rewrite Es | done | by rewrite F1].
  - constructor; [rewrite E1; apply W1 |]. intros j q Ho%O'. rewrite Ep, decide_False; [by apply Wm |]. intros <-. by apply (sys_unowned m k q S Hk).
  - intros j Hj. destruct (decide (j = k)) as [-> | Hne].
    + right. rewrite Fp, Pk. split; [done |]. unfold pinned. rewrite E1. apply Pn1.
    + rewrite Pj, Fj by done. destruct (sy_entry _ S j Hj) as [? | [? ?]]; [by left | right; auto].
  - intros j Hj Hn. destruct (decide (j = k)) as [-> | Hne].
    + rewrite Pj; [by apply Ht |]. intros E. exact (page_not_pde k (pdx k) Hj (sys_pdx k Hj) (eq_sym E)).
    + rewrite Pj in Hn by done. pose proof (sy_table _ S j Hj Hn) as Hd. rewrite Ep. case_decide; [congruence | done].
  - intros i j Hi Hj Hni Hnj E. destruct (decide (i = k)) as [-> | Hik], (decide (j = k)) as [-> | Hjk]; [done | | |].
    + exfalso. apply (New j); congruence.
    + exfalso. apply (New i); congruence.
    + rewrite Pj in Hni by done. rewrite Pj in Hnj by done. rewrite !Fj in E by done. by apply (sy_inj _ S).
  - constructor; [intros j q Ho _; by apply O' | auto | | by rewrite Es].
    intros q [_ Hq] _. rewrite F1. apply Fr1. congruence.
Qed.

(** The page at [k] given back. *)
Lemma release_entry m k : sys_ok m -> sys_page k -> pte m k <> 0 ->
  let m' := with_sup (NxkPageSupplyReturn (sup m) (fr m k)) (set_pte k 0 m) in
  sys_ok m' /\ frames_kept (eq (fr m k)) m m' /\ free_set (sup m') = {[fr m k]} ∪ free_set (sup m) /\
  (forall j, pte m' j = if decide (k = j) then 0 else pte m j).
Proof.
  intros S Hk Hn m'. pose proof (sy_mm _ S) as Wm. assert (Hke : sys_entry k) by (by left).
  destruct (sy_entry _ S k Hke) as [? | [Ek (Hr & Hf & Hl)]]; [done |].
  destruct (return_wf (sup m) (fr m k) (mm_sup _ Wm) Hr Hf) as (W2 & F2 & U2). destruct (return_fields (sup m) (fr m k)) as (H2 & _).
  set (p := fr m k) in *. change (NxkPageSupplyReturn (sup m) p) with (sup m') in W2, F2, U2, H2.
  assert (Ep : forall j, pte m' j = if decide (k = j) then 0 else pte m j) by (intros j; unfold pte; apply rd_insert).
  assert (HL : forall q, q <> p -> q ∉ free_set (sup m) -> link (sup m') q = link (sup m) q).
  { intros q Hq Hqf. apply U2; [done |]. rewrite F2. set_solver. }
  assert (Ho' : forall j q, owned m' j q <-> owned m j q).
  { intros j q. unfold owned, in_range. rewrite F2, H2. destruct (decide (q = p)) as [-> | Hq]; [| ].
    - split; [intros (_ & Hx & _); set_solver | intros (_ & _ & Hx & Hy); congruence].
    - destruct (decide (q ∈ free_set (sup m))); [set_solver |]. rewrite HL by done. set_solver. }
  assert (Pn : forall q, q <> p -> pinned m q -> pinned m' q).
  { intros q Hq (A & B & C). unfold pinned, in_range in *. rewrite F2, H2, HL by done. set_solver. }
  assert (Pj : forall j, j <> k -> pte m' j = pte m j) by (intros j Hj; by rewrite Ep, decide_False by congruence).
  assert (Fj : forall j, j <> k -> fr m' j = fr m j) by (intros j Hj; unfold fr; by rewrite Pj).
  assert (Nk : forall j, pte m' j <> 0 -> j <> k) by (intros j Hj ->; by rewrite Ep, decide_True in Hj).
  split; [constructor | split; [| by split]].
  - constructor; [done |]. intros j q Ho%Ho'. rewrite Pj; [by apply Wm |]. intros ->. by apply (sys_unowned m k q S Hke).
  - intros j Hj. destruct (decide (j = k)) as [-> | Hne]; [left; by rewrite Ep, decide_True |].
    rewrite Pj, Fj by done. destruct (sy_entry _ S j Hj) as [? | [A B]]; [by left |].
    destruct (decide (pte m j = 0)) as [| Hz]; [by left | right]. split; [done |]. apply Pn; [| done].
    intros E. apply Hne. by apply (sy_inj _ S).
  - intros j Hj Hz. pose proof (Nk j Hz) as Hne. rewrite Pj in Hz by done. rewrite Pj; [by apply (sy_table _ S) |].
    intros E. exact (page_not_pde k (pdx j) Hk (sys_pdx j Hj) (eq_sym E)).
  - intros i j Hi Hj Hni Hnj. rewrite !Fj by auto. rewrite Pj in Hni, Hnj by auto. by apply (sy_inj _ S).
  - constructor; [intros j q Ho _; by apply Ho' | intros q Hq Hd; apply Pn; [congruence | done] | done | done].
Qed.

(** ** The balance of frames *)

Lemma entry_present_true m k : sys_ok m -> sys_entry k -> pte m k <> 0 -> present (pte m k) = true.
Proof.
  intros S Hk Hn. unfold present, BooleanFlagOn, NXV_PTE_P. by rewrite (entry_present m k S Hk), bool_decide_false.
Qed.

Lemma entered_conserved m k p m' : sys_entry k -> pte m k = 0 -> p ∈ free_set (sup m) -> 0 < p <= NXP_PFN_MASK -> entered m k p m' ->
  conserved sys_entry m m'.
Proof. intros Hk E0 Hp Hb [_ _ F P _]. by apply (conserved_enter _ m k p m'); rewrite ?E0. Qed.

Lemma released_conserved m k m' : sys_ok m -> sys_entry k -> pte m k <> 0 -> free_set (sup m') = {[fr m k]} ∪ free_set (sup m) ->
  (forall j, pte m' j = if decide (k = j) then 0 else pte m j) -> conserved sys_entry m m'.
Proof. intros S Hk Hn F P. apply (conserved_release _ m k m'); [done | by apply entry_present_true | done | done]. Qed.

(** ** Page tables *)

(** The entries of the pages are the same. *)
Definition pages_same (m m' : mm) : Prop := forall j, sys_page j -> pte m' j = pte m j.

(** No entry outside the aperture and its directory part changed. *)
Definition others_same (m m' : mm) : Prop := forall j, ~ sys_entry j -> pte m' j = pte m j.

Lemma back_tables_spec n m i : sys_ok m -> 0x340 <= i -> i + Z.of_nat n <= 0x350 ->
  exists b m', back_tables n m i = Some (b, m') /\ sys_ok m' /\ frames_kept none m m' /\ pages_same m m' /\ others_same m m' /\
    free_set (sup m') ⊆ free_set (sup m) /\ conserved sys_entry m m' /\
    (forall j, pte m j <> 0 \/ ~ (0xC0000 + i <= j < 0xC0000 + i + Z.of_nat n) -> pte m' j = pte m j) /\
    if b : bool then forall j, i <= j < i + Z.of_nat n -> pte m' (0xC0000 + j) <> 0 else takable m' = ∅.
Proof.
  revert m i. induction n as [|n IH]; intros m i S Hi Hn; cbn [back_tables].
  { exists true, m. split_and!; [done | done | apply frames_kept_refl | done | done | done | done | done | lia]. }
  assert (Hd : sys_pde (0xC0000 + i)) by (unfold sys_pde; lia). assert (He : sys_entry (0xC0000 + i)) by (by right).
  unfold Pde. rewrite (entry_present m _ S He). destruct (decide (pte m (0xC0000 + i) = 0)) as [E0 | Hp].
  2: { rewrite bool_decide_false by done. cbn [negb]. destruct (IH m (i + 1) S ltac:(lia) ltac:(lia)) as (b & m' & Eb & S' & K & Ps & Os & Fs & Cs & Pd & Hb).
    exists b, m'. split_and!; try done; [intros j [? | ?]; apply Pd; [by left | right; lia] |].
    destruct b; [| done]. intros j Hj. destruct (decide (j = i)) as [-> | Hne]; [rewrite Pd; auto | apply Hb; lia]. }
  rewrite bool_decide_true by done. cbn [negb]. pose proof (sy_mm _ S) as Wm.
  destruct (take_zero_spec m Wm) as (p & m1 & -> & [(-> & -> & Hex) | (s' & Tk & Hp16 & ->)]).
  { exists false, m. split_and!; [done | done | apply frames_kept_refl | done | done | done | done | done | by apply takable_empty]. }
  destruct (Z.eqb_spec p 0) as [? | _]; [lia |]. pose proof Tk as (_ & Hpf & _). pose proof (frame_pfn m p Wm Hpf) as Hpp.
  unfold NXK_PDE_PT. rewrite shl_entry by lia.
  assert (Ei : Z.shiftl i 22 = 4096 * (1024 * i)) by (rewrite Z.shiftl_mul_pow2 by lia; lia). rewrite Ei.
  assert (Dx : pdx (1024 * i) = 0xC0000 + i) by (unfold pdx; rewrite Z.mul_comm, Z.div_mul by lia; done).
  set (m2 := install_table _ _ _).
  assert (En : entered m (0xC0000 + i) p m2).
  { apply (enter_entry m p s'); [done | done | done | done | | done | done |].
    - intros Hk. exfalso. unfold sys_page in Hk. lia.
    - intros j. unfold m2. rewrite pte_install, Dx. case_decide; [done |]. case_decide as Hj; [| done].
      rewrite Z.mul_comm, Z.div_mul in Hj by lia. pose proof (Z.div_mod j 1024 ltac:(lia)). pose proof (Z.mod_pos_bound j 1024 ltac:(lia)).
      destruct (decide (pte m j = 0)) as [| Hnz]; [done |]. exfalso.
      apply (sy_table _ S j) in Hnz; [| unfold sys_page; lia]. apply Hnz. unfold pdx. by rewrite Hj. }
  pose proof (entered_conserved _ _ _ _ He E0 Hpf Hpp En) as C2. destruct En as [S2 K2 F2 P2 _].
  assert (Ps2 : pages_same m m2) by (intros j Hj; rewrite P2, decide_False; [done | unfold sys_page in Hj; lia]).
  assert (Os2 : others_same m m2) by (intros j Hj; rewrite P2, decide_False; [done | congruence]).
  destruct (entry3 p Hpp) as (_ & _ & E3 & _).
  assert (Pd2 : forall j, j <> 0xC0000 + i -> pte m2 j = pte m j) by (intros j Hj; by rewrite P2, decide_False by congruence).
  destruct (IH m2 (i + 1) S2 ltac:(lia) ltac:(lia)) as (b & m' & Eb & S' & K & Ps & Os & Fs & Cs & Pd & Hb).
  exists b, m'. split_and!; [done | done | by eapply frames_kept_none | | | | by eapply conserved_trans | |].
  - intros j Hj. by rewrite Ps, Ps2.
  - intros j Hj. by rewrite Os, Os2.
  - rewrite F2 in Fs. set_solver.
  - intros j Hj. assert (j <> 0xC0000 + i) by (intros ->; destruct Hj; [done | lia]).
    rewrite Pd, Pd2; [done | done |]. rewrite Pd2 by done. destruct Hj; [by left | right; lia].
  - destruct b; [| done]. intros j Hj. destruct (decide (j = i)) as [-> | Hne]; [| apply Hb; lia].
    rewrite Pd; rewrite P2, decide_True; auto.
Qed.

(** ** Pages *)

Lemma shiftr_page k : Z.shiftr (4096 * k) PAGE_SHIFT = k.
Proof. unfold PAGE_SHIFT. rewrite Z.shiftr_div_pow2 by lia. change (2 ^ 12) with 4096. rewrite Z.mul_comm. apply Z.div_mul. lia. Qed.

(** The frames of the pages [lo] to [hi - 1]. *)
Definition held (m : mm) (lo hi q : Z) : Prop := exists j, lo <= j < hi /\ q = fr m j.

Lemma roll_back_spec n m k j : sys_ok m -> 0xD0000 <= k + j -> k + j + Z.of_nat n <= 0xD4000 ->
  (forall i, k + j <= i < k + j + Z.of_nat n -> pte m i <> 0) ->
  let m' := roll_back n m (4096 * k) j in
  sys_ok m' /\ frames_kept (held m (k + j) (k + j + Z.of_nat n)) m m' /\
  (forall q, q ∈ free_set (sup m') <-> q ∈ free_set (sup m) \/ held m (k + j) (k + j + Z.of_nat n) q) /\ conserved sys_entry m m' /\
  (forall i, pte m' i = if decide (k + j <= i < k + j + Z.of_nat n) then 0 else pte m i).
Proof.
  revert m j. induction n as [|n IH]; intros m j S H1 H2 Hn; cbn [roll_back].
  { split_and!; [done | apply frames_kept_refl | | done | intros i; by rewrite decide_False by lia].
    intros q. split; [by left |]. intros [? | (i & Hi & _)]; [done | lia]. }
  rewrite shiftr_page. assert (Hk : sys_page (k + j)) by (unfold sys_page; lia).
  assert (Efr : Z.shiftr (pte m (k + j)) PAGE_SHIFT = fr m (k + j)) by (unfold PAGE_SHIFT, fr; by rewrite Z.shiftr_div_pow2 by lia). rewrite Efr.
  destruct (release_entry m (k + j) S Hk (Hn (k + j) ltac:(lia))) as (S1 & K1 & F1 & P1).
  match goal with |- context [roll_back n ?x _ _] => set (m1 := x) end.
  change (with_sup (NxkPageSupplyReturn (sup m) (fr m (k + j))) (set_pte (k + j) 0 m)) with m1 in *.
  assert (Pj : forall i, i <> k + j -> pte m1 i = pte m i) by (intros i Hi; by rewrite P1, decide_False by congruence).
  assert (Fj : forall i, i <> k + j -> fr m1 i = fr m i) by (intros i Hi; unfold fr; by rewrite Pj).
  pose proof (released_conserved m (k + j) m1 S (or_introl Hk) (Hn (k + j) ltac:(lia)) F1 P1) as C1.
  destruct (IH m1 (j + 1) S1) as (S2 & K2 & F2 & C2 & P2); [lia | lia | intros i Hi; rewrite Pj by lia; apply Hn; lia |].
  replace (k + (j + 1)) with (k + j + 1) in * by lia. set (m' := roll_back n m1 (4096 * k) (j + 1)) in *.
  assert (Hh : forall q, held m (k + j) (k + j + Z.of_nat (Datatypes.S n)) q <-> q = fr m (k + j) \/ held m1 (k + j + 1) (k + j + 1 + Z.of_nat n) q).
  { intros q. split.
    - intros (i & Hi & ->). destruct (decide (i = k + j)) as [-> | Hne]; [by left | right]. exists i. split; [lia | by rewrite Fj].
    - intros [-> | (i & Hi & ->)]; [exists (k + j); split; [lia | done] | exists i; split; [lia | by rewrite Fj by lia]]. }
  split_and!; [done | | | by eapply conserved_trans |].
  - eapply frames_kept_mono; [by eapply frames_kept_trans |]. intros q _ [<- | Hq]; apply Hh; auto.
  - intros q. rewrite F2, F1, Hh. set_solver.
  - intros i. rewrite P2, P1. repeat case_decide; try done; lia.
Qed.

Lemma held_size m lo hi : lo <= hi -> exists D : gset Z, (forall q, q ∈ D <-> held m lo hi q) /\ Z.of_nat (size D) <= hi - lo.
Proof.
  intros H. exists (list_to_set (map (fun i => fr m (lo + Z.of_nat i)) (seq 0 (Z.to_nat (hi - lo))))). split.
  - intros q. rewrite elem_of_list_to_set, list_elem_of_In, in_map_iff. split.
    + intros (i & <- & Hi). apply in_seq in Hi. exists (lo + Z.of_nat i). split; [lia | done].
    + intros (j & Hj & ->). exists (Z.to_nat (j - lo)). split; [f_equal; lia | apply in_seq; lia].
  - pose proof (size_of_list (map (fun i => fr m (lo + Z.of_nat i)) (seq 0 (Z.to_nat (hi - lo))))) as Hs.
    rewrite length_map, length_seq in Hs. lia.
Qed.

Lemma sys_commit_spec n m k i : sys_ok m -> 0xD0000 <= k -> 0 <= i -> k + i + Z.of_nat n <= 0xD4000 ->
  (forall j, k <= j < k + i -> pte m j <> 0) ->
  (forall j, k + i <= j < k + i + Z.of_nat n -> pte m j = 0 /\ pte m (pdx j) <> 0) ->
  exists b m', commit_frames n m (4096 * k) i = Some (b, m') /\ sys_ok m' /\ conserved sys_entry m m' /\
    if b : bool then frames_kept none m m' /\ free_set (sup m') ⊆ free_set (sup m) /\
      (forall j, ~ (k + i <= j < k + i + Z.of_nat n) -> pte m' j = pte m j) /\
      (forall j, k + i <= j < k + i + Z.of_nat n -> exists p, p ∈ takable m /\ pte m' j = entry p 3 /\ frame_at m' p = zero_frame)
    else frames_kept (held m k (k + i)) m m' /\
      (forall j, pte m' j = if decide (k <= j < k + i + Z.of_nat n) then 0 else pte m j) /\
      Z.of_nat (size (takable m')) < i + Z.of_nat n.
Proof.
  revert m i. induction n as [|n IH]; intros m i S H1 H2 H3 Hm H0; cbn [commit_frames].
  { exists true, m. split_and!; [done | done | done | apply frames_kept_refl | done | done | lia]. }
  pose proof (sy_mm _ S) as Wm. destruct (take_zero_spec m Wm) as (p & m1 & -> & [(-> & -> & Hex) | (s' & Tk & Hp16 & ->)]).
  { eexists false, _. split; [done |]. destruct (roll_back_spec (Z.to_nat i) m k 0 S) as (S' & K' & F' & C' & P'); [lia | lia | intros j Hj; apply Hm; lia |].
    rewrite Z.add_0_r, Z2Nat.id in * by done. split_and!; [done | done | done | |].
    - intros j. rewrite P'. destruct (decide (k <= j < k + i)) as [Hj | Hj]; [by rewrite decide_True by lia |].
      case_decide; [apply H0; lia | done].
    - destruct (held_size m k (k + i) ltac:(lia)) as (D & HD & Hs).
      assert (Sub : takable (roll_back (Z.to_nat i) m (4096 * k) 0) ⊆ D).
      { intros q Hq. unfold takable in Hq. rewrite elem_of_filter in Hq. destruct Hq as [Hq16 Hq]. apply F' in Hq as [Hq%Hex | Hq]; [lia | by apply HD]. }
      apply subseteq_size in Sub. lia. }
  destruct (Z.eqb_spec p 0) as [? | _]; [lia |]. pose proof Tk as (_ & Hpf & _). pose proof (frame_pfn m p Wm Hpf) as Hpp.
  unfold NXK_PTE_VALID. rewrite shl_entry, shiftr_page by lia. set (m2 := set_pte _ _ _).
  destruct (H0 (k + i) ltac:(lia)) as [Z0 Td]. assert (Hk : sys_page (k + i)) by (unfold sys_page; lia).
  assert (En : entered m (k + i) p m2).
  { apply (enter_entry m p s'); [done | done | by left | done | done | done | done |]. intros j. unfold m2, pte. apply rd_insert. }
  pose proof (entered_conserved _ _ _ _ (or_introl Hk) Z0 Hpf Hpp En) as C2. destruct En as [S2 K2 F2 P2 Z2].
  assert (Pj : forall j, j <> k + i -> pte m2 j = pte m j) by (intros j Hj; by rewrite P2, decide_False by congruence).
  destruct (entry3 p Hpp) as (_ & E2 & E3 & _). assert (Pk : pte m2 (k + i) = entry p 3) by (by rewrite P2, decide_True).
  destruct (IH m2 (i + 1) S2) as (b & m' & Eb & S' & Cs & Hb); [lia | lia | lia | | |].
  { intros j Hj. destruct (decide (j = k + i)) as [-> | Hne]; [by rewrite Pk | rewrite Pj by done; apply Hm; lia]. }
  { intros j Hj. rewrite !Pj; [apply H0; lia | | lia]. intros E. apply (page_not_pde (k + i) (pdx j)); [done | apply sys_pdx; unfold sys_page; lia | done]. }
  exists b, m'. split; [done |]. split; [done |]. split; [by eapply conserved_trans |]. replace (k + (i + 1)) with (k + i + 1) in Hb by lia.
  assert (Tsub : forall q, q ∈ takable m2 -> q ∈ takable m) by (intros q; unfold takable; rewrite !elem_of_filter, F2; set_solver).
  destruct b.
  - destruct Hb as (K & Fs & Po & Pn). split_and!; [by eapply frames_kept_none | rewrite F2 in Fs; set_solver | |].
    + intros j Hj. rewrite Po, Pj by lia. done.
    + intros j Hj. destruct (decide (j = k + i)) as [-> | Hne].
      * exists p. split; [unfold takable; apply elem_of_filter; split; [lia | done] |]. rewrite Po by lia. split; [done |].
        rewrite (fk_frame _ _ _ K); [done | | unfold none; tauto]. destruct (sy_entry _ S2 (k + i) (or_introl Hk)) as [F | [_ (A & B & _)]]; [by rewrite Pk in F |].
        unfold fr in A, B. rewrite Pk, E2 in A, B. by split.
      * destruct (Pn j ltac:(lia)) as (q & Hq & Eq & Zq). exists q. split_and!; [by apply Tsub | done | done].
  - destruct Hb as (K & Po & Hs). split_and!; [| | lia].
    + eapply frames_kept_mono; [by eapply frames_kept_trans |]. intros q [_ Hq] [[] | (j & Hj & ->)].
      destruct (decide (j = k + i)) as [-> | Hne]; [exfalso; apply Hq; unfold fr; rewrite Pk, E2; done |].
      exists j. split; [lia | unfold fr; by rewrite Pj].
    + intros j. rewrite Po. destruct (decide (j = k + i)) as [-> | Hne]; [by rewrite !decide_True by lia |]. rewrite Pj by done.
      repeat case_decide; try done; lia.
Qed.

(** ** The search *)

(** [n] free pages of the aperture at [k]. *)
Definition hole_at (m : mm) (k n : Z) : Prop :=
  0xD0000 <= k /\ k + n <= 0xD4000 /\ forall j, k <= j < k + n -> pte m j = 0.

Lemma page_free_spec m j : sys_ok m -> sys_page j -> page_free m (4096 * j) = bool_decide (pte m j = 0).
Proof.
  intros S Hj. unfold page_free, Pde. rewrite shiftr_page.
  assert (Ed : 0xC0000 + Z.shiftr (4096 * j) 22 = pdx j) by (rewrite <- NXV_PDE_page; done). rewrite Ed.
  rewrite (entry_present m _ S (or_intror (sys_pdx j Hj))). destruct (decide (pte m (pdx j) = 0)) as [E | E].
  - rewrite bool_decide_true by done. rewrite bool_decide_true; [done |]. destruct (decide (pte m j = 0)) as [| Hn]; [done |].
    by destruct (sy_table _ S j Hj Hn).
  - rewrite bool_decide_false by done. destruct (Z.eqb_spec (pte m j) 0); [by rewrite bool_decide_true | by rewrite bool_decide_false].
Qed.

Definition lowest_hole (m : mm) (n k : Z) : Prop := hole_at m k n /\ forall j, j < k -> ~ hole_at m j n.

Lemma hole_scan_spec m n : sys_ok m -> forall left v r start, 0 < n -> 0xD0000 <= v - r -> v + Z.of_nat left = 0xD4000 -> 0 <= r < n ->
  (r <> 0 -> start = 4096 * (v - r)) -> (forall j, v - r <= j < v -> pte m j = 0) -> (forall k, k < v - r -> ~ hole_at m k n) ->
  let x := hole_scan left m n (4096 * v) start r in
  (x = 0 /\ forall k, ~ hole_at m k n) \/ exists k, x = 4096 * k /\ lowest_hole m n k.
Proof.
  intros S left. induction left as [|left IH]; intros v r start Hn Hv Hl Hr Hst Hf Hno; cbn [hole_scan].
  { left. split; [done |]. intros k Hk. destruct (Z.lt_ge_cases k (v - r)) as [? | ?]; [by apply (Hno k) |].
    destruct Hk as (_ & ? & _). lia. }
  assert (Hj : sys_page v) by (unfold sys_page; lia). rewrite (page_free_spec m v S Hj).
  unfold PAGE_SIZE. rewrite (add32_id (4096 * v)) by lia. replace (4096 * v + 4096) with (4096 * (v + 1)) by lia.
  destruct (decide (pte m v = 0)) as [E0 | E0].
  - rewrite bool_decide_true by done. rewrite add32_id by lia.
    assert (Est : (if r =? 0 then 4096 * v else start) = 4096 * (v - r)) by (destruct (Z.eqb_spec r 0) as [-> | ?]; [f_equal; lia | auto]).
    rewrite Est. destruct (Z.eqb_spec (r + 1) n) as [En | En].
    + right. exists (v - r). split; [done |]. split; [| done]. split; [lia |]. split; [lia |]. intros j Hj'.
      destruct (decide (j = v)) as [-> | ?]; [done | apply Hf; lia].
    + apply IH; [done | lia | lia | lia | intros _; f_equal; lia | | intros k Hk; apply Hno; lia].
      intros j Hj'. destruct (decide (j = v)) as [-> | ?]; [done | apply Hf; lia].
  - rewrite bool_decide_false by done. apply IH; [done | lia | lia | lia | done | lia |].
    intros k Hk Hh. destruct (Z.lt_ge_cases k (v - r)) as [? | ?]; [by apply (Hno k) |]. apply E0. destruct Hh as (_ & _ & Hh). apply Hh. lia.
Qed.

(** A request of no pages: the count that wrapped to zero. *)
Lemma hole_scan_zero m left : forall Va start r, 0 <= r -> r + Z.of_nat left < 2 ^ 32 -> hole_scan left m 0 Va start r = 0.
Proof.
  induction left as [|left IH]; intros Va start r Hr Hl; cbn [hole_scan]; [done |]. destruct (page_free m Va); [| apply IH; lia].
  rewrite add32_id by lia. destruct (Z.eqb_spec (r + 1) 0); [lia |]. apply IH; lia.
Qed.

Lemma page_count_spec Size : 0 <= Size < 2 ^ 32 ->
  sys_page_count Size = (if 2 ^ 32 - 4096 <? Size then 0 else (Size + 4095) / 4096) /\ 0 <= sys_page_count Size < 2 ^ 20.
Proof.
  intros Hs. assert (E : sys_page_count Size = if 2 ^ 32 - 4096 <? Size then 0 else (Size + 4095) / 4096).
  { unfold sys_page_count, PAGE_SIZE, PAGE_SHIFT, sub32, add32, u32. rewrite Zminus_mod_idemp_l, Z.shiftr_div_pow2 by lia. change (2 ^ 12) with 4096.
    destruct (Z.ltb_spec (2 ^ 32 - 4096) Size) as [H | H].
    - assert (Em : (Size + 4096 - 1) mod 2 ^ 32 = Size + 4096 - 1 - 2 ^ 32).
      { symmetry. apply (Z.mod_unique_pos _ _ 1); lia. }
      rewrite Em. apply Z.div_small. lia.
    - rewrite Z.mod_small by lia. f_equal. lia. }
  split; [done |]. rewrite E. destruct (Z.ltb_spec (2 ^ 32 - 4096) Size); [lia |].
  split; [apply Z.div_pos; lia | apply Z.div_lt_upper_bound; lia].
Qed.

Lemma find_hole_spec m n : sys_ok m -> 0 <= n ->
  let x := NxpSysVaFindHoleLocked m n in
  (x = 0 /\ (n = 0 \/ forall k, ~ hole_at m k n)) \/ 0 < n /\ exists k, x = 4096 * k /\ lowest_hole m n k.
Proof.
  intros S Hn x. unfold x, NxpSysVaFindHoleLocked. change (Z.to_nat (NXK_SYSMEM_BYTES / PAGE_SIZE)) with (Z.to_nat 0x4000).
  change NXK_SYSMEM_BASE with (4096 * 0xD0000). destruct (decide (n = 0)) as [-> | Hz].
  { left. split; [apply hole_scan_zero; lia | by left]. }
  destruct (hole_scan_spec m n S (Z.to_nat 0x4000) 0xD0000 0 0) as [[E H] | (k & E & H)]; try lia.
  - intros k Hk (? & _). lia.
  - left. auto.
  - right. split; [lia |]. eauto.
Qed.

(** ** The calls *)

Lemma shift22 k : Z.shiftr (4096 * k) 22 = k / 1024.
Proof.
  rewrite Z.shiftr_div_pow2 by lia. replace (2 ^ 22) with (1024 * 4096) by lia. rewrite Z.mul_comm. apply Z.div_mul_cancel_r; lia.
Qed.

(** What an allocation of [n] pages did. *)
Definition allocated (m : mm) (n k : Z) (m' : mm) : Prop :=
  lowest_hole m n k /\ (forall j, sys_page j -> ~ (k <= j < k + n) -> pte m' j = pte m j) /\
  forall j, k <= j < k + n -> exists p, p ∈ takable m /\ pte m' j = entry p 3 /\ frame_at m' p = zero_frame.

Lemma commit_at m n k : sys_ok m -> 0 < n < 2 ^ 20 -> hole_at m k n ->
  (forall j, k / 1024 <= j < (k + n - 1) / 1024 + 1 -> pte m (0xC0000 + j) <> 0) ->
  exists b m', commit_frames (Z.to_nat n) m (4096 * k) 0 = Some (b, m') /\ sys_ok m' /\ frames_kept none m m' /\ conserved sys_entry m m' /\
    (forall j, ~ sys_page j -> pte m' j = pte m j) /\
    if b : bool then (forall j, sys_page j -> ~ (k <= j < k + n) -> pte m' j = pte m j) /\
      (forall j, k <= j < k + n -> exists p, p ∈ takable m /\ pte m' j = entry p 3 /\ frame_at m' p = zero_frame)
    else pages_same m m' /\ Z.of_nat (size (takable m')) < n.
Proof.
  intros S Hn (H1 & H2 & H3) Ht. destruct (sys_commit_spec (Z.to_nat n) m k 0 S) as (b & m' & E & S' & Cs & Hb); [lia | lia | lia | lia | |].
  { intros j Hj. rewrite Z.add_0_r, Z2Nat.id in Hj by lia. split; [by apply H3 |]. unfold pdx. apply Ht.
    pose proof (Z.div_le_mono k j 1024 ltac:(lia) ltac:(lia)). pose proof (Z.div_le_mono j (k + n - 1) 1024 ltac:(lia) ltac:(lia)). lia. }
  rewrite Z.add_0_r, Z2Nat.id in Hb by lia. exists b, m'. split; [done |]. split; [done |]. destruct b.
  - destruct Hb as (K & _ & Po & Pn). split_and!; [done | done | | auto | done]. intros j Hj. apply Po. intros Hc. apply Hj. unfold sys_page. lia.
  - destruct Hb as (K & Po & Hs). split_and!; [| done | | | done].
    + eapply frames_kept_mono; [exact K |]. intros q _ (j & Hj & _). lia.
    + intros j Hj. rewrite Po, decide_False; [done |]. intros Hc. apply Hj. unfold sys_page. lia.
    + intros j Hj. rewrite Po. case_decide as Hd; [by rewrite H3 | done].
Qed.

(** A page table of the lowest run of [n] free pages. *)
Definition needed (m : mm) (n i : Z) : Prop := exists k j, lowest_hole m n k /\ k <= j < k + n /\ pdx j = i.

(** Only a missing page table that the run needs was added. *)
Definition tables_kept (m : mm) (n : Z) (m' : mm) : Prop :=
  forall i, sys_pde i -> pte m' i = pte m i \/ pte m i = 0 /\ needed m n i.

Lemma added_needed m n k m' : 0 < n -> lowest_hole m n k ->
  (forall j, pte m j <> 0 \/ ~ (0xC0000 + k / 1024 <= j < 0xC0000 + k / 1024 + Z.of_nat (Z.to_nat ((k + n - 1) / 1024 - k / 1024 + 1))) ->
    pte m' j = pte m j) -> tables_kept m n m'.
Proof.
  intros Hn Hl P i Hi. destruct (decide (pte m i = 0)) as [E | E]; [| left; apply P; by left].
  pose proof (Z.div_le_mono k (k + n - 1) 1024 ltac:(lia) ltac:(lia)).
  destruct (decide (k / 1024 <= i - 0xC0000 <= (k + n - 1) / 1024)) as [Hin | Hout]; [right | left; apply P; right; lia].
  split; [done |]. exists k, (Z.max k (1024 * (i - 0xC0000))). split; [done |].
  pose proof (Z.div_mod k 1024 ltac:(lia)). pose proof (Z.mod_pos_bound k 1024 ltac:(lia)).
  pose proof (Z.div_mod (k + n - 1) 1024 ltac:(lia)). pose proof (Z.mod_pos_bound (k + n - 1) 1024 ltac:(lia)).
  split; [lia |]. unfold pdx. set (x := Z.max _ _). assert (x / 1024 = i - 0xC0000); [| lia].
  symmetry. apply (Z.div_unique_pos x 1024 _ (x - 1024 * (i - 0xC0000))); lia.
Qed.

Lemma sysva_allocate_spec m Size : sys_ok m -> 0 <= Size < 2 ^ 32 -> exists Va m', NxkSysVaAllocate m Size = Some (Va, m') /\
  sys_ok m' /\ frames_kept none m m' /\ others_same m m' /\ conserved sys_entry m m' /\ tables_kept m ((Size + 4095) / 4096) m' /\
  ((Va = 0 /\ pages_same m m' /\ (Size = 0 \/ 2 ^ 32 - 4096 < Size \/ (forall k, ~ hole_at m k ((Size + 4095) / 4096)) \/
      Z.of_nat (size (takable m')) < (Size + 4095) / 4096)) \/
   exists k, Va = 4096 * k /\ 0 < Size /\ allocated m ((Size + 4095) / 4096) k m').
Proof.
  intros S Hs. unfold NxkSysVaAllocate.
  destruct (Z.eqb_spec Size 0) as [-> | Hz].
  { exists 0, m. split_and!; [done | done | apply frames_kept_refl | done | done | intros i _; by left |]. left. split_and!; [done | done | by left]. }
  destruct (page_count_spec Size Hs) as [En Hb]. set (n := sys_page_count Size) in *.
  destruct (find_hole_spec m n S ltac:(lia)) as [[-> Hno] | (Hn & k & -> & Hh)].
  { exists 0, m. split; [done |]. split_and!; [done | apply frames_kept_refl | done | done | intros i _; by left |]. left. split_and!; [done | done |].
    destruct (Z.ltb_spec (2 ^ 32 - 4096) Size) as [Hw | Hw]; [by right; left |]. rewrite <- En in *. right. right. left.
    destruct Hno as [E0 | Hno]; [| done]. exfalso. assert (1 <= (Size + 4095) / 4096) by (apply Z.div_le_lower_bound; lia). lia. }
  destruct (Z.ltb_spec (2 ^ 32 - 4096) Size) as [Hw | Hw]; [lia |]. rewrite <- En. pose proof Hh as [(H1 & H2 & H3) _].
  destruct (Z.eqb_spec (4096 * k) 0) as [? | _]; [lia |].
  assert (Esh : shl32 n PAGE_SHIFT = 4096 * n) by (unfold shl32, PAGE_SHIFT; rewrite Z.shiftl_mul_pow2, u32_id by lia; lia).
  rewrite Esh, add32_id, sub32_id, shift22 by lia.
  assert (El : Z.shiftr (4096 * k + 4096 * n - 1) 22 = (k + n - 1) / 1024).
  { rewrite Z.shiftr_div_pow2 by lia. replace (2 ^ 22) with (4096 * 1024) by lia. rewrite <- Z.div_div by lia. f_equal.
    replace (4096 * k + 4096 * n - 1) with (4095 + (k + n - 1) * 4096) by lia. rewrite Z.div_add by lia. change (4095 / 4096) with 0. lia. }
  rewrite El. assert (Hr : 0x340 <= k / 1024 /\ (k + n - 1) / 1024 < 0x350 /\ k / 1024 <= (k + n - 1) / 1024).
  { split_and!; [apply Z.div_le_lower_bound; lia | apply Z.div_lt_upper_bound; lia | apply Z.div_le_mono; lia]. }
  destruct (back_tables_spec (Z.to_nat ((k + n - 1) / 1024 - k / 1024 + 1)) m (k / 1024) S ltac:(lia) ltac:(lia))
    as (b & m1 & -> & S1 & K1 & Ps1 & Os1 & Fs1 & C1 & Pt1 & Hb1).
  assert (T1 : tables_kept m n m1) by (by apply (added_needed m n k)). destruct b.
  2: { exists 0, m1. split; [done |]. split_and!; [done | done | done | done | done |]. left. split_and!; [done | done |]. right. right. right.
       rewrite Hb1, size_empty. lia. }
  assert (Hh1 : hole_at m1 k n) by (split_and!; [done | done | intros j Hj; rewrite Ps1 by (unfold sys_page; lia); by apply H3]).
  destruct (commit_at m1 n k S1 ltac:(lia) Hh1) as (b & m' & -> & S' & K' & C' & Os' & Hb'); [intros j Hj; apply Hb1; lia |].
  assert (Os : others_same m m') by (intros j Hj; rewrite Os'; [by apply Os1 | intros ?; apply Hj; by left]).
  assert (T' : tables_kept m n m').
  { intros i Hi. rewrite Os'; [by apply T1 | intros Hp; exact (page_not_pde i i Hp Hi eq_refl)]. }
  pose proof (frames_kept_none _ _ _ K1 K') as K. pose proof (conserved_trans _ _ _ _ C1 C') as C.
  destruct b; [exists (4096 * k), m' | exists 0, m']; (split; [done |]); (split_and!; [done | done | done | done | done |]).
  - right. exists k. destruct Hb' as [Po Pn]. split; [done |]. split; [lia |]. split; [done | split].
    + intros j Hj Ho. by rewrite Po, Ps1.
    + intros j Hj. destruct (Pn j Hj) as (p & Hp & E & Zp). exists p. split_and!; [| done | done].
      unfold takable in *. rewrite elem_of_filter in *. set_solver.
  - left. destruct Hb' as [Ps Hs']. split_and!; [done | | by right; right; right]. intros j Hj. by rewrite Ps, Ps1.
Qed.

(** The pages mapped among the [n] at [k]. *)
Fixpoint mapped_count (n : nat) (m : mm) (k : Z) : Z :=
  match n with
  | O => 0
  | S n' => (if decide (pte m k = 0) then 0 else 1) + mapped_count n' m (k + 1)
  end.

Lemma mapped_count_ext n m m' k : (forall j, k <= j < k + Z.of_nat n -> pte m' j = pte m j) -> mapped_count n m' k = mapped_count n m k.
Proof.
  revert k. induction n as [|n IH]; intros k H; cbn [mapped_count]; [done |]. rewrite (H k) by lia. rewrite IH; [done |]. intros j Hj. apply H. lia.
Qed.

Lemma mapped_count_bound n m k : 0 <= mapped_count n m k <= Z.of_nat n.
Proof. revert k. induction n as [|n IH]; intros k; cbn [mapped_count]; [lia |]. specialize (IH (k + 1)). case_decide; lia. Qed.

Lemma mapped_count_all n m k : (forall j, k <= j < k + Z.of_nat n -> pte m j <> 0) -> mapped_count n m k = Z.of_nat n.
Proof.
  revert k. induction n as [|n IH]; intros k H; cbn [mapped_count]; [done |]. rewrite decide_False by (apply H; lia). rewrite IH; [lia |].
  intros j Hj. apply H. lia.
Qed.

(** The frames of the mapped pages among [lo] to [hi - 1]. *)
Definition held_mapped (m : mm) (lo hi q : Z) : Prop := exists j, lo <= j < hi /\ pte m j <> 0 /\ q = fr m j.

Lemma free_pages_spec n m Va k i f : sys_ok m -> Z.shiftr Va PAGE_SHIFT = k -> 0xD0000 <= k + i -> k + i + Z.of_nat n <= 0xD4000 ->
  0 <= f -> f + Z.of_nat n < 2 ^ 32 -> (forall j, k + i <= j < k + i + Z.of_nat n -> pte m (pdx j) <> 0) ->
  exists m', free_pages n m Va i f = Some (f + mapped_count n m (k + i), m') /\ sys_ok m' /\
    frames_kept (held_mapped m (k + i) (k + i + Z.of_nat n)) m m' /\
    (forall q, q ∈ free_set (sup m') <-> q ∈ free_set (sup m) \/ held_mapped m (k + i) (k + i + Z.of_nat n) q) /\ conserved sys_entry m m' /\
    (forall j, pte m' j = if decide (k + i <= j < k + i + Z.of_nat n) then 0 else pte m j).
Proof.
  intros S Hva. revert m i f S. induction n as [|n IH]; intros m i f S H1 H2 Hf Hfn Ht; cbn [free_pages mapped_count].
  { exists m. rewrite Z.add_0_r. split_and!; [done | done | apply frames_kept_refl | | done | intros j; by rewrite decide_False by lia].
    intros q. split; [by left |]. intros [? | (j & Hj & _)]; [done | lia]. }
  rewrite Hva. set (a := k + i) in *. assert (Ha : sys_page a) by (unfold sys_page; lia).
  unfold Pde. assert (Ed : 0xC0000 + Z.shiftr a 10 = pdx a) by (unfold pdx; by rewrite Z.shiftr_div_pow2 by lia). rewrite Ed.
  rewrite (entry_present m _ S (or_intror (sys_pdx a Ha))), bool_decide_false by (apply Ht; lia).
  rewrite (entry_present m a S (or_introl Ha)).
  assert (Nd : forall j, a <= j < a + Z.of_nat (Datatypes.S n) -> pdx j <> a).
  { intros j Hj E. apply (page_not_pde a (pdx j)); [done | apply sys_pdx; unfold sys_page; lia | done]. }
  destruct (decide (pte m a = 0)) as [E0 | E0].
  - rewrite bool_decide_true by done. destruct (IH m (i + 1) f S) as (m' & E & S' & K & F & C & P); [lia | lia | lia | lia | intros j Hj; apply Ht; lia |].
    replace (k + (i + 1)) with (a + 1) in * by lia. exists m'. split_and!; [done | done | | | done |].
    + eapply frames_kept_mono; [exact K |]. intros q _ (j & Hj & ?). exists j. split; [lia | done].
    + intros q. rewrite F. split; (intros [? | (j & Hj & Hn & ->)]; [by left | right]); exists j; [split; [lia | done] |].
      split; [| done]. assert (j <> a) by (intros ->; done). lia.
    + intros j. rewrite P. destruct (decide (j = a)) as [-> | Hne]; [rewrite decide_False, decide_True by lia; done |].
      repeat case_decide; try done; lia.
  - rewrite bool_decide_false by done.
    assert (Efr : Z.shiftr (pte m a) PAGE_SHIFT = fr m a) by (unfold PAGE_SHIFT, fr; by rewrite Z.shiftr_div_pow2 by lia). rewrite Efr.
    destruct (release_entry m a S Ha E0) as (S1 & K1 & F1 & P1). cbv zeta. change (sup (set_pte a 0 m)) with (sup m).
    set (m1 := with_sup (NxkPageSupplyReturn (sup m) (fr m a)) (set_pte a 0 m)) in *.
    assert (Pj : forall j, j <> a -> pte m1 j = pte m j) by (intros j Hj; by rewrite P1, decide_False by congruence).
    assert (Fj : forall j, j <> a -> fr m1 j = fr m j) by (intros j Hj; unfold fr; by rewrite Pj).
    rewrite add32_id by lia. pose proof (released_conserved m a m1 S (or_introl Ha) E0 F1 P1) as C1.
    destruct (IH m1 (i + 1) (f + 1) S1) as (m' & E & S' & K & F & C & P); [lia | lia | lia | lia | |].
    { intros j Hj. rewrite Pj; [apply Ht; lia | apply Nd; lia]. }
    replace (k + (i + 1)) with (a + 1) in * by lia. exists m'.
    assert (Hh : forall q, held_mapped m a (a + Z.of_nat (Datatypes.S n)) q <-> q = fr m a \/ held_mapped m1 (a + 1) (a + 1 + Z.of_nat n) q).
    { intros q. split.
      - intros (j & Hj & Hn & ->). destruct (decide (j = a)) as [-> | Hne]; [by left | right]. exists j. rewrite Pj, Fj by done. split; [lia | done].
      - intros [-> | (j & Hj & Hn & ->)]; [exists a; split; [lia | done] |]. exists j. rewrite Pj in Hn by lia. rewrite Fj by lia. split; [lia | done]. }
    split_and!; [| done | | | by eapply conserved_trans |].
    + rewrite E. do 2 f_equal. rewrite (mapped_count_ext n m1 m (a + 1)); [lia |]. intros j Hj. symmetry. apply Pj. lia.
    + eapply frames_kept_mono; [by eapply frames_kept_trans |]. intros q _ [<- | Hq]; apply Hh; auto.
    + intros q. rewrite F, F1, Hh, elem_of_union, elem_of_singleton. clear. tauto.
    + intros j. rewrite P, P1. repeat case_decide; try done; lia.
Qed.

Lemma sysva_free_spec m Va Size k n : sys_ok m -> 0 <= Size < 2 ^ 32 -> Va / 4096 = k -> (Size + 4095) / 4096 = n -> 0 < n ->
  0xD0000 <= k -> k + n <= 0xD4000 -> (forall j, k <= j < k + n -> pte m j <> 0) ->
  exists m', NxkSysVaFree m Va Size = Some (n, m') /\ sys_ok m' /\ frames_kept (held m k (k + n)) m m' /\
    (forall q, q ∈ free_set (sup m') <-> q ∈ free_set (sup m) \/ held m k (k + n) q) /\ conserved sys_entry m m' /\
    (forall j, pte m' j = if decide (k <= j < k + n) then 0 else pte m j).
Proof.
  intros S Hs Hk Hn Hn0 H1 H2 Hm. pose proof (Z.div_mod Va 4096 ltac:(lia)) as Dv. pose proof (Z.mod_pos_bound Va 4096 ltac:(lia)).
  unfold NxkSysVaFree. destruct (Z.eqb_spec Va 0); [lia |].
  change NXK_SYSMEM_LIMIT with 0xD4000000. change NXK_SYSMEM_BASE with 0xD0000000.
  destruct (Z.ltb_spec Va 0xD0000000); [lia |]. destruct (Z.leb_spec 0xD4000000 Va); [lia |]. cbn [orb].
  destruct (page_count_spec Size Hs) as [Ep _]. destruct (Z.ltb_spec (2 ^ 32 - 4096) Size) as [Hw | Hw].
  { exfalso. assert (0xFFFFF <= n) by (rewrite <- Hn; apply Z.div_le_lower_bound; lia). lia. }
  rewrite Ep, Hn. assert (Esh : Z.shiftr Va PAGE_SHIFT = k) by (unfold PAGE_SHIFT; rewrite Z.shiftr_div_pow2 by lia; exact Hk).
  destruct (free_pages_spec (Z.to_nat n) m Va k 0 0 S Esh) as (m' & E & S' & K & F & C & P); try lia.
  { intros j Hj. apply (sy_table _ S); [unfold sys_page; lia | apply Hm; lia]. }
  rewrite Z.add_0_r, Z2Nat.id in * by lia.
  assert (Hh : forall q, held_mapped m k (k + n) q <-> held m k (k + n) q).
  { intros q. split; [intros (j & Hj & _ & ->); by exists j | intros (j & Hj & ->); exists j; auto]. }
  rewrite mapped_count_all in E by (intros j Hj; apply Hm; lia). rewrite Z2Nat.id in E by lia. exists m'. split_and!; [done | done | | | done | done].
  - eapply frames_kept_mono; [exact K |]. intros q _ Hq. by apply Hh.
  - intros q. by rewrite F, Hh.
Qed.

(** ** The aperture as a set of runs *)

(** Runs of pages by their first page. *)
Record sys_state (A : gmap Z Z) (m : mm) : Prop := {
  ss_ok : sys_ok m;
  ss_run : forall k n, A !! k = Some n -> 0 < n /\ 0xD0000 <= k /\ k + n <= 0xD4000;
  ss_mapped : forall j, sys_page j -> pte m j <> 0 <-> exists k n, A !! k = Some n /\ k <= j < k + n;
  ss_apart : forall j k n l, A !! j = Some n -> A !! k = Some l -> j < k -> j + n <= k
}.

Inductive sys_call : Type := SysAlloc (Size : Z) | SysFree (Va Size : Z).

Definition do_sys (m : mm) (c : sys_call) : option (Z * mm) :=
  match c with SysAlloc Size => NxkSysVaAllocate m Size | SysFree Va Size => NxkSysVaFree m Va Size end.

(** A run is freed by an address in its first page and its size. *)
Definition sys_legal (A : gmap Z Z) (c : sys_call) : Prop :=
  match c with
  | SysAlloc Size => 0 <= Size < 2 ^ 32
  | SysFree Va Size => 0 <= Size < 2 ^ 32 /\ A !! (Va / 4096) = Some ((Size + 4095) / 4096)
  end.

(** [n] pages at [k] that no run covers. *)
Definition room (A : gmap Z Z) (n k : Z) : Prop :=
  0xD0000 <= k /\ k + n <= 0xD4000 /\ forall j l, A !! j = Some l -> j + l <= k \/ k + n <= j.

Inductive sys_spec (short : Z -> Prop) (A : gmap Z Z) : sys_call -> Z -> gmap Z Z -> Prop :=
| sys_refused Size : Size = 0 \/ 2 ^ 32 - 4096 < Size -> sys_spec short A (SysAlloc Size) 0 A
| sys_no_room Size : (forall k, ~ room A ((Size + 4095) / 4096) k) -> sys_spec short A (SysAlloc Size) 0 A
| sys_no_frames Size : short ((Size + 4095) / 4096) -> sys_spec short A (SysAlloc Size) 0 A
| sys_taken Size k : 0 < Size -> room A ((Size + 4095) / 4096) k -> (forall j, j < k -> ~ room A ((Size + 4095) / 4096) j) ->
    sys_spec short A (SysAlloc Size) (4096 * k) (<[k := (Size + 4095) / 4096]> A)
| sys_given Va Size : sys_spec short A (SysFree Va Size) ((Size + 4095) / 4096) (delete (Va / 4096) A).

(** The page table [i] is missing under the run an allocation asks for. *)
Definition table_wanted (A : gmap Z Z) (m : mm) (c : sys_call) (i : Z) : Prop :=
  match c with
  | SysAlloc Size => pte m i = 0 /\ exists k j, room A ((Size + 4095) / 4096) k /\ (forall l, l < k -> ~ room A ((Size + 4095) / 4096) l) /\
      k <= j < k + (Size + 4095) / 4096 /\ pdx j = i
  | SysFree _ _ => False
  end.

(** The frames a call gives back. *)
Definition given (m : mm) (c : sys_call) (q : Z) : Prop :=
  match c with SysAlloc _ => False | SysFree Va Size => held m (Va / 4096) (Va / 4096 + (Size + 4095) / 4096) q end.

Lemma room_hole A m n k : sys_state A m -> 0 < n -> room A n k <-> hole_at m k n.
Proof.
  intros [S Rn Mp _] Hn. unfold room, hole_at. split; intros (H1 & H2 & H3); split_and!; try done.
  - intros j Hj. destruct (decide (pte m j = 0)) as [| Hz]; [done |]. apply Mp in Hz as (i & l & E & Hi); [| unfold sys_page; lia].
    destruct (H3 i l E); lia.
  - intros j l E. destruct (Rn j l E) as (Hl & Hj & Hj2). destruct (Z.le_gt_cases (j + l) k) as [| Ha]; [by left |].
    destruct (Z.le_gt_cases (k + n) j) as [| Hb]; [by right |]. exfalso.
    assert (Hz : pte m (Z.max j k) <> 0) by (apply Mp; [unfold sys_page; lia | exists j, l; split; [done | lia]]).
    apply Hz, H3. lia.
Qed.

Lemma tables_wanted A m Size m' i : sys_state A m -> 0 <= Size -> tables_kept m ((Size + 4095) / 4096) m' -> sys_pde i ->
  pte m' i = pte m i \/ table_wanted A m (SysAlloc Size) i.
Proof.
  intros St Hs T Hi. destruct (T i Hi) as [? | [E0 (k & j & [Hh Hlow] & Hj & Hx)]]; [by left | right]. split; [done |].
  assert (Hn : 0 < (Size + 4095) / 4096) by lia. exists k, j. split; [by apply (room_hole A m) |].
  split; [| done]. intros l Hlt. rewrite (room_hole A m) by done. by apply Hlow.
Qed.

Lemma state_taken A m n k m' : sys_state A m -> sys_ok m' -> 0 < n -> room A n k -> allocated m n k m' -> sys_state (<[k := n]> A) m'.
Proof.
  intros [S Rn Mp Ap] S' Hn (H1 & H2 & H3) (_ & Po & Pn). constructor; [done | | |].
  - intros j l [[-> ->] | [_ E]]%lookup_insert_Some; [lia | by apply Rn].
  - intros j Hj. destruct (decide (k <= j < k + n)) as [Hin | Hout].
    + split; [intros _; exists k, n; by rewrite lookup_insert_eq |]. intros _. destruct (Pn j Hin) as (p & Hp & -> & _).
      unfold takable in Hp. rewrite elem_of_filter in Hp. unfold entry. lia.
    + rewrite (Po j Hj Hout), Mp by done. split.
      * intros (i & l & E & Hi). exists i, l. split; [| done]. rewrite lookup_insert_ne; [done |]. intros <-. destruct (H3 k l E); lia.
      * intros (i & l & [[-> ->] | [_ E]]%lookup_insert_Some & Hi); [lia | by exists i, l].
  - intros i j l l' Ei Ej Hlt. apply lookup_insert_Some in Ei, Ej.
    destruct Ei as [[<- <-] | [_ Ei]], Ej as [[<- <-] | [_ Ej]].
    + lia.
    + destruct (H3 _ _ Ej) as [? | ?]; [pose proof (Rn _ _ Ej); lia | done].
    + destruct (H3 _ _ Ei) as [? | ?]; [done | lia].
    + by apply (Ap i j l l').
Qed.

Lemma state_given A m n k m' : sys_state A m -> sys_ok m' -> A !! k = Some n ->
  (forall j, pte m' j = if decide (k <= j < k + n) then 0 else pte m j) -> sys_state (delete k A) m'.
Proof.
  intros [S Rn Mp Ap] S' Ek P. constructor; [done | | |].
  - intros j l [_ E]%lookup_delete_Some. by apply Rn.
  - intros j Hj. rewrite P. case_decide as Hin.
    + split; [done |]. intros (i & l & [Hne E]%lookup_delete_Some & Hi). exfalso.
      destruct (Z.lt_trichotomy i k) as [Hlt | [-> | Hlt]]; [pose proof (Ap i k l n E Ek Hlt); lia | done | pose proof (Ap k i n l Ek E Hlt); lia].
    + rewrite Mp by done. split; intros (i & l & E & Hi); exists i, l; (split; [| done]).
      * apply lookup_delete_Some. split; [| done]. intros <-. rewrite E in Ek. injection Ek as ->. done.
      * by apply lookup_delete_Some in E as [_ E].
  - intros i j l l' [_ Ei]%lookup_delete_Some [_ Ej]%lookup_delete_Some. by apply (Ap i j l l').
Qed.

Lemma state_same A m m' : sys_state A m -> sys_ok m' -> pages_same m m' -> sys_state A m'.
Proof. intros [S Rn Mp Ap] S' P. constructor; [done | done | | done]. intros j Hj. rewrite (P j Hj). by apply Mp. Qed.

(** What the rest of the kernel does to the memory - relocation included -
    leaves the aperture as it is. *)
Lemma aperture_kept A m m' : sys_state A m -> mm_wf m' -> view_kept m m' ->
  sys_state A m' /\ forall k, sys_entry k -> pte m' k = pte m k /\ (pte m k <> 0 -> frame_at m' (fr m k) = frame_at m (fr m k)).
Proof.
  intros St W V. pose proof St as [S _ _ _].
  assert (P : forall k, sys_entry k -> pte m' k = pte m k) by (intros k Hk; apply (vk_other _ _ V); intros p; by apply sys_unowned).
  assert (F : forall k, sys_entry k -> fr m' k = fr m k) by (intros k Hk; unfold fr; by rewrite P).
  assert (Pn : forall k, sys_entry k -> pte m k <> 0 -> pinned m' (fr m k) /\ frame_at m' (fr m k) = frame_at m (fr m k)).
  { intros k Hk Hn. destruct (sy_entry _ S k Hk) as [? | [_ Hp]]; [done |]. by apply (vk_pinned _ _ V). }
  split; [| intros k Hk; split; [by apply P | intros Hn; by apply Pn]].
  apply (state_same A m m' St); [| intros j Hj; apply P; by left]. constructor; [done | | |].
  - intros k Hk. rewrite P, F by done. destruct (sy_entry _ S k Hk) as [? | [E _]]; [by left |].
    destruct (decide (pte m k = 0)); [by left | right]. split; [done | by apply Pn].
  - intros k Hk. rewrite !P; [by apply (sy_table _ S) | right; by apply sys_pdx | by left].
  - intros i j Hi Hj. rewrite !P, !F by done. by apply (sy_inj _ S).
Qed.

(** C22: Every call on the aperture returns and does to the set of mapped runs
    what the specification says: an allocation takes the lowest room that is
    long enough, zero-filled, or fails because the size is zero or wraps,
    there is no room, or the supply is short of frames; a free with the
    address and size of a run gives back exactly its frames.  Whatever the
    outcome, the free frames and those behind the aperture's pages and page
    tables are together the same as before: a failed allocation gives back
    every frame it took for a page, and keeps only the page tables it added,
    which are missing tables of the run it asked for.  Frames in use that are
    not given back keep their owners and contents, and no entry outside the
    aperture changes. *)
Theorem sysva_refines A m c : sys_state A m -> sys_legal A c ->
  exists r A' m', do_sys m c = Some (r, m') /\ sys_state A' m' /\
    sys_spec (fun n => Z.of_nat (size (takable m')) < n) A c r A' /\
    frames_kept (given m c) m m' /\ others_same m m' /\ (forall q, given m c q -> q ∈ free_set (sup m')) /\
    (forall k n j, A !! k = Some n -> A' !! k = Some n -> k <= j < k + n -> pte m' j = pte m j) /\
    (forall k n j, A !! k = None -> A' !! k = Some n -> k <= j < k + n ->
       fr m' j ∈ free_set (sup m) /\ frame_at m' (fr m' j) = zero_frame) /\
    conserved sys_entry m m' /\ (forall i, sys_pde i -> pte m' i = pte m i \/ table_wanted A m c i).
Proof.
  intros St Hl. pose proof St as [S Rn Mp Ap]. destruct c as [Size | Va Size]; cbn [do_sys sys_legal given] in *.
  - assert (Hn : 0 < Size -> 0 < (Size + 4095) / 4096) by (intros; apply Z.div_str_pos; lia).
    destruct (sysva_allocate_spec m Size S Hl) as (r & m' & E & S' & K & Os & C & T & Out).
    assert (T' : forall i, sys_pde i -> pte m' i = pte m i \/ table_wanted A m (SysAlloc Size) i) by (intros i Hi; apply (tables_wanted A m Size m' i St ltac:(lia) T Hi)).
    destruct Out as [(-> & Ps & Why) | (k & -> & H0 & Al)].
    + exists 0, A, m'. split_and!; [done | by apply (state_same A m) | | done | done | done | | congruence | done | done].
      * destruct Why as [? | [? | [Hno | ?]]]; [apply sys_refused; auto | apply sys_refused; auto | | by apply sys_no_frames].
        destruct (decide (Size = 0)); [apply sys_refused; auto |]. apply sys_no_room. intros k. rewrite room_hole by (try done; apply Hn; lia). apply Hno.
      * intros k n j Ek _ Hj. apply Ps. destruct (Rn k n Ek). unfold sys_page. lia.
    + specialize (Hn H0). pose proof Al as ([Hh Hlow] & Po & Pn). assert (Hr : room A ((Size + 4095) / 4096) k) by (by apply (room_hole A m)).
      exists (4096 * k), (<[k := (Size + 4095) / 4096]> A), m'.
      split_and!; [done | by apply (state_taken A m) | | done | done | done | | | done | done].
      * apply sys_taken; [done | done |]. intros j Hj. rewrite room_hole by done. by apply Hlow.
      * intros i n j Ei Ei' Hj. destruct (Rn i n Ei) as (? & ? & ?). apply Po; [unfold sys_page; lia |]. intros Hc.
        destruct Hr as (_ & _ & Hr). destruct (Hr i n Ei); lia.
      * intros i n j Ei Ei' Hj. apply lookup_insert_Some in Ei' as [[<- <-] | [_ ?]]; [| congruence]. destruct (Pn j Hj) as (p & Hp & Ep & Zp).
        unfold takable in Hp. rewrite elem_of_filter in Hp. destruct Hp as [_ Hp].
        assert (Ef : fr m' j = p) by (unfold fr; rewrite Ep; apply entry_frame; lia). by rewrite Ef.
  - destruct Hl as [Hs Ek]. set (k := Va / 4096) in *. set (n := (Size + 4095) / 4096) in *. destruct (Rn k n Ek) as (Hn & H1 & H2).
    destruct (sysva_free_spec m Va Size k n S Hs eq_refl eq_refl Hn H1 H2) as (m' & E & S' & K & F & C & P).
    { intros j Hj. apply Mp; [unfold sys_page; lia | by exists k, n]. }
    exists n, (delete k A), m'. split_and!; [done | by apply (state_given A m n) | apply sys_given | done | | | | | done |].
    + intros j Hj. rewrite P, decide_False; [done |]. intros Hc. apply Hj. left. unfold sys_page. lia.
    + intros q Hq. apply F. by right.
    + intros i l j Ei Ei' Hj. rewrite P, decide_False; [done |]. intros Hc. apply lookup_delete_Some in Ei' as [Hne _].
      destruct (Z.lt_trichotomy i k) as [Hlt | [-> | Hlt]]; [pose proof (Ap i k l n Ei Ek Hlt); lia | done | pose proof (Ap k i n l Ek Ei Hlt); lia].
    + intros i l j Ei Ei' _. apply lookup_delete_Some in Ei' as [_ Ei']. congruence.
    + intros i Hi. left. rewrite P, decide_False; [done |]. unfold sys_pde in Hi. lia.
Qed.

Lemma one_page_aperture : sys_state ∅ one_page.
Proof.
  assert (Z0 : forall k, sys_entry k -> pte one_page k = 0) by (intros k [Hk | Hk]; apply one_page_pte; unfold sys_page, sys_pde in Hk; lia).
  constructor; [constructor | done | | done].
  - exact one_page_wf.
  - intros k Hk. left. by apply Z0.
  - intros k Hk Hn. by rewrite Z0 in Hn by (by left).
  - intros j k Hj _ Hn. by rewrite Z0 in Hn.
  - intros j Hj. rewrite Z0 by (by left). split; [done |]. intros (k & n & E & _). by rewrite lookup_empty in E.
Qed.

Lemma spec_taken_run short A Size r A' : sys_spec short A (SysAlloc Size) r A' -> r <> 0 ->
  exists k, r = 4096 * k /\ A' !! k = Some ((Size + 4095) / 4096).
Proof. intros H Hr. inversion H; subst; try done. eexists. split; [done | by rewrite lookup_insert_eq]. Qed.

Lemma sysva_refines_witness : exists A' m', do_sys one_page (SysAlloc 5) = Some (0xD0000000, m') /\ sys_state A' m' /\
  do_sys m' (SysFree 0xD0000010 5) <> None.
Proof.
  destruct (sysva_refines ∅ one_page (SysAlloc 5) one_page_aperture ltac:(simpl; lia)) as (r & A' & m' & E & St & Sp & _).
  assert (Er : option_map fst (do_sys one_page (SysAlloc 5)) = Some 0xD0000000) by (vm_compute; reflexivity).
  rewrite E in Er. injection Er as ->. exists A', m'. split; [exact E |]. split; [exact St |].
  assert (Ek : A' !! (0xD0000010 / 4096) = Some ((5 + 4095) / 4096)).
  { destruct (spec_taken_run _ _ _ _ _ Sp ltac:(lia)) as (k & Hk & Hl). change (0xD0000010 / 4096) with 0xD0000. by replace 0xD0000 with k by lia. }
  assert (Hl : sys_legal A' (SysFree 0xD0000010 5)) by (split; [lia | exact Ek]).
  destruct (sysva_refines A' m' (SysFree 0xD0000010 5) St Hl) as (r2 & A2 & m2 & E2 & _). by rewrite E2.
Defined.
