(* ===== verification/Pool.v ===== *)
(** * The kernel pool

    Models [src/ntoskrnl/xb/mm/pool.c]: power-of-two free lists threaded
    through the blocks themselves, each block behind an eight-byte header,
    with whole-page requests passed on to the page layer.  The page layer is an
    interface, [PagePool], which the window of [PoolPages.v] implements; the
    pool's theorems hold over any implementation that keeps its laws.

    Memory is what the pool sees of it: [heap], the 32-bit words at the
    addresses of the window.  A page fresh from the page layer holds whatever
    it held before.  Calls run one at a time: the source drops its spinlock
    around the page layer, and between carving a page and writing the header
    of the block handed out; each call is one step here. *)

From stdpp Require Import prelude gmap list numbers sets.
From Stdlib Require Import ZArith Lia.
From S2P Require Import Prelude PageSupply Paging Vm PoolPages.

Local Open Scope Z_scope.

(** ** The page layer *)

(** [NXP_PAGES_ALLOC] and [NXP_PAGES_FREE].  The outer [option] is the fuel of
    the allocation, the address 0 a refusal. *)
Class PagePool (G : Type) := {
  pages_alloc : G -> Z -> option (Z * G);
  pages_free : G -> Z -> Z * G
}.

(** What the pool relies on: runs of pages, by the index of their first page
    in the window. *)
Class PagePoolRuns (G : Type) `{PagePool G} := {
  pages_ok : G -> Prop;
  pages_runs : G -> gmap Z Z;
  pages_bound s i n : pages_ok s -> pages_runs s !! i = Some n -> 0 <= i /\ 0 < n /\ i + n <= NXPP_PAGES;
  pages_apart s i j n k : pages_ok s -> pages_runs s !! i = Some n -> pages_runs s !! j = Some k -> i < j -> i + n <= j;
  pages_alloc_law s bytes : pages_ok s -> 0 < bytes < 2 ^ 32 ->
    exists r s', pages_alloc s bytes = Some (r, s') /\ pages_ok s' /\
      ((r = 0 /\ pages_runs s' = pages_runs s) \/
       exists i, r = NXPP_BASE + 4096 * i /\ vacant (pages_runs s) i ((bytes + 4095) / 4096) /\
         pages_runs s' = <[i := (bytes + 4095) / 4096]> (pages_runs s));
  pages_free_law s i n : pages_ok s -> pages_runs s !! i = Some n ->
    exists s', pages_free s (NXPP_BASE + 4096 * i) = (n, s') /\ pages_ok s' /\ pages_runs s' = delete i (pages_runs s)
}.

(** ** Constants and state *)

Definition NxpClassSize : list Z := [32; 64; 128; 256; 512; 1024; 2048].
Definition NXP_CLASSES : Z := Z.of_nat (length NxpClassSize).
Definition NXP_SMALL_MAX : Z := 2040.
Definition HEADER_SIZE : Z := 8.
Definition NXP_MAGIC_ALLOC : Z := 0x4E58.
Definition NXP_MAGIC_FREE : Z := 0x5846.
Definition NXP_NOT_BUCKET : Z := 0xFF.
Definition NXP_BIG_ENTRIES : nat := 128.
Definition BASE_POOL_TYPE_MASK : Z := 1.
Definition NonPagedPool : Z := 0.
Definition MUST_SUCCEED_POOL_MASK : Z := 2.
Definition POOL_QUOTA_FAIL_INSTEAD_OF_RAISE : Z := 0x8.
Definition POOL_RAISE_IF_ALLOCATION_FAILURE : Z := 0x10.
Definition TAG_NONE : Z := 0x656E6F4E.
Definition BAD_POOL_HEADER : Z := 0x19.
Definition MUST_SUCCEED_POOL_EMPTY : Z := 0x41.
Definition BAD_POOL_CALLER : Z := 0xC2.

(** How a call ends. *)
Inductive outcome (A : Type) : Type :=
  | Ret (a : A)
  | KeBugCheckEx (Code P1 P2 P3 P4 : Z)
  | ExRaiseStatus (Status : Z).
Arguments Ret {A} a.
Arguments KeBugCheckEx {A} Code P1 P2 P3 P4.
Arguments ExRaiseStatus {A} Status.

Definition csize (Class' : Z) : Z := nth (Z.to_nat Class') NxpClassSize 0.

(** [PAGE_ALIGN] and [NXP_PAGE_INDEX]. *)
Definition PAGE_ALIGN (Va : Z) : Z := Z.land Va (not32 4095).
Definition NXP_PAGE_INDEX (P : Z) : Z := Z.shiftr (sub32 P NXPP_BASE) 12.

Record NXP_BIG_ENTRY : Type := BigEntry { BVa : Z; BPages : Z }.

Section pool.
Context {G : Type} {PG : PagePool G}.

Record pool : Type := Pool {
  pages : G;
  NxpClassMap : list Z;
  NxpFreeLists : gmap Z Z;
  NxpPageState : gmap Z Z;
  NxpBigTable : list NXP_BIG_ENTRY;
  heap : gmap Z Z
}.

Definition with_pages (s : G) (p : pool) : pool :=
  Pool s (NxpClassMap p) (NxpFreeLists p) (NxpPageState p) (NxpBigTable p) (heap p).
Definition set_head (c b : Z) (p : pool) : pool :=
  Pool (pages p) (NxpClassMap p) (<[c := b]> (NxpFreeLists p)) (NxpPageState p) (NxpBigTable p) (heap p).
Definition set_state (i v : Z) (p : pool) : pool :=
  Pool (pages p) (NxpClassMap p) (NxpFreeLists p) (<[i := v]> (NxpPageState p)) (NxpBigTable p) (heap p).
Definition set_big (t : list NXP_BIG_ENTRY) (p : pool) : pool :=
  Pool (pages p) (NxpClassMap p) (NxpFreeLists p) (NxpPageState p) t (heap p).
Definition store (a v : Z) (p : pool) : pool :=
  Pool (pages p) (NxpClassMap p) (NxpFreeLists p) (NxpPageState p) (NxpBigTable p) (<[a := v]> (heap p)).

(** The header at [h]: the tag, then class index and magic as the halves of
    one word; the link of a free block follows. *)
Definition Tag (p : pool) (h : Z) : Z := rd (heap p) h.
Definition ClassIndex (p : pool) (h : Z) : Z := rd (heap p) (h + 4) mod 2 ^ 16.
Definition Magic (p : pool) (h : Z) : Z := rd (heap p) (h + 4) / 2 ^ 16.
Definition Next (p : pool) (b : Z) : Z := rd (heap p) b.

Definition set_Tag (h v : Z) (p : pool) : pool := store h v p.
Definition set_ClassIndex (h c : Z) (p : pool) : pool := store (h + 4) (u16 c + 2 ^ 16 * Magic p h) p.
Definition set_Magic (h v : Z) (p : pool) : pool := store (h + 4) (ClassIndex p h + 2 ^ 16 * v) p.
Definition set_Next (b v : Z) (p : pool) : pool := store b v p.

(** ** Initialisation *)

(** [while (c < NXP_CLASSES - 1 && NxpClassSize[c] < (u << 4)) c++]. *)
Fixpoint raise_class (n : nat) (c u : Z) : Z :=
  match n with
  | O => c
  | S n' => if (c <? NXP_CLASSES - 1) && (csize c <? u * 16) then raise_class n' (c + 1) u else c
  end.

(** The entries from [u] on, [n] of them. *)
Fixpoint class_map (n : nat) (c u : Z) : list Z :=
  match n with
  | O => []
  | S n' => let c := raise_class (length NxpClassSize) c u in u8 c :: class_map n' c (u + 1)
  end.

Definition InitializePool (PoolType : Z) (p : pool) : pool :=
  if negb (Z.land PoolType BASE_POOL_TYPE_MASK =? NonPagedPool) then p
  else Pool (pages p) (class_map (Z.to_nat (4096 / 16 + 1)) 0 0) (NxpFreeLists p)
         (list_to_map (map (fun i => (Z.of_nat i, NXP_NOT_BUCKET)) (seq 0 (Z.to_nat NXPP_PAGES)))) (NxpBigTable p) (heap p).

(** The zeroed statics, over any memory. *)
Definition boot_pool (s : G) (m : gmap Z Z) : pool :=
  Pool s (replicate 257 0) ∅ ∅ (replicate NXP_BIG_ENTRIES (BigEntry 0 0)) m.

(** ** Reclaim *)

(** [Link]: the head of a class list, or the link word of a block. *)
Definition get_link (c : Z) (Link : option Z) (p : pool) : Z :=
  match Link with None => rd (NxpFreeLists p) c | Some b => Next p b end.
Definition set_link (c : Z) (Link : option Z) (v : Z) (p : pool) : pool :=
  match Link with None => set_head c v p | Some b => set_Next b v p end.

(** The unlinking walk; [None] when [n] steps do not reach the end. *)
Fixpoint unlink_page (n : nat) (c PageVa : Z) (Link : option Z) (p : pool) : option pool :=
  match n with
  | O => None
  | S n' =>
      let b := get_link c Link p in
      if b =? 0 then Some p
      else if PAGE_ALIGN b =? PageVa then unlink_page n' c PageVa Link (set_link c Link (Next p b) p)
      else unlink_page n' c PageVa (Some b) p
  end.

(** A free list holds each block once, and each block has a header word in
    memory, so the memory's size bounds the walk. *)
Definition walk_fuel (p : pool) : nat := S (size (heap p)).

(** The page of index [Idx]. *)
Definition reclaim_page (Idx : Z) (p : pool) : option (bool * pool) :=
  if negb (rd (NxpPageState p) Idx =? 0) then Some (false, p)
  else
    let PageVa := NXPP_BASE + Idx * 4096 in
    match unlink_page (walk_fuel p) (ClassIndex p PageVa) PageVa None p with
    | None => None
    | Some p =>
        let p := set_state Idx NXP_NOT_BUCKET p in
        Some (true, with_pages (snd (pages_free (pages p) PageVa)) p)
    end.

Fixpoint reclaim_pages (n : nat) (Idx Freed : Z) (p : pool) : option (Z * pool) :=
  match n with
  | O => Some (Freed, p)
  | S n' =>
      match reclaim_page Idx p with
      | None => None
      | Some (b, p) => reclaim_pages n' (Idx + 1) (if b then add32 Freed 1 else Freed) p
      end
  end.

Definition NxpReclaimEmptyBucketPages (p : pool) : option (Z * pool) := reclaim_pages (Z.to_nat NXPP_PAGES) 0 0 p.

(** ** Allocation *)

Definition NxpAllocFailed (PoolType NumberOfBytes : Z) : outcome Z :=
  if negb (Z.land PoolType MUST_SUCCEED_POOL_MASK =? 0) then KeBugCheckEx MUST_SUCCEED_POOL_EMPTY NumberOfBytes 0 0 0
  else if negb (Z.land PoolType POOL_RAISE_IF_ALLOCATION_FAILURE =? 0) then ExRaiseStatus STATUS_INSUFFICIENT_RESOURCES
  else Ret 0.

(** Whole pages, after a sweep when the first attempt is refused. *)
Definition take_pages (Bytes : Z) (p : pool) : option (Z * pool) :=
  match pages_alloc (pages p) Bytes with
  | None => None
  | Some (Va, s) =>
      let p := with_pages s p in
      if negb (Va =? 0) then Some (Va, p)
      else
        match NxpReclaimEmptyBucketPages p with
        | None => None
        | Some (Freed, p) =>
            if Freed =? 0 then Some (0, p)
            else match pages_alloc (pages p) Bytes with
                 | None => None
                 | Some (Va, s) => Some (Va, with_pages s p)
                 end
        end
  end.

(** The first empty entry takes the block; a full table drops it. *)
Fixpoint big_insert (t : list NXP_BIG_ENTRY) (Va Pages : Z) : list NXP_BIG_ENTRY :=
  match t with
  | [] => []
  | e :: t' => if BVa e =? 0 then BigEntry Va Pages :: t' else e :: big_insert t' Va Pages
  end.

(** The blocks [i] to [i + n] of a fresh page, chained. *)
Fixpoint carve_page (n : nat) (i Page Size Class' : Z) (p : pool) : pool :=
  match n with
  | O => p
  | S n' =>
      let h := Page + i * Size in
      let f := h + HEADER_SIZE in
      let p := set_Tag h 0 p in
      let p := set_ClassIndex h Class' p in
      let p := set_Magic h NXP_MAGIC_FREE p in
      let p := set_Next f (rd (NxpFreeLists p) Class') p in
      carve_page n' (i + 1) Page Size Class' (set_head Class' f p)
  end.

(** The header of the block handed out. *)
Definition write_header (h Tag' Class' : Z) (p : pool) : pool :=
  set_Magic h NXP_MAGIC_ALLOC (set_ClassIndex h Class' (set_Tag h Tag' p)).

(** [Class = NxpClassMap[(BlockBytes + 15) >> 4]]. *)
Definition request_class (Map : list Z) (NumberOfBytes : Z) : Z :=
  let BlockBytes := (if NumberOfBytes =? 0 then 1 else NumberOfBytes) + HEADER_SIZE in
  nth (Z.to_nat (Z.shiftr (BlockBytes + 15) 4)) Map 0.

Definition ExAllocatePoolWithTag (PoolType NumberOfBytes Tag' : Z) (p : pool) : option (outcome Z * pool) :=
  if NXP_SMALL_MAX <? NumberOfBytes then
    match take_pages NumberOfBytes p with
    | None => None
    | Some (Va, p) =>
        if Va =? 0 then Some (NxpAllocFailed PoolType NumberOfBytes, p)
        else Some (Ret Va, set_big (big_insert (NxpBigTable p) Va (BYTES_TO_PAGES NumberOfBytes)) p)
    end
  else
    let Class' := request_class (NxpClassMap p) NumberOfBytes in
    let Blk := rd (NxpFreeLists p) Class' in
    if negb (Blk =? 0) then
      let p := set_head Class' (Next p Blk) p in
      let i := NXP_PAGE_INDEX Blk in
      let p := set_state i (u8 (rd (NxpPageState p) i + 1)) p in
      Some (Ret Blk, write_header (Blk - HEADER_SIZE) Tag' Class' p)
    else
      let Size := csize Class' in
      match take_pages 4096 p with
      | None => None
      | Some (Page, p) =>
          if Page =? 0 then Some (NxpAllocFailed PoolType NumberOfBytes, p)
          else
            let p := set_state (NXP_PAGE_INDEX Page) 1 p in
            let p := carve_page (Z.to_nat (4096 / Size - 1)) 1 Page Size Class' p in
            let Blk := Page + HEADER_SIZE in
            Some (Ret Blk, write_header (Blk - HEADER_SIZE) Tag' Class' p)
      end.

Definition ExAllocatePool (PoolType NumberOfBytes : Z) (p : pool) : option (outcome Z * pool) :=
  ExAllocatePoolWithTag PoolType NumberOfBytes TAG_NONE p.

(** ** Free and query *)

Fixpoint big_remove (t : list NXP_BIG_ENTRY) (P : Z) : list NXP_BIG_ENTRY :=
  match t with
  | [] => []
  | e :: t' => if BVa e =? P then BigEntry 0 0 :: t' else e :: big_remove t' P
  end.

Definition ExFreePoolWithTag (P TagToFree : Z) (p : pool) : outcome unit * pool :=
  if P =? 0 then (KeBugCheckEx BAD_POOL_CALLER 0x46 0 0 0, p)
  else if PAGE_ALIGN P =? P then
    let p := set_big (big_remove (NxpBigTable p) P) p in
    (Ret tt, with_pages (snd (pages_free (pages p) P)) p)
  else
    let h := P - HEADER_SIZE in
    if negb (Magic p h =? NXP_MAGIC_ALLOC) then
      (KeBugCheckEx BAD_POOL_HEADER (if Magic p h =? NXP_MAGIC_FREE then 7 else 8) P (Magic p h) (Tag p h), p)
    else if negb (TagToFree =? 0) && negb (Tag p h =? TagToFree) then
      (KeBugCheckEx BAD_POOL_CALLER 0x0A P (Tag p h) TagToFree, p)
    else
      let p := set_Magic h NXP_MAGIC_FREE p in
      let c := ClassIndex p h in
      let p := set_Next P (rd (NxpFreeLists p) c) p in
      let p := set_head c P p in
      let i := NXP_PAGE_INDEX P in
      (Ret tt, set_state i (u8 (rd (NxpPageState p) i - 1)) p).

Definition ExFreePool (P : Z) (p : pool) : outcome unit * pool := ExFreePoolWithTag P 0 p.

Fixpoint big_pages (t : list NXP_BIG_ENTRY) (P : Z) : Z :=
  match t with
  | [] => 0
  | e :: t' => if BVa e =? P then BPages e else big_pages t' P
  end.

(** The size, and [*QuotaCharged]. *)
Definition ExQueryPoolBlockSize (PoolBlock : Z) (p : pool) : Z * bool :=
  (if PAGE_ALIGN PoolBlock =? PoolBlock then u32 (big_pages (NxpBigTable p) PoolBlock * 4096)
   else csize (ClassIndex p (PoolBlock - HEADER_SIZE)) - HEADER_SIZE, false).

(** ** Wrappers *)

Definition ExAllocatePoolWithQuotaTag (PoolType NumberOfBytes Tag' : Z) (p : pool) : option (outcome Z * pool) :=
  let Raise := Z.land PoolType POOL_QUOTA_FAIL_INSTEAD_OF_RAISE =? 0 in
  match ExAllocatePoolWithTag (Z.land PoolType (not32 POOL_QUOTA_FAIL_INSTEAD_OF_RAISE)) NumberOfBytes Tag' p with
  | Some (Ret Buffer, p) =>
      Some (if (Buffer =? 0) && Raise then ExRaiseStatus STATUS_INSUFFICIENT_RESOURCES else Ret Buffer, p)
  | r => r
  end.

Definition ExAllocatePoolWithQuota (PoolType NumberOfBytes : Z) (p : pool) : option (outcome Z * pool) :=
  ExAllocatePoolWithQuotaTag PoolType NumberOfBytes TAG_NONE p.

Definition ExAllocatePoolWithTagPriority (PoolType NumberOfBytes Tag' Priority : Z) (p : pool) : option (outcome Z * pool) :=
  ExAllocatePoolWithTag PoolType NumberOfBytes Tag' p.

End pool.
Arguments pool G : clear implicits.

(** ** Geometry of the blocks *)

Definition pool_va (i : Z) : Z := NXPP_BASE + 4096 * i.
Definition class_ok (c : Z) : Prop := 0 <= c < NXP_CLASSES.
Definition nblocks (c : Z) : Z := 4096 / csize c.

(** The header of block [k] of page [i] when the page holds class [c]. *)
Definition hdr (i c k : Z) : Z := pool_va i + k * csize c.

Lemma class_cases c : class_ok c ->
  exists m, csize c = 32 * m /\ nblocks c * csize c = 4096 /\ 1 < nblocks c <= 128 /\ 0 < m /\ csize c <= 2048.
Proof.
  unfold class_ok, NXP_CLASSES. simpl. intros Hc.
  assert (c = 0 \/ c = 1 \/ c = 2 \/ c = 3 \/ c = 4 \/ c = 5 \/ c = 6) as Hd by lia.
  repeat destruct Hd as [-> | Hd]; try rewrite Hd; [exists 1 | exists 2 | exists 4 | exists 8 | exists 16 | exists 32 | exists 64];
    vm_compute; repeat split; intros; discriminate.
Qed.

Lemma csize_mono c c' : class_ok c' -> 0 <= c <= c' -> csize c <= csize c'.
Proof.
  unfold class_ok, NXP_CLASSES. simpl. intros Hc Hle.
  assert (c = 0 \/ c = 1 \/ c = 2 \/ c = 3 \/ c = 4 \/ c = 5 \/ c = 6) as Hd by lia.
  assert (c' = 0 \/ c' = 1 \/ c' = 2 \/ c' = 3 \/ c' = 4 \/ c' = 5 \/ c' = 6) as Hd' by lia.
  repeat destruct Hd as [-> | Hd]; subst; repeat destruct Hd' as [-> | Hd']; subst; try lia; vm_compute; discriminate.
Qed.

Lemma hdr_bounds i c k : class_ok c -> 0 <= k < nblocks c ->
  pool_va i <= hdr i c k /\ hdr i c k + csize c <= pool_va i + 4096 /\ exists m, hdr i c k = 32 * m.
Proof.
  intros Hc Hk. destruct (class_cases c Hc) as (m & E & F & G & Hm & _). unfold hdr, pool_va, NXPP_BASE. repeat split; [nia | nia |].
  exists (101187584 + 128 * i + k * m). rewrite E. lia.
Qed.

(** Two blocks of pages that agree on the class when they are the same page
    are the same block or apart. *)
Lemma hdr_apart i c k i' c' k' : class_ok c -> class_ok c' -> 0 <= k < nblocks c -> 0 <= k' < nblocks c' ->
  (i = i' -> c = c') -> (i = i' /\ k = k') \/ hdr i c k + csize c <= hdr i' c' k' \/ hdr i' c' k' + csize c' <= hdr i c k.
Proof.
  intros Hc Hc' Hk Hk' Hi. pose proof (hdr_bounds i c k Hc Hk) as (A1 & A2 & _). pose proof (hdr_bounds i' c' k' Hc' Hk') as (B1 & B2 & _).
  destruct (Z.lt_trichotomy i i') as [Hlt | [<- | Hgt]]; [right; left; unfold pool_va in *; lia | | right; right; unfold pool_va in *; lia].
  specialize (Hi eq_refl) as <-. destruct (class_cases c Hc) as (m & E & F & _ & Hm & _). unfold hdr in *.
  destruct (Z.lt_trichotomy k k') as [? | [? | ?]]; [right; left | by left | right; right]; nia.
Qed.

Lemma page_index i a : 0 <= i < NXPP_PAGES -> pool_va i <= a < pool_va i + 4096 -> NXP_PAGE_INDEX a = i.
Proof.
  unfold NXP_PAGE_INDEX, pool_va, NXPP_BASE, NXPP_PAGES. intros Hi Ha. rewrite sub32_id, Z.shiftr_div_pow2 by lia.
  symmetry. apply (Z.div_unique _ _ _ (a - 0xC1000000 - 4096 * i)); lia.
Qed.

Lemma page_align i a : 0 <= i < NXPP_PAGES -> pool_va i <= a < pool_va i + 4096 -> PAGE_ALIGN a = pool_va i.
Proof.
  unfold PAGE_ALIGN, pool_va, NXPP_BASE, NXPP_PAGES. intros Hi Ha. rewrite land_not32 by lia. change 4095 with (Z.ones 12).
  rewrite Z.ldiff_ones_r, Z.shiftl_mul_pow2, Z.shiftr_div_pow2 by lia.
  rewrite <- (Z.div_unique a (2 ^ 12) (0xC1000 + i) (a - 0xC1000000 - 4096 * i)); lia.
Qed.

(** ** The invariant *)

Section proofs.
Context {G : Type} {PG : PagePool G} {PR : PagePoolRuns G}.
Implicit Types (p : pool G) (i k c b h a : Z).

Definition bucket p i : Prop := 0 <= i < NXPP_PAGES /\ rd (NxpPageState p) i <> NXP_NOT_BUCKET.

(** The class of a bucket page, from its first block. *)
Definition cls p i : Z := ClassIndex p (pool_va i).

Definition bslot p i k : Prop := bucket p i /\ 0 <= k < nblocks (cls p i).
Definition head p i k : Z := hdr i (cls p i) k.

Definition live_count p i : Z :=
  Z.of_nat (length (filter (fun k => Magic p (head p i k) = NXP_MAGIC_ALLOC) (seqZ 0 (nblocks (cls p i))))).

(** The list [l] threaded through memory from [b]. *)
Fixpoint flist (m : gmap Z Z) (b : Z) (l : list Z) : Prop :=
  match l with
  | [] => b = 0
  | x :: l' => b = x /\ x <> 0 /\ flist m (rd m x) l'
  end.

Definition free_block p c b : Prop :=
  exists i k, bslot p i k /\ cls p i = c /\ b = head p i k + HEADER_SIZE /\ Magic p (head p i k) = NXP_MAGIC_FREE.

Record pool_ok p : Prop := {
  po_pages : pages_ok (pages p);
  po_map : NxpClassMap p = class_map 257 0 0;
  po_bucket : forall i, bucket p i ->
    pages_runs (pages p) !! i = Some 1 /\ class_ok (cls p i) /\ rd (NxpPageState p) i = live_count p i;
  po_block : forall i k, bslot p i k ->
    ClassIndex p (head p i k) = cls p i /\ (Magic p (head p i k) = NXP_MAGIC_ALLOC \/ Magic p (head p i k) = NXP_MAGIC_FREE);
  po_list : forall c, class_ok c -> exists l, flist (heap p) (rd (NxpFreeLists p) c) l /\ NoDup l /\ forall b, b ∈ l <-> free_block p c b;
  po_big : forall e, e ∈ NxpBigTable p -> BVa e <> 0 ->
    exists i, BVa e = pool_va i /\ ~ bucket p i /\ pages_runs (pages p) !! i = Some (BPages e);
  po_big_once : forall j1 j2 e1 e2, NxpBigTable p !! j1 = Some e1 -> NxpBigTable p !! j2 = Some e2 ->
    BVa e1 = BVa e2 -> BVa e1 <> 0 -> j1 = j2
}.

(** ** What the pool promises *)

(** A live block: a small one with its class and tag, or a run of pages. *)
Inductive blk : Type :=
  | Small (c t : Z)
  | Big (n : Z).

Definition usize (d : blk) : Z := match d with Small c _ => csize c - HEADER_SIZE | Big n => 4096 * n end.

Definition live p b (d : blk) : Prop :=
  match d with
  | Small c t => exists i k, bslot p i k /\ b = head p i k + HEADER_SIZE /\ Magic p (head p i k) = NXP_MAGIC_ALLOC /\
      c = cls p i /\ t = Tag p (head p i k)
  | Big n => exists i, b = pool_va i /\ pages_runs (pages p) !! i = Some n /\ ~ bucket p i
  end.

(** The words the pool may write: headers, the links of free blocks, and
    pages of no run. *)
Definition pool_word p a : Prop :=
  (exists i k, bslot p i k /\ (a = head p i k \/ a = head p i k + 4 \/
     (a = head p i k + HEADER_SIZE /\ Magic p (head p i k) = NXP_MAGIC_FREE))) \/
  (forall i n, pages_runs (pages p) !! i = Some n -> ~ (pool_va i <= a < pool_va (i + n))).

(** The other words stay. *)
Definition words_kept p p' : Prop := forall a, ~ pool_word p a -> rd (heap p') a = rd (heap p) a.

Lemma slot_class p i k : pool_ok p -> bslot p i k -> class_ok (cls p i) /\ 0 <= k < nblocks (cls p i) /\ pages_runs (pages p) !! i = Some 1 /\ 0 <= i < NXPP_PAGES.
Proof. intros O [Hb Hk]. destruct (po_bucket _ O i Hb) as (? & ? & _). by destruct Hb. Qed.

Lemma slot_bounds p i k : pool_ok p -> bslot p i k ->
  pool_va i <= head p i k /\ head p i k + csize (cls p i) <= pool_va i + 4096 /\ 32 <= csize (cls p i) /\ exists m, head p i k = 32 * m.
Proof.
  intros O Hs. destruct (slot_class p i k O Hs) as (Hc & Hk & _). destruct (hdr_bounds i _ k Hc Hk) as (? & ? & ?).
  destruct (class_cases _ Hc) as (m & ? & _ & _ & ? & _). repeat split; try done. lia.
Qed.

Lemma slots_apart p i k i' k' : pool_ok p -> bslot p i k -> bslot p i' k' ->
  (i = i' /\ k = k') \/ head p i k + csize (cls p i) <= head p i' k' \/ head p i' k' + csize (cls p i') <= head p i k.
Proof.
  intros O Hs Hs'. destruct (slot_class p i k O Hs) as (? & ? & _), (slot_class p i' k' O Hs') as (? & ? & _).
  apply hdr_apart; try done. by intros ->.
Qed.

Lemma slot_inj p i k i' k' : pool_ok p -> bslot p i k -> bslot p i' k' -> head p i k = head p i' k' -> i = i' /\ k = k'.
Proof.
  intros O Hs Hs' E. destruct (slots_apart p i k i' k' O Hs Hs') as [? | D]; [done |].
  pose proof (slot_bounds p i k O Hs) as (_ & _ & ? & _). pose proof (slot_bounds p i' k' O Hs') as (_ & _ & ? & _). lia.
Qed.

(** A page of one run lies in no other. *)
Lemma run_unique s i n j m x : pages_ok s -> pages_runs s !! i = Some n -> pages_runs s !! j = Some m ->
  i <= x < i + n -> j <= x < j + m -> i = j.
Proof.
  intros O Hi Hj Hx Hx'. destruct (Z.lt_trichotomy i j) as [L | [? | L]]; [| done |].
  - pose proof (pages_apart s i j n m O Hi Hj L). lia.
  - pose proof (pages_apart s j i m n O Hj Hi L). lia.
Qed.

(** Live blocks hold none of the pool's words. *)
Lemma live_no_pool_word p b d a : pool_ok p -> live p b d -> b <= a < b + usize d -> ~ pool_word p a.
Proof.
  intros O L Ha. destruct d as [c t | n]; cbn [live usize] in *; unfold HEADER_SIZE in *.
  - destruct L as (i & k & Hs & -> & Hm & -> & _). pose proof (slot_bounds p i k O Hs) as (B1 & B2 & B3 & m & Em).
    intros [(i' & k' & Hs' & Hw) | Hr].
    + pose proof (slot_bounds p i' k' O Hs') as (C1 & C2 & C3 & m' & Em').
      destruct (slots_apart p i k i' k' O Hs Hs') as [[-> ->] | D]; [| unfold HEADER_SIZE in *; lia].
      destruct Hw as [-> | [-> | [-> Hf]]]; unfold HEADER_SIZE in *; [lia | lia |]. rewrite Hm in Hf. discriminate Hf.
    + destruct (slot_class p i k O Hs) as (_ & _ & Hrun & _). apply (Hr _ _ Hrun). unfold pool_va in *. lia.
  - destruct L as (i & -> & Hrun & Hnb). intros [(i' & k' & Hs' & Hw) | Hr].
    + pose proof (slot_bounds p i' k' O Hs') as (C1 & C2 & C3 & m' & Em'). destruct (slot_class p i' k' O Hs') as (_ & _ & Hrun' & Hi').
      assert (i' = i) as ->; [| by apply Hnb; destruct Hs'].
      assert (Ea : pool_va i' <= a < pool_va i' + 4096) by (unfold HEADER_SIZE in *; lia).
      apply (run_unique (pages p) i' 1 i n i' (po_pages _ O)); try done; unfold pool_va in *; lia.
    + apply (Hr _ _ Hrun). unfold pool_va in *. lia.
Qed.

(** ** Lists and counts *)

Lemma flist_ext m m' b l : (forall x, x ∈ l -> rd m' x = rd m x) -> flist m b l -> flist m' b l.
Proof.
  revert b. induction l as [|x l IH]; intros b E; simpl; [done |]. intros (-> & Hx & Hl).
  split; [done |]. split; [done |]. rewrite E by apply list_elem_of_here. apply IH; [| done]. intros y Hy. apply E. by apply list_elem_of_further.
Qed.

Lemma filter_ext_in (P Q : Z -> Prop) `{!forall x, Decision (P x)} `{!forall x, Decision (Q x)} (l : list Z) :
  (forall x, x ∈ l -> (P x <-> Q x)) -> filter P l = filter Q l.
Proof.
  induction l as [|y l IH]; intros E; [done |]. rewrite !filter_cons. pose proof (E y (list_elem_of_here y l)).
  rewrite IH by (intros z Hz; apply E; by apply list_elem_of_further). repeat case_decide; tauto.
Qed.

Lemma filter_flip (P Q : Z -> Prop) `{!forall x, Decision (P x)} `{!forall x, Decision (Q x)} (l : list Z) k :
  NoDup l -> k ∈ l -> ~ P k -> Q k -> (forall x, x ∈ l -> x <> k -> (P x <-> Q x)) ->
  length (filter Q l) = S (length (filter P l)).
Proof.
  intros N Hk Hp Hq. induction N as [|x l Hx N IH]; [by apply not_elem_of_nil in Hk |]. intros E.
  assert (El : forall y, y ∈ l -> y <> k -> (P y <-> Q y)) by (intros y Hy; apply E; by apply list_elem_of_further).
  apply elem_of_cons in Hk as [<- | Hk].
  - rewrite (filter_cons_True Q), (filter_cons_False P) by done. cbn [length].
    rewrite (filter_ext_in P Q l); [done |]. intros y Hy. apply El; [done | congruence].
  - assert (x <> k) by congruence. pose proof (E x (list_elem_of_here x l) ltac:(done)). rewrite !filter_cons.
    repeat case_decide; try tauto; cbn [length]; rewrite IH by done; done.
Qed.

Lemma live_count_bound p i : pool_ok p -> bucket p i -> 0 <= live_count p i <= nblocks (cls p i) /\ nblocks (cls p i) <= 128.
Proof.
  intros O Hb. destruct (po_bucket _ O i Hb) as (_ & Hc & _). destruct (class_cases _ Hc) as (_ & _ & _ & Hn & _).
  unfold live_count. pose proof (length_filter (fun k => Magic p (head p i k) = NXP_MAGIC_ALLOC) (seqZ 0 (nblocks (cls p i)))) as F.
  rewrite length_seqZ in F. lia.
Qed.

Lemma live_count_pos p i k : 0 <= k < nblocks (cls p i) -> Magic p (head p i k) = NXP_MAGIC_ALLOC -> 1 <= live_count p i.
Proof.
  intros Hk Hm. unfold live_count. assert (Hin : k ∈ filter (fun k => Magic p (head p i k) = NXP_MAGIC_ALLOC) (seqZ 0 (nblocks (cls p i)))).
  { apply list_elem_of_filter. split; [done |]. apply elem_of_seqZ. lia. }
  apply list_elem_of_lookup in Hin as [j Hj]. apply lookup_lt_Some in Hj. lia.
Qed.

(** A count that is not full, because one block is free, or not empty. *)
Lemma live_count_flip p p' i k : (forall k', Z.of_nat 0 <= k' < nblocks (cls p i) -> k' <> k -> (Magic p' (head p i k') = NXP_MAGIC_ALLOC <-> Magic p (head p i k') = NXP_MAGIC_ALLOC)) ->
  cls p' i = cls p i -> 0 <= k < nblocks (cls p i) -> Magic p (head p i k) <> NXP_MAGIC_ALLOC -> Magic p' (head p i k) = NXP_MAGIC_ALLOC ->
  live_count p' i = live_count p i + 1.
Proof.
  intros E Ec Hk Hf Ha. unfold live_count, head in *. rewrite Ec.
  rewrite (filter_flip (fun k => Magic p (hdr i (cls p i) k) = NXP_MAGIC_ALLOC) (fun k => Magic p' (hdr i (cls p i) k) = NXP_MAGIC_ALLOC) _ k); [lia | | | done | done |].
  - apply NoDup_seqZ.
  - apply elem_of_seqZ. lia.
  - intros x Hx%elem_of_seqZ Hne. symmetry. apply E; [lia | done].
Qed.

Lemma free_block_class p c c' b : pool_ok p -> free_block p c b -> free_block p c' b -> c = c'.
Proof.
  intros O (i & k & Hs & <- & -> & _) (i' & k' & Hs' & <- & E & _). by destruct (slot_inj p i k i' k' O Hs Hs' ltac:(lia)) as [-> ->].
Qed.

Lemma free_block_aligned p c b : pool_ok p -> free_block p c b -> exists m, b = 32 * m + HEADER_SIZE.
Proof. intros O (i & k & Hs & _ & -> & _). destruct (slot_bounds p i k O Hs) as (_ & _ & _ & m & ->). by exists m. Qed.

(** ** One block changing hands *)

(** [p'] is [p] with the magic of block [k] of page [i] changed to [v], the
    page's count moved with it, and the links rearranged. *)
Record flipped p p' i k (v : Z) : Prop := {
  fl_pages : pages p' = pages p;
  fl_map : NxpClassMap p' = NxpClassMap p;
  fl_big : NxpBigTable p' = NxpBigTable p;
  fl_state : forall j, rd (NxpPageState p') j = if decide (i = j) then rd (NxpPageState p) i + (if v =? NXP_MAGIC_ALLOC then 1 else -1) else rd (NxpPageState p) j;
  fl_class : forall m, ClassIndex p' (32 * m) = ClassIndex p (32 * m);
  fl_magic : forall m, 32 * m <> head p i k -> Magic p' (32 * m) = Magic p (32 * m);
  fl_tag : forall m, 32 * m <> head p i k -> Tag p' (32 * m) = Tag p (32 * m);
  fl_this : Magic p' (head p i k) = v
}.

Lemma pool_va_aligned i : exists m, pool_va i = 32 * m.
Proof. exists (101187584 + 128 * i). unfold pool_va, NXPP_BASE. lia. Qed.

Section flipped.
Context p p' i k v (O : pool_ok p) (Sl : bslot p i k) (F : flipped p p' i k v)
  (Hv : v = NXP_MAGIC_ALLOC /\ Magic p (head p i k) = NXP_MAGIC_FREE \/ v = NXP_MAGIC_FREE /\ Magic p (head p i k) = NXP_MAGIC_ALLOC).

Lemma flipped_cls j : cls p' j = cls p j.
Proof. unfold cls. destruct (pool_va_aligned j) as [m ->]. apply (fl_class _ _ _ _ _ F). Qed.

Lemma flipped_head j k' : head p' j k' = head p j k'.
Proof. unfold head. by rewrite flipped_cls. Qed.

Lemma flipped_tag j k' : bslot p j k' -> (j, k') <> (i, k) -> Tag p' (head p j k') = Tag p (head p j k').
Proof.
  intros Hs Hne. destruct (slot_bounds p j k' O Hs) as (_ & _ & _ & m & Em). rewrite Em. apply (fl_tag _ _ _ _ _ F). rewrite <- Em.
  intros E. apply Hne. by destruct (slot_inj p j k' i k O Hs Sl E) as [-> ->].
Qed.

Lemma flipped_magic j k' : bslot p j k' -> (j, k') <> (i, k) -> Magic p' (head p j k') = Magic p (head p j k').
Proof.
  intros Hs Hne. destruct (slot_bounds p j k' O Hs) as (_ & _ & _ & m & Em). rewrite Em. apply (fl_magic _ _ _ _ _ F). rewrite <- Em.
  intros E. apply Hne. by destruct (slot_inj p j k' i k O Hs Sl E) as [-> ->].
Qed.

(** The counts. *)
Lemma flipped_count : live_count p' i = live_count p i + (if v =? NXP_MAGIC_ALLOC then 1 else -1).
Proof.
  pose proof (fl_this _ _ _ _ _ F) as Ft. destruct Sl as [Hb Hk].
  assert (Em : forall k', Z.of_nat 0 <= k' < nblocks (cls p i) -> k' <> k -> Magic p' (head p i k') = Magic p (head p i k')).
  { intros k' Hk' Hne. apply flipped_magic; [split; [done | lia] | congruence]. }
  destruct Hv as [[Ev Ho] | [Ev Ho]]; rewrite Ev in Ft |- *.
  - apply (live_count_flip p p' i k); try done; [| apply flipped_cls | by rewrite Ho]. intros k' Hk' Hne. by rewrite Em.
  - change (NXP_MAGIC_FREE =? NXP_MAGIC_ALLOC) with false. cbv iota.
    rewrite (live_count_flip p' p i k); [lia | | | | |]; rewrite ?flipped_cls, ?flipped_head; try done; [| by rewrite Ft].
    intros k' Hk' Hne. rewrite flipped_head. by rewrite Em.
Qed.

Lemma flipped_bucket j : bucket p' j <-> bucket p j.
Proof.
  unfold bucket. rewrite (fl_state _ _ _ _ _ F). case_decide as Hd; [subst j | done].
  destruct Sl as [Hb Hk]. destruct (po_bucket _ O i Hb) as (_ & _ & Es). destruct (live_count_bound p i O Hb) as [B1 B2].
  assert (0 <= live_count p i + (if v =? NXP_MAGIC_ALLOC then 1 else -1)) by (rewrite <- flipped_count; unfold live_count; lia).
  rewrite Es. unfold NXP_NOT_BUCKET. destruct (v =? NXP_MAGIC_ALLOC); intuition lia.
Qed.

Lemma flipped_slot j k' : bslot p' j k' <-> bslot p j k'.
Proof. unfold bslot. by rewrite flipped_bucket, flipped_cls. Qed.

Lemma flipped_free c b : free_block p' c b <->
  (free_block p c b /\ b <> head p i k + HEADER_SIZE) \/ (v = NXP_MAGIC_FREE /\ c = cls p i /\ b = head p i k + HEADER_SIZE).
Proof.
  pose proof (fl_this _ _ _ _ _ F) as Ft. unfold free_block. setoid_rewrite flipped_slot. setoid_rewrite flipped_cls. setoid_rewrite flipped_head. split.
  - intros (j & k' & Hs & <- & -> & Hm). destruct (decide ((j, k') = (i, k))) as [[= -> ->] | Hne].
    + right. rewrite Ft in Hm. done.
    + left. rewrite flipped_magic in Hm by done. split; [by exists j, k' |]. intros E. apply Hne.
      destruct (slot_inj p j k' i k O Hs Sl ltac:(lia)) as [-> ->]. done.
  - intros [[(j & k' & Hs & <- & -> & Hm) Hne] | (Ev & -> & ->)].
    + exists j, k'. rewrite flipped_magic; [done | done |]. intros [= -> ->]. done.
    + exists i, k. by rewrite Ft.
Qed.

Definition list_of (q : pool G) c (l : list Z) : Prop :=
  flist (heap q) (rd (NxpFreeLists q) c) l /\ NoDup l /\ forall b, b ∈ l <-> free_block q c b.

Lemma flipped_other_list c : class_ok c -> c <> cls p i -> rd (NxpFreeLists p') c = rd (NxpFreeLists p) c ->
  (forall y, free_block p c y -> rd (heap p') y = rd (heap p) y) -> exists l, list_of p' c l.
Proof.
  intros Hc Hne Eh Ey. destruct (po_list _ O c Hc) as (l & Fl & N & El). exists l. split; [| split; [done |]].
  - rewrite Eh. eapply flist_ext; [| exact Fl]. intros y Hy. by apply Ey, El.
  - intros y. rewrite flipped_free, El. split; [| intros [[? _] | (_ & ? & _)]; done]. intros Hy. left. split; [done |].
    intros ->. destruct Hy as (j & k' & Hs & <- & E & _). by destruct (slot_inj p j k' i k O Hs Sl ltac:(lia)) as [-> ->].
Qed.

Lemma flipped_live x d : live p' x d <->
  (live p x d /\ x <> head p i k + HEADER_SIZE) \/
  (v = NXP_MAGIC_ALLOC /\ x = head p i k + HEADER_SIZE /\ d = Small (cls p i) (Tag p' (head p i k))).
Proof.
  pose proof (fl_this _ _ _ _ _ F) as Ft. destruct d as [c t | n]; cbn [live].
  - setoid_rewrite flipped_slot. setoid_rewrite flipped_cls. setoid_rewrite flipped_head. split.
    + intros (j & k' & Hs & -> & Hm & -> & ->). destruct (decide ((j, k') = (i, k))) as [[= -> ->] | Hne].
      * right. rewrite Ft in Hm. done.
      * left. rewrite flipped_magic in Hm by done. rewrite flipped_tag by done. split; [by exists j, k' |]. intros E. apply Hne.
        destruct (slot_inj p j k' i k O Hs Sl ltac:(lia)) as [-> ->]. done.
    + intros [[(j & k' & Hs & -> & Hm & -> & ->) Hne] | (Ev & -> & [= -> ->])].
      * assert ((j, k') <> (i, k)) by (intros [= -> ->]; done). exists j, k'. rewrite flipped_magic, flipped_tag; done.
      * exists i, k. by rewrite Ft.
  - rewrite (fl_pages _ _ _ _ _ F). setoid_rewrite flipped_bucket. destruct (slot_bounds p i k O Sl) as (_ & _ & _ & m & Em).
    split; [| intros [[? _] | (_ & _ & [=])]; done]. intros (j & -> & Hr & Hn). left. split; [by exists j |].
    destruct (pool_va_aligned j) as [m' ->]. unfold HEADER_SIZE. lia.
Qed.

Lemma flipped_ok : (forall c, class_ok c -> exists l, list_of p' c l) -> pool_ok p'.
Proof.
  intros L. constructor.
  - rewrite (fl_pages _ _ _ _ _ F). apply O.
  - rewrite (fl_map _ _ _ _ _ F). apply O.
  - intros j Hb%flipped_bucket. rewrite flipped_cls, (fl_pages _ _ _ _ _ F), (fl_state _ _ _ _ _ F).
    destruct (po_bucket _ O j Hb) as (? & ? & Es). split; [done |]. split; [done |]. case_decide as Hd.
    + subst j. by rewrite flipped_count, Es.
    + rewrite Es. unfold live_count. rewrite flipped_cls. f_equal. f_equal.
      apply filter_ext_in. intros k' Hk'%elem_of_seqZ. rewrite flipped_head, flipped_magic; [done | split; [done | lia] | congruence].
  - intros j k' Hs%flipped_slot. rewrite flipped_head, flipped_cls. destruct (po_block _ O j k' Hs) as [Ec Em]. split.
    + destruct (slot_bounds p j k' O Hs) as (_ & _ & _ & m & E). rewrite E, (fl_class _ _ _ _ _ F), <- E. done.
    + destruct (decide ((j, k') = (i, k))) as [[= -> ->] | Hne]; [| by rewrite flipped_magic].
      rewrite (fl_this _ _ _ _ _ F). destruct Hv as [[? _] | [? _]]; auto.
  - exact L.
  - rewrite (fl_big _ _ _ _ _ F), (fl_pages _ _ _ _ _ F). intros e He Hz. destruct (po_big _ O e He Hz) as (j & ? & Hn & ?).
    exists j. by rewrite flipped_bucket.
  - rewrite (fl_big _ _ _ _ _ F). apply O.
Qed.
End flipped.

(** ** Headers *)

Definition hword (c v : Z) : Z := c + 2 ^ 16 * v.

Lemma hword_fields c v : 0 <= c < 2 ^ 16 -> hword c v mod 2 ^ 16 = c /\ hword c v / 2 ^ 16 = v.
Proof.
  intros Hc. unfold hword. rewrite (Z.mul_comm (2 ^ 16)). rewrite Z.mod_add, Z.div_add by lia. rewrite Z.mod_small, Z.div_small by lia. lia.
Qed.

Lemma class_u16 c : class_ok c -> 0 <= c < 2 ^ 16.
Proof. unfold class_ok, NXP_CLASSES. simpl. lia. Qed.

Lemma write_header_heap h t c p a : class_ok c ->
  rd (heap (write_header h t c p)) a = if decide (h + 4 = a) then hword c NXP_MAGIC_ALLOC else if decide (h = a) then t else rd (heap p) a.
Proof.
  intros Hc%class_u16. unfold write_header, set_Magic, set_ClassIndex, set_Tag, store, ClassIndex, Magic. cbn [heap].
  set (w := rd (<[h := t]> (heap p)) (h + 4) / 2 ^ 16). rewrite (rd_insert_eq _ (h + 4)).
  assert (Eu : u16 c = c) by (apply Z.mod_small; lia). rewrite Eu. fold (hword c w).
  rewrite (proj1 (hword_fields c _ Hc)), !rd_insert. by repeat case_decide.
Qed.

(** ** Taking the first free block *)

Lemma pop_spec p c t : pool_ok p -> class_ok c -> rd (NxpFreeLists p) c <> 0 ->
  let b := rd (NxpFreeLists p) c in
  let q := set_head c (Next p b) p in
  let p' := write_header (b - HEADER_SIZE) t c (set_state (NXP_PAGE_INDEX b) (u8 (rd (NxpPageState q) (NXP_PAGE_INDEX b) + 1)) q) in
  pool_ok p' /\ words_kept p p' /\ free_block p c b /\ (forall x d, live p' x d <-> live p x d /\ x <> b \/ x = b /\ d = Small c t).
Proof.
  intros O Hc Hb b q p'. destruct (po_list _ O c Hc) as (l & Fl & N & El). fold b in Fl. destruct l as [|x l]; [done |].
  destruct Fl as (<- & _ & Fl). assert (Fb : free_block p c b) by (apply El, list_elem_of_here).
  pose proof Fb as (i & k & Hs & Ec & Eb & Em). destruct (slot_bounds p i k O Hs) as (B1 & B2 & B3 & m0 & Eh).
  destruct (slot_class p i k O Hs) as (_ & Hk & _ & Hi).
  assert (Ei : NXP_PAGE_INDEX b = i) by (apply page_index; [done | unfold HEADER_SIZE in *; lia]).
  assert (Ehd : b - HEADER_SIZE = 32 * m0) by lia.
  assert (Hh : forall a, rd (heap p') a = if decide (32 * m0 + 4 = a) then hword c NXP_MAGIC_ALLOC else if decide (32 * m0 = a) then t else rd (heap p) a).
  { intros a. unfold p'. rewrite write_header_heap, Ehd by done. done. }
  destruct (po_bucket _ O i (proj1 Hs)) as (_ & _ & Es). destruct (live_count_bound p i O (proj1 Hs)) as [Lb Lb'].
  destruct (hword_fields c NXP_MAGIC_ALLOC (class_u16 c Hc)) as [Wc Wm].
  assert (F : flipped p p' i k NXP_MAGIC_ALLOC).
  { constructor; try done; unfold ClassIndex, Magic, Tag; rewrite ?Eh.
    - intros j. unfold p', write_header, q. cbn. rewrite rd_insert, Ei. case_decide; [| done]. unfold u8. rewrite Es. apply Z.mod_small. lia.
    - intros m. rewrite Hh. case_decide as Hd; [rewrite Wc | rewrite decide_False; [done | lia]].
      rewrite <- Ec. replace m with m0 by lia. rewrite <- Eh. symmetry. apply (po_block _ O i k Hs).
    - intros m Hne. rewrite Hh, !decide_False by lia. done.
    - intros m Hne. rewrite Hh, !decide_False by lia. done.
    - rewrite Hh, decide_True by done. done. }
  assert (Hv : NXP_MAGIC_ALLOC = NXP_MAGIC_ALLOC /\ Magic p (head p i k) = NXP_MAGIC_FREE \/
    NXP_MAGIC_ALLOC = NXP_MAGIC_FREE /\ Magic p (head p i k) = NXP_MAGIC_ALLOC) by (left; done).
  assert (Hn : forall y c', free_block p c' y -> rd (heap p') y = rd (heap p) y).
  { intros y c' Hy. destruct (free_block_aligned p c' y O Hy) as [m ->]. unfold HEADER_SIZE. rewrite Hh, !decide_False by lia. done. }
  split; [| split; [| split; [done |]]].
  - apply (flipped_ok p p' i k NXP_MAGIC_ALLOC O Hs F Hv). intros c' Hc'. destruct (decide (c = c')) as [<- | Hne].
    + exists l. assert (Hl : forall y, y ∈ l -> free_block p c y) by (intros y Hy; apply El; by apply list_elem_of_further).
      apply NoDup_cons in N as [Nb N]. split; [| split; [done |]].
      * unfold p', q, write_header. cbn [NxpFreeLists set_head set_state set_Magic set_ClassIndex set_Tag store]. rewrite rd_insert_eq.
        eapply flist_ext; [| exact Fl]. intros y Hy. by apply (Hn y c), Hl.
      * intros y. rewrite (flipped_free p p' i k NXP_MAGIC_ALLOC O Hs F Hv), <- El, elem_of_cons, <- Eb. split.
        { intros Hy. left. split; [by right |]. intros ->. done. }
        { intros [[[-> | ?] ?] | [? _]]; done. }
    + apply (flipped_other_list p p' i k NXP_MAGIC_ALLOC O Hs F Hv); [done | by rewrite Ec | | by intros y; apply Hn].
      by apply rd_insert_ne.
  - intros a Ha. rewrite Hh, !decide_False; [done | |]; intros <-; apply Ha; left; exists i, k; rewrite Eh; auto.
  - intros x d. rewrite (flipped_live p p' i k NXP_MAGIC_ALLOC O Hs F Hv), <- Eb, Ec.
    assert (Et : Tag p' (head p i k) = t) by (unfold Tag; rewrite Eh, Hh, decide_False, decide_True by lia; done). rewrite Et. intuition.
Qed.

(** ** Giving a block back *)

(** The steps of [ExFreePoolWithTag] once its checks have passed. *)
Definition push (P : Z) p : pool G :=
  let h := P - HEADER_SIZE in
  let p := set_Magic h NXP_MAGIC_FREE p in
  let c := ClassIndex p h in
  let p := set_Next P (rd (NxpFreeLists p) c) p in
  let p := set_head c P p in
  let i := NXP_PAGE_INDEX P in
  set_state i (u8 (rd (NxpPageState p) i - 1)) p.

Lemma push_heap P p c a : class_ok c -> ClassIndex p (P - HEADER_SIZE) = c ->
  rd (heap (push P p)) a = if decide (P = a) then rd (NxpFreeLists p) c
    else if decide (P - 4 = a) then hword c NXP_MAGIC_FREE else rd (heap p) a.
Proof.
  intros Hc%class_u16 Ec. unfold push. set (q := set_Magic _ _ p).
  assert (Eq : forall a, rd (heap q) a = if decide (P - 4 = a) then hword c NXP_MAGIC_FREE else rd (heap p) a).
  { intros a'. unfold q, set_Magic. rewrite Ec. cbn [store heap]. rewrite rd_insert. unfold HEADER_SIZE. replace (P - 8 + 4) with (P - 4) by lia. done. }
  assert (E : ClassIndex q (P - HEADER_SIZE) = c).
  { unfold ClassIndex. rewrite Eq, decide_True by (unfold HEADER_SIZE; lia). by apply hword_fields. }
  rewrite E. cbn [heap set_head set_state set_Next store]. rewrite rd_insert, Eq. done.
Qed.

Lemma push_lists P p c : class_ok c -> ClassIndex p (P - HEADER_SIZE) = c -> NxpFreeLists (push P p) = <[c := P]> (NxpFreeLists p).
Proof.
  intros Hc Ec. unfold push. set (q := set_Magic _ _ p).
  assert (E : ClassIndex q (P - HEADER_SIZE) = c); [| by rewrite E].
  unfold ClassIndex at 1. unfold q, set_Magic. cbn [store heap]. rewrite rd_insert_eq, Ec. fold (hword c NXP_MAGIC_FREE).
  by apply hword_fields, class_u16.
Qed.

Lemma push_spec p c t b : pool_ok p -> live p b (Small c t) ->
  let p' := push b p in
  pool_ok p' /\ (forall a, ~ pool_word p' a -> rd (heap p') a = rd (heap p) a) /\ free_block p' c b /\
  (forall x d, live p' x d <-> live p x d /\ x <> b).
Proof.
  intros O (i & k & Hs & Eb & Em & Ec & _) p'. destruct (slot_bounds p i k O Hs) as (B1 & B2 & B3 & m0 & Eh).
  destruct (slot_class p i k O Hs) as (Hc & Hk & _ & Hi). rewrite <- Ec in Hc, B2, B3.
  destruct (po_block _ O i k Hs) as [Ecl _]. rewrite <- Ec in Ecl.
  assert (Ei : NXP_PAGE_INDEX b = i) by (apply page_index; [done | unfold HEADER_SIZE in *; lia]).
  assert (Ehd : b - HEADER_SIZE = head p i k) by lia.
  pose proof (fun a => push_heap b p c a Hc ltac:(by rewrite Ehd)) as Hh. fold p' in Hh. unfold HEADER_SIZE in Eb, Ehd.
  destruct (po_bucket _ O i (proj1 Hs)) as (_ & _ & Es). destruct (live_count_bound p i O (proj1 Hs)) as [Lb Lb'].
  destruct (hword_fields c NXP_MAGIC_FREE (class_u16 c Hc)) as [Wc Wm].
  assert (Lp : 1 <= live_count p i) by (apply (live_count_pos p i k); done).
  assert (F : flipped p p' i k NXP_MAGIC_FREE).
  { constructor; try done; unfold ClassIndex, Magic, Tag; rewrite ?Eh.
    - intros j. unfold p', push. cbn [NxpPageState set_state set_head set_Next set_Magic store]. rewrite rd_insert, Ei. case_decide; [| done].
      change (NXP_MAGIC_FREE =? NXP_MAGIC_ALLOC) with false. unfold u8. rewrite Es. apply Z.mod_small. lia.
    - intros m. rewrite Hh, decide_False by lia. case_decide as Hd; [| done]. rewrite Wc. replace m with m0 by lia. rewrite <- Eh. done.
    - intros m Hne. rewrite Hh, !decide_False by lia. done.
    - intros m Hne. rewrite Hh, !decide_False by lia. done.
    - rewrite Hh, decide_False, decide_True by lia. done. }
  assert (Hv : NXP_MAGIC_FREE = NXP_MAGIC_ALLOC /\ Magic p (head p i k) = NXP_MAGIC_FREE \/
    NXP_MAGIC_FREE = NXP_MAGIC_FREE /\ Magic p (head p i k) = NXP_MAGIC_ALLOC) by (right; done).
  assert (Hb : forall c', ~ free_block p c' b).
  { intros c' (j & k' & Hs' & _ & E & Hm). unfold HEADER_SIZE in E. destruct (slot_inj p j k' i k O Hs' Hs ltac:(lia)) as [-> ->]. rewrite Hm in Em. done. }
  assert (Hn : forall y c', free_block p c' y -> rd (heap p') y = rd (heap p) y).
  { intros y c' Hy. assert (y <> b) by (intros ->; by apply (Hb c')). destruct (free_block_aligned p c' y O Hy) as [m Ey]. unfold HEADER_SIZE in Ey.
    rewrite Hh, !decide_False by lia. done. }
  assert (Efl : NxpFreeLists p' = <[c := b]> (NxpFreeLists p)) by (apply push_lists; [done | unfold HEADER_SIZE; by rewrite Ehd]).
  split; [| split; [| split]].
  - apply (flipped_ok p p' i k NXP_MAGIC_FREE O Hs F Hv). intros c' Hc'. destruct (decide (c = c')) as [<- | Hne].
    + destruct (po_list _ O c Hc) as (l & Fl & N & El). exists (b :: l). split; [| split].
      * rewrite Efl, rd_insert_eq. cbn [flist]. split; [done |]. split; [unfold pool_va, NXPP_BASE in B1; lia |].
        rewrite Hh, decide_True by done. eapply flist_ext; [| exact Fl]. intros y Hy. by apply (Hn y c), El.
      * apply NoDup_cons. split; [| done]. rewrite El. apply Hb.
      * intros y. rewrite (flipped_free p p' i k NXP_MAGIC_FREE O Hs F Hv), elem_of_cons, El, <- Ec. unfold HEADER_SIZE. rewrite <- Eb.
        split; [| intros [[? _] | (_ & _ & ?)]; auto]. intros [-> | Hy]; [by right |]. left. split; [done |]. intros ->. by apply (Hb c).
    + apply (flipped_other_list p p' i k NXP_MAGIC_FREE O Hs F Hv); [done | congruence | | by intros y; apply Hn].
      rewrite Efl. by apply rd_insert_ne.
  - intros a Ha. assert (Hs' : bslot p' i k) by (by apply (flipped_slot p p' i k NXP_MAGIC_FREE O Hs F Hv)).
    assert (Eh' : head p' i k = 32 * m0) by (rewrite (flipped_head p p' i k NXP_MAGIC_FREE F); done).
    rewrite Hh, !decide_False; [done | |]; intros <-; apply Ha; left; exists i, k; rewrite Eh'; (split; [done |]);
      unfold HEADER_SIZE; [right; left; lia | right; right; split; [lia |]].
    rewrite <- Eh. apply (fl_this _ _ _ _ _ F).
  - rewrite (flipped_free p p' i k NXP_MAGIC_FREE O Hs F Hv). right. done.
  - intros x d. rewrite (flipped_live p p' i k NXP_MAGIC_FREE O Hs F Hv). unfold HEADER_SIZE. rewrite <- Eb.
    split; [intros [? | [? _]]; done | by left].
Qed.

(** ** Whole pages *)

(** A run the page layer has just handed out. *)
Lemma vacant_run s i n j m : vacant (pages_runs s) i n -> pages_runs s !! j = Some m -> j + m <= i \/ i + n <= j.
Proof. intros (_ & _ & V). apply V. Qed.

Lemma vacant_none s i n : pages_ok s -> 0 < n -> vacant (pages_runs s) i n -> pages_runs s !! i = None.
Proof.
  intros O Hn V. destruct (pages_runs s !! i) as [m|] eqn:E; [| done]. destruct (pages_bound s i m O E) as (_ & ? & _).
  destruct (vacant_run s i n i m V E); lia.
Qed.

Lemma grow_spec p s i n : pool_ok p -> pages_ok s -> 0 < n -> vacant (pages_runs (pages p)) i n ->
  pages_runs s = <[i := n]> (pages_runs (pages p)) ->
  let p' := with_pages s p in
  pool_ok p' /\ ~ bucket p i /\ (forall e, e ∈ NxpBigTable p -> BVa e = pool_va i -> False) /\
  (forall d, ~ live p (pool_va i) d) /\ (forall x d, live p' x d <-> live p x d \/ x = pool_va i /\ d = Big n).
Proof.
  intros O Os Hn V Er p'. pose proof (vacant_none _ _ _ (po_pages _ O) Hn V) as Ni.
  assert (Nb : ~ bucket p i) by (intros Hb; destruct (po_bucket _ O i Hb) as [E _]; congruence).
  assert (Rj : forall j m, pages_runs (pages p) !! j = Some m -> pages_runs s !! j = Some m).
  { intros j m E. rewrite Er, lookup_insert_ne; [done | congruence]. }
  split; [| split; [done |]; split; [| split]].
  - constructor; [exact Os | apply (po_map _ O) | | apply (po_block _ O) | apply (po_list _ O) | | apply (po_big_once _ O)].
    + intros j Hb. destruct (po_bucket _ O j Hb) as (E & ? & ?). split; [by apply Rj | done].
    + intros e He Hz. destruct (po_big _ O e He Hz) as (j & ? & ? & E). exists j. split; [done |]. split; [done | by apply Rj].
  - intros e He Ee. destruct (po_big _ O e He) as (j & Ej & _ & E); [rewrite Ee; unfold pool_va, NXPP_BASE; destruct V; lia |].
    assert (j = i) as -> by (unfold pool_va in *; lia). congruence.
  - intros [c t | m]; cbn [live].
    + intros (j & k & Hs & E & _). destruct (slot_bounds p j k O Hs) as (_ & _ & _ & m & Em). destruct (pool_va_aligned i) as [m' Ei]. unfold HEADER_SIZE in E. lia.
    + intros (j & E & Hr & _). assert (j = i) as -> by (unfold pool_va in *; lia). congruence.
  - intros x [c t | m]; [split; [by left | by intros [? | [_ [=]]]] |]. change (live p' x (Big m)) with (exists j, x = pool_va j /\ pages_runs s !! j = Some m /\ ~ bucket p j).
    cbn [live]. split.
    + intros (j & -> & E & Hnb). rewrite Er in E. apply lookup_insert_Some in E as [[<- <-] | [Hne E]]; [by right |]. left. by exists j.
    + intros [(j & -> & E & Hnb) | [-> [= ->]]]; [exists j; split; [done |]; split; [by apply Rj | done] |].
      exists i. rewrite Er, lookup_insert_eq. done.
Qed.

Lemma elem_of_big_insert t Va n e : e ∈ big_insert t Va n -> e ∈ t \/ e = BigEntry Va n.
Proof.
  induction t as [|x t IH]; cbn [big_insert]; [by left |]. destruct (BVa x =? 0).
  - intros [-> | He]%elem_of_cons; [by right |]. left. by apply list_elem_of_further.
  - intros [-> | He]%elem_of_cons; [left; apply list_elem_of_here |]. destruct (IH He) as [? | ?]; [left; by apply list_elem_of_further | by right].
Qed.

(** Keys other than 0 occur once. *)
Definition once (t : list NXP_BIG_ENTRY) : Prop :=
  forall j1 j2 e1 e2, t !! j1 = Some e1 -> t !! j2 = Some e2 -> BVa e1 = BVa e2 -> BVa e1 <> 0 -> j1 = j2.

Lemma once_cons x t : once (x :: t) <-> once t /\ (BVa x <> 0 -> forall e, e ∈ t -> BVa e <> BVa x).
Proof.
  split.
  - intros U. split.
    + intros j1 j2 e1 e2 E1 E2 E Hz. pose proof (U (S j1) (S j2) e1 e2 E1 E2 E Hz). lia.
    + intros Hz e [j Hj]%list_elem_of_lookup E. pose proof (U 0%nat (S j) x e eq_refl Hj (eq_sym E) Hz). lia.
  - intros [U D] [|j1] [|j2] e1 e2 E1 E2 E Hz; cbn in E1, E2; [done | | | f_equal; by apply (U j1 j2 e1 e2)]; exfalso.
    + injection E1 as <-. by apply (D Hz e2 (list_elem_of_lookup_2 _ _ _ E2)).
    + injection E2 as <-. apply (D ltac:(congruence) e1 (list_elem_of_lookup_2 _ _ _ E1)). done.
Qed.

Lemma once_big_insert t Va n : once t -> (forall e, e ∈ t -> BVa e = Va -> False) -> once (big_insert t Va n).
Proof.
  induction t as [|x t IH]; cbn [big_insert]; [done |]. intros [U D]%once_cons Nv.
  assert (Nt : forall e, e ∈ t -> BVa e = Va -> False) by (intros e He; apply Nv; by apply list_elem_of_further).
  destruct (BVa x =? 0); apply (proj2 (once_cons _ _)); split; try done; cbn [BVa].
  - by apply IH.
  - intros Hz e [He | ->]%elem_of_big_insert; [by apply D |]. cbn [BVa]. intros E. apply (Nv x); [apply list_elem_of_here | done].
Qed.

Lemma set_big_ok p t : pool_ok p -> once t ->
  (forall e, e ∈ t -> BVa e <> 0 -> exists i, BVa e = pool_va i /\ ~ bucket p i /\ pages_runs (pages p) !! i = Some (BPages e)) ->
  pool_ok (set_big t p) /\ (forall x d, live (set_big t p) x d <-> live p x d).
Proof.
  intros O U B. split; [| done]. constructor; [apply (po_pages _ O) | apply (po_map _ O) | apply (po_bucket _ O) | apply (po_block _ O) | apply (po_list _ O) | exact B | exact U].
Qed.

(** ** Carving a page *)

(** One turn of the loop. *)
Definition carve_one (h c : Z) p : pool G :=
  let f := h + HEADER_SIZE in
  let p := set_Magic h NXP_MAGIC_FREE (set_ClassIndex h c (set_Tag h 0 p)) in
  set_head c f (set_Next f (rd (NxpFreeLists p) c) p).

Lemma carve_one_heap h c p a : class_ok c ->
  rd (heap (carve_one h c p)) a = if decide (h + 8 = a) then rd (NxpFreeLists p) c
    else if decide (h + 4 = a) then hword c NXP_MAGIC_FREE else if decide (h = a) then 0 else rd (heap p) a.
Proof.
  intros Hc%class_u16. unfold carve_one, set_Magic, set_ClassIndex, set_Tag, set_Next, store, ClassIndex, Magic, HEADER_SIZE.
  cbn [heap set_head NxpFreeLists]. set (w := rd (<[h := 0]> (heap p)) (h + 4) / 2 ^ 16). rewrite (rd_insert_eq _ (h + 4)).
  assert (Eu : u16 c = c) by (apply Z.mod_small; lia). rewrite Eu. fold (hword c w).
  rewrite (proj1 (hword_fields c _ Hc)), !rd_insert. by repeat case_decide.
Qed.

(** The chain after the loop, over the blocks [i] to [i + n]. *)
Lemma carve_chain n : forall i0 i c p l, class_ok c -> 0 <= i -> flist (heap p) (rd (NxpFreeLists p) c) l -> NoDup l ->
  (forall y, y ∈ l -> (exists m, y = 32 * m + 8) /\ forall j, i <= j < i + Z.of_nat n -> y <> hdr i0 c j + 8) -> 0 <= i0 ->
  let p' := carve_page n i (pool_va i0) (csize c) c p in
  (exists l', flist (heap p') (rd (NxpFreeLists p') c) l' /\ NoDup l' /\
     forall y, y ∈ l' <-> y ∈ l \/ exists j, i <= j < i + Z.of_nat n /\ y = hdr i0 c j + 8) /\
  (forall j, i <= j < i + Z.of_nat n -> rd (heap p') (hdr i0 c j + 4) = hword c NXP_MAGIC_FREE) /\
  (forall a, ~ (hdr i0 c i <= a < hdr i0 c (i + Z.of_nat n)) -> rd (heap p') a = rd (heap p) a) /\
  (forall c', c' <> c -> rd (NxpFreeLists p') c' = rd (NxpFreeLists p) c') /\
  pages p' = pages p /\ NxpClassMap p' = NxpClassMap p /\ NxpPageState p' = NxpPageState p /\ NxpBigTable p' = NxpBigTable p.
Proof.
  induction n as [|n IH]; intros i0 i c p l Hc Hi Fl N El Hi0; cbn [carve_page].
  - split; [exists l; split; [done |]; split; [done |] |].
    + intros y. split; [by left |]. intros [? | (j & ? & _)]; [done | lia].
    + split; [intros j Hj; lia |]. repeat split.
  - change (pool_va i0 + i * csize c) with (hdr i0 c i).
    change (set_head c (hdr i0 c i + HEADER_SIZE) _) with (carve_one (hdr i0 c i) c p).
    pose proof (fun a => carve_one_heap (hdr i0 c i) c p a Hc) as Hh. set (p1 := carve_one (hdr i0 c i) c p) in *.
    destruct (class_cases c Hc) as (m & Em & _ & _ & Hm & _).
    assert (Eh : exists m0, hdr i0 c i = 32 * m0) by (exists (101187584 + 128 * i0 + i * m); unfold hdr, pool_va, NXPP_BASE; rewrite Em; lia).
    destruct Eh as [m0 Eh].
    assert (Hs : hdr i0 c (i + 1) = hdr i0 c i + csize c) by (unfold hdr; lia).
    assert (Hmono : forall j, i + 1 <= j -> hdr i0 c (i + 1) <= hdr i0 c j) by (intros j Hj; unfold hdr; nia).
    assert (Efl : rd (NxpFreeLists p1) c = hdr i0 c i + 8) by apply rd_insert_eq.
    destruct (IH i0 (i + 1) c p1 (hdr i0 c i + 8 :: l) Hc ltac:(lia)) as ((l' & Fl' & N' & El') & W & K & Lo & Ep & Em' & Es & Eb).
    { rewrite Efl. cbn [flist]. split; [done |]. split; [unfold hdr, pool_va, NXPP_BASE; nia |]. rewrite Hh, decide_True by done.
      eapply flist_ext; [| exact Fl]. intros y Hy. destruct (El y Hy) as [[my ->] Hy2]. specialize (Hy2 i ltac:(lia)). rewrite Hh, !decide_False by lia. done. }
    { apply NoDup_cons. split; [| done]. intros Hin. destruct (El _ Hin) as [_ Hd]. by apply (Hd i ltac:(lia)). }
    { intros y [-> | Hy]%elem_of_cons; [split; [exists m0; lia |]; intros j Hj; specialize (Hmono j ltac:(lia)); lia |].
      destruct (El y Hy) as [? Hd]. split; [done |]. intros j Hj. apply Hd. lia. }
    { done. }
    replace (i + Z.of_nat (S n)) with (i + 1 + Z.of_nat n) by lia.
    assert (Hin : hdr i0 c i + csize c <= hdr i0 c (i + 1 + Z.of_nat n)) by (specialize (Hmono (i + 1 + Z.of_nat n) ltac:(lia)); lia).
    split; [exists l'; split; [done |]; split; [done |] | split; [| split; [| split]]].
    + intros y. rewrite El', elem_of_cons. split.
      * intros [[-> | ?] | (j & Hj & ->)]; [right; exists i; split; [lia | done] | by left |]. right. exists j. split; [lia | done].
      * intros [? | (j & Hj & ->)]; [left; by right |]. destruct (decide (j = i)) as [-> | ?]; [left; by left |]. right. exists j. split; [lia | done].
    + intros j Hj. destruct (decide (j = i)) as [-> | Hne]; [| apply W; lia].
      rewrite K by lia. rewrite Hh, decide_False, decide_True by lia. done.
    + intros a Ha. rewrite K by lia. rewrite Hh, !decide_False by lia. done.
    + intros c' Hne. rewrite Lo by done. apply rd_insert_ne. congruence.
    + done.
Qed.

(** [p'] is [p] with page [i0] turned into a bucket page of class [c] whose
    first block is live. *)
Record carved p p' i0 c t : Prop := {
  cv_pages : pages p' = pages p;
  cv_map : NxpClassMap p' = NxpClassMap p;
  cv_big : NxpBigTable p' = NxpBigTable p;
  cv_state : forall j, rd (NxpPageState p') j = if decide (i0 = j) then 1 else rd (NxpPageState p) j;
  cv_out : forall a, ~ (pool_va i0 <= a < pool_va i0 + 4096) -> rd (heap p') a = rd (heap p) a;
  cv_tag : rd (heap p') (pool_va i0) = t;
  cv_first : rd (heap p') (hdr i0 c 0 + 4) = hword c NXP_MAGIC_ALLOC;
  cv_rest : forall k, 1 <= k < nblocks c -> rd (heap p') (hdr i0 c k + 4) = hword c NXP_MAGIC_FREE
}.

Section carved.
Context p p' i0 c t (O : pool_ok p) (Hc : class_ok c) (Hi : 0 <= i0 < NXPP_PAGES) (Nb : ~ bucket p i0)
  (Run : pages_runs (pages p) !! i0 = Some 1) (C : carved p p' i0 c t).

Lemma carved_field j a : j <> i0 -> pool_va j <= a < pool_va j + 4096 -> rd (heap p') a = rd (heap p) a.
Proof. intros Hj Ha. apply (cv_out _ _ _ _ _ C). unfold pool_va in *. lia. Qed.

Lemma carved_cls j : j <> i0 -> cls p' j = cls p j.
Proof. intros Hj. unfold cls, ClassIndex. rewrite (carved_field j); [done | done | lia]. Qed.

Lemma carved_cls_new : cls p' i0 = c.
Proof.
  unfold cls, ClassIndex. replace (pool_va i0 + 4) with (hdr i0 c 0 + 4) by (unfold hdr; lia). rewrite (cv_first _ _ _ _ _ C).
  apply hword_fields, class_u16, Hc.
Qed.

Lemma carved_bucket j : bucket p' j <-> bucket p j \/ j = i0.
Proof.
  unfold bucket. rewrite (cv_state _ _ _ _ _ C). case_decide as Hd.
  - subst j. unfold NXP_NOT_BUCKET. split; [by right |]. intros _. split; [done | lia].
  - split; [by left |]. intros [? | ->]; done.
Qed.

Lemma bucket_old j : bucket p j -> j <> i0.
Proof. intros Hb ->. done. Qed.

Lemma carved_slot j k : bslot p' j k <-> bslot p j k \/ j = i0 /\ 0 <= k < nblocks c.
Proof.
  unfold bslot. rewrite carved_bucket. destruct (decide (j = i0)) as [-> | Hne].
  - rewrite carved_cls_new. split; [intros [_ ?]; by right |]. intros [[? _] | [_ ?]]; [done | auto].
  - rewrite carved_cls by done. split; [intros [[? | ?] ?]; [by left | done] |]. intros [[? ?] | [? _]]; [auto | done].
Qed.

Lemma carved_old j k : bslot p j k -> head p' j k = head p j k /\ Magic p' (head p j k) = Magic p (head p j k) /\
  ClassIndex p' (head p j k) = ClassIndex p (head p j k) /\ Tag p' (head p j k) = Tag p (head p j k).
Proof.
  intros Hs. pose proof (bucket_old j (proj1 Hs)) as Hj. destruct (slot_bounds p j k O Hs) as (B1 & B2 & B3 & _).
  split; [unfold head; by rewrite carved_cls |]. unfold Magic, ClassIndex, Tag. rewrite !(carved_field j) by (try done; lia). done.
Qed.

Lemma carved_new k : 0 <= k < nblocks c -> head p' i0 k = hdr i0 c k /\ ClassIndex p' (hdr i0 c k) = c /\
  Magic p' (hdr i0 c k) = if decide (k = 0) then NXP_MAGIC_ALLOC else NXP_MAGIC_FREE.
Proof.
  intros Hk. split; [unfold head; by rewrite carved_cls_new |]. unfold Magic, ClassIndex. case_decide as Hd.
  - subst k. rewrite (cv_first _ _ _ _ _ C). apply hword_fields, class_u16, Hc.
  - rewrite (cv_rest _ _ _ _ _ C) by lia. apply hword_fields, class_u16, Hc.
Qed.

Lemma carved_count : live_count p' i0 = 1.
Proof.
  unfold live_count. rewrite carved_cls_new. destruct (class_cases c Hc) as (_ & _ & _ & Hn & _).
  rewrite (filter_flip (fun _ => False) (fun k => Magic p' (head p' i0 k) = NXP_MAGIC_ALLOC) _ 0).
  - assert (E : filter (fun _ : Z => False) (seqZ 0 (nblocks c)) = []) by (induction (seqZ 0 (nblocks c)) as [|y l IH]; [done | by rewrite filter_cons_False by auto]). by rewrite E.
  - apply NoDup_seqZ.
  - apply elem_of_seqZ. lia.
  - auto.
  - destruct (carved_new 0 ltac:(lia)) as (-> & _ & ->). done.
  - intros k Hk%elem_of_seqZ Hne. destruct (carved_new k ltac:(lia)) as (-> & _ & ->). rewrite decide_False by done. split; [done |]. discriminate.
Qed.

Lemma carved_free c' b : free_block p' c' b <-> free_block p c' b \/ c' = c /\ exists k, 1 <= k < 1 + (nblocks c - 1) /\ b = hdr i0 c k + 8.
Proof.
  unfold free_block. split.
  - intros (j & k & Hs & <- & -> & Hm). apply carved_slot in Hs as [Hs | [-> Hk]].
    + left. exists j, k. destruct (carved_old j k Hs) as (E & Em & _). rewrite E, Em in *. rewrite carved_cls by (by apply bucket_old; destruct Hs). done.
    + right. rewrite carved_cls_new. split; [done |]. destruct (carved_new k Hk) as (E & _ & Em). rewrite E, Em in *. exists k.
      case_decide; [discriminate Hm |]. unfold HEADER_SIZE. split; [lia | done].
  - intros [(j & k & Hs & <- & -> & Hm) | (-> & k & Hk & ->)].
    + exists j, k. destruct (carved_old j k Hs) as (E & Em & _). rewrite E, Em, carved_cls by (by apply bucket_old; destruct Hs).
      split; [| done]. apply carved_slot. by left.
    + exists i0, k. destruct (carved_new k ltac:(lia)) as (E & _ & Em). rewrite E, Em, carved_cls_new, decide_False by lia.
      split; [apply carved_slot; right; split; [done | lia] | done].
Qed.

Lemma carved_live x d : live p' x d <-> (live p x d /\ x <> pool_va i0) \/ (x = pool_va i0 + HEADER_SIZE /\ d = Small c t).
Proof.
  assert (E0 : hdr i0 c 0 = pool_va i0) by (unfold hdr; lia). destruct (class_cases c Hc) as (_ & _ & _ & Hn & _).
  destruct d as [c' t' | n]; cbn [live].
  - split.
    + intros (j & k & Hs & -> & Hm & -> & ->). apply carved_slot in Hs as [Hs | [-> Hk]].
      * destruct (carved_old j k Hs) as (E & Em & _ & Et). rewrite E, Em, Et in *. left.
        rewrite carved_cls by (by apply bucket_old; destruct Hs). split; [by exists j, k |].
        destruct (slot_bounds p j k O Hs) as (_ & _ & _ & m & ->). destruct (pool_va_aligned i0) as [m' ->]. unfold HEADER_SIZE. lia.
      * destruct (carved_new k Hk) as (E & _ & Em). rewrite E, Em in *. case_decide as Hd; [subst k | discriminate Hm].
        right. rewrite E0, carved_cls_new. unfold Tag. by rewrite (cv_tag _ _ _ _ _ C).
    + intros [[(j & k & Hs & -> & Hm & -> & ->) _] | [-> [= -> ->]]].
      * exists j, k. destruct (carved_old j k Hs) as (E & Em & _ & Et). rewrite E, Em, Et, carved_cls by (by apply bucket_old; destruct Hs).
        split; [apply carved_slot; by left | done].
      * exists i0, 0. destruct (carved_new 0 ltac:(lia)) as (E & _ & Em). rewrite E, Em, E0, carved_cls_new. unfold Tag. rewrite (cv_tag _ _ _ _ _ C).
        split; [apply carved_slot; right; split; [done | lia] | done].
  - rewrite (cv_pages _ _ _ _ _ C). setoid_rewrite carved_bucket. split.
    + intros (j & -> & Hr & Hnb). left. split; [exists j; tauto |]. unfold pool_va. intros E. apply Hnb. right. lia.
    + intros [[(j & -> & Hr & Hnb) Hne] | [_ [=]]]. exists j. split; [done |]. split; [done |]. intros [? | ->]; done.
Qed.

Lemma carved_ok : (forall e, e ∈ NxpBigTable p -> BVa e = pool_va i0 -> False) -> (forall c', class_ok c' -> exists l, list_of p' c' l) -> pool_ok p'.
Proof.
  intros Nv L. constructor.
  - rewrite (cv_pages _ _ _ _ _ C). apply O.
  - rewrite (cv_map _ _ _ _ _ C). apply O.
  - intros j Hb. rewrite (cv_pages _ _ _ _ _ C), (cv_state _ _ _ _ _ C). apply carved_bucket in Hb as [Hb | ->].
    + pose proof (bucket_old j Hb) as Hj. rewrite decide_False, carved_cls by done. destruct (po_bucket _ O j Hb) as (? & ? & Es).
      split; [done |]. split; [done |]. rewrite Es. unfold live_count. rewrite carved_cls by done. f_equal. f_equal.
      apply filter_ext_in. intros k Hk%elem_of_seqZ. destruct (carved_old j k ltac:(split; [done | lia])) as (-> & -> & _). done.
    + rewrite decide_True, carved_cls_new, carved_count by done. done.
  - intros j k Hs. apply carved_slot in Hs as [Hs | [-> Hk]].
    + destruct (carved_old j k Hs) as (-> & -> & -> & _). rewrite carved_cls by (by apply bucket_old; destruct Hs). by apply (po_block _ O).
    + destruct (carved_new k Hk) as (-> & -> & ->). rewrite carved_cls_new. split; [done |]. case_decide; auto.
  - exact L.
  - rewrite (cv_big _ _ _ _ _ C), (cv_pages _ _ _ _ _ C). intros e He Hz. destruct (po_big _ O e He Hz) as (j & Ej & Hn & ?).
    exists j. split; [done |]. split; [| done]. intros [? | ->]%carved_bucket; [done |]. by apply (Nv e).
  - rewrite (cv_big _ _ _ _ _ C). apply O.
Qed.
End carved.

Lemma fresh_page_spec p i0 c t : pool_ok p -> class_ok c -> pages_runs (pages p) !! i0 = Some 1 -> ~ bucket p i0 ->
  (forall e, e ∈ NxpBigTable p -> BVa e = pool_va i0 -> False) ->
  let p' := write_header (pool_va i0) t c (carve_page (Z.to_nat (4096 / csize c - 1)) 1 (pool_va i0) (csize c) c (set_state i0 1 p)) in
  pool_ok p' /\ (forall a, ~ (pool_va i0 <= a < pool_va i0 + 4096) -> rd (heap p') a = rd (heap p) a) /\
  (forall x d, live p' x d <-> (live p x d /\ x <> pool_va i0) \/ (x = pool_va i0 + HEADER_SIZE /\ d = Small c t)).
Proof.
  intros O Hc Run Nb Nv p'. destruct (pages_bound _ _ _ (po_pages _ O) Run) as (Hi0 & _ & Hi1).
  assert (Hi : 0 <= i0 < NXPP_PAGES) by lia. destruct (class_cases c Hc) as (m & Em & Hn & Hn1 & Hm & _). fold (nblocks c) in p'.
  destruct (po_list _ O c Hc) as (l & Fl & N & El).
  assert (Out : forall c' y, free_block p c' y -> ~ (pool_va i0 <= y < pool_va i0 + 4096) /\ exists m, y = 32 * m + 8).
  { intros c' y Hy. split; [| by destruct (free_block_aligned p c' y O Hy) as [m' ->]; exists m'].
    destruct Hy as (j & k & Hs & _ & -> & _). destruct (slot_bounds p j k O Hs) as (B1 & B2 & B3 & _).
    assert (j <> i0) by (intros ->; by destruct Hs). unfold HEADER_SIZE, pool_va in *. lia. }
  destruct (carve_chain (Z.to_nat (nblocks c - 1)) i0 1 c (set_state i0 1 p) l Hc ltac:(lia) Fl N) as ((l' & Fl' & N' & El') & W & K & Lo & Ep & Em' & Es & Eb).
  { intros y Hy%El. destruct (Out c y Hy) as [Ho Ha]. split; [done |]. intros j Hj E.
    destruct (hdr_bounds i0 c j Hc ltac:(lia)) as (? & ? & _). lia. }
  { lia. }
  rewrite Z2Nat.id in El', W, K by lia. set (q := carve_page _ _ _ _ _ _) in *. cbn [heap NxpPageState set_state NxpFreeLists pages NxpClassMap NxpBigTable] in K, Lo, Ep, Em', Es, Eb.
  pose proof (fun a => write_header_heap (pool_va i0) t c q a Hc) as Hh. fold p' in Hh.
  assert (E0 : hdr i0 c 0 = pool_va i0) by (unfold hdr; lia).
  assert (E1 : hdr i0 c 1 = pool_va i0 + csize c) by (unfold hdr; lia).
  assert (En : hdr i0 c (1 + (nblocks c - 1)) = pool_va i0 + 4096) by (unfold hdr; lia).
  assert (Hk : forall k, 1 <= k < nblocks c -> pool_va i0 + 32 <= hdr i0 c k) by (intros k Hk; unfold hdr; nia).
  assert (C : carved p p' i0 c t).
  { constructor; try done.
    - intros j. unfold p', write_header. cbn [NxpPageState set_Magic set_ClassIndex set_Tag store]. rewrite Es. apply rd_insert.
    - intros a Ha. rewrite Hh, !decide_False by lia. apply K. lia.
    - rewrite Hh, decide_False, decide_True by lia. done.
    - rewrite E0, Hh, decide_True by done. done.
    - intros k Hk1. specialize (Hk k Hk1). rewrite Hh, !decide_False by lia. apply W. lia. }
  split; [| split; [apply (cv_out _ _ _ _ _ C) | apply (carved_live p p' i0 c t O Hc Hi Nb C)]].
  apply (carved_ok p p' i0 c t O Hc Hi Nb Run C Nv). intros c' Hc'. destruct (decide (c' = c)) as [-> | Hne].
  - exists l'. split; [| split; [done |]].
    + change (NxpFreeLists p') with (NxpFreeLists q). eapply flist_ext; [| exact Fl']. intros y [Hy%El | (j & Hj & ->)]%El'.
      * destruct (Out c y Hy). rewrite Hh, !decide_False by lia. done.
      * specialize (Hk j ltac:(lia)). rewrite Hh, !decide_False by lia. done.
    + intros b. rewrite (carved_free p p' i0 c t O Hc Hi Nb C), El', El. intuition.
  - destruct (po_list _ O c' Hc') as (l2 & Fl2 & N2 & El2). exists l2. split; [| split; [done |]].
    + change (NxpFreeLists p') with (NxpFreeLists q). rewrite Lo by done. eapply flist_ext; [| exact Fl2]. intros y Hy%El2. apply (cv_out _ _ _ _ _ C). by apply (Out c').
    + intros b. rewrite (carved_free p p' i0 c t O Hc Hi Nb C), El2. intuition.
Qed.

(** ** Reclaim *)

(** Everything but the links of free blocks and the list heads. *)
Definition same_fields p p' : Prop :=
  pages p' = pages p /\ NxpClassMap p' = NxpClassMap p /\ NxpPageState p' = NxpPageState p /\ NxpBigTable p' = NxpBigTable p.

Lemma unlink_spec n c PageVa : forall link p l, (length l < n)%nat -> NoDup l -> flist (heap p) (get_link c link p) l ->
  (forall b, link = Some b -> b ∉ l) ->
  exists p', unlink_page n c PageVa link p = Some p' /\
    flist (heap p') (get_link c link p') (filter (fun b => PAGE_ALIGN b <> PageVa) l) /\
    (forall a, a ∉ l -> link <> Some a -> rd (heap p') a = rd (heap p) a) /\
    (forall c', (link = None -> c' <> c) -> rd (NxpFreeLists p') c' = rd (NxpFreeLists p) c') /\ same_fields p p'.
Proof.
  induction n as [|n IH]; intros link p l Hn N Fl Hl; [lia |]. cbn [unlink_page]. destruct l as [|b l].
  { cbn [flist] in Fl. rewrite Fl. exists p. cbn [Z.eqb filter]. by repeat split. }
  destruct Fl as (Eg & Hb & Fl). rewrite Eg. apply NoDup_cons in N as [Nb N]. cbn [length] in Hn.
  destruct (Z.eqb_spec b 0) as [? | _]; [done |]. destruct (Z.eqb_spec (PAGE_ALIGN b) PageVa) as [Ep | Ep].
  - rewrite filter_cons_False by tauto. set (p1 := set_link c link (Next p b) p).
    assert (H1 : forall a, link <> Some a -> rd (heap p1) a = rd (heap p) a).
    { intros a Ha. unfold p1. destruct link as [b0|]; [apply rd_insert_ne; congruence | done]. }
    assert (Hl' : forall b0, link = Some b0 -> b0 ∉ l) by (intros b0 E Hin; apply (Hl b0 E); by apply list_elem_of_further).
    destruct (IH link p1 l ltac:(lia) N) as (p' & E & F' & K & Lo & Sf); [| done |].
    { replace (get_link c link p1) with (Next p b) by (unfold p1; destruct link; symmetry; apply rd_insert_eq).
      eapply flist_ext; [| exact Fl]. intros y Hy. apply H1. intros E. by apply (Hl' y E). }
    exists p'. split; [done |]. split; [done |]. split; [| split].
    + intros a Ha Hne. rewrite K; [by apply H1 | | done]. intros Hin. apply Ha. by apply list_elem_of_further.
    + intros c' Hc'. rewrite Lo by done. unfold p1. destruct link as [b0|]; [done |]. apply rd_insert_ne. intros ->. by apply Hc'.
    + unfold p1 in Sf. by destruct link.
  - rewrite filter_cons_True by done. destruct (IH (Some b) p l ltac:(lia) N Fl) as (p' & E & F' & K & Lo & Sf); [intros b0 [= <-]; done |].
    exists p'. split; [done |].
    assert (Eg' : get_link c link p' = b).
    { rewrite <- Eg. destruct link as [b0|] eqn:El; cbn [get_link]; [apply K | by apply Lo].
      - intros Hin. apply (Hl b0 eq_refl). by apply list_elem_of_further.
      - intros [= <-]. apply (Hl b eq_refl), list_elem_of_here. }
    split; [by rewrite Eg' |]. split; [| split; [| done]].
    + intros a [Hne Ha]%not_elem_of_cons _. apply K; [done | congruence].
    + intros c' _. by apply Lo.
Qed.

(** The blocks of a list have headers in memory, so its length is below the
    memory's size. *)
Lemma list_length p c l : pool_ok p -> list_of p c l -> (length l < walk_fuel p)%nat.
Proof.
  intros O (_ & N & El). unfold walk_fuel. apply Nat.lt_succ_r.
  assert (Hs : (list_to_set (map (fun b => b - 4) l) : gset Z) ⊆ dom (heap p)).
  { intros a Ha. apply elem_of_list_to_set, list_elem_of_In, in_map_iff in Ha as (b & <- & Hb). apply list_elem_of_In, El in Hb.
    destruct Hb as (i & k & _ & _ & -> & Hm). unfold Magic in Hm. unfold HEADER_SIZE. replace (head p i k + 8 - 4) with (head p i k + 4) by lia.
    apply elem_of_dom. destruct (heap p !! (head p i k + 4)) eqn:E; [done |]. unfold rd in Hm. rewrite E in Hm. discriminate Hm. }
  apply subseteq_size in Hs. rewrite size_list_to_set, length_map, size_dom in Hs; [done |]. apply NoDup_fmap_2; [intros x y; lia | done].
Qed.

(** [p'] is [p] without the empty bucket page [i0]. *)
Record emptied p p' i0 : Prop := {
  em_ok : pages_ok (pages p');
  em_runs : pages_runs (pages p') = delete i0 (pages_runs (pages p));
  em_map : NxpClassMap p' = NxpClassMap p;
  em_big : NxpBigTable p' = NxpBigTable p;
  em_state : forall j, rd (NxpPageState p') j = if decide (i0 = j) then NXP_NOT_BUCKET else rd (NxpPageState p) j;
  em_words : forall m, rd (heap p') (32 * m) = rd (heap p) (32 * m) /\ rd (heap p') (32 * m + 4) = rd (heap p) (32 * m + 4)
}.

Section emptied.
Context p p' i0 (O : pool_ok p) (Bk : bucket p i0) (Em : live_count p i0 = 0) (E : emptied p p' i0).

Lemma emptied_fields h : (exists m, h = 32 * m) -> ClassIndex p' h = ClassIndex p h /\ Magic p' h = Magic p h /\ Tag p' h = Tag p h.
Proof. intros [m ->]. destruct (em_words _ _ _ E m) as [E1 E2]. unfold ClassIndex, Magic, Tag. by rewrite E1, E2. Qed.

Lemma emptied_cls j : cls p' j = cls p j.
Proof. apply emptied_fields, pool_va_aligned. Qed.

Lemma emptied_head j k : head p' j k = head p j k.
Proof. unfold head. by rewrite emptied_cls. Qed.

Lemma emptied_bucket j : bucket p' j <-> bucket p j /\ j <> i0.
Proof. unfold bucket. rewrite (em_state _ _ _ E). case_decide as Hd; [subst j; unfold NXP_NOT_BUCKET in *; intuition lia | intuition congruence]. Qed.

Lemma emptied_slot j k : bslot p' j k <-> bslot p j k /\ j <> i0.
Proof. unfold bslot. rewrite emptied_bucket, emptied_cls. tauto. Qed.

Lemma emptied_slot_fields j k : bslot p j k ->
  ClassIndex p' (head p j k) = ClassIndex p (head p j k) /\ Magic p' (head p j k) = Magic p (head p j k) /\ Tag p' (head p j k) = Tag p (head p j k).
Proof. intros Hs. apply emptied_fields. by destruct (slot_bounds p j k O Hs) as (_ & _ & _ & ?). Qed.

Lemma emptied_all_free k : bslot p i0 k -> Magic p (head p i0 k) <> NXP_MAGIC_ALLOC.
Proof. intros [_ Hk] Hm. pose proof (live_count_pos p i0 k Hk Hm). lia. Qed.

Lemma emptied_live x d : live p' x d <-> live p x d.
Proof.
  destruct d as [c t | n]; cbn [live].
  - setoid_rewrite emptied_slot. setoid_rewrite emptied_cls. setoid_rewrite emptied_head. split.
    + intros (j & k & [Hs Hj] & -> & Hm & -> & ->). destruct (emptied_slot_fields j k Hs) as (_ & E1 & E2). rewrite E1 in Hm. rewrite E2. by exists j, k.
    + intros (j & k & Hs & -> & Hm & -> & ->). exists j, k. destruct (emptied_slot_fields j k Hs) as (_ & -> & ->).
      split; [split; [done |] | done]. intros ->. by apply (emptied_all_free k).
  - rewrite (em_runs _ _ _ E). setoid_rewrite emptied_bucket. setoid_rewrite lookup_delete_Some. split.
    + intros (j & -> & [Hne Hr] & Hn). exists j. split; [done |]. split; [done |]. intros Hb. apply Hn. split; [done | congruence].
    + intros (j & -> & Hr & Hn). exists j. split; [done |]. split; [split; [intros ->; done | done] |]. tauto.
Qed.

Lemma emptied_free c b : free_block p' c b <-> free_block p c b /\ PAGE_ALIGN b <> pool_va i0.
Proof.
  unfold free_block. setoid_rewrite emptied_slot. setoid_rewrite emptied_cls. setoid_rewrite emptied_head.
  assert (Pa : forall j k, bslot p j k -> PAGE_ALIGN (head p j k + HEADER_SIZE) = pool_va j).
  { intros j k Hs. destruct (slot_bounds p j k O Hs) as (? & ? & ? & _). apply page_align; [apply (slot_class p j k O Hs) | unfold HEADER_SIZE; lia]. }
  split.
  - intros (j & k & [Hs Hj] & <- & -> & Hm). rewrite (proj1 (proj2 (emptied_slot_fields j k Hs))) in Hm. split; [by exists j, k |].
    rewrite Pa by done. unfold pool_va. lia.
  - intros [(j & k & Hs & <- & -> & Hm) Hp]. rewrite Pa in Hp by done. exists j, k. rewrite (proj1 (proj2 (emptied_slot_fields j k Hs))).
    split; [split; [done | congruence] | done].
Qed.

Lemma emptied_pool : (forall c, class_ok c -> exists l, list_of p' c l) -> pool_ok p'.
Proof.
  intros L. constructor.
  - apply E.
  - rewrite (em_map _ _ _ E). apply O.
  - intros j [Hb Hj]%emptied_bucket. rewrite (em_runs _ _ _ E), lookup_delete_ne, emptied_cls, (em_state _ _ _ E), decide_False by congruence.
    destruct (po_bucket _ O j Hb) as (? & ? & Es). split; [done |]. split; [done |]. rewrite Es. unfold live_count. rewrite emptied_cls. f_equal. f_equal.
    apply filter_ext_in. intros k Hk%elem_of_seqZ. rewrite emptied_head. destruct (emptied_slot_fields j k ltac:(split; [done | lia])) as (_ & -> & _). done.
  - intros j k [Hs _]%emptied_slot. rewrite emptied_head, emptied_cls. destruct (emptied_slot_fields j k Hs) as (-> & -> & _). by apply (po_block _ O).
  - exact L.
  - rewrite (em_big _ _ _ E), (em_runs _ _ _ E). intros e He Hz. destruct (po_big _ O e He Hz) as (j & Ej & Hn & Hr).
    exists j. split; [done |]. rewrite emptied_bucket. split; [tauto |]. rewrite lookup_delete_ne; [done |]. intros <-. done.
  - rewrite (em_big _ _ _ E). apply O.
Qed.
End emptied.

(** What the holders of live blocks see: their contents. *)
Definition contents_kept p p' : Prop := forall b d a, live p b d -> b <= a < b + usize d -> rd (heap p') a = rd (heap p) a.

Lemma contents_words p p' : pool_ok p -> words_kept p p' -> contents_kept p p'.
Proof. intros O K b d a L Ha. apply K. by eapply live_no_pool_word. Qed.

Lemma contents_trans p p1 p2 : contents_kept p p1 -> (forall b d, live p b d -> live p1 b d) -> contents_kept p1 p2 -> contents_kept p p2.
Proof. intros K1 L K2 b d a Hl Ha. rewrite (K2 b d a (L b d Hl) Ha). by eapply K1. Qed.

Definition same_live p p' : Prop := forall x d, live p' x d <-> live p x d.

Lemma reclaim_page_spec p i : pool_ok p -> 0 <= i < NXPP_PAGES ->
  exists p', reclaim_page i p = Some (bool_decide (rd (NxpPageState p) i = 0), p') /\ pool_ok p' /\ contents_kept p p' /\ same_live p p' /\
    (forall j, rd (NxpPageState p') j = if decide (i = j /\ rd (NxpPageState p) i = 0) then NXP_NOT_BUCKET else rd (NxpPageState p) j) /\
    (forall j, (rd (NxpPageState p) i = 0 -> j <> i) -> pages_runs (pages p') !! j = pages_runs (pages p) !! j).
Proof.
  intros O Hi. unfold reclaim_page. destruct (Z.eqb_spec (rd (NxpPageState p) i) 0) as [Ez | Ez]; cbn [negb].
  2: { exists p. rewrite bool_decide_false by done. split; [done |]. split; [done |]. split; [done |]. split; [done |]. split; [| done].
       intros j. rewrite decide_False by tauto. done. }
  rewrite bool_decide_true by done. assert (Bk : bucket p i) by (split; [done | rewrite Ez; unfold NXP_NOT_BUCKET; lia]).
  destruct (po_bucket _ O i Bk) as (Run & Hc & Es). replace (NXPP_BASE + i * 4096) with (pool_va i) by (unfold pool_va; lia).
  fold (cls p i). set (c := cls p i) in *. destruct (po_list _ O c Hc) as (l & Fl & N & El).
  pose proof (list_length p c l O (conj Fl (conj N El))) as Hlen.
  destruct (unlink_spec (walk_fuel p) c (pool_va i) None p l Hlen N Fl ltac:(done)) as (p1 & -> & F1 & K1 & Lo & Ep & Emp & Est & Ebg).
  cbn [pages set_state with_pages]. rewrite Ep. destruct (pages_free_law _ _ _ (po_pages _ O) Run) as (s' & Ef & Os & Er). fold (pool_va i) in Ef. rewrite Ef. cbn [snd].
  set (p' := with_pages s' (set_state i NXP_NOT_BUCKET p1)).
  assert (Al : forall y c', free_block p c' y -> exists m, y = 32 * m + 8) by (intros y c' Hy; by apply (free_block_aligned p c' y O)).
  assert (E : emptied p p' i).
  { constructor; try done.
    - intros j. unfold p'. cbn [NxpPageState with_pages set_state]. rewrite rd_insert, Est. done.
    - intros m. change (heap p') with (heap p1). split; (rewrite K1; [done | | done]); intros Hin%El; destruct (Al _ _ Hin); lia. }
  assert (E0 : live_count p i = 0) by congruence.
  exists p'. split; [done |]. split; [apply (emptied_pool p p' i O Bk E) |].
  - intros c' Hc'. destruct (decide (c' = c)) as [-> | Hne].
    + exists (filter (fun b => PAGE_ALIGN b <> pool_va i) l). split; [exact F1 |]. split; [by apply NoDup_filter |].
      intros b. rewrite list_elem_of_filter, El, (emptied_free p p' i O E). tauto.
    + destruct (po_list _ O c' Hc') as (l2 & Fl2 & N2 & El2). exists l2. split; [| split; [done |]].
      * change (rd (NxpFreeLists p') c') with (rd (NxpFreeLists p1) c'). rewrite Lo by done. eapply flist_ext; [| exact Fl2].
        intros y Hy%El2. apply K1; [| done]. intros Hy2%El. by apply Hne, (free_block_class p c' c y).
      * intros b. rewrite (emptied_free p p' i O E), El2. split; [| tauto]. intros Hf. split; [done |]. intros Hp.
        destruct Hf as (j & k & Hs & <- & -> & _). apply Hne. destruct (slot_bounds p j k O Hs) as (? & ? & ? & _).
        rewrite (page_align j) in Hp; [| apply (slot_class p j k O Hs) | unfold HEADER_SIZE; lia].
        unfold c. f_equal. unfold pool_va in Hp. lia.
  - split; [| split; [intros x d; apply (emptied_live p p' i O Bk E0 E) | split]].
    + apply contents_words; [done |]. intros a Ha. change (heap p') with (heap p1). apply K1; [| done].
      intros (j & k & Hs & _ & -> & Hm)%El. apply Ha. left. exists j, k. auto.
    + intros j. rewrite (em_state _ _ _ E). repeat case_decide; tauto.
    + intros j Hj. rewrite (em_runs _ _ _ E). apply lookup_delete_ne. intros <-. by apply Hj.
Qed.

(** No bucket page stands empty. *)
Definition no_empty p : Prop := forall i, 0 <= i < NXPP_PAGES -> rd (NxpPageState p) i <> 0.

Definition empty_from p i (n : nat) : Z := Z.of_nat (length (filter (fun j => rd (NxpPageState p) j = 0) (seqZ i (Z.of_nat n)))).

Lemma reclaim_pages_spec n : forall i F p, pool_ok p -> 0 <= i -> i + Z.of_nat n <= NXPP_PAGES -> 0 <= F <= i ->
  exists p', reclaim_pages n i F p = Some (F + empty_from p i n, p') /\ pool_ok p' /\ contents_kept p p' /\ same_live p p' /\
    (forall j, rd (NxpPageState p') j = if decide (i <= j < i + Z.of_nat n /\ rd (NxpPageState p) j = 0) then NXP_NOT_BUCKET else rd (NxpPageState p) j) /\
    (empty_from p i n = 0 -> pages_runs (pages p') = pages_runs (pages p)).
Proof.
  induction n as [|n IH]; intros i F p O Hi Hn HF; cbn [reclaim_pages].
  { exists p. unfold empty_from. cbn. rewrite Z.add_0_r. split; [done |]. split; [done |]. split; [done |]. split; [done |]. split; [| done].
    intros j. rewrite decide_False by lia. done. }
  destruct (reclaim_page_spec p i O ltac:(lia)) as (p1 & -> & O1 & K1 & L1 & S1 & R1).
  assert (Ee : empty_from p i (S n) = (if bool_decide (rd (NxpPageState p) i = 0) then 1 else 0) + empty_from p1 (i + 1) n).
  { unfold empty_from. rewrite (seqZ_cons i) by lia. replace (Z.pred (Z.of_nat (S n))) with (Z.of_nat n) by lia. rewrite filter_cons.
    rewrite (filter_ext_in (fun j => rd (NxpPageState p) j = 0) (fun j => rd (NxpPageState p1) j = 0) (seqZ (Z.succ i) (Z.of_nat n))).
    - replace (Z.succ i) with (i + 1) by lia. destruct (decide (rd (NxpPageState p) i = 0)).
      + rewrite bool_decide_true by done. cbn [length]. lia.
      + rewrite bool_decide_false by done. lia.
    - intros j Hj%elem_of_seqZ. rewrite S1, decide_False by lia. done. }
  set (b := bool_decide (rd (NxpPageState p) i = 0)) in *.
  assert (EF : (if b then add32 F 1 else F) = F + (if b then 1 else 0)) by (unfold NXPP_PAGES in *; destruct b; [apply add32_id |]; lia).
  rewrite EF. destruct (IH (i + 1) (F + (if b then 1 else 0)) p1 O1 ltac:(lia) ltac:(lia) ltac:(destruct b; lia)) as (p' & -> & O' & K' & L' & S' & R').
  exists p'. rewrite Ee. split; [f_equal; f_equal; lia |]. split; [done |]. split; [| split; [| split]].
  - eapply contents_trans; [exact K1 | | exact K']. intros x d Hl. by apply L1.
  - intros x d. by rewrite (L' x d).
  - intros j. rewrite S'. destruct (decide (i = j)) as [<- | Hne].
    + rewrite decide_False, S1 by lia. apply decide_ext. lia.
    + assert (rd (NxpPageState p1) j = rd (NxpPageState p) j) as -> by (rewrite S1, decide_False by tauto; done). apply decide_ext. lia.
  - intros Hz. assert (0 <= empty_from p1 (i + 1) n) by (unfold empty_from; lia). destruct b eqn:Eb; [lia |]. rewrite R' by lia.
    apply map_eq. intros j. apply R1. unfold b in Eb. apply bool_decide_eq_false in Eb. done.
Qed.

Lemma reclaim_spec p : pool_ok p ->
  exists p', NxpReclaimEmptyBucketPages p = Some (empty_from p 0 (Z.to_nat NXPP_PAGES), p') /\ pool_ok p' /\ contents_kept p p' /\ same_live p p' /\
    no_empty p' /\ (empty_from p 0 (Z.to_nat NXPP_PAGES) = 0 -> pages_runs (pages p') = pages_runs (pages p)).
Proof.
  intros O. destruct (reclaim_pages_spec (Z.to_nat NXPP_PAGES) 0 0 p O ltac:(lia) ltac:(unfold NXPP_PAGES; lia) ltac:(lia)) as (p' & E & O' & K & L & S' & R).
  rewrite Z.add_0_l in E. exists p'. split; [exact E |]. split; [done |]. split; [done |]. split; [done |]. split; [| exact R].
  intros j Hj. rewrite S'. case_decide as Hd; [unfold NXP_NOT_BUCKET; lia |]. intros E0. apply Hd. split; [lia | done].
Qed.

(** ** Whole-page requests *)

Lemma with_pages_ok p s : pool_ok p -> pages_ok s -> pages_runs s = pages_runs (pages p) -> pool_ok (with_pages s p) /\ same_live p (with_pages s p).
Proof.
  intros O Os Er. split.
  - constructor; [exact Os | apply (po_map _ O) | | apply (po_block _ O) | apply (po_list _ O) | | apply (po_big_once _ O)]; cbn [pages with_pages NxpBigTable].
    + intros j Hb. rewrite Er. by apply (po_bucket _ O).
    + intros e He Hz. rewrite Er. by apply (po_big _ O).
  - intros x [c t | n]; [done |]. cbn [live pages with_pages]. by rewrite Er.
Qed.

(** The page layer, with the runs of [p], refuses the request, and no empty
    bucket page is left to give back. *)
Definition refused Bytes p : Prop :=
  no_empty p /\ exists s s', pages_ok s /\ pages_runs s = pages_runs (pages p) /\ pages_alloc s Bytes = Some (0, s').

(** Page [i] starts a run of [n] pages that nobody knows of yet. *)
Definition fresh_run p i n : Prop :=
  pages_runs (pages p) !! i = Some n /\ ~ bucket p i /\ forall e, e ∈ NxpBigTable p -> BVa e = pool_va i -> False.

Lemma pool_va_nonzero i : 0 <= i -> pool_va i <> 0.
Proof. unfold pool_va, NXPP_BASE. lia. Qed.

(** One request to the page layer. *)
Lemma ask_spec p Bytes : pool_ok p -> 0 < Bytes < 2 ^ 32 -> let n := (Bytes + 4095) / 4096 in
  exists r s, pages_alloc (pages p) Bytes = Some (r, s) /\ let p' := with_pages s p in pool_ok p' /\
    ((r = 0 /\ same_live p p' /\ pages_runs s = pages_runs (pages p)) \/
     exists i, r = pool_va i /\ r <> 0 /\ fresh_run p' i n /\ (forall d, ~ live p (pool_va i) d) /\ forall x d, live p' x d <-> live p x d \/ x = pool_va i /\ d = Big n).
Proof.
  intros O Hb n. destruct (pages_alloc_law (pages p) Bytes (po_pages _ O) Hb) as (r & s & E & Os & Hr). exists r, s. split; [done |].
  destruct Hr as [[-> Er] | (i & -> & V & Er)].
  - destruct (with_pages_ok p s O Os Er). split; [done |]. by left.
  - fold n in V, Er. destruct (bytes_to_pages Bytes Hb) as [_ Hn]. fold n in Hn.
    destruct (grow_spec p s i n O Os ltac:(lia) V Er) as (O' & Nb & Nv & Nl & L). split; [done |]. right. exists i. fold (pool_va i).
    split; [done |]. split; [apply pool_va_nonzero; by destruct V |]. split; [| done]. split; [| done]. cbn [pages with_pages]. by rewrite Er, lookup_insert_eq.
Qed.

Lemma take_pages_spec p Bytes : pool_ok p -> 0 < Bytes < 2 ^ 32 -> let n := (Bytes + 4095) / 4096 in
  exists r p', take_pages Bytes p = Some (r, p') /\ pool_ok p' /\ contents_kept p p' /\
    ((r = 0 /\ same_live p p' /\ refused Bytes p') \/
     exists i, r = pool_va i /\ r <> 0 /\ fresh_run p' i n /\ (forall d, ~ live p (pool_va i) d) /\ forall x d, live p' x d <-> live p x d \/ x = pool_va i /\ d = Big n).
Proof.
  intros O Hb n. unfold take_pages. destruct (ask_spec p Bytes O Hb) as (r & s & Es & O1 & Hr). rewrite Es. set (p1 := with_pages s p) in *.
  destruct Hr as [(-> & L1 & R1) | (i & -> & Hnz & Fr & L)].
  2: { destruct (Z.eqb_spec (pool_va i) 0); [done |]. eexists _, _. split; [reflexivity |]. split; [done |]. split; [done |]. right. by exists i. }
  cbn [Z.eqb negb]. destruct (reclaim_spec p1 O1) as (p2 & -> & O2 & K2 & L2 & Ne & R2).
  assert (K : contents_kept p p2) by (intros b d a Hl Ha; apply (K2 b d a); [by apply L1 | done]).
  assert (L : same_live p p2) by (intros x d; rewrite (L2 x d); apply L1).
  destruct (Z.eqb_spec (empty_from p1 0 (Z.to_nat NXPP_PAGES)) 0) as [E0 | E0].
  - exists 0, p2. split; [done |]. split; [done |]. split; [done |]. left. split; [done |]. split; [done |]. split; [done |].
    exists (pages p), s. split; [apply (po_pages _ O) |]. split; [| done]. rewrite R2 by done. by symmetry.
  - destruct (ask_spec p2 Bytes O2 Hb) as (r & s2 & Es2 & O3 & Hr). rewrite Es2. eexists _, _. split; [reflexivity |]. split; [done |]. split; [exact K |].
    destruct Hr as [(-> & L3 & R3) | (i & -> & Hnz & Fr & L3)].
    + left. split; [done |]. split; [intros x d; rewrite (L3 x d); apply L |]. split; [exact Ne |]. exists (pages p2), s2.
      split; [apply (po_pages _ O2) |]. split; [by symmetry | done].
    + destruct L3 as [Nl L3]. right. exists i. split; [done |]. split; [done |]. split; [done |]. split; [intros d; rewrite <- (L _ d); apply Nl |].
      intros x d. rewrite (L3 x d), (L x d). done.
Qed.

(** No two live blocks overlap. *)
Lemma live_apart p x d y e : pool_ok p -> live p x d -> live p y e -> x <> y -> x + usize d <= y \/ y + usize e <= x.
Proof.
  intros O. assert (W : forall x c t y n, live p x (Small c t) -> live p y (Big n) -> x + (csize c - HEADER_SIZE) <= y \/ y + 4096 * n <= x).
  { intros x0 c t y0 n (i & k & Hs & -> & _ & -> & _) (j & -> & Hr & Hn). destruct (slot_bounds p i k O Hs) as (B1 & B2 & B3 & _).
    destruct (slot_class p i k O Hs) as (_ & _ & Run & _). destruct (pages_bound _ _ _ (po_pages _ O) Hr) as (_ & Hn0 & _).
    assert (i <> j) by (intros ->; by destruct Hs). destruct (Z.lt_ge_cases i j) as [Hl | Hl].
    - pose proof (pages_apart _ _ _ _ _ (po_pages _ O) Run Hr Hl). left. unfold pool_va, HEADER_SIZE in *. lia.
    - pose proof (pages_apart _ _ _ _ _ (po_pages _ O) Hr Run ltac:(lia)). right. unfold pool_va, HEADER_SIZE in *. lia. }
  destruct d as [c t | n], e as [c' t' | n']; cbn [usize].
  - intros (i & k & Hs & -> & _ & -> & _) (i' & k' & Hs' & -> & _ & -> & _) Hne. unfold HEADER_SIZE.
    destruct (slots_apart p i k i' k' O Hs Hs') as [[-> ->] | ?]; [done | lia].
  - intros Hx Hy _. by eapply W.
  - intros Hx Hy _. destruct (W _ _ _ _ _ Hy Hx); auto.
  - intros (i & -> & Hr & _) (j & -> & Hr' & _) Hne. destruct (Z.lt_trichotomy i j) as [Hl | [-> | Hl]]; [| done |].
    + pose proof (pages_apart _ _ _ _ _ (po_pages _ O) Hr Hr' Hl). left. unfold pool_va. lia.
    + pose proof (pages_apart _ _ _ _ _ (po_pages _ O) Hr' Hr Hl). right. unfold pool_va. lia.
Qed.

Lemma usize_pos p x d : pool_ok p -> live p x d -> 0 < usize d.
Proof.
  intros O. destruct d as [c t | n]; cbn [usize].
  - intros (i & k & Hs & _ & _ & -> & _). destruct (slot_bounds p i k O Hs) as (_ & _ & ? & _). unfold HEADER_SIZE. lia.
  - intros (i & _ & Hr & _). destruct (pages_bound _ _ _ (po_pages _ O) Hr) as (_ & ? & _). lia.
Qed.

Lemma free_not_live p c b d : pool_ok p -> free_block p c b -> ~ live p b d.
Proof.
  intros O (i & k & Hs & _ & -> & Hm). destruct (slot_bounds p i k O Hs) as (_ & _ & _ & m & Em). destruct d as [c' t | n]; cbn [live].
  - intros (j & k' & Hs' & E & Ha & _). destruct (slot_inj p i k j k' O Hs Hs' ltac:(lia)) as [-> ->]. rewrite Hm in Ha. discriminate Ha.
  - intros (j & E & _). destruct (pool_va_aligned j) as [m' Ej]. unfold HEADER_SIZE in E. lia.
Qed.

(** ** Size classes *)

Definition class_for (NumberOfBytes : Z) : Z := request_class (class_map 257 0 0) NumberOfBytes.

Lemma class_map_check : forallb (fun u => let c := nth u (class_map 257 0 0) 0 in
  (0 <=? c) && (c <? NXP_CLASSES) && (16 * Z.of_nat u <=? csize c) && ((c =? 0) || (csize (c - 1) <? 16 * Z.of_nat u))) (seq 0 129) = true.
Proof. vm_compute. reflexivity. Qed.

Lemma class_for_spec n : 0 <= n <= NXP_SMALL_MAX ->
  class_ok (class_for n) /\ n + HEADER_SIZE <= csize (class_for n) /\
  forall c, 0 <= c < class_for n -> csize c < Z.max 1 n + HEADER_SIZE.
Proof.
  unfold NXP_SMALL_MAX. intros Hn. unfold class_for, request_class, HEADER_SIZE. cbv zeta. set (B := (if n =? 0 then 1 else n) + 8).
  assert (EB : B = Z.max 1 n + 8) by (unfold B; destruct (Z.eqb_spec n 0); lia). rewrite Z.shiftr_div_pow2 by lia. change (2 ^ 4) with 16.
  set (u := (B + 15) / 16). pose proof (Z.div_mod (B + 15) 16 ltac:(lia)) as D. pose proof (Z.mod_pos_bound (B + 15) 16 ltac:(lia)). fold u in D.
  pose proof class_map_check as Ck. rewrite forallb_forall in Ck. specialize (Ck (Z.to_nat u) ltac:(apply in_seq; lia)). cbv zeta in Ck.
  set (c := nth (Z.to_nat u) (class_map 257 0 0) 0) in *. rewrite Z2Nat.id in Ck by lia.
  assert (Hc : class_ok c) by (unfold class_ok; lia). split; [done |]. split; [lia |]. intros c' Hc'. rewrite <- EB.
  assert (csize (c - 1) < 16 * u) by (unfold class_ok in Hc; lia). assert (Hc1 : class_ok (c - 1)) by (unfold class_ok in *; lia).
  destruct (class_cases _ Hc1) as (m & Em & _). assert (csize c' <= csize (c - 1)); [| lia].
  apply csize_mono; unfold class_ok in *; lia.
Qed.

(** ** Allocation *)

(** How an allocation may fail, by the caller's flags. *)
Definition failure PoolType NumberOfBytes (o : outcome Z) : Prop :=
  match o with
  | Ret b => b = 0 /\ Z.land PoolType MUST_SUCCEED_POOL_MASK = 0 /\ Z.land PoolType POOL_RAISE_IF_ALLOCATION_FAILURE = 0
  | KeBugCheckEx Code P1 P2 P3 P4 =>
      (Code, P1, P2, P3, P4) = (MUST_SUCCEED_POOL_EMPTY, NumberOfBytes, 0, 0, 0) /\ Z.land PoolType MUST_SUCCEED_POOL_MASK <> 0
  | ExRaiseStatus Status =>
      Status = STATUS_INSUFFICIENT_RESOURCES /\ Z.land PoolType MUST_SUCCEED_POOL_MASK = 0 /\ Z.land PoolType POOL_RAISE_IF_ALLOCATION_FAILURE <> 0
  end.

Lemma NxpAllocFailed_spec PoolType NumberOfBytes : failure PoolType NumberOfBytes (NxpAllocFailed PoolType NumberOfBytes).
Proof.
  unfold NxpAllocFailed. destruct (Z.eqb_spec (Z.land PoolType MUST_SUCCEED_POOL_MASK) 0); [| done]. cbn [negb].
  by destruct (Z.eqb_spec (Z.land PoolType POOL_RAISE_IF_ALLOCATION_FAILURE) 0).
Qed.

(** The block a request gets. *)
Definition block_for NumberOfBytes Tag' : blk :=
  if NXP_SMALL_MAX <? NumberOfBytes then Big ((NumberOfBytes + 4095) / 4096) else Small (class_for NumberOfBytes) Tag'.

(** What the page layer is asked for. *)
Definition page_bytes NumberOfBytes : Z := if NXP_SMALL_MAX <? NumberOfBytes then NumberOfBytes else 4096.

Lemma block_for_fits n t : 0 <= n -> n <= usize (block_for n t).
Proof.
  intros Hn. unfold block_for. destruct (Z.ltb_spec NXP_SMALL_MAX n); cbn [usize].
  - pose proof (Z.div_mod (n + 4095) 4096 ltac:(lia)). pose proof (Z.mod_pos_bound (n + 4095) 4096 ltac:(lia)). lia.
  - destruct (class_for_spec n ltac:(lia)) as (_ & ? & _). lia.
Qed.

(** The outcome of an allocation call. *)
Definition allocates PoolType NumberOfBytes Tag' p (o : outcome Z) p' : Prop :=
  (failure PoolType NumberOfBytes o /\ same_live p p' /\ refused (page_bytes NumberOfBytes) p') \/
  exists b, o = Ret b /\ b <> 0 /\ (forall d, ~ live p b d) /\
    forall x d, live p' x d <-> live p x d \/ x = b /\ d = block_for NumberOfBytes Tag'.

Lemma big_alloc_spec PoolType n Tag' p : pool_ok p -> NXP_SMALL_MAX < n < 2 ^ 32 ->
  exists o p', ExAllocatePoolWithTag PoolType n Tag' p = Some (o, p') /\ pool_ok p' /\ contents_kept p p' /\ allocates PoolType n Tag' p o p'.
Proof.
  intros O Hn. assert (Hb : 0 < n < 2 ^ 32) by (unfold NXP_SMALL_MAX in Hn; lia).
  unfold ExAllocatePoolWithTag, allocates, page_bytes, block_for. destruct (Z.ltb_spec NXP_SMALL_MAX n); [| lia].
  destruct (take_pages_spec p n O Hb) as (r & p1 & -> & O1 & K1 & Hr). destruct Hr as [(-> & L1 & R1) | (i & -> & Hnz & Fr & Nl & L1)].
  - eexists _, _. split; [reflexivity |]. split; [done |]. split; [done |]. left. split; [apply NxpAllocFailed_spec | done].
  - destruct (Z.eqb_spec (pool_va i) 0); [done |]. destruct (bytes_to_pages n Hb) as [-> _]. destruct Fr as (Hr & Nb & Nv).
    set (t := big_insert _ _ _). destruct (set_big_ok p1 t O1) as [O2 L2].
    + apply once_big_insert; [exact (po_big_once _ O1) | done].
    + intros e [He | ->]%elem_of_big_insert Hz; [by apply (po_big _ O1) |]. by exists i.
    + eexists _, _. split; [reflexivity |]. split; [done |]. split; [done |]. right. exists (pool_va i). split; [done |]. split; [done |]. split.
      * exact Nl.
      * intros x d. by rewrite L2, L1.
Qed.

Lemma small_alloc_spec PoolType n Tag' p : pool_ok p -> 0 <= n <= NXP_SMALL_MAX ->
  exists o p', ExAllocatePoolWithTag PoolType n Tag' p = Some (o, p') /\ pool_ok p' /\ contents_kept p p' /\ allocates PoolType n Tag' p o p'.
Proof.
  intros O Hn. destruct (class_for_spec n Hn) as (Hc & _). set (c := class_for n) in *.
  unfold ExAllocatePoolWithTag, allocates, page_bytes, block_for. destruct (Z.ltb_spec NXP_SMALL_MAX n); [lia |].
  assert (Ec : request_class (NxpClassMap p) n = c) by (rewrite (po_map _ O); reflexivity). rewrite Ec. destruct (Z.eqb_spec (rd (NxpFreeLists p) c) 0) as [E0 | E0]; cbn [negb].
  - destruct (take_pages_spec p 4096 O ltac:(lia)) as (r & p1 & -> & O1 & K1 & Hr). destruct Hr as [(-> & L1 & R1) | (i & -> & Hnz & Fr & Nl & L1)].
    { eexists _, _. split; [reflexivity |]. split; [done |]. split; [done |]. left. split; [apply NxpAllocFailed_spec | done]. }
    destruct (Z.eqb_spec (pool_va i) 0); [done |]. change ((4096 + 4095) / 4096) with 1 in *. destruct Fr as (Hr & Nb & Nv).
    destruct (pages_bound _ _ _ (po_pages _ O1) Hr) as (Hi & _ & Hi1). rewrite (page_index i) by lia.
    replace (pool_va i + HEADER_SIZE - HEADER_SIZE) with (pool_va i) by lia.
    destruct (fresh_page_spec p1 i c Tag' O1 Hc Hr Nb Nv) as (O2 & K2 & L2).
    eexists _, _. split; [reflexivity |]. split; [done |]. split; [| right; exists (pool_va i + HEADER_SIZE); split; [done |]; split; [unfold HEADER_SIZE, pool_va, NXPP_BASE; lia |]; split].
    + intros b d a Hl Ha. rewrite K2; [by apply (K1 b d a) |]. intros Hp. assert (b <> pool_va i) by (intros ->; by apply (Nl d)).
      destruct (live_apart p1 b d (pool_va i) (Big 1) O1) as [? | ?]; [apply L1; by left | apply L1; by right | done |..]; cbn [usize] in *; lia.
    + intros d Hl. destruct (live_apart p1 (pool_va i + HEADER_SIZE) d (pool_va i) (Big 1) O1) as [Hd | Hd]; [apply L1; by left | apply L1; by right | unfold HEADER_SIZE; lia | |]; cbn [usize] in *.
      * pose proof (usize_pos p1 (pool_va i + HEADER_SIZE) d O1 ltac:(apply L1; by left)). unfold HEADER_SIZE in *. lia.
      * unfold HEADER_SIZE in *. lia.
    + intros x d. rewrite L2, L1. split; [intros [[[? | [? _]] ?] | ?]; tauto |]. intros [Hl | ?]; [| tauto]. left. split; [by left |]. intros ->. by apply (Nl d).
  - destruct (pop_spec p c Tag' O Hc E0) as (O1 & K1 & Fb & L1). eexists _, _. split; [reflexivity |]. split; [done |].
    split; [by apply contents_words |]. right. exists (rd (NxpFreeLists p) c). split; [done |]. split; [done |].
    assert (Nl : forall d, ~ live p (rd (NxpFreeLists p) c) d) by (intros d; by apply (free_not_live p c)). split; [done |].
    intros x d. rewrite L1. split; [tauto |]. intros [Hl | ?]; [| tauto]. left. split; [done |]. intros ->. by apply (Nl d).
Qed.

Lemma alloc_spec PoolType n Tag' p : pool_ok p -> 0 <= n < 2 ^ 32 ->
  exists o p', ExAllocatePoolWithTag PoolType n Tag' p = Some (o, p') /\ pool_ok p' /\ contents_kept p p' /\ allocates PoolType n Tag' p o p'.
Proof. intros O Hn. destruct (Z.le_gt_cases n NXP_SMALL_MAX); [apply small_alloc_spec | apply big_alloc_spec]; try done; lia. Qed.

(** The quota wrapper raises where the plain call returns null, unless the
    caller asked it not to. *)
Lemma quota_alloc_spec PoolType n Tag' p : pool_ok p -> 0 <= n < 2 ^ 32 ->
  exists o p', ExAllocatePoolWithQuotaTag PoolType n Tag' p = Some (o, p') /\ pool_ok p' /\
    (Z.land PoolType POOL_QUOTA_FAIL_INSTEAD_OF_RAISE = 0 -> o <> Ret 0).
Proof.
  intros O Hn. unfold ExAllocatePoolWithQuotaTag.
  destruct (alloc_spec (Z.land PoolType (not32 POOL_QUOTA_FAIL_INSTEAD_OF_RAISE)) n Tag' p O Hn) as (o & p' & -> & O' & _).
  destruct o as [b | |]; eexists _, _; (split; [reflexivity |]); (split; [exact O' |]); try discriminate.
  intros E. rewrite E. cbn [Z.eqb]. destruct (Z.eqb_spec b 0); cbn [andb]; congruence.
Qed.

(** ** Free *)

Lemma small_va p b c t : pool_ok p -> live p b (Small c t) -> b <> 0 /\ PAGE_ALIGN b <> b.
Proof.
  intros O (i & k & Hs & -> & _). destruct (slot_bounds p i k O Hs) as (B1 & B2 & B3 & _). destruct (slot_class p i k O Hs) as (_ & _ & _ & Hi).
  rewrite (page_align i) by (try done; unfold HEADER_SIZE; lia). unfold HEADER_SIZE, pool_va, NXPP_BASE in *. lia.
Qed.

Lemma big_va p b n : pool_ok p -> live p b (Big n) -> b <> 0 /\ PAGE_ALIGN b = b.
Proof.
  intros O (i & -> & Hr & _). destruct (pages_bound _ _ _ (po_pages _ O) Hr) as (Hi & Hn & Hi1).
  split; [by apply pool_va_nonzero |]. apply page_align; lia.
Qed.

Lemma elem_of_big_remove t P e : P <> 0 -> e ∈ big_remove t P -> e ∈ t \/ BVa e = 0.
Proof.
  intros HP. induction t as [|x t IH]; cbn [big_remove]; [by left |]. destruct (BVa x =? P).
  - intros [-> | He]%elem_of_cons; [by right |]. left. by apply list_elem_of_further.
  - intros [-> | He]%elem_of_cons; [left; apply list_elem_of_here |]. destruct (IH He) as [? | ?]; [left; by apply list_elem_of_further | by right].
Qed.

Lemma big_remove_spec t P : P <> 0 -> once t -> once (big_remove t P) /\ forall e, e ∈ big_remove t P -> BVa e <> P.
Proof.
  intros HP. induction t as [|x t IH]; cbn [big_remove]; [intros U; split; [done | by intros e ?%not_elem_of_nil] |].
  intros [U D]%once_cons. destruct (Z.eqb_spec (BVa x) P) as [Ex | Ex].
  - split; [apply (proj2 (once_cons _ _)); done |]. intros e [-> | He]%elem_of_cons; [cbn [BVa]; congruence |]. rewrite <- Ex. apply D; [congruence | done].
  - destruct (IH U) as [U' N']. split; [apply (proj2 (once_cons _ _)); split; [done |] | intros e [-> | He]%elem_of_cons; [done | by apply N']].
    intros Hz e [He | He]%elem_of_big_remove; [by apply D | congruence | done].
Qed.

Lemma shrink_spec p s i n : pool_ok p -> pages_runs (pages p) !! i = Some n -> ~ bucket p i -> pages_ok s -> pages_runs s = delete i (pages_runs (pages p)) ->
  let p' := with_pages s (set_big (big_remove (NxpBigTable p) (pool_va i)) p) in
  pool_ok p' /\ forall x d, live p' x d <-> live p x d /\ x <> pool_va i.
Proof.
  intros O Hr Nb Os Er p'. destruct (pages_bound _ _ _ (po_pages _ O) Hr) as (Hi & _). pose proof (pool_va_nonzero i Hi) as Hz.
  destruct (big_remove_spec (NxpBigTable p) (pool_va i) Hz (po_big_once _ O)) as [U N]. split.
  - constructor; [exact Os | apply (po_map _ O) | | apply (po_block _ O) | apply (po_list _ O) | | exact U].
    + intros j Hb. destruct (po_bucket _ O j Hb) as (E & ? & ?). split; [| done]. cbn [pages with_pages p']. rewrite Er, lookup_delete_ne; [done | by intros ->].
    + intros e He Hez. destruct (elem_of_big_remove _ _ _ Hz He) as [He' | ?]; [| done]. destruct (po_big _ O e He' Hez) as (j & Ej & Hn & E).
      exists j. split; [done |]. split; [done |]. cbn [pages with_pages p']. rewrite Er, lookup_delete_ne; [done |]. intros ->. by apply (N e).
  - intros x [c t | m].
    + change (live p' x (Small c t)) with (live p x (Small c t)). split; [| by intros [? _]]. intros Hl. split; [done |]. destruct Hl as (j & k & Hs & -> & _).
      destruct (slot_bounds p j k O Hs) as (_ & _ & _ & m & ->). destruct (pool_va_aligned i) as [m' ->]. unfold HEADER_SIZE. lia.
    + cbn [live pages with_pages p']. rewrite Er. setoid_rewrite lookup_delete_Some. split.
      * intros (j & -> & [Hne E] & Hn). split; [by exists j |]. unfold pool_va. lia.
      * intros [(j & -> & E & Hn) Hne]. exists j. split; [done |]. split; [| done]. split; [| done]. congruence.
Qed.

(** The contents of the blocks that stay. *)
Definition others_kept p p' b : Prop := forall x d a, live p x d -> x <> b -> x <= a < x + usize d -> rd (heap p') a = rd (heap p) a.

(** Tags agree, or the caller does not check. *)
Definition tag_matches (d : blk) TagToFree : Prop := match d with Small _ t => TagToFree = 0 \/ TagToFree = t | Big _ => True end.

Lemma free_spec_live p b d TagToFree : pool_ok p -> live p b d -> tag_matches d TagToFree ->
  exists p', ExFreePoolWithTag b TagToFree p = (Ret tt, p') /\ pool_ok p' /\ others_kept p p' b /\ forall x e, live p' x e <-> live p x e /\ x <> b.
Proof.
  intros O L Ht. unfold ExFreePoolWithTag. destruct d as [c t | n].
  - destruct (small_va p b c t O L) as [Hz Ha]. destruct (Z.eqb_spec b 0); [done |]. destruct (Z.eqb_spec (PAGE_ALIGN b) b); [done |].
    pose proof (push_spec p c t b O L) as (O' & K & Fb & L'). destruct L as (i & k & Hs & -> & Hm & -> & ->).
    replace (head p i k + HEADER_SIZE - HEADER_SIZE) with (head p i k) by lia. rewrite Hm. cbn [tag_matches] in Ht.
    change (NXP_MAGIC_ALLOC =? NXP_MAGIC_ALLOC) with true. cbn [negb].
    assert (negb (TagToFree =? 0) && negb (Tag p (head p i k) =? TagToFree) = false) as ->.
    { destruct Ht as [-> | ->]; [done |]. rewrite (Z.eqb_refl (Tag p (head p i k))). apply andb_false_r. }
    exists (push (head p i k + HEADER_SIZE) p). split; [unfold push; by replace (head p i k + HEADER_SIZE - HEADER_SIZE) with (head p i k) by lia |].
    split; [done |]. split; [| done]. intros x d a Hl Hne Hx. apply K. apply (live_no_pool_word _ x d); [done | apply L'; done | done].
  - destruct (big_va p b n O L) as [Hz Ha]. destruct (Z.eqb_spec b 0); [done |]. rewrite Ha, Z.eqb_refl. destruct L as (i & -> & Hr & Nb).
    destruct (pages_free_law _ _ _ (po_pages _ O) Hr) as (s' & Ef & Os & Er). cbn [pages set_big]. fold (pool_va i) in Ef. rewrite Ef. cbn [snd].
    destruct (shrink_spec p s' i n O Hr Nb Os Er) as [O' L']. eexists. split; [reflexivity |]. split; [done |]. split; [done | exact L'].
Qed.

(** ** Queries and client writes *)

Lemma big_pages_spec p b : pool_ok p -> b <> 0 ->
  (big_pages (NxpBigTable p) b = 0 /\ forall e, e ∈ NxpBigTable p -> BVa e <> b) \/ exists e, e ∈ NxpBigTable p /\ BVa e = b /\ big_pages (NxpBigTable p) b = BPages e.
Proof.
  intros _ Hz. induction (NxpBigTable p) as [|x t IH]; cbn [big_pages]; [left; split; [done | by intros e ?%not_elem_of_nil] |].
  destruct (Z.eqb_spec (BVa x) b) as [Ex | Ex]; [right; exists x; split; [apply list_elem_of_here | done] |].
  destruct IH as [[E N] | (e & He & ? & ?)]; [left; split; [done |] | right; exists e; split; [by apply list_elem_of_further | done]].
  intros e [-> | He]%elem_of_cons; [done | by apply N].
Qed.

(** A small block answers its size, a big one its size or 0 when the table
    had no room for it. *)
Lemma query_spec_live p b d : pool_ok p -> live p b d -> exists n, ExQueryPoolBlockSize b p = (n, false) /\
  (n = usize d \/ n = 0 /\ (exists m, d = Big m) /\ forall e, e ∈ NxpBigTable p -> BVa e <> b).
Proof.
  intros O L. unfold ExQueryPoolBlockSize. eexists. split; [reflexivity |]. destruct d as [c t | n].
  - destruct (small_va p b c t O L) as [_ Ha]. destruct (Z.eqb_spec (PAGE_ALIGN b) b); [done |]. destruct L as (i & k & Hs & -> & _ & -> & _).
    replace (head p i k + HEADER_SIZE - HEADER_SIZE) with (head p i k) by lia. destruct (po_block _ O i k Hs) as [-> _]. by left.
  - destruct (big_va p b n O L) as [Hz Ha]. rewrite Ha, Z.eqb_refl. destruct (big_pages_spec p b O Hz) as [[-> N] | (e & He & Ee & ->)].
    + right. split; [done |]. split; [by exists n | done].
    + left. destruct (po_big _ O e He ltac:(congruence)) as (j & Ej & _ & Hr). destruct L as (i & -> & Hr' & _).
      assert (j = i) as -> by (unfold pool_va in *; lia). rewrite Hr in Hr'. injection Hr' as <-.
      destruct (pages_bound _ _ _ (po_pages _ O) Hr) as (? & ? & ?). unfold NXPP_PAGES in *. cbn [usize]. unfold u32. rewrite Z.mod_small; lia.
Qed.

Section write.
Context p (m : gmap Z Z) (O : pool_ok p) (Hm : forall a, pool_word p a -> rd m a = rd (heap p) a).
Let p' : pool G := Pool (pages p) (NxpClassMap p) (NxpFreeLists p) (NxpPageState p) (NxpBigTable p) m.

Lemma write_fields i k : bslot p i k -> ClassIndex p' (head p i k) = ClassIndex p (head p i k) /\ Magic p' (head p i k) = Magic p (head p i k) /\ Tag p' (head p i k) = Tag p (head p i k).
Proof.
  intros Hs. unfold ClassIndex, Magic, Tag. cbn [heap p']. rewrite (Hm (head p i k)), (Hm (head p i k + 4)); [done | |]; left; exists i, k; auto.
Qed.

Lemma write_cls i : bucket p i -> cls p' i = cls p i.
Proof.
  intros Hb. destruct (po_bucket _ O i Hb) as (_ & Hc & _). destruct (class_cases _ Hc) as (_ & _ & _ & Hn & _).
  assert (Hs : bslot p i 0) by (split; [done | lia]). unfold cls. replace (pool_va i) with (head p i 0) by (unfold head, hdr; lia). by apply write_fields.
Qed.

Lemma write_slot i k : bslot p' i k <-> bslot p i k.
Proof. unfold bslot. change (bucket p' i) with (bucket p i). split; intros [Hb Hk]; (split; [done |]); by rewrite write_cls in *. Qed.

Lemma write_head i k : bucket p i -> head p' i k = head p i k.
Proof. intros Hb. unfold head. by rewrite write_cls. Qed.

Lemma write_free c b : free_block p' c b <-> free_block p c b.
Proof.
  unfold free_block. setoid_rewrite write_slot. split; intros (i & k & Hs & Ec & Eb & Ef); exists i, k; (split; [done |]); pose proof (proj1 Hs) as Hb;
    rewrite write_cls, write_head in * by done; destruct (write_fields i k Hs) as (_ & E & _); rewrite E in *; done.
Qed.

Lemma write_live x d : live p' x d <-> live p x d.
Proof.
  destruct d as [c t | n]; [| done]. cbn [live]. setoid_rewrite write_slot.
  split; intros (i & k & Hs & Eb & Ef & Ec & Et); exists i, k; (split; [done |]); pose proof (proj1 Hs) as Hb;
    rewrite write_cls, write_head in * by done; destruct (write_fields i k Hs) as (_ & E & E'); rewrite E, E' in *; done.
Qed.

Lemma write_ok : pool_ok p'.
Proof.
  constructor; [apply (po_pages _ O) | apply (po_map _ O) | | | | apply (po_big _ O) | apply (po_big_once _ O)].
  - intros i Hb. change (bucket p' i) with (bucket p i) in Hb. rewrite write_cls by done. destruct (po_bucket _ O i Hb) as (? & ? & Es).
    split; [done |]. split; [done |]. change (NxpPageState p') with (NxpPageState p). rewrite Es. unfold live_count. rewrite write_cls by done. f_equal. f_equal.
    apply filter_ext_in. intros k Hk%elem_of_seqZ. rewrite write_head by done. destruct (write_fields i k ltac:(split; [done | lia])) as (_ & -> & _). done.
  - intros i k Hs%write_slot. rewrite write_head, write_cls by (by destruct Hs). destruct (write_fields i k Hs) as (-> & -> & _). by apply (po_block _ O).
  - intros c Hc. destruct (po_list _ O c Hc) as (l & Fl & N & El). exists l. split; [| split; [done |]].
    + eapply flist_ext; [| exact Fl]. intros y (i & k & Hs & _ & -> & Hf)%El. apply Hm. left. exists i, k. auto.
    + intros b. by rewrite write_free, El.
Qed.
End write.

Lemma client_write p b d a v : pool_ok p -> live p b d -> b <= a < b + usize d -> pool_ok (store a v p) /\ same_live p (store a v p).
Proof.
  intros O L Ha. assert (Hm : forall x, pool_word p x -> rd (<[a := v]> (heap p)) x = rd (heap p) x).
  { intros x Hx. apply rd_insert_ne. intros <-. by apply (live_no_pool_word p b d a). }
  split; [by apply write_ok | intros x e; by apply write_live].
Qed.

(** ** Histories *)

Lemma state_filled v n j : 0 <= j < Z.of_nat n -> rd (list_to_map (map (fun i : nat => (Z.of_nat i, v)) (seq 0 n))) j = v.
Proof.
  intros Hj. unfold rd. rewrite (elem_of_list_to_map_1' _ j v); [done | |].
  - intros y Hy. apply list_elem_of_In, in_map_iff in Hy as (i & [= _ <-] & _). done.
  - apply list_elem_of_In, in_map_iff. exists (Z.to_nat j). rewrite in_seq. split; [f_equal; lia | lia].
Qed.

Lemma initialize_pool_ok s m : pages_ok s -> pool_ok (InitializePool NonPagedPool (boot_pool s m)).
Proof.
  intros Os. set (p := InitializePool _ _).
  assert (Nb : forall i, ~ bucket p i).
  { intros i [Hi Hs]. apply Hs. unfold p, InitializePool. cbn [Z.land NonPagedPool Z.eqb negb NxpPageState]. apply state_filled. unfold NXPP_PAGES in *. lia. }
  assert (Nf : forall c b, ~ free_block p c b) by (intros c b (i & k & [Hb _] & _); by apply (Nb i)).
  constructor.
  - exact Os.
  - vm_compute. reflexivity.
  - intros i Hb. by destruct (Nb i).
  - intros i k [Hb _]. by destruct (Nb i).
  - intros c Hc. exists []. split; [done |]. split; [apply NoDup_nil_2 |]. intros b. split; [by intros ?%not_elem_of_nil | by intros ?%Nf].
  - intros e He Hz. apply elem_of_replicate in He as [-> _]. done.
  - intros j1 j2 e1 e2 [-> _]%lookup_replicate _ _ Hz. done.
Qed.

(** The pool and its clients: calls, and writes of the holders of live blocks
    into their own memory. *)
Inductive pool_step : pool G -> pool G -> Prop :=
  | step_alloc PoolType n Tag' p o p' : 0 <= n < 2 ^ 32 -> ExAllocatePoolWithTag PoolType n Tag' p = Some (o, p') -> pool_step p p'
  | step_free b d TagToFree p o p' : live p b d -> tag_matches d TagToFree -> ExFreePoolWithTag b TagToFree p = (o, p') -> pool_step p p'
  | step_write b d a v p : live p b d -> b <= a < b + usize d -> pool_step p (store a v p).

Lemma step_ok p p' : pool_ok p -> pool_step p p' -> pool_ok p'.
Proof.
  intros O St. destruct St as [PoolType n Tag' p o p' Hn E | b d tag p o p' L Ht E | b d a v p L Ha].
  - destruct (alloc_spec PoolType n Tag' p O Hn) as (o' & p1 & E1 & O1 & _). rewrite E in E1. by injection E1 as <- <-.
  - destruct (free_spec_live p b d tag O L Ht) as (p1 & E1 & O1 & _). rewrite E in E1. by injection E1 as _ <-.
  - by apply (client_write p b d a v).
Qed.

Lemma history_ok p p' : pool_ok p -> rtc pool_step p p' -> pool_ok p'.
Proof. intros O R. induction R as [|p1 p2 p3 St _ IH]; [done |]. apply IH. by eapply step_ok. Qed.

(** *** The table of page blocks *)

Definition recorded p b : Prop := exists e, e ∈ NxpBigTable p /\ BVa e = b.

(** As many page blocks are live as the table has entries. *)
Definition crowded p : Prop :=
  exists bs : list Z, NoDup bs /\ length bs = NXP_BIG_ENTRIES /\ forall b, b ∈ bs -> exists k, live p b (Big k).

Lemma big_insert_spec t Va n : length (big_insert t Va n) = length t /\ (forall e, e ∈ t -> BVa e <> 0 -> e ∈ big_insert t Va n) /\
  ((forall e, e ∈ t -> BVa e <> 0) \/ BigEntry Va n ∈ big_insert t Va n).
Proof.
  induction t as [|x t (IH1 & IH2 & IH3)]; cbn [big_insert]; [split; [done |]; split; [done | left; by intros e ?%not_elem_of_nil] |].
  destruct (Z.eqb_spec (BVa x) 0) as [Ex | Ex].
  - split; [done |]. split; [| right; apply list_elem_of_here]. intros e [-> | He]%elem_of_cons Hz; [done | by apply list_elem_of_further].
  - split; [cbn; by rewrite IH1 |]. split.
    + intros e [-> | He]%elem_of_cons Hz; [apply list_elem_of_here | apply list_elem_of_further; by apply IH2].
    + destruct IH3 as [Hf | Hi]; [left | right; by apply list_elem_of_further]. intros e [-> | He]%elem_of_cons; [done | by apply Hf].
Qed.

Lemma big_remove_keeps t P : length (big_remove t P) = length t /\ forall e, e ∈ t -> BVa e <> P -> e ∈ big_remove t P.
Proof.
  induction t as [|x t [IH1 IH2]]; cbn [big_remove]; [done |]. destruct (Z.eqb_spec (BVa x) P) as [Ex | Ex].
  - split; [done |]. intros e [-> | He]%elem_of_cons Hn; [done | by apply list_elem_of_further].
  - split; [cbn; by rewrite IH1 |]. intros e [-> | He]%elem_of_cons Hn; [apply list_elem_of_here | apply list_elem_of_further; by apply IH2].
Qed.

Lemma unlink_table n c v : forall L p p', unlink_page n c v L p = Some p' -> NxpBigTable p' = NxpBigTable p.
Proof.
  induction n as [|n IH]; intros L p p'; cbn [unlink_page]; [done |]. destruct (_ =? 0); [by intros [= <-] |].
  destruct (_ =? v); [intros ->%IH; by destruct L | apply IH].
Qed.

Lemma reclaim_table n : forall i f p f' p', reclaim_pages n i f p = Some (f', p') -> NxpBigTable p' = NxpBigTable p.
Proof.
  induction n as [|n IH]; intros i f p f' p'; cbn [reclaim_pages]; [by intros [= _ <-] |]. unfold reclaim_page.
  destruct (negb _); [apply IH |]. destruct (unlink_page _ _ _ _ _) as [q|] eqn:E; [| done]. intros ->%IH. by apply unlink_table in E.
Qed.

Lemma take_pages_table n p Va p' : take_pages n p = Some (Va, p') -> NxpBigTable p' = NxpBigTable p.
Proof.
  unfold take_pages, NxpReclaimEmptyBucketPages. destruct (pages_alloc _ _) as [[a s]|]; [| done]. destruct (negb _); [by intros [= _ <-] |].
  destruct (reclaim_pages _ _ _ _) as [[f q]|] eqn:E; [| done]. apply reclaim_table in E. destruct (f =? 0); [by intros [= _ <-] |].
  destruct (pages_alloc _ _) as [[a2 s2]|]; [| done]. by intros [= _ <-].
Qed.

Lemma carve_table n : forall i Page Size c p, NxpBigTable (carve_page n i Page Size c p) = NxpBigTable p.
Proof. induction n as [|n IH]; intros i Page Size c p; cbn [carve_page]; [done | by rewrite IH]. Qed.

(** An allocation enters its block in the table when it is of whole pages. *)
Lemma alloc_table PoolType n Tag' p o p' : ExAllocatePoolWithTag PoolType n Tag' p = Some (o, p') ->
  (NxpBigTable p' = NxpBigTable p /\ (NXP_SMALL_MAX < n -> forall b, o = Ret b -> b = 0)) \/
  NXP_SMALL_MAX < n /\ exists b, o = Ret b /\ NxpBigTable p' = big_insert (NxpBigTable p) b (BYTES_TO_PAGES n).
Proof.
  unfold ExAllocatePoolWithTag. destruct (Z.ltb_spec NXP_SMALL_MAX n) as [Hn | Hn].
  - destruct (take_pages n p) as [[Va q]|] eqn:E; [| done]. apply take_pages_table in E. destruct (Z.eqb_spec Va 0) as [-> | Hz].
    + intros [= <- <-]. left. split; [done |]. intros _ b Eb. unfold NxpAllocFailed in Eb. repeat case_match; congruence.
    + intros [= <- <-]. right. split; [done |]. exists Va. split; [done |]. cbn [NxpBigTable set_big]. by rewrite E.
  - intros E. left. split; [| lia]. revert E. destruct (negb _); [by intros [= _ <-] |].
    destruct (take_pages 4096 p) as [[Va q]|] eqn:E; [| done]. apply take_pages_table in E.
    destruct (Va =? 0); [by intros [= _ <-] |]. intros [= _ <-]. cbn. by rewrite carve_table.
Qed.

Lemma full_crowded p : pool_ok p -> length (NxpBigTable p) = NXP_BIG_ENTRIES -> (forall e, e ∈ NxpBigTable p -> BVa e <> 0) -> crowded p.
Proof.
  intros O Hl Hf. exists (BVa <$> NxpBigTable p). split; [| split; [by rewrite length_fmap |]].
  - apply NoDup_alt. intros i j x (e1 & -> & E1)%list_lookup_fmap_Some (e2 & Ee & E2)%list_lookup_fmap_Some.
    apply (po_big_once _ O i j e1 e2 E1 E2 Ee). by apply Hf, (list_elem_of_lookup_2 _ i).
  - intros b (e & -> & He)%list_elem_of_fmap. destruct (po_big _ O e He (Hf e He)) as (i & -> & Nb & Hr). exists (BPages e). by exists i.
Qed.

(** The live page blocks are in the table, or the table was full some time
    after [p0]. *)
Record table_ok (p0 p : pool G) : Prop := {
  tk_length : length (NxpBigTable p) = NXP_BIG_ENTRIES;
  tk_entry : forall b k, live p b (Big k) -> recorded p b \/ exists q, rtc pool_step p0 q /\ rtc pool_step q p /\ crowded q
}.

Lemma table_kept p0 p p' : pool_step p p' -> table_ok p0 p -> length (NxpBigTable p') = length (NxpBigTable p) ->
  (forall b k, live p' b (Big k) -> live p b (Big k) /\ (recorded p b -> recorded p' b) \/ recorded p' b \/ rtc pool_step p0 p /\ crowded p) ->
  table_ok p0 p'.
Proof.
  intros St [Hl He] Hl' H. constructor; [congruence |]. intros b k L. destruct (H b k L) as [[L0 Rk] | [? | [Rp Cr]]].
  - destruct (He b k L0) as [? | (q & R1 & R2 & C)]; [left; auto | right]. exists q. split; [done |]. split; [by eapply rtc_r | done].
  - by left.
  - right. exists p. split; [done |]. split; [by apply rtc_once | done].
Qed.

Lemma table_alloc p0 PoolType n Tag' p o p' : rtc pool_step p0 p -> pool_ok p -> table_ok p0 p -> 0 <= n < 2 ^ 32 ->
  ExAllocatePoolWithTag PoolType n Tag' p = Some (o, p') -> table_ok p0 p'.
Proof.
  intros R O T Hn E. destruct (alloc_spec PoolType n Tag' p O Hn) as (o' & p1 & E1 & O1 & _ & A). rewrite E in E1. injection E1 as <- <-.
  assert (St : pool_step p p') by by eapply step_alloc.
  destruct (alloc_table _ _ _ _ _ _ E) as [[Et Hb] | (Hbig & b & Eb & Et)].
  - apply (table_kept p0 p p' St T); [by rewrite Et |]. intros x k L. left. split; [| unfold recorded; by rewrite Et].
    destruct A as [(_ & Sl & _) | (b & -> & Hz & _ & L')]; [by apply Sl |]. apply L' in L as [? | [-> Ek]]; [done |]. exfalso.
    unfold block_for in Ek. destruct (Z.ltb_spec NXP_SMALL_MAX n) as [Hl | _]; [| done]. by apply Hz, Hb.
  - destruct (big_insert_spec (NxpBigTable p) b (BYTES_TO_PAGES n)) as (I1 & I2 & I3). rewrite <- Et in I1, I2, I3.
    apply (table_kept p0 p p' St T); [done |]. intros x k L.
    assert (Lx : live p x (Big k) \/ x = b).
    { destruct A as [(_ & Sl & _) | (b' & Eb' & _ & _ & L')]; [left; by apply Sl |]. rewrite Eb in Eb'. injection Eb' as <-.
      apply L' in L as [? | [-> _]]; auto. }
    destruct Lx as [Lx | ->].
    + left. split; [done |]. intros (e & He & Ee). exists e. split; [| done]. apply I2; [done |]. rewrite Ee. apply (big_va p x k O Lx).
    + right. destruct I3 as [Hf | Hi]; [right; split; [done |]; apply full_crowded; [done | apply T | done] | left; by eexists].
Qed.

Lemma table_free p0 b d TagToFree p o p' : pool_ok p -> table_ok p0 p -> live p b d -> tag_matches d TagToFree ->
  ExFreePoolWithTag b TagToFree p = (o, p') -> table_ok p0 p'.
Proof.
  intros O T L Ht E. destruct (free_spec_live p b d TagToFree O L Ht) as (p1 & E1 & O1 & _ & L1).
  assert (St : pool_step p p') by by eapply step_free.
  rewrite E in E1. injection E1 as -> <-. destruct (big_remove_keeps (NxpBigTable p) b) as [B1 B2].
  assert (Et : NxpBigTable p' = NxpBigTable p \/ NxpBigTable p' = big_remove (NxpBigTable p) b).
  { unfold ExFreePoolWithTag in E. destruct (b =? 0); [done |]. destruct (_ =? b); [injection E as <-; by right |].
    destruct (negb _); [done |]. destruct (_ && _); [done |]. injection E as <-. by left. }
  apply (table_kept p0 p p' St T); [destruct Et as [-> | ->]; done |]. intros x k Lx. left. apply L1 in Lx as [Lx Hne]. split; [done |].
  intros (e & He & Ee). exists e. split; [| done]. destruct Et as [-> | ->]; [done |]. apply B2; congruence.
Qed.

Lemma table_history s m p : pages_ok s -> pages_runs s = ∅ ->
  rtc pool_step (InitializePool NonPagedPool (boot_pool s m)) p -> table_ok (InitializePool NonPagedPool (boot_pool s m)) p.
Proof.
  intros Os Er R. set (p0 := InitializePool NonPagedPool (boot_pool s m)) in *.
  assert (H : pool_ok p /\ table_ok p0 p); [| apply H]. revert p R. apply (rtc_ind_r (fun p => pool_ok p /\ table_ok p0 p)).
  - split; [by apply initialize_pool_ok |]. constructor; [unfold p0; cbn; apply length_replicate |]. intros b k (i & _ & Hr & _).
    change (pages p0) with s in Hr. by rewrite Er, lookup_empty in Hr.
  - intros q p' R St [O T]. split; [by eapply step_ok |]. destruct St as [PoolType n Tag' q o p' Hn E | b d tag q o p' L Ht E | b d a v q L Ha].
    + by eapply table_alloc.
    + by eapply table_free.
    + apply (table_kept p0 q _ (step_write b d a v q L Ha) T); [done |]. intros x k Lx. left. split; [| done].
      by apply (client_write q b d a v O L Ha).
Qed.

(** C8: the allocation returns on every branch, within the fuel, and keeps the
    pool consistent and the contents of all live blocks.  Either exactly one
    block is added to the live ones, large enough for the request, of the
    smallest class that is, with the caller's tag, and overlapping no live
    block; or the page layer refused with every empty bucket page already
    given back, nothing changed for anyone, and the call ends as the flags
    say. *)
Theorem pool_alloc_correct PoolType n Tag' p : pool_ok p -> 0 <= n < 2 ^ 32 ->
  exists o p', ExAllocatePoolWithTag PoolType n Tag' p = Some (o, p') /\ pool_ok p' /\ contents_kept p p' /\ allocates PoolType n Tag' p o p' /\
    n <= usize (block_for n Tag') /\ (n <= NXP_SMALL_MAX -> forall c, 0 <= c < class_for n -> csize c < Z.max 1 n + HEADER_SIZE) /\
    (forall b x d, o = Ret b -> b <> 0 -> live p x d -> b + usize (block_for n Tag') <= x \/ x + usize d <= b).
Proof.
  intros O Hn. destruct (alloc_spec PoolType n Tag' p O Hn) as (o & p' & E & O' & K & A). exists o, p'.
  split; [done |]. split; [done |]. split; [done |]. split; [done |]. split; [apply block_for_fits; lia |].
  split; [intros Hs; apply (class_for_spec n); lia |]. intros b x d -> Hb L. destruct A as [[[F _] _] | (b' & [= <-] & _ & Nl & L')]; [done |].
  apply (live_apart p'); [done | apply L'; by right | apply L'; by left |]. intros ->. by apply (Nl d).
Qed.

(** C10: freeing a live block, a small one with its tag or with tag 0, a page
    block with any tag, removes it from the live ones and leaves the contents
    of all others.  For a small block a wrong tag and a second free stop the
    machine with the documented codes, the pool untouched, and so does a null
    pointer. *)
Theorem pool_free_correct p : pool_ok p ->
  (forall b d TagToFree, live p b d -> tag_matches d TagToFree ->
     exists p', ExFreePoolWithTag b TagToFree p = (Ret tt, p') /\ pool_ok p' /\ others_kept p p' b /\ forall x e, live p' x e <-> live p x e /\ x <> b) /\
  (forall b c t TagToFree, live p b (Small c t) -> TagToFree <> 0 -> TagToFree <> t ->
     ExFreePoolWithTag b TagToFree p = (KeBugCheckEx BAD_POOL_CALLER 0x0A b t TagToFree, p)) /\
  (forall b c TagToFree, free_block p c b ->
     ExFreePoolWithTag b TagToFree p = (KeBugCheckEx BAD_POOL_HEADER 7 b NXP_MAGIC_FREE (Tag p (b - HEADER_SIZE)), p)) /\
  (forall TagToFree, ExFreePoolWithTag 0 TagToFree p = (KeBugCheckEx BAD_POOL_CALLER 0x46 0 0 0, p)).
Proof.
  intros O. split; [| split; [| split]].
  - intros b d tag L Ht. by apply (free_spec_live p b d tag).
  - intros b c t tag L Hz Ht. unfold ExFreePoolWithTag. destruct (small_va p b c t O L) as [Hb Ha].
    destruct (Z.eqb_spec b 0); [done |]. destruct (Z.eqb_spec (PAGE_ALIGN b) b); [done |]. destruct L as (i & k & Hs & -> & Hm & -> & ->).
    replace (head p i k + HEADER_SIZE - HEADER_SIZE) with (head p i k) by lia. rewrite Hm.
    destruct (Z.eqb_spec tag 0); [done |]. destruct (Z.eqb_spec (Tag p (head p i k)) tag); [congruence | done].
  - intros b c tag (i & k & Hs & _ & -> & Hm). unfold ExFreePoolWithTag. destruct (slot_bounds p i k O Hs) as (B1 & B2 & B3 & _).
    destruct (slot_class p i k O Hs) as (_ & _ & _ & Hi). rewrite (page_align i) by (try done; unfold HEADER_SIZE; lia).
    unfold HEADER_SIZE. destruct (Z.eqb_spec (head p i k + 8) 0); [unfold pool_va, NXPP_BASE in *; lia |].
    destruct (Z.eqb_spec (pool_va i) (head p i k + 8)); [lia |]. replace (head p i k + 8 - 8) with (head p i k) by lia. by rewrite Hm.
  - done.
Qed.

(** C30: the sweep visits its whole window and every list within the fuel,
    gives back exactly the bucket pages with no live block and counts them;
    afterwards none is left, the pool is consistent, and every live block is
    where it was with its contents. *)
Theorem pool_reclaim_exact p : pool_ok p ->
  exists p', NxpReclaimEmptyBucketPages p = Some (empty_from p 0 (Z.to_nat NXPP_PAGES), p') /\ pool_ok p' /\ contents_kept p p' /\ same_live p p' /\
    no_empty p' /\ (empty_from p 0 (Z.to_nat NXPP_PAGES) = 0 -> pages_runs (pages p') = pages_runs (pages p)).
Proof. apply reclaim_spec. Qed.

(** C31: whatever sequence of allocations, frees and writes by the holders of
    blocks follows initialisation, over whatever memory, the pool is
    consistent: live blocks do not overlap, and the size query answers each
    block's size, or 0 for a page block that is not in the table of 128
    entries; over a window that was empty to begin with, that answer is only
    given where 128 page blocks were live at some time before. *)
Theorem pool_history s m p : pages_ok s -> rtc pool_step (InitializePool NonPagedPool (boot_pool s m)) p ->
  pool_ok p /\ (forall x d y e, live p x d -> live p y e -> x <> y -> x + usize d <= y \/ y + usize e <= x) /\
  (forall b d, live p b d -> exists n, ExQueryPoolBlockSize b p = (n, false) /\
     (n = usize d \/
      n = 0 /\ (exists k, d = Big k) /\ ~ recorded p b /\
      (pages_runs s = ∅ -> exists q, rtc pool_step (InitializePool NonPagedPool (boot_pool s m)) q /\ rtc pool_step q p /\ crowded q))).
Proof.
  intros Os R. pose proof (history_ok _ _ (initialize_pool_ok s m Os) R) as O. split; [done |].
  split; [intros x d y e Hx Hy; by apply (live_apart p) |]. intros b d L.
  destruct (query_spec_live p b d O L) as (n & E & [-> | (-> & [k ->] & N)]); eexists; (split; [exact E |]); [by left | right].
  assert (Nr : ~ recorded p b) by (intros (e & He & Ee); by apply (N e)).
  split; [done |]. split; [by exists k |]. split; [done |]. intros Er. by destruct (tk_entry _ _ (table_history s m p Os Er R) b k L).
Qed.

End proofs.

(** ** The pool window as the page layer *)

#[export] Instance window_pages : PagePool window := {| pages_alloc := NxPoolPagesAlloc; pages_free := NxPoolPagesFree |}.

Lemma window_alloc_law w bytes : window_ok w -> 0 < bytes < 2 ^ 32 ->
  exists r w', NxPoolPagesAlloc w bytes = Some (r, w') /\ window_ok w' /\
    ((r = 0 /\ runs w' = runs w) \/
     exists i, r = NXPP_BASE + 4096 * i /\ vacant (runs w) i ((bytes + 4095) / 4096) /\ runs w' = <[i := (bytes + 4095) / 4096]> (runs w)).
Proof.
  intros O Hb. destruct (window_alloc_spec w bytes O Hb) as (r & w' & E & O' & _ & _ & _ & _ & _ & Hr). destruct (bytes_to_pages bytes Hb) as [_ Hn].
  exists r, w'. split; [done |]. split; [done |]. destruct Hr as [(-> & Hs & _) | (s & -> & Hh & Hs & _)].
  - left. split; [done | by apply runs_same].
  - right. exists s. split; [done |]. split; [apply hole_vacant; [done | lia | done] |]. apply runs_insert; [lia | done].
Qed.

Lemma window_free_law w i n : window_ok w -> runs w !! i = Some n ->
  exists w', NxPoolPagesFree w (NXPP_BASE + 4096 * i) = (n, w') /\ window_ok w' /\ runs w' = delete i (runs w).
Proof.
  intros O [<- Hn]%runs_lookup. destruct (window_free_spec w i O Hn) as (w' & E & O' & _ & _ & _ & _ & Rt & _).
  exists w'. split; [done |]. split; [done |]. by apply runs_delete.
Qed.

#[export] Program Instance window_runs : PagePoolRuns window := {| pages_ok := window_ok; pages_runs := runs |}.
Next Obligation. intros w i n O [<- Hn]%runs_lookup. apply (wo_run _ O i Hn). Qed.
Next Obligation. intros w i j n k O [<- Hn]%runs_lookup [<- Hk]%runs_lookup. by apply (wo_apart _ O). Qed.
Next Obligation. exact window_alloc_law. Qed.
Next Obligation. exact window_free_law. Qed.

(** ** Witnesses *)

(** The pool over the empty window of [PoolPages.v], and after one request. *)
Definition fresh_pool : pool window := InitializePool NonPagedPool (boot_pool fresh_window ∅).
Definition one_block : pool window :=
  match ExAllocatePoolWithTag NonPagedPool 100 TAG_NONE fresh_pool with Some (_, p) => p | None => fresh_pool end.

Lemma fresh_pool_ok : pool_ok fresh_pool.
Proof. apply initialize_pool_ok, fresh_window_ok. Qed.

Lemma one_block_alloc : ExAllocatePoolWithTag NonPagedPool 100 TAG_NONE fresh_pool = Some (Ret 0xC1000008, one_block).
Proof.
  assert (Q : option_map fst (ExAllocatePoolWithTag NonPagedPool 100 TAG_NONE fresh_pool) = Some (Ret 0xC1000008)) by (vm_compute; reflexivity).
  unfold one_block. destruct (ExAllocatePoolWithTag NonPagedPool 100 TAG_NONE fresh_pool) as [[o p] |]; [| discriminate Q].
  cbn [option_map fst] in Q. by injection Q as ->.
Qed.

Lemma some_pair {A B : Type} (a a' : A) (b b' : B) : Some (a, b) = Some (a', b') -> a = a' /\ b = b'.
Proof. by intros [= -> ->]. Qed.

Local Opaque one_block fresh_pool.

Lemma one_block_live : pool_ok one_block /\ live one_block 0xC1000008 (Small 2 TAG_NONE).
Proof.
  destruct (alloc_spec NonPagedPool 100 TAG_NONE fresh_pool fresh_pool_ok ltac:(lia)) as (o & p & E & O & _ & A).
  rewrite one_block_alloc in E. apply some_pair in E as [<- <-]. split; [exact O |].
  destruct A as [[[F _] _] | (b & [= <-] & _ & _ & L)]; [done |]. apply L. right. split; [done |]. vm_compute. reflexivity.
Qed.

Lemma pool_alloc_correct_witness : exists p',
  ExAllocatePoolWithTag NonPagedPool 100 TAG_NONE fresh_pool = Some (Ret 0xC1000008, p') /\ pool_ok p' /\ contents_kept fresh_pool p'.
Proof.
  destruct (pool_alloc_correct NonPagedPool 100 TAG_NONE fresh_pool fresh_pool_ok ltac:(lia)) as (o & p' & E & O & K & _).
  pose proof one_block_alloc as E1. rewrite E in E1. apply some_pair in E1 as [-> ->]. exists one_block. split; [exact E |]. split; [exact O | exact K].
Defined.

Lemma pool_free_correct_witness :
  (exists p', ExFreePoolWithTag 0xC1000008 TAG_NONE one_block = (Ret tt, p') /\ pool_ok p') /\
  ExFreePoolWithTag 0xC1000008 1 one_block = (KeBugCheckEx BAD_POOL_CALLER 0x0A 0xC1000008 TAG_NONE 1, one_block).
Proof.
  destruct one_block_live as [O L]. destruct (pool_free_correct one_block O) as (F & T & _). split.
  - destruct (F _ _ TAG_NONE L ltac:(by right)) as (p' & E & O' & _). exists p'. split; [exact E | exact O'].
  - apply (T _ 2 _ _ L); unfold TAG_NONE; lia.
Defined.

Lemma pool_reclaim_exact_witness : exists p', NxpReclaimEmptyBucketPages one_block = Some (0, p') /\ same_live one_block p'.
Proof.
  destruct (pool_reclaim_exact one_block (proj1 one_block_live)) as (p' & E & _ & _ & L & _). exists p'. split; [| exact L].
  assert (Z0 : empty_from one_block 0 (Z.to_nat NXPP_PAGES) = 0) by (vm_compute; reflexivity). rewrite Z0 in E. exact E.
Defined.

Lemma pool_history_witness : pool_ok one_block /\ exists n, ExQueryPoolBlockSize 0xC1000008 one_block = (n, false) /\ n = 120.
Proof.
  destruct (pool_history (PR := window_runs) fresh_window ∅ one_block fresh_window_ok) as (O & _ & Q).
  { eapply rtc_once, (step_alloc NonPagedPool 100 TAG_NONE); [lia | apply one_block_alloc]. }
  split; [exact O |]. destruct (Q _ _ (proj2 one_block_live)) as (n & E & [-> | (_ & (k & Hk) & _)]); [| discriminate Hk].
  exists 120. split; [exact E | reflexivity].
Defined.
