(* ===== verification/PoolShare.v ===== *)
(** * Sharing the frames with the kernel pool

    The pool of [Pool.v] over the window of [PoolPages.v] works on the same
    frames and page tables as everything else.  This file proves what the
    others may rely on: an allocation, a free or a sweep of the pool leaves
    the frames another component holds where they are and as they are, and
    every page-table entry outside the pool's window; and the pool stands
    what the others do, relocation of its own pages included.

    The first part is an instance of the pool's page-layer interface whose
    invariant remembers a snapshot of the memory, so that the pool's theorems,
    which are about any page layer, carry the snapshot through every call. *)

From stdpp Require Import prelude gmap list numbers sets.
From Stdlib Require Import ZArith Lia.
From S2P Require Import Prelude PageSupply Paging Vm PoolPages Pool.

Local Open Scope Z_scope.
Local Opaque free_set NxpUnlink.

(** An entry that is neither a page nor a page table of the window. *)
Definition foreign (k : Z) : Prop := ~ pool_page k /\ ~ window_pde k.

(** The frames [S] are in use, immovable, outside the window and show what
    they showed in [m0]; and so does every entry outside the window. *)
Record holds (m0 : mm) (S : gset Z) (w : window) : Prop := {
  ho_pin : forall q, q ∈ S -> pinned (wmem w) q /\ frame_at (wmem w) q = frame_at m0 q;
  ho_apart : forall q i, q ∈ S -> 0 <= i < 4096 -> used w i = true -> fr (wmem w) (wpage i) <> q;
  ho_owned : forall k p, foreign k -> owned m0 k p -> owned (wmem w) k p /\ frame_at (wmem w) p = frame_at m0 p;
  ho_pte : forall k, foreign k -> pte (wmem w) k = pte m0 k;
  ho_high : NxpHighestPfn (sup (wmem w)) = NxpHighestPfn (sup m0)
}.

Lemma wpage_window i : 0 <= i < 4096 -> pool_page (wpage i).
Proof. unfold pool_page, wpage. lia. Qed.

(** The frames of the window's pages are not a foreign entry's. *)
Lemma window_frame_foreign w i k : window_ok w -> 0 <= i < 4096 -> used w i = true -> foreign k -> ~ owned (wmem w) k (fr (wmem w) (wpage i)).
Proof.
  intros O Hi Hu [Hf _] (_ & _ & Hl & Hk). destruct (wo_page _ O i Hi Hu) as [(_ & _ & [E | E]) _]; [congruence |].
  apply Hf. rewrite <- Hl, E. by apply wpage_window.
Qed.

(** One step of the window that keeps the frames in use but for [D]. *)
Lemma holds_step m0 S D w w' : window_ok w -> holds m0 S w -> frames_kept D (wmem w) (wmem w') -> outside_same (wmem w) (wmem w') ->
  (forall q, D q -> exists i, 0 <= i < 4096 /\ used w i = true /\ q = fr (wmem w) (wpage i)) ->
  (forall i, 0 <= i < 4096 -> used w' i = true ->
     fr (wmem w') (wpage i) ∈ free_set (sup (wmem w)) \/ used w i = true /\ fr (wmem w') (wpage i) = fr (wmem w) (wpage i)) ->
  holds m0 S w'.
Proof.
  intros O [P A Ow Pt H] K Os HD Hu.
  assert (ND : forall q, q ∈ S -> ~ D q) by (intros q Hq (i & Hi & Hui & ->)%HD; by apply (A _ i Hq)).
  assert (Kq : forall q, q ∈ S -> pinned (wmem w') q /\ frame_at (wmem w') q = frame_at (wmem w) q).
  { intros q Hq. destruct (P q Hq) as [Hp _]. split; [apply (fk_pinned _ _ _ K); auto |]. apply (fk_frame _ _ _ K); [| auto].
    destruct Hp as (? & ? & _). by split. }
  constructor.
  - intros q Hq. destruct (Kq q Hq) as [? ->]. split; [done | by apply P].
  - intros q i Hq Hi Hui E. destruct (Hu i Hi Hui) as [Hf | [Hui' E']].
    + destruct (P q Hq) as [(_ & Hn & _) _]. apply Hn. by rewrite <- E.
    + apply (A q i Hq Hi Hui'). congruence.
  - intros k p Hk Ho. destruct (Ow k p Hk Ho) as [Ho1 E1].
    assert (Np : ~ D p) by (intros (i & Hi & Hui & ->)%HD; by apply (window_frame_foreign w i k O Hi Hui Hk)).
    split; [by apply (fk_owned _ _ _ K) |]. rewrite (fk_frame _ _ _ K); [done | | done]. destruct Ho1 as (? & ? & _). by split.
  - intros k Hk. rewrite Os by apply Hk. by apply Pt.
  - rewrite (fk_high _ _ _ K). exact H.
Qed.

(** The page layer with a snapshot. *)
Definition held_ok (m0 : mm) (S : gset Z) (w : window) : Prop := window_ok w /\ holds m0 S w.

Lemma runs_run_at w w' : runs w' = runs w -> forall s, run_at w' s = run_at w s.
Proof.
  intros E s. destruct (decide (run_at w s = 0)) as [H0 | Hn]; [destruct (decide (run_at w' s = 0)) as [| Hn']; [congruence |] |].
  - assert (Es : runs w' !! s = Some (run_at w' s)) by (by apply runs_lookup). rewrite E in Es. apply runs_lookup in Es as [Es _]. congruence.
  - assert (Es : runs w !! s = Some (run_at w s)) by (by apply runs_lookup). rewrite <- E in Es. by apply runs_lookup in Es as [Es _].
Qed.

Lemma used_by_runs w w' i : window_ok w -> window_ok w' -> (forall s, run_at w' s = run_at w s) -> 0 <= i < 4096 -> used w' i = true -> used w i = true.
Proof. intros O O' R Hi Hu. apply (wo_runs _ O' i Hi) in Hu as [s Hs]. apply (wo_runs _ O i Hi). exists s. by rewrite <- R. Qed.

Lemma held_alloc_law m0 S w bytes : held_ok m0 S w -> 0 < bytes < 2 ^ 32 ->
  exists r w', NxPoolPagesAlloc w bytes = Some (r, w') /\ held_ok m0 S w' /\
    ((r = 0 /\ runs w' = runs w) \/
     exists i, r = NXPP_BASE + 4096 * i /\ vacant (runs w) i ((bytes + 4095) / 4096) /\ runs w' = <[i := (bytes + 4095) / 4096]> (runs w)).
Proof.
  intros [O Hh] Hb. destruct (window_alloc_law w bytes O Hb) as (r & w' & E & O' & Hr). exists r, w'. split; [done |]. split; [| done].
  destruct (window_alloc_spec w bytes O Hb) as (r2 & w2 & E2 & _ & Os & K & _ & _ & Pu & Hr2). rewrite E in E2. injection E2 as <- <-.
  split; [done |]. apply (holds_step m0 S none w w' O Hh K Os); [done |].
  assert (Fu : forall i, 0 <= i < 4096 -> used w i = true -> fr (wmem w') (wpage i) = fr (wmem w) (wpage i)) by (intros i Hi Hu; unfold fr; by rewrite Pu).
  intros i Hi Hu. destruct Hr2 as [(_ & Hs & _) | (s & _ & _ & Hs & Hf & _)].
  { right. pose proof (used_by_runs w w' i O O' Hs Hi Hu). auto. }
  apply (wo_runs _ O' i Hi) in Hu as [t Ht]. rewrite Hs in Ht. case_decide as Et.
  - left. apply (Hf (fr (wmem w') (wpage i))). exists (wpage i). split; [| done]. rewrite Hs, decide_True by done. unfold wpage. subst t. lia.
  - right. assert (Hu : used w i = true) by (apply (wo_runs _ O i Hi); by exists t). auto.
Qed.

Lemma held_free_law m0 S w i n : held_ok m0 S w -> runs w !! i = Some n ->
  exists w', NxPoolPagesFree w (NXPP_BASE + 4096 * i) = (n, w') /\ held_ok m0 S w' /\ runs w' = delete i (runs w).
Proof.
  intros [O Hh] Hi. pose proof Hi as [<- Hn]%runs_lookup. destruct (window_free_law w i _ O Hi) as (w' & E & O' & Rd). exists w'.
  split; [done |]. split; [| done]. destruct (window_free_spec w i O Hn) as (w2 & E2 & _ & P & _ & K & _ & Rt & _). rewrite E in E2. injection E2 as <-.
  destruct (wo_run _ O i Hn) as (H0 & _ & H1). unfold NXPP_PAGES in H1.
  split; [done |]. apply (holds_step m0 S (run_frames w i) w w' O Hh K).
  - intros k Hk _. rewrite P, decide_False; [done |]. intros Hc. apply Hk. unfold pool_page, wpage in *. lia.
  - intros q (j & Hj & ->). exists (j - 0xC1000). unfold wpage in *. replace (0xC1000 + (j - 0xC1000)) with j by lia.
    split; [lia |]. split; [| done]. apply (wo_runs _ O); [lia |]. exists i. lia.
  - intros j Hj Hu. right. apply (wo_runs _ O' j Hj) in Hu as [t Ht]. rewrite Rt in Ht. case_decide as Et; [lia |].
    assert (Ht0 : run_at w t <> 0) by lia. split; [apply (wo_runs _ O j Hj); by exists t |]. unfold fr. rewrite P, decide_False; [done |].
    intros Hc. unfold wpage in Hc. destruct (Z.lt_ge_cases t i); [pose proof (wo_apart _ O t i Ht0 Hn) | pose proof (wo_apart _ O i t Hn Ht0)]; lia.
Qed.

Program Definition held_runs (m0 : mm) (S : gset Z) : PagePoolRuns window := {| pages_ok := held_ok m0 S; pages_runs := runs |}.
Next Obligation. intros m0 S w i n [O _]. by apply (@pages_bound window _ window_runs). Qed.
Next Obligation. intros m0 S w i j n k [O _]. by apply (@pages_apart window _ window_runs). Qed.
Next Obligation. exact held_alloc_law. Qed.
Next Obligation. exact held_free_law. Qed.

Lemma held_pool m0 S p : @pool_ok _ _ (held_runs m0 S) p <-> pool_ok p /\ holds m0 S (pages p).
Proof.
  split.
  - intros [[O H] B C D E F G]. split; [by constructor | done].
  - intros [[O B C D E F G] H]. by constructor.
Qed.

(** ** The pool's calls *)

Lemma shared_alloc m0 S n t p : pool_ok p -> holds m0 S (pages p) -> 0 <= n < 2 ^ 32 ->
  exists b p', ExAllocatePoolWithTag NonPagedPool n t p = Some (Ret b, p') /\ pool_ok p' /\ holds m0 S (pages p') /\ contents_kept p p' /\
    (b = 0 /\ same_live p p' /\ refused (page_bytes n) p' \/
     b <> 0 /\ (forall d, ~ live p b d) /\ forall x d, live p' x d <-> live p x d \/ x = b /\ d = block_for n t).
Proof.
  intros O H Hn. assert (Oh : @pool_ok _ _ (held_runs m0 S) p) by (by apply held_pool).
  destruct (alloc_spec NonPagedPool n t p Oh Hn) as (o & p' & E & [O' H']%held_pool & K & Al).
  destruct Al as [(F & L & Ne & s & s' & [Os _] & Rs) | (b & -> & Hb & Nl & L)]; [| exists b, p'; split_and!; [done | done | done | done | by right]].
  destruct o as [b | Code P1 P2 P3 P4 | Status]; [| by destruct F | by destruct F as (_ & _ & ?)].
  destruct F as [-> _]. exists 0, p'. split_and!; [done | done | done | done |]. left. do 2 (split; [done |]). split; [done | by exists s, s'].
Qed.

Lemma shared_free m0 S b d t p : pool_ok p -> holds m0 S (pages p) -> live p b d -> tag_matches d t ->
  exists p', ExFreePoolWithTag b t p = (Ret tt, p') /\ pool_ok p' /\ holds m0 S (pages p') /\ others_kept p p' b /\
    forall x e, live p' x e <-> live p x e /\ x <> b.
Proof.
  intros O H Hl Ht. assert (Oh : @pool_ok _ _ (held_runs m0 S) p) by (by apply held_pool).
  destruct (@free_spec_live _ _ (held_runs m0 S) p b d t Oh Hl Ht) as (p' & E & [O' H']%held_pool & K & L). by exists p'.
Qed.

(** A sweep that finds no empty page changes nothing. *)
Lemma reclaim_idle n : forall i F (p : pool window), empty_from p i n = 0 -> reclaim_pages n i F p = Some (F, p).
Proof.
  induction n as [| n IH]; intros i F p H; cbn [reclaim_pages]; [done |]. unfold empty_from in H. rewrite (seqZ_cons i) in H by lia.
  replace (Z.pred (Z.of_nat (S n))) with (Z.of_nat n) in H by lia. rewrite filter_cons in H. case_decide as Hd; cbn [length] in H; [lia |].
  unfold reclaim_page. rewrite (proj2 (Z.eqb_neq _ _) Hd). cbn [negb]. rewrite IH; [done |]. unfold empty_from. replace (i + 1) with (Z.succ i) by lia. exact H.
Qed.

Lemma sweep_idle (p : pool window) : empty_from p 0 (Z.to_nat NXPP_PAGES) = 0 -> NxpReclaimEmptyBucketPages p = Some (0, p).
Proof. exact (reclaim_idle (Z.to_nat NXPP_PAGES) 0 0 p). Qed.

Lemma shared_sweep m0 S p : pool_ok p -> holds m0 S (pages p) ->
  exists n p', NxpReclaimEmptyBucketPages p = Some (n, p') /\ pool_ok p' /\ holds m0 S (pages p') /\ contents_kept p p' /\ same_live p p' /\
    no_empty p' /\ (n = 0 -> p' = p).
Proof.
  intros O H. assert (Oh : @pool_ok _ _ (held_runs m0 S) p) by (by apply held_pool).
  destruct (@reclaim_spec _ _ (held_runs m0 S) p Oh) as (p' & E & [O' H']%held_pool & K & L & Ne & _). exists (empty_from p 0 (Z.to_nat NXPP_PAGES)), p'.
  do 6 (split; [assumption |]). intros Hz. pose proof (eq_trans (eq_sym E) (sweep_idle p Hz)) as E1. by apply some_pair in E1 as [_ ->].
Qed.

(** ** What the others do

    [rest_kept D m m']: every owned entry shows the same frame contents under
    a possibly different frame, the other entries are untouched, and so are
    the immovable frames outside [D]. *)

Record rest_kept (D : gset Z) (m m' : mm) : Prop := {
  rk_mm : mm_wf m';
  rk_owned : forall k p, owned m k p -> exists p', owned m' k p' /\ frame_at m' p' = frame_at m p /\ Z.land (pte m' k) 4095 = Z.land (pte m k) 4095;
  rk_other : forall k, (forall p, ~ owned m k p) -> pte m' k = pte m k /\ forall p, ~ owned m' k p;
  rk_pinned : forall p, pinned m p -> p ∉ D -> pinned m' p /\ frame_at m' p = frame_at m p;
  rk_high : NxpHighestPfn (sup m') = NxpHighestPfn (sup m)
}.

Lemma view_rest m m' : mm_wf m' -> view_kept m m' -> rest_kept ∅ m m'.
Proof. intros W [A B C E]. constructor; [done | done | done | | done]. intros p Hp _. by apply C. Qed.

Lemma rest_trans D D' m1 m2 m3 : rest_kept D m1 m2 -> rest_kept D' m2 m3 -> rest_kept (D ∪ D') m1 m3.
Proof.
  intros [W1 O1 N1 P1 H1] [W2 O2 N2 P2 H2]. constructor; [done | | | | congruence].
  - intros k p Ho. destruct (O1 k p Ho) as (p2 & Ho2 & F2 & E2). destruct (O2 k p2 Ho2) as (p3 & Ho3 & F3 & E3).
    exists p3. split_and!; [done | congruence | congruence].
  - intros k Hk. destruct (N1 k Hk) as [E1 K1]. destruct (N2 k K1) as [E2 K2]. split; [congruence | done].
  - intros p Hp [Hd Hd']%not_elem_of_union. destruct (P1 p Hp Hd) as [Q1 F1]. destruct (P2 p Q1 Hd') as [Q2 F2]. split; [done | congruence].
Qed.

(** A run of free frames taken. *)
Lemma took_run_rest m b n s' : mm_wf m -> supply_wf s' -> 0 <= n -> run_free (sup m) b n -> free_set s' = free_set (sup m) ∖ pages_of b n ->
  (forall q, b <= q < b + n -> link s' q = 0) -> used_kept (sup m) s' -> NxpHighestPfn s' = NxpHighestPfn (sup m) ->
  rest_kept ∅ m (with_sup s' m) /\ forall q, b <= q < b + n -> pinned (with_sup s' m) q.
Proof.
  intros [W O] W' Hn Fr F L U H.
  assert (Hin : forall q, q ∈ pages_of b n -> q ∈ free_set (sup m)) by (intros q Hq; apply Fr; by apply elem_of_pages_of in Hq).
  assert (Hu : forall q, q ∉ free_set (sup m) -> (q ∉ free_set s') /\ link s' q = link (sup m) q).
  { intros q Hq. assert (Hq' : q ∉ free_set s') by (rewrite F; clear -Hq; set_solver). split; [done | by apply U]. }
  assert (Ow : forall k q, owned (with_sup s' m) k q <-> owned m k q).
  { intros k q. unfold owned, in_range. cbn [sup with_sup]. rewrite H. split.
    - intros (A & B & C & E). destruct (decide (q ∈ free_set (sup m))) as [Hq | Hq].
      + exfalso. assert (Hp : q ∈ pages_of b n) by (destruct (decide (q ∈ pages_of b n)); [done | exfalso; apply B; rewrite F; by apply elem_of_difference]).
        apply elem_of_pages_of in Hp; [| done]. rewrite L in C by done. congruence.
      + destruct (Hu q Hq) as [_ E']. do 2 (split; [done |]). split; [congruence | done].
    - intros (A & B & C & E). destruct (Hu q B) as [B' E']. do 2 (split; [done |]). split; [congruence | done]. }
  split; [constructor; [| | | | done] |].
  - constructor; [done |]. intros k p Ho%Ow. by apply O.
  - intros k p Ho. exists p. split; [by apply Ow | done].
  - intros k Hk. split; [done |]. intros p Ho%Ow. by apply (Hk p).
  - intros p (A & B & C) _. destruct (Hu p B) as [B' E']. split; [| done]. unfold pinned, in_range. cbn [sup with_sup]. rewrite H. do 2 (split; [done |]). first [congruence | split; [congruence | done]].
  - intros q Hq. assert (Hp : q ∈ pages_of b n) by (by apply elem_of_pages_of). pose proof (free_set_range _ _ W (Hin q Hp)) as Hr.
    unfold pinned, in_range in *. cbn [sup with_sup]. rewrite H, F. split; [done |]. split; [clear -Hp; set_solver | by apply L].
Qed.

(** A frame that nobody else holds given back. *)
Lemma returned_rest m q : mm_wf m -> pinned m q ->
  let m' := with_sup (NxkPageSupplyReturn (sup m) q) m in
  rest_kept {[q]} m m' /\ free_set (sup m') = {[q]} ∪ free_set (sup m).
Proof.
  intros [W O] (Hr & Hf & Hl) m'. destruct (return_wf (sup m) q W Hr Hf) as (W2 & F2 & U2). destruct (return_fields (sup m) q) as (H2 & _).
  change (NxkPageSupplyReturn (sup m) q) with (sup m') in W2, F2, U2, H2.
  assert (HL : forall p, p <> q -> p ∉ free_set (sup m) -> (p ∉ free_set (sup m')) /\ link (sup m') p = link (sup m) p).
  { intros p Hp Hpf. assert (p ∉ free_set (sup m')) by (rewrite F2; clear -Hp Hpf; set_solver). split; [done | by apply U2]. }
  assert (Ow : forall k p, owned m' k p <-> owned m k p).
  { intros k p. unfold owned, in_range. rewrite H2. destruct (decide (p = q)) as [-> | Hp].
    - split; [intros (_ & A & _); exfalso; apply A; rewrite F2; clear; set_solver | intros (_ & _ & A & B); congruence].
    - split; intros (A & B & C & E).
      + assert (Hpf : p ∉ free_set (sup m)) by (rewrite F2 in B; clear -B; set_solver). destruct (HL p Hp Hpf) as [_ E']. do 2 (split; [done |]). first [congruence | split; [congruence | done]].
      + destruct (HL p Hp B) as [B' E']. do 2 (split; [done |]). first [congruence | split; [congruence | done]]. }
  split; [constructor; [| | | | done] | done].
  - constructor; [done |]. intros k p Ho%Ow. by apply O.
  - intros k p Ho. exists p. split; [by apply Ow | done].
  - intros k Hk. split; [done |]. intros p Ho%Ow. by apply (Hk p).
  - intros p (A & B & C) Hp%not_elem_of_singleton. destruct (HL p Hp B) as [B' E']. split; [| done].
    unfold pinned, in_range. rewrite H2. do 2 (split; [done |]). first [congruence | split; [congruence | done]].
Qed.

(** ** The window under the others' steps *)

#[local] Instance owned_dec m k p : Decision (owned m k p).
Proof. unfold owned, in_range. apply _. Defined.

(** An entry is owned, by the frame it names, or by none. *)
Lemma owned_or_not m k : mm_wf m -> owned m k (fr m k) \/ forall p, ~ owned m k p.
Proof.
  intros W. destruct (decide (owned m k (fr m k))) as [Ho | Hn]; [by left | right]. intros p Ho. apply Hn.
  unfold fr. by rewrite (mm_owner _ W _ _ Ho).
Qed.

Lemma zero_unowned m k : mm_wf m -> pte m k = 0 -> forall p, ~ owned m k p.
Proof. intros W E p Ho. pose proof (mm_owner _ W _ _ Ho) as Ep. rewrite E in Ep. change (0 / 2 ^ 12) with 0 in Ep. destruct Ho as ((? & _) & _). lia. Qed.

Section rest.
Context (D : gset Z) (m m' : mm) (W : mm_wf m) (R : rest_kept D m m').

Lemma rest_zero k : pte m k = 0 -> pte m' k = 0.
Proof. intros E. rewrite <- E. apply (rk_other _ _ _ R). by apply zero_unowned. Qed.

Lemma rest_low k : Z.land (pte m' k) 4095 = Z.land (pte m k) 4095.
Proof.
  destruct (owned_or_not m k W) as [Ho | Hn]; [by destruct (rk_owned _ _ _ R _ _ Ho) as (p' & _ & _ & ?) |].
  by destruct (rk_other _ _ _ R k Hn) as [-> _].
Qed.

Lemma rest_present k : present (pte m' k) = present (pte m k).
Proof. unfold present, BooleanFlagOn, NXV_PTE_P. change 1 with (Z.land 4095 1). by rewrite !Z.land_assoc, rest_low. Qed.

Lemma rest_mapped k p : k <> 0 -> mapped m k p -> (p ∉ D) ->
  (owned m' k (fr m' k) /\ pte m' k = entry (fr m' k) 3 /\ frame_at m' (fr m' k) = frame_at m p) \/
  (pte m' k = pte m k /\ pinned m p /\ pinned m' p /\ frame_at m' p = frame_at m p).
Proof.
  intros Hk (E & [Hr Hf] & Hl) Hd. assert (Ep : fr m k = p) by (unfold fr; rewrite E; apply entry_frame; lia). destruct Hl as [Hl | Hl].
  - right. assert (Hp : pinned m p) by (by split_and!; try apply Hr). destruct (rk_pinned _ _ _ R p Hp Hd) as [Hp' Fp]. split; [| done].
    apply (rk_other _ _ _ R). intros q Ho. pose proof (mm_owner _ W _ _ Ho) as Eq. unfold fr in Ep. rewrite Ep in Eq. subst q.
    destruct Ho as (_ & _ & ? & ?). congruence.
  - left. destruct (rk_owned _ _ _ R k p) as (p' & Ho' & F' & L'); [by split_and!; try apply Hr |].
    assert (Ep' : fr m' k = p') by (apply (mm_owner _ (rk_mm _ _ _ R) _ _ Ho')). rewrite Ep'. split_and!; [done | | done].
    rewrite E in L'. change 4095 with (Z.ones 12) in L'. rewrite !Z.land_ones in L' by lia. change (2 ^ 12) with 4096 in L'.
    rewrite entry_low in L' by lia. pose proof (Z.div_mod (pte m' k) 4096 ltac:(lia)) as Dv. unfold fr in Ep'. change (2 ^ 12) with 4096 in Ep'.
    unfold entry. lia.
Qed.

End rest.

Lemma window_rest D w m' : window_ok w -> rest_kept D (wmem w) m' ->
  (forall q i, q ∈ D -> 0 <= i < 4096 -> used w i = true -> fr (wmem w) (wpage i) <> q) -> window_ok (with_wmem m' w).
Proof.
  intros O R Ap. set (m := wmem w) in *. pose proof (tb_mm _ (wo_tables _ O)) as W. pose proof (rk_mm _ _ _ R) as W'.
  assert (Pg : forall i, 0 <= i < 4096 -> used w i = true -> let k := wpage i in let p := fr m k in
    (owned m' k (fr m' k) /\ pte m' k = entry (fr m' k) 3 /\ frame_at m' (fr m' k) = frame_at m p) \/
    (pte m' k = pte m k /\ pinned m p /\ pinned m' p /\ frame_at m' p = frame_at m p)).
  { intros i Hi Hu. apply (rest_mapped D m m' W R); [unfold wpage; lia | by apply (wo_page _ O) |]. intros Hd. by apply (Ap _ i Hd). }
  constructor; cbn [wmem with_wmem]; [| apply (wo_map _ O) | | | | apply (wo_hint _ O) | apply (wo_run _ O) | apply (wo_runs _ O) | apply (wo_apart _ O) | apply (wo_committed _ O) | apply (wo_ready _ O)].
  - constructor; [done | |].
    + intros k p Hk Ho'. rewrite (rest_present D m m' W R). destruct (owned_or_not m k W) as [Ho | Hn]; [by apply (tb_pde _ (wo_tables _ O) k (fr m k)) |].
      exfalso. by apply (proj2 (rk_other _ _ _ R k Hn) p).
    + intros k Hk. rewrite (rest_present D m m' W R). intros Ha. apply (rest_zero D m m' W R). by apply (tb_block _ (wo_tables _ O)).
  - intros i Hi Hu. destruct (wo_page _ O i Hi Hu) as [Hm Hp]. rewrite (rest_present D m m' W R). split; [| done].
    destruct (Pg i Hi Hu) as [(Ho & E & _) | (E & Hp1 & Hp2 & _)].
    + destruct Ho as (A & B & C & _). split; [done |]. split; [by split | by right].
    + assert (Ef : fr m' (wpage i) = fr m (wpage i)) by (unfold fr; by rewrite E). rewrite Ef. destruct Hp2 as (A & B & C).
      split; [rewrite E; apply Hm |]. split; [by split | by left].
  - intros i Hi Hu. apply (rest_zero D m m' W R). by apply (wo_unused _ O).
  - intros i j Hi Hj Hui Huj E. destruct (Pg i Hi Hui) as [(Ho & _) | (Ei & Hpi & Hpi' & _)], (Pg j Hj Huj) as [(Ho2 & _) | (Ej & Hpj & Hpj' & _)].
    + destruct Ho as (_ & _ & L1 & _), Ho2 as (_ & _ & L2 & _). rewrite E in L1. unfold wpage in *. lia.
    + assert (Ef : fr m' (wpage j) = fr m (wpage j)) by (unfold fr; by rewrite Ej). rewrite E, Ef in Ho.
      destruct Ho as (_ & _ & L1 & L2), Hpj' as (_ & _ & L3). congruence.
    + assert (Ef : fr m' (wpage i) = fr m (wpage i)) by (unfold fr; by rewrite Ei). rewrite <- E, Ef in Ho2.
      destruct Ho2 as (_ & _ & L1 & L2), Hpi' as (_ & _ & L3). congruence.
    + apply (wo_inj _ O i j); try done. unfold fr in *. rewrite Ei, Ej in E. exact E.
Qed.

(** The pool under such a step. *)
Definition set_memory (m : mm) (p : pool window) : pool window := with_pages (with_wmem m (pages p)) p.

Lemma pool_rest D p m' : pool_ok p -> rest_kept D (wmem (pages p)) m' ->
  (forall q i, q ∈ D -> 0 <= i < 4096 -> used (pages p) i = true -> fr (wmem (pages p)) (wpage i) <> q) ->
  pool_ok (set_memory m' p) /\ same_live p (set_memory m' p).
Proof.
  intros O R Ap. apply with_pages_ok; [done | | done]. by apply (window_rest D (pages p) m' (po_pages _ O) R).
Qed.

(** Frames that are immovable now, and before were another component's or not
    immovable, are not the window's. *)
Lemma apart_rest D w m' q i : window_ok w -> rest_kept D (wmem w) m' ->
  (forall q i, q ∈ D -> 0 <= i < 4096 -> used w i = true -> fr (wmem w) (wpage i) <> q) ->
  pinned m' q -> ~ pinned (wmem w) q \/ fr (wmem w) (wpage i) <> q -> 0 <= i < 4096 -> used w i = true -> fr m' (wpage i) <> q.
Proof.
  intros O R Ap Hq Hor Hi Hu E. pose proof (tb_mm _ (wo_tables _ O)) as W.
  destruct (rest_mapped D (wmem w) m' W R (wpage i) (fr (wmem w) (wpage i))) as [(Ho & _) | (Ei & Hp & _)].
  - unfold wpage. lia.
  - by apply (wo_page _ O).
  - intros Hd. by apply (Ap _ i Hd).
  - rewrite E in Ho. destruct Ho as (_ & _ & L1 & L2), Hq as (_ & _ & L3). congruence.
  - assert (Ef : fr m' (wpage i) = fr (wmem w) (wpage i)) by (unfold fr; by rewrite Ei). rewrite Ef in E. rewrite E in Hp. by destruct Hor.
Qed.
