(* ===== verification/Contig.v ===== *)
(** * Contiguous memory

    [ntoskrnl/xb/mm/contig.c] as it is built, with the page supply as the one
    pool of frames: [NxMmAllocateContiguousMemoryEx] takes the highest run of
    frames in the caller's window, relocating movable frames or sweeping the
    pool's empty pages when there is none, and records it in a table that
    starts in the image and moves to the pool, doubling, as it fills;
    [NxMmFreeContiguousMemory] and [NxMmQueryAllocationSize] look there.
    [NxMmClaimGpuInstanceMemory] reserves the frames at the top of memory that
    the graphics chip uses, [NxkMmDonateHeapPages] gives frames to the supply.

    The table's array is kept in the state as a list; the pool, of [Pool.v]
    over the window of [PoolPages.v], holds the block it lives in.  The calls
    run after the start of the kernel, when [NxkMmEnsureXboxWindows] has
    nothing left to do.  A call is one step; [ContigRace.v] takes it apart at
    its locks. *)

From stdpp Require Import prelude gmap list numbers sets.
From Stdlib Require Import ZArith Lia.
From S2P Require Import Prelude PageSupply Paging Vm PoolPages Pool PoolShare.

Local Open Scope Z_scope.

(** ** Constants and state *)

Definition NXK_KSEG0_BASE : Z := 0x80000000.
Definition NXK_NV2A_INSTANCE_BASE : Z := 0x03FE0000.
Definition NXK_NV2A_INSTANCE_BYTES : Z := 0x00010000.
Definition NXK_NV2A_PADDING_BYTES : Z := 0x00010000.
Definition NXK_NV2A_HEAP_CEILING : Z := NXK_KSEG0_RAM_SIZE - NXK_NV2A_PADDING_BYTES.
Definition NXK_CONTIG_INITIAL_SLOTS : Z := 64.
Definition NXK_CONTIG_TAG : Z := 0x6743784E.
Definition MAXULONG_PTR : Z := 0xFFFFFFFF.

Record NXK_CONTIG_ENTRY : Type := ContigEntry { Alias : Z; Pa : Z; PaEnd : Z; CSize : Z }.

Definition zero_entry : NXK_CONTIG_ENTRY := ContigEntry 0 0 0 0.

(** [TableBlock] is the pool block of the table, 0 while it is the array
    [NxContigInitial] of the image. *)
Record contig : Type := Contig {
  kpool : pool window;
  NxContigTable : list NXK_CONTIG_ENTRY;
  TableBlock : Z;
  NxContigHint : Z;
  NxkNv2aInstanceBytes : Z
}.

Definition NxContigSlots (c : contig) : Z := Z.of_nat (length (NxContigTable c)).
Definition slot_at (c : contig) (i : Z) : NXK_CONTIG_ENTRY := nth (Z.to_nat i) (NxContigTable c) zero_entry.
Definition cmm (c : contig) : mm := wmem (pages (kpool c)).

Definition set_pool (p : pool window) (c : contig) : contig :=
  Contig p (NxContigTable c) (TableBlock c) (NxContigHint c) (NxkNv2aInstanceBytes c).
Definition set_mm (m : mm) (c : contig) : contig := set_pool (set_memory m (kpool c)) c.
Definition set_table (t : list NXK_CONTIG_ENTRY) (c : contig) : contig :=
  Contig (kpool c) t (TableBlock c) (NxContigHint c) (NxkNv2aInstanceBytes c).
Definition set_scan (h : Z) (c : contig) : contig :=
  Contig (kpool c) (NxContigTable c) (TableBlock c) h (NxkNv2aInstanceBytes c).
Definition set_claim (n : Z) (c : contig) : contig :=
  Contig (kpool c) (NxContigTable c) (TableBlock c) (NxContigHint c) n.

(** The image's table at the start: 64 free slots, nothing claimed. *)
Definition contig_boot (p : pool window) : contig :=
  Contig p (replicate (Z.to_nat NXK_CONTIG_INITIAL_SLOTS) zero_entry) 0 0 0.

(** *** Runs

    A call may stop the machine in the pool ([outcome]); the [option] is the
    fuel of the loops below it. *)
Definition K (A : Type) : Type := contig -> option (outcome A * contig).

#[global] Instance K_ret : MRet K := fun A a c => Some (Ret a, c).
#[global] Instance K_bind : MBind K := fun A B (k : A -> K B) (m : K A) c =>
  match m c with
  | None => None
  | Some (Ret a, c) => k a c
  | Some (KeBugCheckEx Code P1 P2 P3 P4, c) => Some (KeBugCheckEx Code P1 P2 P3 P4, c)
  | Some (ExRaiseStatus Status, c) => Some (ExRaiseStatus Status, c)
  end.

Definition get : K contig := fun c => Some (Ret c, c).
Definition put (f : contig -> contig) : K unit := fun c => Some (Ret tt, f c).
Definition no_fuel {A} : K A := fun _ => None.

(** An operation of the page tables and the supply, of the supply alone, of
    the pool. *)
Definition on_mm {A} (f : mm -> option (A * mm)) : K A := fun c =>
  match f (cmm c) with None => None | Some (a, m) => Some (Ret a, set_mm m c) end.
Definition on_sup {A} (f : supply -> option (A * supply)) : K A :=
  on_mm (fun m => match f (sup m) with None => None | Some (a, s) => Some (a, with_sup s m) end).
Definition on_pool {A} (f : pool window -> option (outcome A * pool window)) : K A := fun c =>
  match f (kpool c) with None => None | Some (o, p) => Some (o, set_pool p c) end.

(** ** The table *)

(** The walk for a free slot, wrapping at the end. *)
Fixpoint slot_scan (n : nat) (c : contig) (Slot : Z) : option Z :=
  match n with
  | O => None
  | S n' =>
      if Alias (slot_at c Slot) =? 0 then Some Slot
      else slot_scan n' c (if Slot + 1 =? NxContigSlots c then 0 else Slot + 1)
  end.

Definition NxpContigFindFreeSlotLocked (c : contig) : Z * contig :=
  match slot_scan (length (NxContigTable c)) c (NxContigHint c) with
  | Some Slot => (Slot, set_scan (if Slot + 1 <? NxContigSlots c then Slot + 1 else 0) c)
  | None => (NxContigSlots c, c)
  end.

(** The copy and the swap, under the lock, and the array no longer in use. *)
Definition grow_swap (c : contig) (OldSlots NewSlots New : Z) : Z * contig :=
  if NxContigSlots c =? OldSlots then
    (TableBlock c,
     Contig (kpool c)
       (take (Z.to_nat OldSlots) (NxContigTable c) ++ replicate (Z.to_nat (NewSlots - OldSlots)) zero_entry)
       New OldSlots (NxkNv2aInstanceBytes c))
  else (New, c).

Definition free_block_opt (b : Z) : K unit :=
  if b =? 0 then mret tt else on_pool (fun p => Some (ExFreePoolWithTag b NXK_CONTIG_TAG p)).

(** Each entry has 16 bytes. *)
Definition NxpContigGrow (OldSlots : Z) : K bool :=
  let NewSlots := mul32 OldSlots 2 in
  New ← on_pool (ExAllocatePoolWithTag NonPagedPool (mul32 NewSlots 16) NXK_CONTIG_TAG);
  if New =? 0 then mret false
  else
    c ← get;
    let '(unused, c) := grow_swap c OldSlots NewSlots New in
    put (fun _ => c);;
    free_block_opt unused;;
    mret true.

(** [None] is the failure; a table that was grown has a free slot, so two
    rounds are enough. *)
Fixpoint take_slot (fuel : nat) : K (option Z) :=
  match fuel with
  | O => no_fuel
  | S fuel' =>
      c ← get;
      let '(Slot, c) := NxpContigFindFreeSlotLocked c in
      put (fun _ => c);;
      if negb (Slot =? NxContigSlots c) then mret (Some Slot)
      else
        grown ← NxpContigGrow (NxContigSlots c);
        if grown : bool then take_slot fuel' else mret None
  end.

Definition NxpContigTakeSlot : K (option Z) := take_slot 2.

Definition NxpRecordHeapContigLocked (Slot Alias' Pa' AllocBytes RequestSize : Z) (c : contig) : contig :=
  set_table (<[Z.to_nat Slot := ContigEntry Alias' Pa' (add32 Pa' AllocBytes) RequestSize]> (NxContigTable c)) c.

(** ** Allocation *)

(** The run, from free frames or by relocation. *)
Definition take_frames (RunPages LowPfn HighPfn AlignPages : Z) : K Z :=
  Base ← on_sup (fun s => NxkPageSupplyTakeRun s RunPages LowPfn HighPfn AlignPages);
  if Base =? 0 then on_mm (fun m => NxkPageSupplyTakeRunRelocate m RunPages LowPfn HighPfn AlignPages)
  else mret Base.

Definition alloc_bytes (NumberOfBytes : Z) : Z := Z.land (sub32 (add32 NumberOfBytes PAGE_SIZE) 1) (not32 (PAGE_SIZE - 1)).

(** The upper bound after the two clamps. *)
Definition clamp_high (Lowest Highest : Z) : Z :=
  let Highest := if NXK_KSEG0_RAM_SIZE - 1 <? Highest then NXK_KSEG0_RAM_SIZE - 1 else Highest in
  if (Lowest <? NXK_NV2A_INSTANCE_BASE) && (NXK_NV2A_INSTANCE_BASE <=? Highest) then NXK_NV2A_INSTANCE_BASE - 1 else Highest.

Definition low_pfn (Lowest : Z) : Z := Z.shiftr (sub32 (add32 Lowest PAGE_SIZE) 1) PAGE_SHIFT.

(** The sum and the difference are taken in 64 bits, the result in 32. *)
Definition high_pfn (Highest : Z) : Z := u32 (u64 (Z.shiftr (u64 (Highest + 1)) PAGE_SHIFT - 1)).

Definition align_pages (Alignment : Z) : Z := if Alignment <=? PAGE_SIZE then 1 else Z.shiftr Alignment PAGE_SHIFT.

Definition record_run (Slot Base NumberOfBytes : Z) : K Z :=
  let Pa := shl32 Base PAGE_SHIFT in
  let Alias := Z.lor NXK_KSEG0_BASE Pa in
  put (NxpRecordHeapContigLocked Slot Alias Pa (alloc_bytes NumberOfBytes) NumberOfBytes);;
  mret Alias.

(** An attempt after the sweep, under the lock again, in the slot reserved
    before. *)
Definition retry_in_slot (Slot NumberOfBytes RunPages LowPfn HighPfn AlignPages : Z) : K Z :=
  Base ← take_frames RunPages LowPfn HighPfn AlignPages;
  if negb (Base =? 0) then record_run Slot Base NumberOfBytes else mret 0.

Definition sweep_pool : K Z :=
  on_pool (fun p => match NxpReclaimEmptyBucketPages p with None => None | Some (n, p) => Some (Ret n, p) end).

(** From the reservation of the slot to the [return]. *)
Definition alloc_in_slot (Slot NumberOfBytes RunPages LowPfn HighPfn AlignPages : Z) : K Z :=
  Base ← take_frames RunPages LowPfn HighPfn AlignPages;
  if negb (Base =? 0) then record_run Slot Base NumberOfBytes
  else
    swept ← sweep_pool;
    if swept =? 0 then mret 0 else retry_in_slot Slot NumberOfBytes RunPages LowPfn HighPfn AlignPages.

(** The address is 0 for failure. *)
Definition NxMmAllocateContiguousMemoryEx (NumberOfBytes LowestAcceptableAddress HighestAcceptableAddress Alignment : Z) : K Z :=
  let AllocBytes := alloc_bytes NumberOfBytes in
  if AllocBytes =? 0 then mret 0
  else
    let RunPages := Z.shiftr AllocBytes PAGE_SHIFT in
    let LowPfn := low_pfn LowestAcceptableAddress in
    let HighPfn := high_pfn (clamp_high LowestAcceptableAddress HighestAcceptableAddress) in
    let AlignPages := align_pages Alignment in
    taken ← NxpContigTakeSlot;
    match taken with
    | None => mret 0
    | Some Slot => alloc_in_slot Slot NumberOfBytes RunPages LowPfn HighPfn AlignPages
    end.

Definition NxMmAllocateContiguousMemory (NumberOfBytes : Z) : K Z :=
  NxMmAllocateContiguousMemoryEx NumberOfBytes 0 0xFFFFFFFF 0.

(** ** Free and query *)

(** The first slot with this address. *)
Fixpoint find_alias (t : list NXK_CONTIG_ENTRY) (Alias' : Z) (i : nat) : option nat :=
  match t with
  | [] => None
  | e :: t' => if Alias e =? Alias' then Some i else find_alias t' Alias' (S i)
  end.

(** [n] frames from [Pfn] on. *)
Fixpoint return_frames (n : nat) (s : supply) (Pfn : Z) : supply :=
  match n with
  | O => s
  | S n' => return_frames n' (NxkPageSupplyReturn s Pfn) (Pfn + 1)
  end.

Definition give_back (n : nat) (Pfn : Z) : K unit := on_sup (fun s => Some (tt, return_frames n s Pfn)).

(** Whether the address was found, and the request's size. *)
Definition NxpHeapFree (Alias' : Z) : K (bool * Z) :=
  c ← get;
  match find_alias (NxContigTable c) Alias' 0 with
  | None => mret (false, 0)
  | Some i =>
      let e := nth i (NxContigTable c) zero_entry in
      put (set_table (<[i := zero_entry]> (NxContigTable c)));;
      (if Pa e <? PaEnd e then give_back (npages (Pa e) (PaEnd e)) (Z.shiftr (Pa e) PAGE_SHIFT) else mret tt);;
      mret (true, CSize e)
  end.

Definition NxMmFreeContiguousMemory (BaseAddress : Z) : K unit :=
  NxpHeapFree BaseAddress;; mret tt.

Definition NxMmQueryAllocationSize (BaseAddress : Z) (c : contig) : Z :=
  match find_alias (NxContigTable c) BaseAddress 0 with
  | None => 0
  | Some i => CSize (nth i (NxContigTable c) zero_entry)
  end.

Definition NxMmPersistContiguousMemory (BaseAddress NumberOfBytes : Z) (Persist : bool) : K unit := mret tt.

Definition NxkMmDonateHeapPages (Pa' Pages : Z) : K unit := give_back (Z.to_nat Pages) (Z.shiftr Pa' PAGE_SHIFT).

(** ** Graphics memory *)

(** [while (NewLow < OldLow)]: [n] frames downwards, each taken, or cleared by
    moving its page away, or left as it is. *)
Fixpoint claim_down (n : nat) (OldLow : Z) : K unit :=
  match n with
  | O => mret tt
  | S n' =>
      let OldLow := OldLow - 1 in
      ok ← on_sup (fun s => Some (NxkPageSupplyTakeSpecific s OldLow));
      (if ok : bool then mret tt else on_mm (fun m => NxkPageSupplyTakeRunRelocate m 1 OldLow OldLow 1);; mret tt);;
      claim_down n' OldLow
  end.

(** The request rounded up to pages, at most the window. *)
Definition claim_bytes (NumberOfBytes : Z) : Z :=
  let Claim := Z.land (add32 NumberOfBytes (PAGE_SIZE - 1)) (not32 (PAGE_SIZE - 1)) in
  if NXK_NV2A_INSTANCE_BYTES <? Claim then NXK_NV2A_INSTANCE_BYTES else Claim.

(** The lowest frame of a claim. *)
Definition claim_low (Bytes : Z) : Z := Z.shiftr NXK_NV2A_HEAP_CEILING PAGE_SHIFT - Z.shiftr Bytes PAGE_SHIFT.

(** The new ceiling of the heap and the bytes of padding above. *)
Definition NxMmClaimGpuInstanceMemory (NumberOfBytes : Z) : K (Z * Z) :=
  (if NumberOfBytes =? MAXULONG_PTR then mret tt
   else
     c ← get;
     let Claim := claim_bytes NumberOfBytes in
     let NewLow := claim_low Claim in
     let OldLow := claim_low (NxkNv2aInstanceBytes c) in
     claim_down (Z.to_nat (OldLow - NewLow)) OldLow;;
     give_back (Z.to_nat (NewLow - OldLow)) OldLow;;
     put (set_claim Claim));;
  mret (Z.lor NXK_KSEG0_BASE NXK_NV2A_HEAP_CEILING, NXK_NV2A_PADDING_BYTES).

(** ** Invariant *)

(** Frames of a slot: none when it is free. *)
Definition entry_run (e : NXK_CONTIG_ENTRY) : gset Z := pages_of (Pa e / 4096) ((PaEnd e - Pa e) / 4096).
Definition table_frames (t : list NXK_CONTIG_ENTRY) : gset Z := ⋃ (map entry_run t).

Definition entry_ok (e : NXK_CONTIG_ENTRY) : Prop :=
  exists b, let n := (CSize e + 4095) / 4096 in
    0 < b /\ 0 < CSize e /\ b + n <= 32768 /\ Pa e = 4096 * b /\ PaEnd e = 4096 * (b + n) /\ Alias e = NXK_KSEG0_BASE + 4096 * b.

(** [X] are frames in use, immovable, and not the pool's. *)
Definition held (X : gset Z) (c : contig) : Prop := holds (cmm c) X (pages (kpool c)).

(** [G]: the frames of the graphics window that a claim has taken. *)
Record contig_ok (G : gset Z) (c : contig) : Prop := {
  co_pool : pool_ok (kpool c);
  co_held : held (table_frames (NxContigTable c) ∪ G) c;
  co_entry : forall i e, NxContigTable c !! i = Some e -> e = zero_entry \/ entry_ok e;
  co_apart : forall i j e f, i <> j -> NxContigTable c !! i = Some e -> NxContigTable c !! j = Some f -> entry_run e ## entry_run f;
  co_claim : table_frames (NxContigTable c) ## G;
  co_block : TableBlock c <> 0 -> live (kpool c) (TableBlock c) (block_for (16 * NxContigSlots c) NXK_CONTIG_TAG);
  co_slots : 0 < NxContigSlots c <= 2 ^ 20;
  co_hint : 0 <= NxContigHint c < NxContigSlots c;
  co_bytes : 0 <= NxkNv2aInstanceBytes c <= NXK_NV2A_INSTANCE_BYTES /\ NxkNv2aInstanceBytes c mod 4096 = 0;
  co_window : G ⊆ pages_of (claim_low (NxkNv2aInstanceBytes c)) (NxkNv2aInstanceBytes c / 4096)
}.

(** ** What a call leaves alone *)

(** The entry maps a frame of [X], or none of the supply's. *)
Definition settled (X : gset Z) (m : mm) (k : Z) : Prop := fr m k ∈ X \/ ~ in_range (sup m) (fr m k).

(** The frames [X] of others keep their contents and stay immovable; every
    page outside the pool's window keeps its flags and contents, and its
    frame when that is in [X]; and the pool's blocks, but for those of [M]
    before and [M'] after, are the same with the same contents. *)
Record keeps_but (M M' : Z -> Prop) (X : gset Z) (c c' : contig) : Prop := {
  ks_held : held X c';
  ks_frame : forall q, q ∈ X -> frame_at (cmm c') q = frame_at (cmm c) q;
  ks_owned : forall k p, foreign k -> owned (cmm c) k p -> exists p', owned (cmm c') k p' /\
    frame_at (cmm c') p' = frame_at (cmm c) p /\ Z.land (pte (cmm c') k) 4095 = Z.land (pte (cmm c) k) 4095;
  ks_settled : forall k, foreign k -> settled X (cmm c) k -> pte (cmm c') k = pte (cmm c) k;
  ks_high : NxpHighestPfn (sup (cmm c')) = NxpHighestPfn (sup (cmm c));
  ks_live : forall b d, (live (kpool c') b d /\ ~ M' b) <-> (live (kpool c) b d /\ ~ M b);
  ks_heap : forall b d a, live (kpool c) b d -> ~ M b -> b <= a < b + usize d -> rd (heap (kpool c')) a = rd (heap (kpool c)) a
}.

Arguments ks_held {M M'} X c c' _.
Arguments ks_live {M M'} X c c' _.
Arguments ks_heap {M M'} X c c' _.

(** The table's block aside. *)
Notation keeps X c c' := (keeps_but (fun b => b = TableBlock c) (fun b => b = TableBlock c') X c c').

Lemma held_intro X c : (forall q, q ∈ X -> pinned (cmm c) q) ->
  (forall q i, q ∈ X -> 0 <= i < 4096 -> used (pages (kpool c)) i = true -> fr (cmm c) (wpage i) <> q) -> held X c.
Proof. intros P A. by constructor; auto. Qed.

Lemma held_empty c : held ∅ c.
Proof. apply held_intro; intros q; clear; set_solver. Qed.

Lemma held_pinned X c q : held X c -> q ∈ X -> pinned (cmm c) q.
Proof. intros H Hq. by apply (ho_pin _ _ _ H). Qed.

Lemma held_sub X Y c : Y ⊆ X -> held X c -> held Y c.
Proof. intros S [P A _ _ _]. apply held_intro; [intros q Hq; by apply P, S | intros q i Hq; by apply A, S]. Qed.

Lemma held_union X Y c : held X c -> held Y c -> held (X ∪ Y) c.
Proof.
  intros [P A _ _ _] [P' A' _ _ _]. apply held_intro; [intros q [Hq | Hq]%elem_of_union | intros q i [Hq | Hq]%elem_of_union].
  - by apply P. - by apply P'. - by apply A. - by apply A'.
Qed.

Lemma held_of X m0 c : holds m0 X (pages (kpool c)) -> held X c.
Proof. intros [P A _ _ _]. apply held_intro; [intros q Hq; by apply P | done]. Qed.

Lemma pool_mm c : pool_ok (kpool c) -> mm_wf (cmm c).
Proof. intros O. apply (tb_mm _ (wo_tables _ (po_pages _ O))). Qed.

Lemma keeps_refl X c : held X c -> keeps X c c.
Proof. intros H. constructor; try done. intros k p _ Ho. by exists p. Qed.

Lemma keeps_but_trans {M1 M2 M3} X c1 c2 c3 : keeps_but M1 M2 X c1 c2 -> keeps_but M2 M3 X c2 c3 -> keeps_but M1 M3 X c1 c3.
Proof.
  intros [H1 F1 O1 S1 N1 L1 C1] [H2 F2 O2 S2 N2 L2 C2]. constructor; [done | | | | congruence | |].
  - intros q Hq. rewrite F2 by done. by apply F1.
  - intros k p Hk Ho. destruct (O1 k p Hk Ho) as (p2 & Ho2 & E2 & E2'). destruct (O2 k p2 Hk Ho2) as (p3 & Ho3 & E3 & E3').
    exists p3. split_and!; [done | congruence | congruence].
  - intros k Hk Hs. specialize (S1 k Hk Hs). rewrite S2; [done | done |]. unfold settled, fr, in_range in *. by rewrite S1, N1.
  - intros b d. rewrite L2. apply L1.
  - intros b d a Hl Hb Ha. destruct (proj2 (L1 b d) (conj Hl Hb)) as [Hl' Hb']. rewrite (C2 b d a Hl' Hb' Ha). by apply (C1 b d a).
Qed.

Lemma keeps_trans X c1 c2 c3 : keeps X c1 c2 -> keeps X c2 c3 -> keeps X c1 c3.
Proof. apply keeps_but_trans. Qed.

Lemma keeps_sub {M M'} X Y c c' : Y ⊆ X -> keeps_but M M' X c c' -> keeps_but M M' Y c c'.
Proof.
  intros S [H F O St N L C]. constructor; try done.
  - by apply (held_sub X).
  - intros q Hq. by apply F, S.
  - intros k Hk [Hs | Hs]; apply St; try done; [left; by apply S | by right].
Qed.

(** With more blocks set aside. *)
Lemma keeps_aside (M M' N : Z -> Prop) X c c' : keeps X c c' -> (forall b, M b <-> b = TableBlock c \/ N b) -> (forall b, M' b <-> b = TableBlock c' \/ N b) ->
  keeps_but M M' X c c'.
Proof.
  intros [H F O S Hh L C] EM EM'. constructor; try done.
  - intros b d. rewrite EM, EM'. specialize (L b d). tauto.
  - intros b d a Hl Hb. apply (C b d a Hl). intros E. apply Hb, EM. by left.
Qed.

(** Steps that leave the pool alone. *)
Lemma keeps_table X c c' : held X c -> kpool c' = kpool c -> TableBlock c' = TableBlock c -> keeps X c c'.
Proof.
  intros H E Eb. assert (Em : cmm c' = cmm c) by (unfold cmm; by rewrite E).
  constructor; rewrite ?Em, ?E, ?Eb; try done; [unfold held; rewrite Em, E; exact H |]. intros k p _ Ho. by exists p.
Qed.

(** A step of the pool. *)
Lemma keeps_pool (M M' : Z -> Prop) X c c' : holds (cmm c) X (pages (kpool c')) ->
  (forall b d, (live (kpool c') b d /\ ~ M' b) <-> (live (kpool c) b d /\ ~ M b)) ->
  (forall b d a, live (kpool c) b d -> ~ M b -> b <= a < b + usize d -> rd (heap (kpool c')) a = rd (heap (kpool c)) a) -> keeps_but M M' X c c'.
Proof.
  intros H L C. constructor; [by apply (held_of X (cmm c)) | | | | by apply (ho_high _ _ _ H) | done | done].
  - intros q Hq. by apply (ho_pin _ _ _ H).
  - intros k p Hk Ho. exists p. destruct (ho_owned _ _ _ H k p Hk Ho). split_and!; [done | done |]. f_equal. by apply (ho_pte _ _ _ H).
  - intros k Hk _. by apply (ho_pte _ _ _ H).
Qed.

(** A step of the page tables and the supply. *)
Lemma settled_unowned X c k : pool_ok (kpool c) -> held X c -> settled X (cmm c) k -> k <> 0 -> forall p, ~ owned (cmm c) k p.
Proof.
  intros O H Hs Hk p Ho. pose proof (mm_owner _ (pool_mm c O) _ _ Ho) as E. destruct Ho as (Hr & Hf & Hl & _). unfold settled, fr in Hs. rewrite E in Hs.
  destruct Hs as [Hs | Hs]; [| done]. destruct (held_pinned X c p H Hs) as (_ & _ & Hl'). congruence.
Qed.

Lemma keeps_mm X D c m' : pool_ok (kpool c) -> held (X ∪ D) c -> rest_kept D (cmm c) m' -> X ## D ->
  pool_ok (kpool (set_mm m' c)) /\ keeps X c (set_mm m' c).
Proof.
  intros O H R Hd. pose proof (ho_apart _ _ _ H) as A.
  assert (AD : forall q i, q ∈ D -> 0 <= i < 4096 -> used (pages (kpool c)) i = true -> fr (wmem (pages (kpool c))) (wpage i) <> q)
    by (intros q i Hq; apply A; by apply elem_of_union_r).
  destruct (pool_rest D (kpool c) m' O R AD) as [O' L]. split; [exact O' |].
  assert (Pq : forall q, q ∈ X -> pinned m' q /\ frame_at m' q = frame_at (cmm c) q).
  { intros q Hq. apply (rk_pinned _ _ _ R); [apply (held_pinned _ c q H); by apply elem_of_union_l |]. intros Hq'. by apply (Hd q). }
  constructor.
  - apply held_intro; [intros q Hq; by apply Pq |]. intros q i Hq Hi Hu. apply (apart_rest D (pages (kpool c)) m' q i (po_pages _ O) R AD); [by apply Pq | | done | done].
    right. apply A; [by apply elem_of_union_l | done | done].
  - intros q Hq. by apply Pq.
  - intros k p _ Ho. exact (rk_owned _ _ _ R k p Ho).
  - intros k Hk Hs. destruct (decide (k = 0)) as [-> | Hk0].
    + apply (rk_other _ _ _ R). intros p (_ & _ & _ & ?). done.
    + apply (rk_other _ _ _ R). apply (settled_unowned (X ∪ D) c k O H); [| done]. destruct Hs as [Hs | Hs]; [left; by apply elem_of_union_l | by right].
  - apply (rk_high _ _ _ R).
  - intros b d. change (TableBlock (set_mm m' c)) with (TableBlock c). by rewrite (L b d).
  - done.
Qed.

(** ** The table *)

Lemma bind_ret {A B} (m : K A) (k : A -> K B) c a c1 : m c = Some (Ret a, c1) -> (m ≫= k) c = k a c1.
Proof. intros E. unfold mbind, K_bind. by rewrite E. Qed.

Lemma elem_table_frames t q : q ∈ table_frames t <-> exists i e, t !! i = Some e /\ q ∈ entry_run e.
Proof.
  unfold table_frames. rewrite elem_of_union_list. split.
  - intros (S & HS & Hq). apply list_elem_of_fmap in HS as (e & -> & [i Hi]%list_elem_of_lookup). eauto.
  - intros (i & e & Hi & Hq). exists (entry_run e). split; [| done]. apply list_elem_of_fmap. exists e. split; [done |]. by eapply list_elem_of_lookup_2.
Qed.

Lemma zero_run : entry_run zero_entry = ∅.
Proof. reflexivity. Qed.

Lemma entry_run_ok e : entry_ok e -> exists b, Pa e = 4096 * b /\ Alias e = NXK_KSEG0_BASE + 4096 * b /\
  entry_run e = pages_of b ((CSize e + 4095) / 4096) /\ 0 < (CSize e + 4095) / 4096 /\ npages (Pa e) (PaEnd e) = Z.to_nat ((CSize e + 4095) / 4096).
Proof.
  intros (b & Hb & Hs & Hn & Ep & Ee & Ea). exists b. set (n := (CSize e + 4095) / 4096) in *.
  assert (0 < n) by (unfold n; apply Z.div_str_pos; lia). unfold entry_run, npages. rewrite Ee, Ep.
  replace (4096 * (b + n) - 4096 * b) with (n * 4096) by lia. replace (4096 * b) with (b * 4096) by lia. rewrite !Z.div_mul by lia.
  split_and!; [done | lia | done | done |]. f_equal. replace (n * 4096 + 4095) with (4095 + n * 4096) by lia. rewrite Z.div_add by lia. change (4095 / 4096) with 0. lia.
Qed.

Lemma alias_zero e : e = zero_entry \/ entry_ok e -> Alias e = 0 -> e = zero_entry.
Proof. intros [-> | (b & Hb & _ & _ & _ & _ & Ea)] H; [done |]. unfold NXK_KSEG0_BASE in Ea. lia. Qed.

(** Two slots with one address are one slot. *)
Lemma alias_once G c i j e f : contig_ok G c -> NxContigTable c !! i = Some e -> NxContigTable c !! j = Some f ->
  Alias e = Alias f -> Alias e <> 0 -> i = j.
Proof.
  intros O Hi Hj E Hz. destruct (decide (i = j)) as [| Hn]; [done |]. exfalso. pose proof (co_apart _ _ O i j e f Hn Hi Hj) as D.
  destruct (co_entry _ _ O i e Hi) as [-> | Oe]; [done |]. destruct (co_entry _ _ O j f Hj) as [-> | Of]; [by rewrite E in Hz |].
  destruct (entry_run_ok e Oe) as (b & _ & Ea & Re & Hn1 & _). destruct (entry_run_ok f Of) as (b' & _ & Eb & Rf & Hn2 & _).
  assert (b' = b) as -> by lia. apply (D b); [rewrite Re | rewrite Rf]; apply elem_of_pages_of; lia.
Qed.

Lemma contig_slot_lookup c i : 0 <= i < NxContigSlots c -> NxContigTable c !! Z.to_nat i = Some (slot_at c i).
Proof. intros Hi. unfold slot_at, NxContigSlots in *. rewrite nth_lookup.
  destruct (lookup_lt_is_Some_2 (NxContigTable c) (Z.to_nat i) ltac:(lia)) as [e ->]. done.
Qed.

(** The walk. *)
Lemma slot_scan_spec c n : forall s, 0 < NxContigSlots c -> 0 <= s < NxContigSlots c ->
  match slot_scan n c s with
  | Some i => 0 <= i < NxContigSlots c /\ Alias (slot_at c i) = 0
  | None => forall j, 0 <= j < Z.of_nat n -> Alias (slot_at c ((s + j) mod NxContigSlots c)) <> 0
  end.
Proof.
  induction n as [| n IH]; intros s Hp Hs; cbn [slot_scan]; [intros j; lia |]. destruct (Z.eqb_spec (Alias (slot_at c s)) 0) as [E | E]; [done |].
  set (s' := if s + 1 =? NxContigSlots c then 0 else s + 1).
  assert (Hs' : 0 <= s' < NxContigSlots c /\ forall j, (s' + j) mod NxContigSlots c = (s + (j + 1)) mod NxContigSlots c).
  { unfold s'. destruct (Z.eqb_spec (s + 1) (NxContigSlots c)) as [Es | Es]; split; try lia; intros j; [| f_equal; lia].
    replace (s + (j + 1)) with (0 + j + 1 * NxContigSlots c) by lia. by rewrite Z.mod_add by lia. }
  destruct Hs' as [Hs1 Hs2]. specialize (IH s' Hp Hs1). destruct (slot_scan n c s') as [i |]; [done |]. intros j Hj.
  destruct (decide (j = 0)) as [-> | Hj0]; [rewrite Z.add_0_r, Z.mod_small by done; done |].
  replace j with ((j - 1) + 1) by lia. rewrite <- Hs2. apply IH. lia.
Qed.

(** Every slot is taken. *)
Definition full (c : contig) : Prop := forall i, 0 <= i < NxContigSlots c -> Alias (slot_at c i) <> 0.

Lemma set_scan_ok G c h : contig_ok G c -> 0 <= h < NxContigSlots c -> contig_ok G (set_scan h c).
Proof. intros [] Hh. constructor; done. Qed.

Lemma find_slot_spec G X c : contig_ok G c -> held X c -> exists s c', NxpContigFindFreeSlotLocked c = (s, c') /\ contig_ok G c' /\ keeps X c c' /\
  kpool c' = kpool c /\ NxContigTable c' = NxContigTable c /\ TableBlock c' = TableBlock c /\
  ((0 <= s < NxContigSlots c /\ Alias (slot_at c s) = 0) \/ s = NxContigSlots c /\ full c /\ c' = c).
Proof.
  intros O H. pose proof (co_slots _ _ O) as Hp. pose proof (co_hint _ _ O) as Hh. unfold NxpContigFindFreeSlotLocked.
  pose proof (slot_scan_spec c (length (NxContigTable c)) (NxContigHint c) ltac:(lia) Hh) as HS.
  destruct (slot_scan (length (NxContigTable c)) c (NxContigHint c)) as [s |].
  - eexists s, _. split; [done |]. assert (Hs : 0 <= (if s + 1 <? NxContigSlots c then s + 1 else 0) < NxContigSlots c) by (destruct (Z.ltb_spec (s + 1) (NxContigSlots c)); lia).
    split; [by apply set_scan_ok |]. split; [by apply keeps_table |]. do 3 (split; [done |]). left. done.
  - eexists _, c. split; [done |]. split; [done |]. split; [by apply keeps_refl |]. do 3 (split; [done |]). right. split; [done |]. split; [| done].
    intros i Hi. specialize (HS ((i - NxContigHint c) mod NxContigSlots c)). rewrite Zplus_mod_idemp_r in HS.
    replace (NxContigHint c + (i - NxContigHint c)) with i in HS by lia. rewrite (Z.mod_small i) in HS by done. apply HS.
    change (Z.of_nat (length (NxContigTable c))) with (NxContigSlots c). apply Z.mod_pos_bound. lia.
Qed.

(** *** Growth *)

Lemma table_frames_grow t n : table_frames (t ++ replicate n zero_entry) = table_frames t.
Proof.
  apply set_eq. intros q. rewrite !elem_table_frames. split; intros (i & e & Hi & Hq).
  - apply lookup_app_Some in Hi as [Hi | [_ Hi]]; [eauto |]. apply lookup_replicate in Hi as [-> _]. by apply not_elem_of_empty in Hq.
  - exists i, e. split; [by apply lookup_app_l_Some | done].
Qed.

Lemma block_bound (p : pool window) b n t : pool_ok p -> live p b (block_for n t) -> n <= 2 ^ 24.
Proof.
  intros O. unfold block_for. destruct (Z.ltb_spec NXP_SMALL_MAX n); [| unfold NXP_SMALL_MAX in *; lia].
  intros (i & _ & Hr & _). apply (pages_bound _ _ _ (po_pages _ O)) in Hr as (H0 & _ & H1). unfold NXPP_PAGES in H1.
  pose proof (Z.div_mod (n + 4095) 4096 ltac:(lia)). pose proof (Z.mod_pos_bound (n + 4095) 4096 ltac:(lia)). lia.
Qed.

Lemma tag_any n t : tag_matches (block_for n t) t.
Proof. unfold block_for. destruct (_ <? _); cbn [tag_matches]; auto. Qed.

Lemma free_table_block X m0 c b n : pool_ok (kpool c) -> holds m0 X (pages (kpool c)) ->
  (b <> 0 -> live (kpool c) b (block_for n NXK_CONTIG_TAG)) ->
  exists p', free_block_opt b c = Some (Ret tt, set_pool p' c) /\ pool_ok p' /\ holds m0 X (pages p') /\ others_kept (kpool c) p' b /\
    (b <> 0 -> forall x d, live p' x d <-> live (kpool c) x d /\ x <> b) /\ (b = 0 -> p' = kpool c).
Proof.
  intros O H Hl. unfold free_block_opt. destruct (Z.eqb_spec b 0) as [-> | Hb].
  - exists (kpool c). split; [by destruct c |]. split_and!; try done.
  - destruct (shared_free m0 X b _ NXK_CONTIG_TAG (kpool c) O H (Hl Hb) (tag_any _ _)) as (p' & E & O' & H' & K & L).
    exists p'. unfold on_pool. rewrite E. split_and!; try done.
Qed.

Lemma live_nonzero (p : pool window) b d : pool_ok p -> live p b d -> b <> 0.
Proof. intros O. destruct d; intros L; [apply (small_va p b _ _ O L) | apply (big_va p b _ O L)]. Qed.

Lemma grow_ok G c p' New : contig_ok G c -> pool_ok p' -> held (table_frames (NxContigTable c) ∪ G) (set_pool p' c) ->
  live p' New (block_for (32 * NxContigSlots c) NXK_CONTIG_TAG) ->
  let c' := Contig p' (NxContigTable c ++ replicate (length (NxContigTable c)) zero_entry) New (NxContigSlots c) (NxkNv2aInstanceBytes c) in
  contig_ok G c'.
Proof.
  intros O O' H L c'. pose proof (co_slots _ _ O) as Hp. pose proof (block_bound _ _ _ _ O' L) as Hb.
  assert (Sl : NxContigSlots c' = 2 * NxContigSlots c) by (unfold NxContigSlots, c'; cbn [NxContigTable]; rewrite length_app, length_replicate; lia).
  assert (Lk : forall i e, NxContigTable c' !! i = Some e -> NxContigTable c !! i = Some e \/ e = zero_entry).
  { intros i e Hi. apply lookup_app_Some in Hi as [Hi | [_ Hi]]; [by left |]. right. by apply lookup_replicate in Hi as [-> _]. }
  assert (Tf : table_frames (NxContigTable c') = table_frames (NxContigTable c)) by apply table_frames_grow.
  constructor; rewrite ?Tf, ?Sl; [done | done | | | apply (co_claim _ _ O) | | lia | | apply (co_bytes _ _ O) | apply (co_window _ _ O)].
  - intros i e [Hi | ->]%Lk; [by apply (co_entry _ _ O i) | by left].
  - intros i j e f Hn [Hi | ->]%Lk; [| intros _; rewrite zero_run; apply disjoint_empty_l].
    intros [Hj | ->]%Lk; [by apply (co_apart _ _ O i j) | rewrite zero_run; apply disjoint_empty_r].
  - intros _. cbn [c' kpool TableBlock]. replace (16 * (2 * NxContigSlots c)) with (32 * NxContigSlots c) by lia. done.
  - cbn [c' NxContigHint]. lia.
Qed.

(** The old table's block is freed, the new one is the table's. *)
Lemma grow_keeps X c p1 p2 New c' : pool_ok (kpool c) -> holds (cmm c) X (pages p2) ->
  (TableBlock c <> 0 -> exists d, live (kpool c) (TableBlock c) d) ->
  contents_kept (kpool c) p1 -> (forall d, ~ live (kpool c) New d) ->
  (forall x d, live p1 x d <-> live (kpool c) x d \/ x = New /\ d = block_for (32 * NxContigSlots c) NXK_CONTIG_TAG) ->
  others_kept p1 p2 (TableBlock c) -> (TableBlock c <> 0 -> forall x d, live p2 x d <-> live p1 x d /\ x <> TableBlock c) -> (TableBlock c = 0 -> p2 = p1) ->
  kpool c' = p2 -> TableBlock c' = New -> keeps X c c'.
Proof.
  intros O H Ob K1 Nl L1 K2 L2 Z2 <- Eb.
  assert (NN : forall b d, live (kpool c) b d -> b <> New) by (intros b d Hl ->; by apply (Nl d)).
  assert (NZ : forall b d, live (kpool c) b d -> b <> 0) by (intros b d; by apply live_nonzero).
  assert (LL : forall b d, live (kpool c') b d <-> live p1 b d /\ (TableBlock c <> 0 -> b <> TableBlock c)).
  { intros b d. destruct (decide (TableBlock c = 0)) as [Ez | Ez]; [rewrite (Z2 Ez); tauto | rewrite (L2 Ez b d); tauto]. }
  apply keeps_pool; [done | |].
  - intros b d. rewrite LL, L1, Eb. split.
    + intros [[[Hl | [-> _]] Hb] Hn]; [| done]. split; [done |]. destruct (decide (TableBlock c = 0)) as [Ez | Ez]; [rewrite Ez; by apply (NZ b d) | by apply Hb].
    + intros [Hl Hb]. split; [split; [by left | done] | by apply (NN b d)].
  - intros b d a Hl Hb Ha. rewrite (K2 b d a); [by apply (K1 b d a) | apply L1; by left | done | done].
Qed.

Lemma grow_swap_eq c p1 New : grow_swap (set_pool p1 c) (NxContigSlots c) (2 * NxContigSlots c) New =
  (TableBlock c, Contig p1 (NxContigTable c ++ replicate (length (NxContigTable c)) zero_entry) New (NxContigSlots c) (NxkNv2aInstanceBytes c)).
Proof.
  unfold grow_swap. change (NxContigSlots (set_pool p1 c)) with (NxContigSlots c). rewrite Z.eqb_refl. cbn [set_pool kpool NxContigTable TableBlock NxkNv2aInstanceBytes].
  replace (2 * NxContigSlots c - NxContigSlots c) with (NxContigSlots c) by lia. unfold NxContigSlots. by rewrite Nat2Z.id, firstn_all.
Qed.

Lemma grow_spec_ok G X c : contig_ok G c -> held X c -> exists r c', NxpContigGrow (NxContigSlots c) c = Some (Ret r, c') /\ contig_ok G c' /\ keeps X c c' /\
  ((r = false /\ c' = set_pool (kpool c') c /\ refused (page_bytes (32 * NxContigSlots c)) (kpool c')) \/
   (r = true /\ NxContigTable c' = NxContigTable c ++ replicate (length (NxContigTable c)) zero_entry /\ NxContigHint c' = NxContigSlots c)).
Proof.
  intros O H. pose proof (co_slots _ _ O) as Hp. set (F := table_frames (NxContigTable c) ∪ G).
  assert (HF : held (X ∪ F) c) by (apply held_union; [done | apply (co_held _ _ O)]).
  assert (E1 : mul32 (NxContigSlots c) 2 = 2 * NxContigSlots c) by (unfold mul32; rewrite u32_id; lia).
  assert (E2 : mul32 (2 * NxContigSlots c) 16 = 32 * NxContigSlots c) by (unfold mul32; rewrite u32_id; lia).
  destruct (shared_alloc (cmm c) (X ∪ F) (32 * NxContigSlots c) NXK_CONTIG_TAG (kpool c) (co_pool _ _ O) HF ltac:(lia)) as (New & p1 & Ea & O1 & H1 & K1 & Al).
  unfold NxpContigGrow. rewrite E1, E2. cbv beta zeta. erewrite bind_ret by (unfold on_pool; by rewrite Ea).
  destruct Al as [(-> & L & Rf) | (Hn & Nl & L)].
  - exists false, (set_pool p1 c). split; [done |].
    assert (Kp : keeps (X ∪ F) c (set_pool p1 c)) by (apply keeps_pool; [done | intros b d; by rewrite (L b d) | intros b d a Hl _; by apply K1]).
    split; [| split; [by apply (keeps_sub (X ∪ F)); [apply union_subseteq_l |] | by left]].
    destruct O. constructor; try done; [apply (held_sub (X ∪ F)); [apply union_subseteq_r | apply Kp] |]. intros Hb. apply L. auto.
  - destruct (Z.eqb_spec New 0); [done |]. erewrite bind_ret by done. rewrite grow_swap_eq.
    set (c1 := Contig p1 _ New _ _). erewrite bind_ret by (unfold put; done).
    assert (Lt : TableBlock c <> 0 -> live (kpool c) (TableBlock c) (block_for (16 * NxContigSlots c) NXK_CONTIG_TAG)) by apply (co_block _ _ O).
    destruct (free_table_block (X ∪ F) (cmm c) c1 (TableBlock c) (16 * NxContigSlots c) O1 H1) as (p2 & Ef & O2 & H2 & K2 & L2 & Z2).
    { intros Hb. apply L. left. auto. }
    erewrite bind_ret by exact Ef. exists true, (set_pool p2 c1). split; [done |].
    assert (Kp : keeps (X ∪ F) c (set_pool p2 c1)).
    { apply (grow_keeps (X ∪ F) c p1 p2 New); try done; [apply (co_pool _ _ O) | eauto]. }
    split; [| split; [by apply (keeps_sub (X ∪ F)); [apply union_subseteq_l |] | by right]].
    apply (grow_ok G c p2 New O O2).
    + apply (held_sub (X ∪ F)); [apply union_subseteq_r |]. by apply (held_of _ (cmm c)).
    + assert (Ln : live p1 New (block_for (32 * NxContigSlots c) NXK_CONTIG_TAG)) by (apply L; by right).
      destruct (decide (TableBlock c = 0)) as [Ez | Ez]; [by rewrite (Z2 Ez) |]. apply (L2 Ez). split; [done |]. intros ->. by apply (Nl _ (Lt Ez)).
Qed.

(** *** Reservation *)

(** The live allocations: address and size. *)
Definition allocated (c : contig) (a n : Z) : Prop := exists i e, NxContigTable c !! i = Some e /\ a <> 0 /\ Alias e = a /\ CSize e = n.

Lemma grown_allocated c c' : NxContigTable c' = NxContigTable c ++ replicate (length (NxContigTable c)) zero_entry ->
  forall a n, allocated c' a n <-> allocated c a n.
Proof.
  intros E a n. unfold allocated. rewrite E. split; intros (i & e & Hi & Ha & Ea & En).
  - apply lookup_app_Some in Hi as [Hi | [_ Hi]]; [by exists i, e |]. apply lookup_replicate in Hi as [-> _]. by rewrite <- Ea in Ha.
  - exists i, e. split; [by apply lookup_app_l_Some | done].
Qed.

Lemma grown_not_full c c' : NxContigTable c' = NxContigTable c ++ replicate (length (NxContigTable c)) zero_entry -> 0 < NxContigSlots c -> ~ full c'.
Proof.
  intros E Hp Fu. apply (Fu (NxContigSlots c)).
  - unfold NxContigSlots in *. rewrite E, length_app, length_replicate. lia.
  - unfold slot_at, NxContigSlots in *. rewrite E, Nat2Z.id, nth_lookup, lookup_app_r, lookup_replicate_2 by lia. done.
Qed.

Lemma take_slot_spec G X c : contig_ok G c -> held X c -> exists r c', NxpContigTakeSlot c = Some (Ret r, c') /\ contig_ok G c' /\ keeps X c c' /\
  (forall a n, allocated c' a n <-> allocated c a n) /\ (~ full c -> kpool c' = kpool c) /\
  match r with
  | Some s => 0 <= s < NxContigSlots c' /\ Alias (slot_at c' s) = 0
  | None => full c' /\ refused (page_bytes (32 * NxContigSlots c')) (kpool c')
  end.
Proof.
  intros O H. unfold NxpContigTakeSlot. cbn [take_slot]. erewrite bind_ret by done.
  destruct (find_slot_spec G X c O H) as (s & c1 & Ef & O1 & K1 & Ep & Et & Eb & Hs). rewrite Ef. cbv beta iota zeta. erewrite bind_ret by (unfold put; done).
  assert (Sl : NxContigSlots c1 = NxContigSlots c) by (unfold NxContigSlots; by rewrite Et). rewrite Sl.
  assert (Al : forall c', NxContigTable c' = NxContigTable c -> forall a n, allocated c' a n <-> allocated c a n) by (intros c' E a n; unfold allocated; by rewrite E).
  destruct Hs as [[Hs Ha] | (-> & Fu & ->)].
  - rewrite (proj2 (Z.eqb_neq _ _)) by lia. cbn [negb]. exists (Some s), c1. split; [done |]. split; [done |]. split; [done |]. split; [by apply Al |]. split; [done |].
    unfold slot_at. rewrite Et, Sl. done.
  - rewrite Z.eqb_refl. cbn [negb]. destruct (grow_spec_ok G X c O H) as (r & c2 & Eg & O2 & K2 & Hr). erewrite bind_ret by exact Eg.
    destruct Hr as [(-> & E2 & Rf) | (-> & Et2 & Eh)].
    + exists None, c2. split; [done |]. split; [done |]. split; [done |]. assert (E2t : NxContigTable c2 = NxContigTable c) by (by rewrite E2).
      split; [by apply Al |]. split; [done |]. split; [unfold full, NxContigSlots, slot_at; by rewrite E2t | unfold NxContigSlots; by rewrite E2t].
    + erewrite bind_ret by done. destruct (find_slot_spec G X c2 O2 (ks_held _ _ _ K2)) as (s & c3 & Ef3 & O3 & K3 & Ep3 & Et3 & Eb3 & Hs).
      rewrite Ef3. cbv beta iota zeta. erewrite bind_ret by (unfold put; done).
      assert (Sl3 : NxContigSlots c3 = NxContigSlots c2) by (unfold NxContigSlots; by rewrite Et3).
      destruct Hs as [[Hs Ha] | (_ & Fu2 & _)]; [| by destruct (grown_not_full c c2 Et2 (proj1 (co_slots _ _ O)))]. rewrite (proj2 (Z.eqb_neq _ _)) by lia. cbn [negb].
      exists (Some s), c3. split; [done |]. split; [done |]. split; [by apply (keeps_trans X c c2 c3) |]. split; [| split; [done | unfold slot_at; by rewrite Et3, Sl3]].
      intros a n. rewrite <- (grown_allocated c c2 Et2). unfold allocated. by rewrite Et3.
Qed.

(** ** Taking the frames *)

Definition no_run (s : supply) (n lo hi al : Z) : Prop := forall b, run_fits s n lo hi al b -> ~ run_free s b n.

(** No run in the window is free, and above the floor none can be assembled. *)
Definition starved (s : supply) (n lo hi al : Z) : Prop :=
  forall b, run_fits s n lo hi al b -> ~ run_free s b n /\ (NXP_GENERIC_FLOOR_PFN <= lo -> ~ feasible s n b).

(** The highest free run; or, when none is free, a run of free and movable
    frames, above the floor the highest that can be assembled. *)
Definition chosen (s : supply) (n lo hi al b : Z) : Prop :=
  run_fits s n lo hi al b /\
  ((run_free s b n /\ forall x, b < x -> run_fits s n lo hi al x -> ~ run_free s x n) \/
   (no_run s n lo hi al /\ all_movable s b (Z.to_nat n) /\
    (NXP_GENERIC_FLOOR_PFN <= lo -> forall x, b < x -> run_fits s n lo hi al x -> ~ feasible s n x))).

Lemma chosen_unpinned m n lo hi al b q : chosen (sup m) n lo hi al b -> b <= q < b + n -> ~ pinned m q.
Proof.
  intros [_ [[Fr _] | (_ & Mv & _)]] Hq (_ & Hf & Hl); [by apply Hf, Fr |].
  destruct (Mv q) as [_ [? | ?]]; [lia | done | done].
Qed.

Lemma relocate_both m n lo hi al k : mm_wf m -> is_u32 n -> is_u32 lo -> is_u32 hi -> align_of al = 2 ^ k -> 0 <= k < 32 -> 0 < n ->
  exists b m', NxkPageSupplyTakeRunRelocate m n lo hi al = Some (b, m') /\ mm_wf m' /\ view_kept m m' /\ free_set (sup m') ⊆ free_set (sup m) /\
    (b = 0 /\ (NXP_GENERIC_FLOOR_PFN <= lo -> m' = m /\ forall x, run_fits (sup m) n lo hi (2 ^ k) x -> ~ feasible (sup m) n x) \/
     run_fits (sup m) n lo hi (2 ^ k) b /\ all_movable (sup m) b (Z.to_nat n) /\ (forall q, b <= q < b + n -> pinned m' q) /\
     (NXP_GENERIC_FLOOR_PFN <= lo -> forall x, b < x -> run_fits (sup m) n lo hi (2 ^ k) x -> ~ feasible (sup m) n x)).
Proof.
  intros W Hn Hlo Hhi Hal Hk Hn0. destruct (relocate_any m n lo hi al k W Hn Hlo Hhi Hal Hk) as (b & m' & E & W' & V & S & H).
  exists b, m'. do 4 (split; [done |]). change NXP_GENERIC_FLOOR_PFN with 16.
  assert (Sp : 16 <= lo -> (b = 0 /\ m' = m /\ forall c, n <> 0 -> run_fits (sup m) n lo hi (2 ^ k) c -> ~ feasible (sup m) n c) \/
    (run_fits (sup m) n lo hi (2 ^ k) b /\ forall c, b < c -> run_fits (sup m) n lo hi (2 ^ k) c -> ~ feasible (sup m) n c)).
  { intros Hf. destruct (relocate_spec m n lo hi al k W Hn Hlo Hhi Hal Hk Hf) as (b2 & m2 & E2 & H2). rewrite E in E2. injection E2 as <- <-.
    destruct H2 as [H2 | (_ & Ft & Hi & _)]; [by left | by right]. }
  destruct H as [-> | (_ & Ft & Mv & Pn)]; [left | right].
  - split; [done |]. intros Hf. destruct (Sp Hf) as [(_ & -> & Hno) | [[Hb _] _]]; [| lia]. split; [done |]. intros x. apply Hno. lia.
  - do 3 (split; [done |]). intros Hf. destruct (Sp Hf) as [(-> & _) | [_ Hhi']]; [| done]. destruct Ft as [Hb _]. lia.
Qed.

(** The whole of it on the memory. *)
Lemma frames_spec m n lo hi al k : mm_wf m -> is_u32 n -> is_u32 lo -> is_u32 hi -> align_of al = 2 ^ k -> 0 <= k < 32 -> 0 < n ->
  exists b s1, NxkPageSupplyTakeRun (sup m) n lo hi al = Some (b, s1) /\ 
  exists b' m', (if b =? 0 then NxkPageSupplyTakeRunRelocate (with_sup s1 m) n lo hi al else Some (b, with_sup s1 m)) = Some (b', m') /\
    rest_kept ∅ m m' /\
    (b' = 0 /\ no_run (sup m) n lo hi (2 ^ k) /\ starved (sup m') n lo hi (2 ^ k) \/
     b' <> 0 /\ chosen (sup m) n lo hi (2 ^ k) b' /\ forall q, b' <= q < b' + n -> pinned m' q).
Proof.
  intros W Hn Hlo Hhi Hal Hk Hn0. destruct (take_run_spec (sup m) n lo hi al k (mm_sup _ W) Hn Hlo Hhi Hal Hk) as (b & s1 & E & H). exists b, s1. split; [done |].
  destruct H as [(-> & -> & Hno) | (_ & Ft & Fr & Hi & W1 & F1 & L1 & U1 & H1)].
  - rewrite Z.eqb_refl. replace (with_sup (sup m) m) with m by (by destruct m).
    destruct (relocate_both m n lo hi al k W Hn Hlo Hhi Hal Hk Hn0) as (b & m' & E' & W' & V & S & H). exists b, m'. split; [done |].
    split; [by apply view_rest |]. destruct H as [[-> Hf] | (Ft & Mv & Pn & Hf)]; [left | right].
    + split; [done |]. split; [intros x; apply Hno; lia |]. intros x Ft. unfold run_fits in Ft. rewrite (vk_high _ _ V) in Ft. split.
      * intros Fx. apply (Hno x ltac:(lia) Ft). intros q Hq. by apply S, Fx.
      * intros Hfl. destruct (Hf Hfl) as [-> Hx]. by apply Hx.
    + split; [destruct Ft; lia |]. split; [| done]. split; [done |]. right. split; [| done]. intros x. apply Hno. lia.
  - assert (Hb : b <> 0) by (destruct Ft; lia). rewrite (proj2 (Z.eqb_neq b 0) Hb). exists b, (with_sup s1 m). split; [done |].
    destruct (took_run_rest m b n s1 W W1 ltac:(lia) Fr F1 L1 U1 H1) as [R Pn]. split; [done |]. right. split; [done |]. split; [| done].
    split; [done |]. by left.
Qed.

Lemma take_frames_spec G X c n lo hi al k : contig_ok G c -> held X c -> is_u32 n -> is_u32 lo -> is_u32 hi -> align_of al = 2 ^ k -> 0 <= k < 32 -> 0 < n ->
  exists b m', take_frames n lo hi al c = Some (Ret b, set_mm m' c) /\ contig_ok G (set_mm m' c) /\ keeps X c (set_mm m' c) /\
    (b = 0 /\ no_run (sup (cmm c)) n lo hi (2 ^ k) /\ starved (sup m') n lo hi (2 ^ k) \/
     b <> 0 /\ chosen (sup (cmm c)) n lo hi (2 ^ k) b /\ held (pages_of b n) (set_mm m' c)).
Proof.
  intros O H Hn Hlo Hhi Hal Hk Hn0. pose proof (co_pool _ _ O) as Op.
  destruct (frames_spec (cmm c) n lo hi al k (pool_mm c Op) Hn Hlo Hhi Hal Hk Hn0) as (b & s1 & E1 & b' & m' & E2 & R & Hr).
  exists b', m'. split.
  { unfold take_frames. erewrite bind_ret by (unfold on_sup, on_mm; by rewrite E1). destruct (b =? 0).
    - unfold on_mm. change (cmm (set_mm (with_sup s1 (cmm c)) c)) with (with_sup s1 (cmm c)). by rewrite E2.
    - injection E2 as -> <-. done. }
  assert (KK : forall Y, held Y c -> pool_ok (kpool (set_mm m' c)) /\ keeps Y c (set_mm m' c)).
  { intros Y HY. apply (keeps_mm Y ∅); [done | by rewrite union_empty_r_L | done | apply disjoint_empty_r]. }
  split; [| split; [by apply KK |]].
  - destruct (KK _ (co_held _ _ O)) as [O' Kp]. destruct O. constructor; try done. apply Kp.
  - destruct Hr as [Hr | (Hb & Ch & Pn)]; [by left | right]. do 2 (split; [done |]). apply held_intro.
    + intros q Hq. apply Pn. apply elem_of_pages_of in Hq; lia.
    + intros q i Hq Hi Hu. apply elem_of_pages_of in Hq; [| lia]. apply (apart_rest ∅ (pages (kpool c)) m' q i (po_pages _ Op) R); [| by apply Pn | | done | done].
      * intros q' i' Hq'. by apply not_elem_of_empty in Hq'.
      * left. by apply (chosen_unpinned (cmm c) n lo hi (2 ^ k) b').
Qed.

(** ** The request *)

Definition page_count (n : Z) : Z := (n + 4095) / 4096.

Lemma round_page x : 0 <= x < 2 ^ 32 -> Z.land x (not32 (PAGE_SIZE - 1)) = 4096 * (x / 4096).
Proof. intros Hx. change (PAGE_SIZE - 1) with (2 ^ 12 - 1). rewrite land_not_ones by lia. change (2 ^ 12) with 4096. pose proof (Z.div_mod x 4096). lia. Qed.

Lemma alloc_bytes_eq n : is_u32 n -> alloc_bytes n = (if n <=? 0xFFFFF000 then 4096 * page_count n else 0).
Proof.
  unfold is_u32, alloc_bytes, page_count. intros Hn. change PAGE_SIZE with 4096 at 1. destruct (Z.leb_spec n 0xFFFFF000) as [H | H].
  - destruct (decide (n = 0xFFFFF000)) as [-> | Hne]; [reflexivity |]. rewrite add32_id, sub32_id by lia. rewrite round_page by lia. do 2 f_equal. lia.
  - assert (E : add32 n 4096 = n + 4096 - 2 ^ 32) by (unfold add32, u32; rewrite <- (Z.mod_add (n + 4096) (-1)) by lia; rewrite Z.mod_small; lia).
    rewrite E, sub32_id, round_page by lia. rewrite Z.div_small by lia. done.
Qed.

Lemma low_pfn_eq lo : 0 <= lo <= 0xFFFFF000 -> low_pfn lo = page_count lo.
Proof.
  intros H. unfold low_pfn, page_count. rewrite Z.shiftr_div_pow2 by done. change (2 ^ PAGE_SHIFT) with 4096. change PAGE_SIZE with 4096.
  destruct (decide (lo = 0xFFFFF000)) as [-> | Hne]; [reflexivity |]. rewrite add32_id, sub32_id by lia. f_equal. lia.
Qed.

Lemma low_pfn_u32 lo : is_u32 (low_pfn lo).
Proof.
  unfold low_pfn, is_u32. rewrite Z.shiftr_div_pow2 by done. change (2 ^ PAGE_SHIFT) with 4096. pose proof (u32_range (add32 lo PAGE_SIZE - 1)).
  unfold sub32. split; [apply Z.div_pos; lia | apply Z.div_lt_upper_bound; lia].
Qed.

Lemma high_pfn_eq hi : 0xFFF <= hi < 2 ^ 32 -> high_pfn hi = (hi + 1) / 4096 - 1.
Proof.
  intros H. unfold high_pfn, u64. rewrite Z.shiftr_div_pow2 by done. change (2 ^ PAGE_SHIFT) with 4096.
  assert (1 <= (hi + 1) / 4096 <= 2 ^ 20) by (split; [apply Z.div_le_lower_bound | apply Z.div_le_upper_bound]; lia).
  rewrite (Z.mod_small (hi + 1)) by lia. rewrite Z.mod_small by lia. apply u32_id. lia.
Qed.

(** Alignments up to a page are the page's; larger ones are powers of two. *)
Definition good_alignment (Alignment : Z) : Prop := 0 <= Alignment <= 4096 \/ exists j, 12 <= j < 32 /\ Alignment = 2 ^ j.
Definition aligned_to (Alignment : Z) : Z := Z.max Alignment 4096.

Lemma align_pages_eq al : good_alignment al -> exists k, 0 <= k < 32 /\ align_of (align_pages al) = 2 ^ k /\ aligned_to al = 4096 * 2 ^ k.
Proof.
  intros H. unfold align_pages, aligned_to. destruct (Z.leb_spec al PAGE_SIZE) as [Hl | Hl]; change PAGE_SIZE with 4096 in Hl.
  - exists 0. split; [lia |]. split; [done |]. rewrite Z.max_r by lia. done.
  - destruct H as [H | (j & Hj & ->)]; [lia |]. exists (j - 12). split; [lia |]. rewrite Z.max_l by lia.
    rewrite Z.shiftr_div_pow2 by done. change (2 ^ PAGE_SHIFT) with (2 ^ 12). rewrite <- Z.pow_sub_r by lia.
    assert (0 < 2 ^ (j - 12)) by (apply Z.pow_pos_nonneg; lia). split.
    + unfold align_of. by rewrite (proj2 (Z.eqb_neq _ 0)) by lia.
    + change 4096 with (2 ^ 12). rewrite <- Z.pow_add_r by lia. f_equal. lia.
Qed.

(** What the caller asked for, in addresses. *)
Definition placed (n lo hi al b : Z) : Prop :=
  lo <= 4096 * b /\ 4096 * (b + page_count n) - 1 <= clamp_high lo hi /\ (4096 * b) mod aligned_to al = 0.

Lemma fits_placed s n lo hi al k b : 0 <= lo <= 0xFFFFF000 -> 0xFFF <= hi < 2 ^ 32 -> aligned_to al = 4096 * 2 ^ k -> 0 <= k ->
  run_fits s (page_count n) (low_pfn lo) (high_pfn (clamp_high lo hi)) (2 ^ k) b -> placed n lo hi al b.
Proof.
  intros Hlo Hhi Ea Hk (H1 & H2 & H3). rewrite low_pfn_eq in H1 by done.
  assert (Hc : 0xFFF <= clamp_high lo hi < 2 ^ 32).
  { unfold clamp_high, NXK_KSEG0_RAM_SIZE, NXK_NV2A_INSTANCE_BASE. repeat case_match; lia. }
  rewrite high_pfn_eq in H2 by done. unfold placed. unfold page_count in *.
  pose proof (Z.div_mod (lo + 4095) 4096 ltac:(lia)). pose proof (Z.mod_pos_bound (lo + 4095) 4096 ltac:(lia)).
  pose proof (Z.div_mod (clamp_high lo hi + 1) 4096 ltac:(lia)). pose proof (Z.mod_pos_bound (clamp_high lo hi + 1) 4096 ltac:(lia)).
  split; [lia |]. split; [lia |]. rewrite Ea. rewrite Z.mul_mod_distr_l; [lia | | lia]. assert (0 < 2 ^ k) by (apply Z.pow_pos_nonneg; lia). lia.
Qed.

(** *** Recording the run *)

Lemma kseg0_lor b : 0 <= b <= 32768 -> shl32 b PAGE_SHIFT = 4096 * b /\ Z.lor NXK_KSEG0_BASE (4096 * b) = NXK_KSEG0_BASE + 4096 * b.
Proof.
  intros Hb. split.
  - unfold shl32. rewrite Z.shiftl_mul_pow2 by done. change (2 ^ PAGE_SHIFT) with 4096. rewrite u32_id; lia.
  - change NXK_KSEG0_BASE with (1 * 2 ^ 31). apply lor_mul_pow2_small; lia.
Qed.

Lemma table_lookup_insert (t : list NXK_CONTIG_ENTRY) i j e f : <[i := e]> t !! j = Some f -> j = i /\ f = e \/ j <> i /\ t !! j = Some f.
Proof. intros [(-> & -> & _) | (? & ?)]%list_lookup_insert_Some; auto. Qed.

Lemma table_frames_insert t i e : t !! i = Some zero_entry -> table_frames (<[i := e]> t) = entry_run e ∪ table_frames t.
Proof.
  intros Hi. apply set_eq. intros q. rewrite elem_of_union, !elem_table_frames. split.
  - intros (j & f & [[-> ->] | [_ Hj]]%table_lookup_insert & Hq); [by left | right; eauto].
  - intros [Hq | (j & f & Hj & Hq)].
    + exists i, e. split; [| done]. apply list_lookup_insert_eq. by eapply lookup_lt_Some.
    + exists j, f. split; [| done]. rewrite list_lookup_insert_ne; [done |]. intros <-. rewrite Hi in Hj. injection Hj as <-. by apply not_elem_of_empty in Hq.
Qed.

Lemma allocated_insert c i e : NxContigTable c !! i = Some zero_entry -> Alias e <> 0 ->
  forall a n, allocated (set_table (<[i := e]> (NxContigTable c)) c) a n <-> allocated c a n \/ a = Alias e /\ n = CSize e.
Proof.
  intros Hi Hz a n. unfold allocated. cbn [set_table NxContigTable]. split.
  - intros (j & f & [[-> ->] | [_ Hj]]%table_lookup_insert & Ha & <- & <-); [by right | left; eauto 6].
  - intros [(j & f & Hj & Ha & Ea & En) | [-> ->]].
    + exists j, f. split; [| done]. rewrite list_lookup_insert_ne; [done |]. intros <-. rewrite Hi in Hj. injection Hj as <-. by rewrite <- Ea in Ha.
    + exists i, e. split; [| done]. apply list_lookup_insert_eq. by eapply lookup_lt_Some.
Qed.

(** A run given to a free slot. *)
Lemma insert_ok G c i e : contig_ok G c -> NxContigTable c !! i = Some zero_entry -> entry_ok e -> held (entry_run e) c ->
  entry_run e ## table_frames (NxContigTable c) ∪ G -> contig_ok G (set_table (<[i := e]> (NxContigTable c)) c).
Proof.
  intros O Hi Oe Hr Hd. apply disjoint_union_r in Hd as [Hd Hg].
  assert (Dj : forall j f, NxContigTable c !! j = Some f -> entry_run e ## entry_run f).
  { intros j f Hj q Hq Hq'. apply (Hd q Hq). apply elem_table_frames. eauto. }
  constructor; cbn [set_table kpool NxContigTable TableBlock NxContigHint NxkNv2aInstanceBytes]; unfold NxContigSlots; cbn [set_table NxContigTable];
    rewrite ?length_insert, ?(table_frames_insert _ _ e Hi); try apply O.
  - pose proof (held_union _ _ c Hr (co_held _ _ O)) as Hu. rewrite union_assoc_L in Hu. exact Hu.
  - intros j f [[-> ->] | [_ Hj]]%table_lookup_insert; [by right | by apply (co_entry _ _ O j)].
  - intros j1 j2 f1 f2 Hn [[-> ->] | [_ H1]]%table_lookup_insert [[-> ->] | [_ H2]]%table_lookup_insert; [done | by apply (Dj j2) | symmetry; by apply (Dj j1) | by apply (co_apart _ _ O j1 j2)].
  - apply disjoint_union_l. split; [done | apply (co_claim _ _ O)].
Qed.

Lemma record_ok G X c s b n : contig_ok G c -> held X c -> 0 <= s < NxContigSlots c -> Alias (slot_at c s) = 0 ->
  0 < n <= 0xFFFFF000 -> held (pages_of b (page_count n)) c -> pages_of b (page_count n) ## table_frames (NxContigTable c) ∪ G ->
  0 < b -> b + page_count n <= 32768 ->
  exists c', record_run s b n c = Some (Ret (NXK_KSEG0_BASE + 4096 * b), c') /\ contig_ok G c' /\ keeps X c c' /\ NxContigSlots c' = NxContigSlots c /\
    (forall n', ~ allocated c (NXK_KSEG0_BASE + 4096 * b) n') /\
    forall a n', allocated c' a n' <-> allocated c a n' \/ a = NXK_KSEG0_BASE + 4096 * b /\ n' = n.
Proof.
  intros O H Hs Hz Hn Hr Hd Hb Hbn. set (e := ContigEntry (NXK_KSEG0_BASE + 4096 * b) (4096 * b) (4096 * (b + page_count n)) n).
  pose proof (contig_slot_lookup c s Hs) as Ls. pose proof (alias_zero _ (co_entry _ _ O _ _ Ls) Hz) as Es. rewrite Es in Ls.
  assert (Hp : 0 < page_count n) by (unfold page_count; apply Z.div_str_pos; lia).
  assert (Oe : entry_ok e) by (exists b; cbv zeta; cbn [e CSize Pa PaEnd Alias]; fold (page_count n); split_and!; done || lia).
  exists (set_table (<[Z.to_nat s := e]> (NxContigTable c)) c). split.
  { unfold record_run. destruct (kseg0_lor b ltac:(lia)) as [-> ->]. rewrite alloc_bytes_eq by (unfold is_u32; lia). rewrite (proj2 (Z.leb_le _ _)) by lia.
    unfold NxpRecordHeapContigLocked. rewrite add32_id by lia. replace (4096 * b + 4096 * page_count n) with (4096 * (b + page_count n)) by lia. done. }
  assert (Re : entry_run e = pages_of b (page_count n)).
  { destruct (entry_run_ok e Oe) as (b' & _ & Ea & -> & _). cbn [e Alias CSize] in *. f_equal. lia. }
  assert (Az : Alias e <> 0) by (cbn [e Alias]; unfold NXK_KSEG0_BASE; lia).
  split; [apply insert_ok; rewrite ?Re; done |]. split; [by apply keeps_table |].
  split; [unfold NxContigSlots; cbn [set_table NxContigTable]; by rewrite length_insert |]. split; [| by apply (allocated_insert c _ e)].
  intros n' (j & f & Hj & _ & Ea & _). destruct (co_entry _ _ O j f Hj) as [-> | Of]; [exfalso; apply Az; symmetry; exact Ea |].
  destruct (entry_run_ok f Of) as (b' & _ & Eb & Rf & Hp' & _). assert (b' = b) as -> by lia. apply (Hd b); [apply elem_of_pages_of; lia |].
  apply elem_of_union_l, elem_table_frames. exists j, f. split; [done |]. rewrite Rf. apply elem_of_pages_of; lia.
Qed.

(** ** Allocation *)

(** The window of a request, in frames. *)
Definition req_low (lo : Z) : Z := low_pfn lo.
Definition req_high (lo hi : Z) : Z := high_pfn (clamp_high lo hi).
Definition req_align (al : Z) : Z := align_of (align_pages al).

(** The outcome of a successful attempt from [c] on: the frames [b ..] chosen
    in the memory of [c1]. *)
Definition granted (n lo hi al : Z) (c c1 : contig) (r : Z) (c' : contig) : Prop :=
  exists b, r = NXK_KSEG0_BASE + 4096 * b /\ chosen (sup (cmm c1)) (page_count n) (req_low lo) (req_high lo hi) (req_align al) b /\
    (forall n', ~ allocated c r n') /\ forall a n', allocated c' a n' <-> allocated c a n' \/ a = r /\ n' = n.

Lemma attempt_spec G X c s n lo hi al : contig_ok G c -> held X c -> 0 <= s < NxContigSlots c -> Alias (slot_at c s) = 0 ->
  0 < n <= 0xFFFFF000 -> is_u32 lo -> is_u32 hi -> good_alignment al ->
  exists b c1, take_frames (page_count n) (req_low lo) (req_high lo hi) (align_pages al) c = Some (Ret b, c1) /\ contig_ok G c1 /\ keeps X c c1 /\
    NxContigTable c1 = NxContigTable c /\ NxpPageState (kpool c1) = NxpPageState (kpool c) /\
    (b = 0 /\ no_run (sup (cmm c)) (page_count n) (req_low lo) (req_high lo hi) (req_align al) /\
       starved (sup (cmm c1)) (page_count n) (req_low lo) (req_high lo hi) (req_align al) \/
     b <> 0 /\ exists r c', record_run s b n c1 = Some (Ret r, c') /\ contig_ok G c' /\ keeps X c c' /\
       NxContigSlots c' = NxContigSlots c /\ granted n lo hi al c c r c').
Proof.
  intros O H Hs Hz Hn Hlo Hhi Hal. destruct (align_pages_eq al Hal) as (k & Hk & Ek & _). unfold req_align. rewrite Ek.
  assert (Hp : 0 < page_count n < 2 ^ 32).
  { unfold page_count. split; [apply Z.div_str_pos; lia | apply Z.div_lt_upper_bound; lia]. }
  destruct (take_frames_spec G X c (page_count n) (req_low lo) (req_high lo hi) (align_pages al) k O H) as (b & m' & E & O1 & K1 & Hr);
    [unfold is_u32; lia | apply low_pfn_u32 | apply u32_range | done | done | lia |].
  exists b, (set_mm m' c). do 5 (split; [done |]). destruct Hr as [Hr | (Hb & Ch & Hh)]; [by left | right]. split; [done |].
  pose proof (wf_highest _ (mm_sup _ (pool_mm c (co_pool _ _ O)))) as Hw. pose proof Ch as [(Hb1 & Hb2 & _) _].
  assert (Dj : pages_of b (page_count n) ## table_frames (NxContigTable c) ∪ G).
  { intros q Hq Hq'. apply elem_of_pages_of in Hq; [| lia]. apply (chosen_unpinned (cmm c) _ _ _ _ b q Ch Hq). by apply (held_pinned _ c q (co_held _ _ O)). }
  destruct (record_ok G X (set_mm m' c) s b n O1 (ks_held _ _ _ K1) Hs Hz Hn Hh Dj) as (c' & E' & O' & K' & Sl & Na & Al); [lia | lia |].
  exists (NXK_KSEG0_BASE + 4096 * b), c'. split; [done |]. split; [done |]. split; [by apply (keeps_trans X c (set_mm m' c)) |]. split; [done |].
  exists b. split; [done |]. split; [unfold req_align; by rewrite Ek | done].
Qed.

(** Why there is no memory. *)
Definition alloc_refused (n lo hi al : Z) (c : contig) : Prop :=
  n = 0 \/ 0xFFFFF000 < n \/
  (full c /\ refused (page_bytes (32 * NxContigSlots c)) (kpool c)) \/
  (starved (sup (cmm c)) (page_count n) (req_low lo) (req_high lo hi) (req_align al) /\ no_empty (kpool c)).

Lemma sweep_spec G X c : contig_ok G c -> held X c ->
  exists n c', sweep_pool c = Some (Ret n, c') /\ contig_ok G c' /\ keeps X c c' /\ NxContigTable c' = NxContigTable c /\ no_empty (kpool c') /\ (n = 0 -> c' = c).
Proof.
  intros O H. set (F := table_frames (NxContigTable c) ∪ G). assert (HF : held (X ∪ F) c) by (apply held_union; [done | apply (co_held _ _ O)]).
  destruct (shared_sweep (cmm c) (X ∪ F) (kpool c) (co_pool _ _ O) HF) as (n & p & E & Op & Hp & Kc & L & Ne & Z0).
  exists n, (set_pool p c). unfold sweep_pool, on_pool. rewrite E. split; [done |].
  assert (Kp : keeps (X ∪ F) c (set_pool p c)) by (apply keeps_pool; [done | intros b d; by rewrite (L b d) | intros b d a Hl _; by apply Kc]).
  split; [| split; [by apply (keeps_sub (X ∪ F)); [apply union_subseteq_l |] | split; [done | split; [done |]]]].
  - destruct O. constructor; try done; [apply (held_sub (X ∪ F)); [apply union_subseteq_r | apply Kp] |]. intros Hb. apply L. auto.
  - intros Hn. rewrite (Z0 Hn). by destruct c.
Qed.

Lemma granted_start n lo hi al c c0 c1 r c' : (forall a n', allocated c0 a n' <-> allocated c a n') -> granted n lo hi al c0 c1 r c' -> granted n lo hi al c c1 r c'.
Proof.
  intros E (b & Er & Ch & Na & Al). exists b. split; [done |]. split; [done |]. split.
  - intros n' Ha. by apply (Na n'), E.
  - intros a n'. by rewrite Al, E.
Qed.

Lemma same_slot c c' s : NxContigTable c' = NxContigTable c -> NxContigSlots c' = NxContigSlots c /\ slot_at c' s = slot_at c s /\
  forall a n, allocated c' a n <-> allocated c a n.
Proof. intros E. unfold NxContigSlots, slot_at, allocated. by rewrite E. Qed.

(** [c1] is the state the frames were chosen in: the one of the call, unless
    no run was free there. *)
Lemma in_slot_spec G X c s n lo hi al : contig_ok G c -> held X c -> 0 <= s < NxContigSlots c -> Alias (slot_at c s) = 0 ->
  0 < n <= 0xFFFFF000 -> is_u32 lo -> is_u32 hi -> good_alignment al ->
  exists r c', alloc_in_slot s n (page_count n) (req_low lo) (req_high lo hi) (align_pages al) c = Some (Ret r, c') /\ contig_ok G c' /\ keeps X c c' /\
    (r = 0 /\ (forall a n', allocated c' a n' <-> allocated c a n') /\ alloc_refused n lo hi al c' \/
     exists c1, keeps X c c1 /\ granted n lo hi al c c1 r c' /\
       (c1 = c \/ no_run (sup (cmm c)) (page_count n) (req_low lo) (req_high lo hi) (req_align al))).
Proof.
  intros O H Hs Hz Hn Hlo Hhi Hal. unfold alloc_in_slot.
  destruct (attempt_spec G X c s n lo hi al O H Hs Hz Hn Hlo Hhi Hal) as (b & c1 & E1 & O1 & K1 & T1 & P1 & Hb). erewrite bind_ret by exact E1.
  destruct Hb as [(-> & Nr & St) | (Hb & r & c' & Er & O' & K' & _ & Gr)].
  2: { rewrite (proj2 (Z.eqb_neq b 0) Hb). cbn [negb]. exists r, c'. do 3 (split; [done |]). right. exists c. split; [by apply keeps_refl |]. auto. }
  rewrite Z.eqb_refl. cbn [negb]. destruct (sweep_spec G X c1 O1 (ks_held _ _ _ K1)) as (w & c2 & E2 & O2 & K2 & T2 & Ne & Z2).
  erewrite bind_ret by exact E2. pose proof (keeps_trans _ _ _ _ K1 K2) as K12.
  destruct (same_slot c c2 s (eq_trans T2 T1)) as (Sl2 & Ss2 & A2). destruct (Z.eqb_spec w 0) as [-> | Hw].
  { exists 0, c2. do 3 (split; [done |]). left. split; [done |]. split; [done |]. do 3 right. split; [by rewrite (Z2 eq_refl) | done]. }
  unfold retry_in_slot. destruct (attempt_spec G X c2 s n lo hi al O2 (ks_held _ _ _ K12)) as (b & c3 & E3 & O3 & K3 & T3 & P3 & Hb); [by rewrite Sl2 | by rewrite Ss2 | done.. |].
  erewrite bind_ret by exact E3. destruct Hb as [(-> & _ & St3) | (Hb & r & c' & Er & O' & K' & _ & Gr)].
  - rewrite Z.eqb_refl. cbn [negb]. exists 0, c3. do 2 (split; [done |]). split; [by apply (keeps_trans X c c2) |]. left. split; [done |].
    destruct (same_slot c c3 s) as (_ & _ & A3); [congruence |]. split; [done |]. do 3 right. split; [done |]. unfold no_empty. by rewrite P3.
  - rewrite (proj2 (Z.eqb_neq b 0) Hb). cbn [negb]. exists r, c'. do 2 (split; [done |]). split; [by apply (keeps_trans X c c2) |]. right.
    exists c2. split; [done |]. split; [by apply (granted_start n lo hi al c c2) | by right].
Qed.

Lemma contig_alloc_spec G X c n lo hi al : contig_ok G c -> held X c -> is_u32 n -> is_u32 lo -> is_u32 hi -> good_alignment al ->
  exists r c', NxMmAllocateContiguousMemoryEx n lo hi al c = Some (Ret r, c') /\ contig_ok G c' /\ keeps X c c' /\
    (r = 0 /\ (forall a n', allocated c' a n' <-> allocated c a n') /\ alloc_refused n lo hi al c' \/
     exists c1, keeps X c c1 /\ granted n lo hi al c c1 r c' /\
       (~ full c -> cmm c1 = cmm c \/ no_run (sup (cmm c)) (page_count n) (req_low lo) (req_high lo hi) (req_align al))).
Proof.
  intros O H Hn Hlo Hhi Hal. unfold NxMmAllocateContiguousMemoryEx. rewrite alloc_bytes_eq by done.
  assert (No : (n = 0 \/ 0xFFFFF000 < n) \/ 0 < n <= 0xFFFFF000) by (unfold is_u32 in Hn; lia). destruct No as [No | Hn1].
  { exists 0, c. assert (E0 : (if n <=? 0xFFFFF000 then 4096 * page_count n else 0) = 0).
    { destruct (Z.leb_spec n 0xFFFFF000); [| done]. destruct No as [-> | ?]; [done | lia]. }
    rewrite E0. cbn [Z.eqb]. split; [done |]. split; [done |]. split; [by apply keeps_refl |]. left. do 2 (split; [done |]). unfold alloc_refused. tauto. }
  rewrite (proj2 (Z.leb_le _ _)) by lia. assert (Hp : 0 < page_count n) by (unfold page_count; apply Z.div_str_pos; lia).
  rewrite (proj2 (Z.eqb_neq _ 0)) by lia. rewrite Z.shiftr_div_pow2 by done. change (2 ^ PAGE_SHIFT) with 4096.
  rewrite (Z.mul_comm 4096), Z.div_mul by lia. fold (req_low lo) (req_high lo hi).
  destruct (take_slot_spec G X c O H) as (r & c0 & E0 & O0 & K0 & A0 & F0 & Hr). cbv zeta. erewrite bind_ret by exact E0. destruct r as [s |].
  2: { exists 0, c0. do 3 (split; [done |]). left. do 2 (split; [done |]). unfold alloc_refused. tauto. }
  destruct (in_slot_spec G X c0 s n lo hi al O0 (ks_held _ _ _ K0) (proj1 Hr) (proj2 Hr) Hn1 Hlo Hhi Hal) as (r & c' & E & O' & K' & Hc).
  exists r, c'. do 2 (split; [done |]). split; [by apply (keeps_trans X c c0) |]. destruct Hc as [(-> & Al & Rf) | (c1 & K1 & Gr & Hc)]; [left | right].
  - split; [done |]. split; [| done]. intros a n'. by rewrite Al, A0.
  - exists c1. split; [by apply (keeps_trans X c c0) |]. split; [by apply (granted_start n lo hi al c c0) |]. intros Hf.
    assert (Em : cmm c0 = cmm c) by (unfold cmm; by rewrite (F0 Hf)). destruct Hc as [-> | Nr]; [by left | right]. by rewrite <- Em.
Qed.

(** ** Free and query *)

Lemma find_alias_spec t a : forall i, match find_alias t a i with
  | Some j => exists j' e, j = (i + j')%nat /\ t !! j' = Some e /\ Alias e = a
  | None => forall j e, t !! j = Some e -> Alias e <> a
  end.
Proof.
  induction t as [| e t IH]; intros i; cbn [find_alias]; [intros j e Hj; discriminate Hj |]. destruct (Z.eqb_spec (Alias e) a) as [E | E].
  - exists 0%nat, e. split; [lia | done].
  - specialize (IH (S i)). destruct (find_alias t a (S i)) as [j |].
    + destruct IH as (j' & f & -> & Hj & Ef). exists (S j'), f. split; [lia | done].
    + intros [| j] f Hj; [injection Hj as <-; done | by apply (IH j)].
Qed.

(** The slot of a live address; the other addresses have none, or a free one. *)
Lemma find_live G c a n : contig_ok G c -> allocated c a n ->
  exists i e, find_alias (NxContigTable c) a 0 = Some i /\ NxContigTable c !! i = Some e /\ nth i (NxContigTable c) zero_entry = e /\
    entry_ok e /\ Alias e = a /\ CSize e = n.
Proof.
  intros O (j & f & Hj & Ha & Ea & En). pose proof (find_alias_spec (NxContigTable c) a 0) as F. destruct (find_alias (NxContigTable c) a 0) as [i |].
  - destruct F as (i' & e & -> & Hi & Ee). exists i', e. split; [done |]. split; [done |]. split; [by rewrite nth_lookup, Hi |].
    assert (i' = j) as -> by (apply (alias_once G c i' j e f O Hi Hj); congruence). assert (f = e) as -> by congruence.
    destruct (co_entry _ _ O j e Hj) as [-> | Oe]; [by rewrite <- Ea in Ha |]. done.
  - by destruct (F j f Hj).
Qed.

Lemma find_dead G c a : contig_ok G c -> (forall n, ~ allocated c a n) ->
  find_alias (NxContigTable c) a 0 = None \/ exists i, find_alias (NxContigTable c) a 0 = Some i /\ NxContigTable c !! i = Some zero_entry.
Proof.
  intros O Hn. pose proof (find_alias_spec (NxContigTable c) a 0) as F. destruct (find_alias (NxContigTable c) a 0) as [i |]; [right | by left].
  destruct F as (i' & e & -> & Hi & Ee). exists i'. split; [done |]. destruct (decide (a = 0)) as [-> | Ha].
  - rewrite Hi. f_equal. apply alias_zero; [by apply (co_entry _ _ O i') | done].
  - exfalso. apply (Hn (CSize e)). by exists i', e.
Qed.

Lemma return_frames_rest n : forall m b, mm_wf m -> (forall q, b <= q < b + Z.of_nat n -> pinned m q) ->
  let m' := with_sup (return_frames n (sup m) b) m in
  rest_kept (pages_of b (Z.of_nat n)) m m' /\ free_set (sup m') = pages_of b (Z.of_nat n) ∪ free_set (sup m).
Proof.
  induction n as [| n IH]; intros m b W Hp; cbn [return_frames].
  - replace (with_sup (sup m) m) with m by (by destruct m). split; [apply view_rest; [done | reflexivity] |]. cbn zeta. symmetry. apply union_empty_l_L.
  - destruct (returned_rest m b W (Hp b ltac:(lia))) as [R1 F1]. set (m1 := with_sup (NxkPageSupplyReturn (sup m) b) m) in *.
    destruct (IH m1 (b + 1) (rk_mm _ _ _ R1)) as [R2 F2].
    { intros q Hq. apply (rk_pinned _ _ _ R1); [apply Hp; lia |]. intros ->%elem_of_singleton. lia. }
    change (with_sup (return_frames n (NxkPageSupplyReturn (sup m) b) (b + 1)) m) with (with_sup (return_frames n (sup m1) (b + 1)) m1).
    assert (Ep : pages_of b (Z.of_nat (S n)) = {[b]} ∪ pages_of (b + 1) (Z.of_nat n)).
    { apply set_eq. intros q. rewrite elem_of_union, elem_of_singleton, !elem_of_pages_of by lia. lia. }
    rewrite Ep. split; [by apply (rest_trans _ _ m m1) |]. cbv zeta in F2 |- *. rewrite F2, F1. clear. set_solver.
Qed.

Lemma table_frames_clear G c i e : contig_ok G c -> NxContigTable c !! i = Some e ->
  table_frames (NxContigTable c) = entry_run e ∪ table_frames (<[i := zero_entry]> (NxContigTable c)) /\
  entry_run e ## table_frames (<[i := zero_entry]> (NxContigTable c)).
Proof.
  intros O Hi. split.
  - apply set_eq. intros q. rewrite elem_of_union, !elem_table_frames. split.
    + intros (j & f & Hj & Hq). destruct (decide (i = j)) as [<- | Hn]; [left; congruence | right]. exists j, f. by rewrite list_lookup_insert_ne.
    + intros [Hq | (j & f & [[-> ->] | [_ Hj]]%table_lookup_insert & Hq)]; [eauto | by apply not_elem_of_empty in Hq | eauto].
  - intros q Hq (j & f & [[-> ->] | [Hn Hj]]%table_lookup_insert & Hq')%elem_table_frames; [by apply not_elem_of_empty in Hq' |].
    by apply (co_apart _ _ O i j e f (not_eq_sym Hn) Hi Hj q).
Qed.

(** Clearing a slot whose frames are given back. *)
Lemma clear_ok G c i e m' : contig_ok G c -> NxContigTable c !! i = Some e -> rest_kept (entry_run e) (cmm c) m' ->
  contig_ok G (set_mm m' (set_table (<[i := zero_entry]> (NxContigTable c)) c)).
Proof.
  intros O Hi R. destruct (table_frames_clear G c i e O Hi) as [Ef Ed]. set (t := <[i := zero_entry]> (NxContigTable c)) in *.
  assert (Dg : entry_run e ## G) by (intros q Hq Hq'; apply (co_claim _ _ O q); [rewrite Ef; by apply elem_of_union_l | done]).
  pose proof (co_held _ _ O) as Hh. rewrite Ef in Hh.
  destruct (keeps_mm (table_frames t ∪ G) (entry_run e) c m' (co_pool _ _ O)) as [O' Kp].
  { apply (held_sub (entry_run e ∪ table_frames t ∪ G)); [clear; set_solver | done]. } { done. } { clear - Ed Dg. set_solver. }
  assert (Sl : NxContigSlots (set_mm m' (set_table t c)) = NxContigSlots c) by (unfold NxContigSlots, t; cbn; by rewrite length_insert).
  constructor; rewrite ?Sl; try apply O; try exact O'; try exact (ks_held _ _ _ Kp).
  - intros j f [[-> ->] | [_ Hj]]%table_lookup_insert; [by left | by apply (co_entry _ _ O j)].
  - intros j1 j2 f1 f2 Hn [[-> ->] | [_ H1]]%table_lookup_insert [[-> ->] | [_ H2]]%table_lookup_insert;
      [done | apply disjoint_empty_l | apply disjoint_empty_r | by apply (co_apart _ _ O j1 j2)].
  - intros q Hq Hq'. apply (co_claim _ _ O q); [rewrite Ef; by apply elem_of_union_r | done].
Qed.

(** The frames of an allocation. *)
Definition run_of (a n : Z) : gset Z := pages_of ((a - NXK_KSEG0_BASE) / 4096) (page_count n).

Lemma run_of_entry e : entry_ok e -> run_of (Alias e) (CSize e) = entry_run e.
Proof.
  intros Oe. destruct (entry_run_ok e Oe) as (b & _ & Ea & -> & _). unfold run_of, page_count. f_equal. rewrite Ea.
  replace (NXK_KSEG0_BASE + 4096 * b - NXK_KSEG0_BASE) with (b * 4096) by lia. apply Z.div_mul. lia.
Qed.

Lemma allocated_clear G c i e c' : contig_ok G c -> NxContigTable c !! i = Some e -> NxContigTable c' = <[i := zero_entry]> (NxContigTable c) -> Alias e <> 0 ->
  forall a n, allocated c' a n <-> allocated c a n /\ a <> Alias e.
Proof.
  intros O Hi E Hz a n. unfold allocated. rewrite E. split.
  - intros (j & f & [[-> ->] | [Hn Hj]]%table_lookup_insert & Ha & Ea & En); [by rewrite <- Ea in Ha |].
    split; [by exists j, f |]. intros ->. apply Hn. apply (alias_once G c j i f e O Hj Hi); congruence.
  - intros [(j & f & Hj & Ha & Ea & En) Hne]. exists j, f. split; [| done]. rewrite list_lookup_insert_ne; [done |].
    intros <-. rewrite Hi in Hj. injection Hj as <-. congruence.
Qed.

Lemma contig_free_live G X c a n : contig_ok G c -> allocated c a n -> held X c -> X ## run_of a n ->
  exists c', NxMmFreeContiguousMemory a c = Some (Ret tt, c') /\ contig_ok G c' /\ keeps X c c' /\ NxkNv2aInstanceBytes c' = NxkNv2aInstanceBytes c /\
    free_set (sup (cmm c')) = run_of a n ∪ free_set (sup (cmm c)) /\
    forall a' n', allocated c' a' n' <-> allocated c a' n' /\ a' <> a.
Proof.
  intros O Ha HX Hd. destruct (find_live G c a n O Ha) as (i & e & Ef & Hi & En & Oe & <- & <-). rewrite run_of_entry in * by done.
  destruct (entry_run_ok e Oe) as (b & Ep & Ea & Er & Hp & Enp). set (N := (CSize e + 4095) / 4096) in *.
  assert (Hz : Alias e <> 0) by (destruct Oe as (? & ? & _ & _ & _ & _ & ->); unfold NXK_KSEG0_BASE; lia).
  assert (Hlt : Pa e < PaEnd e) by (destruct Oe as (b' & ? & ? & ? & -> & -> & _); fold N; lia).
  assert (HE : held (entry_run e) c).
  { apply (held_sub _ _ c) with (2 := co_held _ _ O). intros q Hq. apply elem_of_union_l, elem_table_frames. eauto. }
  assert (Hpn : forall q, b <= q < b + Z.of_nat (Z.to_nat N) -> pinned (cmm c) q).
  { intros q Hq. apply (held_pinned _ c q HE). rewrite Er. apply elem_of_pages_of; lia. }
  destruct (return_frames_rest (Z.to_nat N) (cmm c) b (pool_mm c (co_pool _ _ O)) Hpn) as [R F]. cbv zeta in R, F. rewrite Z2Nat.id, <- Er in R, F by lia.
  set (m' := with_sup (return_frames (Z.to_nat N) (sup (cmm c)) b) (cmm c)) in *.
  exists (set_mm m' (set_table (<[i := zero_entry]> (NxContigTable c)) c)). split.
  { unfold NxMmFreeContiguousMemory, NxpHeapFree. unfold mbind, K_bind, get, put, mret, K_ret. rewrite Ef. rewrite En, (proj2 (Z.ltb_lt _ _) Hlt).
    unfold give_back, on_sup, on_mm. rewrite Enp, Z.shiftr_div_pow2 by done. change (2 ^ PAGE_SHIFT) with 4096. rewrite Ep, (Z.mul_comm 4096 b), Z.div_mul by lia. done. }
  split; [by apply (clear_ok G c i e m') |].
  destruct (keeps_mm X (entry_run e) c m' (co_pool _ _ O)) as [_ Kp]; [by apply held_union | done | done |].
  split; [by apply (keeps_trans X c (set_mm m' c) _ Kp), keeps_table; [apply Kp | |] |]. split; [done |]. split; [exact F |]. by apply (allocated_clear G c i e).
Qed.

Lemma contig_free_dead G c a : contig_ok G c -> (forall n, ~ allocated c a n) -> NxMmFreeContiguousMemory a c = Some (Ret tt, c).
Proof.
  intros O Hn. unfold NxMmFreeContiguousMemory, NxpHeapFree. unfold mbind, K_bind, get, put, mret, K_ret.
  destruct (find_dead G c a O Hn) as [-> | (i & -> & Hi)]; [done |]. rewrite nth_lookup, Hi. cbn [default from_option Pa PaEnd zero_entry Z.ltb].
  change (0 <? 0) with false. unfold mret, K_ret. rewrite list_insert_id by done. by destruct c.
Qed.

Lemma contig_query_spec G c a : contig_ok G c ->
  (forall n, allocated c a n -> NxMmQueryAllocationSize a c = n) /\ ((forall n, ~ allocated c a n) -> NxMmQueryAllocationSize a c = 0).
Proof.
  intros O. unfold NxMmQueryAllocationSize. split.
  - intros n Ha. destruct (find_live G c a n O Ha) as (i & e & -> & Hi & -> & _ & _ & <-). done.
  - intros Hn. destruct (find_dead G c a O Hn) as [-> | (i & -> & Hi)]; [done |]. by rewrite nth_lookup, Hi.
Qed.

(** ** Graphics memory *)

Lemma set_mm_id c : set_mm (cmm c) c = c.
Proof. destruct c as [p ? ? ? ?]. destruct p as [w ? ? ? ? ?]. by destruct w. Qed.

Lemma with_sup_id m : with_sup (sup m) m = m.
Proof. by destruct m. Qed.

(** The frame is not the machine's, is immovable, or nothing is free above
    the floor to move its page to. *)
Definition unclaimable (m : mm) (q : Z) : Prop :=
  ~ in_range (sup m) q \/ pinned m q \/ forall f, f ∈ free_set (sup m) -> generic f = false.

Lemma unclaimable_kept m m' q : unclaimable m q -> rest_kept ∅ m m' -> free_set (sup m') ⊆ free_set (sup m) -> unclaimable m' q.
Proof.
  intros [H | [H | H]] R S.
  - left. unfold in_range in *. by rewrite (rk_high _ _ _ R).
  - right; left. apply (rk_pinned _ _ _ R); [done | apply not_elem_of_empty].
  - right; right. intros f Hf. by apply H, S.
Qed.

Lemma infeasible_one m q : in_range (sup m) q -> q ∉ free_set (sup m) -> ~ feasible (sup m) 1 q -> unclaimable m q.
Proof.
  intros Hr Hf Hn. right. destruct (decide (link (sup m) q = 0)) as [Hl | Hl]; [by left | right]. intros f Hff.
  destruct (generic f) eqn:Eg; [| done]. exfalso. apply Hn. split.
  - intros x Hx. assert (x = q) as -> by lia. auto.
  - change (Z.to_nat 1) with 1%nat. cbn [movable_count]. rewrite decide_False by done.
    unfold generic_out. assert (Hin : f ∈ filter (fun p => generic p = true /\ in_window q (q + 1 - 1) p = false) (free_set (sup m))).
    { apply elem_of_filter. split; [| done]. split; [done |]. unfold in_window. assert (f <> q) by (intros ->; done). lia. }
    assert (size (filter (fun p => generic p = true /\ in_window q (q + 1 - 1) p = false) (free_set (sup m))) <> 0%nat); [| lia].
    intros E%size_empty_inv. apply E in Hin. by apply not_elem_of_empty in Hin.
Qed.

(** One frame: taken, cleared by a move, or left. *)
Definition claim_one (m : mm) (q : Z) : option mm :=
  let '(ok, s) := NxkPageSupplyTakeSpecific (sup m) q in
  if ok then Some (with_sup s m)
  else match NxkPageSupplyTakeRunRelocate (with_sup s m) 1 q q 1 with None => None | Some (_, m') => Some m' end.

Lemma claim_one_spec m q : mm_wf m -> 16 <= q < 2 ^ 15 -> exists m', claim_one m q = Some m' /\ rest_kept ∅ m m' /\ free_set (sup m') ⊆ free_set (sup m) /\
  (pinned m' q /\ ~ pinned m q \/ unclaimable m' q).
Proof.
  intros W Hq. unfold claim_one, NxkPageSupplyTakeSpecific. pose proof (mm_sup _ W) as Ws. destruct (NxkPageSupplyIsFree (sup m) q) eqn:Ef.
  - apply (elem_of_free_set _ _ Ws) in Ef. destruct (unlink_took (sup m) q Ws Ef) as (W1 & _ & F1 & L1 & U1 & H1). eexists. split; [done |].
    assert (Ep : pages_of q 1 = {[q]}) by (apply set_eq; intros x; rewrite elem_of_pages_of, elem_of_singleton by lia; lia).
    destruct (took_run_rest m q 1 (NxpUnlink (sup m) q) W W1 ltac:(lia)) as [R Pn]; [| by rewrite Ep | | done | done |].
    { intros x Hx. by assert (x = q) as -> by lia. } { intros x Hx. by assert (x = q) as -> by lia. }
    split; [done |]. split; [cbn [sup with_sup]; rewrite F1; clear; set_solver |]. left. split; [apply Pn; lia |]. by intros (_ & ? & _).
  - assert (Hf : q ∉ free_set (sup m)) by (rewrite (elem_of_free_set _ _ Ws); by rewrite Ef). rewrite with_sup_id.
    destruct (relocate_both m 1 q q 1 0 W) as (b & m' & E & W' & V & S & H); [unfold is_u32; lia.. | done | lia | lia |].
    rewrite E. exists m'. split; [done |]. split; [by apply view_rest |]. split; [done |]. change NXP_GENERIC_FLOOR_PFN with 16 in H.
    destruct H as [[-> H] | (Ft & Mv & Pn & _)].
    + right. destruct (H ltac:(lia)) as [-> Hx]. destruct (Z.le_gt_cases q (NxpHighestPfn (sup m))) as [Hr | Hr]; [| left; unfold in_range; lia].
      apply infeasible_one; [unfold in_range; lia | done |]. apply Hx. unfold run_fits. rewrite Z.mod_1_r. lia.
    + left. destruct Ft as (H1 & H2 & _). assert (b = q) as -> by lia. split; [apply Pn; lia |]. intros (_ & _ & Hl).
      destruct (Mv q ltac:(lia)) as [_ [? | ?]]; done.
Qed.

Lemma claim_down_one n old c m' : claim_one (cmm c) (old - 1) = Some m' -> claim_down (S n) old c = claim_down n (old - 1) (set_mm m' c).
Proof.
  unfold claim_one. intros E. cbn [claim_down]. unfold mbind at 1, K_bind at 1, on_sup, on_mm at 1.
  destruct (NxkPageSupplyTakeSpecific (sup (cmm c)) (old - 1)) as [[|] s].
  - injection E as <-. done.
  - unfold mbind, K_bind, on_mm. change (cmm (set_mm (with_sup s (cmm c)) c)) with (with_sup s (cmm c)).
    destruct (NxkPageSupplyTakeRunRelocate (with_sup s (cmm c)) 1 (old - 1) (old - 1) 1) as [[b m2] |]; [| discriminate E]. injection E as <-. done.
Qed.

(** A frame that a step has made immovable. *)
Lemma step_held c m' q : pool_ok (kpool c) -> rest_kept ∅ (cmm c) m' -> pinned m' q -> ~ pinned (cmm c) q -> held {[q]} (set_mm m' c).
Proof.
  intros O R Hp Hn. apply held_intro; [by intros x ->%elem_of_singleton |]. intros x i ->%elem_of_singleton Hi Hu.
  apply (apart_rest ∅ (pages (kpool c)) m' q i (po_pages _ O) R); [| done | by left | done | done]. intros q' i' Hq'. by apply not_elem_of_empty in Hq'.
Qed.

Lemma claim_down_spec n : forall old c, pool_ok (kpool c) -> 16 <= old - Z.of_nat n -> old <= 2 ^ 15 ->
  exists T m', claim_down n old c = Some (Ret tt, set_mm m' c) /\ pool_ok (kpool (set_mm m' c)) /\ rest_kept ∅ (cmm c) m' /\
    free_set (sup m') ⊆ free_set (sup (cmm c)) /\ T ⊆ pages_of (old - Z.of_nat n) (Z.of_nat n) /\ held T (set_mm m' c) /\
    (forall q, q ∈ T -> ~ pinned (cmm c) q) /\ forall q, old - Z.of_nat n <= q < old -> q ∈ T \/ unclaimable m' q.
Proof.
  induction n as [| n IH]; intros old c O H0 H1.
  - exists ∅, (cmm c). cbn [claim_down]. rewrite set_mm_id. split; [done |]. split; [done |].
    split; [apply view_rest; [by apply pool_mm | done] |]. split; [done |]. split; [apply empty_subseteq |].
    split; [apply held_empty |]. split; [intros q Hq; by apply not_elem_of_empty in Hq |]. intros q Hq. lia.
  - destruct (claim_one_spec (cmm c) (old - 1) (pool_mm c O) ltac:(lia)) as (m1 & E1 & R1 & S1 & Hq).
    rewrite (claim_down_one n old c m1 E1). set (c1 := set_mm m1 c).
    destruct (keeps_mm ∅ ∅ c m1 O) as [O1 _]; [apply held_empty | done | apply disjoint_empty_r |].
    destruct (IH (old - 1) c1 O1 ltac:(lia) ltac:(lia)) as (T & m' & E & O' & R & Sf & HT & HhT & Tp & Un).
    assert (Rt : rest_kept ∅ (cmm c) m') by (rewrite <- (union_empty_r_L ∅); by apply (rest_trans _ _ (cmm c) m1)).
    assert (St : free_set (sup m') ⊆ free_set (sup (cmm c))) by (by etrans).
    assert (Tp' : forall q, q ∈ T -> ~ pinned (cmm c) q).
    { intros q Hq' Hp. apply (Tp q Hq'). apply (rk_pinned _ _ _ R1); [done | apply not_elem_of_empty]. }
    assert (Pg : forall q, q ∈ pages_of (old - Z.of_nat (S n)) (Z.of_nat (S n)) <-> q = old - 1 \/ q ∈ pages_of (old - 1 - Z.of_nat n) (Z.of_nat n)).
    { intros q. rewrite !elem_of_pages_of by lia. lia. }
    destruct Hq as [[Hp Hn] | Hu].
    + exists ({[old - 1]} ∪ T), m'. change (set_mm m' c1) with (set_mm m' c) in *. do 4 (split; [done |]).
      split; [intros q [->%elem_of_singleton | Hq]%elem_of_union; apply Pg; auto |]. split; [| split].
      * apply held_union; [| done]. destruct (keeps_mm {[old - 1]} ∅ c1 m' O1) as [_ Kp]; [| done | apply disjoint_empty_r | exact (ks_held _ _ _ Kp)].
        rewrite union_empty_r_L. by apply (step_held c m1 (old - 1)).
      * intros q [->%elem_of_singleton | Hq]%elem_of_union; [done | by apply Tp'].
      * intros q Hq. destruct (decide (q = old - 1)) as [-> | Hne]; [left; apply elem_of_union_l; by apply elem_of_singleton |].
        destruct (Un q ltac:(lia)) as [? | ?]; [left; by apply elem_of_union_r | by right].
    + exists T, m'. change (set_mm m' c1) with (set_mm m' c) in *. do 4 (split; [done |]). split; [intros q Hq; apply Pg; auto |]. do 2 (split; [done |]).
      intros q Hq. destruct (decide (q = old - 1)) as [-> | Hne]; [right; by apply (unclaimable_kept m1) |]. apply Un. lia.
Qed.

Lemma claim_bytes_spec n : is_u32 n -> 0 <= claim_bytes n <= NXK_NV2A_INSTANCE_BYTES /\ claim_bytes n mod 4096 = 0.
Proof.
  intros Hn. unfold claim_bytes. rewrite round_page by apply u32_range. pose proof (u32_range (n + (PAGE_SIZE - 1))) as Hr. fold (add32 n (PAGE_SIZE - 1)) in Hr.
  assert (0 <= add32 n (PAGE_SIZE - 1) / 4096) by (apply Z.div_pos; lia). unfold NXK_NV2A_INSTANCE_BYTES.
  destruct (Z.ltb_spec 65536 (4096 * (add32 n (PAGE_SIZE - 1) / 4096))); [done |]. split; [lia |]. rewrite Z.mul_comm. by apply Z.mod_mul.
Qed.

Lemma claim_low_eq b : claim_low b = 0x3FF0 - b / 4096.
Proof. unfold claim_low. rewrite !Z.shiftr_div_pow2 by done. reflexivity. Qed.

(** The frames of a claim. *)
Definition claim_frames (bytes : Z) : gset Z := pages_of (claim_low bytes) (bytes / 4096).

Lemma elem_claim_frames q b : 0 <= b -> q ∈ claim_frames b <-> 0x3FF0 - b / 4096 <= q < 0x3FF0.
Proof. intros Hb. unfold claim_frames. rewrite elem_of_pages_of, claim_low_eq by (apply Z.div_pos; lia). lia. Qed.

Definition claim_result : Z * Z := (0x83FF0000, 0x10000).

Lemma give_none c b : give_back 0 b c = Some (Ret tt, c).
Proof. unfold give_back, on_sup, on_mm. cbn [return_frames]. by rewrite with_sup_id, set_mm_id. Qed.

(** A claim that grows takes every frame it can. *)
Lemma claim_grow_spec G X c n : contig_ok G c -> held X c -> is_u32 n -> n <> MAXULONG_PTR -> NxkNv2aInstanceBytes c <= claim_bytes n ->
  exists T c', NxMmClaimGpuInstanceMemory n c = Some (Ret claim_result, c') /\ contig_ok (G ∪ T) c' /\ keeps X c c' /\
    NxContigTable c' = NxContigTable c /\ NxkNv2aInstanceBytes c' = claim_bytes n /\
    forall q, q ∈ claim_frames (claim_bytes n) ∖ claim_frames (NxkNv2aInstanceBytes c) -> q ∈ T \/ unclaimable (cmm c') q.
Proof.
  intros O H Hn Hm Hle. destruct (claim_bytes_spec n Hn) as [Hb Hbm]. destruct (co_bytes _ _ O) as [Hc Hcm]. pose proof (co_window _ _ O) as HG.
  set (new := claim_bytes n) in *. set (old := NxkNv2aInstanceBytes c) in *. unfold NXK_NV2A_INSTANCE_BYTES in *.
  assert (Hd : 0 <= old / 4096 <= new / 4096 /\ new / 4096 <= 16).
  { split; [split; [apply Z.div_pos | apply Z.div_le_mono]; lia | apply Z.div_le_upper_bound; lia]. }
  set (k := Z.to_nat (new / 4096 - old / 4096)).
  destruct (claim_down_spec k (0x3FF0 - old / 4096) c (co_pool _ _ O) ltac:(lia) ltac:(lia)) as (T & m' & E & O' & R & _ & HT & HhT & Tp & Un).
  exists T, (set_claim new (set_mm m' c)). split.
  { unfold NxMmClaimGpuInstanceMemory. rewrite (proj2 (Z.eqb_neq _ _) Hm). fold new. unfold mbind, K_bind, get, put. fold old.
    rewrite !claim_low_eq. replace (0x3FF0 - old / 4096 - (0x3FF0 - new / 4096)) with (new / 4096 - old / 4096) by lia. fold k. rewrite E.
    replace (Z.to_nat _) with 0%nat by lia. rewrite give_none. done. }
  assert (KK : forall Y, held Y c -> keeps Y c (set_mm m' c)).
  { intros Y HY. apply (keeps_mm Y ∅); [apply (co_pool _ _ O) | by rewrite union_empty_r_L | done | apply disjoint_empty_r]. }
  split; [| split; [by apply (keeps_trans X c (set_mm m' c) _ (KK X H)), keeps_table; [apply (KK X H) | |] | do 2 (split; [done |])]].
  - destruct O. constructor; try done.
    + change (held (table_frames (NxContigTable c) ∪ (G ∪ T)) (set_mm m' c)). rewrite union_assoc_L. apply held_union; [by apply (KK _ co_held0) | done].
    + change (table_frames (NxContigTable c) ## G ∪ T). intros q Hq [Hq' | Hq']%elem_of_union; [by apply (co_claim0 q) |].
      apply (Tp q Hq'). apply (held_pinned _ c q co_held0). by apply elem_of_union_l.
    + change (G ∪ T ⊆ claim_frames new). intros q Hq. apply elem_claim_frames; [lia |]. apply elem_of_union in Hq as [Hq%HG | Hq%HT].
      * change (q ∈ claim_frames old) in Hq. apply elem_claim_frames in Hq; lia.
      * apply elem_of_pages_of in Hq; lia.
  - intros q [H1 H2]%elem_of_difference. rewrite elem_claim_frames in H1, H2 by lia. apply Un. lia.
Qed.

(** A claim that shrinks gives the frames back, when it had them. *)
Lemma claim_shrink_spec G X c n : contig_ok G c -> held X c -> is_u32 n -> claim_bytes n <= NxkNv2aInstanceBytes c ->
  let D := claim_frames (NxkNv2aInstanceBytes c) ∖ claim_frames (claim_bytes n) in D ⊆ G -> X ## D -> n <> MAXULONG_PTR ->
  exists c', NxMmClaimGpuInstanceMemory n c = Some (Ret claim_result, c') /\ contig_ok (G ∖ D) c' /\ keeps X c c' /\
    NxContigTable c' = NxContigTable c /\ NxkNv2aInstanceBytes c' = claim_bytes n /\ free_set (sup (cmm c')) = D ∪ free_set (sup (cmm c)).
Proof.
  intros O H Hn Hle D HD HX Hm. destruct (claim_bytes_spec n Hn) as [Hb Hbm]. destruct (co_bytes _ _ O) as [Hc Hcm]. pose proof (co_window _ _ O) as HG.
  set (new := claim_bytes n) in *. set (old := NxkNv2aInstanceBytes c) in *. unfold NXK_NV2A_INSTANCE_BYTES in *.
  assert (Hd : 0 <= new / 4096 <= old / 4096 /\ old / 4096 <= 16).
  { split; [split; [apply Z.div_pos | apply Z.div_le_mono]; lia | apply Z.div_le_upper_bound; lia]. }
  set (k := Z.to_nat (old / 4096 - new / 4096)).
  assert (ED : D = pages_of (0x3FF0 - old / 4096) (Z.of_nat k)).
  { apply set_eq. intros q. unfold D. rewrite elem_of_difference, !elem_claim_frames, elem_of_pages_of by lia. lia. }
  assert (HhD : held D c) by (apply (held_sub (table_frames (NxContigTable c) ∪ G)); [clear - HD; set_solver | apply (co_held _ _ O)]).
  destruct (return_frames_rest k (cmm c) (0x3FF0 - old / 4096) (pool_mm c (co_pool _ _ O))) as [R F].
  { intros q Hq. apply (held_pinned _ c q HhD). rewrite ED. apply elem_of_pages_of; lia. }
  cbv zeta in R, F. rewrite <- ED in R, F. set (m' := with_sup (return_frames k (sup (cmm c)) (0x3FF0 - old / 4096)) (cmm c)) in *.
  exists (set_claim new (set_mm m' c)). split.
  { unfold NxMmClaimGpuInstanceMemory. rewrite (proj2 (Z.eqb_neq _ _) Hm). fold new. unfold mbind, K_bind, get, put. fold old.
    rewrite !claim_low_eq. replace (Z.to_nat (0x3FF0 - old / 4096 - (0x3FF0 - new / 4096))) with 0%nat by lia. cbn [claim_down].
    unfold mret, K_ret, give_back, on_sup, on_mm. replace (0x3FF0 - new / 4096 - (0x3FF0 - old / 4096)) with (old / 4096 - new / 4096) by lia. done. }
  assert (KK : forall Y, held Y c -> Y ## D -> keeps Y c (set_mm m' c)).
  { intros Y HY Hd'. apply (keeps_mm Y D); [apply (co_pool _ _ O) | by apply held_union | done | done]. }
  split; [| split; [by apply (keeps_trans X c (set_mm m' c) _ (KK X H HX)), keeps_table; [apply (KK X H HX) | |] | do 2 (split; [done |]); exact F]].
  pose proof (co_claim _ _ O) as Cl. assert (Hown : table_frames (NxContigTable c) ∪ G ∖ D ## D) by (clear - Cl HD; set_solver).
  assert (Hh : held (table_frames (NxContigTable c) ∪ G ∖ D) c) by (apply (held_sub (table_frames (NxContigTable c) ∪ G)); [clear; set_solver | apply (co_held _ _ O)]).
  destruct (keeps_mm _ D c m' (co_pool _ _ O) (held_union _ _ _ Hh HhD) R Hown) as [O' Kp].
  destruct O. constructor; try done; [exact (ks_held _ _ _ Kp) | |].
  - change (table_frames (NxContigTable c) ## G ∖ D). clear - Cl. set_solver.
  - change (G ∖ D ⊆ claim_frames new). intros q [Hq Hq']%elem_of_difference. apply HG in Hq. change (q ∈ claim_frames old) in Hq.
    destruct (decide (q ∈ claim_frames new)); [done |]. destruct Hq'. by apply elem_of_difference.
Qed.

(** The query. *)
Lemma claim_query_spec c : NxMmClaimGpuInstanceMemory MAXULONG_PTR c = Some (Ret claim_result, c).
Proof. reflexivity. Qed.

(** ** Refinement

    What the calls promise, over the live allocations with their sizes, the
    bytes claimed, and the frames that the claim holds. *)

Record abstract : Type := Abstract { allocs : gmap Z Z; claimed : Z; gpu : gset Z }.

Inductive call : Type :=
  | Allocate (n lo hi al : Z)
  | Free (a : Z)
  | Query (a : Z)
  | Persist (a n : Z) (p : bool)
  | Claim (n : Z)
  | Donate (pa pages : Z).

Definition do_call (k : call) : K (Z * Z) :=
  match k with
  | Allocate n lo hi al => r ← NxMmAllocateContiguousMemoryEx n lo hi al; mret (r, 0)
  | Free a => NxMmFreeContiguousMemory a;; mret (0, 0)
  | Query a => c ← get; mret (NxMmQueryAllocationSize a c, 0)
  | Persist a n p => NxMmPersistContiguousMemory a n p;; mret (0, 0)
  | Claim n => NxMmClaimGpuInstanceMemory n
  | Donate pa pages => NxkMmDonateHeapPages pa pages;; mret (0, 0)
  end.

Definition contig_state (c : contig) (σ : abstract) : Prop :=
  contig_ok (gpu σ) c /\ claimed σ = NxkNv2aInstanceBytes c /\ forall a n, allocs σ !! a = Some n <-> allocated c a n.

(** The frames a shrinking claim lets go. *)
Definition released (σ : abstract) (n : Z) : gset Z := claim_frames (claimed σ) ∖ claim_frames (claim_bytes n).

Definition donated (pa pages : Z) : gset Z := pages_of (pa / 4096) pages.

(** What the caller owes, with [X] the frames of others: words, a power of two
    for a large alignment; a claim shrinks only over frames it holds; donated
    frames are in use, by nobody else. *)
Definition legal (X : gset Z) (c : contig) (σ : abstract) (k : call) : Prop :=
  match k with
  | Allocate n lo hi al => is_u32 n /\ is_u32 lo /\ is_u32 hi /\ good_alignment al
  | Free a => forall n, allocs σ !! a = Some n -> X ## run_of a n
  | Claim n => is_u32 n /\ (n <> MAXULONG_PTR -> released σ n ⊆ gpu σ /\ X ## released σ n)
  | Donate pa pages => pa mod 4096 = 0 /\ 0 <= pages /\ held (donated pa pages) c /\
      donated pa pages ## X ∪ table_frames (NxContigTable c) ∪ gpu σ
  | _ => True
  end.

Definition call_spec (X : gset Z) (k : call) (c : contig) (σ : abstract) (r : Z * Z) (c' : contig) (σ' : abstract) : Prop :=
  match k with
  | Allocate n lo hi al => claimed σ' = claimed σ /\ gpu σ' = gpu σ /\
      (r = (0, 0) /\ allocs σ' = allocs σ /\ alloc_refused n lo hi al c' \/
       exists b c1, r = (NXK_KSEG0_BASE + 4096 * b, 0) /\ allocs σ !! (NXK_KSEG0_BASE + 4096 * b) = None /\
         allocs σ' = <[NXK_KSEG0_BASE + 4096 * b := n]> (allocs σ) /\ keeps X c c1 /\
         chosen (sup (cmm c1)) (page_count n) (req_low lo) (req_high lo hi) (req_align al) b /\
         (~ full c -> cmm c1 = cmm c \/ no_run (sup (cmm c)) (page_count n) (req_low lo) (req_high lo hi) (req_align al)) /\
         (lo <= 0xFFFFF000 -> 0xFFF <= hi -> placed n lo hi al b))
  | Free a => r = (0, 0) /\ σ' = Abstract (delete a (allocs σ)) (claimed σ) (gpu σ) /\
      free_set (sup (cmm c')) = (match allocs σ !! a with Some n => run_of a n | None => ∅ end) ∪ free_set (sup (cmm c))
  | Query a => r = (default 0 (allocs σ !! a), 0) /\ c' = c /\ σ' = σ
  | Persist _ _ _ => r = (0, 0) /\ c' = c /\ σ' = σ
  | Claim n => r = claim_result /\ allocs σ' = allocs σ /\
      (n = MAXULONG_PTR /\ c' = c /\ σ' = σ \/
       n <> MAXULONG_PTR /\ claimed σ' = claim_bytes n /\
         ((exists T, gpu σ' = gpu σ ∪ T /\ forall q, q ∈ claim_frames (claim_bytes n) ∖ claim_frames (claimed σ) -> q ∈ T \/ unclaimable (cmm c') q) \/
          gpu σ' = gpu σ ∖ released σ n /\ free_set (sup (cmm c')) = released σ n ∪ free_set (sup (cmm c))))
  | Donate pa pages => r = (0, 0) /\ σ' = σ /\ free_set (sup (cmm c')) = donated pa pages ∪ free_set (sup (cmm c))
  end.

(** Live allocations have their own frames, in use and immovable, and none of
    the graphics chip's. *)
Definition promised (c : contig) (σ : abstract) : Prop :=
  forall a n, allocs σ !! a = Some n -> 0 < n /\ held (run_of a n) c /\ run_of a n ## gpu σ /\
    forall a' n', allocs σ !! a' = Some n' -> a' <> a -> run_of a n ## run_of a' n'.

Lemma state_promised c σ : contig_state c σ -> promised c σ.
Proof.
  intros (O & _ & Al) a n (i & e & Hi & Ha & <- & <-)%Al. destruct (co_entry _ _ O i e Hi) as [-> | Oe]; [done |].
  rewrite run_of_entry by done. assert (Hs : entry_run e ⊆ table_frames (NxContigTable c)) by (intros q Hq; apply elem_table_frames; eauto).
  split; [by destruct Oe as (? & ? & ? & _) |]. split; [apply (held_sub (table_frames (NxContigTable c) ∪ gpu σ)); [clear - Hs; set_solver | apply (co_held _ _ O)] |].
  split; [intros q Hq; apply (co_claim _ _ O q); by apply Hs |]. intros a' n' (j & f & Hj & Ha' & <- & <-)%Al Hne.
  destruct (co_entry _ _ O j f Hj) as [-> | Of]; [done |]. rewrite run_of_entry by done. apply (co_apart _ _ O i j); [congruence | done | done].
Qed.

(** *** The claim's size

    Nothing but a claim changes it. *)
Definition quiet {A} (m : K A) : Prop := forall c o c', m c = Some (o, c') -> NxkNv2aInstanceBytes c' = NxkNv2aInstanceBytes c.

Create HintDb quiet.

Lemma quiet_bind {A B} (m : K A) (k : A -> K B) : quiet m -> (forall a, quiet (k a)) -> quiet (m ≫= k).
Proof.
  intros Qm Qk c o c'. unfold mbind, K_bind. destruct (m c) as [[[a | |] c1] |] eqn:E; [| intros [= <- <-]; by apply (Qm c _ _ E).. | done].
  intros H. rewrite (Qk a c1 o c' H). by apply (Qm c _ _ E).
Qed.

Lemma quiet_ret {A} (a : A) : quiet (mret a).
Proof. by intros c o c' [= <- <-]. Qed.

Lemma quiet_put f : (forall c, NxkNv2aInstanceBytes (f c) = NxkNv2aInstanceBytes c) -> quiet (put f).
Proof. intros H c o c' [= <- <-]. apply H. Qed.

Lemma quiet_no_fuel {A} : quiet (@no_fuel A).
Proof. by intros c o c'. Qed.

Lemma quiet_on_mm {A} (f : mm -> option (A * mm)) : quiet (on_mm f).
Proof. intros c o c'. unfold on_mm. destruct (f (cmm c)) as [[a m] |]; [| done]. by intros [= <- <-]. Qed.

Lemma quiet_on_sup {A} (f : supply -> option (A * supply)) : quiet (on_sup f).
Proof. apply quiet_on_mm. Qed.

Lemma quiet_on_pool {A} (f : pool window -> option (outcome A * pool window)) : quiet (on_pool f).
Proof. intros c o c'. unfold on_pool. destruct (f (kpool c)) as [[a p] |]; [| done]. by intros [= <- <-]. Qed.

#[local] Hint Resolve quiet_bind quiet_ret quiet_put quiet_no_fuel quiet_on_mm quiet_on_sup quiet_on_pool : quiet.

(** A reading of the state followed by a write of it. *)
Lemma quiet_update {A B} (f : contig -> A * contig) (k : A -> contig -> K B) :
  (forall c, NxkNv2aInstanceBytes (snd (f c)) = NxkNv2aInstanceBytes c) -> (forall a c, quiet (k a c)) ->
  quiet (c ← get; let '(a, c) := f c in put (fun _ => c);; k a c).
Proof.
  intros Hf Hk c o c'. unfold mbind, K_bind, get, put. specialize (Hf c). destruct (f c) as [a c1]. cbn [snd] in Hf. intros H. by rewrite (Hk a c1 c1 o c' H).
Qed.

Lemma free_block_quiet b : quiet (free_block_opt b).
Proof. unfold free_block_opt. destruct (b =? 0); auto with quiet. Qed.

Lemma find_slot_quiet c : NxkNv2aInstanceBytes (snd (NxpContigFindFreeSlotLocked c)) = NxkNv2aInstanceBytes c.
Proof. unfold NxpContigFindFreeSlotLocked. by destruct (slot_scan _ c _). Qed.

#[local] Hint Resolve free_block_quiet find_slot_quiet : quiet.

Lemma grow_quiet o : quiet (NxpContigGrow o).
Proof.
  unfold NxpContigGrow. apply quiet_bind; [auto with quiet |]. intros New. destruct (New =? 0); [auto with quiet |].
  apply (quiet_update (fun c => grow_swap c o (mul32 o 2) New) (fun unused _ => free_block_opt unused;; mret true)); [| auto 6 with quiet].
  intros c. unfold grow_swap. by destruct (NxContigSlots c =? o).
Qed.

#[local] Hint Resolve grow_quiet : quiet.

Lemma take_slot_quiet fuel : quiet (take_slot fuel).
Proof.
  induction fuel as [| f IH]; cbn [take_slot]; [auto with quiet |].
  apply (quiet_update NxpContigFindFreeSlotLocked (fun Slot c => if negb (Slot =? NxContigSlots c) then mret (Some Slot)
    else grown ← NxpContigGrow (NxContigSlots c); if grown : bool then take_slot f else mret None)); [auto with quiet |].
  intros s c. destruct (negb _); [auto with quiet |]. apply quiet_bind; [auto with quiet |]. intros [|]; auto with quiet.
Qed.

Lemma take_frames_quiet n lo hi al : quiet (take_frames n lo hi al).
Proof. unfold take_frames. apply quiet_bind; [auto with quiet |]. intros b. destruct (b =? 0); auto with quiet. Qed.

Lemma record_quiet s b n : quiet (record_run s b n).
Proof. unfold record_run. auto with quiet. Qed.

#[local] Hint Resolve take_slot_quiet take_frames_quiet record_quiet : quiet.

Lemma alloc_quiet n lo hi al : quiet (NxMmAllocateContiguousMemoryEx n lo hi al).
Proof.
  unfold NxMmAllocateContiguousMemoryEx. destruct (_ =? 0); [auto with quiet |]. apply quiet_bind; [unfold NxpContigTakeSlot; auto with quiet |].
  intros [s |]; [| auto with quiet]. unfold alloc_in_slot. apply quiet_bind; [auto with quiet |]. intros b. destruct (negb _); [auto with quiet |].
  apply quiet_bind; [unfold sweep_pool; auto with quiet |]. intros w. destruct (w =? 0); [auto with quiet |].
  unfold retry_in_slot. apply quiet_bind; [auto with quiet |]. intros b'. destruct (negb _); auto with quiet.
Qed.

(** *** The calls *)

Lemma refine_alloc X c σ n lo hi al : contig_state c σ -> held X c -> legal X c σ (Allocate n lo hi al) ->
  exists r c' σ', do_call (Allocate n lo hi al) c = Some (Ret r, c') /\ contig_state c' σ' /\ keeps X c c' /\ call_spec X (Allocate n lo hi al) c σ r c' σ'.
Proof.
  intros (O & Ec & Al) H (Hn & Hlo & Hhi & Hal). destruct (contig_alloc_spec (gpu σ) X c n lo hi al O H Hn Hlo Hhi Hal) as (r & c' & E & O' & Kp & Hr).
  exists (r, 0), c'. cbn [do_call]. erewrite bind_ret by exact E. pose proof (alloc_quiet n lo hi al c _ c' E) as Eq.
  destruct Hr as [(-> & Al' & Rf) | (c1 & K1 & (b & -> & Ch & Na & Al') & Hc)].
  - exists σ. split; [done |]. split; [split; [done |]; split; [congruence | intros a n'; by rewrite Al, Al'] |]. split; [done |].
    do 2 (split; [done |]). by left.
  - set (r := NXK_KSEG0_BASE + 4096 * b) in *. exists (Abstract (<[r := n]> (allocs σ)) (claimed σ) (gpu σ)). split; [done |].
    assert (Nr : allocs σ !! r = None) by (apply eq_None_not_Some; intros [n' Hn']; by apply (Na n'), Al). split.
    { split; [done |]. split; [cbn [claimed]; congruence |]. intros a n'. cbn [allocs]. rewrite lookup_insert_Some, Al, Al'. split.
      - intros [[<- <-] | [_ Ha]]; auto.
      - intros [Ha | [-> ->]]; [right | by left]. split; [| done]. intros <-. by apply (Na n'). }
    split; [done |]. do 2 (split; [done |]). right. exists b, c1. do 6 (split; [done |]). intros Hl Hh.
    destruct (align_pages_eq al Hal) as (k & Hk & Ek & Ea). destruct Ch as [Ft _]. unfold req_align in Ft. rewrite Ek in Ft.
    unfold is_u32 in *. apply (fits_placed (sup (cmm c1)) n lo hi al k b); [lia | lia | done | lia | done].
Qed.

Lemma refine_free X c σ a : contig_state c σ -> held X c -> legal X c σ (Free a) ->
  exists r c' σ', do_call (Free a) c = Some (Ret r, c') /\ contig_state c' σ' /\ keeps X c c' /\ call_spec X (Free a) c σ r c' σ'.
Proof.
  intros (O & Ec & Al) H Hl. exists (0, 0). cbn [do_call legal call_spec] in *. destruct (allocs σ !! a) as [n |] eqn:Ea.
  - destruct (contig_free_live (gpu σ) X c a n O) as (c' & E & O' & Kp & Eb & F & Al'); [by apply Al | done | by apply Hl |].
    exists c', (Abstract (delete a (allocs σ)) (claimed σ) (gpu σ)). erewrite bind_ret by exact E. split; [done |]. split; [| done].
    split; [done |]. split; [cbn [claimed]; congruence |]. intros a' n'. cbn [allocs]. rewrite lookup_delete_Some, Al, Al'. split; intros [? ?]; split; congruence || done.
  - assert (Na : forall n, ~ allocated c a n) by (intros n Hn; apply Al in Hn; congruence). exists c, (Abstract (delete a (allocs σ)) (claimed σ) (gpu σ)).
    erewrite bind_ret by (by apply (contig_free_dead (gpu σ))). split; [done |]. rewrite delete_id by done. split; [done |]. split; [by apply keeps_refl |].
    do 2 (split; [done |]). symmetry. apply union_empty_l_L.
Qed.

Lemma refine_claim X c σ n : contig_state c σ -> held X c -> legal X c σ (Claim n) ->
  exists r c' σ', do_call (Claim n) c = Some (Ret r, c') /\ contig_state c' σ' /\ keeps X c c' /\ call_spec X (Claim n) c σ r c' σ'.
Proof.
  intros (O & Ec & Al) H [Hn Hl]. exists claim_result. cbn [do_call call_spec]. destruct (decide (n = MAXULONG_PTR)) as [-> | Hm].
  { exists c, σ. rewrite claim_query_spec. split; [done |]. split; [done |]. split; [by apply keeps_refl |]. do 2 (split; [done |]). by left. }
  destruct (Hl Hm) as [HD HX]. unfold released in *. rewrite Ec in HD, HX |- *.
  destruct (Z.le_gt_cases (NxkNv2aInstanceBytes c) (claim_bytes n)) as [Hle | Hlt].
  - destruct (claim_grow_spec (gpu σ) X c n O H Hn Hm Hle) as (T & c' & E & O' & Kp & Et & Eb & Un).
    exists c', (Abstract (allocs σ) (claim_bytes n) (gpu σ ∪ T)). split; [done |].
    split; [split; [done |]; split; [done |]; intros a n'; unfold allocated; rewrite Et; apply Al |]. split; [done |]. do 2 (split; [done |]). right.
    do 2 (split; [done |]). left. by exists T.
  - destruct (claim_shrink_spec (gpu σ) X c n O H Hn ltac:(lia) HD HX Hm) as (c' & E & O' & Kp & Et & Eb & F).
    eexists c', (Abstract (allocs σ) (claim_bytes n) _). split; [done |].
    split; [split; [exact O' |]; split; [done |]; intros a n'; unfold allocated; rewrite Et; apply Al |]. split; [done |]. do 2 (split; [done |]). right.
    do 2 (split; [done |]). by right.
Qed.

Lemma refine_donate X c σ pa pages : contig_state c σ -> held X c -> legal X c σ (Donate pa pages) ->
  exists r c' σ', do_call (Donate pa pages) c = Some (Ret r, c') /\ contig_state c' σ' /\ keeps X c c' /\ call_spec X (Donate pa pages) c σ r c' σ'.
Proof.
  intros (O & Ec & Al) H (Hpa & Hp & HD & Hd). exists (0, 0). unfold donated in *. set (D := pages_of (pa / 4096) pages) in *.
  apply disjoint_union_r in Hd as [[Hd1 Hd2]%disjoint_union_r Hd3].
  destruct (return_frames_rest (Z.to_nat pages) (cmm c) (pa / 4096) (pool_mm c (co_pool _ _ O))) as [R F].
  { intros q Hq. apply (held_pinned _ c q HD). apply elem_of_pages_of; lia. }
  cbv zeta in R, F. rewrite Z2Nat.id in R, F by done. fold D in R, F. set (m' := with_sup (return_frames (Z.to_nat pages) (sup (cmm c)) (pa / 4096)) (cmm c)) in *.
  assert (KK : forall Y, held Y c -> D ## Y -> pool_ok (kpool (set_mm m' c)) /\ keeps Y c (set_mm m' c)).
  { intros Y HY Hd'. apply (keeps_mm Y D); [apply (co_pool _ _ O) | by apply held_union | done | by symmetry]. }
  exists (set_mm m' c), σ. split.
  { cbn [do_call]. unfold NxkMmDonateHeapPages, give_back. erewrite bind_ret; [done |]. unfold on_sup, on_mm.
    rewrite Z.shiftr_div_pow2 by done. change (2 ^ PAGE_SHIFT) with 4096. done. }
  destruct (KK _ (co_held _ _ O)) as [O' Kp]; [by apply disjoint_union_r |].
  split; [split; [| done] | split; [by apply KK | done]]. destruct O. constructor; try done. exact (ks_held _ _ _ Kp).
Qed.


(** ** Witnesses and evaluations *)

Lemma boot_state p : pool_ok p -> contig_state (contig_boot p) (Abstract ∅ 0 ∅).
Proof.
  intros O. assert (Lk : forall i e, NxContigTable (contig_boot p) !! i = Some e -> e = zero_entry) by (by intros i e [-> _]%lookup_replicate).
  assert (Tf : table_frames (NxContigTable (contig_boot p)) = ∅) by reflexivity.
  split; [constructor; rewrite ?Tf | split; [done |]].
  - exact O.
  - rewrite union_empty_l_L. apply held_empty.
  - intros i e ->%Lk. by left.
  - intros i j e f _ ->%Lk ->%Lk. apply disjoint_empty_l.
  - apply disjoint_empty_l.
  - done.
  - change (NxContigSlots (contig_boot p)) with 64. lia.
  - change (NxContigSlots (contig_boot p)) with 64. cbn [contig_boot NxContigHint]. lia.
  - done.
  - apply empty_subseteq.
  - intros a n. cbn [allocs]. rewrite lookup_empty. split; [done |]. intros (i & e & ->%Lk & Ha & <- & _). done.
Qed.

(** The first replies of a sequence of calls. *)
Fixpoint run_calls (ks : list call) : K (list (Z * Z)) :=
  match ks with
  | [] => mret []
  | k :: ks => r ← do_call k; rs ← run_calls ks; mret (r :: rs)
  end.

Definition replies (ks : list call) (c : contig) : option (list (Z * Z)) :=
  match run_calls ks c with Some (Ret rs, _) => Some rs | _ => None end.


(** Machines on which the frames [l] are free and nothing is mapped. *)
Definition free_machine (h : Z) (l : list Z) : mm := Mm (fold_left NxkPageSupplyReturn l (NxkPageSupplyInitialize true h)) ∅ ∅.

Definition free_pool (h : Z) (l : list Z) : pool window :=
  InitializePool NonPagedPool (boot_pool (NxPoolPagesInitialize (window_boot (free_machine h l))) ∅).

Lemma free_supply l : forall s, supply_wf s -> (forall p, p ∉ free_set s -> link s p = 0) -> NoDup l -> (forall p, p ∈ l -> in_range s p /\ p ∉ free_set s) ->
  let s' := fold_left NxkPageSupplyReturn l s in supply_wf s' /\ forall p, p ∉ free_set s' -> link s' p = 0.
Proof.
  induction l as [| q l IH]; intros s W L Nd Hl; [done |]. apply list.NoDup_cons in Nd as [Nq Nd]. destruct (Hl q) as [Hr Hf]; [by left |].
  destruct (return_wf s q W Hr Hf) as (W1 & F1 & U1). destruct (return_fields s q) as (H1 & _). cbn [fold_left]. apply IH; [done | | done |].
  - intros p Hp. assert (p ∉ free_set s) by (rewrite F1 in Hp; clear - Hp; set_solver). rewrite U1 by done. by apply L.
  - intros p Hp. destruct (Hl p) as [Hr' Hf']; [by right |]. split; [unfold in_range in *; by rewrite H1 |]. rewrite F1. apply not_elem_of_union.
    split; [| done]. intros ->%elem_of_singleton. done.
Qed.

Lemma free_machine_wf h l : 16 <= h <= 32767 -> NoDup l -> (forall p, p ∈ l -> 1 <= p <= h) ->
  mm_wf (free_machine h l) /\ forall k p, ~ owned (free_machine h l) k p.
Proof.
  intros Hh Nd Hl. destruct (init_wf true h Hh) as [W0 F0].
  assert (L0 : forall p, link (NxkPageSupplyInitialize true h) p = 0).
  { intros p. change (rd (zero_links h) p = 0). unfold rd. rewrite zero_links_lookup by lia. clear. by case_decide. }
  destruct (free_supply l (NxkPageSupplyInitialize true h) W0) as [W1 L1]; [done | done | |].
  { intros p Hp. split; [exact (Hl p Hp) | rewrite F0; apply not_elem_of_empty]. }
  assert (No : forall k p, ~ owned (free_machine h l) k p).
  { intros k p (_ & Hf & Hk & Hz). apply Hz. rewrite <- Hk. by apply L1. }
  split; [| exact No]. constructor; [exact W1 |]. intros k p Ho. by destruct (No k p).
Qed.

Lemma free_pool_ok h l : 16 <= h <= 32767 -> NoDup l -> (forall p, p ∈ l -> 1 <= p <= h) -> pool_ok (free_pool h l).
Proof.
  intros Hh Nd Hl. destruct (free_machine_wf h l Hh Nd Hl) as [W No]. apply initialize_pool_ok, initialize_ok; [constructor; [exact W | |] |].
  - intros k p _ Ho. by destruct (No k p).
  - intros k _ _. reflexivity.
  - intros k _. reflexivity.
Qed.

(** 64 MB with one free frame, of the graphics window. *)
Definition top_machine : contig := contig_boot (free_pool 0x3FFF [0x3FEF]).

Definition pin_top : call := Allocate 4096 0x3FEF000 0x3FEFFFF 0.

(** a claim counts the frames it could not reserve, and a later, smaller
    claim gives them back although a live allocation has them.  From a state
    the invariant admits, with an allocation pinned to a frame of the graphics
    window: after a claim of one page and its end the same request gets the
    same address a second time, while the first is still in the table. *)
Theorem claim_hands_out_live_frame :
  contig_state top_machine (Abstract ∅ 0 ∅) /\
  replies [pin_top; Claim 4096; Query 0x83FEF000; Claim 0; pin_top] top_machine =
    Some [(0x83FEF000, 0); claim_result; (4096, 0); claim_result; (0x83FEF000, 0)].
Proof.
  split; [| vm_compute; reflexivity]. apply boot_state, free_pool_ok; [lia | apply NoDup_singleton |]. intros p ->%list_elem_of_singleton. lia.
Qed.

(** An upper bound below the end of the first page, and a lower bound above
    the start of the last, are lost in the conversion to frames: the requests
    get memory outside of the window. *)
Lemma bounds_lost : high_pfn (clamp_high 0 0xFFE) = 0xFFFFFFFF /\ low_pfn 0xFFFFF001 = 0 /\
  replies [Allocate 4096 0 0xFFE 0] top_machine = Some [(0x83FEF000, 0)] /\
  replies [Allocate 4096 0xFFFFF001 0xFFFFFFFF 0] top_machine = Some [(0x83FEF000, 0)].
Proof. vm_compute. auto. Qed.
