(* ===== verification/ContigRace.v ===== *)
(** * Contiguous memory under several threads

    The calls of [Contig.v] taken apart at the locks of
    [ntoskrnl/xb/mm/contig.c].  A section under [NxContigLock], a call of the
    pool and a section under the page-frame lock are one step each; between
    them other threads run.  The first theorem ties the sections to the
    calls; the second follows every interleaving of any number of
    allocations and frees, with other components at work in between; the
    last shows what the sections do not give: the slot that an allocation
    reserved is not its own any more when it comes back from the sweep. *)

From stdpp Require Import prelude gmap list numbers sets relations.
From Stdlib Require Import ZArith Lia.
From S2P Require Import Prelude PageSupply Paging Vm PoolPages Pool PoolShare Contig.

Local Open Scope Z_scope.

(** ** Threads *)

Record contig_request : Type := Request { rq_bytes : Z; rq_low : Z; rq_high : Z; rq_align : Z }.

(** Where a thread is.  [Idle r]: its call has returned [r]. *)
Inductive point : Type :=
  | Idle (r : Z)
  | Entering (q : contig_request)
  | Scanning (q : contig_request)
  | Growing (q : contig_request) (OldSlots : Z)
  | Swapping (q : contig_request) (OldSlots New : Z)
  | Dropping (q : contig_request) (unused : Z)
  | Sweeping (q : contig_request) (Slot : Z)
  | Retrying (q : contig_request) (Slot : Z)
  | Clearing (BaseAddress : Z)
  | Releasing (Pa' PaEnd' : Z).

Definition run_pages (q : contig_request) : Z := Z.shiftr (alloc_bytes (rq_bytes q)) PAGE_SHIFT.
Definition low_of (q : contig_request) : Z := low_pfn (rq_low q).
Definition high_of (q : contig_request) : Z := high_pfn (clamp_high (rq_low q) (rq_high q)).
Definition align_of_request (q : contig_request) : Z := align_pages (rq_align q).

(** Under [NxContigLock]: a free slot and, while the lock is held, the run. *)
Definition scan_section (q : contig_request) : K point :=
  c ← get;
  let '(Slot, c) := NxpContigFindFreeSlotLocked c in
  put (fun _ => c);;
  if negb (Slot =? NxContigSlots c) then
    Base ← take_frames (run_pages q) (low_of q) (high_of q) (align_of_request q);
    if negb (Base =? 0) then r ← record_run Slot Base (rq_bytes q); mret (Idle r)
    else mret (Sweeping q Slot)
  else mret (Growing q (NxContigSlots c)).

Definition grow_section (q : contig_request) (OldSlots : Z) : K point :=
  New ← on_pool (ExAllocatePoolWithTag NonPagedPool (mul32 (mul32 OldSlots 2) 16) NXK_CONTIG_TAG);
  mret (if New =? 0 then Idle 0 else Swapping q OldSlots New).

Definition swap_section (q : contig_request) (OldSlots New : Z) : K point :=
  c ← get;
  let '(unused, c) := grow_swap c OldSlots (mul32 OldSlots 2) New in
  put (fun _ => c);;
  mret (Dropping q unused).

Definition retry_section (q : contig_request) (Slot : Z) : K point :=
  r ← retry_in_slot Slot (rq_bytes q) (run_pages q) (low_of q) (high_of q) (align_of_request q);
  mret (Idle r).

Definition clear_section (BaseAddress : Z) : K point :=
  c ← get;
  match find_alias (NxContigTable c) BaseAddress 0 with
  | None => mret (Idle 0)
  | Some i =>
      let e := nth i (NxContigTable c) zero_entry in
      put (set_table (<[i := zero_entry]> (NxContigTable c)));;
      mret (if Pa e <? PaEnd e then Releasing (Pa e) (PaEnd e) else Idle 0)
  end.

Definition thread_step (p : point) : K point :=
  match p with
  | Idle r => mret (Idle r)
  | Entering q => mret (if alloc_bytes (rq_bytes q) =? 0 then Idle 0 else Scanning q)
  | Scanning q => scan_section q
  | Growing q OldSlots => grow_section q OldSlots
  | Swapping q OldSlots New => swap_section q OldSlots New
  | Dropping q unused => free_block_opt unused;; mret (Scanning q)
  | Sweeping q Slot => swept ← sweep_pool; mret (if swept =? 0 then Idle 0 else Retrying q Slot)
  | Retrying q Slot => retry_section q Slot
  | Clearing BaseAddress => clear_section BaseAddress
  | Releasing Pa' PaEnd' => give_back (npages Pa' PaEnd') (Z.shiftr Pa' PAGE_SHIFT);; mret (Idle 0)
  end.

Definition idle (p : point) : bool := match p with Idle _ => true | _ => false end.

(** One thread alone. *)
Fixpoint run_alone (fuel : nat) (p : point) : K point :=
  match fuel with
  | O => mret p
  | S fuel' => if idle p then mret p else p' ← thread_step p; run_alone fuel' p'
  end.

(** ** The sections make up the calls *)

(** [m'] does what [m] does, and ends at [f] of its result, wherever [m] has
    enough fuel. *)
Definition carries {A} (m : K A) (f : A -> point) (m' : K point) : Prop :=
  forall c, match m c with
    | None => True
    | Some (Ret a, c') => m' c = Some (Ret (f a), c')
    | Some (KeBugCheckEx Code P1 P2 P3 P4, c') => m' c = Some (KeBugCheckEx Code P1 P2 P3 P4, c')
    | Some (ExRaiseStatus Status, c') => m' c = Some (ExRaiseStatus Status, c')
    end.

Lemma carries_bind {A B} (m : K A) (k : A -> K B) f (k' : A -> K point) :
  (forall a, carries (k a) f (k' a)) -> carries (m ≫= k) f (m ≫= k').
Proof. intros H c. unfold mbind, K_bind. destruct (m c) as [[[a | |] c1] |]; [apply H | done | done | done]. Qed.

Lemma carries_ret {A} (a : A) f : carries (mret a) f (mret (f a)).
Proof. intros c. done. Qed.

Lemma carries_ext {A} (m : K A) f (m1 m2 : K point) : (forall c, m1 c = m2 c) -> carries m f m1 -> carries m f m2.
Proof. intros E H c. specialize (H c). rewrite <- E. exact H. Qed.

Lemma bind_assoc {A B C} (m : K A) (k : A -> K B) (l : B -> K C) c : ((m ≫= k) ≫= l) c = (m ≫= fun a => k a ≫= l) c.
Proof. unfold mbind, K_bind. destruct (m c) as [[[a | |] c1] |]; done. Qed.

Lemma idle_alone n r : run_alone n (Idle r) = mret (Idle r).
Proof. by destruct n. Qed.

Section sections.
Context (q : contig_request).

Let in_slot (s : Z) : K Z := alloc_in_slot s (rq_bytes q) (run_pages q) (low_of q) (high_of q) (align_of_request q).

Lemma alone_step n p c : run_alone (S n) p c = (if idle p then mret p else p' ← thread_step p; run_alone n p') c.
Proof. done. Qed.

(** From the attempt in the slot on. *)
Lemma slot_carries s n : (2 <= n)%nat ->
  carries (in_slot s) Idle
    ((Base ← take_frames (run_pages q) (low_of q) (high_of q) (align_of_request q);
      if negb (Base =? 0) then r ← record_run s Base (rq_bytes q); mret (Idle r) else mret (Sweeping q s)) ≫= run_alone n).
Proof.
  intros Hn. destruct n as [| [| n]]; [lia | lia |]. intros c. unfold in_slot, alloc_in_slot, mbind, K_bind, mret, K_ret.
  destruct (take_frames _ _ _ _ c) as [[[b | |] c1] |]; [| done..]. destruct (negb (b =? 0)).
  - destruct (record_run s b (rq_bytes q) c1) as [[[r | |] c2] |]; done.
  - rewrite alone_step. cbn [idle thread_step]. unfold mbind, K_bind, mret, K_ret. destruct (sweep_pool c1) as [[[w | |] c2] |]; [| done..].
    destruct (w =? 0); [done |]. rewrite alone_step. cbn [idle thread_step]. unfold retry_section, mbind, K_bind, mret, K_ret.
    destruct (retry_in_slot _ _ _ _ _ _ c2) as [[[r | |] c3] |]; [by rewrite idle_alone | done..].
Qed.

(** From the reservation on, with its growth. *)
Lemma take_carries fuel : forall n, (4 * fuel + 3 <= n)%nat ->
  carries (taken ← take_slot fuel; match taken with None => mret 0 | Some s => in_slot s end) Idle (run_alone n (Scanning q)).
Proof.
  induction fuel as [| fuel IH]; intros n Hn c; [done |]. destruct n as [| [| [| [| n]]]]; try lia.
  rewrite alone_step. cbn [take_slot idle thread_step]. unfold scan_section. unfold mbind, K_bind, get, put at 1.
  destruct (NxpContigFindFreeSlotLocked c) as [s c1]. destruct (negb (s =? NxContigSlots c1)).
  { pose proof (slot_carries s (S (S (S n))) ltac:(lia) c1) as H. unfold mbind, K_bind in H. exact H. }
  unfold put, mret, K_ret. rewrite alone_step. cbn [idle thread_step]. unfold NxpContigGrow, grow_section, mbind, K_bind, mret, K_ret.
  destruct (on_pool _ c1) as [[[New | |] c2] |]; [| done..]. destruct (New =? 0); [done |].
  rewrite alone_step. cbn [idle thread_step]. unfold swap_section, get, put, mbind, K_bind, mret, K_ret.
  destruct (grow_swap c2 (NxContigSlots c1) (mul32 (NxContigSlots c1) 2) New) as [unused c3].
  rewrite alone_step. cbn [idle thread_step]. unfold mbind, K_bind, mret, K_ret. destruct (free_block_opt unused c3) as [[[[] | |] c4] |]; [| done..].
  pose proof (IH n ltac:(lia) c4) as H. unfold mbind, K_bind in H. exact H.
Qed.

End sections.

(** the sections make up the calls.  A thread that runs alone through the
    locked sections of an allocation or of a free does exactly what the call
    does as one step: the same result, the same state, the same stop of the
    machine. *)
Theorem sections_are_calls n lo hi al a :
  carries (NxMmAllocateContiguousMemoryEx n lo hi al) Idle (run_alone 12 (Entering (Request n lo hi al))) /\
  carries (NxMmFreeContiguousMemory a) (fun _ => Idle 0) (run_alone 2 (Clearing a)).
Proof.
  split; intros c.
  - rewrite alone_step. cbn [idle thread_step rq_bytes]. unfold NxMmAllocateContiguousMemoryEx. unfold mbind at 2, K_bind at 2, mret at 2, K_ret at 2.
    destruct (alloc_bytes n =? 0); [done |]. exact (take_carries (Request n lo hi al) 2 11 ltac:(lia) c).
  - rewrite alone_step. cbn [idle thread_step]. unfold NxMmFreeContiguousMemory, NxpHeapFree, clear_section, mbind, K_bind, get, put, mret, K_ret.
    destruct (find_alias (NxContigTable c) a 0) as [i |]; [| done]. set (e := nth i (NxContigTable c) zero_entry).
    destruct (Pa e <? PaEnd e); [| done]. rewrite alone_step. cbn [idle thread_step]. unfold mbind, K_bind, mret, K_ret.
    destruct (give_back _ _ _) as [[[[] | |] c1] |]; done.
Qed.

(** ** What a thread holds *)

(** The array on its way into or out of the pool. *)
Definition pblock (p : point) : option Z :=
  match p with
  | Swapping _ _ New => Some New
  | Dropping _ unused => if unused =? 0 then None else Some unused
  | _ => None
  end.

(** The frames taken out of the table and not yet returned. *)
Definition pframes (p : point) : gset Z :=
  match p with Releasing Pa' PaEnd' => pages_of (Pa' / 4096) ((PaEnd' - Pa') / 4096) | _ => ∅ end.

Definition good_request (q : contig_request) : Prop :=
  is_u32 (rq_bytes q) /\ is_u32 (rq_low q) /\ is_u32 (rq_high q) /\ good_alignment (rq_align q).

Definition real_request (q : contig_request) : Prop := good_request q /\ 0 < rq_bytes q <= 0xFFFFF000.

Definition point_ok (c : contig) (p : point) : Prop :=
  match p with
  | Idle _ | Clearing _ => True
  | Entering q => good_request q
  | Scanning q => real_request q
  | Growing q OldSlots => real_request q /\ 0 < OldSlots <= NxContigSlots c
  | Swapping q OldSlots New => real_request q /\ 0 < OldSlots <= NxContigSlots c /\ live (kpool c) New (block_for (32 * OldSlots) NXK_CONTIG_TAG)
  | Dropping q unused => real_request q /\ (unused <> 0 -> exists n, live (kpool c) unused (block_for n NXK_CONTIG_TAG))
  | Sweeping q Slot | Retrying q Slot => real_request q /\ 0 <= Slot < NxContigSlots c
  | Releasing Pa' PaEnd' => exists b n, 0 < n /\ Pa' = 4096 * b /\ PaEnd' = 4096 * (b + n)
  end.

(** The blocks that are the allocator's: the table's, this thread's and, in
    [N], the other threads'. *)
Definition mine (N : Z -> Prop) (c : contig) (p : point) (b : Z) : Prop := b = TableBlock c \/ pblock p = Some b \/ N b.

(** A thread at [p], among threads that hold the blocks [N]. *)
Record at_point (G : gset Z) (N : Z -> Prop) (c : contig) (p : point) : Prop := {
  ap_contig : contig_ok G c;
  ap_point : point_ok c p;
  ap_held : held (pframes p) c;
  ap_frames : pframes p ## table_frames (NxContigTable c) ∪ G;
  ap_block : forall b, pblock p = Some b -> b <> TableBlock c /\ ~ N b;
  ap_others : forall b, N b -> b <> TableBlock c /\ exists d, live (kpool c) b d
}.

(** What a step of the thread leaves to the others: the frames [Y] and the
    blocks [N]. *)
Record leaves (N : Z -> Prop) (Y : gset Z) (c : contig) (p : point) (c' : contig) (p' : point) : Prop := {
  lv_keeps : keeps_but (mine N c p) (mine N c' p') Y c c';
  lv_apart : Y ## table_frames (NxContigTable c') ∪ pframes p';
  lv_slots : NxContigSlots c <= NxContigSlots c';
  lv_blocks : forall b d, N b -> live (kpool c) b d -> live (kpool c') b d
}.

Lemma elem_allocated G c q : contig_ok G c -> q ∈ table_frames (NxContigTable c) <-> exists a n, allocated c a n /\ q ∈ run_of a n.
Proof.
  intros O. rewrite elem_table_frames. split.
  - intros (i & e & Hi & Hq). destruct (co_entry _ _ O i e Hi) as [-> | Oe]; [by apply not_elem_of_empty in Hq |].
    exists (Alias e), (CSize e). rewrite run_of_entry by done. split; [| done]. exists i, e. split; [done |]. split; [| done].
    destruct Oe as (b & Hb & _ & _ & _ & _ & ->). unfold NXK_KSEG0_BASE. lia.
  - intros (a & n & (i & e & Hi & Ha & <- & <-) & Hq). exists i, e. split; [done |].
    destruct (co_entry _ _ O i e Hi) as [-> | Oe]; [done |]. by rewrite run_of_entry in Hq.
Qed.

Lemma granted_apart G Y c n lo hi al c1 r c' : contig_ok G c -> contig_ok G c' -> granted n lo hi al c c1 r c' -> held Y c1 ->
  Y ## table_frames (NxContigTable c) -> 0 <= n -> Y ## table_frames (NxContigTable c').
Proof.
  intros O O' (b & -> & Ch & _ & Al) HY Hd Hn q Hq Hq'. apply (elem_allocated G c' q O') in Hq' as (a & n' & Ha & Hr). apply Al in Ha as [Ha | [-> ->]].
  - apply (Hd q Hq). apply (elem_allocated G c q O). eauto.
  - unfold run_of in Hr. replace (NXK_KSEG0_BASE + 4096 * b - NXK_KSEG0_BASE) with (b * 4096) in Hr by lia. rewrite Z.div_mul in Hr by lia.
    apply elem_of_pages_of in Hr; [| unfold page_count; apply Z.div_pos; lia]. apply (chosen_unpinned (cmm c1) _ _ _ _ b q Ch Hr). by apply (held_pinned Y c1).
Qed.

(** A step that leaves the thread without a block or frames of its own, with
    the table's block the only one that may change. *)
Lemma plain_leaves N Y c p c' p' : keeps Y c c' -> pblock p = pblock p' -> pframes p' = ∅ -> Y ## table_frames (NxContigTable c') ->
  NxContigSlots c <= NxContigSlots c' -> (forall b, N b -> b <> TableBlock c) -> leaves N Y c p c' p'.
Proof.
  intros Kp Eb Ef Ht Hs HN. constructor; [| by rewrite Ef, union_empty_r_L | done |].
  - apply (keeps_aside _ _ (fun b => pblock p = Some b \/ N b)); [done | done |]. intros b. unfold mine. by rewrite Eb.
  - intros b d Hb Hl. apply (ks_live _ _ _ Kp b d). split; [done | by apply HN].
Qed.

Lemma real_pages q : real_request q -> run_pages q = page_count (rq_bytes q).
Proof.
  intros [(Hn & _) Hr]. unfold run_pages. rewrite alloc_bytes_eq, (proj2 (Z.leb_le _ _)), Z.shiftr_div_pow2 by (done || lia).
  change (2 ^ PAGE_SHIFT) with 4096. rewrite Z.mul_comm. by apply Z.div_mul.
Qed.

(** ** Each step *)

Definition advances (G : gset Z) (N : Z -> Prop) (Y : gset Z) (c : contig) (p : point) : Prop :=
  exists p' c', thread_step p c = Some (Ret p', c') /\ at_point G N c' p' /\ leaves N Y c p c' p'.

Lemma plain_at G N Y c p c' p' : at_point G N c p -> keeps Y c c' -> contig_ok G c' -> point_ok c' p' -> pblock p' = None -> pframes p' = ∅ -> at_point G N c' p'.
Proof.
  intros A Kp O' Hp Eb Ef. constructor; rewrite ?Ef; [done | done | apply held_empty | apply disjoint_empty_l | intros b; by rewrite Eb |].
  intros b Hb. destruct (ap_others _ _ _ _ A b Hb) as [Ht [d Hl]]. destruct (proj2 (ks_live _ _ _ Kp b d) (conj Hl Ht)) as [Hl' Ht']. eauto.
Qed.

(** Both together, for a thread that holds nothing before or after. *)
Lemma plain_advances G N Y c p c' p' : at_point G N c p -> thread_step p c = Some (Ret p', c') -> pblock p = None -> pblock p' = None -> pframes p' = ∅ ->
  keeps Y c c' -> contig_ok G c' -> point_ok c' p' -> Y ## table_frames (NxContigTable c') -> NxContigSlots c <= NxContigSlots c' -> advances G N Y c p.
Proof.
  intros A E Eb Eb' Ef Kp O' Hp Ht Hs. exists p', c'. split; [done |]. split; [by apply (plain_at G N Y c p) |].
  apply plain_leaves; [done | congruence | done | done | done |]. intros b Hb. by apply (ap_others _ _ _ _ A).
Qed.

(** A slot whose entry is given up, frames and all. *)
Definition forget (i : nat) (c : contig) : contig := set_table (<[i := zero_entry]> (NxContigTable c)) c.

Lemma forget_frames i c : table_frames (NxContigTable (forget i c)) ⊆ table_frames (NxContigTable c).
Proof.
  intros q. rewrite !elem_table_frames. intros (j & f & [[-> ->] | [_ Hj]]%table_lookup_insert & Hq); [by apply not_elem_of_empty in Hq | eauto].
Qed.

Lemma forget_slots i c : NxContigSlots (forget i c) = NxContigSlots c.
Proof. unfold NxContigSlots, forget. cbn [set_table NxContigTable]. by rewrite length_insert. Qed.

Lemma forget_ok G i c : contig_ok G c -> contig_ok G (forget i c).
Proof.
  intros O. pose proof (forget_frames i c) as S. constructor; rewrite ?forget_slots; try apply O.
  - change (held (table_frames (NxContigTable (forget i c)) ∪ G) c). apply (held_sub (table_frames (NxContigTable c) ∪ G)); [clear - S; set_solver | apply O].
  - intros j f [[-> ->] | [_ Hj]]%table_lookup_insert; [by left | by apply (co_entry _ _ O j)].
  - intros j1 j2 f1 f2 Hn [[-> ->] | [_ H1]]%table_lookup_insert [[-> ->] | [_ H2]]%table_lookup_insert;
      [done | apply disjoint_empty_l | apply disjoint_empty_r | by apply (co_apart _ _ O j1 j2)].
  - intros q Hq. apply (co_claim _ _ O q). by apply S.
Qed.

Lemma forget_record s b n c : 0 <= s -> record_run s b n (forget (Z.to_nat s) c) = record_run s b n c.
Proof.
  intros Hs. unfold record_run, mbind, K_bind, put, mret, K_ret, NxpRecordHeapContigLocked, forget, set_table. cbn [NxContigTable kpool TableBlock NxContigHint NxkNv2aInstanceBytes].
  by rewrite list_insert_insert_eq.
Qed.

Lemma forget_free i c s : i = Z.to_nat s -> 0 <= s < NxContigSlots c -> Alias (slot_at (forget i c) s) = 0.
Proof.
  intros -> Hs. unfold slot_at, forget, NxContigSlots in *. cbn [set_table NxContigTable]. rewrite nth_lookup, list_lookup_insert_eq by lia. done.
Qed.

Section steps.
Context (G : gset Z) (N : Z -> Prop) (Y : gset Z) (c : contig).

Lemma step_entering q : at_point G N c (Entering q) -> held Y c -> Y ## table_frames (NxContigTable c) -> advances G N Y c (Entering q).
Proof.
  intros A HY Hd. pose proof (ap_point _ _ _ _ A) as Hq. cbn [point_ok] in Hq.
  assert (E : thread_step (Entering q) c = Some (Ret (if alloc_bytes (rq_bytes q) =? 0 then Idle 0 else Scanning q), c)) by done.
  apply (plain_advances G N Y c _ c _ A E); try (by destruct (_ =? 0)); [by apply keeps_refl | apply A | ].
  destruct (Z.eqb_spec (alloc_bytes (rq_bytes q)) 0) as [| Hz]; [done |]. split; [done |].
  destruct Hq as (Hn & _). rewrite alloc_bytes_eq in Hz by done. unfold is_u32 in Hn. destruct (Z.leb_spec (rq_bytes q) 0xFFFFF000); [| done].
  split; [| done]. destruct (decide (rq_bytes q = 0)) as [E0 |]; [by rewrite E0 in Hz | lia].
Qed.

Lemma step_scanning q : at_point G N c (Scanning q) -> held Y c -> Y ## table_frames (NxContigTable c) -> advances G N Y c (Scanning q).
Proof.
  intros A HY Hd. pose proof (ap_point _ _ _ _ A) as Hq. cbn [point_ok] in Hq. pose proof (ap_contig _ _ _ _ A) as O.
  pose proof Hq as [(Hn & Hlo & Hhi & Hal) Hr].
  destruct (find_slot_spec G Y c O HY) as (s & c1 & Ef & O1 & K1 & Ep & Et & Eb & Hs).
  assert (Sl : NxContigSlots c1 = NxContigSlots c) by (unfold NxContigSlots; by rewrite Et).
  destruct Hs as [[Hs Ha] | (-> & Fu & ->)].
  - destruct (attempt_spec G Y c1 s (rq_bytes q) (rq_low q) (rq_high q) (rq_align q) O1 (ks_held _ _ _ K1)) as (b & c2 & E2 & O2 & K2 & T2 & _ & Hb);
      [by rewrite Sl | unfold slot_at; by rewrite Et | done.. |].
    assert (E1 : thread_step (Scanning q) c = (Base ← take_frames (run_pages q) (low_of q) (high_of q) (align_of_request q);
      if negb (Base =? 0) then r ← record_run s Base (rq_bytes q); mret (Idle r) else mret (Sweeping q s)) c1).
    { cbn [thread_step]. unfold scan_section. erewrite bind_ret by done. rewrite Ef. cbv beta iota zeta. erewrite bind_ret by (unfold put; done).
      rewrite Sl, (proj2 (Z.eqb_neq _ _)) by lia. done. }
    rewrite (real_pages q Hq) in E1. erewrite bind_ret in E1 by exact E2. pose proof (keeps_trans _ _ _ _ K1 K2) as K12.
    destruct Hb as [(-> & _) | (Hb & r & c' & Er & O' & K' & Sl' & Gr)].
    + rewrite Z.eqb_refl in E1. apply (plain_advances G N Y c _ c2 (Sweeping q s) A); try done.
      * split; [done |]. unfold NxContigSlots in *. rewrite T2. lia.
      * by rewrite T2, Et.
      * unfold NxContigSlots in *. rewrite T2. lia.
    + rewrite (proj2 (Z.eqb_neq b 0) Hb) in E1. cbn [negb] in E1. erewrite bind_ret in E1 by exact Er.
      apply (plain_advances G N Y c _ c' (Idle r) A); try done; [by apply (keeps_trans Y c c1) | | lia].
      apply (granted_apart G Y c1 (rq_bytes q) (rq_low q) (rq_high q) (rq_align q) c1 r c'); try done; [apply K1 | by rewrite Et | lia].
  - apply (plain_advances G N Y c _ c (Growing q (NxContigSlots c)) A); try done.
    + cbn [thread_step]. unfold scan_section, mbind, K_bind, get, put. rewrite Ef, Z.eqb_refl. done.
    + split; [done |]. pose proof (co_slots _ _ O). lia.
Qed.

(** The pool lends the new array. *)
Lemma step_growing q Old : at_point G N c (Growing q Old) -> held Y c -> Y ## table_frames (NxContigTable c) -> advances G N Y c (Growing q Old).
Proof.
  intros A HY Hd. destruct (ap_point _ _ _ _ A) as [Hq Ho]. pose proof (ap_contig _ _ _ _ A) as O. pose proof (co_slots _ _ O) as Hs.
  set (F := table_frames (NxContigTable c) ∪ G). assert (HF : held (Y ∪ F) c) by (apply held_union; [done | apply (co_held _ _ O)]).
  assert (E1 : mul32 (mul32 Old 2) 16 = 32 * Old) by (unfold mul32; rewrite (u32_id (Old * 2)), u32_id; lia).
  destruct (shared_alloc (cmm c) (Y ∪ F) (32 * Old) NXK_CONTIG_TAG (kpool c) (co_pool _ _ O) HF ltac:(lia)) as (New & p1 & Ea & O1 & H1 & K1 & Al).
  assert (E : thread_step (Growing q Old) c = Some (Ret (if New =? 0 then Idle 0 else Swapping q Old New), set_pool p1 c)).
  { cbn [thread_step]. unfold grow_section. rewrite E1. erewrite bind_ret by (unfold on_pool; by rewrite Ea). done. }
  assert (Ht : forall L : forall b d, live (kpool c) b d -> live p1 b d, contig_ok G (set_pool p1 c)).
  { intros L. destruct O. constructor; try done; [| auto]. apply (held_sub (Y ∪ F)); [apply union_subseteq_r |]. by apply (held_of _ (cmm c)). }
  destruct Al as [(-> & L & _) | (Hn & Nl & L)].
  - apply (plain_advances G N Y c _ (set_pool p1 c) (Idle 0) A); try done; [| apply Ht; intros b d; by apply L].
    apply (keeps_sub (Y ∪ F)); [apply union_subseteq_l |]. apply keeps_pool; [done | intros b d; by rewrite (L b d) | intros b d a Hl _; by apply K1].
  - rewrite (proj2 (Z.eqb_neq New 0) Hn) in E. exists (Swapping q Old New), (set_pool p1 c). split; [done |].
    assert (Lm : forall b d, live (kpool c) b d -> live p1 b d) by (intros b d Hl; apply L; by left). split.
    + constructor; [by apply Ht | | apply held_empty | apply disjoint_empty_l | |].
      * split; [done |]. split; [done |]. apply L. by right.
      * intros b [= <-]. split; [| by intros [_ [d Hl]]%(ap_others _ _ _ _ A); apply (Nl d)]. intros ->.
        destruct (decide (TableBlock c = 0)) as [Ez | Ez]; [done |]. by apply (Nl _ (co_block _ _ O Ez)).
      * intros b Hb. destruct (ap_others _ _ _ _ A b Hb) as [Hb' [d Hl]]. split; [done |]. exists d. by apply Lm.
    + constructor; [| | done | auto].
      * apply (keeps_sub (Y ∪ F)); [apply union_subseteq_l |]. apply keeps_pool; [done | | intros b d a Hl _; by apply K1].
        intros b d. unfold mine. cbn [pblock kpool set_pool TableBlock]. rewrite (L b d). split.
        -- intros [[Hl | [-> _]] Hm]; [| by destruct Hm; auto]. split; [done |]. intros [? | [? | ?]]; [tauto | done | tauto].
        -- intros [Hl Hm]. split; [by left |]. intros [? | [[= <-] | ?]]; [tauto | by apply (Nl d) | tauto].
      * cbn [pframes]. by rewrite union_empty_r_L.
Qed.

Lemma step_swapping q Old New : at_point G N c (Swapping q Old New) -> held Y c -> Y ## table_frames (NxContigTable c) -> advances G N Y c (Swapping q Old New).
Proof.
  intros A HY Hd. destruct (ap_point _ _ _ _ A) as (Hq & Ho & Hl). pose proof (ap_contig _ _ _ _ A) as O. pose proof (co_slots _ _ O) as Hs.
  destruct (ap_block _ _ _ _ A New eq_refl) as [Nt Nn]. pose proof (live_nonzero _ _ _ (co_pool _ _ O) Hl) as Nz.
  assert (E1 : mul32 Old 2 = 2 * Old) by (unfold mul32; rewrite u32_id; lia).
  cut (exists unused c', grow_swap c Old (2 * Old) New = (unused, c') /\ at_point G N c' (Dropping q unused) /\ leaves N Y c (Swapping q Old New) c' (Dropping q unused)).
  { intros (unused & c' & Eg & H). exists (Dropping q unused), c'. split; [| done]. cbn [thread_step]. unfold swap_section.
    erewrite bind_ret by done. by rewrite E1, Eg. }
  destruct (decide (NxContigSlots c = Old)) as [<- | Hne].
  - pose proof (grow_swap_eq c (kpool c) New) as Eg. replace (set_pool (kpool c) c) with c in Eg by (by destruct c). set (c1 := Contig (kpool c) _ New _ _) in Eg.
    exists (TableBlock c), c1. split; [done |].
    assert (Tf : table_frames (NxContigTable c1) = table_frames (NxContigTable c)) by apply table_frames_grow.
    assert (O1 : contig_ok G c1).
    { apply (grow_ok G c (kpool c) New O (co_pool _ _ O)); [| done]. pose proof (co_held _ _ O) as Hh. by destruct c. }
    split.
    + constructor; [done | | apply held_empty | apply disjoint_empty_l | |].
      * split; [done |]. intros Hz. eexists. apply (co_block _ _ O Hz).
      * cbn [pblock]. intros b. destruct (Z.eqb_spec (TableBlock c) 0); [done |]. intros [= <-]. split; [done |]. by intros [? _]%(ap_others _ _ _ _ A).
      * intros b Hb. split; [intros ->; by apply Nn | by apply (ap_others _ _ _ _ A)].
    + constructor.
      * apply keeps_pool; [by apply HY | | done]. intros b d. unfold mine. cbn [pblock c1 kpool TableBlock].
        destruct (Z.eqb_spec (TableBlock c) 0) as [Ez | Ez].
        -- split; intros [Hb Hm]; (split; [done |]); intros [? | [[= ?] | ?]]; subst; try tauto. by apply (live_nonzero _ _ _ (co_pool _ _ O) Hb).
        -- split; intros [Hb Hm]; (split; [done |]); intros [? | [[= ?] | ?]]; subst; tauto.
      * cbn [pframes]. by rewrite Tf, union_empty_r_L.
      * unfold NxContigSlots, c1. cbn [NxContigTable]. rewrite length_app. lia.
      * done.
  - exists New, c. split; [unfold grow_swap; by rewrite (proj2 (Z.eqb_neq _ _) Hne) |].
    assert (Pb : pblock (Dropping q New) = Some New) by (cbn [pblock]; by rewrite (proj2 (Z.eqb_neq _ _) Nz)). split.
    + constructor; [done | | apply held_empty | apply disjoint_empty_l | rewrite Pb; apply A | apply A]. split; [done |]. intros _. by eexists.
    + constructor; [| cbn [pframes]; by rewrite union_empty_r_L | done | done]. apply keeps_pool; [by apply HY | | done]. intros b d. unfold mine. by rewrite Pb.
Qed.

Lemma step_dropping q u : at_point G N c (Dropping q u) -> held Y c -> Y ## table_frames (NxContigTable c) -> advances G N Y c (Dropping q u).
Proof.
  intros A HY Hd. destruct (ap_point _ _ _ _ A) as (Hq & Hl). pose proof (ap_contig _ _ _ _ A) as O.
  set (F := table_frames (NxContigTable c) ∪ G). assert (HF : held (Y ∪ F) c) by (apply held_union; [done | apply (co_held _ _ O)]).
  destruct (decide (u = 0)) as [-> | Hu].
  { apply (plain_advances G N Y c _ c (Scanning q) A); try done. by apply keeps_refl. }
  destruct (Hl Hu) as [n Hn]. destruct (free_table_block (Y ∪ F) (cmm c) c u n (co_pool _ _ O) HF (fun _ => Hn)) as (p1 & E & O1 & H1 & K1 & L1 & _). specialize (L1 Hu).
  assert (Pb : pblock (Dropping q u) = Some u) by (cbn [pblock]; by rewrite (proj2 (Z.eqb_neq _ _) Hu)). destruct (ap_block _ _ _ _ A u Pb) as [Ut Un].
  exists (Scanning q), (set_pool p1 c). split; [cbn [thread_step]; by erewrite bind_ret by exact E |]. split.
  - constructor; [| done | apply held_empty | apply disjoint_empty_l | done |].
    + destruct O. constructor; try done; [apply (held_sub (Y ∪ F)); [apply union_subseteq_r | by apply (held_of _ (cmm c))] |]. intros Hb. apply L1. auto.
    + intros b Hb. destruct (ap_others _ _ _ _ A b Hb) as [Hb' [d Hd']]. split; [done |]. exists d. apply L1. split; [done |]. by intros ->.
  - constructor; [| cbn [pframes]; by rewrite union_empty_r_L | done |].
    + apply (keeps_sub (Y ∪ F)); [apply union_subseteq_l |]. apply keeps_pool; [done | |].
      * intros b d. unfold mine. rewrite Pb. cbn [pblock kpool set_pool TableBlock]. rewrite (L1 b d). split.
        -- intros [[Hb Hbu] Hm]. split; [done |]. intros [? | [[= ?] | ?]]; subst; tauto.
        -- intros [Hb Hm]. split; [split; [done |]; intros ->; apply Hm; auto |]. intros [? | [? | ?]]; [tauto | done | tauto].
      * intros b d a Hb Hm. apply (K1 b d a Hb). intros ->. apply Hm. right; left. done.
    + intros b d Hb Hl'. apply L1. split; [done |]. by intros ->.
Qed.

Lemma step_sweeping q s : at_point G N c (Sweeping q s) -> held Y c -> Y ## table_frames (NxContigTable c) -> advances G N Y c (Sweeping q s).
Proof.
  intros A HY Hd. destruct (ap_point _ _ _ _ A) as (Hq & Hs). pose proof (ap_contig _ _ _ _ A) as O.
  destruct (sweep_spec G Y c O HY) as (w & c1 & E & O1 & K1 & T1 & _). assert (Sl : NxContigSlots c1 = NxContigSlots c) by (unfold NxContigSlots; by rewrite T1).
  apply (plain_advances G N Y c _ c1 (if w =? 0 then Idle 0 else Retrying q s) A); try done; try (by destruct (w =? 0)).
  - cbn [thread_step]. by erewrite bind_ret by exact E.
  - destruct (w =? 0); [done |]. split; [done | lia].
  - by rewrite T1.
  - lia.
Qed.

(** The slot may have an entry by now; it is overwritten. *)
Lemma step_retrying q s : at_point G N c (Retrying q s) -> held Y c -> Y ## table_frames (NxContigTable c) -> advances G N Y c (Retrying q s).
Proof.
  intros A HY Hd. destruct (ap_point _ _ _ _ A) as (Hq & Hs). pose proof (ap_contig _ _ _ _ A) as O. pose proof Hq as [(Hn & Hlo & Hhi & Hal) Hr].
  destruct (align_pages_eq (rq_align q) Hal) as (k & Hk & Ek & _). set (n := page_count (rq_bytes q)).
  assert (Hp : 0 < n < 2 ^ 32) by (unfold n, page_count; split; [apply Z.div_str_pos; lia | apply Z.div_lt_upper_bound; lia]).
  destruct (take_frames_spec G Y c n (low_of q) (high_of q) (align_of_request q) k O HY) as (b & m' & E & O1 & K1 & Hb);
    [unfold is_u32; lia | apply low_pfn_u32 | apply u32_range | done | done | lia |].
  assert (Er : thread_step (Retrying q s) c = (r ← (if negb (b =? 0) then record_run s b (rq_bytes q) else mret 0); mret (Idle r)) (set_mm m' c)).
  { cbn [thread_step]. unfold retry_section, retry_in_slot. rewrite bind_assoc, (real_pages q Hq). by erewrite bind_ret by exact E. }
  destruct Hb as [(-> & _) | (Hb & Ch & Hh)]; [by apply (plain_advances G N Y c _ (set_mm m' c) (Idle 0) A) |].
  rewrite (proj2 (Z.eqb_neq b 0) Hb) in Er. cbn [negb] in Er.
  set (i := Z.to_nat s). set (c2 := forget i (set_mm m' c)). pose proof (forget_ok G i _ O1) as O2.
  assert (Un : forall q', b <= q' < b + n -> ~ pinned (cmm c) q') by (intros q' Hq'; by apply (chosen_unpinned (cmm c) _ _ _ _ b q' Ch)).
  pose proof (wf_highest _ (mm_sup _ (pool_mm c (co_pool _ _ O)))) as Hw. pose proof Ch as [(Hb1 & Hb2 & _) _].
  assert (Sub : table_frames (NxContigTable c2) ⊆ table_frames (NxContigTable c)) by exact (forget_frames i (set_mm m' c)).
  assert (Dj : pages_of b n ## table_frames (NxContigTable c2) ∪ G).
  { intros q' Hq' Hin. apply elem_of_pages_of in Hq'; [| lia]. apply (Un q' Hq'). apply (held_pinned _ c q' (co_held _ _ O)). clear - Sub Hin. set_solver. }
  destruct (record_ok G Y c2 s b (rq_bytes q) O2) as (c' & E' & O' & K' & Sl & Na & Al); try done.
  { exact (ks_held _ _ _ K1). } { unfold c2. rewrite forget_slots. exact Hs. } { apply forget_free; [done | exact Hs]. } { lia. } { fold n. lia. }
  assert (K02 : keeps Y c c') by (apply (keeps_trans Y c c2); [| exact K']; apply (keeps_trans Y c _ _ K1), keeps_table; [apply K1 | done | done]).
  unfold c2, i in E'. rewrite forget_record in E' by lia. erewrite bind_ret in Er by exact E'.
  apply (plain_advances G N Y c _ c' (Idle (NXK_KSEG0_BASE + 4096 * b)) A); try done.
  - intros q' Hq' Hin. apply (elem_allocated G c' q' O') in Hin as (a & n' & [Ha | [-> ->]]%Al & Hin).
    + apply (Hd q' Hq'), Sub, (elem_allocated G c2 q' O2). eauto.
    + unfold run_of in Hin. replace (NXK_KSEG0_BASE + 4096 * b - NXK_KSEG0_BASE) with (b * 4096) in Hin by lia. rewrite Z.div_mul in Hin by lia.
      apply elem_of_pages_of in Hin; [| fold n; lia]. apply (Un q' Hin). by apply (held_pinned Y c).
  - rewrite Sl. unfold c2. rewrite forget_slots. apply Z.le_refl.
Qed.

(** The entry leaves the table; its frames are the thread's. *)
Lemma step_clearing a : at_point G N c (Clearing a) -> held Y c -> Y ## table_frames (NxContigTable c) -> advances G N Y c (Clearing a).
Proof.
  intros A HY Hd. pose proof (ap_contig _ _ _ _ A) as O. pose proof (find_alias_spec (NxContigTable c) a 0) as F.
  destruct (find_alias (NxContigTable c) a 0) as [i' |] eqn:Ef.
  2: { apply (plain_advances G N Y c _ c (Idle 0) A); try done; [| by apply keeps_refl]. cbn [thread_step]. unfold clear_section, mbind, K_bind, get. by rewrite Ef. }
  destruct F as (i & e & -> & Hi & Ea). cbn [plus] in Ef. set (c1 := forget i c).
  assert (En : nth i (NxContigTable c) zero_entry = e) by (by rewrite nth_lookup, Hi).
  assert (E : thread_step (Clearing a) c = Some (Ret (if Pa e <? PaEnd e then Releasing (Pa e) (PaEnd e) else Idle 0), c1)).
  { cbn [thread_step]. unfold clear_section, mbind, K_bind, get, put. by rewrite Ef, En. }
  pose proof (forget_ok G i c O) as O1. pose proof (forget_frames i c) as Sub. fold c1 in O1, Sub.
  assert (Kp : keeps Y c c1) by (by apply keeps_table). assert (Dy : Y ## table_frames (NxContigTable c1)) by (clear - Hd Sub; set_solver).
  assert (Sl : NxContigSlots c1 = NxContigSlots c) by apply forget_slots.
  destruct (co_entry _ _ O i e Hi) as [-> | Oe]; [apply (plain_advances G N Y c _ c1 (Idle 0) A); done || lia |].
  destruct (entry_run_ok e Oe) as (b & Ep & _ & Er & Hn & _). set (n := (CSize e + 4095) / 4096) in *.
  assert (Ee : PaEnd e = 4096 * (b + n)) by (destruct Oe as (b' & _ & _ & _ & Ep' & -> & _); fold n; lia).
  rewrite (proj2 (Z.ltb_lt (Pa e) (PaEnd e))) in E by lia.
  assert (Sb : entry_run e ⊆ table_frames (NxContigTable c)) by (intros q Hq; apply elem_table_frames; eauto).
  exists (Releasing (Pa e) (PaEnd e)), c1. split; [done |]. split; [constructor |].
  - done.
  - exists b, n. done.
  - change (held (entry_run e) c). apply (held_sub (table_frames (NxContigTable c) ∪ G)); [clear - Sb; set_solver | apply (co_held _ _ O)].
  - change (entry_run e ## table_frames (NxContigTable c1) ∪ G). destruct (table_frames_clear G c i e O Hi) as [_ D1]. pose proof (co_claim _ _ O) as D2.
    apply disjoint_union_r. split; [exact D1 |]. clear - Sb D2. set_solver.
  - done.
  - apply (ap_others _ _ _ _ A).
  - constructor; [| | lia | done].
    + apply (keeps_aside _ _ N); [done | |]; intros b'; unfold mine; cbn [pblock]; intuition congruence.
    + apply disjoint_union_r. split; [done |]. change (Y ## entry_run e). clear - Sb Hd. set_solver.
Qed.

Lemma step_releasing pa pe : at_point G N c (Releasing pa pe) -> held Y c -> Y ## table_frames (NxContigTable c) -> Y ## pframes (Releasing pa pe) ->
  advances G N Y c (Releasing pa pe).
Proof.
  intros A HY Hd Hf. pose proof (ap_contig _ _ _ _ A) as O. destruct (ap_point _ _ _ _ A) as (b & n & Hn & -> & ->).
  pose proof (ap_held _ _ _ _ A) as Hh. pose proof (ap_frames _ _ _ _ A) as Hg.
  assert (Ef : pframes (Releasing (4096 * b) (4096 * (b + n))) = pages_of b n).
  { cbn [pframes]. replace (4096 * (b + n) - 4096 * b) with (n * 4096) by lia. by rewrite (Z.mul_comm 4096 b), !Z.div_mul by lia. }
  assert (Enp : npages (4096 * b) (4096 * (b + n)) = Z.to_nat n).
  { unfold npages. f_equal. replace (4096 * (b + n) - 4096 * b + 4095) with (4095 + n * 4096) by lia. rewrite Z.div_add by lia. change (4095 / 4096) with 0. lia. }
  rewrite Ef in Hh, Hg, Hf.
  destruct (return_frames_rest (Z.to_nat n) (cmm c) b (pool_mm c (co_pool _ _ O))) as [R _].
  { intros q Hq. apply (held_pinned _ c q Hh). apply elem_of_pages_of; lia. }
  cbv zeta in R. rewrite Z2Nat.id in R by lia. set (m' := with_sup (return_frames (Z.to_nat n) (sup (cmm c)) b) (cmm c)) in *.
  assert (KK : forall X, held X c -> X ## pages_of b n -> pool_ok (kpool (set_mm m' c)) /\ keeps X c (set_mm m' c)).
  { intros X HX Hx. apply (keeps_mm X (pages_of b n)); [apply (co_pool _ _ O) | by apply held_union | done | done]. }
  destruct (KK _ (co_held _ _ O)) as [O' Kp]; [by symmetry |].
  apply (plain_advances G N Y c _ (set_mm m' c) (Idle 0) A); try done; [| by apply KK |].
  - cbn [thread_step]. erewrite bind_ret; [done |]. unfold give_back, on_sup, on_mm. rewrite Enp, Z.shiftr_div_pow2 by done.
    change (2 ^ PAGE_SHIFT) with 4096. rewrite (Z.mul_comm 4096 b), Z.div_mul by lia. done.
  - destruct O. constructor; try done. exact (ks_held _ _ _ Kp).
Qed.

(** Every step of a thread is possible, whatever the others do. *)
Lemma thread_advances p : at_point G N c p -> held Y c -> Y ## table_frames (NxContigTable c) -> Y ## pframes p -> advances G N Y c p.
Proof.
  intros A HY Hd Hf. destruct p.
  - apply (plain_advances G N Y c _ c (Idle r) A); try done; [by apply keeps_refl | apply A].
  - by apply step_entering.
  - by apply step_scanning.
  - by apply step_growing.
  - by apply step_swapping.
  - by apply step_dropping.
  - by apply step_sweeping.
  - by apply step_retrying.
  - by apply step_clearing.
  - by apply step_releasing.
Qed.

End steps.

(** ** All threads *)

Record sys : Type := Sys { shared : contig; threads : list point }.

Definition at_thread (i : nat) (p : point) (s : sys) : sys := Sys (shared s) (<[i := p]> (threads s)).

(** The arrays and the frames of the threads other than [i]. *)
Definition other_blocks (i : nat) (ts : list point) (b : Z) : Prop := exists j p, j <> i /\ ts !! j = Some p /\ pblock p = Some b.
Definition other_frames (i : nat) (ts : list point) : gset Z := ⋃ (imap (fun j p => if decide (j = i) then ∅ else pframes p) ts).

Record sys_ok (G : gset Z) (s : sys) : Prop := {
  so_contig : contig_ok G (shared s);
  so_at : forall i p, threads s !! i = Some p -> at_point G (other_blocks i (threads s)) (shared s) p;
  so_apart : forall i j p p', i <> j -> threads s !! i = Some p -> threads s !! j = Some p' -> pframes p ## pframes p'
}.

(** What the allocator has: frames and pool blocks. *)
Definition own_frames (s : sys) : gset Z := table_frames (NxContigTable (shared s)) ∪ ⋃ (map pframes (threads s)).
Definition own_block (s : sys) (b : Z) : Prop := b = TableBlock (shared s) \/ exists i p, threads s !! i = Some p /\ pblock p = Some b.

(** Others at work: they may change the pool and the frames, not what is the
    allocator's. *)
Record others_do (G : gset Z) (s : sys) (c' : contig) : Prop := {
  od_table : NxContigTable c' = NxContigTable (shared s);
  od_block : TableBlock c' = TableBlock (shared s);
  od_hint : NxContigHint c' = NxContigHint (shared s);
  od_bytes : NxkNv2aInstanceBytes c' = NxkNv2aInstanceBytes (shared s);
  od_pool : pool_ok (kpool c');
  od_held : held (own_frames s ∪ G) c';
  od_live : forall b d, own_block s b -> live (kpool (shared s)) b d -> live (kpool c') b d
}.

Inductive sys_step (G : gset Z) (s : sys) : sys -> Prop :=
  | begin_allocate i r q : threads s !! i = Some (Idle r) -> good_request q -> sys_step G s (at_thread i (Entering q) s)
  | begin_free i r a : threads s !! i = Some (Idle r) -> sys_step G s (at_thread i (Clearing a) s)
  | run_section i p p' c' : threads s !! i = Some p -> thread_step p (shared s) = Some (Ret p', c') -> sys_step G s (Sys c' (<[i := p']> (threads s)))
  | run_other c' : others_do G s c' -> sys_step G s (Sys c' (threads s)).

Lemma elem_other_frames i ts q : q ∈ other_frames i ts <-> exists j p, j <> i /\ ts !! j = Some p /\ q ∈ pframes p.
Proof.
  unfold other_frames. rewrite elem_of_union_list. split.
  - intros (S & (j & p & -> & Hj)%elem_of_lookup_imap & Hq). case_decide as E; [by apply not_elem_of_empty in Hq | eauto].
  - intros (j & p & Hn & Hj & Hq). exists (pframes p). split; [| done]. apply elem_of_lookup_imap. exists j, p. by rewrite decide_False.
Qed.

Lemma elem_thread_frames ts q : q ∈ ⋃ (map pframes ts) <-> exists j p, ts !! j = Some p /\ q ∈ pframes p.
Proof.
  rewrite elem_of_union_list. split.
  - intros (S & (p & -> & [j Hj]%list_elem_of_lookup)%list_elem_of_fmap & Hq). eauto.
  - intros (j & p & Hj & Hq). exists (pframes p). split; [| done]. apply list_elem_of_fmap. exists p. split; [done |]. by eapply list_elem_of_lookup_2.
Qed.

Lemma held_all Y c : (forall q, q ∈ Y -> exists Z, q ∈ Z /\ held Z c) -> held Y c.
Proof.
  intros H. apply held_intro.
  - intros q Hq. destruct (H q Hq) as (Z & HZ & Hh). by apply (held_pinned Z).
  - intros q i Hq. destruct (H q Hq) as (Z & HZ & Hh). by apply (ho_apart _ _ _ Hh).
Qed.

Lemma at_point_ext G N N' c p : (forall b, N b <-> N' b) -> at_point G N c p -> at_point G N' c p.
Proof.
  intros E [O P H F B Ot]. constructor; try done.
  - intros b Hb. rewrite <- E. by apply B.
  - intros b Hb. apply Ot. by apply E.
Qed.

Lemma pblock_live c p b : point_ok c p -> pblock p = Some b -> exists d, live (kpool c) b d.
Proof.
  destruct p; cbn [pblock point_ok]; try done; [intros (_ & _ & ?) [= <-]; eauto |].
  intros (_ & H). destruct (Z.eqb_spec unused 0); [done |]. intros [= <-]. destruct (H n) as [k Hk]. eauto.
Qed.

(** What a thread relies on while others run. *)
Lemma point_ok_mono c c' p : point_ok c p -> NxContigSlots c <= NxContigSlots c' ->
  (forall b d, pblock p = Some b -> live (kpool c) b d -> live (kpool c') b d) -> point_ok c' p.
Proof.
  intros Hp Hs HL. destruct p; cbn [point_ok pblock] in *; try done.
  - destruct Hp. split; [done | lia].
  - destruct Hp as (? & ? & ?). split; [done |]. split; [lia | by apply HL].
  - destruct Hp as [? Hu]. split; [done |]. intros Hz. destruct (Hu Hz) as [n Hn]. exists n. apply HL; [| done]. by rewrite (proj2 (Z.eqb_neq _ _) Hz).
  - destruct Hp. split; [done | lia].
  - destruct Hp. split; [done | lia].
Qed.

Section system.
Context (G : gset Z).

Lemma lookup_at (ts : list point) i j p p' : <[i := p]> ts !! j = Some p' -> j = i /\ p' = p \/ j <> i /\ ts !! j = Some p'.
Proof. intros [(-> & -> & _) | (? & ?)]%list_lookup_insert_Some; auto. Qed.

Lemma other_blocks_at i p ts b : other_blocks i (<[i := p]> ts) b <-> other_blocks i ts b.
Proof.
  split; intros (j & p' & Hn & Hj & Hb); exists j, p'; (split; [done |]); (split; [| done]).
  - by rewrite list_lookup_insert_ne in Hj.
  - by rewrite list_lookup_insert_ne.
Qed.

(** The rest of the system, for the step of thread [i]. *)
Lemma others_held s i p : sys_ok G s -> threads s !! i = Some p ->
  held (other_frames i (threads s)) (shared s) /\ other_frames i (threads s) ## table_frames (NxContigTable (shared s)) /\ other_frames i (threads s) ## pframes p.
Proof.
  intros S Hi. split_and!.
  - apply held_all. intros q (j & p' & _ & Hj & Hq)%elem_other_frames. exists (pframes p'). split; [done |]. apply (ap_held _ _ _ _ (so_at _ _ S j p' Hj)).
  - intros q (j & p' & _ & Hj & Hq)%elem_other_frames Hq'. apply (ap_frames _ _ _ _ (so_at _ _ S j p' Hj) q Hq). by apply elem_of_union_l.
  - intros q (j & p' & Hn & Hj & Hq)%elem_other_frames Hq'. by apply (so_apart _ _ S j i p' p Hn Hj Hi q).
Qed.

Lemma section_ok s i p p' c' Y : sys_ok G s -> threads s !! i = Some p -> other_frames i (threads s) ⊆ Y ->
  at_point G (other_blocks i (threads s)) c' p' -> leaves (other_blocks i (threads s)) Y (shared s) p c' p' ->
  sys_ok G (Sys c' (<[i := p']> (threads s))).
Proof.
  intros S Hi HY A L. pose proof (lv_apart _ _ _ _ _ _ L) as [D1 D2]%disjoint_union_r.
  assert (Fo : forall j pj, j <> i -> threads s !! j = Some pj -> pframes pj ⊆ Y).
  { intros j pj Hn Hj q Hq. apply HY, elem_other_frames. eauto. }
  assert (Nb : forall j pj b, j <> i -> threads s !! j = Some pj -> pblock pj = Some b -> other_blocks i (threads s) b) by (intros j pj b Hn Hj Hb; by exists j, pj).
  constructor; cbn [shared threads]; [apply A | |].
  - intros j pj [[-> ->] | [Hn Hj]]%lookup_at; [by apply (at_point_ext G (other_blocks i (threads s))); [intros b; symmetry; apply other_blocks_at |] |].
    pose proof (so_at _ _ S j pj Hj) as Aj. constructor.
    + apply A.
    + apply (point_ok_mono (shared s)); [apply Aj | apply L |]. intros b d Hb. apply (lv_blocks _ _ _ _ _ _ L). by apply (Nb j pj).
    + apply (held_sub Y); [by apply (Fo j) |]. exact (ks_held _ _ _ (lv_keeps _ _ _ _ _ _ L)).
    + apply disjoint_union_r. split; [intros q Hq; apply (D1 q); by apply (Fo j pj) |]. intros q Hq Hg. apply (ap_frames _ _ _ _ Aj q Hq). by apply elem_of_union_r.
    + intros b Hb. split; [by apply (ap_others _ _ _ _ A), (Nb j pj) |]. intros (k & pk & Hk & [[-> ->] | [Hki Hkk]]%lookup_at & Hbk).
      * by apply (ap_block _ _ _ _ A b Hbk), (Nb j pj).
      * apply (ap_block _ _ _ _ Aj b Hb). by exists k, pk.
    + intros b (k & pk & Hk & [[-> ->] | [Hki Hkk]]%lookup_at & Hbk).
      * split; [by apply (ap_block _ _ _ _ A) | apply (pblock_live c' p'); [apply A | done]].
      * by apply (ap_others _ _ _ _ A), (Nb k pk).
  - intros j k pj pk Hjk [[-> ->] | [Hj Hjj]]%lookup_at [[-> ->] | [Hk Hkk]]%lookup_at; [done | | | by apply (so_apart _ _ S j k)].
    + intros q Hq Hq'. apply (D2 q); [by apply (Fo k pk) | done].
    + intros q Hq Hq'. apply (D2 q); [by apply (Fo j pj) | done].
Qed.

(** A call begins. *)
Lemma begin_ok s i r p : sys_ok G s -> threads s !! i = Some (Idle r) -> point_ok (shared s) p -> pblock p = None -> pframes p = ∅ -> sys_ok G (at_thread i p s).
Proof.
  intros S Hi Hp Eb Ef. pose proof (so_at _ _ S i _ Hi) as A. destruct (others_held s i _ S Hi) as (H1 & H2 & _).
  apply (section_ok s i (Idle r) p (shared s) (other_frames i (threads s)) S Hi); [done | |].
  - by apply (plain_at G _ (other_frames i (threads s)) (shared s) (Idle r)); [| apply keeps_refl | apply A | | |].
  - apply plain_leaves; try done; [by apply keeps_refl |]. intros b Hb. by apply (ap_others _ _ _ _ A).
Qed.

(** A section runs, and leaves alone what others have. *)
Lemma section_runs s i p X : sys_ok G s -> threads s !! i = Some p -> held X (shared s) -> X ## own_frames s ->
  exists p' c', thread_step p (shared s) = Some (Ret p', c') /\ let s' := Sys c' (<[i := p']> (threads s)) in
    sys_ok G s' /\ keeps_but (own_block s) (own_block s') X (shared s) c'.
Proof.
  intros S Hi HX Hd. destruct (others_held s i p S Hi) as (H1 & H2 & H3). unfold own_frames in Hd. apply disjoint_union_r in Hd as [Hd1 Hd2].
  assert (Hd3 : X ## pframes p) by (intros q Hq Hq'; apply (Hd2 q Hq), elem_thread_frames; eauto).
  destruct (thread_advances G (other_blocks i (threads s)) (X ∪ other_frames i (threads s)) (shared s) p (so_at _ _ S i p Hi)) as (p' & c' & E & A & L).
  - by apply held_union. - by apply disjoint_union_l. - by apply disjoint_union_l.
  - exists p', c'. split; [done |]. split; [apply (section_ok s i p p' c' (X ∪ other_frames i (threads s))); try done; apply union_subseteq_r |].
    destruct (keeps_sub _ X _ _ (union_subseteq_l X (other_frames i (threads s))) (lv_keeps _ _ _ _ _ _ L)) as [Kh Kf Ko Ks Kn Kl Kc].
    assert (M : forall b, mine (other_blocks i (threads s)) (shared s) p b <-> own_block s b).
    { intros b. unfold mine, own_block, other_blocks. split; [intros [? | [? | (j & pj & _ & ? & ?)]]; eauto |].
      intros [? | (j & pj & Hj & Hb)]; [auto |]. destruct (decide (j = i)) as [-> | Hn]; [right; left; congruence | eauto 8]. }
    assert (M' : forall b, mine (other_blocks i (threads s)) c' p' b <-> own_block (Sys c' (<[i := p']> (threads s))) b).
    { intros b. unfold mine, own_block, other_blocks. cbn [shared threads]. split.
      - intros [? | [? | (j & pj & Hn & Hj & Hb)]]; [auto | |]; right.
        + exists i, p'. split; [| done]. apply list_lookup_insert_eq. by eapply lookup_lt_Some.
        + exists j, pj. split; [by rewrite list_lookup_insert_ne | done].
      - intros [? | (j & pj & [[-> ->] | [Hn Hj]]%lookup_at & Hb)]; eauto 8. }
    constructor; try done.
    + intros b d. rewrite <- M, <- M'. apply Kl.
    + intros b d a Hl Hb. apply (Kc b d a Hl). by rewrite M.
Qed.

(** Others run. *)
Lemma other_ok s c' : sys_ok G s -> others_do G s c' -> sys_ok G (Sys c' (threads s)).
Proof.
  intros S [Et Eb Eh En Op Oh Ol]. destruct (so_contig _ _ S) as [_ _ Ce Ca Cc Cb Cs Ch Cy Cw]. set (c := shared s) in *.
  assert (Sl : NxContigSlots c' = NxContigSlots c) by (unfold NxContigSlots; by rewrite Et).
  assert (Hf : forall i p, threads s !! i = Some p -> pframes p ⊆ own_frames s ∪ G).
  { intros i p Hi q Hq. apply elem_of_union_l, elem_of_union_r, elem_thread_frames. eauto. }
  assert (O' : contig_ok G c').
  { constructor; rewrite ?Et, ?Eb, ?Sl, ?Eh, ?En; try done.
    - apply (held_sub (own_frames s ∪ G)); [unfold own_frames; clear; set_solver | done].
    - intros Hb. apply Ol; [by left | auto]. }
  constructor; cbn [shared threads]; [done | | apply S]. intros i p Hi. destruct (so_at _ _ S i p Hi) as [Ao Ap Ah Af Ab At]. constructor; try done.
  - apply (point_ok_mono c); [done | lia |]. intros b d Hb. apply Ol. right. eauto.
  - apply (held_sub (own_frames s ∪ G)); [by apply (Hf i) | done].
  - by rewrite Et.
  - rewrite Eb. apply Ab.
  - intros b Hb. destruct (At b Hb) as [Hb' [d Hd]]. split; [by rewrite Eb |]. exists d. apply Ol; [| done].
    right. destruct Hb as (j & pj & _ & Hj & Hbj). eauto.
Qed.

Lemma sys_step_ok s s' : sys_ok G s -> sys_step G s s' -> sys_ok G s'.
Proof.
  intros S [i r q Hi Hq | i r a Hi | i p p' c' Hi E | c' H].
  - by apply (begin_ok s i r).
  - by apply (begin_ok s i r).
  - destruct (section_runs s i p ∅ S Hi (held_empty _) (disjoint_empty_l _)) as (p2 & c2 & E2 & S2 & _). rewrite E in E2. by injection E2 as <- <-.
  - by apply other_ok.
Qed.

End system.

(** C21: in every interleaving of any number of allocations and frees, cut at
    the locks, and of the work of other components, the allocator stays
    consistent: the table's runs, the runs being released and the claimed
    frames are disjoint, in use and immovable; the table's array and the
    arrays on their way into and out of the pool are distinct live blocks;
    reserved slots exist.  No section ever stops the machine or fails to
    return, and none touches a frame, a page or a pool block of others. *)
Theorem contig_interleavings G s0 s : sys_ok G s0 -> rtc (sys_step G) s0 s ->
  sys_ok G s /\ forall i p X, threads s !! i = Some p -> held X (shared s) -> X ## own_frames s ->
    exists p' c', thread_step p (shared s) = Some (Ret p', c') /\
      keeps_but (own_block s) (own_block (Sys c' (<[i := p']> (threads s)))) X (shared s) c'.
Proof.
  intros S R. assert (Sk : sys_ok G s) by (induction R as [| x y z Hxy Hyz IH]; [done | apply IH; by apply (sys_step_ok G x)]).
  split; [done |]. intros i p X Hi HX Hd. destruct (section_runs G s i p X Sk Hi HX Hd) as (p' & c' & E & _ & Kp). eauto.
Qed.

(** ** Schedules *)

Inductive act : Type :=
  | Begin (i : nat) (q : contig_request)
  | Run (i : nat).

Definition run_act (s : sys) (a : act) : option sys :=
  match a with
  | Begin i q => match threads s !! i with Some (Idle _) => Some (at_thread i (Entering q) s) | _ => None end
  | Run i =>
      match threads s !! i with
      | None => None
      | Some p => match thread_step p (shared s) with Some (Ret p', c') => Some (Sys c' (<[i := p']> (threads s))) | _ => None end
      end
  end.

Fixpoint run_acts (l : list act) (s : sys) : option sys :=
  match l with
  | [] => Some s
  | a :: l => match run_act s a with None => None | Some s' => run_acts l s' end
  end.

Definition act_ok (a : act) : Prop := match a with Begin _ q => good_request q | Run _ => True end.

Lemma run_acts_steps G l : Forall act_ok l -> forall s s', run_acts l s = Some s' -> rtc (sys_step G) s s'.
Proof.
  induction 1 as [| a l Ha Hl IH]; intros s s' E; cbn [run_acts] in E; [injection E as <-; reflexivity |].
  destruct (run_act s a) as [s1 |] eqn:E1; [| discriminate E]. eapply rtc_l; [| by apply IH]. destruct a as [i q | i]; cbn [run_act] in E1.
  - destruct (threads s !! i) as [[] |] eqn:Ei; try discriminate E1. injection E1 as <-. by eapply begin_allocate.
  - destruct (threads s !! i) as [p |] eqn:Ei; [| discriminate E1]. destruct (thread_step p (shared s)) as [[[p' | |] c'] |] eqn:Ep; try discriminate E1.
    injection E1 as <-. by eapply run_section.
Qed.

Lemma idle_ok G c n : contig_ok G c -> sys_ok G (Sys c (replicate n (Idle 0))).
Proof.
  intros O. constructor; cbn [shared threads]; [done | |].
  - intros i p [-> _]%lookup_replicate. constructor; [done | done | apply held_empty | apply disjoint_empty_l | done |].
    intros b (j & p & _ & [-> _]%lookup_replicate & Hb). discriminate Hb.
  - intros i j p p' _ [-> _]%lookup_replicate _. apply disjoint_empty_l.
Qed.

(** *** The lost slot

    66 free frames; two blocks of different classes, allocated and freed,
    leave two empty pages in the pool, which has taken three frames. *)
Definition pool_take (n : Z) (p : pool window) : pool window := match ExAllocatePoolWithTag NonPagedPool n TAG_NONE p with Some (_, p) => p | None => p end.
Definition pool_drop (b : Z) (p : pool window) : pool window := snd (ExFreePoolWithTag b TAG_NONE p).

Definition two_full : pool window := pool_take 1000 (pool_take 100 (free_pool 200 (seqZ 100 66))).
Definition two_empty : pool window := pool_drop 0xC1001008 (pool_drop 0xC1000008 two_full).

Definition race_start : sys := Sys (contig_boot two_empty) [Idle 0; Idle 0].

(** One page, anywhere. *)
Definition one_request : contig_request := Request 4096 0 0xFFFFFFFF 0.
Definition one_call (i : nat) : list act := [Begin i one_request; Run i; Run i].

(** The first thread takes 63 pages, all that are free, finds none for the
    next one, and sweeps; the second thread allocates; the first tries
    again. *)
Definition race : list act := concat (replicate 63 (one_call 0)) ++ one_call 0 ++ [Run 0] ++ one_call 1 ++ [Run 0].

Lemma pool_take_spec n p b : pool_ok p -> 0 <= n < 2 ^ 32 -> option_map fst (ExAllocatePoolWithTag NonPagedPool n TAG_NONE p) = Some (Ret b) -> b <> 0 ->
  pool_ok (pool_take n p) /\ forall x d, live (pool_take n p) x d <-> live p x d \/ x = b /\ d = block_for n TAG_NONE.
Proof.
  intros O Hn E Hb. destruct (alloc_spec NonPagedPool n TAG_NONE p O Hn) as (o & p' & E' & O' & _ & A). unfold pool_take. rewrite E' in E |- *.
  cbn [option_map fst] in E. injection E as ->. split; [done |]. destruct A as [[[F _] _] | (b' & [= <-] & _ & _ & L)]; done.
Qed.

Lemma pool_drop_spec n p b : pool_ok p -> live p b (block_for n TAG_NONE) -> pool_ok (pool_drop b p) /\ forall x d, live (pool_drop b p) x d <-> live p x d /\ x <> b.
Proof.
  intros O L. destruct (free_spec_live p b _ TAG_NONE O L) as (p' & E & O' & _ & L'); [unfold block_for; destruct (_ <? _); cbn [tag_matches]; auto |].
  unfold pool_drop. by rewrite E.
Qed.

Lemma two_empty_ok : pool_ok two_empty.
Proof.
  assert (O0 : pool_ok (free_pool 200 (seqZ 100 66))).
  { apply free_pool_ok; [lia | apply NoDup_seqZ |]. intros p Hp%elem_of_seqZ. lia. }
  destruct (pool_take_spec 100 _ 0xC1000008 O0) as [O1 L1]; [lia | vm_compute; reflexivity | done |].
  destruct (pool_take_spec 1000 _ 0xC1001008 O1) as [O2 L2]; [lia | vm_compute; reflexivity | done |].
  destruct (pool_drop_spec 100 two_full 0xC1000008 O2) as [O3 L3]; [apply L2; left; apply L1; by right |].
  destruct (pool_drop_spec 1000 (pool_drop 0xC1000008 two_full) 0xC1001008 O3) as [O4 _]; [| exact O4].
  apply L3. split; [apply L2; by right | done].
Qed.

Lemma race_start_ok : sys_ok ∅ race_start.
Proof. apply (idle_ok ∅ (contig_boot two_empty) 2). apply (boot_state _ two_empty_ok). Qed.

Lemma race_legal : Forall act_ok race.
Proof.
  assert (Q : good_request one_request) by (unfold good_request, good_alignment, is_u32, one_request; cbn [rq_bytes rq_low rq_high rq_align]; lia).
  assert (C : forall i, Forall act_ok (one_call i)) by (intros i; constructor; [exact Q |]; constructor; [done |]; constructor; [done |]; constructor).
  unfold race. apply Forall_app; split; [| apply Forall_app; split; [apply C | apply Forall_app; split; [by repeat constructor |
    apply Forall_app; split; [apply C | by repeat constructor]]]].
  generalize 63%nat. induction n as [| n IH]; [constructor |]. cbn [replicate concat]. by apply Forall_app.
Qed.

(** the slot an allocation has reserved is not kept for it while it sweeps
    the pool without the lock.  From a consistent state with one slot left,
    an interleaving of two allocations: both return an address, in one and
    the same slot; the second thread's address is not in the table any more,
    so that its size is not known, a free of it finds nothing, and its frame,
    which no table and no list has, stays in use. *)
Theorem reserved_slot_is_lost : exists s, sys_ok ∅ race_start /\ rtc (sys_step ∅) race_start s /\ threads s = [Idle 0x80065000; Idle 0x80066000] /\
  NxMmQueryAllocationSize 0x80065000 (shared s) = 4096 /\ NxMmQueryAllocationSize 0x80066000 (shared s) = 0 /\
  thread_step (Clearing 0x80066000) (shared s) = Some (Ret (Idle 0), shared s) /\ NxkPageSupplyIsFree (sup (cmm (shared s))) 0x66 = false.
Proof.
  assert (E : option_map (fun s => (threads s, NxMmQueryAllocationSize 0x80065000 (shared s), NxMmQueryAllocationSize 0x80066000 (shared s),
      find_alias (NxContigTable (shared s)) 0x80066000 0, NxkPageSupplyIsFree (sup (cmm (shared s))) 0x66)) (run_acts race race_start) =
    Some ([Idle 0x80065000; Idle 0x80066000], 4096, 0, None, false)) by (vm_compute; reflexivity).
  pose proof (run_acts_steps ∅ race race_legal race_start) as R. destruct (run_acts race race_start) as [s |]; [| discriminate E].
  cbn [option_map] in E. injection E as E1 E2 E3 E4 E5. exists s. split; [exact race_start_ok |]. split; [by apply R |]. do 3 (split; [done |]). split; [| done].
  cbn [thread_step]. unfold clear_section, mbind, K_bind, get. by rewrite E4.
Qed.

Lemma contig_interleavings_witness : exists s, threads s = [Scanning one_request; Idle 0] /\ rtc (sys_step ∅) race_start s /\ sys_ok ∅ s.
Proof.
  exists (Sys (contig_boot two_empty) [Scanning one_request; Idle 0]). split; [reflexivity |].
  assert (R : rtc (sys_step ∅) race_start (Sys (contig_boot two_empty) [Scanning one_request; Idle 0])).
  { apply (run_acts_steps ∅ [Begin 0 one_request; Run 0]); [| reflexivity]. constructor; [| repeat constructor].
    unfold act_ok, good_request, good_alignment, is_u32, one_request. cbn [rq_bytes rq_low rq_high rq_align]. lia. }
  split; [exact R |]. apply (contig_interleavings ∅ race_start _ race_start_ok R).
Defined.
