(* ===== verification/Bignum.v ===== *)
(** * Multi-word arithmetic and modular exponentiation

    Models the [Bn*] helpers and [XcpModExp] of
    [src/ntoskrnl/xb/crypto.c].  A number is the list of its 32-bit words,
    least significant first, and [bval] is the integer it stands for; every
    routine is shown to compute the integer operation its comment names, and
    [XcpModExp] to compute [Base ^ Exponent mod Modulus], by Montgomery
    multiplication for an odd modulus and by bitwise reduction for an even
    one. *)

From stdpp Require Import prelude list numbers.
From Stdlib Require Import ZArith Lia Znumtheory.
From S2P Require Import Prelude.

Local Open Scope Z_scope.

(** ** The routines *)

(** [A[i]], for an index held in a machine word. *)
Definition word (A : list Z) (i : Z) : Z := nth (Z.to_nat i) A 0.

(** [(A[i / 32] >> (i % 32)) & 1]. *)
Definition BnBit (A : list Z) (i : Z) : Z := Z.land (Z.shiftr (word A (i / 32)) (i mod 32)) 1.

Definition MINUS_ONE : Z := u32 (-1).

Fixpoint BnCompare (A B : list Z) (N : nat) : Z :=
  match N with
  | O => 0
  | S n =>
      let a := nth n A 0 in
      let b := nth n B 0 in
      if negb (a =? b) then (if b <? a then 1 else MINUS_ONE) else BnCompare A B n
  end.

(** The loop of [BnSubtract]; the result is the new [A] and the borrow. *)
Fixpoint sub_loop (A B : list Z) (Borrow : Z) : list Z * Z :=
  match A, B with
  | a :: A', b :: B' =>
      let D := u64 (a - b - Borrow) in
      let (r, c) := sub_loop A' B' (Z.land (Z.shiftr D 32) 1) in
      (u32 D :: r, c)
  | _, _ => ([], Borrow)
  end.

Definition BnSubtract (A B : list Z) (N : nat) : list Z * Z :=
  let (r, Borrow) := sub_loop (take N A) (take N B) 0 in
  (r ++ drop N A, Borrow).

(** The loop of [BnDoubleMod]: shift left by one, [Carry] coming in below. *)
Fixpoint double_loop (A : list Z) (Carry : Z) : list Z * Z :=
  match A with
  | [] => ([], Carry)
  | a :: A' =>
      let Next := Z.shiftr a 31 in
      let (r, c) := double_loop A' Next in
      (Z.lor (shl32 a 1) Carry :: r, c)
  end.

Definition BnDoubleMod (A : list Z) (Bit : Z) (M : list Z) (N : nat) : list Z :=
  let (r, Carry) := double_loop (take N A) Bit in
  let A1 := r ++ drop N A in
  if negb (Carry =? 0) || negb (BnCompare A1 M N =? MINUS_ONE)
  then fst (BnSubtract A1 M N)
  else A1.

(** The loop of [BnReduce], [i] bits of [Value] still to be shifted in. *)
Fixpoint reduce_loop (Value M : list Z) (N i : nat) (Result : list Z) : list Z :=
  match i with
  | O => Result
  | S i' => reduce_loop Value M N i' (BnDoubleMod Result (BnBit Value (Z.of_nat i')) M N)
  end.

Definition BnReduce (Value : list Z) (ValueWords : nat) (M : list Z) (N : nat) : list Z :=
  reduce_loop Value M N (ValueWords * 32) (replicate N 0).

(** The multiply-accumulate loop shared by the products:
    [Carry += A[j] * b + T[j]; T[j] = Carry; Carry >>= 32]. *)
Fixpoint mac_loop (A T : list Z) (b Carry : Z) : list Z * Z :=
  match A, T with
  | a :: A', t :: T' =>
      let C := u64 (Carry + (a * b + t)) in
      let (r, c) := mac_loop A' T' b (Z.shiftr C 32) in
      (u32 C :: r, c)
  | _, _ => ([], Carry)
  end.

(** One round of [BnMontMul] for the multiplier word [b]; [T] holds [N + 2]
    words. *)
Definition mont_round (A M : list Z) (MInv : Z) (N : nat) (b : Z) (T : list Z) : list Z :=
  let (T0, C0) := mac_loop A (take N T) b 0 in
  let C1 := u64 (C0 + nth N T 0) in
  let TN := u32 C1 in
  let TN1 := u32 (Z.shiftr C1 32) in
  let Factor := mul32 (nth 0 T0 0) MInv in
  let C2 := Z.shiftr (u64 (Factor * nth 0 M 0 + nth 0 T0 0)) 32 in
  let (T1, C3) := mac_loop (drop 1 M) (drop 1 T0) Factor C2 in
  let C4 := u64 (C3 + TN) in
  T1 ++ [u32 C4; add32 TN1 (u32 (Z.shiftr C4 32)); TN1].

Definition BnMontMul (A B M : list Z) (MInv : Z) (N : nat) : list Z :=
  let T := fold_left (fun T b => mont_round A M MInv N b T) (take N B) (replicate (N + 2) 0) in
  if negb (nth N T 0 =? 0) || negb (BnCompare T M N =? MINUS_ONE)
  then fst (BnSubtract T M N)
  else T.

(** The rows of the schoolbook product: row [i] adds [A * B[i]] at word [i]
    and stores the carry out at word [i + N]. *)
Definition mul_row (A : list Z) (N : nat) (S : list Z) (i : nat) (b : Z) : list Z :=
  let (r, Carry) := mac_loop A (take N (drop i S)) b 0 in
  take i S ++ r ++ Carry :: drop (i + N + 1) S.

Fixpoint mul_rows (A B : list Z) (N i : nat) (S : list Z) : list Z :=
  match B with
  | [] => S
  | b :: B' => mul_rows A B' N (i + 1) (mul_row A N S i b)
  end.

Definition BnMultiply (A B : list Z) (N : nat) : list Z :=
  mul_rows A (take N B) N 0 (replicate (2 * N) 0).

Definition BnMulMod (A B M : list Z) (N : nat) : list Z :=
  let Scratch := mul_rows A (take N B) N 0 (replicate (2 * N) 0) in
  BnReduce Scratch (2 * N) M N.

Fixpoint add_loop (A B : list Z) (Carry : Z) : list Z * Z :=
  match A, B with
  | a :: A', b :: B' =>
      let C := u64 (Carry + (a + b)) in
      let (r, c) := add_loop A' B' (Z.shiftr C 32) in
      (u32 C :: r, c)
  | _, _ => ([], Carry)
  end.

Definition BnAdd (A B : list Z) (N : nat) : list Z * Z :=
  let (r, Carry) := add_loop (take N A) (take N B) 0 in
  (r ++ drop N A, u32 Carry).

Fixpoint BnIsZero (A : list Z) (N : nat) : bool :=
  match N with
  | O => true
  | S n => if negb (nth n A 0 =? 0) then false else BnIsZero A n
  end.

(** ** Modular exponentiation *)

Definition BN_MAX_WORDS : nat := 512.

(** The scan that finds a non-zero word of the modulus. *)
Definition modulus_zero (M : list Z) (Words : nat) : bool := forallb (fun w => w =? 0) (take Words M).

(** [Inv *= 2 - Modulus[0] * Inv], [n] times. *)
Fixpoint newton (m0 : Z) (n : nat) (Inv : Z) : Z :=
  match n with
  | O => Inv
  | S n' => newton m0 n' (mul32 Inv (sub32 2 (mul32 m0 Inv)))
  end.

(** [n] doublings modulo [M]. *)
Fixpoint double_n (M : list Z) (N n : nat) (A : list Z) : list Z :=
  match n with
  | O => A
  | S n' => double_n M N n' (BnDoubleMod A 0 M N)
  end.

Definition one_words (N : nat) : list Z := 1 :: replicate (N - 1) 0.

(** [while (ExpBits > 0 && bit ExpBits - 1 is clear) ExpBits--]. *)
Fixpoint exp_bits (E : list Z) (n : nat) : nat :=
  match n with
  | O => O
  | S n' => if BnBit E (Z.of_nat n') =? 0 then exp_bits E n' else n
  end.

(** The square-and-multiply loop over bits [i, i + n) of the exponent; [mul]
    is the product the branch on [Odd] selects. *)
Fixpoint exp_loop (mul : list Z -> list Z -> list Z) (E : list Z) (n : nat) (i : Z)
    (Acc Val : list Z) : list Z * list Z :=
  match n with
  | O => (Acc, Val)
  | S n' =>
      let Acc' := if negb (BnBit E i =? 0) then mul Acc Val else Acc in
      let Val' := mul Val Val in
      exp_loop mul E n' (i + 1) Acc' Val'
  end.

(** [pool] tells whether the scratch allocation succeeds.  [None] is the
    return value 0, which leaves [Result] unwritten. *)
Definition XcpModExp (pool : bool) (Base Exponent Modulus : list Z) (Words : nat) : option (list Z) :=
  if (Words =? 0)%nat || (BN_MAX_WORDS <? Words)%nat then None
  else if modulus_zero Modulus Words then None
  else if negb pool then None
  else
    let Odd := negb (Z.land (nth 0 Modulus 0) 1 =? 0) in
    let Val := BnReduce Base Words Modulus Words in
    let ExpBits := exp_bits Exponent (Words * 32) in
    if Odd then
      let Inv := newton (nth 0 Modulus 0) 5 (nth 0 Modulus 0) in
      let MInv := sub32 0 Inv in
      let mul a b := take Words (BnMontMul a b Modulus MInv Words) in
      let Acc := double_n Modulus Words (Words * 32) (one_words Words) in
      let Scratch := double_n Modulus Words (Words * 32) Acc in
      let Val := mul Val Scratch in
      let (Acc, _) := exp_loop mul Exponent ExpBits 0 Acc Val in
      Some (mul Acc (one_words Words))
    else
      let mul a b := BnMulMod a b Modulus Words in
      let Acc := one_words Words in
      let (Acc, _) := exp_loop mul Exponent ExpBits 0 Acc Val in
      Some Acc.

(** ** The integer a word list stands for *)

Abbreviation BASE := (2 ^ 32).

Fixpoint bval (A : list Z) : Z :=
  match A with
  | [] => 0
  | a :: A' => a + BASE * bval A'
  end.

Definition words (A : list Z) : Prop := Forall is_u32 A.

(** An array of [N] words. *)
Definition bn (N : nat) (A : list Z) : Prop := length A = N /\ words A.

(** The weight of word [n]. *)
Abbreviation W n := (BASE ^ Z.of_nat n).

Lemma W_S n : W (S n) = BASE * W n.
Proof. rewrite Nat2Z.inj_succ, Z.pow_succ_r by lia. done. Qed.

Lemma W_pos n : 0 < W n.
Proof. apply Z.pow_pos_nonneg; lia. Qed.

Lemma W_add n k : W (n + k) = W n * W k.
Proof. rewrite Nat2Z.inj_add, Z.pow_add_r by lia. done. Qed.

Lemma W_bits n : W n = 2 ^ Z.of_nat (n * 32).
Proof. rewrite <- Z.pow_mul_r by lia. f_equal. lia. Qed.

Lemma words_cons a A : words (a :: A) <-> is_u32 a /\ words A.
Proof. apply Forall_cons_iff. Qed.

Lemma words_app A B : words (A ++ B) <-> words A /\ words B.
Proof. apply Forall_app. Qed.

Lemma words_take n A : words A -> words (take n A).
Proof. apply Forall_take. Qed.

Lemma words_drop n A : words A -> words (drop n A).
Proof. apply Forall_drop. Qed.

Lemma words_zero n : words (replicate n 0).
Proof. apply Forall_replicate. unfold is_u32. lia. Qed.

Lemma words_nth A n : words A -> is_u32 (nth n A 0).
Proof.
  intros H. revert n. induction H as [|a A Ha _ IH]; intros [|n]; simpl; auto; unfold is_u32; lia.
Qed.

Lemma u32_is x : is_u32 (u32 x).
Proof. apply u32_range. Qed.

#[export] Hint Resolve words_take words_drop words_zero words_nth u32_is : word.

Lemma bval_bound A : words A -> 0 <= bval A < W (length A).
Proof.
  induction 1 as [|a A Ha _ IH]; simpl bval; [simpl; lia |].
  simpl length. rewrite W_S. unfold is_u32 in Ha. nia.
Qed.

Lemma bn_bound N A : bn N A -> 0 <= bval A < W N.
Proof. intros [<- H]. by apply bval_bound. Qed.

Lemma bval_app A B : bval (A ++ B) = bval A + W (length A) * bval B.
Proof.
  induction A as [|a A IH]; simpl bval; [simpl length; rewrite Z.pow_0_r; lia |].
  simpl app. simpl bval. rewrite IH. simpl length. rewrite W_S. lia.
Qed.

Lemma bval_zero n : bval (replicate n 0) = 0.
Proof. induction n; simpl; lia. Qed.

Lemma bval_one N : (0 < N)%nat -> bval (one_words N) = 1.
Proof. intros _. unfold one_words. simpl bval. rewrite bval_zero. lia. Qed.

Lemma bn_one N : (0 < N)%nat -> bn N (one_words N).
Proof.
  intros H. unfold one_words. split; [simpl; rewrite length_replicate; lia |].
  apply words_cons. split; [unfold is_u32; lia | auto with word].
Qed.

Lemma bn_zero N : bn N (replicate N 0).
Proof. split; [apply length_replicate | auto with word]. Qed.

Lemma bn_take_all N A : bn N A -> take N A = A.
Proof. intros [<- _]. apply firstn_all. Qed.

(** Splitting an array at a word. *)
Lemma bval_split n A : (n <= length A)%nat -> bval A = bval (take n A) + W n * bval (drop n A).
Proof.
  intros H. rewrite <- (take_drop n A) at 1. rewrite bval_app, length_take, Nat.min_l by done. done.
Qed.

Lemma take_S_nth n (A : list Z) : (n < length A)%nat -> take (S n) A = take n A ++ [nth n A 0].
Proof.
  revert n. induction A as [|a A IH]; intros [|n]; simpl; try lia; auto.
  intros H. rewrite (IH n) by lia. done.
Qed.

Lemma bval_take_S n A : (n < length A)%nat -> bval (take (S n) A) = bval (take n A) + W n * nth n A 0.
Proof.
  intros H. rewrite take_S_nth, bval_app by done. rewrite length_take, Nat.min_l by lia. simpl. lia.
Qed.

(** A bit of the number is the bit of the word that holds it. *)
Lemma testbit_bval A i : words A -> 0 <= i ->
  Z.testbit (bval A) i = Z.testbit (word A (i / 32)) (i mod 32).
Proof.
  intros H. revert i. induction H as [|a A Ha HA IH]; intros i Hi.
  - unfold word. replace (nth _ [] 0) with 0 by (by destruct (Z.to_nat _)). by rewrite !Z.bits_0.
  - simpl bval. unfold is_u32 in Ha. rewrite Z.add_comm, (Z.mul_comm BASE), <- lor_mul_pow2_small by lia.
    rewrite Z.lor_spec. destruct (Z.lt_ge_cases i 32) as [L | L].
    + rewrite Z.mul_pow2_bits_low, Z.div_small, Z.mod_small by lia. done.
    + rewrite Z.mul_pow2_bits by lia. rewrite IH by lia.
      replace (i / 32) with ((i - 32) / 32 + 1) by (rewrite <- Z.div_add by lia; f_equal; lia).
      replace (i mod 32) with ((i - 32) mod 32)
        by (rewrite <- (Z.mod_add (i - 32) 1 32) by lia; f_equal; lia).
      rewrite (Z.bits_above_log2 a i), orb_false_r by (try apply Z.lt_le_trans with 32; auto using log2_u32; lia).
      unfold word. rewrite Z2Nat.inj_add by (auto with zarith; apply Z.div_pos; lia).
      rewrite Nat.add_comm. done.
Qed.

Lemma BnBit_testbit A i : words A -> 0 <= i -> BnBit A i = Z.b2z (Z.testbit (bval A) i).
Proof.
  intros HA Hi. unfold BnBit. rewrite testbit_bval by done.
  change 1 with (Z.ones 1). rewrite Z.land_ones, Z.shiftr_div_pow2 by (try apply Z.mod_pos_bound; lia).
  change (2 ^ 1) with 2. rewrite <- Z.testbit_spec' by (apply Z.mod_pos_bound; lia). done.
Qed.

(** ** The word loops *)

Lemma BnCompare_cases A B N : words A -> words B -> (N <= length A)%nat -> (N <= length B)%nat ->
  BnCompare A B N = match bval (take N A) ?= bval (take N B) with
                    | Eq => 0 | Lt => MINUS_ONE | Gt => 1 end.
Proof.
  intros HA HB. induction N as [|n IH]; intros La Lb; [done |].
  simpl BnCompare. rewrite !bval_take_S by lia.
  pose proof (bval_bound (take n A) ltac:(auto with word)) as Ba.
  pose proof (bval_bound (take n B) ltac:(auto with word)) as Bb.
  rewrite length_take, Nat.min_l in Ba, Bb by lia.
  pose proof (W_pos n). rewrite IH by lia.
  destruct (Z.eqb_spec (nth n A 0) (nth n B 0)) as [E | E]; cbn [negb].
  - rewrite E, !(Z.add_comm (bval _)), Z.add_compare_mono_l. done.
  - destruct (Z.ltb_spec (nth n B 0) (nth n A 0)).
    + rewrite (proj2 (Z.compare_gt_iff _ _)); [done | nia].
    + rewrite (proj2 (Z.compare_lt_iff _ _)); [done | nia].
Qed.

Lemma BnCompare_below A B N : words A -> words B -> (N <= length A)%nat -> bn N B ->
  (BnCompare A B N =? MINUS_ONE) = (bval (take N A) <? bval B).
Proof.
  intros HA HB La Hn. rewrite BnCompare_cases by (try done; destruct Hn; lia).
  rewrite (bn_take_all N B) by done. unfold Z.ltb. by destruct (_ ?= _).
Qed.

Lemma sub_loop_spec A B c r c' : length A = length B -> words A -> words B -> 0 <= c <= 1 ->
  sub_loop A B c = (r, c') ->
  bn (length A) r /\ 0 <= c' <= 1 /\ bval r = bval A - bval B - c + c' * W (length A).
Proof.
  revert B c r c'. induction A as [|a A IH]; intros [|b B] c r c' L HA HB Hc E; simpl in E; try discriminate L.
  - injection E as <- <-. simpl. split; [split; [done | constructor] | lia].
  - apply words_cons in HA as [Ha HA]. apply words_cons in HB as [Hb HB]. unfold is_u32 in Ha, Hb.
    set (D := u64 (a - b - c)) in *.
    assert (HD : exists k, (0 <= k <= 1 /\ 0 <= a - b - c + k * BASE < BASE) /\ D = a - b - c + k * 2 ^ 64 /\ Z.land (Z.shiftr D 32) 1 = k).
    { unfold D, u64. exists (if a - b - c <? 0 then 1 else 0). destruct (Z.ltb_spec (a - b - c) 0) as [L0 | L0].
      - replace ((a - b - c) mod 2 ^ 64) with (a - b - c + 2 ^ 64)
          by (rewrite <- (Z.mod_add (a - b - c) 1), Z.mod_small; lia).
        split; [lia | split; [lia |]]. change 1 with (Z.ones 1) at 1. rewrite Z.land_ones, Z.shiftr_div_pow2 by lia.
        replace ((a - b - c + 2 ^ 64) / 2 ^ 32) with (2 ^ 32 - 1); [done |].
        apply (Z.div_unique _ _ _ (a - b - c + 2 ^ 32)); lia.
      - rewrite Z.mod_small by lia. split; [lia | split; [lia |]].
        rewrite Z.shiftr_div_pow2, Z.div_small by lia. done. }
    destruct HD as (k & [Hk Hk'] & ED & Ek). rewrite Ek in E.
    destruct (sub_loop A B k) as [r1 c1] eqn:E1. injection E as <- <-.
    injection L as L. destruct (IH B k r1 c1) as ([Lr Hr] & Hc1 & V); try done.
    assert (EU : u32 D = a - b - c + k * BASE).
    { unfold u32. symmetry. apply (Z.mod_unique_pos _ _ (k * (2 ^ 32 - 1))); lia. }
    split; [split; [simpl; lia | apply words_cons; auto with word] |]. split; [done |].
    simpl length. rewrite W_S. simpl bval. rewrite V, EU. lia.
Qed.

Lemma double_loop_spec A c r c' : words A -> 0 <= c <= 1 -> double_loop A c = (r, c') ->
  bn (length A) r /\ 0 <= c' <= 1 /\ bval r = 2 * bval A + c - c' * W (length A).
Proof.
  revert c r c'. induction A as [|a A IH]; intros c r c' HA Hc E; simpl in E.
  - injection E as <- <-. simpl. split; [split; [done | constructor] | lia].
  - apply words_cons in HA as [Ha HA]. unfold is_u32 in Ha.
    assert (Hk : 0 <= Z.shiftr a 31 <= 1).
    { rewrite Z.shiftr_div_pow2 by lia. split; [apply Z.div_pos; lia |].
      apply Z.lt_succ_r, Z.div_lt_upper_bound; lia. }
    destruct (double_loop A (Z.shiftr a 31)) as [r1 c1] eqn:E1. injection E as <- <-.
    destruct (IH _ _ _ HA Hk E1) as ([Lr Hr] & Hc1 & V).
    assert (EU : Z.lor (shl32 a 1) c = 2 * a + c - Z.shiftr a 31 * BASE).
    { unfold shl32, u32. rewrite Z.shiftl_mul_pow2, Z.shiftr_div_pow2 by lia.
      change (2 ^ 32) with (2 ^ 31 * 2 ^ 1) at 1. rewrite Z.mul_mod_distr_r by lia.
      rewrite lor_mul_pow2_small by lia. pose proof (Z.div_mod a (2 ^ 31)). lia. }
    rewrite EU in *. assert (is_u32 (2 * a + c - Z.shiftr a 31 * BASE)).
    { unfold is_u32. rewrite Z.shiftr_div_pow2 by lia.
      pose proof (Z.div_mod a (2 ^ 31)). pose proof (Z.mod_pos_bound a (2 ^ 31)). lia. }
    split; [split; [simpl; lia | by apply words_cons] |]. split; [done |].
    simpl length. rewrite W_S. simpl bval. rewrite V. lia.
Qed.

(** The value a 64-bit accumulation splits into. *)
Lemma acc_split x : 0 <= x < 2 ^ 64 -> u32 (u64 x) + BASE * Z.shiftr (u64 x) 32 = x /\ is_u32 (Z.shiftr (u64 x) 32).
Proof.
  intros H. unfold u64. rewrite (Z.mod_small x) by done. rewrite Z.shiftr_div_pow2 by lia. unfold u32, is_u32.
  pose proof (Z.div_mod x (2 ^ 32)). split; [lia |].
  split; [apply Z.div_pos; lia | apply Z.div_lt_upper_bound; lia].
Qed.

Lemma mac_loop_spec A T b c r c' : length A = length T -> words A -> words T -> is_u32 b -> is_u32 c ->
  mac_loop A T b c = (r, c') ->
  bn (length A) r /\ is_u32 c' /\ bval r + W (length A) * c' = bval A * b + bval T + c.
Proof.
  revert T c r c'. induction A as [|a A IH]; intros [|t T] c r c' L HA HT Hb Hc E; simpl in E; try discriminate L.
  - injection E as <- <-. simpl. split; [split; [done | constructor] |]. split; [done | lia].
  - apply words_cons in HA as [Ha HA]. apply words_cons in HT as [Ht HT].
    assert (HR : 0 <= c + (a * b + t) < 2 ^ 64) by (unfold is_u32 in *; nia).
    destruct (acc_split _ HR) as [V1 V2]. set (C := u64 (c + (a * b + t))) in *.
    destruct (mac_loop A T b (Z.shiftr C 32)) as [r1 c1] eqn:E1. injection E as <- <-.
    injection L as L. destruct (IH T (Z.shiftr C 32) r1 c1) as ([Lr Hr] & Hc1 & V); try done.
    split; [split; [simpl; lia | apply words_cons; auto with word] |]. split; [done |].
    simpl length. rewrite W_S. simpl bval. nia.
Qed.

Lemma add_loop_spec A B c r c' : length A = length B -> words A -> words B -> 0 <= c <= 1 ->
  add_loop A B c = (r, c') ->
  bn (length A) r /\ 0 <= c' <= 1 /\ bval r + W (length A) * c' = bval A + bval B + c.
Proof.
  revert B c r c'. induction A as [|a A IH]; intros [|b B] c r c' L HA HB Hc E; simpl in E; try discriminate L.
  - injection E as <- <-. simpl. split; [split; [done | constructor] | lia].
  - apply words_cons in HA as [Ha HA]. apply words_cons in HB as [Hb HB].
    assert (HR : 0 <= c + (a + b) < 2 ^ 64) by (unfold is_u32 in *; lia).
    destruct (acc_split _ HR) as [V1 V2]. set (C := u64 (c + (a + b))) in *.
    destruct (add_loop A B (Z.shiftr C 32)) as [r1 c1] eqn:E1. injection E as <- <-.
    pose proof (u32_range C). unfold is_u32 in Ha, Hb, V2.
    injection L as L. destruct (IH B (Z.shiftr C 32) r1 c1) as ([Lr Hr] & Hc1 & V); try done; [lia |].
    split; [split; [simpl; lia | apply words_cons; auto with word] |]. split; [done |].
    simpl length. rewrite W_S. simpl bval. nia.
Qed.

(** ** The routines compute the integer operations *)

Lemma BnSubtract_spec N A B : bn N A -> bn N B ->
  bn N (fst (BnSubtract A B N)) /\ 0 <= snd (BnSubtract A B N) <= 1 /\
  bval (fst (BnSubtract A B N)) = bval A - bval B + snd (BnSubtract A B N) * W N.
Proof.
  intros HA HB. unfold BnSubtract. rewrite !bn_take_all by done.
  destruct HA as [La HA], HB as [Lb HB]. destruct (sub_loop A B 0) as [r c] eqn:E.
  apply sub_loop_spec in E as ((Lr & Hr) & Hc & V); try done; try lia. rewrite La in *.
  simpl. rewrite drop_ge, app_nil_r by lia. split; [done |]. split; [done | lia].
Qed.

(** Subtracting a number not above the other, when the difference fits,
    gives the difference even if the minuend had lost a carry. *)
Lemma BnSubtract_fits N A B k : bn N A -> bn N B -> 0 <= bval A - bval B + k * W N < W N ->
  bn N (fst (BnSubtract A B N)) /\ bval (fst (BnSubtract A B N)) = bval A - bval B + k * W N.
Proof.
  intros HA HB Hd. destruct (BnSubtract_spec N A B HA HB) as (Hr & Hc & V). split; [done |].
  pose proof (bn_bound _ _ Hr). pose proof (W_pos N).
  set (s := snd _) in *. assert (s = k); [| congruence].
  destruct (Z.lt_total s k) as [? | [? | ?]]; [nia | done | nia].
Qed.

Lemma BnAdd_spec N A B : bn N A -> bn N B ->
  bn N (fst (BnAdd A B N)) /\ 0 <= snd (BnAdd A B N) <= 1 /\
  bval (fst (BnAdd A B N)) + W N * snd (BnAdd A B N) = bval A + bval B.
Proof.
  intros HA HB. unfold BnAdd. rewrite !bn_take_all by done.
  destruct HA as [La HA], HB as [Lb HB]. destruct (add_loop A B 0) as [r c] eqn:E.
  apply add_loop_spec in E as ((Lr & Hr) & Hc & V); try done; try lia. rewrite La in *.
  simpl. rewrite drop_ge, app_nil_r, u32_id by lia. split; [done |]. split; [done | lia].
Qed.

(** [BnDoubleMod] keeps its operand at or below the modulus, strictly below
    when it started so. *)
Lemma BnDoubleMod_spec N A Bit M : bn N A -> bn N M -> 0 <= Bit <= 1 -> bval A <= bval M -> 2 * bval A + Bit <= 2 * bval M ->
  let R := BnDoubleMod A Bit M N in
  bn N R /\ (2 * bval A + Bit < 2 * bval M -> bval R < bval M) /\ bval R <= bval M /\
  bval R mod bval M = (2 * bval A + Bit) mod bval M.
Proof.
  intros HA HM HBit Hle Hle2 R. subst R. unfold BnDoubleMod. rewrite (bn_take_all N A) by done.
  pose proof (bn_bound _ _ HA) as BA. pose proof (bn_bound _ _ HM) as BM. pose proof HA as [La Wa].
  destruct (double_loop A Bit) as [r c] eqn:E.
  apply double_loop_spec in E as (Hr & Hc & V); try done. rewrite La in *.
  rewrite drop_ge, app_nil_r by lia. pose proof Hr as [Lr Wr]. pose proof HM as [Lm Wm].
  rewrite BnCompare_below by (try done; lia). rewrite bn_take_all by done. pose proof (bn_bound _ _ Hr) as Br.
  destruct (negb (c =? 0) || negb (bval r <? bval M)) eqn:Eb.
  - destruct (BnSubtract_fits N r M c) as [H1 H2]; try done.
    { apply orb_true_iff in Eb as [Eb | Eb].
      - apply negb_true_iff, Z.eqb_neq in Eb. nia.
      - apply negb_true_iff, Z.ltb_ge in Eb. nia. }
    split; [done |]. rewrite H2. split; [lia | split; [lia |]].
    replace (bval r - bval M + c * W N) with (2 * bval A + Bit + (-1) * bval M) by lia.
    destruct (Z.eq_dec (bval M) 0) as [E0 | E0]; [rewrite E0; f_equal; lia |]. by rewrite Z.mod_add.
  - apply orb_false_iff in Eb as [E1 E2].
    apply negb_false_iff, Z.eqb_eq in E1. apply negb_false_iff, Z.ltb_lt in E2. subst c.
    split; [done |]. split; [lia |]. split; [lia |]. f_equal. lia.
Qed.

(** Shifting the top [i] bits in keeps the prefix reduced. *)
Lemma reduce_loop_spec N V M i R : words V -> bn N M -> bn N R -> 0 <= bval R < bval M ->
  bval R = bval V / 2 ^ Z.of_nat i mod bval M ->
  let R' := reduce_loop V M N i R in
  bn N R' /\ bval R' = bval V mod bval M.
Proof.
  intros HV HM. revert R. induction i as [|i IH]; intros R HR Hb E; simpl.
  - split; [done |]. rewrite E. simpl. by rewrite Z.div_1_r.
  - pose proof (bn_bound _ _ HM) as BM.
    rewrite BnBit_testbit by (try done; lia).
    assert (Hbit : 0 <= Z.b2z (Z.testbit (bval V) (Z.of_nat i)) <= 1) by (destruct (Z.testbit _ _); simpl; lia).
    destruct (BnDoubleMod_spec N R _ M HR HM Hbit) as (H1 & H2 & H3 & H4); [lia | lia |].
    apply IH; try done.
    + pose proof (bn_bound _ _ H1). lia.
    + specialize (H2 ltac:(lia)). pose proof (bn_bound _ _ H1). rewrite Z.mod_small in H4 by lia. rewrite H4, E.
      rewrite Z.add_mod, Z.mul_mod_idemp_r, <- Z.add_mod by lia. f_equal.
      rewrite Z.testbit_spec' by lia.
      rewrite Nat2Z.inj_succ, Z.pow_succ_r, (Z.mul_comm 2 (2 ^ _)), <- Z.div_div by lia.
      symmetry. apply Z.div_mod. lia.
Qed.

Lemma BnReduce_spec N V k M : words V -> (length V <= k)%nat -> bn N M -> 0 < bval M ->
  bn N (BnReduce V k M N) /\ bval (BnReduce V k M N) = bval V mod bval M.
Proof.
  intros HV Lk HM Hm. unfold BnReduce. apply reduce_loop_spec; try done.
  - apply bn_zero.
  - rewrite bval_zero. lia.
  - rewrite bval_zero, <- W_bits. pose proof (bval_bound V HV).
    assert (W (length V) <= W k) by (apply Z.pow_le_mono_r; lia).
    rewrite Z.div_small by lia. by rewrite Z.mod_0_l by lia.
Qed.

(** ** Montgomery multiplication *)

(** [MInv] is the negated inverse of the modulus' low word. *)
Definition mont_inv (M : list Z) (MInv : Z) : Prop := (MInv * nth 0 M 0 + 1) mod BASE = 0.

Lemma bn_cons N A : (0 < N)%nat -> bn N A ->
  exists a A', A = a :: A' /\ is_u32 a /\ bn (N - 1) A'.
Proof.
  intros HN [L H]. destruct A as [|a A']; simpl in L; [lia |].
  apply words_cons in H as [Ha HA]. exists a, A'. split; [done |]. split; [done |]. split; [lia | done].
Qed.

(** The factor makes the low word of the sum vanish. *)
Lemma mont_factor x m0 MInv : is_u32 x -> is_u32 m0 -> (MInv * m0 + 1) mod BASE = 0 ->
  let f := mul32 x MInv in
  BASE * Z.shiftr (u64 (f * m0 + x)) 32 = f * m0 + x /\ is_u32 (Z.shiftr (u64 (f * m0 + x)) 32).
Proof.
  intros Hx Hm E f. subst f. set (f := mul32 x MInv).
  pose proof (u32_range (x * MInv)) as Hf. fold (mul32 x MInv) in Hf. fold f in Hf.
  unfold is_u32 in Hx, Hm. assert (HR : 0 <= f * m0 + x < 2 ^ 64) by nia.
  destruct (acc_split _ HR) as [V1 V2]. split; [| done].
  assert (E0 : u32 (u64 (f * m0 + x)) = 0); [| lia].
  unfold u64, u32. rewrite (Z.mod_small _ (2 ^ 64)) by done. unfold f, mul32, u32.
  rewrite Z.add_mod, Z.mul_mod_idemp_l, <- Z.add_mod by lia.
  replace (x * MInv * m0 + x) with (x * (MInv * m0 + 1)) by ring.
  rewrite Z.mul_mod, E, Z.mul_0_r by lia. done.
Qed.

(** The arithmetic of one round: the row added, then the multiple of the
    modulus that clears the low word, shifted down one word. *)
Lemma mont_arith b w x v0 TN TN1 S c2 f m0 v1 c3 vm c4l c4h :
  x + b * v0 + b * w * TN + b * (b * w) * TN1 = S -> b * c2 = f * m0 + x ->
  v1 + w * c3 = vm * f + v0 + c2 -> c4l + b * c4h = c3 + TN ->
  (v1 + w * c4l + b * w * (TN1 + c4h)) * b = S + f * (m0 + b * vm).
Proof.
  intros <- V2 V3 V4. replace c4l with (c3 + TN - b * c4h) by lia.
  replace v1 with (vm * f + v0 + c2 - w * c3) by lia.
  replace (x + b * v0 + b * w * TN + b * (b * w) * TN1 + f * (m0 + b * vm))
    with (b * c2 + b * v0 + b * w * TN + b * (b * w) * TN1 + f * (b * vm)) by (rewrite V2; ring).
  ring.
Qed.

Lemma mont_bound base t' t a b f m : 0 < base -> 0 <= t < a + m -> 0 <= a -> 0 <= m -> 0 <= b < base -> 0 <= f < base ->
  t' * base = t + a * b + f * m -> t' < a + m.
Proof.
  intros Hb Ht Ha Hm Hb' Hf E. assert (a * b <= a * (base - 1)) by nia. assert (f * m <= (base - 1) * m) by nia. nia.
Qed.

Section mont.
Context (N : nat) (A M : list Z) (MInv : Z).
Context (HN : (0 < N)%nat) (HA : bn N A) (HM : bn N M) (HI : mont_inv M MInv) (HAM : bval A <= bval M).

(** The accumulator between rounds: [N + 2] words, of which the low [N + 1]
    hold a value below [A + M]. *)
Definition mont_acc (T : list Z) (t : Z) : Prop :=
  bn (N + 2) T /\ bval (take (N + 1) T) = t /\ 0 <= t < bval A + bval M.

Lemma mont_first_row T b T0 C0 : bn (N + 2) T -> is_u32 b -> mac_loop A (take N T) b 0 = (T0, C0) ->
  let C1 := u64 (C0 + nth N T 0) in
  bn N T0 /\ is_u32 (Z.shiftr C1 32) /\
  bval T0 + W N * u32 C1 + W (N + 1) * Z.shiftr C1 32 = bval A * b + bval (take (N + 1) T).
Proof.
  intros [LT WT] Hb E C1. subst C1. pose proof HA as [LA WA].
  apply mac_loop_spec in E as (H0 & HC & V);
    try solve [done | rewrite length_take; lia | auto with word | unfold is_u32; lia].
  rewrite LA in *. pose proof (words_nth T N WT) as HTN.
  assert (HR : 0 <= C0 + nth N T 0 < 2 ^ 64) by (unfold is_u32 in *; lia).
  destruct (acc_split _ HR) as [V1 V2]. split; [done |]. split; [done |].
  replace (N + 1)%nat with (S N) by lia. rewrite bval_take_S by lia. rewrite W_S. nia.
Qed.

Lemma mont_round_spec T t b : mont_acc T t -> is_u32 b ->
  exists t' f, mont_acc (mont_round A M MInv N b T) t' /\ 0 <= f /\ t' * BASE = t + bval A * b + f * bval M.
Proof.
  intros (HT & Et & Ht) Hb. unfold mont_round.
  destruct (mac_loop A (take N T) b 0) as [T0 C0] eqn:E0.
  apply mont_first_row in E0 as (H0 & HTN1 & V0); try done. rewrite Et in V0.
  set (C1 := u64 (C0 + nth N T 0)) in *. rewrite (u32_id (Z.shiftr C1 32)) by apply HTN1.
  set (TN := u32 C1) in *. set (TN1 := Z.shiftr C1 32) in *.
  destruct (bn_cons N T0 HN H0) as (x & T0' & -> & Hx & H0').
  destruct (bn_cons N M HN HM) as (m0 & M' & EM & Hm0 & HM'). unfold mont_inv in HI. rewrite EM in *. cbn [nth drop] in *.
  destruct (mont_factor x m0 MInv Hx Hm0 HI) as [V2 HC2].
  set (f := mul32 x MInv) in *. set (C2 := Z.shiftr (u64 (f * m0 + x)) 32) in *.
  assert (Hf : is_u32 f) by apply u32_range. rewrite !drop_0.
  destruct (mac_loop M' T0' f C2) as [T1 C3] eqn:E1.
  apply mac_loop_spec in E1 as (H1 & HC3 & V3); [| destruct HM', H0'; lia | apply HM' | apply H0' | done | done].
  destruct HM' as [LM' WM']. rewrite LM' in *. destruct H1 as [L1 W1].
  assert (HR : 0 <= C3 + TN < 2 ^ 64).
  { pose proof (u32_range C1). fold TN in H. unfold is_u32 in HC3. lia. }
  destruct (acc_split _ HR) as [V4 HC4]. set (C4 := u64 (C3 + TN)) in *. rewrite (u32_id (Z.shiftr C4 32)) by apply HC4.
  set (t' := bval T1 + W (N - 1) * u32 C4 + W N * (TN1 + Z.shiftr C4 32)).
  cbn [bval] in V0, Ht |- *.
  assert (EW : W N = BASE * W (N - 1)) by (rewrite <- W_S; f_equal; lia).
  assert (EW1 : W (N + 1) = BASE * W N) by (rewrite <- W_S; f_equal; lia).
  assert (V : t' * BASE = t + bval A * b + f * (m0 + BASE * bval M')) by (rewrite EW1, EW in V0; unfold t'; rewrite EW; rewrite (Z.add_comm t); by eapply mont_arith).
  pose proof (bn_bound N A HA) as BA. pose proof (bn_bound N _ HM) as BM. cbn [bval] in BM.
  pose proof (u32_range C4). pose proof (bval_bound T1 W1) as B1. pose proof (W_pos (N - 1)).
  assert (Bt : t' < bval A + (m0 + BASE * bval M')).
  { apply (mont_bound BASE t' t (bval A) b f); try done; lia. }
  assert (B0 : 0 <= bval T1 + W (N - 1) * u32 C4) by nia.
  assert (BS : 0 <= TN1 + Z.shiftr C4 32 < 2 ^ 32).
  { unfold is_u32 in HTN1, HC4. split; [lia |]. unfold t' in Bt. clear - Bt B0 BA BM. nia. }
  assert (Bt0 : 0 <= t') by (unfold t'; nia).
  exists t', f. split; [| unfold is_u32 in Hf; split; [lia | done]].
  unfold add32. rewrite (u32_id (TN1 + _)) by done.
  split; [split; [rewrite length_app; simpl; lia |] | split; [| rewrite EM; by split]].
  { apply words_app. split; [done |]. rewrite !words_cons. repeat split; auto; try apply u32_range; try apply BS; try apply HTN1. constructor. }
  rewrite take_app, (take_ge T1), L1 by lia. replace (N + 1 - (N - 1))%nat with 2%nat by lia.
  rewrite bval_app, L1. cbn [take bval]. unfold t'. rewrite EW. ring.
Qed.

Lemma mont_rounds_spec B T t : words B -> mont_acc T t ->
  exists t' k, mont_acc (fold_left (fun T b => mont_round A M MInv N b T) B T) t' /\
    t' * W (length B) = t + bval A * bval B + k * bval M.
Proof.
  revert T t. induction B as [|b B IH]; intros T t HB HT.
  - exists t, 0. split; [done |]. simpl. lia.
  - apply words_cons in HB as [Hb HB]. destruct (mont_round_spec T t b HT Hb) as (t1 & f & H1 & Hf & V1).
    destruct (IH _ _ HB H1) as (t' & k & H2 & V2). exists t', (f + BASE * k). split; [done |].
    simpl length. rewrite W_S. cbn [bval]. nia.
Qed.

(** The Montgomery product, for any multiplier and a multiplicand not above
    the modulus. *)
Lemma BnMontMul_spec B : bn N B -> 0 < bval M ->
  let R := take N (BnMontMul A B M MInv N) in
  bn N R /\ 0 <= bval R < bval M /\ (bval R * W N) mod bval M = (bval A * bval B) mod bval M.
Proof.
  intros HB Hm R. subst R. unfold BnMontMul. rewrite (bn_take_all N B) by done.
  assert (HT0 : mont_acc (replicate (N + 2) 0) 0).
  { split; [apply bn_zero |]. rewrite take_replicate, bval_zero. split; [done |].
    pose proof (bn_bound N A HA). lia. }
  destruct (mont_rounds_spec B _ _ (proj2 HB) HT0) as (t & k & ([LT WT] & Et & Bt) & V).
  set (T := fold_left _ B _) in *. rewrite (proj1 HB) in V.
  replace (N + 1)%nat with (S N) in Et by lia. rewrite bval_take_S in Et by lia.
  pose proof HM as [LM WM]. rewrite BnCompare_below by (try done; lia).
  assert (HTk : bn N (take N T)) by (split; [rewrite length_take; lia | auto with word]).
  pose proof (bn_bound _ _ HTk) as BT. pose proof (bn_bound _ _ HM) as BM. pose proof (words_nth T N WT) as HTN.
  assert (Hcong : forall j, ((t + j * bval M) * W N) mod bval M = (bval A * bval B) mod bval M).
  { intros j. replace ((t + j * bval M) * W N) with (bval A * bval B + (k + j * W N) * bval M) by nia.
    apply Z.mod_add. lia. }
  destruct (negb (nth N T 0 =? 0) || negb (bval (take N T) <? bval M)) eqn:Eb.
  - assert (ES : take N (fst (BnSubtract T M N)) = fst (BnSubtract (take N T) M N)).
    { unfold BnSubtract. rewrite take_take, Nat.min_id. rewrite (bn_take_all N M) by done.
      destruct (sub_loop (take N T) M 0) as [r c] eqn:E. simpl.
      apply sub_loop_spec in E as ((Lr & _) & _); [| rewrite length_take; lia | auto with word | done | lia].
      rewrite length_take in Lr. rewrite take_app_length' by lia. rewrite drop_ge, app_nil_r; [done |].
      rewrite length_take. lia. }
    rewrite ES. destruct (BnSubtract_fits N (take N T) M (nth N T 0)) as [H1 H2]; try done.
    { apply orb_true_iff in Eb as [Eb | Eb].
      - apply negb_true_iff, Z.eqb_neq in Eb. unfold is_u32 in HTN. nia.
      - apply negb_true_iff, Z.ltb_ge in Eb. unfold is_u32 in HTN. nia. }
    split; [done |]. rewrite H2. rewrite <- (Hcong (-1)). split; [| f_equal; nia].
    pose proof (bn_bound _ _ H1). lia.
  - apply orb_false_iff in Eb as [E1 E2].
    apply negb_false_iff, Z.eqb_eq in E1. apply negb_false_iff, Z.ltb_lt in E2.
    split; [done |]. split; [lia |]. rewrite <- (Hcong 0). f_equal. nia.
Qed.
End mont.

(** ** Schoolbook products *)

Lemma mul_row_spec A N P Q k b : bn N A -> words P -> bn N Q -> is_u32 b ->
  exists R c, mul_row A N (P ++ Q ++ replicate (S k) 0) (length P) b = P ++ R ++ c :: replicate k 0 /\
    bn N R /\ is_u32 c /\ bval R + W N * c = bval A * b + bval Q.
Proof.
  intros HA HP [LQ WQ] Hb. unfold mul_row.
  rewrite drop_app_length, take_app_length, (take_app_length' Q) by lia. pose proof HA as [LA WA].
  destruct (mac_loop A Q b 0) as [R c] eqn:E. exists R, c.
  apply mac_loop_spec in E as (HR & Hc & V); try solve [done | lia | unfold is_u32; lia]. rewrite LA in *.
  split; [| split; [done | split; [done | lia]]]. do 3 f_equal.
  rewrite drop_app_ge by lia. replace (length P + N + 1 - length P)%nat with (N + 1)%nat by lia.
  rewrite drop_app_ge by lia. rewrite LQ. replace (N + 1 - N)%nat with 1%nat by lia. done.
Qed.

Lemma mul_rows_spec A B N P Q k : (0 < N)%nat -> bn N A -> words B -> words P -> bn N Q -> length B = k ->
  let S := P ++ Q ++ replicate k 0 in
  let S' := mul_rows A B N (length P) S in
  bn (length P + N + k) S' /\ bval S' = bval S + W (length P) * (bval A * bval B).
Proof.
  intros HN HA. revert P Q k. induction B as [|b B IH]; intros P Q k HB HP HQ Hk; cbn [mul_rows bval].
  - subst k. destruct HQ as [LQ WQ]. split; [| lia].
    split; [rewrite !length_app; simpl; lia |]. rewrite !words_app. auto with word.
  - simpl in Hk. destruct k as [|k]; [lia |]. apply words_cons in HB as [Hb HB].
    destruct (mul_row_spec A N P Q k b HA HP HQ Hb) as (R & c & -> & HR & Hc & V).
    destruct (bn_cons N R HN HR) as (x & R' & -> & Hx & [LR' WR']).
    specialize (IH (P ++ [x]) (R' ++ [c]) k HB).
    replace (P ++ (x :: R') ++ c :: replicate k 0) with ((P ++ [x]) ++ (R' ++ [c]) ++ replicate k 0)
      by (rewrite <- !app_assoc; done).
    rewrite length_app in IH. cbn [length] in IH.
    destruct IH as [[L1 W1] V1]; [apply words_app; split; [done | by apply Forall_singleton]
      | split; [rewrite length_app; simpl; lia | apply words_app; split; [done | by apply Forall_singleton]] | lia |].
    split; [split; [rewrite L1; lia | done] |]. rewrite V1. destruct HQ as [LQ WQ].
    rewrite !bval_app, !length_app, !bval_zero, LR', LQ, W_add. cbn [length bval] in *.
    replace (W 1) with BASE by done. rewrite !Z.mul_0_r, !Z.add_0_r in *.
    assert (EW : W N = BASE * W (N - 1)) by (rewrite <- W_S; f_equal; lia). rewrite EW in V.
    rewrite W_add. change (W 1) with BASE.
    replace (bval Q) with (x + BASE * bval R' + BASE * W (N - 1) * c - bval A * b) by lia. ring.
Qed.

Lemma product_spec A B N : (0 < N)%nat -> bn N A -> bn N B ->
  let P := mul_rows A (take N B) N 0 (replicate (2 * N) 0) in
  bn (2 * N) P /\ bval P = bval A * bval B.
Proof.
  intros HN HA HB P. subst P. rewrite (bn_take_all N B) by done. destruct HB as [LB WB].
  destruct (mul_rows_spec A B N [] (replicate N 0) N HN HA WB) as [H1 H2];
    [constructor | apply bn_zero | done |].
  cbn [app length] in *. rewrite <- replicate_add in *. replace (N + N)%nat with (2 * N)%nat in * by lia.
  replace (0 + N + N)%nat with (2 * N)%nat in H1 by lia. split; [exact H1 |]. rewrite H2, bval_zero. change (W 0) with 1. lia.
Qed.

Lemma BnMultiply_spec A B N : (0 < N)%nat -> bn N A -> bn N B ->
  bn (2 * N) (BnMultiply A B N) /\ bval (BnMultiply A B N) = bval A * bval B.
Proof. intros. by apply product_spec. Qed.

Lemma BnMulMod_spec A B M N : (0 < N)%nat -> bn N A -> bn N B -> bn N M -> 0 < bval M ->
  bn N (BnMulMod A B M N) /\ bval (BnMulMod A B M N) = (bval A * bval B) mod bval M.
Proof.
  intros HN HA HB HM Hm. destruct (product_spec A B N HN HA HB) as [[L1 W1] V1].
  unfold BnMulMod. rewrite <- V1. apply BnReduce_spec; try done. lia.
Qed.

Lemma BnIsZero_spec A N : words A -> (N <= length A)%nat -> BnIsZero A N = (bval (take N A) =? 0).
Proof.
  intros HA. induction N as [|n IH]; intros L; [done |].
  simpl BnIsZero. rewrite IH by lia. rewrite bval_take_S by lia.
  pose proof (words_nth A n HA). pose proof (bval_bound (take n A) ltac:(auto with word)).
  pose proof (W_pos n). unfold is_u32 in *.
  destruct (Z.eqb_spec (nth n A 0) 0) as [E | E]; cbn [negb].
  - rewrite E, Z.mul_0_r, Z.add_0_r. done.
  - symmetry. apply Z.eqb_neq. nia.
Qed.

(** ** The exponentiation *)

Lemma modulus_zero_spec M N : bn N M -> modulus_zero M N = (bval M =? 0).
Proof.
  intros HM. unfold modulus_zero. rewrite bn_take_all by done. destruct HM as [_ WM].
  induction WM as [|m M Hm WM IH]; simpl; [done |]. rewrite IH. pose proof (bval_bound M WM). unfold is_u32 in Hm.
  destruct (Z.eqb_spec m 0), (Z.eqb_spec (bval M) 0), (Z.eqb_spec (m + 4294967296 * bval M) 0); simpl; lia.
Qed.

(** Each Newton step doubles the number of correct bits. *)
Lemma newton_step m0 x k : 0 <= k <= 16 -> (m0 * x) mod 2 ^ k = 1 mod 2 ^ k ->
  (m0 * mul32 x (sub32 2 (mul32 m0 x))) mod 2 ^ (2 * k) = 1 mod 2 ^ (2 * k).
Proof.
  intros Hk E. assert (0 < 2 ^ k) by (apply Z.pow_pos_nonneg; lia).
  assert (D : (2 ^ (2 * k) | 2 ^ 32)) by (exists (2 ^ (32 - 2 * k)); rewrite <- Z.pow_add_r by lia; f_equal; lia).
  assert (0 < 2 ^ (2 * k)) by (apply Z.pow_pos_nonneg; lia).
  assert (Em : forall y, u32 y mod 2 ^ (2 * k) = y mod 2 ^ (2 * k)).
  { intros y. by apply Z.mod_mod_divide. }
  assert (Hu : forall a y, (a * u32 y) mod 2 ^ (2 * k) = (a * y) mod 2 ^ (2 * k)).
  { intros a y. rewrite <- Z.mul_mod_idemp_r, Em, Z.mul_mod_idemp_r by lia. done. }
  unfold mul32, sub32. rewrite Hu, Z.mul_assoc, Hu.
  replace (m0 * x * (2 - u32 (m0 * x))) with (m0 * x * 2 + - (m0 * x) * u32 (m0 * x)) by ring.
  rewrite Z.add_mod, Hu, <- Z.add_mod by lia.
  apply Z.cong_iff_0 in E. apply Z.mod_divide in E as [q Eq]; [| lia].
  apply Z.cong_iff_0, Z.mod_divide; [lia |]. exists (- q * q).
  replace (2 * k) with (k + k) by lia. rewrite Z.pow_add_r by lia.
  replace (m0 * x * 2 + - (m0 * x) * (m0 * x) - 1) with (- (m0 * x - 1) * (m0 * x - 1)) by ring. rewrite Eq. ring.
Qed.

Lemma newton_inverse m0 : Z.land m0 1 <> 0 -> (m0 * newton m0 5 m0) mod BASE = 1.
Proof.
  intros Hodd. change 1 with (Z.ones 1) in Hodd. rewrite Z.land_ones in Hodd by lia. change (2 ^ 1) with 2 in Hodd.
  assert (E : (m0 * m0) mod 2 ^ 1 = 1 mod 2 ^ 1).
  { change (2 ^ 1) with 2. pose proof (Z.mod_pos_bound m0 2).
    rewrite Z.mul_mod by lia. replace (m0 mod 2) with 1 by lia. done. }
  cbn [newton].
  do 5 (apply newton_step in E; [| lia]; match type of E with context [2 ^ (2 * ?k)] =>
    let z := eval vm_compute in (2 * k) in change (2 * k) with z in E end).
  exact E.
Qed.

Lemma odd_coprime M N : words M -> Z.land (nth 0 M 0) 1 <> 0 -> Z.coprime (W N) (bval M).
Proof.
  intros HM Hodd. rewrite W_bits. apply Z.coprime_pow_l; [lia |]. unfold Z.coprime.
  pose proof (Z.gcd_divide_l 2 (bval M)) as D. pose proof (Z.gcd_divide_r 2 (bval M)) as D2.
  pose proof (Z.gcd_nonneg 2 (bval M)). apply Z.divide_pos_le in D as D1; [| lia].
  assert (C : Z.gcd 2 (bval M) = 0 \/ Z.gcd 2 (bval M) = 1 \/ Z.gcd 2 (bval M) = 2) by lia.
  destruct C as [C | [C | C]]; [rewrite C in D; by destruct D; lia | done |]. exfalso. apply Hodd.
  rewrite C in D2. destruct D2 as [q Eq]. change 1 with (Z.ones 1). rewrite Z.land_ones by lia. change (2 ^ 1) with 2.
  destruct M as [|m M]; [done |]. cbn [nth bval] in *.
  replace m with ((q - 2 ^ 31 * bval M) * 2) by lia. apply Z.mod_mul. lia.
Qed.

(** Cancelling a factor prime to the modulus. *)
Lemma cancel_mod w m a b : 0 < m -> Z.coprime w m -> (a * w) mod m = (b * w) mod m -> a mod m = b mod m.
Proof.
  intros Hm Hw E. apply Z.cong_iff_0, Z.mod_divide in E; [| lia].
  apply Z.cong_iff_0, Z.mod_divide; [lia |]. rewrite <- Z.mul_sub_distr_r, Z.mul_comm in E.
  apply (Z.gauss m w); [done |]. unfold Z.coprime in Hw. by rewrite Z.gcd_comm.
Qed.

Lemma double_n_spec M N n A : bn N M -> bn N A -> bval A <= bval M ->
  bn N (double_n M N n A) /\ bval (double_n M N n A) <= bval M /\
  bval (double_n M N n A) mod bval M = (2 ^ Z.of_nat n * bval A) mod bval M.
Proof.
  intros HM. revert A. induction n as [|n IH]; intros A HA Hle; cbn [double_n].
  - split; [done |]. split; [done |]. f_equal. lia.
  - destruct (BnDoubleMod_spec N A 0 M HA HM ltac:(lia) Hle ltac:(lia)) as (H1 & _ & H3 & H4).
    destruct (IH _ H1 H3) as (H5 & H6 & H7). split; [done |]. split; [done |]. rewrite H7.
    destruct (Z.eq_dec (bval M) 0) as [E0 | E0].
    { pose proof (bn_bound _ _ HA). pose proof (bn_bound _ _ H1). replace (bval A) with 0 by lia.
      replace (bval (BnDoubleMod A 0 M N)) with 0 by lia. by rewrite !Z.mul_0_r. }
    rewrite Z.mul_mod, H4, <- Z.mul_mod by lia. f_equal. rewrite Nat2Z.inj_succ, Z.pow_succ_r by lia. ring.
Qed.

Lemma exp_bits_spec E n : words E ->
  bval E mod 2 ^ Z.of_nat (exp_bits E n) = bval E mod 2 ^ Z.of_nat n.
Proof.
  intros HE. induction n as [|n IH]; [done |]. cbn [exp_bits].
  destruct (Z.eqb_spec (BnBit E (Z.of_nat n)) 0) as [E0 | E0]; [| done]. rewrite IH.
  rewrite BnBit_testbit, Z.testbit_spec' in E0 by (try done; lia).
  rewrite Nat2Z.inj_succ, Z.pow_succ_r by lia. rewrite (Z.mul_comm 2), Z.rem_mul_r by lia. lia.
Qed.

(** The square-and-multiply loop, for any product that represents
    multiplication. *)
Section exp.
Context (mul : list Z -> list Z -> list Z) (rep : Z -> list Z -> Prop).
Context (mul_rep : forall x y a b, rep x a -> rep y b -> rep (x * y) (mul a b)).

Lemma exp_loop_spec E n i Acc Val x v : words E -> 0 <= i -> rep x Acc -> rep v Val ->
  rep (x * v ^ ((bval E / 2 ^ i) mod 2 ^ Z.of_nat n)) (fst (exp_loop mul E n i Acc Val)).
Proof.
  intros HE. revert i Acc Val x v. induction n as [|n IH]; intros i Acc Val x v Hi Hx Hv; cbn [exp_loop].
  - simpl. rewrite Z.mod_1_r, Z.pow_0_r, Z.mul_1_r. done.
  - set (e := bval E / 2 ^ i).
    assert (He : e mod 2 ^ Z.of_nat (S n) = Z.b2z (Z.testbit (bval E) i) + 2 * ((bval E / 2 ^ (i + 1)) mod 2 ^ Z.of_nat n)).
    { rewrite Nat2Z.inj_succ, Z.pow_succ_r, Z.rem_mul_r by lia. rewrite Z.testbit_spec' by lia. do 2 f_equal.
      unfold e. rewrite Z.div_div by lia. rewrite Z.pow_add_r by lia. done. }
    pose proof (Z.mod_pos_bound (bval E / 2 ^ (i + 1)) (2 ^ Z.of_nat n) ltac:(lia)) as Hb.
    rewrite He, BnBit_testbit by done.
    specialize (IH (i + 1) (if negb (Z.b2z (Z.testbit (bval E) i) =? 0) then mul Acc Val else Acc) (mul Val Val)
      (x * v ^ Z.b2z (Z.testbit (bval E) i)) (v * v) ltac:(lia)).
    rewrite Z.pow_add_r, Z.mul_assoc, Z.pow_mul_r by (try lia; destruct (Z.testbit _ _); simpl; lia).
    rewrite Z.pow_2_r. apply IH; [| by apply mul_rep]. clear IH.
    destruct (Z.testbit (bval E) i); simpl; [rewrite Z.pow_1_r; by apply mul_rep | by rewrite Z.mul_1_r].
Qed.

Lemma exp_spec E N Acc Val x v : bn N E -> rep x Acc -> rep v Val ->
  rep (x * v ^ bval E) (fst (exp_loop mul E (exp_bits E (N * 32)) 0 Acc Val)).
Proof.
  intros HE Hx Hv. pose proof (exp_loop_spec E (exp_bits E (N * 32)) 0 Acc Val x v (proj2 HE) ltac:(lia) Hx Hv) as H.
  rewrite Z.pow_0_r, Z.div_1_r, exp_bits_spec, <- W_bits in H by apply HE.
  rewrite Z.mod_small in H by (by apply bn_bound). done.
Qed.
End exp.

Lemma mod_exp_odd N Base Exponent Modulus : (0 < N <= BN_MAX_WORDS)%nat -> bn N Base -> bn N Exponent -> bn N Modulus ->
  0 < bval Modulus -> Z.land (nth 0 Modulus 0) 1 <> 0 ->
  exists R, XcpModExp true Base Exponent Modulus N = Some R /\ bn N R /\
    bval R = bval Base ^ bval Exponent mod bval Modulus.
Proof.
  intros [HN Hmax] HB HE HM Hm Hodd. unfold XcpModExp.
  rewrite (proj2 (Nat.eqb_neq N 0)), (proj2 (Nat.ltb_ge BN_MAX_WORDS N)) by lia. cbn [orb].
  rewrite modulus_zero_spec, (proj2 (Z.eqb_neq (bval Modulus) 0)) by (try done; lia). cbn [negb].
  rewrite (proj2 (Z.eqb_neq _ 0)) by done. cbn [negb].
  set (MInv := sub32 0 _). set (m := bval Modulus) in *.
  set (mul := fun a b => take N (BnMontMul a b Modulus MInv N)).
  assert (HI : mont_inv Modulus MInv).
  { unfold mont_inv, MInv, sub32, u32. rewrite Z.add_mod, Z.mul_mod_idemp_l, <- Z.add_mod by lia.
    pose proof (newton_inverse _ Hodd) as E. set (v := newton _ _ _) in *.
    replace ((0 - v) * nth 0 Modulus 0 + 1) with (1 - nth 0 Modulus 0 * v) by ring.
    rewrite Zminus_mod, E. done. }
  pose proof (odd_coprime Modulus N (proj2 HM) Hodd) as Hco. fold m in Hco.
  set (rep := fun (x : Z) (a : list Z) => bn N a /\ bval a <= m /\ bval a mod m = (x * W N) mod m).
  assert (Hmul : forall x y a b, rep x a -> rep y b -> rep (x * y) (mul a b)).
  { intros x y a b (Ha & La & Ea) (Hb & Lb & Eb).
    destruct (BnMontMul_spec N a Modulus MInv HN Ha HM HI La b Hb Hm) as (H1 & H2 & H3). fold m in H2, H3.
    unfold rep, mul. split; [done |]. split; [lia |]. apply (cancel_mod (W N)); [done | done |].
    rewrite H3, Z.mul_mod, Ea, Eb, <- Z.mul_mod by lia. f_equal. ring. }
  destruct (double_n_spec Modulus N (N * 32) (one_words N) HM (bn_one N HN)) as (HA1 & HA2 & HA3);
    [rewrite bval_one by done; lia |].
  set (Acc := double_n Modulus N (N * 32) (one_words N)) in *.
  destruct (double_n_spec Modulus N (N * 32) Acc HM HA1 HA2) as (HS1 & HS2 & HS3).
  set (Scratch := double_n Modulus N (N * 32) Acc) in *. rewrite <- W_bits in HA3, HS3.
  rewrite bval_one, Z.mul_1_r in HA3 by done.
  destruct (BnReduce_spec N Base N Modulus (proj2 HB)) as [HV1 HV2]; [destruct HB; lia | done | done |].
  fold m in HA3, HS3, HV2. pose proof (Z.mod_pos_bound (bval Base) m Hm) as HV3.
  assert (RA : rep 1 Acc) by (split; [done | split; [done | by rewrite Z.mul_1_l]]).
  assert (RV : rep (bval Base) (mul (BnReduce Base N Modulus N) Scratch)).
  { assert (HVm : bval (BnReduce Base N Modulus N) <= bval Modulus) by (fold m; lia).
    destruct (BnMontMul_spec N _ Modulus MInv HN HV1 HM HI HVm Scratch HS1 Hm) as (H1 & H2 & H3). fold m in H2, H3.
    unfold rep, mul. split; [done |]. split; [lia |]. apply (cancel_mod (W N)); [done | done |].
    rewrite H3, HV2, Z.mul_mod_idemp_l, Z.mul_mod, HS3, <- Z.mul_mod by lia.
    rewrite Z.mul_mod, (Z.mul_mod (W N) (bval Acc)), HA3, <- (Z.mul_mod (W N)), <- Z.mul_mod by lia. f_equal. ring. }
  pose proof (exp_spec mul rep Hmul Exponent N Acc _ 1 (bval Base) HE RA RV) as RR.
  destruct (exp_loop mul Exponent _ 0 Acc _) as [A' V']. cbn [fst] in RR. rewrite Z.mul_1_l in RR.
  destruct RR as (Ha & La & Ea).
  destruct (BnMontMul_spec N A' Modulus MInv HN Ha HM HI La (one_words N) (bn_one N HN) Hm) as (H1 & H2 & H3).
  eexists. split; [reflexivity |]. split; [exact H1 |]. fold m in H2, H3. unfold mul.
  rewrite bval_one, Z.mul_1_r, Ea in H3 by done. apply cancel_mod in H3; try done. rewrite Z.mod_small in H3 by done. done.
Qed.

Lemma mod_exp_even N Base Exponent Modulus : (0 < N <= BN_MAX_WORDS)%nat -> bn N Base -> bn N Exponent -> bn N Modulus ->
  0 < bval Modulus -> Z.land (nth 0 Modulus 0) 1 = 0 ->
  exists R, XcpModExp true Base Exponent Modulus N = Some R /\ bn N R /\
    bval R = bval Base ^ bval Exponent mod bval Modulus.
Proof.
  intros [HN Hmax] HB HE HM Hm Heven. unfold XcpModExp.
  rewrite (proj2 (Nat.eqb_neq N 0)), (proj2 (Nat.ltb_ge BN_MAX_WORDS N)) by lia. cbn [orb].
  rewrite modulus_zero_spec, (proj2 (Z.eqb_neq (bval Modulus) 0)) by (try done; lia). cbn [negb].
  rewrite Heven. change (negb (0 =? 0)) with false. cbv iota. set (m := bval Modulus) in *.
  set (mul := fun a b => BnMulMod a b Modulus N).
  set (rep := fun (x : Z) (a : list Z) => bn N a /\ bval a = x mod m).
  assert (Hmul : forall x y a b, rep x a -> rep y b -> rep (x * y) (mul a b)).
  { intros x y a b (Ha & Ea) (Hb & Eb).
    destruct (BnMulMod_spec a b Modulus N HN Ha Hb HM Hm) as (H1 & H2). fold m in H2.
    unfold rep, mul. split; [done |]. rewrite H2, Ea, Eb, <- Z.mul_mod by lia. done. }
  destruct (BnReduce_spec N Base N Modulus (proj2 HB)) as [HV1 HV2]; [destruct HB; lia | done | done |].
  assert (Hm1 : m <> 1).
  { intros E1. unfold m in E1. destruct Modulus as [|m0 M']; [done |]. cbn [nth bval] in *.
    change 1 with (Z.ones 1) in Heven. rewrite Z.land_ones in Heven by lia. change (2 ^ 1) with 2 in Heven.
    replace m0 with (1 + - (2 ^ 31 * bval M') * 2) in Heven by lia. rewrite Z.mod_add in Heven by lia. done. }
  assert (RA : rep 1 (one_words N)).
  { split; [by apply bn_one |]. rewrite bval_one by done. rewrite Z.mod_small; lia. }
  assert (RV : rep (bval Base) (BnReduce Base N Modulus N)) by (by split).
  pose proof (exp_spec mul rep Hmul Exponent N _ _ 1 (bval Base) HE RA RV) as RR.
  destruct (exp_loop mul Exponent _ 0 _ _) as [A' V']. cbn [fst] in RR. rewrite Z.mul_1_l in RR.
  destruct RR as [H1 H2]. by exists A'.
Qed.

(** What the exponentiation returns on every call: nothing for an operand
    size it refuses, a zero modulus or a failed allocation, and otherwise the
    power. *)
Lemma XcpModExp_spec pool Base Exponent Modulus N :
  bn N Base -> bn N Exponent -> bn N Modulus ->
  match XcpModExp pool Base Exponent Modulus N with
  | Some R => (0 < N <= BN_MAX_WORDS)%nat /\ 0 < bval Modulus /\ bn N R /\
              bval R = bval Base ^ bval Exponent mod bval Modulus
  | None => (N = 0)%nat \/ (BN_MAX_WORDS < N)%nat \/ bval Modulus = 0 \/ pool = false
  end.
Proof.
  intros HB HE HM. pose proof (bn_bound _ _ HM) as BM.
  destruct (decide (0 < N <= BN_MAX_WORDS)%nat) as [HN | HN].
  2: { unfold XcpModExp. destruct (Nat.eqb_spec N 0), (Nat.ltb_spec BN_MAX_WORDS N); simpl; try lia. }
  destruct (Z.eq_dec (bval Modulus) 0) as [E0 | E0].
  { unfold XcpModExp. destruct ((N =? 0)%nat || _); [lia |].
    rewrite modulus_zero_spec, E0 by done. cbn. lia. }
  destruct pool.
  - destruct (Z.eq_dec (Z.land (nth 0 Modulus 0) 1) 0) as [Hp | Hp].
    + destruct (mod_exp_even N Base Exponent Modulus HN HB HE HM ltac:(lia) Hp) as (R & -> & HR & V).
      split; [done |]. split; [lia |]. done.
    + destruct (mod_exp_odd N Base Exponent Modulus HN HB HE HM ltac:(lia) Hp) as (R & -> & HR & V).
      split; [done |]. split; [lia |]. done.
  - unfold XcpModExp. destruct ((N =? 0)%nat || _); [lia |]. destruct (modulus_zero Modulus N); cbn; [| tauto]. tauto.
Qed.

(** ** Properties *)

(** C2: [XcpModExp] on operands of [Words] 32-bit words returns exactly
    when the word count is between 1 and 512, the modulus is not zero and the
    scratch allocation succeeds, and what it then writes is
    [Base ^ Exponent mod Modulus], for odd moduli (Montgomery form, the
    modulus one included) and even ones alike. *)
Theorem mod_exp_correct pool Base Exponent Modulus Words :
  bn Words Base -> bn Words Exponent -> bn Words Modulus ->
  ((0 < Words <= BN_MAX_WORDS)%nat /\ bval Modulus <> 0 /\ pool = true <->
    is_Some (XcpModExp pool Base Exponent Modulus Words)) /\
  (forall R, XcpModExp pool Base Exponent Modulus Words = Some R ->
    bn Words R /\ bval R = bval Base ^ bval Exponent mod bval Modulus).
Proof.
  intros HB HE HM. pose proof (XcpModExp_spec pool Base Exponent Modulus Words HB HE HM) as H.
  destruct (XcpModExp pool Base Exponent Modulus Words) as [R |] eqn:E.
  - destruct H as (HN & Hm & HR & V). split; [| by intros ? [= <-]]. split; [by eexists |]. intros _.
    split; [done |]. split; [lia |]. destruct pool; [done |].
    unfold XcpModExp in E. destruct (_ || _); [done |]. by destruct (modulus_zero _ _).
  - split; [| done]. split; [| by intros [? ?]]. intros (HN & Hm & ->). destruct H as [H | [H | [H | H]]]; [lia | lia | done | done].
Qed.

(** A 64-bit odd modulus, with an exponent of two words. *)
Lemma mod_exp_correct_witness :
  exists R, XcpModExp true [0xDEADBEEF; 0x12345678] [0x10001; 1] [0xFFFFFF61; 0xFFFFFFFF] 2 = Some R /\
    bval R = bval [0xDEADBEEF; 0x12345678] ^ bval [0x10001; 1] mod bval [0xFFFFFF61; 0xFFFFFFFF].
Proof.
  assert (H : forall a b, is_u32 a -> is_u32 b -> bn 2 [a; b]) by (intros; split; [done | rewrite !words_cons; split; [done | split; [done | constructor]]]).
  destruct (mod_exp_correct true [0xDEADBEEF; 0x12345678] [0x10001; 1] [0xFFFFFF61; 0xFFFFFFFF] 2) as [[H1 _] H2];
    try (apply H; unfold is_u32; lia).
  destruct H1 as [R E]; [split; [unfold BN_MAX_WORDS; lia | split; [by vm_compute | done]] |].
  exists R. split; [exact E |]. apply H2. exact E.
Defined.
