(* ===== verification/Bytes.v ===== *)
(** * Byte strings and little-endian words

    The processor is little-endian: a [ULONG] read through a byte pointer has
    its first byte least significant.  The crypto and settings code moves
    between the two views with casts and [RtlCopyMemory]; this file gives the
    views and their round trips. *)

From stdpp Require Import prelude list numbers.
From Stdlib Require Import ZArith Lia.
From S2P Require Import Prelude.

Local Open Scope Z_scope.

Definition is_u8 (b : Z) : Prop := 0 <= b < 2 ^ 8.
Definition bytes (l : list Z) : Prop := Forall is_u8 l.

(** The word at the front of a byte string; bytes past its end read as
    zero. *)
Definition load32 (l : list Z) : Z :=
  nth 0 l 0 + 2 ^ 8 * nth 1 l 0 + 2 ^ 16 * nth 2 l 0 + 2 ^ 24 * nth 3 l 0.

Definition load16 (l : list Z) : Z := nth 0 l 0 + 2 ^ 8 * nth 1 l 0.

(** The four bytes of a word, as a store leaves them. *)
Definition store32 (w : Z) : list Z :=
  [u8 w; u8 (Z.shiftr w 8); u8 (Z.shiftr w 16); u8 (Z.shiftr w 24)].

(** [n] words read from a byte string. *)
Fixpoint words_of (n : nat) (l : list Z) : list Z :=
  match n with
  | O => []
  | S n' => load32 l :: words_of n' (drop 4 l)
  end.

(** The bytes of an array of words. *)
Definition bytes_of (ws : list Z) : list Z := flat_map store32 ws.

(** [n] bytes read at offset [off]. *)
Definition read (l : list Z) (off : Z) (n : nat) : list Z := take n (drop (Z.to_nat off) l).

(** [RtlCompareMemory]: the length of the common prefix, at most [n]. *)
Fixpoint RtlCompareMemory (a b : list Z) (n : nat) {struct n} : nat :=
  match n, a, b with
  | S n', x :: a', y :: b' => if x =? y then S (RtlCompareMemory a' b' n') else O
  | _, _, _ => O
  end.

(** Bytewise exclusive or. *)
Definition xor_bytes (a b : list Z) : list Z := zip_with Z.lxor a b.

(** The bytes [off .. off + length src) of [dst] replaced by [src]. *)
Definition write (dst : list Z) (off : nat) (src : list Z) : list Z :=
  take off dst ++ src ++ drop (off + length src) dst.

Lemma bits_below x n : 0 <= n -> 0 <= x -> (forall i, n <= i -> Z.testbit x i = false) -> x < 2 ^ n.
Proof.
  intros Hn Hx H. destruct (Z.lt_ge_cases x (2 ^ n)) as [L | L]; [done |]. exfalso.
  assert (Hp : 0 < 2 ^ n) by (apply Z.pow_pos_nonneg; lia).
  assert (n <= Z.log2 x) by (apply Z.log2_le_pow2; lia).
  pose proof (Z.bit_log2 x ltac:(lia)) as B. rewrite H in B by lia. done.
Qed.

Lemma testbit_high x i : is_u32 x -> 32 <= i -> Z.testbit x i = false.
Proof. intros H Hi. pose proof (log2_u32 x H). unfold is_u32 in H. apply Z.bits_above_log2; lia. Qed.

Lemma u32_lor x y : is_u32 x -> is_u32 y -> is_u32 (Z.lor x y).
Proof.
  intros Hx Hy. split; [apply Z.lor_nonneg; unfold is_u32 in *; lia |]. apply bits_below; [lia | apply Z.lor_nonneg; unfold is_u32 in *; lia |].
  intros i Hi. rewrite Z.lor_spec, !testbit_high by done. done.
Qed.

Lemma testbit_shl32 x n i : 0 <= n -> 0 <= i -> Z.testbit (shl32 x n) i = (i <? 32) && Z.testbit x (i - n).
Proof.
  intros Hn Hi. unfold shl32, u32. destruct (Z.ltb_spec i 32).
  - rewrite Z.mod_pow2_bits_low, Z.shiftl_spec by lia. done.
  - rewrite Z.mod_pow2_bits_high by lia. done.
Qed.

Lemma bytes_app a b : bytes (a ++ b) <-> bytes a /\ bytes b.
Proof. apply Forall_app. Qed.

Lemma bytes_cons x a : bytes (x :: a) <-> is_u8 x /\ bytes a.
Proof. apply Forall_cons_iff. Qed.

Lemma bytes_take n l : bytes l -> bytes (take n l).
Proof. apply Forall_take. Qed.

Lemma bytes_drop n l : bytes l -> bytes (drop n l).
Proof. apply Forall_drop. Qed.

Lemma bytes_nth l n : bytes l -> is_u8 (nth n l 0).
Proof. intros H. revert n. induction H; intros [|n]; simpl; auto; unfold is_u8; lia. Qed.

Lemma nth_of_drop (l : list Z) i n : nth n (drop i l) 0 = nth (i + n) l 0.
Proof. by rewrite !nth_lookup, lookup_drop. Qed.

Lemma bytes_zero n : bytes (replicate n 0).
Proof. apply Forall_replicate. unfold is_u8. lia. Qed.

Lemma u8_is x : is_u8 (u8 x).
Proof. apply Z.mod_pos_bound. lia. Qed.

Lemma u8_id x : is_u8 x -> u8 x = x.
Proof. apply Z.mod_small. Qed.

Create HintDb bytes.
#[export] Hint Resolve bytes_take bytes_drop bytes_nth bytes_zero u8_is : bytes.

Lemma load32_range l : bytes l -> is_u32 (load32 l).
Proof.
  intros H. unfold load32, is_u32.
  pose proof (bytes_nth l 0 H). pose proof (bytes_nth l 1 H). pose proof (bytes_nth l 2 H). pose proof (bytes_nth l 3 H).
  unfold is_u8 in *. lia.
Qed.

Lemma load16_range l : bytes l -> 0 <= load16 l < 2 ^ 16.
Proof.
  intros H. unfold load16. pose proof (bytes_nth l 0 H). pose proof (bytes_nth l 1 H). unfold is_u8 in *. lia.
Qed.

Lemma store32_bytes w : bytes (store32 w).
Proof. unfold store32. rewrite !bytes_cons. repeat split; try apply u8_is. constructor. Qed.

(** Splitting a word into its bytes and joining them again. *)
Lemma load_store w l : is_u32 w -> load32 (store32 w ++ l) = w.
Proof.
  intros H. unfold load32, store32, u8, is_u32 in *. cbn [app nth]. rewrite !Z.shiftr_div_pow2 by lia.
  pose proof (Z.div_mod w (2 ^ 8)). pose proof (Z.div_mod (w / 2 ^ 8) (2 ^ 8)).
  pose proof (Z.div_mod (w / 2 ^ 16) (2 ^ 8)). pose proof (Z.div_mod (w / 2 ^ 24) (2 ^ 8)).
  rewrite !Z.div_div in * by lia. change (2 ^ 8 * 2 ^ 8) with (2 ^ 16) in *.
  change (2 ^ 16 * 2 ^ 8) with (2 ^ 24) in *. change (2 ^ 24 * 2 ^ 8) with (2 ^ 32) in *.
  rewrite (Z.div_small w (2 ^ 32)) in * by lia. lia.
Qed.

Lemma store_load a b c d l : is_u8 a -> is_u8 b -> is_u8 c -> is_u8 d ->
  store32 (load32 (a :: b :: c :: d :: l)) = [a; b; c; d].
Proof.
  intros Ha Hb Hc Hd. unfold store32, load32, u8, is_u8 in *. cbn [nth]. rewrite !Z.shiftr_div_pow2 by lia.
  repeat f_equal.
  - replace (a + 2 ^ 8 * b + 2 ^ 16 * c + 2 ^ 24 * d) with (a + (b + 2 ^ 8 * c + 2 ^ 16 * d) * 2 ^ 8) by lia.
    rewrite Z.mod_add, Z.mod_small; lia.
  - replace (a + 2 ^ 8 * b + 2 ^ 16 * c + 2 ^ 24 * d) with (a + (b + 2 ^ 8 * c + 2 ^ 16 * d) * 2 ^ 8) by lia.
    rewrite Z.div_add, (Z.div_small a), Z.add_0_l by lia.
    replace (b + 2 ^ 8 * c + 2 ^ 16 * d) with (b + (c + 2 ^ 8 * d) * 2 ^ 8) by lia. rewrite Z.mod_add, Z.mod_small; lia.
  - replace (a + 2 ^ 8 * b + 2 ^ 16 * c + 2 ^ 24 * d) with ((a + 2 ^ 8 * b) + (c + 2 ^ 8 * d) * 2 ^ 16) by lia.
    rewrite Z.div_add, (Z.div_small (a + _)), Z.add_0_l by lia.
    replace (c + 2 ^ 8 * d) with (c + d * 2 ^ 8) by lia. rewrite Z.mod_add, Z.mod_small; lia.
  - replace (a + 2 ^ 8 * b + 2 ^ 16 * c + 2 ^ 24 * d) with ((a + 2 ^ 8 * b + 2 ^ 16 * c) + d * 2 ^ 24) by lia.
    rewrite Z.div_add, (Z.div_small (a + _ + _)), Z.add_0_l, Z.mod_small; lia.
Qed.

Lemma length_words_of n l : length (words_of n l) = n.
Proof. revert l. induction n; simpl; auto. Qed.

Lemma words_of_range n l : bytes l -> Forall is_u32 (words_of n l).
Proof.
  revert l. induction n as [|n IH]; intros l H; simpl; constructor; [by apply load32_range |].
  apply IH. auto with bytes.
Qed.

Lemma length_bytes_of ws : length (bytes_of ws) = (4 * length ws)%nat.
Proof. induction ws as [|w ws IH]; simpl in *; [done |]. rewrite IH. lia. Qed.

Lemma bytes_of_bytes ws : bytes (bytes_of ws).
Proof. induction ws as [|w ws IH]; [constructor |]. cbn [bytes_of flat_map]. apply bytes_app. split; [apply store32_bytes | done]. Qed.

#[export] Hint Resolve load32_range store32_bytes words_of_range bytes_of_bytes : bytes.

Lemma words_of_bytes_of n ws l : length ws = n -> Forall is_u32 ws -> words_of n (bytes_of ws ++ l) = ws.
Proof.
  intros <-. induction 1 as [|w ws Hw _ IH]; [done |]. cbn [bytes_of flat_map length words_of].
  rewrite <- app_assoc, load_store by done. f_equal. exact IH.
Qed.

Lemma bytes_of_words_of n l : bytes l -> (4 * n <= length l)%nat -> bytes_of (words_of n l) = take (4 * n) l.
Proof.
  revert l. induction n as [|n IH]; intros l H L; [done |].
  destruct l as [|a [|b [|c [|d l]]]]; simpl in L; try lia.
  rewrite !bytes_cons in H. destruct H as (Ha & Hb & Hc & Hd & H).
  replace (4 * S n)%nat with (4 + 4 * n)%nat by lia. cbn [words_of bytes_of flat_map take Nat.add drop].
  rewrite store_load by done. cbn [app]. do 4 f_equal. rewrite <- IH by (try done; lia). rewrite drop_0. done.
Qed.

(** Two word arrays with the same bytes are the same. *)
Lemma bytes_of_inj ws ws' : Forall is_u32 ws -> Forall is_u32 ws' -> bytes_of ws = bytes_of ws' -> ws = ws'.
Proof.
  intros H H' E. assert (L : length ws = length ws').
  { pose proof (length_bytes_of ws). pose proof (length_bytes_of ws'). rewrite E in *. lia. }
  pose proof (words_of_bytes_of (length ws') ws [] L H) as E1. rewrite E in E1.
  rewrite <- E1. by apply words_of_bytes_of.
Qed.

Lemma RtlCompareMemory_all a b n : (n <= length a)%nat -> (n <= length b)%nat ->
  (RtlCompareMemory a b n =? n)%nat = true <-> take n a = take n b.
Proof.
  revert a b. induction n as [|n IH]; intros a b La Lb; [by split |].
  destruct a as [|x a], b as [|y b]; simpl in La, Lb; try lia. cbn [RtlCompareMemory take].
  destruct (Z.eqb_spec x y) as [-> | Hne].
  - specialize (IH a b ltac:(lia) ltac:(lia)). cbn [Nat.eqb]. rewrite IH. split; [intros ->; done | intros [= ->]; done].
  - split; [done |]. intros [= ? _]. done.
Qed.

Lemma length_write dst off src : (off + length src <= length dst)%nat -> length (write dst off src) = length dst.
Proof. intros H. unfold write. rewrite !length_app, length_take, length_drop. lia. Qed.

Lemma xor_bytes_bytes a b : bytes a -> bytes b -> bytes (xor_bytes a b).
Proof.
  intros H. revert b. unfold xor_bytes. induction H as [|x a Hx _ IH]; intros b Hb; [constructor |].
  destruct b as [|y b]; [constructor |]. apply bytes_cons in Hb as [Hy Hb]. cbn [zip_with]. apply bytes_cons. split; [| auto].
  unfold is_u8 in *. split; [apply Z.lxor_nonneg; lia |].
  destruct (Z.eq_dec (Z.lxor x y) 0) as [-> | Hn]; [lia |]. apply Z.log2_lt_pow2; [pose proof (proj2 (Z.lxor_nonneg x y)); lia |].
  apply Z.le_lt_trans with (Z.max (Z.log2 x) (Z.log2 y)); [apply Z.log2_lxor; lia |].
  apply Z.max_lub_lt; [destruct (Z.eq_dec x 0) as [-> |]; [simpl; lia | apply Z.log2_lt_pow2; lia]
    | destruct (Z.eq_dec y 0) as [-> |]; [simpl; lia | apply Z.log2_lt_pow2; lia]].
Qed.

Lemma xor_bytes_cancel a b : length a = length b -> xor_bytes (xor_bytes a b) b = a.
Proof.
  unfold xor_bytes. revert b. induction a as [|x a IH]; intros [|y b] L; try done. simpl in *.
  rewrite Z.lxor_assoc, Z.lxor_nilpotent, Z.lxor_0_r, IH by lia. done.
Qed.

Lemma xor_bytes_comm a b : xor_bytes a b = xor_bytes b a.
Proof. unfold xor_bytes. revert b. induction a as [|x a IH]; intros [|y b]; simpl; try done. by rewrite Z.lxor_comm, IH. Qed.

Lemma length_xor_bytes a b : length a = length b -> length (xor_bytes a b) = length a.
Proof. intros L. unfold xor_bytes. rewrite length_zip_with. lia. Qed.
