(* ===== verification/Rsa.v ===== *)
(** * RSA operations

    Models [XcpPKEncPublic], [XcpPKGetKeyLen], [XcpPKDecPrivate] and
    [XcpVerifyPKCS1Signature] of [src/ntoskrnl/xb/crypto.c] over key blobs
    held as byte strings.  The theorems give the public operation its value
    and refusals, the private one its Chinese-remainder characterisation,
    their round trip for a key pair whose first prime is the larger, and the
    exact set of blocks signature verification accepts. *)

From stdpp Require Import prelude list numbers.
From Stdlib Require Import ZArith Lia Znumtheory Zdivisibility.
From Stdlib Require Zmod.ZmodInv.
From S2P Require Import Prelude Bignum Bytes.

Local Open Scope Z_scope.

(** ** The key blob *)

Definition PK_MAGIC (k : list Z) : Z := load32 k.
Definition PK_BLOB_LENGTH (k : list Z) : Z := load32 (drop 4 k).
Definition PK_MODULUS_BITS (k : list Z) : Z := load32 (drop 8 k).
Definition PK_MODULUS_TOP (k : list Z) : Z := load32 (drop 12 k).
Definition PK_EXPONENT (k : list Z) : list Z := drop 16 k.
Definition PK_MODULUS (k : list Z) : list Z := drop 20 k.
Definition PK_PUBLIC_MAGIC : Z := 0x31415352.
Definition PK_PRIVATE_MAGIC : Z := 0x32415352.

(** ** The operations *)

(** The public exponent, zero-extended to the operand width. *)
Definition exp_operand (k : list Z) (N : nat) : list Z := load32 (PK_EXPONENT k) :: replicate (N - 1) 0.

(** [pool] and [pool'] tell whether the operation's own allocation and the
    exponentiation's succeed; [None] is the answer 0, nothing written. *)
Definition XcpPKEncPublic (pool pool' : bool) (PubKey In : list Z) : option (list Z) :=
  let Top := PK_MODULUS_TOP PubKey in
  let Bytes := add32 Top 1 in
  let Words := Bytes / 4 in
  if negb (Z.land Bytes 3 =? 0) || (Words =? 0) || (Z.of_nat BN_MAX_WORDS <? Words) ||
     negb (PK_MAGIC PubKey =? PK_PUBLIC_MAGIC)
  then None
  else if negb pool then None
  else
    let N := Z.to_nat Words in
    let Base := words_of (N + 2) In in
    let Exp := exp_operand PubKey N in
    let Mod := words_of N (PK_MODULUS PubKey) in
    if negb (nth N Base 0 =? 0) || negb (nth (N + 1) Base 0 =? 0) then None
    else if negb (BnCompare Base Mod N =? MINUS_ONE) then None
    else
      match XcpModExp pool' (take N Base) Exp Mod N with
      | None => None
      | Some Result => Some (bytes_of Result ++ replicate 8 0)
      end.

Definition XcpPKGetKeyLen (PubKey : list Z) : Z := PK_BLOB_LENGTH PubKey.

(** [Half] words of the private key at byte [off] past the modulus field. *)
Definition crt_field (PrivKey : list Z) (off : Z) (Half : nat) : list Z :=
  words_of Half (drop (Z.to_nat (0x14 + PK_BLOB_LENGTH PrivKey + off)) PrivKey).

(** [for (...; Carry != 0 && i < Words; i++) Carry = (++Product[i] == 0)]. *)
Fixpoint carry_loop (Carry : Z) (Product : list Z) : list Z :=
  match Product with
  | [] => []
  | p :: P' =>
      if Carry =? 0 then Product
      else let p' := add32 p 1 in p' :: carry_loop (if p' =? 0 then 1 else 0) P'
  end.

(** The recombination of the two half-size powers. *)
Definition crt_combine (P Q Qi M1 M2 : list Z) (Half : nat) : list Z :=
  let (T, borrow) := BnSubtract M1 M2 Half in
  let T := if negb (borrow =? 0) then fst (BnAdd T P Half) else T in
  let H := BnMulMod T Qi P Half in
  let Product := BnMultiply H Q Half in
  let (Product, Carry) := BnAdd Product M2 Half in
  take Half Product ++ carry_loop Carry (drop Half Product).

Definition XcpPKDecPrivate (pool pool1 pool2 : bool) (PrivKey In : list Z) : option (list Z) :=
  let Bytes := PK_MODULUS_BITS PrivKey / 8 in
  let Words := Bytes / 4 in
  let HalfZ := Words / 2 in
  let Stride := PK_BLOB_LENGTH PrivKey in
  if negb (Z.land Bytes 7 =? 0) || (HalfZ =? 0) || (Z.of_nat BN_MAX_WORDS <? Words) ||
     (Stride <? Bytes) || negb (Z.land Stride 1 =? 0) ||
     negb (PK_MAGIC PrivKey =? PK_PRIVATE_MAGIC)
  then None
  else if negb pool then None
  else
    let Half := Z.to_nat HalfZ in
    let P := crt_field PrivKey 0 Half in
    let Q := crt_field PrivKey (Stride / 2) Half in
    let Dp := crt_field PrivKey Stride Half in
    let Dq := crt_field PrivKey (3 * (Stride / 2)) Half in
    let Qi := crt_field PrivKey (2 * Stride) Half in
    let VWords := (Z.to_nat Words + 1)%nat in
    let Value := words_of VWords In in
    if BnIsZero P Half || BnIsZero Q Half then None
    else
      match XcpModExp pool1 (BnReduce Value VWords P Half) Dp P Half with
      | None => None
      | Some M1 =>
          match XcpModExp pool2 (BnReduce Value VWords Q Half) Dq Q Half with
          | None => None
          | Some M2 => Some (bytes_of (crt_combine P Q Qi M1 M2 Half) ++ replicate 8 0)
          end
      end.

(** ** Signature verification *)

Definition XcPkcs1Prefix : list (list Z) :=
  [ [0x14; 0x04; 0x00; 0x05; 0x1a; 0x02; 0x03; 0x0e; 0x2b; 0x05; 0x06; 0x09; 0x30; 0x21; 0x30];
    [0x14; 0x04; 0x1a; 0x02; 0x03; 0x0e; 0x2b; 0x05; 0x06; 0x07; 0x30; 0x1f; 0x30] ].

(** [Plain[i] != Hash[19 - i]] for no [i]. *)
Definition hash_matches (Plain Hash : list Z) : bool :=
  forallb (fun i => nth i Plain 0 =? nth (19 - i) Hash 0) (seq 0 20).

(** The offset of the separator: past the first prefix that matches, or 0. *)
Fixpoint find_prefix (Plain : list Z) (prefixes : list (list Z)) : nat :=
  match prefixes with
  | [] => 0%nat
  | p :: ps =>
      if (RtlCompareMemory (drop 20 Plain) p (length p) =? length p)%nat
      then (20 + length p)%nat
      else find_prefix Plain ps
  end.

(** The checks on the recovered block, [Top] the index of its last byte. *)
Definition pkcs1_block_ok (Plain Hash : list Z) (Top : nat) : bool :=
  if negb (hash_matches Plain Hash) then false
  else
    let Zero := find_prefix Plain XcPkcs1Prefix in
    if (Zero =? 0)%nat then false
    else if negb (nth Zero Plain 0 =? 0x00) || negb (nth Top Plain 0 =? 0x00) ||
            negb (nth (Top - 1) Plain 0 =? 0x01) then false
    else forallb (fun i => nth i Plain 0 =? 0xff) (seq (Zero + 1) (Top - 1 - (Zero + 1))).

Definition XcpVerifyPKCS1Signature (pool pool' : bool) (Signature PubKey Digest : list Z) : bool :=
  let Top := PK_MODULUS_TOP PubKey in
  let Bytes := add32 Top 1 in
  let Words := Bytes / 4 in
  if negb (Z.land Bytes 3 =? 0) || (Words =? 0) || (Z.of_nat BN_MAX_WORDS <? Words) ||
     (Bytes <? 64) || negb (PK_MAGIC PubKey =? PK_PUBLIC_MAGIC)
  then false
  else if negb pool then false
  else
    let N := Z.to_nat Words in
    let Sig := words_of N Signature in
    let Exp := exp_operand PubKey N in
    let Mod := words_of N (PK_MODULUS PubKey) in
    match XcpModExp pool' Sig Exp Mod N with
    | None => false
    | Some Block => pkcs1_block_ok (bytes_of Block) Digest (Z.to_nat Top)
    end.

(** ** Specification vocabulary *)

(** A public blob whose header the operations accept, for [N] modulus
    words. *)
Definition pub_key (k : list Z) (N : nat) : Prop :=
  bytes k /\ (0 < N <= BN_MAX_WORDS)%nat /\ PK_MODULUS_TOP k = 4 * Z.of_nat N - 1 /\ PK_MAGIC k = PK_PUBLIC_MAGIC.

Definition pub_modulus (k : list Z) (N : nat) : Z := bval (words_of N (PK_MODULUS k)).
Definition pub_exponent (k : list Z) : Z := load32 (PK_EXPONENT k).

(** A private blob whose header the operation accepts, for halves of [h]
    words. *)
Definition priv_key (k : list Z) (h : nat) : Prop :=
  bytes k /\ (0 < h <= 256)%nat /\ PK_MODULUS_BITS k = 64 * Z.of_nat h /\
  8 * Z.of_nat h <= PK_BLOB_LENGTH k /\ Z.land (PK_BLOB_LENGTH k) 1 = 0 /\ PK_MAGIC k = PK_PRIVATE_MAGIC.

Definition prime1 (k : list Z) (h : nat) : Z := bval (crt_field k 0 h).
Definition prime2 (k : list Z) (h : nat) : Z := bval (crt_field k (PK_BLOB_LENGTH k / 2) h).
Definition exponent1 (k : list Z) (h : nat) : Z := bval (crt_field k (PK_BLOB_LENGTH k) h).
Definition exponent2 (k : list Z) (h : nat) : Z := bval (crt_field k (3 * (PK_BLOB_LENGTH k / 2)) h).
Definition coefficient (k : list Z) (h : nat) : Z := bval (crt_field k (2 * PK_BLOB_LENGTH k) h).

(** A block as the caller hands it over: [N] words and eight zero bytes. *)
Definition block (ws : list Z) : list Z := bytes_of ws ++ replicate 8 0.

(** A key pair of RSA, its odd primes in either order. *)
Definition rsa_pair (pub priv : list Z) (h : nat) : Prop :=
  pub_key pub (2 * h) /\ priv_key priv h /\
  Z.prime (prime1 priv h) /\ Z.prime (prime2 priv h) /\ 2 < prime1 priv h /\ 2 < prime2 priv h /\
  pub_modulus pub (2 * h) = prime1 priv h * prime2 priv h /\
  (pub_exponent pub * exponent1 priv h) mod (prime1 priv h - 1) = 1 mod (prime1 priv h - 1) /\
  (pub_exponent pub * exponent2 priv h) mod (prime2 priv h - 1) = 1 mod (prime2 priv h - 1) /\
  (prime2 priv h * coefficient priv h) mod prime1 priv h = 1.

(** The PKCS#1 v1.5 block for a hash, least significant byte first: the
    reversed hash, the DigestInfo prefix, a zero, the padding, [01 00]. *)
Definition pkcs1_encode (prefix Hash : list Z) (len : nat) : list Z :=
  rev Hash ++ prefix ++ [0x00] ++ replicate (len - 23 - length prefix) 0xff ++ [0x01; 0x00].

(** Sample keys with 32-bit halves: the fields stride by sixteen bytes. *)
Definition sample_pub (n e : Z) : list Z := bytes_of [PK_PUBLIC_MAGIC; 16; 64; 7; e; n; 0].
Definition sample_priv (p q dp dq qi : Z) : list Z :=
  bytes_of [PK_PRIVATE_MAGIC; 16; 64; 7; 0; p * q; 0; 0; 0; p; 0; q; 0; dp; 0; dq; 0; qi; 0].

(** A 512-bit key with exponent one, whose signatures are the blocks
    themselves. *)
Definition identity_key : list Z := bytes_of ([PK_PUBLIC_MAGIC; 72; 512; 63; 1] ++ replicate 16 (2 ^ 32 - 1)).

(** ** The public operation *)

Lemma modexp_pool pool B E M N R : XcpModExp pool B E M N = Some R -> pool = true.
Proof. unfold XcpModExp. destruct (_ || _); [done |]. destruct (modulus_zero _ _); [done |]. by destruct pool. Qed.

Lemma low_bits_zero x n : 0 <= n -> Z.land x (2 ^ n - 1) = 0 <-> x mod 2 ^ n = 0.
Proof.
  intros Hn. replace (2 ^ n - 1) with (Z.ones n) by (rewrite Z.ones_equiv; lia). by rewrite Z.land_ones.
Qed.

Lemma bn_words_of N l : bytes l -> bn N (words_of N l).
Proof. intros H. split; [apply length_words_of | by apply words_of_range]. Qed.

Lemma bn_exp_operand k N : bytes k -> (0 < N)%nat ->
  bn N (exp_operand k N) /\ bval (exp_operand k N) = pub_exponent k.
Proof.
  intros Hk HN. unfold exp_operand. cbn [bval]. rewrite bval_zero. split; [| unfold pub_exponent; lia].
  split; [simpl; rewrite length_replicate; lia |]. apply words_cons. split; [| auto with word].
  apply load32_range. unfold PK_EXPONENT. auto with bytes.
Qed.

(** The header the guard of the public operations lets through. *)
Lemma pub_guard k : bytes k ->
  let Bytes := add32 (PK_MODULUS_TOP k) 1 in
  negb (Z.land Bytes 3 =? 0) || (Bytes / 4 =? 0) || (Z.of_nat BN_MAX_WORDS <? Bytes / 4) = false ->
  PK_MAGIC k = PK_PUBLIC_MAGIC ->
  exists N, pub_key k N /\ Bytes = 4 * Z.of_nat N /\ Z.to_nat (Bytes / 4) = N.
Proof.
  intros Hk Bytes E Hmag. apply orb_false_iff in E as [E E3]. apply orb_false_iff in E as [E1 E2].
  apply negb_false_iff, Z.eqb_eq in E1. apply Z.eqb_neq in E2. apply Z.ltb_ge in E3.
  change 3 with (2 ^ 2 - 1) in E1. apply low_bits_zero in E1; [| lia]. change (2 ^ 2) with 4 in E1.
  assert (HB : 0 <= Bytes < 2 ^ 32) by apply u32_range. pose proof (Z.div_mod Bytes 4 ltac:(lia)) as D.
  assert (0 <= Bytes / 4) by (apply Z.div_pos; lia). unfold BN_MAX_WORDS in *.
  exists (Z.to_nat (Bytes / 4)). rewrite Z2Nat.id by done. split; [| split; [lia | done]].
  split; [done |]. split; [unfold BN_MAX_WORDS; lia |]. rewrite Z2Nat.id by done. split; [| done].
  assert (HT : is_u32 (PK_MODULUS_TOP k)) by (apply load32_range; auto with bytes). unfold is_u32 in HT.
  destruct (Z.eq_dec (PK_MODULUS_TOP k) (2 ^ 32 - 1)) as [Em | Em].
  - exfalso. apply E2. unfold Bytes. rewrite Em. done.
  - unfold Bytes, add32 in D, E1 |- *. rewrite u32_id in * by lia. lia.
Qed.

Lemma pub_guard_ok k N : pub_key k N ->
  let Bytes := add32 (PK_MODULUS_TOP k) 1 in
  negb (Z.land Bytes 3 =? 0) || (Bytes / 4 =? 0) || (Z.of_nat BN_MAX_WORDS <? Bytes / 4) = false /\
  Bytes = 4 * Z.of_nat N /\ Z.to_nat (Bytes / 4) = N.
Proof.
  intros (Hk & HN & HT & _) Bytes. unfold Bytes, BN_MAX_WORDS in *. rewrite HT. unfold add32.
  rewrite u32_id by lia. replace (4 * Z.of_nat N - 1 + 1) with (Z.of_nat N * 4) by lia. rewrite Z.div_mul by lia.
  split; [| lia]. rewrite !orb_false_iff, negb_false_iff, Z.eqb_eq, Z.eqb_neq, Z.ltb_ge. split; [split |]; try lia.
  change 3 with (2 ^ 2 - 1). apply low_bits_zero; [lia |]. apply Z.mod_mul. lia.
Qed.

(** The value of an operand two words wider than the modulus. *)
Lemma wide_value N l : bytes l ->
  let Base := words_of (N + 2) l in
  bval Base = bval (take N Base) + W N * nth N Base 0 + W (N + 1) * nth (N + 1) Base 0 /\ bn N (take N Base).
Proof.
  intros Hl Base. destruct (bn_words_of (N + 2) l Hl) as [L Wd]. fold Base in L, Wd.
  split; [| split; [rewrite length_take; lia | auto with word]].
  rewrite <- (firstn_all Base) at 1. rewrite L. replace (N + 2)%nat with (S (S N)) by lia.
  rewrite !bval_take_S by lia. replace (S N) with (N + 1)%nat by lia. done.
Qed.

Lemma enc_spec k N In : pub_key k N -> bytes In ->
  let v := bval (words_of (N + 2) In) in
  if v <? pub_modulus k N
  then exists R, XcpPKEncPublic true true k In = Some (block R) /\ bn N R /\
         bval R = v ^ pub_exponent k mod pub_modulus k N
  else XcpPKEncPublic true true k In = None.
Proof.
  intros Hk HIn v. pose proof Hk as (Hb & HN & HT & Hmag). unfold XcpPKEncPublic.
  destruct (pub_guard_ok k N Hk) as (-> & EB & EN). rewrite EN, Hmag, Z.eqb_refl. cbn [negb orb].
  destruct (wide_value N In HIn) as [Ev HB]. fold v in Ev.
  set (Base := words_of (N + 2) In) in *. set (Mod := words_of N (PK_MODULUS k)).
  assert (HM : bn N Mod) by (apply bn_words_of; unfold PK_MODULUS; auto with bytes).
  assert (HW : words Base) by (apply words_of_range; done).
  pose proof (words_nth Base N HW) as H1. pose proof (words_nth Base (N + 1) HW) as H2. unfold is_u32 in H1, H2.
  pose proof (bn_bound _ _ HB). pose proof (bn_bound _ _ HM). pose proof (W_pos N). pose proof (W_pos (N + 1)).
  unfold pub_modulus. fold Mod. rewrite BnCompare_below; [| done | apply HM | unfold Base; rewrite length_words_of; lia | done].
  assert (EW : W (N + 1) = W N * BASE) by (rewrite W_add; done).
  destruct (Z.eqb_spec (nth N Base 0) 0) as [E1 | E1]; cbn [negb orb].
  2: { destruct (Z.ltb_spec v (bval Mod)); [nia | done]. }
  destruct (Z.eqb_spec (nth (N + 1) Base 0) 0) as [E2 | E2]; cbn [negb orb].
  2: { destruct (Z.ltb_spec v (bval Mod)); [nia | done]. }
  rewrite E1, E2, !Z.mul_0_r, !Z.add_0_r in Ev. rewrite <- Ev.
  destruct (Z.ltb_spec v (bval Mod)) as [L | L]; cbn [negb]; [| done].
  destruct (bn_exp_operand k N Hb ltac:(lia)) as [HE VE].
  pose proof (XcpModExp_spec true (take N Base) (exp_operand k N) Mod N HB HE HM) as S.
  destruct (XcpModExp true (take N Base) (exp_operand k N) Mod N) as [R |]; [| lia].
  destruct S as (_ & _ & HR & VR). exists R. split; [done |]. split; [done |]. rewrite VR, VE, <- Ev. done.
Qed.

(** ** The private operation *)

Lemma carry_loop_spec c P : words P -> 0 <= c <= 1 -> bval P + c < W (length P) ->
  bn (length P) (carry_loop c P) /\ bval (carry_loop c P) = bval P + c.
Proof.
  intros HP. revert c. induction HP as [|p P Hp HP IH]; intros c Hc Hlt.
  - simpl in *. split; [split; [done | constructor] | lia].
  - cbn [carry_loop]. destruct (Z.eqb_spec c 0) as [-> | Hc0].
    { split; [split; [done | by apply words_cons] | lia]. }
    assert (c = 1) as -> by lia. cbn [length bval] in *. rewrite W_S in Hlt. unfold is_u32 in Hp.
    pose proof (bval_bound P HP) as BP.
    destruct (Z.eq_dec p (2 ^ 32 - 1)) as [-> | Hne].
    + replace (add32 (2 ^ 32 - 1) 1) with 0 by done. rewrite Z.eqb_refl.
      destruct (IH 1 ltac:(lia)) as [[L1 W1] V1]; [nia |].
      split; [split; [simpl; lia | apply words_cons; split; [unfold is_u32; lia | done]] |].
      cbn [bval]. rewrite V1. lia.
    + unfold add32. rewrite u32_id by lia. rewrite (proj2 (Z.eqb_neq (p + 1) 0)) by lia.
      destruct (IH 0 ltac:(lia)) as [[L1 W1] V1]; [lia |].
      split; [split; [simpl; lia | apply words_cons; split; [unfold is_u32; lia | done]] |].
      cbn [bval]. rewrite V1. lia.
Qed.

(** Adding into the low words of a longer array. *)
Lemma BnAdd_low N A B : (N <= length A)%nat -> bn N B -> words A ->
  take N (fst (BnAdd A B N)) = fst (BnAdd (take N A) B N) /\
  drop N (fst (BnAdd A B N)) = drop N A /\ snd (BnAdd A B N) = snd (BnAdd (take N A) B N).
Proof.
  intros L HB HA. unfold BnAdd. rewrite take_take, Nat.min_id, (bn_take_all N B) by done.
  destruct (add_loop (take N A) B 0) as [r c] eqn:E.
  apply add_loop_spec in E as ((Lr & _) & _); [| rewrite length_take; destruct HB; lia | auto with word | apply HB | lia].
  rewrite length_take, Nat.min_l in Lr by lia. cbn [fst snd].
  rewrite take_app_length', drop_app_length' by done. rewrite (drop_ge (take N A)) by (rewrite length_take; lia).
  by rewrite app_nil_r.
Qed.

Lemma crt_combine_spec P Q Qi M1 M2 h : (0 < h)%nat -> bn h P -> bn h Q -> bn h Qi -> bn h M1 -> bn h M2 ->
  bval M1 < bval P -> bval M2 < bval Q -> bval Q <= bval P ->
  bn (2 * h) (crt_combine P Q Qi M1 M2 h) /\
  bval (crt_combine P Q Qi M1 M2 h) =
    bval M2 + bval Q * (((bval M1 - bval M2) * bval Qi) mod bval P).
Proof.
  intros Hh HP HQ HQi HM1 HM2 L1 L2 LQP. unfold crt_combine.
  pose proof (bn_bound _ _ HP) as BP. pose proof (bn_bound _ _ HQ) as BQ.
  pose proof (bn_bound _ _ HM1) as B1. pose proof (bn_bound _ _ HM2) as B2. pose proof (W_pos h) as Hw.
  destruct (BnSubtract_spec h M1 M2 HM1 HM2) as (HT & Hc & VT).
  destruct (BnSubtract M1 M2 h) as [T borrow]. cbn [fst snd] in *.
  set (T' := if negb (borrow =? 0) then fst (BnAdd T P h) else T).
  assert (HT' : bn h T' /\ exists j, bval T' = bval M1 - bval M2 + j * bval P).
  { unfold T'. pose proof (bn_bound _ _ HT) as BT. destruct (Z.eqb_spec borrow 0) as [-> | Hb]; cbn [negb].
    - split; [done |]. exists 0. lia.
    - assert (borrow = 1) as -> by lia. destruct (BnAdd_spec h T P HT HP) as (HA & Hc' & VA). split; [done |].
      exists 1. pose proof (bn_bound _ _ HA). rewrite Z.mul_1_l in *.
      destruct (Z.eq_dec (snd (BnAdd T P h)) 0) as [E0 | E0]; [rewrite E0 in VA; lia |].
      replace (snd (BnAdd T P h)) with 1 in VA by lia. lia. }
  destruct HT' as [HT' [j VT']]. destruct (BnMulMod_spec T' Qi P h Hh HT' HQi HP ltac:(lia)) as [HH VH].
  set (H := BnMulMod T' Qi P h) in *.
  assert (EH : bval H = ((bval M1 - bval M2) * bval Qi) mod bval P).
  { rewrite VH, VT'. replace ((bval M1 - bval M2 + j * bval P) * bval Qi)
      with ((bval M1 - bval M2) * bval Qi + (j * bval Qi) * bval P) by ring. apply Z.mod_add. lia. }
  rewrite <- EH. destruct (BnMultiply_spec H Q h Hh HH HQ) as [[LP WP] VP].
  set (Product := BnMultiply H Q h) in *.
  destruct (BnAdd_low h Product M2 ltac:(lia) HM2 WP) as (E1 & E2 & E3).
  assert (HPl : bn h (take h Product)) by (split; [rewrite length_take; lia | auto with word]).
  destruct (BnAdd_spec h _ _ HPl HM2) as (HA & HcA & VA).
  destruct (BnAdd Product M2 h) as [Pr Carry]. cbn [fst snd] in *. rewrite E1, E2, E3.
  set (lo := fst (BnAdd (take h Product) M2 h)) in *. set (c := snd (BnAdd (take h Product) M2 h)) in *.
  pose proof (bval_split h Product ltac:(lia)) as VS. pose proof (Z.mod_pos_bound (bval T' * bval Qi) (bval P) ltac:(lia)).
  assert (Hd : length (drop h Product) = h) by (rewrite length_drop; lia).
  destruct (carry_loop_spec c (drop h Product)) as [[Lc Wc] Vc]; [auto with word | done | |].
  { rewrite Hd. pose proof (bn_bound _ _ HPl). pose proof (bn_bound _ _ HA).
    assert (bval Product + bval M2 < W h * W h) by (rewrite VP; nia). nia. }
  destruct HA as [La Wa]. split; [split; [rewrite length_app; lia | apply words_app; done] |].
  rewrite bval_app, La, Vc, (Z.mul_comm (bval Q)), <- VP. lia.
Qed.

Lemma bytes_crt_field k off h : bytes k -> bn h (crt_field k off h).
Proof. intros H. apply bn_words_of. auto with bytes. Qed.

(** The header the guard of the private operation lets through. *)
Lemma priv_guard_ok k h : priv_key k h ->
  let Bytes := PK_MODULUS_BITS k / 8 in
  negb (Z.land Bytes 7 =? 0) || (Bytes / 4 / 2 =? 0) || (Z.of_nat BN_MAX_WORDS <? Bytes / 4) ||
  (PK_BLOB_LENGTH k <? Bytes) || negb (Z.land (PK_BLOB_LENGTH k) 1 =? 0) ||
  negb (PK_MAGIC k =? PK_PRIVATE_MAGIC) = false /\
  Z.to_nat (Bytes / 4 / 2) = h /\ Z.to_nat (Bytes / 4) = (2 * h)%nat.
Proof.
  intros (Hk & Hh & HB & HS & He & Hm) Bytes.
  assert (E : Bytes = 8 * Z.of_nat h).
  { unfold Bytes. rewrite HB. replace (64 * Z.of_nat h) with (8 * Z.of_nat h * 8) by lia. apply Z.div_mul. lia. }
  rewrite E. replace (8 * Z.of_nat h / 4) with (2 * Z.of_nat h)
    by (replace (8 * Z.of_nat h) with (2 * Z.of_nat h * 4) by lia; symmetry; apply Z.div_mul; lia).
  replace (2 * Z.of_nat h / 2) with (Z.of_nat h) by (rewrite Z.mul_comm, Z.div_mul; lia).
  split; [| lia]. rewrite Hm, He, !Z.eqb_refl. cbn [negb].
  rewrite !orb_false_iff, negb_false_iff, Z.eqb_eq, Z.eqb_neq, !Z.ltb_ge. unfold BN_MAX_WORDS.
  repeat split; try lia. change 7 with (2 ^ 3 - 1). apply low_bits_zero; [lia |].
  rewrite Z.mul_comm. apply Z.mod_mul. lia.
Qed.

(** The private operation returns the Chinese-remainder combination. *)
Lemma dec_spec k h In : priv_key k h -> bytes In -> 0 < prime2 k h <= prime1 k h ->
  let v := bval (words_of (2 * h + 1) In) in
  let m1 := v ^ exponent1 k h mod prime1 k h in
  let m2 := v ^ exponent2 k h mod prime2 k h in
  exists R, XcpPKDecPrivate true true true k In = Some (block R) /\ bn (2 * h) R /\
    bval R = m2 + prime2 k h * (((m1 - m2) * coefficient k h) mod prime1 k h).
Proof.
  intros Hk HIn Hpq v m1 m2. pose proof Hk as (Hb & Hh & _). unfold XcpPKDecPrivate.
  destruct (priv_guard_ok k h Hk) as (-> & -> & ->). cbn [negb].
  unfold prime1, prime2, exponent1, exponent2, coefficient in *.
  set (P := crt_field k 0 h) in *. set (Q := crt_field k (PK_BLOB_LENGTH k / 2) h) in *.
  set (Dp := crt_field k (PK_BLOB_LENGTH k) h) in *. set (Dq := crt_field k (3 * (PK_BLOB_LENGTH k / 2)) h) in *.
  set (Qi := crt_field k (2 * PK_BLOB_LENGTH k) h) in *.
  assert (HP : bn h P) by (by apply bytes_crt_field). assert (HQ : bn h Q) by (by apply bytes_crt_field).
  assert (HDp : bn h Dp) by (by apply bytes_crt_field). assert (HDq : bn h Dq) by (by apply bytes_crt_field).
  assert (HQi : bn h Qi) by (by apply bytes_crt_field).
  assert (HV : words (words_of (2 * h + 1) In)) by (by apply words_of_range).
  rewrite !BnIsZero_spec by (try apply HP; try apply HQ; destruct HP, HQ; lia).
  rewrite !bn_take_all by done. rewrite !(proj2 (Z.eqb_neq _ 0)) by lia. cbn [orb].
  destruct (BnReduce_spec h _ (2 * h + 1) P HV) as [R1 V1]; [rewrite length_words_of; lia | done | lia |].
  destruct (BnReduce_spec h _ (2 * h + 1) Q HV) as [R2 V2]; [rewrite length_words_of; lia | done | lia |].
  pose proof (XcpModExp_spec true _ Dp P h R1 HDp HP) as S1.
  pose proof (XcpModExp_spec true _ Dq Q h R2 HDq HQ) as S2. unfold BN_MAX_WORDS in S1, S2.
  destruct (XcpModExp true _ Dp P h) as [M1 |]; [| exfalso; destruct S1 as [? | [? | [? | ?]]]; (lia || done)].
  destruct (XcpModExp true _ Dq Q h) as [M2 |]; [| exfalso; destruct S2 as [? | [? | [? | ?]]]; (lia || done)].
  destruct S1 as (_ & HP0 & HM1 & E1), S2 as (_ & HQ0 & HM2 & E2).
  rewrite V1, Z.mod_pow_l in E1. rewrite V2, Z.mod_pow_l in E2. fold v in E1, E2. fold m1 in E1. fold m2 in E2.
  destruct (crt_combine_spec P Q Qi M1 M2 h) as [HR VR]; try done; try lia.
  { rewrite E1. apply Z.mod_pos_bound. lia. }
  { rewrite E2. apply Z.mod_pos_bound. lia. }
  eexists. split; [reflexivity |]. split; [done |]. rewrite VR, E1, E2. done.
Qed.

(** ** Number theory of the round trip *)

(** An exponent congruent to one modulo [p - 1] acts as one modulo [p]. *)
Lemma fermat_exponent p x k : Z.prime p -> 2 < p -> 0 <= k -> k mod (p - 1) = 1 mod (p - 1) -> x ^ k mod p = x mod p.
Proof.
  intros Hp H2 Hk E. rewrite (Z.mod_small 1) in E by lia.
  pose proof (Z.div_mod k (p - 1) ltac:(lia)) as D. rewrite E in D.
  assert (0 <= k / (p - 1)) by (apply Z.div_pos; lia). assert (0 <= (p - 1) * (k / (p - 1))) by nia.
  rewrite D, Z.pow_add_r, Z.pow_1_r, Z.pow_mul_r by lia.
  destruct (Z.eq_dec (x mod p) 0) as [E0 | E0].
  - rewrite Z.mul_mod, E0, Z.mul_0_r by lia. apply Z.mod_0_l. lia.
  - rewrite Z.mul_mod, <- (Z.mod_pow_l (x ^ (p - 1))), (ZmodInv.Z.fermat_nz p x Hp E0) by lia.
    rewrite Z.pow_1_l, (Z.mod_small 1), Z.mul_1_l by lia. apply Z.mod_mod. lia.
Qed.

(** Garner's formula hits both residues. *)
Lemma garner p q qi m1 m2 : 0 < p -> 0 < q -> (q * qi) mod p = 1 mod p -> 0 <= m1 < p -> 0 <= m2 < q ->
  let x := m2 + q * (((m1 - m2) * qi) mod p) in
  x mod p = m1 /\ x mod q = m2 /\ 0 <= x < p * q.
Proof.
  intros Hp Hq E H1 H2 x. pose proof (Z.mod_pos_bound ((m1 - m2) * qi) p Hp) as B. unfold x. split; [| split; [| nia]].
  - rewrite Z.add_mod, Z.mul_mod_idemp_r, <- Z.add_mod by lia.
    replace (m2 + q * ((m1 - m2) * qi)) with (m2 + (m1 - m2) * (q * qi)) by ring.
    rewrite Z.add_mod, Z.mul_mod, E, <- Z.mul_mod, <- Z.add_mod by lia.
    replace (m2 + (m1 - m2) * 1) with m1 by ring. by apply Z.mod_small.
  - rewrite (Z.mul_comm q), Z.mod_add by lia. by apply Z.mod_small.
Qed.

(** Two residues determine a number below the product. *)
Lemma crt_unique p q x y : 0 < p -> 0 < q -> Z.coprime p q -> 0 <= x < p * q -> 0 <= y < p * q ->
  x mod p = y mod p -> x mod q = y mod q -> x = y.
Proof.
  intros Hp Hq Hco Hx Hy E1 E2.
  apply Z.cong_iff_0, Z.mod_divide in E1; [| lia]. apply Z.cong_iff_0, Z.mod_divide in E2; [| lia].
  destruct E2 as [t Et]. rewrite Et, Z.mul_comm in E1. apply Z.gauss in E1; [| done]. destruct E1 as [s ->].
  assert (s = 0) by nia. nia.
Qed.

Lemma words_of_block N ws n : bn N ws -> (n <= 2)%nat -> words_of (N + n) (block ws) = ws ++ replicate n 0.
Proof.
  intros [L Wd] Hn. unfold block.
  assert (E : replicate 8 0 = bytes_of (replicate n 0) ++ replicate (8 - 4 * n) 0).
  { destruct n as [|[|[|n]]]; [done | done | done | lia]. }
  rewrite E, app_assoc. replace (bytes_of ws ++ bytes_of (replicate n 0)) with (bytes_of (ws ++ replicate n 0))
    by (unfold bytes_of; by rewrite flat_map_app).
  apply words_of_bytes_of; [rewrite length_app, length_replicate; lia |].
  apply Forall_app. split; [done | apply words_zero].
Qed.

Lemma block_value N ws n : bn N ws -> (n <= 2)%nat -> bval (words_of (N + n) (block ws)) = bval ws.
Proof. intros H Hn. rewrite (words_of_block N ws n H Hn), bval_app, bval_zero. lia. Qed.

Lemma block_bytes ws : bytes (block ws).
Proof. apply bytes_app. split; [apply bytes_of_bytes | apply bytes_zero]. Qed.

Lemma bval_inj N a b : bn N a -> bn N b -> bval a = bval b -> a = b.
Proof.
  revert a b. induction N as [|N IH]; intros a b [La Wa] [Lb Wb] E.
  - destruct a, b; done.
  - destruct a as [|x a], b as [|y b]; try done. apply words_cons in Wa as [Hx Wa]. apply words_cons in Wb as [Hy Wb].
    cbn [bval length] in *. unfold is_u32 in *. assert (x = y) as -> by lia.
    f_equal. apply IH; [split; [lia | done] | split; [lia | done] | lia].
Qed.

(** ** The accepted signature blocks *)

Lemma drop_nth (l : list Z) n : (n < length l)%nat -> drop n l = nth n l 0 :: drop (S n) l.
Proof.
  revert n. induction l as [|x l IH]; intros [|n] H; simpl in *; try lia; [by rewrite drop_0 |]. apply IH. lia.
Qed.

Lemma forallb_nth_drop (f : Z -> bool) l st m : (st + m <= length l)%nat ->
  forallb (fun i => f (nth i l 0)) (seq st m) = forallb f (take m (drop st l)).
Proof.
  revert st. induction m as [|m IH]; intros st H; [done |].
  rewrite (drop_nth l st) by lia. cbn [seq forallb take]. by rewrite IH by lia.
Qed.

Lemma forallb_eq_replicate x l : forallb (fun y => y =? x) l = true <-> l = replicate (length l) x.
Proof.
  induction l as [|y l IH]; simpl; [done |]. rewrite andb_true_iff, IH, Z.eqb_eq.
  split; [intros [-> ->]; by rewrite length_replicate | by intros [= ? ?]].
Qed.

Lemma hash_matches_spec Plain Hash : (20 <= length Plain)%nat -> length Hash = 20%nat ->
  hash_matches Plain Hash = true <-> take 20 Plain = rev Hash.
Proof.
  intros LP LH. unfold hash_matches. rewrite forallb_forall.
  assert (E : forall i, (i < 20)%nat -> nth (19 - i) Hash 0 = nth i (rev Hash) 0).
  { intros i Hi. rewrite rev_nth by lia. f_equal. lia. }
  assert (T : forall i, (i < 20)%nat -> nth i (take 20 Plain) 0 = nth i Plain 0).
  { intros i Hi. rewrite <- (take_drop 20 Plain) at 2. rewrite app_nth1; [done |]. rewrite length_take. lia. }
  split.
  - intros H. apply (nth_ext _ _ 0 0); [rewrite length_take, length_rev; lia |]. rewrite length_take. intros i Hi.
    rewrite T, <- E by lia. apply Z.eqb_eq, H, in_seq. lia.
  - intros H i Hi%in_seq. apply Z.eqb_eq. rewrite E, <- T, H by lia. done.
Qed.

(** The checks below one prefix amount to the encoding. *)
Lemma block_below_prefix Plain Hash p len : length Plain = len -> (64 <= len)%nat -> (length p <= 20)%nat ->
  take 20 Plain = rev Hash -> take (length p) (drop 20 Plain) = p ->
  (nth (20 + length p) Plain 0 = 0 /\ nth (len - 1) Plain 0 = 0 /\ nth (len - 2) Plain 0 = 1 /\
   forallb (fun i => nth i Plain 0 =? 0xff) (seq (20 + length p + 1) (len - 23 - length p)) = true)
  <-> Plain = pkcs1_encode p Hash len.
Proof.
  intros L H64 Hp H1 H2. unfold pkcs1_encode.
  rewrite (forallb_nth_drop (fun y => y =? 0xff)), forallb_eq_replicate by lia.
  rewrite length_take, length_drop, Nat.min_l by lia.
  assert (D : Plain = rev Hash ++ p ++ [nth (20 + length p) Plain 0] ++
    take (len - 23 - length p) (drop (20 + length p + 1) Plain) ++ [nth (len - 2) Plain 0; nth (len - 1) Plain 0]).
  { rewrite <- (take_drop 20 Plain) at 1. rewrite H1. f_equal.
    rewrite <- (take_drop (length p) (drop 20 Plain)) at 1. rewrite H2, drop_drop. f_equal.
    rewrite (drop_nth Plain (20 + length p)) by lia. cbn [app]. f_equal. replace (S (20 + length p)) with (20 + length p + 1)%nat by lia.
    rewrite <- (take_drop (len - 23 - length p) (drop (20 + length p + 1) Plain)) at 1. f_equal. rewrite drop_drop.
    replace (20 + length p + 1 + (len - 23 - length p))%nat with (len - 2)%nat by lia.
    rewrite (drop_nth Plain (len - 2)), (drop_nth Plain (S (len - 2))) by lia.
    replace (S (len - 2)) with (len - 1)%nat by lia. rewrite drop_ge by lia. done. }
  split.
  - intros (E1 & E2 & E3 & E4). rewrite D at 1. rewrite E1, E2, E3, E4. done.
  - intros E. rewrite E in D at 1. apply app_inv_head, app_inv_head in D. injection D as D1 D2.
    apply app_inj_2 in D2 as [D2 D3]; [| done]. injection D3 as D3 D4. done.
Qed.

(** The two DigestInfo prefixes. *)
Definition prefix_null : list Z := nth 0 XcPkcs1Prefix [].
Definition prefix_bare : list Z := nth 1 XcPkcs1Prefix [].

Lemma prefix_cases p : p ∈ XcPkcs1Prefix <-> p = prefix_null \/ p = prefix_bare.
Proof.
  unfold prefix_null, prefix_bare, XcPkcs1Prefix. rewrite !elem_of_cons. cbn [nth]. split; [| tauto].
  intros [H | [H | H]]; [auto | auto | by apply not_elem_of_nil in H].
Qed.

Lemma encode_match Plain p Hash len : length Hash = 20%nat -> Plain = pkcs1_encode p Hash len ->
  take 20 Plain = rev Hash /\ take (length p) (drop 20 Plain) = p.
Proof.
  intros LH ->. unfold pkcs1_encode. rewrite take_app_length', drop_app_length', take_app_length by (rewrite length_rev; lia). done.
Qed.

(** A block cannot carry both prefixes: the third byte differs. *)
Lemma prefix_exclusive l : take (length prefix_null) l = prefix_null -> take (length prefix_bare) l = prefix_bare -> False.
Proof.
  intros H1 H2. assert (H3 : take 13 (take 15 l) = take 13 prefix_null) by (unfold prefix_null in *; simpl in H1; by rewrite H1).
  rewrite take_take in H3. change (13 `min` 15)%nat with 13%nat in H3.
  change (length prefix_bare) with 13%nat in H2. rewrite H2 in H3. done.
Qed.

Section block_ok.
Context (Plain Hash : list Z) (len : nat).
Context (L : length Plain = len) (H64 : (64 <= len)%nat) (LH : length Hash = 20%nat).

Lemma compare_prefix p : (length p <= 20)%nat ->
  (RtlCompareMemory (drop 20 Plain) p (length p) =? length p)%nat = true <-> take (length p) (drop 20 Plain) = p.
Proof. intros Hp. rewrite RtlCompareMemory_all by (rewrite ?length_drop; lia). by rewrite firstn_all. Qed.

(** The checks made once the prefix is known. *)
Lemma block_rest p : (length p <= 20)%nat -> take 20 Plain = rev Hash -> take (length p) (drop 20 Plain) = p ->
  (if negb (nth (20 + length p) Plain 0 =? 0x00) || negb (nth (len - 1) Plain 0 =? 0x00) || negb (nth (len - 1 - 1) Plain 0 =? 0x01)
   then false else forallb (fun i => nth i Plain 0 =? 0xff) (seq (20 + length p + 1) (len - 1 - 1 - (20 + length p + 1)))) = true
  <-> Plain = pkcs1_encode p Hash len.
Proof.
  intros Hp H1 H2. rewrite <- block_below_prefix by auto. replace (len - 1 - 1)%nat with (len - 2)%nat by lia.
  replace (len - 2 - (20 + length p + 1))%nat with (len - 23 - length p)%nat by lia.
  destruct (Z.eqb_spec (nth (20 + length p) Plain 0) 0), (Z.eqb_spec (nth (len - 1) Plain 0) 0), (Z.eqb_spec (nth (len - 2) Plain 0) 1);
    cbn [negb orb]; split; try tauto; try done.
Qed.

Lemma pkcs1_block_spec : pkcs1_block_ok Plain Hash (len - 1) = true <->
  exists p, p ∈ XcPkcs1Prefix /\ Plain = pkcs1_encode p Hash len.
Proof.
  unfold pkcs1_block_ok. destruct (hash_matches Plain Hash) eqn:EH; cbn [negb].
  2: { split; [done |]. intros (p & _ & E). apply encode_match in E as [H1 _]; [| done].
       apply hash_matches_spec in H1; [congruence | lia | done]. }
  apply hash_matches_spec in EH; [| lia | done]. pose proof (eq_refl (find_prefix Plain XcPkcs1Prefix)) as EF.
  change XcPkcs1Prefix with [prefix_null; prefix_bare] in EF at 2. cbn [find_prefix] in EF.
  destruct (RtlCompareMemory (drop 20 Plain) prefix_null (length prefix_null) =? length prefix_null)%nat eqn:C1.
  { apply compare_prefix in C1; [| simpl; lia]. rewrite EF, (proj2 (Nat.eqb_neq (20 + _) 0)) by (simpl; lia). rewrite block_rest by (auto; simpl; lia).
    split; [intros E; exists prefix_null; split; [apply prefix_cases; auto | exact E] |].
    intros (p & [-> | ->]%prefix_cases & E); [done |]. apply encode_match in E as [_ E]; [| done].
    by destruct (prefix_exclusive _ C1 E). }
  apply not_true_iff_false in C1. rewrite compare_prefix in C1 by (simpl; lia).
  destruct (RtlCompareMemory (drop 20 Plain) prefix_bare (length prefix_bare) =? length prefix_bare)%nat eqn:C2.
  { apply compare_prefix in C2; [| simpl; lia]. rewrite EF, (proj2 (Nat.eqb_neq (20 + _) 0)) by (simpl; lia). rewrite block_rest by (auto; simpl; lia).
    split; [intros E; exists prefix_bare; split; [apply prefix_cases; auto | exact E] |].
    intros (p & [-> | ->]%prefix_cases & E); [| done]. apply encode_match in E as [_ E]; [| done]. by destruct C1. }
  apply not_true_iff_false in C2. rewrite compare_prefix in C2 by (simpl; lia).
  rewrite EF. split; [done |]. intros (p & [-> | ->]%prefix_cases & E); apply encode_match in E as [_ E]; done.
Qed.
End block_ok.

(** ** Properties *)

(** The public operation writes only for a blob with the public magic
    and a modulus of 1 to 512 whole words, and an input - read two words
    wider than the modulus - that is below the modulus.  It then writes the
    input raised to the public exponent modulo the modulus, in the modulus'
    width, and eight zero bytes.  With memory available it never refuses such
    a call. *)
Theorem pk_enc_public_correct k In : bytes k -> bytes In ->
  (forall pool pool' Out, XcpPKEncPublic pool pool' k In = Some Out ->
     exists N R, pub_key k N /\ bval (words_of (N + 2) In) < pub_modulus k N /\ Out = block R /\ bn N R /\
       bval R = bval (words_of (N + 2) In) ^ pub_exponent k mod pub_modulus k N) /\
  (forall N, pub_key k N -> bval (words_of (N + 2) In) < pub_modulus k N ->
     is_Some (XcpPKEncPublic true true k In)).
Proof.
  intros Hk HIn. split.
  - intros pool pool' Out E.
    assert (E' : XcpPKEncPublic true true k In = Some Out /\ exists N, pub_key k N).
    { revert E. unfold XcpPKEncPublic.
      destruct (negb (Z.land (add32 (PK_MODULUS_TOP k) 1) 3 =? 0) || (add32 (PK_MODULUS_TOP k) 1 / 4 =? 0)
        || (Z.of_nat BN_MAX_WORDS <? add32 (PK_MODULUS_TOP k) 1 / 4)) eqn:G; [done |].
      destruct (Z.eqb_spec (PK_MAGIC k) PK_PUBLIC_MAGIC) as [Em | Em]; [| done]. cbn [negb orb].
      destruct (pub_guard k Hk G Em) as (N & HN & _). clear G.
      destruct pool; [| done]. cbn [negb]. destruct (_ || _); [done |]. destruct (negb _); [done |]. intros E. split; [| by exists N].
      destruct (XcpModExp pool' _ _ _ _) eqn:EX; [| done]. apply modexp_pool in EX as EP. rewrite EP in EX. by rewrite EX. }
    destruct E' as [E' [N HN]]. pose proof (enc_spec k N In HN HIn) as S. cbv zeta in S.
    destruct (Z.ltb_spec (bval (words_of (N + 2) In)) (pub_modulus k N)) as [L | L]; [| congruence].
    destruct S as (R & E2 & HR & VR). exists N, R. split; [done |]. split; [done |]. split; [congruence |]. done.
  - intros N HN L. pose proof (enc_spec k N In HN HIn) as S. cbv zeta in S.
    rewrite (proj2 (Z.ltb_lt _ _) L) in S. destruct S as (R & -> & _). by eexists.
Qed.

(** For a private blob whose first prime is not below its second and
    whose coefficient inverts the second prime modulo the first, the private
    operation returns, in the modulus' width and eight zero bytes, the one
    number below the product of the primes that is the input raised to the
    first CRT exponent modulo the first prime and to the second modulo the
    second. *)
Theorem pk_dec_private_crt k h In : priv_key k h -> bytes In -> 0 < prime2 k h <= prime1 k h ->
  (prime2 k h * coefficient k h) mod prime1 k h = 1 mod prime1 k h ->
  let v := bval (words_of (2 * h + 1) In) in
  exists R, XcpPKDecPrivate true true true k In = Some (block R) /\ bn (2 * h) R /\
    0 <= bval R < prime1 k h * prime2 k h /\
    bval R mod prime1 k h = v ^ exponent1 k h mod prime1 k h /\
    bval R mod prime2 k h = v ^ exponent2 k h mod prime2 k h.
Proof.
  intros Hk HIn Hpq Hc v. destruct (dec_spec k h In Hk HIn Hpq) as (R & E & HR & V). exists R. split; [done |].
  split; [done |]. cbv zeta in V. fold v in V.
  destruct (garner (prime1 k h) (prime2 k h) (coefficient k h) (v ^ exponent1 k h mod prime1 k h) (v ^ exponent2 k h mod prime2 k h))
    as (G1 & G2 & G3); try (apply Z.mod_pos_bound); try done; try lia.
  rewrite V. done.
Qed.

(** C3: For an RSA key pair with the first prime the larger, the private
    operation inverts the public one: a block whose value is below the
    modulus is accepted, and deciphering what comes back returns the block
    byte for byte. *)
Theorem rsa_roundtrip pub priv h ws : rsa_pair pub priv h -> prime2 priv h < prime1 priv h -> bn (2 * h) ws -> bval ws < pub_modulus pub (2 * h) ->
  exists c, XcpPKEncPublic true true pub (block ws) = Some c /\
    XcpPKDecPrivate true true true priv c = Some (block ws).
Proof.
  intros (Hpub & Hpriv & Hp & Hq & Hp2 & Hq2 & En & E1 & E2 & Ec) Hord Hws Hlt.
  pose proof (enc_spec pub (2 * h) (block ws) Hpub (block_bytes ws)) as S. cbv zeta in S.
  rewrite (block_value _ _ 2 Hws ltac:(lia)) in S. rewrite (proj2 (Z.ltb_lt _ _) Hlt) in S.
  destruct S as (R & -> & HR & VR). exists (block R). split; [done |].
  destruct (dec_spec priv h (block R) Hpriv (block_bytes R) ltac:(lia)) as (R' & -> & HR' & V'). cbv zeta in V'.
  rewrite (block_value _ _ 1 HR ltac:(lia)), VR in V'. do 2 f_equal.
  apply (bval_inj (2 * h)); try done. pose proof (bn_bound _ _ Hws) as Bw.
  set (p := prime1 priv h) in *. set (q := prime2 priv h) in *. set (e := pub_exponent pub) in *.
  assert (He : 0 <= e) by (destruct (bn_exp_operand pub 1 (proj1 Hpub) ltac:(lia)) as [H1 H2]; pose proof (bn_bound _ _ H1); unfold e; lia).
  assert (Hd1 : 0 <= exponent1 priv h) by (apply (bn_bound h), bytes_crt_field, Hpriv).
  assert (Hd2 : 0 <= exponent2 priv h) by (apply (bn_bound h), bytes_crt_field, Hpriv).
  destruct (garner p q (coefficient priv h) ((bval ws ^ e mod (p * q)) ^ exponent1 priv h mod p)
    ((bval ws ^ e mod (p * q)) ^ exponent2 priv h mod q)) as (G1 & G2 & G3);
    try (apply Z.mod_pos_bound); try lia; [rewrite Ec; by rewrite Z.mod_small by lia |].
  rewrite En in V', Hlt. rewrite <- V' in G1, G2, G3.
  assert (Hres : forall r d, 2 < r -> Z.prime r -> 0 <= d -> (r | p * q) -> (e * d) mod (r - 1) = 1 mod (r - 1) ->
    (bval ws ^ e mod (p * q)) ^ d mod r = bval ws mod r).
  { intros r d Hr Hpr Hd Hdiv Ed. rewrite <- Z.mod_pow_l, Z.mod_mod_divide, Z.mod_pow_l, <- Z.pow_mul_r by done.
    apply fermat_exponent; try done. nia. }
  apply (crt_unique p q); try done; try lia.
  - apply Z.coprime_prime_small; [done | lia].
  - rewrite G1. apply Hres; try done; try lia. apply Z.divide_factor_l.
  - rewrite G2. apply Hres; try done; try lia. apply Z.divide_factor_r.
Qed.

(** C24: Verification answers true exactly when both allocations succeed,
    the key has the public magic and a non-zero modulus of 16 to 512 words,
    and the signature raised to the public exponent is, byte for byte, the
    PKCS#1 v1.5 block of the digest under one of the two DigestInfo
    encodings; no other padding, separator or trailing byte is accepted. *)
Theorem verify_pkcs1_exact pool pool' Signature PubKey Digest :
  bytes Signature -> bytes PubKey -> length Digest = 20%nat ->
  XcpVerifyPKCS1Signature pool pool' Signature PubKey Digest = true <->
  pool = true /\ pool' = true /\ exists N p R,
    pub_key PubKey N /\ (16 <= N)%nat /\ 0 < pub_modulus PubKey N /\ p ∈ XcPkcs1Prefix /\ bn N R /\
    bval R = bval (words_of N Signature) ^ pub_exponent PubKey mod pub_modulus PubKey N /\
    bytes_of R = pkcs1_encode p Digest (4 * N).
Proof.
  intros HS Hk LD. unfold XcpVerifyPKCS1Signature.
  assert (Hrun : forall N, pub_key PubKey N -> (16 <= N)%nat ->
    match XcpModExp pool' (words_of N Signature) (exp_operand PubKey N) (words_of N (PK_MODULUS PubKey)) N with
    | None => false
    | Some Block => pkcs1_block_ok (bytes_of Block) Digest (Z.to_nat (PK_MODULUS_TOP PubKey))
    end = true <-> pool' = true /\ 0 < pub_modulus PubKey N /\ exists p R, p ∈ XcPkcs1Prefix /\ bn N R /\
    bval R = bval (words_of N Signature) ^ pub_exponent PubKey mod pub_modulus PubKey N /\
    bytes_of R = pkcs1_encode p Digest (4 * N)).
  { intros N (_ & HN & HT & _) H16. destruct (bn_exp_operand PubKey N Hk ltac:(lia)) as [HE VE].
    pose proof (bn_words_of N Signature HS) as HSg.
    assert (HM : bn N (words_of N (PK_MODULUS PubKey))) by (apply bn_words_of; unfold PK_MODULUS; auto with bytes).
    pose proof (XcpModExp_spec pool' _ _ _ N HSg HE HM) as S. rewrite VE in S. fold (pub_modulus PubKey N) in S.
    replace (Z.to_nat (PK_MODULUS_TOP PubKey)) with (4 * N - 1)%nat by lia.
    destruct (XcpModExp pool' _ _ _ N) as [B |] eqn:EX.
    - destruct S as (_ & Hm & HB & VB). rewrite pkcs1_block_spec by (rewrite ?length_bytes_of, ?(proj1 HB); lia).
      split.
      + intros (p & Hp & E). split; [by apply modexp_pool in EX |]. split; [done |]. by exists p, B.
      + intros (_ & _ & p & R & Hp & HR & VR & E). exists p. split; [done |].
        by replace B with R by (apply (bval_inj N); congruence).
    - split; [done |]. intros (-> & Hm & _). destruct S as [S | [S | [S | S]]]; (lia || done). }
  destruct (_ || (Z.of_nat BN_MAX_WORDS <? _)) eqn:G.
  { split; [done |]. intros (_ & _ & N & p & R & HN & _). destruct (pub_guard_ok PubKey N HN) as (G' & _). congruence. }
  cbn [orb]. destruct (Z.eqb_spec (PK_MAGIC PubKey) PK_PUBLIC_MAGIC) as [Em | Em]; cbn [negb].
  2: { rewrite orb_true_r. split; [done |]. intros (_ & _ & N & p & R & (_ & _ & _ & Hm) & _). done. }
  destruct (pub_guard PubKey Hk G Em) as (N & HN & EB & EN). rewrite EB, orb_false_r. rewrite EB in EN. rewrite EN.
  assert (Huniq : forall N', pub_key PubKey N' -> N' = N).
  { intros N' (_ & _ & HT' & _). destruct HN as (_ & _ & HT & _). lia. }
  destruct (Z.ltb_spec (4 * Z.of_nat N) 64) as [L | L].
  { split; [done |]. intros (_ & _ & N' & p & R & HN' & H16 & _). rewrite (Huniq N' HN') in H16. lia. }
  destruct pool; cbn [negb]; [| split; [done | by intros [? _]]].
  rewrite (Hrun N HN ltac:(lia)). split.
  - intros (Hp & Hm & p & R & H). split; [done |]. split; [done |]. exists N, p, R. split; [done |]. split; [lia |]. tauto.
  - intros (_ & Hp & N' & p & R & HN' & H16 & Hm & H). rewrite (Huniq N' HN') in *. split; [done |]. split; [done |]. by exists p, R.
Qed.

(** ** Witnesses *)

Lemma small_prime p : 2 < p < 20 -> forallb (fun n => negb (p mod n =? 0)) (map Z.of_nat (seq 2 (Z.to_nat p - 2))) = true -> Z.prime p.
Proof.
  intros Hp H. split; [lia |]. intros n Hn Hd. rewrite forallb_forall in H.
  assert (HI : In n (map Z.of_nat (seq 2 (Z.to_nat p - 2)))).
  { apply in_map_iff. exists (Z.to_nat n). split; [lia |]. apply in_seq. lia. }
  specialize (H n HI). apply Z.mod_divide in Hd; [| lia]. rewrite Hd in H. done.
Qed.

Lemma sample_pub_key n e : pub_key (sample_pub n e) 2.
Proof.
  split; [apply bytes_of_bytes |]. split; [unfold BN_MAX_WORDS; lia |]. split; reflexivity.
Qed.

Lemma sample_priv_key p q dp dq qi : priv_key (sample_priv p q dp dq qi) 1.
Proof.
  split; [apply bytes_of_bytes |]. split; [lia |]. split; [reflexivity |]. split; [by vm_compute |]. split; reflexivity.
Qed.

Lemma pk_enc_public_correct_witness :
  is_Some (XcpPKEncPublic true true (sample_pub 143 7) (block [77; 0])).
Proof.
  apply (proj2 (pk_enc_public_correct (sample_pub 143 7) (block [77; 0]) (bytes_of_bytes _) (block_bytes _)) 2%nat);
    [apply sample_pub_key | by vm_compute].
Defined.

Lemma pk_dec_private_crt_witness :
  exists R, XcpPKDecPrivate true true true (sample_priv 13 11 7 3 6) (block [100; 0]) = Some (block R) /\
    bval R mod 13 = 100 ^ 7 mod 13.
Proof.
  destruct (pk_dec_private_crt (sample_priv 13 11 7 3 6) 1 (block [100; 0]) (sample_priv_key _ _ _ _ _) (block_bytes _))
    as (R & E & _ & _ & H & _); [split; by vm_compute | by vm_compute |].
  exists R. split; [exact E | exact H].
Defined.

Lemma rsa_roundtrip_witness :
  exists c, XcpPKEncPublic true true (sample_pub 143 7) (block [77; 0]) = Some c /\
    XcpPKDecPrivate true true true (sample_priv 13 11 7 3 6) c = Some (block [77; 0]).
Proof.
  apply (rsa_roundtrip (sample_pub 143 7) (sample_priv 13 11 7 3 6) 1 [77; 0]).
  - split; [apply sample_pub_key |]. split; [apply sample_priv_key |].
    split; [apply small_prime; [split; by vm_compute | by vm_compute] |].
    split; [apply small_prime; [split; by vm_compute | by vm_compute] |].
    repeat split; by vm_compute.
  - by vm_compute.
  - split; [done |]. rewrite !words_cons. split; [unfold is_u32; lia | split; [unfold is_u32; lia | constructor]].
  - by vm_compute.
Defined.

Lemma verify_pkcs1_exact_witness :
  XcpVerifyPKCS1Signature true true (pkcs1_encode prefix_null (seqZ 1 20) 64) identity_key (seqZ 1 20) = true.
Proof.
  assert (HB : bytes (pkcs1_encode prefix_null (seqZ 1 20) 64)).
  { assert (Hf : forallb (fun x => (0 <=? x) && (x <? 256)) (pkcs1_encode prefix_null (seqZ 1 20) 64) = true) by (by vm_compute).
    rewrite forallb_forall in Hf. apply Forall_forall. intros x Hx. apply Hf, andb_true_iff in Hx as [? ?].
    unfold is_u8. lia. }
  apply (verify_pkcs1_exact true true _ identity_key (seqZ 1 20) HB (bytes_of_bytes _) eq_refl).
  split; [done |]. split; [done |].
  exists 16%nat, prefix_null, (words_of 16 (pkcs1_encode prefix_null (seqZ 1 20) 64)).
  split; [split; [apply bytes_of_bytes | split; [unfold BN_MAX_WORDS; lia | split; reflexivity]] |].
  split; [lia |]. split; [by vm_compute |]. split; [by apply prefix_cases; left |]. split; [by apply bn_words_of |].
  split; by vm_compute.
Defined.

(** The recombination assumes the first prime is the larger: adding
    the first prime once does not make up a borrow when the second residue
    exceeds the first by more than it.  For the key pair with primes 11 and
    13 in that order, every condition of an RSA key pair holds, the block 77
    is enciphered, and deciphering the result does not return it. *)
Theorem private_op_prime_order :
  exists pub priv ws c, rsa_pair pub priv 1 /\ bn 2 ws /\ bval ws < pub_modulus pub 2 /\
    XcpPKEncPublic true true pub (block ws) = Some c /\
    is_Some (XcpPKDecPrivate true true true priv c) /\
    XcpPKDecPrivate true true true priv c <> Some (block ws).
Proof.
  exists (sample_pub 143 7), (sample_priv 11 13 3 7 6), [77; 0].
  exists (default [] (XcpPKEncPublic true true (sample_pub 143 7) (block [77; 0]))).
  split; [| split; [split; [done |] | split; [by vm_compute | split; [by vm_compute | split]]]].
  - split; [apply sample_pub_key |]. split; [apply sample_priv_key |].
    split; [apply small_prime; [split; by vm_compute | by vm_compute] |].
    split; [apply small_prime; [split; by vm_compute | by vm_compute] |].
    repeat split; by vm_compute.
  - rewrite !words_cons. split; [unfold is_u32; lia | split; [unfold is_u32; lia | constructor]].
  - vm_compute. by eexists.
  - by vm_compute.
Qed.
