(* ===== verification/Sha.v ===== *)
(** * SHA-1 and HMAC-SHA1

    Models [src/sdk/lib/cryptlib/sha1.c] - the rolled compression function
    the Xbox build selects, the unrolled one beside it, the context
    operations - and the SHA and HMAC entries of
    [src/ntoskrnl/xb/crypto.c].  [sha1] is the standard's definition (FIPS
    180): pad the message, split it in blocks, compress each with the 80-word
    schedule.  The theorems show that any sequence of updates computes it,
    through either context layout, that the two compression functions agree,
    and that the keyed and the resumed HMAC compute RFC 2104's. *)

From stdpp Require Import prelude list numbers.
From Stdlib Require Import ZArith Lia.
From S2P Require Import Prelude Bytes.

Local Open Scope Z_scope.

(** ** The compression function *)

Definition rol (value bits : Z) : Z := Z.lor (shl32 value bits) (Z.shiftr value (32 - bits)).

Definition DWORD2BE (x : Z) : Z :=
  Z.lor (Z.lor (Z.lor (Z.land (Z.shiftr x 24) 0xff) (Z.land (Z.shiftr x 8) 0xff00))
    (Z.land (shl32 x 8) 0xff0000)) (Z.land (shl32 x 24) 0xff000000).

(** A word of the block array. *)
Definition blk (Block : list Z) (i : nat) : Z := nth i Block 0.

(** [blk0(i)] and [blk1(i)]: the value, stored back at word [i & 15]. *)
Definition blk0 (Block : list Z) (i : nat) : Z :=
  Z.lor (Z.land (rol (blk Block i) 24) 0xFF00FF00) (Z.land (rol (blk Block i) 8) 0x00FF00FF).

Definition blk1 (Block : list Z) (i : nat) : Z :=
  rol (Z.lxor (Z.lxor (Z.lxor (blk Block ((i + 13) mod 16)) (blk Block ((i + 8) mod 16)))
    (blk Block ((i + 2) mod 16))) (blk Block (i mod 16))) 1.

Definition set_word (Block : list Z) (i : nat) (w : Z) : list Z := <[i := w]> Block.

Definition f1 (x y z : Z) : Z := Z.lxor z (Z.land x (Z.lxor y z)).
Definition f2 (x y z : Z) : Z := Z.lxor (Z.lxor x y) z.
Definition f3 (x y z : Z) : Z := Z.lor (Z.land x y) (Z.land z (Z.lor x y)).
Definition f4 (x y z : Z) : Z := Z.lxor (Z.lxor x y) z.

(** The five working variables, or [State[5]]. *)
Record regs := Regs { ra : Z; rb : Z; rc : Z; rd : Z; re : Z }.

Definition regs_list (s : regs) : list Z := [ra s; rb s; rc s; rd s; re s].

(** One turn of the rolled loop. *)
Definition rolled_round (i : nat) (p : regs * list Z) : regs * list Z :=
  let (s, Block) := p in
  let w := if (i <? 16)%nat then blk0 Block i else blk1 Block i in
  let Block := set_word Block (i mod 16) w in
  let '(f, k) :=
    if (i <? 20)%nat then (f1 (rb s) (rc s) (rd s), 0x5A827999)
    else if (i <? 40)%nat then (f2 (rb s) (rc s) (rd s), 0x6ED9EBA1)
    else if (i <? 60)%nat then (f3 (rb s) (rc s) (rd s), 0x8F1BBCDC)
    else (f4 (rb s) (rc s) (rd s), 0xCA62C1D6) in
  let t := u32 (rol (ra s) 5 + f + re s + k + w) in
  (Regs t (ra s) (rol (rb s) 30) (rc s) (rd s), Block).

Definition rolled_rounds (p : regs * list Z) : regs * list Z :=
  fold_left (fun p i => rolled_round i p) (seq 0 80) p.

(** The [R0] .. [R4] macros of the unrolled form: the new [z] and the new
    block; [w] becomes [rol(w, 30)]. *)
Definition R (v w x y z : Z) (i : nat) (Block : list Z) : Z * list Z :=
  if (i <? 16)%nat then
    let b := blk0 Block i in (u32 (z + (f1 w x y + b + 0x5A827999 + rol v 5)), set_word Block (i mod 16) b)
  else
    let b := blk1 Block i in
    let Block' := set_word Block (i mod 16) b in
    if (i <? 20)%nat then (u32 (z + (f1 w x y + b + 0x5A827999 + rol v 5)), Block')
    else if (i <? 40)%nat then (u32 (z + (f2 w x y + b + 0x6ED9EBA1 + rol v 5)), Block')
    else if (i <? 60)%nat then (u32 (z + (f3 w x y + b + 0x8F1BBCDC + rol v 5)), Block')
    else (u32 (z + (f4 w x y + b + 0xCA62C1D6 + rol v 5)), Block').

(** Five macro calls bring the variables back to their places. *)
Definition unrolled_five (g : nat) (p : regs * list Z) : regs * list Z :=
  let '(Regs a b c d e, B) := p in
  let '(e, B) := R a b c d e (5 * g) B in let b := rol b 30 in
  let '(d, B) := R e a b c d (5 * g + 1) B in let a := rol a 30 in
  let '(c, B) := R d e a b c (5 * g + 2) B in let e := rol e 30 in
  let '(b, B) := R c d e a b (5 * g + 3) B in let d := rol d 30 in
  let '(a, B) := R b c d e a (5 * g + 4) B in let c := rol c 30 in
  (Regs a b c d e, B).

Definition unrolled_rounds (p : regs * list Z) : regs * list Z :=
  fold_left (fun p g => unrolled_five g p) (seq 0 16) p.

Definition add_regs (s t : regs) : regs :=
  Regs (add32 (ra s) (ra t)) (add32 (rb s) (rb t)) (add32 (rc s) (rc t)) (add32 (rd s) (rd t)) (add32 (re s) (re t)).

(** The state after the block, and the buffer, which the schedule
    overwrites. *)
Definition SHA1Transform (State : regs) (Buffer : list Z) : regs * list Z :=
  let (s, Block) := rolled_rounds (State, words_of 16 Buffer) in
  (add_regs State s, bytes_of Block).

(** ** The context *)

Record SHA_CTX := ShaCtx { Buffer : list Z; State : regs; Count0 : Z; Count1 : Z }.

Definition SHA_INIT : regs := Regs 0x67452301 0xEFCDAB89 0x98BADCFE 0x10325476 0xC3D2E1F0.

(** The buffer is left as it was. *)
Definition A_SHAInit (c : SHA_CTX) : SHA_CTX := ShaCtx (Buffer c) SHA_INIT 0 0.

(** The [while] loop of [A_SHAUpdate] and the copy after it: [n] is
    [BufferContentSize].  Every turn consumes at least one byte, so
    [S (length Data)] is fuel enough. *)
Fixpoint update_loop (fuel : nat) (s : regs) (Buf : list Z) (n : nat) (Data : list Z) : regs * list Z :=
  match fuel with
  | O => (s, Buf)
  | S fuel =>
      if (64 <=? n + length Data)%nat then
        let (s', Buf') := SHA1Transform s (write Buf n (take (64 - n) Data)) in
        update_loop fuel s' Buf' 0 (drop (64 - n) Data)
      else (s, write Buf n Data)
  end.

Definition A_SHAUpdate (c : SHA_CTX) (Data : list Z) : SHA_CTX :=
  let Size := Z.of_nat (length Data) in
  let n := Z.to_nat (Z.land (Count1 c) 63) in
  let C1 := add32 (Count1 c) Size in
  let C0 := if C1 <? Size then add32 (Count0 c) 1 else Count0 c in
  let C0 := add32 C0 (Z.shiftr Size 29) in
  if (n + length Data <? 64)%nat then ShaCtx (write (Buffer c) n Data) (State c) C0 C1
  else
    let (s, Buf) := update_loop (S (length Data)) (State c) (Buffer c) n Data in
    ShaCtx Buf s C0 C1.

(** The padding [A_SHAFinal] builds on its stack. *)
Definition final_padding (c : SHA_CTX) : list Z :=
  let n := Z.land (Count1 c) 63 in
  let Pad := if 56 <=? n then 56 + 64 - n else 56 - n in
  let LengthHi := Z.lor (shl32 (Count0 c) 3) (Z.shiftr (Count1 c) (32 - 3)) in
  let LengthLo := shl32 (Count1 c) 3 in
  (0x80 :: replicate (Z.to_nat (Pad - 1)) 0) ++ store32 (DWORD2BE LengthHi) ++ store32 (DWORD2BE LengthLo).

(** The digest as the caller's 20 bytes, and the context, wiped and
    reinitialised. *)
Definition A_SHAFinal (c : SHA_CTX) : list Z * SHA_CTX :=
  let c := A_SHAUpdate c (final_padding c) in
  (bytes_of (map DWORD2BE (regs_list (State c))), A_SHAInit (ShaCtx (replicate 64 0) (State c) (Count0 c) (Count1 c))).

(** ** The console's context layout *)

Record XC_SHA_CONTEXT := XcSha {
  xReserved : list Z; xState : regs; xCount0 : Z; xCount1 : Z; xBuffer : list Z }.

Definition XcpShaLoad (Xc : XC_SHA_CONTEXT) : SHA_CTX :=
  ShaCtx (xBuffer Xc) (xState Xc) (xCount0 Xc) (xCount1 Xc).

Definition XcpShaStore (Xc : XC_SHA_CONTEXT) (Ctx : SHA_CTX) (WholeBuffer : bool) : XC_SHA_CONTEXT :=
  let k := if WholeBuffer then 64%nat else Z.to_nat (Z.land (Count1 Ctx) 63) in
  XcSha (xReserved Xc) (State Ctx) (Count0 Ctx) (Count1 Ctx) (write (xBuffer Xc) 0 (take k (Buffer Ctx))).

Definition XcpSHAInit (Xc : XC_SHA_CONTEXT) : XC_SHA_CONTEXT :=
  XcSha (xReserved Xc) SHA_INIT 0 0 (xBuffer Xc).

Definition XcpSHAUpdate (Xc : XC_SHA_CONTEXT) (Data : list Z) : XC_SHA_CONTEXT :=
  XcpShaStore Xc (A_SHAUpdate (XcpShaLoad Xc) Data) false.

Definition XcpSHAFinal (Xc : XC_SHA_CONTEXT) : list Z * XC_SHA_CONTEXT :=
  let (Digest, Ctx) := A_SHAFinal (XcpShaLoad Xc) in
  (Digest, XcpShaStore Xc Ctx true).

(** ** HMAC *)

(** A stack context before [A_SHAInit]; its buffer holds whatever the stack
    did. *)
Definition stack_ctx (junk : list Z) : SHA_CTX := A_SHAInit (ShaCtx junk SHA_INIT 0 0).

Definition xor_pad (pad : list Z) (word : Z) : list Z := bytes_of (map (fun w => Z.lxor w word) (words_of 16 pad)).

Definition XcpHMAC (junk : list Z) (K I1 I2 : list Z) : list Z :=
  let Kl := if (64 <? length K)%nat then 64%nat else length K in
  let pad := write (replicate 64 0) 0 (take Kl K) in
  let pad1 := xor_pad pad 0x36363636 in
  let pad2 := xor_pad pad 0x5C5C5C5C in
  let c := A_SHAUpdate (stack_ctx junk) pad1 in
  let c := if (0 <? length I1)%nat then A_SHAUpdate c I1 else c in
  let c := if (0 <? length I2)%nat then A_SHAUpdate c I2 else c in
  let (inner, c) := A_SHAFinal c in
  let temp := pad2 ++ inner in
  let c := A_SHAUpdate (A_SHAInit c) temp in
  fst (A_SHAFinal c).

Definition NxkHmacSha1 (junk Key Data : list Z) : list Z := XcpHMAC junk Key Data [].

Definition NxkShaResumedPass (Start : regs) (Data : list Z) : list Z :=
  let Ctx := ShaCtx (replicate 64 0) Start 0 64 in
  fst (A_SHAFinal (A_SHAUpdate Ctx Data)).

Definition NxkShaResumedHmac (InnerState OuterState : regs) (Data : list Z) : list Z :=
  NxkShaResumedPass OuterState (NxkShaResumedPass InnerState Data).

(** ** The standard's definition *)

Module FIPS180.

Definition Ch (x y z : Z) : Z := Z.lxor (Z.land x y) (Z.land (not32 x) z).
Definition Parity (x y z : Z) : Z := Z.lxor (Z.lxor x y) z.
Definition Maj (x y z : Z) : Z := Z.lxor (Z.lxor (Z.land x y) (Z.land x z)) (Z.land y z).

Definition f (t : nat) : Z -> Z -> Z -> Z :=
  if (t <? 20)%nat then Ch else if (t <? 40)%nat then Parity else if (t <? 60)%nat then Maj else Parity.

Definition K (t : nat) : Z :=
  if (t <? 20)%nat then 0x5A827999 else if (t <? 40)%nat then 0x6ED9EBA1
  else if (t <? 60)%nat then 0x8F1BBCDC else 0xCA62C1D6.

(** Big-endian words of a block. *)
Definition be32 (l : list Z) : Z := 2 ^ 24 * nth 0 l 0 + 2 ^ 16 * nth 1 l 0 + 2 ^ 8 * nth 2 l 0 + nth 3 l 0.

Fixpoint be_words (n : nat) (l : list Z) : list Z :=
  match n with
  | O => []
  | S n => be32 l :: be_words n (drop 4 l)
  end.

(** The message schedule, one word at a time. *)
Definition sched_next (W : list Z) : Z :=
  let t := length W in
  rol (Z.lxor (Z.lxor (Z.lxor (nth (t - 3) W 0) (nth (t - 8) W 0)) (nth (t - 14) W 0)) (nth (t - 16) W 0)) 1.

Fixpoint schedule (M : list Z) (n : nat) : list Z :=
  match n with
  | O => M
  | S n => let W := schedule M n in W ++ [sched_next W]
  end.

Definition round (W : list Z) (s : regs) (t : nat) : regs :=
  Regs (u32 (rol (ra s) 5 + f t (rb s) (rc s) (rd s) + re s + K t + nth t W 0)) (ra s) (rol (rb s) 30) (rc s) (rd s).

Definition compress (H : regs) (M : list Z) : regs :=
  add_regs H (fold_left (round (schedule (be_words 16 M) 64)) (seq 0 80) H).

(** The blocks of a message whose length is a multiple of 64. *)
Fixpoint blocks (n : nat) (l : list Z) : list (list Z) :=
  match n with
  | O => []
  | S n => take 64 l :: blocks n (drop 64 l)
  end.

Definition hash_from (H : regs) (l : list Z) : regs := fold_left compress (blocks (length l / 64) l) H.

Definition store_be (n : nat) (x : Z) : list Z := map (fun i => u8 (Z.shiftr x (8 * Z.of_nat i))) (rev (seq 0 n)).

(** The padding after [len] bytes. *)
Definition padding (len : nat) : list Z :=
  0x80 :: replicate ((119 - len mod 64) mod 64) 0 ++ store_be 8 (8 * Z.of_nat len).

Definition digest (H : regs) : list Z := concat (map (store_be 4) (regs_list H)).

Definition sha1 (m : list Z) : list Z := digest (hash_from SHA_INIT (m ++ padding (length m))).

(** RFC 2104 for a key of at most one block. *)
Definition hmac (K m : list Z) : list Z :=
  let K0 := K ++ replicate (64 - length K) 0 in
  sha1 (map (fun b => Z.lxor b 0x5C) K0 ++ sha1 (map (fun b => Z.lxor b 0x36) K0 ++ m)).

End FIPS180.

(** ** Words and their bits *)

Lemma bits_ext32 x y : is_u32 x -> is_u32 y -> (forall i, 0 <= i < 32 -> Z.testbit x i = Z.testbit y i) -> x = y.
Proof.
  intros Hx Hy H. apply Z.bits_inj'. intros i Hi. destruct (Z.lt_ge_cases i 32) as [L | L]; [by apply H |].
  pose proof (log2_u32 x Hx). pose proof (log2_u32 y Hy). unfold is_u32 in *. rewrite !Z.bits_above_log2 by lia. done.
Qed.

Lemma u32_lxor x y : is_u32 x -> is_u32 y -> is_u32 (Z.lxor x y).
Proof.
  intros Hx Hy. assert (0 <= Z.lxor x y) by (apply Z.lxor_nonneg; unfold is_u32 in *; lia). split; [done |]. apply bits_below; [lia | done |].
  intros i Hi. rewrite Z.lxor_spec, !testbit_high by done. done.
Qed.

Lemma u32_land x y : is_u32 x -> 0 <= y -> is_u32 (Z.land x y).
Proof.
  intros Hx Hy. assert (0 <= Z.land x y) by (apply Z.land_nonneg; auto). split; [done |]. apply bits_below; [lia | done |].
  intros i Hi. rewrite Z.land_spec, testbit_high by done. done.
Qed.

Lemma u32_shiftr x n : is_u32 x -> 0 <= n -> is_u32 (Z.shiftr x n).
Proof.
  intros Hx Hn. unfold is_u32 in *. rewrite Z.shiftr_div_pow2 by done. assert (0 < 2 ^ n) by (apply Z.pow_pos_nonneg; lia).
  split; [apply Z.div_pos; lia |]. apply Z.le_lt_trans with x; [| lia]. apply Z.div_le_upper_bound; nia.
Qed.

Lemma u32_rol x n : is_u32 x -> 0 <= n <= 32 -> is_u32 (rol x n).
Proof. intros Hx Hn. apply u32_lor; [apply u32_range | apply u32_shiftr; [done | lia]]. Qed.

Lemma testbit_rol x n i : 0 <= n <= 32 -> 0 <= i ->
  Z.testbit (rol x n) i = ((i <? 32) && Z.testbit x (i - n)) || Z.testbit x (i + (32 - n)).
Proof. intros Hn Hi. unfold rol. rewrite Z.lor_spec, testbit_shl32, Z.shiftr_spec by lia. done. Qed.

(** The low byte and the rest of a number. *)
Lemma testbit_cat a y i : is_u8 a -> 0 <= i ->
  Z.testbit (a + 2 ^ 8 * y) i = if i <? 8 then Z.testbit a i else Z.testbit y (i - 8).
Proof.
  intros Ha Hi. unfold is_u8 in Ha. rewrite Z.add_comm, (Z.mul_comm (2 ^ 8)), <- lor_mul_pow2_small, Z.lor_spec by lia.
  destruct (Z.ltb_spec i 8).
  - rewrite Z.mul_pow2_bits_low by lia. done.
  - rewrite Z.mul_pow2_bits by lia. destruct (Z.eq_dec a 0) as [-> | Hn]; [by rewrite Z.bits_0, orb_false_r |].
    rewrite (Z.bits_above_log2 a); [apply orb_false_r | lia |].
    apply Z.lt_le_trans with 8; [apply Z.log2_lt_pow2; lia | lia].
Qed.

Lemma load32_cat a b c d l : load32 (a :: b :: c :: d :: l) = a + 2 ^ 8 * (b + 2 ^ 8 * (c + 2 ^ 8 * (d + 2 ^ 8 * 0))).
Proof. unfold load32. cbn [nth]. lia. Qed.

(** A bit of a word is a bit of one of its bytes. *)
Lemma testbit_load32 a b c d l i : is_u8 a -> is_u8 b -> is_u8 c -> is_u8 d ->
  Z.testbit (load32 (a :: b :: c :: d :: l)) i =
    if i <? 0 then false else if i <? 8 then Z.testbit a i else if i <? 16 then Z.testbit b (i - 8)
    else if i <? 24 then Z.testbit c (i - 16) else if i <? 32 then Z.testbit d (i - 24) else false.
Proof.
  intros Ha Hb Hc Hd. destruct (Z.ltb_spec i 0) as [Hi | Hi]; [by apply Z.testbit_neg_r |]. rewrite load32_cat. rewrite testbit_cat by done.
  destruct (Z.ltb_spec i 8); [done |]. rewrite testbit_cat by (done || lia).
  replace (i - 8 <? 8) with (i <? 16) by (destruct (Z.ltb_spec i 16), (Z.ltb_spec (i - 8) 8); lia).
  destruct (Z.ltb_spec i 16); [done |]. rewrite testbit_cat by (done || lia).
  replace (i - 8 - 8 <? 8) with (i <? 24) by (destruct (Z.ltb_spec i 24), (Z.ltb_spec (i - 8 - 8) 8); lia).
  replace (i - 8 - 8) with (i - 16) by lia. destruct (Z.ltb_spec i 24); [done |]. rewrite testbit_cat by (done || lia).
  replace (i - 16 - 8 <? 8) with (i <? 32) by (destruct (Z.ltb_spec i 32), (Z.ltb_spec (i - 16 - 8) 8); lia).
  replace (i - 16 - 8) with (i - 24) by lia. destruct (Z.ltb_spec i 32); [done |]. by rewrite Z.bits_0.
Qed.

Lemma is_u8_load a b c d l : is_u8 a -> is_u8 b -> is_u8 c -> is_u8 d -> is_u32 (load32 (a :: b :: c :: d :: l)).
Proof. intros. unfold load32, is_u32, is_u8 in *. cbn [nth]. lia. Qed.

Lemma DWORD2BE_u32 x : is_u32 x -> is_u32 (DWORD2BE x).
Proof.
  intros Hx. unfold DWORD2BE. repeat apply u32_lor; apply u32_land; try lia;
    first [apply u32_range | apply u32_shiftr; [done | lia]].
Qed.

(** Comparing two word expressions bit by bit: the bits of the operands
    become opaque functions and each of the 32 positions is evaluated. *)
Ltac word_bits Hi :=
  repeat match goal with
  | |- context [Z.testbit ?x] => is_var x; generalize (Z.testbit x); intro
  end;
  match type of Hi with 0 <= ?i < 32 =>
    let n := fresh in
    assert (exists n, i = Z.of_nat n /\ (n < 32)%nat) as (n & -> & ?) by (exists (Z.to_nat i); lia);
    do 32 (destruct n as [|n];
      [ vm_compute; repeat match goal with |- context [?f ?k] => match type of (f k) with bool => destruct (f k) end end; reflexivity |]);
    exfalso; lia
  end.

(** Both byte-swapping macros reverse the four bytes. *)
Lemma DWORD2BE_load a b c d : is_u8 a -> is_u8 b -> is_u8 c -> is_u8 d ->
  DWORD2BE (load32 [a; b; c; d]) = load32 [d; c; b; a].
Proof.
  intros Ha Hb Hc Hd. apply bits_ext32; [apply DWORD2BE_u32 | |]; try (by apply is_u8_load).
  intros i Hi. unfold DWORD2BE. rewrite !Z.lor_spec, !Z.land_spec, !testbit_shl32, !Z.shiftr_spec by lia.
  rewrite !testbit_load32 by done. word_bits Hi.
Qed.

Lemma blk0_load a b c d : is_u8 a -> is_u8 b -> is_u8 c -> is_u8 d ->
  blk0 [load32 [a; b; c; d]] 0 = load32 [d; c; b; a].
Proof.
  intros Ha Hb Hc Hd. assert (HL : is_u32 (load32 [a; b; c; d])) by (by apply is_u8_load).
  unfold blk0, blk. cbn [nth].
  apply bits_ext32; [apply u32_lor; (apply u32_land; [apply u32_rol; [done | lia] | lia]) | by apply is_u8_load |].
  intros i Hi. rewrite Z.lor_spec, !Z.land_spec, !testbit_rol by lia. rewrite !testbit_load32 by done. word_bits Hi.
Qed.

(** ** The compression function is the standard's *)

Lemma testbit_not32 x i : is_u32 x -> 0 <= i -> Z.testbit (not32 x) i = (i <? 32) && negb (Z.testbit x i).
Proof.
  intros Hx Hi.
  assert (E : not32 x = Z.ldiff (Z.ones 32) x).
  { rewrite <- Z.sub_nocarry_ldiff; [by unfold not32; rewrite Z.ones_equiv |].
    apply Z.ldiff_ones_r_low; [unfold is_u32 in Hx; lia | by apply log2_u32]. }
  rewrite E, Z.ldiff_spec, Z.testbit_ones by lia. rewrite (proj2 (Z.leb_le 0 i)) by done. done.
Qed.

Lemma f1_Ch x y z : is_u32 x -> is_u32 y -> is_u32 z -> f1 x y z = FIPS180.Ch x y z.
Proof.
  intros Hx Hy Hz. apply Z.bits_inj'. intros i Hi. unfold f1, FIPS180.Ch.
  rewrite !Z.lxor_spec, !Z.land_spec, Z.lxor_spec, testbit_not32 by done.
  destruct (Z.ltb_spec i 32); [by destruct (Z.testbit x i), (Z.testbit y i), (Z.testbit z i) |].
  by rewrite !testbit_high.
Qed.

Lemma f3_Maj x y z : f3 x y z = FIPS180.Maj x y z.
Proof.
  apply Z.bits_inj'. intros i Hi. unfold f3, FIPS180.Maj.
  rewrite Z.lor_spec, !Z.lxor_spec, !Z.land_spec, Z.lor_spec.
  by destruct (Z.testbit x i), (Z.testbit y i), (Z.testbit z i).
Qed.

Definition regs_u32 (s : regs) : Prop := Forall is_u32 (regs_list s).

Lemma regs_u32_iff s : regs_u32 s <-> is_u32 (ra s) /\ is_u32 (rb s) /\ is_u32 (rc s) /\ is_u32 (rd s) /\ is_u32 (re s).
Proof. unfold regs_u32, regs_list. rewrite !Forall_cons_iff. pose proof (Forall_nil is_u32). tauto. Qed.

Lemma add_regs_u32 s t : regs_u32 (add_regs s t).
Proof. apply regs_u32_iff. repeat split; apply u32_range. Qed.

Lemma length_be_words n l : length (FIPS180.be_words n l) = n.
Proof. revert l. induction n; intros l; simpl; auto. Qed.

(** The big-endian words of a block are the swapped little-endian ones. *)
Lemma be_words_swap n l : bytes l -> (4 * n <= length l)%nat ->
  forall j, (j < n)%nat -> nth j (FIPS180.be_words n l) 0 = blk0 (words_of n l) j.
Proof.
  revert l. induction n as [|n IH]; intros l Hl L j Hj; [lia |].
  destruct l as [|a [|b [|c [|d l]]]]; simpl in L; try lia.
  destruct j as [|j]; cbn [FIPS180.be_words words_of drop nth].
  - rewrite !bytes_cons in Hl. destruct Hl as (Ha & Hb & Hc & Hd & _).
    pose proof (blk0_load a b c d Ha Hb Hc Hd) as E. unfold blk0, blk in E |- *. cbn [nth] in *.
    unfold FIPS180.be32, load32 in *. cbn [nth] in *. rewrite E. lia.
  - rewrite IH; [| by rewrite !bytes_cons in Hl; rewrite drop_0; apply Hl | rewrite drop_0; lia | lia]. done.
Qed.

Section schedule.
Context (M : list Z) (LM : length M = 16%nat).

Lemma length_schedule n : length (FIPS180.schedule M n) = (16 + n)%nat.
Proof. induction n as [|n IH]; simpl; [done |]. rewrite length_app, IH. simpl. lia. Qed.

Lemma schedule_prefix n k t : (t < 16 + n)%nat -> nth t (FIPS180.schedule M (n + k)) 0 = nth t (FIPS180.schedule M n) 0.
Proof.
  intros Ht. induction k as [|k IH]; [by rewrite Nat.add_0_r |].
  rewrite Nat.add_succ_r. cbn [FIPS180.schedule]. rewrite app_nth1 by (rewrite length_schedule; lia). done.
Qed.

Lemma schedule_base n t : (t < 16)%nat -> nth t (FIPS180.schedule M n) 0 = nth t M 0.
Proof. intros Ht. apply (schedule_prefix 0 n t). lia. Qed.

Lemma schedule_rec n t : (16 <= t < 16 + n)%nat ->
  let W := FIPS180.schedule M n in
  nth t W 0 = rol (Z.lxor (Z.lxor (Z.lxor (nth (t - 3) W 0) (nth (t - 8) W 0)) (nth (t - 14) W 0)) (nth (t - 16) W 0)) 1.
Proof.
  intros Ht W. unfold W. replace n with (t - 16 + 1 + (n - (t - 16) - 1))%nat by lia.
  rewrite (schedule_prefix (t - 16 + 1)) by lia.
  rewrite !(schedule_prefix (t - 16 + 1) _ (t - _)) by lia.
  replace (t - 16 + 1)%nat with (S (t - 16)) by lia. cbn [FIPS180.schedule].
  set (V := FIPS180.schedule M (t - 16)). assert (LV : length V = t) by (unfold V; rewrite length_schedule; lia).
  rewrite app_nth2 by lia. rewrite LV, Nat.sub_diag. cbn [nth]. unfold FIPS180.sched_next. rewrite LV.
  rewrite !(app_nth1 V) by lia. done.
Qed.

(** The circular buffer before round [i]: the last words of the schedule,
    and the words of the block not yet reached. *)
Definition circular (raw : list Z) (i : nat) (B : list Z) : Prop :=
  length B = 16%nat /\
  (forall j, (j < i <= j + 16)%nat -> blk B (j mod 16) = nth j (FIPS180.schedule M 64) 0) /\
  (forall j, (i <= j < 16)%nat -> blk B j = blk raw j).

Context (raw : list Z) (HR : forall j, (j < 16)%nat -> nth j M 0 = blk0 raw j).

Lemma circular_word i B : (i < 80)%nat -> circular raw i B ->
  (if (i <? 16)%nat then blk0 B i else blk1 B i) = nth i (FIPS180.schedule M 64) 0.
Proof.
  intros Hi (L & H1 & H2). destruct (Nat.ltb_spec i 16) as [Lt | Ge].
  - rewrite schedule_base, HR by lia. unfold blk0. rewrite H2 by lia. done.
  - rewrite schedule_rec by lia. unfold blk1.
    replace ((i + 13) mod 16)%nat with ((i - 3) mod 16)%nat
      by (replace (i + 13)%nat with (i - 3 + 1 * 16)%nat by lia; by rewrite Nat.Div0.mod_add).
    replace ((i + 8) mod 16)%nat with ((i - 8) mod 16)%nat
      by (replace (i + 8)%nat with (i - 8 + 1 * 16)%nat by lia; by rewrite Nat.Div0.mod_add).
    replace ((i + 2) mod 16)%nat with ((i - 14) mod 16)%nat
      by (replace (i + 2)%nat with (i - 14 + 1 * 16)%nat by lia; by rewrite Nat.Div0.mod_add).
    replace (i mod 16)%nat with ((i - 16) mod 16)%nat
      by (replace i with (i - 16 + 1 * 16)%nat at 2 by lia; by rewrite Nat.Div0.mod_add).
    rewrite !H1 by lia. done.
Qed.

Lemma blk_set_eq B i w : length B = 16%nat -> (i < 16)%nat -> blk (set_word B i w) i = w.
Proof. intros L Hi. unfold blk, set_word. apply nth_lookup_Some. apply list_lookup_insert_eq. lia. Qed.

Lemma blk_set_ne B i j w : i <> j -> blk (set_word B i w) j = blk B j.
Proof. intros H. unfold blk, set_word. rewrite !nth_lookup, list_lookup_insert_ne by done. done. Qed.

Lemma circular_step i B : (i < 80)%nat -> circular raw i B ->
  circular raw (S i) (set_word B (i mod 16) (nth i (FIPS180.schedule M 64) 0)).
Proof.
  intros Hi (L & H1 & H2). pose proof (Nat.mod_upper_bound i 16 ltac:(lia)) as Hm. split; [| split].
  - unfold set_word. by rewrite length_insert.
  - intros j Hj. destruct (Nat.eq_dec j i) as [-> | Hne]; [by apply blk_set_eq |].
    rewrite blk_set_ne; [apply H1; lia |]. intros E.
    pose proof (Nat.div_mod i 16 ltac:(lia)). pose proof (Nat.div_mod j 16 ltac:(lia)).
    pose proof (Nat.mod_upper_bound j 16 ltac:(lia)). lia.
  - intros j Hj. rewrite Nat.mod_small by lia. rewrite blk_set_ne by lia. apply H2. lia.
Qed.

Lemma round_u32 W s t : regs_u32 s -> regs_u32 (FIPS180.round W s t).
Proof.
  rewrite !regs_u32_iff. intros (Ha & Hb & Hc & Hd & He). cbn. repeat split; try apply u32_range; try apply Ha; try apply Hc; try apply Hd.
  - apply (u32_rol (rb s) 30); [done | lia].
  - apply (u32_rol (rb s) 30); [done | lia].
Qed.

Lemma rolled_round_eq i s B : (i < 80)%nat -> regs_u32 s -> circular raw i B ->
  rolled_round i (s, B) = (FIPS180.round (FIPS180.schedule M 64) s i, set_word B (i mod 16) (nth i (FIPS180.schedule M 64) 0)).
Proof.
  intros Hi Hs HB. unfold rolled_round. rewrite (circular_word i B Hi HB).
  apply regs_u32_iff in Hs as (Ha & Hb & Hc & Hd & He). unfold FIPS180.round, FIPS180.f, FIPS180.K.
  destruct (i <? 20)%nat; [by rewrite f1_Ch |]. destruct (i <? 40)%nat; [done |].
  destruct (i <? 60)%nat; [by rewrite f3_Maj |]. done.
Qed.

Lemma rolled_rounds_eq n s B : (n <= 80)%nat -> regs_u32 s -> circular raw 0 B ->
  exists B', fold_left (fun p i => rolled_round i p) (seq 0 n) (s, B) =
    (fold_left (FIPS180.round (FIPS180.schedule M 64)) (seq 0 n) s, B') /\ circular raw n B' /\
    regs_u32 (fold_left (FIPS180.round (FIPS180.schedule M 64)) (seq 0 n) s).
Proof.
  intros Hn Hs HB. induction n as [|n IH]; [by exists B |].
  destruct (IH ltac:(lia)) as (B' & E & HB' & Hs'). rewrite seq_S, !fold_left_app. cbn [fold_left Nat.add].
  rewrite E, rolled_round_eq by (done || lia). eexists. split; [reflexivity |].
  split; [apply circular_step; [lia | done] | by apply round_u32].
Qed.
End schedule.

(** The transform is the standard's compression; the buffer it leaves is 64
    bytes of schedule. *)
Lemma SHA1Transform_spec s Buf : regs_u32 s -> bytes Buf -> length Buf = 64%nat ->
  fst (SHA1Transform s Buf) = FIPS180.compress s Buf /\
  length (snd (SHA1Transform s Buf)) = 64%nat /\ bytes (snd (SHA1Transform s Buf)).
Proof.
  intros Hs Hb L. unfold SHA1Transform, rolled_rounds, FIPS180.compress.
  destruct (rolled_rounds_eq (FIPS180.be_words 16 Buf) (length_be_words _ _) (words_of 16 Buf)
    (be_words_swap 16 Buf Hb ltac:(lia)) 80 s (words_of 16 Buf)) as (B' & -> & (LB & _) & _); [lia | done | |].
  { split; [apply length_words_of |]. split; [lia | done]. }
  cbn [fst snd]. split; [done |]. rewrite length_bytes_of, LB. split; [done | apply bytes_of_bytes].
Qed.

(** The rolled and the unrolled loops step alike, whatever they start
    from. *)
Lemma unrolled_five_eq g p : unrolled_five g p = fold_left (fun p i => rolled_round i p) (seq (5 * g) 5) p.
Proof.
  destruct p as [[a b c d e] B]. cbn [seq fold_left].
  assert (RE : forall v w x y z i B0, R v w x y z i B0 =
    (ra (fst (rolled_round i (Regs v w x y z, B0))), snd (rolled_round i (Regs v w x y z, B0)))).
  { intros v w x y z i B0. unfold R, rolled_round. cbn [ra rb rc rd re].
    destruct (Nat.ltb_spec i 16), (Nat.ltb_spec i 20), (Nat.ltb_spec i 40), (Nat.ltb_spec i 60); try lia; cbn [fst snd ra].
    all: rewrite (Z.add_comm z); do 2 f_equal; ring. }
  assert (RS : forall v w x y z i B0, rolled_round i (Regs v w x y z, B0) =
    (Regs (fst (R v w x y z i B0)) v (rol w 30) x y, snd (R v w x y z i B0))).
  { intros. rewrite RE. unfold rolled_round. cbn [ra rb rc rd re fst snd].
    destruct (i <? 20)%nat; [done |]. destruct (i <? 40)%nat; [done |]. by destruct (i <? 60)%nat. }
  unfold unrolled_five. replace (5 * g + 1)%nat with (S (5 * g)) by lia. replace (5 * g + 2)%nat with (S (S (5 * g))) by lia.
  replace (5 * g + 3)%nat with (S (S (S (5 * g)))) by lia. replace (5 * g + 4)%nat with (S (S (S (S (5 * g))))) by lia.
  rewrite RS. destruct (R a b c d e (5 * g) B) as [e1 B1]. cbn [fst snd]. rewrite RS.
  destruct (R e1 a (rol b 30) c d _ B1) as [d1 B2]. cbn [fst snd]. rewrite RS.
  destruct (R d1 e1 (rol a 30) (rol b 30) c _ B2) as [c1 B3]. cbn [fst snd]. rewrite RS.
  destruct (R c1 d1 (rol e1 30) (rol a 30) (rol b 30) _ B3) as [b1 B4]. cbn [fst snd]. rewrite RS.
  by destruct (R b1 c1 (rol d1 30) (rol e1 30) (rol a 30) _ B4) as [a1 B5].
Qed.

(** ** Streaming *)

Lemma compress_u32 s l : regs_u32 (FIPS180.compress s l).
Proof. apply add_regs_u32. Qed.

Lemma blocks_app a b x y : length x = (64 * a)%nat ->
  FIPS180.blocks (a + b) (x ++ y) = FIPS180.blocks a x ++ FIPS180.blocks b y.
Proof.
  revert x. induction a as [|a IH]; intros x L; simpl in L.
  - destruct x; [done | simpl in L; lia].
  - cbn [Nat.add FIPS180.blocks app]. rewrite take_app_le, drop_app_le by lia. f_equal.
    apply IH. rewrite length_drop. lia.
Qed.

Lemma fold_compress_u32 bs s : regs_u32 s -> regs_u32 (fold_left FIPS180.compress bs s).
Proof. revert s. induction bs as [|b bs IH]; intros s Hs; [done |]. apply IH, compress_u32. Qed.

(** The loop of [A_SHAUpdate] on the pending bytes [X]: whole blocks are
    compressed in order, the rest stays at the front of the buffer. *)
Lemma update_loop_spec fuel s Buf n D : (length D < fuel)%nat -> regs_u32 s -> bytes Buf -> bytes D ->
  length Buf = 64%nat -> (n < 64)%nat ->
  let X := take n Buf ++ D in
  let k := (length X / 64)%nat in
  let (s', Buf') := update_loop fuel s Buf n D in
  s' = fold_left FIPS180.compress (FIPS180.blocks k X) s /\ regs_u32 s' /\ bytes Buf' /\ length Buf' = 64%nat /\
  take (length X mod 64) Buf' = drop (64 * k) X.
Proof.
  revert s Buf n D. induction fuel as [|fuel IH]; intros s Buf n D Hf Hs HB HD LB Hn X k; [lia |].
  assert (LX : length X = (n + length D)%nat) by (unfold X; rewrite length_app, length_take; lia).
  cbn [update_loop]. destruct (Nat.leb_spec 64 (n + length D)) as [L | L].
  - assert (EW : write Buf n (take (64 - n) D) = take 64 X).
    { unfold write, X. rewrite length_take, Nat.min_l, (drop_ge Buf), app_nil_r by lia.
      rewrite take_app_ge by (rewrite length_take; lia). by replace (length (take n Buf)) with n by (rewrite length_take; lia). }
    rewrite EW.
    assert (HX : bytes X) by (apply bytes_app; split; auto with bytes).
    destruct (SHA1Transform_spec s (take 64 X) Hs) as (E1 & E2 & E3); [auto with bytes | rewrite length_take; lia |].
    destruct (SHA1Transform s (take 64 X)) as [s1 B1]. cbn [fst snd] in *.
    assert (ED : drop (64 - n) D = drop 64 X).
    { unfold X. rewrite drop_app_ge by (rewrite length_take; lia). f_equal. rewrite length_take. lia. }
    rewrite ED. specialize (IH s1 B1 0%nat (drop 64 X)). cbv zeta in IH. rewrite take_0 in IH. cbn [app] in IH.
    rewrite length_drop in IH. assert (Ek : k = S ((length X - 64) / 64)).
    { unfold k. replace (length X) with (length X - 64 + 1 * 64)%nat at 1 by lia. rewrite Nat.div_add by lia. lia. }
    assert (Em : (length X mod 64 = (length X - 64) mod 64)%nat).
    { replace (length X) with (length X - 64 + 1 * 64)%nat at 1 by lia. by rewrite Nat.Div0.mod_add. }
    destruct (update_loop fuel s1 B1 0 (drop 64 X)) as [s' B'].
    destruct IH as (I1 & I2 & I3 & I4 & I5); [lia | rewrite E1; apply compress_u32 | done | auto with bytes | done | lia |].
    rewrite Ek, Em. cbn [FIPS180.blocks fold_left]. split; [by rewrite <- E1 |]. split; [done |]. split; [done |]. split; [done |].
    rewrite I5, drop_drop. f_equal. lia.
  - assert (k = 0)%nat as -> by (apply Nat.div_small; lia). cbn [FIPS180.blocks fold_left Nat.mul]. rewrite drop_0.
    split; [done |]. split; [done |]. rewrite Nat.mod_small by lia. unfold write. split; [| split].
    + rewrite !bytes_app. auto with bytes.
    + rewrite !length_app, length_take, length_drop. lia.
    + rewrite app_assoc, take_app_length'; [done |]. rewrite LX, length_app, length_take. lia.
Qed.

(** A context that has absorbed [msg] after [base] bytes accounted for by
    the state [H]: the message so far is [base / 64] blocks and [msg]. *)
Definition absorbed (H : regs) (base : nat) (msg : list Z) (c : SHA_CTX) : Prop :=
  let n := length msg in
  State c = fold_left FIPS180.compress (FIPS180.blocks (n / 64) msg) H /\ regs_u32 (State c) /\
  (base mod 64 = 0)%nat /\ Count1 c + 2 ^ 32 * Count0 c = Z.of_nat (base + n) /\ is_u32 (Count1 c) /\ is_u32 (Count0 c) /\
  length (Buffer c) = 64%nat /\ bytes (Buffer c) /\ take (n mod 64) (Buffer c) = drop (64 * (n / 64)) msg.

Lemma count_low H base msg c : absorbed H base msg c -> Z.to_nat (Z.land (Count1 c) 63) = (length msg mod 64)%nat.
Proof.
  intros (_ & _ & Hb & Hc & H1 & _). change 63 with (Z.ones 6). rewrite Z.land_ones by lia. change (2 ^ 6) with 64.
  replace (Count1 c) with (Z.of_nat (base + length msg) + (- 2 ^ 26 * Count0 c) * 64) by lia.
  rewrite Z.mod_add by lia. change 64 with (Z.of_nat 64). rewrite <- Nat2Z.inj_mod, Nat2Z.id.
  rewrite Nat.Div0.add_mod, Hb, Nat.add_0_l, Nat.Div0.mod_mod. done.
Qed.

Lemma length_tail (msg : list Z) : length (drop (64 * (length msg / 64)) msg) = (length msg mod 64)%nat.
Proof. rewrite length_drop. pose proof (Nat.div_mod (length msg) 64 ltac:(lia)). lia. Qed.

(** The count after an update of less than half a gigabyte. *)
Lemma count_update c0 c1 n size : is_u32 c0 -> is_u32 c1 -> c1 + 2 ^ 32 * c0 = n -> 0 <= size < 2 ^ 29 -> n + size < 2 ^ 64 ->
  let C1 := add32 c1 size in
  let C0 := add32 (if C1 <? size then add32 c0 1 else c0) (Z.shiftr size 29) in
  C1 + 2 ^ 32 * C0 = n + size /\ is_u32 C1 /\ is_u32 C0.
Proof.
  intros H0 H1 E Hs Hlt C1 C0. unfold C0, C1, is_u32 in *. rewrite Z.shiftr_div_pow2, (Z.div_small size) by lia.
  unfold add32, u32. rewrite Z.add_0_r. destruct (Z.lt_ge_cases (c1 + size) (2 ^ 32)) as [L | L].
  - rewrite (Z.mod_small (c1 + size)) by lia. rewrite (proj2 (Z.ltb_ge _ _)) by lia. rewrite Z.mod_small by lia. lia.
  - replace ((c1 + size) mod 2 ^ 32) with (c1 + size - 2 ^ 32)
      by (rewrite <- (Z.mod_add _ (-1)) by lia; rewrite Z.mod_small; lia).
    rewrite (proj2 (Z.ltb_lt _ _)) by lia. rewrite Z.mod_mod, Z.mod_small by lia. lia.
Qed.

Lemma absorbed_update H base msg c D : absorbed H base msg c -> bytes D ->
  Z.of_nat (length D) < 2 ^ 29 -> Z.of_nat (base + length msg + length D) < 2 ^ 64 ->
  absorbed H base (msg ++ D) (A_SHAUpdate c D).
Proof.
  intros Habs HD HL HT. pose proof (count_low _ _ _ _ Habs) as En.
  destruct Habs as (HS & HSu & Hb & Hc & H1 & H0 & LB & HB & HT0). unfold A_SHAUpdate. rewrite En.
  set (n := (length msg mod 64)%nat) in *. assert (Hn : (n < 64)%nat) by (apply Nat.mod_upper_bound; lia).
  pose proof (count_update (Count0 c) (Count1 c) _ (Z.of_nat (length D)) H0 H1 Hc ltac:(lia) ltac:(lia)) as (C1 & C2 & C3).
  assert (EU : (if (n + length D <? 64)%nat then (State c, write (Buffer c) n D)
    else update_loop (S (length D)) (State c) (Buffer c) n D) = update_loop (S (length D)) (State c) (Buffer c) n D).
  { cbn [update_loop]. destruct (Nat.ltb_spec (n + length D) 64) as [L | L]; [| done].
    rewrite (proj2 (Nat.leb_gt _ _)) by lia. done. }
  pose proof (update_loop_spec (S (length D)) (State c) (Buffer c) n D ltac:(lia) HSu HB HD LB Hn) as U. cbv zeta in U.
  rewrite HT0 in U. rewrite <- EU in U. set (k := (length msg / 64)%nat) in *.
  pose proof (length_tail msg) as LT. fold k n in LT. set (X := drop (64 * k) msg ++ D) in *.
  assert (LX : length X = (n + length D)%nat) by (unfold X; rewrite length_app; lia).
  pose proof (Nat.div_mod (length msg) 64 ltac:(lia)) as Dm. fold k n in Dm.
  assert (Ediv : (length (msg ++ D) / 64 = k + length X / 64)%nat).
  { rewrite length_app, Dm, LX. replace (64 * k + n + length D)%nat with (n + length D + k * 64)%nat by lia.
    rewrite Nat.div_add by lia. lia. }
  assert (Emod : (length (msg ++ D) mod 64 = length X mod 64)%nat).
  { rewrite length_app, Dm, LX. replace (64 * k + n + length D)%nat with (n + length D + k * 64)%nat by lia.
    by rewrite Nat.Div0.mod_add. }
  assert (EX : msg ++ D = take (64 * k) msg ++ X) by (unfold X; by rewrite app_assoc, take_drop).
  assert (Ltk : length (take (64 * k) msg) = (64 * k)%nat) by (rewrite length_take; lia).
  assert (Eblk : FIPS180.blocks (k + length X / 64) (msg ++ D) = FIPS180.blocks k msg ++ FIPS180.blocks (length X / 64) X).
  { rewrite EX, blocks_app by done. f_equal. rewrite <- (take_drop (64 * k) msg) at 2.
    rewrite <- (Nat.add_0_r k) at 3. rewrite blocks_app by done. cbn [FIPS180.blocks]. by rewrite app_nil_r. }
  assert (Edrop : drop (64 * (k + length X / 64)) (msg ++ D) = drop (64 * (length X / 64)) X).
  { rewrite EX, drop_app_ge by lia. f_equal. lia. }
  unfold absorbed. rewrite Ediv, Emod, Eblk, Edrop, fold_left_app, <- HS, length_app.
  destruct (n + length D <? 64)%nat; [| destruct (update_loop (S (length D)) (State c) (Buffer c) n D) as [s' B'] in U |- *];
    destruct U as (U1 & U2 & U3 & U4 & U5); cbn [State Buffer Count0 Count1]; repeat (split; [first [done | lia] |]); done.
Qed.

(** ** Finalisation *)

Lemma store_DWORD2BE x : is_u32 x -> store32 (DWORD2BE x) = FIPS180.store_be 4 x.
Proof.
  intros Hx. rewrite <- (load_store x [] Hx) at 1. rewrite app_nil_r. unfold store32 at 2.
  rewrite DWORD2BE_load by apply u8_is. rewrite store_load by apply u8_is. done.
Qed.

Lemma store_be_8 hi lo : is_u32 hi -> is_u32 lo ->
  FIPS180.store_be 8 (2 ^ 32 * hi + lo) = FIPS180.store_be 4 hi ++ FIPS180.store_be 4 lo.
Proof.
  intros Hh Hl. unfold is_u32 in *.
  assert (Hhi : forall k, 0 <= k -> Z.shiftr (2 ^ 32 * hi + lo) (32 + k) = Z.shiftr hi k).
  { intros k Hk. rewrite !Z.shiftr_div_pow2, Z.pow_add_r, <- Z.div_div by lia.
    rewrite Z.add_comm, (Z.mul_comm (2 ^ 32)), Z.div_add, (Z.div_small lo), Z.add_0_l by lia. done. }
  assert (Hlo : forall k, 0 <= k <= 24 -> u8 (Z.shiftr (2 ^ 32 * hi + lo) k) = u8 (Z.shiftr lo k)).
  { intros k Hk. rewrite !Z.shiftr_div_pow2 by lia. unfold u8. assert (0 < 2 ^ k) by (apply Z.pow_pos_nonneg; lia).
    replace (2 ^ 32 * hi + lo) with (lo + (2 ^ (24 - k) * hi * 2 ^ 8) * 2 ^ k).
    - rewrite Z.div_add by lia. by rewrite Z.mod_add by lia.
    - replace (2 ^ 32) with (2 ^ (24 - k) * 2 ^ 8 * 2 ^ k); [ring |]. rewrite <- !Z.pow_add_r by lia. f_equal. lia. }
  unfold FIPS180.store_be. cbn [rev seq app map].
  change (8 * Z.of_nat 7) with (32 + 24). change (8 * Z.of_nat 6) with (32 + 16).
  change (8 * Z.of_nat 5) with (32 + 8). change (8 * Z.of_nat 4) with (32 + 0).
  rewrite !Hhi by lia. rewrite !Hlo by lia. done.
Qed.

Lemma final_padding_spec H base msg c : absorbed H base msg c -> Z.of_nat (base + length msg) < 2 ^ 61 ->
  final_padding c = FIPS180.padding (base + length msg).
Proof.
  intros Habs HT. pose proof (count_low _ _ _ _ Habs) as En.
  destruct Habs as (_ & _ & Hb & Hc & H1 & H0 & _). unfold is_u32 in *. unfold final_padding, FIPS180.padding.
  assert (Em : ((base + length msg) mod 64 = length msg mod 64)%nat).
  { by rewrite Nat.Div0.add_mod, Hb, Nat.add_0_l, Nat.Div0.mod_mod. }
  rewrite Em, <- En. assert (Hn : 0 <= Z.land (Count1 c) 63 < 64).
  { change 63 with (Z.ones 6). rewrite Z.land_ones by lia. apply Z.mod_pos_bound. lia. }
  set (n := Z.land (Count1 c) 63) in *. cbn [app]. f_equal. f_equal.
  { f_equal. destruct (Z.leb_spec 56 n).
    - rewrite Nat.mod_small; lia.
    - replace (119 - Z.to_nat n)%nat with (55 - Z.to_nat n + 1 * 64)%nat by lia. rewrite Nat.Div0.mod_add, Nat.mod_small; lia. }
  assert (Hhi : Z.lor (shl32 (Count0 c) 3) (Z.shiftr (Count1 c) (32 - 3)) = Count0 c * 2 ^ 3 + Count1 c / 2 ^ 29).
  { unfold shl32. rewrite Z.shiftl_mul_pow2, u32_id, Z.shiftr_div_pow2 by lia. change (32 - 3) with 29.
    rewrite lor_mul_pow2_small; [done | lia |]. split; [apply Z.div_pos; lia | apply Z.div_lt_upper_bound; lia]. }
  assert (Hq : 0 <= Count1 c / 2 ^ 29 < 8) by (split; [apply Z.div_pos; lia | apply Z.div_lt_upper_bound; lia]).
  pose proof (u32_range (Z.shiftl (Count1 c) 3)) as Hlo. fold (shl32 (Count1 c) 3) in Hlo.
  rewrite Hhi, !store_DWORD2BE by (unfold is_u32; lia). rewrite <- store_be_8 by (unfold is_u32; lia). f_equal.
  unfold shl32, u32. rewrite Z.shiftl_mul_pow2 by lia. change (2 ^ 32) with (2 ^ 29 * 2 ^ 3) at 2.
  rewrite Z.mul_mod_distr_r by lia. pose proof (Z.div_mod (Count1 c) (2 ^ 29)). lia.
Qed.

Lemma length_padding n : ((n + length (FIPS180.padding n)) mod 64 = 0)%nat /\ (length (FIPS180.padding n) <= 72)%nat.
Proof.
  unfold FIPS180.padding. cbn [length]. rewrite length_app, length_replicate.
  replace (length (FIPS180.store_be 8 (8 * Z.of_nat n))) with 8%nat by done.
  pose proof (Nat.mod_upper_bound (119 - n mod 64) 64 ltac:(lia)). pose proof (Nat.mod_upper_bound n 64 ltac:(lia)). split; [| lia].
  pose proof (Nat.div_mod n 64 ltac:(lia)) as Dn. rewrite Dn at 1.
  destruct (Nat.lt_ge_cases (119 - n mod 64) 64) as [L | L].
  - rewrite (Nat.mod_small (119 - n mod 64)) by lia.
    replace (64 * (n / 64) + n mod 64 + S (119 - n mod 64 + 8))%nat with ((n / 64 + 2) * 64)%nat by lia. apply Nat.Div0.mod_mul.
  - assert (E : ((119 - n mod 64) mod 64 = 55 - n mod 64)%nat).
    { replace (119 - n mod 64)%nat with (55 - n mod 64 + 1 * 64)%nat by lia. rewrite Nat.Div0.mod_add. apply Nat.mod_small. lia. }
    rewrite E.
    replace (64 * (n / 64) + n mod 64 + S (55 - n mod 64 + 8))%nat with ((n / 64 + 1) * 64)%nat by lia. apply Nat.Div0.mod_mul.
Qed.

Lemma bytes_padding n : bytes (FIPS180.padding n).
Proof.
  unfold FIPS180.padding. apply bytes_cons. split; [unfold is_u8; lia |]. apply bytes_app. split; [apply bytes_zero |].
  unfold FIPS180.store_be. apply Forall_map, Forall_true. intros i. apply u8_is.
Qed.

Lemma digest_spec s : regs_u32 s -> bytes_of (map DWORD2BE (regs_list s)) = FIPS180.digest s.
Proof.
  intros H. unfold bytes_of, FIPS180.digest. rewrite flat_map_concat_map, map_map. unfold regs_u32 in H.
  f_equal. induction H as [|x l Hx _ IH]; simpl; [done |]. rewrite IH. f_equal. by apply store_DWORD2BE.
Qed.

Lemma final_spec H base msg c : absorbed H base msg c -> Z.of_nat (base + length msg) < 2 ^ 61 ->
  fst (A_SHAFinal c) = FIPS180.digest (FIPS180.hash_from H (msg ++ FIPS180.padding (base + length msg))).
Proof.
  intros Habs HT. unfold A_SHAFinal. cbn [fst]. rewrite (final_padding_spec _ _ _ _ Habs HT).
  pose proof (length_padding (base + length msg)) as [E L]. pose proof Habs as (_ & _ & Hb & _).
  pose proof (absorbed_update H base msg c (FIPS180.padding (base + length msg)) Habs (bytes_padding _) ltac:(lia) ltac:(lia)) as (HS & HSu & _).
  rewrite digest_spec by done. rewrite HS. done.
Qed.

Lemma final_wipes c : snd (A_SHAFinal c) = ShaCtx (replicate 64 0) SHA_INIT 0 0.
Proof. done. Qed.

Lemma init_u32 : regs_u32 SHA_INIT.
Proof. apply regs_u32_iff. cbn. unfold is_u32. lia. Qed.

Lemma absorbed_start H base c : regs_u32 H -> (base mod 64 = 0)%nat -> Z.of_nat base < 2 ^ 32 ->
  State c = H -> Count0 c = 0 -> Count1 c = Z.of_nat base -> length (Buffer c) = 64%nat -> bytes (Buffer c) ->
  absorbed H base [] c.
Proof.
  intros HH Hb Hlt HS H0 H1 LB HB. unfold absorbed. rewrite HS, H0, H1. unfold is_u32. cbn.
  repeat (split; [first [done | lia] |]). done.
Qed.

(** Absorbing a list of buffers, each below half a gigabyte. *)
Lemma absorbed_chunks H base msg c chunks : absorbed H base msg c -> Forall bytes chunks ->
  Forall (fun d => Z.of_nat (length d) < 2 ^ 29) chunks -> Z.of_nat (base + length msg + length (concat chunks)) < 2 ^ 64 ->
  absorbed H base (msg ++ concat chunks) (fold_left A_SHAUpdate chunks c).
Proof.
  intros Habs HB. revert msg c Habs. induction HB as [|d ds Hd HB IH]; intros msg c Habs HL HT.
  - cbn [concat fold_left]. by rewrite app_nil_r.
  - apply Forall_cons_iff in HL as [Ld HL]. cbn [concat fold_left] in *. rewrite length_app in HT. rewrite app_assoc.
    apply IH; [| done | rewrite length_app; lia]. apply absorbed_update; try done. lia.
Qed.

(** ** The console's contexts *)

(** Only the buffered bytes matter, so a store that copies just those keeps
    what the context has absorbed. *)
Lemma absorbed_store H base msg Xc c : absorbed H base msg c -> length (xBuffer Xc) = 64%nat -> bytes (xBuffer Xc) ->
  absorbed H base msg (XcpShaLoad (XcpShaStore Xc c false)) /\
  length (xBuffer (XcpShaStore Xc c false)) = 64%nat /\ bytes (xBuffer (XcpShaStore Xc c false)).
Proof.
  intros Habs LX HX. pose proof (count_low _ _ _ _ Habs) as En.
  destruct Habs as (A1 & A2 & A3 & A4 & A5 & A6 & A7 & A8 & A9). unfold absorbed, XcpShaLoad, XcpShaStore, write.
  cbn [State Count0 Count1 Buffer xState xCount0 xCount1 xBuffer]. rewrite En, take_0. cbn [app Nat.add].
  assert (Hm : (length msg mod 64 < 64)%nat) by (apply Nat.mod_upper_bound; lia).
  assert (LT : length (take (length msg mod 64) (Buffer c)) = (length msg mod 64)%nat) by (rewrite length_take; lia).
  assert (L64 : length (take (length msg mod 64) (Buffer c) ++ drop (length (take (length msg mod 64) (Buffer c))) (xBuffer Xc)) = 64%nat).
  { rewrite length_app, length_drop. lia. }
  assert (HB : bytes (take (length msg mod 64) (Buffer c) ++ drop (length (take (length msg mod 64) (Buffer c))) (xBuffer Xc))).
  { apply bytes_app. auto with bytes. }
  split; [| done]. rewrite take_app_length' by done. repeat (split; [done |]). done.
Qed.

Lemma xc_chunks msg Xc chunks : absorbed SHA_INIT 0 msg (XcpShaLoad Xc) ->
  length (xBuffer Xc) = 64%nat -> bytes (xBuffer Xc) -> Forall bytes chunks ->
  Forall (fun d => Z.of_nat (length d) < 2 ^ 29) chunks -> Z.of_nat (length msg + length (concat chunks)) < 2 ^ 64 ->
  let Xc' := fold_left XcpSHAUpdate chunks Xc in
  absorbed SHA_INIT 0 (msg ++ concat chunks) (XcpShaLoad Xc') /\ xReserved Xc' = xReserved Xc /\
  length (xBuffer Xc') = 64%nat.
Proof.
  intros Habs LX HX HB. revert msg Xc Habs LX HX. induction HB as [|d ds Hd HB IH]; intros msg Xc Habs LX HX HL HT.
  - cbn [concat fold_left]. by rewrite app_nil_r.
  - apply Forall_cons_iff in HL as [Ld HL]. cbn [concat fold_left] in *. rewrite length_app in HT. rewrite app_assoc.
    assert (H1 : absorbed SHA_INIT 0 (msg ++ d) (A_SHAUpdate (XcpShaLoad Xc) d)) by (apply absorbed_update; try done; lia).
    destruct (absorbed_store _ _ _ Xc _ H1 LX HX) as (H2 & H3 & H4).
    destruct (IH _ _ H2 H3 H4 HL) as (I1 & I2 & I3); [rewrite length_app; lia |].
    split; [exact I1 |]. split; [exact I2 | exact I3].
Qed.

(** ** HMAC *)

Lemma load32_xor a b c d w : is_u8 a -> is_u8 b -> is_u8 c -> is_u8 d -> is_u8 w ->
  store32 (Z.lxor (load32 [a; b; c; d]) (load32 [w; w; w; w])) = [Z.lxor a w; Z.lxor b w; Z.lxor c w; Z.lxor d w].
Proof.
  intros Ha Hb Hc Hd Hw.
  assert (HX : bytes (xor_bytes [a; b; c; d] [w; w; w; w])) by (apply xor_bytes_bytes; rewrite !bytes_cons; repeat (split; [done |]); constructor).
  cbn [xor_bytes zip_with] in HX. rewrite !bytes_cons in HX. destruct HX as (Xa & Xb & Xc & Xd & _).
  rewrite <- (store_load _ _ _ _ [] Xa Xb Xc Xd). f_equal. apply bits_ext32.
  - apply u32_lxor; by apply is_u8_load.
  - by apply is_u8_load.
  - intros i Hi. rewrite Z.lxor_spec, !testbit_load32 by done.
    destruct (i <? 0); [done |]. destruct (i <? 8); [by rewrite Z.lxor_spec |]. destruct (i <? 16); [by rewrite Z.lxor_spec |].
    destruct (i <? 24); [by rewrite Z.lxor_spec |]. destruct (i <? 32); [by rewrite Z.lxor_spec | done].
Qed.

(** Xoring the pad word by word is xoring it byte by byte. *)
Lemma xor_pad_bytes pad b word : bytes pad -> length pad = 64%nat -> is_u8 b -> word = load32 [b; b; b; b] ->
  xor_pad pad word = map (fun x => Z.lxor x b) pad.
Proof.
  intros Hp L Hb ->. unfold xor_pad.
  assert (G : forall n l, bytes l -> length l = (4 * n)%nat ->
    bytes_of (map (fun w => Z.lxor w (load32 [b; b; b; b])) (words_of n l)) = map (fun x => Z.lxor x b) l).
  { induction n as [|n IH]; intros l Hl Ll.
    - destruct l; [done | simpl in Ll; lia].
    - destruct l as [|x [|y [|z [|t l]]]]; simpl in Ll; try lia. rewrite !bytes_cons in Hl.
      destruct Hl as (Hx & Hy & Hz & Ht & Hl). cbn [words_of map bytes_of flat_map drop].
      change (load32 (x :: y :: z :: t :: l)) with (load32 [x; y; z; t]). rewrite load32_xor by done. cbn [app]. do 4 f_equal.
      rewrite drop_0. apply IH; [done | lia]. }
  apply (G 16%nat); [done | lia].
Qed.

Definition key_block (K : list Z) : list Z := K ++ replicate (64 - length K) 0.

Lemma key_block_ok K : bytes K -> (length K <= 64)%nat -> bytes (key_block K) /\ length (key_block K) = 64%nat.
Proof.
  intros HK LK. unfold key_block. rewrite bytes_app, length_app, length_replicate. split; [split; [done | apply bytes_zero] | lia].
Qed.

Lemma bytes_map_lxor l b : bytes l -> is_u8 b -> bytes (map (fun x => Z.lxor x b) l).
Proof.
  intros Hl Hb. induction Hl as [|x l Hx _ IH]; cbn [map]; [constructor |]. apply bytes_cons. split; [| done].
  assert (H : bytes (xor_bytes [x] [b])) by (apply xor_bytes_bytes; apply bytes_cons; split; (done || constructor)).
  apply bytes_cons in H. apply H.
Qed.

Lemma digest_bytes s : bytes (FIPS180.digest s) /\ length (FIPS180.digest s) = 20%nat.
Proof.
  split; [| done]. unfold FIPS180.digest, regs_list. cbn [map concat]. rewrite !bytes_app.
  assert (H : forall x, bytes (FIPS180.store_be 4 x)) by (intros x; apply Forall_map, Forall_true; intros; apply u8_is).
  repeat (split; [apply H |]). constructor.
Qed.

(** A fresh context fed with a list of buffers. *)
Lemma hash_chunks junk chunks : length junk = 64%nat -> bytes junk -> Forall bytes chunks ->
  Forall (fun d => Z.of_nat (length d) < 2 ^ 29) chunks -> Z.of_nat (length (concat chunks)) < 2 ^ 61 ->
  fst (A_SHAFinal (fold_left A_SHAUpdate chunks (stack_ctx junk))) = FIPS180.sha1 (concat chunks).
Proof.
  intros LJ HJ HB HL HT. assert (H0 : absorbed SHA_INIT 0 [] (stack_ctx junk)).
  { apply absorbed_start; try done; apply init_u32. }
  pose proof (absorbed_chunks _ _ _ _ chunks H0 HB HL) as H1. cbn [app length] in H1.
  rewrite (final_spec _ _ _ _ (H1 ltac:(lia))) by (cbn [app]; lia). done.
Qed.

Lemma hmac_key (K : list Z) : take (if (64 <? length K)%nat then 64%nat else length K) K = take 64 K.
Proof. destruct (Nat.ltb_spec 64 (length K)); [done |]. by rewrite !take_ge by lia. Qed.

(** The updates of a segment that is skipped when empty. *)
Definition seg (d : list Z) : list (list Z) := if (0 <? length d)%nat then [d] else [].

Lemma concat_seg d : concat (seg d) = d.
Proof. destruct d; [done |]. cbn. by rewrite app_nil_r. Qed.

Lemma Forall_seg (P : list Z -> Prop) d : P d -> Forall P (seg d).
Proof. intros H. unfold seg. destruct (0 <? length d)%nat; repeat constructor. done. Qed.

Lemma fold_seg c d : fold_left A_SHAUpdate (seg d) c = if (0 <? length d)%nat then A_SHAUpdate c d else c.
Proof. unfold seg. by destruct (0 <? length d)%nat. Qed.

(** ** Properties *)

(** the rolled compression loop the Xbox build compiles and the
    unrolled one compute the same variables and leave the same block, from
    any variables and any block. *)
Theorem rolled_is_unrolled p : rolled_rounds p = unrolled_rounds p.
Proof.
  unfold rolled_rounds, unrolled_rounds.
  assert (G : forall n, fold_left (fun p i => rolled_round i p) (seq 0 (5 * n)) p = fold_left (fun p g => unrolled_five g p) (seq 0 n) p).
  { induction n as [|n IH]; [done |]. replace (5 * S n)%nat with (5 * n + 5)%nat by lia.
    rewrite seq_app, (seq_S n), !fold_left_app, IH. symmetry. apply unrolled_five_eq. }
  apply (G 16%nat).
Qed.

(** C7: Initialising a caller's context, whatever it held, updating it
    with any buffers below 2^29 bytes each and 2^61 in all, and finalising it
    yields the SHA-1 digest (FIPS 180) of their concatenation, leaves the 24
    reserved bytes alone and the context initialised with a zeroed buffer. *)
Theorem xc_sha_streaming Xc chunks : length (xBuffer Xc) = 64%nat -> bytes (xBuffer Xc) -> Forall bytes chunks ->
  Forall (fun d => Z.of_nat (length d) < 2 ^ 29) chunks -> Z.of_nat (length (concat chunks)) < 2 ^ 61 ->
  XcpSHAFinal (fold_left XcpSHAUpdate chunks (XcpSHAInit Xc)) =
    (FIPS180.sha1 (concat chunks), XcSha (xReserved Xc) SHA_INIT 0 0 (replicate 64 0)).
Proof.
  intros LX HX HB HL HT.
  assert (H0 : absorbed SHA_INIT 0 [] (XcpShaLoad (XcpSHAInit Xc))) by (apply absorbed_start; try done; apply init_u32).
  destruct (xc_chunks [] (XcpSHAInit Xc) chunks H0 LX HX HB HL ltac:(cbn [length]; lia)) as (H1 & H2 & H3). cbn [app] in H1.
  set (Xc' := fold_left XcpSHAUpdate chunks (XcpSHAInit Xc)) in *.
  pose proof (final_spec _ _ _ _ H1 ltac:(lia)) as F. pose proof (final_wipes (XcpShaLoad Xc')) as W. unfold XcpSHAFinal.
  destruct (A_SHAFinal (XcpShaLoad Xc')) as [dg c]. cbn [fst snd] in F, W. subst c. rewrite F. f_equal.
  unfold XcpShaStore, write. cbn [State Count0 Count1 Buffer]. rewrite H2. f_equal. cbn [take replicate length Nat.add app].
  rewrite drop_ge by lia. done.
Qed.

(** [XcpHMAC] is the HMAC of RFC 2104 over the two segments joined,
    for the first 64 bytes of the key: a segment of length zero is skipped
    without effect, and the bytes of a longer key past the sixty-fourth are
    ignored. *)
Theorem xc_hmac_correct junk K I1 I2 : length junk = 64%nat -> bytes junk -> bytes K -> bytes I1 -> bytes I2 ->
  Z.of_nat (length I1) < 2 ^ 29 -> Z.of_nat (length I2) < 2 ^ 29 ->
  XcpHMAC junk K I1 I2 = FIPS180.hmac (take 64 K) (I1 ++ I2).
Proof.
  intros LJ HJ HK H1 H2 L1 L2. unfold XcpHMAC, FIPS180.hmac. rewrite hmac_key.
  assert (Ep : write (replicate 64 0) 0 (take 64 K) = key_block (take 64 K)).
  { unfold write, key_block. rewrite take_0, drop_replicate. done. }
  rewrite Ep. destruct (key_block_ok (take 64 K)) as [HB LB]; [auto with bytes | rewrite length_take; lia |].
  rewrite (xor_pad_bytes _ 0x36 0x36363636), (xor_pad_bytes _ 0x5C 0x5C5C5C5C) by (done || (unfold is_u8; lia)).
  change (take 64 K ++ replicate (64 - length (take 64 K)) 0) with (key_block (take 64 K)).
  set (ipad := map (fun b => Z.lxor b 0x36) _). set (opad := map (fun b => Z.lxor b 0x5C) _).
  assert (Hi : bytes ipad /\ length ipad = 64%nat).
  { unfold ipad. rewrite length_map. split; [apply bytes_map_lxor; [done | unfold is_u8; lia] | done]. }
  assert (Ho : bytes opad /\ length opad = 64%nat).
  { unfold opad. rewrite length_map. split; [apply bytes_map_lxor; [done | unfold is_u8; lia] | done]. }
  set (segs := seg I1 ++ seg I2).
  assert (Es : concat segs = I1 ++ I2) by (unfold segs; by rewrite concat_app, !concat_seg).
  assert (Hs : Forall bytes (ipad :: segs) /\ Forall (fun d => Z.of_nat (length d) < 2 ^ 29) (ipad :: segs)).
  { split; (apply Forall_cons_iff; split; [first [apply Hi | destruct Hi; lia] |]); apply Forall_app; split; by apply Forall_seg. }
  assert (Ef : (let c := A_SHAUpdate (stack_ctx junk) ipad in
    let c := if (0 <? length I1)%nat then A_SHAUpdate c I1 else c in
    if (0 <? length I2)%nat then A_SHAUpdate c I2 else c) = fold_left A_SHAUpdate (ipad :: segs) (stack_ctx junk)).
  { unfold segs. cbn [fold_left]. by rewrite fold_left_app, !fold_seg. }
  cbv zeta in Ef |- *. rewrite Ef.
  pose proof (hash_chunks junk (ipad :: segs) LJ HJ (proj1 Hs) (proj2 Hs)) as EI. cbn [concat] in EI.
  rewrite Es, !length_app, (proj2 Hi) in EI. specialize (EI ltac:(lia)).
  pose proof (final_wipes (fold_left A_SHAUpdate (ipad :: segs) (stack_ctx junk))) as W.
  destruct (A_SHAFinal (fold_left A_SHAUpdate (ipad :: segs) (stack_ctx junk))) as [inner c]. cbn [fst snd] in EI, W. subst c.
  rewrite EI. set (h := FIPS180.sha1 (ipad ++ I1 ++ I2)).
  assert (Hh : bytes h /\ length h = 20%nat) by apply digest_bytes.
  pose proof (hash_chunks (replicate 64 0) [opad ++ h] eq_refl (bytes_zero 64)) as EO. cbn [concat fold_left] in EO.
  rewrite app_nil_r in EO. apply EO.
  - repeat constructor. apply bytes_app. tauto.
  - repeat constructor. rewrite length_app. lia.
  - rewrite length_app. lia.
Qed.

Lemma hash_from_block H b l : length b = 64%nat -> FIPS180.hash_from H (b ++ l) = FIPS180.hash_from (FIPS180.compress H b) l.
Proof.
  intros L. unfold FIPS180.hash_from. rewrite length_app, L.
  replace (64 + length l)%nat with (length l + 1 * 64)%nat by lia. rewrite Nat.div_add by lia.
  replace (length l / 64 + 1)%nat with (1 + length l / 64)%nat by lia. rewrite blocks_app by lia.
  cbn [FIPS180.blocks]. rewrite take_ge by lia. done.
Qed.

Lemma resumed_pass H b D : bytes D -> length b = 64%nat -> Z.of_nat (length D) < 2 ^ 29 ->
  NxkShaResumedPass (FIPS180.compress H b) D = FIPS180.digest (FIPS180.hash_from H ((b ++ D) ++ FIPS180.padding (length (b ++ D)))).
Proof.
  intros HD Lb LD. unfold NxkShaResumedPass.
  assert (H0 : absorbed (FIPS180.compress H b) 64 [] (ShaCtx (replicate 64 0) (FIPS180.compress H b) 0 64)).
  { apply absorbed_start; try done; [apply compress_u32 | apply bytes_zero]. }
  pose proof (absorbed_update _ _ _ _ D H0 HD LD ltac:(cbn [length]; lia)) as H1. cbn [app] in H1.
  rewrite (final_spec _ _ _ _ H1) by lia. 
  rewrite <- app_assoc, (hash_from_block H b), length_app, Lb by done.
  done.
Qed.

(** The resumed HMAC needs only the two chaining states: given the
    states that compressing the inner and the outer padded key from the
    standard start yields, it returns the HMAC of the message under that
    key. *)
Theorem resumed_hmac_correct K Data : bytes K -> (length K <= 64)%nat -> bytes Data -> Z.of_nat (length Data) < 2 ^ 29 ->
  NxkShaResumedHmac (FIPS180.compress SHA_INIT (map (fun b => Z.lxor b 0x36) (key_block K)))
    (FIPS180.compress SHA_INIT (map (fun b => Z.lxor b 0x5C) (key_block K))) Data = FIPS180.hmac K Data.
Proof.
  intros HK LK HD LD. destruct (key_block_ok K HK LK) as [_ LB]. unfold NxkShaResumedHmac, FIPS180.hmac.
  fold (key_block K). set (ipad := map (fun b => Z.lxor b 0x36) _). set (opad := map (fun b => Z.lxor b 0x5C) _).
  assert (EI : NxkShaResumedPass (FIPS180.compress SHA_INIT ipad) Data = FIPS180.sha1 (ipad ++ Data)).
  { apply resumed_pass; [done | unfold ipad; by rewrite length_map | done]. }
  rewrite EI. destruct (digest_bytes (FIPS180.hash_from SHA_INIT ((ipad ++ Data) ++ FIPS180.padding (length (ipad ++ Data))))) as [H1 H2].
  apply resumed_pass; [exact H1 | unfold opad; by rewrite length_map | unfold FIPS180.sha1; rewrite H2; lia].
Qed.

(** The byte count is kept in two words, but an update also adds its size
    shifted right by 29 to the high one, as a count of bits would need: a
    single buffer of half a gigabyte or more leaves a count larger than the
    bytes absorbed. *)
Theorem sha_count_large_update c D : Count0 c = 0 -> Count1 c = 0 -> 2 ^ 29 <= Z.of_nat (length D) < 2 ^ 32 ->
  Count1 (A_SHAUpdate c D) = Z.of_nat (length D) /\ 1 <= Count0 (A_SHAUpdate c D).
Proof.
  intros H0 H1 HD. set (L := Z.of_nat (length D)) in *.
  assert (E : Count1 (A_SHAUpdate c D) = add32 (Count1 c) L /\
    Count0 (A_SHAUpdate c D) = add32 (if add32 (Count1 c) L <? L then add32 (Count0 c) 1 else Count0 c) (Z.shiftr L 29)).
  { unfold A_SHAUpdate. destruct (_ <? 64)%nat; [done |]. by destruct (update_loop _ _ _ _ _). }
  destruct E as [-> ->]. rewrite H0, H1. unfold add32 at 1 3. rewrite Z.add_0_l, u32_id by lia. rewrite Z.ltb_irrefl.
  split; [done |]. rewrite Z.shiftr_div_pow2 by lia.
  assert (1 <= L / 2 ^ 29) by (apply Z.div_le_lower_bound; lia). assert (L / 2 ^ 29 < 8) by (apply Z.div_lt_upper_bound; lia).
  unfold add32. rewrite u32_id; lia.
Qed.

(** ** Witnesses *)

Definition ascii_abc : list Z := [0x61; 0x62; 0x63].

Lemma bytes_check l : forallb (fun x => (0 <=? x) && (x <? 256)) l = true -> bytes l.
Proof.
  intros H. rewrite forallb_forall in H. apply Forall_forall. intros x Hx. apply H, andb_true_iff in Hx as [? ?]. unfold is_u8. lia.
Qed.

(** The standard's test vector, in two buffers. *)
Lemma xc_sha_streaming_witness :
  fst (XcpSHAFinal (fold_left XcpSHAUpdate [[0x61]; [0x62; 0x63]] (XcpSHAInit (XcSha [7] SHA_INIT 1 2 (replicate 64 0xAA))))) =
    [0xa9; 0x99; 0x3e; 0x36; 0x47; 0x06; 0x81; 0x6a; 0xba; 0x3e; 0x25; 0x71; 0x78; 0x50; 0xc2; 0x6c; 0x9c; 0xd0; 0xd8; 0x9d].
Proof.
  rewrite (xc_sha_streaming (XcSha [7] SHA_INIT 1 2 (replicate 64 0xAA)) [[0x61]; [0x62; 0x63]]);
    [by vm_compute | done | by apply bytes_check | repeat constructor; unfold is_u8; lia | repeat constructor | done].
Defined.

Lemma xc_hmac_correct_witness :
  XcpHMAC (replicate 64 0) ascii_abc [1; 2] [3] = FIPS180.hmac ascii_abc [1; 2; 3].
Proof.
  exact (xc_hmac_correct (replicate 64 0) ascii_abc [1; 2] [3] eq_refl (bytes_zero 64) (bytes_check ascii_abc eq_refl)
    (bytes_check [1; 2] eq_refl) (bytes_check [3] eq_refl) eq_refl eq_refl).
Defined.

Lemma resumed_hmac_correct_witness :
  NxkShaResumedHmac (FIPS180.compress SHA_INIT (map (fun b => Z.lxor b 0x36) (key_block ascii_abc)))
    (FIPS180.compress SHA_INIT (map (fun b => Z.lxor b 0x5C) (key_block ascii_abc))) [9] = FIPS180.hmac ascii_abc [9].
Proof.
  apply (resumed_hmac_correct ascii_abc [9]); [by apply bytes_check | simpl; lia | by apply bytes_check | done].
Defined.
