(* ===== verification/Rc4.v ===== *)
(** * RC4

    Models [src/sdk/lib/cryptlib/rc4.c] and the RC4 entries of
    [src/ntoskrnl/xb/crypto.c].  The state array stays a permutation of the
    256 bytes, so every index the cipher forms is in bounds; the keystream
    does not depend on the data, so running the cipher twice from the same
    context gives the data back, however either run is cut into calls. *)

From stdpp Require Import prelude list numbers sorting.
From Stdlib Require Import ZArith Lia.
From S2P Require Import Prelude Bytes.

Local Open Scope Z_scope.

Record RC4_CONTEXT := Rc4Ctx { state : list Z; cx : Z; cy : Z }.

(** [state[i]], and a store to it. *)
Definition at_ (s : list Z) (i : Z) : Z := nth (Z.to_nat i) s 0.
Definition put (s : list Z) (i v : Z) : list Z := <[Z.to_nat i := v]> s.

(** The second loop of [rc4_init], for the indices [idx]. *)
Fixpoint init_loop (key : list Z) (keyLen : Z) (idx : list Z) (keyIndex stateIndex : Z) (s : list Z) : list Z :=
  match idx with
  | [] => s
  | i :: idx' =>
      let a := at_ s i in
      let stateIndex := Z.land (add32 stateIndex (at_ key keyIndex + a)) 0xff in
      let s := put s i (at_ s stateIndex) in
      let s := put s stateIndex a in
      let keyIndex := add32 keyIndex 1 in
      let keyIndex := if keyLen <=? keyIndex then 0 else keyIndex in
      init_loop key keyLen idx' keyIndex stateIndex s
  end.

Definition rc4_init (key : list Z) (keyLen : Z) : RC4_CONTEXT :=
  Rc4Ctx (init_loop key keyLen (seqZ 0 256) 0 0 (seqZ 0 256)) 0 0.

(** One turn of [rc4_crypt]: the next byte of the keystream. *)
Definition rc4_next (c : RC4_CONTEXT) : RC4_CONTEXT * Z :=
  let x := Z.land (cx c + 1) 0xff in
  let a := at_ (state c) x in
  let y := Z.land (cy c + a) 0xff in
  let b := at_ (state c) y in
  let s := put (put (state c) x b) y a in
  (Rc4Ctx s x y, at_ s (Z.land (a + b) 0xff)).

Fixpoint rc4_crypt (c : RC4_CONTEXT) (data : list Z) : RC4_CONTEXT * list Z :=
  match data with
  | [] => (c, [])
  | d :: data' =>
      let (c1, k) := rc4_next c in
      let (c2, out) := rc4_crypt c1 data' in
      (c2, Z.lxor d k :: out)
  end.

Definition XcpRC4Key (KeyLen : Z) (KeyData : list Z) : RC4_CONTEXT := rc4_init KeyData KeyLen.

(** [Len] bytes of [Data] in place; the rest of the buffer is untouched. *)
Definition XcpRC4Crypt (c : RC4_CONTEXT) (Len : nat) (Data : list Z) : RC4_CONTEXT * list Z :=
  let (c', out) := rc4_crypt c (take Len Data) in (c', out ++ drop Len Data).

(** ** The state is a permutation *)

Definition rc4_ok (c : RC4_CONTEXT) : Prop :=
  state c ≡ₚ seqZ 0 256 /\ is_u8 (cx c) /\ is_u8 (cy c).

Lemma land_ff x : is_u8 (Z.land x 0xff).
Proof. change 0xff with (Z.ones 8). rewrite Z.land_ones by lia. apply Z.mod_pos_bound. lia. Qed.

Lemma length_perm s : s ≡ₚ seqZ 0 256 -> length s = 256%nat.
Proof. intros H. by rewrite (Permutation_length H). Qed.

Lemma at_lookup s i : is_u8 i -> length s = 256%nat -> s !! Z.to_nat i = Some (at_ s i).
Proof.
  intros Hi L. unfold at_, is_u8 in *. destruct (lookup_lt_is_Some_2 s (Z.to_nat i)) as [v E]; [lia |].
  rewrite E. f_equal. symmetry. by apply nth_lookup_Some.
Qed.

Lemma at_u8 s i : is_u8 i -> s ≡ₚ seqZ 0 256 -> is_u8 (at_ s i).
Proof.
  intros Hi H. pose proof (at_lookup s i Hi (length_perm s H)) as E. apply list_elem_of_lookup_2 in E.
  revert E. generalize (at_ s i). intros v E. rewrite H in E. apply elem_of_seqZ in E. unfold is_u8. lia.
Qed.

Lemma insert_insert_swap {A} (s : list A) i j a b : s !! i = Some a -> s !! j = Some b -> <[j := a]> (<[i := b]> s) ≡ₚ s.
Proof.
  intros Ha Hb. destruct (decide (i = j)) as [-> | Hne].
  - rewrite list_insert_insert_eq. assert (a = b) as -> by congruence. by rewrite list_insert_id.
  - apply Permutation_inj. split; [by rewrite !length_insert |].
    exists (fun k => if decide (k = i) then j else if decide (k = j) then i else k). split.
    + intros x y Hxy. repeat case_decide; congruence.
    + intros k. destruct (decide (k = j)) as [-> | H1].
      * rewrite list_lookup_insert_eq by (rewrite length_insert; by eapply lookup_lt_Some).
        repeat case_decide; congruence.
      * rewrite list_lookup_insert_ne by done. destruct (decide (k = i)) as [-> | H2].
        -- rewrite list_lookup_insert_eq by (by eapply lookup_lt_Some). congruence.
        -- by rewrite list_lookup_insert_ne.
Qed.

(** The exchange both loops perform. *)
Lemma swap_perm s i j : is_u8 i -> is_u8 j -> s ≡ₚ seqZ 0 256 ->
  put (put s i (at_ s j)) j (at_ s i) ≡ₚ seqZ 0 256.
Proof.
  intros Hi Hj H. pose proof (length_perm s H) as L.
  transitivity s; [| done]. apply insert_insert_swap; by apply at_lookup.
Qed.

Lemma init_loop_perm key keyLen idx ki si s : Forall is_u8 idx -> s ≡ₚ seqZ 0 256 ->
  init_loop key keyLen idx ki si s ≡ₚ seqZ 0 256.
Proof.
  intros HI. revert ki si s. induction HI as [|i idx Hi _ IH]; intros ki si s H; [done |].
  cbn [init_loop]. apply IH. apply swap_perm; [done | apply land_ff | done].
Qed.

Lemma rc4_next_ok c : rc4_ok c -> rc4_ok (fst (rc4_next c)) /\ is_u8 (snd (rc4_next c)).
Proof.
  intros (H & Hx & Hy). unfold rc4_next. cbn [fst snd].
  set (x := Z.land (cx c + 1) 0xff). set (y := Z.land (cy c + at_ (state c) x) 0xff).
  assert (HP : put (put (state c) x (at_ (state c) y)) y (at_ (state c) x) ≡ₚ seqZ 0 256)
    by (apply swap_perm; [apply land_ff | apply land_ff | done]).
  split; [split; [done | split; apply land_ff] |]. apply at_u8; [apply land_ff | done].
Qed.

(** ** The keystream *)

Fixpoint keystream (c : RC4_CONTEXT) (n : nat) : RC4_CONTEXT * list Z :=
  match n with
  | O => (c, [])
  | S n => let (c1, k) := rc4_next c in let (c2, ks) := keystream c1 n in (c2, k :: ks)
  end.

Lemma crypt_keystream c data :
  rc4_crypt c data = (fst (keystream c (length data)), xor_bytes data (snd (keystream c (length data)))).
Proof.
  revert c. induction data as [|d data IH]; intros c; [done |].
  cbn [rc4_crypt keystream length]. destruct (rc4_next c) as [c1 k]. rewrite IH.
  by destruct (keystream c1 (length data)) as [c2 ks].
Qed.

Lemma length_keystream c n : length (snd (keystream c n)) = n.
Proof.
  revert c. induction n as [|n IH]; intros c; [done |]. cbn [keystream]. destruct (rc4_next c) as [c1 k].
  specialize (IH c1). destruct (keystream c1 n) as [c2 ks]. cbn in *. lia.
Qed.

Lemma crypt_involutive c data : snd (rc4_crypt c (snd (rc4_crypt c data))) = data.
Proof.
  rewrite !crypt_keystream. cbn [snd]. rewrite length_xor_bytes by (by rewrite length_keystream).
  apply xor_bytes_cancel. by rewrite length_keystream.
Qed.

Lemma length_crypt c data : length (snd (rc4_crypt c data)) = length data.
Proof. rewrite crypt_keystream. cbn [snd]. apply length_xor_bytes. by rewrite length_keystream. Qed.

Lemma crypt_app c a b :
  rc4_crypt c (a ++ b) =
    (fst (rc4_crypt (fst (rc4_crypt c a)) b), snd (rc4_crypt c a) ++ snd (rc4_crypt (fst (rc4_crypt c a)) b)).
Proof.
  revert c. induction a as [|d a IH]; intros c; cbn [rc4_crypt app fst snd]; [by destruct (rc4_crypt c b) |].
  destruct (rc4_next c) as [c1 k]. rewrite IH. destruct (rc4_crypt c1 a) as [c2 o]. done.
Qed.

Lemma crypt_ok c data : rc4_ok c -> bytes data ->
  rc4_ok (fst (rc4_crypt c data)) /\ bytes (snd (rc4_crypt c data)).
Proof.
  intros Hc Hd. revert c Hc. induction Hd as [|d data Hd _ IH]; intros c Hc; cbn [rc4_crypt]; [split; [done | constructor] |].
  destruct (rc4_next_ok c Hc) as [H1 H2]. destruct (rc4_next c) as [c1 k]. cbn [fst snd] in *.
  destruct (IH c1 H1) as [I1 I2]. destruct (rc4_crypt c1 data) as [c2 o]. cbn [fst snd] in *.
  split; [done |]. apply bytes_cons. split; [| done].
  assert (HX : bytes (xor_bytes [d] [k])) by (apply xor_bytes_bytes; apply bytes_cons; split; (done || constructor)).
  by apply bytes_cons in HX as [? _].
Qed.

(** A run of calls, one buffer each: the final context and the outputs
    joined. *)
Definition crypt_calls (c : RC4_CONTEXT) (bufs : list (list Z)) : RC4_CONTEXT * list Z :=
  fold_left (fun p b => let (c', o) := XcpRC4Crypt (fst p) (length b) b in (c', snd p ++ o)) bufs (c, []).

Lemma crypt_calls_concat c bufs : crypt_calls c bufs = rc4_crypt c (concat bufs).
Proof.
  unfold crypt_calls.
  assert (G : forall bufs c o, fold_left (fun p b => let (c', o) := XcpRC4Crypt (fst p) (length b) b in (c', snd p ++ o)) bufs (c, o) =
    (fst (rc4_crypt c (concat bufs)), o ++ snd (rc4_crypt c (concat bufs)))).
  { clear. induction bufs as [|b bufs IH]; intros c o; cbn [fold_left concat]; [cbn; by rewrite app_nil_r |].
    unfold XcpRC4Crypt at 2. cbn [fst snd]. rewrite firstn_all, (drop_ge b (length b)) by done. rewrite crypt_app.
    destruct (rc4_crypt c b) as [c1 o1]. rewrite IH. cbn [fst snd]. by rewrite app_nil_r, app_assoc. }
  rewrite G. by destruct (rc4_crypt c (concat bufs)).
Qed.

(** ** Properties *)

(** C35: After the key schedule, for any key and length, and after any
    further calls on byte buffers, the state array is a permutation of the
    values 0 to 255 and both indices are bytes: every array access of the
    cipher is in bounds, and what it writes are bytes. *)
Theorem rc4_state_permutation KeyLen KeyData bufs : Forall bytes bufs ->
  rc4_ok (fst (crypt_calls (XcpRC4Key KeyLen KeyData) bufs)) /\
  bytes (snd (crypt_calls (XcpRC4Key KeyLen KeyData) bufs)).
Proof.
  intros HB. rewrite crypt_calls_concat. apply crypt_ok; [| by apply Forall_concat].
  split; [| split; cbn; unfold is_u8; lia]. apply init_loop_perm; [| done].
  apply Forall_forall. intros i Hi. apply elem_of_seqZ in Hi. unfold is_u8. lia.
Qed.

(** Two parties that key their contexts alike undo each other: data
    enciphered in one run of calls and deciphered in another, cut into
    buffers differently, comes back unchanged, and the two contexts end up
    equal. *)
Theorem rc4_roundtrip KeyLen KeyData plain cut :
  concat cut = snd (crypt_calls (XcpRC4Key KeyLen KeyData) plain) ->
  crypt_calls (XcpRC4Key KeyLen KeyData) cut =
    (fst (crypt_calls (XcpRC4Key KeyLen KeyData) plain), concat plain).
Proof.
  rewrite !crypt_calls_concat. intros ->. set (c := XcpRC4Key KeyLen KeyData). rewrite !crypt_keystream. cbn [fst snd].
  assert (L : length (xor_bytes (concat plain) (snd (keystream c (length (concat plain))))) = length (concat plain))
    by (apply length_xor_bytes; by rewrite length_keystream).
  rewrite L. f_equal. apply xor_bytes_cancel. by rewrite length_keystream.
Qed.

Lemma rc4_state_permutation_witness :
  bytes (snd (crypt_calls (XcpRC4Key 3 [0x4B; 0x65; 0x79]) [[0x50; 0x6C]; [0x61]])).
Proof.
  apply (rc4_state_permutation 3 [0x4B; 0x65; 0x79] [[0x50; 0x6C]; [0x61]]).
  repeat constructor; unfold is_u8; lia.
Defined.

(** The key "Key" and the text "Plaintext", whose ciphertext is
    BBF316E8D940AF0AD3. *)
Lemma rc4_roundtrip_witness :
  snd (crypt_calls (XcpRC4Key 3 [0x4B; 0x65; 0x79]) [[0xBB; 0xF3; 0x16]; [0xE8; 0xD9; 0x40; 0xAF; 0x0A; 0xD3]]) =
    [0x50; 0x6C; 0x61; 0x69; 0x6E; 0x74; 0x65; 0x78; 0x74].
Proof.
  rewrite (rc4_roundtrip 3 [0x4B; 0x65; 0x79] [[0x50; 0x6C; 0x61; 0x69; 0x6E; 0x74; 0x65; 0x78; 0x74]]
    [[0xBB; 0xF3; 0x16]; [0xE8; 0xD9; 0x40; 0xAF; 0x0A; 0xD3]]); [reflexivity | vm_compute; reflexivity].
Defined.
