(* ===== verification/Des.v ===== *)
(** * DES, triple DES and CBC

    Models the cipher framework of [src/ntoskrnl/xb/crypto.c]: the FIPS 46-3
    tables, the key schedule and the console's key-table layout, the block
    cipher, triple DES, CBC chaining and key parity.  The theorems show that
    the table round-trips to the standard's round keys, that deciphering
    undoes enciphering for every table, single and chained, and that parity
    adjustment is what its comment says. *)

From stdpp Require Import prelude list numbers.
From Stdlib Require Import ZArith Lia.
From S2P Require Import Prelude Bytes.

Local Open Scope Z_scope.

(** ** Tables *)

Definition DesIp : list Z :=
  [ 58; 50; 42; 34; 26; 18; 10; 2; 60; 52; 44; 36; 28; 20; 12; 4;
    62; 54; 46; 38; 30; 22; 14; 6; 64; 56; 48; 40; 32; 24; 16; 8;
    57; 49; 41; 33; 25; 17; 9; 1; 59; 51; 43; 35; 27; 19; 11; 3;
    61; 53; 45; 37; 29; 21; 13; 5; 63; 55; 47; 39; 31; 23; 15; 7 ].

Definition DesFp : list Z :=
  [ 40; 8; 48; 16; 56; 24; 64; 32; 39; 7; 47; 15; 55; 23; 63; 31;
    38; 6; 46; 14; 54; 22; 62; 30; 37; 5; 45; 13; 53; 21; 61; 29;
    36; 4; 44; 12; 52; 20; 60; 28; 35; 3; 43; 11; 51; 19; 59; 27;
    34; 2; 42; 10; 50; 18; 58; 26; 33; 1; 41; 9; 49; 17; 57; 25 ].

Definition DesE : list Z :=
  [ 32; 1; 2; 3; 4; 5; 4; 5; 6; 7; 8; 9; 8; 9; 10; 11;
    12; 13; 12; 13; 14; 15; 16; 17; 16; 17; 18; 19; 20; 21; 20; 21;
    22; 23; 24; 25; 24; 25; 26; 27; 28; 29; 28; 29; 30; 31; 32; 1 ].

Definition DesP : list Z :=
  [ 16; 7; 20; 21; 29; 12; 28; 17; 1; 15; 23; 26; 5; 18; 31; 10;
    2; 8; 24; 14; 32; 27; 3; 9; 19; 13; 30; 6; 22; 11; 4; 25 ].

Definition DesPc1 : list Z :=
  [ 57; 49; 41; 33; 25; 17; 9; 1; 58; 50; 42; 34; 26; 18; 10; 2;
    59; 51; 43; 35; 27; 19; 11; 3; 60; 52; 44; 36; 63; 55; 47; 39;
    31; 23; 15; 7; 62; 54; 46; 38; 30; 22; 14; 6; 61; 53; 45; 37;
    29; 21; 13; 5; 28; 20; 12; 4 ].

Definition DesPc2 : list Z :=
  [ 14; 17; 11; 24; 1; 5; 3; 28; 15; 6; 21; 10; 23; 19; 12; 4;
    26; 8; 16; 7; 27; 20; 13; 2; 41; 52; 31; 37; 47; 55; 30; 40;
    51; 45; 33; 48; 44; 49; 39; 56; 34; 53; 46; 42; 50; 36; 29; 32 ].

Definition DesShifts : list Z :=
  [ 1; 1; 2; 2; 2; 2; 2; 2; 1; 2; 2; 2; 2; 2; 2; 1 ].

Definition DesSBox : list (list Z) :=
  [ [ 14; 4; 13; 1; 2; 15; 11; 8; 3; 10; 6; 12; 5; 9; 0; 7;
      0; 15; 7; 4; 14; 2; 13; 1; 10; 6; 12; 11; 9; 5; 3; 8;
      4; 1; 14; 8; 13; 6; 2; 11; 15; 12; 9; 7; 3; 10; 5; 0;
      15; 12; 8; 2; 4; 9; 1; 7; 5; 11; 3; 14; 10; 0; 6; 13 ];
    [ 15; 1; 8; 14; 6; 11; 3; 4; 9; 7; 2; 13; 12; 0; 5; 10;
      3; 13; 4; 7; 15; 2; 8; 14; 12; 0; 1; 10; 6; 9; 11; 5;
      0; 14; 7; 11; 10; 4; 13; 1; 5; 8; 12; 6; 9; 3; 2; 15;
      13; 8; 10; 1; 3; 15; 4; 2; 11; 6; 7; 12; 0; 5; 14; 9 ];
    [ 10; 0; 9; 14; 6; 3; 15; 5; 1; 13; 12; 7; 11; 4; 2; 8;
      13; 7; 0; 9; 3; 4; 6; 10; 2; 8; 5; 14; 12; 11; 15; 1;
      13; 6; 4; 9; 8; 15; 3; 0; 11; 1; 2; 12; 5; 10; 14; 7;
      1; 10; 13; 0; 6; 9; 8; 7; 4; 15; 14; 3; 11; 5; 2; 12 ];
    [ 7; 13; 14; 3; 0; 6; 9; 10; 1; 2; 8; 5; 11; 12; 4; 15;
      13; 8; 11; 5; 6; 15; 0; 3; 4; 7; 2; 12; 1; 10; 14; 9;
      10; 6; 9; 0; 12; 11; 7; 13; 15; 1; 3; 14; 5; 2; 8; 4;
      3; 15; 0; 6; 10; 1; 13; 8; 9; 4; 5; 11; 12; 7; 2; 14 ];
    [ 2; 12; 4; 1; 7; 10; 11; 6; 8; 5; 3; 15; 13; 0; 14; 9;
      14; 11; 2; 12; 4; 7; 13; 1; 5; 0; 15; 10; 3; 9; 8; 6;
      4; 2; 1; 11; 10; 13; 7; 8; 15; 9; 12; 5; 6; 3; 0; 14;
      11; 8; 12; 7; 1; 14; 2; 13; 6; 15; 0; 9; 10; 4; 5; 3 ];
    [ 12; 1; 10; 15; 9; 2; 6; 8; 0; 13; 3; 4; 14; 7; 5; 11;
      10; 15; 4; 2; 7; 12; 9; 5; 6; 1; 13; 14; 0; 11; 3; 8;
      9; 14; 15; 5; 2; 8; 12; 3; 7; 0; 4; 10; 1; 13; 11; 6;
      4; 3; 2; 12; 9; 5; 15; 10; 11; 14; 1; 7; 6; 0; 8; 13 ];
    [ 4; 11; 2; 14; 15; 0; 8; 13; 3; 12; 9; 7; 5; 10; 6; 1;
      13; 0; 11; 7; 4; 9; 1; 10; 14; 3; 5; 12; 2; 15; 8; 6;
      1; 4; 11; 13; 12; 3; 7; 14; 10; 15; 6; 8; 0; 5; 9; 2;
      6; 11; 13; 8; 1; 4; 10; 7; 9; 5; 0; 15; 14; 2; 3; 12 ];
    [ 13; 2; 8; 4; 6; 15; 11; 1; 10; 9; 3; 14; 5; 0; 12; 7;
      1; 15; 13; 8; 10; 3; 7; 4; 12; 5; 6; 11; 0; 14; 9; 2;
      7; 11; 4; 1; 9; 12; 14; 2; 0; 6; 10; 13; 15; 3; 5; 8;
      2; 1; 14; 7; 4; 10; 8; 13; 15; 12; 9; 0; 3; 5; 6; 11 ] ].

Definition DES_TABLE_BYTES : nat := 128.
Definition DES_BLOCK_BYTES : nat := 8.

(** ** Bits and permutations *)

(** Bit [Position], counted from one, most significant bit of the first
    byte first. *)
Definition DesBit (Bytes : list Z) (Position : Z) : Z :=
  Z.land (Z.shiftr (nth (Z.to_nat (Z.shiftr (Position - 1) 3)) Bytes 0) (7 - Z.land (Position - 1) 7)) 1.

(** [Out[i >> 3] |= (UCHAR)(bit << (7 - (i & 7)))]. *)
Definition or_bit (Out : list Z) (i : nat) (bit : Z) : list Z :=
  let k := (i / 8)%nat in
  <[k := Z.lor (nth k Out 0) (u8 (Z.shiftl bit (7 - Z.of_nat (i mod 8))))]> Out.

Definition DesPermute (In Table : list Z) (Bits : nat) : list Z :=
  fold_left (fun Out i => or_bit Out i (DesBit In (nth i Table 0))) (seq 0 Bits) (replicate ((Bits + 7) / 8) 0).

(** ** The key table *)

Definition DES_KEY_SHIFT (k : Z) : Z :=
  Z.land (Z.shiftr k 1 * 8 + (if Z.land k 1 =? 0 then 2 else 6)) 31.

(** The six bits of one S-box input, least significant first. *)
Definition six_of (Subkey : list Z) (k : nat) : Z :=
  fold_left (fun Six b => Z.lor Six (shl32 (nth (k * 6 + b) Subkey 0) (Z.of_nat b))) (seq 0 6) 0.

(** [Word[k & 1] |= (Six << Shift) | (Shift > 26 ? Six >> (32 - Shift) : 0)]. *)
Definition place_six (Word : Z * Z) (k : nat) (Six : Z) : Z * Z :=
  let Shift := DES_KEY_SHIFT (Z.of_nat k) in
  let v := Z.lor (shl32 Six Shift) (if 26 <? Shift then Z.shiftr Six (32 - Shift) else 0) in
  if Z.land (Z.of_nat k) 1 =? 0 then (Z.lor (fst Word) v, snd Word) else (fst Word, Z.lor (snd Word) v).

Definition DesStoreRound (Subkey : list Z) : list Z :=
  let Word := fold_left (fun Word k => place_six Word k (six_of Subkey k)) (seq 0 8) (0, 0) in
  store32 (fst Word) ++ store32 (snd Word).

(** The S-box input [k] read back from the round's two words, most
    significant bit first. *)
Definition load_six (Word : Z * Z) (k : nat) : Z :=
  let w := if Z.land (Z.of_nat k) 1 =? 0 then fst Word else snd Word in
  let Shift := DES_KEY_SHIFT (Z.of_nat k) in
  let Six := Z.lor (Z.shiftr w Shift) (if 26 <? Shift then shl32 w (32 - Shift) else 0) in
  fold_left (fun Value b => Z.lor Value (u8 (Z.shiftl (Z.land (Z.shiftr Six (Z.of_nat b)) 1) (5 - Z.of_nat b)))) (seq 0 6) 0.

Definition load_word (Table : list Z) (i : nat) : Z :=
  Z.lor (Z.lor (Z.lor (nth i Table 0) (shl32 (nth (i + 1) Table 0) 8)) (shl32 (nth (i + 2) Table 0) 16))
    (shl32 (nth (i + 3) Table 0) 24).

(** [DES_KEY]: sixteen round keys of eight S-box inputs. *)
Definition DesLoadKey (Table : list Z) : list (list Z) :=
  map (fun r => map (load_six (load_word Table (r * 8), load_word Table (r * 8 + 4))) (seq 0 8)) (seq 0 16).

(** The two 28-bit halves PC-1 selects. *)
Definition half_key (KeyBytes : list Z) (base : nat) : Z :=
  fold_left (fun h i => Z.lor h (shl32 (DesBit KeyBytes (nth (i + base) DesPc1 0)) (27 - Z.of_nat i))) (seq 0 28) 0.

Definition rotate28 (h s : Z) : Z := Z.land (Z.lor (shl32 h s) (Z.shiftr h (28 - s))) 0x0FFFFFFF.

(** One entry of [Subkey]: the PC-2 bit of the rotated halves. *)
Definition subkey_bit (Left Right Bit : Z) : Z :=
  if Bit <=? 28 then Z.land (Z.shiftr Left (28 - Bit)) 1 else Z.land (Z.shiftr Right (56 - Bit)) 1.

Definition subkey (Left Right : Z) : list Z := map (subkey_bit Left Right) DesPc2.

Fixpoint schedule_rounds (shifts : list Z) (Left Right : Z) : list Z :=
  match shifts with
  | [] => []
  | s :: shifts' =>
      let Left := rotate28 Left s in
      let Right := rotate28 Right s in
      DesStoreRound (subkey Left Right) ++ schedule_rounds shifts' Left Right
  end.

(** The 128 bytes of the table for one key. *)
Definition DesSchedule (KeyBytes : list Z) : list Z :=
  schedule_rounds DesShifts (half_key KeyBytes 0) (half_key KeyBytes 28).

(** ** The block cipher *)

Definition expand_six (Right : list Z) (k : nat) : Z :=
  fold_left (fun Six i => Z.lor Six (u8 (Z.shiftl (DesBit Right (nth (k * 6 + i) DesE 0)) (5 - Z.of_nat i)))) (seq 0 6) 0.

(** S-box [k] for the expanded input and the round key: [SOut[k >> 1] |= ...]. *)
Definition sbox_step (Right Subkey SOut : list Z) (k : nat) : list Z :=
  let Six := Z.lxor (expand_six Right k) (nth k Subkey 0) in
  let Row := Z.lor (Z.land (Z.shiftr Six 4) 2) (Z.land Six 1) in
  let Column := Z.land (Z.shiftr Six 1) 0x0F in
  let Value := nth (Z.to_nat (Row * 16 + Column)) (nth k DesSBox []) 0 in
  let j := (k / 2)%nat in
  <[j := Z.lor (nth j SOut 0) (u8 (if Nat.odd k then Value else Z.shiftl Value 4))]> SOut.

Definition feistel (Right Subkey : list Z) : list Z :=
  DesPermute (fold_left (sbox_step Right Subkey) (seq 0 8) (replicate 4 0)) DesP 32.

Definition des_round (LR : list Z * list Z) (Subkey : list Z) : list Z * list Z :=
  (snd LR, xor_bytes (feistel (snd LR) Subkey) (fst LR)).

Definition DesBlock (In : list Z) (Key : list (list Z)) (Decrypt : bool) : list Z :=
  let State := DesPermute In DesIp 64 in
  let LR := fold_left (fun LR Round => des_round LR (nth (if Decrypt then 15 - Round else Round) Key []))
              (seq 0 16) (take 4 State, drop 4 State) in
  DesPermute (snd LR ++ fst LR) DesFp 64.

Definition DesCryptBlock (In : list Z) (Keys : list (list (list Z))) (KeyCount : Z) (Decrypt : bool) : list Z :=
  let K i := nth i Keys [] in
  if KeyCount =? 1 then DesBlock In (K 0%nat) Decrypt
  else if negb Decrypt then DesBlock (DesBlock (DesBlock In (K 0%nat) false) (K 1%nat) true) (K 2%nat) false
  else DesBlock (DesBlock (DesBlock In (K 2%nat) true) (K 1%nat) false) (K 0%nat) true.

Definition DesKeyCount (Cipher : Z) : Z := if Cipher =? 0 then 1 else 3.

Definition DesLoadTable (KeyCount : Z) (Table : list Z) : list (list (list Z)) :=
  map (fun i => DesLoadKey (drop (i * DES_TABLE_BYTES) Table)) (seq 0 (Z.to_nat KeyCount)).

(** ** The exported operations *)

Definition parity_byte (k : Z) : Z :=
  let b := Z.land k 0xFE in
  let p := b in
  let p := Z.lxor p (Z.shiftr p 4) in
  let p := Z.lxor p (Z.shiftr p 2) in
  let p := Z.lxor p (Z.shiftr p 1) in
  Z.lor b (Z.lxor (Z.land p 1) 1).

Definition XcpDESKeyParity (Key : list Z) (KeyLen : nat) : list Z :=
  map parity_byte (take KeyLen Key) ++ drop KeyLen Key.

Definition XcpKeyTable (Cipher : Z) (Key : list Z) : list Z :=
  flat_map (fun i => DesSchedule (take 8 (drop (i * 8) Key))) (seq 0 (Z.to_nat (DesKeyCount Cipher))).

Definition XcpCryptService (Op Args : Z) : Z := 0.

Definition XcpBlockCrypt (Cipher : Z) (In KeyTable : list Z) (Op : Z) : list Z :=
  let Count := DesKeyCount Cipher in
  let Keys := DesLoadTable Count KeyTable in
  DesCryptBlock (take 8 In) Keys Count (Op =? 0).

(** The block loop: [n] blocks left; the output bytes and the final
    feedback. *)
Fixpoint cbc_loop (Keys : list (list (list Z))) (Count Op : Z) (n : nat) (Source Chain : list Z) : list Z * list Z :=
  match n with
  | O => ([], Chain)
  | S n' =>
      let Block := take DES_BLOCK_BYTES Source in
      let (Target, Chain') :=
        if negb (Op =? 0) then
          let T := DesCryptBlock (xor_bytes Block Chain) Keys Count false in (T, T)
        else (xor_bytes (DesCryptBlock Block Keys Count true) Chain, Block) in
      let (out, fb) := cbc_loop Keys Count Op n' (drop DES_BLOCK_BYTES Source) Chain' in
      (Target ++ out, fb)
  end.

(** [Len] bytes from [In]; the bytes of [Out] past the whole blocks are left
    alone. *)
Definition XcpBlockCryptCBC (Cipher : Z) (Len : nat) (In KeyTable : list Z) (Op : Z) (Feedback : list Z) : list Z * list Z :=
  if (Len <? DES_BLOCK_BYTES)%nat then ([], Feedback)
  else
    let Count := DesKeyCount Cipher in
    let Keys := DesLoadTable Count KeyTable in
    cbc_loop Keys Count Op (Len / DES_BLOCK_BYTES) In Feedback.

(** ** Bits of byte strings *)

(** Bit [j], counted from zero. *)
Definition bit_at (l : list Z) (j : nat) : bool := Z.testbit (nth (j / 8) l 0) (7 - Z.of_nat (j mod 8)).

Lemma land_one x n : 0 <= n -> Z.land (Z.shiftr x n) 1 = Z.b2z (Z.testbit x n).
Proof.
  intros Hn. change 1 with (Z.ones 1). rewrite Z.land_ones, Z.shiftr_div_pow2 by lia.
  change (2 ^ 1) with 2. by rewrite <- Z.testbit_spec'.
Qed.

Lemma DesBit_spec l j : DesBit l (Z.of_nat j + 1) = Z.b2z (bit_at l j).
Proof.
  unfold DesBit, bit_at. replace (Z.of_nat j + 1 - 1) with (Z.of_nat j) by lia.
  replace (Z.land (Z.of_nat j) 7) with (Z.of_nat (j mod 8)).
  2: { change 7 with (Z.ones 3). rewrite Z.land_ones by lia. by rewrite Nat2Z.inj_mod. }
  replace (Z.to_nat (Z.shiftr (Z.of_nat j) 3)) with (j / 8)%nat.
  2: { rewrite Z.shiftr_div_pow2 by lia. change (2 ^ 3) with (Z.of_nat 8). by rewrite <- Nat2Z.inj_div, Nat2Z.id. }
  rewrite land_one; [done |]. pose proof (Nat.mod_upper_bound j 8). lia.
Qed.

Lemma byte_ext x y : is_u8 x -> is_u8 y -> (forall i, 0 <= i < 8 -> Z.testbit x i = Z.testbit y i) -> x = y.
Proof.
  intros Hx Hy H. apply Z.bits_inj'. intros i Hi. destruct (Z.lt_ge_cases i 8) as [L | L]; [by apply H |].
  unfold is_u8 in *. rewrite <- (Z.mod_small x (2 ^ 8)), <- (Z.mod_small y (2 ^ 8)) by lia.
  by rewrite !Z.mod_pow2_bits_high by lia.
Qed.

(** Byte strings with the same bits are the same. *)
Lemma bits_ext a b n : bytes a -> bytes b -> length a = n -> length b = n ->
  (forall j, (j < 8 * n)%nat -> bit_at a j = bit_at b j) -> a = b.
Proof.
  intros Ha Hb La Lb H. apply (nth_ext _ _ 0 0); [lia |]. intros k Hk.
  apply byte_ext; [auto with bytes | auto with bytes |]. intros i Hi.
  specialize (H (k * 8 + Z.to_nat (7 - i))%nat ltac:(lia)). unfold bit_at in H.
  rewrite Nat.div_add_l, (Nat.div_small (Z.to_nat (7 - i))), Nat.add_0_r in H by lia.
  rewrite Nat.add_comm, Nat.Div0.mod_add, Nat.mod_small in H by lia.
  by replace (7 - Z.of_nat (Z.to_nat (7 - i))) with i in H by lia.
Qed.

Lemma u8_lor x y : is_u8 x -> is_u8 y -> is_u8 (Z.lor x y).
Proof.
  intros Hx Hy. assert (E : Z.lor x y = u8 (Z.lor x y)); [| rewrite E; apply u8_is].
  unfold u8. apply Z.bits_inj'. intros i Hi. destruct (Z.lt_ge_cases i 8) as [L | L].
  - by rewrite Z.mod_pow2_bits_low.
  - rewrite Z.mod_pow2_bits_high by lia. rewrite Z.lor_spec. unfold is_u8 in *.
    rewrite <- (Z.mod_small x (2 ^ 8)), <- (Z.mod_small y (2 ^ 8)) by lia. by rewrite !Z.mod_pow2_bits_high by lia.
Qed.

Lemma bit_at_zero n j : bit_at (replicate n 0) j = false.
Proof.
  unfold bit_at. replace (nth (j / 8) (replicate n 0) 0) with 0; [apply Z.bits_0 |].
  symmetry. revert n. generalize (j / 8)%nat. intros k n. revert k. induction n; intros [|k]; simpl; auto.
Qed.

(** Setting one bit. *)
Lemma or_bit_spec Out i b : bytes Out -> (i < 8 * length Out)%nat ->
  let Out' := or_bit Out i (Z.b2z b) in
  bytes Out' /\ length Out' = length Out /\
  forall j, bit_at Out' j = if decide (j = i) then bit_at Out j || b else bit_at Out j.
Proof.
  intros HO Hi Out'. unfold Out', or_bit. set (k := (i / 8)%nat).
  assert (Hk : (k < length Out)%nat) by (apply Nat.Div0.div_lt_upper_bound; lia).
  pose proof (Nat.mod_upper_bound i 8 ltac:(lia)) as Hm. set (e := 7 - Z.of_nat (i mod 8)).
  set (v := Z.lor (nth k Out 0) (u8 (Z.shiftl (Z.b2z b) e))).
  assert (Hv : is_u8 v) by (apply u8_lor; auto with bytes). split; [| split; [by rewrite length_insert |]].
  { by apply Forall_insert. }
  intros j. unfold bit_at. pose proof (Nat.mod_upper_bound j 8 ltac:(lia)) as Hmj.
  destruct (decide ((j / 8)%nat = k)) as [Ek | Ek].
  - rewrite Ek. replace (nth k (<[k:=v]> Out) 0) with v
      by (symmetry; apply nth_lookup_Some; by apply list_lookup_insert_eq).
    unfold v. rewrite Z.lor_spec. unfold u8. rewrite Z.mod_pow2_bits_low, Z.shiftl_spec by lia. 
    destruct (decide (j = i)) as [-> | Hne].
    + unfold e. rewrite Z.sub_diag. f_equal. by destruct b.
    + assert (j mod 8 <> i mod 8)%nat.
      { intros E. apply Hne. rewrite (Nat.div_mod j 8), (Nat.div_mod i 8) by lia. fold k. lia. }
      replace (Z.testbit (Z.b2z b) (7 - Z.of_nat (j mod 8) - e)) with false; [by rewrite orb_false_r |].
      symmetry. unfold e. destruct (Z.lt_ge_cases (7 - Z.of_nat (j mod 8) - (7 - Z.of_nat (i mod 8))) 0) as [L | L];
        [by apply Z.testbit_neg_r |]. apply Z.bits_above_log2; [by destruct b |].
      replace (Z.log2 (Z.b2z b)) with 0 by (by destruct b). lia.
  - rewrite decide_False by (intros ->; done). f_equal. rewrite !nth_lookup, list_lookup_insert_ne by done. done.
Qed.

Lemma DesPermute_spec In Table Bits : (Bits mod 8 = 0)%nat -> Forall (fun p => 0 < p) Table -> (Bits <= length Table)%nat ->
  let Out := DesPermute In Table Bits in
  bytes Out /\ length Out = (Bits / 8)%nat /\
  forall j, (j < Bits)%nat -> bit_at Out j = bit_at In (Z.to_nat (nth j Table 0 - 1)).
Proof.
  intros H8 HT HL Out. unfold Out, DesPermute.
  assert (Ediv : ((Bits + 7) / 8 = Bits / 8)%nat).
  { pose proof (Nat.div_mod Bits 8 ltac:(lia)). replace (Bits + 7)%nat with (7 + Bits / 8 * 8)%nat by lia.
    rewrite Nat.div_add by lia. done. }
  rewrite Ediv. pose proof (Nat.div_mod Bits 8 ltac:(lia)) as D.
  assert (G : forall n, (n <= Bits)%nat ->
    let O := fold_left (fun Out i => or_bit Out i (DesBit In (nth i Table 0))) (seq 0 n) (replicate (Bits / 8) 0) in
    bytes O /\ length O = (Bits / 8)%nat /\
    forall j, bit_at O j = if (j <? n)%nat then bit_at In (Z.to_nat (nth j Table 0 - 1)) else false).
  { induction n as [|n IH]; intros Hn O.
    - split; [apply bytes_zero |]. split; [apply length_replicate |]. intros j. apply bit_at_zero.
    - destruct (IH ltac:(lia)) as (I1 & I2 & I3). unfold O. rewrite seq_S, fold_left_app. cbn [fold_left Nat.add].
      set (O1 := fold_left _ (seq 0 n) _) in *.
      assert (Hp : 0 < nth n Table 0).
      { apply (proj1 (Forall_nth (fun p => 0 < p) Table)); [done | lia]. }
      replace (nth n Table 0) with (Z.of_nat (Z.to_nat (nth n Table 0 - 1)) + 1) by lia. rewrite DesBit_spec.
      destruct (or_bit_spec O1 n (bit_at In (Z.to_nat (nth n Table 0 - 1))) I1 ltac:(lia)) as (B1 & B2 & B3).
      split; [done |]. split; [lia |]. intros j. rewrite B3, I3.
      destruct (decide (j = n)) as [-> | Hne].
      + rewrite Nat.ltb_irrefl, (proj2 (Nat.ltb_lt n (S n))) by lia. done.
      + destruct (Nat.ltb_spec j n), (Nat.ltb_spec j (S n)); try lia; done. }
  destruct (G Bits ltac:(lia)) as (G1 & G2 & G3). split; [done |]. split; [done |].
  intros j Hj. rewrite G3. by rewrite (proj2 (Nat.ltb_lt j Bits) Hj).
Qed.

(** ** Deciphering undoes enciphering *)

Local Opaque DesPermute.

Lemma table_positive t : forallb (fun p => 0 <? p) t = true -> Forall (fun p => 0 < p) t.
Proof. rewrite forallb_forall. intros H. apply Forall_forall. intros p Hp. apply Z.ltb_lt, H. exact Hp. Qed.

(** The tables of two permutations of a block that undo each other. *)
Definition inverse_tables (t u : list Z) : bool :=
  (length t =? 64)%nat && (length u =? 64)%nat && forallb (fun p => 0 <? p) t && forallb (fun p => 0 <? p) u &&
  forallb (fun j => let k := Z.to_nat (nth j u 0 - 1) in Nat.eqb (Z.to_nat (nth k t 0 - 1)) j && Nat.ltb k 64) (seq 0 64).

Lemma permute_inverse t u b : inverse_tables t u = true -> bytes b -> length b = 8%nat ->
  DesPermute (DesPermute b t 64) u 64 = b.
Proof.
  unfold inverse_tables. rewrite !andb_true_iff, !Nat.eqb_eq.
  intros ((((Lt & Lu) & Pt) & Pu) & H) Hb Lb. rewrite forallb_forall in H. apply table_positive in Pt, Pu.
  destruct (DesPermute_spec b t 64 eq_refl Pt ltac:(lia)) as (_ & _ & S1).
  destruct (DesPermute_spec (DesPermute b t 64) u 64 eq_refl Pu ltac:(lia)) as (B2 & L2 & S2).
  apply (bits_ext _ _ 8); [done | done | done | done |]. intros j Hj. rewrite S2 by lia.
  specialize (H j ltac:(apply in_seq; lia)). apply andb_true_iff in H as [E1 E2].
  apply Nat.eqb_eq in E1. apply Nat.ltb_lt in E2. rewrite S1 by done. by rewrite E1.
Qed.

Lemma ip_fp b : bytes b -> length b = 8%nat -> DesPermute (DesPermute b DesIp 64) DesFp 64 = b.
Proof. intros. by apply permute_inverse. Qed.

Lemma fp_ip b : bytes b -> length b = 8%nat -> DesPermute (DesPermute b DesFp 64) DesIp 64 = b.
Proof. intros. by apply permute_inverse. Qed.

(** A permuted block is a block. *)
Definition block8 (b : list Z) : Prop := bytes b /\ length b = 8%nat.

Lemma block8_permute b t : length t = 64%nat -> forallb (fun p => 0 <? p) t = true -> block8 (DesPermute b t 64).
Proof.
  intros L P. apply table_positive in P. destruct (DesPermute_spec b t 64 eq_refl P ltac:(lia)) as (B & Lb & _).
  by split.
Qed.

Definition half (b : list Z) : Prop := bytes b /\ length b = 4%nat.

Lemma half_feistel R k : half (feistel R k).
Proof.
  unfold feistel. set (s := fold_left _ _ _).
  destruct (DesPermute_spec s DesP 32 eq_refl) as (B & L & _); [by apply table_positive | simpl; lia | by split].
Qed.

Local Opaque feistel.

Lemma half_round l r k : half l -> half r -> half (fst (des_round (l, r) k)) /\ half (snd (des_round (l, r) k)).
Proof.
  intros [Bl Ll] [Br Lr]. unfold des_round. cbn [fst snd]. destruct (half_feistel r k) as [Bf Lf]. split; [by split |].
  split; [by apply xor_bytes_bytes | rewrite length_xor_bytes; lia].
Qed.

Definition flip (p : list Z * list Z) : list Z * list Z := (snd p, fst p).

(** A round run on the exchanged halves takes the round back. *)
Lemma round_back l r k : half l -> half r -> des_round (flip (des_round (l, r) k)) k = flip (l, r).
Proof.
  intros [Bl Ll] Hr. unfold des_round, flip. cbn [fst snd]. f_equal. destruct (half_feistel r k) as [_ Lf].
  rewrite xor_bytes_comm, (xor_bytes_comm _ l). apply xor_bytes_cancel. lia.
Qed.

Definition halves (p : list Z * list Z) : Prop := half (fst p) /\ half (snd p).

Lemma halves_round p k : halves p -> halves (des_round p k).
Proof. destruct p as [l r]. intros [Hl Hr]. by apply half_round. Qed.

Lemma halves_rounds ks p : halves p -> halves (fold_left des_round ks p).
Proof. revert p. induction ks as [|k ks IH]; intros p Hp; [exact Hp |]. apply (IH (des_round p k)). by apply halves_round. Qed.

Lemma rounds_back ks p : halves p -> fold_left des_round (rev ks) (flip (fold_left des_round ks p)) = flip p.
Proof.
  revert p. induction ks as [|k ks IH]; intros p Hp; [reflexivity |]. cbn [fold_left rev].
  rewrite fold_left_app, (IH (des_round p k)) by (by apply halves_round).
  destruct p as [l r]. destruct Hp as [Hl Hr]. exact (round_back l r k Hl Hr).
Qed.

(** The round keys in the order a direction uses them. *)
Definition key_order (Key : list (list Z)) (Decrypt : bool) : list (list Z) :=
  let ks := map (fun r => nth r Key []) (seq 0 16) in if Decrypt then rev ks else ks.

Lemma DesBlock_rounds In Key d :
  DesBlock In Key d =
    let State := DesPermute In DesIp 64 in
    let LR := fold_left des_round (key_order Key d) (take 4 State, drop 4 State) in
    DesPermute (snd LR ++ fst LR) DesFp 64.
Proof. by destruct d. Qed.

Lemma key_order_rev Key d : key_order Key (negb d) = rev (key_order Key d).
Proof. unfold key_order. destruct d; cbn [negb]; [by rewrite rev_involutive | done]. Qed.

Lemma DesBlock_block8 In Key d : block8 (DesBlock In Key d).
Proof. rewrite DesBlock_rounds. by apply block8_permute. Qed.

Lemma DesBlock_inverse b Key d : block8 b -> DesBlock (DesBlock b Key d) Key (negb d) = b.
Proof.
  intros [Bb Lb]. rewrite (DesBlock_rounds _ Key (negb d)), (DesBlock_rounds b). cbv zeta. rewrite key_order_rev.
  destruct (block8_permute b DesIp eq_refl eq_refl) as [BS LS]. set (St := DesPermute b DesIp 64) in *.
  assert (H1 : half (take 4 St)) by (split; [auto with bytes | rewrite length_take; lia]).
  assert (H2 : half (drop 4 St)) by (split; [auto with bytes | rewrite length_drop; lia]).
  destruct (halves_rounds (key_order Key d) (take 4 St, drop 4 St) (conj H1 H2)) as [[B3 L3] [B4 L4]].
  pose proof (rounds_back (key_order Key d) (take 4 St, drop 4 St) (conj H1 H2)) as RB.
  set (LR := fold_left des_round (key_order Key d) (take 4 St, drop 4 St)) in *.
  rewrite fp_ip by (try (apply bytes_app; done); rewrite length_app; lia).
  rewrite take_app_length', drop_app_length' by done. change (snd LR, fst LR) with (flip LR). rewrite RB. cbn [flip fst snd].
  rewrite take_drop. by apply ip_fp.
Qed.

Local Opaque DesBlock.

Lemma DesCryptBlock_block8 In Keys Count d : block8 (DesCryptBlock In Keys Count d).
Proof. unfold DesCryptBlock. destruct (Count =? 1); [apply DesBlock_block8 |]. destruct d; apply DesBlock_block8. Qed.

(** One cipher step and its inverse, single or triple. *)
Lemma DesCryptBlock_inverse b Keys Count d : block8 b ->
  DesCryptBlock (DesCryptBlock b Keys Count d) Keys Count (negb d) = b.
Proof.
  intros Hb. unfold DesCryptBlock. destruct (Count =? 1); [by apply DesBlock_inverse |].
  generalize (nth 0 Keys []), (nth 1 Keys []), (nth 2 Keys []). intros K0 K1 K2.
  pose proof (fun c K => DesBlock_inverse c K false) as E. pose proof (fun c K => DesBlock_inverse c K true) as D. cbn [negb] in E, D.
  destruct d; cbn [negb].
  - rewrite D by apply DesBlock_block8. rewrite E by apply DesBlock_block8. by apply D.
  - rewrite E by apply DesBlock_block8. rewrite D by apply DesBlock_block8. by apply E.
Qed.

(** ** Chaining *)

Lemma cbc_inverse Keys Count Op n Source Chain : Op <> 0 -> bytes Source -> (8 * n <= length Source)%nat -> block8 Chain ->
  let (c, fb) := cbc_loop Keys Count Op n Source Chain in
  bytes c /\ length c = (8 * n)%nat /\ cbc_loop Keys Count 0 n c Chain = (take (8 * n) Source, fb).
Proof.
  intros HOp. revert Source Chain. induction n as [|n IH]; intros Source Chain HS HL HC; cbn [cbc_loop].
  - split; [constructor |]. split; [done |]. by rewrite take_0.
  - rewrite (proj2 (Z.eqb_neq Op 0)) by done. cbn [negb]. change (negb (0 =? 0)) with false. unfold DES_BLOCK_BYTES.
    set (B := take 8 Source). set (T := DesCryptBlock (xor_bytes B Chain) Keys Count false).
    assert (HB : block8 B) by (split; [apply bytes_take; done | unfold B; rewrite length_take; lia]).
    destruct HB as [BB LB]. destruct HC as [BC LC].
    assert (HX : block8 (xor_bytes B Chain)) by (split; [by apply xor_bytes_bytes | rewrite length_xor_bytes; lia]).
    assert (HT : block8 T) by apply DesCryptBlock_block8.
    specialize (IH (drop 8 Source) T ltac:(auto with bytes) ltac:(rewrite length_drop; lia) HT).
    destruct (cbc_loop Keys Count Op n (drop 8 Source) T) as [c fb]. destruct IH as (I1 & I2 & I3). destruct HT as [BT LT].
    split; [apply bytes_app; done |]. split; [rewrite length_app; lia |].
    rewrite take_app_length', drop_app_length' by done. rewrite I3. f_equal.
    replace (DesCryptBlock T Keys Count true) with (xor_bytes B Chain)
      by (symmetry; apply (DesCryptBlock_inverse _ Keys Count false HX)).
    rewrite xor_bytes_cancel by lia. unfold B. replace (8 * S n)%nat with (8 + 8 * n)%nat by lia.
    rewrite <- (take_drop 8 Source) at 3. rewrite take_app_ge by (rewrite length_take; lia).
    f_equal. rewrite length_take. f_equal. lia.
Qed.

(** ** The key table carries the standard's round keys *)

(** The bits of a six-bit value, as a function that vanishes outside. *)
Definition six_bits (g : Z -> bool) (i : Z) : bool := (0 <=? i) && (i <? 6) && g i.

Lemma testbit_six x i : 0 <= x < 64 -> Z.testbit x i = six_bits (Z.testbit x) i.
Proof.
  intros Hx. unfold six_bits. destruct (Z.leb_spec 0 i) as [L | L]; [| by rewrite Z.testbit_neg_r by lia].
  destruct (Z.ltb_spec i 6) as [L6 | L6]; [done |]. cbn [andb].
  rewrite <- (Z.mod_small x (2 ^ 6)) by lia. by rewrite Z.mod_pow2_bits_high by lia.
Qed.

(** The two words eight S-box inputs are placed in. *)
Definition placed (x : nat -> Z) : Z * Z := fold_left (fun Word k => place_six Word k (x k)) (seq 0 8) (0, 0).

(** The six bits of S-box input [k] read off the words. *)
Definition read_six (Word : Z * Z) (k : nat) : Z :=
  let w := if Z.land (Z.of_nat k) 1 =? 0 then fst Word else snd Word in
  let Shift := DES_KEY_SHIFT (Z.of_nat k) in
  Z.lor (Z.shiftr w Shift) (if 26 <? Shift then shl32 w (32 - Shift) else 0).

Lemma placed_u32 (x : nat -> Z) : (forall k, 0 <= x k < 64) -> is_u32 (fst (placed x)) /\ is_u32 (snd (placed x)).
Proof.
  intros Hx. change (placed x) with (Z.lor (Z.lor (Z.lor (Z.lor 0 (Z.lor (shl32 (x 0%nat) 2) 0))
    (Z.lor (shl32 (x 2%nat) 10) 0)) (Z.lor (shl32 (x 4%nat) 18) 0)) (Z.lor (shl32 (x 6%nat) 26) 0),
    Z.lor (Z.lor (Z.lor (Z.lor 0 (Z.lor (shl32 (x 1%nat) 6) 0))
    (Z.lor (shl32 (x 3%nat) 14) 0)) (Z.lor (shl32 (x 5%nat) 22) 0)) (Z.lor (shl32 (x 7%nat) 30) (Z.shiftr (x 7%nat) 2))).
  cbn [fst snd]. assert (HS : is_u32 (Z.shiftr (x 7%nat) 2)).
  { rewrite Z.shiftr_div_pow2 by lia. specialize (Hx 7%nat). unfold is_u32. split; [apply Z.div_pos; lia |].
    apply Z.div_lt_upper_bound; lia. }
  assert (H0 : is_u32 0) by (unfold is_u32; lia).
  split; repeat apply u32_lor; auto; apply u32_range.
Qed.

Lemma placed_fst x i : 0 <= i -> (forall k, 0 <= x k < 64) ->
  let t j := six_bits (Z.testbit (x j)) in
  Z.testbit (fst (placed x)) i = (i <? 32) && (t 0%nat (i - 2) || t 2%nat (i - 10) || t 4%nat (i - 18) || t 6%nat (i - 26)).
Proof.
  intros Hi Hx t. change (fst (placed x)) with (Z.lor (Z.lor (Z.lor (Z.lor 0 (Z.lor (shl32 (x 0%nat) 2) 0))
    (Z.lor (shl32 (x 2%nat) 10) 0)) (Z.lor (shl32 (x 4%nat) 18) 0)) (Z.lor (shl32 (x 6%nat) 26) 0)).
  rewrite !Z.lor_spec, !Z.bits_0, !testbit_shl32 by lia. rewrite !(testbit_six (x _)) by done. unfold t.
  destruct (i <? 32); [| done]. cbn [andb orb]. by rewrite !orb_false_r.
Qed.

Lemma placed_snd x i : 0 <= i -> (forall k, 0 <= x k < 64) ->
  let t j := six_bits (Z.testbit (x j)) in
  Z.testbit (snd (placed x)) i = (i <? 32) && (t 1%nat (i - 6) || t 3%nat (i - 14) || t 5%nat (i - 22) || t 7%nat (i - 30)) || t 7%nat (i + 2).
Proof.
  intros Hi Hx t. change (snd (placed x)) with (Z.lor (Z.lor (Z.lor (Z.lor 0 (Z.lor (shl32 (x 1%nat) 6) 0))
    (Z.lor (shl32 (x 3%nat) 14) 0)) (Z.lor (shl32 (x 5%nat) 22) 0)) (Z.lor (shl32 (x 7%nat) 30) (Z.shiftr (x 7%nat) 2))).
  rewrite !Z.lor_spec, !Z.bits_0, !testbit_shl32, Z.shiftr_spec by lia. rewrite !(testbit_six (x _)) by done. unfold t.
  destruct (i <? 32); cbn [andb orb]; by rewrite ?orb_false_r, ?orb_assoc.
Qed.

(** Evaluating a boolean identity over the bits of the inputs. *)
Ltac bit_identity :=
  repeat match goal with |- context [Z.testbit (?x ?k)] => generalize (Z.testbit (x k)); intro end;
  vm_compute; repeat match goal with |- context [?f ?i] => match type of (f i) with bool => destruct (f i) end end; reflexivity.

Ltac place_case Hx :=
  match goal with |- context [DES_KEY_SHIFT ?k] =>
    let z := eval vm_compute in (DES_KEY_SHIFT k) in change (DES_KEY_SHIFT k) with z end;
  match goal with |- context [Z.land ?k 1 =? 0] =>
    let z := eval vm_compute in (Z.land k 1 =? 0) in change (Z.land k 1 =? 0) with z end;
  match goal with |- context [26 <? ?k] => let z := eval vm_compute in (26 <? k) in change (26 <? k) with z end;
  cbv iota; rewrite ?Z.bits_0, ?testbit_shl32 by lia; 
  repeat match goal with |- context [Z.testbit (snd ?p) ?n] => rewrite (Z.testbit_neg_r (snd p) n) by lia end;
  rewrite ?placed_fst, ?placed_snd by (exact Hx || lia); bit_identity.

Lemma place_bits x k b : (forall k, 0 <= x k < 64) -> (k < 8)%nat -> (b < 6)%nat ->
  Z.testbit (read_six (placed x) k) (Z.of_nat b) = Z.testbit (x k) (Z.of_nat b).
Proof.
  intros Hx Hk Hb. unfold read_six. rewrite (testbit_six (x k)), Z.lor_spec, Z.shiftr_spec by (done || lia).
  do 8 (destruct k as [|k]; [do 6 (destruct b as [|b]; [place_case Hx |]); exfalso; lia |]); exfalso; lia.
Qed.

Lemma testbit_b2z (b : bool) i : Z.testbit (Z.b2z b) i = b && (i =? 0).
Proof.
  destruct (Z.eqb_spec i 0) as [-> | Hi]; [by destruct b |]. rewrite andb_false_r.
  destruct (Z.lt_ge_cases i 0); [by apply Z.testbit_neg_r |]. apply Z.bits_above_log2; [by destruct b |].
  replace (Z.log2 (Z.b2z b)) with 0 by (by destruct b). lia.
Qed.

(** Bits gathered into a word. *)
Lemma gather_bits (f : nat -> bool) (e : nat -> Z) l h n : (forall i, In i l -> 0 <= e i) -> 0 <= n < 32 ->
  Z.testbit (fold_left (fun h i => Z.lor h (shl32 (Z.b2z (f i)) (e i))) l h) n =
    Z.testbit h n || existsb (fun i => f i && (e i =? n)) l.
Proof.
  intros He Hn. revert h. induction l as [|i l IH]; intros h; cbn [fold_left existsb]; [by rewrite orb_false_r |].
  rewrite IH by (intros j Hj; apply He; by right). rewrite Z.lor_spec, testbit_shl32 by (try (apply He; by left); lia).
  rewrite (proj2 (Z.ltb_lt n 32)), testbit_b2z by lia. cbn [andb].
  replace (n - e i =? 0) with (e i =? n) by (destruct (Z.eqb_spec (e i) n), (Z.eqb_spec (n - e i) 0); lia).
  by rewrite orb_assoc.
Qed.

(** Gathering at distinct places below [w] bits gives a [w]-bit value whose
    bits are the gathered ones. *)
Lemma gather_at (f : nat -> bool) (e : nat -> Z) m w i : (i < m)%nat -> w <= 32 ->
  (forall j, (j < m)%nat -> 0 <= e j < w) -> (forall j j', (j < m)%nat -> (j' < m)%nat -> e j = e j' -> j = j') ->
  Z.testbit (fold_left (fun h i => Z.lor h (shl32 (Z.b2z (f i)) (e i))) (seq 0 m) 0) (e i) = f i.
Proof.
  intros Hi Hw He Hinj. assert (Hin : forall j, In j (seq 0 m) -> (j < m)%nat) by (intros j Hj%in_seq; lia).
  pose proof (He i Hi) as Hei. rewrite gather_bits by (try (intros j Hj; apply He; auto); lia). rewrite Z.bits_0. cbn [orb].
  destruct (f i) eqn:E.
  - apply existsb_exists. exists i. split; [apply in_seq; lia |]. by rewrite E, Z.eqb_refl.
  - apply not_true_iff_false. intros H. apply existsb_exists in H as (j & Hj%Hin & H).
    apply andb_true_iff in H as [H1 H2]. apply Z.eqb_eq in H2. apply Hinj in H2; [congruence | done | done].
Qed.

Lemma gather_range (f : nat -> bool) (e : nat -> Z) m w : 0 <= w <= 32 -> (forall j, (j < m)%nat -> 0 <= e j < w) ->
  0 <= fold_left (fun h i => Z.lor h (shl32 (Z.b2z (f i)) (e i))) (seq 0 m) 0 < 2 ^ w.
Proof.
  intros Hw He. induction m as [|m IH]; [cbn; split; [lia | apply Z.pow_pos_nonneg; lia] |].
  rewrite seq_S, fold_left_app. cbn [fold_left Nat.add]. specialize (IH ltac:(intros; apply He; lia)).
  set (h := fold_left _ _ _) in *. specialize (He m ltac:(lia)).
  assert (Hs : 0 <= shl32 (Z.b2z (f m)) (e m) < 2 ^ w).
  { unfold shl32. rewrite Z.shiftl_mul_pow2 by lia. assert (2 ^ e m < 2 ^ w) by (apply Z.pow_lt_mono_r; lia).
    assert (2 ^ w <= 2 ^ 32) by (apply Z.pow_le_mono_r; lia). assert (0 < 2 ^ e m) by (apply Z.pow_pos_nonneg; lia).
    rewrite u32_id; destruct (f m); cbn [Z.b2z]; lia. }
  split; [apply Z.lor_nonneg; lia |]. destruct (Z.eq_dec (Z.lor h (shl32 (Z.b2z (f m)) (e m))) 0) as [-> | Hne]; [lia |].
  apply Z.log2_lt_pow2; [pose proof (proj2 (Z.lor_nonneg h (shl32 (Z.b2z (f m)) (e m)))); lia |].
  rewrite Z.log2_lor by lia. apply Z.max_lub_lt.
  - destruct (Z.eq_dec h 0) as [-> |]; [cbn; lia | apply Z.log2_lt_pow2; lia].
  - destruct (Z.eq_dec (shl32 (Z.b2z (f m)) (e m)) 0) as [-> |]; [cbn; lia | apply Z.log2_lt_pow2; lia].
Qed.

(** Six bits, first most significant. *)
Definition pack6 (f : nat -> bool) : Z :=
  32 * Z.b2z (f 0%nat) + 16 * Z.b2z (f 1%nat) + 8 * Z.b2z (f 2%nat) + 4 * Z.b2z (f 3%nat) + 2 * Z.b2z (f 4%nat) + Z.b2z (f 5%nat).

(** Storing a round of subkey bits and loading it back packs each S-box's
    six bits, first most significant. *)
Lemma load_placed (bs : list bool) k : (k < 8)%nat ->
  load_six (placed (six_of (map Z.b2z bs))) k = pack6 (fun b => nth (k * 6 + b) bs false).
Proof.
  intros Hk. set (S := map Z.b2z bs).
  assert (EN : forall n, nth n S 0 = Z.b2z (nth n bs false)) by (intros n; unfold S; by rewrite <- (map_nth Z.b2z)).
  assert (E6 : forall k, six_of S k = fold_left (fun h b => Z.lor h (shl32 (Z.b2z (nth (k * 6 + b) bs false)) (Z.of_nat b))) (seq 0 6) 0).
  { intros j. unfold six_of. cbn [seq fold_left]. by rewrite !EN. }
  assert (Hx : forall k, 0 <= six_of S k < 64).
  { intros j. rewrite E6. apply (gather_range (fun b => nth (j * 6 + b) bs false) Z.of_nat 6 6); lia. }
  assert (HB : forall b, (b < 6)%nat -> Z.testbit (read_six (placed (six_of S)) k) (Z.of_nat b) = nth (k * 6 + b) bs false).
  { intros b Hb. rewrite place_bits by done. rewrite E6.
    apply (gather_at (fun b => nth (k * 6 + b) bs false) Z.of_nat 6 6); try lia. }
  change (load_six (placed (six_of S)) k) with (fold_left (fun Value b => Z.lor Value
    (u8 (Z.shiftl (Z.land (Z.shiftr (read_six (placed (six_of S)) k) (Z.of_nat b)) 1) (5 - Z.of_nat b)))) (seq 0 6) 0).
  cbn [seq fold_left]. rewrite !land_one by lia. rewrite !HB by lia. unfold pack6.
  generalize (nth (k * 6 + 0) bs false), (nth (k * 6 + 1) bs false), (nth (k * 6 + 2) bs false), (nth (k * 6 + 3) bs false),
    (nth (k * 6 + 4) bs false), (nth (k * 6 + 5) bs false). intros [] [] [] [] [] []; reflexivity.
Qed.

Lemma six_of_range (bs : list bool) k : 0 <= six_of (map Z.b2z bs) k < 64.
Proof.
  assert (EN : forall n, nth n (map Z.b2z bs) 0 = Z.b2z (nth n bs false)) by (intros n; by rewrite <- (map_nth Z.b2z)).
  unfold six_of. cbn [seq fold_left]. rewrite !EN.
  apply (gather_range (fun b => nth (k * 6 + b) bs false) Z.of_nat 6 6); lia.
Qed.

Lemma load_word_spec T i : bytes T -> load_word T i = load32 (drop i T).
Proof.
  intros HT. unfold load_word, load32. rewrite !nth_of_drop, Nat.add_0_r.
  pose proof (bytes_nth T i HT). pose proof (bytes_nth T (i + 1) HT). pose proof (bytes_nth T (i + 2) HT). pose proof (bytes_nth T (i + 3) HT).
  unfold is_u8 in *. unfold shl32. rewrite !Z.shiftl_mul_pow2, !u32_id by lia.
  rewrite (Z.lor_comm (nth i T 0)), lor_mul_pow2_small by lia.
  rewrite (Z.lor_comm (_ + nth i T 0)), lor_mul_pow2_small by lia.
  rewrite (Z.lor_comm (_ + (_ + nth i T 0))), lor_mul_pow2_small by lia. lia.
Qed.

Lemma rotate28_bits h s i : 0 <= h < 2 ^ 28 -> 0 < s < 28 -> 0 <= i < 28 ->
  Z.testbit (rotate28 h s) i = Z.testbit h ((i - s) mod 28).
Proof.
  intros Hh Hs Hi. unfold rotate28. change 0x0FFFFFFF with (Z.ones 28).
  rewrite Z.land_ones, Z.mod_pow2_bits_low, Z.lor_spec, testbit_shl32, Z.shiftr_spec by lia.
  rewrite (proj2 (Z.ltb_lt i 32)) by lia. cbn [andb]. destruct (Z.lt_ge_cases i s) as [L | L].
  - rewrite Z.testbit_neg_r by lia. cbn [orb]. f_equal. rewrite <- (Z.mod_add (i - s) 1 28), Z.mod_small by lia. lia.
  - rewrite (Z.mod_small (i - s)) by lia.
    replace (Z.testbit h (i + (28 - s))) with false; [by rewrite orb_false_r |].
    rewrite <- (Z.mod_small h (2 ^ 28)) by lia. by rewrite Z.mod_pow2_bits_high by lia.
Qed.

Lemma rotate28_range h s : 0 <= rotate28 h s < 2 ^ 28.
Proof. unfold rotate28. change 0x0FFFFFFF with (Z.ones 28). rewrite Z.land_ones by lia. apply Z.mod_pos_bound. lia. Qed.

(** The halves after a list of rotations. *)
Definition rotated (h : Z) (shifts : list Z) : Z := fold_left rotate28 shifts h.
Definition total (shifts : list Z) : Z := fold_right Z.add 0 shifts.

Lemma rotated_bits shifts h i : Forall (fun s => 0 < s < 28) shifts -> 0 <= h < 2 ^ 28 -> 0 <= i < 28 ->
  Z.testbit (rotated h shifts) i = Z.testbit h ((i - total shifts) mod 28).
Proof.
  intros Hs. revert h i. induction Hs as [|s shifts Hs _ IH]; intros h i Hh Hi; unfold rotated, total; cbn [fold_left fold_right].
  - rewrite Z.sub_0_r, Z.mod_small by lia. done.
  - fold (total shifts). fold (rotated (rotate28 h s) shifts). rewrite (IH (rotate28 h s)) by (done || apply rotate28_range).
    rewrite rotate28_bits by (done || (apply Z.mod_pos_bound; lia)). f_equal.
    rewrite Zminus_mod_idemp_l. f_equal. lia.
Qed.

Lemma length_DesStoreRound S : length (DesStoreRound S) = 8%nat.
Proof. done. Qed.

Lemma bytes_schedule shifts L R : bytes (schedule_rounds shifts L R).
Proof.
  revert L R. induction shifts as [|s shifts IH]; intros L R; cbn [schedule_rounds]; [constructor |].
  apply bytes_app. split; [| apply IH]. apply bytes_app. split; apply store32_bytes.
Qed.

Local Opaque DesStoreRound.

Lemma schedule_round_at shifts L R r : (r < length shifts)%nat ->
  drop (r * 8) (schedule_rounds shifts L R) =
    DesStoreRound (subkey (rotated L (take (S r) shifts)) (rotated R (take (S r) shifts))) ++
    drop (S r * 8) (schedule_rounds shifts L R).
Proof.
  revert shifts L R. induction r as [|r IH]; intros [|s shifts] L R Hr; cbn [length] in Hr; try lia; cbn [schedule_rounds].
  - change (0 * 8)%nat with 0%nat. rewrite drop_0, drop_app_length' by (by rewrite length_DesStoreRound).
    cbn [take]. by rewrite take_0.
  - replace (S r * 8)%nat with (8 + r * 8)%nat by lia. replace (S (S r) * 8)%nat with (8 + S r * 8)%nat by lia.
    rewrite <- !(drop_drop _ _ 8), !(drop_app_length' (DesStoreRound _)) by (by rewrite length_DesStoreRound). rewrite IH by lia. done.
Qed.

(** The bit of the key that is bit [j] of round key [r]: PC-2 picks a
    position of the halves, which the rotations so far carry back to PC-1. *)
Definition key_bit_index (r j : nat) : nat :=
  let T := total (take (S r) DesShifts) in
  let p := nth j DesPc2 0 in
  if p <=? 28 then Z.to_nat (nth (Z.to_nat ((p - 1 + T) mod 28)) DesPc1 0 - 1)
  else Z.to_nat (nth (28 + Z.to_nat ((p - 29 + T) mod 28)) DesPc1 0 - 1).

Lemma half_key_bits KeyBytes base i : (base = 0 \/ base = 28)%nat -> 0 <= i < 28 ->
  Z.testbit (half_key KeyBytes base) i = bit_at KeyBytes (Z.to_nat (nth (Z.to_nat (27 - i) + base) DesPc1 0 - 1)).
Proof.
  intros Hb Hi. unfold half_key.
  assert (HP : Forall (fun p => 0 < p) DesPc1) by (by apply table_positive). rewrite Forall_forall in HP.
  set (f := fun j => bit_at KeyBytes (Z.to_nat (nth (j + base) DesPc1 0 - 1))).
  assert (E : forall l h, (forall j, In j l -> (j < 28)%nat) ->
    fold_left (fun h i => Z.lor h (shl32 (DesBit KeyBytes (nth (i + base) DesPc1 0)) (27 - Z.of_nat i))) l h =
    fold_left (fun h i => Z.lor h (shl32 (Z.b2z (f i)) (27 - Z.of_nat i))) l h).
  { induction l as [|j l IHl]; intros h Hl; [done |]. cbn [fold_left]. rewrite IHl by (intros; apply Hl; by right). do 3 f_equal.
    unfold f. rewrite <- DesBit_spec. f_equal.
    assert (0 < nth (j + base) DesPc1 0); [| lia]. apply HP, nth_In. cbn. specialize (Hl j ltac:(by left)). lia. }
  rewrite E by (intros j Hj%in_seq; lia).
  replace i with (27 - Z.of_nat (Z.to_nat (27 - i))) at 1 by lia.
  rewrite (gather_at f (fun j => 27 - Z.of_nat j) 28 28) by lia. done.
Qed.

Lemma half_key_range KeyBytes base : 0 <= half_key KeyBytes base < 2 ^ 28.
Proof.
  unfold half_key.
  assert (EB : forall p, DesBit KeyBytes p = Z.b2z (negb (DesBit KeyBytes p =? 0))).
  { intros p. unfold DesBit. set (x := Z.shiftr _ _). change 1 with (Z.ones 1). rewrite Z.land_ones by lia. change (2 ^ 1) with 2.
    pose proof (Z.mod_pos_bound x 2 ltac:(lia)). destruct (Z.eqb_spec (x mod 2) 0); cbn; lia. }
  assert (E : forall l h, fold_left (fun h i => Z.lor h (shl32 (DesBit KeyBytes (nth (i + base) DesPc1 0)) (27 - Z.of_nat i))) l h =
    fold_left (fun h i => Z.lor h (shl32 (Z.b2z (negb (DesBit KeyBytes (nth (i + base) DesPc1 0) =? 0))) (27 - Z.of_nat i))) l h).
  { induction l as [|j l IHl]; intros h; [done |]. cbn [fold_left]. rewrite <- EB. apply IHl. }
  rewrite E. apply (gather_range (fun i => negb (DesBit KeyBytes (nth (i + base) DesPc1 0) =? 0)) (fun j => 27 - Z.of_nat j) 28 28); lia.
Qed.

Lemma mod_complement a b : a + b = 27 -> 27 - a mod 28 = b mod 28.
Proof.
  intros E. pose proof (Z.mod_pos_bound a 28 ltac:(lia)). apply (Z.mod_unique_pos _ _ (- (a / 28))); [lia |].
  pose proof (Z.div_mod a 28). lia.
Qed.

Definition pc2_ok (p : Z) : Prop := 1 <= p <= 56.

Lemma pc2_range j : (j < 48)%nat -> pc2_ok (nth j DesPc2 0).
Proof.
  intros Hj. assert (H : forallb (fun p => (1 <=? p) && (p <=? 56)) DesPc2 = true) by reflexivity. rewrite forallb_forall in H.
  assert (HI : In (nth j DesPc2 0) DesPc2) by (apply nth_In; exact Hj).
  apply H, andb_true_iff in HI as [? ?]. unfold pc2_ok. lia.
Qed.

(** The subkey of round [r] as bits of the key. *)
Lemma subkey_bits KeyBytes r j : (r < 16)%nat -> (j < 48)%nat ->
  let L := rotated (half_key KeyBytes 0) (take (S r) DesShifts) in
  let R := rotated (half_key KeyBytes 28) (take (S r) DesShifts) in
  subkey_bit L R (nth j DesPc2 0) = Z.b2z (bit_at KeyBytes (key_bit_index r j)).
Proof.
  intros Hr Hj L R. pose proof (pc2_range j Hj) as Hp. unfold pc2_ok in Hp. unfold subkey_bit, key_bit_index.
  assert (HS : Forall (fun s => 0 < s < 28) (take (S r) DesShifts)).
  { apply Forall_take. repeat constructor. }
  set (p := nth j DesPc2 0) in *. set (T := total (take (S r) DesShifts)).
  destruct (Z.leb_spec p 28) as [L28 | L28]; rewrite land_one by lia; f_equal; unfold L, R;
    rewrite rotated_bits, half_key_bits by (auto using half_key_range; first [lia | apply Z.mod_pos_bound; lia]); fold T.
  - rewrite Nat.add_0_r. rewrite (mod_complement (28 - p - T) (p - 1 + T)) by lia. done.
  - rewrite Nat.add_comm. rewrite (mod_complement (56 - p - T) (p - 29 + T)) by lia. done.
Qed.

Lemma subkey_map KeyBytes r : (r < 16)%nat ->
  subkey (rotated (half_key KeyBytes 0) (take (S r) DesShifts)) (rotated (half_key KeyBytes 28) (take (S r) DesShifts)) =
    map Z.b2z (map (fun j => bit_at KeyBytes (key_bit_index r j)) (seq 0 48)).
Proof.
  intros Hr. unfold subkey. apply (nth_ext _ _ 0 0); [by rewrite !length_map |].
  rewrite length_map. intros j Hj. change (length DesPc2) with 48%nat in Hj.
  set (L := rotated (half_key KeyBytes 0) _). set (R := rotated (half_key KeyBytes 28) _).
  rewrite (nth_indep _ 0 (subkey_bit L R 0)) by (by rewrite length_map). rewrite map_nth. unfold L, R. rewrite subkey_bits by done.
  pose proof (map_nth Z.b2z (map (fun j => bit_at KeyBytes (key_bit_index r j)) (seq 0 48)) false j) as E. cbn [Z.b2z] in E. rewrite E.
  rewrite (nth_indep _ false (bit_at KeyBytes (key_bit_index r 0))) by (by rewrite length_map, length_seq).
  by rewrite (map_nth (fun j => bit_at KeyBytes (key_bit_index r j))), seq_nth.
Qed.

Lemma DesLoadKey_schedule KeyBytes rest r k : bytes rest -> (r < 16)%nat -> (k < 8)%nat ->
  nth k (nth r (DesLoadKey (DesSchedule KeyBytes ++ rest)) []) 0 = pack6 (fun b => bit_at KeyBytes (key_bit_index r (k * 6 + b))).
Proof.
  intros Hrest Hr Hk. unfold DesLoadKey. set (T := DesSchedule KeyBytes ++ rest).
  assert (HT : bytes T) by (apply bytes_app; split; [apply bytes_schedule | done]).
  set (g := fun r => map (load_six (load_word T (r * 8), load_word T (r * 8 + 4))) (seq 0 8)).
  rewrite (nth_indep _ [] (g 0%nat)) by (by rewrite length_map, length_seq). rewrite map_nth, seq_nth by done. cbn [Nat.add]. unfold g.
  set (ls := load_six _). rewrite (nth_indep _ 0 (ls 0%nat)) by (by rewrite length_map, length_seq).
  rewrite map_nth, seq_nth by done. cbn [Nat.add]. unfold ls. rewrite !load_word_spec by done.
  assert (ED : drop (r * 8) T = DesStoreRound (map Z.b2z (map (fun j => bit_at KeyBytes (key_bit_index r j)) (seq 0 48))) ++ drop (r * 8 + 8) T).
  { rewrite <- subkey_map by done. unfold T, DesSchedule.
    assert (LS : forall shifts L R, length (schedule_rounds shifts L R) = (8 * length shifts)%nat).
    { induction shifts as [|s shifts IH]; intros L R; [done |]. cbn [schedule_rounds length]. rewrite length_app, IH, length_DesStoreRound. lia. }
    rewrite !drop_app_le by (rewrite LS; cbn [length DesShifts]; lia).
    rewrite schedule_round_at by (cbn [length DesShifts]; lia). rewrite <- app_assoc. do 3 f_equal. lia. }
  rewrite <- (drop_drop _ _ (r * 8)), ED.
  set (bs := map (fun j => bit_at KeyBytes (key_bit_index r j)) (seq 0 48)).
  set (rest' := drop (r * 8 + 8) T). set (P := placed (six_of (map Z.b2z bs))).
  assert (EP : DesStoreRound (map Z.b2z bs) = store32 (fst P) ++ store32 (snd P)) by reflexivity. rewrite EP, <- app_assoc.
  assert (HP : is_u32 (fst P) /\ is_u32 (snd P)) by (apply placed_u32, six_of_range).
  rewrite load_store by apply HP. change (drop 4 (store32 (fst P) ++ store32 (snd P) ++ rest')) with (drop 0 (store32 (snd P) ++ rest')).
  rewrite drop_0, load_store by apply HP. rewrite <- surjective_pairing. unfold P. rewrite load_placed by done.
  unfold pack6, bs. rewrite !(nth_indep _ false (bit_at KeyBytes (key_bit_index r 0))) by (rewrite length_map, length_seq; lia).
  rewrite !(map_nth (fun j => bit_at KeyBytes (key_bit_index r j))), !seq_nth by lia. done.
Qed.

(** The number of set bits of a byte. *)
Definition ones (b : Z) : nat := length (List.filter (fun i => Z.testbit b (Z.of_nat i)) (seq 0 8)).

Lemma parity_byte_ok x : is_u8 x ->
  (Nat.odd (ones (parity_byte x)) = true /\ Z.shiftr (parity_byte x) 1 = Z.shiftr x 1) /\ parity_byte (parity_byte x) = parity_byte x.
Proof.
  intros Hx.
  assert (H : forallb (fun n => let x := Z.of_nat n in Nat.odd (ones (parity_byte x)) && (Z.shiftr (parity_byte x) 1 =? Z.shiftr x 1) &&
    (parity_byte (parity_byte x) =? parity_byte x)) (seq 0 256) = true) by (vm_compute; reflexivity).
  rewrite forallb_forall in H. unfold is_u8 in Hx. specialize (H (Z.to_nat x) ltac:(apply in_seq; lia)). cbv zeta in H.
  rewrite Z2Nat.id, !andb_true_iff, !Z.eqb_eq in H by lia. exact H.
Qed.

(** The feedback a run of enciphering leaves is its last block. *)
Lemma cbc_feedback Keys Count Op n Source Chain : Op <> 0 -> (0 < n)%nat ->
  let (out, fb) := cbc_loop Keys Count Op n Source Chain in
  length out = (8 * n)%nat /\ fb = drop (8 * n - 8) out.
Proof.
  intros HOp. revert Source Chain. induction n as [|n IH]; intros Source Chain Hn; [lia |]. cbn [cbc_loop].
  rewrite (proj2 (Z.eqb_neq Op 0) HOp). cbn [negb]. set (T := DesCryptBlock _ _ _ _).
  assert (LT : length T = 8%nat) by apply DesCryptBlock_block8. destruct n as [|n].
  - cbn [cbc_loop]. rewrite app_nil_r. split; [lia |]. change (8 * 1 - 8)%nat with 0%nat. by rewrite drop_0.
  - specialize (IH (drop DES_BLOCK_BYTES Source) T ltac:(lia)). destruct (cbc_loop Keys Count Op (S n) _ T) as [out fb].
    destruct IH as [I1 I2]. rewrite length_app, LT. split; [lia |]. rewrite drop_app_ge by lia. rewrite I2, LT. f_equal. lia.
Qed.

Lemma length_schedule_bytes KeyBytes : length (DesSchedule KeyBytes) = 128%nat.
Proof.
  unfold DesSchedule. generalize (half_key KeyBytes 0), (half_key KeyBytes 28). intros L R.
  assert (LS : forall shifts L R, length (schedule_rounds shifts L R) = (8 * length shifts)%nat).
  { induction shifts as [|s shifts IH]; intros; [done |]. cbn [schedule_rounds length]. rewrite length_app, IH, length_DesStoreRound. lia. }
  by rewrite LS.
Qed.

(** The [i]-th of equally long pieces laid end to end. *)
Lemma flat_map_drop (f : nat -> list Z) n m i : (forall j, length (f j) = n) -> (forall j, bytes (f j)) -> (i < m)%nat ->
  exists rest, bytes rest /\ drop (i * n) (flat_map f (seq 0 m)) = f i ++ rest.
Proof.
  intros L B Hi. exists (flat_map f (seq (S i) (m - S i))). split.
  - induction (seq (S i) (m - S i)) as [|j l IH]; [constructor |]. cbn [flat_map]. by apply bytes_app.
  - replace m with (i + S (m - S i))%nat at 1 by lia. rewrite seq_app, flat_map_app.
    assert (LF : length (flat_map f (seq 0 i)) = (i * n)%nat).
    { clear Hi. induction i as [|i IH]; [done |]. rewrite seq_S, flat_map_app, length_app, IH. cbn [flat_map Nat.add].
      rewrite app_nil_r, L. lia. }
    by rewrite drop_app_length' by done.
Qed.

(** ** Properties *)

(** For either cipher and any key table, a block enciphered with any
    operation code but zero and deciphered with zero comes back, and so does
    one deciphered first. *)
Theorem block_crypt_roundtrip Cipher KeyTable In Op : bytes In -> (8 <= length In)%nat -> Op <> 0 ->
  XcpBlockCrypt Cipher (XcpBlockCrypt Cipher In KeyTable Op) KeyTable 0 = take 8 In /\
  XcpBlockCrypt Cipher (XcpBlockCrypt Cipher In KeyTable 0) KeyTable Op = take 8 In.
Proof.
  intros HI L HOp. unfold XcpBlockCrypt. rewrite (proj2 (Z.eqb_neq Op 0) HOp). change (0 =? 0) with true.
  assert (HB : block8 (take 8 In)) by (split; [auto with bytes | rewrite length_take; lia]).
  set (Keys := DesLoadTable _ _). set (Count := DesKeyCount Cipher).
  rewrite !(take_ge (DesCryptBlock _ _ _ _)) by (rewrite (proj2 (DesCryptBlock_block8 _ _ _ _)); lia).
  split; [exact (DesCryptBlock_inverse _ Keys Count false HB) | exact (DesCryptBlock_inverse _ Keys Count true HB)].
Qed.

(** C29: Chaining: from the same feedback value, deciphering what a run of
    enciphering wrote returns the whole blocks of the input, for every
    length - none below eight bytes - and both runs leave the same feedback,
    the last ciphertext block. *)
Theorem block_crypt_cbc_roundtrip Cipher KeyTable Len In Op Feedback :
  bytes In -> (Len <= length In)%nat -> bytes Feedback -> length Feedback = 8%nat -> Op <> 0 ->
  let (out, fb) := XcpBlockCryptCBC Cipher Len In KeyTable Op Feedback in
  length out = (8 * (Len / 8))%nat /\
  XcpBlockCryptCBC Cipher Len out KeyTable 0 Feedback = (take (8 * (Len / 8)) In, fb) /\
  fb = (if (Len <? 8)%nat then Feedback else drop (8 * (Len / 8) - 8) out).
Proof.
  intros HI HL HF LF HOp. unfold XcpBlockCryptCBC, DES_BLOCK_BYTES.
  destruct (Nat.ltb_spec Len 8) as [L | L].
  { rewrite Nat.div_small by lia. split; [done |]. split; [by rewrite take_0 | done]. }
  pose proof (Nat.div_mod Len 8 ltac:(lia)) as D. pose proof (Nat.div_str_pos Len 8 ltac:(lia)) as Hn.
  set (Keys := DesLoadTable _ _). set (Count := DesKeyCount Cipher). set (n := (Len / 8)%nat) in *.
  pose proof (cbc_inverse Keys Count Op n In Feedback HOp HI ltac:(lia) (conj HF LF)) as H.
  pose proof (cbc_feedback Keys Count Op n In Feedback HOp Hn) as F.
  destruct (cbc_loop Keys Count Op n In Feedback) as [out fb]. destruct H as (_ & H2 & H3).
  split; [done |]. split; [done |]. apply F.
Qed.

(** C25: The table [XcpKeyTable] writes, read back the way the cipher reads
    it, holds the round keys of FIPS 46-3 for each key: the six bits of
    S-box [k] in round [r] are the key bits that PC-1, the rotations through
    round [r] and PC-2 select, most significant first. *)
Theorem key_table_standard Cipher Key i r k :
  (i < Z.to_nat (DesKeyCount Cipher))%nat -> (r < 16)%nat -> (k < 8)%nat ->
  nth k (nth r (nth i (DesLoadTable (DesKeyCount Cipher) (XcpKeyTable Cipher Key)) []) []) 0 =
    pack6 (fun b => bit_at (take 8 (drop (i * 8) Key)) (key_bit_index r (k * 6 + b))).
Proof.
  intros Hi Hr Hk. unfold DesLoadTable, XcpKeyTable. set (m := Z.to_nat (DesKeyCount Cipher)) in *.
  set (T := flat_map _ _). set (g := fun i => DesLoadKey (drop (i * DES_TABLE_BYTES) T)).
  rewrite (nth_indep _ [] (g 0%nat)) by (by rewrite length_map, length_seq). rewrite map_nth, seq_nth by done.
  cbn [Nat.add]. unfold g. destruct (flat_map_drop (fun i => DesSchedule (take 8 (drop (i * 8) Key))) 128 m i) as (rest & Hrest & E).
  { intros j. apply length_schedule_bytes. } { intros j. apply bytes_schedule. } { done. }
  unfold T, DES_TABLE_BYTES. rewrite E. by apply DesLoadKey_schedule.
Qed.

(** Parity adjustment gives each of the first [KeyLen] bytes an odd
    number of set bits, keeps their upper seven, leaves the rest of the
    buffer alone, and does nothing the second time. *)
Theorem key_parity_odd Key KeyLen : bytes Key ->
  let K' := XcpDESKeyParity Key KeyLen in
  length K' = length Key /\ drop KeyLen K' = drop KeyLen Key /\
  Forall2 (fun k k' => Nat.odd (ones k') = true /\ Z.shiftr k' 1 = Z.shiftr k 1) (take KeyLen Key) (take KeyLen K') /\
  XcpDESKeyParity K' KeyLen = K'.
Proof.
  intros HK K'.
  assert (L : length (map parity_byte (take KeyLen Key)) = (KeyLen `min` length Key)%nat) by (by rewrite length_map, length_take).
  assert (E1 : take KeyLen K' = map parity_byte (take KeyLen Key) /\ drop KeyLen K' = drop KeyLen Key).
  { unfold K', XcpDESKeyParity. destruct (Nat.le_ge_cases KeyLen (length Key)).
    - by rewrite take_app_length', drop_app_length' by lia.
    - rewrite (drop_ge Key), app_nil_r by lia. by rewrite take_ge, drop_ge by lia. }
  destruct E1 as [E1 E2]. split; [| split; [done | split]].
  - unfold K', XcpDESKeyParity. rewrite length_app, L, length_drop. lia.
  - rewrite E1. pose proof (bytes_take KeyLen Key HK) as HT. clear - HT.
    induction HT as [|x l Hx _ IH]; cbn [map]; constructor; [by apply parity_byte_ok | done].
  - unfold XcpDESKeyParity at 1. rewrite E1, E2, map_map. unfold K', XcpDESKeyParity. f_equal.
    pose proof (bytes_take KeyLen Key HK) as HT. clear - HT.
    induction HT as [|x l Hx _ IH]; cbn [map]; f_equal; [by apply parity_byte_ok | done].
Qed.

(** ** Witnesses *)

Definition sample_key : list Z := [0x13; 0x34; 0x57; 0x79; 0x9B; 0xBC; 0xDF; 0xF1].
Definition sample_block : list Z := [0x01; 0x23; 0x45; 0x67; 0x89; 0xAB; 0xCD; 0xEF].

Lemma bytes_sample : bytes sample_block /\ bytes (sample_block ++ sample_block ++ [1]) /\ bytes sample_key.
Proof. repeat split; repeat (apply bytes_cons; split; [unfold is_u8; lia |]); constructor. Qed.

(** The classic test vector enciphers to 85E813540F0AB405, and back. *)
Lemma block_crypt_roundtrip_witness :
  XcpBlockCrypt 0 [0x85; 0xE8; 0x13; 0x54; 0x0F; 0x0A; 0xB4; 0x05] (XcpKeyTable 0 sample_key) 0 = sample_block.
Proof.
  assert (E : XcpBlockCrypt 0 sample_block (XcpKeyTable 0 sample_key) 1 = [0x85; 0xE8; 0x13; 0x54; 0x0F; 0x0A; 0xB4; 0x05])
    by (vm_compute; reflexivity).
  rewrite <- E.
  apply (proj1 (block_crypt_roundtrip 0 (XcpKeyTable 0 sample_key) sample_block 1 (proj1 bytes_sample) ltac:(cbn; lia) ltac:(lia))).
Defined.

Lemma block_crypt_cbc_roundtrip_witness :
  let T := XcpKeyTable 1 (sample_key ++ sample_block ++ sample_key) in
  fst (XcpBlockCryptCBC 1 17 (fst (XcpBlockCryptCBC 1 17 (sample_block ++ sample_block ++ [1]) T 1 sample_key)) T 0 sample_key) =
    sample_block ++ sample_block.
Proof.
  intros T. pose proof (block_crypt_cbc_roundtrip 1 T 17 (sample_block ++ sample_block ++ [1]) 1 sample_key
    (proj1 (proj2 bytes_sample)) ltac:(cbn; lia) (proj2 (proj2 bytes_sample)) eq_refl ltac:(lia)) as H.
  destruct (XcpBlockCryptCBC 1 17 (sample_block ++ sample_block ++ [1]) T 1 sample_key) as [out fb].
  destruct H as (_ & H & _). cbn [fst]. rewrite H. reflexivity.
Defined.

Lemma key_table_standard_witness :
  nth 0 (nth 0 (nth 2 (DesLoadTable 3 (XcpKeyTable 7 (sample_block ++ sample_block ++ sample_key))) []) []) 0 =
    pack6 (fun b => bit_at sample_key (key_bit_index 0 b)).
Proof. exact (key_table_standard 7 (sample_block ++ sample_block ++ sample_key) 2 0 0 ltac:(cbn; lia) ltac:(lia) ltac:(lia)). Defined.

Lemma key_parity_odd_witness : XcpDESKeyParity (XcpDESKeyParity sample_block 4) 4 = XcpDESKeyParity sample_block 4.
Proof. apply (key_parity_odd sample_block 4 (proj1 bytes_sample)). Defined.
