(* ===== verification/SmBus.v ===== *)
(** * The SMBus

    The interface the settings code uses of the bus, and the driver that
    implements it, [src/hal/halx86/xbox/smbus.c].  The interface ([SmBus],
    [SmBusMemory]) says what a completed byte transfer does to a slave that
    is a memory, every transfer being allowed to fail.  The driver runs on
    the controller's ports, a parameter ([McpxPorts]) with the laws of the
    hardware ([McpxSlave]); the theorems are that the driver's byte
    operations meet the interface on any such controller, and that a slave
    that never answers fails the call after a fixed number of port accesses
    instead of hanging it. *)

From stdpp Require Import prelude list numbers.
From Stdlib Require Import ZArith Lia.
From S2P Require Import Prelude Bytes.

Local Open Scope Z_scope.

(** ** The bus

    A byte transfer on a device of type [D] gives the device after it, the
    status and, for a read, the byte. *)

Class SmBus (D : Type) := {
  bus_read : D -> Z -> Z -> D * Z * Z;
  bus_write : D -> Z -> Z -> Z -> D * Z;
  (** what the slave at an address holds, as bytes by register *)
  bus_view : D -> Z -> list Z
}.

(** The slave behaves as a memory: a completed read returns the register, a
    completed write sets it, a failed write may or may not have landed. *)
Class SmBusMemory (D : Type) `{SmBus D} (slave : Z) := {
  view_length d : length (bus_view d slave) = 256%nat;
  view_bytes d : bytes (bus_view d slave);
  read_law d r : (0 <= r < 256) ->
    let '(d', st, v) := bus_read d slave r in
    bus_view d' slave = bus_view d slave /\ is_u8 v /\
    (NT_SUCCESS st = true -> v = nth (Z.to_nat r) (bus_view d slave) 0);
  write_law d r v : (0 <= r < 256) -> is_u8 v ->
    let '(d', st) := bus_write d slave r v in
    bus_view d' slave = <[Z.to_nat r := v]> (bus_view d slave) \/
    (NT_SUCCESS st = false /\ bus_view d' slave = bus_view d slave)
}.

(** ** The controller's ports *)

Class McpxPorts (H : Type) := {
  out_host_address : H -> Z -> H;
  out_host_command : H -> Z -> H;
  out_host_data16 : H -> Z -> H;
  out_global_status16 : H -> Z -> H;
  out_global_enable : H -> Z -> H;
  in_global_status16 : H -> H * Z;
  in_global_status8 : H -> H * Z;
  in_host_data8 : H -> H * Z;
  in_host_data16 : H -> H * Z;
  stall : H -> H
}.

(** [READ_PORT_USHORT]'s and [READ_PORT_UCHAR]'s status bits. *)
Definition SMB_ST_BUSY : Z := 0x0800.
Definition SMB_ST_SETTLED : Z := 0x0036.
Definition SMB_ST_DONE : Z := 0x0010.
Definition SMB_PROTO_READ : Z := 0x0A.
Definition SMB_PROTO_WRITE : Z := 0x1A.
Definition SMB_PROTO_WORD : Z := 0x01.
Definition SMB_RETRIES : nat := 50.
Definition SMB_IDLE_SPINS : nat := Z.to_nat 0x10000.
Definition SMB_DONE_SPINS : nat := Z.to_nat 0x20000.

Section driver.
Context {H : Type} `{McpxPorts H}.

(** Parking while another master drives the bus, [n] looks left. *)
Fixpoint idle_spin (n : nat) (h : H) : H :=
  match n with
  | O => h
  | S n' =>
      let (h, v) := in_global_status16 h in
      if Z.land v SMB_ST_BUSY =? 0 then h else idle_spin n' h
  end.

(** Waiting for the transaction, [n] looks left; the last status seen. *)
Fixpoint done_spin (n : nat) (h : H) (status : Z) : H * Z :=
  match n with
  | O => (h, status)
  | S n' =>
      let (h, status) := in_global_status8 h in
      if negb (Z.land status SMB_ST_SETTLED =? 0) then (h, status) else done_spin n' h status
  end.

(** One issue of the transaction, up to its status. *)
Definition issue (Address Command : Z) (Read Word : bool) (Data : Z) (h : H) : H * Z :=
  let proto := Z.lor (if Read then SMB_PROTO_READ else SMB_PROTO_WRITE) (if Word then SMB_PROTO_WORD else 0) in
  let h := out_host_address h (u8 (Z.lor (Z.shiftl Address 1) (if Read then 1 else 0))) in
  let h := out_host_command h Command in
  let h := if negb Read then out_host_data16 h (if Word then Data else Z.land Data 0xFF) else h in
  let (h, latched) := in_global_status16 h in
  let h := out_global_status16 h latched in
  let h := out_global_enable h proto in
  done_spin SMB_DONE_SPINS h 0.

(** The retries, [n] left.  The datum is threaded through. *)
Fixpoint transfer_tries (n : nat) (Address Command : Z) (Read Word : bool) (Data : Z) (h : H) : H * Z * Z :=
  match n with
  | O => (h, STATUS_IO_DEVICE_ERROR, Data)
  | S n' =>
      let (h, status) := issue Address Command Read Word Data h in
      if negb (Z.land status SMB_ST_DONE =? 0) then
        if Read then
          let (h, v) := if Word then in_host_data16 h else in_host_data8 h in
          (h, STATUS_SUCCESS, v)
        else (h, STATUS_SUCCESS, Data)
      else transfer_tries n' Address Command Read Word Data (stall h)
  end.

Definition HalpXboxSmBusTransfer (Address Command : Z) (Read Word : bool) (Data : Z) (h : H) : H * Z * Z :=
  transfer_tries SMB_RETRIES Address Command Read Word Data (idle_spin SMB_IDLE_SPINS h).

Definition HalpXboxSmBusReadByte (h : H) (Address Register : Z) : H * Z * Z :=
  let '(h, status, v) := HalpXboxSmBusTransfer Address Register true false 0 h in
  (h, status, u8 v).

Definition HalpXboxSmBusWriteByte (h : H) (Address Register Value : Z) : H * Z :=
  let '(h, status, _) := HalpXboxSmBusTransfer Address Register false false Value h in
  (h, status).

Definition HalpXboxSmBusReadWord (h : H) (Address Register : Z) : H * Z * Z :=
  HalpXboxSmBusTransfer Address Register true true 0 h.

Definition HalpXboxSmBusWriteWord (h : H) (Address Register Value : Z) : H * Z :=
  let '(h, status, _) := HalpXboxSmBusTransfer Address Register false true Value h in
  (h, status).

End driver.

(** ** The hardware's laws

    The host registers hold what is written to them.  The status is latched:
    bits that a transaction has set stay, and are seen by every later look,
    until they are cleared by writing ones over them.  Nothing but a started
    write transaction changes the slave's registers, and that one at any
    time after it is started, to the held value.  For a transaction that was
    started with a clear latch, a status that shows it done means that a
    write has landed, or that a read has left the slave's register in the
    data register; a status left over from an earlier transaction means
    nothing. *)

(** A transaction as the driver sets it up. *)
Record xfer := Xfer { xAddress : Z; xCommand : Z; xData : Z; xProto : Z }.

(** The slave's registers after a completed byte write. *)
Definition written (x : xfer) (view : list Z) : list Z := <[Z.to_nat (xCommand x) := u8 (xData x)]> view.

Definition byte_read (slave : Z) (x : xfer) : Prop :=
  xAddress x = Z.lor (Z.shiftl slave 1) 1 /\ xProto x = SMB_PROTO_READ /\ 0 <= xCommand x < 256.

Definition byte_write (slave : Z) (x : xfer) : Prop :=
  xAddress x = Z.shiftl slave 1 /\ xProto x = SMB_PROTO_WRITE /\ 0 <= xCommand x < 256.

(** No bit of a settled transaction. *)
Definition unlatched (v : Z) : Prop := Z.land v SMB_ST_SETTLED = 0.

Class McpxSlave (H : Type) `{McpxPorts H} (slave : Z) := {
  (** the slave's registers *)
  slave_view : H -> list Z;
  (** the host registers, and the protocol last started *)
  host : H -> xfer;
  slave_range : 0 <= slave < 128;
  slave_length h : length (slave_view h) = 256%nat;
  slave_bytes h : bytes (slave_view h);
  (** the status bits that are latched *)
  latch : H -> Z;
  out_address_law h a : slave_view (out_host_address h a) = slave_view h /\ latch (out_host_address h a) = latch h /\
    host (out_host_address h a) = Xfer a (xCommand (host h)) (xData (host h)) 0;
  out_command_law h c : slave_view (out_host_command h c) = slave_view h /\ latch (out_host_command h c) = latch h /\
    host (out_host_command h c) = Xfer (xAddress (host h)) c (xData (host h)) 0;
  out_data_law h d : slave_view (out_host_data16 h d) = slave_view h /\ latch (out_host_data16 h d) = latch h /\
    host (out_host_data16 h d) = Xfer (xAddress (host h)) (xCommand (host h)) d 0;
  in_status16_law h : let (h', v) := in_global_status16 h in slave_view h' = slave_view h /\
    (xProto (host h) = 0 -> host h' = host h /\ latch h' = latch h /\ Z.land v SMB_ST_SETTLED = Z.land (latch h) SMB_ST_SETTLED);
  out_status_law h v : slave_view (out_global_status16 h v) = slave_view h /\
    (xProto (host h) = 0 -> host (out_global_status16 h v) = host h /\ latch (out_global_status16 h v) = Z.ldiff (latch h) v);
  out_enable_law h p : slave_view (out_global_enable h p) = slave_view h /\
    (xProto (host h) = 0 -> latch (out_global_enable h p) = latch h /\
     host (out_global_enable h p) = Xfer (xAddress (host h)) (xCommand (host h)) (xData (host h)) p);
  in_status8_latched h : Z.land (latch h) (snd (in_global_status8 h)) = latch h;
  in_status8_read h : byte_read slave (host h) -> unlatched (latch h) ->
    let (h', v) := in_global_status8 h in
    slave_view h' = slave_view h /\ (unlatched v -> host h' = host h /\ unlatched (latch h')) /\
    (Z.land v SMB_ST_DONE <> 0 -> snd (in_host_data8 h') = nth (Z.to_nat (xCommand (host h))) (slave_view h') 0);
  in_status8_write h : byte_write slave (host h) -> unlatched (latch h) ->
    let (h', v) := in_global_status8 h in
    (slave_view h' = written (host h) (slave_view h) \/
     (Z.land v SMB_ST_DONE = 0 /\ slave_view h' = slave_view h)) /\
    (unlatched v -> host h' = host h /\ unlatched (latch h'));
  in_data_law h : slave_view (fst (in_host_data8 h)) = slave_view h;
  stall_law h : slave_view (stall h) = slave_view h
}.

(** ** The driver on such a controller *)

Lemma spins_value : Z.of_nat SMB_IDLE_SPINS = 0x10000 /\ Z.of_nat SMB_DONE_SPINS = 0x20000.
Proof. unfold SMB_IDLE_SPINS, SMB_DONE_SPINS. by rewrite !Z2Nat.id by lia. Qed.

#[local] Opaque SMB_IDLE_SPINS SMB_DONE_SPINS.

Lemma unsettled_not_done v : unlatched v -> Z.land v SMB_ST_DONE = 0.
Proof.
  unfold unlatched. intros E. change SMB_ST_DONE with (Z.land SMB_ST_SETTLED SMB_ST_DONE). rewrite Z.land_assoc, E. done.
Qed.

(** Writing the status back clears what it showed. *)
Lemma cleared l v : Z.land v SMB_ST_SETTLED = Z.land l SMB_ST_SETTLED -> unlatched (Z.ldiff l v).
Proof.
  intros E. apply Z.bits_inj'. intros n Hn. assert (B := f_equal (fun x => Z.testbit x n) E). cbv beta in B. rewrite !Z.land_spec in B.
  rewrite Z.land_spec, Z.ldiff_spec, Z.bits_0. destruct (Z.testbit l n), (Z.testbit v n), (Z.testbit SMB_ST_SETTLED n); done.
Qed.

Lemma written_twice x view : written x (written x view) = written x view.
Proof. apply list_insert_insert_eq. Qed.

Section laws.
Context {H : Type} `{McpxSlave H slave}.

Lemma idle_spin_view n h : slave_view (idle_spin n h) = slave_view h.
Proof.
  revert h. induction n as [|n IH]; intros h; [done |]. cbn [idle_spin]. pose proof (in_status16_law h) as V.
  destruct (in_global_status16 h) as [h' v]. destruct V as [V _]. destruct (Z.land v SMB_ST_BUSY =? 0); [done |]. by rewrite IH.
Qed.

Lemma done_spin_read n h status : byte_read slave (host h) -> unlatched (latch h) -> Z.land status SMB_ST_DONE = 0 ->
  let (h', v) := done_spin n h status in
  slave_view h' = slave_view h /\
  (Z.land v SMB_ST_DONE <> 0 -> snd (in_host_data8 h') = nth (Z.to_nat (xCommand (host h))) (slave_view h) 0).
Proof.
  revert h status. induction n as [|n IH]; intros h status Hr Hl Hs; cbn [done_spin]; [by split |].
  pose proof (in_status8_read h Hr Hl) as L. destruct (in_global_status8 h) as [h1 v]. destruct L as (L1 & L2 & L3).
  destruct (Z.eqb_spec (Z.land v SMB_ST_SETTLED) 0) as [E | E]; cbn [negb].
  - destruct (L2 E) as [L4 L5]. rewrite <- L1, <- L4. apply IH; [by rewrite L4 | done | by apply unsettled_not_done].
  - split; [done |]. intros Hd. by rewrite (L3 Hd), L1.
Qed.

Lemma done_spin_write n h status : byte_write slave (host h) -> unlatched (latch h) -> Z.land status SMB_ST_DONE = 0 ->
  let (h', v) := done_spin n h status in
  slave_view h' = written (host h) (slave_view h) \/ (Z.land v SMB_ST_DONE = 0 /\ slave_view h' = slave_view h).
Proof.
  revert h status. induction n as [|n IH]; intros h status Hw Hl Hs; cbn [done_spin]; [by right |].
  pose proof (in_status8_write h Hw Hl) as L. destruct (in_global_status8 h) as [h1 v]. destruct L as (L1 & L2).
  destruct (Z.eqb_spec (Z.land v SMB_ST_SETTLED) 0) as [E | E]; cbn [negb]; [| done].
  destruct (L2 E) as [L3 L4]. specialize (IH h1 v). rewrite L3 in IH. specialize (IH Hw L4 (unsettled_not_done v E)).
  destruct (done_spin n h1 v) as [h2 v2].
  destruct L1 as [-> | [_ ->]] in IH; [| done]. left. rewrite written_twice in IH. by destruct IH as [-> | [_ ->]].
Qed.

(** The state in which the status is polled, for a byte transfer. *)
Definition started (Address Command : Z) (Read : bool) (Data : Z) (h : H) : H :=
  let h := out_host_address h (u8 (Z.lor (Z.shiftl Address 1) (if Read then 1 else 0))) in
  let h := out_host_command h Command in
  let h := if negb Read then out_host_data16 h (Z.land Data 0xFF) else h in
  let (h, latched) := in_global_status16 h in
  out_global_enable (out_global_status16 h latched) (if Read then SMB_PROTO_READ else SMB_PROTO_WRITE).

Lemma issue_started Address Command Read Data h :
  issue Address Command Read false Data h = done_spin SMB_DONE_SPINS (started Address Command Read Data h) 0.
Proof.
  unfold issue, started. destruct (in_global_status16 _) as [h1 latched]. by rewrite Z.lor_0_r.
Qed.

Lemma started_spec Address Command Read Data h :
  let s := started Address Command Read Data h in
  slave_view s = slave_view h /\ unlatched (latch s) /\
  xAddress (host s) = u8 (Z.lor (Z.shiftl Address 1) (if Read then 1 else 0)) /\ xCommand (host s) = Command /\
  (Read = false -> xData (host s) = Z.land Data 0xFF) /\ xProto (host s) = if Read then SMB_PROTO_READ else SMB_PROTO_WRITE.
Proof.
  unfold started. set (a := u8 _). destruct (out_address_law h a) as (V1 & _ & T1). set (h1 := out_host_address h a) in *.
  destruct (out_command_law h1 Command) as (V2 & _ & T2). set (h2 := out_host_command h1 Command) in *.
  set (h3 := if negb Read then _ else _).
  assert (T3 : slave_view h3 = slave_view h /\ host h3 = Xfer a Command (if Read then xData (host h2) else Z.land Data 0xFF) 0).
  { unfold h3. destruct Read; cbn [negb].
    - rewrite V2, V1, T2, T1. done.
    - destruct (out_data_law h2 (Z.land Data 0xFF)) as (V3 & _ & ->). rewrite V3, V2, V1, T2, T1. done. }
  clearbody h3. destruct T3 as [V3 T3]. pose proof (in_status16_law h3) as S16.
  destruct (in_global_status16 h3) as [h4 v]. destruct S16 as [V4 T4]. rewrite T3 in T4. destruct (T4 eq_refl) as (T5 & L5 & Lv).
  destruct (out_status_law h4 v) as [V6 T6]. rewrite T5 in T6. destruct (T6 eq_refl) as [T7 L7].
  set (p := if Read then SMB_PROTO_READ else _). destruct (out_enable_law (out_global_status16 h4 v) p) as [V8 T8].
  rewrite T7 in T8. destruct (T8 eq_refl) as [L9 T9]. cbv zeta. rewrite V8, V6, V4, V3, T9, L9, L7, L5. cbn [xAddress xCommand xData xProto].
  split; [done |]. split; [by apply cleared |]. split; [done |]. split; [done |]. split; [| done]. by intros ->.
Qed.

Lemma slave_address b : u8 (Z.lor (Z.shiftl slave 1) (Z.b2z b)) = Z.lor (Z.shiftl slave 1) (Z.b2z b).
Proof.
  pose proof slave_range as Hs. apply Z.mod_small. rewrite Z.shiftl_mul_pow2 by lia.
  assert (E : Z.lor (slave * 2 ^ 1) (Z.b2z b) = 2 * slave + Z.b2z b).
  { rewrite (Z.add_nocarry_lxor (2 * slave)), Z.lxor_lor; [f_equal; lia | |];
      apply Z.bits_inj'; intros n Hn; rewrite Z.land_spec, Z.bits_0; (destruct (Z.eq_dec n 0) as [-> | ?];
      [rewrite Z.testbit_even_0; done | destruct b; cbn [Z.b2z]; rewrite ?Z.testbit_0_l; rewrite ?andb_false_r; try done]);
      apply andb_false_intro2; apply Z.bits_above_log2; cbn; lia. }
  rewrite E. destruct b; cbn [Z.b2z]; lia.
Qed.

Lemma read_tries n r h : 0 <= r < 256 ->
  let '(h', st, v) := transfer_tries n slave r true false 0 h in
  slave_view h' = slave_view h /\ (NT_SUCCESS st = true -> v = nth (Z.to_nat r) (slave_view h) 0).
Proof.
  intros Hr. revert h. induction n as [|n IH]; intros h; cbn [transfer_tries]; [by split |].
  rewrite issue_started. pose proof (started_spec slave r true 0 h) as (S1 & Sl & S2 & S3 & _ & S5).
  set (s := started slave r true 0 h) in *. pose proof (done_spin_read SMB_DONE_SPINS s 0) as D.
  destruct (done_spin SMB_DONE_SPINS s 0) as [h1 v]. rewrite S3, S1 in D.
  destruct D as [D1 D2]; [| done | done |].
  { split; [rewrite S2; apply (slave_address true) |]. by rewrite S3. }
  destruct (Z.eqb_spec (Z.land v SMB_ST_DONE) 0) as [E | E]; cbn [negb].
  - specialize (IH (stall h1)). rewrite stall_law, D1 in IH. done.
  - specialize (D2 E). pose proof (in_data_law h1) as D3. destruct (in_host_data8 h1) as [h2 w]. cbn [fst snd] in *.
    rewrite D3, D1. done.
Qed.

Lemma write_tries n r d h : 0 <= r < 256 -> is_u8 d ->
  let '(h', st, _) := transfer_tries n slave r false false d h in
  slave_view h' = <[Z.to_nat r := d]> (slave_view h) \/ (NT_SUCCESS st = false /\ slave_view h' = slave_view h).
Proof.
  intros Hr Hd. revert h. induction n as [|n IH]; intros h; cbn [transfer_tries]; [by right |].
  rewrite issue_started. pose proof (started_spec slave r false d h) as (S1 & Sl & S2 & S3 & S4 & S5).
  set (s := started slave r false d h) in *. pose proof (done_spin_write SMB_DONE_SPINS s 0) as D.
  destruct (done_spin SMB_DONE_SPINS s 0) as [h1 v]. unfold written in D. rewrite S3, (S4 eq_refl), S1 in D.
  assert (Ed : u8 (Z.land d 0xFF) = d).
  { change 0xFF with (Z.ones 8). rewrite Z.land_ones by lia. unfold u8, is_u8 in *. rewrite Z.mod_mod by lia. apply Z.mod_small. lia. }
  rewrite Ed in D. specialize (D ltac:(split; [rewrite S2; pose proof (slave_address false) as A; cbn [Z.b2z] in A; rewrite A; apply Z.lor_0_r | by rewrite S3]) Sl eq_refl).
  destruct (Z.eqb_spec (Z.land v SMB_ST_DONE) 0) as [E | E]; cbn [negb].
  - specialize (IH (stall h1)). rewrite stall_law in IH. destruct (transfer_tries n slave r false false d (stall h1)) as [[h2 st] w].
    destruct D as [-> | [_ ->]] in IH; [| done]. left. by destruct IH as [-> | [_ ->]]; rewrite ?list_insert_insert_eq.
  - destruct D as [-> | [? _]]; [by left | done].
Qed.

(** *** A slave that answers *)

(** Every look at the status of a started byte transaction shows it done. *)
Definition answers : Prop := forall h : H, byte_read slave (host h) \/ byte_write slave (host h) ->
  unlatched (latch h) -> Z.land (snd (in_global_status8 h)) SMB_ST_DONE <> 0.

Lemma issue_answered Read r d h : answers -> 0 <= r < 256 -> Z.land (snd (issue slave r Read false d h)) SMB_ST_DONE <> 0.
Proof.
  intros Ha Hr. rewrite issue_started. pose proof (started_spec slave r Read d h) as (_ & Sl & S2 & S3 & _ & S5). set (s := started slave r Read d h) in *.
  assert (E : SMB_DONE_SPINS = S (pred SMB_DONE_SPINS)) by (destruct spins_value; lia). rewrite E. cbn [done_spin].
  assert (Hd : Z.land (snd (in_global_status8 s)) SMB_ST_DONE <> 0).
  { apply Ha; [| done]. clearbody s. destruct Read; [left | right]; (split; [rewrite S2 | split; [exact S5 | rewrite S3; exact Hr]]); [apply (slave_address true) |].
    pose proof (slave_address false) as A. cbn [Z.b2z] in A. rewrite A. apply Z.lor_0_r. }
  destruct (in_global_status8 s) as [h1 v]. cbn [snd] in Hd. destruct (Z.eqb_spec (Z.land v SMB_ST_SETTLED) 0) as [E0 | E0]; [| exact Hd].
  exfalso. apply Hd. by apply unsettled_not_done.
Qed.

Lemma tries_answered n Read r d h : answers -> 0 <= r < 256 -> snd (fst (transfer_tries (S n) slave r Read false d h)) = STATUS_SUCCESS.
Proof.
  intros Ha Hr. cbn [transfer_tries]. pose proof (issue_answered Read r d h Ha Hr) as Hd. destruct (issue _ _ _ _ _ _) as [h1 v]. cbn [snd] in Hd.
  rewrite (proj2 (Z.eqb_neq _ 0) Hd). cbn [negb]. destruct Read; [| done]. by destruct (in_host_data8 h1).
Qed.

End laws.

(** ** The bus the driver gives *)

#[export] Instance mcpx_smbus {H : Type} `{McpxSlave H slave} : SmBus H := {
  bus_read h a r := HalpXboxSmBusReadByte h a r;
  bus_write h a r v := HalpXboxSmBusWriteByte h a r v;
  bus_view h _ := slave_view h
}.

Lemma read_byte_law {H : Type} `{McpxSlave H slave} (h : H) r : 0 <= r < 256 ->
  let '(h', st, v) := HalpXboxSmBusReadByte h slave r in
  slave_view h' = slave_view h /\ is_u8 v /\ (NT_SUCCESS st = true -> v = nth (Z.to_nat r) (slave_view h) 0).
Proof.
  intros Hr. unfold HalpXboxSmBusReadByte, HalpXboxSmBusTransfer.
  pose proof (read_tries SMB_RETRIES r (idle_spin SMB_IDLE_SPINS h) Hr) as R. rewrite idle_spin_view in R.
  destruct (transfer_tries _ _ _ _ _ _ _) as [[h' st] v]. destruct R as [R1 R2]. split; [done |]. split; [apply u8_is |].
  intros Hs. rewrite (R2 Hs). apply u8_id, bytes_nth, slave_bytes.
Qed.

Lemma write_byte_law {H : Type} `{McpxSlave H slave} (h : H) r v : 0 <= r < 256 -> is_u8 v ->
  let '(h', st) := HalpXboxSmBusWriteByte h slave r v in
  slave_view h' = <[Z.to_nat r := v]> (slave_view h) \/ (NT_SUCCESS st = false /\ slave_view h' = slave_view h).
Proof.
  intros Hr Hv. unfold HalpXboxSmBusWriteByte, HalpXboxSmBusTransfer.
  pose proof (write_tries SMB_RETRIES r v (idle_spin SMB_IDLE_SPINS h) Hr Hv) as R. rewrite idle_spin_view in R.
  by destruct (transfer_tries _ _ _ _ _ _ _) as [[h' st] w].
Qed.

(** The driver over such a controller is the memory the settings code
    relies on. *)
#[export] Instance mcpx_memory {H : Type} `{McpxSlave H slave} : SmBusMemory H slave.
Proof.
  split.
  - intros d. apply slave_length.
  - intros d. apply slave_bytes.
  - intros d r Hr. cbn [bus_read bus_view mcpx_smbus]. by apply read_byte_law.
  - intros d r v Hr Hv. cbn [bus_write bus_view mcpx_smbus]. by apply write_byte_law.
Qed.

(** ** Counting port accesses *)

(** Any controller with a count of the accesses made to it. *)
#[export] Instance counted {H : Type} `{McpxPorts H} : McpxPorts (H * Z) := {
  out_host_address h v := (out_host_address (fst h) v, snd h + 1);
  out_host_command h v := (out_host_command (fst h) v, snd h + 1);
  out_host_data16 h v := (out_host_data16 (fst h) v, snd h + 1);
  out_global_status16 h v := (out_global_status16 (fst h) v, snd h + 1);
  out_global_enable h v := (out_global_enable (fst h) v, snd h + 1);
  in_global_status16 h := let (h', v) := in_global_status16 (fst h) in ((h', snd h + 1), v);
  in_global_status8 h := let (h', v) := in_global_status8 (fst h) in ((h', snd h + 1), v);
  in_host_data8 h := let (h', v) := in_host_data8 (fst h) in ((h', snd h + 1), v);
  in_host_data16 h := let (h', v) := in_host_data16 (fst h) in ((h', snd h + 1), v);
  stall h := (stall (fst h), snd h + 1)
}.

Section counting.
Context {H : Type} `{McpxPorts H}.
Implicit Type h : H * Z.

Lemma idle_spin_count n h : snd (idle_spin n h) <= snd h + Z.of_nat n.
Proof.
  revert h. induction n as [|n IH]; intros h; [cbn; lia |]. cbn [idle_spin in_global_status16 counted].
  destruct (in_global_status16 (fst h)) as [h' v]. destruct (Z.land v SMB_ST_BUSY =? 0); [cbn; lia |].
  specialize (IH (h', snd h + 1)). cbn [snd] in IH. lia.
Qed.

Lemma done_spin_count n h v : snd (fst (done_spin n h v)) <= snd h + Z.of_nat n.
Proof.
  revert h v. induction n as [|n IH]; intros h v; [cbn; lia |]. cbn [done_spin in_global_status8 counted].
  destruct (in_global_status8 (fst h)) as [h' w]. destruct (negb _); [cbn; lia |].
  specialize (IH (h', snd h + 1) w). cbn [snd] in IH. lia.
Qed.

Lemma issue_count Address Command Read Word Data h :
  snd (fst (issue Address Command Read Word Data h)) <= snd h + 6 + Z.of_nat SMB_DONE_SPINS.
Proof.
  unfold issue. cbn [out_host_address out_host_command out_host_data16 out_global_status16 out_global_enable counted].
  set (g := if negb Read then _ else _). assert (G : snd g <= snd h + 3) by (unfold g; destruct (negb Read); cbn; lia).
  clearbody g. cbn [in_global_status16 counted]. destruct (in_global_status16 (fst g)) as [h1 w]. cbv beta iota.
  etransitivity; [apply done_spin_count |]. cbn [snd fst]. lia.
Qed.

Lemma tries_count n Address Command Read Word Data h :
  snd (fst (fst (transfer_tries n Address Command Read Word Data h))) <= snd h + Z.of_nat n * (7 + Z.of_nat SMB_DONE_SPINS).
Proof.
  revert h. induction n as [|n IH]; intros h; [cbn; lia |]. cbn [transfer_tries].
  pose proof (issue_count Address Command Read Word Data h) as I. destruct (issue _ _ _ _ _ _) as [h1 v]. cbn [fst] in I.
  destruct (negb (Z.land v SMB_ST_DONE =? 0)).
  - destruct Read; [| cbn [fst]; lia]. assert (A : forall b : bool, snd (fst (if b then in_host_data16 h1 else in_host_data8 h1)) = snd h1 + 1).
    { intros []; cbn [in_host_data16 in_host_data8 counted]; [by destruct (in_host_data16 (fst h1)) | by destruct (in_host_data8 (fst h1))]. }
    specialize (A Word). destruct (if Word then _ else _) as [h2 w]. cbn [fst] in *. lia.
  - specialize (IH (stall h1)). cbn [stall counted] in *. cbn [snd] in IH. lia.
Qed.

(** Without a completed transaction every try fails. *)
Lemma tries_dead n Address Command Read Word Data (g : H) :
  (forall g : H, Z.land (snd (in_global_status8 g)) SMB_ST_DONE = 0) ->
  snd (fst (transfer_tries n Address Command Read Word Data g)) = STATUS_IO_DEVICE_ERROR.
Proof.
  intros Hd. assert (D : forall m (x : H) v, Z.land v SMB_ST_DONE = 0 -> Z.land (snd (done_spin m x v)) SMB_ST_DONE = 0).
  { induction m as [|m IH]; intros x v Hv; [done |]. cbn [done_spin]. specialize (Hd x).
    destruct (in_global_status8 x) as [x' w]. cbn [snd] in Hd. destruct (negb _); [done | by apply IH]. }
  revert g. induction n as [|n IH]; intros g; [done |]. cbn [transfer_tries].
  assert (I : Z.land (snd (issue Address Command Read Word Data g)) SMB_ST_DONE = 0).
  { unfold issue. destruct (in_global_status16 _). by apply D. }
  destruct (issue _ _ _ _ _ _) as [h1 v]. cbn [snd] in I. rewrite I. apply IH.
Qed.

End counting.

(** C34: the driver's byte transfers are what the settings code relies on.
    The controller latches its status, and what it shows of a transaction
    counts only if the latch was clear when that was started.  On every such
    controller, whatever the latch holds from earlier transactions, a read
    never changes the slave and a completed one returns the register; a write
    sets that one register to the value or, only when it reports failure,
    changes nothing; and where the slave answers every transaction both
    succeed. *)
Theorem smbus_byte_transfers {H : Type} `{McpxSlave H slave} (h : H) r : 0 <= r < 256 ->
  (let '(h', st, v) := HalpXboxSmBusReadByte h slave r in
   slave_view h' = slave_view h /\ is_u8 v /\ (NT_SUCCESS st = true -> v = nth (Z.to_nat r) (slave_view h) 0) /\ (answers -> st = STATUS_SUCCESS)) /\
  (forall v, is_u8 v ->
   let '(h', st) := HalpXboxSmBusWriteByte h slave r v in
   (slave_view h' = <[Z.to_nat r := v]> (slave_view h) \/ (NT_SUCCESS st = false /\ slave_view h' = slave_view h)) /\ (answers -> st = STATUS_SUCCESS)).
Proof.
  intros Hr. split; [| intros v Hv].
  - pose proof (read_byte_law h r Hr) as L. assert (A : answers -> snd (fst (HalpXboxSmBusReadByte h slave r)) = STATUS_SUCCESS).
    { intros Ha. unfold HalpXboxSmBusReadByte, HalpXboxSmBusTransfer. pose proof (tries_answered 49 true r 0 (idle_spin SMB_IDLE_SPINS h) Ha Hr) as E.
      change SMB_RETRIES with 50%nat. by destruct (transfer_tries _ _ _ _ _ _ _) as [[h' st] w]. }
    destruct (HalpXboxSmBusReadByte h slave r) as [[h' st] w]. destruct L as (L1 & L2 & L3). done.
  - pose proof (write_byte_law h r v Hr Hv) as L. assert (A : answers -> snd (HalpXboxSmBusWriteByte h slave r v) = STATUS_SUCCESS).
    { intros Ha. unfold HalpXboxSmBusWriteByte, HalpXboxSmBusTransfer. pose proof (tries_answered 49 false r v (idle_spin SMB_IDLE_SPINS h) Ha Hr) as E.
      change SMB_RETRIES with 50%nat. by destruct (transfer_tries _ _ _ _ _ _ _) as [[h' st] w]. }
    by destruct (HalpXboxSmBusWriteByte h slave r v) as [h' st].
Qed.

(** No transfer hangs.  Whatever the controller answers, a transfer
    makes at most 0x10000 + 50 * (0x20000 + 7) port accesses and stalls and
    then returns; and on a controller that never shows a transaction done it
    returns [STATUS_IO_DEVICE_ERROR]. *)
Theorem smbus_transfer_returns {H : Type} `{McpxPorts H} Address Command Read Word Data (h : H) :
  snd (fst (fst (HalpXboxSmBusTransfer Address Command Read Word Data (h, 0)))) <= 0x10000 + 50 * (0x20000 + 7) /\
  ((forall g : H, Z.land (snd (in_global_status8 g)) SMB_ST_DONE = 0) ->
   snd (fst (HalpXboxSmBusTransfer Address Command Read Word Data h)) = STATUS_IO_DEVICE_ERROR).
Proof.
  unfold HalpXboxSmBusTransfer. split; [| by apply tries_dead].
  etransitivity; [apply tries_count |]. pose proof (idle_spin_count SMB_IDLE_SPINS (h, 0)) as I. cbn [snd] in I.
  destruct spins_value as [E1 E2]. rewrite E1 in I. rewrite E2. change (Z.of_nat SMB_RETRIES) with 50. lia.
Qed.

(** ** A controller with a memory behind it

    The slave's registers by address, the host registers, the latched status,
    and how many transactions it still refuses. *)

Record ctl := Ctl { mem : Z -> Z; lat : xfer; flags : Z; naks : nat }.

Definition ctl_slave : Z := 0x54.

(** The transaction carried out when the status is read; what it sets is
    latched. *)
Definition ctl_status (c : ctl) : ctl * Z :=
  let x := lat c in
  let done := Z.lor (flags c) SMB_ST_DONE in
  if negb (Z.land (flags c) SMB_ST_SETTLED =? 0) then (c, flags c)
  else
    match naks c with
    | S n => (Ctl (mem c) x (Z.lor (flags c) 0x02) n, Z.lor (flags c) 0x02)
    | O =>
        if (xAddress x =? 0xA9) && (xProto x =? SMB_PROTO_READ)
        then (Ctl (mem c) (Xfer (xAddress x) (xCommand x) (u8 (mem c (xCommand x))) 0) done O, done)
        else if (xAddress x =? 0xA8) && (xProto x =? SMB_PROTO_WRITE)
        then (Ctl (fun r => if r =? xCommand x then u8 (xData x) else mem c r) x done O, done)
        else (c, flags c)
    end.

#[export] Instance ctl_ports : McpxPorts ctl := {
  out_host_address c v := Ctl (mem c) (Xfer v (xCommand (lat c)) (xData (lat c)) 0) (flags c) (naks c);
  out_host_command c v := Ctl (mem c) (Xfer (xAddress (lat c)) v (xData (lat c)) 0) (flags c) (naks c);
  out_host_data16 c v := Ctl (mem c) (Xfer (xAddress (lat c)) (xCommand (lat c)) v 0) (flags c) (naks c);
  out_global_status16 c v := Ctl (mem c) (lat c) (Z.ldiff (flags c) v) (naks c);
  out_global_enable c p := Ctl (mem c) (Xfer (xAddress (lat c)) (xCommand (lat c)) (xData (lat c)) p) (flags c) (naks c);
  in_global_status16 c := (c, flags c);
  in_global_status8 c := ctl_status c;
  in_host_data8 c := (c, u8 (xData (lat c)));
  in_host_data16 c := (c, u16 (xData (lat c)));
  stall c := c
}.

Definition ctl_view (c : ctl) : list Z := map (fun i => u8 (mem c (Z.of_nat i))) (seq 0 256).

Lemma ctl_view_lookup c j : ctl_view c !! j = if decide (j < 256)%nat then Some (u8 (mem c (Z.of_nat j))) else None.
Proof.
  unfold ctl_view. rewrite list_lookup_fmap. case_decide; [by rewrite lookup_seq_lt | by rewrite lookup_seq_ge by lia].
Qed.

Lemma lor_settled a b : unlatched a -> Z.land b SMB_ST_SETTLED <> 0 -> ~ unlatched (Z.lor a b).
Proof. unfold unlatched. intros Ha Hb. by rewrite Z.land_lor_distr_l, Ha, Z.lor_0_l. Qed.

Lemma lor_nak a : unlatched a -> Z.land (Z.lor a 0x02) SMB_ST_DONE = 0.
Proof. intros Ha. rewrite Z.land_lor_distr_l, (unsettled_not_done a Ha). done. Qed.

Lemma absorb a b : Z.land a (Z.lor a b) = a.
Proof. apply Z.bits_inj'. intros n Hn. rewrite Z.land_spec, Z.lor_spec. by destruct (Z.testbit a n), (Z.testbit b n). Qed.

#[export] Instance ctl_mcpx : McpxSlave ctl ctl_slave.
Proof.
  unshelve refine {| slave_view := ctl_view; host := lat; latch := flags |}.
  - unfold ctl_slave. lia.
  - intros c. unfold ctl_view. by rewrite length_map, length_seq.
  - intros c. apply Forall_map, Forall_true. intros. apply u8_is.
  - done.
  - done.
  - done.
  - done.
  - done.
  - done.
  - intros c. cbn [in_global_status8 ctl_ports]. unfold ctl_status. destruct (negb _); [apply Z.land_diag |].
    destruct (naks c) as [|n]; [| apply absorb]. repeat (destruct (_ && _); [apply absorb |]). apply Z.land_diag.
  - intros c (A & P & Hc) U. cbn [in_global_status8 ctl_ports]. unfold ctl_status. rewrite (proj2 (Z.eqb_eq _ 0) U). cbn [negb]. destruct (naks c) as [|n].
    + rewrite A, P. cbn [Z.eqb Pos.eqb andb]. split; [done |]. split; [intros F; by destruct (lor_settled (flags c) SMB_ST_DONE U) |]. intros _. cbn [in_host_data8 ctl_ports snd lat xData].
      symmetry. rewrite (u8_id (u8 _)) by apply u8_is. apply nth_lookup_Some. rewrite ctl_view_lookup, decide_True by lia. cbn [mem].
      by rewrite Z2Nat.id by lia.
    + split; [done |]. split; [intros F; by destruct (lor_settled (flags c) 0x02 U) |]. by rewrite (lor_nak _ U).
  - intros c (A & P & Hc) U. cbn [in_global_status8 ctl_ports]. unfold ctl_status. rewrite (proj2 (Z.eqb_eq _ 0) U). cbn [negb].
    destruct (naks c) as [|n]; [| split; [right; by rewrite (lor_nak _ U) | intros F; by destruct (lor_settled (flags c) 0x02 U)]].
    rewrite A, P. split; [left | intros F; by destruct (lor_settled (flags c) SMB_ST_DONE U)]. apply list_eq. intros j. unfold written.
    destruct (decide (j = Z.to_nat (xCommand (lat c)))) as [-> | Hne].
    + rewrite list_lookup_insert_eq by (unfold ctl_view; rewrite length_map, length_seq; lia).
      rewrite ctl_view_lookup, decide_True by lia. cbn. rewrite Z2Nat.id by lia. rewrite Z.eqb_refl. by rewrite (u8_id (u8 _)) by apply u8_is.
    + rewrite list_lookup_insert_ne by done. rewrite !ctl_view_lookup. case_decide; [| done]. cbn.
      destruct (Z.eqb_spec (Z.of_nat j) (xCommand (lat c))); [lia | done].
  - done.
  - done.
Defined.

(** ** Witnesses *)

(** A done status left over from before; three refusals, then answers. *)
Definition slow_start : ctl := Ctl (fun r => r) (Xfer 0 0 0 0) SMB_ST_DONE 3.

Lemma smbus_byte_transfers_witness :
  snd (fst (HalpXboxSmBusReadByte slow_start ctl_slave 0x42)) = STATUS_SUCCESS /\
  snd (HalpXboxSmBusReadByte slow_start ctl_slave 0x42) = 0x42.
Proof.
  pose proof (proj1 (smbus_byte_transfers slow_start 0x42 ltac:(lia))) as T.
  assert (E : snd (fst (HalpXboxSmBusReadByte slow_start ctl_slave 0x42)) = STATUS_SUCCESS) by (vm_compute; reflexivity).
  destruct (HalpXboxSmBusReadByte slow_start ctl_slave 0x42) as [[h' st] v].
  cbn [fst snd] in *. split; [exact E |]. rewrite E in T. destruct T as (_ & _ & T & _). rewrite (T eq_refl). vm_compute. reflexivity.
Defined.

(** A controller nothing answers on. *)
Definition dead_ports : McpxPorts unit := {|
  out_host_address h _ := h; out_host_command h _ := h; out_host_data16 h _ := h; out_global_status16 h _ := h;
  out_global_enable h _ := h; in_global_status16 h := (h, 0); in_global_status8 h := (h, 0x04);
  in_host_data8 h := (h, 0); in_host_data16 h := (h, 0); stall h := h |}.

Lemma smbus_transfer_returns_witness :
  snd (fst (@HalpXboxSmBusTransfer unit dead_ports ctl_slave 0x42 true false 0 tt)) = STATUS_IO_DEVICE_ERROR.
Proof.
  refine (proj2 (@smbus_transfer_returns unit dead_ports ctl_slave 0x42 true false 0 tt) _). intros []. reflexivity.
Defined.
