(* ===== verification/Eeprom.v ===== *)
(** * The console's non-volatile settings

    Models [src/ntoskrnl/xb/eeprom.c]: the settings and sections tables, the
    image kept of the 256-byte part, loading and storing it over the SMBus,
    opening the sealed section, the section checksum, and the two exported
    operations.  The bus is an interface ([SmBus]) whose laws say what a
    completed byte transfer does to the part; every transfer may fail.  The
    theorems give the round trip of a saved setting, what a save can and
    cannot change, its refusals, and when the sealed section opens. *)

From stdpp Require Import prelude list numbers.
From Stdlib Require Import ZArith Lia.
From S2P Require Import Prelude Bytes SmBus Sha Rc4.

Local Open Scope Z_scope.

(** ** Tables *)

Definition EEPROM_SLAVE_ADDRESS : Z := 0x54.
Definition EEPROM_SIZE : nat := 256.
Definition NVS_TYPE_BINARY : Z := 3.
Definition NVS_TYPE_DWORD : Z := 4.
Definition EEPROM_SEALED_OFFSET : nat := 0x14.
Definition EEPROM_SEALED_LENGTH : nat := 0x1C.

Record setting := Setting { sIndex : Z; sOffset : nat; sLength : nat; sType : Z; sSealed : bool }.

Definition NxkEepromSettings : list setting :=
  [ Setting 0x0000 0x64 4 NVS_TYPE_DWORD false;
    Setting 0x0001 0x68 4 NVS_TYPE_BINARY false;
    Setting 0x0002 0x78 4 NVS_TYPE_BINARY false;
    Setting 0x0003 0x88 4 NVS_TYPE_DWORD false;
    Setting 0x0004 0x6C 4 NVS_TYPE_BINARY false;
    Setting 0x0005 0x7C 4 NVS_TYPE_BINARY false;
    Setting 0x0006 0x8C 4 NVS_TYPE_DWORD false;
    Setting 0x0007 0x90 4 NVS_TYPE_DWORD false;
    Setting 0x0008 0x94 4 NVS_TYPE_DWORD false;
    Setting 0x0009 0x98 4 NVS_TYPE_DWORD false;
    Setting 0x000A 0x9C 4 NVS_TYPE_DWORD false;
    Setting 0x000B 0xA0 4 NVS_TYPE_DWORD false;
    Setting 0x000C 0xA4 4 NVS_TYPE_DWORD false;
    Setting 0x000D 0xA8 4 NVS_TYPE_DWORD false;
    Setting 0x000E 0xAC 4 NVS_TYPE_DWORD false;
    Setting 0x000F 0xB0 4 NVS_TYPE_DWORD false;
    Setting 0x0010 0xB4 4 NVS_TYPE_DWORD false;
    Setting 0x0011 0xB8 4 NVS_TYPE_DWORD false;
    Setting 0x0012 0xBC 4 NVS_TYPE_DWORD false;
    Setting 0x0100 0x34 12 NVS_TYPE_BINARY false;
    Setting 0x0101 0x40 6 NVS_TYPE_BINARY false;
    Setting 0x0102 0x48 16 NVS_TYPE_BINARY false;
    Setting 0x0103 0x58 4 NVS_TYPE_DWORD false;
    Setting 0x0104 0x18 4 NVS_TYPE_DWORD true ].

Record section := Section' { cIndex : Z; cOffset : nat; cLength : nat; cWholePart : bool }.

Definition NxkEepromSections : list section :=
  [ Section' 0x00FF 0x60 0x60 false;
    Section' 0x01FF 0x30 0x30 false;
    Section' 0xFFFE 0x00 0x30 true;
    Section' 0xFFFF 0x00 0x100 true ].

(** The kept hash states: the key after the inner and the outer pad. *)
Definition NxkEepromKeys : list (regs * regs) :=
  [ (Regs 0x85F9E51A 0xE04613D2 0x6D86A50C 0x77C32E3C 0x4BD717A4,
     Regs 0x5D7A9C6B 0xE1922BEB 0xB82CCDBC 0x3137AB34 0x486B52B3);
    (Regs 0x72127625 0x336472B9 0xBE609BEA 0xF55E226B 0x99958DAC,
     Regs 0x76441D41 0x4DE82659 0x2E8EF85E 0xB256FACA 0xC4FE2DE8);
    (Regs 0x39B06E79 0xC9BD25E8 0xDBC6B498 0x40B4389D 0x86BBD7ED,
     Regs 0x9B49BED3 0x84B430FC 0x6B8749CD 0xEBFE5FE5 0xD96E7393);
    (Regs 0x8058763A 0xF97D4E0E 0x865A9762 0x8A3D920D 0x08995B2C,
     Regs 0x01075307 0xA2F1E037 0x1186EEEA 0x88DA9992 0x168A5609) ].

(** ** State

    The file's statics and the device. *)
Record nvs (D : Type) := Nvs {
  NxkEepromImage : list Z;
  NxkEepromLoaded : bool;
  NxkEepromPlain : list Z;
  NxkEepromOpened : bool;
  XboxHDKey : list Z;
  device : D
}.

Arguments Nvs {D}.
Arguments NxkEepromImage {D}.
Arguments NxkEepromLoaded {D}.
Arguments NxkEepromPlain {D}.
Arguments NxkEepromOpened {D}.
Arguments XboxHDKey {D}.
Arguments device {D}.

Section operations.
Context {D : Type} `{SmBus D}.

Definition set_image (st : nvs D) (img : list Z) (d : D) : nvs D :=
  Nvs img (NxkEepromLoaded st) (NxkEepromPlain st) (NxkEepromOpened st) (XboxHDKey st) d.

(** The read loop, [n] bytes from register [i]. *)
Fixpoint load_loop (n : nat) (i : Z) (img : list Z) (d : D) : list Z * D * bool :=
  match n with
  | O => (img, d, true)
  | S n' =>
      let '(d', status, value) := bus_read d EEPROM_SLAVE_ADDRESS (u8 i) in
      if negb (NT_SUCCESS status) then (img, d', false)
      else load_loop n' (i + 1) (<[Z.to_nat i := value]> img) d'
  end.

Definition NxkEepromLoad (st : nvs D) : nvs D * bool :=
  if NxkEepromLoaded st then (st, true)
  else
    let '(img, d, ok) := load_loop EEPROM_SIZE 0 (NxkEepromImage st) (device st) in
    (Nvs img ok (NxkEepromPlain st) (NxkEepromOpened st) (XboxHDKey st) d, ok).

(** One key pair tried: the plaintext it gives and whether the hash fits. *)
Definition try_key (img : list Z) (k : regs * regs) : list Z * bool :=
  let Key := NxkShaResumedHmac (fst k) (snd k) (take 20 img) in
  let Plain := snd (rc4_crypt (rc4_init Key 20) (read img (Z.of_nat EEPROM_SEALED_OFFSET) EEPROM_SEALED_LENGTH)) in
  let Check := NxkShaResumedHmac (fst k) (snd k) Plain in
  (Plain, (RtlCompareMemory Check img 20 =? 20)%nat).

Fixpoint try_keys (img : list Z) (keys : list (regs * regs)) : option (list Z) :=
  match keys with
  | [] => None
  | k :: ks => let (Plain, ok) := try_key img k in if ok then Some Plain else try_keys img ks
  end.

Definition NxkEepromOpen (st : nvs D) : nvs D * bool :=
  if NxkEepromOpened st then (st, true)
  else
    let (st, ok) := NxkEepromLoad st in
    if negb ok then (st, false)
    else
      match try_keys (NxkEepromImage st) NxkEepromKeys with
      | Some Plain => (Nvs (NxkEepromImage st) (NxkEepromLoaded st) Plain true (read Plain 8 16) (device st), true)
      | None => (Nvs (NxkEepromImage st) (NxkEepromLoaded st) (replicate EEPROM_SEALED_LENGTH 0) false
                   (XboxHDKey st) (device st), false)
      end.

(** [~(ULONG)((Sum >> 32) + (ULONG)Sum)] over the words of [Data]. *)
Definition NxkEepromChecksum (Data : list Z) (Length : nat) : Z :=
  let Sum := fold_left (fun s w => u64 (s + w)) (words_of (Length / 4) Data) 0 in
  not32 (u32 (u64 (Z.shiftr Sum 32 + u32 Sum))).

Definition EEPROM_USER_CHECKSUM : nat := 0x60.
Definition EEPROM_USER_COVERED : nat := 0x5C.

(** The write loop, [n] bytes of the image from [Offset] on. *)
Fixpoint store_loop (n Offset : nat) (img : list Z) (d : D) : D * Z :=
  match n with
  | O => (d, STATUS_SUCCESS)
  | S n' =>
      let (d', Status) := bus_write d EEPROM_SLAVE_ADDRESS (u8 (Z.of_nat Offset)) (nth Offset img 0) in
      if negb (NT_SUCCESS Status) then (d', Status) else store_loop n' (S Offset) img d'
  end.

Definition NxkEepromStore (st : nvs D) (Offset Length : nat) : nvs D * Z :=
  let (d, Status) := store_loop Length Offset (NxkEepromImage st) (device st) in
  (set_image st (NxkEepromImage st) d, Status).

Definition find_setting (ValueIndex : Z) : option setting :=
  List.find (fun s => sIndex s =? ValueIndex) NxkEepromSettings.

Definition find_section (ValueIndex : Z) : option section :=
  List.find (fun c => cIndex c =? ValueIndex) NxkEepromSections.

(** The run of the image a save may write, or the refusal. *)
Definition save_target (ValueIndex : Z) : (nat * nat) + Z :=
  match find_setting ValueIndex with
  | Some s =>
      if sSealed s || (sOffset s <? 0x60)%nat then inr STATUS_OBJECT_NAME_NOT_FOUND
      else inl (sOffset s, sLength s)
  | None =>
      match find_section ValueIndex with
      | Some c => if negb (cIndex c =? 0x00FF) then inr STATUS_INVALID_PARAMETER else inl (cOffset c, cLength c)
      | None => inr STATUS_OBJECT_NAME_NOT_FOUND
      end
  end.

(** The image with the run cleared, the value in it and the sum redone. *)
Definition save_image (img : list Z) (Offset Length : nat) (Value : list Z) : list Z :=
  let img := write img Offset (replicate Length 0) in
  let img := write img Offset Value in
  let Sum := NxkEepromChecksum (drop (EEPROM_USER_CHECKSUM + 4) img) EEPROM_USER_COVERED in
  write img EEPROM_USER_CHECKSUM (store32 Sum).

(** [Value] is [None] for a null pointer; [ValueLength] is its length. *)
Definition ExSaveNonVolatileSetting (st : nvs D) (ValueIndex Type' : Z) (Value : option (list Z)) : nvs D * Z :=
  let (st, ok) := NxkEepromLoad st in
  if negb ok then (st, STATUS_DEVICE_NOT_READY)
  else
    match save_target ValueIndex with
    | inr Status => (st, Status)
    | inl (Offset, Length) =>
        match Value with
        | None => (st, STATUS_INVALID_PARAMETER)
        | Some V =>
            if (Length <? length V)%nat then (st, STATUS_INVALID_PARAMETER)
            else
              let st := set_image st (save_image (NxkEepromImage st) Offset Length V) (device st) in
              let (st, Status) := NxkEepromStore st EEPROM_USER_CHECKSUM 4 in
              if NT_SUCCESS Status then NxkEepromStore st Offset Length else (st, Status)
        end
    end.

(** What a query writes through its pointers. *)
Record query_out := QueryOut { qStatus : Z; qValue : option (list Z); qType : option Z; qLength : option Z }.

(** [Value] is the caller's buffer, [None] for a null pointer; the two flags
    tell whether the other pointers are given. *)
Definition ExQueryNonVolatileSetting (st : nvs D) (ValueIndex : Z) (Value : option (list Z)) (wantType wantLength : bool)
    : nvs D * query_out :=
  let refuse status := QueryOut status Value None None in
  let opt (b : bool) (x : Z) := if b then Some x else None in
  let (st, ok) := NxkEepromLoad st in
  if negb ok then (st, refuse STATUS_DEVICE_NOT_READY)
  else
    match find_setting ValueIndex with
    | Some s =>
        match Value with
        | None => (st, refuse STATUS_BUFFER_TOO_SMALL)
        | Some V =>
            if (length V <? sLength s)%nat then (st, refuse STATUS_BUFFER_TOO_SMALL)
            else
              let (st, ok) := if sSealed s then NxkEepromOpen st else (st, true) in
              if negb ok then (st, refuse STATUS_DEVICE_NOT_READY)
              else
                let V := if negb (sSealed s) then replicate (length V) 0 else V in
                let source := if sSealed s then NxkEepromPlain st else NxkEepromImage st in
                (st, QueryOut STATUS_SUCCESS (Some (write V 0 (read source (Z.of_nat (sOffset s)) (sLength s))))
                       (opt wantType (sType s)) (opt wantLength (Z.of_nat (sLength s))))
        end
    | None =>
        match find_section ValueIndex with
        | Some c =>
            let small := (st, QueryOut STATUS_BUFFER_TOO_SMALL Value None
                                (opt (cWholePart c && wantLength) (Z.of_nat (cLength c)))) in
            match Value with
            | None => small
            | Some V =>
                if (length V <? cLength c)%nat then small
                else
                  let V := if negb (cWholePart c) then replicate (length V) 0 else V in
                  (st, QueryOut STATUS_SUCCESS (Some (write V 0 (read (NxkEepromImage st) (Z.of_nat (cOffset c)) (cLength c))))
                         (opt wantType NVS_TYPE_BINARY) (opt wantLength (Z.of_nat (cLength c))))
            end
        | None => (st, refuse STATUS_OBJECT_NAME_NOT_FOUND)
        end
    end.

Definition NxkInitializeEeprom (st : nvs D) : nvs D := fst (NxkEepromOpen st).

End operations.

(** ** Byte runs *)

Lemma lookup_write (l src : list Z) off j : (off + length src <= length l)%nat ->
  write l off src !! j = if decide (off <= j < off + length src)%nat then src !! (j - off)%nat else l !! j.
Proof.
  intros L. unfold write. assert (Lt : length (take off l) = off) by (rewrite length_take; lia).
  case_decide as Hj.
  - rewrite lookup_app_r by lia. rewrite lookup_app_l by lia. by rewrite Lt.
  - destruct (Nat.lt_ge_cases j off).
    + rewrite lookup_app_l by lia. by rewrite lookup_take_lt.
    + rewrite !lookup_app_r by lia. rewrite lookup_drop, Lt. f_equal. lia.
Qed.

Lemma write_bytes l off src : bytes l -> bytes src -> bytes (write l off src).
Proof. intros. unfold write. rewrite !bytes_app. auto with bytes. Qed.

Lemma read_lookup l off n j : read l (Z.of_nat off) n !! j = if decide (j < n)%nat then l !! (off + j)%nat else None.
Proof.
  unfold read. rewrite Nat2Z.id. case_decide.
  - rewrite lookup_take_lt by done. apply lookup_drop.
  - apply lookup_take_ge. lia.
Qed.

Lemma nth_lookup_eq (l : list Z) j v : l !! j = Some v -> nth j l 0 = v.
Proof. apply nth_lookup_Some. Qed.

(** ** Invariants *)

Section proofs.
Context {D : Type} `{SmBusMemory D EEPROM_SLAVE_ADDRESS}.
Implicit Type st : nvs D.

Definition part (d : D) : list Z := bus_view d EEPROM_SLAVE_ADDRESS.

(** The kept image has the part's size, and once loaded is the part. *)
Definition nvs_wf st : Prop := length (NxkEepromImage st) = 256%nat /\ bytes (NxkEepromImage st).
Definition synced st : Prop := NxkEepromLoaded st = true -> NxkEepromImage st = part (device st).

Lemma part_length d : length (part d) = 256%nat.
Proof. apply view_length. Qed.

Lemma part_bytes d : bytes (part d).
Proof. apply view_bytes. Qed.

Lemma load_loop_spec n i img d : i = 256 - Z.of_nat n -> (n <= 256)%nat -> length img = 256%nat -> bytes img ->
  take (Z.to_nat i) img = take (Z.to_nat i) (part d) ->
  let '(img', d', ok) := load_loop n i img d in
  length img' = 256%nat /\ bytes img' /\ part d' = part d /\ (ok = true -> img' = part d).
Proof.
  revert i img d. induction n as [|n IH]; intros i img d Hi Hn L HB E; cbn [load_loop].
  - split; [done |]. split; [done |]. split; [done |]. intros _. replace (Z.to_nat i) with 256%nat in E by lia.
    rewrite !take_ge in E; [done | rewrite part_length; lia | lia].
  - unfold u8. rewrite Z.mod_small by lia.
    pose proof (read_law d i ltac:(lia)) as R. destruct (bus_read d EEPROM_SLAVE_ADDRESS i) as [[d1 status] v].
    destruct R as (V & Hv & Hs). fold (part d1) (part d) in *. destruct (NT_SUCCESS status) eqn:Es; cbn [negb].
    2: { split; [done |]. split; [done |]. by split. }
    specialize (IH (i + 1) (<[Z.to_nat i := v]> img) d1 ltac:(lia) ltac:(lia)).
    rewrite length_insert in IH. specialize (IH L). rewrite V in IH.
    apply IH; [by apply Forall_insert |]. replace (Z.to_nat (i + 1)) with (S (Z.to_nat i)) by lia.
    destruct (lookup_lt_is_Some_2 (part d) (Z.to_nat i)) as [w Ew]; [rewrite part_length; lia |].
    rewrite (take_S_r _ _ v) by (apply list_lookup_insert_eq; lia).
    rewrite (take_S_r (part d) _ w) by done. rewrite take_insert_ge by lia. rewrite E. do 2 f_equal.
    rewrite (Hs eq_refl). by apply nth_lookup_eq.
Qed.

Lemma load_spec st : nvs_wf st -> synced st ->
  let (st', ok) := NxkEepromLoad st in
  nvs_wf st' /\ synced st' /\ NxkEepromLoaded st' = ok /\ part (device st') = part (device st) /\
  NxkEepromPlain st' = NxkEepromPlain st /\ NxkEepromOpened st' = NxkEepromOpened st /\ XboxHDKey st' = XboxHDKey st.
Proof.
  intros [L HB] Hs. unfold NxkEepromLoad. destruct (NxkEepromLoaded st) eqn:El; [by split |].
  pose proof (load_loop_spec 256 0 (NxkEepromImage st) (device st) ltac:(lia) ltac:(lia) L HB ltac:(by rewrite !take_0)) as R.
  unfold EEPROM_SIZE. destruct (load_loop 256 0 (NxkEepromImage st) (device st)) as [[img d] ok].
  destruct R as (R1 & R2 & R3 & R4). split; [by split |]. split; [| by repeat split].
  intros Hok. cbn in Hok |- *. rewrite R3. auto.
Qed.

(** Outside the user section the image, once loaded, is the part.  Unlike
    [synced] this survives a save that fails half way. *)
Definition settled st : Prop :=
  NxkEepromLoaded st = true -> forall j, ~ (0x60 <= j < 0xC0)%nat -> NxkEepromImage st !! j = part (device st) !! j.

Lemma load_settled st : nvs_wf st -> settled st ->
  let (st', ok) := NxkEepromLoad st in
  nvs_wf st' /\ settled st' /\ (synced st -> synced st') /\ NxkEepromLoaded st' = ok /\ part (device st') = part (device st).
Proof.
  intros W Se. destruct (NxkEepromLoaded st) eqn:El.
  - unfold NxkEepromLoad. rewrite El. done.
  - assert (Sy : synced st) by (intros ?; congruence). pose proof (load_spec st W Sy) as R. destruct (NxkEepromLoad st) as [st' ok].
    destruct R as (R1 & R2 & R3 & R4 & _). split; [done |]. split; [intros Hl j _; by rewrite (R2 Hl) | done].
Qed.

Lemma store_loop_spec n off img d : (off + n <= 256)%nat -> length img = 256%nat -> bytes img ->
  let (d', status) := store_loop n off img d in
  (forall j, part d' !! j = part d !! j \/ ((off <= j < off + n)%nat /\ part d' !! j = img !! j)) /\
  (NT_SUCCESS status = true -> forall j, (off <= j < off + n)%nat -> part d' !! j = img !! j).
Proof.
  revert off d. induction n as [|n IH]; intros off d Hn L HB; cbn [store_loop].
  - split; [by left | lia].
  - unfold u8. rewrite Z.mod_small by lia.
    pose proof (write_law d (Z.of_nat off) (nth off img 0) ltac:(lia) ltac:(by apply bytes_nth)) as R.
    destruct (bus_write d EEPROM_SLAVE_ADDRESS (Z.of_nat off) (nth off img 0)) as [d1 status].
    rewrite Nat2Z.id in R. fold (part d1) (part d) in R.
    destruct (lookup_lt_is_Some_2 img off) as [w Ew]; [lia |]. rewrite (nth_lookup_eq _ _ _ Ew) in R.
    assert (Hone : forall j, part d1 !! j = part d !! j \/ (j = off /\ part d1 !! j = img !! j)).
    { intros j. destruct R as [-> | [_ ->]]; [| by left]. destruct (decide (j = off)) as [-> | Hne].
      - right. split; [done |]. rewrite list_lookup_insert_eq by (rewrite part_length; lia). done.
      - left. by rewrite list_lookup_insert_ne. }
    destruct (NT_SUCCESS status) eqn:Es; cbn [negb].
    2: { split; [| congruence]. intros j. destruct (Hone j) as [? | [-> ?]]; [by left | right; split; [lia | done]]. }
    specialize (IH (S off) d1 ltac:(lia) L HB). destruct (store_loop n (S off) img d1) as [d2 st2]. destruct IH as [I1 I2].
    split.
    + intros j. destruct (I1 j) as [E | [Hj E]]; [| right; split; [lia | done]].
      rewrite E. destruct (Hone j) as [? | [-> ?]]; [by left | right; split; [lia | done]].
    + intros Hok j Hj. destruct (decide (j = off)) as [-> | Hne]; [| apply I2; [done | lia]].
      destruct (I1 off) as [E | [Hj' E]]; [| lia]. rewrite E. destruct R as [-> | [? _]]; [| congruence].
      rewrite list_lookup_insert_eq by (rewrite part_length; lia). done.
Qed.

(** A save's target is the user section or a setting in it, past its sum. *)
Definition user_run (Offset Length : nat) : Prop :=
  (Offset = 0x60 /\ Length = 0x60)%nat \/ (0x64 <= Offset /\ Offset + Length <= 0xC0)%nat.

Lemma settings_in_user_section s : In s NxkEepromSettings -> sSealed s || (sOffset s <? 0x60)%nat = false ->
  user_run (sOffset s) (sLength s) /\ (0x64 <= sOffset s)%nat.
Proof.
  intros Hin E. cut ((0x64 <= sOffset s)%nat /\ (sOffset s + sLength s <= 0xC0)%nat); [intros []; split; [right |]; lia |].
  cbn [In NxkEepromSettings] in Hin. repeat destruct Hin as [<- | Hin]; cbn in *; try done; lia.
Qed.

Lemma save_target_run i off len : save_target i = inl (off, len) -> user_run off len.
Proof.
  unfold save_target. destruct (find_setting i) as [s|] eqn:Es.
  - destruct (sSealed s || (sOffset s <? 0x60)%nat) eqn:E; [done |]. intros [= <- <-].
    apply settings_in_user_section; [| done]. by apply find_some in Es as [].
  - destruct (find_section i) as [c|] eqn:Ec; [| done]. apply find_some in Ec as [Hin _].
    cbn [In NxkEepromSections] in Hin. repeat destruct Hin as [<- | Hin]; cbn; try done. intros [= <- <-]. by left.
Qed.

Lemma checksum_range l n : is_u32 (NxkEepromChecksum l n).
Proof.
  unfold NxkEepromChecksum, not32, is_u32. set (x := u64 _).
  pose proof (Z.mod_pos_bound x (2 ^ 32) ltac:(lia)). unfold u32. lia.
Qed.

Lemma checksum_local a b n : take (4 * (n / 4)) a = take (4 * (n / 4)) b -> NxkEepromChecksum a n = NxkEepromChecksum b n.
Proof.
  intros E. unfold NxkEepromChecksum. cut (forall k (x y : list Z), take (4 * k) x = take (4 * k) y -> words_of k x = words_of k y).
  { intros C. by rewrite (C _ _ _ E). }
  clear. induction k as [|k IH]; intros x y E; [done |]. cbn [words_of]. f_equal.
  - assert (Hn : forall j, (j < 4)%nat -> nth j x 0 = nth j y 0).
    { intros j Hj. rewrite !nth_lookup. apply (f_equal (fun l => l !! j)) in E. by rewrite !lookup_take_lt in E by lia; rewrite E. }
    unfold load32. by rewrite !Hn by lia.
  - apply IH. apply (f_equal (drop 4)) in E. replace (4 * S k)%nat with (4 + 4 * k)%nat in E by lia.
    rewrite !skipn_firstn_comm in E. by replace (4 + 4 * k - 4)%nat with (4 * k)%nat in E by lia.
Qed.

Lemma save_mid_length img off len V : user_run off len -> length img = 256%nat -> (length V <= len)%nat ->
  length (write img off (replicate len 0)) = 256%nat /\ length (write (write img off (replicate len 0)) off V) = 256%nat.
Proof.
  intros U L LV. assert (L1 : length (write img off (replicate len 0)) = 256%nat).
  { rewrite length_write; rewrite ?length_replicate; destruct U; lia. }
  split; [done |]. rewrite length_write; destruct U; lia.
Qed.

Lemma save_image_length img off len V : user_run off len -> length img = 256%nat -> (length V <= len)%nat ->
  length (save_image img off len V) = 256%nat.
Proof.
  intros U L LV. unfold save_image.
  destruct (save_mid_length _ _ _ _ U L LV) as [L1 L2].
  rewrite length_write; [done |]. unfold EEPROM_USER_CHECKSUM, store32. cbn [length]. lia.
Qed.

(** What a save makes of each byte of the image. *)
Lemma save_image_lookup img off len V j : user_run off len -> length img = 256%nat -> (length V <= len)%nat ->
  let s := NxkEepromChecksum (drop 0x64 (write (write img off (replicate len 0)) off V)) EEPROM_USER_COVERED in
  save_image img off len V !! j =
    if decide (0x60 <= j < 0x64)%nat then store32 s !! (j - 0x60)%nat
    else if decide (off <= j < off + length V)%nat then V !! (j - off)%nat
    else if decide (off <= j < off + len)%nat then Some 0 else img !! j.
Proof.
  intros U L LV s. unfold save_image.
  destruct (save_mid_length _ _ _ _ U L LV) as [L1 L2].
  rewrite lookup_write by (unfold EEPROM_USER_CHECKSUM, store32; cbn [length]; lia).
  change (length (store32 _)) with 4%nat. change (EEPROM_USER_CHECKSUM + 4)%nat with 0x64%nat.
  change EEPROM_USER_CHECKSUM with 0x60%nat. case_decide as C1; [done |].
  rewrite lookup_write by (destruct U; lia). case_decide as C2; [done |].
  rewrite lookup_write by (rewrite length_replicate; destruct U; lia). rewrite length_replicate. case_decide as C3; [| done].
  apply lookup_replicate_2. lia.
Qed.

Lemma save_image_bytes img off len V : bytes img -> bytes V -> bytes (save_image img off len V).
Proof. intros HB HV. unfold save_image. repeat apply write_bytes; auto with bytes. Qed.

(** The sum of a valid image: the word at 0x60 sums the rest of the user
    section. *)
Definition user_sum_ok (img : list Z) : Prop :=
  load32 (drop 0x60 img) = NxkEepromChecksum (drop 0x64 img) EEPROM_USER_COVERED.

Lemma save_image_sum img off len V : user_run off len -> length img = 256%nat -> (length V <= len)%nat ->
  user_sum_ok (save_image img off len V).
Proof.
  intros U L LV. unfold user_sum_ok, save_image. set (mid := write (write img off _) off V).
  destruct (save_mid_length _ _ _ _ U L LV) as [_ Lm]. fold mid in Lm.
  change (EEPROM_USER_CHECKSUM + 4)%nat with 0x64%nat. change EEPROM_USER_CHECKSUM with 0x60%nat.
  set (s := NxkEepromChecksum _ _). unfold write. change (0x60 + length (store32 s))%nat with 0x64%nat.
  assert (Lt : length (take 0x60 mid) = 0x60%nat) by (rewrite length_take; lia).
  rewrite drop_app_ge by lia. rewrite Lt. replace (0x60 - 0x60)%nat with 0%nat by lia. rewrite drop_0.
  rewrite load_store by apply checksum_range.
  rewrite drop_app_ge by lia. rewrite Lt. rewrite drop_app_ge by (unfold store32; cbn [length]; lia).
  change (0x64 - 0x60 - length (store32 s))%nat with 0%nat. by rewrite drop_0.
Qed.

(** A save once its target and value are accepted. *)
Definition save_accepted st (Offset Length : nat) (V : list Z) : nvs D * Z :=
  let st := set_image st (save_image (NxkEepromImage st) Offset Length V) (device st) in
  let (st, Status) := NxkEepromStore st EEPROM_USER_CHECKSUM 4 in
  if NT_SUCCESS Status then NxkEepromStore st Offset Length else (st, Status).

Lemma save_accepted_spec st off len V : nvs_wf st -> user_run off len ->
  (length V <= len)%nat -> bytes V ->
  let (st', Status) := save_accepted st off len V in
  nvs_wf st' /\ NxkEepromLoaded st' = NxkEepromLoaded st /\
  NxkEepromImage st' = save_image (NxkEepromImage st) off len V /\
  (forall j, ~ (0x60 <= j < 0xC0)%nat -> part (device st') !! j = part (device st) !! j) /\
  (NT_SUCCESS Status = true -> NxkEepromImage st = part (device st) -> part (device st') = NxkEepromImage st').
Proof.
  intros [L HB] U LV HV. unfold save_accepted, NxkEepromStore. cbn [NxkEepromImage device set_image].
  pose proof (save_image_length _ _ _ V U L LV) as L'. pose proof (save_image_bytes _ off len _ HB HV) as HB'.
  pose proof (fun j => save_image_lookup _ _ _ V j U L LV) as Hl. set (img := save_image _ _ _ _) in *.
  pose proof (store_loop_spec 4 EEPROM_USER_CHECKSUM img (device st) ltac:(unfold EEPROM_USER_CHECKSUM; lia) L' HB') as S1.
  destruct (store_loop 4 EEPROM_USER_CHECKSUM img (device st)) as [d1 s1]. destruct S1 as [A1 B1].
  unfold EEPROM_USER_CHECKSUM in *. destruct (NT_SUCCESS s1) eqn:E1.
  2: { cbn. split; [by split |]. split; [done |]. split; [done |]. split; [| congruence].
       intros j Hj. destruct (A1 j) as [? | []]; [done | lia]. }
  cbn [NxkEepromImage device set_image]. pose proof (store_loop_spec len off img d1 ltac:(destruct U; lia) L' HB') as S2.
  destruct (store_loop len off img d1) as [d2 s2]. destruct S2 as [A2 B2]. cbn. split; [by split |].
  split; [done |]. split; [done |]. split.
  - intros j Hj. destruct (A2 j) as [-> | []]; [| destruct U; lia]. destruct (A1 j) as [? | []]; [done | lia].
  - intros Hs E. apply list_eq. intros j. destruct (decide (off <= j < off + len)%nat) as [? | N]; [by apply B2 |].
    destruct (A2 j) as [-> | []]; [| lia]. destruct (decide (0x60 <= j < 0x64)%nat) as [? | N']; [apply B1; [done | lia] |].
    destruct (A1 j) as [-> | []]; [| lia]. rewrite <- E. etransitivity; [| symmetry; apply Hl].
    rewrite !decide_False by (try lia; intros ?; lia). done.
Qed.

(** The call as refusals and an accepted save. *)
Lemma save_unfold st i t V : ExSaveNonVolatileSetting st i t V =
  let (st1, ok) := NxkEepromLoad st in
  if ok then
    match save_target i, V with
    | inr Status, _ => (st1, Status)
    | inl _, None => (st1, STATUS_INVALID_PARAMETER)
    | inl (off, len), Some V => if (len <? length V)%nat then (st1, STATUS_INVALID_PARAMETER) else save_accepted st1 off len V
    end
  else (st1, STATUS_DEVICE_NOT_READY).
Proof.
  unfold ExSaveNonVolatileSetting, save_accepted. destruct (NxkEepromLoad st) as [st1 []]; cbn [negb]; [| done].
  destruct (save_target i) as [[off len] | ?]; [| done]. by destruct V.
Qed.

Lemma save_target_refusal i Status : save_target i = inr Status -> NT_SUCCESS Status = false.
Proof.
  unfold save_target. destruct (find_setting i) as [s|].
  - destruct (sSealed s || _); [intros [= <-]; done | done].
  - destruct (find_section i) as [c|]; [destruct (negb _) |]; intros [= <-]; done.
Qed.


Lemma load_loaded st : NxkEepromLoaded st = true -> NxkEepromLoad st = (st, true).
Proof. intros E. unfold NxkEepromLoad. by rewrite E. Qed.

Lemma read_save_image img off len V : (0x64 <= off)%nat -> user_run off len -> length img = 256%nat -> (length V <= len)%nat ->
  read (save_image img off len V) (Z.of_nat off) len = V ++ replicate (len - length V) 0.
Proof.
  intros Ho U L LV. apply list_eq. intros j. rewrite read_lookup. case_decide as Hj.
  - rewrite save_image_lookup by done. rewrite decide_False by lia. case_decide.
    + rewrite lookup_app_l by lia. f_equal. lia.
    + rewrite decide_True by lia. rewrite lookup_app_r by lia. symmetry. apply lookup_replicate_2. lia.
  - symmetry. apply lookup_ge_None_2. rewrite length_app, length_replicate. lia.
Qed.

(** C26: A saved setting reads back.  When a save of a setting succeeds,
    a query after it whose buffer is at least the
    setting's length returns success, the saved bytes followed by zeros to
    the end of the buffer, the table's type whatever type the save was
    given, and the setting's length. *)
Theorem save_query_roundtrip st st' i s t V Status B : nvs_wf st -> synced st -> bytes V ->
  find_setting i = Some s -> ExSaveNonVolatileSetting st i t (Some V) = (st', Status) -> NT_SUCCESS Status = true ->
  (sLength s <= length B)%nat ->
  ExQueryNonVolatileSetting st' i (Some B) true true =
    (st', QueryOut STATUS_SUCCESS (Some (V ++ replicate (length B - length V) 0)) (Some (sType s)) (Some (Z.of_nat (sLength s)))).
Proof.
  intros W Sy HV Hs E Hok LB. rewrite save_unfold in E. pose proof (load_spec st W Sy) as Ld.
  destruct (NxkEepromLoad st) as [st1 ok]. destruct Ld as (W1 & Sy1 & L1 & P1 & _).
  destruct ok; [| by injection E as <- <-].
  assert (Hin : In s NxkEepromSettings) by (by apply find_some in Hs as []).
  unfold save_target in E. rewrite Hs in E. destruct (sSealed s || (sOffset s <? 0x60)%nat) eqn:Eu; [by injection E as <- <- |].
  destruct (settings_in_user_section s Hin Eu) as [U Ho]. apply orb_false_iff in Eu as [Hns _].
  destruct (Nat.ltb_spec (sLength s) (length V)) as [? | LV]; [by injection E as <- <- |].
  pose proof (save_accepted_spec st1 _ _ V W1 U LV HV) as Sp. rewrite E in Sp.
  destruct Sp as (S1 & S2 & S3 & _ & _). unfold ExQueryNonVolatileSetting.
  rewrite load_loaded by (by rewrite S2). cbn [negb]. rewrite Hs.
  destruct (Nat.ltb_spec (length B) (sLength s)); [lia |]. rewrite Hns. cbn [negb]. rewrite S3.
  rewrite read_save_image by (try done; apply W1). unfold write. cbn [take app]. rewrite Nat.add_0_l.
  rewrite length_app, length_replicate, drop_replicate, <- app_assoc, <- replicate_add.
  replace (sLength s - length V + (length B - (length V + (sLength s - length V))))%nat with (length B - length V)%nat by lia.
  done.
Qed.

(** The indices a save accepts. *)
Definition writable (i : Z) : bool := (0 <=? i) && (i <=? 0x12) || (i =? 0xFF).
Definition writable_length (i : Z) : nat := if i =? 0xFF then 0x60 else 4.
Definition read_only_section (i : Z) : bool := (i =? 0x1FF) || (i =? 0xFFFE) || (i =? 0xFFFF).

Lemma save_target_indices i :
  match save_target i with
  | inl (_, len) => writable i = true /\ len = writable_length i
  | inr Status => writable i = false /\
      Status = if read_only_section i then STATUS_INVALID_PARAMETER else STATUS_OBJECT_NAME_NOT_FOUND
  end.
Proof.
  unfold save_target, find_setting, find_section. cbn [List.find NxkEepromSettings NxkEepromSections sIndex cIndex].
  repeat match goal with |- context [?k =? i] => destruct (Z.eqb_spec k i) as [<- | ?]; [by vm_compute |] end.
  unfold writable, read_only_section. destruct (Z.leb_spec 0 i), (Z.leb_spec i 0x12); cbn [andb orb]; try lia;
    repeat match goal with |- context [i =? ?k] => destruct (Z.eqb_spec i k); [lia |] end; done.
Qed.

(** The refusals of a save, on a loaded image: a section other than
    the user one is an invalid parameter; a factory, sealed or unknown index
    is an unknown name; a null value or one longer than the setting is an
    invalid parameter.  A refused save leaves the whole state, the part
    included, as it was, and an index and value not refused are saved. *)
Theorem save_refusals st i t V : NxkEepromLoaded st = true ->
  ExSaveNonVolatileSetting st i t V =
    if read_only_section i then (st, STATUS_INVALID_PARAMETER)
    else if negb (writable i) then (st, STATUS_OBJECT_NAME_NOT_FOUND)
    else match V with
         | None => (st, STATUS_INVALID_PARAMETER)
         | Some W =>
             if (writable_length i <? length W)%nat then (st, STATUS_INVALID_PARAMETER)
             else match save_target i with
                  | inl (off, _) => save_accepted st off (writable_length i) W
                  | inr Status => (st, Status)
                  end
         end.
Proof.
  intros E. rewrite save_unfold, load_loaded by done. pose proof (save_target_indices i) as T.
  assert (X : writable i = true -> read_only_section i = false).
  { unfold writable, read_only_section. intros Hw.
    repeat match goal with |- context [i =? ?k] => destruct (Z.eqb_spec i k) as [-> | ?]; [by vm_compute in Hw |] end. done. }
  destruct (save_target i) as [[off len] | Status].
  - destruct T as [Hw ->]. rewrite (X Hw), Hw. cbn [negb]. by destruct V.
  - destruct T as [Hw ->]. rewrite Hw. cbn [negb]. by destruct (read_only_section i).
Qed.

(** ** The sealed section *)

Lemma resumed_hmac_length a b data : length (NxkShaResumedHmac a b data) = 20%nat.
Proof.
  unfold NxkShaResumedHmac, NxkShaResumedPass, A_SHAFinal. cbn [fst]. rewrite length_bytes_of, length_map.
  by destruct (State _).
Qed.

(** The factory's sealing under a key pair: the hash of the plaintext in
    front, the plaintext under the key made from that hash behind it. *)
Definition seal (k : regs * regs) (plain : list Z) : list Z :=
  let hash := NxkShaResumedHmac (fst k) (snd k) plain in
  hash ++ snd (rc4_crypt (rc4_init (NxkShaResumedHmac (fst k) (snd k) hash) 20) plain).

(** A plaintext whose hash heads the image. *)
Definition verifies (img : list Z) (k : regs * regs) (plain : list Z) : Prop :=
  NxkShaResumedHmac (fst k) (snd k) plain = take 20 img.

Lemma try_key_verifies img k : (20 <= length img)%nat ->
  snd (try_key img k) = true <-> verifies img k (fst (try_key img k)).
Proof.
  intros L. unfold try_key, verifies. cbv zeta. cbn [fst snd]. set (P := snd (rc4_crypt _ _)).
  rewrite RtlCompareMemory_all by (rewrite ?resumed_hmac_length; lia).
  rewrite take_ge by (rewrite resumed_hmac_length; lia). done.
Qed.

Lemma try_key_sealed k plain rest : length plain = EEPROM_SEALED_LENGTH ->
  try_key (seal k plain ++ rest) k = (plain, true).
Proof.
  intros L. assert (Lh : forall x, length (NxkShaResumedHmac (fst k) (snd k) x) = 20%nat) by (intros; apply resumed_hmac_length).
  assert (P : fst (try_key (seal k plain ++ rest) k) = plain).
  { unfold try_key, seal. cbv zeta. cbn [fst]. rewrite <- app_assoc, take_app_length' by done.
    set (Key := NxkShaResumedHmac _ _ (NxkShaResumedHmac _ _ _)). unfold read. rewrite Nat2Z.id.
    rewrite drop_app_length' by done. rewrite take_app_length' by (rewrite length_crypt; done).
    apply crypt_involutive. }
  apply injective_projections; [done |]. cbn [snd]. apply try_key_verifies.
  { unfold seal. rewrite !length_app, Lh. lia. }
  rewrite P. unfold verifies, seal. rewrite <- app_assoc, take_app_length' by done. done.
Qed.

Lemma try_keys_spec img keys :
  match try_keys img keys with
  | Some plain => exists i k, keys !! i = Some k /\ try_key img k = (plain, true) /\
      forall j k', (j < i)%nat -> keys !! j = Some k' -> snd (try_key img k') = false
  | None => forall k, k ∈ keys -> snd (try_key img k) = false
  end.
Proof.
  induction keys as [|k keys IH]; cbn [try_keys]; [intros k Hk; by apply not_elem_of_nil in Hk |].
  destruct (try_key img k) as [P []] eqn:E.
  - exists 0%nat, k. split; [done |]. split; [done |]. lia.
  - destruct (try_keys img keys) as [plain|].
    + destruct IH as (i & k' & I1 & I2 & I3). exists (S i), k'. split; [done |]. split; [done |].
      intros [|j] k2 Hj; [intros [= <-]; by rewrite E | apply I3; lia].
    + intros k' [-> | Hk']%elem_of_cons; [by rewrite E | by apply IH].
Qed.

(** The sealed section opens exactly when one of the four key pairs
    verifies it.  An open that succeeds on a state not opened before leaves
    in [NxkEepromPlain] the decryption under the first verifying pair and
    the disk key bytes 8 to 23 of it; one that fails after the image loaded
    leaves the plaintext zeroed and the disk key alone; and a section sealed
    under a pair, no earlier pair verifying it, opens to its plaintext. *)
Theorem open_sealed st : nvs_wf st -> synced st -> NxkEepromOpened st = false ->
  let (st', ok) := NxkEepromOpen st in
  let img := NxkEepromImage st' in
  part (device st') = part (device st) /\ NxkEepromOpened st' = ok /\
  (ok = true -> img = part (device st) /\ XboxHDKey st' = read (NxkEepromPlain st') 8 16 /\
     exists i k, NxkEepromKeys !! i = Some k /\ verifies img k (NxkEepromPlain st') /\
       (forall j k', (j < i)%nat -> NxkEepromKeys !! j = Some k' -> ~ verifies img k' (fst (try_key img k'))) /\
       (forall plain rest, img = seal k plain ++ rest -> length plain = EEPROM_SEALED_LENGTH -> NxkEepromPlain st' = plain)) /\
  (ok = false -> XboxHDKey st' = XboxHDKey st /\
     (NxkEepromLoaded st' = true -> NxkEepromPlain st' = replicate EEPROM_SEALED_LENGTH 0 /\
        forall k plain rest, k ∈ NxkEepromKeys -> img = seal k plain ++ rest -> length plain <> EEPROM_SEALED_LENGTH)).
Proof.
  intros W Sy Ho. unfold NxkEepromOpen. rewrite Ho. pose proof (load_spec st W Sy) as Ld.
  destruct (NxkEepromLoad st) as [st1 ok]. destruct Ld as (W1 & Sy1 & L1 & P1 & Q1 & O1 & K1). destruct ok; cbn [negb].
  2: { cbv zeta. split; [done |]. split; [congruence |]. split; [done |]. intros _. split; [done |]. congruence. }
  pose proof (try_keys_spec (NxkEepromImage st1) NxkEepromKeys) as T.
  assert (L20 : (20 <= length (NxkEepromImage st1))%nat) by (destruct W1; lia).
  destruct (try_keys (NxkEepromImage st1) NxkEepromKeys) as [plain|];
    cbn [NxkEepromImage NxkEepromPlain NxkEepromOpened XboxHDKey device NxkEepromLoaded];
    (split; [done |]); (split; [done |]); (split; [| try done]); try done.
  - intros _. rewrite <- P1. split; [by apply Sy1 |]. split; [done |]. destruct T as (i & k & T1 & T2 & T3).
    exists i, k. split; [done |]. split.
    { pose proof (proj1 (try_key_verifies _ k L20)) as V. rewrite T2 in V. by apply V. }
    split.
    + intros j k' Hj Hk V. apply (try_key_verifies _ _ L20) in V. by rewrite (T3 j k' Hj Hk) in V.
    + intros plain' rest Ei Lp. rewrite Ei, try_key_sealed in T2 by done. congruence.
  - intros _. split; [done |]. intros _. split; [done |]. intros k plain rest Hk Ei Lp.
    specialize (T k Hk). by rewrite Ei, try_key_sealed in T.
Qed.

End proofs.

(** ** A part on a bus that may stop answering

    The registers and the number of transfers that still complete. *)

Definition bench : Type := (Z -> Z) * nat.

#[export] Instance bench_bus : SmBus bench := {
  bus_read d slave r := match d with (f, S n) => ((f, n), STATUS_SUCCESS, u8 (f r)) | (f, O) => (d, STATUS_IO_DEVICE_ERROR, 0) end;
  bus_write d slave r v :=
    match d with
    | (f, S n) => ((fun x => if x =? r then v else f x, n), STATUS_SUCCESS)
    | (f, O) => (d, STATUS_IO_DEVICE_ERROR)
    end;
  bus_view d slave := map (fun i => u8 (fst d (Z.of_nat i))) (seq 0 256)
}.

Lemma bench_view_lookup (d : bench) slave j : bus_view d slave !! j = if decide (j < 256)%nat then Some (u8 (fst d (Z.of_nat j))) else None.
Proof.
  unfold bus_view. cbn [bench_bus]. rewrite list_lookup_fmap. case_decide.
  - by rewrite lookup_seq_lt.
  - by rewrite lookup_seq_ge by lia.
Qed.

#[export] Instance bench_memory slave : SmBusMemory bench slave.
Proof.
  split.
  - intros d. unfold bus_view. cbn [bench_bus]. by rewrite length_map, length_seq.
  - intros d. unfold bus_view. cbn [bench_bus]. apply Forall_map, Forall_true. intros. apply u8_is.
  - intros [f [|n]] r Hr; cbn [bus_read bench_bus]; (split; [done |]).
    { split; [unfold is_u8; lia | done]. }
    split; [apply u8_is |]. intros _. symmetry. apply nth_lookup_eq. rewrite bench_view_lookup, decide_True by lia.
    cbn [fst]. by rewrite Z2Nat.id by lia.
  - intros [f [|n]] r v Hr Hv; cbn [bus_write bench_bus]; [by right |]. left. apply list_eq. intros j.
    destruct (decide (j = Z.to_nat r)) as [-> | Hne].
    + rewrite list_lookup_insert_eq by (unfold bus_view; cbn [bench_bus]; rewrite length_map, length_seq; lia).
      rewrite bench_view_lookup, decide_True by lia. cbn [fst]. rewrite Z2Nat.id by lia. by rewrite Z.eqb_refl, u8_id.
    + rewrite list_lookup_insert_ne by done. rewrite !bench_view_lookup. case_decide; [| done]. cbn [fst].
      destruct (Z.eqb_spec (Z.of_nat j) r); [lia | done].
Qed.

(** ** Witnesses *)

Definition fresh (d : bench) : nvs bench :=
  Nvs (replicate 256 0) false (replicate EEPROM_SEALED_LENGTH 0) false (replicate 16 0) d.

Lemma fresh_wf d : nvs_wf (fresh d).
Proof. split; [done |]. apply bytes_zero. Qed.

Lemma fresh_synced d : synced (fresh d).
Proof. done. Qed.

Lemma fresh_settled d : settled (fresh d).
Proof. done. Qed.

Definition counting (n : nat) : bench := (fun r => r, n).


Lemma save_query_roundtrip_witness :
  snd (ExQueryNonVolatileSetting
         (fst (ExSaveNonVolatileSetting (fresh (counting 1000)) 0x07 NVS_TYPE_BINARY (Some [1; 2]))) 0x07
         (Some (replicate 6 9)) true true) =
    QueryOut STATUS_SUCCESS (Some [1; 2; 0; 0; 0; 0]) (Some NVS_TYPE_DWORD) (Some 4).
Proof.
  rewrite (save_query_roundtrip (fresh (counting 1000)) (fst (ExSaveNonVolatileSetting (fresh (counting 1000)) 0x07 NVS_TYPE_BINARY (Some [1; 2])))
    0x07 (Setting 0x0007 0x90 4 NVS_TYPE_DWORD false) NVS_TYPE_BINARY [1; 2] STATUS_SUCCESS (replicate 6 9));
    [reflexivity | apply fresh_wf | apply fresh_synced | repeat constructor; unfold is_u8; lia | reflexivity | | reflexivity |
      apply Nat.leb_le; reflexivity].
  assert (E : snd (ExSaveNonVolatileSetting (fresh (counting 1000)) 0x07 NVS_TYPE_BINARY (Some [1; 2])) = STATUS_SUCCESS)
    by (vm_compute; reflexivity).
  rewrite <- E. apply surjective_pairing.
Defined.

Lemma save_refusals_witness :
  let st := fst (NxkEepromLoad (fresh (counting 1000))) in
  ExSaveNonVolatileSetting st 0x1FF 0 (Some [1]) = (st, STATUS_INVALID_PARAMETER) /\
  ExSaveNonVolatileSetting st 0x104 0 (Some [1]) = (st, STATUS_OBJECT_NAME_NOT_FOUND) /\
  ExSaveNonVolatileSetting st 0x07 0 (Some [1; 2; 3; 4; 5]) = (st, STATUS_INVALID_PARAMETER).
Proof.
  intros st. assert (E : NxkEepromLoaded st = true) by (vm_compute; reflexivity).
  split; [| split]; rewrite (save_refusals st _ _ _ E); reflexivity.
Defined.

(** A part sealed under the second key pair. *)
Definition sealed_part : bench :=
  let img := seal (nth 1 NxkEepromKeys (Regs 0 0 0 0 0, Regs 0 0 0 0 0)) (map Z.of_nat (seq 0x40 28)) in
  (fun r => nth (Z.to_nat r) img 0, 256%nat).

Lemma open_sealed_witness :
  let (st', ok) := NxkEepromOpen (fresh sealed_part) in
  ok = true /\ XboxHDKey st' = map Z.of_nat (seq 0x48 16).
Proof.
  pose proof (open_sealed (fresh sealed_part) (fresh_wf _) (fresh_synced _) eq_refl) as T.
  assert (E : snd (NxkEepromOpen (fresh sealed_part)) = true) by (vm_compute; reflexivity).
  assert (P : NxkEepromPlain (fst (NxkEepromOpen (fresh sealed_part))) = map Z.of_nat (seq 0x40 28)) by (vm_compute; reflexivity).
  destruct (NxkEepromOpen (fresh sealed_part)) as [st' ok]. cbn [fst snd] in *. destruct T as (_ & _ & T & _).
  split; [exact E |]. destruct (T E) as (_ & -> & _). rewrite P. reflexivity.
Defined.

(** A save whose bus dies before the first byte lands reports the failure
    and leaves the part alone, yet the image keeps the new value: queries
    answer it until the next boot reads the part again. *)
Lemma failed_save_still_answers :
  let r := ExSaveNonVolatileSetting (fresh (counting 256)) 0x07 NVS_TYPE_DWORD (Some [1; 2; 3; 4]) in
  snd r = STATUS_IO_DEVICE_ERROR /\
  part (device (fst r)) = part (counting 256) /\
  qValue (snd (ExQueryNonVolatileSetting (fst r) 0x07 (Some (replicate 4 0)) true true)) = Some [1; 2; 3; 4] /\
  qValue (snd (ExQueryNonVolatileSetting (fresh (counting 256)) 0x07 (Some (replicate 4 0)) true true)) = Some [0x90; 0x91; 0x92; 0x93].
Proof. by vm_compute. Qed.
