(* ===== verification/RwLock.v ===== *)
(** * The executive read/write lock

    Models [src/ntoskrnl/xb/rwlock.c].  Each routine's interrupts-off section
    is one function on the lock; a thread is where in the routines it is, and
    the signal that a release makes after interrupts are back on is a step of
    its own, so that every interleaving of the threads is a path of [step].
    The event and the semaphore are their signal states, a wait consuming
    what it waited for.  The theorems are mutual exclusion with the exact
    meaning of the four counters, and that no wake-up is lost: when nobody
    asks for the lock any more, every schedule hands it to every waiter and
    ends with it free. *)

From stdpp Require Import prelude list relations.
From Stdlib Require Import ZArith Lia.
From S2P Require Import Prelude.

Local Open Scope Z_scope.

(** ** The lock *)

Record ERWLOCK := Erwlock {
  LockCount : Z;
  WritersWaitingCount : Z;
  ReadersWaitingCount : Z;
  ReadersEntryCount : Z;
  WriterEvent : bool;
  ReaderSemaphore : Z
}.

Definition ExInitializeReadWriteLock : ERWLOCK := Erwlock (-1) 0 0 0 false 0.

(** A 32-bit pattern read as a [LONG]. *)
Definition s32 (x : Z) : Z := (x + 2 ^ 31) mod 2 ^ 32 - 2 ^ 31.

(** Where a thread is: outside, waiting in one of the two acquires, an owner,
    or about to signal at the end of a release. *)
Inductive thread :=
  | Idle
  | WaitExclusive
  | WaitShared
  | OwnExclusive
  | OwnShared
  | SetEvent
  | ReleaseSemaphore (Waiting : Z).

Definition ExAcquireReadWriteLockExclusive (l : ERWLOCK) : ERWLOCK * thread :=
  let Count := s32 (LockCount l + 1) in
  if negb (Count =? 0)
  then (Erwlock Count (add32 (WritersWaitingCount l) 1) (ReadersWaitingCount l) (ReadersEntryCount l)
          (WriterEvent l) (ReaderSemaphore l), WaitExclusive)
  else (Erwlock Count (WritersWaitingCount l) (ReadersWaitingCount l) (ReadersEntryCount l)
          (WriterEvent l) (ReaderSemaphore l), OwnExclusive).

Definition ExAcquireReadWriteLockShared (l : ERWLOCK) : ERWLOCK * thread :=
  let MustWait := (ReadersEntryCount l =? 0) || negb (WritersWaitingCount l =? 0) in
  let Count := s32 (LockCount l + 1) in
  if negb (Count =? 0) && MustWait
  then (Erwlock Count (WritersWaitingCount l) (add32 (ReadersWaitingCount l) 1) (ReadersEntryCount l)
          (WriterEvent l) (ReaderSemaphore l), WaitShared)
  else (Erwlock Count (WritersWaitingCount l) (ReadersWaitingCount l) (add32 (ReadersEntryCount l) 1)
          (WriterEvent l) (ReaderSemaphore l), OwnShared).

(** The tail of a release: one writer is handed the lock. *)
Definition hand_to_writer (l : ERWLOCK) : ERWLOCK * thread :=
  (Erwlock (LockCount l) (sub32 (WritersWaitingCount l) 1) (ReadersWaitingCount l) (ReadersEntryCount l)
     (WriterEvent l) (ReaderSemaphore l), SetEvent).

Definition ExReleaseReadWriteLock (l : ERWLOCK) : ERWLOCK * thread :=
  let Count := s32 (LockCount l - 1) in
  if Count =? -1
  then (Erwlock Count (WritersWaitingCount l) (ReadersWaitingCount l) 0 (WriterEvent l) (ReaderSemaphore l), Idle)
  else if ReadersEntryCount l =? 0 then
    if negb (ReadersWaitingCount l =? 0) then
      let Waiting := ReadersWaitingCount l in
      (Erwlock Count (WritersWaitingCount l) 0 Waiting (WriterEvent l) (ReaderSemaphore l), ReleaseSemaphore (s32 Waiting))
    else hand_to_writer (Erwlock Count (WritersWaitingCount l) (ReadersWaitingCount l) (ReadersEntryCount l)
                           (WriterEvent l) (ReaderSemaphore l))
  else
    let Entry := sub32 (ReadersEntryCount l) 1 in
    let l := Erwlock Count (WritersWaitingCount l) (ReadersWaitingCount l) Entry (WriterEvent l) (ReaderSemaphore l) in
    if negb (Entry =? 0) then (l, Idle) else hand_to_writer l.

(** ** The dispatcher objects *)

Definition KeSetEvent (l : ERWLOCK) : ERWLOCK :=
  Erwlock (LockCount l) (WritersWaitingCount l) (ReadersWaitingCount l) (ReadersEntryCount l) true (ReaderSemaphore l).

Definition KeReleaseSemaphore (l : ERWLOCK) (n : Z) : ERWLOCK :=
  Erwlock (LockCount l) (WritersWaitingCount l) (ReadersWaitingCount l) (ReadersEntryCount l) (WriterEvent l)
    (ReaderSemaphore l + n).

(** A satisfied wait: the synchronization event resets, the semaphore loses
    one. *)
Definition wait_event (l : ERWLOCK) : option ERWLOCK :=
  if WriterEvent l
  then Some (Erwlock (LockCount l) (WritersWaitingCount l) (ReadersWaitingCount l) (ReadersEntryCount l) false (ReaderSemaphore l))
  else None.

Definition wait_semaphore (l : ERWLOCK) : option ERWLOCK :=
  if 0 <? ReaderSemaphore l
  then Some (Erwlock (LockCount l) (WritersWaitingCount l) (ReadersWaitingCount l) (ReadersEntryCount l) (WriterEvent l)
               (ReaderSemaphore l - 1))
  else None.

(** ** Threads *)

(** A thread asking for the lock. *)
Inductive request : ERWLOCK -> thread -> ERWLOCK -> thread -> Prop :=
  | req_exclusive l l' t : ExAcquireReadWriteLockExclusive l = (l', t) -> request l Idle l' t
  | req_shared l l' t : ExAcquireReadWriteLockShared l = (l', t) -> request l Idle l' t.

(** Everything else a thread does. *)
Inductive settle : ERWLOCK -> thread -> ERWLOCK -> thread -> Prop :=
  | wake_exclusive l l' : wait_event l = Some l' -> settle l WaitExclusive l' OwnExclusive
  | wake_shared l l' : wait_semaphore l = Some l' -> settle l WaitShared l' OwnShared
  | release_exclusive l l' t : ExReleaseReadWriteLock l = (l', t) -> settle l OwnExclusive l' t
  | release_shared l l' t : ExReleaseReadWriteLock l = (l', t) -> settle l OwnShared l' t
  | set_event l : settle l SetEvent (KeSetEvent l) Idle
  | release_semaphore l n : settle l (ReleaseSemaphore n) (KeReleaseSemaphore l n) Idle.

Definition system : Type := ERWLOCK * list thread.

Inductive step_of (R : ERWLOCK -> thread -> ERWLOCK -> thread -> Prop) : system -> system -> Prop :=
  | thread_moves l ths i t l' t' : ths !! i = Some t -> R l t l' t' -> step_of R (l, ths) (l', <[i := t']> ths).

Definition step (s s' : system) : Prop := step_of request s s' \/ step_of settle s s'.

Definition initial (n : nat) : system := (ExInitializeReadWriteLock, replicate n Idle).

Definition reachable (n : nat) (s : system) : Prop := rtc step (initial n) s.

(** ** Counting threads *)

Definition sum_of (f : thread -> Z) (ths : list thread) : Z := foldr (fun t acc => f t + acc) 0 ths.

Definition hw (t : thread) : Z := match t with OwnExclusive => 1 | _ => 0 end.
Definition hr (t : thread) : Z := match t with OwnShared => 1 | _ => 0 end.
Definition ww (t : thread) : Z := match t with WaitExclusive => 1 | _ => 0 end.
Definition wr (t : thread) : Z := match t with WaitShared => 1 | _ => 0 end.
Definition pe (t : thread) : Z := match t with SetEvent => 1 | _ => 0 end.
Definition ps (t : thread) : Z := match t with ReleaseSemaphore n => n | _ => 0 end.

(** Turns still owed: how many settling steps a thread can take. *)
Definition turns (t : thread) : Z :=
  match t with Idle => 0 | WaitExclusive | WaitShared => 3 | OwnExclusive | OwnShared => 2 | SetEvent | ReleaseSemaphore _ => 1 end.

Definition ev (l : ERWLOCK) : Z := if WriterEvent l then 1 else 0.

(** What the counters mean: the count is one less than the threads in or
    waiting, each waiting count is the waiters no wake-up is under way for,
    and the readers' entry count is the readers in or being let in.  Writers
    and readers are never let in together, readers wait behind readers only
    when a writer waits too, and a lock that is not free has an owner in or
    under way. *)
Record consistent (s : system) : Prop := {
  c_count : LockCount (fst s) + 1 = sum_of hw (snd s) + sum_of hr (snd s) + sum_of ww (snd s) + sum_of wr (snd s);
  c_writers : WritersWaitingCount (fst s) + sum_of pe (snd s) + ev (fst s) = sum_of ww (snd s);
  c_readers : ReadersWaitingCount (fst s) + sum_of ps (snd s) + ReaderSemaphore (fst s) = sum_of wr (snd s);
  c_entry : ReadersEntryCount (fst s) = sum_of hr (snd s) + sum_of ps (snd s) + ReaderSemaphore (fst s);
  c_one : sum_of hw (snd s) + sum_of pe (snd s) + ev (fst s) <= 1;
  c_apart : 0 < sum_of hw (snd s) + sum_of pe (snd s) + ev (fst s) -> ReadersEntryCount (fst s) = 0;
  c_behind : 0 < ReadersEntryCount (fst s) -> 0 < ReadersWaitingCount (fst s) -> 0 < WritersWaitingCount (fst s);
  c_owned : 0 <= LockCount (fst s) ->
    0 < sum_of hw (snd s) + sum_of pe (snd s) + ev (fst s) + ReadersEntryCount (fst s);
  c_nonneg : 0 <= WritersWaitingCount (fst s) /\ 0 <= ReadersWaitingCount (fst s) /\ 0 <= ReaderSemaphore (fst s);
  c_batches : Forall (fun t => 0 <= ps t) (snd s)
}.

(** ** Lemmas *)

Lemma s32_id x : - 2 ^ 31 <= x < 2 ^ 31 -> s32 x = x.
Proof. intros H. unfold s32. rewrite Z.mod_small by lia. lia. Qed.

Lemma sum_of_cons f t ths : sum_of f (t :: ths) = f t + sum_of f ths.
Proof. done. Qed.

Lemma sum_of_insert f ths i t t' : ths !! i = Some t -> sum_of f (<[i := t']> ths) = sum_of f ths - f t + f t'.
Proof.
  revert i. induction ths as [|x ths IH]; intros [|i] E; try done.
  - injection E as ->. change (<[0%nat := t']> (t :: ths)) with (t' :: ths). rewrite !sum_of_cons. lia.
  - change (<[S i := t']> (x :: ths)) with (x :: <[i := t']> ths). rewrite !sum_of_cons, (IH i E). lia.
Qed.

Lemma sum_of_nonneg f ths : Forall (fun t => 0 <= f t) ths -> 0 <= sum_of f ths.
Proof. induction 1 as [|t ths Ht _ IH]; [done |]. rewrite sum_of_cons. lia. Qed.

Lemma sum_of_le f ths i t : Forall (fun t => 0 <= f t) ths -> ths !! i = Some t -> f t <= sum_of f ths.
Proof.
  intros H. revert i. induction H as [|x ths Hx Hr IH]; intros [|i] E; try done; rewrite sum_of_cons.
  - injection E as ->. pose proof (sum_of_nonneg f ths Hr). lia.
  - specialize (IH i E). lia.
Qed.

Lemma sum_of_positive f ths : Forall (fun t => 0 <= f t) ths -> 0 < sum_of f ths -> exists i t, ths !! i = Some t /\ 0 < f t.
Proof.
  induction 1 as [|t ths Ht _ IH]; [done |]. rewrite sum_of_cons. intros Hs.
  destruct (Z.lt_ge_cases 0 (f t)); [by exists 0%nat, t |].
  destruct IH as (i & t' & E & Hp); [lia |]. by exists (S i), t'.
Qed.

Lemma replicate_sum f n : f Idle = 0 -> sum_of f (replicate n Idle) = 0.
Proof. intros E. induction n as [|n IH]; [done |]. cbn [replicate]. rewrite sum_of_cons. lia. Qed.

(** The threads in or waiting are at most all of them. *)
Lemma sum_of_bound ths : sum_of hw ths + sum_of hr ths + sum_of ww ths + sum_of wr ths + sum_of pe ths <= Z.of_nat (length ths).
Proof.
  induction ths as [|t ths IH]; [done |]. rewrite !sum_of_cons. cbn [length]. destruct t; cbn [hw hr ww wr pe]; lia.
Qed.

Lemma indicators_nonneg ths :
  Forall (fun t => 0 <= hw t) ths /\ Forall (fun t => 0 <= hr t) ths /\ Forall (fun t => 0 <= ww t) ths /\
  Forall (fun t => 0 <= wr t) ths /\ Forall (fun t => 0 <= pe t) ths.
Proof. repeat split; apply Forall_true; intros []; cbn; lia. Qed.

(** The sums that are not negative. *)
Ltac sums_nonneg ths :=
  pose proof (sum_of_bound ths);
  let A := fresh in pose proof (indicators_nonneg ths) as A;
  destruct A as (?N1 & ?N2 & ?N3 & ?N4 & ?N5);
  pose proof (sum_of_nonneg _ _ N1); pose proof (sum_of_nonneg _ _ N2); pose proof (sum_of_nonneg _ _ N3);
  pose proof (sum_of_nonneg _ _ N4); pose proof (sum_of_nonneg _ _ N5).

(** A thread's own share of the sums. *)
Ltac thread_share E :=
  match goal with
  | N1 : Forall (fun t => 0 <= hw t) _, N2 : Forall (fun t => 0 <= hr t) _, N3 : Forall (fun t => 0 <= ww t) _,
    N4 : Forall (fun t => 0 <= wr t) _, N5 : Forall (fun t => 0 <= pe t) _, N6 : Forall (fun t => 0 <= ps t) _ |- _ =>
      pose proof (sum_of_le _ _ _ _ N1 E); pose proof (sum_of_le _ _ _ _ N2 E); pose proof (sum_of_le _ _ _ _ N3 E);
      pose proof (sum_of_le _ _ _ _ N4 E); pose proof (sum_of_le _ _ _ _ N5 E); pose proof (sum_of_le _ _ _ _ N6 E);
      pose proof (sum_of_nonneg _ _ N6)
  end.

(** A thread's move: the sums after it, then arithmetic. *)
Ltac moves E :=
  constructor; cbn [fst snd LockCount WritersWaitingCount ReadersWaitingCount ReadersEntryCount WriterEvent ReaderSemaphore] in *;
  rewrite ?(sum_of_insert _ _ _ _ _ E); unfold ev in *;
  cbn [hw hr ww wr pe ps fst snd LockCount WritersWaitingCount ReadersWaitingCount ReadersEntryCount WriterEvent ReaderSemaphore] in *;
  try match goal with Hv : WriterEvent _ = _ |- _ => rewrite Hv in * end;
  first [lia | apply Forall_insert; [assumption | cbn; lia] | idtac].

Definition many (n : nat) : Prop := Z.of_nat n < 2 ^ 31 - 1.

Lemma ev_range l : 0 <= ev l <= 1.
Proof. unfold ev. destruct (WriterEvent l); lia. Qed.

Ltac open_consistent C l ths E :=
  destruct C as [C1 C2 C3 C4 C5 C6 C7 C8 (C9 & C10 & C11) C12]; cbn [fst snd] in *;
  sums_nonneg ths; thread_share E; cbn [hw hr ww wr pe ps] in *; pose proof (ev_range l); unfold many in *.

Lemma request_consistent l ths i l' t' : many (length ths) -> consistent (l, ths) -> ths !! i = Some Idle ->
  request l Idle l' t' -> consistent (l', <[i := t']> ths).
Proof.
  intros Hn C E R. open_consistent C l ths E. inversion R as [? ? ? A | ? ? ? A]; subst; clear R.
  - unfold ExAcquireReadWriteLockExclusive in A. rewrite s32_id in A by lia.
    destruct (Z.eqb_spec (LockCount l + 1) 0) as [Hz | Hz]; cbn [negb] in A; injection A as <- <-;
      rewrite ?add32_id by lia; moves E.
  - unfold ExAcquireReadWriteLockShared in A. rewrite s32_id in A by lia.
    destruct (Z.eqb_spec (LockCount l + 1) 0), (Z.eqb_spec (ReadersEntryCount l) 0), (Z.eqb_spec (WritersWaitingCount l) 0);
      cbn [negb andb orb] in A; injection A as <- <-; rewrite ?add32_id by lia; moves E.
Qed.

Lemma release_consistent l ths i t l' t' : many (length ths) -> consistent (l, ths) -> ths !! i = Some t ->
  t = OwnExclusive \/ t = OwnShared -> ExReleaseReadWriteLock l = (l', t') -> consistent (l', <[i := t']> ths).
Proof.
  intros Hn C E Ht A. open_consistent C l ths E. unfold ExReleaseReadWriteLock, hand_to_writer in A.
  rewrite s32_id in A by (destruct Ht; subst; cbn [hw hr ww wr pe ps] in *; lia).
  destruct (Z.eqb_spec (LockCount l - 1) (-1)); [| destruct (Z.eqb_spec (ReadersEntryCount l) 0)].
  - injection A as <- <-. destruct Ht; subst; moves E.
  - destruct (Z.eqb_spec (ReadersWaitingCount l) 0); cbn [negb] in A; injection A as <- <-;
      cbn [WritersWaitingCount LockCount ReadersEntryCount ReadersWaitingCount WriterEvent ReaderSemaphore];
      rewrite ?s32_id by lia; rewrite ?sub32_id by (destruct Ht; subst; cbn [hw hr ww wr pe ps] in *; lia);
      destruct Ht; subst; moves E.
  - rewrite (sub32_id (ReadersEntryCount l)) in A by lia.
    destruct (Z.eqb_spec (ReadersEntryCount l - 1) 0); cbn [negb] in A; injection A as <- <-;
      cbn [WritersWaitingCount LockCount ReadersEntryCount ReadersWaitingCount WriterEvent ReaderSemaphore];
      rewrite ?sub32_id by (destruct Ht; subst; cbn [hw hr ww wr pe ps] in *; lia);
      destruct Ht; subst; moves E.
Qed.

Lemma settle_consistent l ths i t l' t' : many (length ths) -> consistent (l, ths) -> ths !! i = Some t ->
  settle l t l' t' -> consistent (l', <[i := t']> ths).
Proof.
  intros Hn C E R. inversion R as [? ? A | ? ? A | ? ? ? A | ? ? ? A | ? | ? ?]; subst; clear R.
  - open_consistent C l ths E. unfold wait_event in A. destruct (WriterEvent l) eqn:Ev; [| done]. injection A as <-. moves E.
  - open_consistent C l ths E. unfold wait_semaphore in A. destruct (Z.ltb_spec 0 (ReaderSemaphore l)); [| done].
    injection A as <-. moves E.
  - eapply release_consistent; eauto.
  - eapply release_consistent; eauto.
  - open_consistent C l ths E. unfold KeSetEvent. destruct (WriterEvent l) eqn:Ev; moves E.
  - open_consistent C l ths E. pose proof (Forall_lookup_1 _ _ _ _ C12 E) as Hpos. cbn [ps] in Hpos.
    unfold KeReleaseSemaphore. moves E.
Qed.

Lemma step_consistent s s' : many (length (snd s)) -> consistent s -> step s s' -> consistent s' /\ length (snd s') = length (snd s).
Proof.
  intros Hn C [R | R]; destruct R as [l ths i t l' t' E R]; cbn [snd] in *; rewrite length_insert; (split; [| done]).
  - assert (t = Idle) as -> by (by inversion R). by eapply request_consistent.
  - by eapply settle_consistent.
Qed.

Lemma initial_consistent n : consistent (initial n).
Proof.
  constructor; unfold initial; cbn [fst snd ExInitializeReadWriteLock LockCount WritersWaitingCount ReadersWaitingCount
    ReadersEntryCount WriterEvent ReaderSemaphore ev]; rewrite ?replicate_sum by done; try done; try lia.
  apply Forall_replicate. cbn. lia.
Qed.

Lemma reachable_consistent_lock n s : many n -> reachable n s -> consistent s /\ length (snd s) = n.
Proof.
  intros Hn R. unfold reachable in R. assert (G : forall a b, rtc step a b -> consistent a /\ length (snd a) = n -> consistent b /\ length (snd b) = n).
  { intros a b Hab. induction Hab as [|a c b Hac _ IH]; [done |]. intros [Ca La]. apply IH.
    destruct (step_consistent a c) as [Cc Lc]; [by rewrite La | done | done |]. split; [done | congruence]. }
  eapply G; [exact R |]. split; [apply initial_consistent |]. cbn. by rewrite length_replicate.
Qed.

(** C6: Mutual exclusion, for any number of threads below 2^31 - 1 and any
    interleaving of their acquires, releases and wake-ups: a writer in the
    lock is alone in it, and the four counters mean what [consistent] says
    throughout, none of them ever wrapping. *)
Theorem rwlock_exclusion n s : many n -> reachable n s ->
  consistent s /\
  forall i j t, snd s !! i = Some OwnExclusive -> snd s !! j = Some t -> t = OwnExclusive \/ t = OwnShared -> i = j.
Proof.
  intros Hn R. destruct (reachable_consistent_lock n s Hn R) as [C L]. split; [done |]. intros i j t Ei Ej Ht.
  destruct (decide (i = j)) as [-> | Hij]; [done |]. exfalso. destruct s as [l ths]. cbn [snd] in *.
  pose proof (sum_of_insert hw ths i _ Idle Ei) as E1. pose proof (sum_of_insert hr ths i _ Idle Ei) as E2.
  assert (Ej' : <[i := Idle]> ths !! j = Some t) by (by rewrite list_lookup_insert_ne).
  destruct (indicators_nonneg (<[i := Idle]> ths)) as (N1 & N2 & _).
  pose proof (sum_of_le _ _ _ _ N1 Ej') as S1. pose proof (sum_of_le _ _ _ _ N2 Ej') as S2.
  clear N1 N2. open_consistent C l ths Ei. destruct Ht as [-> | ->]; cbn [hw hr] in *; lia.
Qed.

(** ** Progress *)

Lemma settle_turns l t l' t' : settle l t l' t' -> 0 <= turns t' < turns t.
Proof.
  destruct 1 as [l l' A | l l' A | l l' t A | l l' t A | l | l n]; cbn; try lia;
    unfold ExReleaseReadWriteLock, hand_to_writer in A; repeat case_match; injection A as <- <-; cbn; lia.
Qed.

Lemma turns_nonneg ths : Forall (fun t => 0 <= turns t) ths.
Proof. apply Forall_true. intros []; cbn; lia. Qed.

Lemma settle_terminates s : sn (step_of settle) s.
Proof.
  remember (Z.to_nat (sum_of turns (snd s))) as k eqn:Hk. revert s Hk. induction (lt_wf k) as [k _ IH].
  intros s ->. constructor. intros s' R. destruct R as [l ths i t l' t' E R]. cbn [snd] in *.
  eapply IH; [| reflexivity]. cbn [snd]. rewrite (sum_of_insert _ _ _ _ _ E).
  pose proof (settle_turns _ _ _ _ R). pose proof (sum_of_le _ _ _ _ (turns_nonneg ths) E). lia.
Qed.

(** A thread that is not idle and not stuck in a wait can move. *)
Lemma settle_enabled l ths i t : ths !! i = Some t -> t <> Idle -> (t = WaitExclusive -> WriterEvent l = true) ->
  (t = WaitShared -> 0 < ReaderSemaphore l) -> exists s', step_of settle (l, ths) s'.
Proof.
  intros E Hi He Hs. destruct t; try done.
  - eexists. eapply thread_moves; [done |]. apply wake_exclusive. unfold wait_event. by rewrite He.
  - eexists. eapply thread_moves; [done |]. apply wake_shared. unfold wait_semaphore.
    destruct (Z.ltb_spec 0 (ReaderSemaphore l)); [done | specialize (Hs eq_refl); lia].
  - destruct (ExReleaseReadWriteLock l) eqn:A. eexists. eapply thread_moves; [done |]. by apply release_exclusive.
  - destruct (ExReleaseReadWriteLock l) eqn:A. eexists. eapply thread_moves; [done |]. by apply release_shared.
  - eexists. eapply thread_moves; [done |]. apply set_event.
  - eexists. eapply thread_moves; [done |]. apply release_semaphore.
Qed.

(** In a consistent state with a thread in or waiting, some thread can move
    without anyone asking for the lock. *)
Lemma consistent_progress l ths : consistent (l, ths) -> 0 <= LockCount l -> exists s', step_of settle (l, ths) s'.
Proof.
  intros C H0. pose proof (c_owned _ C H0) as Ho. pose proof (c_entry _ C) as He. pose proof (c_readers _ C) as Hr.
  pose proof (c_writers _ C) as Hw. pose proof (c_batches _ C) as Hb. pose proof (c_nonneg _ C) as (P1 & P2 & P3).
  destruct (indicators_nonneg ths) as (N1 & N2 & N3 & N4 & N5). cbn [fst snd] in *.
  pose proof (sum_of_nonneg _ _ N1). pose proof (sum_of_nonneg _ _ N2). pose proof (sum_of_nonneg _ _ N5). pose proof (sum_of_nonneg _ _ Hb).
  assert (Hpos : forall f, Forall (fun t => 0 <= f t) ths -> 0 < sum_of f ths ->
    (forall t, 0 < f t -> t <> Idle /\ (t = WaitExclusive -> WriterEvent l = true) /\ (t = WaitShared -> 0 < ReaderSemaphore l)) ->
    exists s', step_of settle (l, ths) s').
  { intros f Hf Hs Hok. destruct (sum_of_positive f ths Hf Hs) as (i & t & E & Hp). destruct (Hok t Hp) as (O1 & O2 & O3).
    by eapply settle_enabled. }
  destruct (Z.lt_ge_cases 0 (sum_of hw ths)); [apply (Hpos hw); [done | done | by intros []] |].
  destruct (Z.lt_ge_cases 0 (sum_of hr ths)); [apply (Hpos hr); [done | done | by intros []] |].
  destruct (Z.lt_ge_cases 0 (sum_of pe ths)); [apply (Hpos pe); [done | done | by intros []] |].
  destruct (Z.lt_ge_cases 0 (sum_of ps ths)); [apply (Hpos ps); [done | done | by intros []] |].
  unfold ev in *. destruct (WriterEvent l) eqn:Ev.
  - apply (Hpos ww); [done | lia |]. by intros [].
  - apply (Hpos wr); [done | lia |]. intros []; try done. cbn. intros _. split; [done |]. split; [done |]. lia.
Qed.

(** C15: No wake-up is lost.  From any state the threads can reach, once
    no thread asks for the lock any more, every schedule of wake-ups,
    releases and signals terminates, and it can only end with every thread
    out of the lock - so each waiter has had it - and the lock as it was
    initialised. *)
Theorem rwlock_drains n s : many n -> reachable n s ->
  sn (step_of settle) s /\
  forall s', rtc (step_of settle) s s' -> nf (step_of settle) s' -> s' = initial n.
Proof.
  intros Hn R. split; [apply settle_terminates |]. intros s' Hs Hnf.
  assert (R' : reachable n s').
  { unfold reachable in *. etrans; [exact R |]. eapply (rtc_subrel (step_of settle)); [| exact Hs]. by right. }
  destruct (reachable_consistent_lock n s' Hn R') as [C L]. destruct s' as [l ths]. cbn [snd] in L.
  assert (Hidle : forall i t, ths !! i = Some t -> t = Idle).
  { intros i t E. destruct (Z.lt_ge_cases (LockCount l) 0) as [Hl | Hl].
    2: { destruct (consistent_progress l ths C Hl) as [s2 R2]. exfalso. apply Hnf. by exists s2. }
    destruct t; try done; exfalso; try (open_consistent C l ths E; lia); apply Hnf;
      (eapply settle_enabled; [exact E | done | done | done]). }
  assert (ths = replicate n Idle) as ->.
  { symmetry. apply replicate_as_Forall. split; [done |]. apply Forall_lookup. intros i t E. symmetry. by apply (Hidle i). }
  assert (Ei : forall f, f Idle = 0 -> sum_of f (replicate n Idle) = 0) by (intros; by apply replicate_sum).
  destruct C as [C1 C2 C3 C4 C5 C6 C7 C8 (C9 & C10 & C11) C12]. cbn [fst snd] in *. rewrite !Ei in * by done.
  destruct l as [lc wc rc rec we rs]. unfold ev in *. cbn [LockCount WritersWaitingCount ReadersWaitingCount ReadersEntryCount WriterEvent ReaderSemaphore] in *.
  unfold initial, ExInitializeReadWriteLock. destruct we; f_equal; f_equal; lia.
Qed.

(** ** Witnesses *)

(** A writer takes the lock and a second writer and a reader queue. *)
Definition contended : system :=
  let (l1, t0) := ExAcquireReadWriteLockExclusive ExInitializeReadWriteLock in
  let (l2, t1) := ExAcquireReadWriteLockExclusive l1 in
  let (l3, t2) := ExAcquireReadWriteLockShared l2 in
  (l3, [t0; t1; t2]).

Lemma contended_reachable : reachable 3 contended.
Proof.
  unfold reachable. eapply rtc_l; [left; eapply thread_moves with (i := 0%nat); [reflexivity | apply req_exclusive; reflexivity] |].
  eapply rtc_l; [left; eapply thread_moves with (i := 1%nat); [reflexivity | apply req_exclusive; reflexivity] |].
  eapply rtc_l; [left; eapply thread_moves with (i := 2%nat); [reflexivity | apply req_shared; reflexivity] |].
  apply rtc_refl.
Qed.

Lemma rwlock_exclusion_witness : consistent contended.
Proof. apply (rwlock_exclusion 3 contended); [done | apply contended_reachable]. Defined.

Lemma rwlock_drains_witness : sn (step_of settle) contended /\ snd contended = [OwnExclusive; WaitExclusive; WaitShared].
Proof. split; [apply (rwlock_drains 3 contended); [done | apply contended_reachable] | reflexivity]. Defined.
