(* ===== verification/SList.v ===== *)
(** * Lists that threads push to and pop from without a lock

    [XeInterlockedPopEntrySList] and [XeInterlockedPushEntrySList] of
    [ntoskrnl/xb/xbe.c], and the flush that titles reach beside them,
    [ExInterlockedFlushSList] of [ntoskrnl/ex/i386/fastinterlck_asm.S].  The
    header is one word of 64 bits, a pointer, a depth and a sequence number,
    changed by compare-and-exchange; it is read as two halves, and threads
    interleave between any two accesses to memory.  Each access is a step
    here, and the theorems are about every interleaving.

    A pop is right as long as its exchange cannot mistake a header that came
    back for the one it read: the steps count how many operations of each
    kind completed since.  The two halves are enough for that up to 65535
    operations, but for the flush, which leaves no trace in the sequence
    number. *)

From stdpp Require Import prelude gmap list numbers sets.
From Stdlib Require Import ZArith Lia.
From S2P Require Import Prelude.

Local Open Scope Z_scope.

(** ** The header *)

Definition NxpSListPack (Next Depth Sequence : Z) : Z := Z.lor (Z.lor Next (Z.shiftl Depth 32)) (Z.shiftl Sequence 48).

(** A header from its halves. *)
Definition join (low high : Z) : Z := Z.lor low (Z.shiftl high 32).
Definition high_half (h : Z) : Z := Z.shiftr h 32.

Definition first_of_head (h : Z) : Z := u32 h.
Definition depth_of (h : Z) : Z := Z.land (Z.shiftr h 32) 0xFFFF.
Definition sequence_of (h : Z) : Z := Z.land (Z.shiftr h 48) 0xFFFF.

(** The headers that a pop and a push put in place of [oldHead]. *)
Definition popped_head (oldHead Next : Z) : Z := NxpSListPack Next (u16 (depth_of oldHead - 1)) (u16 (sequence_of oldHead + 1)).
Definition pushed_head (oldHead Entry : Z) : Z := NxpSListPack Entry (u16 (depth_of oldHead + 1)) (sequence_of oldHead).

(** The flush clears the pointer and the depth. *)
Definition flushed_head (edx : Z) : Z := join 0 (Z.land edx 0xFFFF0000).

(** ** Threads

    Where a thread is.  [pops] and [pushes], which the code does not have,
    count the operations completed since the thread read the header's high
    half. *)

Inductive point : Type :=
  | PopStart
  | PopLow (low : Z)
  | PopHigh (high pops pushes : Z)
  | PopHave (oldHead pops pushes : Z)
  | PopNext (oldHead Next pops pushes : Z)
  | PushStart (Entry : Z)
  | PushLow (Entry low : Z)
  | PushHigh (Entry high : Z)
  | PushHave (Entry oldHead : Z)
  | PushLinked (Entry oldHead : Z)
  | FlushStart
  | FlushHigh (edx : Z)
  | FlushHave (edx eax : Z)
  | Returned (value : Z).

(** The header, the [Next] word of each entry, and the threads. *)
Record slist : Type := SList { Alignment : Z; Next : gmap Z Z; threads : gmap nat point }.

(** What an operation did to the list, at the step where it did it. *)
Inductive event : Type :=
  | Popped (e : Z)
  | PoppedNone
  | Pushed (e : Z)
  | Flushed (first : Z).

Definition count_since (dp dq : Z) (pt : point) : point :=
  match pt with
  | PopHigh h p q => PopHigh h (p + dp) (q + dq)
  | PopHave o p q => PopHave o (p + dp) (q + dq)
  | PopNext o n p q => PopNext o n (p + dp) (q + dq)
  | _ => pt
  end.

Definition goto (t : nat) (pt : point) (s : slist) : slist := SList (Alignment s) (Next s) (<[t := pt]> (threads s)).

(** A successful exchange. *)
Definition exchange (t : nat) (newHead result dp dq : Z) (s : slist) : slist := SList newHead (Next s) (<[t := Returned result]> (count_since dp dq <$> threads s)).

Definition none_at (low : Z) : option event := if low =? 0 then Some PoppedNone else None.

(** ** One access to memory *)

Definition pop_step (t : nat) (low_first : bool) (pt : point) (s : slist) : slist * option event :=
  let h := Alignment s in
  match pt with
  | PopStart => if low_first then (goto t (PopLow (u32 h)) s, none_at (u32 h)) else (goto t (PopHigh (high_half h) 0 0) s, None)
  | PopLow low => (goto t (PopHave (join low (high_half h)) 0 0) s, None)
  | PopHigh high p q => (goto t (PopHave (join (u32 h) high) p q) s, none_at (u32 h))
  | PopHave oldHead p q =>
      let entry := first_of_head oldHead in
      if entry =? 0 then (goto t (Returned 0) s, None) else (goto t (PopNext oldHead (rd (Next s) entry) p q) s, None)
  | PopNext oldHead n p q =>
      if h =? oldHead then (exchange t (popped_head oldHead n) (first_of_head oldHead) 1 0 s, Some (Popped (first_of_head oldHead))) else (goto t PopStart s, None)
  | _ => (s, None)
  end.

Definition push_step (t : nat) (low_first : bool) (pt : point) (s : slist) : slist * option event :=
  let h := Alignment s in
  match pt with
  | PushStart e => (goto t (if low_first then PushLow e (u32 h) else PushHigh e (high_half h)) s, None)
  | PushLow e low => (goto t (PushHave e (join low (high_half h))) s, None)
  | PushHigh e high => (goto t (PushHave e (join (u32 h) high)) s, None)
  | PushHave e oldHead => (goto t (PushLinked e oldHead) (SList h (<[e := first_of_head oldHead]> (Next s)) (threads s)), None)
  | PushLinked e oldHead =>
      if h =? oldHead then (exchange t (pushed_head oldHead e) (first_of_head oldHead) 0 1 s, Some (Pushed e)) else (goto t (PushStart e) s, None)
  | _ => (s, None)
  end.

(** A failed exchange of the flush loads the header that it found. *)
Definition flush_step (t : nat) (pt : point) (s : slist) : slist * option event :=
  let h := Alignment s in
  match pt with
  | FlushStart => (goto t (FlushHigh (high_half h)) s, None)
  | FlushHigh edx => (goto t (FlushHave edx (u32 h)) s, if u32 h =? 0 then Some (Flushed 0) else None)
  | FlushHave edx eax =>
      if eax =? 0 then (goto t (Returned 0) s, None)
      else if h =? join eax edx then (exchange t (flushed_head edx) eax 0 0 s, Some (Flushed eax))
      else (goto t (FlushHave (high_half h) (u32 h)) s, if u32 h =? 0 then Some (Flushed 0) else None)
  | _ => (s, None)
  end.

(** The next step of thread [t], if it is in an operation. *)
Definition advance (t : nat) (low_first : bool) (s : slist) : option (slist * option event) :=
  match threads s !! t with
  | None | Some (Returned _) => None
  | Some pt =>
      Some (match pt with
            | PopStart | PopLow _ | PopHigh _ _ _ | PopHave _ _ _ | PopNext _ _ _ _ => pop_step t low_first pt s
            | FlushStart | FlushHigh _ | FlushHave _ _ => flush_step t pt s
            | _ => push_step t low_first pt s
            end)
  end.

(** ** Clients *)

Inductive operation : Type :=
  | XeInterlockedPopEntrySList
  | XeInterlockedPushEntrySList (Entry : Z)
  | ExInterlockedFlushSList.

Definition start (op : operation) : point :=
  match op with
  | XeInterlockedPopEntrySList => PopStart
  | XeInterlockedPushEntrySList e => PushStart e
  | ExInterlockedFlushSList => FlushStart
  end.

(** The entry a thread is about to put on the list. *)
Definition holds (pt : point) : option Z :=
  match pt with
  | PushStart e | PushLow e _ | PushHigh e _ | PushHave e _ | PushLinked e _ => Some e
  | _ => None
  end.

(** A pop that has read the high half and not exchanged. *)
Definition popping (pt : point) : bool :=
  match pt with PopHigh _ _ _ | PopHave _ _ _ | PopNext _ _ _ _ => true | _ => false end.

(** ** The stack *)

(** What an event does to the entries on the list, and when it is right. *)
Definition after (ev : event) (l : list Z) : list Z :=
  match ev with
  | Popped _ => tail l
  | PoppedNone => l
  | Pushed e => e :: l
  | Flushed _ => []
  end.

Definition after_all (ev : option event) (l : list Z) : list Z := match ev with Some e => after e l | None => l end.

Definition fits (ev : event) (l : list Z) : Prop :=
  match ev with
  | Popped e => head l = Some e
  | PoppedNone => l = []
  | Pushed e => e ∉ l
  | Flushed first => first = default 0 (head l)
  end.

(** A thread may count on its exchange: fewer operations than a sequence
    number tells apart completed since its read, and no flush completes while
    a pop counts on the header. *)
Definition in_time (t : nat) (s : slist) : Prop :=
  match threads s !! t with
  | Some (PopNext _ _ p q) => p + q < 0x10000
  | Some (FlushHave _ _) => forall t' pt, threads s !! t' = Some pt -> popping pt = false
  | _ => True
  end.

(** An entry that its owner may write to or push. *)
Definition owned_entry (e : Z) (s : slist) (l : list Z) : Prop := 0 < e < 2 ^ 32 /\ (e ∉ l) /\ forall t pt, threads s !! t = Some pt -> holds pt <> Some e.

Definition idle (t : nat) (s : slist) : Prop := match threads s !! t with None | Some (Returned _) => True | _ => False end.

Inductive step : slist * list Z -> slist * list Z -> Prop :=
  | step_call t op s l : idle t s -> (forall e, op = XeInterlockedPushEntrySList e -> owned_entry e s l) -> step (s, l) (goto t (start op) s, l)
  | step_advance t low_first s s' ev l : advance t low_first s = Some (s', ev) -> in_time t s -> step (s, l) (s', after_all ev l)
  | step_write e x s l : owned_entry e s l -> is_u32 x -> step (s, l) (SList (Alignment s) (<[e := x]> (Next s)) (threads s), l).

Definition empty_list : slist := SList 0 ∅ ∅.

(** ** Headers as numbers *)

Lemma pack_eq n d q : is_u32 n -> 0 <= d < 2 ^ 16 -> 0 <= q < 2 ^ 16 -> NxpSListPack n d q = n + 2 ^ 32 * d + 2 ^ 48 * q.
Proof.
  unfold is_u32. intros Hn Hd Hq. unfold NxpSListPack. rewrite !Z.shiftl_mul_pow2 by lia. rewrite (Z.lor_comm n), lor_mul_pow2_small by lia.
  rewrite Z.lor_comm, lor_mul_pow2_small by lia. lia.
Qed.

Lemma join_eq low high : is_u32 low -> 0 <= high -> join low high = low + 2 ^ 32 * high.
Proof. unfold is_u32. intros Hl Hh. unfold join. rewrite Z.shiftl_mul_pow2, Z.lor_comm, lor_mul_pow2_small by lia. lia. Qed.

Lemma low16 x : Z.land x 0xFFFF = x mod 2 ^ 16.
Proof. change 0xFFFF with (Z.ones 16). by rewrite Z.land_ones by lia. Qed.

Lemma high_half_eq h : high_half h = h / 2 ^ 32.
Proof. unfold high_half. by rewrite Z.shiftr_div_pow2 by lia. Qed.

Lemma depth_eq h : depth_of h = h / 2 ^ 32 mod 2 ^ 16.
Proof. unfold depth_of. by rewrite low16, Z.shiftr_div_pow2 by lia. Qed.

Lemma sequence_eq h : sequence_of h = h / 2 ^ 48 mod 2 ^ 16.
Proof. unfold sequence_of. by rewrite low16, Z.shiftr_div_pow2 by lia. Qed.

Definition is_u64 (h : Z) : Prop := 0 <= h < 2 ^ 64.

Lemma split_eq h : h = u32 h + 2 ^ 32 * (h / 2 ^ 32).
Proof. unfold u32. pose proof (Z.div_mod h (2 ^ 32) ltac:(lia)). lia. Qed.

(** The three fields determine a header. *)
Lemma fields_eq h n d q : h = n + 2 ^ 32 * d + 2 ^ 48 * q -> is_u32 n -> 0 <= d < 2 ^ 16 -> 0 <= q < 2 ^ 16 ->
  first_of_head h = n /\ depth_of h = d /\ sequence_of h = q /\ is_u64 h.
Proof.
  unfold is_u32, is_u64, first_of_head, u32. intros -> Hn Hd Hq. rewrite depth_eq, sequence_eq.
  assert (E1 : (n + 2 ^ 32 * d + 2 ^ 48 * q) / 2 ^ 32 = d + 2 ^ 16 * q) by (symmetry; apply (Z.div_unique _ _ _ n); lia).
  assert (E2 : (n + 2 ^ 32 * d + 2 ^ 48 * q) / 2 ^ 48 = q) by (symmetry; apply (Z.div_unique _ _ _ (n + 2 ^ 32 * d)); lia).
  rewrite E1, E2. split; [symmetry; apply (Z.mod_unique _ _ (d + 2 ^ 16 * q)); lia |].
  split; [symmetry; apply (Z.mod_unique _ _ q); lia |]. split; [apply Z.mod_small; lia | lia].
Qed.

Lemma head_fields h : is_u64 h -> h = first_of_head h + 2 ^ 32 * depth_of h + 2 ^ 48 * sequence_of h /\
  is_u32 (first_of_head h) /\ 0 <= depth_of h < 2 ^ 16 /\ 0 <= sequence_of h < 2 ^ 16.
Proof.
  unfold is_u64. intros Hh. rewrite depth_eq, sequence_eq. split; [| split; [apply u32_range |]; split; apply Z.mod_pos_bound; lia].
  pose proof (split_eq h) as E. unfold first_of_head. assert (E2 : h / 2 ^ 48 = h / 2 ^ 32 / 2 ^ 16) by (rewrite Z.div_div by lia; done).
  rewrite E2. pose proof (Z.div_mod (h / 2 ^ 32) (2 ^ 16) ltac:(lia)). rewrite (Z.mod_small (h / 2 ^ 32 / 2 ^ 16)); [lia |].
  split; [apply Z.div_pos; [apply Z.div_pos |]; lia |]. apply Z.div_lt_upper_bound; [lia |]. apply Z.div_lt_upper_bound; lia.
Qed.

(** ** The invariant *)

Definition first (l : list Z) : Z := default 0 (head l).

(** What a thread that read the high half of [h] knows of the header. *)
Record since (now h p q : Z) : Prop := {
  sn_old : is_u64 h;
  sn_pops : 0 <= p;
  sn_pushes : 0 <= q;
  sn_sequence : sequence_of now = u16 (sequence_of h + p);
  sn_depth : depth_of now = u16 (depth_of h + q - p)
}.

Definition point_ok (s : slist) (l : list Z) (pt : point) : Prop :=
  match pt with
  | PopLow low => is_u32 low
  | PopHigh high p q => since (Alignment s) (2 ^ 32 * high) p q
  | PopHave old p q => since (Alignment s) old p q
  | PopNext old n p q => since (Alignment s) old p q /\ first_of_head old <> 0 /\ is_u32 n /\
      (p + q = 0 -> first_of_head old = first l -> n = rd (Next s) (first_of_head old))
  | PushLow _ low => is_u32 low
  | PushHigh _ high => is_u32 high
  | PushHave _ old => is_u64 old
  | PushLinked e old => is_u64 old /\ rd (Next s) e = first_of_head old
  | FlushHigh edx => is_u32 edx
  | FlushHave edx eax => is_u32 edx /\ is_u32 eax
  | _ => True
  end.

Record consistent (s : slist) (l : list Z) : Prop := {
  cs_u64 : is_u64 (Alignment s);
  cs_first : first_of_head (Alignment s) = first l;
  cs_depth : depth_of (Alignment s) = u16 (Z.of_nat (length l));
  cs_chain : forall i e, l !! i = Some e -> rd (Next s) e = default 0 (l !! S i);
  cs_entry : forall e, e ∈ l -> 0 < e < 2 ^ 32;
  cs_nodup : NoDup l;
  cs_words : forall e, is_u32 (rd (Next s) e);
  cs_point : forall t pt, threads s !! t = Some pt -> point_ok s l pt;
  cs_held : forall t pt e, threads s !! t = Some pt -> holds pt = Some e -> 0 < e < 2 ^ 32 /\ (e ∉ l);
  cs_apart : forall t u pt pu e, threads s !! t = Some pt -> threads s !! u = Some pu -> holds pt = Some e -> holds pu = Some e -> t = u
}.

Lemma consistent_empty : consistent empty_list [].
Proof.
  constructor; cbn [Alignment Next threads empty_list]; try done.
  - intros e He. by apply not_elem_of_nil in He.
  - apply base.NoDup_nil_2.
Qed.

Lemma same_high h h' : h / 2 ^ 32 = h' / 2 ^ 32 -> depth_of h = depth_of h' /\ sequence_of h = sequence_of h'.
Proof.
  intros E. rewrite !depth_eq, !sequence_eq, E. split; [done |]. change (2 ^ 48) with (2 ^ 32 * 2 ^ 16). by rewrite <- !Z.div_div, E by lia.
Qed.

Lemma join_fields low high : is_u32 low -> is_u32 high -> is_u64 (join low high) /\ first_of_head (join low high) = low /\ join low high / 2 ^ 32 = high.
Proof.
  unfold is_u32, is_u64, first_of_head, u32. intros Hl Hh. rewrite join_eq by (done || lia). split; [lia |].
  split; [symmetry; apply (Z.mod_unique _ _ high); lia | symmetry; apply (Z.div_unique _ _ _ low); lia].
Qed.

Lemma high_u32 h : is_u64 h -> is_u32 (high_half h).
Proof. unfold is_u64, is_u32. intros Hh. rewrite high_half_eq. split; [apply Z.div_pos; lia | apply Z.div_lt_upper_bound; lia]. Qed.

Lemma since_high now h h' p q : is_u64 h' -> h / 2 ^ 32 = h' / 2 ^ 32 -> since now h p q -> since now h' p q.
Proof. intros H64 E [A B C D F]. destruct (same_high h h' E) as [E1 E2]. constructor; [done | done | done | by rewrite <- E2 | by rewrite <- E1]. Qed.

Lemma since_now h h' : is_u64 h' -> is_u64 h -> h / 2 ^ 32 = h' / 2 ^ 32 -> since h h' 0 0.
Proof.
  intros H64 Hn E. destruct (same_high h h' E) as [E1 E2]. destruct (head_fields h' H64) as (_ & _ & R1 & R2).
  constructor; [done | lia | lia | |]; unfold u16; rewrite Z.mod_small; (done || lia).
Qed.

(** Only the thread's own place changes. *)
Lemma goto_consistent t pt s l : consistent s l -> point_ok s l pt ->
  (forall e, holds pt = Some e -> 0 < e < 2 ^ 32 /\ (e ∉ l) /\ forall u pu, threads s !! u = Some pu -> u <> t -> holds pu <> Some e) -> consistent (goto t pt s) l.
Proof.
  intros C Hp Hh. constructor; cbn [goto Alignment Next threads]; try apply C.
  - intros u pu [[-> <-] | [Hn Hu]]%lookup_insert_Some; [exact Hp | exact (cs_point _ _ C u pu Hu)].
  - intros u pu e [[-> <-] | [Hn Hu]]%lookup_insert_Some He; [by destruct (Hh e He) as (? & ? & _) | by apply (cs_held _ _ C u pu)].
  - intros u w pu pw e Hu Hw Eu Ew. apply lookup_insert_Some in Hu as [[-> <-] | [Nu Hu]]; apply lookup_insert_Some in Hw as [[-> <-] | [Nw Hw]].
    + done.
    + destruct (Hh e Eu) as (_ & _ & A). by destruct (A w pw Hw (not_eq_sym Nw)).
    + destruct (Hh e Ew) as (_ & _ & A). by destruct (A u pu Hu (not_eq_sym Nu)).
    + by apply (cs_apart _ _ C u w pu pw e).
Qed.

Lemma goto_same t old pt s l : consistent s l -> threads s !! t = Some old -> point_ok s l pt -> (holds pt = None \/ holds pt = holds old) -> consistent (goto t pt s) l.
Proof.
  intros C Ho Hp Hh. apply goto_consistent; [done | done |]. intros e He. assert (E : holds old = Some e) by (destruct Hh; congruence).
  destruct (cs_held _ _ C t old e Ho E) as [A B]. split; [done |]. split; [done |]. intros u pu Hu Hn Hpu. apply Hn. by apply (cs_apart _ _ C u t pu old e).
Qed.

Lemma first_in l : first l <> 0 -> first l ∈ l.
Proof. destruct l as [| e l]; [done |]. intros _. apply list_elem_of_here. Qed.

(** An entry that is not on the list is written. *)
Lemma write_consistent e x s l : consistent s l -> e ∉ l -> is_u32 x -> (forall t old, threads s !! t <> Some (PushLinked e old)) ->
  consistent (SList (Alignment s) (<[e := x]> (Next s)) (threads s)) l.
Proof.
  intros C He Hx Hl. constructor; cbn [Alignment Next threads]; try apply C.
  - intros i y Hy. rewrite rd_insert_ne; [by apply (cs_chain _ _ C) |]. intros ->. apply He. by apply list_elem_of_lookup_2 in Hy.
  - intros y. destruct (decide (e = y)) as [-> | Hn]; [by rewrite rd_insert_eq |]. rewrite rd_insert_ne by done. apply C.
  - intros t pt Ht. pose proof (cs_point _ _ C t pt Ht) as Hp. destruct pt; cbn [point_ok Alignment Next] in *; try done.
    + destruct Hp as (A & B & D & E). split; [done |]. split; [done |]. split; [done |]. intros E0 Ef. rewrite rd_insert_ne; [by apply E |].
      intros ->. apply He. rewrite Ef in *. by apply first_in.
    + destruct Hp as [A B]. split; [done |]. rewrite rd_insert_ne; [done |]. intros ->. by apply (Hl t oldHead).
Qed.

Lemma counted_point dp dq pt : holds (count_since dp dq pt) = holds pt /\ popping (count_since dp dq pt) = popping pt.
Proof. by destruct pt. Qed.

Lemma since_more now now' h p q dp dq : since now h p q -> 0 <= dp -> 0 <= dq -> sequence_of now' = u16 (sequence_of now + dp) -> depth_of now' = u16 (depth_of now + dq - dp) ->
  since now' h (p + dp) (q + dq).
Proof.
  intros [A B C D E] Hp Hq E1 E2. constructor; [done | lia | lia | |].
  - rewrite E1, D. unfold u16. rewrite Zplus_mod_idemp_l. f_equal. lia.
  - rewrite E2, E. unfold u16. rewrite <- Z.add_sub_assoc, Zplus_mod_idemp_l. f_equal. lia.
Qed.

(** The header is exchanged. *)
Lemma exchange_consistent t h r dp dq s l l' : consistent s l -> is_u64 h -> first_of_head h = first l' -> depth_of h = u16 (Z.of_nat (length l')) ->
  (forall i e, l' !! i = Some e -> rd (Next s) e = default 0 (l' !! S i)) -> (forall e, e ∈ l' -> 0 < e < 2 ^ 32) -> NoDup l' ->
  (forall u pt e, u <> t -> threads s !! u = Some pt -> holds pt = Some e -> e ∉ l') ->
  (forall u pt, threads s !! u = Some pt -> popping pt = true -> 0 <= dp /\ 0 <= dq /\ 0 < dp + dq /\
    sequence_of h = u16 (sequence_of (Alignment s) + dp) /\ depth_of h = u16 (depth_of (Alignment s) + dq - dp)) ->
  consistent (exchange t h r dp dq s) l'.
Proof.
  intros C H1 H2 H3 H4 H5 H6 Hh Hs. constructor; cbn [exchange Alignment Next threads]; try done; [apply C | | |].
  - intros u pu [[-> <-] | [Hn Hu]]%lookup_insert_Some; [done |]. rewrite lookup_fmap in Hu. destruct (threads s !! u) as [pt |] eqn:Et; [| done]. injection Hu as <-.
    pose proof (cs_point _ _ C u pt Et) as Hp. pose proof (Hs u pt Et) as Hs'. destruct pt; cbn [point_ok count_since Alignment Next popping] in *; try done;
      destruct (Hs' eq_refl) as (A1 & A2 & A3 & A4 & A5); try (by apply (since_more (Alignment s))).
    destruct Hp as (B1 & B2 & B3 & _). split; [by apply (since_more (Alignment s)) |]. split; [done |]. split; [done |]. intros E0. destruct B1. lia.
  - intros u pu e [[-> <-] | [Hn Hu]]%lookup_insert_Some He; [done |]. rewrite lookup_fmap in Hu. destruct (threads s !! u) as [pt |] eqn:Et; [| done]. injection Hu as <-.
    rewrite (proj1 (counted_point dp dq pt)) in He. split; [by apply (cs_held _ _ C u pt) | by apply (Hh u pt)].
  - intros u w pu pw e Hu Hw Eu Ew. apply lookup_insert_Some in Hu as [[-> <-] | [Nu Hu]]; [done |]. apply lookup_insert_Some in Hw as [[-> <-] | [Nw Hw]]; [done |].
    rewrite lookup_fmap in Hu, Hw. destruct (threads s !! u) as [pt |] eqn:Et; [| done]. destruct (threads s !! w) as [pt' |] eqn:Et'; [| done].
    injection Hu as <-. injection Hw as <-. rewrite (proj1 (counted_point dp dq pt)) in Eu. rewrite (proj1 (counted_point dp dq pt')) in Ew. by apply (cs_apart _ _ C u w pt pt' e).
Qed.

(** ** Each access *)

Lemma u16_small x : 0 <= x < 2 ^ 16 -> u16 x = x.
Proof. intros Hx. unfold u16. by apply Z.mod_small. Qed.

Lemma u16_bound x : 0 <= u16 x < 2 ^ 16.
Proof. unfold u16. apply Z.mod_pos_bound. lia. Qed.

Lemma first_zero l : (forall e, e ∈ l -> 0 < e < 2 ^ 32) -> first l = 0 -> l = [].
Proof. destruct l as [| e l]; [done |]. intros He E. cbn in E. specialize (He e (list_elem_of_here _ _)). lia. Qed.

Lemma after_none low l : after_all (none_at low) l = l.
Proof. unfold none_at. by destruct (low =? 0). Qed.

(** A header that is back to what a pop read is the one it read. *)
Lemma since_same h p q : since h h p q -> p + q < 2 ^ 16 -> p = 0 /\ q = 0.
Proof.
  intros [A B C D E] Hl. destruct (head_fields h A) as (_ & _ & R1 & R2). unfold u16 in *.
  assert (p = 0) as ->.
  { pose proof (Z.div_mod (sequence_of h + p) (2 ^ 16) ltac:(lia)) as F. rewrite <- D in F.
    assert (0 <= (sequence_of h + p) / 2 ^ 16) by (apply Z.div_pos; lia). nia. }
  split; [done |]. pose proof (Z.div_mod (depth_of h + q - 0) (2 ^ 16) ltac:(lia)) as F. rewrite <- E in F.
  assert (0 <= (depth_of h + q - 0) / 2 ^ 16) by (apply Z.div_pos; lia). nia.
Qed.

Section access.
Context (t : nat) (s : slist) (l : list Z).
Hypothesis C : consistent s l.

Lemma none_right : match none_at (u32 (Alignment s)) with Some e => fits e l | None => True end.
Proof using C.
  unfold none_at. destruct (Z.eqb_spec (u32 (Alignment s)) 0) as [E | E]; [| done]. apply first_zero; [apply C |]. rewrite <- (cs_first _ _ C). exact E.
Qed.

(** The list without its first entry. *)
Lemma pop_exchange old n p q : threads s !! t = Some (PopNext old n p q) -> Alignment s = old -> p + q < 2 ^ 16 ->
  exists l0, l = first_of_head old :: l0 /\ consistent (exchange t (popped_head old n) (first_of_head old) 1 0 s) l0.
Proof using C.
  intros Ht E Hl. destruct (cs_point _ _ C t _ Ht) as (Sn & Hf & Hn & Hx). rewrite E in Sn. destruct (since_same old p q Sn Hl) as [-> ->].
  pose proof (cs_first _ _ C) as F. rewrite E in F. specialize (Hx eq_refl F). destruct l as [| e l0] eqn:El; [done |]. cbn in F. exists l0. split; [by rewrite F |].
  destruct (head_fields old (sn_old _ _ _ _ Sn)) as (_ & _ & R1 & R2). pose proof (cs_depth _ _ C) as Dp. rewrite E in Dp.
  pose proof (cs_chain _ _ C 0 e eq_refl) as Ch. rewrite F in Hx. rewrite Ch in Hx. cbn [lookup list_lookup] in Hx.
  destruct (fields_eq (popped_head old n) n (u16 (depth_of old - 1)) (u16 (sequence_of old + 1))) as (P1 & P2 & P3 & P4);
    [apply pack_eq; [done | apply u16_bound | apply u16_bound] | done | apply u16_bound | apply u16_bound |].
  pose proof (cs_nodup _ _ C) as Nd. apply list.NoDup_cons in Nd as [Ne Nd].
  apply (exchange_consistent t _ _ 1 0 s (e :: l0)); [done | done | | | | | done | |].
  - rewrite P1, Hx. by destruct l0.
  - rewrite P2, Dp. cbn [length]. unfold u16. rewrite Zminus_mod_idemp_l. f_equal. lia.
  - intros i x Hi. exact (cs_chain _ _ C (S i) x Hi).
  - intros x Hin. apply (cs_entry _ _ C). by apply list_elem_of_further.
  - intros u pt x _ Hu Hh. destruct (cs_held _ _ C u pt x Hu Hh) as [_ B]. set_solver.
  - intros u pt _ _. rewrite E, P2, P3. split; [lia |]. split; [lia |]. split; [lia |]. split; [done | f_equal; lia].
Qed.

Lemma push_exchange old e : threads s !! t = Some (PushLinked e old) -> Alignment s = old ->
  (e ∉ l) /\ consistent (exchange t (pushed_head old e) (first_of_head old) 0 1 s) (e :: l).
Proof using C.
  intros Ht E. destruct (cs_point _ _ C t _ Ht) as [H64 Hx]. destruct (cs_held _ _ C t _ e Ht eq_refl) as [He Hl]. split; [done |].
  pose proof (cs_first _ _ C) as F. pose proof (cs_depth _ _ C) as Dp. rewrite E in F, Dp. destruct (head_fields old H64) as (_ & _ & R1 & R2).
  destruct (fields_eq (pushed_head old e) e (u16 (depth_of old + 1)) (sequence_of old)) as (P1 & P2 & P3 & P4);
    [apply pack_eq; [unfold is_u32; lia | apply u16_bound | done] | unfold is_u32; lia | apply u16_bound | done |].
  apply (exchange_consistent t _ _ 0 1 s l); [done | done | done | | | | | |].
  - rewrite P2, Dp. cbn [length]. unfold u16. rewrite Zplus_mod_idemp_l. f_equal. lia.
  - intros [| i] x Hi; [injection Hi as <-; cbn; rewrite Hx, F; by destruct l | exact (cs_chain _ _ C i x Hi)].
  - intros x [-> | Hin]%elem_of_cons; [done | by apply (cs_entry _ _ C)].
  - apply list.NoDup_cons. split; [done | apply C].
  - intros u pt x Hn Hu Hh Hin. destruct (cs_held _ _ C u pt x Hu Hh) as [_ B]. apply elem_of_cons in Hin as [-> | Hin]; [| done].
    apply Hn. by apply (cs_apart _ _ C u t pt (PushLinked e old) e).
  - intros u pt _ _. rewrite E, P2, P3. split; [lia |]. split; [lia |]. split; [lia |]. split; [rewrite Z.add_0_r, u16_small by done; done | f_equal; lia].
Qed.

Lemma flush_exchange edx eax : threads s !! t = Some (FlushHave edx eax) -> Alignment s = join eax edx -> in_time t s ->
  eax = first l /\ consistent (exchange t (flushed_head edx) eax 0 0 s) [].
Proof using C.
  intros Ht E Hq. destruct (cs_point _ _ C t _ Ht) as [Hx Ha]. destruct (join_fields eax edx Ha Hx) as (J1 & J2 & J3).
  pose proof (cs_first _ _ C) as F. rewrite E, J2 in F. split; [done |]. unfold in_time in Hq. rewrite Ht in Hq.
  assert (Eh : Z.land edx 0xFFFF0000 = 2 ^ 16 * (edx / 2 ^ 16)).
  { unfold is_u32 in Hx. change 0xFFFF0000 with (Z.land 0xFFFFFFFF (Z.lnot (Z.ones 16))). rewrite Z.land_assoc. change 0xFFFFFFFF with (Z.ones 32). rewrite Z.land_ones, Z.mod_small by lia.
    rewrite <- Z.ldiff_land, Z.ldiff_ones_r, Z.shiftl_mul_pow2, Z.shiftr_div_pow2 by lia. lia. }
  unfold is_u32 in Hx. assert (Hr : 0 <= edx / 2 ^ 16 < 2 ^ 16) by (split; [apply Z.div_pos; lia | apply Z.div_lt_upper_bound; lia]).
  destruct (fields_eq (flushed_head edx) 0 0 (edx / 2 ^ 16)) as (P1 & P2 & P3 & P4);
    [unfold flushed_head; rewrite Eh, join_eq by (unfold is_u32; lia); lia | unfold is_u32; lia | lia | done |].
  apply (exchange_consistent t _ _ 0 0 s l); [done | done | done | done | | | apply base.NoDup_nil_2 | |].
  - intros i x Hi. by rewrite lookup_nil in Hi.
  - intros x Hin. by apply not_elem_of_nil in Hin.
  - intros u pt x _ _ _. apply not_elem_of_nil.
  - intros u pt Hu Hp. rewrite (Hq u pt Hu) in Hp. done.
Qed.

End access.

Lemma flush_none s l : consistent s l -> match (if u32 (Alignment s) =? 0 then Some (Flushed 0) else None) with Some e => fits e l | None => True end /\
  after_all (if u32 (Alignment s) =? 0 then Some (Flushed 0) else None) l = l.
Proof.
  intros C. destruct (Z.eqb_spec (u32 (Alignment s)) 0) as [E | E]; [| done]. assert (l = []) as ->; [| done].
  apply first_zero; [apply C |]. rewrite <- (cs_first _ _ C). exact E.
Qed.

Lemma pop_ok t b pt s l : consistent s l -> threads s !! t = Some pt -> in_time t s -> holds pt = None ->
  let r := pop_step t b pt s in consistent (fst r) (after_all (snd r) l) /\ match snd r with Some e => fits e l | None => True end.
Proof.
  intros C Ht Hq Hh. pose proof (cs_u64 _ _ C) as H64. pose proof (high_u32 _ H64) as Hhi. pose proof (cs_point _ _ C t pt Ht) as Hp.
  assert (K : forall pt' ev, consistent s l -> point_ok s l pt' -> holds pt' = None -> after_all ev l = l -> (match ev with Some e => fits e l | None => True end) ->
    consistent (fst (goto t pt' s, ev)) (after_all (snd (goto t pt' s, ev)) l) /\ match snd (goto t pt' s, ev) with Some e => fits e l | None => True end).
  { intros pt' ev _ Hp' Hn Ea Ef. cbn [fst snd]. rewrite Ea. split; [| done]. apply (goto_same t pt); auto. }
  destruct pt; try done; cbn [pop_step point_ok] in *; cbv zeta.
  - destruct b; [apply K; [done | apply u32_range | done | apply after_none | by apply none_right] |]. apply K; try done. cbn [point_ok]. unfold is_u32, is_u64 in *.
    apply since_now; [unfold is_u64; lia | done |]. rewrite high_half_eq, Z.mul_comm, Z.div_mul by lia. done.
  - apply K; try done. cbn [point_ok]. destruct (join_fields low (high_half (Alignment s)) Hp Hhi) as (J1 & J2 & J3). apply since_now; [done | done |]. by rewrite J3, high_half_eq.
  - apply K; [done | | done | apply after_none | by apply none_right]. cbn [point_ok]. assert (Hi : is_u32 high) by (destruct Hp; unfold is_u32, is_u64 in *; lia).
    destruct (join_fields (u32 (Alignment s)) high (u32_range _) Hi) as (J1 & J2 & J3). apply (since_high _ (2 ^ 32 * high)); [done | | done]. by rewrite J3, Z.mul_comm, Z.div_mul by lia.
  - destruct (Z.eqb_spec (first_of_head oldHead) 0) as [E | E]; apply K; try done. cbn [point_ok]. split; [done |]. split; [done |]. split; [apply C | done].
  - destruct (Z.eqb_spec (Alignment s) oldHead) as [E | E]; [| by apply K]. unfold in_time in Hq. rewrite Ht in Hq. cbn [fst snd after_all after fits].
    destruct (pop_exchange t s l C oldHead Next0 pops pushes Ht E Hq) as (l0 & -> & C'). done.
Qed.

Lemma push_ok t b pt s l e : consistent s l -> threads s !! t = Some pt -> holds pt = Some e ->
  let r := push_step t b pt s in consistent (fst r) (after_all (snd r) l) /\ match snd r with Some e => fits e l | None => True end.
Proof.
  intros C Ht Hh. pose proof (cs_u64 _ _ C) as H64. pose proof (high_u32 _ H64) as Hhi. pose proof (cs_point _ _ C t pt Ht) as Hp.
  destruct pt; try done; cbn [holds] in Hh; injection Hh as ->; cbn [push_step point_ok] in *; cbv zeta.
  - split; [| done]. cbn [fst snd after_all]. apply (goto_same t _ _ s l C Ht); [by destruct b; [apply u32_range |] | right; by destruct b].
  - split; [| done]. apply (goto_same t _ _ s l C Ht); [by destruct (join_fields low (high_half (Alignment s)) Hp Hhi) | by right].
  - split; [| done]. apply (goto_same t _ _ s l C Ht); [by destruct (join_fields (u32 (Alignment s)) high (u32_range _) Hp) | by right].
  - split; [| done]. cbn [fst snd after_all]. destruct (cs_held _ _ C t _ e Ht eq_refl) as [He Hl].
    apply (goto_same t (PushHave e oldHead)); [| done | split; [done | apply rd_insert_eq] | by right].
    apply write_consistent; [done | done | apply u32_range |]. intros u old Hu. assert (u = t) as -> by (by apply (cs_apart _ _ C u t _ _ e Hu Ht)). congruence.
  - destruct (Z.eqb_spec (Alignment s) oldHead) as [E | E].
    + cbn [fst snd after_all after fits]. destruct (push_exchange t s l C oldHead e Ht E) as [A B]. done.
    + split; [| done]. apply (goto_same t _ _ s l C Ht); [done | by right].
Qed.

Lemma flush_ok t pt s l : consistent s l -> threads s !! t = Some pt -> in_time t s -> holds pt = None ->
  let r := flush_step t pt s in consistent (fst r) (after_all (snd r) l) /\ match snd r with Some e => fits e l | None => True end.
Proof.
  intros C Ht Hq Hh. pose proof (cs_u64 _ _ C) as H64. pose proof (high_u32 _ H64) as Hhi. pose proof (cs_point _ _ C t pt Ht) as Hp. destruct (flush_none s l C) as [N1 N2].
  destruct pt; try done; cbn [flush_step point_ok] in *; cbv zeta; cbn [fst snd].
  - split; [| done]. by apply (goto_same t _ _ s l C Ht); [| left].
  - rewrite N2. split; [| done]. apply (goto_same t _ _ s l C Ht); [| by left]. split; [done | apply u32_range].
  - destruct (Z.eqb_spec eax 0) as [E0 | E0]; [split; [| done]; by apply (goto_same t _ _ s l C Ht); [| left] |].
    destruct (Z.eqb_spec (Alignment s) (join eax edx)) as [E | E]; cbn [fst snd].
    + destruct (flush_exchange t s l C edx eax Ht E Hq) as [A B]. split; [exact B | exact A].
    + rewrite N2. split; [| done]. apply (goto_same t _ _ s l C Ht); [| by left]. split; [done | apply u32_range].
Qed.

Lemma advance_ok t b s s' ev l : consistent s l -> advance t b s = Some (s', ev) -> in_time t s ->
  consistent s' (after_all ev l) /\ match ev with Some e => fits e l | None => True end.
Proof.
  intros C Ha Hq. unfold advance in Ha. destruct (threads s !! t) as [pt |] eqn:Ht; [| done].
  destruct (holds pt) as [e |] eqn:Hh.
  - pose proof (push_ok t b pt s l e C Ht Hh) as K. destruct pt; try done; (apply (inj Some) in Ha; rewrite Ha in K; exact K).
  - destruct (pop_ok t b pt s l C Ht Hq Hh) as [P1 P2]. destruct (flush_ok t pt s l C Ht Hq Hh) as [F1 F2].
    destruct pt; try done; apply (inj Some) in Ha; (rewrite Ha in P1, P2; done) || (rewrite Ha in F1, F2; done).
Qed.

Lemma slist_step_consistent x y : step x y -> consistent (fst x) (snd x) -> consistent (fst y) (snd y).
Proof.
  intros St C. destruct St as [t op s l Hi Hop | t b s s' ev l Ha Hq | e x s l He Hx]; cbn [fst snd] in *.
  - apply goto_consistent; [done | by destruct op |]. intros e He. assert (op = XeInterlockedPushEntrySList e) as E by (destruct op; cbn in He; congruence).
    destruct (Hop e E) as (A & B & D). split; [done |]. split; [done |]. intros u pu Hu _. by apply (D u).
  - by apply (advance_ok t b s).
  - destruct He as (A & B & D). apply write_consistent; [done | done | done |]. intros t old Ht. by apply (D t _ Ht).
Qed.

Lemma steps_consistent x y : rtc step x y -> consistent (fst x) (snd x) -> consistent (fst y) (snd y).
Proof. induction 1 as [x | x z y St _ IH]; [done |]. intros C. by apply IH, (slist_step_consistent x). Qed.

(** The entries from [e] on, at most [n]. *)
Fixpoint walk (n : nat) (m : gmap Z Z) (e : Z) : list Z :=
  match n with
  | O => []
  | S n' => if e =? 0 then [] else e :: walk n' m (rd m e)
  end.

Lemma walk_chain m l : forall n, (length l < n)%nat -> (forall e, e ∈ l -> 0 < e < 2 ^ 32) -> (forall i e, l !! i = Some e -> rd m e = default 0 (l !! S i)) -> walk n m (first l) = l.
Proof.
  induction l as [| e l IH]; intros [| n] Hn He Hc; try (cbn in Hn; lia); [done |]. pose proof (He e (list_elem_of_here _ _)).
  cbn [walk]. change (first (e :: l)) with e. rewrite (proj2 (Z.eqb_neq e 0)) by lia. f_equal. rewrite (Hc 0%nat e eq_refl).
  assert (default 0 ((e :: l) !! 1%nat) = first l) as -> by (by destruct l). apply IH; [cbn in Hn; lia | intros x Hx; apply He; by apply list_elem_of_further | intros i x Hi; exact (Hc (S i) x Hi)].
Qed.

(** What a thread returns is what its last event says; 0 is no entry. *)
Definition returned_by (ev : option event) (l : list Z) (v : Z) : Prop :=
  match ev with
  | Some (Popped e) => v = e
  | Some (Flushed e) => v = e
  | Some (Pushed _) => v = first l
  | _ => v = 0
  end.

Lemma goto_point t pt s pu : threads (goto t pt s) !! t = Some pu -> pt = pu.
Proof. cbn [goto threads]. rewrite lookup_insert_eq. by intros [= ->]. Qed.

Lemma exchange_point t h r dp dq s pu : threads (exchange t h r dp dq s) !! t = Some pu -> Returned r = pu.
Proof. cbn [exchange threads]. rewrite lookup_insert_eq. by intros [= <-]. Qed.

Lemma advance_returns t b s s' ev l v : consistent s l -> advance t b s = Some (s', ev) -> threads s' !! t = Some (Returned v) -> returned_by ev l v.
Proof.
  intros C Ha Hv. unfold advance in Ha. destruct (threads s !! t) as [pt |] eqn:Ht; [| done].
  destruct pt; try done; cbn [pop_step push_step flush_step] in Ha; cbv zeta in Ha;
    repeat match type of Ha with context [if ?c then _ else _] => let E := fresh "E" in destruct c eqn:E end;
    apply (inj Some) in Ha; apply (f_equal fst) in Ha as Ha1; apply (f_equal snd) in Ha as Ha2; cbn [fst snd] in Ha1, Ha2; subst s' ev;
    (apply goto_point in Hv || apply exchange_point in Hv); (discriminate Hv || injection Hv as <-); try done.
  apply Z.eqb_eq in E. subst oldHead. apply C.
Qed.

(** ** A thread alone *)

(** At most [n] steps of thread [t], the low half read first. *)
Fixpoint alone (n : nat) (t : nat) (s : slist) : slist :=
  match n with
  | O => s
  | S n' => match advance t true s with Some (s', _) => alone n' t s' | None => s end
  end.

Definition has_returned (t : nat) (s : slist) : Prop := exists v, threads s !! t = Some (Returned v).

Lemma alone_returned n t s : has_returned t s -> has_returned t (alone n t s).
Proof. intros [v Hv]. destruct n as [| n]; [by exists v |]. cbn [alone]. unfold advance. rewrite Hv. by exists v. Qed.

Lemma alone_S n t s : alone (S n) t s = match advance t true s with Some (s', _) => alone n t s' | None => s end.
Proof. done. Qed.

Lemma exchange_returned t h r dp dq s : has_returned t (exchange t h r dp dq s).
Proof. exists r. cbn [exchange threads]. apply lookup_insert_eq. Qed.

Lemma goto_returned t v s : has_returned t (goto t (Returned v) s).
Proof. exists v. cbn [goto threads]. apply lookup_insert_eq. Qed.

Lemma rejoin h : is_u64 h -> join (u32 h) (high_half h) = h.
Proof. intros Hh. rewrite join_eq; [rewrite high_half_eq; symmetry; apply split_eq | apply u32_range | by apply high_u32]. Qed.

(** One step of a lone thread that is at a known place. *)
Ltac lone Ht := rewrite alone_S; unfold advance at 1; rewrite Ht; cbn [pop_step push_step flush_step]; cbv zeta.
(** A thread that was sent to a place is there. *)
Ltac there := try (cbn [goto Alignment]; done); cbn [goto threads]; apply lookup_insert_eq.

Section lone.
Context (t : nat).

Lemma lone_pop_next n s x p q : threads s !! t = Some (PopNext (Alignment s) x p q) -> has_returned t (alone (S n) t s).
Proof. intros Ht. lone Ht. rewrite Z.eqb_refl. apply alone_returned, exchange_returned. Qed.

Lemma lone_pop n s : is_u64 (Alignment s) -> threads s !! t = Some PopStart -> has_returned t (alone (S (S (S (S n)))) t s).
Proof.
  intros Hh Ht. lone Ht. set (s1 := goto t (PopLow (u32 (Alignment s))) s). assert (H1 : threads s1 !! t = Some (PopLow (u32 (Alignment s)))) by there.
  lone H1. change (Alignment s1) with (Alignment s). rewrite (rejoin _ Hh). set (s2 := goto t (PopHave (Alignment s) 0 0) s1).
  assert (H2 : threads s2 !! t = Some (PopHave (Alignment s) 0 0)) by there. lone H2. destruct (_ =? 0); [apply (alone_returned (S n)), goto_returned |].
  apply (lone_pop_next n _ (rd (Next s2) (first_of_head (Alignment s))) 0 0). there.
Qed.

Lemma lone_push n s e : is_u64 (Alignment s) -> threads s !! t = Some (PushStart e) -> has_returned t (alone (S (S (S (S n)))) t s).
Proof.
  intros Hh Ht. lone Ht. set (s1 := goto t (PushLow e (u32 (Alignment s))) s). assert (H1 : threads s1 !! t = Some (PushLow e (u32 (Alignment s)))) by there.
  lone H1. change (Alignment s1) with (Alignment s). rewrite (rejoin _ Hh). set (s2 := goto t (PushHave e (Alignment s)) s1).
  assert (H2 : threads s2 !! t = Some (PushHave e (Alignment s))) by there. lone H2. set (s3 := goto t (PushLinked e (Alignment s)) _).
  assert (H3 : threads s3 !! t = Some (PushLinked e (Alignment s))) by there. lone H3. change (Alignment s3) with (Alignment s). rewrite Z.eqb_refl. apply alone_returned, exchange_returned.
Qed.

Lemma lone_flush n s : is_u64 (Alignment s) -> threads s !! t = Some (FlushHave (high_half (Alignment s)) (u32 (Alignment s))) -> has_returned t (alone (S n) t s).
Proof.
  intros Hh Ht. lone Ht. rewrite (rejoin _ Hh), Z.eqb_refl. destruct (_ =? 0); apply alone_returned; [apply goto_returned | apply exchange_returned].
Qed.

(** From a place reached with an older header. *)
Lemma late_pop_have n s old p q : is_u64 (Alignment s) -> threads s !! t = Some (PopHave old p q) -> has_returned t (alone (S (S (S (S (S (S n)))))) t s).
Proof.
  intros Hh Ht. lone Ht. destruct (_ =? 0); [apply (alone_returned (S (S (S (S (S n)))))), goto_returned |].
  set (s1 := goto t (PopNext _ _ _ _) s). assert (H1 : threads s1 !! t = Some (PopNext old (rd (Next s) (first_of_head old)) p q)) by there. lone H1.
  destruct (_ =? old); [apply (alone_returned (S (S (S (S n))))), exchange_returned |]. apply lone_pop; there.
Qed.

Lemma late_push_linked n s e old : is_u64 (Alignment s) -> threads s !! t = Some (PushLinked e old) -> has_returned t (alone (S (S (S (S (S n))))) t s).
Proof. intros Hh Ht. lone Ht. destruct (_ =? old); [apply (alone_returned (S (S (S (S n))))), exchange_returned |]. apply (lone_push n _ e); there. Qed.

Lemma late_push_have n s e old : is_u64 (Alignment s) -> threads s !! t = Some (PushHave e old) -> has_returned t (alone (S (S (S (S (S (S n)))))) t s).
Proof. intros Hh Ht. lone Ht. apply (late_push_linked n _ e old); there. Qed.

Lemma late_flush_have n s edx eax : is_u64 (Alignment s) -> threads s !! t = Some (FlushHave edx eax) -> has_returned t (alone (S (S n)) t s).
Proof.
  intros Hh Ht. lone Ht. destruct (eax =? 0); [apply (alone_returned (S n)), goto_returned |]. destruct (_ =? _); [apply (alone_returned (S n)), exchange_returned |].
  apply lone_flush; there.
Qed.

Lemma lone_seven s pt : is_u64 (Alignment s) -> threads s !! t = Some pt -> has_returned t (alone 7 t s).
Proof.
  intros Hh Ht. destruct pt.
  - by apply lone_pop.
  - lone Ht. eapply (late_pop_have 0); there.
  - lone Ht. eapply (late_pop_have 0); there.
  - by apply (late_pop_have 1 s oldHead pops pushes).
  - lone Ht. destruct (_ =? oldHead); [apply (alone_returned 6), exchange_returned |]. apply lone_pop; there.
  - by apply (lone_push 3 s Entry).
  - lone Ht. eapply (late_push_have 0); there.
  - lone Ht. eapply (late_push_have 0); there.
  - by apply (late_push_have 1 s Entry oldHead).
  - by apply (late_push_linked 2 s Entry oldHead).
  - lone Ht. set (s1 := goto t (FlushHigh (high_half (Alignment s))) s). assert (H1 : threads s1 !! t = Some (FlushHigh (high_half (Alignment s)))) by there. lone H1. eapply (late_flush_have 3); there.
  - lone Ht. eapply (late_flush_have 4); there.
  - by apply (late_flush_have 5 s edx eax).
  - apply alone_returned. by exists value.
Qed.

End lone.

(** ** Scripts *)

Inductive action : Type :=
  | Call (t : nat) (op : operation)
  | Run (t : nat).

(** The events of a sequence of calls and steps. *)
Fixpoint play (script : list action) (s : slist) : option (slist * list event) :=
  match script with
  | [] => Some (s, [])
  | Call t op :: rest => play rest (goto t (start op) s)
  | Run t :: rest =>
      match advance t true s with
      | None => None
      | Some (s', ev) =>
          match play rest s' with
          | None => None
          | Some (s'', evs) => Some (s'', match ev with Some e => e :: evs | None => evs end)
          end
      end
  end.

(** The entries on the list after these events. *)
Definition replay (evs : list event) : list Z := foldl (fun l e => after e l) [] evs.

Definition push_now (t : nat) (e : Z) : list action := [Call t (XeInterlockedPushEntrySList e); Run t; Run t; Run t; Run t].
Definition pop_now (t : nat) : list action := [Call t XeInterlockedPopEntrySList; Run t; Run t; Run t; Run t].

(** Thread 1 has read the header and the first entry's link; thread 0 flushes
    the list, pushes another entry and then the first one again. *)
Definition flush_script : list action :=
  push_now 0 0x200 ++ push_now 0 0x100 ++
  [Call 1 XeInterlockedPopEntrySList; Run 1; Run 1; Run 1] ++
  [Call 0 ExInterlockedFlushSList; Run 0; Run 0; Run 0] ++
  push_now 0 0x300 ++ push_now 0 0x100 ++
  [Run 1] ++ pop_now 1.

Definition one_entry : slist := alone 4 0 (goto 0 (PushStart 0x100) empty_list).

Lemma one_entry_reachable : rtc step (empty_list, []) (one_entry, [0x100]).
Proof.
  eapply rtc_l.
  { apply (step_call 0 (XeInterlockedPushEntrySList 0x100)); [exact I |]. intros e [= <-]. split; [lia |]. split; [apply not_elem_of_nil |].
    intros t pt Ht. cbn [threads empty_list] in Ht. by rewrite lookup_empty in Ht. }
  do 4 (eapply rtc_l; [eapply (step_advance 0 true); [reflexivity | exact I] |]).
  apply rtc_refl.
Qed.

(** ** Properties *)



(** C39: no thread waits for another.  From every state that interleavings
    reach, wherever the other threads stopped, a thread in an operation that
    is left to run returns within seven accesses to memory: a stale read costs
    it at most one more round. *)
Theorem slist_alone_returns s l t pt : rtc step (empty_list, []) (s, l) -> threads s !! t = Some pt -> has_returned t (alone 7 t s).
Proof. intros R Ht. pose proof (steps_consistent _ _ R consistent_empty) as C. apply (lone_seven t s pt); [apply C | done]. Qed.

(** A pop that begins beside an entry. *)
Definition begun : slist := goto 1 PopStart one_entry.

Lemma begun_reachable : rtc step (empty_list, []) (begun, [0x100]).
Proof.
  eapply rtc_r; [exact one_entry_reachable |]. apply (step_call 1 XeInterlockedPopEntrySList); [exact I |]. intros e [=].
Qed.

Lemma slist_alone_returns_witness : has_returned 1 (alone 7 1 begun).
Proof. apply (slist_alone_returns begun [0x100] 1 PopStart begun_reachable). reflexivity. Defined.

(** a flush between a pop's read and its exchange breaks the list.  It
    leaves the sequence number as it was, so that the pop does not notice
    that the list was emptied and filled again: the pop succeeds and puts an
    entry at the head that the flush gave away, and the entry that was pushed
    in between is lost.  The next pop returns the entry that the flush gave
    away, where the stack holds the other. *)
Theorem flush_breaks_pop : exists s evs, play flush_script empty_list = Some (s, evs ++ [Popped 0x200]) /\
  evs = [Pushed 0x200; Pushed 0x100; Flushed 0x100; Pushed 0x300; Pushed 0x100; Popped 0x100] /\ replay evs = [0x300] /\ threads s !! 1%nat = Some (Returned 0x200).
Proof. eexists _, [Pushed 0x200; Pushed 0x100; Flushed 0x100; Pushed 0x300; Pushed 0x100; Popped 0x100]. split; [vm_compute; reflexivity |]. split; [reflexivity |]. split; reflexivity. Qed.
