(* ===== verification/XcVector.v ===== *)
(** * The crypto vector

    Models the end of [src/ntoskrnl/xb/crypto.c]: the vector of routine
    pointers every exported [Xc] service calls through, the ROM's copy of it,
    and [XcUpdateCrypto], by which a title replaces entries.  The theorem
    says which routine an export runs after any sequence of updates. *)

From stdpp Require Import prelude list.
From Stdlib Require Import ZArith Lia.
From S2P Require Import Prelude.

(** The slots of [XC_VECTOR], in order. *)
Inductive slot :=
  | SHAInit | SHAUpdate | SHAFinal | RC4Key | RC4Crypt | HMAC | PKEncPublic | PKDecPrivate | PKGetKeyLen
  | VerifyPKCS1Signature | ModExp | DESKeyParity | KeyTable | BlockCrypt | BlockCryptCBC | CryptService.

#[export] Instance slot_eq_dec : EqDecision slot.
Proof. solve_decision. Defined.

Definition XC_SLOTS : list slot :=
  [SHAInit; SHAUpdate; SHAFinal; RC4Key; RC4Crypt; HMAC; PKEncPublic; PKDecPrivate; PKGetKeyLen;
   VerifyPKCS1Signature; ModExp; DESKeyParity; KeyTable; BlockCrypt; BlockCryptCBC; CryptService].

(** The word offset of a slot. *)
Definition slot_index (s : slot) : nat :=
  match s with
  | SHAInit => 0 | SHAUpdate => 1 | SHAFinal => 2 | RC4Key => 3 | RC4Crypt => 4 | HMAC => 5 | PKEncPublic => 6
  | PKDecPrivate => 7 | PKGetKeyLen => 8 | VerifyPKCS1Signature => 9 | ModExp => 10 | DESKeyParity => 11 | KeyTable => 12
  | BlockCrypt => 13 | BlockCryptCBC => 14 | CryptService => 15
  end.

(** What a slot points at: the kernel's routine for a slot, or one of the
    title's. *)
Inductive routine :=
  | Xcp (s : slot)
  | Title (address : Z).

#[export] Instance routine_eq_dec : EqDecision routine.
Proof. solve_decision. Defined.

(** A vector in memory, walked as an array of pointers. *)
Definition vector : Type := list (option routine).

Definition XcRomVector : list routine := map Xcp XC_SLOTS.

(** The live vector at boot. *)
Definition XcVector_boot : list routine := map Xcp XC_SLOTS.

(** The loop of the update over the slots. *)
Fixpoint update_slots (Live : list routine) (New : vector) : list routine :=
  match Live, New with
  | l :: Live', n :: New' => (match n with Some r => r | None => l end) :: update_slots Live' New'
  | _, _ => Live
  end.

(** The live vector after the update, and the vector written to the
    out-parameter when there is one; the two buffers are distinct. *)
Definition XcUpdateCrypto (Live : list routine) (NewVector : vector) (RomVector : bool) : list routine * option (list routine) :=
  (update_slots Live NewVector, if RomVector then Some XcRomVector else None).

(** The exports: each calls through its slot. *)
Definition export (Live : list routine) (s : slot) : option routine := Live !! slot_index s.

(** A sequence of updates. *)
Definition updates (Live : list routine) (news : list vector) : list routine :=
  fold_left (fun Live New => fst (XcUpdateCrypto Live New true)) news Live.

(** The last of the updates that fills a slot. *)
Definition last_installed (news : list vector) (s : slot) : option routine :=
  fold_left (fun acc New => match nth (slot_index s) New None with Some r => Some r | None => acc end) news None.

Lemma update_slots_lookup Live New i :
  update_slots Live New !! i = match nth i New None with Some r => if decide (i < length Live) then Some r else None | None => Live !! i end.
Proof.
  revert New i. induction Live as [|l Live IH]; intros [|n New] [|i]; cbn; try done.
  - by destruct n.
  - by destruct (nth i New None).
  - by destruct n.
  - rewrite IH. destruct (nth i New None); [| done]. by repeat case_decide; try lia.
Qed.

Lemma length_update_slots Live New : length (update_slots Live New) = length Live.
Proof. revert New. induction Live as [|l Live IH]; intros [|n New]; cbn; auto. Qed.

Lemma slot_lookup s : XC_SLOTS !! slot_index s = Some s.
Proof. by destruct s. Qed.

(** An export runs the routine its slot names: after any sequence of
    updates, the one the last update with that slot filled installed, and
    the kernel's own when none did; a slot left empty keeps what it had, no
    other slot is affected, and every update that asks for it is handed the
    ROM's vector, whatever is installed. *)
Theorem export_runs_last_installed news s :
  export (updates XcVector_boot news) s = Some (default (Xcp s) (last_installed news s)) /\
  snd (XcUpdateCrypto (updates XcVector_boot news) (map (fun _ => None) XC_SLOTS) true) = Some XcRomVector /\
  fst (XcUpdateCrypto (updates XcVector_boot news) (map (fun _ => None) XC_SLOTS) true) = updates XcVector_boot news.
Proof.
  assert (G : length (updates XcVector_boot news) = 16%nat /\
    export (updates XcVector_boot news) s = Some (default (Xcp s) (last_installed news s))).
  { unfold updates, last_installed, export. induction news as [|New news [L IH]] using rev_ind.
    - split; [done |]. unfold XcVector_boot. cbn [fold_left]. rewrite list_lookup_fmap, slot_lookup. done.
    - rewrite !fold_left_app. cbn [fold_left XcUpdateCrypto fst] in *. rewrite length_update_slots. split; [done |].
      rewrite update_slots_lookup. destruct (nth (slot_index s) New None); [| done].
      rewrite decide_True; [done |]. rewrite L. destruct s; cbn; lia. }
  destruct G as [L E]. split; [done |]. split; [done |]. cbn [XcUpdateCrypto fst]. apply list_eq. intros i.
  rewrite update_slots_lookup. do 16 (destruct i as [|i]; [done |]). cbn [nth map XC_SLOTS]. by destruct i.
Qed.
