(* ===== verification/ExfList.v ===== *)
(** * The interlocked doubly linked lists

    Models [src/ntoskrnl/xb/exflist.c] and the list macros it splices with
    ([InsertHeadList], [InsertTailList], [RemoveHeadList] and [IsListEmpty] of
    [src/sdk/include/xdk/rtlfuncs.h], consistency checks included).  A list is
    a ring through its head in a store of forward and backward links; the
    theorem is that the three exports are the operations of a sequence, with
    the neighbour each of them returns, and that on a well-formed ring no
    consistency check fires. *)

From Stdlib Require Import ZArith Lia.
From stdpp Require Import prelude gmap list numbers sets.
From S2P Require Import Prelude.

Local Open Scope Z_scope.

(** The links by the address of their entry. *)
Record links := Links { Flinks : gmap Z Z; Blinks : gmap Z Z }.

Definition Flink (s : links) (e : Z) : Z := rd (Flinks s) e.
Definition Blink (s : links) (e : Z) : Z := rd (Blinks s) e.
Definition set_Flink (e v : Z) (s : links) : links := Links (<[e := v]> (Flinks s)) (Blinks s).
Definition set_Blink (e v : Z) (s : links) : links := Links (Flinks s) (<[e := v]> (Blinks s)).

(** The macros; [None] is the fail-fast of a corrupt list. *)
Definition InsertHeadList (s : links) (ListHead Entry : Z) : option links :=
  let OldFlink := Flink s ListHead in
  let s := set_Blink Entry ListHead (set_Flink Entry OldFlink s) in
  if negb (Blink s OldFlink =? ListHead) then None
  else Some (set_Flink ListHead Entry (set_Blink OldFlink Entry s)).

Definition InsertTailList (s : links) (ListHead Entry : Z) : option links :=
  let OldBlink := Blink s ListHead in
  let s := set_Blink Entry OldBlink (set_Flink Entry ListHead s) in
  if negb (Flink s OldBlink =? ListHead) then None
  else Some (set_Blink ListHead Entry (set_Flink OldBlink Entry s)).

Definition RemoveHeadList (s : links) (ListHead : Z) : option (links * Z) :=
  let Entry := Flink s ListHead in
  let F := Flink s Entry in
  if negb (Blink s Entry =? ListHead) || negb (Blink s F =? Entry) then None
  else Some (set_Blink F ListHead (set_Flink ListHead F s), Entry).

Definition IsListEmpty (s : links) (ListHead : Z) : bool := Flink s ListHead =? ListHead.

(** The exports, interrupts off throughout; 0 is the null pointer. *)
Definition XbExfInterlockedInsertHeadList (s : links) (ListHead ListEntry : Z) : option (links * Z) :=
  let FirstEntry := Flink s ListHead in
  match InsertHeadList s ListHead ListEntry with
  | None => None
  | Some s => Some (s, if FirstEntry =? ListHead then 0 else FirstEntry)
  end.

Definition XbExfInterlockedInsertTailList (s : links) (ListHead ListEntry : Z) : option (links * Z) :=
  let LastEntry := Blink s ListHead in
  match InsertTailList s ListHead ListEntry with
  | None => None
  | Some s => Some (s, if LastEntry =? ListHead then 0 else LastEntry)
  end.

Definition XbExfInterlockedRemoveHeadList (s : links) (ListHead : Z) : option (links * Z) :=
  if IsListEmpty s ListHead then Some (s, 0) else RemoveHeadList s ListHead.

(** ** Rings *)

(** The entries [l] in order between [prev] and [last]. *)
Fixpoint chain (s : links) (prev : Z) (l : list Z) (last : Z) : Prop :=
  match l with
  | [] => Flink s prev = last /\ Blink s last = prev
  | x :: l' => Flink s prev = x /\ Blink s x = prev /\ chain s x l' last
  end.

(** The list at [h] holds the distinct entries [l]. *)
Definition ring (s : links) (h : Z) (l : list Z) : Prop := NoDup (h :: l) /\ chain s h l h.

Lemma Flink_set s e v x : Flink (set_Flink e v s) x = if decide (x = e) then v else Flink s x.
Proof. unfold Flink, set_Flink, rd. cbn. case_decide; subst; by rewrite ?lookup_insert_eq, ?lookup_insert_ne. Qed.

Lemma Blink_set s e v x : Blink (set_Blink e v s) x = if decide (x = e) then v else Blink s x.
Proof. unfold Blink, set_Blink, rd. cbn. case_decide; subst; by rewrite ?lookup_insert_eq, ?lookup_insert_ne. Qed.

Lemma Flink_set_Blink s e v x : Flink (set_Blink e v s) x = Flink s x.
Proof. done. Qed.

Lemma Blink_set_Flink s e v x : Blink (set_Flink e v s) x = Blink s x.
Proof. done. Qed.

Ltac links :=
  repeat first [rewrite Flink_set_Blink | rewrite Blink_set_Flink | rewrite Flink_set | rewrite Blink_set];
  repeat case_decide; try congruence.

Lemma chain_ext s s' prev l last : (forall x, x ∈ prev :: l -> Flink s' x = Flink s x) ->
  (forall x, x ∈ l ++ [last] -> Blink s' x = Blink s x) -> chain s prev l last -> chain s' prev l last.
Proof.
  revert prev. induction l as [|x l IH]; intros prev HF HB; cbn [chain].
  - rewrite HF, HB by set_solver. done.
  - rewrite HF, HB by set_solver. intros (-> & -> & C). split; [done |]. split; [done |].
    apply IH; [| | done]; intros y Hy; [apply HF | apply HB]; set_solver.
Qed.

Lemma chain_snoc s prev l x last : chain s prev (l ++ [x]) last <-> chain s prev l x /\ Flink s x = last /\ Blink s last = x.
Proof.
  revert prev. induction l as [|y l IH]; intros prev; cbn [chain app]; [tauto |]. rewrite IH. tauto.
Qed.

(** The neighbours of the head. *)
Lemma ring_first s h l : ring s h l -> Flink s h = default h (head l) /\ Blink s (Flink s h) = h.
Proof. intros [_ C]. destruct l as [|x l]; cbn in *; destruct C as (-> & C); [by split | by destruct C]. Qed.

Lemma ring_last s h l : ring s h l -> Blink s h = default h (last l) /\ Flink s (Blink s h) = h.
Proof.
  intros [_ C]. destruct l as [|x l _] using rev_ind; [cbn in *; destruct C as [C1 C2]; by rewrite C2 |].
  apply chain_snoc in C as (_ & C1 & C2). rewrite last_snoc, C2. by split.
Qed.

Lemma insert_head_ring s h l e : ring s h l -> e ∉ h :: l ->
  exists s', InsertHeadList s h e = Some s' /\ ring s' h (e :: l) /\
    (forall x, x ∉ e :: h :: l -> Flink s' x = Flink s x /\ Blink s' x = Blink s x).
Proof.
  intros R He. destruct (ring_first s h l R) as [Hf Hb]. destruct R as [N C]. unfold InsertHeadList. cbv zeta.
  assert (Hfe : Flink s h <> e) by (rewrite Hf; destruct l; set_solver).
  assert (Hck : Blink (set_Blink e h (set_Flink e (Flink s h) s)) (Flink s h) = h) by (by links).
  rewrite Hck, Z.eqb_refl. cbn [negb]. eexists. split; [done |]. apply not_elem_of_cons in He as [Heh Hel]. split; [split |].
  - apply NoDup_cons in N as [? ?]. rewrite !NoDup_cons. set_solver.
  - destruct l as [|x l]; cbn [chain] in *.
    + destruct C as [C1 C2]. rewrite C1. repeat split; by links.
    + destruct C as (C1 & C2 & C3). rewrite C1. do 4 (split; [by links |]).
      apply NoDup_cons in N as [Nh N]. pose proof N as N'. apply NoDup_cons in N' as [Nx N'].
      eapply chain_ext; [| | exact C3]; intros y Hy; links; set_solver.
  - intros x Hx. assert (x <> Flink s h) by (rewrite Hf; destruct l; set_solver). split; links; set_solver.
Qed.

Lemma insert_tail_ring s h l e : ring s h l -> e ∉ h :: l ->
  exists s', InsertTailList s h e = Some s' /\ ring s' h (l ++ [e]) /\
    (forall x, x ∉ e :: h :: l -> Flink s' x = Flink s x /\ Blink s' x = Blink s x).
Proof.
  intros R He. destruct (ring_last s h l R) as [Hb Hf]. destruct R as [N C]. unfold InsertTailList. cbv zeta.
  assert (Hl : default h (last l) ∈ h :: l).
  { destruct (last l) as [y|] eqn:E; [| set_solver]. apply last_Some_elem_of in E. set_solver. }
  assert (Hbe : Blink s h <> e) by (rewrite Hb; set_solver).
  assert (Hck : Flink (set_Blink e (Blink s h) (set_Flink e h s)) (Blink s h) = h) by (by links).
  rewrite Hck, Z.eqb_refl. cbn [negb]. eexists. split; [done |]. apply not_elem_of_cons in He as [Heh Hel]. split; [split |].
  - apply NoDup_cons in N as [Nh N]. rewrite NoDup_cons, NoDup_app. split; [set_solver |]. split; [done |]. split; [set_solver |].
    apply NoDup_singleton.
  - destruct l as [|y l _] using rev_ind.
    + cbn [app chain] in *. destruct C as [C1 C2]. rewrite C2. repeat split; by links.
    + apply chain_snoc in C as (C1 & C2 & C3). rewrite C3. apply chain_snoc. rewrite chain_snoc.
      apply NoDup_cons in N as [Nh N]. apply NoDup_app in N as (_ & Ny & _).
      assert (y <> h /\ y <> e /\ y ∉ l) as (? & ? & ?) by (split_and!; try set_solver; intros ?; by apply (Ny y); set_solver).
      split; [split; [| split] |]; [| by links | by links | split; by links].
      eapply chain_ext; [| | exact C1]; intros z Hz; links; set_solver.
  - intros x Hx. assert (x <> Blink s h) by (rewrite Hb; set_solver). split; links; set_solver.
Qed.

Lemma remove_head_ring s h x l : ring s h (x :: l) ->
  exists s', RemoveHeadList s h = Some (s', x) /\ ring s' h l /\
    (forall y, y ∉ h :: l -> Flink s' y = Flink s y /\ Blink s' y = Blink s y).
Proof.
  intros [N C]. cbn [chain] in C. destruct C as (C1 & C2 & C3). unfold RemoveHeadList. cbv zeta. rewrite C1, C2, Z.eqb_refl. cbn [negb orb].
  apply NoDup_cons in N as [Nh N]. apply NoDup_cons in N as [Nx N].
  assert (Hb : Blink s (Flink s x) = x) by (destruct l as [|y l]; cbn [chain] in C3; destruct C3 as (-> & C3); [done | by destruct C3]).
  rewrite Hb, Z.eqb_refl. cbn [negb]. eexists. split; [done |]. split; [split |].
  - apply NoDup_cons. set_solver.
  - destruct l as [|y l]; cbn [chain] in *.
    + destruct C3 as [-> _]. split; by links.
    + destruct C3 as (-> & _ & C3). split; [by links |]. split; [by links |].
      apply NoDup_cons in N as [Ny N]. eapply chain_ext; [| | exact C3]; intros z Hz; links; set_solver.
  - intros y Hy. assert (y <> Flink s x) by (destruct l as [|z l]; cbn [chain] in C3; destruct C3 as (-> & _); set_solver).
    split; links; set_solver.
Qed.

(** What an export hands back for a neighbour: null for none. *)
Definition neighbour (o : option Z) : Z := default 0 o.

(** C36: On a list that holds the entries [l], with a free entry [e] and no
    entry at address zero, the exports are the operations of a sequence: the
    head insert gives [e :: l] and returns the entry that was first, the tail
    insert gives [l ++ [e]] and returns the one that was last, and the remove
    takes the first entry and returns it, null standing for none each time.
    No consistency check fires, and entries elsewhere keep their links. *)
Theorem exf_list_refines s h l e : ring s h l -> e ∉ h :: l -> h <> 0 ->
  (exists s', XbExfInterlockedInsertHeadList s h e = Some (s', neighbour (head l)) /\ ring s' h (e :: l) /\
     (forall x, x ∉ e :: h :: l -> Flink s' x = Flink s x /\ Blink s' x = Blink s x)) /\
  (exists s', XbExfInterlockedInsertTailList s h e = Some (s', neighbour (last l)) /\ ring s' h (l ++ [e]) /\
     (forall x, x ∉ e :: h :: l -> Flink s' x = Flink s x /\ Blink s' x = Blink s x)) /\
  (exists s', XbExfInterlockedRemoveHeadList s h = Some (s', neighbour (head l)) /\ ring s' h (tail l) /\
     (forall x, x ∉ h :: l -> Flink s' x = Flink s x /\ Blink s' x = Blink s x)).
Proof.
  intros R He Hh. destruct (ring_first s h l R) as [Hf _]. destruct (ring_last s h l R) as [Hb _].
  assert (Hn : forall o, (forall x, o = Some x -> x ∈ l) -> (if default h o =? h then 0 else default h o) = neighbour o).
  { intros [x|] Hx; cbn; [| by rewrite Z.eqb_refl]. destruct (Z.eqb_spec x h) as [-> | _]; [| done].
    destruct R as [N _]. apply NoDup_cons in N as [N _]. exfalso. by apply N, Hx. }
  split; [| split].
  - destruct (insert_head_ring s h l e R He) as (s' & E & R' & K). exists s'. unfold XbExfInterlockedInsertHeadList.
    rewrite E, Hf, Hn; [done |]. intros x Hx. destruct l; [done |]. injection Hx as ->. set_solver.
  - destruct (insert_tail_ring s h l e R He) as (s' & E & R' & K). exists s'. unfold XbExfInterlockedInsertTailList.
    rewrite E, Hb, Hn; [done |]. intros x Hx. by apply last_Some_elem_of.
  - unfold XbExfInterlockedRemoveHeadList, IsListEmpty. rewrite Hf. destruct l as [|x l].
    + cbn. rewrite Z.eqb_refl. by exists s.
    + cbn [head default tail]. cbn. destruct (Z.eqb_spec x h) as [-> | _].
      { destruct R as [N _]. apply NoDup_cons in N as [N _]. set_solver. }
      destruct (remove_head_ring s h x l R) as (s' & E & R' & K). exists s'. rewrite E. split; [done |]. split; [done |].
      intros y Hy. apply K. set_solver.
Qed.

(** ** Witness *)

(** The empty list at 0x1000. *)
Definition empty_at : links := Links {[0x1000 := 0x1000]} {[0x1000 := 0x1000]}.

Lemma exf_list_refines_witness : exists s',
  XbExfInterlockedInsertTailList empty_at 0x1000 0x2000 = Some (s', 0) /\ ring s' 0x1000 [0x2000].
Proof.
  destruct (exf_list_refines empty_at 0x1000 [] 0x2000) as (_ & (s' & E & R & _) & _).
  - split; [apply NoDup_singleton | split; vm_compute; reflexivity].
  - apply not_elem_of_cons. split; [discriminate | apply not_elem_of_nil].
  - discriminate.
  - exists s'. split; [exact E | exact R].
Defined.
