(* ===== verification/PartXbox.v ===== *)
(** * The fixed partitioning of an Xbox disk

    Models [src/hal/halx86/xbox/part_xbox.c]: the HAL's partition services
    wrap the kernel's, detect a disk in the console's format by what its
    first and fourth sectors hold, and answer such a disk from a fixed table.
    The disk ([Disk]) and the kernel's own services are parameters.  The
    theorems say when each service delegates, answers or refuses, and that
    the table's partitions tile the disk past the configuration area. *)

From stdpp Require Import prelude list numbers.
From Stdlib Require Import ZArith Lia.
From S2P Require Import Prelude Bytes.

Local Open Scope Z_scope.

Definition XBOX_SIGNATURE_SECTOR : Z := 3.
Definition XBOX_SIGNATURE : Z := 0x42 + 2 ^ 8 * 0x52 + 2 ^ 16 * 0x46 + 2 ^ 24 * 0x52.
Definition PARTITION_SIGNATURE : Z := 0xAA55.
Definition PARTITION_FAT_16 : Z := 0x04.
Definition PARTITION_FAT32 : Z := 0x0B.

Record xbox_partition := XPart { SectorStart : Z; SectorCount : Z; PartitionType' : Z }.

Definition XboxPartitions : list xbox_partition :=
  [ XPart 0x0055F400 0x0098F800 PARTITION_FAT32;
    XPart 0x00465400 0x000FA000 PARTITION_FAT_16;
    XPart 0x00000400 0x00177000 PARTITION_FAT_16;
    XPart 0x00177400 0x00177000 PARTITION_FAT_16;
    XPart 0x002EE400 0x00177000 PARTITION_FAT_16 ].

Definition XBOX_PARTITION_COUNT : nat := length XboxPartitions.

(** [PARTITION_INFORMATION] and [DRIVE_LAYOUT_INFORMATION]. *)
Record partition_information := PartInfo {
  StartingOffset : Z; PartitionLength : Z; HiddenSectors : Z; PartitionNumber : Z; PartitionType : Z;
  BootIndicator : bool; RecognizedPartition : bool; RewritePartition : bool }.

Record drive_layout := Layout { PartitionCount : Z; Signature : Z; PartitionEntry : list partition_information }.

(** ** The disk

    A read request: whether the request packet could be built, and if so
    the status the driver's dispatch returned, the one in the status block
    once the request completed, and the bytes in the buffer. *)
Class Disk (D : Type) := {
  build_request : D -> Z -> bool;
  call_driver : D -> Z -> Z -> D * Z * Z * list Z
}.

Section services.
Context {D : Type} `{Disk D}.

(** The sector's bytes, on success. *)
Definition HalpXboxReadSector (d : D) (SectorSize SectorOffset : Z) : D * Z * list Z :=
  if negb (build_request d SectorOffset) then (d, STATUS_INSUFFICIENT_RESOURCES, [])
  else
    let '(d, Status, Completed, Data) := call_driver d SectorOffset SectorSize in
    let Status := if Status =? STATUS_PENDING then Completed else Status in
    (d, Status, Data).

(** The last 16-bit word of the sector. *)
Definition last_word (SectorSize : Z) (Data : list Z) : Z :=
  let at_ := Z.to_nat (2 * (SectorSize / 2 - 1)) in
  nth at_ Data 0 + 2 ^ 8 * nth (at_ + 1) Data 0.

(** The status and, when it is a success, the answer; [pool] tells whether
    the sector buffer could be allocated. *)
Definition HalpXboxDeviceHasXboxPartitioning (pool : bool) (d : D) (SectorSize : Z) : D * Z * bool :=
  if negb pool then (d, STATUS_NO_MEMORY, false)
  else
    let '(d, Status, SectorData) := HalpXboxReadSector d SectorSize 0 in
    if negb (NT_SUCCESS Status) then (d, Status, false)
    else if last_word SectorSize SectorData =? PARTITION_SIGNATURE then (d, Status, false)
    else
      let '(d, Status, SectorData) := HalpXboxReadSector d SectorSize (mul32 XBOX_SIGNATURE_SECTOR SectorSize) in
      if negb (NT_SUCCESS Status) then (d, Status, false)
      else (d, Status, XBOX_SIGNATURE =? load32 SectorData).

(** The services; the kernel's own are arguments, each taking the device
    and giving it back with its result. *)
Definition HalpXboxExamineMBR {B} (NtoskrnlExamineMBR : D -> Z -> Z -> D * option B) (pool : bool)
    (d : D) (SectorSize MBRTypeIdentifier : Z) : D * option B :=
  let '(d, Status, HasXboxPartitioning) := HalpXboxDeviceHasXboxPartitioning pool d SectorSize in
  if negb (NT_SUCCESS Status) then (d, None)
  else if negb HasXboxPartitioning then NtoskrnlExamineMBR d SectorSize MBRTypeIdentifier
  else (d, None).

(** The entry for table row [Part]. *)
Definition layout_entry (SectorSize : Z) (Part : nat) (p : xbox_partition) : partition_information :=
  PartInfo (u64 (SectorStart p * SectorSize)) (u64 (SectorCount p * SectorSize)) 0 (Z.of_nat Part + 1) (PartitionType' p)
    false true false.

Definition xbox_layout (SectorSize : Z) : drive_layout :=
  Layout (Z.of_nat XBOX_PARTITION_COUNT) PARTITION_SIGNATURE (imap (layout_entry SectorSize) XboxPartitions).

Definition HalpXboxIoReadPartitionTable (NtoskrnlIoReadPartitionTable : D -> Z -> bool -> D * Z * option drive_layout)
    (pool pool' : bool) (d : D) (SectorSize : Z) (ReturnRecognizedPartitions : bool) : D * Z * option drive_layout :=
  let '(d, Status, HasXboxPartitioning) := HalpXboxDeviceHasXboxPartitioning pool d SectorSize in
  if negb (NT_SUCCESS Status) then (d, Status, None)
  else if negb HasXboxPartitioning then NtoskrnlIoReadPartitionTable d SectorSize ReturnRecognizedPartitions
  else if negb pool' then (d, STATUS_NO_MEMORY, None)
  else (d, STATUS_SUCCESS, Some (xbox_layout SectorSize)).

Definition HalpXboxIoSetPartitionInformation (NtoskrnlIoSetPartitionInformation : D -> Z -> Z -> Z -> D * Z)
    (pool : bool) (d : D) (SectorSize PartitionNumber PartitionType : Z) : D * Z :=
  let '(d, Status, HasXboxPartitioning) := HalpXboxDeviceHasXboxPartitioning pool d SectorSize in
  if negb (NT_SUCCESS Status) then (d, Status)
  else if negb HasXboxPartitioning then NtoskrnlIoSetPartitionInformation d SectorSize PartitionNumber PartitionType
  else (d, STATUS_ACCESS_DENIED).

Definition HalpXboxIoWritePartitionTable (NtoskrnlIoWritePartitionTable : D -> Z -> Z -> Z -> drive_layout -> D * Z)
    (pool : bool) (d : D) (SectorSize SectorsPerTrack NumberOfHeads : Z) (PartitionBuffer : drive_layout) : D * Z :=
  let '(d, Status, HasXboxPartitioning) := HalpXboxDeviceHasXboxPartitioning pool d SectorSize in
  if negb (NT_SUCCESS Status) then (d, Status)
  else if negb HasXboxPartitioning
  then NtoskrnlIoWritePartitionTable d SectorSize SectorsPerTrack NumberOfHeads PartitionBuffer
  else (d, STATUS_ACCESS_DENIED).

End services.

(** ** The dispatch table *)

(** A slot holds the kernel's service or the HAL's wrapper around one. *)
Inductive service := Ntoskrnl | HalpXbox (wrapped : service).

Record hal_dispatch := HalDispatch {
  HalExamineMBR : service; HalIoReadPartitionTable : service;
  HalIoSetPartitionInformation : service; HalIoWritePartitionTable : service }.

Definition HalpXboxInitPartIo (t : hal_dispatch) : hal_dispatch :=
  HalDispatch (HalpXbox (HalExamineMBR t)) (HalpXbox (HalIoReadPartitionTable t))
    (HalpXbox (HalIoSetPartitionInformation t)) (HalpXbox (HalIoWritePartitionTable t)).

(** ** A disk that answers *)

(** Every request is answered from an image that reads leave alone. *)
Class DiskImage (D : Type) `{Disk D} := {
  image : D -> list Z;
  read_succeeds d off : build_request d off = true;
  read_returns d off size :
    let '(d', st, completed, data) := call_driver d off size in
    image d' = image d /\ (st = STATUS_SUCCESS \/ (st = STATUS_PENDING /\ completed = STATUS_SUCCESS)) /\
    data = read (image d) off (Z.to_nat size)
}.

(** The console's format: no boot-record signature ends the first sector and
    the fourth starts with the bytes BRFR. *)
Definition xbox_formatted (img : list Z) (SectorSize : Z) : bool :=
  negb (last_word SectorSize (read img 0 (Z.to_nat SectorSize)) =? PARTITION_SIGNATURE) &&
  (load32 (read img (mul32 3 SectorSize) (Z.to_nat SectorSize)) =? XBOX_SIGNATURE).

Section answered.
Context {D : Type} `{DiskImage D}.

Lemma read_sector_spec (d : D) SectorSize off :
  let '(d', st, data) := HalpXboxReadSector d SectorSize off in
  image d' = image d /\ st = STATUS_SUCCESS /\ data = read (image d) off (Z.to_nat SectorSize).
Proof.
  unfold HalpXboxReadSector. rewrite read_succeeds. cbn [negb]. pose proof (read_returns d off SectorSize) as R.
  destruct (call_driver d off SectorSize) as [[[d' st] completed] data]. destruct R as (R1 & R2 & R3).
  destruct R2 as [-> | [-> ->]]; by cbn.
Qed.

Lemma detection_spec (d : D) SectorSize :
  let '(d', st, xbox) := HalpXboxDeviceHasXboxPartitioning true d SectorSize in
  image d' = image d /\ st = STATUS_SUCCESS /\ xbox = xbox_formatted (image d) SectorSize.
Proof.
  unfold HalpXboxDeviceHasXboxPartitioning, xbox_formatted. cbn [negb].
  pose proof (read_sector_spec d SectorSize 0) as R1. destruct (HalpXboxReadSector d SectorSize 0) as [[d1 st1] data1].
  destruct R1 as (I1 & -> & ->). cbn [NT_SUCCESS negb]. change (NT_SUCCESS STATUS_SUCCESS) with true. cbn [negb].
  destruct (last_word _ _ =? PARTITION_SIGNATURE); [done |]. cbn [negb andb]. unfold XBOX_SIGNATURE_SECTOR.
  pose proof (read_sector_spec d1 SectorSize (mul32 3 SectorSize)) as R2.
  destruct (HalpXboxReadSector d1 SectorSize (mul32 3 SectorSize)) as [[d2 st2] data2]. destruct R2 as (I2 & -> & ->).
  change (NT_SUCCESS STATUS_SUCCESS) with true. cbn [negb]. rewrite I1 in *. split; [done |]. split; [done |]. apply Z.eqb_sym.
Qed.

(** On a disk that answers its reads, the four services act on the
    format alone.  A disk in the console's format is answered from the fixed
    table, examining its boot record yields nothing, and changing its
    partitions is denied with the disk's contents untouched; on any other
    disk each service is the kernel's own, called with the same arguments on
    the disk as it was. *)
Theorem partition_services {B} (d : D) SectorSize
    (mbr : D -> Z -> Z -> D * option B) (table : D -> Z -> bool -> D * Z * option drive_layout)
    (set : D -> Z -> Z -> Z -> D * Z) (wr : D -> Z -> Z -> Z -> drive_layout -> D * Z) id rec num ty spt heads buf :
  exists d', image d' = image d /\
  if xbox_formatted (image d) SectorSize then
    HalpXboxExamineMBR mbr true d SectorSize id = (d', None) /\
    HalpXboxIoReadPartitionTable table true true d SectorSize rec = (d', STATUS_SUCCESS, Some (xbox_layout SectorSize)) /\
    HalpXboxIoSetPartitionInformation set true d SectorSize num ty = (d', STATUS_ACCESS_DENIED) /\
    HalpXboxIoWritePartitionTable wr true d SectorSize spt heads buf = (d', STATUS_ACCESS_DENIED)
  else
    HalpXboxExamineMBR mbr true d SectorSize id = mbr d' SectorSize id /\
    HalpXboxIoReadPartitionTable table true true d SectorSize rec = table d' SectorSize rec /\
    HalpXboxIoSetPartitionInformation set true d SectorSize num ty = set d' SectorSize num ty /\
    HalpXboxIoWritePartitionTable wr true d SectorSize spt heads buf = wr d' SectorSize spt heads buf.
Proof.
  unfold HalpXboxExamineMBR, HalpXboxIoReadPartitionTable, HalpXboxIoSetPartitionInformation, HalpXboxIoWritePartitionTable.
  pose proof (detection_spec d SectorSize) as S. destruct (HalpXboxDeviceHasXboxPartitioning true d SectorSize) as [[d' st] xbox].
  destruct S as (I & -> & ->). exists d'. split; [done |]. change (NT_SUCCESS STATUS_SUCCESS) with true. cbn [negb].
  by destruct (xbox_formatted (image d) SectorSize).
Qed.

End answered.

(** The byte range of an entry. *)
Definition covers (b : Z) (p : partition_information) : bool :=
  (StartingOffset p <=? b) && (b <? StartingOffset p + PartitionLength p).

Lemma layout_entries SectorSize : 0 < SectorSize < 2 ^ 32 ->
  PartitionEntry (xbox_layout SectorSize) =
    [ PartInfo (0x0055F400 * SectorSize) (0x0098F800 * SectorSize) 0 1 PARTITION_FAT32 false true false;
      PartInfo (0x00465400 * SectorSize) (0x000FA000 * SectorSize) 0 2 PARTITION_FAT_16 false true false;
      PartInfo (0x00000400 * SectorSize) (0x00177000 * SectorSize) 0 3 PARTITION_FAT_16 false true false;
      PartInfo (0x00177400 * SectorSize) (0x00177000 * SectorSize) 0 4 PARTITION_FAT_16 false true false;
      PartInfo (0x002EE400 * SectorSize) (0x00177000 * SectorSize) 0 5 PARTITION_FAT_16 false true false ].
Proof.
  intros Hs. unfold xbox_layout, layout_entry, u64. cbn [PartitionEntry XboxPartitions imap SectorStart SectorCount PartitionType' Z.of_nat compose].
  rewrite !Z.mod_small by lia. done.
Qed.

(** Comparisons settled by the arithmetic of the context. *)
Ltac decide_ranges :=
  repeat match goal with
  | |- context [?x <=? ?y] => first [rewrite (proj2 (Z.leb_le x y)) by lia | rewrite (proj2 (Z.leb_gt x y)) by lia]
  | |- context [?x <? ?y] => first [rewrite (proj2 (Z.ltb_lt x y)) by lia | rewrite (proj2 (Z.ltb_ge x y)) by lia]
  end; cbn [andb length].

(** C37: For every sector size the table's partitions tile the disk: no
    offset or length wraps in 64 bits, and every byte from sector 0x400 up to
    sector 0xEEEC00 lies in exactly one of them, none outside that range in
    any; the configuration sectors in front stay out of every partition. *)
Theorem xbox_layout_tiles SectorSize b : 0 < SectorSize < 2 ^ 32 ->
  length (List.filter (covers b) (PartitionEntry (xbox_layout SectorSize))) =
    (if (0x400 * SectorSize <=? b) && (b <? 0xEEEC00 * SectorSize) then 1%nat else 0%nat) /\
  Forall (fun p => StartingOffset p + PartitionLength p < 2 ^ 63) (PartitionEntry (xbox_layout SectorSize)).
Proof.
  intros Hs. rewrite layout_entries by done. split.
  - unfold covers. cbn [List.filter StartingOffset PartitionLength].
    destruct (Z.lt_ge_cases b (0x400 * SectorSize)); [by decide_ranges |].
    destruct (Z.lt_ge_cases b (0x177400 * SectorSize)); [by decide_ranges |].
    destruct (Z.lt_ge_cases b (0x2EE400 * SectorSize)); [by decide_ranges |].
    destruct (Z.lt_ge_cases b (0x465400 * SectorSize)); [by decide_ranges |].
    destruct (Z.lt_ge_cases b (0x55F400 * SectorSize)); [by decide_ranges |].
    by destruct (Z.lt_ge_cases b (0xEEEC00 * SectorSize)); decide_ranges.
  - repeat constructor; cbn; lia.
Qed.

(** ** Witnesses *)

#[export] Instance plain_disk : Disk (list Z) := {
  build_request _ _ := true;
  call_driver d off size := (d, STATUS_PENDING, STATUS_SUCCESS, read d off (Z.to_nat size))
}.

#[export] Instance plain_disk_image : DiskImage (list Z).
Proof. refine {| image d := d |}; [done | intros d off size; cbn; auto]. Defined.

Lemma partition_services_witness :
  HalpXboxIoSetPartitionInformation (fun d _ _ _ => (d, STATUS_SUCCESS)) true
    (replicate 1536 0 ++ [0x42; 0x52; 0x46; 0x52] ++ replicate 508 0) 512 1 4 =
    (replicate 1536 0 ++ [0x42; 0x52; 0x46; 0x52] ++ replicate 508 0, STATUS_ACCESS_DENIED).
Proof.
  set (d := replicate 1536 0 ++ [0x42; 0x52; 0x46; 0x52] ++ replicate 508 0).
  destruct (partition_services (B := unit) d 512 (fun d _ _ => (d, None)) (fun d _ _ => (d, STATUS_SUCCESS, None))
    (fun d _ _ _ => (d, STATUS_SUCCESS)) (fun d _ _ _ _ => (d, STATUS_SUCCESS)) 0 true 1 4 0 0 (xbox_layout 512)) as (d' & I & T).
  assert (E : xbox_formatted (image d) 512 = true) by (vm_compute; reflexivity). rewrite E in T.
  destruct T as (_ & _ & T & _). rewrite T. f_equal. exact I.
Defined.

Lemma xbox_layout_tiles_witness :
  length (List.filter (covers (0x465400 * 512)) (PartitionEntry (xbox_layout 512))) = 1%nat.
Proof. rewrite (proj1 (xbox_layout_tiles 512 (0x465400 * 512) ltac:(lia))). reflexivity. Defined.

(** A disk in the console's format, and one with a boot record, are
    told apart. *)
Lemma formats_told_apart :
  xbox_formatted (replicate (3 * 512) 0 ++ [0x42; 0x52; 0x46; 0x52] ++ replicate 508 0) 512 = true /\
  xbox_formatted (replicate 510 0 ++ [0x55; 0xAA] ++ replicate 1024 0 ++ [0x42; 0x52; 0x46; 0x52]) 512 = false.
Proof. split; vm_compute; reflexivity. Qed.
