(* ===== verification/XdvdDir.v ===== *)
(** * Directory tables of the Xbox disc file system

    Models the part of [src/drivers/filesystems/xdvdfs/xdvdfs.c] that reads a
    directory table already in memory: the entries, the case-insensitive
    name comparison [XdvdAsciiCompare], the lookup [XdvdFindInTable] and the
    enumeration [XdvdEnumerateTable].  A table is a byte string that holds a
    binary search tree: an entry names its children by their offset in units
    of four bytes.  The theorems relate the two walks to the tree a table
    represents, show that the enumeration returns on every table whatever
    its bytes, and that a lookup either answers within a number of steps the
    size of the table gives or never answers. *)

From stdpp Require Import prelude list numbers.
From Stdlib Require Import ZArith Lia.
From S2P Require Import Prelude Bytes.

Local Open Scope Z_scope.

Definition XDVD_SECTOR_SIZE : Z := 2048.
Definition XDVD_SECTOR_SHIFT : Z := 11.
Definition XDVD_ATTR_DIRECTORY : Z := 0x10.
Definition XDVD_DIRENT_FIXED_SIZE : Z := 0x0E.
Definition XDVD_DIRENT_EMPTY_SENTINEL : Z := 0xFF.

Definition STATUS_BUFFER_OVERFLOW : Z := 0x80000005.

(** ** Entries *)

Record XDVD_DIRENT := Dirent {
  LeftOffset : Z;
  RightOffset : Z;
  DataSector : Z;
  DataSize : Z;
  Attributes : Z;
  NameLength : Z;
  Name : list Z
}.

(** The entry a pointer to offset [off] of the table reads. *)
Definition dirent_at (T : list Z) (off : Z) : XDVD_DIRENT :=
  let d := drop (Z.to_nat off) T in
  {| LeftOffset := load16 d;
     RightOffset := load16 (drop 2 d);
     DataSector := load32 (drop 4 d);
     DataSize := load32 (drop 8 d);
     Attributes := nth 12 d 0;
     NameLength := nth 13 d 0;
     Name := take (Z.to_nat (nth 13 d 0)) (drop 14 d) |}.

(** The three guards both walks apply to an offset: the fixed part lies in
    the table, the slot is not empty, the name lies in the table.  Offsets
    are at most four times a 16-bit link, so the sums do not wrap. *)
Definition dirent_ok (T : list Z) (off : Z) : bool :=
  negb (Z.of_nat (length T) <? off + XDVD_DIRENT_FIXED_SIZE) &&
  negb (NameLength (dirent_at T off) =? XDVD_DIRENT_EMPTY_SENTINEL) &&
  negb (Z.of_nat (length T) <? off + XDVD_DIRENT_FIXED_SIZE + NameLength (dirent_at T off)).

(** The table offset a link stands for; 0 and 0xFFFF stand for no child. *)
Definition child (link : Z) : option Z :=
  if (link =? 0) || (link =? 0xFFFF) then None else Some (link * 4).

(** ** Names *)

Definition upper (c : Z) : Z := if (97 <=? c) && (c <=? 122) then c - 32 else c.

Fixpoint XdvdAsciiCompare (A B : list Z) : Z :=
  match A, B with
  | ca :: A', cb :: B' =>
      if negb (upper ca =? upper cb) then upper ca - upper cb else XdvdAsciiCompare A' B'
  | [], [] => 0
  | [], _ :: _ => -1
  | _ :: _, [] => 1
  end.

(** ** Lookup *)

Inductive verdict := Found (off : Z) | Missing | Goto (off : Z).

(** One round of the loop, at offset [off]. *)
Definition find_step (T : list Z) (name : list Z) (off : Z) : verdict :=
  if negb (dirent_ok T off) then Missing
  else
    let d := dirent_at T off in
    let cmp := XdvdAsciiCompare name (Name d) in
    if cmp =? 0 then Found off
    else match child (if cmp <? 0 then LeftOffset d else RightOffset d) with
         | None => Missing
         | Some off' => Goto off'
         end.

Fixpoint find_loop (fuel : nat) (T : list Z) (name : list Z) (off : Z) : option (option Z) :=
  match fuel with
  | O => None
  | S fuel' =>
      match find_step T name off with
      | Found o => Some (Some o)
      | Missing => Some None
      | Goto o => find_loop fuel' T name o
      end
  end.

(** [None] when the rounds allowed are used up; otherwise the offset of the
    entry found, or [Some None] for the null pointer. *)
Definition XdvdFindInTable (fuel : nat) (T : list Z) (name : list Z) : option (option Z) :=
  find_loop fuel T name 0.

(** Enough rounds for every table that holds a tree: one for each aligned
    offset of the table. *)
Definition find_fuel (T : list Z) : nat := S (length T / 4).

(** ** Enumeration *)

Record ENTRY := Entry {
  E_DataSector : Z;
  E_DataSize : Z;
  E_Attributes : Z;
  E_NameLength : Z;
  E_Name : list Z
}.

Definition entry_of (d : XDVD_DIRENT) : ENTRY :=
  Entry (DataSector d) (DataSize d) (Attributes d) (NameLength d) (Name d).

Definition STACK_SIZE : nat := 512.

(** A child goes on the stack when there is one and the stack has room. *)
Definition push_child (link : Z) (stack : list Z) : list Z :=
  match child link with
  | Some off => if (length stack <? STACK_SIZE)%nat then off :: stack else stack
  | None => stack
  end.

Fixpoint enum_loop (fuel : nat) (T : list Z) (Cap : nat) (stack : list Z) (out : list ENTRY)
    : option (Z * list ENTRY) :=
  match fuel with
  | O => None
  | S fuel' =>
      match stack with
      | [] => Some (STATUS_SUCCESS, out)
      | off :: rest =>
          if negb (dirent_ok T off) then enum_loop fuel' T Cap rest out
          else if (Cap <=? length out)%nat then Some (STATUS_BUFFER_OVERFLOW, out)
          else
            let d := dirent_at T off in
            enum_loop fuel' T Cap (push_child (LeftOffset d) (push_child (RightOffset d) rest)) (out ++ [entry_of d])
      end
  end.

(** The entries written and the status; every table is done in
    [2 * Cap + 2] rounds. *)
Definition XdvdEnumerateTable (T : list Z) (Cap : nat) : option (Z * list ENTRY) :=
  enum_loop (2 * Cap + 2) T Cap [0] [].

(** The capacity the directory query reserves for a table. *)
Definition enum_cap (T : list Z) : nat := length T / 16 + 1.

(** ** The tree a table holds *)

Inductive tree := Leaf | Node (l : tree) (off : Z) (d : XDVD_DIRENT) (r : tree).

(** The tree below a link. *)
Inductive rep (T : list Z) : option Z -> tree -> Prop :=
| rep_none : rep T None Leaf
| rep_hole off : dirent_ok T off = false -> rep T (Some off) Leaf
| rep_node off l r : dirent_ok T off = true ->
    rep T (child (LeftOffset (dirent_at T off))) l ->
    rep T (child (RightOffset (dirent_at T off))) r ->
    rep T (Some off) (Node l off (dirent_at T off) r).

(** The same, computed to a bounded depth. *)
Fixpoint build (depth : nat) (T : list Z) (o : option Z) : option tree :=
  match o with
  | None => Some Leaf
  | Some off =>
      if negb (dirent_ok T off) then Some Leaf
      else match depth with
           | O => None
           | S n =>
               match build n T (child (LeftOffset (dirent_at T off))),
                     build n T (child (RightOffset (dirent_at T off))) with
               | Some l, Some r => Some (Node l off (dirent_at T off) r)
               | _, _ => None
               end
           end
  end.

(** Entries in the order the enumeration visits them. *)
Fixpoint preorder (t : tree) : list (Z * XDVD_DIRENT) :=
  match t with
  | Leaf => []
  | Node l off d r => (off, d) :: preorder l ++ preorder r
  end.

Fixpoint height (t : tree) : nat :=
  match t with
  | Leaf => O
  | Node l _ _ r => S (height l `max` height r)
  end.

(** The name as lookups compare it. *)
Definition key (d : XDVD_DIRENT) : list Z := map upper (Name d).

Fixpoint lex (a b : list Z) : comparison :=
  match a, b with
  | [], [] => Eq
  | [], _ :: _ => Lt
  | _ :: _, [] => Gt
  | x :: a', y :: b' => match x ?= y with Eq => lex a' b' | c => c end
  end.

(** The tree is a search tree for [lex] on keys. *)
Fixpoint ordered (t : tree) : Prop :=
  match t with
  | Leaf => True
  | Node l _ d r =>
      Forall (fun p => lex (key p.2) (key d) = Lt) (preorder l) /\
      Forall (fun p => lex (key d) (key p.2) = Lt) (preorder r) /\ ordered l /\ ordered r
  end.

(** No two entries overlap in their fixed parts. *)
Definition apart (t : tree) : Prop :=
  forall p q, p ∈ preorder t -> q ∈ preorder t -> p.1 < q.1 -> p.1 + XDVD_DIRENT_FIXED_SIZE <= q.1.

(** The table of a directory as the mastering tools write it. *)
Definition holds (T : list Z) (t : tree) : Prop := rep T (Some 0) t /\ ordered t.

(** ** The comparison *)

Lemma lex_refl a : lex a a = Eq.
Proof. induction a as [|x a IH]; [done |]. cbn. by rewrite Z.compare_refl. Qed.

Lemma lex_eq a b : lex a b = Eq <-> a = b.
Proof.
  split; [| intros ->; apply lex_refl]. revert b. induction a as [|x a IH]; intros [|y b]; cbn; try done.
  destruct (Z.compare_spec x y) as [-> | |]; try done. intros H. by rewrite (IH b H).
Qed.

Lemma lex_antisym a b : lex b a = CompOpp (lex a b).
Proof.
  revert b. induction a as [|x a IH]; intros [|y b]; cbn; try done.
  rewrite (Z.compare_antisym x y). destruct (x ?= y) eqn:E; cbn; auto.
Qed.

Lemma lex_trans a b c : lex a b = Lt -> lex b c = Lt -> lex a c = Lt.
Proof.
  revert b c. induction a as [|x a IH]; intros [|y b] [|z c]; cbn; try done.
  destruct (Z.compare_spec x y), (Z.compare_spec y z), (Z.compare_spec x z); try done; try lia. apply IH.
Qed.

(** The sign of the comparison is the lexicographic order of the folded
    names, the shorter of two first when it is a prefix. *)
Lemma compare_lex A B : (XdvdAsciiCompare A B ?= 0) = lex (map upper A) (map upper B).
Proof.
  revert B. induction A as [|a A IH]; intros [|b B]; cbn; try done.
  destruct (Z.compare_spec (upper a) (upper b)) as [E | E | E]; cbn.
  - rewrite E, Z.eqb_refl. cbn. apply IH.
  - destruct (Z.eqb_spec (upper a) (upper b)); [lia |]. cbn. apply Z.compare_lt_iff. lia.
  - destruct (Z.eqb_spec (upper a) (upper b)); [lia |]. cbn. apply Z.compare_gt_iff. lia.
Qed.

(** What one round decides at an entry, by the order of the names. *)
Lemma find_step_ok T name off : dirent_ok T off = true ->
  find_step T name off =
  match lex (map upper name) (key (dirent_at T off)) with
  | Eq => Found off
  | Lt => from_option Goto Missing (child (LeftOffset (dirent_at T off)))
  | Gt => from_option Goto Missing (child (RightOffset (dirent_at T off)))
  end.
Proof.
  intros H. unfold find_step, key. rewrite H. cbn [negb]. rewrite <- compare_lex.
  destruct (Z.compare_spec (XdvdAsciiCompare name (Name (dirent_at T off))) 0) as [E | E | E].
  - by rewrite E.
  - destruct (Z.eqb_spec (XdvdAsciiCompare name (Name (dirent_at T off))) 0); [lia |].
    rewrite (proj2 (Z.ltb_lt _ _) E). by destruct (child _).
  - destruct (Z.eqb_spec (XdvdAsciiCompare name (Name (dirent_at T off))) 0); [lia |].
    destruct (Z.ltb_spec (XdvdAsciiCompare name (Name (dirent_at T off))) 0); [lia |]. by destruct (child _).
Qed.

Lemma find_step_hole T name off : dirent_ok T off = false -> find_step T name off = Missing.
Proof. intros H. unfold find_step. by rewrite H. Qed.

(** ** Trees *)

Lemma build_rep n T o t : build n T o = Some t -> rep T o t.
Proof.
  revert o t. induction n as [|n IH]; intros [off|] t; cbn [build].
  1,3: destruct (dirent_ok T off) eqn:E; cbn [negb].
  - done.
  - intros [= <-]. by constructor.
  - destruct (build n T (child (LeftOffset (dirent_at T off)))) as [l|] eqn:El; [| done].
    destruct (build n T (child (RightOffset (dirent_at T off)))) as [r|] eqn:Er; [| done]. intros [= <-]. constructor; auto.
  - intros [= <-]. by constructor.
  - intros [= <-]. constructor.
  - intros [= <-]. constructor.
Qed.

Lemma rep_det T o t : rep T o t -> forall t', rep T o t' -> t = t'.
Proof.
  induction 1 as [|off E|off l r E _ IHl _ IHr]; intros t' H; inversion H; subst; try done; try congruence.
  by rewrite (IHl _ ltac:(eassumption)), (IHr _ ltac:(eassumption)).
Qed.

(** An offset an entry can have: aligned, with its fixed part inside. *)
Definition aligned_in (T : list Z) (off : Z) : Prop :=
  0 <= off /\ off mod 4 = 0 /\ off + XDVD_DIRENT_FIXED_SIZE <= Z.of_nat (length T).

Lemma dirent_ok_in T off : dirent_ok T off = true -> off + XDVD_DIRENT_FIXED_SIZE <= Z.of_nat (length T).
Proof. unfold dirent_ok. rewrite !andb_true_iff, !negb_true_iff, !Z.ltb_ge. tauto. Qed.

Lemma child_aligned link off : 0 <= link -> child link = Some off -> 0 <= off /\ off mod 4 = 0.
Proof.
  unfold child. destruct (_ || _); [done |]. intros H [= <-]. rewrite Z.mod_mul by lia. lia.
Qed.

Lemma dirent_links T off : bytes T -> 0 <= LeftOffset (dirent_at T off) /\ 0 <= RightOffset (dirent_at T off).
Proof.
  intros H. cbn. split.
  - apply load16_range. auto with bytes.
  - apply load16_range. auto with bytes.
Qed.

(** Distinct aligned offsets of a table number at most a quarter of its
    length. *)
Lemma aligned_count T l : NoDup l -> Forall (aligned_in T) l -> (length l <= length T / 4)%nat.
Proof.
  intros Hn Hf. rewrite <- (length_seq (length T / 4) 0), <- (length_map (fun o => Z.to_nat (o / 4)) l).
  apply NoDup_incl_length.
  - apply NoDup_ListNoDup, NoDup_fmap_2_strong; [| done]. intros x y Hx Hy E.
    rewrite list.Forall_forall in Hf. destruct (Hf x Hx) as (? & Mx & _), (Hf y Hy) as (? & My & _).
    apply Z2Nat.inj in E; [| apply Z.div_pos; lia | apply Z.div_pos; lia].
    rewrite (Z.div_mod x 4), (Z.div_mod y 4) by lia. lia.
  - intros k Hk. apply in_map_iff in Hk as (o & <- & Ho). rewrite <- list_elem_of_In in Ho.
    rewrite list.Forall_forall in Hf. destruct (Hf o Ho) as (? & Mo & L). apply in_seq.
    unfold XDVD_DIRENT_FIXED_SIZE in L. pose proof (Z.div_mod o 4 ltac:(lia)).
    pose proof (Nat.div_mod (length T) 4 ltac:(lia)). pose proof (Nat.mod_upper_bound (length T) 4 ltac:(lia)). lia.
Qed.

Lemma rep_height_below T : bytes T -> forall o t, rep T o t ->
  (forall off, o = Some off -> 0 <= off /\ off mod 4 = 0) ->
  forall A, NoDup A -> Forall (aligned_in T) A ->
  (forall a, a ∈ A -> exists ta, rep T (Some a) ta /\ (length (preorder t) < length (preorder ta))%nat) ->
  (height t + length A <= length T / 4)%nat.
Proof.
  intros HT o t H. induction H as [|off E|off l r E Hl IHl Hr IHr]; intros Ho A Hn Hf HA; cbn [height].
  - by apply aligned_count.
  - by apply aligned_count.
  - destruct (Ho off eq_refl) as [O1 O2].
    assert (Hnin : off ∉ A).
    { intros Hin. destruct (HA _ Hin) as (ta & Ra & L).
      assert (ta = Node l off (dirent_at T off) r) as -> by (eapply rep_det; [exact Ra | by constructor]). lia. }
    assert (Hn' : NoDup (off :: A)) by by constructor.
    assert (Hf' : Forall (aligned_in T) (off :: A)) by (constructor; [split_and!; auto; by apply dirent_ok_in | done]).
    assert (HA' : forall a t', (t' = l \/ t' = r) -> a ∈ off :: A ->
      exists ta, rep T (Some a) ta /\ (length (preorder t') < length (preorder ta))%nat).
    { intros a t' Ht' Hin. apply elem_of_cons in Hin as [-> | Hin].
      - exists (Node l off (dirent_at T off) r). split; [by constructor |]. cbn. rewrite length_app. destruct Ht' as [-> | ->]; lia.
      - destruct (HA _ Hin) as (ta & Ra & L). exists ta. split; [done |]. cbn in L. rewrite length_app in L. destruct Ht' as [-> | ->]; lia. }
    destruct (dirent_links T off HT) as [L1 L2].
    pose proof (IHl (fun o' Eo => child_aligned _ _ L1 Eo) (off :: A) Hn' Hf' (fun a => HA' a l (or_introl eq_refl))).
    pose proof (IHr (fun o' Eo => child_aligned _ _ L2 Eo) (off :: A) Hn' Hf' (fun a => HA' a r (or_intror eq_refl))).
    cbn [length] in *. lia.
Qed.

(** A tree held by a table is no higher than a quarter of its length. *)
Lemma rep_height T t : bytes T -> rep T (Some 0) t -> (height t <= length T / 4)%nat.
Proof.
  intros HT H. pose proof (rep_height_below T HT _ _ H) as L. specialize (L ltac:(by intros ? [= <-]) []).
  cbn in L. rewrite Nat.add_0_r in L. apply L; [constructor | constructor |]. intros a Ha. by apply not_elem_of_nil in Ha.
Qed.

(** ** Lookup *)

(** The answer of a search: an entry of the tree with the name, or none
    has it. *)
Definition answers (t : tree) (name : list Z) (r : option Z) : Prop :=
  match r with
  | Some off => exists d, (off, d) ∈ preorder t /\ key d = map upper name
  | None => forall p, p ∈ preorder t -> key p.2 <> map upper name
  end.

(** Entries on the side the walk leaves do not have the name. *)
Lemma ordered_side l off d r name : ordered (Node l off d r) ->
  (lex (map upper name) (key d) = Lt -> forall p, p ∈ preorder r -> key p.2 <> map upper name) /\
  (lex (map upper name) (key d) = Gt -> forall p, p ∈ preorder l -> key p.2 <> map upper name).
Proof.
  intros (Hl & Hr & _ & _). rewrite list.Forall_forall in Hl, Hr. split; intros E p Hp Ek.
  - specialize (Hr _ Hp). rewrite Ek in Hr. pose proof (lex_trans _ _ _ E Hr) as F. by rewrite lex_refl in F.
  - specialize (Hl _ Hp). rewrite Ek in Hl. congruence.
Qed.

Lemma answers_left l off d r name a : ordered (Node l off d r) -> lex (map upper name) (key d) = Lt ->
  answers l name a -> answers (Node l off d r) name a.
Proof.
  intros Ho E. destruct a as [o|]; cbn.
  - intros (d' & Hin & Ek). exists d'. split; [| done]. apply list_elem_of_further, elem_of_app. by left.
  - intros Hl p [-> | [Hp | Hp]%elem_of_app]%elem_of_cons; [| auto |].
    + cbn. intros Ek. rewrite Ek, lex_refl in E. done.
    + by apply (proj1 (ordered_side _ _ _ _ name Ho) E).
Qed.

Lemma answers_right l off d r name a : ordered (Node l off d r) -> lex (map upper name) (key d) = Gt ->
  answers r name a -> answers (Node l off d r) name a.
Proof.
  intros Ho E. destruct a as [o|]; cbn.
  - intros (d' & Hin & Ek). exists d'. split; [| done]. apply list_elem_of_further, elem_of_app. by right.
  - intros Hl p [-> | [Hp | Hp]%elem_of_app]%elem_of_cons; [| | auto].
    + cbn. intros Ek. rewrite Ek, lex_refl in E. done.
    + by apply (proj2 (ordered_side _ _ _ _ name Ho) E).
Qed.

(** A walk that starts at the root of a search tree answers for it. *)
Lemma find_loop_tree T name o t : rep T o t -> ordered t -> forall off, o = Some off ->
  forall fuel, (height t < fuel)%nat -> exists a, find_loop fuel T name off = Some a /\ answers t name a.
Proof.
  induction 1 as [|off E|off l r E Hl IHl Hr IHr]; intros Ho off' Eo [|fuel] Hf; try lia; try done;
    injection Eo as <-; cbn [find_loop].
  - exists None. rewrite find_step_hole by done. split; [done |]. intros p Hp. by apply not_elem_of_nil in Hp.
  - rewrite find_step_ok by done. cbn [height] in Hf. pose proof Ho as (_ & _ & Ol & Or).
    destruct (lex (map upper name) (key (dirent_at T off))) eqn:El.
    + exists (Some off). split; [done |]. cbn. exists (dirent_at T off). apply lex_eq in El. split; [left | done].
    + destruct (child (LeftOffset (dirent_at T off))) as [o|] eqn:Ec; cbn.
      * destruct (IHl Ol o eq_refl fuel ltac:(lia)) as (a & Ea & Ha). exists a. split; [done | by apply answers_left].
      * exists None. split; [done |]. apply answers_left; [done..|]. inversion Hl; subst.
        intros p Hp. by apply not_elem_of_nil in Hp.
    + destruct (child (RightOffset (dirent_at T off))) as [o|] eqn:Ec; cbn.
      * destruct (IHr Or o eq_refl fuel ltac:(lia)) as (a & Ea & Ha). exists a. split; [done | by apply answers_right].
      * exists None. split; [done |]. apply answers_right; [done..|]. inversion Hr; subst.
        intros p Hp. by apply not_elem_of_nil in Hp.
Qed.

(** Names in a search tree are distinct, so a name has one entry. *)
Lemma ordered_keys t p q : ordered t -> p ∈ preorder t -> q ∈ preorder t -> key p.2 = key q.2 -> p = q.
Proof.
  induction t as [|l IHl off d r IHr]; [by intros _ ?%not_elem_of_nil |].
  intros Ho Hp Hq E. pose proof (ordered_side _ _ _ _ (Name p.2) Ho) as [S1 S2].
  pose proof (ordered_side _ _ _ _ (Name q.2) Ho) as [S3 S4]. destruct Ho as (Fl & Fr & Ol & Or).
  rewrite list.Forall_forall in Fl; rewrite list.Forall_forall in Fr. unfold key in *; cbn [preorder] in Hp, Hq.
  apply elem_of_cons in Hp as [-> | [Hp | Hp]%elem_of_app]; apply elem_of_cons in Hq as [-> | [Hq | Hq]%elem_of_app];
    auto; exfalso.
  - specialize (Fl _ Hq). cbn in *. by rewrite E, lex_refl in Fl.
  - specialize (Fr _ Hq). cbn in *. by rewrite E, lex_refl in Fr.
  - specialize (Fl _ Hp). cbn in *. by rewrite E, lex_refl in Fl.
  - by apply (S1 (Fl _ Hp) q Hq).
  - specialize (Fr _ Hp). cbn in *. by rewrite E, lex_refl in Fr.
  - by apply (S3 (Fl _ Hq) p Hp).
Qed.

Lemma find_loop_mono T name n m off r : (n <= m)%nat -> find_loop n T name off = Some r -> find_loop m T name off = Some r.
Proof.
  revert m off. induction n as [|n IH]; intros [|m] off L; try done; try lia. cbn [find_loop].
  destruct (find_step T name off); auto. apply IH. lia.
Qed.

(** The offset the walk is at after [n] rounds, while it goes on. *)
Fixpoint walk (T : list Z) (name : list Z) (n : nat) (off : Z) : option Z :=
  match n with
  | O => Some off
  | S n' => match find_step T name off with Goto o => walk T name n' o | _ => None end
  end.

Lemma find_loop_walk T name n off : find_loop n T name off = None <-> is_Some (walk T name n off).
Proof.
  revert off. induction n as [|n IH]; intros off; cbn; [split; [intros; by eexists | done] |].
  destruct (find_step T name off); [| | apply IH]; split; try done; intros [? ?]; done.
Qed.

Lemma walk_add T name a b off : walk T name (a + b) off = walk T name a off ≫= walk T name b.
Proof. revert off. induction a as [|a IH]; intros off; cbn; [done |]. destruct (find_step T name off); auto. Qed.

Lemma walk_prefix T name a b off : (a <= b)%nat -> is_Some (walk T name b off) -> is_Some (walk T name a off).
Proof.
  intros L. replace b with (a + (b - a))%nat by lia. rewrite walk_add. destruct (walk T name a off); [by eexists |].
  cbn. by intros [? ?].
Qed.

(** Every offset the walk leaves is that of an entry. *)
Lemma walk_aligned T name n off x : bytes T -> 0 <= off -> off mod 4 = 0 ->
  walk T name n off = Some x -> is_Some (walk T name (S n) off) -> aligned_in T x.
Proof.
  intros HT. revert off. induction n as [|n IH]; intros off H0 Hm; cbn.
  - intros [= <-]. destruct (find_step T name off) eqn:E; try by intros [? ?]. intros _. unfold find_step in E.
    destruct (dirent_ok T off) eqn:Eo; [| done]. split_and!; auto. by apply dirent_ok_in.
  - destruct (find_step T name off) as [| |o] eqn:E; try done. unfold find_step in E.
    destruct (dirent_ok T off) eqn:Eo; [| done]. cbn [negb] in E. destruct (_ =? 0); [done |].
    destruct (child _) as [o'|] eqn:Ec; [| done]. injection E as ->. destruct (dirent_links T off HT) as [L1 L2].
    apply child_aligned in Ec as [A1 A2]; [apply (IH o A1 A2) | by destruct (_ <? _)].
Qed.

(** A walk that comes back to an offset goes on for ever. *)
Lemma walk_cycle T name off i k x : (0 < k)%nat -> walk T name i off = Some x -> walk T name (i + k) off = Some x ->
  forall n, is_Some (walk T name n off).
Proof.
  intros Hk Hi Hik n. rewrite walk_add, Hi in Hik. cbn in Hik.
  assert (Hq : forall q, walk T name (q * k) x = Some x).
  { induction q as [|q IH]; [done |]. cbn [Nat.mul]. rewrite walk_add, Hik. done. }
  apply (walk_prefix T name n (i + n * k)); [nia |]. rewrite walk_add, Hi. cbn. rewrite Hq. by eexists.
Qed.

Lemma repeated (l : list Z) : ~ NoDup l -> exists i j x, (i < j)%nat /\ l !! i = Some x /\ l !! j = Some x.
Proof.
  induction l as [|a l IH]; intros H; [destruct H; constructor |].
  destruct (decide (a ∈ l)) as [Hin | Hin].
  - apply list_elem_of_lookup in Hin as [j Hj]. exists O, (S j), a. split; [lia | done].
  - destruct IH as (i & j & x & L & Hi & Hj); [intros Hn; apply H; by constructor |]. exists (S i), (S j), x. split; [lia | done].
Qed.

(** A walk longer than the table has offsets comes to one of them twice. *)
Lemma walk_revisits T name : bytes T -> is_Some (walk T name (find_fuel T) 0) ->
  exists i j x, (i < j)%nat /\ walk T name i 0 = Some x /\ walk T name j 0 = Some x.
Proof.
  intros HT Hs. set (at_ k := default 0 (walk T name k 0)).
  assert (Hat : forall k, (k <= find_fuel T)%nat -> walk T name k 0 = Some (at_ k)).
  { intros k L. destruct (walk_prefix T name k _ 0 L Hs) as [x Hx]. unfold at_. by rewrite Hx. }
  destruct (decide (NoDup (map at_ (seq 0 (find_fuel T))))) as [Hn | Hn].
  - exfalso. pose proof (aligned_count T _ Hn) as L. rewrite length_map, length_seq in L. unfold find_fuel in L at 2.
    enough (Forall (aligned_in T) (map at_ (seq 0 (find_fuel T)))) by (specialize (L ltac:(done)); lia).
    apply Forall_map, list.Forall_forall. intros k Hk%elem_of_seq. apply (walk_aligned T name k 0); [done | lia | done | apply Hat; lia |].
    apply (walk_prefix T name _ (find_fuel T)); [lia | done].
  - destruct (repeated _ Hn) as (i & j & x & L & Hi & Hj).
    apply list_lookup_fmap_Some in Hi as (a & -> & Hi), Hj as (b & E & Hj). apply lookup_seq in Hi as [-> Li], Hj as [-> Lj].
    cbn [Nat.add] in E. exists i, j, (at_ i). split_and!; [done | apply Hat; lia |]. rewrite E. apply Hat. lia.
Qed.

Lemma walk_long T name : bytes T -> is_Some (walk T name (find_fuel T) 0) -> forall n, is_Some (walk T name n 0).
Proof.
  intros HT Hs. destruct (walk_revisits T name HT Hs) as (i & j & x & L & Hi & Hj).
  apply (walk_cycle T name 0 i (j - i) x); [lia | done |]. by replace (i + (j - i))%nat with j by lia.
Qed.

(** ** Enumeration *)

Lemma length_push link stack : (length (push_child link stack) <= S (length stack))%nat.
Proof. unfold push_child. destruct (child link); [| lia]. destruct (_ <? _)%nat; cbn; lia. Qed.

(** Every entry written uses up capacity and adds at most two offsets, so
    the rounds are bounded whatever the table holds. *)
Lemma enum_loop_returns T Cap fuel stack out :
  (length out <= Cap)%nat -> (length stack + 2 * (Cap - length out) < fuel)%nat ->
  exists st out', enum_loop fuel T Cap stack out = Some (st, out') /\ (length out' <= Cap)%nat /\
    (st = STATUS_SUCCESS \/ st = STATUS_BUFFER_OVERFLOW /\ length out' = Cap).
Proof.
  revert stack out. induction fuel as [|fuel IH]; intros stack out Lo Lf; [lia |]. cbn [enum_loop].
  destruct stack as [|off rest]; [exists STATUS_SUCCESS, out; auto |].
  cbn [length] in Lf. destruct (dirent_ok T off); cbn [negb].
  - destruct (Nat.leb_spec Cap (length out)); [exists STATUS_BUFFER_OVERFLOW, out; split_and!; auto; right; split; [done | lia] |].
    apply IH; rewrite length_app; cbn [length]; [lia |].
    pose proof (length_push (LeftOffset (dirent_at T off)) (push_child (RightOffset (dirent_at T off)) rest)).
    pose proof (length_push (RightOffset (dirent_at T off)) rest). lia.
  - apply IH; lia.
Qed.

Lemma enumerate_returns T Cap : exists st out, XdvdEnumerateTable T Cap = Some (st, out) /\
  (length out <= Cap)%nat /\ (st = STATUS_SUCCESS \/ st = STATUS_BUFFER_OVERFLOW /\ length out = Cap).
Proof. apply enum_loop_returns; cbn; lia. Qed.

(** The trees on the stack leave room for what their walks push_child. *)
Fixpoint fits (ts : list tree) : Prop :=
  match ts with
  | [] => True
  | t :: ts' => (length ts' + height t < STACK_SIZE)%nat /\ fits ts'
  end.

Definition on_stack (T : list Z) : list Z -> list tree -> Prop := Forall2 (fun off t => rep T (Some off) t).

Lemma push_on_stack T link t stack ts : rep T (child link) t -> on_stack T stack ts -> fits ts ->
  (length ts + height t < STACK_SIZE)%nat ->
  exists ts', on_stack T (push_child link stack) ts' /\ fits ts' /\
    flat_map preorder ts' = preorder t ++ flat_map preorder ts /\ (length ts' <= S (length ts))%nat.
Proof.
  intros Hr Hs Hf L. unfold push_child. destruct (child link) as [off|] eqn:E.
  - rewrite (proj2 (Nat.ltb_lt _ _)) by (apply Forall2_length in Hs; lia).
    exists (t :: ts). split_and!; [by constructor | done | done | cbn; lia].
  - inversion Hr; subst. exists ts. split_and!; [done | done | done | lia].
Qed.

Lemma enum_loop_complete T Cap fuel stack ts out :
  on_stack T stack ts -> fits ts -> (length out + length (flat_map preorder ts) <= Cap)%nat ->
  (length stack + 2 * (Cap - length out) < fuel)%nat ->
  enum_loop fuel T Cap stack out = Some (STATUS_SUCCESS, out ++ map (fun p => entry_of p.2) (flat_map preorder ts)).
Proof.
  revert stack ts out. induction fuel as [|fuel IH]; intros stack ts out Hs Hf Lc Lf; [lia |]. cbn [enum_loop].
  destruct Hs as [|off t rest ts Hr Hs]; [cbn; by rewrite app_nil_r |]. destruct Hf as [Lh Hf]. cbn [length] in Lf.
  inversion Hr as [|? E|? l r E Hl Hrr]; subst; rewrite E; cbn [negb].
  - apply (IH rest ts); [done | done | exact Lc | lia].
  - cbn [flat_map preorder app length height] in *. rewrite length_app in Lc.
    rewrite (proj2 (Nat.leb_gt _ _)) by lia.
    destruct (push_on_stack T _ r rest ts Hrr Hs Hf ltac:(lia)) as (ts1 & S1 & F1 & E1 & L1).
    destruct (push_on_stack T _ l _ ts1 Hl S1 F1 ltac:(lia)) as (ts2 & S2 & F2 & E2 & L2).
    apply Forall2_length in S2 as LS, Hs as LS'.
    rewrite (IH _ ts2) by (try done; rewrite ?E2, ?E1, ?length_app in *; cbn [length] in *; lia).
    rewrite E2, E1, <- app_assoc. cbn [map app]. by rewrite app_assoc.
Qed.

(** Entries of the tree are the table's. *)
Lemma rep_preorder T o t p : bytes T -> (forall off, o = Some off -> 0 <= off /\ off mod 4 = 0) -> rep T o t ->
  p ∈ preorder t -> p.2 = dirent_at T p.1 /\ aligned_in T p.1 /\ dirent_ok T p.1 = true.
Proof.
  intros HT Ho H. induction H as [|off E|off l r E Hl IHl Hr IHr]; [by intros ?%not_elem_of_nil.. |].
  destruct (dirent_links T off HT) as [L1 L2]. intros [-> | [Hp | Hp]%elem_of_app]%elem_of_cons; auto.
  - destruct (Ho _ eq_refl). split_and!; auto. split_and!; auto. by apply dirent_ok_in.
  - apply IHl; [intros o'; by apply child_aligned | done].
  - apply IHr; [intros o'; by apply child_aligned | done].
Qed.

Lemma holds_preorder T t p : bytes T -> holds T t -> p ∈ preorder t ->
  p.2 = dirent_at T p.1 /\ aligned_in T p.1 /\ dirent_ok T p.1 = true.
Proof. intros HT [H _]. apply (rep_preorder T (Some 0)); [done | by intros ? [= <-] | done]. Qed.

Lemma ordered_NoDup t : ordered t -> NoDup (preorder t).
Proof.
  induction t as [|l IHl off d r IHr]; intros Ho; [constructor |]. pose proof Ho as (Fl & Fr & Ol & Or).
  rewrite list.Forall_forall in Fl; rewrite list.Forall_forall in Fr. cbn [preorder]. apply list.NoDup_cons. split.
  - intros [Hin | Hin]%elem_of_app; [specialize (Fl _ Hin) | specialize (Fr _ Hin)]; cbn in *; by rewrite lex_refl in *.
  - apply list.NoDup_app. split_and!; [auto | | auto]. intros p Hl Hr.
    pose proof (lex_trans _ _ _ (Fl _ Hl) (Fr _ Hr)) as F. by rewrite lex_refl in F.
Qed.

(** Entries that do not overlap number at most one for each sixteen bytes,
    as the capacity reserved for them supposes. *)
Lemma entries_fit T t : bytes T -> holds T t -> apart t -> (length (preorder t) <= enum_cap T)%nat.
Proof.
  intros HT Hh Ha. pose proof (fun p => holds_preorder T t p HT Hh) as Hp.
  unfold enum_cap. rewrite <- (length_seq (length T / 16 + 1) 0), <- (length_map (fun p => Z.to_nat (p.1 / 16)) (preorder t)).
  apply NoDup_incl_length.
  - apply NoDup_ListNoDup, NoDup_fmap_2_strong; [| by apply ordered_NoDup, Hh]. intros p q Ip Iq E.
    destruct (Hp p Ip) as (Ep & (P1 & P2 & _) & _), (Hp q Iq) as (Eq & (Q1 & Q2 & _) & _).
    assert (E1 : p.1 = q.1); [| destruct p, q; cbn in *; congruence].
    apply Z2Nat.inj in E; [| apply Z.div_pos; lia | apply Z.div_pos; lia].
    pose proof (Z.div_mod p.1 16 ltac:(lia)). pose proof (Z.div_mod q.1 16 ltac:(lia)).
    pose proof (Z.mod_pos_bound p.1 16 ltac:(lia)). pose proof (Z.mod_pos_bound q.1 16 ltac:(lia)).
    pose proof (Z.div_mod p.1 4 ltac:(lia)). pose proof (Z.div_mod q.1 4 ltac:(lia)).
    unfold apart, XDVD_DIRENT_FIXED_SIZE in Ha. destruct (Z.lt_trichotomy p.1 q.1) as [L | [L | L]]; [| done |].
    + pose proof (Ha p q Ip Iq L). lia.
    + pose proof (Ha q p Iq Ip L). lia.
  - intros k Hk. apply in_map_iff in Hk as (p & <- & Hin). rewrite <- list_elem_of_In in Hin.
    destruct (Hp p Hin) as (_ & (P1 & P2 & P3) & _). apply in_seq. unfold XDVD_DIRENT_FIXED_SIZE in P3.
    pose proof (Z.div_mod p.1 16 ltac:(lia)). pose proof (Z.mod_pos_bound p.1 16 ltac:(lia)).
    pose proof (Nat.div_mod (length T) 16 ltac:(lia)). pose proof (Nat.mod_upper_bound (length T) 16 ltac:(lia)). lia.
Qed.

Lemma enumerate_complete T t : bytes T -> holds T t -> apart t -> (height t < STACK_SIZE)%nat ->
  XdvdEnumerateTable T (enum_cap T) = Some (STATUS_SUCCESS, map (fun p => entry_of p.2) (preorder t)).
Proof.
  intros HT Hh Ha L. unfold XdvdEnumerateTable. pose proof (entries_fit T t HT Hh Ha).
  rewrite (enum_loop_complete T _ _ _ [t]); cbn [flat_map length app fits].
  - by rewrite app_nil_r.
  - constructor; [apply Hh | constructor].
  - done.
  - rewrite app_nil_r. lia.
  - lia.
Qed.

(** A lookup in a table that holds a search tree. *)
Lemma find_in_tree T t name : bytes T -> holds T t ->
  exists a, (forall fuel, (find_fuel T <= fuel)%nat -> XdvdFindInTable fuel T name = Some a) /\
    (forall off, a = Some off <-> exists d, (off, d) ∈ preorder t /\ key d = map upper name) /\
    (a = None <-> forall p, p ∈ preorder t -> key p.2 <> map upper name).
Proof.
  intros HT [Hr Ho]. pose proof (rep_height T t HT Hr).
  destruct (find_loop_tree T name _ t Hr Ho 0 eq_refl (find_fuel T) ltac:(unfold find_fuel; lia)) as (a & Ea & Ha).
  exists a. split; [intros fuel L; by apply (find_loop_mono T name (find_fuel T)) |]. destruct a as [o|]; cbn in Ha.
  - destruct Ha as (d & Hin & Ek). split; [| split; [done |]].
    + intros off. split; [intros [= <-]; by exists d |]. intros (d' & Hin' & Ek').
      assert (E : (off, d') = (o, d)) by (apply (ordered_keys t); [done.. | cbn; congruence]). congruence.
    + intros Hnone. exfalso. by apply (Hnone _ Hin).
  - split; [| by split]. intros off. split; [done |]. intros (d & Hin & Ek). exfalso. by apply (Ha _ Hin).
Qed.

(** ** A table with three entries, and one whose links form a cycle *)

Definition store16 (w : Z) : list Z := [u8 w; u8 (Z.shiftr w 8)].

Definition dirent_bytes (l r sector size attrs : Z) (name : list Z) : list Z :=
  store16 l ++ store16 r ++ store32 sector ++ store32 size ++ [attrs; Z.of_nat (length name)] ++ name.

Definition pad (n : nat) (l : list Z) : list Z := l ++ replicate (n - length l) 0xFF.

Definition name_main : list Z := [77; 97; 105; 110; 46; 120; 98; 101].
Definition name_data : list Z := [68; 65; 84; 65].
Definition name_zoo : list Z := [122; 111; 111].

(** [Main.xbe] at the root, [DATA] to its left, [zoo] to its right. *)
Definition sample_table : list Z :=
  pad 2048 (pad 24 (dirent_bytes 6 12 300 70000 0 name_main) ++
            pad 24 (dirent_bytes 0 0 265 2048 0x10 name_data) ++
            pad 24 (dirent_bytes 0xFFFF 0 400 5 0x80 name_zoo)).

Definition sample_tree : tree := default Leaf (build 3 sample_table (Some 0)).

(** An entry at 16 that is its own left and right child. *)
Definition cyclic_table : list Z :=
  pad 2048 (pad 16 (dirent_bytes 4 4 0 0 0 [77]) ++ dirent_bytes 4 4 0 0 0 [78]).

Lemma sample_bytes : bytes sample_table.
Proof.
  assert (E : forallb (fun b => (0 <=? b) && (b <? 2 ^ 8)) sample_table = true) by (vm_compute; reflexivity).
  rewrite forallb_forall in E. apply Forall_forall. intros b Hb. apply E in Hb. unfold is_u8. lia.
Defined.

Lemma sample_preorder : preorder sample_tree =
  [(0, dirent_at sample_table 0); (24, dirent_at sample_table 24); (48, dirent_at sample_table 48)].
Proof. vm_compute. reflexivity. Defined.

Lemma sample_holds : holds sample_table sample_tree.
Proof.
  split; [apply (build_rep 3); vm_compute; reflexivity |]. vm_compute. repeat split; repeat constructor.
Defined.

Lemma sample_apart : apart sample_tree.
Proof.
  intros p q. rewrite sample_preorder. unfold XDVD_DIRENT_FIXED_SIZE. rewrite !elem_of_cons, !elem_of_nil.
  intros [-> | [-> | [-> | []]]] [-> | [-> | [-> | []]]]; cbn [fst]; lia.
Defined.

(** ** What the walks promise *)

(** C17: On a table that holds a search tree the lookup of a name returns
    within the rounds the table's length gives, at the one entry of the tree
    whose name is equal but for case, and at the null pointer exactly when
    the tree has no such entry. *)
Theorem find_in_table_correct T t name : bytes T -> holds T t ->
  exists a, (forall fuel, (find_fuel T <= fuel)%nat -> XdvdFindInTable fuel T name = Some a) /\
    (forall off, a = Some off <-> exists d, (off, d) ∈ preorder t /\ key d = map upper name) /\
    (a = None <-> forall p, p ∈ preorder t -> key p.2 <> map upper name).
Proof. apply find_in_tree. Qed.

Lemma find_in_table_correct_witness :
  exists a, (forall fuel, (find_fuel sample_table <= fuel)%nat -> XdvdFindInTable fuel sample_table [90; 79; 79] = Some a) /\
    (forall off, a = Some off <-> exists d, (off, d) ∈ preorder sample_tree /\ key d = map upper [90; 79; 79]) /\
    (a = None <-> forall p, p ∈ preorder sample_tree -> key p.2 <> map upper [90; 79; 79]).
Proof. apply (find_in_table_correct sample_table sample_tree); [apply sample_bytes | apply sample_holds]. Defined.

(** C33: Whatever bytes a table holds, a lookup answers within the rounds
    the table's length gives or it never answers; and it never does exactly
    when its walk comes to the same offset twice, as it does on a table of
    one sector with a link back to its own entry. *)
Theorem find_returns_or_never :
  (forall T name, bytes T ->
     (exists a, forall fuel, (find_fuel T <= fuel)%nat -> XdvdFindInTable fuel T name = Some a) \/
     ((forall fuel, XdvdFindInTable fuel T name = None) /\
      exists i j x, (i < j)%nat /\ walk T name i 0 = Some x /\ walk T name j 0 = Some x)) /\
  (forall T name i j x, (i < j)%nat -> walk T name i 0 = Some x -> walk T name j 0 = Some x ->
     forall fuel, XdvdFindInTable fuel T name = None) /\
  (bytes cyclic_table /\ length cyclic_table = 2048%nat /\
   forall fuel, XdvdFindInTable fuel cyclic_table name_zoo = None).
Proof.
  assert (Hc : forall T name i j x, (i < j)%nat -> walk T name i 0 = Some x -> walk T name j 0 = Some x ->
     forall fuel, XdvdFindInTable fuel T name = None).
  { intros T name i j x L Hi Hj fuel. apply find_loop_walk. apply (walk_cycle T name 0 i (j - i) x); [lia | done |].
    by replace (i + (j - i))%nat with j by lia. }
  split; [| split; [exact Hc |]].
  - intros T name HT. destruct (XdvdFindInTable (find_fuel T) T name) as [a|] eqn:E.
    + left. exists a. intros fuel L. by apply (find_loop_mono T name (find_fuel T)).
    + right. apply find_loop_walk in E. split; [intros fuel; apply find_loop_walk; by apply walk_long |].
      by apply walk_revisits.
  - split; [| split; [vm_compute; reflexivity |]].
    + assert (E : forallb (fun b => (0 <=? b) && (b <? 2 ^ 8)) cyclic_table = true) by (vm_compute; reflexivity).
      rewrite forallb_forall in E. apply Forall_forall. intros b Hb. apply E in Hb. unfold is_u8. lia.
    + apply (Hc _ _ 1%nat 2%nat 16); [lia | vm_compute; reflexivity..].
Qed.

Lemma find_returns_or_never_witness :
  bytes sample_table /\
  ((exists a, forall fuel, (find_fuel sample_table <= fuel)%nat -> XdvdFindInTable fuel sample_table name_zoo = Some a) \/
   ((forall fuel, XdvdFindInTable fuel sample_table name_zoo = None) /\
    exists i j x, (i < j)%nat /\ walk sample_table name_zoo i 0 = Some x /\ walk sample_table name_zoo j 0 = Some x)).
Proof. split; [apply sample_bytes | apply (proj1 find_returns_or_never), sample_bytes]. Defined.

(** C32: The enumeration returns on every table, within its capacity.  On a
    table that holds a search tree of entries that do not overlap, of a
    height below the 512 entries of its stack, it writes every entry, in
    preorder, within the capacity the directory query reserves. *)
Theorem enumerate_correct :
  (forall T Cap, exists st out, XdvdEnumerateTable T Cap = Some (st, out) /\ (length out <= Cap)%nat /\
     (st = STATUS_SUCCESS \/ st = STATUS_BUFFER_OVERFLOW /\ length out = Cap)) /\
  (forall T t, bytes T -> holds T t -> apart t -> (height t < STACK_SIZE)%nat ->
     XdvdEnumerateTable T (enum_cap T) = Some (STATUS_SUCCESS, map (fun p => entry_of p.2) (preorder t))).
Proof. split; [apply enumerate_returns | apply enumerate_complete]. Qed.

Lemma enumerate_correct_witness :
  XdvdEnumerateTable sample_table (enum_cap sample_table) =
    Some (STATUS_SUCCESS, map (fun p => entry_of p.2) (preorder sample_tree)).
Proof.
  apply (proj2 enumerate_correct sample_table sample_tree);
    [apply sample_bytes | apply sample_holds | apply sample_apart | vm_compute; lia].
Defined.
