(* ===== verification/XdvdIo.v ===== *)
(** * Device reads and pool memory of the disc file system

    Models the I/O layer of [src/drivers/filesystems/xdvdfs/xdvdfs.c]: the
    synchronous device read [XdvdTargetRead], the read of a directory table
    [XdvdReadDirentTable] and the unaligned read [XdvdReadIntoBuffer].  The
    pool, the I/O manager and the device below are parameters ([Machine]),
    with what is documented of them as laws ([MachineLaws]).  The code runs in
    a state monad over the machine and the set of pool blocks in use, with an
    outcome of its own for a call that does not return and for a null
    pointer followed.  The theorems say which bytes of the disc a read
    delivers and that every path frees what it allocates, once. *)

From stdpp Require Import prelude list numbers gmap.
From Stdlib Require Import ZArith Lia.
From S2P Require Import Prelude Bytes XdvdDir.

Local Open Scope Z_scope.

Definition STATUS_NOT_FOUND : Z := 0xC0000225.
Definition STATUS_DISK_CORRUPT_ERROR : Z := 0xC0000032.

(** ** The machine below the driver

    - [pool_allocate n] is [ExAllocatePoolWithTag] for [n] bytes: no block, or
      the bytes it happens to hold;
    - [build_request] is whether [IoBuildSynchronousFsdRequest] gave a packet
      for a read of a device, an offset and a length;
    - [call_driver] is [IoCallDriver] on it and the wait for its completion:
      the status returned, the status and the count of the status block, and
      the buffer;
    - [create_device] is [IoCreateDevice]: its status, and the flags and the
      alignment requirement the new object starts with;
    - [map_mdl] is whether [MmGetSystemAddressForMdlSafe] gave an address;
    - [upcase_table] is the kernel's table [NlsUnicodeUpcaseTable]. *)
Class Machine (E : Type) := {
  pool_allocate : Z -> E -> option (list Z) * E;
  build_request : Z -> Z -> Z -> E -> bool * E;
  call_driver : Z -> Z -> Z -> list Z -> E -> (Z * Z * Z * list Z) * E;
  create_device : E -> (Z * Z * Z) * E;
  map_mdl : E -> bool * E;
  upcase_table : Z -> Z
}.

(** ** Running *)

Section running.
Context {E : Type}.

(** The machine, the pool blocks the driver holds, the next block's number,
    and whether a block was freed that was not held. *)
Record world := World { env : E; live : gset Z; fresh : Z; bad_free : bool }.

Inductive ending (A : Type) :=
| Done (a : A) (w : world)
| Hangs
| Faults.

Definition M (A : Type) : Type := world -> ending A.

Definition ret {A} (a : A) : M A := fun w => Done A a w.

#[global] Instance M_ret : MRet M := @ret.
#[global] Instance M_bind : MBind M := fun A B (k : A -> M B) (m : M A) w =>
  match m w with
  | Done _ a w' => k a w'
  | Hangs _ => Hangs B
  | Faults _ => Faults B
  end.

Definition hang {A} : M A := fun _ => Hangs A.
Definition fault {A} : M A := fun _ => Faults A.

(** A step of the machine. *)
Definition ask {A} (f : E -> A * E) : M A := fun w =>
  let '(a, e) := f (env w) in Done A a (World e (live w) (fresh w) (bad_free w)).

Definition pool_free (block : Z) : M unit := fun w =>
  Done unit tt (World (env w) (live w ∖ {[block]}) (fresh w) (bad_free w || negb (bool_decide (block ∈ live w)))).

(** [if (p) ExFreePoolWithTag(p)]. *)
Definition free_opt (p : option (Z * list Z)) : M unit :=
  match p with Some (b, _) => pool_free b | None => ret tt end.

Definition pool_alloc `{Machine E} (n : Z) : M (option (Z * list Z)) := fun w =>
  let '(r, e) := pool_allocate n (env w) in
  match r with
  | None => Done _ None (World e (live w) (fresh w) (bad_free w))
  | Some data => Done _ (Some (fresh w, data)) (World e ({[fresh w]} ∪ live w) (fresh w + 1) (bad_free w))
  end.

End running.

Arguments world : clear implicits.
Arguments M : clear implicits.
Arguments Done {E A}.
Arguments Hangs {E A}.
Arguments Faults {E A}.

(** ** The reads *)

Section reads.
Context {E : Type} `{Machine E}.

(** Status, the count left in [*BytesRead] and the buffer. *)
Definition XdvdTargetRead (Target Offset Length : Z) (Buffer : list Z) (BytesRead : Z) : M E (Z * Z * list Z) :=
  irp ← ask (build_request Target Offset Length);
  if negb irp then ret (STATUS_INSUFFICIENT_RESOURCES, BytesRead, Buffer)
  else
    '(status, iosb_Status, iosb_Information, Buffer) ← ask (call_driver Target Offset Length Buffer);
    let status := if status =? STATUS_PENDING then iosb_Status else status in
    ret (status, u32 iosb_Information, Buffer).

(** Status and, on success, the table's block and its bytes (of which
    [*TableSizeOut] is the number). *)
Definition XdvdReadDirentTable (Target TableSector TableSize : Z) : M E (Z * option (Z * list Z)) :=
  if TableSize =? 0 then ret (STATUS_NOT_FOUND, None)
  else
    let aligned := Z.land (sub32 (add32 TableSize XDVD_SECTOR_SIZE) 1) (not32 (XDVD_SECTOR_SIZE - 1)) in
    buf ← pool_alloc aligned;
    match buf with
    | None => ret (STATUS_INSUFFICIENT_RESOURCES, None)
    | Some (block, data) =>
        '(status, got, data) ← XdvdTargetRead Target (Z.shiftl TableSector XDVD_SECTOR_SHIFT) aligned data 0;
        if negb (NT_SUCCESS status) || (got <? TableSize) then
          pool_free block;;
          ret (if NT_SUCCESS status then STATUS_DISK_CORRUPT_ERROR else status, None)
        else ret (STATUS_SUCCESS, Some (block, data))
    end.

(** The loop's variables: the destination, the sector buffer once there is
    one, the status and the bytes done. *)
Record reading := Reading { r_dest : list Z; r_secBuf : option (Z * list Z); r_status : Z; r_done : Z }.

(** A round ends the loop ([true]) or goes on. *)
Definition read_round (Target AbsStart Length : Z) (r : reading) : M E (bool * reading) :=
  let 'Reading Dest secBuf status done := r in
  let pos := u64 (AbsStart + done) in
  let posSlack := Z.land pos (XDVD_SECTOR_SIZE - 1) in
  let remain := sub32 Length done in
  if (posSlack =? 0) && (XDVD_SECTOR_SIZE <=? remain) then
    let bulk := Z.land remain (not32 (XDVD_SECTOR_SIZE - 1)) in
    '(status, got, data) ← XdvdTargetRead Target pos bulk (read Dest done (Z.to_nat bulk)) 0;
    let Dest := write Dest (Z.to_nat done) data in
    if negb (NT_SUCCESS status) then ret (true, Reading Dest secBuf status done)
    else
      let done := add32 done (if got <? bulk then got else bulk) in
      ret (got <? bulk, Reading Dest secBuf status done)
  else
    let copy := XDVD_SECTOR_SIZE - posSlack in
    let copy := if remain <? copy then remain else copy in
    secBuf ← match secBuf with
             | Some b => ret (Some b)
             | None => pool_alloc XDVD_SECTOR_SIZE
             end;
    match secBuf with
    | None => ret (true, Reading Dest None STATUS_INSUFFICIENT_RESOURCES done)
    | Some (block, data) =>
        '(status, got, data) ← XdvdTargetRead Target (pos - posSlack) XDVD_SECTOR_SIZE data 0;
        let secBuf := Some (block, data) in
        if negb (NT_SUCCESS status) then ret (true, Reading Dest secBuf status done)
        else if got <=? posSlack then ret (true, Reading Dest secBuf status done)
        else
          let copy := if got - posSlack <? copy then got - posSlack else copy in
          let Dest := write Dest (Z.to_nat done) (read data posSlack (Z.to_nat copy)) in
          let done := add32 done copy in
          ret ((posSlack + copy <? XDVD_SECTOR_SIZE) && (done <? Length), Reading Dest secBuf status done)
    end.

Fixpoint read_loop (fuel : nat) (Target AbsStart Length : Z) (r : reading) : M E reading :=
  match fuel with
  | O => hang
  | S fuel' =>
      if negb (r_done r <? Length) then ret r
      else
        '((stop, r) : bool * reading) ← read_round Target AbsStart Length r;
        if stop then ret r else read_loop fuel' Target AbsStart Length r
  end.

(** Status, [*Done] and the destination.  Three rounds are enough: a partial
    first sector, the whole sectors, a partial last one. *)
Definition XdvdReadIntoBuffer (Target AbsStart Length : Z) (Dest : list Z) : M E (Z * Z * list Z) :=
  r ← read_loop 4 Target AbsStart Length (Reading Dest None STATUS_SUCCESS 0);
  free_opt (r_secBuf r);;
  ret (r_status r, r_done r, r_dest r).

End reads.

(** ** Reasoning about runs *)

(** The postcondition holds where the run returns; [partial] says whether it
    may also not return. *)
Definition wp {E A} (partial : bool) (m : M E A) (w : world E) (Q : A -> world E -> Prop) : Prop :=
  match m w with
  | Done a w' => Q a w'
  | _ => partial = true
  end.

Section heap.
Context {E : Type}.
Implicit Types w : world E.

Definition set_env w (e : E) : world E := World e (live w) (fresh w) (bad_free w).

(** Every block in use was handed out. *)
Definition heap_ok w : Prop := forall b, b ∈ live w -> b < fresh w.

(** Between the two states the blocks [B] were allocated and are in use;
    every other block is as before, and no block was freed that was not in
    use. *)
Record grown w w' (B : gset Z) : Prop := Grown {
  grown_live : live w' = B ∪ live w;
  grown_disj : B ## live w;
  grown_bad : bad_free w' = bad_free w;
  grown_fresh : fresh w <= fresh w';
  grown_from : heap_ok w;
  grown_to : heap_ok w'
}.

Lemma grown_refl w : heap_ok w -> grown w w ∅.
Proof. intros H. split; [by rewrite union_empty_l_L | apply disjoint_empty_l | done | lia | done | done]. Qed.

Lemma grown_env w w' B e : grown w w' B -> grown w (set_env w' e) B.
Proof. intros []. by split. Qed.

Lemma grown_apart w w' B b : grown w w' B -> b ∈ B -> b ∉ live w.
Proof. intros [_ F _ _ _ _] Hb Hl. by apply (F b). Qed.

Lemma grown_trans w w1 w2 B1 B2 : grown w w1 B1 -> grown w1 w2 B2 -> grown w w2 (B2 ∪ B1).
Proof.
  intros [L1 F1 D1 N1 O1 P1] [L2 F2 D2 N2 O2 P2]. split; [by rewrite L2, L1, assoc_L by apply _ | | congruence | lia | done | done].
  rewrite L1 in F2. apply disjoint_union_l. split; [| done]. by apply disjoint_union_r in F2 as [_ F2].
Qed.

Lemma wp_ret {A} p (a : A) w Q : Q a w -> wp p (ret a) w Q.
Proof. done. Qed.

Lemma wp_bind {A B} p (m : M E A) (k : A -> M E B) w Q :
  wp p m w (fun a w' => wp p (k a) w' Q) -> wp p (m ≫= k) w Q.
Proof. unfold wp, mbind, M_bind. by destruct (m w). Qed.

Lemma wp_mono {A} p (m : M E A) w (Q R : A -> world E -> Prop) :
  wp p m w Q -> (forall a w', Q a w' -> R a w') -> wp p m w R.
Proof. unfold wp. intros H HQ. destruct (m w); auto. Qed.

Lemma wp_done {A} (m : M E A) w Q : wp false m w Q -> exists a w', m w = Done a w' /\ Q a w'.
Proof. unfold wp. destruct (m w) as [a w'| |]; [intros; by exists a, w' | done | done]. Qed.

(** A run that returns does so also under the weaker reading. *)
Lemma wp_total {A} p (m : M E A) w Q : wp false m w Q -> wp p m w Q.
Proof. unfold wp. by destruct (m w). Qed.

Lemma wp_ask {A} p (f : E -> A * E) w Q : (forall a e, f (env w) = (a, e) -> Q a (set_env w e)) -> wp p (ask f) w Q.
Proof. intros H. unfold wp, ask. destruct (f (env w)) as [a e] eqn:Ef. by apply H. Qed.

Lemma wp_free p w0 w B b Q : grown w0 w B -> b ∈ B ->
  (forall w', grown w0 w' (B ∖ {[b]}) -> Q tt w') -> wp p (pool_free b) w Q.
Proof.
  intros G Hb H. unfold wp, pool_free. apply H. pose proof (grown_apart _ _ _ _ G Hb) as Hn. destruct G as [L F D N O P].
  assert (Hl : b ∈ live w) by (rewrite L; apply elem_of_union; by left). rewrite (bool_decide_eq_true_2 _ Hl), orb_false_r.
  split; cbn [live fresh bad_free]; [| | done | done | done |].
  - rewrite L, difference_union_distr_l_L. f_equal. apply difference_disjoint_L. intros x Hx ->%elem_of_singleton. done.
  - intros x [Hx _]%elem_of_difference Hl'. by apply (F x).
  - intros x Hx. cbn [live fresh] in *. apply elem_of_difference in Hx as [Hx _]. by apply P.
Qed.

Lemma wp_free_opt p w0 w B s Q : grown w0 w B -> B = match s with Some (b, _) => {[b]} | None => ∅ end ->
  (forall w', grown w0 w' ∅ -> Q tt w') -> wp p (free_opt s) w Q.
Proof.
  intros G -> H. destruct s as [[b data]|]; cbn [free_opt]; [| by apply H].
  apply (wp_free p w0 w {[b]}); [done | by apply elem_of_singleton |]. intros w'. rewrite difference_diag_L. apply H.
Qed.

End heap.

(** ** What is known of the machine *)

(** [n] bytes of a disc. *)
Definition extent (disc : Z -> Z) (off : Z) (n : nat) : list Z := map (fun i => disc (off + Z.of_nat i)) (seq 0 n).

(** The status a request ends with. *)
Definition final_status (st iosb_Status : Z) : Z := if st =? STATUS_PENDING then iosb_Status else st.

(** A device holds bytes that do not change, up to a capacity in whole
    sectors.  A block has the size asked for.  A read leaves the buffer's
    size, and when it succeeds the count in the status block is no more than
    asked for and that many bytes of the buffer are the disc's. *)
Class MachineLaws (E : Type) `{Machine E} := {
  disc : Z -> Z -> Z;
  capacity : Z -> Z;
  disc_bytes dev i : is_u8 (disc dev i);
  capacity_sectors dev : capacity dev mod XDVD_SECTOR_SIZE = 0;
  allocate_law n e data e' : pool_allocate n e = (Some data, e') -> length data = Z.to_nat n /\ bytes data;
  read_law dev off len buf e st ist info buf' e' :
    call_driver dev off len buf e = ((st, ist, info, buf'), e') -> 0 <= len -> length buf = Z.to_nat len -> bytes buf ->
    length buf' = length buf /\ bytes buf' /\
    (NT_SUCCESS (final_status st ist) = true ->
     0 <= info <= len /\ take (Z.to_nat info) buf' = extent (disc dev) off (Z.to_nat info))
}.

(** The pool has memory, buffers can be mapped, devices created, packets
    built, and the device serves reads of whole sectors within its capacity.
    It promises nothing of a read that starts or ends inside a sector, which
    the optical class driver refuses ([CdromReadWriteVerification] of
    [nxcdrom.c]). *)
Record healthy {E} `{MachineLaws E} (dev : Z) : Prop := Healthy {
  healthy_pool n e : (pool_allocate n e).1 <> None;
  healthy_mdl e : (map_mdl e).1 = true;
  healthy_create e : NT_SUCCESS (create_device e).1.1.1 = true;
  healthy_packet off len e : (build_request dev off len e).1 = true;
  healthy_device off len buf e st ist info buf' e' : call_driver dev off len buf e = ((st, ist, info, buf'), e') ->
    0 <= off -> 0 <= len -> off + len <= capacity dev -> off mod XDVD_SECTOR_SIZE = 0 -> len mod XDVD_SECTOR_SIZE = 0 ->
    NT_SUCCESS (final_status st ist) = true /\ info = len
}.

(** ** Bytes of the disc *)

Lemma length_extent d off n : length (extent d off n) = n.
Proof. unfold extent. by rewrite length_map, length_seq. Qed.

Lemma extent_app d off a b : extent d off (a + b) = extent d off a ++ extent d (off + Z.of_nat a) b.
Proof.
  unfold extent. rewrite seq_app, map_app, Nat.add_0_l. f_equal. rewrite <- (Nat.add_0_r a) at 1.
  rewrite <- fmap_add_seq, <- list_fmap_compose. apply list_fmap_ext. intros i x _. cbn. f_equal. lia.
Qed.

Lemma take_extent d off a b : (a <= b)%nat -> take a (extent d off b) = extent d off a.
Proof.
  intros L. replace b with (a + (b - a))%nat by lia. rewrite extent_app, take_app_le by (rewrite length_extent; lia).
  apply take_ge. rewrite length_extent. lia.
Qed.

Lemma drop_extent d off a b : (a <= b)%nat -> drop a (extent d off b) = extent d (off + Z.of_nat a) (b - a).
Proof.
  intros L. replace b with (a + (b - a))%nat at 1 by lia. rewrite extent_app, drop_app_length' by (by rewrite length_extent).
  done.
Qed.

Lemma bytes_extent d off n : (forall i, is_u8 (d i)) -> bytes (extent d off n).
Proof. intros H. apply Forall_map, list.Forall_forall. intros i _. apply H. Qed.

(** A slice of a buffer whose front is the disc's. *)
Lemma read_extent d off data got i n : take (Z.to_nat got) data = extent d off (Z.to_nat got) ->
  0 <= i -> i + Z.of_nat n <= got -> read data i n = extent d (off + i) n.
Proof.
  intros Ht Hi L. unfold read.
  assert (E1 : take n (drop (Z.to_nat i) data) = take n (drop (Z.to_nat i) (take (Z.to_nat got) data))).
  { rewrite skipn_firstn_comm, take_take. f_equal. lia. }
  rewrite E1, Ht, drop_extent, take_extent by lia. f_equal. lia.
Qed.

Lemma take_write dst off src k : (off <= length dst)%nat -> (k <= length src)%nat ->
  take (off + k) (write dst off src) = take off dst ++ take k src.
Proof.
  intros L K. unfold write. rewrite take_app_add' by (by rewrite length_take; lia).
  f_equal. by rewrite take_app_le.
Qed.

Lemma drop_write dst off src n : (off + length src <= n)%nat -> (off + length src <= length dst)%nat ->
  drop n (write dst off src) = drop n dst.
Proof.
  intros L K. unfold write. rewrite app_assoc. rewrite drop_app_ge by (rewrite length_app, length_take; lia).
  rewrite length_app, length_take, drop_drop. f_equal. lia.
Qed.

Lemma bytes_write dst off src : bytes dst -> bytes src -> bytes (write dst off src).
Proof. intros. unfold write. rewrite !bytes_app. auto with bytes. Qed.

Lemma bytes_read l off n : bytes l -> bytes (read l off n).
Proof. intros. unfold read. auto with bytes. Qed.

Lemma length_read l off n : (Z.to_nat off + n <= length l)%nat -> length (read l off n) = n.
Proof. intros L. unfold read. rewrite length_take, length_drop. lia. Qed.

#[export] Hint Resolve bytes_write bytes_read : bytes.

(** Extending the done part of the destination. *)
Lemma extend_done d start dst off src k : (off <= length dst)%nat -> (k <= length src)%nat ->
  take off dst = extent d start off -> take k src = extent d (start + Z.of_nat off) k ->
  take (off + k) (write dst off src) = extent d start (off + k).
Proof. intros L K H1 H2. by rewrite take_write, H1, H2, <- extent_app. Qed.

(** ** The reads, specified *)

Section specs.
Context {E : Type} {MC : Machine E} {ML : @MachineLaws E MC}.
Implicit Types w : world E.

Lemma wp_alloc p w0 w B n Q : grown w0 w B ->
  (forall e, ~ (exists dev, healthy dev) -> Q None (set_env w e)) ->
  (forall b data w', grown w0 w' ({[b]} ∪ B) -> b ∉ B -> length data = Z.to_nat n -> bytes data -> Q (Some (b, data)) w') ->
  wp p (pool_alloc n) w Q.
Proof.
  intros [L F D N O P] Hn Hs. unfold wp, pool_alloc. destruct (pool_allocate n (env w)) as [[data|] e] eqn:Ea.
  - destruct (allocate_law n (env w) data e Ea) as [Hl Hb]. apply Hs; [split; cbn [live fresh bad_free] | | done | done].
    + by rewrite L, assoc_L by apply _.
    + intros b [->%elem_of_singleton | Hb']%elem_of_union Hin; [| by apply (F b)]. specialize (P (fresh w)).
      rewrite L in P. specialize (P (proj2 (elem_of_union _ _ _) (or_intror Hin))). lia.
    + done.
    + lia.
    + done.
    + intros b. cbn [live fresh]. intros [->%elem_of_singleton | Hb']%elem_of_union; [lia |]. specialize (P b Hb'). lia.
    + intros Hin. assert (Hl' : fresh w ∈ live w) by (rewrite L; apply elem_of_union; by left). specialize (P _ Hl'). lia.
  - apply Hn. intros [dev Hh]. apply (healthy_pool dev Hh n (env w)). by rewrite Ea.
Qed.

(** What a read of the device tells: [Offset], [Length], the buffer before;
    status, count and buffer after. *)
Record read_result (dev Offset Length : Z) (Buffer : list Z) (status got : Z) (Buffer' : list Z) : Prop := ReadResult {
  rr_length : length Buffer' = length Buffer;
  rr_bytes : bytes Buffer';
  rr_data : NT_SUCCESS status = true -> 0 <= got <= Length /\ take (Z.to_nat got) Buffer' = extent (disc dev) Offset (Z.to_nat got);
  rr_healthy : healthy dev -> 0 <= Offset -> Offset + Length <= capacity dev ->
    Offset mod XDVD_SECTOR_SIZE = 0 -> Length mod XDVD_SECTOR_SIZE = 0 -> NT_SUCCESS status = true /\ got = Length
}.

Lemma wp_target_read p w dev Offset Length Buffer Q :
  length Buffer = Z.to_nat Length -> bytes Buffer -> 0 <= Length < 2 ^ 32 ->
  (forall status got Buffer' e, read_result dev Offset Length Buffer status got Buffer' -> Q (status, got, Buffer') (set_env w e)) ->
  wp p (XdvdTargetRead dev Offset Length Buffer 0) w Q.
Proof.
  intros HL Hb Hlen HQ. unfold XdvdTargetRead. apply wp_bind, wp_ask. intros irp e1 Ei. destruct irp; cbn [negb].
  - apply wp_bind, wp_ask. intros [[[st ist] info] buf'] e2 Ec. apply wp_ret.
    destruct (read_law dev Offset Length Buffer e1 st ist info buf' e2 Ec (proj1 Hlen) HL Hb) as (R1 & R2 & R3).
    apply (HQ _ _ _ e2). fold (final_status st ist). split; [done | done | |].
    + intros Hs. destruct (R3 Hs) as [R4 R5]. rewrite u32_id by lia. done.
    + intros Hh H0 Hc M1 M2. destruct (healthy_device dev Hh _ _ _ _ _ _ _ _ _ Ec H0 (proj1 Hlen) Hc M1 M2) as [Hs ->]. rewrite u32_id by lia. done.
  - apply wp_ret. apply (HQ _ _ _ e1). split; [done | done | done |].
    intros Hh. pose proof (healthy_packet dev Hh Offset Length (env w)) as Hp. by rewrite Ei in Hp.
Qed.

(** The size a table's buffer has. *)
Definition table_bytes (TableSize : Z) : Z := Z.land (sub32 (add32 TableSize XDVD_SECTOR_SIZE) 1) (not32 (XDVD_SECTOR_SIZE - 1)).

Lemma table_bytes_range n : 0 <= table_bytes n < 2 ^ 32.
Proof.
  unfold table_bytes. change (XDVD_SECTOR_SIZE - 1) with (2 ^ 11 - 1).
  pose proof (u32_range (add32 n XDVD_SECTOR_SIZE - 1)) as H. fold (sub32 (add32 n XDVD_SECTOR_SIZE) 1) in H.
  rewrite land_not_ones by lia.
  pose proof (Z.mod_pos_bound (sub32 (add32 n XDVD_SECTOR_SIZE) 1) (2 ^ 11) ltac:(lia)).
  pose proof (Z.mod_le (sub32 (add32 n XDVD_SECTOR_SIZE) 1) (2 ^ 11) ltac:(lia) ltac:(lia)). lia.
Qed.

Lemma table_bytes_mod n : table_bytes n mod XDVD_SECTOR_SIZE = 0.
Proof.
  unfold table_bytes. change (XDVD_SECTOR_SIZE - 1) with (2 ^ 11 - 1). change XDVD_SECTOR_SIZE with (2 ^ 11).
  pose proof (u32_range (add32 n (2 ^ 11) - 1)) as H. fold (sub32 (add32 n (2 ^ 11)) 1) in H. rewrite land_not_ones by lia.
  rewrite Zminus_mod, Z.mod_mod, Z.sub_diag by done. done.
Qed.

Lemma table_bytes_whole n : 0 < n < 2 ^ 32 -> n mod XDVD_SECTOR_SIZE = 0 -> table_bytes n = n.
Proof.
  intros Hn Hm. unfold table_bytes, XDVD_SECTOR_SIZE in *. change (2048 - 1) with (2 ^ 11 - 1).
  assert (n + 2048 <= 2 ^ 32).
  { pose proof (Z.div_mod n 2048 ltac:(lia)). assert (n / 2048 < 2 ^ 21) by (apply Z.div_lt_upper_bound; lia). lia. }
  assert (Es : sub32 (add32 n 2048) 1 = n + 2047).
  { unfold sub32, add32, u32. destruct (Z.eq_dec (n + 2048) (2 ^ 32)) as [Ew | Ew].
    - rewrite Ew, Z.mod_same by lia. replace n with (2 ^ 32 - 2048) by lia. done.
    - rewrite (Z.mod_small (n + 2048)) by lia. rewrite Z.mod_small by lia. lia. }
  rewrite Es, land_not_ones by lia. pose proof (Z.div_mod n 2048 ltac:(lia)).
  replace ((n + 2047) mod 2 ^ 11) with 2047; [lia |]. change (2 ^ 11) with 2048.
  apply (Z.mod_unique _ _ (n / 2048)); lia.
Qed.

Lemma table_bytes_bound n : 0 <= n <= 2 ^ 27 -> table_bytes n <= n + 2047.
Proof.
  intros Hn. unfold table_bytes, XDVD_SECTOR_SIZE, sub32, add32, u32. change (2048 - 1) with (2 ^ 11 - 1).
  rewrite (Z.mod_small (n + 2048)) by lia. rewrite Z.mod_small by lia. rewrite land_not_ones by lia.
  pose proof (Z.mod_pos_bound (n + 2048 - 1) (2 ^ 11) ltac:(lia)). lia.
Qed.

(** The table of a directory. *)
Definition dir_table (dev sector size : Z) : list Z := extent (disc dev) (sector * XDVD_SECTOR_SIZE) (Z.to_nat size).

Lemma wp_read_table p w0 w B dev sector size Q : grown w0 w B -> 0 <= size < 2 ^ 32 ->
  (forall st w', grown w0 w' B -> NT_SUCCESS st = false -> (size = 0 -> st = STATUS_NOT_FOUND) ->
     (healthy dev -> size <> 0 -> 0 <= sector -> size <= table_bytes size ->
      sector * XDVD_SECTOR_SIZE + table_bytes size <= capacity dev -> False) -> Q (st, None) w') ->
  (forall b data w', grown w0 w' ({[b]} ∪ B) -> b ∉ B -> size <> 0 -> size <= table_bytes size ->
     Z.of_nat (length data) = table_bytes size -> bytes data ->
     take (Z.to_nat size) data = dir_table dev sector size -> Q (STATUS_SUCCESS, Some (b, data)) w') ->
  wp p (XdvdReadDirentTable dev sector size) w Q.
Proof.
  intros G Hs Hn Hy. unfold XdvdReadDirentTable. destruct (Z.eqb_spec size 0) as [-> | Hz]; [apply wp_ret, Hn; done |].
  fold (table_bytes size). pose proof (table_bytes_range size) as Hr. apply wp_bind, (wp_alloc p w0 w B); [done | |].
  { intros e Hh. apply wp_ret, Hn; [by apply grown_env | done | done |]. intros Hh' _. destruct Hh. by exists dev. }
  intros b data w' G' Hb Hl Hd. apply wp_bind, wp_target_read; [done | done | lia |].
  intros status got data' e R. rewrite Z.shiftl_mul_pow2 in R by (unfold XDVD_SECTOR_SHIFT; lia).
  change (2 ^ XDVD_SECTOR_SHIFT) with XDVD_SECTOR_SIZE in R.
  destruct (negb (NT_SUCCESS status) || (got <? size)) eqn:Eg.
  - apply wp_bind, (wp_free p w0 _ ({[b]} ∪ B)); [by apply grown_env | apply elem_of_union; left; by apply elem_of_singleton |].
    intros w'' G''. replace (({[b]} ∪ B) ∖ {[b]}) with B in G''
      by (rewrite difference_union_distr_l_L, difference_diag_L, union_empty_l_L; symmetry; apply difference_disjoint_L; intros x Hx ->%elem_of_singleton; done).
    apply wp_ret, Hn; [done | by destruct (NT_SUCCESS status) eqn:? | done |].
    intros Hh _ H0 Hle Hc. destruct (rr_healthy _ _ _ _ _ _ _ R Hh ltac:(unfold XDVD_SECTOR_SIZE; lia) Hc (Z.mod_mul sector XDVD_SECTOR_SIZE ltac:(done)) (table_bytes_mod size)) as [Hs' ->].
    rewrite Hs' in Eg. cbn in Eg. apply Z.ltb_lt in Eg. lia.
  - apply orb_false_iff in Eg as [E1 E2]. apply negb_false_iff in E1. apply Z.ltb_ge in E2.
    destruct (rr_data _ _ _ _ _ _ _ R E1) as [Hg Hd']. apply wp_ret, Hy; [by apply grown_env | done | done | lia | | apply R |].
    + rewrite (rr_length _ _ _ _ _ _ _ R), Hl. lia.
    + replace (Z.to_nat size) with (Z.to_nat size `min` Z.to_nat got)%nat by lia. rewrite <- take_take, Hd'.
      unfold dir_table. by rewrite take_extent by lia.
Qed.

(** *** The unaligned read

    What holds between rounds: the first [done] bytes of the destination are
    the disc's, the bytes past [Length] are the caller's, and the sector
    buffer is the one block held. *)
Record read_inv (w0 w : world E) (dev start Length : Z) (Dest0 : list Z) (r : reading) : Prop := ReadInv {
  ri_done : 0 <= r_done r <= Length;
  ri_length : length (r_dest r) = length Dest0;
  ri_bytes : bytes (r_dest r);
  ri_data : take (Z.to_nat (r_done r)) (r_dest r) = extent (disc dev) start (Z.to_nat (r_done r));
  ri_rest : drop (Z.to_nat Length) (r_dest r) = drop (Z.to_nat Length) Dest0;
  ri_heap : grown w0 w (match r_secBuf r with Some (b, _) => {[b]} | None => ∅ end);
  ri_sector : forall b data, r_secBuf r = Some (b, data) -> length data = 2048%nat /\ bytes data
}.

(** The rounds still needed. *)
Definition rounds (start Length : Z) (r : reading) : nat :=
  if r_done r =? Length then 0
  else if negb ((start + r_done r) mod XDVD_SECTOR_SIZE =? 0) then 3
  else if XDVD_SECTOR_SIZE <=? Length - r_done r then 2 else 1.

(** A read of [Length] bytes at [start] lies on the disc with the sectors it
    touches. *)
Definition on_disc (dev start Length : Z) : Prop := 0 <= start /\ start + Length <= capacity dev.

(** Whole sectors stay below a capacity in sectors. *)
Lemma sector_below dev pos : pos < capacity dev -> pos - pos mod XDVD_SECTOR_SIZE + XDVD_SECTOR_SIZE <= capacity dev.
Proof.
  intros L. unfold XDVD_SECTOR_SIZE. pose proof (capacity_sectors dev) as C. unfold XDVD_SECTOR_SIZE in C.
  pose proof (Z.div_mod pos 2048 ltac:(lia)). pose proof (Z.div_mod (capacity dev) 2048 ltac:(lia)).
  pose proof (Z.mod_pos_bound pos 2048 ltac:(lia)). assert (pos / 2048 < capacity dev / 2048) by nia. lia.
Qed.

(** What a round leaves: the loop stops with a failure or a short read, which
    a healthy device does not give, or it goes on closer to the end. *)
Definition round_post w0 dev start Length Dest0 (r0 : reading) (x : bool * reading) w : Prop :=
  read_inv w0 w dev start Length Dest0 x.2 /\
  if x.1 then (NT_SUCCESS (r_status x.2) = true -> r_done x.2 < Length) /\ (healthy dev -> on_disc dev start Length -> False)
  else NT_SUCCESS (r_status x.2) = true /\ (rounds start Length x.2 < rounds start Length r0)%nat.

Lemma slack_mod pos : Z.land pos (XDVD_SECTOR_SIZE - 1) = pos mod XDVD_SECTOR_SIZE.
Proof. change (XDVD_SECTOR_SIZE - 1) with (Z.ones 11). by rewrite Z.land_ones. Qed.

Lemma bulk_mod n : 0 <= n < 2 ^ 32 -> Z.land n (not32 (XDVD_SECTOR_SIZE - 1)) = n - n mod XDVD_SECTOR_SIZE.
Proof. intros H. change (XDVD_SECTOR_SIZE - 1) with (2 ^ 11 - 1). by rewrite land_not_ones. Qed.

Lemma rounds_start start Length r : r_done r < Length -> (start + r_done r) mod XDVD_SECTOR_SIZE <> 0 -> rounds start Length r = 3%nat.
Proof.
  intros L H. unfold rounds. destruct (Z.eqb_spec (r_done r) Length); [lia |].
  by destruct (Z.eqb_spec ((start + r_done r) mod XDVD_SECTOR_SIZE) 0).
Qed.

Lemma rounds_aligned start Length r : r_done r < Length -> (start + r_done r) mod XDVD_SECTOR_SIZE = 0 ->
  rounds start Length r = if XDVD_SECTOR_SIZE <=? Length - r_done r then 2%nat else 1%nat.
Proof. intros L H. unfold rounds. destruct (Z.eqb_spec (r_done r) Length); [lia |]. by rewrite H. Qed.

Section round.
Context (p : bool) (w0 w : world E) (dev start Length : Z) (Dest0 : list Z) (r : reading).
Hypothesis Hinv : read_inv w0 w dev start Length Dest0 r.
Hypothesis Hmore : r_done r < Length.
Hypothesis Hstart : 0 <= start /\ start + Length < 2 ^ 64.
Hypothesis HLength : 0 <= Length < 2 ^ 32.
Hypothesis HDest : Length <= Z.of_nat (length Dest0).

Lemma round_bulk : (start + r_done r) mod XDVD_SECTOR_SIZE = 0 -> XDVD_SECTOR_SIZE <= Length - r_done r ->
  wp p (read_round dev start Length r) w (round_post w0 dev start Length Dest0 r).
Proof.
  intros Hal Hbig. destruct Hinv as [I1 I2 I3 I4 I5 I6 I7]. destruct r as [Dest secBuf st0 d] eqn:Er.
  cbn [r_dest r_secBuf r_status r_done] in *. unfold read_round, u64. rewrite Z.mod_small, slack_mod, Hal, sub32_id by lia.
  rewrite (proj2 (Z.leb_le _ _) Hbig). cbn [Z.eqb andb]. rewrite bulk_mod by lia.
  set (bulk := Length - d - (Length - d) mod XDVD_SECTOR_SIZE).
  assert (Hbk : XDVD_SECTOR_SIZE <= bulk <= Length - d /\ Length - d - bulk < XDVD_SECTOR_SIZE /\ bulk mod XDVD_SECTOR_SIZE = 0).
  { unfold bulk, XDVD_SECTOR_SIZE in *. pose proof (Z.div_mod (Length - d) 2048 ltac:(lia)).
    pose proof (Z.mod_pos_bound (Length - d) 2048 ltac:(lia)). split_and!; try lia.
    replace (Length - d - (Length - d) mod 2048) with ((Length - d) / 2048 * 2048) by lia. apply Z.mod_mul. lia. }
  unfold XDVD_SECTOR_SIZE in Hbk. assert (Hnd : (Z.to_nat d + Z.to_nat bulk <= length Dest)%nat) by lia.
  apply wp_bind, wp_target_read; [by apply length_read | auto with bytes | lia |].
  intros status got data e R. pose proof (rr_length _ _ _ _ _ _ _ R) as Rl. rewrite length_read in Rl by done.
  pose proof (rr_bytes _ _ _ _ _ _ _ R) as Rb.
  assert (Base : forall k, 0 <= k <= bulk -> take (Z.to_nat k) data = extent (disc dev) (start + d) (Z.to_nat k) ->
    read_inv w0 (set_env w e) dev start Length Dest0 (Reading (write Dest (Z.to_nat d) data) secBuf status (d + k))).
  { intros k Hk Ht. split; cbn [r_dest r_secBuf r_status r_done]; [lia | | auto with bytes | | | by apply grown_env | done].
    - rewrite length_write; lia.
    - rewrite Z2Nat.inj_add by lia. apply extend_done; [lia | lia | done |]. rewrite Ht. f_equal. lia.
    - rewrite drop_write by lia. done. }
  destruct (NT_SUCCESS status) eqn:Es; cbn [negb].
  - destruct (rr_data _ _ _ _ _ _ _ R Es) as [Hg Ht]. apply wp_ret. destruct (Z.ltb_spec got bulk) as [Lg | Lg].
    + rewrite add32_id by lia. split; [apply Base; [lia | done] |]. cbn. split; [intros; lia |]. intros Hh [D1 D2].
      destruct (rr_healthy _ _ _ _ _ _ _ R Hh ltac:(lia) ltac:(lia) Hal ltac:(apply Hbk)). lia.
    + rewrite add32_id by lia. assert (got = bulk) as -> by lia. split; [by apply Base |]. split; [done |]. cbn [fst snd].
      rewrite (rounds_aligned start Length (Reading Dest secBuf st0 d)) by done. cbn [r_done].
      rewrite (proj2 (Z.leb_le _ _) Hbig). unfold rounds. cbn [r_done].
      destruct (d + bulk =? Length); [lia |]. unfold XDVD_SECTOR_SIZE in *.
      assert (Em : (start + (d + bulk)) mod 2048 = 0) by (rewrite Z.add_assoc, <- Z.add_mod_idemp_l, Hal by lia; apply Hbk).
      rewrite Em. destruct (Z.leb_spec 2048 (Length - (d + bulk))); cbn; lia.
  - apply wp_ret. split; [|split].
    + specialize (Base 0 ltac:(lia) eq_refl). by rewrite Z.add_0_r in Base.
    + cbn. congruence.
    + intros Hh [D1 D2]. destruct (rr_healthy _ _ _ _ _ _ _ R Hh ltac:(lia) ltac:(lia) Hal ltac:(apply Hbk)). congruence.
Qed.

(** The arithmetic of a round that goes through the sector buffer. *)
Lemma sector_progress slack copy k :
  slack = (start + r_done r) mod XDVD_SECTOR_SIZE -> slack <> 0 \/ Length - r_done r < XDVD_SECTOR_SIZE ->
  copy = Z.min (Length - r_done r) (XDVD_SECTOR_SIZE - slack) -> 0 < k <= copy ->
  (slack + k <? XDVD_SECTOR_SIZE) && (r_done r + k <? Length) = false ->
  (forall r', r_done r' = r_done r + k -> (rounds start Length r' < rounds start Length r)%nat).
Proof.
  intros Es Hc Ec Hk Hf r' Er'. unfold XDVD_SECTOR_SIZE in *.
  pose proof (Z.mod_pos_bound (start + r_done r) 2048 ltac:(lia)) as Hb. rewrite <- Es in Hb.
  unfold rounds at 1. rewrite Er'. destruct (Z.eqb_spec (r_done r + k) Length) as [Ed | Ed].
  { unfold rounds. destruct (Z.eqb_spec (r_done r) Length); [lia |]. destruct (negb _); [lia |]. destruct (_ <=? _); lia. }
  assert (Hal : slack + k = 2048) by lia.
  assert (Em : (start + (r_done r + k)) mod XDVD_SECTOR_SIZE = 0).
  { unfold XDVD_SECTOR_SIZE. pose proof (Z.div_mod (start + r_done r) 2048 ltac:(lia)).
    replace (start + (r_done r + k)) with (((start + r_done r) / 2048 + 1) * 2048) by lia. apply Z.mod_mul. lia. }
  rewrite Em. cbn [Z.eqb negb]. rewrite rounds_start; [| lia | unfold XDVD_SECTOR_SIZE; lia]. destruct (_ <=? _); lia.
Qed.

Lemma round_sector : (start + r_done r) mod XDVD_SECTOR_SIZE <> 0 \/ Length - r_done r < XDVD_SECTOR_SIZE ->
  wp p (read_round dev start Length r) w (round_post w0 dev start Length Dest0 r).
Proof.
  intros Hc. pose proof sector_progress as Prog. destruct Hinv as [I1 I2 I3 I4 I5 I6 I7]. destruct r as [Dest secBuf st0 d] eqn:Er.
  cbn [r_dest r_secBuf r_status r_done] in *. unfold read_round, u64. rewrite Z.mod_small, slack_mod, sub32_id by lia.
  pose proof (Z.mod_pos_bound (start + d) XDVD_SECTOR_SIZE ltac:(unfold XDVD_SECTOR_SIZE; lia)) as Hb.
  set (slack := (start + d) mod XDVD_SECTOR_SIZE) in *.
  assert (Econd : (slack =? 0) && (XDVD_SECTOR_SIZE <=? Length - d) = false) by lia. rewrite Econd.
  set (copy := if Length - d <? XDVD_SECTOR_SIZE - slack then Length - d else XDVD_SECTOR_SIZE - slack).
  assert (Hcopy : copy = Z.min (Length - d) (XDVD_SECTOR_SIZE - slack)) by (unfold copy; destruct (Z.ltb_spec (Length - d) (XDVD_SECTOR_SIZE - slack)); lia).
  clearbody copy. apply wp_bind.
  assert (Cont : forall b data w1, grown w0 w1 {[b]} -> length data = 2048%nat -> bytes data ->
    wp p ('(status, got, data) ← XdvdTargetRead dev (start + d - slack) XDVD_SECTOR_SIZE data 0;
        let secBuf := Some (b, data) in
        if negb (NT_SUCCESS status) then ret (true, Reading Dest secBuf status d)
        else if got <=? slack then ret (true, Reading Dest secBuf status d)
        else
          let copy := if got - slack <? copy then got - slack else copy in
          let Dest := write Dest (Z.to_nat d) (read data slack (Z.to_nat copy)) in
          let done := add32 d copy in
          ret ((slack + copy <? XDVD_SECTOR_SIZE) && (done <? Length), Reading Dest secBuf status done))
      w1 (round_post w0 dev start Length Dest0 (Reading Dest secBuf st0 d))).
  2: { destruct secBuf as [[b data]|].
    - destruct (I7 b data eq_refl). apply wp_ret. by apply Cont.
    - apply (wp_alloc p w0 w ∅); [done | |].
      + intros e Hh. apply wp_ret. split; [by split; cbn; try apply grown_env | split; [done |]]. intros Hh' _. destruct Hh. by exists dev.
      + intros b data w1 G _ Hl Hd. rewrite union_empty_r_L in G. by apply Cont. }
  intros b data w1 G Hl Hd. apply wp_bind, wp_target_read; [done | done | unfold XDVD_SECTOR_SIZE; lia |].
  intros status got data' e R. pose proof (rr_length _ _ _ _ _ _ _ R) as Rl. pose proof (rr_bytes _ _ _ _ _ _ _ R) as Rb.
  assert (Full : healthy dev -> on_disc dev start Length -> NT_SUCCESS status = true /\ got = XDVD_SECTOR_SIZE).
  { intros Hh [D1 D2]. apply (rr_healthy _ _ _ _ _ _ _ R Hh); [| apply (sector_below dev (start + d)); lia | | done].
    2: { unfold slack. by rewrite Zminus_mod, Z.mod_mod, Z.sub_diag by done. }
    pose proof (Z.mod_le (start + d) XDVD_SECTOR_SIZE ltac:(lia) ltac:(unfold XDVD_SECTOR_SIZE; lia)) as Hle. fold slack in Hle. lia. }
  assert (Same : read_inv w0 (set_env w1 e) dev start Length Dest0 (Reading Dest (Some (b, data')) status d)).
  { split; cbn; [done.. | by apply grown_env |]. intros ? ? [= <- <-]. split; [congruence | done]. }
  destruct (NT_SUCCESS status) eqn:Es; cbn [negb].
  2: { apply wp_ret. split; [done | cbn; split; [congruence |]]. intros Hh D. destruct (Full Hh D). congruence. }
  destruct (rr_data _ _ _ _ _ _ _ R Es) as [Hg Ht]. destruct (Z.leb_spec got slack) as [Lg | Lg].
  { apply wp_ret. split; [done | cbn; split; [done |]]. intros Hh D. destruct (Full Hh D). lia. }
  set (k := if got - slack <? copy then got - slack else copy).
  assert (Hk : 0 < k <= copy /\ k <= got - slack) by (unfold k; destruct (Z.ltb_spec (got - slack) copy); lia).
  assert (Hfull : got = XDVD_SECTOR_SIZE -> k = copy) by (unfold k; destruct (Z.ltb_spec (got - slack) copy); lia).
  clearbody k. rewrite add32_id by lia. apply wp_ret.
  pose proof (read_extent _ _ _ _ slack (Z.to_nat k) Ht ltac:(lia) ltac:(lia)) as Hread.
  assert (Hlen : length (read data' slack (Z.to_nat k)) = Z.to_nat k) by (rewrite Hread; apply length_extent).
  split; cbn [fst snd].
  { split; cbn [r_dest r_secBuf r_status r_done]; [lia | | auto with bytes | | | by apply grown_env |].
    - rewrite length_write; lia.
    - rewrite Z2Nat.inj_add by lia. apply extend_done; [lia | lia | done |]. rewrite take_ge by lia. rewrite Hread. f_equal. lia.
    - rewrite drop_write by lia. done.
    - intros ? ? [= <- <-]. split; [congruence | done]. }
  destruct ((slack + k <? XDVD_SECTOR_SIZE) && (d + k <? Length)) eqn:Ef; cbn [r_status r_done].
  - split; [intros _; lia |]. intros Hh D. destruct (Full Hh D) as [_ Eg]. specialize (Hfull Eg). lia.
  - split; [done |]. apply (Prog slack copy k); [done | done | done | lia | done | done].
Qed.

Lemma wp_round : wp p (read_round dev start Length r) w (round_post w0 dev start Length Dest0 r).
Proof.
  destruct (Z.eq_dec ((start + r_done r) mod XDVD_SECTOR_SIZE) 0); [| apply round_sector; by left].
  destruct (Z.le_gt_cases XDVD_SECTOR_SIZE (Length - r_done r)); [by apply round_bulk | apply round_sector; right; lia].
Qed.

End round.

Lemma wp_read_loop p w0 dev start Length Dest0 : 0 <= start /\ start + Length < 2 ^ 64 -> 0 <= Length < 2 ^ 32 ->
  Length <= Z.of_nat (length Dest0) -> forall fuel w r,
  read_inv w0 w dev start Length Dest0 r -> NT_SUCCESS (r_status r) = true -> (rounds start Length r < fuel)%nat ->
  wp p (read_loop fuel dev start Length r) w (fun r' w' => read_inv w0 w' dev start Length Dest0 r' /\
    (healthy dev -> on_disc dev start Length -> NT_SUCCESS (r_status r') = true /\ r_done r' = Length)).
Proof.
  intros Hs HL HD fuel. induction fuel as [|fuel IH]; intros w r Hi Hst Hr; [lia |]. cbn [read_loop].
  pose proof (ri_done _ _ _ _ _ _ _ Hi). destruct (Z.ltb_spec (r_done r) Length) as [L | L]; cbn [negb].
  - apply wp_bind. eapply wp_mono; [by apply (wp_round p w0) |]. intros [stop r'] w' [Hi' Hp]. cbn [fst snd] in *. destruct stop.
    + apply wp_ret. split; [done |]. intros Hh D. exfalso. by apply (proj2 Hp).
    + apply IH; [done | apply Hp | lia].
  - apply wp_ret. split; [done |]. intros _ _. split; [done | lia].
Qed.

(** The read returns.  It delivers a prefix of the bytes asked for, the
    disc's, and touches nothing past the request; a healthy device delivers
    all of them.  The sector buffer is freed. *)
Lemma wp_read_into_buffer p w0 w B dev start Length Dest Q :
  0 <= start /\ start + Length < 2 ^ 64 -> 0 <= Length < 2 ^ 32 -> Length <= Z.of_nat (length Dest) -> bytes Dest ->
  grown w0 w B ->
  (forall status got Dest' w', grown w0 w' B -> 0 <= got <= Length -> length Dest' = length Dest -> bytes Dest' ->
    take (Z.to_nat got) Dest' = extent (disc dev) start (Z.to_nat got) ->
    drop (Z.to_nat Length) Dest' = drop (Z.to_nat Length) Dest ->
    (healthy dev -> on_disc dev start Length -> NT_SUCCESS status = true /\ got = Length) ->
    Q (status, got, Dest') w') ->
  wp p (XdvdReadIntoBuffer dev start Length Dest) w Q.
Proof.
  intros Hs HL HD Hb G HQ. unfold XdvdReadIntoBuffer. apply wp_bind.
  eapply wp_mono; [apply (wp_read_loop p w dev start Length Dest); [done | done | done | | done |] |].
  - split; cbn; [lia | done | done | done | done | by apply grown_refl, (grown_to _ _ _ G) | done].
  - unfold rounds. destruct (_ =? _); [lia |]. destruct (negb _); [lia |]. destruct (_ <=? _); lia.
  - intros r w' [[I1 I2 I3 I4 I5 I6 I7] Hh]. apply wp_bind, (wp_free_opt p w _ _ _ _ I6); [done |].
    intros w'' G''. apply wp_ret, HQ; try done. pose proof (grown_trans _ _ _ _ _ G G'') as Gt. by rewrite union_empty_l_L in Gt.
Qed.

End specs.
