(* ===== verification/Xdvdfs.v ===== *)
(** * The disc file system driver

    Models the handlers of [src/drivers/filesystems/xdvdfs/xdvdfs.c] but the
    directory query: mounting a disc, resolving a path, opening and closing a
    file object, reading, and the queries of file and volume information.
    The driver's state is its device objects (a volume's control block is the
    extension of its device), its volume parameter blocks and the list of
    volumes; a file object carries its file and context control blocks with
    the pool blocks that hold them.  The theorems give the meaning of opening
    and reading against an abstract tree of files that the disc holds. *)

From stdpp Require Import prelude list numbers gmap.
From Stdlib Require Import ZArith Lia.
From S2P Require Import Prelude Bytes XdvdDir XdvdIo.

Local Open Scope Z_scope.

Definition STATUS_OBJECT_NAME_INVALID : Z := 0xC0000033.
Definition STATUS_OBJECT_PATH_NOT_FOUND : Z := 0xC000003A.
Definition STATUS_UNRECOGNIZED_VOLUME : Z := 0xC000014F.
Definition STATUS_VOLUME_DISMOUNTED : Z := 0xC000026E.
Definition STATUS_MEDIA_WRITE_PROTECTED : Z := 0xC00000A2.
Definition STATUS_FILE_IS_A_DIRECTORY : Z := 0xC00000BA.
Definition STATUS_NOT_A_DIRECTORY : Z := 0xC0000103.
Definition STATUS_INVALID_DEVICE_REQUEST : Z := 0xC0000010.
Definition STATUS_END_OF_FILE : Z := 0xC0000011.
Definition STATUS_INVALID_INFO_CLASS : Z := 0xC0000003.
Definition STATUS_INFO_LENGTH_MISMATCH : Z := 0xC0000004.

Definition FILE_DEVICE_CD_ROM : Z := 0x02.
Definition FILE_DEVICE_CD_ROM_FILE_SYSTEM : Z := 0x03.
Definition DO_DIRECT_IO : Z := 0x00200000.
Definition DO_DEVICE_INITIALIZING : Z := 0x10.
Definition FILE_DIRECTORY_FILE : Z := 0x01.
Definition FILE_NON_DIRECTORY_FILE : Z := 0x40.
Definition FILE_DELETE_ON_CLOSE : Z := 0x1000.
Definition FILE_OPENED : Z := 1.
Definition FILE_ATTRIBUTE_READONLY : Z := 0x01.
Definition FILE_ATTRIBUTE_DIRECTORY : Z := 0x10.
Definition IRP_MN_MOUNT_VOLUME : Z := 1.
Definition IRP_MN_VERIFY_VOLUME : Z := 2.

Definition FILE_READ_ONLY_VOLUME : Z := 0x00080000.
Definition FILE_CASE_PRESERVED_NAMES : Z := 0x02.
Definition FILE_REMOVABLE_MEDIA : Z := 0x01.
Definition FILE_READ_ONLY_DEVICE : Z := 0x02.
Definition FileBasicInformation : Z := 4.
Definition FileStandardInformation : Z := 5.
Definition FileNameInformation : Z := 9.
Definition FilePositionInformation : Z := 14.
Definition FileNetworkOpenInformation : Z := 34.
Definition FileFsVolumeInformation : Z := 1.
Definition FileFsSizeInformation : Z := 3.
Definition FileFsDeviceInformation : Z := 4.
Definition FileFsAttributeInformation : Z := 5.

Definition XDVD_VOLUME_DESCRIPTOR_LBA : Z := 32.
(** MICROSOFT*XBOX*MEDIA *)
Definition XDVD_VOLUME_MAGIC : list Z :=
  [77; 73; 67; 82; 79; 83; 79; 70; 84; 42; 88; 66; 79; 88; 42; 77; 69; 68; 73; 65].
Definition XDVD_VOLUME_MAGIC_LEN : nat := 20.
Definition BACKSLASH : Z := 92.

Definition store64 (x : Z) : list Z := store32 (u32 x) ++ store32 (u32 (Z.shiftr x 32)).
Definition load64 (l : list Z) : Z := load32 l + 2 ^ 32 * load32 (drop 4 l).

(** ASCII characters as 16-bit ones in memory. *)
Definition wide (name : list Z) : list Z := flat_map store16 name.

(** ** State *)

Record XDVD_VCB := Vcb {
  TargetDevice : Z;
  Vcb_Vpb : Z;
  RootSector : Z;
  RootSize : Z;
  OpenCount : Z;
  Mounted : bool
}.

(** [Fcb_Vcb] is the device whose extension the volume's block is;
    [Fcb_NameBuffer] the pool block of the name, [Fcb_Name] its characters. *)
Record XDVD_FCB := Fcb {
  Fcb_Vcb : Z;
  Fcb_DataSector : Z;
  Fcb_DataSize : Z;
  Fcb_Attributes : Z;
  IsDirectory : bool;
  IsRoot : bool;
  Fcb_NameBuffer : Z;
  Fcb_Name : list Z
}.

(** A stored string: its buffer's block and characters, and its length in
    bytes, which is kept apart from the buffer. *)
Record UNICODE_STRING := Ustr { Buffer : option (Z * list Z); Length : Z; MaximumLength : Z }.

(** The array of entries, as far as it was written, with its block. *)
Record XDVD_CCB := Ccb {
  Entries : option (Z * list ENTRY);
  EntryCount : nat;
  NextIndex : nat;
  SearchPattern : UNICODE_STRING;
  EnumLoaded : bool
}.

(** The contexts are pointers: the pool block and what it holds. *)
Record FILE_OBJECT := FileObject {
  FileName : list Z;
  FsContext : option (Z * XDVD_FCB);
  FsContext2 : option (Z * XDVD_CCB);
  FileVpb : option Z;
  SectionObjectPointer : option Z;
  CurrentByteOffset : Z
}.

Record VPB := Vpb { Vpb_DeviceObject : option Z; VolumeLabelLength : Z; SerialNumber : Z; ReferenceCount : Z }.

Record DEVICE_OBJECT := Device {
  DeviceType : Z;
  StackSize : Z;
  Flags : Z;
  SectorSize : Z;
  AlignmentRequirement : Z;
  DeviceVpb : option Z;
  DeviceExtension : option XDVD_VCB
}.

Record driver := Driver {
  ControlDevice : option Z;
  VcbList : list Z;
  devices : gmap Z DEVICE_OBJECT;
  vpbs : gmap Z VPB;
  next_device : Z
}.

(** The volume block in a device's extension. *)
Definition vcb_of (s : driver) (dev : Z) : option XDVD_VCB := d ← devices s !! dev; DeviceExtension d.

Definition set_OpenCount (v : XDVD_VCB) (n : Z) : XDVD_VCB :=
  Vcb (TargetDevice v) (Vcb_Vpb v) (RootSector v) (RootSize v) n (Mounted v).
Definition set_Extension (d : DEVICE_OBJECT) (v : XDVD_VCB) : DEVICE_OBJECT :=
  Device (DeviceType d) (StackSize d) (Flags d) (SectorSize d) (AlignmentRequirement d) (DeviceVpb d) (Some v).
Definition set_devices (s : driver) (m : gmap Z DEVICE_OBJECT) : driver :=
  Driver (ControlDevice s) (VcbList s) m (vpbs s) (next_device s).

(** [InterlockedIncrement] and [InterlockedDecrement] of the open count. *)
Definition add_open (s : driver) (dev : Z) (delta : Z) : driver :=
  match devices s !! dev with
  | Some d =>
      match DeviceExtension d with
      | Some v => set_devices s (<[dev := set_Extension d (set_OpenCount v (u32 (OpenCount v + delta)))]> (devices s))
      | None => s
      end
  | None => s
  end.

Definition set_contexts (fo : FILE_OBJECT) (c : option (Z * XDVD_FCB)) (c2 : option (Z * XDVD_CCB)) : FILE_OBJECT :=
  FileObject (FileName fo) c c2 (FileVpb fo) (SectionObjectPointer fo) (CurrentByteOffset fo).

(** A request's end: its status and information. *)
Definition completion : Type := Z * Z.

(** ** Paths *)

(** The characters up to the next separator, and from it on. *)
Fixpoint split_segment (p : list Z) : list Z * list Z :=
  match p with
  | [] => ([], [])
  | c :: p' => if c =? BACKSLASH then ([], p) else let '(seg, rest) := split_segment p' in (c :: seg, rest)
  end.

Definition is_dir (attrs : Z) : bool := negb (Z.land attrs XDVD_ATTR_DIRECTORY =? 0).

Section handlers.
Context {E : Type} `{Machine E}.

Definition fcb_of (vcb NameBuf : Z) (d : XDVD_DIRENT) : XDVD_FCB :=
  Fcb vcb (DataSector d) (DataSize d) (Attributes d) (is_dir (Attributes d)) false NameBuf (Name d).

Definition root_fcb (vcb NameBuf : Z) (v : XDVD_VCB) : XDVD_FCB :=
  Fcb vcb (RootSector v) (RootSize v) XDVD_ATTR_DIRECTORY true true NameBuf [].

(** The walk over the segments; [p] is what is left of the path, [table] the
    table of the directory before. *)
Fixpoint resolve_loop (fuel : nat) (vcb NameBuf Target : Z) (p : list Z) (sector size : Z)
    (table : option (Z * list Z)) : M E (Z * option XDVD_FCB) :=
  match fuel with
  | O => hang
  | S fuel' =>
      match p with
      | [] => free_opt table;; ret (STATUS_OBJECT_NAME_INVALID, None)
      | _ :: _ =>
          let '(seg, p) := split_segment p in
          if (length seg =? 0)%nat || (256 <? length seg)%nat then
            free_opt table;; ret (STATUS_OBJECT_NAME_INVALID, None)
          else if existsb (fun c => 0x7F <? c) seg then
            free_opt table;; ret (STATUS_OBJECT_NAME_NOT_FOUND, None)
          else
            free_opt table;;
            '((status, table) : Z * option (Z * list Z)) ← XdvdReadDirentTable Target sector size;
            if negb (NT_SUCCESS status) then ret (status, None)
            else
              match table with
              | None => fault
              | Some (block, T) =>
                  match XdvdFindInTable (find_fuel T) T seg with
                  | None => hang
                  | Some None =>
                      pool_free block;;
                      ret (match p with [] => STATUS_OBJECT_NAME_NOT_FOUND | _ => STATUS_OBJECT_PATH_NOT_FOUND end, None)
                  | Some (Some off) =>
                      let d := dirent_at T off in
                      match p with
                      | _ :: p' =>
                          if negb (is_dir (Attributes d)) then
                            pool_free block;; ret (STATUS_OBJECT_PATH_NOT_FOUND, None)
                          else resolve_loop fuel' vcb NameBuf Target p' (DataSector d) (DataSize d) (Some (block, T))
                      | [] => pool_free block;; ret (STATUS_SUCCESS, Some (fcb_of vcb NameBuf d))
                      end
                  end
              end
      end
  end.

(** Status and, on success, the file's control block.  A round takes a
    segment off the path, so the path's length bounds the rounds. *)
Definition XdvdResolvePath (vcb : Z) (v : XDVD_VCB) (Path : list Z) (NameBuf : Z) : M E (Z * option XDVD_FCB) :=
  match Path with
  | [] => ret (STATUS_SUCCESS, Some (root_fcb vcb NameBuf v))
  | c :: rest =>
      if (length rest =? 0)%nat && (c =? BACKSLASH) then ret (STATUS_SUCCESS, Some (root_fcb vcb NameBuf v))
      else
        let p := if c =? BACKSLASH then rest else Path in
        resolve_loop (S (length p)) vcb NameBuf (TargetDevice v) p (RootSector v) (RootSize v) None
  end.

(** ** Mounting *)

Definition Magic0 (vd : list Z) : list Z := vd.
Definition RootTableSector (vd : list Z) : Z := load32 (drop 0x14 vd).
Definition RootTableSize (vd : list Z) : Z := load32 (drop 0x18 vd).
Definition FiletimeLow (vd : list Z) : Z := load32 (drop 0x1C vd).
Definition Magic1 (vd : list Z) : list Z := drop 0x7EC vd.

Definition is_magic (l : list Z) : bool :=
  (RtlCompareMemory l XDVD_VOLUME_MAGIC XDVD_VOLUME_MAGIC_LEN =? XDVD_VOLUME_MAGIC_LEN)%nat.

(** The new volume device and the blocks it is linked through. *)
Definition link_volume (s : driver) (target vpb : Z) (t : DEVICE_OBJECT) (pb : VPB) (flags alignment : Z) (vd : list Z) : driver :=
  let volDev := next_device s in
  let vcb := Vcb target vpb (RootTableSector vd) (RootTableSize vd) 0 true in
  let flags := Z.ldiff (Z.lor flags DO_DIRECT_IO) DO_DEVICE_INITIALIZING in
  let alignment := if alignment <? AlignmentRequirement t then AlignmentRequirement t else alignment in
  Driver (ControlDevice s) (VcbList s ++ [volDev])
    (<[volDev := Device FILE_DEVICE_CD_ROM_FILE_SYSTEM (u8 (StackSize t + 1)) flags XDVD_SECTOR_SIZE alignment (Some vpb) (Some vcb)]> (devices s))
    (<[vpb := Vpb (Some volDev) 0 (FiletimeLow vd) (u32 (ReferenceCount pb + 1))]> (vpbs s))
    (volDev + 1).

Definition XdvdMountVolume (s : driver) (target vpb : Z) : M E (Z * driver) :=
  match devices s !! target, vpbs s !! vpb with
  | Some t, Some pb =>
      if negb (DeviceType t =? FILE_DEVICE_CD_ROM) then ret (STATUS_UNRECOGNIZED_VOLUME, s)
      else
        secBuf ← pool_alloc XDVD_SECTOR_SIZE;
        match secBuf with
        | None => ret (STATUS_INSUFFICIENT_RESOURCES, s)
        | Some (block, data) =>
            '(status, got, vd) ← XdvdTargetRead target (Z.shiftl XDVD_VOLUME_DESCRIPTOR_LBA XDVD_SECTOR_SHIFT)
                                                XDVD_SECTOR_SIZE data 0;
            if negb (NT_SUCCESS status) || negb (got =? XDVD_SECTOR_SIZE) then
              pool_free block;;
              ret (if NT_SUCCESS status then STATUS_UNRECOGNIZED_VOLUME else status, s)
            else if negb (is_magic (Magic0 vd)) || negb (is_magic (Magic1 vd)) then
              pool_free block;; ret (STATUS_UNRECOGNIZED_VOLUME, s)
            else
              '(status, flags, alignment) ← ask create_device;
              if negb (NT_SUCCESS status) then
                pool_free block;; ret (status, s)
              else
                let s := link_volume s target vpb t pb flags alignment vd in
                pool_free block;; ret (STATUS_SUCCESS, s)
        end
  | _, _ => fault
  end.

(** ** Opening and closing *)

Definition is_control (s : driver) (DeviceObject : Z) : bool := bool_decide (ControlDevice s = Some DeviceObject).

(** [sizeof(XDVD_FCB)]. *)
Definition SIZEOF_FCB : Z := 24.

Definition XdvdDispatchCreate (s : driver) (DeviceObject : Z) (fo : FILE_OBJECT) (Options : Z)
    : M E (completion * FILE_OBJECT * driver) :=
  if is_control s DeviceObject then ret ((STATUS_SUCCESS, FILE_OPENED), set_contexts fo None None, s)
  else
    match vcb_of s DeviceObject with
    | None => ret ((STATUS_VOLUME_DISMOUNTED, 0), fo, s)
    | Some v =>
        if negb (Mounted v) then ret ((STATUS_VOLUME_DISMOUNTED, 0), fo, s)
        else if BooleanFlagOn Options FILE_DELETE_ON_CLOSE then ret ((STATUS_MEDIA_WRITE_PROTECTED, 0), fo, s)
        else
          nameBuf ← pool_alloc 512;
          match nameBuf with
          | None => ret ((STATUS_INSUFFICIENT_RESOURCES, 0), fo, s)
          | Some (nameBuf, _) =>
              '((status, scratch) : Z * option XDVD_FCB) ← XdvdResolvePath DeviceObject v (FileName fo) nameBuf;
              if negb (NT_SUCCESS status) then
                pool_free nameBuf;; ret ((status, 0), fo, s)
              else
                match scratch with
                | None => fault
                | Some scratch =>
                    if BooleanFlagOn Options FILE_NON_DIRECTORY_FILE && IsDirectory scratch then
                      pool_free nameBuf;; ret ((STATUS_FILE_IS_A_DIRECTORY, 0), fo, s)
                    else if BooleanFlagOn Options FILE_DIRECTORY_FILE && negb (IsDirectory scratch) then
                      pool_free nameBuf;; ret ((STATUS_NOT_A_DIRECTORY, 0), fo, s)
                    else
                      fcb ← pool_alloc SIZEOF_FCB;
                      match fcb with
                      | None => pool_free nameBuf;; ret ((STATUS_INSUFFICIENT_RESOURCES, 0), fo, s)
                      | Some (fcb, _) =>
                          let fo := FileObject (FileName fo) (Some (fcb, scratch)) None (Some (Vcb_Vpb v)) None (CurrentByteOffset fo) in
                          ret ((STATUS_SUCCESS, FILE_OPENED), fo, add_open s DeviceObject 1)
                      end
                end
          end
    end.

Definition XdvdDispatchCleanup : M E completion := ret (STATUS_SUCCESS, 0).

Definition free_ccb (block : Z) (ccb : XDVD_CCB) : M E unit :=
  match Entries ccb with Some (b, _) => pool_free b | None => ret tt end;;
  match Buffer (SearchPattern ccb) with Some (b, _) => pool_free b | None => ret tt end;;
  pool_free block.

Definition XdvdDispatchClose (s : driver) (DeviceObject : Z) (fo : FILE_OBJECT) : M E (completion * FILE_OBJECT * driver) :=
  if is_control s DeviceObject then ret ((STATUS_SUCCESS, 0), fo, s)
  else
    match FsContext2 fo with Some (block, ccb) => free_ccb block ccb | None => ret tt end;;
    match FsContext fo with
    | Some (block, fcb) =>
        pool_free (Fcb_NameBuffer fcb);;
        pool_free block;;
        ret ((STATUS_SUCCESS, 0), set_contexts fo None None, add_open s (Fcb_Vcb fcb) (-1))
    | None => ret ((STATUS_SUCCESS, 0), set_contexts fo None None, s)
    end.

(** ** Reading *)

Definition set_position (fo : FILE_OBJECT) (pos : Z) : FILE_OBJECT :=
  FileObject (FileName fo) (FsContext fo) (FsContext2 fo) (FileVpb fo) (SectionObjectPointer fo) pos.

(** [Mdl] is the buffer the request's memory descriptor list describes. *)
Definition XdvdDispatchRead (s : driver) (fo : FILE_OBJECT) (ByteOffset userLen : Z) (Mdl : list Z)
    : M E (completion * FILE_OBJECT * list Z) :=
  match FsContext fo with
  | None => ret ((STATUS_INVALID_DEVICE_REQUEST, 0), fo, Mdl)
  | Some (_, fcb) =>
      if IsDirectory fcb then ret ((STATUS_INVALID_DEVICE_REQUEST, 0), fo, Mdl)
      else
        let fileOff := u64 ByteOffset in
        if userLen =? 0 then ret ((STATUS_SUCCESS, 0), fo, Mdl)
        else if Fcb_DataSize fcb <=? fileOff then ret ((STATUS_END_OF_FILE, 0), fo, Mdl)
        else
          let userLen := if Fcb_DataSize fcb <? u64 (fileOff + userLen) then u32 (Fcb_DataSize fcb - fileOff) else userLen in
          let absStart := u64 (Z.shiftl (Fcb_DataSector fcb) XDVD_SECTOR_SHIFT + fileOff) in
          userVa ← ask map_mdl;
          if negb userVa then ret ((STATUS_INSUFFICIENT_RESOURCES, 0), fo, Mdl)
          else
            match vcb_of s (Fcb_Vcb fcb) with
            | None => fault
            | Some v =>
                '(status, got, Mdl) ← XdvdReadIntoBuffer (TargetDevice v) absStart userLen Mdl;
                if negb (NT_SUCCESS status) || (got <? userLen) then
                  ret ((if NT_SUCCESS status then STATUS_END_OF_FILE else status, 0), fo, Mdl)
                else ret ((STATUS_SUCCESS, userLen), set_position fo (fileOff + userLen), Mdl)
            end
  end.

Definition XdvdDispatchWrite : M E completion := ret (STATUS_MEDIA_WRITE_PROTECTED, 0).

(** ** Information queries

    A system buffer is zeroed and its fields stored at their offsets in the
    information structures. *)

Definition AllocationSize (DataSize : Z) : Z :=
  Z.land (sub32 (add32 DataSize XDVD_SECTOR_SIZE) 1) (Z.lnot (XDVD_SECTOR_SIZE - 1)).

Definition file_attributes (dir : bool) : Z :=
  if dir then Z.lor FILE_ATTRIBUTE_DIRECTORY FILE_ATTRIBUTE_READONLY else FILE_ATTRIBUTE_READONLY.

Definition XdvdDispatchQueryInformation (fo : FILE_OBJECT) (cls : Z) (SystemBuffer : list Z)
    : M E (completion * list Z) :=
  match FsContext fo with
  | None => ret ((STATUS_INVALID_PARAMETER, 0), SystemBuffer)
  | Some (_, fcb) =>
      let bufLen := Z.of_nat (length SystemBuffer) in
      let buf := replicate (length SystemBuffer) 0 in
      if cls =? FileBasicInformation then
        if bufLen <? 40 then ret ((STATUS_BUFFER_TOO_SMALL, 0), buf)
        else ret ((STATUS_SUCCESS, 40), write buf 32 (store32 (file_attributes (IsDirectory fcb))))
      else if cls =? FileStandardInformation then
        if bufLen <? 24 then ret ((STATUS_BUFFER_TOO_SMALL, 0), buf)
        else
          let buf := write buf 0 (store64 (AllocationSize (Fcb_DataSize fcb))) in
          let buf := write buf 8 (store64 (Fcb_DataSize fcb)) in
          let buf := write buf 16 (store32 1) in
          let buf := write buf 20 [0] in
          let buf := write buf 21 [Z.b2z (IsDirectory fcb)] in
          ret ((STATUS_SUCCESS, 24), buf)
      else if cls =? FilePositionInformation then
        if bufLen <? 8 then ret ((STATUS_BUFFER_TOO_SMALL, 0), buf)
        else ret ((STATUS_SUCCESS, 8), write buf 0 (store64 (CurrentByteOffset fo)))
      else if cls =? FileNetworkOpenInformation then
        if bufLen <? 56 then ret ((STATUS_BUFFER_TOO_SMALL, 0), buf)
        else
          let buf := write buf 32 (store64 (AllocationSize (Fcb_DataSize fcb))) in
          let buf := write buf 40 (store64 (Fcb_DataSize fcb)) in
          let buf := write buf 48 (store32 (file_attributes (IsDirectory fcb))) in
          ret ((STATUS_SUCCESS, 56), buf)
      else if cls =? FileNameInformation then
        let name := wide (Fcb_Name fcb) in
        let need := 4 + Z.of_nat (length name) in
        if bufLen <? 4 then ret ((STATUS_BUFFER_TOO_SMALL, 0), buf)
        else
          let buf := write buf 0 (store32 (Z.of_nat (length name))) in
          if bufLen <? need then
            ret ((STATUS_BUFFER_OVERFLOW, bufLen), write buf 4 (take (Z.to_nat (bufLen - 4)) name))
          else ret ((STATUS_SUCCESS, need), write buf 4 name)
      else ret ((STATUS_INVALID_INFO_CLASS, 0), buf)
  end.

Definition XdvdDispatchSetInformation (fo : FILE_OBJECT) (cls : Z) (SystemBuffer : list Z)
    : M E (completion * FILE_OBJECT) :=
  if cls =? FilePositionInformation then
    if Z.of_nat (length SystemBuffer) <? 8 then ret ((STATUS_INFO_LENGTH_MISMATCH, 0), fo)
    else ret ((STATUS_SUCCESS, 0), set_position fo (load64 SystemBuffer))
  else ret ((STATUS_MEDIA_WRITE_PROTECTED, 0), fo).

(** XDVDFS *)
Definition kFsName : list Z := [88; 68; 86; 68; 70; 83].

(** The console packs [FILE_FS_VOLUME_INFORMATION] to 19 bytes. *)
Definition XdvdDispatchQueryVolumeInformation (s : driver) (DeviceObject cls : Z) (SystemBuffer : list Z)
    : M E (completion * list Z) :=
  match vcb_of s DeviceObject with
  | None => ret ((STATUS_VOLUME_DISMOUNTED, 0), SystemBuffer)
  | Some v =>
      if negb (Mounted v) then ret ((STATUS_VOLUME_DISMOUNTED, 0), SystemBuffer)
      else
        let bufLen := Z.of_nat (length SystemBuffer) in
        let buf := replicate (length SystemBuffer) 0 in
        if cls =? FileFsVolumeInformation then
          if bufLen <? 19 then ret ((STATUS_BUFFER_TOO_SMALL, 0), buf)
          else
            match vpbs s !! Vcb_Vpb v with
            | None => fault
            | Some pb =>
                let buf := write buf 8 (store32 (SerialNumber pb)) in
                let buf := write buf 16 [0] in
                let buf := write buf 12 (store32 0) in
                ret ((STATUS_SUCCESS, 19), buf)
            end
        else if cls =? FileFsAttributeInformation then
          let name := wide kFsName in
          let need := 12 + Z.of_nat (length name) in
          if bufLen <? need then ret ((STATUS_BUFFER_TOO_SMALL, 0), buf)
          else
            let buf := write buf 0 (store32 (Z.lor FILE_READ_ONLY_VOLUME FILE_CASE_PRESERVED_NAMES)) in
            let buf := write buf 4 (store32 255) in
            let buf := write buf 8 (store32 (Z.of_nat (length name))) in
            ret ((STATUS_SUCCESS, need), write buf 12 name)
        else if cls =? FileFsSizeInformation then
          if bufLen <? 24 then ret ((STATUS_BUFFER_TOO_SMALL, 0), buf)
          else
            let buf := write buf 0 (store64 0) in
            let buf := write buf 8 (store64 0) in
            let buf := write buf 16 (store32 1) in
            ret ((STATUS_SUCCESS, 24), write buf 20 (store32 XDVD_SECTOR_SIZE))
        else if cls =? FileFsDeviceInformation then
          if bufLen <? 8 then ret ((STATUS_BUFFER_TOO_SMALL, 0), buf)
          else
            let buf := write buf 0 (store32 FILE_DEVICE_CD_ROM) in
            ret ((STATUS_SUCCESS, 8), write buf 4 (store32 (Z.lor FILE_REMOVABLE_MEDIA FILE_READ_ONLY_DEVICE)))
        else ret ((STATUS_INVALID_INFO_CLASS, 0), buf)
  end.

(** ** File system control, device control and start-up *)

Definition XdvdDispatchFileSystemControl (s : driver) (MinorFunction target vpb : Z) : M E (completion * driver) :=
  if MinorFunction =? IRP_MN_MOUNT_VOLUME then
    '((status, s) : Z * driver) ← XdvdMountVolume s target vpb; ret ((status, 0), s)
  else if MinorFunction =? IRP_MN_VERIFY_VOLUME then ret ((STATUS_SUCCESS, 0), s)
  else ret ((STATUS_INVALID_DEVICE_REQUEST, 0), s).

(** The request is refused, or goes to the device below unchanged. *)
Inductive forwarded := Completed (c : completion) | CallDriver (target : Z).

Definition XdvdDispatchDeviceControl (s : driver) (DeviceObject : Z) : M E forwarded :=
  match vcb_of s DeviceObject with
  | None => ret (Completed (STATUS_INVALID_DEVICE_REQUEST, 0))
  | Some v =>
      if is_control s DeviceObject || negb (Mounted v) then ret (Completed (STATUS_INVALID_DEVICE_REQUEST, 0))
      else ret (CallDriver (TargetDevice v))
  end.

(** The driver's globals are zeroed; on success the control device exists. *)
Definition DriverEntry (s : driver) : M E (Z * driver) :=
  let s := Driver None [] (devices s) (vpbs s) (next_device s) in
  '(status, flags, alignment) ← ask create_device;
  if negb (NT_SUCCESS status) then ret (status, s)
  else
    let dev := next_device s in
    let d := Device FILE_DEVICE_CD_ROM_FILE_SYSTEM 1 (Z.ldiff flags DO_DEVICE_INITIALIZING) 0 alignment None None in
    ret (STATUS_SUCCESS, Driver (Some dev) [] (<[dev := d]> (devices s)) (vpbs s) (dev + 1)).

End handlers.

(** ** The files a disc holds *)

(** A file or directory: its entry, and the contents of a directory. *)
#[warnings="-register-all"]
Inductive node := FileNode (d : XDVD_DIRENT) (kids : list node).

Definition node_dirent (n : node) : XDVD_DIRENT := let 'FileNode d _ := n in d.
Definition node_kids (n : node) : list node := let 'FileNode _ kids := n in kids.

(** The path's segments. *)
Fixpoint segments (p : list Z) : list (list Z) :=
  match p with
  | [] => [[]]
  | c :: p' =>
      if c =? BACKSLASH then [] :: segments p'
      else match segments p' with seg :: rest => (c :: seg) :: rest | [] => [[c]] end
  end.

Definition same_name (name : list Z) (n : node) : bool := bool_decide (key (node_dirent n) = map upper name).

(** What opening a path means: descend by name, one segment at a time, with
    the status of the first segment that fails.  [size] is that of the
    directory's table; a directory without one has its own status. *)
Fixpoint open_path (ns : list node) (size : Z) (segs : list (list Z)) : Z + node :=
  match segs with
  | [] => inl STATUS_OBJECT_NAME_INVALID
  | seg :: rest =>
      if (length seg =? 0)%nat || (256 <? length seg)%nat then inl STATUS_OBJECT_NAME_INVALID
      else if existsb (fun c => 0x7F <? c) seg then inl STATUS_OBJECT_NAME_NOT_FOUND
      else if size =? 0 then inl STATUS_NOT_FOUND
      else
        match List.find (same_name seg) ns with
        | None => inl (match rest with [] => STATUS_OBJECT_NAME_NOT_FOUND | _ => STATUS_OBJECT_PATH_NOT_FOUND end)
        | Some n =>
            match rest with
            | [] => inr n
            | _ =>
                if is_dir (Attributes (node_dirent n)) then open_path (node_kids n) (DataSize (node_dirent n)) rest
                else inl STATUS_OBJECT_PATH_NOT_FOUND
            end
        end
  end.

Section disc.
Context {E : Type} {MC : Machine E} {ML : @MachineLaws E MC}.
Implicit Types w : world E.

(** The directory whose table lies at a sector has these files: the table is
    whole sectors of the disc and holds a search tree with one entry for each
    of them, and the entries that are directories have theirs. *)
Inductive directory (dev : Z) : Z -> Z -> list node -> Prop :=
| empty_directory sector : directory dev sector 0 []
| table_directory sector size t ns :
    0 <= sector -> 0 < size < 2 ^ 32 -> size mod XDVD_SECTOR_SIZE = 0 ->
    sector * XDVD_SECTOR_SIZE + size <= capacity dev ->
    holds (dir_table dev sector size) t -> length ns = length (preorder t) ->
    (forall i p n, preorder t !! i = Some p -> ns !! i = Some n -> node_dirent n = p.2) ->
    (forall i p n, preorder t !! i = Some p -> ns !! i = Some n -> is_dir (Attributes p.2) = true ->
       directory dev (DataSector p.2) (DataSize p.2) (node_kids n)) ->
    directory dev sector size ns.

(** What the inner loop of the walk takes off the path is its first segment. *)
Lemma split_segments p seg rest : split_segment p = (seg, rest) ->
  length p = (length seg + length rest)%nat /\ exists segs, segments p = seg :: segs /\
  match rest with
  | [] => segs = []
  | _ :: p' => segs = segments p' /\ segs <> []
  end.
Proof.
  revert seg rest. induction p as [|c p IH]; intros seg rest; cbn [split_segment segments]; [intros [= <- <-]; split; [done | by exists []] |].
  destruct (Z.eqb_spec c BACKSLASH) as [-> | Hc].
  - intros [= <- <-]. split; [done |]. exists (segments p). split_and!; [done | done |]. destruct p as [|x p]; [done |]. cbn.
    destruct (x =? BACKSLASH); [done |]. by destruct (segments p).
  - destruct (split_segment p) as [seg' rest'] eqn:Es. intros [= <- <-]. destruct (IH _ _ eq_refl) as (L & segs & E1 & E2).
    split; [cbn [length]; lia |]. exists segs. by rewrite E1.
Qed.

(** A name looked up in a directory's table. *)
Lemma find_in_directory dev sector size ns name : directory dev sector size ns -> size <> 0 ->
  exists a, XdvdFindInTable (find_fuel (dir_table dev sector size)) (dir_table dev sector size) name = Some a /\
  match a with
  | None => List.find (same_name name) ns = None
  | Some off =>
      exists n, List.find (same_name name) ns = Some n /\ node_dirent n = dirent_at (dir_table dev sector size) off /\
        (is_dir (Attributes (node_dirent n)) = true -> directory dev (DataSector (node_dirent n)) (DataSize (node_dirent n)) (node_kids n))
  end.
Proof.
  intros Hd Hz. inversion Hd as [|? ? t ? H0 H1 H2 H3 Hh HL HN HD]; subst; [done |].
  assert (HT : bytes (dir_table dev sector size)) by (apply bytes_extent; intros; apply disc_bytes).
  destruct (find_in_tree _ t name HT Hh) as (a & Ha & Hs & Hn). exists a. split; [by apply Ha |].
  destruct a as [off|].
  - destruct (proj1 (Hs off) eq_refl) as (d & Hin & Ek). apply list_elem_of_lookup in Hin as [i Hi].
    destruct (lookup_lt_is_Some_2 ns i) as [n0 Hn0]; [rewrite HL; by eapply lookup_lt_Some |].
    destruct (List.find (same_name name) ns) as [n|] eqn:Ef.
    2: { exfalso. pose proof (List.find_none _ _ Ef n0) as F. pose proof (HN i _ n0 Hi Hn0) as E0.
         specialize (F (proj1 (list_elem_of_In _ _) (list_elem_of_lookup_2 _ _ _ Hn0))). unfold same_name in F.
         rewrite E0 in F. cbn in F. by rewrite bool_decide_eq_false in F. }
    exists n. split; [done |]. apply List.find_some in Ef as [Hin Hk]. rewrite <- list_elem_of_In in Hin.
    apply list_elem_of_lookup in Hin as [j Hj]. destruct (lookup_lt_is_Some_2 (preorder t) j) as [q Hq]; [rewrite <- HL; by eapply lookup_lt_Some |].
    pose proof (HN j q n Hq Hj) as E1; pose proof (HD j q n Hq Hj) as E2. unfold same_name in Hk. rewrite bool_decide_eq_true in Hk.
    assert (q = (off, d)) as ->.
    { apply (ordered_keys t); [apply Hh | by eapply list_elem_of_lookup_2 | by eapply list_elem_of_lookup_2 | rewrite <- E1; cbn; congruence]. }
    destruct (holds_preorder _ t _ HT Hh (list_elem_of_lookup_2 _ _ _ Hi)) as [E3 _]. cbn [fst snd] in E1, E2, E3.
    split; [congruence |]. by rewrite E1.
  - destruct (List.find (same_name name) ns) as [n|] eqn:Ef; [| done]. exfalso. apply List.find_some in Ef as [Hin Hk].
    rewrite <- list_elem_of_In in Hin. apply list_elem_of_lookup in Hin as [j Hj].
    destruct (lookup_lt_is_Some_2 (preorder t) j) as [q Hq]; [rewrite <- HL; by eapply lookup_lt_Some |].
    pose proof (HN j q n Hq Hj) as E1. unfold same_name in Hk. rewrite bool_decide_eq_true in Hk.
    apply (proj1 Hn eq_refl q); [by eapply list_elem_of_lookup_2 | congruence].
Qed.

(** The control block is for the entry; a failure has none. *)
Definition resolved (vcb NameBuf : Z) (r : Z * option XDVD_FCB) : Prop :=
  match r.2 with
  | Some f => r.1 = STATUS_SUCCESS /\ Fcb_Vcb f = vcb /\ Fcb_NameBuffer f = NameBuf /\
      0 <= Fcb_DataSector f < 2 ^ 32 /\ 0 <= Fcb_DataSize f < 2 ^ 32
  | None => NT_SUCCESS r.1 = false
  end.

(** The outcome is that of the descent, or the machine failed. *)
Definition agrees (dev vcb NameBuf : Z) (spec : Z + node) (r : Z * option XDVD_FCB) : Prop :=
  r = match spec with
      | inl st => (st, None)
      | inr n => (STATUS_SUCCESS, Some (fcb_of vcb NameBuf (node_dirent n)))
      end \/ (r.2 = None /\ ~ healthy dev).

Lemma dirent_range T off : bytes T ->
  0 <= DataSector (dirent_at T off) < 2 ^ 32 /\ 0 <= DataSize (dirent_at T off) < 2 ^ 32.
Proof. intros HT. cbn. split; apply load32_range; auto with bytes. Qed.

(** The table read for a directory is the directory's. *)
Lemma table_find dev sector size ns data name : directory dev sector size ns -> size <> 0 ->
  Z.of_nat (length data) = table_bytes size -> take (Z.to_nat size) data = dir_table dev sector size ->
  match XdvdFindInTable (find_fuel data) data name with
  | None => False
  | Some None => List.find (same_name name) ns = None
  | Some (Some off) =>
      exists n, List.find (same_name name) ns = Some n /\ node_dirent n = dirent_at data off /\
        (is_dir (Attributes (dirent_at data off)) = true ->
         directory dev (DataSector (dirent_at data off)) (DataSize (dirent_at data off)) (node_kids n))
  end.
Proof.
  intros Hd Hz HL Ht. assert (data = dir_table dev sector size) as ->.
  { inversion Hd; subst; [done |]. rewrite table_bytes_whole in HL by done. rewrite <- Ht, take_ge by lia. done. }
  destruct (find_in_directory dev sector size ns name Hd Hz) as (a & -> & Ha). destruct a as [off|]; [| done].
  destruct Ha as (n & En & Ed & Hk). exists n. split_and!; [done | done |]. by rewrite Ed in Hk.
Qed.

Lemma directory_readable dev sector size ns : directory dev sector size ns -> size <> 0 ->
  0 <= sector /\ size <= table_bytes size /\ sector * XDVD_SECTOR_SIZE + table_bytes size <= capacity dev.
Proof. intros Hd Hz. inversion Hd; subst; [done |]. rewrite table_bytes_whole by done. lia. Qed.

Definition held (table : option (Z * list Z)) : gset Z := match table with Some (b, _) => {[b]} | None => ∅ end.

Lemma agrees_spec dev vcb NameBuf spec r : r = match spec with
      | inl st => (st, None)
      | inr n => (STATUS_SUCCESS, Some (fcb_of vcb NameBuf (node_dirent n)))
      end -> agrees dev vcb NameBuf spec r.
Proof. by left. Qed.

(** The block is freed and the call ends with a status the descent has. *)
Lemma wp_resolve_end p w0 w table dev vcb NameBuf (r : Z * option XDVD_FCB) (spec : list node -> Z + node) (D : list node -> Prop) :
  grown w0 w (held table) -> resolved vcb NameBuf r ->
  (forall ns, D ns -> r = match spec ns with
      | inl st => (st, None)
      | inr n => (STATUS_SUCCESS, Some (fcb_of vcb NameBuf (node_dirent n)))
      end) ->
  wp p (free_opt table;; ret r) w (fun r w' => grown w0 w' ∅ /\ resolved vcb NameBuf r /\
    forall ns, D ns -> agrees dev vcb NameBuf (spec ns) r).
Proof.
  intros G R S. apply wp_bind, (wp_free_opt p w0 _ _ _ _ G); [done |]. intros w' G'. apply wp_ret.
  split_and!; [done | done |]. intros ns Hd. left. auto.
Qed.

Lemma wp_resolve_loop p w0 dev vcb NameBuf : forall fuel path sector size table w,
  (length path < fuel)%nat -> 0 <= size < 2 ^ 32 -> grown w0 w (held table) ->
  (p = true \/ exists ns, directory dev sector size ns) ->
  wp p (resolve_loop fuel vcb NameBuf dev path sector size table) w (fun r w' =>
    grown w0 w' ∅ /\ resolved vcb NameBuf r /\
    forall ns, directory dev sector size ns -> agrees dev vcb NameBuf (open_path ns size (segments path)) r).
Proof.
  induction fuel as [|fuel IH]; intros path sector size table w Hf Hs G Hp; [lia |]. cbn [resolve_loop].
  destruct path as [|c path]; [by apply wp_resolve_end |].
  destruct (split_segment (c :: path)) as [seg rest] eqn:Esplit.
  destruct (split_segments _ _ _ Esplit) as (Hlen & segs & -> & Hrest). cbn [open_path].
  destruct ((length seg =? 0)%nat || (256 <? length seg)%nat) eqn:Elen; [by apply wp_resolve_end |].
  destruct (existsb (fun c => 0x7F <? c) seg) eqn:Eascii; [by apply wp_resolve_end |].
  apply wp_bind, (wp_free_opt p w0 _ _ _ _ G); [done |]. intros w1 G1.
  apply wp_bind, (wp_read_table p w0 _ _ _ _ _ _ G1); [lia | |].
  { intros st w2 G2 Hst Hz Hh. rewrite Hst. apply wp_ret. split_and!; [done | done |]. intros ns Hd.
    destruct (Z.eqb_spec size 0) as [-> | Hne]; [apply agrees_spec; by rewrite Hz |].
    right. split; [done |]. intros Hhe. destruct (directory_readable _ _ _ _ Hd Hne) as (D1 & D2 & D3). by apply Hh. }
  intros b data w2 G2 _ Hz Hle Hl Hb Ht. change (NT_SUCCESS STATUS_SUCCESS) with true. cbn [negb].
  assert (Hfind := fun ns Hd => table_find dev sector size ns data seg Hd Hz Hl Ht). rewrite (proj2 (Z.eqb_neq size 0) Hz).
  assert (G2' : grown w0 w2 (held (Some (b, data)))) by (cbn [held]; by rewrite union_empty_r_L in G2).
  change (pool_free b) with (@free_opt E (Some (b, data))).
  destruct (XdvdFindInTable (find_fuel data) data seg) as [[off|]|].
  - destruct (dirent_range data off Hb) as [Hr1 Hr2]. destruct rest as [|c' p'].
    + apply wp_resolve_end; [done | cbn; tauto |]. intros ns Hd. destruct (Hfind ns Hd) as (n & -> & Ed & _). by rewrite Hrest, Ed.
    + destruct Hrest as [-> Hne]. destruct (is_dir (Attributes (dirent_at data off))) eqn:Edir; cbn [negb].
      * eapply wp_mono.
        -- apply IH; [cbn [length] in *; lia | done | done |].
           destruct Hp as [-> | [ns Hd]]; [by left | right]. destruct (Hfind ns Hd) as (n & _ & _ & Hk). exists (node_kids n). auto.
        -- intros r w' (G' & R' & A'). split_and!; [done | done |]. intros ns Hd. destruct (Hfind ns Hd) as (n & -> & Ed & Hk).
           rewrite Ed, Edir. destruct (segments p') eqn:Es; [done |]. auto.
      * apply wp_resolve_end; [done | done |]. intros ns Hd. destruct (Hfind ns Hd) as (n & -> & Ed & _).
        rewrite Ed, Edir. by destruct (segments p').
  - apply wp_resolve_end; [done | by destruct rest |]. intros ns Hd. rewrite (Hfind ns Hd).
    destruct rest; [by rewrite Hrest | by destruct Hrest as [-> Hne], (segments rest)].
  - destruct Hp as [-> | [ns Hd]]; [done | destruct (Hfind ns Hd)].
Qed.

(** ** Opening *)

(** What opening a path of a volume means: the root, or a descent from it. *)
Definition resolve_spec (vcb NameBuf : Z) (v : XDVD_VCB) (ns : list node) (Path : list Z) : Z * option XDVD_FCB :=
  if bool_decide (Path = [] \/ Path = [BACKSLASH]) then (STATUS_SUCCESS, Some (root_fcb vcb NameBuf v))
  else match open_path ns (RootSize v) (segments (match Path with c :: rest => if c =? BACKSLASH then rest else Path | [] => [] end)) with
       | inl st => (st, None)
       | inr n => (STATUS_SUCCESS, Some (fcb_of vcb NameBuf (node_dirent n)))
       end.

(** The fields of a volume block are words. *)
Definition vcb_ok (v : XDVD_VCB) : Prop := 0 <= RootSector v < 2 ^ 32 /\ 0 <= RootSize v < 2 ^ 32.

Lemma wp_resolve_path p w0 w B vcb NameBuf v Path : grown w0 w B -> vcb_ok v ->
  (p = true \/ exists ns, directory (TargetDevice v) (RootSector v) (RootSize v) ns) ->
  wp p (XdvdResolvePath vcb v Path NameBuf) w (fun r w' => grown w0 w' B /\ resolved vcb NameBuf r /\
    forall ns, directory (TargetDevice v) (RootSector v) (RootSize v) ns ->
      r = resolve_spec vcb NameBuf v ns Path \/ (r.2 = None /\ ~ healthy (TargetDevice v))).
Proof.
  intros G [V1 V2] Hp. unfold XdvdResolvePath, resolve_spec.
  assert (Root : wp p (ret (STATUS_SUCCESS, Some (root_fcb vcb NameBuf v))) w (fun r w' => grown w0 w' B /\ resolved vcb NameBuf r /\
    forall ns, directory (TargetDevice v) (RootSector v) (RootSize v) ns ->
      r = (STATUS_SUCCESS, Some (root_fcb vcb NameBuf v)) \/ (r.2 = None /\ ~ healthy (TargetDevice v)))).
  { apply wp_ret. split_and!; [done | cbn; tauto | by left]. }
  destruct Path as [|c rest]; [rewrite bool_decide_eq_true_2 by (by left); exact Root |].
  destruct ((length rest =? 0)%nat && (c =? BACKSLASH)) eqn:Er.
  { apply andb_true_iff in Er as [Er ->%Z.eqb_eq]. apply Nat.eqb_eq in Er. destruct rest; [| done].
    rewrite bool_decide_eq_true_2 by (by right). exact Root. }
  rewrite bool_decide_eq_false_2.
  2: { intros [? | [= -> ->]]; [done |]. done. }
  eapply wp_mono.
  - apply (wp_resolve_loop p w (TargetDevice v)); [lia | done | by apply grown_refl, (grown_to _ _ _ G) | done].
  - intros r w' (G' & R & A). split_and!; [| done | exact A].
    pose proof (grown_trans _ _ _ _ _ G G') as Gt. by rewrite union_empty_l_L in Gt.
Qed.

(** What an open request answers to the options, for the block found. *)
Definition open_check (Options : Z) (f : XDVD_FCB) : Z :=
  if BooleanFlagOn Options FILE_NON_DIRECTORY_FILE && IsDirectory f then STATUS_FILE_IS_A_DIRECTORY
  else if BooleanFlagOn Options FILE_DIRECTORY_FILE && negb (IsDirectory f) then STATUS_NOT_A_DIRECTORY
  else STATUS_SUCCESS.

(** An open that fails leaves everything; one that succeeds attaches a block
    for the file and its name, and counts. *)
Definition opened (s : driver) (dev : Z) (v : XDVD_VCB) (fo fo' : FILE_OBJECT) (s' : driver) (w w' : world E) (f : XDVD_FCB) : Prop :=
  exists fb nb, FsContext fo' = Some (fb, f) /\ FsContext2 fo' = None /\ FileVpb fo' = Some (Vcb_Vpb v) /\
    CurrentByteOffset fo' = CurrentByteOffset fo /\
    Fcb_Vcb f = dev /\ Fcb_NameBuffer f = nb /\ fb <> nb /\ s' = add_open s dev 1 /\ grown w w' {[fb; nb]} /\
    0 <= Fcb_DataSector f < 2 ^ 32 /\ 0 <= Fcb_DataSize f < 2 ^ 32.

Definition create_post (s : driver) (dev : Z) (v : XDVD_VCB) (Options : Z) (fo : FILE_OBJECT) (w : world E)
    (r : completion * FILE_OBJECT * driver) (w' : world E) : Prop :=
  let '((st, info), fo', s') := r in
  (NT_SUCCESS st = false /\ info = 0 /\ fo' = fo /\ s' = s /\ grown w w' ∅) \/
  (st = STATUS_SUCCESS /\ info = FILE_OPENED /\ exists f, opened s dev v fo fo' s' w w' f /\ open_check Options f = STATUS_SUCCESS).

(** The answer of an open request on a disc that holds the files [ns]: the
    status, and the file's block when it succeeds. *)
Definition create_spec (dev : Z) (v : XDVD_VCB) (Options : Z) (ns : list node) (Path : list Z)
    (st : Z) (fo' : FILE_OBJECT) : Prop :=
  exists nb, match resolve_spec dev nb v ns Path with
  | (e, None) => st = e
  | (_, Some f) => st = open_check Options f /\ (st = STATUS_SUCCESS -> exists fb, FsContext fo' = Some (fb, f))
  end.

(** The name buffer is given back and the request ends with an error. *)
Lemma wp_create_fail p s dev v Options fo w w1 nb st (R : (completion * FILE_OBJECT * driver) -> world E -> Prop) :
  grown w w1 {[nb]} -> NT_SUCCESS st = false ->
  (forall w', create_post s dev v Options fo w ((st, 0), fo, s) w' -> R ((st, 0), fo, s) w') ->
  wp p (pool_free nb;; ret ((st, 0), fo, s)) w1 R.
Proof.
  intros G Hst HR. apply wp_bind, (wp_free p w _ _ _ _ G); [by apply elem_of_singleton |]. intros w'. rewrite difference_diag_L.
  intros G'. apply wp_ret, HR. left. done.
Qed.

Lemma open_check_cases Options f : open_check Options f = STATUS_SUCCESS \/ NT_SUCCESS (open_check Options f) = false.
Proof. unfold open_check. destruct (_ && _); [by right |]. destruct (_ && _); [by right | by left]. Qed.

Lemma wp_create p s dev v fo Options w : is_control s dev = false -> vcb_of s dev = Some v -> Mounted v = true ->
  BooleanFlagOn Options FILE_DELETE_ON_CLOSE = false -> vcb_ok v -> heap_ok w ->
  (p = true \/ exists ns, directory (TargetDevice v) (RootSector v) (RootSize v) ns) ->
  wp p (XdvdDispatchCreate s dev fo Options) w (fun r w' => create_post s dev v Options fo w r w' /\
    forall ns, directory (TargetDevice v) (RootSector v) (RootSize v) ns ->
      create_spec dev v Options ns (FileName fo) r.1.1.1 r.1.2 \/ (NT_SUCCESS r.1.1.1 = false /\ ~ healthy (TargetDevice v))).
Proof.
  intros Hc Hv Hm Hdel Hok Hheap Hp. unfold XdvdDispatchCreate. rewrite Hc, Hv, Hm, Hdel. cbn [negb].
  apply wp_bind, (wp_alloc p w w ∅); [by apply grown_refl | |].
  { intros e Hh. apply wp_ret. split; [left; split_and!; [done.. | by apply grown_env, grown_refl] |].
    intros ns _. right. split; [done |]. intros Hh'. apply Hh. by eexists. }
  intros nb nbdata w1 G1 _ _ _. rewrite union_empty_r_L in G1. apply wp_bind.
  eapply wp_mono; [by apply (wp_resolve_path p w w1 {[nb]}) |]. intros [st scratch] w2 (G2 & R & A). unfold resolved in R.
  destruct scratch as [f|]; cbn [fst snd] in R.
  2: { rewrite R. cbn [negb]. apply (wp_create_fail p s dev v Options fo w); [done | done |]. intros w' P. split; [done |]. intros ns Hd.
       destruct (A ns Hd) as [Es | [_ Hh]]; [left | by right]. exists nb. by rewrite <- Es. }
  destruct R as (-> & R2 & R3 & R4 & R5). change (NT_SUCCESS STATUS_SUCCESS) with true. cbn [negb].
  assert (Spec : forall ns st fo', directory (TargetDevice v) (RootSector v) (RootSize v) ns ->
    (st = open_check Options f /\ (st = STATUS_SUCCESS -> exists fb, FsContext fo' = Some (fb, f))) ->
    create_spec dev v Options ns (FileName fo) st fo').
  { intros ns st fo' Hd Hst. exists nb. destruct (A ns Hd) as [Es | [? _]]; [| done]. by rewrite <- Es. }
  destruct (BooleanFlagOn Options FILE_NON_DIRECTORY_FILE && IsDirectory f) eqn:E1.
  { apply (wp_create_fail p s dev v Options fo w); [done | done |]. intros w' P. split; [done |]. intros ns Hd. left. apply Spec; [done |].
    unfold open_check. by rewrite E1. }
  destruct (BooleanFlagOn Options FILE_DIRECTORY_FILE && negb (IsDirectory f)) eqn:E2.
  { apply (wp_create_fail p s dev v Options fo w); [done | done |]. intros w' P. split; [done |]. intros ns Hd. left. apply Spec; [done |].
    unfold open_check. by rewrite E1, E2. }
  assert (Ec : open_check Options f = STATUS_SUCCESS) by (unfold open_check; by rewrite E1, E2).
  apply wp_bind, (wp_alloc p w w2 {[nb]}); [done | |].
  { intros e Hh. apply (wp_create_fail p s dev v Options fo w); [by apply grown_env | done |]. intros w' P. split; [done |]. intros ns _. right.
    split; [done |]. intros Hh'. apply Hh. by eexists. }
  intros fb fbdata w3 G3 Hnin _ _. apply wp_ret. split.
  - right. split_and!; [done | done |]. exists f. split; [| done]. exists fb, nb. split_and!; try done; try lia. intros ->. apply Hnin. by apply elem_of_singleton.
  - intros ns Hd. left. apply Spec; [done |]. split; [done |]. intros _. by exists fb.
Qed.

(** ** Reading *)

(** A file's bytes on the disc, the last sector included. *)
Definition file_on_disc (dev : Z) (f : XDVD_FCB) : Prop :=
  on_disc dev (Fcb_DataSector f * XDVD_SECTOR_SIZE) (Fcb_DataSize f).

(** The bytes of a request: from the offset to the end of the request or of
    the file. *)
Definition count_of (f : XDVD_FCB) (fileOff userLen : Z) : Z := Z.min userLen (Fcb_DataSize f - fileOff).

Definition file_bytes (dev : Z) (f : XDVD_FCB) : list Z :=
  extent (disc dev) (Fcb_DataSector f * XDVD_SECTOR_SIZE) (Z.to_nat (Fcb_DataSize f)).

Lemma file_bytes_read dev f off n : 0 <= off -> 0 <= n -> off + n <= Fcb_DataSize f ->
  read (file_bytes dev f) off (Z.to_nat n) = extent (disc dev) (Fcb_DataSector f * XDVD_SECTOR_SIZE + off) (Z.to_nat n).
Proof.
  intros H0 H1 H2. unfold read, file_bytes. rewrite drop_extent, take_extent by lia. f_equal. lia.
Qed.

Lemma wp_read p s fo fb f v ByteOffset userLen Mdl w : FsContext fo = Some (fb, f) -> IsDirectory f = false ->
  vcb_of s (Fcb_Vcb f) = Some v -> 0 <= Fcb_DataSector f < 2 ^ 32 -> 0 <= Fcb_DataSize f < 2 ^ 32 ->
  0 <= ByteOffset < Fcb_DataSize f -> 0 < userLen < 2 ^ 32 -> userLen <= Z.of_nat (length Mdl) -> bytes Mdl -> heap_ok w ->
  wp p (XdvdDispatchRead s fo ByteOffset userLen Mdl) w (fun r w' =>
    let '((st, info), fo', Mdl') := r in
    let n := count_of f ByteOffset userLen in
    grown w w' ∅ /\ length Mdl' = length Mdl /\ bytes Mdl' /\ drop (Z.to_nat n) Mdl' = drop (Z.to_nat n) Mdl /\
    ((st = STATUS_SUCCESS /\ info = n /\ fo' = set_position fo (ByteOffset + n) /\
      take (Z.to_nat n) Mdl' = read (file_bytes (TargetDevice v) f) ByteOffset (Z.to_nat n)) \/
     (st <> STATUS_SUCCESS /\ info = 0 /\ fo' = fo /\ (healthy (TargetDevice v) -> ~ file_on_disc (TargetDevice v) f)))).
Proof.
  intros Hf Hdir Hv Hsec Hsz Hoff Hlen Hmdl Hb Hheap. unfold XdvdDispatchRead. rewrite Hf, Hdir.
  assert (Eo : u64 ByteOffset = ByteOffset) by (apply Z.mod_small; lia). rewrite Eo.
  rewrite (proj2 (Z.eqb_neq userLen 0)) by lia. rewrite (proj2 (Z.leb_gt _ _)) by lia.
  assert (En : (if Fcb_DataSize f <? u64 (ByteOffset + userLen) then u32 (Fcb_DataSize f - ByteOffset) else userLen) = count_of f ByteOffset userLen).
  { unfold count_of, u64. rewrite (Z.mod_small (ByteOffset + userLen)) by lia.
    destruct (Z.ltb_spec (Fcb_DataSize f) (ByteOffset + userLen)); [rewrite u32_id by lia |]; lia. }
  rewrite En. assert (Hn : 0 < count_of f ByteOffset userLen <= userLen /\ ByteOffset + count_of f ByteOffset userLen <= Fcb_DataSize f)
    by (unfold count_of; lia). set (n := count_of f ByteOffset userLen) in *. clearbody n.
  rewrite Z.shiftl_mul_pow2 by (unfold XDVD_SECTOR_SHIFT; lia). change (2 ^ XDVD_SECTOR_SHIFT) with XDVD_SECTOR_SIZE.
  assert (Ea : u64 (Fcb_DataSector f * XDVD_SECTOR_SIZE + ByteOffset) = Fcb_DataSector f * XDVD_SECTOR_SIZE + ByteOffset)
    by (apply Z.mod_small; unfold XDVD_SECTOR_SIZE; lia). rewrite Ea.
  apply wp_bind, wp_ask. intros ok e Em. destruct ok; cbn [negb].
  2: { apply wp_ret. split_and!; [by apply grown_env, grown_refl | done | done | done |]. right. split_and!; try done.
       intros Hh. pose proof (healthy_mdl _ Hh (env w)) as Hm. by rewrite Em in Hm. }
  rewrite Hv. apply wp_bind, (wp_read_into_buffer p w _ ∅); [unfold XDVD_SECTOR_SIZE; lia | lia | lia | done | by apply grown_env, grown_refl |].
  intros st got Mdl' w' G Hg HL Hb' Ht Hr Hh.
  destruct (negb (NT_SUCCESS st) || (got <? n)) eqn:Eg; apply wp_ret; split_and!; try done.
  - right. split_and!; [by destruct (NT_SUCCESS st) eqn:?; [| intros ->] | done | done |]. intros Hhe [F1 F2].
    destruct (Hh Hhe) as [H1 H2]; [split; unfold XDVD_SECTOR_SIZE in *; lia |]. rewrite H1 in Eg. cbn in Eg. lia.
  - left. apply orb_false_iff in Eg as [_ Eg]. apply Z.ltb_ge in Eg. assert (got = n) as -> by lia.
    split_and!; [done | done | done |]. rewrite Ht. symmetry. apply file_bytes_read; lia.
Qed.

(** ** Mounting *)

(** The sector that says a disc is in the format. *)
Definition descriptor (dev : Z) : list Z :=
  extent (disc dev) (XDVD_VOLUME_DESCRIPTOR_LBA * XDVD_SECTOR_SIZE) (Z.to_nat XDVD_SECTOR_SIZE).

Lemma length_descriptor dev : length (descriptor dev) = 2048%nat.
Proof. apply length_extent. Qed.

Definition xbox_disc (dev : Z) : Prop :=
  take 20 (descriptor dev) = XDVD_VOLUME_MAGIC /\ take 20 (drop 0x7EC (descriptor dev)) = XDVD_VOLUME_MAGIC.

Lemma is_magic_take l : (20 <= length l)%nat -> is_magic l = true <-> take 20 l = XDVD_VOLUME_MAGIC.
Proof. intros L. unfold is_magic. apply (RtlCompareMemory_all l XDVD_VOLUME_MAGIC 20); [done | cbn; lia]. Qed.

Definition mounts (s : driver) (target vpb : Z) (t : DEVICE_OBJECT) (pb : VPB) (s' : driver) : Prop :=
  exists flags alignment, s' = link_volume s target vpb t pb flags alignment (descriptor target).

Lemma wp_mount p s target vpb t pb w : devices s !! target = Some t -> vpbs s !! vpb = Some pb -> heap_ok w ->
  wp p (XdvdMountVolume s target vpb) w (fun r w' => grown w w' ∅ /\
    ((r.1 = STATUS_SUCCESS /\ DeviceType t = FILE_DEVICE_CD_ROM /\ xbox_disc target /\ mounts s target vpb t pb r.2) \/
     (NT_SUCCESS r.1 = false /\ r.2 = s /\
      (healthy target -> (XDVD_VOLUME_DESCRIPTOR_LBA + 1) * XDVD_SECTOR_SIZE <= capacity target ->
       ~ (DeviceType t = FILE_DEVICE_CD_ROM /\ xbox_disc target))))).
Proof.
  intros Ht Hp Hw. unfold XdvdMountVolume. rewrite Ht, Hp.
  destruct (Z.eqb_spec (DeviceType t) FILE_DEVICE_CD_ROM) as [Et | Et]; cbn [negb].
  2: { apply wp_ret. split; [by apply grown_refl |]. right. split_and!; [done.. |]. intros _ _ [? _]. done. }
  apply wp_bind, (wp_alloc p w w ∅); [by apply grown_refl | |].
  { intros e Hh. apply wp_ret. split; [by apply grown_env, grown_refl |]. right. split_and!; [done.. |]. intros Hh'. destruct Hh. by eexists. }
  intros b data w1 G1 _ HL Hb. rewrite union_empty_r_L in G1. apply wp_bind, wp_target_read; [done | done | unfold XDVD_SECTOR_SIZE; lia |].
  intros st got vd e R.
  change (Z.shiftl XDVD_VOLUME_DESCRIPTOR_LBA XDVD_SECTOR_SHIFT) with (XDVD_VOLUME_DESCRIPTOR_LBA * XDVD_SECTOR_SIZE) in R.
  assert (Fail : forall st' w2, grown w w2 {[b]} -> NT_SUCCESS st' = false ->
    (healthy target -> (XDVD_VOLUME_DESCRIPTOR_LBA + 1) * XDVD_SECTOR_SIZE <= capacity target -> ~ xbox_disc target) ->
    wp p (pool_free b;; ret (st', s)) w2 (fun r w' => grown w w' ∅ /\
      ((r.1 = STATUS_SUCCESS /\ DeviceType t = FILE_DEVICE_CD_ROM /\ xbox_disc target /\ mounts s target vpb t pb r.2) \/
       (NT_SUCCESS r.1 = false /\ r.2 = s /\ (healthy target ->
         (XDVD_VOLUME_DESCRIPTOR_LBA + 1) * XDVD_SECTOR_SIZE <= capacity target ->
         ~ (DeviceType t = FILE_DEVICE_CD_ROM /\ xbox_disc target)))))).
  { intros st' w2 G2 Hst Hx. apply wp_bind, (wp_free p w _ _ _ _ G2); [by apply elem_of_singleton |]. intros w'. rewrite difference_diag_L.
    intros G'. apply wp_ret. split; [done |]. right. split_and!; [done | done |]. intros Hh Hc [_ X]. by apply Hx. }
  destruct (negb (NT_SUCCESS st) || negb (got =? XDVD_SECTOR_SIZE)) eqn:Eg.
  { apply Fail; [by apply grown_env | by destruct (NT_SUCCESS st) eqn:? |]. intros Hh Hc. exfalso.
    destruct (rr_healthy _ _ _ _ _ _ _ R Hh ltac:(done) ltac:(lia) eq_refl eq_refl) as [H1 H2]. by rewrite H1, H2 in Eg. }
  apply orb_false_iff in Eg as [Es%negb_false_iff Eg%negb_false_iff]. apply Z.eqb_eq in Eg as ->.
  destruct (rr_data _ _ _ _ _ _ _ R Es) as [_ Hd]. pose proof (rr_length _ _ _ _ _ _ _ R) as RL. rewrite HL in RL.
  rewrite take_ge in Hd by lia. fold (descriptor target) in Hd. subst vd.
  assert (Em : xbox_disc target <-> is_magic (Magic0 (descriptor target)) = true /\ is_magic (Magic1 (descriptor target)) = true).
  { unfold xbox_disc, Magic0, Magic1. rewrite !is_magic_take; [done | rewrite length_drop, length_descriptor; lia | rewrite length_descriptor; lia]. }
  destruct (negb (is_magic (Magic0 (descriptor target))) || negb (is_magic (Magic1 (descriptor target)))) eqn:Ex.
  { apply Fail; [by apply grown_env | done |]. intros _ _ [X1 X2]%Em. by rewrite X1, X2 in Ex. }
  apply orb_false_iff in Ex as [X1%negb_false_iff X2%negb_false_iff].
  apply wp_bind, wp_ask. intros [[st' flags] al] e' Ec. destruct (NT_SUCCESS st') eqn:Es'; cbn [negb].
  - apply wp_bind, (wp_free p w _ {[b]}); [by do 2 apply grown_env | by apply elem_of_singleton |]. intros w'. rewrite difference_diag_L.
    intros G'. apply wp_ret. split; [done |]. left. split; [reflexivity |]. split; [exact Et |]. split; [apply Em; split; assumption |].
    exists flags, al. reflexivity.
  - apply Fail; [by do 2 apply grown_env | done |]. intros Hh _ _. pose proof (healthy_create _ Hh e) as Hc. cbn [env set_env] in Ec. rewrite Ec in Hc. cbn in Hc. congruence.
Qed.

(** ** Opening and reading, composed *)

Definition new_file (path : list Z) : FILE_OBJECT := FileObject path None None None None 0.

Lemma link_volume_vcb s target vpb t pb flags alignment vd :
  vcb_of (link_volume s target vpb t pb flags alignment vd) (next_device s) =
    Some (Vcb target vpb (RootTableSector vd) (RootTableSize vd) 0 true).
Proof. unfold vcb_of, link_volume. cbn [devices]. by rewrite lookup_insert_eq. Qed.

Lemma vcb_of_add_open s dev v delta : vcb_of s dev = Some v ->
  vcb_of (add_open s dev delta) dev = Some (set_OpenCount v (u32 (OpenCount v + delta))).
Proof.
  unfold vcb_of, add_open. destruct (devices s !! dev) as [d|] eqn:Ed; [| done]. cbn. intros Ev. rewrite Ev. cbn [set_devices devices].
  by rewrite lookup_insert_eq.
Qed.

Lemma descriptor_ok dev : bytes (descriptor dev).
Proof. apply bytes_extent. intros. apply disc_bytes. Qed.

Lemma resolve_spec_file vcb nb v ns path n : path <> [] -> head path <> Some BACKSLASH ->
  open_path ns (RootSize v) (segments path) = inr n ->
  resolve_spec vcb nb v ns path = (STATUS_SUCCESS, Some (fcb_of vcb nb (node_dirent n))).
Proof.
  intros H1 H2 H3. unfold resolve_spec. rewrite bool_decide_eq_false_2 by (intros [? | ->]; done).
  destruct path as [|c rest]; [done |]. destruct (Z.eqb_spec c BACKSLASH) as [-> | _]; [done |]. by rewrite H3.
Qed.

End disc.

(** ** A disc to evaluate the driver on

    The volume descriptor at sector 32, the table of the root at 33, that of
    [DATA] at 265; everywhere else a byte that depends on its place. *)
Module Sample.

Definition volume_descriptor : list Z :=
  pad 0x7EC (XDVD_VOLUME_MAGIC ++ store32 33 ++ store32 2048 ++ store32 0x1234 ++ store32 0) ++ XDVD_VOLUME_MAGIC.

Definition name_a : list Z := [97; 46; 116; 120; 116].
Definition data_table : list Z := pad 2048 (dirent_bytes 0 0 500 3000 0x20 name_a).

Definition disc_image (i : Z) : Z :=
  if (65536 <=? i) && (i <? 65536 + 2048) then nth (Z.to_nat (i - 65536)) volume_descriptor 0
  else if (67584 <=? i) && (i <? 67584 + 2048) then nth (Z.to_nat (i - 67584)) sample_table 0
  else if (542720 <=? i) && (i <? 542720 + 2048) then nth (Z.to_nat (i - 542720)) data_table 0
  else (i * 7) mod 256.

Definition disc_size : Z := 1024 * 2048.

(** The driver below refuses what is not whole sectors, and otherwise reads
    what lies on the disc, and less at its end. *)
Definition simulate (off len : Z) (buf : list Z) : Z * Z * Z * list Z :=
  if negb (off mod XDVD_SECTOR_SIZE =? 0) || negb (len mod XDVD_SECTOR_SIZE =? 0) then (STATUS_INVALID_PARAMETER, 0, 0, buf) else
  let n := Z.max 0 (Z.min len (disc_size - off)) in
  (STATUS_PENDING, STATUS_SUCCESS, n, extent disc_image off (Z.to_nat n) ++ drop (Z.to_nat n) buf).

(** A pool that follows a list of successes and failures, and then has
    memory. *)
#[global] Instance machine : Machine (list bool) := {
  pool_allocate n e := match e with
                       | false :: e' => (None, e')
                       | _ => (Some (replicate (Z.to_nat n) 0), tail e)
                       end;
  build_request _ _ _ e := (true, e);
  call_driver _ off len buf e := (simulate off len buf, e);
  create_device e := ((STATUS_SUCCESS, DO_DEVICE_INITIALIZING, 0), e);
  map_mdl e := (true, e);
  upcase_table _ := 0
}.

(** The same with memory at all times. *)
#[global] Instance good_machine : Machine unit := {
  pool_allocate n e := (Some (replicate (Z.to_nat n) 0), e);
  build_request _ _ _ e := (true, e);
  call_driver _ off len buf e := (simulate off len buf, e);
  create_device e := ((STATUS_SUCCESS, DO_DEVICE_INITIALIZING, 0), e);
  map_mdl e := (true, e);
  upcase_table _ := 0
}.

Lemma nth_bytes (l : list Z) i : forallb (fun b => (0 <=? b) && (b <? 2 ^ 8)) l = true -> is_u8 (nth i l 0).
Proof.
  intros E. apply bytes_nth. rewrite forallb_forall in E. apply List.Forall_forall. intros b Hb. apply E in Hb. unfold is_u8. lia.
Qed.

Lemma image_bytes i : is_u8 (disc_image i).
Proof.
  unfold disc_image. repeat case_match; try (apply nth_bytes; vm_compute; reflexivity).
  unfold is_u8. apply Z.mod_pos_bound. lia.
Qed.

Lemma simulate_law off len buf st ist info buf' : simulate off len buf = (st, ist, info, buf') ->
  0 <= len -> length buf = Z.to_nat len -> bytes buf ->
  length buf' = length buf /\ bytes buf' /\
  (NT_SUCCESS (final_status st ist) = true -> 0 <= info <= len /\ take (Z.to_nat info) buf' = extent disc_image off (Z.to_nat info)).
Proof.
  unfold simulate. destruct (_ || _); intros [= <- <- <- <-] H0 HL Hb; [by split_and! |]. split_and!.
  - rewrite length_app, length_extent, length_drop. lia.
  - apply bytes_app. split; [apply bytes_extent, image_bytes | auto with bytes].
  - intros _. split; [lia |]. by rewrite take_app_length' by (by rewrite length_extent).
Qed.

Lemma zeros_law n : length (replicate (Z.to_nat n) 0) = Z.to_nat n /\ bytes (replicate (Z.to_nat n) 0).
Proof. split; [apply length_replicate | apply bytes_zero]. Qed.

#[global] Instance machine_laws : MachineLaws (list bool).
Proof.
  refine {| disc _ := disc_image; capacity _ := disc_size |}; [intros _; apply image_bytes | done | |].
  - intros n [|[] e] data e' [= <- <-]; apply zeros_law.
  - intros dev off len buf e st ist info buf' e' Ec. apply simulate_law. by apply pair_equal_spec in Ec as [-> _].
Defined.

#[global] Instance good_laws : MachineLaws unit.
Proof.
  refine {| disc _ := disc_image; capacity _ := disc_size |}; [intros _; apply image_bytes | done | |].
  - intros n e data e' [= <- <-]. apply zeros_law.
  - intros dev off len buf e st ist info buf' e' Ec. apply simulate_law. by apply pair_equal_spec in Ec as [-> _].
Defined.

Lemma good_healthy dev : healthy (E := unit) dev.
Proof.
  split; [done | done | done | done |]. intros off len buf e st ist info buf' e' Ec H0 Hl Hc M1 M2. apply pair_equal_spec in Ec as [Ec _].
  unfold simulate in Ec. rewrite M1, M2 in Ec. injection Ec as <- <- <- _. split; [done |]. cbn in Hc. lia.
Qed.

Definition data_tree : tree := default Leaf (build 2 data_table (Some 0)).

Definition files : list node :=
  [FileNode (dirent_at sample_table 0) [];
   FileNode (dirent_at sample_table 24) [FileNode (dirent_at data_table 0) []];
   FileNode (dirent_at sample_table 48) []].

Lemma root_table_is : dir_table (E := unit) 7 33 2048 = sample_table.
Proof. vm_compute. reflexivity. Qed.

Lemma data_table_is : dir_table (E := unit) 7 265 2048 = data_table.
Proof. vm_compute. reflexivity. Qed.

Lemma data_directory : directory (E := unit) 7 265 2048 [FileNode (dirent_at data_table 0) []].
Proof.
  assert (Ep : preorder data_tree = [(0, dirent_at data_table 0)]) by (vm_compute; reflexivity).
  apply (table_directory 7 265 2048 data_tree); [lia | lia | done | by vm_compute | | by rewrite Ep | |].
  - rewrite data_table_is. split; [apply (build_rep 2); vm_compute; reflexivity |]. vm_compute. repeat split; repeat constructor.
  - rewrite Ep. intros [|i] p n [= <-] [= <-]. done.
  - rewrite Ep. intros [|i] p n [= <-] [= <-] Hd. exfalso. by vm_compute in Hd.
Qed.

Lemma root_directory : directory (E := unit) 7 33 2048 files.
Proof.
  apply (table_directory 7 33 2048 sample_tree); [lia | lia | done | by vm_compute | | by rewrite sample_preorder | |].
  - rewrite root_table_is. apply sample_holds.
  - rewrite sample_preorder. intros [|[|[|i]]] p n [= <-] [= <-]; done.
  - rewrite sample_preorder. intros [|[|[|i]]] p n [= <-] [= <-] Hd; [exfalso; by vm_compute in Hd | | exfalso; by vm_compute in Hd].
    apply data_directory.
Qed.

(** The optical drive is device 7, the control device 1. *)
Definition drive : DEVICE_OBJECT := Device FILE_DEVICE_CD_ROM 1 0 2048 0 (Some 3) None.
Definition drive_vpb : VPB := Vpb None 0 0 1.
Definition state : driver :=
  Driver (Some 1) [] {[7 := drive; 1 := Device FILE_DEVICE_CD_ROM_FILE_SYSTEM 1 0 0 0 None None]} {[3 := drive_vpb]} 10.
Definition volume : XDVD_VCB := Vcb 7 3 33 2048 0 true.
Definition mounted : driver := link_volume state 7 3 drive drive_vpb DO_DEVICE_INITIALIZING 0 volume_descriptor.
Definition start {E} (e : E) : world E := World e ∅ 100 false.

(** data\A.TXT *)
Definition path_a : list Z := [100; 97; 116; 97; 92; 65; 46; 84; 88; 84].

Lemma start_ok {E} (e : E) : heap_ok (start e).
Proof. intros b Hb. cbn in Hb. by apply not_elem_of_empty in Hb. Qed.

Lemma descriptor_is : descriptor (E := unit) 7 = volume_descriptor.
Proof. vm_compute. reflexivity. Qed.

Lemma is_xbox_disc : xbox_disc (E := unit) 7.
Proof. unfold xbox_disc. rewrite descriptor_is. split; vm_compute; reflexivity. Qed.

End Sample.

(** ** What the driver promises *)

Section promises.
Context {E : Type} {MC : Machine E} {ML : @MachineLaws E MC}.

(** C18: Opening a path on a mounted volume whose disc holds the files [ns]
    returns.  It fails and leaves driver, file object and pool as they were,
    or it succeeds, attaches the file's block to the file object, counts one
    more open file and keeps exactly two pool blocks.  On a healthy machine,
    and whenever it succeeds, the outcome is that of the descent by name
    through the files, checked against the directory options. *)
Theorem open_correct s dev v fo Options ns (w : world E) :
  is_control s dev = false -> vcb_of s dev = Some v -> Mounted v = true ->
  BooleanFlagOn Options FILE_DELETE_ON_CLOSE = false -> vcb_ok v -> heap_ok w ->
  directory (TargetDevice v) (RootSector v) (RootSize v) ns ->
  exists st info fo' s' w', XdvdDispatchCreate s dev fo Options w = Done ((st, info), fo', s') w' /\
    create_post s dev v Options fo w ((st, info), fo', s') w' /\
    (healthy (TargetDevice v) \/ NT_SUCCESS st = true -> create_spec dev v Options ns (FileName fo) st fo').
Proof.
  intros Hc Hv Hm Hdel Hok Hw Hd.
  destruct (wp_done _ _ _ (wp_create false s dev v fo Options w Hc Hv Hm Hdel Hok Hw (or_intror (ex_intro _ ns Hd))))
    as ([[[st info] fo'] s'] & w' & Er & P & A). exists st, info, fo', s', w'. split; [done |]. split; [done |].
  intros Hh. destruct (A ns Hd) as [? | [F N]]; [done |]. cbn in F. destruct Hh as [Hh | Hh]; [done | congruence].
Qed.

(** C19: A read of an open file at an offset inside it returns, frees what it
    allocated and writes nothing past the bytes the file has for the request.
    When it succeeds it delivers exactly the file's bytes from the offset to
    the end of the request or of the file, reports their number and moves
    the file position past them; otherwise it reports none and leaves the
    position.  On a healthy machine, for a file that lies on the disc, it
    succeeds. *)
Theorem read_correct s fo fb f v ByteOffset userLen Mdl (w : world E) :
  FsContext fo = Some (fb, f) -> IsDirectory f = false -> vcb_of s (Fcb_Vcb f) = Some v ->
  0 <= Fcb_DataSector f < 2 ^ 32 -> 0 <= Fcb_DataSize f < 2 ^ 32 -> 0 <= ByteOffset < Fcb_DataSize f ->
  0 < userLen < 2 ^ 32 -> userLen <= Z.of_nat (length Mdl) -> bytes Mdl -> heap_ok w ->
  exists st info fo' Mdl' w', XdvdDispatchRead s fo ByteOffset userLen Mdl w = Done ((st, info), fo', Mdl') w' /\
    grown w w' ∅ /\ length Mdl' = length Mdl /\
    drop (Z.to_nat (count_of f ByteOffset userLen)) Mdl' = drop (Z.to_nat (count_of f ByteOffset userLen)) Mdl /\
    (st = STATUS_SUCCESS -> info = count_of f ByteOffset userLen /\ fo' = set_position fo (ByteOffset + info) /\
      take (Z.to_nat info) Mdl' = read (file_bytes (TargetDevice v) f) ByteOffset (Z.to_nat info)) /\
    (st <> STATUS_SUCCESS -> info = 0 /\ fo' = fo) /\
    (healthy (TargetDevice v) -> file_on_disc (TargetDevice v) f -> st = STATUS_SUCCESS).
Proof.
  intros H1 H2 H3 H4 H5 H6 H7 H8 H9 H10.
  destruct (wp_done _ _ _ (wp_read false s fo fb f v ByteOffset userLen Mdl w H1 H2 H3 H4 H5 H6 H7 H8 H9 H10))
    as ([[[st info] fo'] Mdl'] & w' & Er & G & HL & _ & Hr & P).
  exists st, info, fo', Mdl', w'. split_and!; [done | done | done | done | | |].
  - intros Hst. destruct P as [(_ & -> & -> & Ht) | (F & _)]; [done | done].
  - intros Hst. destruct P as [(F & _) | (_ & -> & -> & _)]; done.
  - intros Hh Hf. destruct P as [(-> & _) | (_ & _ & _ & F)]; [done | by destruct (F Hh)].
Qed.

(** C11: From the device to the bytes: on a healthy optical device whose disc
    carries the descriptor and holds the files [ns], mounting succeeds, then
    opening a path that leads to a file succeeds, then reading it at an
    offset inside it succeeds and delivers the bytes of the file the disc
    holds; the pool holds the two blocks of the open file and no other. *)
Theorem mount_open_read s target vpb t pb ns path n ByteOffset userLen Mdl (w : world E) :
  devices s !! target = Some t -> vpbs s !! vpb = Some pb -> ControlDevice s <> Some (next_device s) ->
  DeviceType t = FILE_DEVICE_CD_ROM -> healthy target -> heap_ok w ->
  (XDVD_VOLUME_DESCRIPTOR_LBA + 1) * XDVD_SECTOR_SIZE <= capacity target -> xbox_disc target ->
  directory target (RootTableSector (descriptor target)) (RootTableSize (descriptor target)) ns ->
  path <> [] -> head path <> Some BACKSLASH ->
  open_path ns (RootTableSize (descriptor target)) (segments path) = inr n -> is_dir (Attributes (node_dirent n)) = false ->
  on_disc target (DataSector (node_dirent n) * XDVD_SECTOR_SIZE) (DataSize (node_dirent n)) ->
  0 <= ByteOffset < DataSize (node_dirent n) -> 0 < userLen < 2 ^ 32 -> userLen <= Z.of_nat (length Mdl) -> bytes Mdl ->
  exists s1 w1 fo s2 w2 fo' Mdl' w3 fb nb, let count := Z.min userLen (DataSize (node_dirent n) - ByteOffset) in
    XdvdMountVolume s target vpb w = Done (STATUS_SUCCESS, s1) w1 /\
    XdvdDispatchCreate s1 (next_device s) (new_file path) 0 w1 = Done ((STATUS_SUCCESS, FILE_OPENED), fo, s2) w2 /\
    XdvdDispatchRead s2 fo ByteOffset userLen Mdl w2 = Done ((STATUS_SUCCESS, count), fo', Mdl') w3 /\
    take (Z.to_nat count) Mdl' =
      extent (disc target) (DataSector (node_dirent n) * XDVD_SECTOR_SIZE + ByteOffset) (Z.to_nat count) /\
    CurrentByteOffset fo' = ByteOffset + count /\ grown w w3 {[fb; nb]}.
Proof.
  intros Ht Hp Hctl Hty Hh Hw Hcap Hx Hd Hn1 Hn2 Ho Hdir Hdisc Hoff Hlen Hmdl Hb.
  destruct (wp_done _ _ _ (wp_mount false s target vpb t pb w Ht Hp Hw)) as ([st1 s1] & w1 & Em & G1 & Pm). cbn [fst snd] in Pm.
  destruct Pm as [(-> & _ & _ & flags & al & ->) | (_ & _ & F)]; [| by destruct (F Hh Hcap)].
  pose proof (link_volume_vcb s target vpb t pb flags al (descriptor target)) as Hv.
  set (s1 := link_volume s target vpb t pb flags al (descriptor target)) in *.
  set (v := Vcb target vpb (RootTableSector (descriptor target)) (RootTableSize (descriptor target)) 0 true) in *.
  assert (Hvok : vcb_ok v) by (split; apply load32_range, bytes_drop, descriptor_ok).
  assert (Hc : is_control s1 (next_device s) = false) by (by apply bool_decide_eq_false).
  destruct (wp_done _ _ _ (wp_create false s1 (next_device s) v (new_file path) 0 w1 Hc Hv eq_refl eq_refl Hvok (grown_to _ _ _ G1)
    (or_intror (ex_intro _ ns Hd)))) as ([[[st2 info2] fo] s2] & w2 & Ec & Pc & Ac).
  destruct (Ac ns Hd) as [[nb Spec] | [_ N]]; [| done]. cbn [fst snd FileName new_file] in Spec.
  rewrite (resolve_spec_file _ nb v ns path n Hn1 Hn2 Ho) in Spec. destruct Spec as [Hst Hfb].
  assert (Hok : open_check 0 (fcb_of (next_device s) nb (node_dirent n)) = STATUS_SUCCESS) by done. rewrite Hok in Hst. subst st2.
  destruct Pc as [(F & _) | (_ & -> & f & (fb & nb' & C1 & _ & _ & _ & C2 & _ & _ & -> & G2 & C3 & C4) & _)]; [done |].
  destruct (Hfb eq_refl) as [fb' C1']. rewrite C1 in C1'. injection C1' as -> ->.
  pose proof (vcb_of_add_open s1 (next_device s) v 1 Hv) as Hv2.
  destruct (wp_done _ _ _ (wp_read false _ fo fb' _ _ ByteOffset userLen Mdl w2 C1 Hdir Hv2 C3 C4 Hoff Hlen Hmdl Hb (grown_to _ _ _ G2)))
    as ([[[st3 info3] fo'] Mdl'] & w3 & Er & G3 & _ & _ & _ & Pr).
  destruct Pr as [(-> & -> & -> & Hdata) | (_ & _ & _ & F)]; [| by destruct (F Hh)].
  exists s1, w1, fo, (add_open s1 (next_device s) 1), w2, (set_position fo (ByteOffset + Z.min userLen (DataSize (node_dirent n) - ByteOffset))), Mdl', w3, fb', nb'.
  split_and!; [done | done | done | | done |].
  - unfold count_of in Hdata. cbn [Fcb_DataSize fcb_of] in Hdata. rewrite Hdata. apply (file_bytes_read target (fcb_of (next_device s) nb (node_dirent n))); cbn; lia.
  - pose proof (grown_trans _ _ _ _ _ G1 (grown_trans _ _ _ _ _ G2 G3)) as Gt. by rewrite union_empty_l_L, union_empty_r_L in Gt.
Qed.

End promises.

Lemma open_correct_witness : exists st info fo' s' w',
  XdvdDispatchCreate Sample.mounted 10 (new_file Sample.path_a) 0 (Sample.start tt) = Done ((st, info), fo', s') w' /\
  create_post Sample.mounted 10 Sample.volume 0 (new_file Sample.path_a) (Sample.start tt) ((st, info), fo', s') w' /\
  (healthy (E := unit) 7 \/ NT_SUCCESS st = true -> create_spec 10 Sample.volume 0 Sample.files Sample.path_a st fo').
Proof.
  apply (open_correct Sample.mounted 10 Sample.volume (new_file Sample.path_a) 0 Sample.files);
    [reflexivity | vm_compute; reflexivity | reflexivity | reflexivity | split; cbn; lia | apply Sample.start_ok | apply Sample.root_directory].
Defined.

Definition sample_fcb : XDVD_FCB := Fcb 10 500 3000 0x20 false false 101 Sample.name_a.
Definition sample_open : FILE_OBJECT := FileObject Sample.path_a (Some (102, sample_fcb)) None (Some 3) None 0.

Lemma read_correct_witness : exists st info fo' Mdl' w',
  XdvdDispatchRead Sample.mounted sample_open 1000 4000 (replicate 4000 0) (Sample.start tt) = Done ((st, info), fo', Mdl') w' /\
  grown (Sample.start tt) w' ∅ /\ length Mdl' = length (replicate 4000 0) /\
  drop (Z.to_nat 2000) Mdl' = drop (Z.to_nat 2000) (replicate 4000 0) /\
  (st = STATUS_SUCCESS -> info = 2000 /\ fo' = set_position sample_open (1000 + info) /\
    take (Z.to_nat info) Mdl' = read (file_bytes (E := unit) 7 sample_fcb) 1000 (Z.to_nat info)) /\
  (st <> STATUS_SUCCESS -> info = 0 /\ fo' = sample_open) /\
  (healthy (E := unit) 7 -> file_on_disc (E := unit) 7 sample_fcb -> st = STATUS_SUCCESS).
Proof.
  apply (read_correct Sample.mounted sample_open 102 sample_fcb Sample.volume 1000 4000 (replicate 4000 0) (Sample.start tt));
    [reflexivity | reflexivity | vm_compute; reflexivity | cbn; lia | cbn; lia | cbn; lia | lia
    | rewrite length_replicate; lia | apply bytes_zero | apply Sample.start_ok].
Defined.

Lemma mount_open_read_witness :
  exists s1 w1 fo s2 w2 fo' Mdl' w3 fb nb,
    XdvdMountVolume Sample.state 7 3 (Sample.start tt) = Done (STATUS_SUCCESS, s1) w1 /\
    XdvdDispatchCreate s1 10 (new_file Sample.path_a) 0 w1 = Done ((STATUS_SUCCESS, FILE_OPENED), fo, s2) w2 /\
    XdvdDispatchRead s2 fo 2000 4000 (replicate 4000 0) w2 = Done ((STATUS_SUCCESS, 1000), fo', Mdl') w3 /\
    take (Z.to_nat 1000) Mdl' = extent (disc (E := unit) 7) (500 * XDVD_SECTOR_SIZE + 2000) (Z.to_nat 1000) /\
    CurrentByteOffset fo' = 3000 /\ grown (Sample.start tt) w3 {[fb; nb]}.
Proof.
  apply (mount_open_read Sample.state 7 3 Sample.drive Sample.drive_vpb Sample.files Sample.path_a
    (FileNode (Dirent 0 0 500 3000 0x20 5 Sample.name_a) []) 2000 4000 (replicate 4000 0) (Sample.start tt));
    [reflexivity | reflexivity | done | reflexivity | apply Sample.good_healthy | apply Sample.start_ok | by vm_compute
    | apply Sample.is_xbox_disc | rewrite Sample.descriptor_is; apply Sample.root_directory | done | done
    | rewrite Sample.descriptor_is; vm_compute; reflexivity | vm_compute; reflexivity | split; by vm_compute
    | split; by vm_compute | lia | rewrite length_replicate; lia | apply bytes_zero].
Defined.
