(* ===== verification/XdvdQuery.v ===== *)
(** * Directory queries of the disc file system

    Models [XdvdMatchName] and [XdvdDispatchDirectoryControl] of
    [src/drivers/filesystems/xdvdfs/xdvdfs.c], with the comparison of the
    search pattern from [src/sdk/lib/rtl/unicode.c] and [nls.c]: the context
    block of a handle is made at its first query, the directory is read into
    it once, and each query writes as many records of the class asked for as
    fit, chained by their offsets, and remembers where it stopped.  The
    lemmas read a chain of records back. *)

From stdpp Require Import prelude list numbers gmap.
From Stdlib Require Import ZArith Lia.
From S2P Require Import Prelude Bytes XdvdDir XdvdIo Xdvdfs.

Local Open Scope Z_scope.

Definition STATUS_NO_MORE_FILES : Z := 0x80000006.
Definition STATUS_INVALID_USER_BUFFER : Z := 0xC00000E8.
Definition IRP_MN_QUERY_DIRECTORY : Z := 1.
Definition SL_RESTART_SCAN : Z := 1.
Definition SL_RETURN_SINGLE_ENTRY : Z := 2.
Definition FileDirectoryInformation : Z := 1.
Definition FileFullDirectoryInformation : Z := 2.
Definition FileBothDirectoryInformation : Z := 3.
Definition FileNamesInformation : Z := 12.
Definition STAR : Z := 42.

(** [sizeof(XDVD_CCB)] and that of one of its entries. *)
Definition SIZEOF_CCB : Z := 24.
Definition SIZEOF_ENTRY : Z := 268.

(** A string of the caller's. *)
Definition caller_string (chars : list Z) : UNICODE_STRING :=
  Ustr (Some (0, chars)) (2 * Z.of_nat (length chars)) (2 * Z.of_nat (length chars)).

Definition empty_ccb : XDVD_CCB := Ccb None 0 0 (Ustr None 0 0) false.

Section query.
Context {E : Type} `{Machine E}.

(** ** Strings *)

Definition RtlpUpcaseUnicodeChar (Source : Z) : Z :=
  if Source <? 97 then Source
  else if Source <=? 122 then Source - 32
  else
    let Offset := upcase_table (Z.land (Z.shiftr Source 8) 0xFF) in
    let Offset := upcase_table (u16 (Offset + Z.land (Z.shiftr Source 4) 0xF)) in
    let Offset := upcase_table (u16 (Offset + Z.land Source 0xF)) in
    u16 (Source + Offset).

(** The loop over the shorter string; then the lengths decide. *)
Fixpoint RtlCompareUnicodeString (p1 p2 : list Z) : Z :=
  match p1, p2 with
  | c1 :: p1', c2 :: p2' =>
      let r := RtlpUpcaseUnicodeChar c1 - RtlpUpcaseUnicodeChar c2 in
      if r =? 0 then RtlCompareUnicodeString p1' p2' else r
  | _, _ => 2 * Z.of_nat (length p1) - 2 * Z.of_nat (length p2)
  end.

(** The second string is the stored pattern, whose buffer may be null. *)
Definition RtlEqualUnicodeString (s1 : list Z) (s2 : UNICODE_STRING) : M E bool :=
  if negb (2 * Z.of_nat (length s1) =? Length s2) then ret false
  else
    match Buffer s2 with
    | Some (_, chars) => ret (RtlCompareUnicodeString s1 chars =? 0)
    | None => if Length s2 =? 0 then ret true else fault
    end.

Fixpoint match_chars (Name Pattern : list Z) : bool :=
  match Name, Pattern with
  | a :: Name', b :: Pattern' => if negb (upper a =? upper b) then false else match_chars Name' Pattern'
  | _, _ => true
  end.

Definition XdvdMatchName (Name : list Z) (NameLen : Z) (Pattern : option UNICODE_STRING) : M E bool :=
  match Pattern with
  | None => ret true
  | Some p =>
      if Length p =? 0 then ret true
      else
        match Buffer p with
        | None =>
            if (Length p =? 2) || (Length p =? NameLen * 2) then fault else ret false
        | Some (_, chars) =>
            if (Length p =? 2) && (nth 0 chars 0 =? STAR) then ret true
            else if negb (Length p =? NameLen * 2) then ret false
            else ret (match_chars Name chars)
        end
  end.

(** ** The context block *)

Definition set_cursor (c : XDVD_CCB) (i : nat) : XDVD_CCB := Ccb (Entries c) (EntryCount c) i (SearchPattern c) (EnumLoaded c).
Definition set_pattern (c : XDVD_CCB) (p : UNICODE_STRING) : XDVD_CCB :=
  Ccb (Entries c) (EntryCount c) (NextIndex c) p (EnumLoaded c).

(** A restart or another pattern starts over; [false] when the pattern could
    not be stored. *)
Definition update_pattern (ccb : XDVD_CCB) (flags : Z) (pattern : option (list Z)) : M E (bool * XDVD_CCB) :=
  other ← (if BooleanFlagOn flags SL_RESTART_SCAN then ret true
           else match pattern with
                | Some (c :: cs) => eq ← RtlEqualUnicodeString (c :: cs) (SearchPattern ccb); ret (negb eq)
                | _ => ret false
                end);
  if negb other then ret (true, ccb)
  else
    let ccb := set_cursor ccb 0 in
    match pattern with
    | Some (c :: cs) =>
        let len := 2 * Z.of_nat (length (c :: cs)) in
        match Buffer (SearchPattern ccb) with Some (b, _) => pool_free b | None => ret tt end;;
        buf ← pool_alloc len;
        match buf with
        | None => ret (false, set_pattern ccb (Ustr None (Length (SearchPattern ccb)) (MaximumLength (SearchPattern ccb))))
        | Some (b, _) => ret (true, set_pattern ccb (Ustr (Some (b, c :: cs)) len len))
        end
    | _ => ret (true, ccb)
    end.

(** The directory is read once; a status when it could not be.  The size of
    the array is taken in 32 bits; writing past its end is a fault. *)
Definition load_entries (s : driver) (fcb : XDVD_FCB) (ccb : XDVD_CCB) : M E (option Z * XDVD_CCB) :=
  if EnumLoaded ccb then ret (None, ccb)
  else
    match vcb_of s (Fcb_Vcb fcb) with
    | None => fault
    | Some v =>
        '((status, table) : Z * option (Z * list Z)) ← XdvdReadDirentTable (TargetDevice v) (Fcb_DataSector fcb) (Fcb_DataSize fcb);
        if negb (NT_SUCCESS status) then ret (Some status, ccb)
        else
          match table with
          | None => fault
          | Some (block, T) =>
              let cap := (length T / 16 + 1)%nat in
              entries ← pool_alloc (mul32 (Z.of_nat cap) SIZEOF_ENTRY);
              match entries with
              | None => pool_free block;; ret (Some STATUS_INSUFFICIENT_RESOURCES, ccb)
              | Some (eb, _) =>
                  match XdvdEnumerateTable T cap with
                  | None => hang
                  | Some (_, out) =>
                      if mul32 (Z.of_nat cap) SIZEOF_ENTRY <? Z.of_nat (length out) * SIZEOF_ENTRY then fault
                      else
                      pool_free block;;
                      ret (None, Ccb (Some (eb, out)) (length out) (NextIndex ccb) (SearchPattern ccb) true)
                  end
              end
          end
    end.

(** ** Records *)

(** The offset of the name in the structure of a class. *)
Definition fixed_size (cls : Z) : option Z :=
  if cls =? FileDirectoryInformation then Some 64
  else if cls =? FileFullDirectoryInformation then Some 68
  else if cls =? FileBothDirectoryInformation then Some 94
  else if cls =? FileNamesInformation then Some 12
  else None.

Definition entry_size (fixedSize NameLen : Z) : Z := Z.land (add32 (add32 fixedSize (NameLen * 2)) 7) (not32 7).

Definition dir_record (cls fixedSize : Z) (e : ENTRY) : list Z :=
  let entrySize := entry_size fixedSize (E_NameLength e) in
  let r := replicate (Z.to_nat entrySize) 0 in
  let r := write r 0 (store32 entrySize) in
  if cls =? FileNamesInformation then
    let r := write r 8 (store32 (E_NameLength e * 2)) in
    write r (Z.to_nat fixedSize) (wide (E_Name e))
  else
    let r := write r 40 (store64 (E_DataSize e)) in
    let r := write r 48 (store64 (AllocationSize (E_DataSize e))) in
    let r := write r 56 (store32 (file_attributes (is_dir (E_Attributes e)))) in
    let r := write r 60 (store32 (E_NameLength e * 2)) in
    let r := if cls =? FileBothDirectoryInformation then write r 68 [0] else r in
    write r (Z.to_nat fixedSize) (wide (E_Name e)).

(** The loop's variables. *)
Record emission := Emission { out : list Z; used : Z; lastOff : Z; next : nat }.

(** [inl] is the early return for an unknown class; otherwise the status and
    the variables where the loop ends. *)
Fixpoint emit (es : list ENTRY) (i : nat) (cls flags : Z) (pattern : option UNICODE_STRING) (m : emission)
    : M E (Z + Z * emission) :=
  match es with
  | [] => ret (inr (STATUS_SUCCESS, m))
  | e :: es' =>
      hit ← XdvdMatchName (E_Name e) (E_NameLength e) pattern;
      if negb hit then emit es' (S i) cls flags pattern m
      else
        match fixed_size cls with
        | None => ret (inl STATUS_INVALID_INFO_CLASS)
        | Some fixedSize =>
            let entrySize := entry_size fixedSize (E_NameLength e) in
            if Z.of_nat (length (out m)) <? add32 (used m) entrySize then
              ret (inr (if used m =? 0 then STATUS_BUFFER_OVERFLOW else STATUS_SUCCESS, m))
            else
              let m := Emission (write (out m) (Z.to_nat (used m)) (dir_record cls fixedSize e))
                                (add32 (used m) entrySize) (used m) (S i) in
              if BooleanFlagOn flags SL_RETURN_SINGLE_ENTRY then ret (inr (STATUS_SUCCESS, m))
              else emit es' (S i) cls flags pattern m
        end
  end.

(** Which pattern the entries are matched against. *)
Definition effective_pattern (ccb : XDVD_CCB) (pattern : option (list Z)) : option UNICODE_STRING :=
  match pattern with
  | Some (c :: cs) => Some (caller_string (c :: cs))
  | _ => if Length (SearchPattern ccb) =? 0 then None else Some (SearchPattern ccb)
  end.

(** The end of a query: matching entries from the cursor on go to the
    buffer, the last record is made the end of the chain. *)
Definition emit_records (fo : FILE_OBJECT) (cb : Z) (ccb : XDVD_CCB) (cls flags : Z) (pattern : option (list Z)) (buf : list Z)
    : M E (completion * FILE_OBJECT * option (list Z)) :=
  let entries := match Entries ccb with Some (_, es) => take (EntryCount ccb) es | None => [] end in
  r ← emit (drop (NextIndex ccb) entries) (NextIndex ccb) cls flags (effective_pattern ccb pattern) (Emission buf 0 0 (NextIndex ccb));
  match r with
  | inl status => ret ((status, 0), set_contexts fo (FsContext fo) (Some (cb, ccb)), Some buf)
  | inr (status, m) =>
      let fo := set_contexts fo (FsContext fo) (Some (cb, set_cursor ccb (next m))) in
      if 0 <? used m then
        ret ((status, used m), fo, Some (write (out m) (Z.to_nat (lastOff m)) (store32 0)))
      else ret ((if status =? STATUS_SUCCESS then STATUS_NO_MORE_FILES else status, used m), fo, Some (out m))
  end.

(** The handle's context block made ready: allocated at the first query, its
    pattern updated, its entries loaded.  A status when that failed, and the
    context the file object is left with. *)
Definition prepare (s : driver) (FsContext2 : option (Z * XDVD_CCB)) (fcb : XDVD_FCB) (flags : Z) (pattern : option (list Z))
    : M E (option Z * option (Z * XDVD_CCB)) :=
  ccb ← match FsContext2 with
        | Some c => ret (Some c)
        | None => b ← pool_alloc SIZEOF_CCB; ret (p ← b; Some (p.1, empty_ccb))
        end;
  match ccb with
  | None => ret (Some STATUS_INSUFFICIENT_RESOURCES, None)
  | Some (cb, ccb) =>
      '((stored, ccb) : bool * XDVD_CCB) ← update_pattern ccb flags pattern;
      if negb stored then ret (Some STATUS_INSUFFICIENT_RESOURCES, Some (cb, ccb))
      else
        '((failed, ccb) : option Z * XDVD_CCB) ← load_entries s fcb ccb;
        ret (failed, Some (cb, ccb))
  end.

Definition XdvdDispatchDirectoryControl (s : driver) (fo : FILE_OBJECT) (MinorFunction cls flags : Z)
    (pattern : option (list Z)) (UserBuffer Mdl : option (list Z))
    : M E (completion * FILE_OBJECT * option (list Z)) :=
  if negb (MinorFunction =? IRP_MN_QUERY_DIRECTORY) then ret ((STATUS_INVALID_DEVICE_REQUEST, 0), fo, UserBuffer)
  else
    match FsContext fo with
    | None => ret ((STATUS_INVALID_PARAMETER, 0), fo, UserBuffer)
    | Some (fb, fcb) =>
        if negb (IsDirectory fcb) then ret ((STATUS_INVALID_PARAMETER, 0), fo, UserBuffer)
        else
          outBuf ← match UserBuffer, Mdl with
                   | None, Some m => ok ← ask map_mdl; ret (if ok : bool then Some m else None)
                   | _, _ => ret UserBuffer
                   end;
          match outBuf with
          | None => ret ((STATUS_INVALID_USER_BUFFER, 0), fo, outBuf)
          | Some buf =>
              if (length buf =? 0)%nat then ret ((STATUS_INVALID_USER_BUFFER, 0), fo, outBuf)
              else
                '((failed, ccb) : option Z * option (Z * XDVD_CCB)) ← prepare s (FsContext2 fo) fcb flags pattern;
                match failed, ccb with
                | Some status, _ => ret ((status, 0), set_contexts fo (FsContext fo) ccb, outBuf)
                | None, Some (cb, ccb) => emit_records fo cb ccb cls flags pattern buf
                | None, None => fault
                end
          end
    end.

End query.

(** ** Reading records back *)

Record info := Info { i_name : list Z; i_size : Z; i_allocation : Z; i_attributes : Z }.

(** [n] characters of a buffer. *)
Fixpoint narrow (n : nat) (l : list Z) : list Z :=
  match n with
  | O => []
  | S n' => load16 l :: narrow n' (drop 2 l)
  end.

(** A record, as its class's structure is read; the names class has names
    only. *)
Definition decode_record (cls : Z) (r : list Z) : info :=
  let f := Z.to_nat (default 0 (fixed_size cls)) in
  if cls =? FileNamesInformation then
    Info (narrow (Z.to_nat (load32 (drop 8 r) / 2)) (drop f r)) 0 0 0
  else
    Info (narrow (Z.to_nat (load32 (drop 60 r) / 2)) (drop f r))
         (load64 (drop 40 r)) (load64 (drop 48 r)) (load32 (drop 56 r)).

(** The chain from the front of a buffer. *)
Fixpoint decode_chain (fuel : nat) (cls : Z) (l : list Z) : list info :=
  match fuel with
  | O => []
  | S fuel' =>
      decode_record cls l ::
      (if load32 l =? 0 then [] else decode_chain fuel' cls (drop (Z.to_nat (load32 l)) l))
  end.

Definition info_of (cls : Z) (e : ENTRY) : info :=
  if cls =? FileNamesInformation then Info (E_Name e) 0 0 0
  else Info (E_Name e) (E_DataSize e) (AllocationSize (E_DataSize e)) (file_attributes (is_dir (E_Attributes e))).

(** An entry as the enumeration writes them. *)
Record entry_ok (e : ENTRY) : Prop := EntryOk {
  eo_length : Z.of_nat (length (E_Name e)) = E_NameLength e;
  eo_short : E_NameLength e < 255;
  eo_bytes : bytes (E_Name e);
  eo_size : 0 <= E_DataSize e < 2 ^ 32
}.

(** *** Slices of a buffer *)

Definition slice (l : list Z) (k n : nat) : list Z := take n (drop k l).

Lemma slice_write_eq l off src n : (off + length src <= length l)%nat -> n = length src -> slice (write l off src) off n = src.
Proof.
  intros L ->. unfold slice, write. rewrite drop_app_length' by (rewrite length_take; lia). by rewrite take_app_length.
Qed.

Lemma slice_write_ne l off src k n : (off + length src <= length l)%nat -> (k + n <= off \/ off + length src <= k)%nat ->
  slice (write l off src) k n = slice l k n.
Proof.
  intros L [H | H].
  - unfold slice, write. rewrite drop_app_le by (rewrite length_take; lia). rewrite take_app_le by (rewrite length_drop, length_take; lia).
    rewrite skipn_firstn_comm, take_take. f_equal. lia.
  - unfold slice. by rewrite drop_write by lia.
Qed.

Lemma load32_slice l k : load32 (drop k l) = load32 (slice l k 4).
Proof. unfold load32, slice. rewrite !nth_lookup, !lookup_take_lt by lia. done. Qed.

Lemma load64_slice l k : load64 (drop k l) = load64 (slice l k 8).
Proof.
  unfold load64, load32, slice. rewrite !nth_lookup, !lookup_drop, !lookup_take_lt by lia. by rewrite !lookup_drop.
Qed.

Lemma load64_store x l : 0 <= x < 2 ^ 64 -> load64 (store64 x ++ l) = x.
Proof.
  intros H. unfold load64, store64. rewrite <- app_assoc, load_store by apply u32_range.
  change (drop 4 (store32 (u32 x) ++ store32 (u32 (Z.shiftr x 32)) ++ l)) with (store32 (u32 (Z.shiftr x 32)) ++ l).
  rewrite load_store by apply u32_range. rewrite Z.shiftr_div_pow2 by lia. unfold u32.
  rewrite (Z.mod_small (x / 2 ^ 32)) by (split; [apply Z.div_pos; lia | apply Z.div_lt_upper_bound; lia]).
  pose proof (Z.div_mod x (2 ^ 32)). lia.
Qed.

Lemma load16_store c l : 0 <= c < 2 ^ 16 -> load16 (store16 c ++ l) = c.
Proof.
  intros H. unfold load16, store16, u8. cbn [app nth]. rewrite Z.shiftr_div_pow2 by lia.
  rewrite (Z.mod_small (c / 2 ^ 8)) by (split; [apply Z.div_pos; lia | apply Z.div_lt_upper_bound; lia]).
  pose proof (Z.div_mod c (2 ^ 8)). lia.
Qed.

Lemma narrow_wide name l : bytes name -> narrow (length name) (wide name ++ l) = name.
Proof.
  induction name as [|c name IH]; [done |]. intros [Hc Hn]%bytes_cons. cbn [length narrow wide flat_map].
  rewrite <- app_assoc, load16_store by (unfold is_u8 in Hc; lia). f_equal. exact (IH Hn).
Qed.

Lemma length_wide name : length (wide name) = (2 * length name)%nat.
Proof. unfold wide. induction name as [|c name IH]; [done |]. cbn [flat_map]. rewrite length_app, IH. cbn. lia. Qed.

Lemma narrow_slice n k l : narrow n (drop k l) = narrow n (slice l k (2 * n)).
Proof.
  revert k l. induction n as [|n IH]; intros k l; [done |]. cbn [narrow]. f_equal.
  - unfold load16, slice. rewrite !nth_lookup, !lookup_take_lt by lia. done.
  - rewrite drop_drop, IH. unfold slice at 2. rewrite skipn_firstn_comm, drop_drop. unfold slice. do 2 f_equal. lia.
Qed.

Lemma slice_app l t k n : (k + n <= length l)%nat -> slice (l ++ t) k n = slice l k n.
Proof. intros L. unfold slice. rewrite drop_app_le, take_app_le by (rewrite ?length_drop; lia). done. Qed.

(** *** Records *)

Lemma entry_size_bounds cls f n : fixed_size cls = Some f -> 0 <= n < 255 ->
  f + n * 2 <= entry_size f n <= f + n * 2 + 7 /\ entry_size f n < 2 ^ 10 /\ 12 <= f <= 94.
Proof.
  intros Hf Hn. assert (Hr : 12 <= f <= 94) by (unfold fixed_size in Hf; repeat case_match; simplify_eq; lia).
  unfold entry_size. rewrite (add32_id f (n * 2)), (add32_id (f + n * 2) 7) by lia. change (not32 7) with (not32 (2 ^ 3 - 1)). rewrite land_not_ones by lia.
  pose proof (Z.mod_pos_bound (f + n * 2 + 7) (2 ^ 3) ltac:(lia)). lia.
Qed.

Lemma allocation_range n : 0 <= AllocationSize n < 2 ^ 32.
Proof.
  unfold AllocationSize. pose proof (u32_range (add32 n XDVD_SECTOR_SIZE - 1)) as H. fold (sub32 (add32 n XDVD_SECTOR_SIZE) 1) in H.
  set (x := sub32 (add32 n XDVD_SECTOR_SIZE) 1) in *. change (XDVD_SECTOR_SIZE - 1) with (Z.ones 11).
  rewrite <- Z.ldiff_land, Z.ldiff_ones_r, Z.shiftl_mul_pow2, Z.shiftr_div_pow2 by lia.
  pose proof (Z.div_mod x (2 ^ 11) ltac:(lia)). pose proof (Z.mod_pos_bound x (2 ^ 11) ltac:(lia)).
  assert (0 <= x / 2 ^ 11) by (apply Z.div_pos; lia). lia.
Qed.

(** Lengths through stores, and fields of a record through the stores after
    theirs. *)
Ltac lengths := repeat (rewrite length_write by lengths); rewrite ?length_replicate, ?length_wide; cbn [length store32 store64 app]; lia.
Ltac fields :=
  repeat first [ rewrite slice_write_eq by lengths | rewrite slice_write_ne by lengths ].

Section record.
Context (cls f : Z) (e : ENTRY).
Hypothesis Hf : fixed_size cls = Some f.
Hypothesis He : entry_ok e.

Lemma fixed_cases : cls = FileNamesInformation /\ f = 12 \/
  cls <> FileNamesInformation /\ 64 <= f /\ (cls = FileBothDirectoryInformation -> f = 94).
Proof.
  clear He. unfold fixed_size, FileDirectoryInformation, FileFullDirectoryInformation, FileBothDirectoryInformation, FileNamesInformation in *.
  repeat case_match; simplify_eq; lia.
Qed.

Lemma length_record : length (dir_record cls f e) = Z.to_nat (entry_size f (E_NameLength e)).
Proof.
  pose proof fixed_cases as Hc. destruct He as [HL Hs _ _]. destruct (entry_size_bounds cls f (E_NameLength e) Hf ltac:(lia)) as (B1 & B2 & B3).
  unfold dir_record. destruct (Z.eqb_spec cls FileNamesInformation); [lengths |].
  destruct (Z.eqb_spec cls FileBothDirectoryInformation); lengths.
Qed.

Lemma load_record t : load32 (dir_record cls f e ++ t) = entry_size f (E_NameLength e).
Proof.
  pose proof fixed_cases as Hc. destruct He as [HL Hs _ _]. destruct (entry_size_bounds cls f (E_NameLength e) Hf ltac:(lia)) as (B1 & B2 & B3).
  rewrite <- (drop_0 (dir_record cls f e ++ t)), load32_slice, slice_app by (rewrite length_record; lia).
  transitivity (load32 (store32 (entry_size f (E_NameLength e)) ++ [])); [| apply load_store; unfold is_u32; lia].
  rewrite app_nil_r. f_equal.
  unfold dir_record. destruct (Z.eqb_spec cls FileNamesInformation); [by fields |].
  destruct (Z.eqb_spec cls FileBothDirectoryInformation); by fields.
Qed.

(** A record reads back, whatever its link holds. *)
Lemma decode_dir_record r t : length r = length (dir_record cls f e) ->
  (forall k n, (4 <= k)%nat -> (k + n <= length r)%nat -> slice r k n = slice (dir_record cls f e) k n) ->
  decode_record cls (r ++ t) = info_of cls e.
Proof.
  intros HL Hs. rewrite length_record in HL. pose proof fixed_cases as Hc. destruct He as [EL Es Eb Ez].
  destruct (entry_size_bounds cls f (E_NameLength e) Hf ltac:(lia)) as (B1 & B2 & B3).
  assert (Hat : forall k n, (4 <= k)%nat -> (k + n <= Z.to_nat (f + E_NameLength e * 2))%nat -> slice (r ++ t) k n = slice (dir_record cls f e) k n).
  { intros k n H1 H2. rewrite slice_app by lia. apply Hs; lia. }
  assert (Hw : Z.to_nat (load32 (store32 (E_NameLength e * 2)) / 2) = length (E_Name e)).
  { rewrite <- (app_nil_r (store32 _)), load_store, Z.div_mul by (unfold is_u32; lia). lia. }
  assert (Hn : slice (dir_record cls f e) (Z.to_nat f) (2 * length (E_Name e)) = wide (E_Name e)).
  { unfold dir_record. destruct (Z.eqb_spec cls FileNamesInformation); [by fields |].
    destruct (Z.eqb_spec cls FileBothDirectoryInformation); by fields. }
  assert (Hnarrow : narrow (length (E_Name e)) (drop (Z.to_nat f) (r ++ t)) = E_Name e).
  { rewrite narrow_slice, Hat, Hn by lia. rewrite <- (app_nil_r (wide _)). by apply narrow_wide. }
  unfold decode_record, info_of. rewrite Hf. cbn [default from_option id].
  destruct (Z.eqb_spec cls FileNamesInformation) as [Ec | Ec].
  - assert (E8 : load32 (drop 8 (r ++ t)) = load32 (store32 (E_NameLength e * 2))).
    { rewrite load32_slice, Hat by lia. unfold dir_record. rewrite Ec, Z.eqb_refl. by fields. }
    by rewrite E8, Hw, Hnarrow.
  - assert (E60 : load32 (drop 60 (r ++ t)) = load32 (store32 (E_NameLength e * 2))).
    { rewrite load32_slice, Hat by lia. unfold dir_record. rewrite (proj2 (Z.eqb_neq _ _) Ec). destruct (Z.eqb_spec cls FileBothDirectoryInformation); by fields. }
    assert (E40 : load64 (drop 40 (r ++ t)) = E_DataSize e).
    { rewrite load64_slice, Hat by lia. rewrite <- (load64_store (E_DataSize e) []) by lia. rewrite app_nil_r. f_equal.
      unfold dir_record. rewrite (proj2 (Z.eqb_neq _ _) Ec). destruct (Z.eqb_spec cls FileBothDirectoryInformation); by fields. }
    pose proof (allocation_range (E_DataSize e)).
    assert (E48 : load64 (drop 48 (r ++ t)) = AllocationSize (E_DataSize e)).
    { rewrite load64_slice, Hat by lia. rewrite <- (load64_store (AllocationSize (E_DataSize e)) []) by lia. rewrite app_nil_r. f_equal.
      unfold dir_record. rewrite (proj2 (Z.eqb_neq _ _) Ec). destruct (Z.eqb_spec cls FileBothDirectoryInformation); by fields. }
    assert (E56 : load32 (drop 56 (r ++ t)) = file_attributes (is_dir (E_Attributes e))).
    { rewrite load32_slice, Hat by lia. rewrite <- (load_store (file_attributes _) []) by (destruct (is_dir _); done). rewrite app_nil_r. f_equal.
      unfold dir_record. rewrite (proj2 (Z.eqb_neq _ _) Ec). destruct (Z.eqb_spec cls FileBothDirectoryInformation); by fields. }
    by rewrite E60, E40, E48, E56, Hw, Hnarrow.
Qed.

End record.

(** *** Chains of records *)

Definition records (cls f : Z) (hs : list ENTRY) : list Z := flat_map (dir_record cls f) hs.

Lemma write_middle (a b c src : list Z) n : n = length a -> (length src <= length b)%nat ->
  write (a ++ b ++ c) n src = a ++ write b 0 src ++ c.
Proof.
  intros -> L. unfold write. rewrite take_app_length, take_0, Nat.add_0_l. cbn [app]. rewrite drop_app_add, drop_app_le by done.
  by rewrite <- app_assoc.
Qed.

Lemma decode_chain_records cls f pre e t fuel : fixed_size cls = Some f -> Forall entry_ok (pre ++ [e]) -> (length pre < fuel)%nat ->
  decode_chain fuel cls (records cls f pre ++ write (dir_record cls f e) 0 (store32 0) ++ t) = map (info_of cls) (pre ++ [e]).
Proof.
  intros Hf He. revert fuel. induction pre as [|x pre IH]; intros [|fuel] L; cbn [length] in L; try lia; cbn [decode_chain].
  - apply Forall_app in He as [_ He]. apply Forall_cons in He as [He _]. pose proof (length_record cls f e Hf He) as LR.
    destruct (entry_size_bounds cls f (E_NameLength e) Hf ltac:(destruct He; lia)) as (B1 & B2 & B3). pose proof (eo_length _ He).
    assert (L4 : (4 <= length (dir_record cls f e))%nat) by lia. cbn [records flat_map app map].
    rewrite (decode_dir_record cls f e Hf He) by (rewrite ?length_write; cbn [length store32]; intros; rewrite ?slice_write_ne by (cbn [length store32]; lia); lia || done).
    reflexivity.
  - cbn [app] in He. apply Forall_cons in He as [Hx He]. cbn [records flat_map app map]. rewrite <- !app_assoc.
    rewrite (decode_dir_record cls f x Hf Hx) by done. f_equal. rewrite load_record by done.
    destruct (entry_size_bounds cls f (E_NameLength x) Hf ltac:(destruct Hx; lia)) as (B1 & B2 & B3).
    rewrite (proj2 (Z.eqb_neq _ _)) by (destruct Hx; lia). rewrite drop_app_length' by (by rewrite length_record). apply (IH He). lia.
Qed.
