(* ===== verification/XdvdScan.v ===== *)
(** * Scanning a directory of the disc

    The theorems about [XdvdDispatchDirectoryControl]: a query returns the
    next entries that match and fit, and remembers where it stopped; the
    queries of a scan together return each entry of the directory that
    matches exactly once, in the order of the tree, and then that there are
    no more. *)

From stdpp Require Import prelude list numbers gmap.
From Stdlib Require Import ZArith Lia.
From S2P Require Import Prelude Bytes XdvdDir XdvdIo Xdvdfs XdvdQuery.

Local Open Scope Z_scope.

(** ** The emission *)

(** After the entries [hs]: their records, then the rest of the buffer. *)
Record emitted (cls f : Z) (buf : list Z) (hs : list ENTRY) (m : emission) : Prop := Emitted {
  em_out : out m = records cls f hs ++ drop (length (records cls f hs)) buf;
  em_used : used m = Z.of_nat (length (records cls f hs));
  em_fits : (length (records cls f hs) <= length buf)%nat;
  em_last : hs = [] \/ exists pre e, hs = pre ++ [e] /\ lastOff m = Z.of_nat (length (records cls f pre))
}.

Lemma records_snoc cls f hs e : records cls f (hs ++ [e]) = records cls f hs ++ dir_record cls f e.
Proof. unfold records. rewrite flat_map_app. cbn. by rewrite app_nil_r. Qed.

(** One more record. *)
Lemma emitted_snoc cls f buf hs m e i : fixed_size cls = Some f -> entry_ok e -> emitted cls f buf hs m ->
  used m + entry_size f (E_NameLength e) <= Z.of_nat (length buf) ->
  emitted cls f buf (hs ++ [e]) (Emission (write (out m) (Z.to_nat (used m)) (dir_record cls f e))
    (used m + entry_size f (E_NameLength e)) (used m) i).
Proof.
  intros Hf He [E1 E2 E3 _] L. pose proof (length_record cls f e Hf He) as LR.
  destruct (entry_size_bounds cls f (E_NameLength e) Hf ltac:(destruct He; lia)) as (B1 & B2 & B3). pose proof (eo_length _ He).
  split; cbn [out used lastOff]; rewrite ?records_snoc, ?length_app; [| lia | lia | right; by exists hs, e].
  rewrite E1, E2, Nat2Z.id. unfold write. rewrite take_app_length. rewrite <- app_assoc. f_equal. f_equal.
  rewrite drop_app_add, drop_drop. done.
Qed.

Lemma records_long cls f pre e : fixed_size cls = Some f -> Forall entry_ok (pre ++ [e]) ->
  (length (records cls f pre) + 4 <= length (records cls f (pre ++ [e])))%nat /\ (length pre <= length (records cls f pre))%nat.
Proof.
  intros Hf He. assert (Hlen : forall x, entry_ok x -> (12 <= length (dir_record cls f x))%nat).
  { intros x Hx. rewrite length_record by done. destruct (entry_size_bounds cls f (E_NameLength x) Hf ltac:(destruct Hx; lia)) as (B1 & B2 & B3).
    destruct Hx. lia. }
  apply Forall_app in He as [Hp He]. apply Forall_cons in He as [He _]. split.
  - rewrite records_snoc, length_app. specialize (Hlen e He). lia.
  - induction Hp as [|x pre Hx _ IH]; [done |]. cbn [records flat_map length]. rewrite length_app. specialize (Hlen x Hx). unfold records in IH. lia.
Qed.

(** The chain, ended at its last record, reads back. *)
Lemma emitted_decode cls f buf hs m : fixed_size cls = Some f -> Forall entry_ok hs -> hs <> [] -> emitted cls f buf hs m ->
  0 < used m /\ length (write (out m) (Z.to_nat (lastOff m)) (store32 0)) = length buf /\
  decode_chain (length buf) cls (write (out m) (Z.to_nat (lastOff m)) (store32 0)) = map (info_of cls) hs.
Proof.
  intros Hf Hok Hne [O1 O2 O3 [? | (pre & e & -> & El)]]; [done |]. destruct (records_long cls f pre e Hf Hok) as [L1 L2].
  split; [lia |]. rewrite El, Nat2Z.id. split; [rewrite O1, length_write; rewrite length_app, length_drop; cbn [length store32]; lia |].
  rewrite O1, records_snoc, <- app_assoc. rewrite write_middle; [| done | rewrite records_snoc, length_app in L1; cbn [length store32]; lia].
  apply decode_chain_records; [done | done |]. lia.
Qed.

Section emit.
Context {E : Type} {MC : Machine E}.
Context (cls f flags : Z) (pattern : option UNICODE_STRING) (hit : ENTRY -> bool) (buf : list Z).
Hypothesis Hf : fixed_size cls = Some f.

(** Why the loop ends, before the entries [es2]: none of them matches, one
    record was asked for, or the next record does not fit. *)
Definition stops (es2 : list ENTRY) (hs : list ENTRY) (st : Z) (m : emission) : Prop :=
  (List.filter hit es2 = [] /\ st = STATUS_SUCCESS) \/
  (BooleanFlagOn flags SL_RETURN_SINGLE_ENTRY = true /\ hs <> [] /\ st = STATUS_SUCCESS) \/
  (exists e es3, List.filter hit es2 = e :: es3 /\ Z.of_nat (length buf) < used m + entry_size f (E_NameLength e) /\
     st = if used m =? 0 then STATUS_BUFFER_OVERFLOW else STATUS_SUCCESS).

Lemma emit_spec es : Forall entry_ok es -> Z.of_nat (length buf) < 2 ^ 31 ->
  (forall e (w : world E), e ∈ es -> XdvdMatchName (E_Name e) (E_NameLength e) pattern w = Done (hit e) w) ->
  forall i hs m (w : world E), emitted cls f buf hs m -> exists es1 es2 st m', es = es1 ++ es2 /\
    emit es i cls flags pattern m w = Done (inr (st, m')) w /\ emitted cls f buf (hs ++ List.filter hit es1) m' /\
    (es1 = [] /\ next m' = next m \/ List.filter hit es1 <> [] /\ next m' = (i + length es1)%nat) /\
    stops es2 (List.filter hit es1) st m'.
Proof.
  intros Hok Hbuf. induction es as [|e es IH]; intros Hm i hs m w Hem; cbn [emit].
  { exists [], [], STATUS_SUCCESS, m. cbn [List.filter app]. rewrite app_nil_r. split_and!; [done | done | done | by left | by left]. }
  apply Forall_cons in Hok as [He Hok]. specialize (IH Hok (fun e' w' Hin => Hm e' w' ltac:(by right))).
  unfold mbind at 1, M_bind at 1. rewrite (Hm e w ltac:(by left)). destruct (hit e) eqn:Hh; cbn [negb].
  - rewrite Hf. pose proof Hem as [E1 E2 E3 E4].
    destruct (entry_size_bounds cls f (E_NameLength e) Hf ltac:(destruct He; lia)) as (B1 & B2 & B3). pose proof (eo_length _ He).
    assert (Lo : length (out m) = length buf) by (rewrite E1, length_app, length_drop; lia).
    rewrite add32_id by lia. rewrite Lo. destruct (Z.ltb_spec (Z.of_nat (length buf)) (used m + entry_size f (E_NameLength e))) as [Lf | Lf].
    + exists [], (e :: es), (if used m =? 0 then STATUS_BUFFER_OVERFLOW else STATUS_SUCCESS), m. cbn [List.filter app]. rewrite app_nil_r.
      split_and!; [done | done | done | by left |]. right. right. exists e, (List.filter hit es). cbn. by rewrite Hh.
    + pose proof (emitted_snoc cls f buf hs m e (S i) Hf He Hem Lf) as Hem'. set (m1 := Emission _ _ _ _) in *.
      destruct (BooleanFlagOn flags SL_RETURN_SINGLE_ENTRY) eqn:Es.
      * exists [e], es, STATUS_SUCCESS, m1. cbn [List.filter]. rewrite Hh.
        split_and!; [done | done | done | right; split; [done | cbn; lia] | right; left; done].
      * destruct (IH (S i) (hs ++ [e]) m1 w Hem') as (es1 & es2 & st & m' & -> & Er & Em & En & Hs).
        exists (e :: es1), es2, st, m'. cbn [List.filter app]. rewrite Hh. rewrite <- app_assoc in Em.
        split_and!; [done | done | done | right; split; [done |] |].
        -- cbn [length]. destruct En as [[-> ->] | [_ ->]]; cbn; lia.
        -- destruct Hs as [Hs | [(F & _) | Hs]]; [by left | congruence | by right; right].
  - destruct (IH (S i) hs m w Hem) as (es1 & es2 & st & m' & -> & Er & Em & En & Hs). destruct En as [[-> En] | [Hne En]].
    + exists [], (e :: es2), st, m'. split_and!; [done | done | done | by left |].
      unfold stops. cbn [List.filter]. by rewrite Hh.
    + exists (e :: es1), es2, st, m'. cbn [List.filter]. rewrite Hh. split_and!; [done | done | done | right; split; [done |] | done].
      cbn [length]. lia.
Qed.

End emit.

(** ** Matching *)

(** No pattern and the star match every name, any other pattern the name
    that is equal but for case. *)
Definition matches (pat : option (list Z)) (name : list Z) : bool :=
  match pat with
  | None | Some [] => true
  | Some chars => bool_decide (chars = [STAR] \/ map upper chars = map upper name)
  end.

(** The size of whole sectors that hold [n] bytes. *)
Definition whole_sectors (n : Z) : Z := (n + 2047) / 2048 * 2048.

(** What a directory entry is listed as: its name and, but in the names
    class, its size, its size on disc, and read-only (1) with the directory
    attribute (0x10) for a directory, which bit 4 of its attributes marks. *)
Definition listed (cls : Z) (d : XDVD_DIRENT) : info :=
  if cls =? FileNamesInformation then Info (Name d) 0 0 0
  else Info (Name d) (DataSize d) (whole_sectors (DataSize d)) (if Z.testbit (Attributes d) 4 then 0x11 else 1).

Lemma allocation_size_rounds n : 0 <= n <= 2 ^ 32 - XDVD_SECTOR_SIZE -> AllocationSize n = whole_sectors n.
Proof.
  unfold AllocationSize, XDVD_SECTOR_SIZE. intros Hn. assert (Es : sub32 (add32 n 2048) 1 = n + 2047).
  { unfold sub32, add32, u32. destruct (Z.eq_dec (n + 2048) (2 ^ 32)) as [Ew | Ew].
    - rewrite Ew, Z.mod_same by lia. replace n with (2 ^ 32 - 2048) by lia. done.
    - rewrite (Z.mod_small (n + 2048)) by lia. rewrite Z.mod_small by lia. lia. }
  rewrite Es. change (2048 - 1) with (Z.ones 11). rewrite <- Z.ldiff_land, Z.ldiff_ones_r, Z.shiftl_mul_pow2, Z.shiftr_div_pow2 by lia.
  done.
Qed.

Lemma is_dir_bit a : is_dir a = Z.testbit a 4.
Proof.
  unfold is_dir. change XDVD_ATTR_DIRECTORY with (2 ^ 4). destruct (Z.testbit a 4) eqn:E.
  - apply negb_true_iff, Z.eqb_neq. intros H0. apply (f_equal (fun x => Z.testbit x 4)) in H0. rewrite Z.land_spec, E in H0. done.
  - apply negb_false_iff, Z.eqb_eq. apply Z.bits_inj'. intros n Hn. rewrite Z.land_spec, Z.pow2_bits_eqb, Z.bits_0 by done.
    destruct (Z.eqb_spec 4 n) as [<- | _]; [by rewrite E | apply andb_false_r].
Qed.

Lemma info_listed cls d : 0 <= DataSize d <= 2 ^ 32 - XDVD_SECTOR_SIZE -> info_of cls (entry_of d) = listed cls d.
Proof.
  intros Hd. unfold info_of, listed, entry_of. cbn [E_Name E_DataSize E_Attributes]. rewrite allocation_size_rounds, is_dir_bit by done.
  by destruct (Z.testbit (Attributes d) 4).
Qed.

Lemma filter_entries pat ds :
  List.filter (fun e => matches pat (E_Name e)) (map entry_of ds) = map entry_of (List.filter (fun d => matches pat (Name d)) ds).
Proof. induction ds as [|d ds IH]; [done |]. cbn [map List.filter]. rewrite IH. cbn [E_Name entry_of]. by destruct (matches pat (Name d)). Qed.

Lemma hits_listed cls pat ds : (forall d, d ∈ ds -> 0 <= DataSize d <= 2 ^ 32 - XDVD_SECTOR_SIZE) ->
  map (info_of cls) (List.filter (fun e => matches pat (E_Name e)) (map entry_of ds)) =
  map (listed cls) (List.filter (fun d => matches pat (Name d)) ds).
Proof.
  intros Hd. rewrite filter_entries, map_map. apply map_ext_in. intros d Hin. apply info_listed, Hd.
  apply filter_In in Hin as [Hin _]. by apply list_elem_of_In.
Qed.

Lemma match_chars_upper name chars : length name = length chars -> match_chars name chars = bool_decide (map upper chars = map upper name).
Proof.
  revert chars. induction name as [|a name IH]; intros [|b chars] L; try done. cbn [match_chars map].
  destruct (Z.eqb_spec (upper a) (upper b)) as [Ec | Ec]; cbn [negb].
  - rewrite IH by (cbn in L; lia). rewrite Ec. apply bool_decide_ext. split; [by intros -> | by intros [= ->]].
  - symmetry. apply bool_decide_eq_false. intros [= ? _]. congruence.
Qed.

Section scan.
Context {E : Type} {MC : Machine E} {ML : @MachineLaws E MC}.
Implicit Types w : world E.

Lemma match_stored name chars b mx w : chars <> [] ->
  XdvdMatchName name (Z.of_nat (length name)) (Some (Ustr (Some (b, chars)) (2 * Z.of_nat (length chars)) mx)) w =
    Done (matches (Some chars) name) w.
Proof.
  intros Hne. unfold XdvdMatchName, matches. cbn [Length Buffer].
  destruct chars as [|c cs]; [done |]. rewrite (proj2 (Z.eqb_neq _ 0)) by (cbn [length]; lia).
  destruct (Z.eqb_spec (2 * Z.of_nat (length (c :: cs))) 2) as [E2 | E2]; cbn [andb nth].
  - destruct cs as [|? ?]; [| cbn [length] in E2; lia]. destruct (Z.eqb_spec c STAR) as [-> | Ec].
    + rewrite bool_decide_eq_true_2 by (by left). done.
    + destruct (Z.eqb_spec (2 * Z.of_nat (length [c])) (Z.of_nat (length name) * 2)) as [El | El]; cbn [negb].
      * unfold ret. f_equal. rewrite match_chars_upper by lia. apply bool_decide_ext. split; [by right | by intros [[= ?] | ?]].
      * unfold ret. f_equal. symmetry. apply bool_decide_eq_false. intros [[= ?] | Em%(f_equal length)]; [done |]. rewrite !length_map in Em. lia.
  - destruct (Z.eqb_spec (2 * Z.of_nat (length (c :: cs))) (Z.of_nat (length name) * 2)) as [El | El]; cbn [negb].
    + unfold ret. f_equal. rewrite match_chars_upper by lia. apply bool_decide_ext. split; [by right | intros [[= _ ->] | ?]; [cbn in E2; lia | done]].
    + unfold ret. f_equal. symmetry. apply bool_decide_eq_false. intros [[= _ ->] | Em%(f_equal length)]; [cbn in E2; lia |]. rewrite !length_map in Em. lia.
Qed.

Lemma compare_refl p : RtlCompareUnicodeString p p = 0.
Proof. induction p as [|c p IH]; cbn; [done |]. by rewrite Z.sub_diag. Qed.

(** ** A handle whose directory is loaded *)

Record ready (pat : option (list Z)) (ents : list ENTRY) (c : XDVD_CCB) : Prop := Ready {
  rd_loaded : EnumLoaded c = true;
  rd_entries : exists eb, Entries c = Some (eb, ents);
  rd_count : EntryCount c = length ents;
  rd_pattern : match pat with
               | Some (x :: xs) => exists b mx, SearchPattern c = Ustr (Some (b, x :: xs)) (2 * Z.of_nat (length (x :: xs))) mx
               | _ => Length (SearchPattern c) = 0
               end
}.

Lemma ready_match pat ents c e w : ready pat ents c -> entry_ok e ->
  XdvdMatchName (E_Name e) (E_NameLength e) (effective_pattern c pat) w = Done (matches pat (E_Name e)) w.
Proof.
  intros [_ _ _ Hp] He. rewrite <- (eo_length e He). unfold effective_pattern.
  destruct pat as [[|x xs]|]; [by rewrite Hp | by apply match_stored | by rewrite Hp].
Qed.

(** The query finds nothing to prepare. *)
Lemma query_ready s fo cls flags pat fb fcb cb c ents buf w :
  FsContext fo = Some (fb, fcb) -> IsDirectory fcb = true -> FsContext2 fo = Some (cb, c) -> ready pat ents c ->
  BooleanFlagOn flags SL_RESTART_SCAN = false -> buf <> [] ->
  XdvdDispatchDirectoryControl s fo IRP_MN_QUERY_DIRECTORY cls flags pat (Some buf) None w =
    emit_records fo cb c cls flags pat buf w.
Proof.
  intros H1 H2 H3 [R1 R2 R3 R4] H5 H6. unfold XdvdDispatchDirectoryControl. cbn [Z.eqb IRP_MN_QUERY_DIRECTORY Pos.eqb negb].
  rewrite H1, H2. destruct buf as [|x0 buf0]; [done |]. cbv [mbind M_bind ret]. cbn [negb length Nat.eqb].
  assert (Eu : update_pattern c flags pat w = Done (true, c) w).
  { unfold update_pattern. rewrite H5. cbv [mbind M_bind]. destruct pat as [[|x xs]|]; [done | | done].
    destruct R4 as (b & mx & ->). unfold RtlEqualUnicodeString. cbn [Length Buffer]. rewrite Z.eqb_refl. cbn [negb].
    rewrite compare_refl. done. }
  assert (Ep : prepare s (FsContext2 fo) fcb flags pat w = Done (None, Some (cb, c)) w).
  { unfold prepare. rewrite H3. cbv [mbind M_bind ret]. rewrite Eu. cbn [negb]. unfold load_entries. by rewrite R1. }
  by rewrite Ep.
Qed.

(** What a query answers, in terms of the entries still to come: it returns
    [hs], the first of them that match, as many as fit. *)
Definition answer (cls f flags : Z) (pat : option (list Z)) (todo : list ENTRY) (len : nat)
    (st n : Z) (got : list info) (taken : nat) : Prop :=
  exists es1 es2, todo = es1 ++ es2 /\ taken = length es1 /\
    let hs := List.filter (fun e => matches pat (E_Name e)) es1 in
    let rest := List.filter (fun e => matches pat (E_Name e)) es2 in
    (hs <> [] /\ st = STATUS_SUCCESS /\ 0 < n /\ got = map (info_of cls) hs /\
     (rest = [] \/ BooleanFlagOn flags SL_RETURN_SINGLE_ENTRY = true \/
      exists e, head rest = Some e /\ Z.of_nat len < n + entry_size f (E_NameLength e))) \/
    (es1 = [] /\ n = 0 /\ rest = [] /\ st = STATUS_NO_MORE_FILES) \/
    (es1 = [] /\ n = 0 /\ st = STATUS_BUFFER_OVERFLOW /\
      exists e, head rest = Some e /\ Z.of_nat len < entry_size f (E_NameLength e)).

Lemma emit_records_ready fo cls f flags pat cb c ents buf w : fixed_size cls = Some f -> ready pat ents c ->
  Forall entry_ok ents -> Z.of_nat (length buf) < 2 ^ 31 ->
  exists st n buf' taken, emit_records fo cb c cls flags pat buf w =
      Done ((st, n), set_contexts fo (FsContext fo) (Some (cb, set_cursor c (NextIndex c + taken))), Some buf') w /\
    length buf' = length buf /\
    answer cls f flags pat (drop (NextIndex c) ents) (length buf) st n (decode_chain (length buf) cls buf') taken.
Proof.
  intros Hf Hr Hok Hbuf. unfold emit_records. destruct (rd_entries _ _ _ Hr) as [eb ->]. rewrite (rd_count _ _ _ Hr), take_ge by done.
  set (todo := drop (NextIndex c) ents). assert (Htodo : Forall entry_ok todo) by by apply Forall_drop.
  assert (Hinit : emitted cls f buf [] (Emission buf 0 0 (NextIndex c))) by (split; cbn; [done | done | lia | by left]).
  destruct (emit_spec (E := E) cls f flags (effective_pattern c pat) (fun e => matches pat (E_Name e)) buf Hf todo Htodo Hbuf) with
    (i := NextIndex c) (hs := @nil ENTRY) (m := Emission buf 0 0 (NextIndex c)) (w := w)
    as (es1 & es2 & st & m & Et & Er & Em & En & Hs); [| done |].
  { intros e w' He. apply (ready_match pat ents); [done |]. rewrite list.Forall_forall in Htodo. by apply Htodo. }
  cbn [app next] in Em, En. unfold mbind at 1, M_bind at 1. rewrite Er. pose proof Em as [O1 O2 O3 O4].
  assert (Lout : length (out m) = length buf) by (rewrite O1, length_app, length_drop; lia).
  destruct (List.filter (fun e => matches pat (E_Name e)) es1) as [|h hs0] eqn:Eh.
  - destruct En as [[-> En] | [F _]]; [| done]. cbn [records flat_map length] in O2. rewrite O2. cbn [Z.ltb Z.compare Z.of_nat].
    exists (if st =? STATUS_SUCCESS then STATUS_NO_MORE_FILES else st), 0, (out m), O. rewrite En, Nat.add_0_r. split_and!; [done | done |].
    exists [], es2. split_and!; [done | done |]. right. destruct Hs as [(Hn & ->) | [(_ & F & _) | (e & es3 & Ee & Le & ->)]]; [| done |].
    + left. split_and!; done.
    + right. rewrite O2 in Le |- *. split_and!; [done | done | done |]. exists e. rewrite Ee. split; [done | lia].
  - assert (Hne : h :: hs0 <> []) by done. set (hs := h :: hs0) in *. clearbody hs. destruct En as [[-> _] | [_ En]]; [done |].
    assert (Hall : Forall entry_ok hs).
    { rewrite <- Eh. apply list.Forall_forall. intros x Hx. apply list_elem_of_In, List.filter_In in Hx as [Hx _].
      rewrite list.Forall_forall in Htodo. apply Htodo. rewrite Et. apply elem_of_app. left. by apply list_elem_of_In. }
    destruct (emitted_decode cls f buf hs m Hf Hall Hne Em) as (Hpos & Hlen & Hdec). rewrite (proj2 (Z.ltb_lt 0 (used m)) Hpos).
    assert (Hst : st = STATUS_SUCCESS).
    { destruct Hs as [(_ & ->) | [(_ & _ & ->) | (e & es3 & _ & _ & ->)]]; [done | done |]. by rewrite (proj2 (Z.eqb_neq (used m) 0)) by lia. }
    exists st, (used m), (write (out m) (Z.to_nat (lastOff m)) (store32 0)), (length es1). rewrite En.
    split_and!; [done | done |]. exists es1, es2. split_and!; [done | done |]. left. rewrite Eh. split_and!; try done.
    destruct Hs as [(Hn & _) | [(Hsi & _) | (e & es3 & Ee & Le & _)]]; [by left | by right; left | right; right].
    exists e. rewrite Ee. split; [done | lia].
Qed.

(** ** Preparing the context block *)

Definition pattern_block (c : XDVD_CCB) : gset Z := match Buffer (SearchPattern c) with Some (b, _) => {[b]} | None => ∅ end.
Definition entries_block (c : XDVD_CCB) : gset Z := match Entries c with Some (b, _) => {[b]} | None => ∅ end.

(** A stored pattern has its characters. *)
Definition pattern_ok (c : XDVD_CCB) : Prop := Buffer (SearchPattern c) = None -> Length (SearchPattern c) = 0.

Definition stored_pattern (pat : option (list Z)) (c : XDVD_CCB) : Prop :=
  match pat with
  | Some (x :: xs) => exists b mx, SearchPattern c = Ustr (Some (b, x :: xs)) (2 * Z.of_nat (length (x :: xs))) mx
  | _ => Length (SearchPattern c) = 0
  end.

(** The pattern's block is replaced and nothing else; without memory the
    block is lost to the pattern, not leaked. *)
Definition pattern_post (w0 : world E) (B : gset Z) (c : XDVD_CCB) (pat : option (list Z)) (r : bool * XDVD_CCB) w' : Prop :=
  grown w0 w' (pattern_block r.2 ∪ B) /\ pattern_block r.2 ## B /\
  Entries r.2 = Entries c /\ EntryCount r.2 = EntryCount c /\ EnumLoaded r.2 = EnumLoaded c /\ (NextIndex r.2 <= NextIndex c)%nat /\
  (if r.1 then pattern_ok c -> pattern_ok r.2 else ~ exists dev, healthy dev) /\
  (c = empty_ccb -> r.1 = true -> stored_pattern pat r.2 /\ NextIndex r.2 = O).

Lemma wp_free_old p w0 w B c Q : grown w0 w (pattern_block c ∪ B) -> pattern_block c ## B ->
  (forall w', grown w0 w' B -> Q tt w') ->
  wp p (match Buffer (SearchPattern c) with Some (b, _) => pool_free b | None => ret tt end) w Q.
Proof.
  intros G D H. unfold pattern_block in *. destruct (Buffer (SearchPattern c)) as [[b chars]|].
  - apply (wp_free p w0 _ _ _ _ G); [apply elem_of_union; left; by apply elem_of_singleton |]. intros w'.
    rewrite difference_union_distr_l_L, difference_diag_L, union_empty_l_L, difference_disjoint_L by done. apply H.
  - apply wp_ret, H. by rewrite union_empty_l_L in G.
Qed.

Lemma wp_equal_stored p w chars c : (p = true \/ pattern_ok c) -> chars <> [] ->
  wp p (RtlEqualUnicodeString chars (SearchPattern c)) w (fun eq w' => w' = w /\ (eq = true -> Length (SearchPattern c) <> 0)).
Proof.
  intros Hp Hne. unfold RtlEqualUnicodeString. destruct (Z.eqb_spec (2 * Z.of_nat (length chars)) (Length (SearchPattern c))) as [El | El]; cbn [negb].
  - assert (Hz : Length (SearchPattern c) <> 0) by (rewrite <- El; destruct chars; [done | cbn [length]; lia]).
    destruct (Buffer (SearchPattern c)) as [[b cs]|] eqn:Eb; [by apply wp_ret |]. rewrite (proj2 (Z.eqb_neq _ _) Hz).
    destruct Hp as [-> | Hp]; [done |]. by destruct (Hz (Hp Eb)).
  - by apply wp_ret.
Qed.

Lemma wp_store_pattern p w0 w B c x xs : grown w0 w (pattern_block c ∪ B) -> pattern_block c ## B ->
  wp p (match Buffer (SearchPattern c) with Some (b, _) => pool_free b | None => ret tt end;;
        buf ← pool_alloc (2 * Z.of_nat (length (x :: xs)));
        match buf with
        | None => ret (false, set_pattern (set_cursor c 0) (Ustr None (Length (SearchPattern c)) (MaximumLength (SearchPattern c))))
        | Some (b, _) => ret (true, set_pattern (set_cursor c 0) (Ustr (Some (b, x :: xs)) (2 * Z.of_nat (length (x :: xs))) (2 * Z.of_nat (length (x :: xs)))))
        end) w (pattern_post w0 B c (Some (x :: xs))).
Proof.
  intros G D. apply wp_bind, (wp_free_old p w0 _ _ _ _ G D). intros w1 G1. apply wp_bind, (wp_alloc p w0 w1 B); [done | |].
  - intros e Hh. apply wp_ret. split_and!; cbn; try done; try lia. rewrite union_empty_l_L. by apply grown_env.
  - intros b data w2 G2 Hb _ _. apply wp_ret. split_and!; cbn; try done; try lia; [by apply disjoint_singleton_l |].
    intros _ _. split; [by eexists _, _ | done].
Qed.

Lemma wp_update_pattern p w0 w B c flags pat : grown w0 w (pattern_block c ∪ B) -> pattern_block c ## B -> (p = true \/ pattern_ok c) ->
  wp p (update_pattern c flags pat) w (pattern_post w0 B c pat).
Proof.
  intros G D Hp. unfold update_pattern. apply wp_bind.
  assert (Same : forall ok w', grown w0 w' (pattern_block c ∪ B) -> (c = empty_ccb -> match pat with Some (_ :: _) => False | _ => True end) ->
    pattern_post w0 B c pat (true, if ok : bool then set_cursor c 0 else c) w').
  { intros ok w' G' He. unfold pattern_post. replace (pattern_block _) with (pattern_block c) by (by destruct ok).
    split_and!; destruct ok; cbn; try done; try lia; intros -> _; (split; [| done]); unfold stored_pattern; destruct pat as [[|? ?]|]; try done; by destruct (He eq_refl). }
  destruct (BooleanFlagOn flags SL_RESTART_SCAN).
  { apply wp_ret. cbn [negb]. destruct pat as [[|x xs]|]; [apply wp_ret; by apply (Same true) | exact (wp_store_pattern p w0 w B c x xs G D) | apply wp_ret; by apply (Same true)]. }
  destruct pat as [[|x xs]|]; [apply wp_ret; cbn [negb]; apply wp_ret; by apply (Same false) | | apply wp_ret; cbn [negb]; apply wp_ret; by apply (Same false)].
  apply wp_bind. eapply wp_mono; [by apply wp_equal_stored |]. intros eq w' [-> Heq]. apply wp_ret. destruct eq; cbn [negb].
  - apply wp_ret, (Same false); [done |]. intros ->. by apply Heq.
  - exact (wp_store_pattern p w0 w B c x xs G D).
Qed.

(** *** Loading the entries *)

Lemma entry_of_ok T off : bytes T -> 0 <= off -> dirent_ok T off = true -> entry_ok (entry_of (dirent_at T off)).
Proof.
  intros HT H0 Hok. unfold dirent_ok in Hok. rewrite !andb_true_iff, !negb_true_iff, !Z.ltb_ge, Z.eqb_neq in Hok.
  destruct Hok as [[L1 L2] L3]. cbn [entry_of E_Name E_NameLength E_DataSize NameLength dirent_at] in *.
  pose proof (bytes_nth (drop (Z.to_nat off) T) 13 ltac:(auto with bytes)) as Hn. unfold is_u8 in Hn.
  unfold XDVD_DIRENT_EMPTY_SENTINEL, XDVD_DIRENT_FIXED_SIZE in *.
  split; cbn [entry_of E_Name E_NameLength E_DataSize NameLength Name DataSize dirent_at]; [| lia | auto with bytes | apply load32_range; auto with bytes].
  rewrite length_take, !length_drop. lia.
Qed.

Lemma enum_loop_ok T Cap fuel stack out st out' : bytes T -> Forall (fun o => 0 <= o) stack -> Forall entry_ok out ->
  enum_loop fuel T Cap stack out = Some (st, out') -> Forall entry_ok out'.
Proof.
  intros HT. revert stack out. induction fuel as [|fuel IH]; intros stack out Hs Ho; [done |]. cbn [enum_loop].
  destruct stack as [|off rest]; [by intros [= _ <-] |]. apply Forall_cons in Hs as [H0 Hs].
  assert (Hpush : forall link stk, 0 <= link -> Forall (fun o => 0 <= o) stk -> Forall (fun o => 0 <= o) (push_child link stk)).
  { intros link stk Hl Hk. unfold push_child. destruct (child link) as [o|] eqn:Ec; [| done]. destruct (_ <? _)%nat; [| done].
    constructor; [by apply (child_aligned link) | done]. }
  destruct (dirent_ok T off) eqn:Eo; cbn [negb]; [| by apply IH]. destruct (_ <=? _)%nat; [by intros [= _ <-] |].
  destruct (dirent_links T off HT) as [L1 L2]. apply IH; [by apply Hpush, Hpush |]. apply Forall_app. split; [done |].
  constructor; [by apply entry_of_ok | constructor].
Qed.

(** A directory that a query lists whole: its table is whole sectors of the
    disc and holds a tree of separate entries that the walk's stack has room
    for; it is at most 128 MB, more than the machine has memory, so that the
    size of the array of entries does not wrap. *)
Record listable (dev sector size : Z) (t : tree) : Prop := Listable {
  ls_sector : 0 <= sector;
  ls_size : 0 < size <= 2 ^ 27;
  ls_whole : size mod XDVD_SECTOR_SIZE = 0;
  ls_disc : sector * XDVD_SECTOR_SIZE + size <= capacity dev;
  ls_holds : holds (dir_table dev sector size) t;
  ls_apart : apart t;
  ls_height : (height t < STACK_SIZE)%nat
}.

Definition tree_entries (t : tree) : list ENTRY := map (fun p => entry_of p.2) (preorder t).

(** The entries are loaded, all of them for a directory that can be listed;
    or the block is as it was. *)
Definition load_post (w0 : world E) (B : gset Z) (dev : Z) (fcb : XDVD_FCB) (c : XDVD_CCB) (r : option Z * XDVD_CCB) w' : Prop :=
  match r.1 with
  | None => (exists eb ents, r.2 = Ccb (Some (eb, ents)) (length ents) (NextIndex c) (SearchPattern c) true /\
      ~ (eb ∈ B) /\ grown w0 w' ({[eb]} ∪ B) /\ Forall entry_ok ents /\
      (forall t, listable dev (Fcb_DataSector fcb) (Fcb_DataSize fcb) t -> ents = tree_entries t))
  | Some st => r.2 = c /\ grown w0 w' B /\ NT_SUCCESS st = false /\
      (forall t, listable dev (Fcb_DataSector fcb) (Fcb_DataSize fcb) t -> ~ healthy dev)
  end.

Lemma array_fits cap n : (n <= cap)%nat -> Z.of_nat cap <= 2 ^ 23 + 129 -> Z.of_nat n * SIZEOF_ENTRY <= mul32 (Z.of_nat cap) SIZEOF_ENTRY.
Proof. unfold mul32, u32, SIZEOF_ENTRY. intros H1 H2. rewrite Z.mod_small by lia. lia. Qed.

Lemma wp_load_entries p w0 w B s fcb v c : grown w0 w B -> EnumLoaded c = false -> vcb_of s (Fcb_Vcb fcb) = Some v ->
  0 <= Fcb_DataSize fcb < 2 ^ 32 -> (p = true \/ Fcb_DataSize fcb <= 2 ^ 27) ->
  wp p (load_entries s fcb c) w (load_post w0 B (TargetDevice v) fcb c).
Proof.
  intros G Hl Hv Hs Hfit. unfold load_entries. rewrite Hl, Hv. apply wp_bind, (wp_read_table p w0 _ _ _ _ _ _ G); [lia | |].
  { intros st w1 G1 Hst _ Hh. rewrite Hst. apply wp_ret. split_and!; [done | done | done |]. intros t [T1 T2 T3 T4 _ _ _] Hhe.
    apply Hh; rewrite ?table_bytes_whole by first [lia | done]; [done | lia..]. }
  intros b data w1 G1 Hb Hz Hle HL Hd Ht. change (NT_SUCCESS STATUS_SUCCESS) with true. cbn [negb].
  assert (Bset : forall eb, eb ∉ {[b]} ∪ B -> ({[eb]} ∪ ({[b]} ∪ B)) ∖ {[b]} = {[eb]} ∪ B).
  { intros eb N. clear -N Hb. set_solver. }
  assert (Bset0 : ({[b]} ∪ B) ∖ {[b]} = B).
  { clear -Hb. set_solver. }
  apply wp_bind, (wp_alloc p w0 w1 ({[b]} ∪ B)); [done | |].
  { intros e Hh. apply wp_bind, (wp_free p w0 _ ({[b]} ∪ B)); [by apply grown_env | apply elem_of_union; left; by apply elem_of_singleton |].
    intros w2. rewrite Bset0. intros G2. apply wp_ret. split_and!; [done | done | done |]. intros t _ Hhe. apply Hh. by eexists. }
  intros eb edata w2 G2 Heb _ _. destruct (enumerate_returns data (length data / 16 + 1)) as (st & ents & Ee & Hcap & _).
  rewrite Ee. destruct (_ <? _) eqn:Ew.
  { destruct Hfit as [-> | Hfit]; [done |]. exfalso. apply Z.ltb_lt in Ew. revert Ew. apply Z.le_ngt, array_fits; [done |].
    pose proof (table_bytes_bound (Fcb_DataSize fcb) ltac:(lia)).
    rewrite Nat2Z.inj_add, Nat2Z.inj_div, HL.
    pose proof (Z.div_le_mono (table_bytes (Fcb_DataSize fcb)) (2 ^ 27 + 2047) 16 ltac:(lia) ltac:(lia)) as Hq.
    change ((2 ^ 27 + 2047) / 16) with 8388735 in Hq. change (Z.of_nat 16) with 16. lia. }
  apply wp_bind, (wp_free p w0 _ _ _ _ G2).
  { apply elem_of_union. right. apply elem_of_union. left. by apply elem_of_singleton. }
  intros w3. rewrite (Bset eb Heb). intros G3. apply wp_ret. exists eb, ents. cbn [fst snd]. split_and!; [done | | done | |].
  - intros Hin. apply Heb, elem_of_union. by right.
  - apply (enum_loop_ok data _ _ _ _ _ _ Hd) in Ee; [done | by constructor | constructor].
  - intros t [T1 T2 T3 T4 T5 T6 T7]. assert (data = dir_table (TargetDevice v) (Fcb_DataSector fcb) (Fcb_DataSize fcb)) as ->.
    { rewrite table_bytes_whole in HL by first [lia | done]. rewrite <- Ht, take_ge by lia. done. }
    pose proof (enumerate_complete _ t Hd T5 T6 T7) as Ec. unfold enum_cap in Ec. unfold tree_entries. congruence.
Qed.

(** ** The context of a handle *)

Definition ctx_blocks (c2 : option (Z * XDVD_CCB)) : gset Z :=
  match c2 with Some (cb, c) => pattern_block c ∪ ({[cb]} ∪ entries_block c) | None => ∅ end.

(** Its blocks are separate, and it has entries exactly when they are
    loaded. *)
Definition ctx_ok (c2 : option (Z * XDVD_CCB)) : Prop :=
  match c2 with
  | Some (cb, c) => ~ (cb ∈ entries_block c) /\ pattern_block c ## {[cb]} ∪ entries_block c /\
      (EnumLoaded c = false -> Entries c = None) /\
      (EnumLoaded c = true -> exists eb ents, Entries c = Some (eb, ents) /\ EntryCount c = length ents /\ Forall entry_ok ents)
  | None => True
  end.

Definition prepared (w0 : world E) (dev : Z) (fcb : XDVD_FCB) (pat : option (list Z)) (c2 : option (Z * XDVD_CCB))
    (r : option Z * option (Z * XDVD_CCB)) w' : Prop :=
  grown w0 w' (ctx_blocks r.2) /\ ctx_ok r.2 /\
  match r.1 with
  | Some st => NT_SUCCESS st = false /\ (forall t, listable dev (Fcb_DataSector fcb) (Fcb_DataSize fcb) t -> ~ healthy dev)
  | None => (exists cb c, r.2 = Some (cb, c) /\ EnumLoaded c = true /\
      (c2 = None -> NextIndex c = O /\ stored_pattern pat c /\
        forall t, listable dev (Fcb_DataSector fcb) (Fcb_DataSize fcb) t -> exists eb, Entries c = Some (eb, tree_entries t)))
  end.

Lemma wp_prepare p w0 w s c2 fcb v flags pat : grown w0 w (ctx_blocks c2) -> ctx_ok c2 ->
  (p = true \/ Fcb_DataSize fcb <= 2 ^ 27 /\ forall cb c, c2 = Some (cb, c) -> pattern_ok c) -> vcb_of s (Fcb_Vcb fcb) = Some v -> 0 <= Fcb_DataSize fcb < 2 ^ 32 ->
  wp p (prepare s c2 fcb flags pat) w (prepared w0 (TargetDevice v) fcb pat c2).
Proof.
  intros G Hok Hp Hv Hs. unfold prepare. apply wp_bind.
  assert (Cont : forall cb c w1, grown w0 w1 (ctx_blocks (Some (cb, c))) -> ctx_ok (Some (cb, c)) -> (p = true \/ pattern_ok c) ->
    (c2 = None -> c = empty_ccb) ->
    wp p ('((stored, ccb) : bool * XDVD_CCB) ← update_pattern c flags pat;
          if negb stored then ret (Some STATUS_INSUFFICIENT_RESOURCES, Some (cb, ccb))
          else '((failed, ccb) : option Z * XDVD_CCB) ← load_entries s fcb ccb; ret (failed, Some (cb, ccb))) w1
      (prepared w0 (TargetDevice v) fcb pat c2)).
  2: { destruct c2 as [[cb c]|].
    - apply wp_ret. apply Cont; [done | done | | done]. destruct Hp as [-> | [_ Hp]]; [by left | right; by apply (Hp cb)].
    - apply wp_bind, (wp_alloc p w0 w ∅); [done | |].
      + intros e Hh. apply wp_ret. refine (wp_ret p (Some STATUS_INSUFFICIENT_RESOURCES, None) _ _ _).
        split; [by apply grown_env |]. split; [done |]. split; [done |]. intros t _ Hhe. apply Hh. by eexists.
      + intros cb data w1 G1 _ _ _. apply wp_ret. apply Cont; [| | by right | done].
        * cbn [ctx_blocks pattern_block entries_block empty_ccb SearchPattern Buffer Entries]. by rewrite union_empty_l_L.
        * cbn. split_and!; [by apply not_elem_of_empty | apply disjoint_empty_l | done | done]. }
  intros cb c w1 G1 (O1 & O2 & O3 & O4) Hpat Hemp. apply wp_bind. eapply wp_mono; [by apply (wp_update_pattern p w0 w1 ({[cb]} ∪ entries_block c)) |].
  intros [stored c'] w2 (P1 & P2 & P3 & P4 & P5 & P6 & P7 & P8). cbn [fst snd] in *.
  assert (Eb : entries_block c' = entries_block c) by (unfold entries_block; by rewrite P3).
  assert (G2 : grown w0 w2 (ctx_blocks (Some (cb, c')))) by (cbn [ctx_blocks]; by rewrite Eb).
  assert (O' : ctx_ok (Some (cb, c'))) by (cbn [ctx_ok]; rewrite Eb, P3, P4, P5; done).
  destruct stored; cbn [negb].
  2: { apply wp_ret. split; [done |]. split; [done |]. split; [done |]. intros t _ Hh. apply P7. by eexists. }
  apply wp_bind. destruct (EnumLoaded c') eqn:El.
  { unfold load_entries. rewrite El. apply wp_ret. apply wp_ret. split; [done |]. split; [done |]. exists cb, c'. split_and!; [done | done |].
    intros Hn. specialize (Hemp Hn). subst c. rewrite P5 in El. done. }
  assert (En : entries_block c = ∅) by (unfold entries_block; rewrite O3; [done | congruence]).
  assert (Hfit : p = true \/ Fcb_DataSize fcb <= 2 ^ 27) by (clear -Hp; tauto).
  eapply wp_mono; [by apply (wp_load_entries p w0 w2 _ s fcb v c' G2) |]. intros [failed c''] w3 L. apply wp_ret. cbn [fst snd] in *.
  destruct failed as [st|]; cbn [load_post fst snd] in L.
  - destruct L as (-> & G3 & Hst & Hh). by split_and!.
  - destruct L as (eb & ents & -> & Hnin & G3 & Hents & Hlist). cbn [ctx_blocks] in *. rewrite Eb, En, union_empty_r_L in *.
    split_and!; cbn [fst snd ctx_blocks].
    + replace (pattern_block _ ∪ _) with ({[eb]} ∪ (pattern_block c' ∪ {[cb]})); [done |]. unfold pattern_block, entries_block. cbn. set_solver.
    + cbn. unfold pattern_block, entries_block in *. cbn in *. split_and!; [set_solver | set_solver | done | intros _; by exists eb, ents].
    + exists cb. eexists. split_and!; [done | done |]. intros Hn. destruct (P8 (Hemp Hn) eq_refl) as [S1 S2]. split_and!; [done | done |].
      intros t Ht. exists eb. cbn. by rewrite (Hlist t Ht).
Qed.

(** ** A scan

    The client that lists a directory: it queries with a fresh buffer, reads
    the records and goes on while queries succeed; it ends with the last
    status. *)
Fixpoint scan (fuel : nat) (s : driver) (fo : FILE_OBJECT) (cls flags : Z) (pat : option (list Z)) (len : nat)
    : M E (list info * Z * FILE_OBJECT) :=
  match fuel with
  | O => hang
  | S fuel' =>
      '(((st, _), fo, buf) : completion * FILE_OBJECT * option (list Z)) ←
        XdvdDispatchDirectoryControl s fo IRP_MN_QUERY_DIRECTORY cls flags pat (Some (replicate len 0)) None;
      if st =? STATUS_SUCCESS then
        '((rest, st, fo) : list info * Z * FILE_OBJECT) ← scan fuel' s fo cls flags pat len;
        ret (decode_chain len cls (default [] buf) ++ rest, st, fo)
      else ret ([], st, fo)
  end.

Lemma ready_cursor pat ents c i : ready pat ents c -> ready pat ents (set_cursor c i).
Proof. intros []. by split. Qed.

Section client.
Context (s : driver) (cls f flags : Z) (pat : option (list Z)) (len : nat) (fb : Z) (fcb : XDVD_FCB) (ents : list ENTRY).
Hypothesis Hf : fixed_size cls = Some f.
Hypothesis Hdir : IsDirectory fcb = true.
Hypothesis Hflags : BooleanFlagOn flags SL_RESTART_SCAN = false.
Hypothesis Hlen : (640 <= len)%nat /\ Z.of_nat len < 2 ^ 31.
Hypothesis Hents : Forall entry_ok ents.

Let todo (c : XDVD_CCB) : list ENTRY := List.filter (fun e => matches pat (E_Name e)) (drop (NextIndex c) ents).

Lemma todo_fits c e es : todo c = e :: es -> entry_size f (E_NameLength e) <= Z.of_nat len.
Proof.
  intros Ht. assert (Hin : In e (todo c)) by (rewrite Ht; by left). apply List.filter_In in Hin as [Hin _].
  rewrite list.Forall_forall in Hents. assert (He : entry_ok e).
  { apply Hents. rewrite <- (take_drop (NextIndex c) ents). apply elem_of_app. right. by apply list_elem_of_In. }
  destruct (entry_size_bounds cls f (E_NameLength e) Hf ltac:(destruct He; lia)) as (B1 & B2 & B3). destruct He. lia.
Qed.

(** The continuation of a query in a scan. *)
Let continue (fuel : nat) (r : completion * FILE_OBJECT * option (list Z)) : M E (list info * Z * FILE_OBJECT) :=
  let '((st, _), fo, buf) := r in
  if st =? STATUS_SUCCESS then
    '((rest, st, fo) : list info * Z * FILE_OBJECT) ← scan fuel s fo cls flags pat len;
    ret (decode_chain len cls (default [] buf) ++ rest, st, fo)
  else ret ([], st, fo).

(** A query that starts with the entries still to come, and the rest of the
    scan. *)
Lemma scan_from fuel : forall fo cb c w, FsContext fo = Some (fb, fcb) -> ready pat ents c -> (length (todo c) <= fuel)%nat ->
  exists i, (emit_records fo cb c cls flags pat (replicate len 0) ≫= continue fuel) w =
    Done (map (info_of cls) (todo c), STATUS_NO_MORE_FILES, set_contexts fo (FsContext fo) (Some (cb, set_cursor c i))) w.
Proof.
  induction fuel as [fuel IH] using lt_wf_ind. intros fo cb c w Hfo Hr Hfuel.
  destruct (emit_records_ready fo cls f flags pat cb c ents (replicate len 0) w Hf Hr Hents ltac:(rewrite length_replicate; lia))
    as (st & n & buf & taken & Ee & Lb & es1 & es2 & Et & -> & Ha). rewrite length_replicate in *.
  unfold mbind at 1, M_bind at 1. rewrite Ee. cbn [continue].
  assert (Etodo : todo c = List.filter (fun e => matches pat (E_Name e)) es1 ++ List.filter (fun e => matches pat (E_Name e)) es2)
    by (unfold todo; rewrite Et; apply List.filter_app).
  destruct Ha as [(Hne & -> & Hn & Hgot & _) | [(-> & -> & Hn & ->) | (-> & -> & -> & e & He & Le)]].
  - destruct fuel as [|fuel]; [rewrite Etodo, length_app in Hfuel; destruct (List.filter _ es1); [done | cbn in Hfuel; lia] |].
    set (c' := set_cursor c (NextIndex c + length es1)). set (fo' := set_contexts fo (FsContext fo) (Some (cb, c'))).
    assert (Hc' : todo c' = List.filter (fun e => matches pat (E_Name e)) es2).
    { unfold todo, c'. cbn [NextIndex set_cursor]. rewrite <- drop_drop, Et, drop_app_length. done. }
    destruct (IH fuel ltac:(lia) fo' cb c' w) as [i Hi]; [done | by apply ready_cursor | |].
    { rewrite Hc'. rewrite Etodo, length_app in Hfuel. destruct (List.filter _ es1); [done | cbn in Hfuel; lia]. }
    assert (Es : scan (S fuel) s fo' cls flags pat len w =
      (XdvdDispatchDirectoryControl s fo' IRP_MN_QUERY_DIRECTORY cls flags pat (Some (replicate len 0)) None ≫= continue fuel) w) by reflexivity.
    unfold mbind, M_bind in Es. rewrite (query_ready s fo' cls flags pat fb fcb cb c' ents (replicate len 0) w Hfo Hdir eq_refl
      (ready_cursor _ _ _ _ Hr) Hflags) in Es by (destruct len; [lia | done]).
    unfold mbind, M_bind in Hi. rewrite Hi in Es. exists i. cbn [Z.eqb STATUS_SUCCESS]. unfold mbind at 1, M_bind at 1. rewrite Es.
    cbn [default from_option id]. rewrite Hgot, Hc'. unfold ret. rewrite <- map_app, <- Etodo. done.
  - exists (NextIndex c + length (@nil ENTRY))%nat. by rewrite Etodo, Hn.
  - exfalso. cbn [List.filter app] in Etodo. destruct (List.filter _ es2) as [|e' es3]; [done |]. injection He as ->.
    pose proof (todo_fits c e es3 Etodo). lia.
Qed.

End client.

(** C12: Listing a directory of a healthy disc.  The directory is whole sectors
    that hold a search tree lower than the enumeration's stack of 512, of
    entries that do not overlap and are each at least a sector short of four
    gigabytes.  With any pattern, record class and single-entry flag, without
    a restart, and with a buffer of 640 bytes or more, the queries of a scan
    on a new handle return, between them, exactly the entries of the
    directory that match the pattern, each once and in the order of the tree,
    with the name, the size, the size in whole sectors and the attributes,
    and then the status that there are no more files; the handle keeps its
    context, its entries and its pattern in the pool and nothing else. *)
Theorem directory_scan_complete s fo fb fcb v cls f flags pat len t w :
  FsContext fo = Some (fb, fcb) -> FsContext2 fo = None -> IsDirectory fcb = true -> vcb_of s (Fcb_Vcb fcb) = Some v ->
  0 <= Fcb_DataSize fcb < 2 ^ 32 -> listable (TargetDevice v) (Fcb_DataSector fcb) (Fcb_DataSize fcb) t -> healthy (TargetDevice v) ->
  (forall d, d ∈ (preorder t).*2 -> 0 <= DataSize d <= 2 ^ 32 - XDVD_SECTOR_SIZE) ->
  fixed_size cls = Some f -> BooleanFlagOn flags SL_RESTART_SCAN = false -> (640 <= len)%nat -> Z.of_nat len < 2 ^ 31 -> heap_ok w ->
  let hits := List.filter (fun d => matches pat (Name d)) (preorder t).*2 in
  exists fo' w', scan (S (length hits)) s fo cls flags pat len w = Done (map (listed cls) hits, STATUS_NO_MORE_FILES, fo') w' /\
    FsContext fo' = Some (fb, fcb) /\ ctx_ok (FsContext2 fo') /\ grown w w' (ctx_blocks (FsContext2 fo')).
Proof.
  intros Hfo Hfo2 Hdir Hv Hsz Hlist Hh Hds Hf Hflags Hlen Hlen2 Hw hits0.
  assert (Et : tree_entries t = map entry_of (preorder t).*2) by (unfold tree_entries; by rewrite map_map).
  set (hits := List.filter (fun e => matches pat (E_Name e)) (tree_entries t)).
  assert (Eh : map (info_of cls) hits = map (listed cls) hits0) by (unfold hits, hits0; rewrite Et; by apply hits_listed).
  assert (El : length hits0 = length hits) by (rewrite <- (length_map (listed cls)), <- Eh; apply length_map). rewrite El, <- Eh.
  assert (Hpre : wp false (prepare s None fcb flags pat) w (prepared w (TargetDevice v) fcb pat None)).
  { apply wp_prepare; [by apply grown_refl | done | right; split; [apply (ls_size _ _ _ _ Hlist) | done] | done | done]. }
  destruct (wp_done _ _ _ Hpre) as ([failed c2] & w1 & Ep & G & Ok & Hr). cbn [fst snd] in *.
  destruct failed as [st|]; [by destruct (proj2 Hr t Hlist) |]. destruct Hr as (cb & c & -> & Hload & Hnew).
  destruct (Hnew eq_refl) as (Hnext & Hpat & Hent). destruct (Hent t Hlist) as [eb He]. pose proof Ok as (_ & _ & _ & O4).
  destruct (O4 Hload) as (eb' & ents & He' & Hcnt & Hents). rewrite He in He'. injection He' as <- <-.
  assert (Hready : ready pat (tree_entries t) c) by (split; [done | by eexists | done | done]).
  destruct (scan_from s cls f flags pat len fb fcb (tree_entries t) Hf Hdir Hflags ltac:(lia) Hents (length hits) fo cb c w1 Hfo Hready) as [i Hi].
  { rewrite Hnext. done. }
  exists (set_contexts fo (FsContext fo) (Some (cb, set_cursor c i))), w1. split_and!; [| done | done | done].
  rewrite Hnext in Hi. change (drop 0 (tree_entries t)) with (tree_entries t) in Hi. fold hits in Hi.
  rewrite <- Hi. cbn [scan]. unfold mbind at 1, M_bind at 1. unfold mbind at 2, M_bind at 2.
  assert (Eq : XdvdDispatchDirectoryControl s fo IRP_MN_QUERY_DIRECTORY cls flags pat (Some (replicate len 0)) None w =
    emit_records fo cb c cls flags pat (replicate len 0) w1).
  { unfold XdvdDispatchDirectoryControl. cbn [Z.eqb IRP_MN_QUERY_DIRECTORY Pos.eqb negb]. rewrite Hfo, Hdir, Hfo2.
    cbv [mbind M_bind ret]. destruct len; [lia |]. cbn [replicate length Nat.eqb negb]. by rewrite Ep. }
  by rewrite Eq.
Qed.

End scan.

Definition root_handle : FILE_OBJECT :=
  FileObject [BACKSLASH] (Some (102, root_fcb 10 101 Sample.volume)) None (Some 3) None 0.

Lemma sample_sizes d : d ∈ (preorder sample_tree).*2 -> 0 <= DataSize d <= 2 ^ 32 - XDVD_SECTOR_SIZE.
Proof.
  assert (E : forallb (fun d => (0 <=? DataSize d) && (DataSize d <=? 2 ^ 32 - XDVD_SECTOR_SIZE)) (preorder sample_tree).*2 = true)
    by (vm_compute; reflexivity).
  rewrite forallb_forall in E. intros Hd%list_elem_of_In%E. lia.
Qed.

Lemma directory_scan_complete_witness :
  let hits := List.filter (fun d => matches (Some [STAR]) (Name d)) (preorder sample_tree).*2 in
  exists fo' w', scan (S (length hits)) Sample.mounted root_handle FileBothDirectoryInformation 0 (Some [STAR]) 640 (Sample.start tt) =
      Done (map (listed FileBothDirectoryInformation) hits, STATUS_NO_MORE_FILES, fo') w' /\
    FsContext fo' = Some (102, root_fcb 10 101 Sample.volume) /\ ctx_ok (FsContext2 fo') /\
    grown (Sample.start tt) w' (ctx_blocks (FsContext2 fo')).
Proof.
  apply (directory_scan_complete Sample.mounted root_handle 102 (root_fcb 10 101 Sample.volume) Sample.volume
    FileBothDirectoryInformation 94 0 (Some [STAR]) 640 sample_tree (Sample.start tt));
    [reflexivity | reflexivity | reflexivity | vm_compute; reflexivity | cbn; lia | | apply Sample.good_healthy
    | apply sample_sizes | reflexivity | reflexivity | lia | lia | apply Sample.start_ok].
  split; [cbn; lia | cbn; lia | reflexivity | by vm_compute | | apply sample_apart | vm_compute; lia].
  change (dir_table (TargetDevice Sample.volume) (Fcb_DataSector (root_fcb 10 101 Sample.volume)) (Fcb_DataSize (root_fcb 10 101 Sample.volume)))
    with (dir_table (E := unit) 7 33 2048). rewrite Sample.root_table_is. apply sample_holds.
Defined.

(** ** A pattern that could not be stored

    When memory for a new pattern runs out the old one's buffer is gone but
    its length stays: the next query that falls back on the stored pattern
    follows the null pointer. *)
Definition ask_directory (fo : FILE_OBJECT) (pat : option (list Z)) : M (list bool) (completion * FILE_OBJECT * option (list Z)) :=
  XdvdDispatchDirectoryControl Sample.mounted fo IRP_MN_QUERY_DIRECTORY FileNamesInformation 0 pat (Some (replicate 640 0)) None.

Lemma lost_pattern_faults :
  (r1 ← ask_directory root_handle (Some name_data);
   r2 ← ask_directory r1.1.2 (Some [99; 100]);
   ask_directory r2.1.2 None) (Sample.start [true; true; true; true; false]) = Faults /\
  (r1 ← ask_directory root_handle (Some name_data);
   r2 ← ask_directory r1.1.2 (Some [99; 100]);
   ret (r1.1.1, r2.1.1)) (Sample.start [true; true; true; true; false]) =
     Done ((STATUS_SUCCESS, 24), (STATUS_INSUFFICIENT_RESOURCES, 0)) (World [] {[100; 103]} 104 false).
Proof. split; vm_compute; reflexivity. Qed.

(** ** File information *)

(** The sum of the rounding is taken in 32 bits: a file within a sector of
    four gigabytes has no size on disc. *)
Lemma allocation_size_wraps : AllocationSize (2 ^ 32 - 1) = 0.
Proof. reflexivity. Qed.

(** The standard information of an open file, read back from the buffer. *)
Lemma standard_information {E} (fo : FILE_OBJECT) fb f buf (w : world E) : FsContext fo = Some (fb, f) -> 0 <= Fcb_DataSize f < 2 ^ 32 ->
  (24 <= length buf)%nat -> exists buf', XdvdDispatchQueryInformation fo FileStandardInformation buf w = Done ((STATUS_SUCCESS, 24), buf') w /\
    length buf' = length buf /\ load64 buf' = AllocationSize (Fcb_DataSize f) /\ load64 (drop 8 buf') = Fcb_DataSize f /\
    load32 (drop 16 buf') = 1 /\ nth 20 buf' 0 = 0 /\ nth 21 buf' 0 = Z.b2z (IsDirectory f).
Proof.
  intros Hf Hs Hl. unfold XdvdDispatchQueryInformation. rewrite Hf. cbn [Z.eqb FileStandardInformation FileBasicInformation Pos.eqb].
  rewrite (proj2 (Z.ltb_ge _ _)) by lia. eexists. split; [reflexivity |].
  assert (Hnth : forall l k, nth k l 0 = nth 0 (slice l k 1) 0) by (intros l k; unfold slice; rewrite !nth_lookup, lookup_take_lt, lookup_drop, Nat.add_0_r by lia; done).
  pose proof (allocation_range (Fcb_DataSize f)) as Ha. split; [lengths |].
  rewrite <- (drop_0 (write _ 21 _)) at 1. rewrite !load64_slice, load32_slice, (Hnth _ 20%nat), (Hnth _ 21%nat). fields.
  rewrite <- (app_nil_r (store64 (AllocationSize _))), <- (app_nil_r (store64 (Fcb_DataSize f))), !load64_store by lia. done.
Qed.
