(* ===== verification/XdvdHistory.v ===== *)
(** * Histories of the disc file system driver

    The driver's handlers composed: any sequence of mounts, opens, reads,
    queries and closes, with the contract of the I/O manager (a file object
    is opened once, used, and closed once), over any machine that obeys its
    laws, the failing one included, and any bytes on the disc.  The theorem
    is about memory and counts: every pool block the driver holds belongs to
    exactly one open file, nothing is freed twice, and a volume's open count
    is the number of files open on it. *)

From stdpp Require Import prelude list numbers gmap fin_map_dom relations.
From Stdlib Require Import ZArith Lia.
From S2P Require Import Prelude Bytes XdvdDir XdvdIo Xdvdfs XdvdQuery XdvdScan.

Local Open Scope Z_scope.

(** The driver, the open file objects with the device each was opened on,
    and the machine. *)
Record xstate {E} := XState { drv : driver; files : gmap Z (Z * FILE_OBJECT); wld : world E }.
Arguments xstate : clear implicits.
Arguments XState {E}.
Arguments drv {E}.
Arguments files {E}.
Arguments wld {E}.

Section history.
Context {E : Type} {MC : Machine E} {ML : @MachineLaws E MC}.
Implicit Types w : world E.

(** A request that ran to its end. *)
Inductive xstep : xstate E -> xstate E -> Prop :=
| step_mount s fs w target vpb st s' w' :
    XdvdMountVolume s target vpb w = Done (st, s') w' ->
    xstep (XState s fs w) (XState s' fs w')
| step_open s fs w fid dev path Options st info fo s' w' :
    fs !! fid = None ->
    XdvdDispatchCreate s dev (new_file path) Options w = Done ((st, info), fo, s') w' ->
    xstep (XState s fs w) (XState s' (if NT_SUCCESS st then <[fid := (dev, fo)]> fs else fs) w')
| step_read s fs w fid dev fo ByteOffset userLen Mdl c fo' Mdl' w' :
    fs !! fid = Some (dev, fo) -> 0 <= userLen < 2 ^ 32 -> userLen <= Z.of_nat (length Mdl) -> bytes Mdl ->
    XdvdDispatchRead s fo ByteOffset userLen Mdl w = Done (c, fo', Mdl') w' ->
    xstep (XState s fs w) (XState s (<[fid := (dev, fo')]> fs) w')
| step_set s fs w fid dev fo cls buf c fo' w' :
    fs !! fid = Some (dev, fo) ->
    XdvdDispatchSetInformation fo cls buf w = Done (c, fo') w' ->
    xstep (XState s fs w) (XState s (<[fid := (dev, fo')]> fs) w')
| step_directory s fs w fid dev fo minor cls flags pat ub mdl c fo' buf w' :
    fs !! fid = Some (dev, fo) ->
    XdvdDispatchDirectoryControl s fo minor cls flags pat ub mdl w = Done (c, fo', buf) w' ->
    xstep (XState s fs w) (XState s (<[fid := (dev, fo')]> fs) w')
| step_close s fs w fid dev fo c fo' s' w' :
    fs !! fid = Some (dev, fo) ->
    XdvdDispatchClose s dev fo w = Done (c, fo', s') w' ->
    xstep (XState s fs w) (XState s' (delete fid fs) w').

(** ** What every reachable state has *)

(** The pool blocks of a file object. *)
Definition blocks (fo : FILE_OBJECT) : gset Z :=
  match FsContext fo with Some (fb, f) => {[fb; Fcb_NameBuffer f]} | None => ∅ end ∪ ctx_blocks (FsContext2 fo).

Definition blocks_of (fs : gmap Z (Z * FILE_OBJECT)) (fid : Z) : gset Z :=
  match fs !! fid with Some (_, fo) => blocks fo | None => ∅ end.

(** Device numbers are handed out in order; the words of a volume block are
    words. *)
Record driver_ok (s : driver) : Prop := DriverOk {
  do_fresh : forall dev d, devices s !! dev = Some d -> dev < next_device s;
  do_control : forall dev, ControlDevice s = Some dev -> dev < next_device s;
  do_vcb : forall dev v, vcb_of s dev = Some v -> vcb_ok v
}.

(** A file object opened on a volume has its blocks, apart from each other;
    one of the control device has none. *)
Definition file_ok (s : driver) (dev : Z) (fo : FILE_OBJECT) : Prop :=
  match FsContext fo with
  | None => FsContext2 fo = None
  | Some (fb, f) =>
      is_control s dev = false /\ Fcb_Vcb f = dev /\ is_Some (vcb_of s dev) /\
      0 <= Fcb_DataSector f < 2 ^ 32 /\ 0 <= Fcb_DataSize f < 2 ^ 32 /\
      fb <> Fcb_NameBuffer f /\ {[fb; Fcb_NameBuffer f]} ## ctx_blocks (FsContext2 fo) /\ ctx_ok (FsContext2 fo)
  end.

(** Every block held belongs to one file. *)
Record heap_inv (fs : gmap Z (Z * FILE_OBJECT)) w : Prop := HeapInv {
  hi_ok : heap_ok w;
  hi_bad : bad_free w = false;
  hi_owned : forall b, b ∈ live w <-> exists fid, b ∈ blocks_of fs fid;
  hi_apart : forall i j, i <> j -> blocks_of fs i ## blocks_of fs j
}.

(** The file is open on the volume. *)
Definition open_on (dev : Z) (x : Z * (Z * FILE_OBJECT)) : Prop := x.2.1 = dev /\ is_Some (FsContext x.2.2).

#[global] Instance open_on_dec dev x : Decision (open_on dev x).
Proof. unfold open_on. apply _. Defined.

Definition opens (fs : gmap Z (Z * FILE_OBJECT)) (dev : Z) : Z := Z.of_nat (size (filter (open_on dev) fs)).

Definition counted (s : driver) (fs : gmap Z (Z * FILE_OBJECT)) : Prop :=
  forall dev v, vcb_of s dev = Some v -> OpenCount v = u32 (opens fs dev).

Record xinv (x : xstate E) : Prop := XInv {
  xi_driver : driver_ok (drv x);
  xi_files : forall fid dev fo, files x !! fid = Some (dev, fo) -> file_ok (drv x) dev fo;
  xi_heap : heap_inv (files x) (wld x);
  xi_count : counted (drv x) (files x)
}.

(** ** Framing *)

(** The world without some of the blocks. *)
Definition without w (B : gset Z) : world E := World (env w) (live w ∖ B) (fresh w) (bad_free w).

Lemma grown_without w B : heap_ok w -> B ⊆ live w -> grown (without w B) w B.
Proof.
  intros Hw Hs. split; cbn [live fresh bad_free without]; [by apply union_difference_L | set_solver | done | lia | | done].
  intros b Hb. apply Hw. cbn in Hb. set_solver.
Qed.

(** The blocks of one file change from [X] to [X'], all others stay. *)
Lemma heap_inv_update fs fs' fid w w' X' :
  heap_inv fs w -> grown (without w (blocks_of fs fid)) w' X' ->
  blocks_of fs' fid = X' -> (forall i, i <> fid -> blocks_of fs' i = blocks_of fs i) -> heap_inv fs' w'.
Proof.
  intros [H1 H2 H3 H4] [L D B F O O'] <- Hother. cbn [without live bad_free] in *.
  assert (Hin : forall i, i <> fid -> blocks_of fs i ⊆ live w ∖ blocks_of fs fid).
  { intros i Hi b Hb. apply elem_of_difference. split; [apply H3; by exists i |]. intros Hb'. by apply (H4 i fid Hi b). }
  split; [done | congruence | |].
  - intros b. rewrite L, elem_of_union, elem_of_difference, H3. split.
    + intros [Hb | [[i Hi] Hn]]; [by exists fid |]. destruct (decide (i = fid)) as [-> | Hne]; [done |]. exists i. by rewrite Hother.
    + intros [i Hi]. destruct (decide (i = fid)) as [-> | Hne]; [by left | right]. rewrite Hother in Hi by done.
      split; [by exists i |]. intros Hb. by apply (H4 i fid Hne b).
  - intros i j Hij. destruct (decide (i = fid)) as [-> | Hi], (decide (j = fid)) as [-> | Hj]; [done | | |].
    + rewrite (Hother j) by done. intros b Hb Hb'. apply (D b Hb). by apply (Hin j).
    + rewrite (Hother i) by done. intros b Hb Hb'. apply (D b Hb'). by apply (Hin i).
    + rewrite !Hother by done. by apply H4.
Qed.

Lemma blocks_live fs w fid : heap_inv fs w -> blocks_of fs fid ⊆ live w.
Proof. intros [_ _ H _] b Hb. apply H. by exists fid. Qed.

Lemma blocks_of_insert fs fid dev fo i : blocks_of (<[fid := (dev, fo)]> fs) i = if decide (i = fid) then blocks fo else blocks_of fs i.
Proof.
  unfold blocks_of. case_decide as Hi; [subst; by rewrite lookup_insert_eq | by rewrite lookup_insert_ne by done].
Qed.

Lemma blocks_of_delete fs fid i : blocks_of (delete fid fs) i = if decide (i = fid) then ∅ else blocks_of fs i.
Proof.
  unfold blocks_of. case_decide as Hi; [subst; by rewrite lookup_delete_eq | by rewrite lookup_delete_ne by done].
Qed.

(** ** Counting *)

Lemma opens_insert_new fs fid dev fo d : fs !! fid = None ->
  opens (<[fid := (dev, fo)]> fs) d = opens fs d + (if decide (open_on d (fid, (dev, fo))) then 1 else 0).
Proof.
  intros Hn. unfold opens. case_decide as Ho.
  - rewrite map_filter_insert_True by done. rewrite map_size_insert_None by (by rewrite map_lookup_filter, Hn). lia.
  - rewrite map_filter_insert_not' by (try done; intros y Hy; congruence). lia.
Qed.

Lemma opens_delete fs fid dev fo d : fs !! fid = Some (dev, fo) ->
  opens fs d = opens (delete fid fs) d + (if decide (open_on d (fid, (dev, fo))) then 1 else 0).
Proof.
  intros Hf. rewrite <- (insert_delete_id fs fid (dev, fo) Hf) at 1. rewrite opens_insert_new; [done | apply lookup_delete_eq].
Qed.

Lemma opens_update fs fid dev fo fo' d : fs !! fid = Some (dev, fo) -> FsContext fo' = FsContext fo ->
  opens (<[fid := (dev, fo')]> fs) d = opens fs d.
Proof.
  intros Hf Hc. rewrite (opens_delete fs fid dev fo d Hf), <- insert_delete_eq, opens_insert_new by apply lookup_delete_eq.
  f_equal. apply decide_ext. unfold open_on. cbn [fst snd]. by rewrite Hc.
Qed.

(** ** Steps *)

Lemma widen w w' F C C' : heap_ok w -> F ∪ C ⊆ live w -> F ## C -> grown (without w C) w' C' ->
  grown (without w (F ∪ C)) w' (F ∪ C') /\ F ## C'.
Proof.
  intros Hw Hs Hd [L D B N O O']. cbn [without live fresh bad_free] in *.
  assert (D' : F ## C') by (intros b H1 H2; apply (D b H2); set_solver). split; [| done].
  split; cbn [without live fresh bad_free]; [| | done | done | | done].
  - rewrite L. apply set_eq. intros b. rewrite !elem_of_union, !elem_of_difference, elem_of_union. destruct (decide (b ∈ F)); set_solver.
  - intros b [Hb | Hb]%elem_of_union; set_solver.
  - intros b Hb. apply Hw. cbn in Hb. set_solver.
Qed.

Lemma keep_frame w w' C : heap_ok w -> C ⊆ live w -> grown w w' ∅ -> grown (without w C) w' C.
Proof. intros Hw Hs G. pose proof (grown_trans _ _ _ _ _ (grown_without w C Hw Hs) G) as Gt. by rewrite union_empty_l_L in Gt. Qed.

Definition own (fo : FILE_OBJECT) : gset Z := match FsContext fo with Some (fb, f) => {[fb; Fcb_NameBuffer f]} | None => ∅ end.

Lemma blocks_split fo : blocks fo = own fo ∪ ctx_blocks (FsContext2 fo).
Proof. done. Qed.

Lemma file_ok_apart s dev fo : file_ok s dev fo -> own fo ## ctx_blocks (FsContext2 fo) /\ ctx_ok (FsContext2 fo).
Proof.
  unfold file_ok, own. destruct (FsContext fo) as [[fb f]|]; [tauto |]. intros ->. split; [apply disjoint_empty_l | done].
Qed.

(** A request that leaves the file's own block and may change its context. *)
Lemma step_file s fs w fid dev fo fo' w' : xinv (XState s fs w) -> fs !! fid = Some (dev, fo) ->
  FsContext fo' = FsContext fo -> (FsContext fo = None -> FsContext2 fo' = None) -> ctx_ok (FsContext2 fo') ->
  grown (without w (ctx_blocks (FsContext2 fo))) w' (ctx_blocks (FsContext2 fo')) ->
  xinv (XState s (<[fid := (dev, fo')]> fs) w').
Proof.
  intros [I1 I2 I3 I4] Hf Hc Hn Hok G. cbn [drv files wld] in *. pose proof (I2 fid dev fo Hf) as Fok.
  destruct (file_ok_apart s dev fo Fok) as [Hap _]. pose proof (blocks_live fs w fid I3) as Hl. unfold blocks_of in Hl. rewrite Hf, blocks_split in Hl.
  destruct (widen w w' (own fo) _ _ (hi_ok _ _ I3) Hl Hap G) as [G' Hap'].
  split; cbn [drv files wld]; [done | | |].
  - intros i d g Hi. destruct (decide (i = fid)) as [-> | Hne]; [| rewrite lookup_insert_ne in Hi by done; by apply (I2 i)].
    rewrite lookup_insert_eq in Hi. injection Hi as <- <-. unfold file_ok, own in *. rewrite Hc. destruct (FsContext fo) as [[fb f]|]; [| by apply Hn].
    destruct Fok as (F1 & F2 & F3 & F4 & F5 & F6 & _ & _). done.
  - apply (heap_inv_update fs _ fid w w' (blocks fo') I3); [| rewrite blocks_of_insert; by rewrite decide_True by done | intros i Hi; rewrite blocks_of_insert; by rewrite decide_False by done].
    unfold blocks_of. rewrite Hf, !blocks_split. unfold own in *. by rewrite Hc.
  - intros d v Hv. rewrite (opens_update fs fid dev fo fo' d Hf Hc). by apply I4.
Qed.

(** Every read leaves the contexts and the pool. *)
Lemma wp_read_any s fo ByteOffset userLen Mdl w : heap_ok w -> 0 <= userLen < 2 ^ 32 -> userLen <= Z.of_nat (length Mdl) -> bytes Mdl ->
  (forall fb f, FsContext fo = Some (fb, f) -> 0 <= Fcb_DataSector f < 2 ^ 32 /\ 0 <= Fcb_DataSize f < 2 ^ 32 /\ is_Some (vcb_of s (Fcb_Vcb f))) ->
  wp true (XdvdDispatchRead s fo ByteOffset userLen Mdl) w (fun r w' =>
    grown w w' ∅ /\ FsContext r.1.2 = FsContext fo /\ FsContext2 r.1.2 = FsContext2 fo).
Proof.
  intros Hw Hl Hm Hb Hf. destruct (FsContext fo) as [[fb f]|] eqn:Ef.
  2: { unfold XdvdDispatchRead. rewrite Ef. apply wp_ret. split; [by apply grown_refl | done]. }
  destruct (Hf fb f eq_refl) as (R1 & R2 & [v Hv]).
  destruct (IsDirectory f) eqn:Ed.
  { unfold XdvdDispatchRead. rewrite Ef, Ed. apply wp_ret. split; [by apply grown_refl | done]. }
  destruct (Z.eq_dec userLen 0) as [-> | Hz].
  { unfold XdvdDispatchRead. rewrite Ef, Ed. apply wp_ret. split; [by apply grown_refl | done]. }
  destruct (Z.le_gt_cases (Fcb_DataSize f) (u64 ByteOffset)) as [Le | Lt].
  { unfold XdvdDispatchRead. rewrite Ef, Ed, (proj2 (Z.eqb_neq userLen 0) Hz), (proj2 (Z.leb_le _ _) Le). apply wp_ret. split; [by apply grown_refl | done]. }
  assert (Ho : 0 <= u64 ByteOffset < 2 ^ 64) by (apply Z.mod_pos_bound; lia).
  assert (Eu : u64 (u64 ByteOffset) = u64 ByteOffset) by (apply Z.mod_mod; lia).
  assert (Eq : XdvdDispatchRead s fo ByteOffset userLen Mdl = XdvdDispatchRead s fo (u64 ByteOffset) userLen Mdl)
    by (unfold XdvdDispatchRead; by rewrite Eu).
  rewrite Eq. eapply wp_mono; [by apply (wp_read true s fo fb f v (u64 ByteOffset) userLen Mdl w Ef Ed Hv); try lia |].
  intros [[[st info] fo'] Mdl'] w' (G & _ & _ & _ & P). cbn [fst snd]. split; [done |].
  destruct P as [(_ & _ & -> & _) | (_ & _ & -> & _)]; (split; [exact Ef | reflexivity]).
Qed.

Lemma wp_match_world Name NameLen pattern w : wp true (XdvdMatchName Name NameLen pattern) w (fun _ w' => w' = w).
Proof. unfold XdvdMatchName. repeat case_match; try (by apply wp_ret); done. Qed.

Lemma wp_emit_world es : forall i cls flags pattern m w, wp true (emit es i cls flags pattern m) w (fun _ w' => w' = w).
Proof.
  induction es as [|e es IH]; intros i cls flags pattern m w; cbn [emit]; [by apply wp_ret |].
  apply wp_bind. eapply wp_mono; [apply wp_match_world |]. intros hit w' ->. destruct (negb hit); [apply IH |].
  destruct (fixed_size cls); [| by apply wp_ret]. destruct (_ <? _); [by apply wp_ret |].
  destruct (BooleanFlagOn flags SL_RETURN_SINGLE_ENTRY); [by apply wp_ret | apply IH].
Qed.

Lemma wp_emit_records fo cb c cls flags pat buf w : wp true (emit_records fo cb c cls flags pat buf) w
  (fun r w' => w' = w /\ FsContext r.1.2 = FsContext fo /\ exists i, FsContext2 r.1.2 = Some (cb, set_cursor c i)).
Proof.
  unfold emit_records. apply wp_bind. eapply wp_mono; [apply wp_emit_world |]. intros [st | [st m]] w' ->.
  - apply wp_ret. split_and!; [done | done |]. exists (NextIndex c). by destruct c.
  - destruct (0 <? used m); apply wp_ret; (split_and!; [done | done | by exists (next m)]).
Qed.

(** Every directory request leaves the file's own block; its context's blocks
    are again its own. *)
Lemma wp_directory_any s dev fo minor cls flags pt ub mdl w : heap_ok w -> file_ok s dev fo -> ctx_blocks (FsContext2 fo) ⊆ live w ->
  wp true (XdvdDispatchDirectoryControl s fo minor cls flags pt ub mdl) w (fun r w' =>
    FsContext r.1.2 = FsContext fo /\ (FsContext fo = None -> FsContext2 r.1.2 = FsContext2 fo) /\ ctx_ok (FsContext2 r.1.2) /\
    grown (without w (ctx_blocks (FsContext2 fo))) w' (ctx_blocks (FsContext2 r.1.2))).
Proof.
  intros Hw Hf Hs. destruct (file_ok_apart s dev fo Hf) as [_ Hok]. pose proof (grown_without w _ Hw Hs) as G.
  unfold XdvdDispatchDirectoryControl. destruct (negb _); [by apply wp_ret |].
  destruct (FsContext fo) as [[fb f]|] eqn:Ef; [| apply wp_ret; cbn [fst snd]; by rewrite Ef].
  unfold file_ok in Hf. rewrite Ef in Hf. destruct Hf as (_ & Hv & [v Hvcb] & _ & Hz & _). rewrite <- Hv in Hvcb.
  destruct (negb (IsDirectory f)); [apply wp_ret; cbn [fst snd]; by rewrite Ef |].
  assert (Cont : forall ob w1, grown (without w (ctx_blocks (FsContext2 fo))) w1 (ctx_blocks (FsContext2 fo)) -> wp true (match ob : option (list Z) with
      | None => ret ((STATUS_INVALID_USER_BUFFER, 0), fo, ob)
      | Some buf => if (length buf =? 0)%nat then ret ((STATUS_INVALID_USER_BUFFER, 0), fo, ob)
          else '((failed, ccb) : option Z * option (Z * XDVD_CCB)) ← prepare s (FsContext2 fo) f flags pt;
            match failed, ccb with
            | Some status, _ => ret ((status, 0), set_contexts fo (Some (fb, f)) ccb, ob)
            | None, Some (cb, ccb) => emit_records fo cb ccb cls flags pt buf
            | None, None => fault
            end
      end) w1 (fun r w' => FsContext r.1.2 = Some (fb, f) /\ (Some (fb, f) = None -> FsContext2 r.1.2 = FsContext2 fo) /\
        ctx_ok (FsContext2 r.1.2) /\ grown (without w (ctx_blocks (FsContext2 fo))) w' (ctx_blocks (FsContext2 r.1.2)))).
  { intros ob w1 Ge. destruct ob as [buf|]; [| apply wp_ret; by split_and!].
    destruct (_ =? _)%nat; [apply wp_ret; by split_and! |]. apply wp_bind.
    eapply wp_mono; [by apply (wp_prepare true _ w1 s (FsContext2 fo) f v flags pt Ge Hok); [left | |] |].
    intros [failed c2] w2 (G2 & O2 & _). cbn [fst snd] in *. destruct failed as [st|]; [apply wp_ret; by split_and! |].
    destruct c2 as [[cb c]|]; [| done]. eapply wp_mono; [apply wp_emit_records |]. intros [[cp fo'] ob'] w3 (-> & E1 & i & E2). cbn [fst snd] in *.
    rewrite E1, E2, Ef. by split_and!. }
  apply wp_bind. destruct ub as [buf|]; [apply wp_ret; exact (Cont (Some buf) w G) |].
  destruct mdl as [m|]; [| apply wp_ret; exact (Cont None w G)].
  apply wp_bind, wp_ask. intros ok e _. apply wp_ret. apply Cont. by apply grown_env.
Qed.

(** *** Closing *)

Lemma wp_free_block p w0 w B b Q : grown w0 w ({[b]} ∪ B) -> ~ (b ∈ B) -> (forall w', grown w0 w' B -> Q tt w') -> wp p (pool_free b) w Q.
Proof.
  intros G Hb H. apply (wp_free p w0 _ _ _ _ G); [apply elem_of_union; left; by apply elem_of_singleton |]. intros w'.
  replace (({[b]} ∪ B) ∖ {[b]}) with B by (clear -Hb; set_solver). apply H.
Qed.

Lemma wp_free_ccb p w0 w cb c B Q : grown w0 w (ctx_blocks (Some (cb, c)) ∪ B) -> ctx_ok (Some (cb, c)) -> ctx_blocks (Some (cb, c)) ## B ->
  (forall w', grown w0 w' B -> Q tt w') -> wp p (free_ccb cb c) w Q.
Proof.
  intros G (O1 & O2 & _ & _) D HQ. unfold free_ccb. cbn [ctx_blocks] in *.
  apply wp_bind. assert (H1 : wp p (match Entries c with Some (b, _) => pool_free b | None => ret tt end) w
    (fun _ w' => grown w0 w' (pattern_block c ∪ ({[cb]} ∪ B)))).
  { unfold entries_block in *. destruct (Entries c) as [[eb es]|].
    - apply (wp_free_block p w0 w (pattern_block c ∪ ({[cb]} ∪ B))); [| set_solver | done].
      replace ({[eb]} ∪ (pattern_block c ∪ ({[cb]} ∪ B))) with (pattern_block c ∪ ({[cb]} ∪ {[eb]}) ∪ B) by (clear; set_solver). done.
    - apply wp_ret. rewrite union_empty_r_L in G. by rewrite assoc_L by apply _. }
  eapply wp_mono; [exact H1 |]. intros [] w1 G1. apply wp_bind. eapply wp_free_old; [exact G1 | set_solver |].
  intros w2 G2. apply (wp_free_block p w0 w2 B); [done | set_solver | done].
Qed.

Lemma wp_close p w0 w s dev fo : grown w0 w (blocks fo) -> file_ok s dev fo ->
  wp p (XdvdDispatchClose s dev fo) w (fun r w' => grown w0 w' ∅ /\
    r.2 = match FsContext fo with Some _ => add_open s dev (-1) | None => s end).
Proof.
  intros G Hf. unfold XdvdDispatchClose, file_ok, blocks in *. destruct (is_control s dev) eqn:Ec.
  { apply wp_ret. destruct (FsContext fo) as [[fb f]|]; [by destruct Hf |]. rewrite Hf in G. cbn in G. rewrite union_empty_l_L in G. done. }
  destruct (FsContext fo) as [[fb f]|].
  2: { rewrite Hf in *. cbn in G. rewrite union_empty_l_L in G. apply wp_bind, wp_ret. by apply wp_ret. }
  destruct Hf as (_ & <- & _ & _ & _ & Hne & Hap & Hok). apply wp_bind.
  assert (H1 : wp p (match FsContext2 fo with Some (block, ccb) => free_ccb block ccb | None => ret tt end) w
    (fun _ w' => grown w0 w' ({[Fcb_NameBuffer f]} ∪ ({[fb]} ∪ ∅)))).
  { replace ({[Fcb_NameBuffer f]} ∪ ({[fb]} ∪ ∅)) with ({[fb; Fcb_NameBuffer f]} : gset Z) by (clear; set_solver).
    destruct (FsContext2 fo) as [[cb c]|]; [| apply wp_ret; cbn in G; by rewrite union_empty_r_L in G].
    apply (wp_free_ccb p w0 w cb c {[fb; Fcb_NameBuffer f]}); [by rewrite (comm_L (∪)) | done | by symmetry | done]. }
  eapply wp_mono; [exact H1 |]. intros [] w1 G1. apply wp_bind, (wp_free_block p w0 _ _ _ _ G1); [clear -Hne; set_solver |].
  intros w2 G2. apply wp_bind, (wp_free_block p w0 _ _ _ _ G2); [apply not_elem_of_empty |]. intros w3 G3. by apply wp_ret.
Qed.

(** *** Changes of the driver's state *)

Lemma vcb_add_open s dev delta d : vcb_of (add_open s dev delta) d =
  if decide (d = dev) then (v ← vcb_of s dev; Some (set_OpenCount v (u32 (OpenCount v + delta)))) else vcb_of s d.
Proof.
  unfold vcb_of, add_open. destruct (devices s !! dev) as [x|] eqn:Ed; cbn.
  - destruct (DeviceExtension x) as [v|] eqn:Ev; cbn [devices set_devices]; case_decide as Hd; subst;
      rewrite ?lookup_insert_eq, ?lookup_insert_ne, ?Ed by done; cbn; rewrite ?Ev; done.
  - case_decide as Hd; subst; by rewrite ?Ed.
Qed.

Lemma driver_ok_add_open s dev delta : driver_ok s -> driver_ok (add_open s dev delta).
Proof.
  intros [D1 D2 D3]. assert (En : next_device (add_open s dev delta) = next_device s /\ ControlDevice (add_open s dev delta) = ControlDevice s).
  { unfold add_open. destruct (devices s !! dev); [| done]. by destruct (DeviceExtension _). }
  destruct En as [En Ec]. split.
  - intros d x Hx. rewrite En. unfold add_open in Hx. destruct (devices s !! dev) as [y|] eqn:Ed; [| by apply (D1 d x)].
    destruct (DeviceExtension y); [| by apply (D1 d x)]. cbn [devices set_devices] in Hx.
    destruct (decide (d = dev)) as [-> | Hne]; [by apply (D1 dev y) | rewrite lookup_insert_ne in Hx by done; by apply (D1 d x)].
  - rewrite En, Ec. done.
  - intros d v. rewrite vcb_add_open. case_decide as Hd; [| apply D3]. destruct (vcb_of s dev) as [v0|] eqn:Ev; [| done].
    intros [= <-]. exact (D3 dev v0 Ev).
Qed.

Lemma file_ok_mono s s' dev fo : ControlDevice s' = ControlDevice s -> (is_Some (vcb_of s dev) -> is_Some (vcb_of s' dev)) ->
  file_ok s dev fo -> file_ok s' dev fo.
Proof.
  intros Hc Hv. unfold file_ok, is_control. rewrite Hc. destruct (FsContext fo) as [[fb f]|]; [| done].
  intros (F1 & F2 & F3 & F4). auto.
Qed.

Lemma control_add_open s dev delta : ControlDevice (add_open s dev delta) = ControlDevice s.
Proof. unfold add_open. destruct (devices s !! dev); [| done]. by destruct (DeviceExtension _). Qed.

Lemma is_Some_add_open s dev delta d : is_Some (vcb_of s d) -> is_Some (vcb_of (add_open s dev delta) d).
Proof. rewrite vcb_add_open. intros [v Hv]. case_decide as Hd; [subst; rewrite Hv; by eexists | by eexists]. Qed.

Lemma u32_add n d : u32 (u32 n + d) = u32 (n + d).
Proof. unfold u32. apply Zplus_mod_idemp_l. Qed.

(** *** Opening *)

Lemma without_nothing w : without w ∅ = w.
Proof. destruct w as [e l n b]. unfold without. cbn. by rewrite difference_empty_L. Qed.

Lemma wp_open_any s dev path Options w : driver_ok s -> heap_ok w ->
  wp true (XdvdDispatchCreate s dev (new_file path) Options) w (fun r w' =>
    let '((st, _), fo', s') := r in
    (s' = s /\ grown w w' ∅ /\ (NT_SUCCESS st = true -> FsContext fo' = None /\ FsContext2 fo' = None)) \/
    (NT_SUCCESS st = true /\ is_control s dev = false /\ exists v f, vcb_of s dev = Some v /\ opened s dev v (new_file path) fo' s' w w' f)).
Proof.
  intros [_ _ D3] Hw. destruct (is_control s dev) eqn:Ec.
  { unfold XdvdDispatchCreate. rewrite Ec. apply wp_ret. left. by split_and!; [| apply grown_refl |]. }
  destruct (vcb_of s dev) as [v|] eqn:Ev.
  2: { unfold XdvdDispatchCreate. rewrite Ec, Ev. apply wp_ret. left. by split_and!; [| apply grown_refl |]. }
  destruct (Mounted v) eqn:Em.
  2: { unfold XdvdDispatchCreate. rewrite Ec, Ev, Em. apply wp_ret. left. by split_and!; [| apply grown_refl |]. }
  destruct (BooleanFlagOn Options FILE_DELETE_ON_CLOSE) eqn:Ed.
  { unfold XdvdDispatchCreate. rewrite Ec, Ev, Em, Ed. apply wp_ret. left. by split_and!; [| apply grown_refl |]. }
  eapply wp_mono; [apply (wp_create true s dev v (new_file path) Options w); [done | done | done | done | by apply (D3 dev) | done | by left] |].
  intros [[[st info] fo'] s'] w' [P _]. destruct P as [(Hst & _ & -> & -> & G) | (-> & _ & f & Ho & _)].
  - left. split_and!; [done | done |]. congruence.
  - right. split_and!; [done | done |]. by exists v, f.
Qed.

Lemma step_opened s fs w fid dev v fo s' w' path f : xinv (XState s fs w) -> fs !! fid = None -> is_control s dev = false ->
  vcb_of s dev = Some v -> opened s dev v (new_file path) fo s' w w' f -> xinv (XState s' (<[fid := (dev, fo)]> fs) w').
Proof.
  intros [I1 I2 I3 I4] Hn Hc Hv (fb & nb & C1 & C2 & _ & _ & C3 & C4 & Hne & -> & G & R1 & R2). cbn [drv files wld] in *.
  split; cbn [drv files wld].
  - by apply driver_ok_add_open.
  - intros i d g Hi. apply (file_ok_mono s); [apply control_add_open | by apply is_Some_add_open |].
    destruct (decide (i = fid)) as [-> | Hni]; [| rewrite lookup_insert_ne in Hi by done; by apply (I2 i)].
    rewrite lookup_insert_eq in Hi. injection Hi as <- <-. unfold file_ok. rewrite C1, C2. cbn [ctx_blocks ctx_ok].
    split_and!; try done; try lia.
  - apply (heap_inv_update fs _ fid w w' {[fb; nb]} I3); [| | intros i Hi; rewrite blocks_of_insert; by rewrite decide_False by done].
    + unfold blocks_of. by rewrite Hn, without_nothing.
    + rewrite blocks_of_insert, decide_True by done. unfold blocks. rewrite C1, C2, C4. cbn [ctx_blocks]. by rewrite union_empty_r_L.
  - intros d v'. rewrite vcb_add_open, (opens_insert_new fs fid dev fo d Hn). destruct (decide (d = dev)) as [-> | Hd].
    + rewrite Hv. intros [= <-]. cbn [OpenCount set_OpenCount]. rewrite (I4 dev v Hv), u32_add.
      rewrite decide_True; [done | split; [done |]]. cbn [snd]. rewrite C1. by eexists.
    + intros Hv'. rewrite (I4 d v' Hv'). rewrite decide_False; [by rewrite Z.add_0_r |]. intros [F _]. cbn in F. congruence.
Qed.

(** A file object that has no block, and one that is discarded. *)
Lemma step_bare s fs w fid dev fo w' : xinv (XState s fs w) -> fs !! fid = None -> FsContext fo = None -> FsContext2 fo = None ->
  grown w w' ∅ -> xinv (XState s (<[fid := (dev, fo)]> fs) w').
Proof.
  intros [I1 I2 I3 I4] Hn C1 C2 G. cbn [drv files wld] in *. split; cbn [drv files wld]; [done | | |].
  - intros i d g Hi. destruct (decide (i = fid)) as [-> | Hni]; [| rewrite lookup_insert_ne in Hi by done; by apply (I2 i)].
    rewrite lookup_insert_eq in Hi. injection Hi as <- <-. unfold file_ok. by rewrite C1.
  - apply (heap_inv_update fs _ fid w w' ∅ I3); [| | intros i Hi; rewrite blocks_of_insert; by rewrite decide_False by done].
    + unfold blocks_of. by rewrite Hn, without_nothing.
    + rewrite blocks_of_insert, decide_True by done. unfold blocks. rewrite C1, C2. cbn [ctx_blocks]. by rewrite union_empty_r_L.
  - intros d v' Hv'. rewrite (opens_insert_new fs fid dev fo d Hn), (I4 d v' Hv').
    rewrite decide_False; [by rewrite Z.add_0_r |]. intros [_ [? F]]. cbn in F. congruence.
Qed.

Lemma heap_inv_same fs w w' : heap_inv fs w -> grown w w' ∅ -> heap_inv fs w'.
Proof.
  intros [H1 H2 H3 H4] [L D B F O O']. rewrite union_empty_l_L in L. split; [done | congruence | by rewrite L | done].
Qed.

Lemma step_closed s fs w fid dev fo w' : xinv (XState s fs w) -> fs !! fid = Some (dev, fo) ->
  grown (without w (blocks_of fs fid)) w' ∅ ->
  xinv (XState (match FsContext fo with Some _ => add_open s dev (-1) | None => s end) (delete fid fs) w').
Proof.
  intros [I1 I2 I3 I4] Hf G. cbn [drv files wld] in *.
  assert (Hheap : heap_inv (delete fid fs) w').
  { apply (heap_inv_update fs _ fid w w' ∅ I3 G); [rewrite blocks_of_delete; by rewrite decide_True by done
    | intros i Hi; rewrite blocks_of_delete; by rewrite decide_False by done]. }
  assert (Hfiles : forall i d g, delete fid fs !! i = Some (d, g) -> file_ok s d g).
  { intros i d g Hi. apply lookup_delete_Some in Hi as [_ Hi]. by apply (I2 i). }
  destruct (FsContext fo) as [[fb f]|] eqn:Ec; split; cbn [drv files wld]; try done.
  - by apply driver_ok_add_open.
  - intros i d g Hi. apply (file_ok_mono s); [apply control_add_open | by apply is_Some_add_open | by apply (Hfiles i)].
  - intros d v. rewrite vcb_add_open. pose proof (opens_delete fs fid dev fo d Hf) as Ho. destruct (decide (d = dev)) as [-> | Hd].
    + destruct (vcb_of s dev) as [v0|] eqn:Ev; [| done]. intros [= <-]. cbn [OpenCount set_OpenCount]. rewrite (I4 dev v0 Ev), u32_add.
      rewrite Ho, decide_True by (split; [done | cbn; rewrite Ec; by eexists]). f_equal. lia.
    + intros Hv. rewrite (I4 d v Hv), Ho, decide_False; [by rewrite Z.add_0_r |]. intros [F _]. cbn in F. congruence.
  - intros d v Hv. rewrite (I4 d v Hv), (opens_delete fs fid dev fo d Hf), decide_False; [by rewrite Z.add_0_r |].
    intros [_ [? F]]. cbn in F. congruence.
Qed.

(** *** Mounting *)

Lemma vcb_link_volume s target vpb t pb flags al vd d : vcb_of (link_volume s target vpb t pb flags al vd) d =
  if decide (d = next_device s) then Some (Vcb target vpb (RootTableSector vd) (RootTableSize vd) 0 true) else vcb_of s d.
Proof.
  unfold vcb_of, link_volume. cbn [devices]. case_decide as Hd; [subst; by rewrite lookup_insert_eq | by rewrite lookup_insert_ne by done].
Qed.

Lemma opens_none fs dev : (forall fid d fo, fs !! fid = Some (d, fo) -> is_Some (FsContext fo) -> d <> dev) -> opens fs dev = 0.
Proof.
  intros H. unfold opens. replace (filter (open_on dev) fs) with (∅ : gmap Z (Z * FILE_OBJECT)); [done |]. symmetry.
  apply map_eq. intros fid. rewrite lookup_empty. apply map_lookup_filter_None. right. intros [d fo] Hf [E1 E2]. cbn in *. by apply (H fid d fo).
Qed.

Lemma step_mounted s fs w target vpb t pb flags al w' : xinv (XState s fs w) -> grown w w' ∅ ->
  xinv (XState (link_volume s target vpb t pb flags al (descriptor target)) fs w').
Proof.
  intros [I1 I2 I3 I4] G. cbn [drv files wld] in *. pose proof I1 as [D1 D2 D3].
  assert (Hold : forall fid d fo, fs !! fid = Some (d, fo) -> is_Some (FsContext fo) -> d <> next_device s).
  { intros fid d fo Hf [[fb f] Hc] ->. specialize (I2 fid _ fo Hf). unfold file_ok in I2. rewrite Hc in I2.
    destruct I2 as (_ & _ & [v Hv] & _). unfold vcb_of in Hv. destruct (devices s !! next_device s) as [x|] eqn:Ex; [| done].
    specialize (D1 _ x Ex). lia. }
  split; cbn [drv files wld]; [split | | by apply (heap_inv_same fs w) |].
  - intros d x Hx. cbn [next_device link_volume devices] in *. destruct (decide (d = next_device s)) as [-> | Hne]; [lia |].
    rewrite lookup_insert_ne in Hx by done. specialize (D1 d x Hx). lia.
  - intros d Hd. cbn [next_device link_volume ControlDevice] in *. specialize (D2 d Hd). lia.
  - intros d v. rewrite vcb_link_volume. case_decide; [| apply D3]. intros [= <-]. split; apply load32_range, bytes_drop, descriptor_ok.
  - intros fid d fo Hf. apply (file_ok_mono s); [done | | by apply (I2 fid)]. intros Hv. rewrite vcb_link_volume.
    case_decide; [by eexists | done].
  - intros d v. rewrite vcb_link_volume. case_decide as Hd; [| apply I4]. intros [= <-]. subst d. cbn [OpenCount].
    rewrite opens_none by done. done.
Qed.

(** ** Histories *)

Lemma xstep_inv x y : xinv x -> xstep x y -> xinv y.
Proof.
  intros Hi Hs. pose proof Hi as [I1 I2 I3 I4]. destruct Hs as [s fs w target vpb st s' w' He | s fs w fid dev path Options st info fo s' w' Hn He
    | s fs w fid dev fo ByteOffset userLen Mdl c fo' Mdl' w' Hf Hl Hm Hb He | s fs w fid dev fo cls buf c fo' w' Hf He
    | s fs w fid dev fo minor cls flags pt ub mdl c fo' buf w' Hf He | s fs w fid dev fo c fo' s' w' Hf He]; cbn [drv files wld] in *.
  - destruct (devices s !! target) as [t|] eqn:Et; [| unfold XdvdMountVolume in He; by rewrite Et in He].
    destruct (vpbs s !! vpb) as [pb|] eqn:Ep; [| unfold XdvdMountVolume in He; by rewrite Et, Ep in He].
    pose proof (wp_mount true s target vpb t pb w Et Ep (hi_ok _ _ I3)) as W. unfold wp in W. rewrite He in W. cbn [fst snd] in W.
    destruct W as [G [(_ & _ & _ & flags & al & ->) | (_ & -> & _)]]; [by apply (step_mounted s fs w) |].
    split; cbn [drv files wld]; [done | done | by apply (heap_inv_same fs w) | done].
  - pose proof (wp_open_any s dev path Options w I1 (hi_ok _ _ I3)) as W. unfold wp in W. rewrite He in W.
    destruct W as [(-> & G & Hb) | (Hst & Hc & v & f & Hv & Ho)].
    + destruct (NT_SUCCESS st); [destruct (Hb eq_refl); by apply (step_bare s fs w) |].
      split; cbn [drv files wld]; [done | done | by apply (heap_inv_same fs w) | done].
    + rewrite Hst. by apply (step_opened s fs w fid dev v fo s' w' path f).
  - pose proof (I2 fid dev fo Hf) as Fok. pose proof (blocks_live fs w fid I3) as Hlv. unfold blocks_of in Hlv. rewrite Hf, blocks_split in Hlv.
    pose proof (wp_read_any s fo ByteOffset userLen Mdl w (hi_ok _ _ I3) Hl Hm Hb) as W. unfold wp in W. rewrite He in W. cbn [fst snd] in W.
    destruct W as (G & E1 & E2).
    { intros fb f Ef. unfold file_ok in Fok. rewrite Ef in Fok. destruct Fok as (_ & -> & Hv & R1 & R2 & _). done. }
    apply (step_file s fs w fid dev fo fo' w' Hi Hf E1); rewrite E2; [| by apply (file_ok_apart s dev fo Fok) |].
    + intros Hn. unfold file_ok in Fok. by rewrite Hn in Fok.
    + apply keep_frame; [apply I3 | set_solver | done].
  - pose proof (I2 fid dev fo Hf) as Fok. pose proof (blocks_live fs w fid I3) as Hlv. unfold blocks_of in Hlv. rewrite Hf, blocks_split in Hlv.
    assert (Hsame : FsContext fo' = FsContext fo /\ FsContext2 fo' = FsContext2 fo /\ w' = w).
    { unfold XdvdDispatchSetInformation, ret in He. repeat case_match; simplify_eq; done. }
    destruct Hsame as (E1 & E2 & ->). apply (step_file s fs w fid dev fo fo' w Hi Hf E1); rewrite E2; [| by apply (file_ok_apart s dev fo Fok) |].
    + intros Hn. unfold file_ok in Fok. by rewrite Hn in Fok.
    + apply keep_frame; [apply I3 | set_solver | apply grown_refl, I3].
  - pose proof (I2 fid dev fo Hf) as Fok. pose proof (blocks_live fs w fid I3) as Hlv. unfold blocks_of in Hlv. rewrite Hf, blocks_split in Hlv.
    pose proof (wp_directory_any s dev fo minor cls flags pt ub mdl w (hi_ok _ _ I3) Fok) as W. unfold wp in W. rewrite He in W. cbn [fst snd] in W.
    destruct W as (E1 & E2 & O & G); [set_solver |]. apply (step_file s fs w fid dev fo fo' w' Hi Hf E1); [| done | done].
    intros Hn. rewrite (E2 Hn). unfold file_ok in Fok. by rewrite Hn in Fok.
  - pose proof (I2 fid dev fo Hf) as Fok. pose proof (blocks_live fs w fid I3) as Hlv.
    pose proof (grown_without w _ (hi_ok _ _ I3) Hlv) as G. unfold blocks_of at 2 in G. rewrite Hf in G.
    pose proof (wp_close true _ w s dev fo G Fok) as W. unfold wp in W. rewrite He in W. cbn [fst snd] in W. destruct W as [G' ->].
    by apply (step_closed s fs w fid dev fo w').
Qed.

(** The driver before any request: no file open, no block held. *)
Definition starting (x : xstate E) : Prop :=
  driver_ok (drv x) /\ files x = ∅ /\ live (wld x) = ∅ /\ bad_free (wld x) = false /\
  forall dev v, vcb_of (drv x) dev = Some v -> OpenCount v = 0.

Lemma starting_inv x : starting x -> xinv x.
Proof.
  intros (D & F & L & B & C). split; rewrite ?F; [done | by intros fid dev fo ?%lookup_empty_Some | |].
  - split; [intros b Hb | done | intros b | intros i j _; unfold blocks_of; rewrite !lookup_empty; apply disjoint_empty_l].
    + rewrite L in Hb. by apply not_elem_of_empty in Hb.
    + rewrite L. split; [by intros ?%not_elem_of_empty | intros [fid Hb]]. unfold blocks_of in Hb. by rewrite lookup_empty in Hb.
  - intros dev v Hv. rewrite (C dev v Hv), opens_none; [done | by intros fid d fo ?%lookup_empty_Some].
Qed.

Lemma rtc_inv x y : xinv x -> rtc xstep x y -> xinv y.
Proof. intros Hx Hr. induction Hr as [x | x y z Hxy _ IH]; [done |]. apply IH. by apply (xstep_inv x). Qed.

(** C13: After any history of mounts, opens, reads, queries and closes, on any
    disc and any machine, the driver has freed no block it did not hold, each
    pool block it holds belongs to exactly one open file, so that none is
    left when no file is open, and the open count of every volume is the
    number of files open on it. *)
Theorem driver_history x y : starting x -> rtc xstep x y ->
  bad_free (wld y) = false /\
  (forall b, b ∈ live (wld y) -> exists fid, b ∈ blocks_of (files y) fid /\ forall fid', b ∈ blocks_of (files y) fid' -> fid' = fid) /\
  (forall fid, blocks_of (files y) fid ⊆ live (wld y)) /\
  (files y = ∅ -> live (wld y) = ∅) /\
  (forall dev v, vcb_of (drv y) dev = Some v -> OpenCount v = u32 (opens (files y) dev)).
Proof.
  intros Hs Hr. destruct (rtc_inv x y (starting_inv x Hs) Hr) as [_ _ Hh Hc]. pose proof Hh as [H1 H2 H3 H4].
  split_and!; [done | | by intros fid; apply blocks_live | | exact Hc].
  - intros b Hb. apply H3 in Hb as [fid Hb]. exists fid. split; [done |]. intros fid' Hb'. destruct (decide (fid' = fid)) as [| Hne]; [done |].
    exfalso. by apply (H4 fid' fid Hne b).
  - intros He. apply set_eq. intros b. split; [| by intros ?%not_elem_of_empty]. intros [fid Hb]%H3. unfold blocks_of in Hb. by rewrite He, lookup_empty in Hb.
Qed.

End history.

Definition sample_start : xstate unit := XState Sample.state ∅ (Sample.start tt).

Lemma sample_devices dev d : devices Sample.state !! dev = Some d -> dev < 10 /\ DeviceExtension d = None.
Proof.
  unfold Sample.state. cbn [devices]. rewrite lookup_insert_Some, lookup_singleton_Some.
  intros [[<- <-] | [_ [<- <-]]]; (split; [lia | done]).
Qed.

Lemma sample_starting : starting sample_start.
Proof.
  assert (Hv : forall dev v, vcb_of Sample.state dev = Some v -> False).
  { intros dev v. unfold vcb_of. destruct (devices Sample.state !! dev) as [d|] eqn:Ed; [| done]. cbn. intros Ev.
    apply sample_devices in Ed as [_ Ed]. congruence. }
  split_and!; [split | done | done | done |].
  - intros dev d Hd. by apply sample_devices in Hd as [? _].
  - intros dev [= <-]. done.
  - intros dev v F. by destruct (Hv dev v).
  - intros dev v F. by destruct (Hv dev v).
Qed.

(** Mount the disc, open a file, open the root, list it, close the file. *)
Lemma driver_history_witness : exists y, rtc xstep sample_start y /\ size (files y) = 1%nat /\
  bad_free (wld y) = false /\
  (forall b, b ∈ live (wld y) -> exists fid, b ∈ blocks_of (files y) fid /\ forall fid', b ∈ blocks_of (files y) fid' -> fid' = fid) /\
  (forall fid, blocks_of (files y) fid ⊆ live (wld y)) /\
  (files y = ∅ -> live (wld y) = ∅) /\
  (forall dev v, vcb_of (drv y) dev = Some v -> OpenCount v = u32 (opens (files y) dev)).
Proof.
  assert (Hr : exists y, rtc xstep sample_start y /\ size (files y) = 1%nat).
  2: { destruct Hr as (y & Hr & Hs). exists y. exact (conj Hr (conj Hs (driver_history sample_start y sample_starting Hr))). }
  eexists. split.
  { eapply rtc_l; [eapply (step_mount Sample.state ∅ (Sample.start tt) 7 3); vm_compute; reflexivity |].
    eapply rtc_l; [eapply (step_open _ _ _ 1 10 Sample.path_a 0); [done | vm_compute; reflexivity] |].
    eapply rtc_l; [eapply (step_open _ _ _ 2 10 [] 0); [done | vm_compute; reflexivity] |].
    eapply rtc_l; [eapply (step_directory _ _ _ 2 10 _ 1 FileNamesInformation 0 (Some [STAR]) (Some (replicate 640 0)) None);
      [vm_compute; reflexivity | vm_compute; reflexivity] |].
    eapply rtc_l; [eapply (step_close _ _ _ 1 10); [vm_compute; reflexivity | vm_compute; reflexivity] |].
    apply rtc_refl. }
  vm_compute. reflexivity.
Defined.
