(* ===== verification/TitleMem.v ===== *)
(** * Bytes of the title's memory

    What an access to a title address does: the processor walks the page
    tables of [Paging.v] and [Vm.v] to a frame and reads or writes a byte of
    it, or faults where no page is mapped.  The loader of
    [ntoskrnl/xb/xbe.c], whose data structures lie in the title's memory,
    works through these accesses.  The lemmas describe the memory by what a
    read returns, before and after a store, a commit and a decommit. *)

From stdpp Require Import prelude gmap list numbers sets.
From Stdlib Require Import ZArith Lia.
From S2P Require Import Prelude PageSupply Paging Vm VmStock VmRegions VmSpec Bytes.

Local Open Scope Z_scope.
Local Opaque free_set NxpUnlink cset.

(** ** Accesses *)

(** Byte [i] of a word, and the word with that byte replaced. *)
Definition byte_of (w i : Z) : Z := Z.land (Z.shiftr w (8 * i)) 255.
Definition with_byte (w i b : Z) : Z := Z.lor (Z.ldiff w (Z.shiftl 255 (8 * i))) (Z.shiftl b (8 * i)).

Definition mapped (m : mm) (a : Z) : bool := pde_present m a && present (pte m (NXV_PTE a)).

(** The kernel runs with write protection on for itself too. *)
Definition writable (m : mm) (a : Z) : bool := mapped m a && BooleanFlagOn (pte m (NXV_PTE a)) NXV_PTE_RW.

Definition frame_of (m : mm) (a : Z) : Z := Z.shiftr (pte m (NXV_PTE a)) PAGE_SHIFT.
Definition word_index (a : Z) : nat := Z.to_nat (Z.land a 4095 / 4).

Definition ld8 (m : mm) (a : Z) : option Z :=
  if mapped m a then Some (byte_of (nth (word_index a) (frame_at m (frame_of m a)) 0) (Z.land a 3)) else None.

Definition st8 (m : mm) (a b : Z) : option mm :=
  if writable m a then
    let f : list Z := frame_at m (frame_of m a) in
    Some (set_frame (frame_of m a) (<[word_index a := with_byte (nth (word_index a) f 0) (Z.land a 3) b]> f) m)
  else None.

Fixpoint ld_bytes (n : nat) (m : mm) (a : Z) : option (list Z) :=
  match n with
  | O => Some []
  | S n' =>
      match ld8 m a with
      | None => None
      | Some b => match ld_bytes n' m (add32 a 1) with None => None | Some l => Some (b :: l) end
      end
  end.

Fixpoint st_bytes (l : list Z) (m : mm) (a : Z) : option mm :=
  match l with
  | [] => Some m
  | b :: l' => match st8 m a b with None => None | Some m' => st_bytes l' m' (add32 a 1) end
  end.

Definition ld16 (m : mm) (a : Z) : option Z := option_map load16 (ld_bytes 2 m a).
Definition ld32 (m : mm) (a : Z) : option Z := option_map load32 (ld_bytes 4 m a).
Definition store16 (w : Z) : list Z := [u8 w; u8 (Z.shiftr w 8)].

(** ** Bytes of a word *)

Lemma byte_of_range w i : is_u8 (byte_of w i).
Proof.
  unfold byte_of, is_u8. change 255 with (Z.ones 8). rewrite Z.land_ones by lia. apply Z.mod_pos_bound. lia.
Qed.

Lemma byte_of_bit w i n : 0 <= i -> 0 <= n -> Z.testbit (byte_of w i) n = (n <? 8) && Z.testbit w (n + 8 * i).
Proof.
  intros Hi Hn. unfold byte_of. change 255 with (Z.ones 8). rewrite Z.land_spec, Z.shiftr_spec by lia.
  rewrite (Z.testbit_ones 8 n) by lia. rewrite (proj2 (Z.leb_le 0 n)) by lia. cbn [andb]. apply andb_comm.
Qed.

Lemma u8_bit b n : is_u8 b -> 8 <= n -> Z.testbit b n = false.
Proof.
  intros Hb Hn. destruct (Z.eq_dec b 0) as [-> | H0]; [apply Z.testbit_0_l |]. apply Z.bits_above_log2; unfold is_u8 in Hb; [lia |].
  apply Z.lt_le_trans with 8; [| done]. apply Z.log2_lt_pow2; lia.
Qed.

Lemma byte_with_byte w i j b : 0 <= i -> 0 <= j -> is_u8 b -> byte_of (with_byte w i b) j = if decide (i = j) then b else byte_of w j.
Proof.
  intros Hi Hj Hb. apply Z.bits_inj'. intros n Hn. rewrite byte_of_bit by done. unfold with_byte.
  rewrite Z.lor_spec, Z.ldiff_spec, !Z.shiftl_spec by lia. change 255 with (Z.ones 8). rewrite (Z.testbit_ones 8) by lia.
  case_decide as E.
  - subst j. replace (n + 8 * i - 8 * i) with n by lia. destruct (Z.ltb_spec n 8) as [Hn8 | Hn8]; cbn [andb].
    + rewrite (proj2 (Z.leb_le 0 n)) by lia. cbn [andb negb]. by rewrite andb_false_r.
    + symmetry. by apply u8_bit.
  - rewrite byte_of_bit by done. destruct (Z.ltb_spec n 8) as [Hn8 | Hn8]; cbn [andb]; [| done].
    destruct (Z.leb_spec 0 (n + 8 * j - 8 * i)) as [Hp | Hp]; cbn [andb].
    + rewrite (proj2 (Z.ltb_ge _ 8)) by lia. cbn [negb]. rewrite andb_true_r, (u8_bit b) by (done || lia). apply orb_false_r.
    + rewrite (Z.testbit_neg_r b) by lia. by rewrite andb_true_r, orb_false_r.
Qed.

Lemma store16_load w l : 0 <= w < 2 ^ 16 -> load16 (store16 w ++ l) = w.
Proof.
  intros Hw. unfold load16, store16, u8. cbn [app nth]. rewrite shiftr_div by lia.
  rewrite (Z.mod_small (w / 2 ^ 8)) by (split; [apply Z.div_pos; lia | apply Z.div_lt_upper_bound; lia]).
  pose proof (Z.div_mod w (2 ^ 8) ltac:(lia)). lia.
Qed.

Lemma store16_bytes w : bytes (store16 w).
Proof. repeat constructor; apply u8_is. Qed.

(** ** Addresses *)

Definition title_addr (a : Z) : Prop := NXV_LOWEST <= a < NXV_HIGHEST.

Lemma title_addr_page a : title_addr a -> title (a / 4096).
Proof.
  unfold title_addr, title, NXV_LOWEST, NXV_HIGHEST. intros [H1 H2].
  split; [apply Z.div_le_lower_bound; lia | apply Z.div_lt_upper_bound; lia].
Qed.

Lemma addr_pte a : NXV_PTE a = a / 4096.
Proof. unfold NXV_PTE. by rewrite Z.shiftr_div_pow2 by lia. Qed.

Lemma addr_pde a : NXV_PDE a = pdx (a / 4096).
Proof. unfold NXV_PDE, pdx. rewrite Z.shiftr_div_pow2, Z.div_div by lia. done. Qed.

Lemma low_bits a : Z.land a 4095 = a mod 4096.
Proof. change 4095 with (Z.ones 12). by rewrite Z.land_ones by lia. Qed.

Lemma lane_bits a : Z.land a 3 = a mod 4.
Proof. change 3 with (Z.ones 2). by rewrite Z.land_ones by lia. Qed.

(** An address is its page, its word and its byte. *)
Lemma addr_parts a x : 0 <= a -> 0 <= x -> a / 4096 = x / 4096 -> word_index a = word_index x -> Z.land a 3 = Z.land x 3 -> a = x.
Proof.
  intros Ha Hx Hp. unfold word_index. rewrite !low_bits, !lane_bits. intros Hw%Z2Nat.inj Hl; [| apply Z.div_pos; [apply Z.mod_pos_bound |]; lia..].
  assert (E : forall y, y mod 4 = (y mod 4096) mod 4).
  { intros y. replace 4096 with (4 * 1024) by lia. rewrite Z.rem_mul_r by lia. rewrite Z.mul_comm, Z.mod_add by lia. by rewrite Z.mod_mod by lia. }
  rewrite (E a), (E x) in Hl. pose proof (Z.div_mod (a mod 4096) 4 ltac:(lia)). pose proof (Z.div_mod (x mod 4096) 4 ltac:(lia)).
  pose proof (Z.div_mod a 4096 ltac:(lia)). pose proof (Z.div_mod x 4096 ltac:(lia)). lia.
Qed.

Lemma word_index_bound a : (word_index a < 1024)%nat.
Proof.
  unfold word_index. rewrite low_bits. pose proof (Z.mod_pos_bound a 4096 ltac:(lia)).
  assert (a mod 4096 / 4 < 1024) by (apply Z.div_lt_upper_bound; lia). assert (0 <= a mod 4096 / 4) by (apply Z.div_pos; lia). lia.
Qed.

(** ** The memory behind the accesses *)

(** Committed pages hold 1024 words each. *)
Definition pages_ok (m : mm) : Prop := forall k, k ∈ cset m -> length (frame_at m (pte m k / 2 ^ 12)) = 1024%nat.

Lemma ld8_title m F a : title_ok m F -> title_addr a ->
  ld8 m a = if present (pte m (a / 4096))
            then Some (byte_of (nth (word_index a) (frame_at m (pte m (a / 4096) / 2 ^ 12)) 0) (Z.land a 3)) else None.
Proof.
  intros T Ha%title_addr_page. unfold ld8, mapped, pde_present, frame_of. rewrite addr_pte, addr_pde. rewrite shiftr_div by (unfold PAGE_SHIFT; lia).
  change PAGE_SHIFT with 12. fold (present (pte m (pdx (a / 4096)))). destruct (present (pte m (a / 4096))) eqn:P; [| by rewrite andb_false_r].
  destruct (to_page _ _ T _ Ha) as (-> & _); [| done]. intros E. rewrite E in P. discriminate P.
Qed.

Lemma present_committed m a : title_addr a -> present (pte m (a / 4096)) = true -> a / 4096 ∈ cset m.
Proof. intros Ha P. apply elem_of_cset. split; [by apply title_addr_page |]. intros E. rewrite E in P. discriminate P. Qed.

(** Only contents differ. *)
Definition same_tables (m m' : mm) : Prop := sup m' = sup m /\ ptes m' = ptes m.

Lemma same_pte m m' k : same_tables m m' -> pte m' k = pte m k.
Proof. intros [_ E]. unfold pte. by rewrite E. Qed.

Lemma same_tables_trans m1 m2 m3 : same_tables m1 m2 -> same_tables m2 m3 -> same_tables m1 m3.
Proof. intros [A B] [C D]. split; congruence. Qed.

#[export] Instance same_tables_preorder : PreOrder same_tables.
Proof. split; [done |]. intros m1 m2 m3. apply same_tables_trans. Qed.

Lemma same_stocked m m' LO HI : same_tables m m' -> stocked m LO HI -> stocked m' LO HI.
Proof. intros S. pose proof S as [E _]. apply stocked_keep; [by rewrite E | |]; intros k _; by rewrite (same_pte m m' _ S). Qed.

Lemma same_cset m m' : same_tables m m' -> cset m' = cset m.
Proof. intros S. apply set_eq. intros k. rewrite !elem_of_cset. by rewrite (same_pte m m' k S). Qed.

Lemma same_owned m m' k p : same_tables m m' -> owned m' k p <-> owned m k p.
Proof. intros [E _]. unfold owned. by rewrite E. Qed.

Lemma same_title m m' F : same_tables m m' -> title_ok m F -> title_ok m' F.
Proof.
  intros S T. pose proof S as [E _]. constructor.
  - constructor; [rewrite E; apply T |]. intros k p Ho%(same_owned m m' k p S). rewrite (same_pte m m' k S). by apply T.
  - intros k Hk. rewrite !(same_pte m m' _ S). rewrite (same_owned m m' _ _ S). by apply T.
  - intros k Hk. rewrite (same_pte m m' _ S). by apply T.
  - intros k Hk. rewrite !(same_pte m m' _ S). by apply T.
  - intros b p Hb. rewrite (same_owned m m' _ _ S), (same_pte m m' _ S). by apply T.
Qed.

Lemma same_vm_wf v m' : same_tables (mem v) m' -> vm_wf v -> vm_wf (with_mem m' v).
Proof.
  intros S [T C R Rs Cv]. constructor; try done; cbn [mem with_mem NxvRegionList].
  - by apply (same_title (mem v)).
  - unfold counted. cbn [mem with_mem NxvCommitted]. by rewrite (same_cset (mem v) m' S).
  - by rewrite (same_cset (mem v) m' S).
Qed.

(** [m'] is [m] with [l] stored at [a]. *)
Record stored (m m' : mm) (a : Z) (l : list Z) : Prop := {
  sd_tables : same_tables m m';
  sd_view : forall x, title_addr x -> ld8 m' x = if decide (a <= x < a + Z.of_nat (length l)) then Some (nth (Z.to_nat (x - a)) l 0) else ld8 m x;
  sd_pages : pages_ok m'
}.

Lemma stored_nil m a : pages_ok m -> stored m m a [].
Proof. intros P. constructor; [done | | done]. intros x Hx. rewrite decide_False by (cbn [length]; lia). done. Qed.

(** A page the kernel may read and write. *)
Definition rw_page (m : mm) (k : Z) : Prop := present (pte m k) = true /\ BooleanFlagOn (pte m k) NXV_PTE_RW = true.

Definition rw_range (m : mm) (a n : Z) : Prop := forall x, a <= x < a + n -> rw_page m (x / 4096).

Lemma rw_bits m k : pte m k mod 4096 = 3 -> rw_page m k.
Proof.
  intros E. assert (H : forall j, 0 <= j < 2 -> BooleanFlagOn (pte m k) (2 ^ j) = true).
  { intros j Hj. unfold BooleanFlagOn. rewrite land_pow2_testbit by lia. rewrite <- (Z.mod_pow2_bits_low (pte m k) 12 j) by lia.
    change (2 ^ 12) with 4096. rewrite E. assert (j = 0 \/ j = 1) as [-> | ->] by lia; done. }
  split; [apply (H 0); lia | apply (H 1); lia].
Qed.

Lemma same_rw m m' k : same_tables m m' -> rw_page m k -> rw_page m' k.
Proof. intros S. unfold rw_page. by rewrite (same_pte m m' k S). Qed.

Lemma frame_set m p f q : frame_at (set_frame p f m) q = if decide (q = p) then f else frame_at m q.
Proof.
  unfold frame_at, set_frame. cbn [frames]. case_decide as E; [subst; by rewrite lookup_insert_eq | by rewrite lookup_insert_ne].
Qed.

Lemma nth_insert_eq (l : list Z) i x : (i < length l)%nat -> nth i (<[i := x]> l) 0 = x.
Proof. intros H. by rewrite nth_lookup, list_lookup_insert_eq. Qed.

Lemma nth_insert_ne (l : list Z) i j x : i <> j -> nth j (<[i := x]> l) 0 = nth j l 0.
Proof. intros H. by rewrite !nth_lookup, list_lookup_insert_ne. Qed.

Lemma st8_spec m a b : title_ok m ∅ -> pages_ok m -> title_addr a -> rw_page m (a / 4096) -> is_u8 b ->
  exists m', st8 m a b = Some m' /\ stored m m' a [b].
Proof.
  intros T P Ha [Pr Rw] Hb. pose proof (present_committed m a Ha Pr) as Hc. pose proof (P _ Hc) as Hl.
  apply elem_of_cset in Hc as [Ht Hn]. destruct (to_page _ _ T _ Ht Hn) as (Pd & _).
  assert (W : writable m a = true).
  { unfold writable, mapped, pde_present. rewrite addr_pte, addr_pde. fold (present (pte m (pdx (a / 4096)))). by rewrite Pd, Pr, Rw. }
  unfold st8. rewrite W. eexists. split; [done |]. unfold frame_of. rewrite addr_pte. rewrite shiftr_div by (unfold PAGE_SHIFT; lia). change PAGE_SHIFT with 12.
  set (p := pte m (a / 4096) / 2 ^ 12) in *. match goal with |- stored _ (set_frame _ ?g _) _ _ => set (f' := g) end. set (m' := set_frame p f' m).
  assert (S : same_tables m m') by done. assert (Lf : length f' = 1024%nat) by (unfold f'; by rewrite length_insert).
  constructor; [done | |].
  - intros x Hx. cbn [length]. rewrite (ld8_title m' ∅ x) by (by apply (same_title m) || done). rewrite (same_pte m m' _ S).
    destruct (decide (a <= x < a + Z.of_nat 1)) as [E | E].
    + replace x with a by lia. rewrite Pr, Z.sub_diag. cbn [Z.to_nat nth]. f_equal. fold p. unfold m'. rewrite frame_set, decide_True by done. unfold f'.
      rewrite nth_insert_eq by (rewrite Hl; apply word_index_bound).
      rewrite byte_with_byte by (rewrite ?lane_bits; done || apply Z.mod_pos_bound; lia). by rewrite decide_True.
    + rewrite (ld8_title m ∅ x) by done. destruct (present (pte m (x / 4096))) eqn:Px; [| done]. f_equal. unfold m'. rewrite frame_set.
      case_decide as Ep; [| done]. assert (Ek : x / 4096 = a / 4096).
      { pose proof (present_committed m x Hx Px) as [_ Hnx]%elem_of_cset. apply (title_frame_inj m ∅); try done. by apply title_addr_page. }
      rewrite Ek. fold p. unfold f'. destruct (decide (word_index a = word_index x)) as [Ew | Ew].
      * rewrite <- Ew, nth_insert_eq by (rewrite Hl; apply word_index_bound).
        rewrite byte_with_byte by (rewrite ?lane_bits; done || apply Z.mod_pos_bound; lia). rewrite decide_False; [done |]. intros El.
        apply E. assert (x = a); [| lia]. unfold title_addr, NXV_LOWEST in *. symmetry. apply addr_parts; auto; lia.
      * by rewrite nth_insert_ne.
  - intros k. rewrite (same_cset m m' S), (same_pte m m' k S). intros Hk. unfold m'. rewrite frame_set. case_decide; [done | by apply P].
Qed.

Lemma stored_step m m1 m2 a b l : title_addr a -> stored m m1 a [b] -> stored m1 m2 (a + 1) l -> stored m m2 a (b :: l).
Proof.
  intros Ha S1 S2. constructor; [eapply same_tables_trans; [apply S1 | apply S2] | | apply S2].
  intros x Hx. rewrite (sd_view _ _ _ _ S2 x Hx), (sd_view _ _ _ _ S1 x Hx). cbn [length].
  destruct (decide (a + 1 <= x < a + 1 + Z.of_nat (length l))) as [E | E].
  - rewrite decide_True by lia. f_equal. replace (Z.to_nat (x - a)) with (S (Z.to_nat (x - (a + 1)))) by lia. done.
  - destruct (decide (a <= x < a + Z.of_nat 1)) as [E1 | E1]; [| by rewrite decide_False by lia].
    replace x with a by lia. rewrite Z.sub_diag, decide_True by lia. done.
Qed.

Lemma st_bytes_spec l : forall m a, title_ok m ∅ -> pages_ok m -> NXV_LOWEST <= a -> a + Z.of_nat (length l) <= NXV_HIGHEST ->
  rw_range m a (Z.of_nat (length l)) -> bytes l -> exists m', st_bytes l m a = Some m' /\ stored m m' a l.
Proof.
  induction l as [| b l IH]; intros m a T P H1 H2 Rw Hb; cbn [st_bytes]; [exists m; split; [done | by apply stored_nil] |].
  apply bytes_cons in Hb as [Hb Hl]. cbn [length] in H2, Rw. assert (Ha : title_addr a) by (unfold title_addr; lia).
  destruct (st8_spec m a b T P Ha) as (m1 & -> & S1); [apply Rw; lia | done |]. pose proof (sd_tables _ _ _ _ S1) as E1.
  unfold NXV_LOWEST, NXV_HIGHEST in *. rewrite add32_id by lia.
  destruct (IH m1 (a + 1)) as (m2 & -> & S2); [by apply (same_title m) | apply S1 | lia | lia | | done |].
  - intros x Hx. apply (same_rw m); [done |]. apply Rw. lia.
  - exists m2. split; [done |]. by apply (stored_step m m1 m2).
Qed.

(** ** Reads *)

Lemma ld_bytes_ext n : forall m m' a, NXV_LOWEST <= a -> a + Z.of_nat n <= NXV_HIGHEST ->
  (forall x, a <= x < a + Z.of_nat n -> ld8 m' x = ld8 m x) -> ld_bytes n m' a = ld_bytes n m a.
Proof.
  induction n as [| n IH]; intros m m' a H1 H2 E; cbn [ld_bytes]; [done |]. unfold NXV_LOWEST, NXV_HIGHEST in *.
  rewrite (E a) by lia. destruct (ld8 m a); [| done]. rewrite add32_id by lia. rewrite (IH m m' (a + 1)) by (lia || (intros x Hx; apply E; lia)). done.
Qed.

Lemma ld_bytes_iff n : forall m a l, NXV_LOWEST <= a -> a + Z.of_nat n <= NXV_HIGHEST ->
  ld_bytes n m a = Some l <-> length l = n /\ forall x, a <= x < a + Z.of_nat n -> ld8 m x = Some (nth (Z.to_nat (x - a)) l 0).
Proof.
  unfold NXV_LOWEST, NXV_HIGHEST. induction n as [| n IH]; intros m a l H1 H2; cbn [ld_bytes].
  - split; [intros [= <-]; split; [done | lia] | intros [E _]; by destruct l].
  - rewrite add32_id by lia. split.
    + destruct (ld8 m a) as [b |] eqn:E; [| done]. destruct (ld_bytes n m (a + 1)) as [l' |] eqn:El; [| done]. intros [= <-].
      apply IH in El as [Hl Hx]; [| lia | lia]. cbn [length]. split; [lia |]. intros x Hr.
      destruct (Z.eq_dec x a) as [-> | Hn]; [by rewrite Z.sub_diag |]. rewrite Hx by lia.
      replace (Z.to_nat (x - a)) with (S (Z.to_nat (x - (a + 1)))) by lia. done.
    + intros [Hl Hx]. destruct l as [| b l]; [done |]. cbn [length] in Hl. rewrite (Hx a) by lia. rewrite Z.sub_diag. cbn [Z.to_nat nth].
      rewrite (proj2 (IH m (a + 1) l ltac:(lia) ltac:(lia))); [done |]. split; [lia |]. intros x Hr. rewrite Hx by lia.
      replace (Z.to_nat (x - a)) with (S (Z.to_nat (x - (a + 1)))) by lia. done.
Qed.

Lemma ld8_u8 m F a b : title_ok m F -> title_addr a -> ld8 m a = Some b -> is_u8 b.
Proof. intros T Ha. rewrite (ld8_title m F a T Ha). destruct (present _); [| done]. intros [= <-]. apply byte_of_range. Qed.

Lemma rw_ld8 m F a : title_ok m F -> title_addr a -> rw_page m (a / 4096) -> exists b, ld8 m a = Some b.
Proof. intros T Ha [P _]. rewrite (ld8_title m F a T Ha), P. eauto. Qed.

(** What was stored reads back. *)
Lemma stored_reads m m' a l : stored m m' a l -> NXV_LOWEST <= a -> a + Z.of_nat (length l) <= NXV_HIGHEST -> ld_bytes (length l) m' a = Some l.
Proof.
  intros S H1 H2. apply ld_bytes_iff; [done | done |]. split; [done |]. intros x Hx. rewrite (sd_view _ _ _ _ S x) by (unfold title_addr; lia).
  by rewrite decide_True.
Qed.

(** What lies apart from it is as before. *)
Lemma stored_apart m m' a l n b : stored m m' a l -> NXV_LOWEST <= b -> b + Z.of_nat n <= NXV_HIGHEST ->
  b + Z.of_nat n <= a \/ a + Z.of_nat (length l) <= b -> ld_bytes n m' b = ld_bytes n m b.
Proof.
  intros S H1 H2 Hd. apply ld_bytes_ext; [done | done |]. intros x Hx. rewrite (sd_view _ _ _ _ S x) by (unfold title_addr; lia).
  by rewrite decide_False by lia.
Qed.

(** ** Commit *)

(** The protection of a page that was committed is its old one or [b]. *)
Definition soft (b : Z) (m0 m : mm) : Prop :=
  forall j, title j -> pte m0 j <> 0 -> pte m j mod 4096 = pte m0 j mod 4096 \/ pte m j mod 4096 = b.

Lemma commit_pages_soft z m0 lo hi b n : bits_ok b -> 0x10 <= lo -> hi <= 0x7FFE0 -> forall v F k,
  progress z m0 (mem v) F lo hi -> lo <= k -> k + Z.of_nat n = hi -> within F lo k -> soft b m0 (mem v) ->
  exists ok k' v' F', commit_pages n v (4096 * k) b z = Some (ok, 4096 * k', v') /\
    progress z m0 (mem v') F' lo hi /\ within F' lo k' /\ lo <= k' <= hi /\ soft b m0 (mem v').
Proof.
  intros Hb Hlo Hhi. induction n as [| n IH]; intros v F k G Hk Hn HW HS; cbn [commit_pages].
  { exists true, k, v, F. split; [done |]. split; [done |]. split; [done |]. split; [lia | done]. }
  assert (Hkt : title k) by (unfold title; lia).
  destruct (commit_page_spec z v m0 F lo hi k b G Hkt ltac:(lia)) as (ok & v1 & F1 & -> & G1 & _ & _ & HP & Hcase); [intros Hin%HW; lia | done |].
  assert (S1 : soft b m0 (mem v1)).
  { intros j Hj Hj0. destruct (decide (j = k)) as [-> | Hjk].
    - destruct Hcase as [(_ & _ & _ & ->) | [(_ & _ & _ & _ & E) | (_ & E & _)]]; [by apply HS | by right |].
      by destruct (pg_old _ _ _ _ _ _ G k Hj Hj0) as (? & _).
    - rewrite HP by (done || unfold title in Hj; lia). by apply HS. }
  destruct Hcase as [(-> & -> & _) | Hcase].
  { exists false, k, v1, F. split; [done |]. split; [done |]. split; [done |]. split; [lia | done]. }
  assert (ok = true /\ within F1 lo (k + 1)) as [-> HW1].
  { destruct Hcase as [(-> & _ & -> & _) | (-> & _ & -> & _)]; (split; [done |]); intros j; [intros Hj%HW; lia |].
    intros [->%elem_of_singleton | Hj%HW]%elem_of_union; lia. }
  rewrite add32_page by lia. apply (IH v1 F1 (k + 1)); [done | lia | lia | done | done].
Qed.

Lemma rollback_page_soft z m0 b v F lo hi k : progress z m0 (mem v) F lo hi -> title k -> soft b m0 (mem v) ->
  exists F', progress z m0 (mem (rollback_page v (4096 * k))) F' lo hi /\ soft b m0 (mem (rollback_page v (4096 * k))).
Proof.
  intros G Hk HS. pose proof (pg_ok _ _ _ _ _ _ G) as T. unfold rollback_page, pde_present. rewrite NXV_PDE_page, NXV_PTE_page.
  fold (present (pte (mem v) (pdx k))) (fresh (pte (mem v) k)). destruct (_ && _) eqn:E; [| by exists F].
  apply andb_prop in E as [_ Ef]. assert (Hne : pte (mem v) k <> 0) by (intros E0; rewrite E0 in Ef; discriminate Ef).
  assert (Hin : k ∈ F) by (by apply (to_page _ _ T k Hk Hne)). destruct (free_page_title _ F k T Hk Hne) as (_ & P & _).
  exists (F ∖ {[k]}). split; [by apply progress_free |]. intros j Hj Hj0. cbn [mem with_committed with_mem]. rewrite P. case_decide as Ej; [| by apply HS].
  subst j. by destruct (pg_new _ _ _ _ _ _ G k Hin) as [? _].
Qed.

Lemma rollback_soft z m0 b lo hi n : 0x10 <= lo -> hi <= 0x7FFE0 -> forall v F k,
  progress z m0 (mem v) F lo hi -> k <= hi -> k = lo + Z.of_nat n -> soft b m0 (mem v) ->
  soft b m0 (mem (rollback n v (4096 * k))).
Proof.
  intros Hlo Hhi. induction n as [| n IH]; intros v F k G Hk Hn HS; cbn [rollback]; [done |].
  assert (E : sub32 (4096 * k) PAGE_SIZE = 4096 * (k - 1)) by (unfold PAGE_SIZE; rewrite sub32_id; lia). rewrite E. cbv zeta.
  destruct (rollback_page_soft z m0 b v F lo hi (k - 1) G ltac:(unfold title; lia) HS) as (F' & G' & HS').
  apply (IH _ F'); [done | lia | lia | done].
Qed.

Lemma commit_range_soft z v lo hi b v' : title_ok (mem v) ∅ -> bits_ok b -> 0x10 <= lo <= hi -> hi <= 0x7FFE0 ->
  NxvCommitRange v (4096 * lo) (4096 * hi) b z = Some (STATUS_NO_MEMORY, v') -> soft b (mem v) (mem v').
Proof.
  intros T Hb Hlo Hhi. unfold NxvCommitRange. rewrite npages_page.
  destruct (commit_pages_soft z (mem v) lo hi b (Z.to_nat (hi - lo)) Hb ltac:(lia) Hhi v ∅ lo) as (ok & k' & v1 & F & -> & G & HW & Hk & HS);
    [by apply progress_refl | lia | lia | intros j Hj; set_solver | by left |].
  destruct ok; [done |]. intros [= <-]. rewrite npages_page. apply (rollback_soft z (mem v) b lo hi _ ltac:(lia) Hhi v1 F); [done | lia | lia | done].
Qed.

(** What a commit of pages [lo .. hi - 1] for reading and writing does to the
    memory, when those of them that were committed were so already. *)
Record commits (m m' : mm) (lo hi : Z) : Prop := {
  cm_view : forall a, title_addr a -> ld8 m' a = if decide (lo <= a / 4096 < hi /\ a / 4096 ∉ cset m) then Some 0 else ld8 m a;
  cm_bits : forall k, title k -> k ∈ cset m' -> pte m' k mod 4096 = if decide (lo <= k < hi) then 3 else pte m k mod 4096;
  cm_set : forall k, k ∈ cset m' <-> k ∈ cset m \/ title k /\ lo <= k < hi;
  cm_pages : pages_ok m'
}.

Definition plain (m : mm) (lo hi : Z) : Prop := forall k, lo <= k < hi -> k ∈ cset m -> pte m k mod 4096 = 3.

Lemma mod_low e j : 0 <= j < 12 -> Z.testbit e j = Z.testbit (e mod 4096) j.
Proof. intros Hj. change 4096 with (2 ^ 12). by rewrite Z.mod_pow2_bits_low by lia. Qed.

Lemma present_low e e' : e mod 4096 = e' mod 4096 -> present e = present e'.
Proof.
  intros E. unfold present, BooleanFlagOn, NXV_PTE_P. change 1 with (2 ^ 0). rewrite !land_pow2_testbit by lia.
  by rewrite (mod_low e), (mod_low e'), E by lia.
Qed.

Lemma zero_byte i n : byte_of (nth n zero_frame 0) i = 0.
Proof.
  assert (E : nth n zero_frame 0 = 0).
  { rewrite nth_lookup. unfold zero_frame. destruct (replicate 1024 0 !! n) eqn:E; [by apply lookup_replicate in E as [-> _] | done]. }
  rewrite E. unfold byte_of. by rewrite Z.shiftr_0_l, Z.land_0_l.
Qed.

(** A page that was committed and keeps its protection shows what it showed. *)
Lemma kept_view m m' a : title_ok m ∅ -> title_ok m' ∅ -> title_addr a -> pte m' (a / 4096) mod 4096 = pte m (a / 4096) mod 4096 ->
  pte m' (a / 4096) / 2 ^ 12 = pte m (a / 4096) / 2 ^ 12 ->
  frame_at m' (pte m (a / 4096) / 2 ^ 12) = frame_at m (pte m (a / 4096) / 2 ^ 12) -> ld8 m' a = ld8 m a.
Proof.
  intros T T' Ha Eb Ep Ef. rewrite (ld8_title m' ∅ a T' Ha), (ld8_title m ∅ a T Ha), (present_low _ _ Eb), Ep, Ef. done.
Qed.

Lemma progress_pages m m' lo hi : pages_ok m -> progress true m m' ∅ lo hi -> pages_ok m'.
Proof.
  intros P G k [Hk Hn]%elem_of_cset. destruct (Z.eq_dec (pte m k) 0) as [E | E].
  - by rewrite (pg_fill _ _ _ _ _ _ G eq_refl k Hk E Hn).
  - destruct (pg_old _ _ _ _ _ _ G k Hk E) as (_ & -> & ->). apply P. by apply elem_of_cset.
Qed.

Lemma commit_commits m m' lo hi : title_ok m ∅ -> pages_ok m -> plain m lo hi -> 0x10 <= lo -> hi <= 0x7FFE0 ->
  progress true m m' ∅ lo hi -> marked m' ∅ lo hi 3 -> commits m m' lo hi.
Proof.
  intros T P Pl Hlo Hhi G M. pose proof (pg_ok _ _ _ _ _ _ G) as T'.
  assert (B : forall k, lo <= k < hi -> pte m' k <> 0 /\ pte m' k mod 4096 = 3).
  { intros k Hk. destruct (M k Hk) as [A B]. rewrite decide_False in B by set_solver. split; [done | lia]. }
  constructor.
  - intros a Ha. pose proof (title_addr_page a Ha) as Ht. case_decide as E.
    + destruct E as [Hr Hc]. destruct (B _ Hr) as [Hn Hb]. rewrite (ld8_title m' ∅ a T' Ha). destruct (rw_bits m' _ Hb) as [-> _].
      rewrite (pg_fill _ _ _ _ _ _ G eq_refl _ Ht); [by rewrite zero_byte | | done].
      destruct (Z.eq_dec (pte m (a / 4096)) 0); [done |]. exfalso. apply Hc. by apply elem_of_cset.
    + destruct (Z.eq_dec (pte m (a / 4096)) 0) as [E0 | E0].
      * assert (Ho : ~ (lo <= a / 4096 < hi)) by (intros Hr; apply E; split; [done |]; intros [_ ?]%elem_of_cset; done).
        rewrite (ld8_title m' ∅ a T' Ha), (ld8_title m ∅ a T Ha), (pg_out _ _ _ _ _ _ G _ Ht Ho), E0. done.
      * destruct (pg_old _ _ _ _ _ _ G _ Ht E0) as (_ & Ep & Ef). apply kept_view; try done.
        destruct (decide (lo <= a / 4096 < hi)) as [Hr | Hr]; [| by rewrite (pg_out _ _ _ _ _ _ G _ Ht Hr)].
        destruct (B _ Hr) as [_ ->]. symmetry. apply Pl; [done |]. by apply elem_of_cset.
  - intros k Hk _. case_decide as E; [by apply B | by rewrite (pg_out _ _ _ _ _ _ G _ Hk E)].
  - intros k. rewrite !elem_of_cset. split.
    + intros [Hk Hn]. destruct (decide (lo <= k < hi)) as [Hr | Hr]; [by right |]. rewrite (pg_out _ _ _ _ _ _ G _ Hk Hr) in Hn. by left.
    + intros [[Hk Hn] | [Hk Hr]]; (split; [done |]); [by apply (pg_old _ _ _ _ _ _ G) | by apply B].
  - by apply (progress_pages m m' lo hi).
Qed.

Lemma commit_commits_none m m' lo hi : title_ok m ∅ -> pages_ok m -> plain m lo hi ->
  progress true m m' ∅ lo hi -> exact m m' ∅ -> soft 3 m m' -> commits m m' lo lo.
Proof.
  intros T P Pl G E Sf. pose proof (pg_ok _ _ _ _ _ _ G) as T'.
  assert (N : forall k, title k -> pte m k = 0 -> pte m' k = 0).
  { intros k Hk E0. destruct (Z.eq_dec (pte m' k) 0) as [? | Hn]; [done |]. pose proof (E k Hk E0 Hn). set_solver. }
  assert (B : forall k, title k -> pte m' k mod 4096 = pte m k mod 4096).
  { intros k Hk. destruct (Z.eq_dec (pte m k) 0) as [E0 | E0]; [by rewrite (N k Hk E0), E0 |].
    destruct (decide (lo <= k < hi)) as [Hr | Hr]; [| by rewrite (pg_out _ _ _ _ _ _ G _ Hk Hr)].
    destruct (Sf k Hk E0) as [? | ->]; [done |]. symmetry. apply Pl; [done |]. by apply elem_of_cset. }
  constructor.
  - intros a Ha. pose proof (title_addr_page a Ha) as Ht. rewrite decide_False by lia. destruct (Z.eq_dec (pte m (a / 4096)) 0) as [E0 | E0].
    + rewrite (ld8_title m' ∅ a T' Ha), (ld8_title m ∅ a T Ha), (N _ Ht E0), E0. done.
    + destruct (pg_old _ _ _ _ _ _ G _ Ht E0) as (_ & Ep & Ef). apply kept_view; try done. by apply B.
  - intros k Hk _. rewrite decide_False by lia. by apply B.
  - intros k. rewrite !elem_of_cset. split; [intros [Hk Hn]; left | intros [[Hk Hn] | [_ ?]]; [| lia]]; (split; [done |]).
    + intros E0. apply Hn. by apply N.
    + by apply (pg_old _ _ _ _ _ _ G).
  - by apply (progress_pages m m' lo hi).
Qed.

(** ** Decommit *)

Lemma dropped_view m m' lo hi a : title_ok m ∅ -> dropped m m' lo hi -> title_addr a ->
  ld8 m' a = if decide (lo <= a / 4096 < hi) then None else ld8 m a.
Proof.
  intros T D Ha. rewrite (ld8_title m' ∅ a (dr_ok _ _ _ _ D) Ha), (ld8_title m ∅ a T Ha), (dr_pte _ _ _ _ D). case_decide; [done |].
  by rewrite (dr_frame _ _ _ _ D).
Qed.

Lemma dropped_set m m' lo hi k : dropped m m' lo hi -> k ∈ cset m' <-> k ∈ cset m /\ ~ (lo <= k < hi).
Proof. intros D. rewrite !elem_of_cset, (dr_pte _ _ _ _ D). case_decide; tauto. Qed.

Lemma dropped_pages m m' lo hi : pages_ok m -> dropped m m' lo hi -> pages_ok m'.
Proof.
  intros P D k Hk. pose proof Hk as [Hc Hr]%(dropped_set m m' lo hi k D). rewrite (dr_pte _ _ _ _ D), decide_False, (dr_frame _ _ _ _ D) by done. by apply P.
Qed.

(** ** The calls of the manager on part of one region *)

(** The pages of [n] bytes at [a]. *)
Definition first_page (a : Z) : Z := a / 4096.
Definition end_page (a n : Z) : Z := (a + n + 4095) / 4096.

Lemma round_down_page a : 0 <= a < 2 ^ 32 -> ROUND_DOWN a PAGE_SIZE = 4096 * first_page a.
Proof.
  intros Ha. change PAGE_SIZE with (2 ^ 12). rewrite round_down_pow by lia. unfold first_page. change (2 ^ 12) with 4096.
  pose proof (Z.div_mod a 4096 ltac:(lia)). lia.
Qed.

Lemma round_up_page a : 0 <= a -> a + 4096 < 2 ^ 32 -> ROUND_UP a PAGE_SIZE = 4096 * ((a + 4095) / 4096).
Proof.
  intros Ha Hb. unfold ROUND_UP. change (add32 a PAGE_SIZE) with (add32 a 4096). rewrite (add32_id a 4096), (sub32_id (a + 4096) 1), round_down_page by lia.
  unfold first_page. do 2 f_equal. lia.
Qed.

Lemma pages_within a n lo hi : lo mod 4096 = 0 -> hi mod 4096 = 0 -> lo <= a -> 0 < n -> a + n <= hi ->
  lo <= 4096 * first_page a /\ first_page a < end_page a n /\ 4096 * end_page a n <= hi /\ 4096 * first_page a <= a /\ a + n <= 4096 * end_page a n.
Proof.
  intros Hl Hh H1 H2 H3. unfold first_page, end_page.
  pose proof (Z.div_mod lo 4096 ltac:(lia)). pose proof (Z.div_mod hi 4096 ltac:(lia)). pose proof (Z.div_mod a 4096 ltac:(lia)).
  pose proof (Z.div_mod (a + n + 4095) 4096 ltac:(lia)). pose proof (Z.mod_pos_bound a 4096 ltac:(lia)). pose proof (Z.mod_pos_bound (a + n + 4095) 4096 ltac:(lia)).
  assert (lo / 4096 <= a / 4096) by (apply Z.div_le_mono; lia). assert ((a + n + 4095) / 4096 < hi / 4096 + 1) by (apply Z.div_lt_upper_bound; lia). lia.
Qed.

Section region.
Context (v : vm) (x : region) (a n : Z).
Hypothesis W : vm_wf v.
Hypothesis Hx : x ∈ NxvRegionList v.
Hypothesis Hlo : Base x <= a.
Hypothesis Hn : 0 < n.
Hypothesis Hhi : a + n <= rend x.

Lemma region_range : NXV_LOWEST <= Base x /\ rend x <= NXV_HIGHEST /\ Base x mod 4096 = 0 /\ rend x mod 4096 = 0.
Proof using W Hx.
  destruct (regions_ok_elem _ _ _ _ (vw_regions _ W) Hx) as (A & B & (C & D & E)). split; [done |]. split; [done |]. split; [done |].
  unfold rend. by rewrite Z.add_mod, D, E by lia.
Qed.

Lemma region_found Va : contains x Va -> exists i, NxvFindRegion v Va = Some (i, x) /\ NxvRegionList v !! i = Some x.
Proof using W Hx.
  intros Hc. pose proof (find_region_spec NXV_HIGHEST ltac:(done) (NxvRegionList v) NXV_LOWEST 0 Va ltac:(done) (vw_regions _ W)) as Hf.
  unfold NxvFindRegion. destruct (find_region _ Va 0) as [[i y] |]; [| by destruct (Hf x Hx)]. destruct Hf as (_ & Hi & Cy). rewrite Nat.sub_0_r in Hi.
  assert (y = x) as -> by (apply (regions_unique _ y x Va _ _ (vw_regions _ W)); try done; by apply list_elem_of_lookup_2 in Hi). eauto.
Qed.

Lemma region_end : REnd x = rend x.
Proof using W Hx. by apply (REnd_rend NXV_LOWEST (NxvRegionList v) NXV_HIGHEST x (vw_regions _ W)). Qed.

Lemma region_pages : Base x <= 4096 * first_page a /\ first_page a < end_page a n /\ 4096 * end_page a n <= rend x /\ 4096 * first_page a <= a /\ a + n <= 4096 * end_page a n.
Proof using W Hx Hlo Hn Hhi. destruct region_range as (_ & _ & Hb & He). by apply pages_within. Qed.

Lemma commit_call node : pages_ok (mem v) -> plain (mem v) (first_page a) (end_page a n) ->
  exists r, NxVmAllocateVirtualMemory v node a n MEM_COMMIT PAGE_EXECUTE_READWRITE = Some r /\
    vm_wf (st r) /\ NxvRegionList (st r) = NxvRegionList v /\ (status r = STATUS_SUCCESS -> OutBase r = 4096 * first_page a) /\
    ((status r = STATUS_SUCCESS /\ commits (mem v) (mem (st r)) (first_page a) (end_page a n)) \/
     (status r = STATUS_NO_MEMORY /\ commits (mem v) (mem (st r)) (first_page a) (first_page a))) /\
    (forall LO HI, 0x10 <= LO -> LO <= first_page a -> end_page a n <= HI -> HI <= 0x7FFE0 -> stocked (mem v) LO HI ->
     status r = STATUS_SUCCESS /\ stocked (mem (st r)) LO HI).
Proof using W Hx Hlo Hn Hhi.
  intros P Pl. destruct region_range as (R1 & R2 & R3 & R4). destruct region_pages as (P1 & P2 & P3 & P4 & P5). unfold NXV_LOWEST, NXV_HIGHEST in *.
  set (lo := first_page a) in *. set (hi := end_page a n) in *. unfold NxVmAllocateVirtualMemory. cbv zeta.
  rewrite (proj2 (Z.eqb_neq n 0)) by lia. change (negb (BooleanFlagOn MEM_COMMIT _)) with false.
  change (NxvProtectToPte PAGE_EXECUTE_READWRITE) with (Some 3). change (BooleanFlagOn MEM_COMMIT MEM_RESET) with false.
  change (BooleanFlagOn MEM_COMMIT MEM_RESERVE) with false. cbv iota. rewrite (proj2 (Z.eqb_neq a 0)) by lia.
  unfold NXV_LOWEST, NXV_HIGHEST. rewrite (proj2 (Z.ltb_ge a _)), (proj2 (Z.leb_gt _ a)) by lia. cbn [orb].
  rewrite add32_id, round_up_page, round_down_page by lia. fold lo. change ((a + n + 4095) / 4096) with hi.
  destruct (region_found (4096 * lo)) as (i & -> & _); [unfold contains; lia |]. rewrite region_end, (proj2 (Z.ltb_ge (rend x) _)) by lia.
  assert (B3 : bits_ok 3) by (split; [lia | done]). destruct W as [T C R Rs Cv].
  destruct (commit_range_spec true v lo hi 3 T C B3 ltac:(lia) ltac:(lia)) as (s & v' & E & G & [S1 S2] & C' & HS).
  assert (Hst : forall LO HI, 0x10 <= LO -> LO <= lo -> hi <= HI -> HI <= 0x7FFE0 -> stocked (mem v) LO HI -> s = STATUS_SUCCESS /\ stocked (mem v') LO HI).
  { intros LO HI L1 L2 L3 L4 St. destruct (commit_range_stocked true v lo hi 3 LO HI T C B3 L1 L2 ltac:(lia) L3 L4 St) as (v2 & E2 & St2). rewrite E in E2. injection E2 as -> ->. done. }
  change (zero_fill MEM_COMMIT) with true. rewrite E.
  assert (W' : vm_wf v').
  { constructor; [apply G | done | by rewrite S1 | congruence |]. intros k [Hk Hk0]%elem_of_cset. rewrite S1. destruct (Z.eq_dec (pte (mem v) k) 0) as [E0 | E0].
    - exists x. split; [done |]. destruct (decide (lo <= k < hi)) as [Hr | Hr]; [unfold contains; lia |]. by rewrite (pg_out _ _ _ _ _ _ G k Hk Hr) in Hk0.
    - apply Cv. by apply elem_of_cset. }
  destruct HS as [[-> M] | (-> & HE & HN)]; (eexists; split; [reflexivity |]; cbn [st status OutBase]; split; [done |]; split; [done |]; split; [done |]; split; [| exact Hst]); [left | right]; (split; [done |]).
  - apply commit_commits; try done; lia.
  - apply (commit_commits_none _ _ lo hi); try done.
    apply (commit_range_soft true v lo hi 3 v' T B3); [lia | lia | done].
Qed.

Lemma decommit_call node : exists r, NxVmFreeVirtualMemory v node a n MEM_DECOMMIT = Some r /\ vm_wf (st r) /\
  NxvRegionList (st r) = NxvRegionList v /\ dropped (mem v) (mem (st r)) (first_page a) (end_page a n).
Proof using W Hx Hlo Hn Hhi.
  destruct region_range as (R1 & R2 & R3 & R4). destruct region_pages as (P1 & P2 & P3 & P4 & P5). unfold NXV_LOWEST, NXV_HIGHEST in *.
  unfold NxVmFreeVirtualMemory. cbv zeta. change ((_ =? 0) || _) with false. cbv iota. destruct (region_found a) as (i & -> & _); [unfold contains; lia |].
  change (BooleanFlagOn MEM_DECOMMIT MEM_RELEASE) with false. cbv iota. rewrite (proj2 (Z.eqb_neq n 0)) by lia.
  rewrite add32_id, round_up_page, round_down_page by lia. change ((a + n + 4095) / 4096) with (end_page a n).
  rewrite region_end, (proj2 (Z.ltb_ge (rend x) _)) by lia.
  destruct (decommit_vm v (4096 * first_page a) (4096 * end_page a n) x W Hx) as (v' & -> & W' & D & [S1 _] & _);
    [lia | lia | rewrite Z.mul_comm; apply Z.mod_mul; lia | rewrite Z.mul_comm; apply Z.mod_mul; lia |].
  eexists. split; [reflexivity |]. cbn [st]. split; [done |]. split; [done |]. revert D. by rewrite !(Z.mul_comm 4096), !Z.div_mul by lia.
Qed.

End region.

(** ** Part of a read *)

Lemma ld_sub N m a l o n : NXV_LOWEST <= a -> a + Z.of_nat N <= NXV_HIGHEST -> ld_bytes N m a = Some l ->
  0 <= o -> o + Z.of_nat n <= Z.of_nat N -> ld_bytes n m (a + o) = Some (take n (drop (Z.to_nat o) l)).
Proof.
  intros H1 H2 [Hl Hx]%ld_bytes_iff Ho Hn; [| done | done]. apply ld_bytes_iff; [lia | lia |]. split; [rewrite length_take, length_drop; lia |].
  intros x Hr. rewrite Hx by lia. f_equal. rewrite !nth_lookup, lookup_take_lt, lookup_drop by lia. do 2 f_equal. lia.
Qed.

Lemma load32_take l : load32 (take 4 l) = load32 l.
Proof. by destruct l as [| ? [| ? [| ? [|]]]]. Qed.

Lemma load16_take l : load16 (take 2 l) = load16 l.
Proof. by destruct l as [| ? [|]]. Qed.
