(* ===== verification/XbeSections.v ===== *)
(** * Sections of the title's image

    [XeLoadSection] and [XeUnloadSection] of [ntoskrnl/xb/xbe.c] with what
    they call: sections of the running image brought in from its file and
    given up again.  Their state is not the kernel's: the reference count of
    a section and the counters of the pages that two sections share lie in
    the image's headers, in the title's memory, so that the model reads and
    writes them there, through the page tables ([TitleMem.v]), and commits
    and decommits pages with the manager of [Vm.v].  The file is a
    parameter: what a read of it delivers.

    The theorem is a refinement: an image is a list of sections, each absent
    or loaded with a count and its bytes. *)

From stdpp Require Import prelude gmap list numbers sets.
From Stdlib Require Import ZArith Lia.
From S2P Require Import Prelude PageSupply Paging Vm VmStock VmRegions VmSpec Bytes TitleMem.

Local Open Scope Z_scope.
Local Opaque free_set NxpUnlink cset.

(** ** Runs

    An access where no page is mapped stops the machine ([Fault]), and so
    does the kernel ([Bugcheck]); the [option] is the fuel of the loops
    below. *)

Inductive res (A : Type) : Type :=
  | Done (a : A)
  | Fault (Va : Z)
  | Bugcheck (Code P1 : Z).
Arguments Done {A} a.
Arguments Fault {A} Va.
Arguments Bugcheck {A} Code P1.

Definition X (A : Type) : Type := vm -> option (res A * vm).

#[global] Instance X_ret : MRet X := fun A a v => Some (Done a, v).
#[global] Instance X_bind : MBind X := fun A B (k : A -> X B) (x : X A) v =>
  match x v with
  | None => None
  | Some (Done a, v) => k a v
  | Some (Fault Va, v) => Some (Fault Va, v)
  | Some (Bugcheck Code P1, v) => Some (Bugcheck Code P1, v)
  end.

Definition rd16 (a : Z) : X Z := fun v => Some (match ld16 (mem v) a with Some w => Done w | None => Fault a end, v).
Definition rd32 (a : Z) : X Z := fun v => Some (match ld32 (mem v) a with Some w => Done w | None => Fault a end, v).
Definition wr (l : list Z) (a : Z) : X unit := fun v =>
  match st_bytes l (mem v) a with Some m => Some (Done tt, with_mem m v) | None => Some (Fault a, v) end.

(** ** The manager's calls *)

Definition XeNtAllocateVirtualMemory (node : bool) (BaseAddress RegionSize AllocationType Protect : Z) : X (Z * Z) := fun v =>
  match NxVmAllocateVirtualMemory v node BaseAddress RegionSize AllocationType Protect with
  | None => None
  | Some r => Some (Done (status r, OutBase r), st r)
  end.

Definition XeNtFreeVirtualMemory (node : bool) (BaseAddress RegionSize FreeType : Z) : X Z := fun v =>
  match NxVmFreeVirtualMemory v node BaseAddress RegionSize FreeType with
  | None => None
  | Some r => Some (Done (status r), st r)
  end.

(** ** The file

    A read of [len] bytes at [off] ends with a status and has delivered
    bytes into the buffer. *)
Definition reader : Type := Z -> Z -> Z * list Z.

Definition ZwReadFile (io : reader) (Buffer Length ByteOffset : Z) : X Z :=
  wr (snd (io ByteOffset Length)) Buffer;; mret (fst (io ByteOffset Length)).

(** What the file system promises: never more than was asked for, and on
    success the bytes of the file from the offset on, up to its end. *)
Record serves (file : list Z) (io : reader) : Prop := {
  sv_len : forall off len, 0 <= len -> Z.of_nat (length (snd (io off len))) <= len;
  sv_bytes : forall off len, bytes (snd (io off len));
  sv_data : forall off len, 0 <= off -> 0 <= len -> NT_SUCCESS (fst (io off len)) = true ->
    snd (io off len) = take (Z.to_nat len) (drop (Z.to_nat off) file)
}.

(** ** A section's header, 56 bytes in the title's memory *)

Section header.
Context (Section' : Z).
Definition Flags : X Z := rd32 Section'.
Definition VirtualAddr : X Z := rd32 (add32 Section' 4).
Definition VirtualSize : X Z := rd32 (add32 Section' 8).
Definition RawAddr : X Z := rd32 (add32 Section' 12).
Definition SizeOfRaw : X Z := rd32 (add32 Section' 16).
Definition SectionRefCount : X Z := rd32 (add32 Section' 24).
Definition HeadSharedRefCountAddr : X Z := rd32 (add32 Section' 28).
Definition TailSharedRefCountAddr : X Z := rd32 (add32 Section' 32).
Definition set_SectionRefCount (n : Z) : X unit := wr (store32 n) (add32 Section' 24).
End header.

(** A shared-page counter, 16 bits, changed by [d]. *)
Definition bump (Counter d : Z) : X Z :=
  c ← rd16 Counter;
  wr (store16 (u16 (c + d))) Counter;;
  mret (u16 (c + d)).

Definition page_of (a : Z) : Z := Z.land a (not32 (PAGE_SIZE - 1)).

(** ** Load *)

Definition XepLoadSectionData (node : bool) (io : reader) (S : Z) : X Z :=
  vs ← VirtualSize S;
  if vs =? 0 then mret STATUS_SUCCESS
  else
    va ← VirtualAddr S;
    r ← XeNtAllocateVirtualMemory node va vs MEM_COMMIT PAGE_EXECUTE_READWRITE;
    if negb (NT_SUCCESS (fst r)) then mret (fst r)
    else
      rs ← SizeOfRaw S;
      status ←
        (if negb (rs =? 0) then
           off ← RawAddr S;
           va ← VirtualAddr S;
           rs ← SizeOfRaw S;
           ZwReadFile io va rs off
         else mret STATUS_SUCCESS);
      if negb (NT_SUCCESS status) then mret status
      else
        vs ← VirtualSize S;
        rs ← SizeOfRaw S;
        va ← VirtualAddr S;
        (if rs <? vs then wr (replicate (Z.to_nat (vs - rs)) 0) (add32 va rs) else mret tt);;
        head ← HeadSharedRefCountAddr S;
        bump head 1;;
        va ← VirtualAddr S;
        vs ← VirtualSize S;
        (if negb (page_of (sub32 (add32 va vs) 1) =? page_of va) then
           tail ← TailSharedRefCountAddr S;
           bump tail 1;; mret tt
         else mret tt);;
        mret STATUS_SUCCESS.

Definition XeLoadSection (node : bool) (io : reader) (S : Z) : X Z :=
  if S =? 0 then mret STATUS_INVALID_PARAMETER
  else
    n ← SectionRefCount S;
    status ← (if n =? 0 then XepLoadSectionData node io S else mret STATUS_SUCCESS);
    (if NT_SUCCESS status then n ← SectionRefCount S; set_SectionRefCount S (add32 n 1) else mret tt);;
    mret status.

(** ** Unload *)

Definition XepDecommitRange (node : bool) (Start End : Z) : X unit :=
  if Start <? End then XeNtFreeVirtualMemory node Start (sub32 End Start) MEM_DECOMMIT;; mret tt else mret tt.

(** A page at an edge, once no section counts in its counter. *)
Definition release_page (node : bool) (Counter Page : Z) : X unit :=
  c ← bump Counter (-1);
  if c =? 0 then XepDecommitRange node Page (add32 Page PAGE_SIZE) else mret tt.

(** The last reference is gone. *)
Definition drop_pages (node : bool) (S : Z) : X unit :=
  va ← VirtualAddr S;
  vs ← VirtualSize S;
  let headPage := page_of va in
  let tailPage := page_of (sub32 (add32 va vs) 1) in
  head ← HeadSharedRefCountAddr S;
  release_page node head headPage;;
  (if negb (tailPage =? headPage) then
     tail ← TailSharedRefCountAddr S;
     release_page node tail tailPage
   else mret tt);;
  XepDecommitRange node (add32 headPage PAGE_SIZE) tailPage.

Definition XeUnloadSection (node : bool) (S : Z) : X Z :=
  if S =? 0 then mret STATUS_INVALID_PARAMETER
  else
    n ← SectionRefCount S;
    if n =? 0 then mret STATUS_INVALID_PARAMETER
    else
      set_SectionRefCount S (sub32 n 1);;
      (if sub32 n 1 =? 0 then
         vs ← VirtualSize S;
         if negb (vs =? 0) then drop_pages node S else mret tt
       else mret tt);;
      mret STATUS_SUCCESS.

(** ** Images *)

(** A section as the image's headers describe it: where its header is, and
    the fields that do not change. *)
Record sec : Type := Sec { s_hdr : Z; s_flags : Z; s_va : Z; s_vs : Z; s_raw : Z; s_rs : Z; s_head : Z; s_tail : Z }.

(** [i_base .. i_hend) are the headers, [i_end] the end of the image. *)
Record image : Type := Image { i_base : Z; i_hend : Z; i_end : Z; i_secs : list sec }.

Definition head_page (s : sec) : Z := s_va s / 4096.
Definition tail_page (s : sec) : Z := (s_va s + s_vs s - 1) / 4096.
Definition spans (s : sec) (k : Z) : Prop := s_vs s <> 0 /\ head_page s <= k <= tail_page s.

(** The counter of a page at the edge of a section. *)
Definition counter (s : sec) (k : Z) : Z := if decide (k = head_page s) then s_head s else s_tail s.

Definition hdr_page (I : image) : Z := (i_hend I + 4095) / 4096.

Definition apart (a n b m : Z) : Prop := a + n <= b \/ b + m <= a.

Definition counters_of (I : image) (a : Z) : Prop := exists s, s ∈ i_secs I /\ (a = s_head s \/ a = s_tail s).

(** The layout of an image.  [ly_shared]: the sections that have part of one
    page have the same counter for it. *)
Record layout (I : image) : Prop := {
  ly_base : NXV_LOWEST <= i_base I /\ i_base I mod 4096 = 0;
  ly_ends : i_base I < i_hend I /\ 4096 * hdr_page I <= i_end I <= NXV_HIGHEST;
  ly_header : forall s, s ∈ i_secs I -> i_base I <= s_hdr s /\ s_hdr s + 56 <= i_hend I;
  ly_counter : forall a, counters_of I a -> i_base I <= a /\ a + 2 <= i_hend I;
  ly_body : forall s, s ∈ i_secs I -> 0 <= s_vs s /\ 0 <= s_rs s <= s_vs s /\ 0 <= s_raw s < 2 ^ 32 /\
    (s_vs s <> 0 -> 4096 * hdr_page I <= s_va s /\ s_va s + s_vs s <= i_end I);
  ly_headers : forall i j s t, i <> j -> i_secs I !! i = Some s -> i_secs I !! j = Some t -> apart (s_hdr s) 56 (s_hdr t) 56;
  ly_counters : forall a b, counters_of I a -> counters_of I b -> a = b \/ apart a 2 b 2;
  ly_mixed : forall a s, counters_of I a -> s ∈ i_secs I -> apart a 2 (s_hdr s) 56;
  ly_bodies : forall i j s t, i <> j -> i_secs I !! i = Some s -> i_secs I !! j = Some t -> s_vs s <> 0 -> s_vs t <> 0 ->
    apart (s_va s) (s_vs s) (s_va t) (s_vs t);
  ly_shared : forall i j s t k, i <> j -> i_secs I !! i = Some s -> i_secs I !! j = Some t -> spans s k -> spans t k -> counter s k = counter t k;
  ly_number : Z.of_nat (length (i_secs I)) < 2 ^ 15
}.

(** A page at the edge of a section. *)
Definition edge (s : sec) (k : Z) : Prop := s_vs s <> 0 /\ (k = head_page s \/ k = tail_page s).

(** No counter serves two pages. *)
Definition own_counters (I : image) : Prop :=
  forall s t j k, s ∈ i_secs I -> t ∈ i_secs I -> edge s j -> edge t k -> counter s j = counter t k -> j = k.

(** ** The abstract image *)

Record load : Type := Load { refs : Z; body : list Z }.

(** How often a loaded section counts in the counter at [a]. *)
Definition use (s : sec) (a : Z) : Z :=
  if s_vs s =? 0 then 0
  else (if s_head s =? a then 1 else 0) +
       (if tail_page s =? head_page s then 0 else if s_tail s =? a then 1 else 0).

Fixpoint uses {A} (l : list sec) (D : list (option A)) (a : Z) : Z :=
  match l, D with
  | s :: l', d :: D' => (match d with Some _ => use s a | None => 0 end) + uses l' D' a
  | _, _ => 0
  end.

(** ** The memory of an image *)

Record header_at (m : mm) (s : sec) (n : Z) : Prop := {
  ha_flags : ld32 m (s_hdr s) = Some (s_flags s);
  ha_va : ld32 m (s_hdr s + 4) = Some (s_va s);
  ha_vs : ld32 m (s_hdr s + 8) = Some (s_vs s);
  ha_raw : ld32 m (s_hdr s + 12) = Some (s_raw s);
  ha_rs : ld32 m (s_hdr s + 16) = Some (s_rs s);
  ha_count : ld32 m (s_hdr s + 24) = Some n;
  ha_head : ld32 m (s_hdr s + 28) = Some (s_head s);
  ha_tail : ld32 m (s_hdr s + 32) = Some (s_tail s)
}.

(** The memory holds the headers, with the reference counts [R] and the
    counters [C], and the bodies [D] of the sections that are loaded. *)
Record holds_image (I : image) (R : list Z) (C : Z -> Z) (D : list (option (list Z))) (v : vm) : Prop := {
  hi_wf : vm_wf v;
  hi_pages : pages_ok (mem v);
  hi_region : exists x, x ∈ NxvRegionList v /\ Base x <= i_base I /\ i_end I <= rend x;
  hi_plain : plain (mem v) (i_base I / 4096) (end_page (i_end I) 0);
  hi_headers : forall k, i_base I / 4096 <= k < hdr_page I -> k ∈ cset (mem v);
  hi_count : length R = length (i_secs I);
  hi_header : forall i s n, i_secs I !! i = Some s -> R !! i = Some n -> header_at (mem v) s n;
  hi_counter : forall a, counters_of I a -> ld16 (mem v) a = Some (C a);
  hi_length : length D = length (i_secs I);
  hi_body : forall i s d, i_secs I !! i = Some s -> D !! i = Some (Some d) -> s_vs s <> 0 -> ld_bytes (Z.to_nat (s_vs s)) (mem v) (s_va s) = Some d
}.

(** ** Runs, one step at a time *)

Lemma bind_done {A B} (x : X A) (k : A -> X B) v a v' : x v = Some (Done a, v') -> (x ≫= k) v = k a v'.
Proof. intros E. unfold mbind, X_bind. by rewrite E. Qed.

Lemma rd32_run a v w : ld32 (mem v) a = Some w -> rd32 a v = Some (Done w, v).
Proof. intros E. unfold rd32. by rewrite E. Qed.

Lemma rd16_run a v w : ld16 (mem v) a = Some w -> rd16 a v = Some (Done w, v).
Proof. intros E. unfold rd16. by rewrite E. Qed.

(** ** Geometry *)

Lemma page_div a k : 4096 * k <= a < 4096 * (k + 1) -> a / 4096 = k.
Proof. intros H. symmetry. apply (Z.div_unique a 4096 k (a - 4096 * k)); lia. Qed.

Lemma div_page a : 4096 * (a / 4096) <= a < 4096 * (a / 4096 + 1).
Proof. pose proof (Z.div_mod a 4096 ltac:(lia)). pose proof (Z.mod_pos_bound a 4096 ltac:(lia)). lia. Qed.

Lemma page_of_div a : 0 <= a < 2 ^ 32 -> page_of a = 4096 * (a / 4096).
Proof. intros Ha. unfold page_of. change (PAGE_SIZE - 1) with (2 ^ 12 - 1). rewrite land_not_ones by lia. change (2 ^ 12) with 4096. pose proof (Z.div_mod a 4096 ltac:(lia)). lia. Qed.

Lemma end_tail s : s_vs s <> 0 -> 0 <= s_vs s -> end_page (s_va s) (s_vs s) = tail_page s + 1.
Proof.
  intros H1 H2. unfold end_page, tail_page. pose proof (div_page (s_va s + s_vs s - 1)). apply page_div. lia.
Qed.

Section image.
Context (I : image).
Hypothesis L : layout I.

Let lo : Z := i_base I / 4096.
Let hi : Z := end_page (i_end I) 0.

Lemma base_page : i_base I = 4096 * lo.
Proof using L. destruct (ly_base _ L) as [_ Hm]. unfold lo. pose proof (Z.div_mod (i_base I) 4096 ltac:(lia)). lia. Qed.

Lemma hdr_pages : lo < hdr_page I /\ 4096 * (hdr_page I - 1) < i_hend I <= 4096 * hdr_page I /\ hdr_page I <= hi.
Proof using L.
  destruct (ly_ends _ L) as (H1 & H2 & _). pose proof base_page as Hb. unfold hdr_page in *. pose proof (div_page (i_hend I + 4095)).
  unfold hi, end_page. pose proof (div_page (i_end I + 0 + 4095)). lia.
Qed.

Lemma header_byte a : i_base I <= a < i_hend I -> title_addr a /\ lo <= a / 4096 < hdr_page I.
Proof using L.
  intros Ha. destruct (ly_base _ L) as [Hb _]. destruct (ly_ends _ L) as (_ & H1 & H2). pose proof hdr_pages. pose proof base_page. pose proof (div_page a).
  split; [unfold title_addr; lia | lia].
Qed.

Section body.
Context (i : nat) (s : sec).
Hypothesis Hi : i_secs I !! i = Some s.

Lemma sec_in : s ∈ i_secs I.
Proof using Hi. by apply list_elem_of_lookup_2 in Hi. Qed.

Lemma sec_header : i_base I <= s_hdr s /\ s_hdr s + 56 <= i_hend I.
Proof using L Hi. by apply (ly_header _ L), sec_in. Qed.

Lemma sec_counters : counters_of I (s_head s) /\ counters_of I (s_tail s).
Proof using Hi. pose proof sec_in. split; exists s; auto. Qed.

Hypothesis Hv : s_vs s <> 0.

Lemma sec_body : 0 < s_vs s /\ 0 <= s_rs s <= s_vs s /\ 0 <= s_raw s < 2 ^ 32 /\ NXV_LOWEST <= 4096 * hdr_page I <= s_va s /\ s_va s + s_vs s <= i_end I <= NXV_HIGHEST.
Proof using L Hi Hv.
  destruct (ly_body _ L s sec_in) as (A & B & C & D). destruct (ly_base _ L) as [Hb _]. destruct (ly_ends _ L) as (_ & H1 & H2). pose proof hdr_pages. pose proof base_page.
  destruct (D Hv). lia.
Qed.

Lemma body_byte a : s_va s <= a < s_va s + s_vs s -> title_addr a /\ head_page s <= a / 4096 <= tail_page s /\ hdr_page I <= a / 4096 < hi.
Proof using L Hi Hv.
  intros Ha. pose proof sec_body as (H1 & H2 & H3 & H4 & H5). pose proof (div_page a). pose proof (div_page (s_va s)). pose proof (div_page (s_va s + s_vs s - 1)).
  unfold head_page, tail_page, hi, end_page. pose proof (div_page (i_end I + 0 + 4095)). unfold title_addr. lia.
Qed.

Lemma body_pages : hdr_page I <= head_page s <= tail_page s /\ tail_page s < hi /\ first_page (s_va s) = head_page s /\ end_page (s_va s) (s_vs s) = tail_page s + 1.
Proof using L Hi Hv.
  pose proof sec_body as (H1 & _). destruct (body_byte (s_va s) ltac:(lia)) as (_ & A & B). destruct (body_byte (s_va s + s_vs s - 1) ltac:(lia)) as (_ & C & D).
  unfold head_page in A at 1. split; [unfold head_page, tail_page in *; lia |]. split; [unfold tail_page in *; lia |]. split; [done |]. apply end_tail; lia.
Qed.

End body.

(** Two sections that share a page have it at an edge. *)
Lemma shared_edge i j s t k : i <> j -> i_secs I !! i = Some s -> i_secs I !! j = Some t -> spans s k -> spans t k -> k = head_page s \/ k = tail_page s.
Proof using L.
  intros Hn Hi Hj [Vs Ss] [Vt St]. destruct (decide (k = head_page s)) as [| N1]; [by left |]. destruct (decide (k = tail_page s)) as [| N2]; [by right |]. exfalso.
  pose proof (ly_bodies _ L i j s t Hn Hi Hj Vs Vt) as Ap. unfold apart in Ap. unfold head_page, tail_page in *.
  pose proof (div_page (s_va s)). pose proof (div_page (s_va s + s_vs s - 1)). pose proof (div_page (s_va t)). pose proof (div_page (s_va t + s_vs t - 1)). lia.
Qed.

(** ** What keeps the image *)

Lemma ld_bytes_mono n m m' a l : NXV_LOWEST <= a -> a + Z.of_nat n <= NXV_HIGHEST -> ld_bytes n m a = Some l ->
  (forall x b, a <= x < a + Z.of_nat n -> ld8 m x = Some b -> ld8 m' x = Some b) -> ld_bytes n m' a = Some l.
Proof.
  intros H1 H2 [Hl Hx]%ld_bytes_iff E; [| done | done]. apply ld_bytes_iff; [done | done |]. split; [done |]. intros x Hr. apply E; [done |]. by apply Hx.
Qed.

(** The bytes of the headers and of the loaded bodies. *)
Definition owns (D : list (option (list Z))) (a : Z) : Prop :=
  i_base I <= a < i_hend I \/ exists i s d, i_secs I !! i = Some s /\ D !! i = Some (Some d) /\ s_vs s <> 0 /\ s_va s <= a < s_va s + s_vs s.

Lemma ld32_mono m m' a w : i_base I <= a -> a + 4 <= i_hend I -> ld32 m a = Some w ->
  (forall x b, i_base I <= x < i_hend I -> ld8 m x = Some b -> ld8 m' x = Some b) -> ld32 m' a = Some w.
Proof using L.
  intros H1 H2 E V. destruct (ly_base _ L) as [Hb _]. destruct (ly_ends _ L) as (_ & H3 & H4). pose proof hdr_pages.
  unfold ld32 in *. destruct (ld_bytes 4 m a) as [l |] eqn:El; [| done]. rewrite (ld_bytes_mono 4 m m' a l); [done | lia | lia | done |].
  intros x b Hx. apply V. lia.
Qed.

Lemma ld16_mono m m' a w : i_base I <= a -> a + 2 <= i_hend I -> ld16 m a = Some w ->
  (forall x b, i_base I <= x < i_hend I -> ld8 m x = Some b -> ld8 m' x = Some b) -> ld16 m' a = Some w.
Proof using L.
  intros H1 H2 E V. destruct (ly_base _ L) as [Hb _]. destruct (ly_ends _ L) as (_ & H3 & H4). pose proof hdr_pages.
  unfold ld16 in *. destruct (ld_bytes 2 m a) as [l |] eqn:El; [| done]. rewrite (ld_bytes_mono 2 m m' a l); [done | lia | lia | done |].
  intros x b Hx. apply V. lia.
Qed.

Lemma header_mono m m' s n : s ∈ i_secs I -> header_at m s n -> (forall x b, i_base I <= x < i_hend I -> ld8 m x = Some b -> ld8 m' x = Some b) -> header_at m' s n.
Proof using L.
  intros Hs [A B C D E F G H] V. destruct (ly_header _ L s Hs) as [H1 H2]. constructor; (eapply ld32_mono; [| | eassumption | exact V]); lia.
Qed.

Lemma holds_keep R C D v v' : holds_image I R C D v -> vm_wf v' -> pages_ok (mem v') -> NxvRegionList v' = NxvRegionList v -> plain (mem v') lo hi ->
  (forall x b, owns D x -> ld8 (mem v) x = Some b -> ld8 (mem v') x = Some b) -> holds_image I R C D v'.
Proof using L.
  intros H W P Er Pl V. assert (Vh : forall x b, i_base I <= x < i_hend I -> ld8 (mem v) x = Some b -> ld8 (mem v') x = Some b) by (intros x b Hx; apply V; by left).
  constructor; [done | done | rewrite Er; apply H | done | | apply H | | | apply H |].
  - intros k Hk. pose proof (hi_headers _ _ _ _ _ H k Hk) as Hc. pose proof hdr_pages as (H1 & H2 & H3). pose proof base_page as Hb.
    set (a := Z.min (4096 * k) (i_hend I - 1)). assert (Ha : i_base I <= a < i_hend I) by (unfold a, lo in *; lia). destruct (header_byte a Ha) as [Ta _].
    assert (Ek : a / 4096 = k) by (apply page_div; unfold a; lia).
    destruct (rw_ld8 (mem v) ∅ a) as [b Eb]; [apply H | done | |].
    + rewrite Ek. apply rw_bits. apply (hi_plain _ _ _ _ _ H); [fold lo hi; lia | done].
    + pose proof (Vh a b Ha Eb) as Eb'. rewrite (ld8_title (mem v') ∅ a) in Eb' by (apply W || done). rewrite Ek in Eb'.
      rewrite <- Ek. apply present_committed; [done |]. rewrite Ek. by destruct (present (pte (mem v') k)).
  - intros i s n Hi Hn. apply (header_mono (mem v)); [by apply list_elem_of_lookup_2 in Hi | by apply (hi_header _ _ _ _ _ H i) | done].
  - intros a Ha. destruct (ly_counter _ L a Ha). apply (ld16_mono (mem v)); [done | done | by apply (hi_counter _ _ _ _ _ H) | done].
  - intros i s d Hi Hd Hv. pose proof (sec_body i s Hi Hv) as (A & _ & _ & B & E). apply (ld_bytes_mono _ (mem v)); [lia | lia | by apply (hi_body _ _ _ _ _ H i) |].
    intros x b Hx. apply V. right. exists i, s, d. rewrite Z2Nat.id in Hx by lia. auto.
Qed.

(** ** Steps *)

(** A byte of the headers that is no part of a count or a counter. *)
Definition static (a : Z) : Prop :=
  i_base I <= a < i_hend I /\ (forall s, s ∈ i_secs I -> ~ (s_hdr s + 24 <= a < s_hdr s + 28)) /\ (forall c, counters_of I c -> ~ (c <= a < c + 2)).

(** Nothing outside the image changes, and nothing else in the headers. *)
Record elsewhere (v v' : vm) : Prop := {
  ew_header : forall a, static a -> ld8 (mem v') a = ld8 (mem v) a;
  ew_view : forall a, title_addr a -> ~ (lo <= a / 4096 < hi) -> ld8 (mem v') a = ld8 (mem v) a;
  ew_set : forall k, ~ (lo <= k < hi) -> k ∈ cset (mem v') <-> k ∈ cset (mem v);
  ew_regions : NxvRegionList v' = NxvRegionList v
}.

#[export] Instance elsewhere_preorder : PreOrder elsewhere.
Proof.
  split; [intros v; by constructor |]. intros v1 v2 v3 [F A B C] [F' A' B' C']. constructor; [| | | congruence].
  - intros a Ha. rewrite F' by done. by apply F.
  - intros a Ha Hn. rewrite A' by done. by apply A.
  - intros k Hk. rewrite B' by done. by apply B.
Qed.

Lemma elsewhere_stored v m' a l : stored (mem v) m' a l -> (forall x, a <= x < a + Z.of_nat (length l) -> lo <= x / 4096 < hi /\ ~ static x) -> elsewhere v (with_mem m' v).
Proof using L.
  intros S H. constructor; cbn [mem with_mem NxvRegionList]; [| | | done].
  - intros x Hx. destruct (header_byte x (proj1 Hx)) as [Tx _]. rewrite (sd_view _ _ _ _ S x Tx), decide_False; [done |]. intros Hr. by apply (H x Hr).
  - intros x Hx Hn. rewrite (sd_view _ _ _ _ S x Hx), decide_False; [done |]. intros Hr. by apply Hn, H.
  - intros k _. by rewrite (same_cset (mem v) m' (sd_tables _ _ _ _ S)).
Qed.

Lemma plain_same m m' a b : same_tables m m' -> plain m a b -> plain m' a b.
Proof. intros S P k Hk. rewrite (same_cset m m' S), (same_pte m m' k S). by apply P. Qed.

(** *** Header fields *)

Section fields.
Context (R : list Z) (C : Z -> Z) (D : list (option (list Z))) (v : vm).
Hypothesis H : holds_image I R C D v.
Context (i : nat) (s : sec) (n : Z).
Hypothesis Hi : i_secs I !! i = Some s.
Hypothesis Hn : R !! i = Some n.

Lemma at_field o : 0 <= o < 56 -> add32 (s_hdr s) o = s_hdr s + o.
Proof using L Hi.
  intros Ho. destruct (sec_header i s Hi) as [H1 H2]. destruct (ly_base _ L) as [Hb _]. destruct (ly_ends _ L) as (_ & H3 & H4). pose proof hdr_pages as (_ & H5 & _).
  unfold NXV_LOWEST, NXV_HIGHEST in *. apply add32_id. lia.
Qed.

Lemma run_va : VirtualAddr (s_hdr s) v = Some (Done (s_va s), v).
Proof using L H Hi Hn. unfold VirtualAddr. rewrite at_field by lia. apply rd32_run. by apply (hi_header _ _ _ _ _ H i s n). Qed.
Lemma run_vs : VirtualSize (s_hdr s) v = Some (Done (s_vs s), v).
Proof using L H Hi Hn. unfold VirtualSize. rewrite at_field by lia. apply rd32_run. by apply (hi_header _ _ _ _ _ H i s n). Qed.
Lemma run_raw : RawAddr (s_hdr s) v = Some (Done (s_raw s), v).
Proof using L H Hi Hn. unfold RawAddr. rewrite at_field by lia. apply rd32_run. by apply (hi_header _ _ _ _ _ H i s n). Qed.
Lemma run_rs : SizeOfRaw (s_hdr s) v = Some (Done (s_rs s), v).
Proof using L H Hi Hn. unfold SizeOfRaw. rewrite at_field by lia. apply rd32_run. by apply (hi_header _ _ _ _ _ H i s n). Qed.
Lemma run_count : SectionRefCount (s_hdr s) v = Some (Done n, v).
Proof using L H Hi Hn. unfold SectionRefCount. rewrite at_field by lia. apply rd32_run. by apply (hi_header _ _ _ _ _ H i s n). Qed.
Lemma run_head : HeadSharedRefCountAddr (s_hdr s) v = Some (Done (s_head s), v).
Proof using L H Hi Hn. unfold HeadSharedRefCountAddr. rewrite at_field by lia. apply rd32_run. by apply (hi_header _ _ _ _ _ H i s n). Qed.
Lemma run_tail : TailSharedRefCountAddr (s_hdr s) v = Some (Done (s_tail s), v).
Proof using L H Hi Hn. unfold TailSharedRefCountAddr. rewrite at_field by lia. apply rd32_run. by apply (hi_header _ _ _ _ _ H i s n). Qed.

End fields.

(** *** Commit and decommit *)

Lemma commit_section R C D v node i s : holds_image I R C D v -> i_secs I !! i = Some s -> s_vs s <> 0 ->
  exists st out v', XeNtAllocateVirtualMemory node (s_va s) (s_vs s) MEM_COMMIT PAGE_EXECUTE_READWRITE v = Some (Done (st, out), v') /\
    holds_image I R C D v' /\ elsewhere v v' /\
    ((st = STATUS_SUCCESS /\ forall k, k ∈ cset (mem v') <-> k ∈ cset (mem v) \/ spans s k) \/
     (st = STATUS_NO_MEMORY /\ cset (mem v') = cset (mem v))) /\
    (forall LO HI, 0x10 <= LO -> LO <= head_page s -> tail_page s < HI -> HI <= 0x7FFE0 -> stocked (mem v) LO HI -> st = STATUS_SUCCESS /\ stocked (mem v') LO HI).
Proof using L.
  intros H Hi Hv. pose proof (sec_body i s Hi Hv) as (B1 & B2 & B3 & B4 & B5). destruct (body_pages i s Hi Hv) as (P1 & P2 & Ef & Ee). pose proof hdr_pages as (Q1 & Q2 & Q3).
  destruct (hi_region _ _ _ _ _ H) as (x & Hx & X1 & X2). pose proof base_page as Hb.
  assert (Pl : plain (mem v) (head_page s) (tail_page s + 1)) by (intros k Hk; apply (hi_plain _ _ _ _ _ H); fold lo hi; lia).
  destruct (commit_call v x (s_va s) (s_vs s) (hi_wf _ _ _ _ _ H) Hx ltac:(lia) ltac:(lia) ltac:(lia) node (hi_pages _ _ _ _ _ H)) as (r & E & W' & Er & _ & HS & Hst); [by rewrite Ef, Ee |].
  unfold XeNtAllocateVirtualMemory. rewrite E. exists (status r), (OutBase r), (st r). split; [done |]. rewrite Ef, Ee in HS.
  assert (K : exists h, head_page s <= h <= tail_page s + 1 /\ commits (mem v) (mem (st r)) (head_page s) h).
  { destruct HS as [[_ Cm] | [_ Cm]]; [exists (tail_page s + 1) | exists (head_page s)]; (split; [lia | done]). }
  destruct K as (h & Hh & Cm). split; [| split; [| split; [| intros LO HI L1 L2 L3 L4; apply Hst; rewrite ?Ef, ?Ee; lia]]].
  - apply (holds_keep R C D v); [done | done | apply Cm | done | |].
    + intros k Hk Hc. pose proof Hc as [Ht _]%elem_of_cset. rewrite (cm_bits _ _ _ _ Cm k Ht Hc). case_decide as Ed; [done |].
      apply (hi_plain _ _ _ _ _ H); [done |]. apply (cm_set _ _ _ _ Cm) in Hc as [? | [_ ?]]; [done | lia].
    + intros a b Hown Eb. assert (Ta : title_addr a).
      { destruct Hown as [Ha | (j & t & d & Hj & _ & Hv' & Ha)]; [by apply header_byte | by apply (body_byte j t Hj Hv')]. }
      rewrite (cm_view _ _ _ _ Cm a Ta), decide_False; [done |]. intros [_ Hc]. apply Hc. apply present_committed; [done |].
      rewrite (ld8_title (mem v) ∅ a) in Eb by (apply H || done). by destruct (present _).
  - constructor; [| | | done].
    + intros a [Ha _]. destruct (header_byte a Ha) as [Ta Hp]. rewrite (cm_view _ _ _ _ Cm a Ta), decide_False; [done |]. lia.
    + intros a Ta Hn. rewrite (cm_view _ _ _ _ Cm a Ta), decide_False; [done |]. lia.
    + intros k Hn. rewrite (cm_set _ _ _ _ Cm). split; [intros [? | [_ ?]]; [done | lia] | by left].
  - destruct HS as [[-> Cm'] | [-> Cm']]; [left | right]; (split; [done |]).
    + intros k. rewrite (cm_set _ _ _ _ Cm'). unfold spans. assert (Ht : head_page s <= k < tail_page s + 1 -> title k);
        [| split; (intros [? | [_ ?]]; [by left | right; split; [done || (apply Ht; lia) | lia]])].
      intros Hk. destruct (body_byte i s Hi Hv (Z.max (s_va s) (4096 * k))) as (Ta & _); [pose proof (div_page (s_va s + s_vs s - 1)); unfold tail_page in Hk; lia |].
      apply title_addr_page in Ta. revert Ta. rewrite (page_div _ k); [done |]. pose proof (div_page (s_va s)). unfold head_page in Hk. lia.
    + apply set_eq. intros k. rewrite (cm_set _ _ _ _ Cm'). split; [intros [? | [_ ?]]; [done | lia] | by left].
Qed.

(** Pages that no loaded section has part of are given up. *)
Lemma decommit_section R C D v node a b : holds_image I R C D v -> hdr_page I <= a -> b <= hi ->
  (forall i s d k, i_secs I !! i = Some s -> D !! i = Some (Some d) -> spans s k -> ~ (a <= k < b)) ->
  exists v', XepDecommitRange node (4096 * a) (4096 * b) v = Some (Done tt, v') /\
    holds_image I R C D v' /\ elsewhere v v' /\ forall k, k ∈ cset (mem v') <-> k ∈ cset (mem v) /\ ~ (a <= k < b).
Proof using L.
  intros H Ha Hb Hs. unfold XepDecommitRange. destruct (Z.ltb_spec (4096 * a) (4096 * b)) as [Hl | Hl].
  2: { exists v. split; [done |]. split; [done |]. split; [done |]. intros k. split; [intros; split; [done | lia] | by intros [? _]]. }
  pose proof hdr_pages as (Q1 & Q2 & Q3). destruct (hi_region _ _ _ _ _ H) as (x & Hx & X1 & X2). pose proof base_page as Hbp. pose proof (hi_wf _ _ _ _ _ H) as W.
  destruct (region_range v x W Hx) as (R1 & R2 & R3 & R4). unfold NXV_LOWEST, NXV_HIGHEST in *.
  assert (Hhi : 4096 * hi <= rend x) by (unfold hi, end_page; pose proof (div_page (i_end I + 0 + 4095)); pose proof (Z.div_mod (rend x) 4096 ltac:(lia)); lia).
  rewrite sub32_id by lia. unfold XeNtFreeVirtualMemory.
  destruct (decommit_call v x (4096 * a) (4096 * b - 4096 * a) W Hx ltac:(lia) ltac:(lia) ltac:(lia) node) as (r & E & W' & Er & Dr).
  unfold mbind, X_bind, mret, X_ret. rewrite E. exists (st r). split; [done |].
  assert (E1 : first_page (4096 * a) = a) by (apply page_div; lia). assert (E2 : end_page (4096 * a) (4096 * b - 4096 * a) = b) by (apply page_div; lia). rewrite E1, E2 in Dr.
  assert (T : title_ok (mem v) ∅) by apply W. split; [| split; [constructor; [| | | done] |]].
  - apply (holds_keep R C D v); [done | done | apply (dropped_pages (mem v) _ a b); [apply H | done] | done | |].
    + intros k Hk [Hc Hr]%(dropped_set _ _ _ _ _ Dr). rewrite (dr_pte _ _ _ _ Dr), decide_False by done. by apply (hi_plain _ _ _ _ _ H).
    + intros c z Hown Eb. destruct Hown as [Hc | (j & t & d & Hj & Hd & Hv' & Hc)].
      * destruct (header_byte c Hc). rewrite (dropped_view _ _ _ _ c T Dr), decide_False by (done || lia). done.
      * destruct (body_byte j t Hj Hv' c Hc) as (Tc & Hp & _). rewrite (dropped_view _ _ _ _ c T Dr), decide_False; [done | | done].
        apply (Hs j t d); [done | done |]. split; [done | lia].
  - intros c [Hc _]. destruct (header_byte c Hc). rewrite (dropped_view _ _ _ _ c T Dr), decide_False by (done || lia). done.
  - intros c Tc Hn. rewrite (dropped_view _ _ _ _ c T Dr), decide_False by (done || lia). done.
  - intros k Hn. rewrite (dropped_set _ _ _ _ k Dr). split; [by intros [? _] | intros; split; [done | lia]].
  - intros k. apply (dropped_set _ _ _ _ k Dr).
Qed.

(** *** Stores *)

Lemma holds_forget R C D v i : holds_image I R C D v -> holds_image I R C (<[i := None]> D) v.
Proof.
  intros H. constructor; try apply H; [by rewrite length_insert; apply H |]. intros j s d Hj Hd. destruct (decide (i = j)) as [-> | Hn].
  - destruct (decide (j < length D)%nat) as [Hl | Hl]; [by rewrite list_lookup_insert_eq in Hd |]. rewrite list_insert_ge in Hd by lia. by apply (hi_body _ _ _ _ _ H j).
  - rewrite list_lookup_insert_ne in Hd by done. by apply (hi_body _ _ _ _ _ H j).
Qed.

Lemma holds_learn R C D v i s d : holds_image I R C D v -> i_secs I !! i = Some s ->
  (s_vs s <> 0 -> ld_bytes (Z.to_nat (s_vs s)) (mem v) (s_va s) = Some d) -> holds_image I R C (<[i := Some d]> D) v.
Proof.
  intros H Hi Hd. constructor; try apply H; [by rewrite length_insert; apply H |]. intros j t e Hj He. destruct (decide (i = j)) as [-> | Hn].
  - rewrite list_lookup_insert_eq in He by (rewrite (hi_length _ _ _ _ _ H); by apply lookup_lt_Some in Hj). injection He as <-. by simplify_eq.
  - rewrite list_lookup_insert_ne in He by done. by apply (hi_body _ _ _ _ _ H j).
Qed.

(** Into the body of a section that is not loaded. *)
Lemma store_body R C D v i s o l : holds_image I R C D v -> i_secs I !! i = Some s -> s_vs s <> 0 -> D !! i = Some None ->
  (forall k, spans s k -> k ∈ cset (mem v)) -> bytes l -> 0 <= o -> o + Z.of_nat (length l) <= s_vs s ->
  exists m', st_bytes l (mem v) (s_va s + o) = Some m' /\ stored (mem v) m' (s_va s + o) l /\
    holds_image I R C D (with_mem m' v) /\ elsewhere v (with_mem m' v).
Proof using L.
  intros H Hi Hv Hd Hc Hb Ho Hl. pose proof (sec_body i s Hi Hv) as (B1 & B2 & B3 & B4 & B5). pose proof (hi_wf _ _ _ _ _ H) as W. pose proof hdr_pages as (Q1 & Q2 & Q3).
  assert (In : forall x, s_va s + o <= x < s_va s + o + Z.of_nat (length l) -> title_addr x /\ head_page s <= x / 4096 <= tail_page s /\ hdr_page I <= x / 4096 < hi)
    by (intros x Hx; apply (body_byte i s Hi Hv); lia).
  destruct (st_bytes_spec l (mem v) (s_va s + o)) as (m' & E & S); [apply W | apply H | lia | lia | | done |].
  { intros x Hx. destruct (In x Hx) as (_ & A & B). apply rw_bits. apply (hi_plain _ _ _ _ _ H); [fold lo hi; lia |]. apply Hc. split; [done | lia]. }
  exists m'. split; [done |]. split; [done |]. split; [| apply (elsewhere_stored v m' _ _ S); intros x Hx; destruct (In x Hx) as (_ & _ & Hp); split; [lia |]; intros [Hs _]; destruct (header_byte x Hs); lia].
  pose proof (sd_tables _ _ _ _ S) as Sm. apply (holds_keep R C D v); [done | by apply same_vm_wf | apply S | done | by apply (plain_same (mem v)); [| apply H] |].
  intros x b Hx Eb. cbn [mem with_mem]. assert (title_addr x /\ ~ (s_va s + o <= x < s_va s + o + Z.of_nat (length l))) as [Tx Nx].
  { destruct Hx as [Hx | (j & t & d & Hj & Hd' & Hv' & Hx)].
    - destruct (header_byte x Hx) as [Tx Hp]. split; [done |]. intros Hr. destruct (In x Hr). lia.
    - destruct (body_byte j t Hj Hv' x Hx) as (Tx & _). split; [done |]. intros Hr. assert (Hn : i <> j) by (intros ->; congruence).
      pose proof (ly_bodies _ L i j s t Hn Hi Hj Hv Hv') as Ap. unfold apart in Ap. lia. }
  by rewrite (sd_view _ _ _ _ S x Tx), decide_False.
Qed.

(** Into the headers: the reads that lie apart are as before. *)
Section stores.
Context (R : list Z) (C : Z -> Z) (D : list (option (list Z))) (v : vm) (a : Z) (l : list Z).
Hypothesis H : holds_image I R C D v.
Hypothesis Ha : i_base I <= a.
Hypothesis Hl : a + Z.of_nat (length l) <= i_hend I.

Lemma store_header : bytes l -> (forall x, a <= x < a + Z.of_nat (length l) -> ~ static x) -> exists m', st_bytes l (mem v) a = Some m' /\ stored (mem v) m' a l /\ elsewhere v (with_mem m' v).
Proof using L H Ha Hl.
  intros Hb Hst. destruct (ly_base _ L) as [B1 _]. destruct (ly_ends _ L) as (_ & B2 & B3). pose proof hdr_pages as (Q1 & Q2 & Q3).
  destruct (st_bytes_spec l (mem v) a) as (m' & E & S); [apply H | apply H | lia | lia | | done |].
  { intros x Hx. destruct (header_byte x ltac:(lia)) as [_ Hp]. apply rw_bits. apply (hi_plain _ _ _ _ _ H); [fold lo hi; lia |]. by apply (hi_headers _ _ _ _ _ H). }
  exists m'. split; [done |]. split; [done |]. apply (elsewhere_stored v m' a l S). intros x Hx. destruct (header_byte x ltac:(lia)). split; [lia | by apply Hst].
Qed.

Context (m' : mm).
Hypothesis S : stored (mem v) m' a l.

Lemma stored_ld n b : i_base I <= b -> b + Z.of_nat n <= i_hend I -> apart a (Z.of_nat (length l)) b (Z.of_nat n) -> ld_bytes n m' b = ld_bytes n (mem v) b.
Proof using L S.
  intros H1 H2 Ap. destruct (ly_base _ L) as [B1 _]. destruct (ly_ends _ L) as (_ & B2 & B3). pose proof hdr_pages as (Q1 & Q2 & Q3).
  apply (stored_apart (mem v) m' a l); [done | lia | lia | unfold apart in Ap; lia].
Qed.

(** All but the headers and the counters that the store touches. *)
Lemma stored_holds R' C' : length R' = length (i_secs I) ->
  (forall i s n, i_secs I !! i = Some s -> R' !! i = Some n -> header_at m' s n) -> (forall b, counters_of I b -> ld16 m' b = Some (C' b)) ->
  holds_image I R' C' D (with_mem m' v).
Proof using L H Ha Hl S.
  intros HR HH HC. pose proof (sd_tables _ _ _ _ S) as Sm. constructor; cbn [mem with_mem NxvRegionList]; [by apply same_vm_wf; [| apply H] | apply S | apply H | | | done | done | done | apply H |].
  - apply (plain_same (mem v)); [done | apply H].
  - intros k Hk. rewrite (same_cset (mem v) m' Sm). by apply (hi_headers _ _ _ _ _ H).
  - intros i s d Hi Hd Hv. pose proof (sec_body i s Hi Hv) as (A & _ & _ & B & E). pose proof hdr_pages as (Q1 & Q2 & Q3). rewrite (stored_apart (mem v) m' a l); [| done | lia | lia | right; lia].
    by apply (hi_body _ _ _ _ _ H i).
Qed.

End stores.

Lemma store_counter R C D v a w : holds_image I R C D v -> counters_of I a -> 0 <= w < 2 ^ 16 ->
  exists v', wr (store16 w) a v = Some (Done tt, v') /\ holds_image I R (fun x => if decide (x = a) then w else C x) D v' /\
    elsewhere v v' /\ same_tables (mem v) (mem v').
Proof using L.
  intros H Hc Hw. destruct (ly_counter _ L a Hc) as [A1 A2].
  destruct (store_header R C D v a (store16 w) H A1 A2 (store16_bytes w)) as (m' & E & S & El); [intros x Hx (_ & _ & Hs); by apply (Hs a Hc) |]. exists (with_mem m' v). unfold wr. rewrite E.
  split; [done |]. split; [| split; [done | apply S]]. apply (stored_holds R C D v a (store16 w) H A1 A2 m' S); [apply H | |].
  - intros i s n Hi Hn. destruct (hi_header _ _ _ _ _ H i s n Hi Hn) as [F1 F2 F3 F4 F5 F6 F7 F8]. pose proof (ly_mixed _ L a s Hc (sec_in i s Hi)) as Ap. destruct (sec_header i s Hi) as [H1 H2].
    unfold apart in Ap. constructor; (unfold ld32; rewrite (stored_ld v a (store16 w) m' S); [done | lia | lia | unfold apart; cbn [length store16]; lia]).
  - intros b Hb. destruct (ly_counter _ L b Hb) as [D1 D2]. destruct (ly_base _ L) as [B1 _]. destruct (ly_ends _ L) as (_ & B2 & B3). pose proof hdr_pages as (Q1 & Q2 & Q3). unfold ld16. case_decide as Eb.
    + subst b. change 2%nat with (length (store16 w)). rewrite (stored_reads _ _ _ _ S) by (cbn [length store16]; lia). cbn [option_map].
      rewrite <- (app_nil_r (store16 w)). by rewrite store16_load.
    + destruct (ly_counters _ L a b Hc Hb) as [-> | Ap]; [done |]. rewrite (stored_ld v a (store16 w) m' S); [by apply (hi_counter _ _ _ _ _ H) | done | lia | exact Ap].
Qed.

Lemma store_count R C D v i s n w : holds_image I R C D v -> i_secs I !! i = Some s -> R !! i = Some n -> is_u32 w ->
  exists v', set_SectionRefCount (s_hdr s) w v = Some (Done tt, v') /\ holds_image I (<[i := w]> R) C D v' /\
    elsewhere v v' /\ same_tables (mem v) (mem v').
Proof using L.
  intros H Hi Hn Hw. destruct (sec_header i s Hi) as [A1 A2].
  assert (L4 : length (store32 w) = 4%nat) by done.
  destruct (store_header R C D v (s_hdr s + 24) (store32 w) H ltac:(lia) ltac:(lia) (store32_bytes w)) as (m' & E & S & El); [intros x Hx (_ & Hs & _); apply (Hs s (sec_in i s Hi)); lia |]. exists (with_mem m' v).
  unfold set_SectionRefCount, wr. rewrite (at_field i s Hi) by lia. rewrite E.
  split; [done |]. split; [| split; [done | apply S]]. apply (stored_holds R C D v (s_hdr s + 24) (store32 w) H ltac:(lia) ltac:(lia) m' S); [rewrite length_insert; apply H | |].
  - intros j t k Hj Hk. destruct (decide (i = j)) as [<- | Hne].
    + rewrite Hi in Hj. injection Hj as <-. rewrite list_lookup_insert_eq in Hk by (by apply lookup_lt_Some in Hn). injection Hk as <-. destruct (hi_header _ _ _ _ _ H i s n Hi Hn) as [F1 F2 F3 F4 F5 F6 F7 F8].
      destruct (ly_base _ L) as [B1 _]. destruct (ly_ends _ L) as (_ & B2 & B3). pose proof hdr_pages as (Q1 & Q2 & Q3).
      constructor; try (unfold ld32; rewrite (stored_ld v (s_hdr s + 24) (store32 w) m' S); [done | lia | lia | unfold apart; rewrite L4; lia]).
      unfold ld32. change 4%nat with (length (store32 w)). rewrite (stored_reads _ _ _ _ S) by lia. cbn [option_map]. rewrite <- (app_nil_r (store32 w)). by rewrite load_store.
    + rewrite list_lookup_insert_ne in Hk by done. destruct (hi_header _ _ _ _ _ H j t k Hj Hk) as [F1 F2 F3 F4 F5 F6 F7 F8]. pose proof (ly_headers _ L i j s t Hne Hi Hj) as Ap. destruct (sec_header j t Hj) as [H1 H2].
      unfold apart in Ap. constructor; (unfold ld32; rewrite (stored_ld v (s_hdr s + 24) (store32 w) m' S); [done | lia | lia | unfold apart; rewrite L4; lia]).
  - intros b Hb. destruct (ly_counter _ L b Hb) as [D1 D2]. pose proof (ly_mixed _ L b s Hb (sec_in i s Hi)) as Ap. unfold apart in Ap.
    unfold ld16. rewrite (stored_ld v (s_hdr s + 24) (store32 w) m' S); [by apply (hi_counter _ _ _ _ _ H) | done | lia | unfold apart; rewrite L4; lia].
Qed.

Lemma bump_run R C D v a d : holds_image I R C D v -> counters_of I a ->
  exists v', bump a d v = Some (Done (u16 (C a + d)), v') /\ holds_image I R (fun x => if decide (x = a) then u16 (C a + d) else C x) D v' /\
    elsewhere v v' /\ same_tables (mem v) (mem v').
Proof using L.
  intros H Hc. destruct (store_counter R C D v a (u16 (C a + d)) H Hc) as (v' & E & R'); [unfold u16; apply Z.mod_pos_bound; lia |].
  exists v'. split; [| done]. unfold bump. rewrite (bind_done _ _ v (C a) v) by (apply rd16_run; by apply (hi_counter _ _ _ _ _ H)). by rewrite (bind_done _ _ v tt v' E).
Qed.

(** *** Counting *)

Lemma holds_ext R C C' D v : (forall a, counters_of I a -> C a = C' a) -> holds_image I R C D v -> holds_image I R C' D v.
Proof. intros E H. constructor; try apply H. intros a Ha. rewrite <- E by done. by apply (hi_counter _ _ _ _ _ H). Qed.

Lemma tail_test i s : i_secs I !! i = Some s -> s_vs s <> 0 ->
  page_of (s_va s) = 4096 * head_page s /\ page_of (sub32 (add32 (s_va s) (s_vs s)) 1) = 4096 * tail_page s.
Proof using L.
  intros Hi Hv. pose proof (sec_body i s Hi Hv) as (B1 & B2 & B3 & B4 & B5). unfold NXV_LOWEST, NXV_HIGHEST in *.
  rewrite add32_id, sub32_id by lia. split; apply page_of_div; lia.
Qed.

Lemma u16_add a b : u16 (u16 a + b) = u16 (a + b).
Proof. unfold u16. by rewrite Zplus_mod_idemp_l. Qed.

(** One reference more or less in the counters of a section. *)
Definition counted_by (d : Z) (s : sec) (C : Z -> Z) (a : Z) : Z := if s_vs s =? 0 then C a else u16 (C a + d * use s a).

Lemma counter_range R C D v a : holds_image I R C D v -> counters_of I a -> 0 <= C a < 2 ^ 16.
Proof using L.
  intros H Ha. pose proof (hi_counter _ _ _ _ _ H a Ha) as E. destruct (ly_counter _ L a Ha) as [A1 A2]. destruct (ly_base _ L) as [B1 _]. destruct (ly_ends _ L) as (_ & B2 & B3).
  pose proof hdr_pages as (Q1 & Q2 & Q3). unfold ld16 in E. destruct (ld_bytes 2 (mem v) a) as [l |] eqn:El; [| done]. injection E as <-.
  apply load16_range. pose proof El as [Hl Hx]%ld_bytes_iff; [| lia | lia]. apply list.Forall_forall. intros b Hb. apply list_elem_of_lookup in Hb as [j Hj].
  pose proof (lookup_lt_Some _ _ _ Hj) as Hlt. apply (ld8_u8 (mem v) ∅ (a + Z.of_nat j)); [apply H | unfold title_addr; lia |]. rewrite Hx by lia.
  f_equal. replace (Z.to_nat (a + Z.of_nat j - a)) with j by lia. by rewrite nth_lookup, Hj.
Qed.

Lemma counted_once d s (C : Z -> Z) a : s_vs s <> 0 -> tail_page s = head_page s -> 0 <= C a < 2 ^ 16 ->
  (if decide (a = s_head s) then u16 (C (s_head s) + d) else C a) = counted_by d s C a.
Proof.
  intros Hv Ep Hr. unfold counted_by, use. rewrite (proj2 (Z.eqb_neq _ 0) Hv), (proj2 (Z.eqb_eq _ _) Ep). case_decide as Ea.
  - subst a. rewrite Z.eqb_refl. f_equal. lia.
  - rewrite (proj2 (Z.eqb_neq _ a)) by congruence. replace (C a + d * (0 + 0)) with (C a) by lia. unfold u16. by rewrite Z.mod_small.
Qed.

Lemma counted_twice d s (C : Z -> Z) a : s_vs s <> 0 -> tail_page s <> head_page s -> 0 <= C a < 2 ^ 16 ->
  (if decide (a = s_tail s) then u16 ((if decide (s_tail s = s_head s) then u16 (C (s_head s) + d) else C (s_tail s)) + d)
   else if decide (a = s_head s) then u16 (C (s_head s) + d) else C a) = counted_by d s C a.
Proof.
  intros Hv Ep Hr. unfold counted_by, use. rewrite (proj2 (Z.eqb_neq _ 0) Hv), (proj2 (Z.eqb_neq _ _) Ep). assert (Sm : u16 (C a) = C a) by (unfold u16; by apply Z.mod_small).
  repeat case_decide; rewrite ?u16_add; destruct (Z.eqb_spec (s_head s) a) as [Ea | Ea], (Z.eqb_spec (s_tail s) a) as [Eb | Eb];
    try congruence; rewrite ?Ea, ?Eb; (f_equal; lia) || (replace (C a + d * (0 + 0)) with (C a) by lia; done).
Qed.

Lemma bump_both R C D v i s n : holds_image I R C D v -> i_secs I !! i = Some s -> R !! i = Some n -> s_vs s <> 0 ->
  exists v', (head ← HeadSharedRefCountAddr (s_hdr s);
      bump head 1;;
      va ← VirtualAddr (s_hdr s);
      vs ← VirtualSize (s_hdr s);
      (if negb (page_of (sub32 (add32 va vs) 1) =? page_of va) then tail ← TailSharedRefCountAddr (s_hdr s); bump tail 1;; mret tt else mret tt);;
      mret STATUS_SUCCESS) v = Some (Done STATUS_SUCCESS, v') /\
    holds_image I R (counted_by 1 s C) D v' /\ elsewhere v v' /\ same_tables (mem v) (mem v').
Proof using L.
  intros H Hi Hn Hv. destruct (sec_counters i s Hi) as [Ch Ct]. destruct (tail_test i s Hi Hv) as [Eh Et].
  rewrite (bind_done _ _ v (s_head s) v (run_head R C D v H i s n Hi Hn)). destruct (bump_run R C D v (s_head s) 1 H Ch) as (v1 & E1 & H1 & W1 & S1).
  rewrite (bind_done _ _ v _ v1 E1), (bind_done _ _ v1 _ v1 (run_va _ _ _ v1 H1 i s n Hi Hn)), (bind_done _ _ v1 _ v1 (run_vs _ _ _ v1 H1 i s n Hi Hn)).
  rewrite Eh, Et. assert (Ez : (4096 * tail_page s =? 4096 * head_page s) = (tail_page s =? head_page s)) by (destruct (Z.eqb_spec (tail_page s) (head_page s)); [apply Z.eqb_eq | apply Z.eqb_neq]; lia).
  rewrite Ez. destruct (Z.eqb_spec (tail_page s) (head_page s)) as [Ep | Ep]; cbn [negb].
  - exists v1. split; [done |]. split; [| done]. revert H1. apply holds_ext. intros a Ha. apply counted_once; [done | done |]. by apply (counter_range R C D v).
  - destruct (bump_run R _ D v1 (s_tail s) 1 H1 Ct) as (v2 & E2 & H2 & W2 & S2). exists v2. split.
    { unfold mbind at 1, X_bind at 1. rewrite (bind_done _ _ v1 _ v1 (run_tail _ _ _ v1 H1 i s n Hi Hn)), (bind_done _ _ v1 _ v2 E2). done. }
    split; [| split; by etransitivity]. revert H2. apply holds_ext. intros a Ha. apply counted_twice; [done | done |]. by apply (counter_range R C D v).
Qed.

(** *** Load *)

(** What the file holds for a section: its raw data, then zeros. *)
Definition content (file : list Z) (s : sec) : list Z :=
  take (Z.to_nat (s_rs s)) (drop (Z.to_nat (s_raw s)) file) ++ replicate (Z.to_nat (s_vs s - s_rs s)) 0.

Lemma two_stores m m1 m2 a d z : stored m m1 a d -> stored m1 m2 (a + Z.of_nat (length d)) z -> NXV_LOWEST <= a ->
  a + Z.of_nat (length d + length z) <= NXV_HIGHEST -> ld_bytes (length d + length z) m2 a = Some (d ++ z).
Proof.
  intros S1 S2 H1 H2. apply ld_bytes_iff; [done | done |]. split; [apply length_app |]. intros x Hx. assert (Tx : title_addr x) by (unfold title_addr; lia).
  rewrite (sd_view _ _ _ _ S2 x Tx), (sd_view _ _ _ _ S1 x Tx). case_decide as E.
  - rewrite app_nth2 by lia. do 2 f_equal. lia.
  - rewrite decide_True by lia. rewrite app_nth1 by lia. done.
Qed.

(** A load succeeds where the frames suffice for its pages and the file is
    read, and leaves a window stocked that was so. *)
Definition loads_if_stocked (s : sec) (io : reader) (v v' : vm) (st : Z) : Prop :=
  forall LO HI, 0x10 <= LO -> HI <= 0x7FFE0 -> (s_vs s <> 0 -> LO <= head_page s /\ tail_page s < HI) -> stocked (mem v) LO HI ->
    (s_rs s <> 0 -> NT_SUCCESS (fst (io (s_raw s) (s_rs s))) = true) -> st = STATUS_SUCCESS /\ stocked (mem v') LO HI.

Section load.
Context (file : list Z) (io : reader).
Hypothesis Hio : serves file io.
Context (R : list Z) (C : Z -> Z) (D : list (option (list Z))) (i : nat) (s : sec) (n : Z).
Hypothesis Hi : i_secs I !! i = Some s.
Hypothesis Hn : R !! i = Some n.
Hypothesis Hd : D !! i = Some None.
Hypothesis Hf : s_raw s + s_rs s <= Z.of_nat (length file).

Lemma raw_length : s_vs s <> 0 -> Z.of_nat (length (take (Z.to_nat (s_rs s)) (drop (Z.to_nat (s_raw s)) file))) = s_rs s.
Proof using L Hi Hf. intros Hv. pose proof (sec_body i s Hi Hv) as (B1 & B2 & B3 & _). rewrite length_take, length_drop. lia. Qed.

(** The read of the raw data. *)
Lemma read_raw v : holds_image I R C D v -> s_vs s <> 0 -> (forall k, spans s k -> k ∈ cset (mem v)) ->
  exists st v', (if negb (s_rs s =? 0) then off ← RawAddr (s_hdr s); va ← VirtualAddr (s_hdr s); rs ← SizeOfRaw (s_hdr s); ZwReadFile io va rs off
      else mret STATUS_SUCCESS) v = Some (Done st, v') /\ holds_image I R C D v' /\ elsewhere v v' /\ same_tables (mem v) (mem v') /\
    (if NT_SUCCESS st then stored (mem v) (mem v') (s_va s) (take (Z.to_nat (s_rs s)) (drop (Z.to_nat (s_raw s)) file))
     else s_rs s <> 0 /\ st = fst (io (s_raw s) (s_rs s))).
Proof using L Hi Hn Hd Hio.
  intros H Hv Hc. pose proof (sec_body i s Hi Hv) as (B1 & B2 & B3 & B4 & B5). destruct (Z.eqb_spec (s_rs s) 0) as [E0 | E0]; cbn [negb].
  { exists STATUS_SUCCESS, v. split; [done |]. split; [done |]. split; [done |]. split; [done |]. change (NT_SUCCESS STATUS_SUCCESS) with true.
    rewrite E0. apply stored_nil, H. }
  rewrite (bind_done _ _ v _ v (run_raw R C D v H i s n Hi Hn)), (bind_done _ _ v _ v (run_va R C D v H i s n Hi Hn)), (bind_done _ _ v _ v (run_rs R C D v H i s n Hi Hn)).
  unfold ZwReadFile. set (d := snd (io (s_raw s) (s_rs s))). assert (Hl : Z.of_nat (length d) <= s_rs s) by (apply (sv_len _ _ Hio); lia).
  destruct (store_body R C D v i s 0 d H Hi Hv Hd Hc) as (m' & E & S & H' & W'); [apply (sv_bytes _ _ Hio) | lia | lia |]. rewrite Z.add_0_r in E, S.
  exists (fst (io (s_raw s) (s_rs s))), (with_mem m' v). split; [rewrite (bind_done _ _ v tt (with_mem m' v)) by (unfold wr; by rewrite E); done |].
  split; [done |]. split; [done |]. split; [apply S |]. destruct (NT_SUCCESS _) eqn:En; [| done].
  rewrite <- (sv_data _ _ Hio (s_raw s) (s_rs s)) by (done || lia). exact S.
Qed.

(** The zeros after it. *)
Lemma clear_rest v : holds_image I R C D v -> s_vs s <> 0 -> (forall k, spans s k -> k ∈ cset (mem v)) ->
  exists v', (if s_rs s <? s_vs s then wr (replicate (Z.to_nat (s_vs s - s_rs s)) 0) (add32 (s_va s) (s_rs s)) else mret tt) v = Some (Done tt, v') /\
    holds_image I R C D v' /\ elsewhere v v' /\ same_tables (mem v) (mem v') /\ stored (mem v) (mem v') (s_va s + s_rs s) (replicate (Z.to_nat (s_vs s - s_rs s)) 0).
Proof using L Hi Hd file.
  intros H Hv Hc. pose proof (sec_body i s Hi Hv) as (B1 & B2 & B3 & B4 & B5). unfold NXV_LOWEST, NXV_HIGHEST in *. destruct (Z.ltb_spec (s_rs s) (s_vs s)) as [Hl | Hl].
  - destruct (store_body R C D v i s (s_rs s) (replicate (Z.to_nat (s_vs s - s_rs s)) 0) H Hi Hv Hd Hc (bytes_zero _)) as (m' & E & S & H' & W'); [lia | rewrite length_replicate; lia |].
    exists (with_mem m' v). unfold wr. rewrite add32_id, E by lia. split; [done |]. split; [done |]. split; [done |]. split; [apply S | done].
  - exists v. split; [done |]. split; [done |]. split; [done |]. split; [done |]. replace (Z.to_nat (s_vs s - s_rs s)) with 0%nat by lia. apply stored_nil, H.
Qed.

Lemma load_data node v : holds_image I R C D v ->
  exists st v', XepLoadSectionData node io (s_hdr s) v = Some (Done st, v') /\ elsewhere v v' /\ loads_if_stocked s io v v' st /\
    if NT_SUCCESS st then st = STATUS_SUCCESS /\ holds_image I R (counted_by 1 s C) (<[i := Some (content file s)]> D) v' /\
      forall k, k ∈ cset (mem v') <-> k ∈ cset (mem v) \/ spans s k
    else holds_image I R C D v' /\
      ((st = STATUS_NO_MEMORY /\ cset (mem v') = cset (mem v)) \/
       (s_rs s <> 0 /\ st = fst (io (s_raw s) (s_rs s)) /\ forall k, k ∈ cset (mem v') <-> k ∈ cset (mem v) \/ spans s k)).
Proof using L Hi Hn Hd Hio Hf.
  intros H. unfold XepLoadSectionData. rewrite (bind_done _ _ v _ v (run_vs R C D v H i s n Hi Hn)). destruct (Z.eqb_spec (s_vs s) 0) as [E0 | Hv].
  { exists STATUS_SUCCESS, v. split; [done |]. split; [done |]. split; [done |]. change (NT_SUCCESS STATUS_SUCCESS) with true. split; [done |]. split.
    - apply (holds_ext R C); [intros a _; unfold counted_by; by rewrite E0 |]. by apply (holds_learn R C D v i s).
    - intros k. unfold spans. rewrite E0. tauto. }
  rewrite (bind_done _ _ v _ v (run_va R C D v H i s n Hi Hn)). destruct (commit_section R C D v node i s H Hi Hv) as (st1 & out & v1 & E1 & H1 & W1 & HS & Hst).
  rewrite (bind_done _ _ v _ v1 E1). cbn [fst]. destruct HS as [[-> Hc] | [-> Hc]].
  2: { change (negb (NT_SUCCESS STATUS_NO_MEMORY)) with true. exists STATUS_NO_MEMORY, v1. split; [done |]. split; [done |].
       split; [intros LO HI L1 L2 Hr St _; destruct (Hr Hv); by apply Hst |].
       change (NT_SUCCESS STATUS_NO_MEMORY) with false. split; [done |]. by left. }
  change (negb (NT_SUCCESS STATUS_SUCCESS)) with false. cbv iota. rewrite (bind_done _ _ v1 _ v1 (run_rs R C D v1 H1 i s n Hi Hn)).
  assert (Hc1 : forall k, spans s k -> k ∈ cset (mem v1)) by (intros k Hk; apply Hc; by right).
  destruct (read_raw v1 H1 Hv Hc1) as (st2 & v2 & E2 & H2 & W2 & T2 & HS2). pose proof (same_cset _ _ T2) as Ec2. rewrite (bind_done _ _ v1 _ v2 E2). destruct (NT_SUCCESS st2) eqn:En; cbn [negb].
  2: { exists st2, v2. split; [done |]. split; [by etransitivity |]. destruct HS2 as [Hz ->]. split; [intros ? ? _ _ _ _ Hok; by rewrite (Hok Hz) in En |]. rewrite En. split; [done |]. right. split; [done |]. split; [done |]. by rewrite Ec2. }
  rewrite (bind_done _ _ v2 _ v2 (run_vs R C D v2 H2 i s n Hi Hn)), (bind_done _ _ v2 _ v2 (run_rs R C D v2 H2 i s n Hi Hn)), (bind_done _ _ v2 _ v2 (run_va R C D v2 H2 i s n Hi Hn)).
  destruct (clear_rest v2 H2 Hv ltac:(by rewrite Ec2)) as (v3 & E3 & H3 & W3 & T3 & S3). pose proof (same_cset _ _ T3) as Ec3. rewrite (bind_done _ _ v2 _ v3 E3).
  assert (Hb : ld_bytes (Z.to_nat (s_vs s)) (mem v3) (s_va s) = Some (content file s)).
  { pose proof (raw_length Hv) as Hr. pose proof (sec_body i s Hi Hv) as (B1 & B2 & B3 & B4 & B5). rewrite <- Hr in S3 at 1.
    assert (El : (length (take (Z.to_nat (s_rs s)) (drop (Z.to_nat (s_raw s)) file)) + length (replicate (Z.to_nat (s_vs s - s_rs s)) 0%Z) = Z.to_nat (s_vs s))%nat) by (rewrite length_replicate; lia).
    rewrite <- El. unfold content. apply (two_stores (mem v1) (mem v2)); [done | done | lia | rewrite El; lia]. }
  pose proof (holds_learn R C D v3 i s (content file s) H3 Hi (fun _ => Hb)) as H4.
  destruct (bump_both R C _ v3 i s n H4 Hi Hn Hv) as (v4 & E4 & H5 & W4 & T4). pose proof (same_cset _ _ T4) as Ec4. exists STATUS_SUCCESS, v4. split; [done |].
  split; [by do 3 (etransitivity; [eassumption |]) |]. split.
  { intros LO HI L1 L2 Hr St _. destruct (Hr Hv). split; [done |]. do 3 (eapply same_stocked; [eassumption |]). by apply Hst. } change (NT_SUCCESS STATUS_SUCCESS) with true. split; [done |]. split; [done |].
  intros k. by rewrite Ec4, Ec3, Ec2.
Qed.

End load.

(** *** Unload *)

Lemma add_page k : 0 <= k < 0x80000 -> add32 (4096 * k) PAGE_SIZE = 4096 * (k + 1).
Proof. intros Hk. unfold PAGE_SIZE. rewrite add32_id; lia. Qed.

(** The pages that go: those inside, and an edge whose counter is 0. *)
Definition gone (s : sec) (c1 c2 : Z) (k : Z) : Prop :=
  spans s k /\ (k = head_page s -> c1 = 0) /\ (k = tail_page s -> k <> head_page s -> c2 = 0).

Section unload.
Context (R : list Z) (D : list (option (list Z))) (i : nat) (s : sec) (n : Z).
Hypothesis Hi : i_secs I !! i = Some s.
Hypothesis Hn : R !! i = Some n.
Hypothesis Hv : s_vs s <> 0.

(** No loaded section has part of page [k]. *)
Definition unshared (k : Z) : Prop := forall j t d, i_secs I !! j = Some t -> D !! j = Some (Some d) -> ~ spans t k.

Lemma drop_edge C v node a k : holds_image I R C D v -> counters_of I a -> hdr_page I <= k < hi -> (u16 (C a + -1) = 0 -> unshared k) ->
  exists v', release_page node a (4096 * k) v = Some (Done tt, v') /\
    holds_image I R (fun x => if decide (x = a) then u16 (C a + -1) else C x) D v' /\ elsewhere v v' /\
    forall j, j ∈ cset (mem v') <-> j ∈ cset (mem v) /\ ~ (j = k /\ u16 (C a + -1) = 0).
Proof using L.
  intros H Ha Hk Hu. unfold release_page. destruct (bump_run R C D v a (-1) H Ha) as (v1 & E1 & H1 & W1 & S1%same_cset). rewrite (bind_done _ _ v _ v1 E1).
  destruct (Z.eqb_spec (u16 (C a + -1)) 0) as [E0 | E0].
  - destruct (ly_ends _ L) as (_ & Q & B3). pose proof hdr_pages as (Q1 & Q2 & Q3). unfold NXV_HIGHEST in *.
    assert (Hh : hi <= 0x7FFE0) by (unfold hi, end_page; pose proof (div_page (i_end I + 0 + 4095)); lia).
    pose proof base_page. destruct (ly_base _ L) as [B1 _]. unfold NXV_LOWEST in B1. rewrite add_page by lia.
    destruct (decommit_section R _ D v1 node k (k + 1) H1 ltac:(lia) ltac:(lia)) as (v2 & E2 & H2 & W2 & S2).
    { intros j t d m Hj Hd Hs Hm. assert (m = k) as -> by lia. by apply (Hu E0 j t d). }
    exists v2. split; [done |]. split; [done |]. split; [by etransitivity |]. intros j. rewrite S2, S1. intuition lia.
  - exists v1. split; [done |]. split; [done |]. split; [done |]. intros j. rewrite S1. intuition.
Qed.

Lemma drop_pages_run C v node : holds_image I R C D v -> D !! i = Some None ->
  let c1 := u16 (C (s_head s) + -1) in
  let c2 := u16 ((if decide (s_tail s = s_head s) then c1 else C (s_tail s)) + -1) in
  (c1 = 0 -> unshared (head_page s)) -> (tail_page s <> head_page s -> c2 = 0 -> unshared (tail_page s)) ->
  exists v', drop_pages node (s_hdr s) v = Some (Done tt, v') /\ holds_image I R (counted_by (-1) s C) D v' /\ elsewhere v v' /\
    forall k, k ∈ cset (mem v') <-> k ∈ cset (mem v) /\ ~ gone s c1 c2 k.
Proof using L Hi Hn Hv.
  intros H Hd c1 c2 U1 U2. destruct (sec_counters i s Hi) as [Ch Ct]. destruct (tail_test i s Hi Hv) as [Eh Et]. destruct (body_pages i s Hi Hv) as (P1 & P2 & _).
  unfold drop_pages. rewrite (bind_done _ _ v _ v (run_va R C D v H i s n Hi Hn)), (bind_done _ _ v _ v (run_vs R C D v H i s n Hi Hn)), (bind_done _ _ v _ v (run_head R C D v H i s n Hi Hn)).
  cbv zeta. rewrite Eh, Et. destruct (drop_edge C v node (s_head s) (head_page s) H Ch ltac:(lia) U1) as (v1 & E1 & H1 & W1 & S1). rewrite (bind_done _ _ v _ v1 E1). fold c1 in H1, S1.
  assert (Ez : (4096 * tail_page s =? 4096 * head_page s) = (tail_page s =? head_page s)) by (destruct (Z.eqb_spec (tail_page s) (head_page s)); [apply Z.eqb_eq | apply Z.eqb_neq]; lia).
  destruct (ly_ends _ L) as (_ & Q & B3). pose proof hdr_pages as (Q1 & Q2 & Q3). pose proof base_page. destruct (ly_base _ L) as [B1 _]. unfold NXV_LOWEST, NXV_HIGHEST in *.
  assert (Hh : hi <= 0x7FFE0) by (unfold hi, end_page; pose proof (div_page (i_end I + 0 + 4095)); lia).
  assert (T : exists C2 v2, (if negb (4096 * tail_page s =? 4096 * head_page s) then tail ← TailSharedRefCountAddr (s_hdr s); release_page node tail (4096 * tail_page s) else mret tt) v1 = Some (Done tt, v2) /\
    holds_image I R C2 D v2 /\ elsewhere v1 v2 /\ (forall j, j ∈ cset (mem v2) <-> j ∈ cset (mem v1) /\ ~ (j = tail_page s /\ tail_page s <> head_page s /\ c2 = 0)) /\
    forall a, counters_of I a -> C2 a = counted_by (-1) s C a).
  { rewrite Ez. destruct (Z.eqb_spec (tail_page s) (head_page s)) as [Ep | Ep]; cbn [negb].
    - eexists _, v1. split; [done |]. split; [exact H1 |]. split; [done |]. split; [intros j; split; [intros; split; [done | lia] | by intros [? _]] |].
      intros a Ha. apply counted_once; [done | done |]. by apply (counter_range R C D v).
    - rewrite (bind_done _ _ v1 _ v1 (run_tail R _ D v1 H1 i s n Hi Hn)).
      destruct (drop_edge _ v1 node (s_tail s) (tail_page s) H1 Ct ltac:(lia) (U2 Ep)) as (v2 & E2 & H2 & W2 & S2). eexists _, v2. split; [exact E2 |]. split; [exact H2 |]. split; [done |].
      split; [intros j; rewrite S2; fold c2; clear -Ep; tauto |]. intros a Ha. apply counted_twice; [done | done |]. by apply (counter_range R C D v). }
  destruct T as (C2 & v2 & E2 & H2 & W2 & S2 & EC). rewrite (bind_done _ _ v1 _ v2 E2). rewrite add_page by lia.
  destruct (decommit_section R C2 D v2 node (head_page s + 1) (tail_page s) H2 ltac:(lia) ltac:(lia)) as (v3 & E3 & H3 & W3 & S3).
  { intros j t d k Hj Hdj Hs Hk. assert (Hne : j <> i) by (intros ->; congruence).
    destruct (shared_edge i j s t k (not_eq_sym Hne) Hi Hj ltac:(split; [done | lia]) Hs); lia. }
  exists v3. split; [done |]. split; [by apply (holds_ext R C2) |]. split; [etransitivity; [exact W1 |]; by etransitivity |].
  intros k. rewrite S3, S2, S1.
  assert (G : ~ gone s c1 c2 k <-> ~ (k = head_page s /\ c1 = 0) /\ ~ (k = tail_page s /\ tail_page s <> head_page s /\ c2 = 0) /\ ~ (head_page s + 1 <= k < tail_page s)).
  { unfold gone, spans. clear -Hv P1. clearbody c1 c2. lia. }
  rewrite G. tauto.
Qed.

End unload.

End image.

(** ** Sums of uses *)

Lemma use_range s a : 0 <= use s a <= 2.
Proof. unfold use. repeat case_match; lia. Qed.

(** A section counts in the counters of its edges. *)
Lemma use_edge s a : 0 < use s a <-> exists k, edge s k /\ counter s k = a.
Proof.
  unfold use, edge, counter. destruct (Z.eqb_spec (s_vs s) 0) as [E0 | E0]; [split; [lia | intros (k & [? _] & _); lia] |]. split.
  - intros Hp. destruct (Z.eqb_spec (s_head s) a) as [<- | Eh]; [exists (head_page s); split; [auto | by rewrite decide_True] |].
    destruct (Z.eqb_spec (tail_page s) (head_page s)) as [Ep | Ep]; [lia |]. destruct (Z.eqb_spec (s_tail s) a) as [<- | Et]; [| lia].
    exists (tail_page s). split; [auto | by rewrite decide_False].
  - intros (k & [_ Hk] & <-). case_decide as Ek; [rewrite Z.eqb_refl; repeat case_match; lia |]. destruct Hk as [? | ->]; [done |].
    rewrite (proj2 (Z.eqb_neq _ _) Ek), Z.eqb_refl. repeat case_match; lia.
Qed.

Lemma own_uses s : s_vs s <> 0 -> use s (s_head s) = (if decide (tail_page s = head_page s) then 1 else if decide (s_tail s = s_head s) then 2 else 1) /\
  (tail_page s <> head_page s -> use s (s_tail s) = if decide (s_tail s = s_head s) then 2 else 1).
Proof.
  intros Hv. unfold use. rewrite (proj2 (Z.eqb_neq _ 0) Hv), Z.eqb_refl. split.
  - destruct (Z.eqb_spec (tail_page s) (head_page s)); destruct (Z.eqb_spec (s_tail s) (s_head s)); repeat case_decide; try done; lia.
  - intros Hp. rewrite (proj2 (Z.eqb_neq _ _) Hp), Z.eqb_refl. destruct (Z.eqb_spec (s_head s) (s_tail s)); case_decide; try done; congruence.
Qed.

Definition worth {A} (s : sec) (d : option A) (a : Z) : Z := match d with Some _ => use s a | None => 0 end.

Lemma worth_range {A} s (d : option A) a : 0 <= worth s d a <= 2.
Proof. destruct d; cbn [worth]; [apply use_range | lia]. Qed.

Lemma uses_cons {A} s l (d : option A) D a : uses (s :: l) (d :: D) a = worth s d a + uses l D a.
Proof. done. Qed.

Lemma uses_range {A} l : forall (D : list (option A)) a, 0 <= uses l D a <= 2 * Z.of_nat (length l).
Proof.
  induction l as [| s l IH]; intros [| d D] a; [cbn; lia | cbn; lia | cbn [length uses]; lia |]. rewrite uses_cons. cbn [length].
  pose proof (worth_range s d a). pose proof (IH D a). lia.
Qed.

Lemma uses_insert {A} l : forall i s (d d' : option A) D a, l !! i = Some s -> D !! i = Some d ->
  uses l (<[i := d']> D) a = uses l D a - worth s d a + worth s d' a.
Proof.
  induction l as [| t l IH]; intros [| i] s d d' [| e D] a Hl HD; try done.
  - cbn in Hl, HD. injection Hl as ->. injection HD as ->. change (<[0%nat := d']> (d :: D)) with (d' :: D). rewrite !uses_cons. lia.
  - change (<[S i := d']> (e :: D)) with (e :: <[i := d']> D). rewrite !uses_cons, (IH i s d d' D a) by done. lia.
Qed.

Lemma uses_none {A} l : forall (D : list (option A)) a,
  (forall i s x, l !! i = Some s -> D !! i = Some (Some x) -> use s a = 0) -> uses l D a = 0.
Proof.
  induction l as [| s l IH]; intros [| d D] a H; try done. rewrite uses_cons, IH by (intros i; apply (H (S i))).
  destruct d as [x |]; [| done]. cbn [worth]. by rewrite (H 0%nat s x).
Qed.

(** Two loaded sections count both. *)
Lemma uses_two {A} l i j s t (x y : A) D a : i <> j -> l !! i = Some s -> l !! j = Some t -> D !! i = Some (Some x) -> D !! j = Some (Some y) ->
  use s a + use t a <= uses l D a.
Proof.
  intros Hn Hi Hj Dx Dy. pose proof (uses_insert l i s (Some x) None D a Hi Dx) as E1.
  assert (Dy' : <[i := None]> D !! j = Some (Some y)) by (by rewrite list_lookup_insert_ne).
  pose proof (uses_insert l j t (Some y) None _ a Hj Dy') as E2. cbn [worth] in E1, E2. pose proof (uses_range l (<[j := None]> (<[i := None]> D)) a). lia.
Qed.

Lemma uses_one {A} l i s (x : A) D a : l !! i = Some s -> D !! i = Some (Some x) -> use s a <= uses l D a.
Proof.
  intros Hi Dx. pose proof (uses_insert l i s (Some x) None D a Hi Dx) as E1. cbn [worth] in E1. pose proof (uses_range l (<[i := None]> D) a). lia.
Qed.

Lemma uses_fmap {A B} (f : A -> B) l : forall D a, uses l (option_map f <$> D) a = uses l D a.
Proof. induction l as [| s l IH]; intros [| [x |] D] a; try done; cbn; by rewrite IH. Qed.

(** ** Calls on an image *)

Definition counts (A : list (option load)) : list Z := (fun o => match o with Some l => refs l | None => 0 end) <$> A.
Definition bodies (A : list (option load)) : list (option (list Z)) := option_map body <$> A.

Record image_holds (I : image) (A : list (option load)) (v : vm) : Prop := {
  ih_mem : holds_image I (counts A) (uses (i_secs I) A) (bodies A) v;
  ih_refs : forall i l, A !! i = Some (Some l) -> 0 < refs l < 2 ^ 32
}.

(** The title may also write into a section that is loaded. *)
Inductive call : Type :=
  | CLoad (i : nat) (io : reader)
  | CUnload (i : nat)
  | CStore (i : nat) (o : Z) (l : list Z).

Definition run_call (node : bool) (I : image) (c : call) : X Z :=
  match c with
  | CLoad i io => match i_secs I !! i with Some s => XeLoadSection node io (s_hdr s) | None => mret 0 end
  | CUnload i => match i_secs I !! i with Some s => XeUnloadSection node (s_hdr s) | None => mret 0 end
  | CStore i o l => match i_secs I !! i with Some s => wr l (add32 (s_va s) o);; mret STATUS_SUCCESS | None => mret 0 end
  end.

Definition legal (file : list Z) (I : image) (A : list (option load)) (c : call) : Prop :=
  match c with
  | CLoad i io => exists s, i_secs I !! i = Some s /\ serves file io /\ s_raw s + s_rs s <= Z.of_nat (length file) /\
      forall l, A !! i = Some (Some l) -> refs l + 1 < 2 ^ 32
  | CUnload i => is_Some (i_secs I !! i)
  | CStore i o l => exists s ld, i_secs I !! i = Some s /\ A !! i = Some (Some ld) /\ s_vs s <> 0 /\ bytes l /\ 0 <= o /\ o + Z.of_nat (length l) <= s_vs s
  end.

(** What a call does to the abstract image. *)
Definition abs_call (file : list Z) (I : image) (A : list (option load)) (c : call) (status : Z) (A' : list (option load)) : Prop :=
  match c with
  | CLoad i io =>
      match i_secs I !! i, A !! i with
      | Some s, Some None =>
          (status = STATUS_SUCCESS /\ A' = <[i := Some (Load 1 (content file s))]> A) \/
          (A' = A /\ (status = STATUS_NO_MEMORY \/ s_rs s <> 0 /\ NT_SUCCESS status = false /\ status = fst (io (s_raw s) (s_rs s))))
      | Some s, Some (Some l) => status = STATUS_SUCCESS /\ A' = <[i := Some (Load (refs l + 1) (body l))]> A
      | _, _ => False
      end
  | CUnload i =>
      match A !! i with
      | Some None => status = STATUS_INVALID_PARAMETER /\ A' = A
      | Some (Some l) => status = STATUS_SUCCESS /\ A' = <[i := if refs l =? 1 then None else Some (Load (refs l - 1) (body l))]> A
      | None => False
      end
  | CStore i o l =>
      match A !! i with
      | Some (Some ld) => A' = <[i := Some (Load (refs ld) (write (body ld) (Z.to_nat o) l))]> A
      | _ => False
      end
  end.

(** Some section of [A] has part of page [k]. *)
Definition in_use (I : image) (A : list (option load)) (k : Z) : Prop := exists i s l, i_secs I !! i = Some s /\ A !! i = Some (Some l) /\ spans s k.

(** What it does to the committed pages: a load commits those of its section,
    and keeps them when the read fails; the last unload gives up its pages,
    with counters of their own exactly those that no loaded section uses. *)
Definition pages_after (I : image) (A A' : list (option load)) (c : call) (status : Z) (old new : gset Z) : Prop :=
  match c with
  | CLoad i _ =>
      match i_secs I !! i, A !! i with
      | Some s, Some None => if status =? STATUS_NO_MEMORY then new = old \/ forall k, k ∈ new <-> k ∈ old \/ spans s k else forall k, k ∈ new <-> k ∈ old \/ spans s k
      | _, _ => new = old
      end
  | CUnload i =>
      match i_secs I !! i, A !! i with
      | Some s, Some (Some l) =>
          if refs l =? 1 then (forall k, k ∈ new -> k ∈ old) /\ (forall k, k ∈ old -> k ∉ new -> spans s k) /\
            (own_counters I -> forall k, k ∈ new <-> k ∈ old /\ ~ (spans s k /\ ~ in_use I A' k))
          else new = old
      | _, _ => new = old
      end
  | CStore _ _ _ => new = old
  end.

(** A load that has what it needs: frames for its section's pages and a file
    that is read. *)
Definition can_load (I : image) (c : call) (v : vm) : Prop :=
  match c with
  | CLoad i io => exists s, i_secs I !! i = Some s /\ (s_vs s <> 0 -> stocked (mem v) (head_page s) (tail_page s + 1)) /\
      (s_rs s <> 0 -> NT_SUCCESS (fst (io (s_raw s) (s_rs s))) = true)
  | _ => False
  end.

Section calls.
Context (I : image) (A : list (option load)) (v : vm) (node : bool).
Hypothesis L : layout I.
Hypothesis H : image_holds I A v.

Lemma counts_at i o : A !! i = Some o -> counts A !! i = Some (match o with Some l => refs l | None => 0 end).
Proof. intros E. unfold counts. by rewrite list_lookup_fmap, E. Qed.

Lemma bodies_at i o : A !! i = Some o -> bodies A !! i = Some (option_map body o).
Proof. intros E. unfold bodies. by rewrite list_lookup_fmap, E. Qed.

Lemma uses_small B a : 0 <= uses (i_secs I) (B : list (option load)) a < 2 ^ 16.
Proof using L. pose proof (uses_range (i_secs I) B a). pose proof (ly_number _ L). lia. Qed.

Lemma is_loaded i s : i_secs I !! i = Some s -> is_Some (A !! i).
Proof using H.
  intros Hi. apply lookup_lt_is_Some. pose proof (hi_count _ _ _ _ _ (ih_mem _ _ _ H)) as E. unfold counts in E. rewrite length_fmap in E. rewrite E. by apply lookup_lt_Some in Hi.
Qed.

(** One load more or less in the counters. *)
Lemma counted_more i s l a : i_secs I !! i = Some s -> A !! i = Some None ->
  counted_by 1 s (uses (i_secs I) A) a = uses (i_secs I) (<[i := Some l]> A) a.
Proof using L.
  intros Hi Ha. pose proof (uses_small (<[i := Some l]> A) a) as B. rewrite (uses_insert _ i s None) in * by done. cbn [worth] in *.
  unfold counted_by. destruct (Z.eqb_spec (s_vs s) 0) as [E | E].
  - assert (use s a = 0) as -> by (unfold use; by rewrite E). lia.
  - unfold u16. rewrite Z.mod_small; lia.
Qed.

Lemma counted_less i s l a : i_secs I !! i = Some s -> A !! i = Some (Some l) ->
  counted_by (-1) s (uses (i_secs I) A) a = uses (i_secs I) (<[i := None]> A) a.
Proof using L.
  intros Hi Ha. pose proof (uses_small (<[i := None]> A) a) as B. rewrite (uses_insert _ i s (Some l)) in * by done. cbn [worth] in *.
  unfold counted_by. destruct (Z.eqb_spec (s_vs s) 0) as [E | E].
  - assert (use s a = 0) as -> by (unfold use; by rewrite E). lia.
  - unfold u16. rewrite Z.mod_small; lia.
Qed.

Lemma counted_same i s l l' a : i_secs I !! i = Some s -> A !! i = Some (Some l) ->
  uses (i_secs I) A a = uses (i_secs I) (<[i := Some l']> A) a.
Proof. intros Hi Ha. rewrite (uses_insert _ i s (Some l)) by done. cbn [worth]. lia. Qed.

Lemma header_nonzero i s : i_secs I !! i = Some s -> (s_hdr s =? 0) = false.
Proof using L.
  intros Hi. destruct (sec_header I L i s Hi) as [H1 _]. destruct (ly_base _ L) as [B1 _]. unfold NXV_LOWEST in B1. apply Z.eqb_neq. lia.
Qed.

Lemma refs_insert (B : list (option load)) i o : (forall j l, B !! j = Some (Some l) -> 0 < refs l < 2 ^ 32) -> (forall l, o = Some l -> 0 < refs l < 2 ^ 32) ->
  forall j l, <[i := o]> B !! j = Some (Some l) -> 0 < refs l < 2 ^ 32.
Proof.
  intros HB Ho j l Hj. apply list_lookup_insert_Some in Hj as [(-> & E & _) | [_ Hj]]; [by apply Ho | by apply (HB j)].
Qed.

(** The state after a call, from what the memory holds. *)
Lemma image_insert i o R C D v' : holds_image I R C D v' -> R = counts (<[i := o]> A) -> D = bodies (<[i := o]> A) ->
  (forall a, C a = uses (i_secs I) (<[i := o]> A) a) -> (forall l, o = Some l -> 0 < refs l < 2 ^ 32) -> image_holds I (<[i := o]> A) v'.
Proof using H.
  intros Hm -> -> HC Ho. constructor; [| by apply refs_insert; [apply H |]]. revert Hm. apply holds_ext. intros a _. apply HC.
Qed.

Lemma load_call file io i s : i_secs I !! i = Some s -> serves file io -> s_raw s + s_rs s <= Z.of_nat (length file) ->
  (forall l, A !! i = Some (Some l) -> refs l + 1 < 2 ^ 32) ->
  exists st v' A', XeLoadSection node io (s_hdr s) v = Some (Done st, v') /\ abs_call file I A (CLoad i io) st A' /\
    image_holds I A' v' /\ elsewhere I v v' /\ pages_after I A A' (CLoad i io) st (cset (mem v)) (cset (mem v')) /\ loads_if_stocked s io v v' st.
Proof using L H.
  intros Hi Hio Hf Hr. destruct (is_loaded i s Hi) as [o Ho]. pose proof (ih_mem _ _ _ H) as Hm. unfold XeLoadSection. rewrite (header_nonzero i s Hi).
  pose proof (counts_at i o Ho) as Hc. rewrite (bind_done _ _ v _ v (run_count I L _ _ _ v Hm i s _ Hi Hc)). unfold abs_call, pages_after. rewrite Hi, Ho. destruct o as [l |].
  - pose proof (ih_refs _ _ _ H i l Ho) as Rl. rewrite (proj2 (Z.eqb_neq (refs l) 0)) by lia. rewrite (bind_done _ _ v STATUS_SUCCESS v) by done.
    change (NT_SUCCESS STATUS_SUCCESS) with true. cbv iota. pose proof (Hr l Ho) as Rl'.
    destruct (store_count I L _ _ _ v i s _ (add32 (refs l) 1) Hm Hi Hc) as (v' & E & Hm' & W & S); [unfold add32; apply u32_range |].
    exists STATUS_SUCCESS, v', (<[i := Some (Load (refs l + 1) (body l))]> A). split.
    { rewrite (bind_done _ _ v tt v'); [done |]. by rewrite (bind_done _ _ v _ v (run_count I L _ _ _ v Hm i s _ Hi Hc)). }
    split; [done |]. split; [| split; [done |]; split; [by apply same_cset |]; intros LO HI _ _ _ St _; split; [done | by apply (same_stocked (mem v))]]. rewrite add32_id in Hm' by lia.
    eapply image_insert; [exact Hm' | | | intros a; by apply (counted_same i s l) | intros ? [= <-]; cbn [refs]; lia].
    + unfold counts. by rewrite list_fmap_insert.
    + unfold bodies. rewrite list_fmap_insert. cbn [option_map body]. symmetry. apply list_insert_id. by rewrite list_lookup_fmap, Ho.
  - rewrite Z.eqb_refl. destruct (load_data I L file io Hio _ _ _ i s _ Hi Hc (bodies_at i None Ho) Hf node v Hm) as (st & v1 & E & W & Hst & HS).
    rewrite (bind_done _ _ v st v1 E). destruct (NT_SUCCESS st) eqn:En.
    + destruct HS as (-> & Hm1 & S1). destruct (store_count I L _ _ _ v1 i s _ 1 Hm1 Hi Hc) as (v' & E' & Hm' & W' & S'); [unfold is_u32; lia |].
      exists STATUS_SUCCESS, v', (<[i := Some (Load 1 (content file s))]> A). split.
      { rewrite (bind_done _ _ v1 tt v'); [done |]. by rewrite (bind_done _ _ v1 _ v1 (run_count I L _ _ _ v1 Hm1 i s _ Hi Hc)). }
      split; [by left |]. split; [| split; [by etransitivity |]; split; [intros k; by rewrite (same_cset _ _ S') |]].
      2: { intros LO HI L1 L2 Hw St Hok. destruct (Hst LO HI L1 L2 Hw St Hok) as [_ St1]. split; [done | by apply (same_stocked (mem v1))]. }
      eapply image_insert; [exact Hm' | | | intros a; by apply (counted_more i s) | intros ? [= <-]; cbn [refs]; lia].
      * unfold counts. by rewrite list_fmap_insert.
      * unfold bodies. by rewrite list_fmap_insert.
    + destruct HS as [Hm1 HS]. exists st, v1, A. split; [done |]. split; [right; split; [done |]; destruct HS as [[-> _] | (? & ? & _)]; auto |].
      split; [by constructor; [| apply H] |]. split; [done |]. split; [| exact Hst]. destruct HS as [[-> ->] | (? & ? & S1)]; [by left |]. destruct (st =? STATUS_NO_MEMORY); [by right | done].
Qed.

Lemma load_succeeds io i s v' st : i_secs I !! i = Some s -> loads_if_stocked s io v v' st -> can_load I (CLoad i io) v -> st = STATUS_SUCCESS.
Proof using L.
  intros Hi Hl (t & Ht & Hs & Hr). assert (t = s) as -> by congruence. destruct (Z.eq_dec (s_vs s) 0) as [E0 | E0].
  - apply (Hl 1024 1024); [lia | lia | done | apply stocked_none |]. done.
  - destruct (body_pages I L i s Hi E0) as (P1 & P2 & _). pose proof (hdr_pages I L) as (Q1 & Q2 & Q3). destruct (ly_base _ L) as [B1 _]. destruct (ly_ends _ L) as (_ & _ & B3). pose proof (base_page I L).
    unfold NXV_LOWEST, NXV_HIGHEST in *. assert (end_page (i_end I) 0 <= 0x7FFE0) by (unfold end_page; pose proof (div_page (i_end I + 0 + 4095)); lia).
    apply (Hl (head_page s) (tail_page s + 1)); [lia | lia | lia | by apply Hs | done].
Qed.

(** *** The last unload *)

Section last.
Context (i : nat) (s : sec) (l : load).
Hypothesis Hi : i_secs I !! i = Some s.
Hypothesis Ho : A !! i = Some (Some l).
Hypothesis Hv : s_vs s <> 0.

Let U : Z -> Z := uses (i_secs I) A.
Let c1 : Z := u16 (U (s_head s) + -1).
Let c2 : Z := u16 ((if decide (s_tail s = s_head s) then c1 else U (s_tail s)) + -1).

Lemma left_counts : c1 = U (s_head s) - 1 /\ (tail_page s <> head_page s -> c2 = uses (i_secs I) (<[i := None]> A) (s_tail s)).
Proof using L Hi Ho Hv.
  destruct (own_uses s Hv) as [E1 E2]. pose proof (uses_one _ i s l A (s_head s) Hi Ho) as O1. pose proof (uses_one _ i s l A (s_tail s) Hi Ho) as O2. fold U in O1, O2.
  pose proof (uses_small A (s_head s)) as B1. pose proof (uses_small A (s_tail s)) as B2. fold U in B1, B2.
  assert (Ec : c1 = U (s_head s) - 1) by (unfold c1, u16; rewrite Z.mod_small; repeat case_decide; lia). split; [done |]. intros Hp.
  rewrite (uses_insert _ i s (Some l)) by done. cbn [worth]. fold U. rewrite (E2 Hp). unfold c2. case_decide as Et.
  - rewrite Ec, Et. specialize (E2 Hp). rewrite Et in *. unfold u16. rewrite Z.mod_small; lia.
  - specialize (E2 Hp). unfold u16. rewrite Z.mod_small; lia.
Qed.

(** A loaded section that has part of an edge page counts in its counter. *)
Lemma shares_counter j t y k : j <> i -> i_secs I !! j = Some t -> A !! j = Some (Some y) -> spans s k -> spans t k ->
  0 < use t (counter s k) /\ use s (counter s k) + use t (counter s k) <= U (counter s k).
Proof using L Hi Ho.
  intros Hn Hj Hy Ss St. split; [| by apply (uses_two _ i j s t l y)]. apply use_edge. exists k.
  split; [split; [apply St |]; by apply (shared_edge I L j i t s k) | symmetry; by apply (ly_shared _ L i j)].
Qed.

Lemma spans_edges : spans s (head_page s) /\ spans s (tail_page s).
Proof using L Hi Hv. clear -L Hi Hv. destruct (body_pages I L i s Hi Hv) as (P & _). unfold spans. lia. Qed.

Lemma loaded_other j d : bodies (<[i := None]> A) !! j = Some (Some d) -> j <> i /\ exists y, A !! j = Some (Some y) /\ body y = d.
Proof using Ho.
  unfold bodies. rewrite list_lookup_fmap. destruct (decide (j = i)) as [-> | Hn]; [rewrite list_lookup_insert_eq by (by apply lookup_lt_Some in Ho); done |].
  rewrite list_lookup_insert_ne by done. destruct (A !! j) as [[y |] |]; [| done..]. intros [= <-]. eauto.
Qed.

Lemma head_unshared : c1 = 0 -> unshared I (bodies (<[i := None]> A)) (head_page s).
Proof using L Hi Ho Hv.
  intros E j t d Hj Hd St. destruct (loaded_other j d Hd) as (Hn & y & Hy & _). destruct spans_edges as [Sh _].
  destruct (shares_counter j t y _ Hn Hj Hy Sh St) as [P1 P2]. destruct left_counts as [Ec _]. destruct (own_uses s Hv) as [E1 _].
  unfold counter in P1, P2. rewrite decide_True in P1, P2 by done. repeat case_decide; lia.
Qed.

Lemma tail_unshared : tail_page s <> head_page s -> c2 = 0 -> unshared I (bodies (<[i := None]> A)) (tail_page s).
Proof using L Hi Ho Hv.
  intros Hp E j t d Hj Hd St. destruct (loaded_other j d Hd) as (Hn & y & Hy & _). destruct spans_edges as [_ Sh].
  destruct (shares_counter j t y _ Hn Hj Hy Sh St) as [P1 P2]. destruct left_counts as [_ Ec]. rewrite (Ec Hp), (uses_insert _ i s (Some l)) in E by done. cbn [worth] in E. fold U in E.
  unfold counter in P1, P2. rewrite decide_False in P1, P2 by done. lia.
Qed.

(** With counters of their own the pages that go are the unused ones. *)
Lemma gone_unused k : own_counters I -> gone s c1 c2 k <-> spans s k /\ ~ in_use I (<[i := None]> A) k.
Proof using L Hi Ho Hv.
  intros Oc. destruct left_counts as [E1 E2]. pose proof (sec_in I i s Hi) as Hs. split.
  - intros (Sk & G1 & G2). split; [done |]. intros (j & t & y & Hj & Hy & St).
    assert (Hd : bodies (<[i := None]> A) !! j = Some (Some (body y))) by (unfold bodies; by rewrite list_lookup_fmap, Hy).
    destruct (loaded_other j _ Hd) as (Hn & _). destruct (shared_edge I L i j s t k (not_eq_sym Hn) Hi Hj Sk St) as [-> | ->].
    + by apply (head_unshared (G1 eq_refl) j t (body y)).
    + destruct (decide (tail_page s = head_page s)) as [Ep | Ep]; [rewrite Ep in *; by apply (head_unshared (G1 eq_refl) j t (body y)) |].
      by apply (tail_unshared Ep (G2 eq_refl Ep) j t (body y)).
  - intros [Sk Nu].
    assert (Z0 : edge s k -> uses (i_secs I) (<[i := None]> A) (counter s k) = 0).
    { intros Ek. apply uses_none. intros j t y Hj Hy. destruct (Z.eq_dec (use t (counter s k)) 0) as [? | Hne]; [done |]. exfalso.
      destruct (proj1 (use_edge t (counter s k))) as (k' & Et & Ec); [pose proof (use_range t (counter s k)); lia |].
      assert (k' = k) as -> by (by apply (Oc t s k' k (sec_in I j t Hj) Hs)). apply Nu. exists j, t, y. split; [done |]. split; [done |].
      destruct (sec_body I L j t Hj (proj1 Et)) as (V & _). destruct (body_pages I L j t Hj (proj1 Et)) as (P & _). split; [apply Et |]. destruct (proj2 Et); lia. }
    split; [done |]. split.
    + intros ->. assert (Ek : edge s (head_page s)) by (split; auto). specialize (Z0 Ek). unfold counter in Z0. rewrite decide_True, (uses_insert _ i s (Some l)) in Z0 by done. cbn [worth] in Z0. fold U in Z0.
      destruct (own_uses s Hv) as [O1 _]. rewrite E1. repeat case_decide; [lia | | lia]. exfalso. assert (tail_page s = head_page s); [| done].
      apply (Oc s s (tail_page s) (head_page s) Hs Hs); [split; auto | split; auto |]. unfold counter. by rewrite decide_False, decide_True.
    + intros -> Hp. assert (Ek : edge s (tail_page s)) by (split; auto). specialize (Z0 Ek). unfold counter in Z0. rewrite decide_False in Z0 by done. by rewrite (E2 Hp).
Qed.

End last.

Lemma unload_call file i s : i_secs I !! i = Some s ->
  exists st v' A', XeUnloadSection node (s_hdr s) v = Some (Done st, v') /\ abs_call file I A (CUnload i) st A' /\
    image_holds I A' v' /\ elsewhere I v v' /\ pages_after I A A' (CUnload i) st (cset (mem v)) (cset (mem v')).
Proof using L H.
  intros Hi. destruct (is_loaded i s Hi) as [o Ho]. pose proof (ih_mem _ _ _ H) as Hm. unfold XeUnloadSection. rewrite (header_nonzero i s Hi).
  pose proof (counts_at i o Ho) as Hc. rewrite (bind_done _ _ v _ v (run_count I L _ _ _ v Hm i s _ Hi Hc)). unfold abs_call, pages_after. rewrite Hi, Ho. destruct o as [l |].
  2: { rewrite Z.eqb_refl. exists STATUS_INVALID_PARAMETER, v, A. done. }
  pose proof (ih_refs _ _ _ H i l Ho) as Rl. rewrite (proj2 (Z.eqb_neq (refs l) 0)) by lia. rewrite sub32_id by lia.
  destruct (store_count I L _ _ _ v i s _ (refs l - 1) Hm Hi Hc) as (v1 & E1 & Hm1 & W1 & S1%same_cset); [unfold is_u32; lia |]. rewrite (bind_done _ _ v tt v1 E1).
  assert (Hc1 : <[i := refs l - 1]> (counts A) !! i = Some (refs l - 1)) by (apply list_lookup_insert_eq; by apply lookup_lt_Some in Hc).
  destruct (Z.eqb_spec (refs l) 1) as [E | E].
  2: { rewrite (proj2 (Z.eqb_neq _ 0)) by lia. eexists STATUS_SUCCESS, v1, _. split; [done |]. split; [done |]. split; [| split; [done | done]].
       eapply image_insert; [exact Hm1 | | | intros a; by apply (counted_same i s l) | intros ? [= <-]; cbn [refs]; lia].
       - unfold counts. by rewrite list_fmap_insert.
       - unfold bodies. rewrite list_fmap_insert. cbn [option_map body]. symmetry. apply list_insert_id. by rewrite list_lookup_fmap, Ho. }
  rewrite E in *. change (1 - 1) with 0 in *. rewrite Z.eqb_refl. pose proof (holds_forget I _ _ _ v1 i Hm1) as Hm2.
  assert (Er : <[i := 0]> (counts A) = counts (<[i := None]> A)) by (unfold counts; by rewrite list_fmap_insert).
  assert (Ed : <[i := None]> (bodies A) = bodies (<[i := None]> A)) by (unfold bodies; by rewrite list_fmap_insert). rewrite Ed in Hm2.
  pose proof (run_vs I L _ _ _ v1 Hm2 i s _ Hi Hc1) as Rv. destruct (Z.eqb_spec (s_vs s) 0) as [E0 | Hv].
  { exists STATUS_SUCCESS, v1, (<[i := None]> A). split; [rewrite (bind_done _ _ v1 tt v1); [done |]; rewrite (bind_done _ _ v1 _ v1 Rv), E0; done |].
    split; [done |]. split; [| split; [done |]].
    - eapply image_insert; [exact Hm2 | done | done | | done]. intros a. rewrite <- (counted_less i s l a Hi Ho). unfold counted_by. by rewrite E0.
    - rewrite S1. split; [done |]. split; [done |]. intros _ k. unfold spans. rewrite E0. tauto. }
  assert (Hd : bodies (<[i := None]> A) !! i = Some None) by (rewrite <- Ed; apply list_lookup_insert_eq; unfold bodies; rewrite length_fmap; by apply lookup_lt_Some in Ho).
  destruct (drop_pages_run I L _ _ i s _ Hi Hc1 Hv _ v1 node Hm2 Hd (head_unshared i s l Hi Ho Hv) (tail_unshared i s l Hi Ho Hv)) as (v2 & E2 & Hm3 & W2 & S2).
  exists STATUS_SUCCESS, v2, (<[i := None]> A). split; [rewrite (bind_done _ _ v1 tt v2); [done |]; rewrite (bind_done _ _ v1 _ v1 Rv), (proj2 (Z.eqb_neq _ 0) Hv); exact E2 |].
  split; [done |]. split; [| split; [by etransitivity |]].
  - eapply image_insert; [exact Hm3 | done | done | intros a; by apply (counted_less i s l) | done].
  - rewrite <- S1. split; [intros k Hk; by apply S2 in Hk as [? _] |]. split.
    + intros k Hk Hn. destruct (decide (spans s k)) as [? | Hns]; [done |]. exfalso. apply Hn, S2. split; [done |]. by intros [? _].
    + intros Oc k. rewrite S2. by rewrite (gone_unused i s l Hi Ho Hv k Oc).
Qed.

(** *** A write by the title *)

Lemma body_committed i s l k : i_secs I !! i = Some s -> A !! i = Some (Some l) -> spans s k -> k ∈ cset (mem v).
Proof using L H.
  intros Hi Ho [Hv Hk]. pose proof (ih_mem _ _ _ H) as Hm. pose proof (hi_body _ _ _ _ _ Hm i s (body l) Hi (bodies_at i _ Ho) Hv) as Hb.
  destruct (sec_body I L i s Hi Hv) as (B1 & _ & _ & B4 & B5). apply ld_bytes_iff in Hb as [Hl Hx]; [| lia | lia].
  set (a := Z.max (s_va s) (4096 * k)). assert (Ha : s_va s <= a < s_va s + s_vs s) by (pose proof (div_page (s_va s + s_vs s - 1)); unfold a, tail_page in *; lia).
  destruct (body_byte I L i s Hi Hv a Ha) as (Ta & _). assert (Ea : a / 4096 = k) by (apply page_div; pose proof (div_page (s_va s)); unfold a, head_page in *; lia).
  rewrite <- Ea. apply present_committed; [done |]. specialize (Hx a ltac:(lia)). rewrite (ld8_title (mem v) ∅ a) in Hx by (apply Hm || done). by destruct (present _).
Qed.

Lemma store_call file i s ld o l : i_secs I !! i = Some s -> A !! i = Some (Some ld) -> s_vs s <> 0 -> bytes l -> 0 <= o -> o + Z.of_nat (length l) <= s_vs s ->
  exists v' A', wr l (add32 (s_va s) o) v = Some (Done tt, v') /\ abs_call file I A (CStore i o l) STATUS_SUCCESS A' /\
    image_holds I A' v' /\ elsewhere I v v' /\ cset (mem v') = cset (mem v).
Proof using L H.
  intros Hi Ho Hv Hb H1 H2. pose proof (ih_mem _ _ _ H) as Hm. destruct (sec_body I L i s Hi Hv) as (B1 & _ & _ & B4 & B5).
  pose proof (hi_body _ _ _ _ _ Hm i s (body ld) Hi (bodies_at i _ Ho) Hv) as Hr. pose proof Hr as [Hl Hx]%ld_bytes_iff; [| lia | lia].
  assert (Hd : <[i := None]> (bodies A) !! i = Some None) by (apply list_lookup_insert_eq; unfold bodies; rewrite length_fmap; by apply lookup_lt_Some in Ho).
  destruct (store_body I L _ _ _ v i s o l (holds_forget I _ _ _ v i Hm) Hi Hv Hd) as (m' & E & S & Hm' & W); [by intros k; apply (body_committed i s ld) | done | done | done |].
  unfold wr, abs_call. rewrite Ho. unfold NXV_LOWEST, NXV_HIGHEST in *. rewrite add32_id, E by lia. eexists (with_mem m' v), _. split; [done |]. split; [done |].
  split; [| split; [done | apply same_cset, S]]. set (d := write (body ld) (Z.to_nat o) l).
  assert (Hd' : ld_bytes (Z.to_nat (s_vs s)) m' (s_va s) = Some d).
  { apply ld_bytes_iff; [unfold NXV_LOWEST; lia | unfold NXV_HIGHEST; lia |]. split; [unfold d; rewrite length_write; lia |]. intros x Hxr.
    rewrite (sd_view _ _ _ _ S x) by (unfold title_addr, NXV_LOWEST, NXV_HIGHEST; lia). unfold d, write. case_decide as Ed.
    - f_equal. rewrite app_nth2, app_nth1; rewrite ?length_take; [| lia | lia]. f_equal. lia.
    - rewrite Hx by done. f_equal. destruct (decide (x < s_va s + o)) as [Hlt | Hlt].
      + rewrite app_nth1 by (rewrite length_take; lia). rewrite !nth_lookup, lookup_take_lt by lia. done.
      + rewrite app_nth2, app_nth2; rewrite ?length_take; [| lia | lia]. rewrite nth_of_drop. f_equal. lia. }
  pose proof (holds_learn I _ _ _ (with_mem m' v) i s d Hm' Hi (fun _ => Hd')) as Hm2. rewrite list_insert_insert_eq in Hm2.
  eapply image_insert; [exact Hm2 | | | intros a; by apply (counted_same i s ld) | intros ? [= <-]; cbn [refs]; by apply (ih_refs _ _ _ H i)].
  - unfold counts. rewrite list_fmap_insert. cbn [refs]. symmetry. apply list_insert_id. by rewrite list_lookup_fmap, Ho.
  - unfold bodies. by rewrite list_fmap_insert.
Qed.

Lemma body_read i s l a n : i_secs I !! i = Some s -> A !! i = Some (Some l) -> s_vs s <> 0 -> s_va s <= a -> a + Z.of_nat n <= s_va s + s_vs s ->
  ld_bytes n (mem v) a = Some (take n (drop (Z.to_nat (a - s_va s)) (body l))).
Proof using L H.
  intros Hi Ho Hv H1 H2. destruct (sec_body I L i s Hi Hv) as (B1 & _ & _ & B4 & B5).
  pose proof (hi_body _ _ _ _ _ (ih_mem _ _ _ H) i s (body l) Hi (bodies_at i _ Ho) Hv) as Hr.
  replace a with (s_va s + (a - s_va s)) at 1 by lia. apply (ld_sub (Z.to_nat (s_vs s))); [lia | lia | done | lia | lia].
Qed.

Lemma body_length i s l : i_secs I !! i = Some s -> A !! i = Some (Some l) -> s_vs s <> 0 -> Z.of_nat (length (body l)) = s_vs s.
Proof using L H.
  intros Hi Ho Hv. destruct (sec_body I L i s Hi Hv) as (B1 & _ & _ & B4 & B5).
  pose proof (hi_body _ _ _ _ _ (ih_mem _ _ _ H) i s (body l) Hi (bodies_at i _ Ho) Hv) as [E _]%ld_bytes_iff; lia.
Qed.

End calls.

(** ** An image before anything is loaded *)

(** A word of the headers, as the file has them. *)
Definition field (buf : list Z) (off : Z) : Z := load32 (drop (Z.to_nat off) buf).

(** The headers [h] are those of the image, with no section loaded. *)
Record describes (I : image) (h : list Z) : Prop := {
  de_length : Z.of_nat (length h) = i_hend I - i_base I;
  de_section : forall s, s ∈ i_secs I -> let o := s_hdr s - i_base I in
    field h o = s_flags s /\ field h (o + 4) = s_va s /\ field h (o + 8) = s_vs s /\ field h (o + 12) = s_raw s /\ field h (o + 16) = s_rs s /\
    field h (o + 24) = 0 /\ field h (o + 28) = s_head s /\ field h (o + 32) = s_tail s;
  de_counter : forall a, counters_of I a -> load16 (drop (Z.to_nat (a - i_base I)) h) = 0
}.

Section start.
Context (I : image) (v : vm) (h : list Z).
Hypothesis L : layout I.
Hypothesis Hr : ld_bytes (length h) (mem v) (i_base I) = Some h.
Hypothesis De : describes I h.

Lemma header_range : NXV_LOWEST <= i_base I /\ i_hend I <= NXV_HIGHEST.
Proof using L. clear Hr De. destruct (ly_base _ L) as [B1 _]. destruct (ly_ends _ L) as (_ & B2 & B3). pose proof (hdr_pages I L) as (Q1 & Q2 & Q3). lia. Qed.

Lemma field_read a : i_base I <= a -> a + 4 <= i_hend I -> ld32 (mem v) a = Some (field h (a - i_base I)).
Proof using L Hr De.
  intros H1 H2. pose proof header_range as [B1 B2]. pose proof (de_length _ _ De) as El. unfold ld32, field.
  replace a with (i_base I + (a - i_base I)) at 1 by lia. rewrite (ld_sub (length h) _ _ h) by (done || lia). cbn [option_map]. by rewrite load32_take.
Qed.

Lemma image_start : vm_wf v -> pages_ok (mem v) -> (exists x, x ∈ NxvRegionList v /\ Base x <= i_base I /\ i_end I <= rend x) ->
  plain (mem v) (i_base I / 4096) (end_page (i_end I) 0) -> (forall k, i_base I / 4096 <= k < hdr_page I -> k ∈ cset (mem v)) ->
  image_holds I (replicate (length (i_secs I)) None) v.
Proof using L Hr De.
  intros W P Rg Pl Hh. pose proof header_range as [B1 B2]. pose proof (de_length _ _ De) as El. set (A := replicate _ None).
  assert (HA : forall i o, A !! i = Some o -> o = None) by (intros i o [-> _]%lookup_replicate; done).
  constructor; [constructor; try done | intros i l E%HA; done].
  - unfold counts, A. by rewrite length_fmap, length_replicate.
  - intros i s n Hi Hn. unfold counts in Hn. rewrite list_lookup_fmap in Hn. destruct (A !! i) as [o |] eqn:Ho; [| done]. rewrite (HA i o Ho) in Hn. injection Hn as <-.
    pose proof (sec_in I i s Hi) as Hs. destruct (sec_header I L i s Hi) as [H1 H2]. destruct (de_section _ _ De s Hs) as (F1 & F2 & F3 & F4 & F5 & F6 & F7 & F8).
    constructor; (rewrite field_read by lia); f_equal; rewrite <- ?F1, <- ?F2, <- ?F3, <- ?F4, <- ?F5, <- ?F6, <- ?F7, <- ?F8; (done || (f_equal; lia)).
  - intros a Ha. destruct (ly_counter _ L a Ha) as [H1 H2]. unfold ld16. replace a with (i_base I + (a - i_base I)) at 1 by lia.
    rewrite (ld_sub (length h) _ _ h) by (done || lia). cbn [option_map]. rewrite load16_take, (de_counter _ _ De a Ha). f_equal. symmetry.
    apply uses_none. intros i s x _ Hx%HA. done.
  - unfold bodies, A. by rewrite length_fmap, length_replicate.
  - intros i s d _ Hd. unfold bodies in Hd. rewrite list_lookup_fmap in Hd. destruct (A !! i) as [o |] eqn:Ho; [| done]. by rewrite (HA i o Ho) in Hd.
Qed.

End start.
