(* ===== verification/XbeLoad.v ===== *)
(** * The title's image is loaded

    [XeLoadXbe] of [ntoskrnl/xb/xbe.c], from the first read of the file to
    the start of the entry thread, over the sections of [XbeSections.v]: the
    image is reserved, its headers are committed and read, the title's keys
    are derived from its certificate ([ntoskrnl/xb/titlekeys.c], over the
    HMAC of [Sha.v]), the sections that are to be there at the start are
    loaded, the kernel's ordinals are resolved, and a thread starts at the
    entry point with a block for its thread-local data.  What the file
    delivers, the pool, the export table of the kernel's own image and the
    creation of the thread are parameters. *)

From stdpp Require Import prelude gmap list numbers sets.
From Stdlib Require Import ZArith Lia.
From S2P Require Import Prelude PageSupply Paging Vm VmStock VmRegions VmSpec Bytes Sha TitleMem XbeSections.

Local Open Scope Z_scope.
Local Opaque free_set NxpUnlink cset.

Definition STATUS_INVALID_IMAGE_FORMAT : Z := 0xC000007B.

Definition XBE_MAGIC : Z := 0x48454258.
Definition XBE_SECTION_FLAG_PRELOAD : Z := 2.
Definition XOR_EP_DEBUG : Z := 0x94859D4B.
Definition XOR_EP_RETAIL : Z := 0xA8FC57AB.
Definition XOR_KT_DEBUG : Z := 0xEFB1F152.
Definition XOR_KT_RETAIL : Z := 0x5B6D40B6.
Definition XBE_THUNK_ORDINAL : Z := 0x80000000.
Definition XBE_BUGCHECK_UNIMPL : Z := 0xE0000001.

(** ** State *)

(** A thread that was started: where, and with which block. *)
Record entry_thread : Type := Thread { StartContext : Z; TlsData : Z; TlsSize : Z; StackSize : Z; TlsBytes : list Z }.

Record loader : Type := Loader {
  lvm : vm;
  XeImageRangeStart : Z;
  XeImageRangeEnd : Z;
  XboxLANKey : list Z;
  XboxSignatureKey : list Z;
  XboxAlternateSignatureKeys : list (list Z);
  XepImageFileHandle : bool;
  started : option entry_thread
}.

Definition set_lvm (v : vm) (l : loader) : loader :=
  Loader v (XeImageRangeStart l) (XeImageRangeEnd l) (XboxLANKey l) (XboxSignatureKey l) (XboxAlternateSignatureKeys l) (XepImageFileHandle l) (started l).
Definition set_image_range (s e : Z) (l : loader) : loader :=
  Loader (lvm l) s e (XboxLANKey l) (XboxSignatureKey l) (XboxAlternateSignatureKeys l) (XepImageFileHandle l) (started l).
Definition set_keys (a b : list Z) (c : list (list Z)) (l : loader) : loader :=
  Loader (lvm l) (XeImageRangeStart l) (XeImageRangeEnd l) a b c (XepImageFileHandle l) (started l).
Definition set_handle (l : loader) : loader :=
  Loader (lvm l) (XeImageRangeStart l) (XeImageRangeEnd l) (XboxLANKey l) (XboxSignatureKey l) (XboxAlternateSignatureKeys l) true (started l).
Definition set_started (t : entry_thread) (l : loader) : loader :=
  Loader (lvm l) (XeImageRangeStart l) (XeImageRangeEnd l) (XboxLANKey l) (XboxSignatureKey l) (XboxAlternateSignatureKeys l) (XepImageFileHandle l) (Some t).

Definition Y (A : Type) : Type := loader -> option (res A * loader).

#[global] Instance Y_ret : MRet Y := fun A a l => Some (Done a, l).
#[global] Instance Y_bind : MBind Y := fun A B (k : A -> Y B) (x : Y A) l =>
  match x l with
  | None => None
  | Some (Done a, l) => k a l
  | Some (Fault Va, l) => Some (Fault Va, l)
  | Some (Bugcheck Code P1, l) => Some (Bugcheck Code P1, l)
  end.

Definition lift {A} (x : X A) : Y A := fun l => match x (lvm l) with None => None | Some (r, v) => Some (r, set_lvm v l) end.
Definition put (f : loader -> loader) : Y unit := fun l => Some (Done tt, f l).
Definition out_of_fuel {A} : Y A := fun _ => None.

Definition rd_bytes (n : nat) (a : Z) : X (list Z) := fun v => Some (match ld_bytes n (mem v) a with Some l => Done l | None => Fault a end, v).

(** ** The title's keys *)

Definition XBOX_KEY_LENGTH : Z := 16.
Definition XBOX_ALTERNATE_KEYS : Z := 16.
Definition CERT_LAN_KEY : Z := 0xB0.
Definition CERT_SIGNATURE_KEY : Z := 0xC0.
Definition CERT_ALTERNATE_KEYS : Z := 0xD0.
Definition CERT_SIZE_WITH_ALTERNATES : Z := CERT_ALTERNATE_KEYS + XBOX_ALTERNATE_KEYS * XBOX_KEY_LENGTH.
Definition NxkTitleCertificateKey : list Z := replicate 16 0.

(** [junk] is what the stack held where the hash has its buffer. *)
Definition NxkDeriveKey (junk Field : list Z) : list Z := take 16 (NxkHmacSha1 junk NxkTitleCertificateKey Field).

(** The key at an offset of the certificate. *)
Definition derive_at (junk : list Z) (Cert off : Z) : X (list Z) :=
  f ← rd_bytes 16 (add32 Cert off);
  mret (NxkDeriveKey junk f).

Fixpoint derive_alternates (n : nat) (junk : list Z) (Cert i : Z) : X (list (list Z)) :=
  match n with
  | O => mret []
  | S n' =>
      k ← derive_at junk Cert (CERT_ALTERNATE_KEYS + i * XBOX_KEY_LENGTH);
      l ← derive_alternates n' junk Cert (i + 1);
      mret (k :: l)
  end.

Definition no_keys : list (list Z) := replicate 16 (replicate 16 0).

Definition NxkDeriveTitleKeys (junk : list Z) (Cert : Z) : Y unit :=
  put (set_keys (replicate 16 0) (replicate 16 0) no_keys);;
  if Cert =? 0 then mret tt
  else
    size ← lift (rd32 Cert);
    lan ← lift (derive_at junk Cert CERT_LAN_KEY);
    sig ← lift (derive_at junk Cert CERT_SIGNATURE_KEY);
    put (set_keys lan sig no_keys);;
    if size <? CERT_SIZE_WITH_ALTERNATES then mret tt
    else
      alt ← lift (derive_alternates 16 junk Cert 0);
      put (set_keys lan sig alt).

(** ** The kernel's exports *)

Record exports : Type := Exports { ImageBase : Z; ExportBase : Z; functions : list Z }.

(** [None] stops the machine. *)
Definition XeResolveOrdinal (ex : exports) (Ordinal : Z) : option Z :=
  let index := sub32 Ordinal (ExportBase ex) in
  let rva := if (ExportBase ex <=? Ordinal) && (index <? Z.of_nat (length (functions ex))) then nth (Z.to_nat index) (functions ex) 0 else 0 in
  if rva =? 0 then None else Some (add32 (ImageBase ex) rva).

(** The thunk table at [thunk]: ordinals become addresses, up to a word of 0. *)
Fixpoint resolve_thunks (fuel : nat) (ex : exports) (thunk : Z) : X unit :=
  match fuel with
  | O => fun _ => None
  | S fuel' =>
      w ← rd32 thunk;
      if w =? 0 then mret tt
      else
        (if negb (Z.land w XBE_THUNK_ORDINAL =? 0) then
           let ord := Z.land w (not32 XBE_THUNK_ORDINAL) in
           match XeResolveOrdinal ex ord with
           | None => fun v => Some (Bugcheck XBE_BUGCHECK_UNIMPL ord, v)
           | Some a => wr (store32 a) thunk
           end
         else mret tt);;
        resolve_thunks fuel' ex (add32 thunk 4)
  end.

(** ** Addresses that are kept encoded *)

Definition XeDecodeAddr (Encoded XorRetail XorDebug Base ImageSize : Z) : Z :=
  let addr := Z.lxor Encoded XorRetail in
  if (Base <=? addr) && (addr <? add32 Base ImageSize) then addr else Z.lxor Encoded XorDebug.

(** ** Thread-local data *)

(** [raw] is what the pool gave for [Size + 16] bytes, 0 for nothing. *)
Definition XeAllocTls (raw : Z) : Z :=
  if raw =? 0 then 0 else sub32 (Z.land (add32 raw 19) (not32 15)) 4.

(** The block's address, its size and its bytes. *)
Definition XeSetupEntryTls (raw Tls : Z) : X (Z * Z * list Z) :=
  b ← rd32 (add32 Tls 4);
  a ← rd32 Tls;
  let rawSize := sub32 b a in
  zf ← rd32 (add32 Tls 16);
  let tlsSize := add32 (Z.land (add32 (add32 rawSize zf) 15) (not32 15)) 4 in
  let block := XeAllocTls raw in
  if block =? 0 then mret (0, tlsSize, [])
  else
    let zeros := write (replicate (Z.to_nat tlsSize) 0) 0 (store32 (add32 block 4)) in
    if negb (rawSize =? 0) then
      a ← rd32 Tls;
      d ← rd_bytes (Z.to_nat rawSize) a;
      mret (block, tlsSize, write zeros 4 d)
    else mret (block, tlsSize, zeros).

(** ** The loader *)

(** The sections that are to be there at the start. *)
Fixpoint load_sections (fuel : nat) (node : bool) (io : reader) (hdr sections i : Z) : X Z :=
  match fuel with
  | O => fun _ => None
  | S fuel' =>
      n ← rd32 (add32 hdr 0x11C);
      if i <? n then
        let s := add32 sections (mul32 56 i) in
        f ← Flags s;
        if negb (BooleanFlagOn f XBE_SECTION_FLAG_PRELOAD) then load_sections fuel' node io hdr sections (i + 1)
        else
          status ← XeLoadSection node io s;
          if negb (NT_SUCCESS status) then mret status
          else load_sections fuel' node io hdr sections (i + 1)
      else mret STATUS_SUCCESS
  end.

(** What the loader takes from outside: the file, whether the pool gives a
    node for the reservation, the block for the thread's data and the
    thread's context, and how the creation of the thread ends. *)
Record world : Type := World {
  file_io : reader;
  pool_node : bool;
  tls_raw : Z;
  pool_ctx : bool;
  spawn_status : Z;
  stack_junk : list Z;
  kernel : exports
}.

(** From the headers in place to the entry thread. *)
Definition run_title (fuel : nat) (w : world) (hdr : Z) : Y Z :=
  cert ← lift (rd32 (add32 hdr 0x118));
  NxkDeriveTitleKeys (stack_junk w) cert;;
  put set_handle;;
  sections ← lift (rd32 (add32 hdr 0x120));
  status ← lift (load_sections fuel (pool_node w) (file_io w) hdr sections 0);
  if negb (NT_SUCCESS status) then mret status
  else
    base ← lift (rd32 (add32 hdr 0x104));
    size ← lift (rd32 (add32 hdr 0x10C));
    e ← lift (rd32 (add32 hdr 0x128));
    t ← lift (rd32 (add32 hdr 0x158));
    let entry := XeDecodeAddr e XOR_EP_RETAIL XOR_EP_DEBUG base size in
    let thunkAddr := XeDecodeAddr t XOR_KT_RETAIL XOR_KT_DEBUG base size in
    (if negb (thunkAddr =? 0) then lift (resolve_thunks fuel (kernel w) thunkAddr) else mret tt);;
    tls ← lift (rd32 (add32 hdr 0x12C));
    b ← (if negb (tls =? 0) then lift (XeSetupEntryTls (tls_raw w) tls) else mret (0, 0, []));
    let '(tlsBlock, tlsSize, tlsBytes) := b in
    if negb (pool_ctx w) then mret STATUS_INSUFFICIENT_RESOURCES
    else
      stack ← lift (rd32 (add32 hdr 0x130));
      if negb (NT_SUCCESS (spawn_status w)) then mret (spawn_status w)
      else
        put (set_started (Thread entry tlsBlock tlsSize stack tlsBytes));;
        mret STATUS_SUCCESS.

(** From a header that was read on: the image is reserved, its headers are
    committed and read. *)
Definition map_image (fuel : nat) (w : world) (BaseAddr SizeOfImage SizeOfHeaders : Z) : Y Z :=
  r ← lift (XeNtAllocateVirtualMemory (pool_node w) BaseAddr SizeOfImage MEM_RESERVE PAGE_EXECUTE_READWRITE);
  if negb (NT_SUCCESS (fst r)) then mret (fst r)
  else if negb (snd r =? BaseAddr) then mret STATUS_CONFLICTING_ADDRESSES
  else
    put (set_image_range (snd r) (add32 (snd r) SizeOfImage));;
    r ← lift (XeNtAllocateVirtualMemory (pool_node w) (snd r) SizeOfHeaders MEM_COMMIT PAGE_EXECUTE_READWRITE);
    if negb (NT_SUCCESS (fst r)) then mret (fst r)
    else
      status ← lift (ZwReadFile (file_io w) (snd r) SizeOfHeaders 0);
      if negb (NT_SUCCESS status) then mret status else run_title fuel w (snd r).

Definition XeLoadXbe (fuel : nat) (w : world) : Y Z :=
  let '(status, hdrBuf) := file_io w 0 0x178 in
  if negb (NT_SUCCESS status) || (Z.of_nat (length hdrBuf) <? 0x178) then
    mret (if NT_SUCCESS status then STATUS_INVALID_IMAGE_FORMAT else status)
  else if negb (field hdrBuf 0 =? XBE_MAGIC) then mret STATUS_INVALID_IMAGE_FORMAT
  else map_image fuel w (field hdrBuf 0x104) (field hdrBuf 0x10C) (field hdrBuf 0x108).

(** ** What a file describes *)

Section described.
Context (file : list Z).

Definition x_base : Z := field file 0x104.
Definition x_headers : Z := field file 0x108.
Definition x_image : Z := field file 0x10C.
Definition x_sections : Z := field file 0x11C.
Definition x_table : Z := field file 0x120.

Definition section_at (h : Z) : sec :=
  let o := h - x_base in
  Sec h (field file o) (field file (o + 4)) (field file (o + 8)) (field file (o + 12)) (field file (o + 16)) (field file (o + 28)) (field file (o + 32)).

Definition image_of : image :=
  Image x_base (x_base + x_headers) (x_base + x_image)
    ((fun i => section_at (x_table + 56 * Z.of_nat i)) <$> seq 0 (Z.to_nat x_sections)).

(** A file that is a title: the layout of its image, nothing counted as
    loaded, its raw data within the file, and the fixed part of the header
    apart from the counts. *)
Record good_xbe : Prop := {
  gx_bytes : bytes file;
  gx_magic : field file 0 = XBE_MAGIC;
  gx_base : x_base mod 65536 = 0;
  gx_size : 0x178 <= x_headers <= Z.of_nat (length file);
  gx_layout : layout image_of;
  gx_unloaded : forall s, s ∈ i_secs image_of -> field file (s_hdr s - x_base + 24) = 0;
  gx_counters : forall a, counters_of image_of a -> load16 (drop (Z.to_nat (a - x_base)) file) = 0 /\ x_base + 0x178 <= a;
  gx_raw : forall s, s ∈ i_secs image_of -> s_raw s + s_rs s <= Z.of_nat (length file) /\ x_base + 0x178 <= s_hdr s
}.

Definition preload (s : sec) : bool := BooleanFlagOn (s_flags s) XBE_SECTION_FLAG_PRELOAD.

(** The sections that are to be there at the start, the first [n] of them. *)
Definition preloaded (n : nat) : list (option load) :=
  imap (fun i s => if decide (i < n)%nat then if preload s then Some (Load 1 (content file s)) else None else None) (i_secs image_of).

End described.

(** What a load needs to succeed: a file that can be read, a pool and a
    thread, the image's addresses free, and frames for all of its pages. *)
Definition image_stocked (file : list Z) (v : vm) : Prop := stocked (mem v) (x_base file / 4096) (end_page (x_base file + x_image file) 0).

Definition reads (w : world) : Prop := forall off len, NT_SUCCESS (fst (file_io w off len)) = true.

Record able (file : list Z) (w : world) (v : vm) : Prop := {
  ab_reads : reads w;
  ab_node : pool_node w = true;
  ab_ctx : pool_ctx w = true;
  ab_spawn : NT_SUCCESS (spawn_status w) = true;
  ab_clear : clear_of (NxvRegionList v) (x_base file) (4096 * end_page (x_base file + x_image file) 0);
  ab_stocked : image_stocked file v
}.

(** ** Runs *)

Lemma ybind_done {A B} (x : Y A) (k : A -> Y B) l a l' : x l = Some (Done a, l') -> (x ≫= k) l = k a l'.
Proof. intros E. unfold mbind, Y_bind. by rewrite E. Qed.

Lemma lift_done {A} (x : X A) l a v : x (lvm l) = Some (Done a, v) -> lift x l = Some (Done a, set_lvm v l).
Proof. intros E. unfold lift. by rewrite E. Qed.

Lemma set_lvm_id l : set_lvm (lvm l) l = l.
Proof. by destruct l. Qed.

Lemma lift_same {A} (x : X A) l a : x (lvm l) = Some (Done a, lvm l) -> lift x l = Some (Done a, l).
Proof. intros E. rewrite (lift_done x l a _ E). by rewrite set_lvm_id. Qed.

Lemma rd_bytes_run n a v d : ld_bytes n (mem v) a = Some d -> rd_bytes n a v = Some (Done d, v).
Proof. intros E. unfold rd_bytes. by rewrite E. Qed.

(** ** Reservation *)

Lemma reserve_call v node base n : vm_wf v -> base mod 65536 = 0 -> NXV_LOWEST <= base -> 0 < n -> base + n <= NXV_HIGHEST ->
  exists r, NxVmAllocateVirtualMemory v node base n MEM_RESERVE PAGE_EXECUTE_READWRITE = Some r /\
    ((NT_SUCCESS (status r) = false /\ st r = v /\ (node = true -> ~ clear_of (NxvRegionList v) base (4096 * end_page (base + n) 0))) \/
     (status r = STATUS_SUCCESS /\ OutBase r = base /\ vm_wf (st r) /\ mem (st r) = mem v /\
      exists x, x ∈ NxvRegionList (st r) /\ Base x = base /\ base + n <= rend x /\ clear_of (NxvRegionList v) base (rend x))).
Proof.
  intros W Hm Hb Hn Hh. unfold NXV_LOWEST, NXV_HIGHEST in *. unfold NxVmAllocateVirtualMemory. cbv zeta. rewrite (proj2 (Z.eqb_neq n 0)) by lia.
  change (negb (BooleanFlagOn MEM_RESERVE _)) with false. change (NxvProtectToPte PAGE_EXECUTE_READWRITE) with (Some 3).
  change (BooleanFlagOn MEM_RESERVE MEM_RESET) with false. change (BooleanFlagOn MEM_RESERVE MEM_RESERVE) with true. cbv iota.
  rewrite (proj2 (Z.eqb_neq base 0)) by lia. unfold NXV_LOWEST, NXV_HIGHEST. rewrite (proj2 (Z.ltb_ge base _)), (proj2 (Z.leb_gt _ base)) by lia. cbn [orb].
  destruct (round_page_up (base + n)) as [E1 E2]; [unfold NXV_HIGHEST; lia |]. unfold NXV_HIGHEST in E1.
  rewrite add32_id by lia. set (End := ROUND_UP (base + n) PAGE_SIZE) in *.
  assert (Es : ROUND_DOWN base NXV_GRANULARITY = base) by (rewrite gran_pow, round_down_pow by lia; change (2 ^ 16) with 65536; lia). rewrite Es.
  pose proof (overlaps_region_spec NXV_HIGHEST ltac:(done) (NxvRegionList v) NXV_LOWEST base End ltac:(done) (vw_regions _ W) ltac:(lia)) as Ho.
  unfold NxvRangeOverlapsRegion. destruct (overlaps_region _ base End).
  { eexists. split; [done |]. left. split; [done |]. split; [done |]. intros _ Hc. destruct Ho as (y & Hy & Y1 & Y2).
    assert (4096 * end_page (base + n) 0 = End) as Ee by (unfold End, end_page; rewrite Z.add_0_r; symmetry; apply round_up_page; lia). rewrite Ee in Hc. destruct (Hc y Hy); lia. }
  rewrite sub32_id by lia.
  unfold reserve_commit, NxvAllocRegion. destruct node; [| eexists; split; [done |]; left; done]. change (BooleanFlagOn MEM_RESERVE MEM_COMMIT) with false. cbv iota.
  eexists. split; [done |]. right. cbn [status OutBase st]. split; [done |]. split; [done |]. set (x := Region base (End - base) PAGE_EXECUTE_READWRITE).
  assert (Ex : rend x = End) by (unfold rend, x; cbn [Base Size]; lia). assert (Bm : base mod 4096 = 0).
  { apply Z.mod_divide; [lia |]. apply Z.mod_divide in Hm; [| lia]. apply Z.divide_trans with 65536; [by exists 16 | done]. }
  split; [| split; [done | exists x; rewrite Ex; split; [apply insert_at_elem; by left | split; [done | split; [lia | done]]]]].
  apply insert_region_wf; [done | | unfold x, NXV_LOWEST; cbn [Base]; lia | rewrite Ex; unfold NXV_HIGHEST; lia | by rewrite Ex].
  unfold region_ok, x. cbn [Base Size]. split; [lia |]. split; [done |]. by apply sub_mod_page.
Qed.

(** No page of a fresh reservation is committed. *)
Lemma reserved_clear v a b k : vm_wf v -> clear_of (NxvRegionList v) a b -> a mod 4096 = 0 -> b mod 4096 = 0 -> a <= 4096 * k < b -> k ∉ cset (mem v).
Proof.
  intros W Hc Ha Hb Hk Hin. destruct (vw_covered _ W k Hin) as (y & Hy & Cy). unfold contains in Cy. destruct (Hc y Hy); lia.
Qed.

(** ** Words of the header *)

Lemma load32_prefix n l : (4 <= n)%nat -> load32 (take n l) = load32 l.
Proof. intros Hn. rewrite <- load32_take, take_take, Nat.min_l by lia. apply load32_take. Qed.

Lemma load16_prefix n l : (2 <= n)%nat -> load16 (take n l) = load16 l.
Proof. intros Hn. rewrite <- load16_take, take_take, Nat.min_l by lia. apply load16_take. Qed.

Lemma field_take n l o : 0 <= o -> o + 4 <= Z.of_nat n -> field (take n l) o = field l o.
Proof.
  intros H1 H2. unfold field. replace n with (Z.to_nat o + (n - Z.to_nat o))%nat by lia. rewrite <- take_drop_commute, load32_prefix by lia. done.
Qed.

Lemma field_range l o : bytes l -> is_u32 (field l o).
Proof. intros Hb. apply load32_range. by apply bytes_drop. Qed.

Lemma content_bytes file s : bytes file -> bytes (content file s).
Proof. intros Hb. apply bytes_app. split; [by apply bytes_take, bytes_drop | apply bytes_zero]. Qed.

Section loading.
Context (file : list Z) (w : world).
Hypothesis G : good_xbe file.
Hypothesis Hio : serves file (file_io w).

Let I : image := image_of file.
Let base : Z := x_base file.

Lemma x_layout : layout I.
Proof using G. apply (gx_layout _ G). Qed.

Lemma secs_length : length (i_secs I) = Z.to_nat (x_sections file).
Proof. unfold I, image_of. cbn [i_secs]. by rewrite length_fmap, length_seq. Qed.

Lemma secs_lookup i s : i_secs I !! i = Some s <-> (i < Z.to_nat (x_sections file))%nat /\ s = section_at file (x_table file + 56 * Z.of_nat i).
Proof.
  unfold I, image_of. cbn [i_secs]. rewrite list_lookup_fmap_Some. split.
  - intros (j & -> & [-> Hj]%lookup_seq). done.
  - intros [Hi ->]. exists i. split; [done |]. by apply lookup_seq.
Qed.

Lemma sections_u32 : is_u32 (x_sections file).
Proof using G. apply field_range, G. Qed.

Lemma secs_range i s : i_secs I !! i = Some s -> s_hdr s = x_table file + 56 * Z.of_nat i /\ base + 0x178 <= s_hdr s /\ s_hdr s + 56 <= base + x_headers file.
Proof using G.
  intros Hi. pose proof (sec_header I x_layout i s Hi) as [_ H2]. pose proof (gx_raw _ G s (sec_in I i s Hi)) as [_ H3]. apply secs_lookup in Hi as [_ ->]. done.
Qed.

Lemma base_range : 65536 <= base /\ base + x_headers file <= 0x7FFE0000 /\ base + x_image file <= 0x7FFE0000 /\ 0 < x_image file.
Proof using G.
  pose proof (ly_base _ x_layout) as [B1 _]. pose proof (ly_ends _ x_layout) as (B2 & B3 & B4). pose proof (hdr_pages I x_layout) as (Q1 & Q2 & Q3).
  pose proof (header_range I x_layout) as [_ B5]. unfold NXV_LOWEST, NXV_HIGHEST in *.
  change (i_base I) with base in *. change (i_hend I) with (base + x_headers file) in *. change (i_end I) with (base + x_image file) in *.
  pose proof (gx_size _ G). lia.
Qed.

(** The headers are described by what the file starts with. *)
Lemma x_describes : describes I (take (Z.to_nat (x_headers file)) file).
Proof using G.
  pose proof (gx_size _ G) as Hs. assert (El : Z.of_nat (length (take (Z.to_nat (x_headers file)) file)) = x_headers file) by (rewrite length_take; lia).
  constructor.
  - rewrite El. change (i_hend I) with (base + x_headers file). change (i_base I) with base. lia.
  - intros s Hin. pose proof (gx_unloaded _ G s Hin) as F6. apply list_elem_of_lookup in Hin as [i Hi]. destruct (secs_range i s Hi) as (Eh & R1 & R2). change (i_base I) with base.
    cbv zeta. rewrite !field_take by lia. apply secs_lookup in Hi as [_ ->]. unfold section_at, base in *.
    cbn [s_hdr s_flags s_va s_vs s_raw s_rs s_head s_tail] in *. do 5 (split; [reflexivity |]). split; [exact F6 |]. split; reflexivity.
  - intros a Ha. destruct (gx_counters _ G a Ha) as [E H1]. destruct (ly_counter _ x_layout a Ha) as [_ H2]. change (i_base I) with base. change (i_hend I) with (base + x_headers file) in H2.
    unfold base in *. rewrite <- E. replace (Z.to_nat (x_headers file)) with (Z.to_nat (a - x_base file) + (Z.to_nat (x_headers file) - Z.to_nat (a - x_base file)))%nat by lia.
    rewrite <- take_drop_commute, load16_prefix by lia. done.
Qed.

(** The fixed part of the header, as it was read. *)
Definition header_holds (v : vm) : Prop := forall o, 0 <= o <= 0x174 -> ld32 (mem v) (base + o) = Some (field file o).

Lemma static_fixed a : base <= a < base + 0x178 -> static I a.
Proof using G.
  intros Ha. pose proof (gx_size _ G). split; [change (i_base I) with base; change (i_hend I) with (base + x_headers file); lia |]. split.
  - intros s Hs. apply list_elem_of_lookup in Hs as [i Hi]. destruct (secs_range i s Hi). lia.
  - intros c Hc. destruct (gx_counters _ G c Hc) as [_ ?]. unfold base in *. lia.
Qed.

Lemma header_keep v v' : header_holds v -> elsewhere I v v' -> header_holds v'.
Proof using G.
  intros H W o Ho. rewrite <- (H o Ho). unfold ld32. f_equal. pose proof base_range. apply ld_bytes_ext; [unfold NXV_LOWEST; lia | pose proof (gx_size _ G); unfold NXV_HIGHEST; lia |].
  intros x Hx. apply (ew_header _ _ _ W). apply static_fixed. lia.
Qed.

Lemma header_run v o : header_holds v -> 0 <= o <= 0x174 -> rd32 (add32 base o) v = Some (Done (field file o), v).
Proof using G. intros H Ho. pose proof base_range. pose proof (gx_size _ G). rewrite add32_id by lia. apply rd32_run. by apply H. Qed.

(** ** The sections *)

Lemma preloaded_lookup n i s : i_secs I !! i = Some s ->
  preloaded file n !! i = Some (if decide (i < n)%nat then if preload s then Some (Load 1 (content file s)) else None else None).
Proof. intros Hi. unfold preloaded. fold I. by rewrite list_lookup_imap, Hi. Qed.

Lemma length_preloaded n : length (preloaded file n) = length (i_secs I).
Proof. unfold preloaded. fold I. by rewrite length_imap. Qed.

Lemma preloaded_step i s : i_secs I !! i = Some s ->
  preloaded file (S i) = <[i := if preload s then Some (Load 1 (content file s)) else None]> (preloaded file i).
Proof.
  intros Hi. apply list_eq. intros j. destruct (i_secs I !! j) as [t |] eqn:Hj.
  - rewrite (preloaded_lookup (S i) j t Hj). destruct (decide (j = i)) as [-> | Hn].
    + rewrite list_lookup_insert_eq by (rewrite length_preloaded; by apply lookup_lt_Some in Hi). rewrite Hi in Hj. injection Hj as ->. by rewrite decide_True by lia.
    + rewrite list_lookup_insert_ne, (preloaded_lookup i j t Hj) by done. f_equal. destruct (decide (j < S i)%nat), (decide (j < i)%nat); (done || lia).
  - apply lookup_ge_None in Hj. rewrite !lookup_ge_None_2; [done | rewrite length_insert, length_preloaded; lia | rewrite length_preloaded; lia].
Qed.

Lemma preloaded_none : preloaded file 0 = replicate (length (i_secs I)) None.
Proof.
  apply list_eq. intros j. destruct (i_secs I !! j) as [t |] eqn:Hj.
  - rewrite (preloaded_lookup 0 j t Hj), decide_False by lia. symmetry. apply lookup_replicate. split; [done |]. by apply lookup_lt_Some in Hj.
  - apply lookup_ge_None in Hj. rewrite !lookup_ge_None_2; [done | rewrite length_replicate; lia | rewrite length_preloaded; lia].
Qed.

(** The pages of a section are pages of the image. *)
Lemma load_stocked i s io v v' st : i_secs I !! i = Some s -> loads_if_stocked s io v v' st -> NT_SUCCESS (fst (io (s_raw s) (s_rs s))) = true ->
  image_stocked file v -> st = STATUS_SUCCESS /\ image_stocked file v'.
Proof using G.
  intros Hi Hl Hr Sd. pose proof base_range as (B1 & B2 & B3 & B4). apply Hl; [| | | done | done].
  - apply Z.div_le_lower_bound; unfold base in *; lia.
  - unfold end_page. apply Z.lt_succ_r, Z.div_lt_upper_bound; unfold base in *; lia.
  - intros Hv. destruct (body_pages I x_layout i s Hi Hv) as (P1 & P2 & _). pose proof (hdr_pages I x_layout) as (Q1 & Q2 & Q3).
    change (i_base I) with (x_base file) in *. change (i_end I) with (x_base file + x_image file) in *. lia.
Qed.

Lemma load_sections_run fuel : forall i v, image_holds I (preloaded file i) v -> header_holds v -> (i <= length (i_secs I))%nat -> (length (i_secs I) - i < fuel)%nat ->
  exists st v' n, load_sections fuel (pool_node w) (file_io w) base (x_table file) (Z.of_nat i) v = Some (Done st, v') /\
    image_holds I (preloaded file n) v' /\ elsewhere I v v' /\ (NT_SUCCESS st = true -> st = STATUS_SUCCESS /\ n = length (i_secs I)) /\
    (reads w -> image_stocked file v -> st = STATUS_SUCCESS).
Proof using G Hio.
  induction fuel as [| fuel IH]; intros i v H Hh Hi Hf; [lia |]. cbn [load_sections]. pose proof sections_u32 as Hs. pose proof secs_length as El.
  rewrite (bind_done _ _ v _ v (header_run v 0x11C Hh ltac:(lia))). fold (x_sections file). destruct (Z.ltb_spec (Z.of_nat i) (x_sections file)) as [Hl | Hl].
  2: { exists STATUS_SUCCESS, v, i. split; [done |]. split; [done |]. split; [done |]. split; [| done]. intros _. split; [done |]. unfold is_u32 in Hs. lia. }
  destruct (lookup_lt_is_Some_2 (i_secs I) i) as [s Hsi]; [unfold is_u32 in Hs; lia |]. destruct (secs_range i s Hsi) as (Eh & R1 & R2). pose proof base_range as (B1 & B2 & B3 & B4).
  assert (Ea : add32 (x_table file) (mul32 56 (Z.of_nat i)) = s_hdr s) by (unfold add32, mul32; rewrite (u32_id (56 * _)), u32_id by (pose proof (field_range file 0x120 (gx_bytes _ G)); unfold is_u32, x_table in *; lia); lia).
  rewrite Ea. assert (Hp : preloaded file i !! i = Some None) by (by rewrite (preloaded_lookup i i s Hsi), decide_False by lia).
  assert (Ef : Flags (s_hdr s) v = Some (Done (s_flags s), v)).
  { apply rd32_run. apply (hi_header _ _ _ _ _ (ih_mem _ _ _ H) i s 0 Hsi). by rewrite (counts_at _ i None Hp). }
  rewrite (bind_done _ _ v _ v Ef). fold (preload s). pose proof (preloaded_step i s Hsi) as Es. replace (Z.of_nat i + 1) with (Z.of_nat (S i)) by lia. destruct (preload s) eqn:Epl; cbn [negb].
  - destruct (load_call I (preloaded file i) v (pool_node w) x_layout H file (file_io w) i s Hsi Hio) as (st & v1 & A1 & E1 & Ab & H1 & W1 & _ & Hst);
      [apply (gx_raw _ G), (sec_in I i s Hsi) | intros l; by rewrite Hp |]. rewrite (bind_done _ _ v st v1 E1). unfold abs_call in Ab. rewrite Hsi, Hp in Ab.
    assert (Hst1 : reads w -> image_stocked file v -> st = STATUS_SUCCESS /\ image_stocked file v1) by (intros Hrd Sd; apply (load_stocked i s _ v v1 st Hsi Hst (Hrd _ _) Sd)).
    destruct Ab as [[-> ->] | [-> Hfail]].
    + change (negb (NT_SUCCESS STATUS_SUCCESS)) with false. cbv iota. rewrite <- Es in H1.
      destruct (IH (S i) v1 H1 (header_keep v v1 Hh W1)) as (st & v2 & n & E2 & H2 & W2 & Hn & Hs2); [apply lookup_lt_Some in Hsi; lia | lia |].
      exists st, v2, n. split; [done |]. split; [done |]. split; [by etransitivity |]. split; [done |]. intros Hrd Sd. by apply Hs2, Hst1.
    + assert (En : NT_SUCCESS st = false) by (destruct Hfail as [-> | (_ & ? & _)]; done). rewrite En. exists st, v1, i. split; [done |]. split; [done |]. split; [done |]. split; [congruence |]. intros Hrd Sd. by apply Hst1.
  - assert (E0 : preloaded file (S i) = preloaded file i) by (rewrite Es; by apply list_insert_id).
    destruct (IH (S i) v) as (st & v2 & n & E2 & H2 & W2 & Hn & Hs2); [by rewrite E0 | done | apply lookup_lt_Some in Hsi; lia | lia |]. exists st, v2, n. done.
Qed.

End loading.

(** ** Thunks *)

Lemma nth_write (b : list Z) o (l : list Z) x : (o + length l <= length b)%nat ->
  nth x (write b o l) 0 = if decide (o <= x < o + length l)%nat then nth (x - o) l 0 else nth x b 0.
Proof.
  intros Hl. unfold write. case_decide as E.
  - rewrite app_nth2, app_nth1; rewrite ?length_take; [| lia | lia]. f_equal. lia.
  - destruct (decide (x < o)%nat) as [Hx | Hx].
    + rewrite app_nth1 by (rewrite length_take; lia). rewrite !nth_lookup, lookup_take_lt by lia. done.
    + rewrite app_nth2, app_nth2; rewrite ?length_take; [| lia | lia]. rewrite nth_of_drop. f_equal. lia.
Qed.

Lemma field_nth b o : field b o = load32 [nth (Z.to_nat o) b 0; nth (Z.to_nat o + 1) b 0; nth (Z.to_nat o + 2) b 0; nth (Z.to_nat o + 3) b 0].
Proof. unfold field, load32. rewrite !nth_of_drop, Nat.add_0_r. done. Qed.

Lemma field_write_eq b o a : 0 <= o -> o + 4 <= Z.of_nat (length b) -> is_u32 a -> field (write b (Z.to_nat o) (store32 a)) o = a.
Proof.
  intros H1 H2 Ha. assert (L4 : length (store32 a) = 4%nat) by done. rewrite field_nth, !nth_write by lia. rewrite !decide_True by lia.
  rewrite <- (load_store a [] Ha) at 5. rewrite app_nil_r. rewrite Nat.sub_diag. replace (Z.to_nat o + 1 - Z.to_nat o)%nat with 1%nat by lia.
  replace (Z.to_nat o + 2 - Z.to_nat o)%nat with 2%nat by lia. replace (Z.to_nat o + 3 - Z.to_nat o)%nat with 3%nat by lia. done.
Qed.

Lemma field_write_ne b o p a : 0 <= o -> o + 4 <= Z.of_nat (length b) -> 0 <= p -> p + 4 <= o \/ o + 4 <= p -> field (write b (Z.to_nat o) (store32 a)) p = field b p.
Proof.
  intros H1 H2 H3 H4. assert (L4 : length (store32 a) = 4%nat) by done. rewrite !field_nth, !nth_write by lia. rewrite !decide_False by lia. done.
Qed.

(** The kernel exports address [a] under ordinal [ord]: the entry of the
    export table at that distance from its base is not empty. *)
Definition exported (ex : exports) (ord a : Z) : Prop :=
  exists k rva, functions ex !! k = Some rva /\ rva <> 0 /\ ord = ExportBase ex + Z.of_nat k /\ a = (ImageBase ex + rva) mod 2 ^ 32.

(** What a word [x] of the table is to become: with bit 31 set it is the
    ordinal in the other bits, and becomes the address; any other word stays. *)
Definition resolves (ex : exports) (x y : Z) : Prop := if Z.testbit x 31 then exported ex (x mod 2 ^ 31) y else y = x.

(** What the loop makes of a word. *)
Definition thunk_word (ex : exports) (x : Z) : option Z :=
  if negb (Z.land x XBE_THUNK_ORDINAL =? 0) then XeResolveOrdinal ex (Z.land x (not32 XBE_THUNK_ORDINAL)) else Some x.

Lemma resolve_exported ex ord a : 0 <= ExportBase ex -> 0 <= ord < 2 ^ 32 -> XeResolveOrdinal ex ord = Some a <-> exported ex ord a.
Proof.
  intros He Ho. unfold XeResolveOrdinal, exported. split.
  - destruct (Z.leb_spec (ExportBase ex) ord) as [Hl | Hl]; cbn [andb]; [| done]. rewrite sub32_id by lia.
    destruct (Z.ltb_spec (ord - ExportBase ex) (Z.of_nat (length (functions ex)))) as [Hk | Hk]; [| done].
    destruct (Z.eqb_spec (nth (Z.to_nat (ord - ExportBase ex)) (functions ex) 0) 0) as [| Hz]; [done |]. intros [= <-].
    destruct (lookup_lt_is_Some_2 (functions ex) (Z.to_nat (ord - ExportBase ex))) as [rva Er]; [lia |].
    rewrite (nth_lookup_Some _ _ 0 _ Er) in *. exists (Z.to_nat (ord - ExportBase ex)), rva. split; [done |]. split; [done |]. split; [lia | done].
  - intros (k & rva & Er & Hz & -> & ->). pose proof (lookup_lt_Some _ _ _ Er). destruct (Z.leb_spec (ExportBase ex) (ExportBase ex + Z.of_nat k)); [| lia].
    rewrite sub32_id by lia. replace (ExportBase ex + Z.of_nat k - ExportBase ex) with (Z.of_nat k) by lia. destruct (Z.ltb_spec (Z.of_nat k) (Z.of_nat (length (functions ex)))); [| lia].
    cbn [andb]. rewrite Nat2Z.id, (nth_lookup_Some _ _ 0 _ Er). by rewrite (proj2 (Z.eqb_neq _ 0) Hz).
Qed.

Lemma thunk_resolves ex x y : 0 <= ExportBase ex -> is_u32 x -> thunk_word ex x = Some y <-> resolves ex x y.
Proof.
  intros He Hx. unfold thunk_word, resolves. change XBE_THUNK_ORDINAL with (2 ^ 31). rewrite (land_pow2_testbit x 31) by lia.
  pose proof (Z.mod_pos_bound x (2 ^ 31) ltac:(lia)) as Hm. destruct (Z.testbit x 31).
  - change (negb (2 ^ 31 =? 0)) with true. cbv iota. assert (E : Z.land x (not32 (2 ^ 31)) = x mod 2 ^ 31).
    { change (not32 (2 ^ 31)) with (Z.ones 31). apply Z.land_ones. lia. }
    rewrite E. apply resolve_exported; [done | lia].
  - change (negb (0 =? 0)) with false. cbv iota. split; [by intros [= ->] | by intros ->].
Qed.

(** The first [n] words at [o] are replaced as [W] says, and nothing else. *)
Record thunks_done (W : Z -> Z -> Prop) (n o : Z) (b b' : list Z) : Prop := {
  td_length : length b' = length b;
  td_word : forall k, 0 <= k < n -> W (field b (o + 4 * k)) (field b' (o + 4 * k));
  td_rest : forall x, ~ (o <= Z.of_nat x < o + 4 * n) -> nth x b' 0 = nth x b 0
}.

Lemma resolve_u32 ex ord a : XeResolveOrdinal ex ord = Some a -> is_u32 a.
Proof. unfold XeResolveOrdinal. case_match; [done |]. intros [= <-]. apply u32_range. Qed.

Section thunks.
Context (I : image) (j : nat) (s : sec) (ex : exports).
Hypothesis L : layout I.
Hypothesis Hj : i_secs I !! j = Some s.
Hypothesis Hv : s_vs s <> 0.

Lemma word_read A v l o : image_holds I A v -> A !! j = Some (Some l) -> 0 <= o -> o + 4 <= s_vs s -> rd32 (s_va s + o) v = Some (Done (field (body l) o), v).
Proof using L Hj Hv.
  intros H Ha H1 H2. apply rd32_run. unfold ld32. rewrite (body_read I A v L H j s l) by (done || lia). cbn [option_map]. rewrite load32_take. unfold field. do 3 f_equal. lia.
Qed.

Lemma thunks_run n : forall fuel A v r b o, image_holds I A v -> A !! j = Some (Some (Load r b)) -> 0 <= o -> o + 4 * (Z.of_nat n + 1) <= s_vs s ->
  (forall k, 0 <= k < Z.of_nat n -> field b (o + 4 * k) <> 0 /\ is_Some (thunk_word ex (field b (o + 4 * k)))) -> field b (o + 4 * Z.of_nat n) = 0 -> (n < fuel)%nat ->
  exists v' b', resolve_thunks fuel ex (s_va s + o) v = Some (Done tt, v') /\ image_holds I (<[j := Some (Load r b')]> A) v' /\ elsewhere I v v' /\
    thunks_done (fun x y => thunk_word ex x = Some y) (Z.of_nat n) o b b'.
Proof using L Hj Hv.
  induction n as [| n IH]; intros fuel A v r b o H Ha Ho Hl Hw Hz Hf; (destruct fuel as [| fuel]; [lia |]); cbn [resolve_thunks].
  { rewrite (bind_done _ _ v _ v (word_read A v _ o H Ha Ho ltac:(lia))). cbn [body]. replace (o + 4 * Z.of_nat 0) with o in Hz by lia. rewrite Hz. exists v, b.
    split; [done |]. rewrite list_insert_id by done. split; [done |]. split; [done |]. constructor; [done | lia | done]. }
  rewrite (bind_done _ _ v _ v (word_read A v _ o H Ha Ho ltac:(lia))). cbn [body]. destruct (Hw 0 ltac:(lia)) as [Hn [a Ea]]. replace (o + 4 * 0) with o in Hn, Ea by lia.
  rewrite (proj2 (Z.eqb_neq _ 0) Hn). pose proof (body_length I A v L H j s _ Hj Ha Hv) as El. cbn [body] in El.
  assert (S : exists v1 b1, (if negb (Z.land (field b o) XBE_THUNK_ORDINAL =? 0) then
        match XeResolveOrdinal ex (Z.land (field b o) (not32 XBE_THUNK_ORDINAL)) with
        | None => fun v => Some (Bugcheck XBE_BUGCHECK_UNIMPL (Z.land (field b o) (not32 XBE_THUNK_ORDINAL)), v)
        | Some a => wr (store32 a) (s_va s + o) end else mret tt) v = Some (Done tt, v1) /\
      image_holds I (<[j := Some (Load r b1)]> A) v1 /\ elsewhere I v v1 /\ thunks_done (fun x y => thunk_word ex x = Some y) 1 o b b1).
  { unfold thunk_word in Ea. destruct (negb (Z.land (field b o) XBE_THUNK_ORDINAL =? 0)) eqn:Eb.
    - rewrite Ea. pose proof (resolve_u32 _ _ _ Ea) as Hu.
      destruct (store_call I A v L H [] j s _ o (store32 a) Hj Ha Hv (store32_bytes a) Ho) as (v1 & A1 & E1 & Ab & H1 & W1 & _); [cbn [length store32]; lia |].
      unfold abs_call in Ab. rewrite Ha in Ab. cbn [refs body] in Ab. destruct (sec_body I L j s Hj Hv) as (B1 & _ & _ & B4 & B5). unfold NXV_LOWEST, NXV_HIGHEST in *. rewrite add32_id in E1 by lia.
      exists v1, (write b (Z.to_nat o) (store32 a)). split; [done |]. split; [by rewrite <- Ab |]. split; [done |].
      assert (L4 : length (store32 a) = 4%nat) by done. constructor.
      + apply length_write. lia.
      + intros k Hk. replace k with 0 by lia. replace (o + 4 * 0) with o by lia. unfold thunk_word. rewrite Eb, field_write_eq by (done || lia). done.
      + intros x Hx. rewrite nth_write, decide_False by lia. done.
    - exists v, b. split; [done |]. rewrite list_insert_id by done. split; [done |]. split; [done |]. constructor; [done | | done]. intros k Hk. replace k with 0 by lia. replace (o + 4 * 0) with o by lia.
      unfold thunk_word. by rewrite Eb. }
  destruct S as (v1 & b1 & E1 & H1 & W1 & [D1 D2 D3]). rewrite (bind_done _ _ v tt v1 E1). destruct (sec_body I L j s Hj Hv) as (B1 & _ & _ & B4 & B5). unfold NXV_LOWEST, NXV_HIGHEST in *.
  rewrite add32_id by lia. replace (s_va s + o + 4) with (s_va s + (o + 4)) by lia.
  assert (Fk : forall k, 0 <= k -> field b1 (o + 4 + 4 * k) = field b (o + 4 + 4 * k)) by (intros k Hk; rewrite !field_nth; rewrite !D3 by lia; done).
  destruct (IH fuel (<[j := Some (Load r b1)]> A) v1 r b1 (o + 4) H1) as (v2 & b2 & E2 & H2 & W2 & [F1 F2 F3]).
  - apply list_lookup_insert_eq. by apply lookup_lt_Some in Ha.
  - lia.
  - lia.
  - intros k Hk. rewrite Fk by lia. replace (o + 4 + 4 * k) with (o + 4 * (k + 1)) by lia. apply Hw. lia.
  - rewrite Fk by lia. rewrite <- Hz. f_equal. lia.
  - lia.
  - exists v2, b2. split; [done |]. rewrite list_insert_insert_eq in H2. split; [done |]. split; [by etransitivity |]. constructor; [congruence | |].
    + intros k Hk. destruct (Z.eq_dec k 0) as [-> | Hk0].
      * rewrite (D2 0) by lia. f_equal. rewrite !field_nth. rewrite !F3 by lia. done.
      * replace (o + 4 * k) with (o + 4 + 4 * (k - 1)) by lia. rewrite <- F2 by lia. by rewrite Fk by lia.
    + intros x Hx. rewrite F3, D3 by lia. done.
Qed.

End thunks.

(** ** Keys *)

Section keys.
Context (file : list Z) (junk : list Z).

Definition x_cert : Z := field file 0x118.

(** The certificate is in the headers, or there is none. *)
Definition cert_ok : Prop := x_cert = 0 \/ x_base file <= x_cert /\ x_cert + CERT_SIZE_WITH_ALTERNATES <= x_base file + x_headers file.

(** The HMAC of a field of the certificate under the kernel's key, cut to the
    length of a key. *)
Definition title_key (off : Z) : list Z :=
  take 16 (FIPS180.hmac NxkTitleCertificateKey (take 16 (drop (Z.to_nat (x_cert - x_base file + off)) file))).

Definition title_keys : list Z * list Z * list (list Z) :=
  if x_cert =? 0 then (replicate 16 0, replicate 16 0, no_keys)
  else (title_key CERT_LAN_KEY, title_key CERT_SIGNATURE_KEY,
        if field file (x_cert - x_base file) <? CERT_SIZE_WITH_ALTERNATES then no_keys
        else (fun i => title_key (CERT_ALTERNATE_KEYS + Z.of_nat i * XBOX_KEY_LENGTH)) <$> seq 0 16).

Hypothesis G : good_xbe file.
Hypothesis Hc : cert_ok.
Hypothesis Hj : length junk = 64%nat.
Hypothesis Hb : bytes junk.
Context (v : vm).
Hypothesis Hr : ld_bytes (Z.to_nat (x_headers file)) (mem v) (x_base file) = Some (take (Z.to_nat (x_headers file)) file).
Hypothesis Hne : x_cert <> 0.

Lemma cert_read off n : 0 <= off -> off + Z.of_nat n <= CERT_SIZE_WITH_ALTERNATES ->
  ld_bytes n (mem v) (x_cert + off) = Some (take n (drop (Z.to_nat (x_cert - x_base file + off)) file)) /\ add32 x_cert off = x_cert + off.
Proof using G Hc Hr Hne.
  clear Hj Hb. intros H1 H2. pose proof (base_range file G) as (B1 & B2 & _). pose proof (gx_size _ G) as Hs. destruct Hc as [? | [C1 C2]]; [done |]. split; [| apply add32_id; lia].
  replace (x_cert + off) with (x_base file + (x_cert - x_base file + off)) by lia.
  rewrite (ld_sub (Z.to_nat (x_headers file)) (mem v) (x_base file) _ _ n ltac:(unfold NXV_LOWEST; lia) ltac:(unfold NXV_HIGHEST; lia) Hr) by lia. f_equal.
  set (o := Z.to_nat (x_cert - x_base file + off)). replace (Z.to_nat (x_headers file)) with (o + (Z.to_nat (x_headers file) - o))%nat by (unfold o; lia).
  rewrite <- take_drop_commute, take_take, Nat.min_l by (unfold o; lia). done.
Qed.

Lemma derive_run off : 0 <= off -> off + 16 <= CERT_SIZE_WITH_ALTERNATES -> derive_at junk x_cert off v = Some (Done (title_key off), v).
Proof using G Hc Hr Hne Hj Hb.
  intros H1 H2. destruct (cert_read off 16 H1 H2) as [E Ea]. unfold derive_at. rewrite Ea, (bind_done _ _ v _ v (rd_bytes_run _ _ v _ E)). unfold NxkDeriveKey, NxkHmacSha1, title_key, mret, X_ret.
  pose proof (bytes_take 16 _ (bytes_drop (Z.to_nat (x_cert - x_base file + off)) file (gx_bytes _ G))) as Hd.
  rewrite xc_hmac_correct; [by rewrite app_nil_r | done | done | apply bytes_zero | done | constructor | rewrite length_take; lia | cbn [length]; lia].
Qed.

Local Opaque title_key.

Lemma alternates_run n : forall i, 0 <= i -> i + Z.of_nat n <= 16 ->
  derive_alternates n junk x_cert i v = Some (Done ((fun k => title_key (CERT_ALTERNATE_KEYS + (i + Z.of_nat k) * XBOX_KEY_LENGTH)) <$> seq 0 n), v).
Proof using G Hc Hr Hne Hj Hb.
  induction n as [| n IH]; intros i H1 H2; cbn [derive_alternates]; [done |]. unfold CERT_SIZE_WITH_ALTERNATES, XBOX_ALTERNATE_KEYS, CERT_ALTERNATE_KEYS, XBOX_KEY_LENGTH in *.
  rewrite (bind_done _ _ v _ v (derive_run (0xD0 + i * 16) ltac:(lia) ltac:(unfold CERT_SIZE_WITH_ALTERNATES, XBOX_ALTERNATE_KEYS, CERT_ALTERNATE_KEYS, XBOX_KEY_LENGTH; lia))).
  rewrite (bind_done _ _ v _ v (IH (i + 1) ltac:(lia) ltac:(lia))). unfold mret, X_ret. cbn [seq]. rewrite fmap_cons, <- fmap_S_seq, <- list_fmap_compose. replace (i + Z.of_nat 0) with i by lia.
  assert (Et : (fun k => title_key (0xD0 + (i + 1 + Z.of_nat k) * 16)) <$> seq 0 n = (fun k => title_key (0xD0 + (i + Z.of_nat k) * 16)) ∘ S <$> seq 0 n).
  { apply list_fmap_ext. intros k x _. unfold compose. apply (f_equal title_key). lia. }
  rewrite Et. reflexivity.
Qed.

End keys.

Lemma keys_run file junk l : good_xbe file -> cert_ok file -> length junk = 64%nat -> bytes junk ->
  ld_bytes (Z.to_nat (x_headers file)) (mem (lvm l)) (x_base file) = Some (take (Z.to_nat (x_headers file)) file) ->
  let '(a, b, c) := title_keys file in NxkDeriveTitleKeys junk (x_cert file) l = Some (Done tt, set_keys a b c l).
Proof.
  intros G Hc Hj Hb Hr. unfold title_keys, NxkDeriveTitleKeys. rewrite (ybind_done _ _ l tt _ eq_refl). set (l0 := set_keys _ _ _ l). destruct (Z.eqb_spec (x_cert file) 0) as [E | E]; [done |].
  change (lvm l) with (lvm l0) in Hr. destruct (cert_read file G Hc (lvm l0) Hr E 0 4 ltac:(lia) ltac:(done)) as [E4 _]. rewrite !Z.add_0_r in E4.
  assert (Es : rd32 (x_cert file) (lvm l0) = Some (Done (field file (x_cert file - x_base file)), lvm l0)) by (apply rd32_run; unfold ld32; rewrite E4; cbn [option_map]; by rewrite load32_take).
  rewrite (ybind_done _ _ l0 _ l0 (lift_same _ l0 _ Es)).
  rewrite (ybind_done _ _ l0 _ l0 (lift_same _ l0 _ (derive_run file junk G Hc Hj Hb (lvm l0) Hr E CERT_LAN_KEY ltac:(done) ltac:(done)))).
  rewrite (ybind_done _ _ l0 _ l0 (lift_same _ l0 _ (derive_run file junk G Hc Hj Hb (lvm l0) Hr E CERT_SIGNATURE_KEY ltac:(done) ltac:(done)))).
  rewrite (ybind_done _ _ l0 tt _ eq_refl). destruct (field file (x_cert file - x_base file) <? CERT_SIZE_WITH_ALTERNATES); [done |]. set (l1 := set_keys _ _ _ l0).
  rewrite (ybind_done _ _ l1 _ l1 (lift_same _ l1 _ (alternates_run file junk G Hc Hj Hb (lvm l1) Hr E 16 0 ltac:(lia) ltac:(lia)))). done.
Qed.

(** ** Thread-local data *)

(** A block from the pool is cut so that the data after its first word starts
    at a multiple of 16. *)
Lemma alloc_tls_aligned raw : 0 < raw -> raw + 32 < 2 ^ 32 -> raw <= XeAllocTls raw < raw + 16 /\ (XeAllocTls raw + 4) mod 16 = 0.
Proof.
  intros H1 H2. unfold XeAllocTls. rewrite (proj2 (Z.eqb_neq raw 0)) by lia. rewrite add32_id by lia. change 15 with (2 ^ 4 - 1). rewrite land_not_ones by lia. change (2 ^ 4) with 16.
  pose proof (Z.mod_pos_bound (raw + 19) 16 ltac:(lia)) as Hm. pose proof (Z.div_mod (raw + 19) 16 ltac:(lia)) as Hd. rewrite sub32_id by lia. split; [lia |].
  replace (raw + 19 - (raw + 19) mod 16 - 4 + 4) with ((raw + 19) / 16 * 16) by lia. apply Z.mod_mul. lia.
Qed.

(** The directory at [Tls] says: data from [a] to [b], then [zf] zeros. *)
Record tls_dir (m : mm) (Tls a b zf : Z) : Prop := {
  td_a : ld32 m Tls = Some a;
  td_b : ld32 m (Tls + 4) = Some b;
  td_zf : ld32 m (Tls + 16) = Some zf;
  td_at : 0 <= Tls /\ Tls + 16 < 2 ^ 32;
  td_order : 0 <= a <= b;
  td_fits : b < 2 ^ 32 /\ 0 <= zf /\ b - a + zf + 32 < 2 ^ 32
}.

(** The size of the block: a word and the data and zeros, in whole units of 16. *)
Definition tls_size (a b zf : Z) : Z := (b - a + zf + 15) / 16 * 16 + 4.

Lemma setup_tls_run raw Tls a b zf d v : tls_dir (mem v) Tls a b zf -> ld_bytes (Z.to_nat (b - a)) (mem v) a = Some d ->
  XeSetupEntryTls raw Tls v = Some (Done (if XeAllocTls raw =? 0 then (0, tls_size a b zf, []) else
    (XeAllocTls raw, tls_size a b zf, store32 (add32 (XeAllocTls raw) 4) ++ d ++ replicate (Z.to_nat (tls_size a b zf) - 4 - length d) 0)), v).
Proof.
  intros [Ea Eb Ez At Or Fi] Ed. assert (Ld : length d = Z.to_nat (b - a)).
  { revert Ed. clear. generalize (Z.to_nat (b - a)). intros n. revert a d. induction n as [| n IH]; intros a d; cbn [ld_bytes]; [by intros [= <-] |].
    destruct (ld8 (mem v) a); [| done]. destruct (ld_bytes n (mem v) (add32 a 1)) eqn:E; [| done]. intros [= <-]. cbn [length]. by rewrite (IH _ _ E). }
  assert (Sz : add32 (Z.land (add32 (add32 (sub32 b a) zf) 15) (not32 15)) 4 = tls_size a b zf).
  { rewrite sub32_id, (add32_id (b - a)), (add32_id (b - a + zf)) by lia. change (not32 15) with (not32 (2 ^ 4 - 1)). rewrite land_not_ones by lia. change (2 ^ 4) with 16.
    pose proof (Z.mod_pos_bound (b - a + zf + 15) 16 ltac:(lia)). pose proof (Z.div_mod (b - a + zf + 15) 16 ltac:(lia)). unfold tls_size. rewrite add32_id; lia. }
  unfold XeSetupEntryTls. rewrite (add32_id Tls 4), (add32_id Tls 16) by lia.
  rewrite (bind_done _ _ v _ v (rd32_run _ v _ Eb)), (bind_done _ _ v _ v (rd32_run _ v _ Ea)), (bind_done _ _ v _ v (rd32_run _ v _ Ez)). rewrite Sz.
  destruct (XeAllocTls raw =? 0); [done |]. set (h := store32 _). assert (Lh : length h = 4%nat) by done.
  pose proof (Z.div_mod (b - a + zf + 15) 16 ltac:(lia)). pose proof (Z.mod_pos_bound (b - a + zf + 15) 16 ltac:(lia)).
  assert (Ez0 : write (replicate (Z.to_nat (tls_size a b zf)) 0) 0 h = h ++ replicate (Z.to_nat (tls_size a b zf) - 4) 0) by (unfold write; rewrite take_0, drop_replicate; done).
  rewrite Ez0. rewrite sub32_id by lia. destruct (Z.eqb_spec (b - a) 0) as [E0 | E0]; cbn [negb].
  - destruct d as [| x d]; [| cbn [length] in Ld; lia]. cbn [length app]. by rewrite Nat.sub_0_r.
  - rewrite (bind_done _ _ v _ v (rd32_run _ v _ Ea)), (bind_done _ _ v _ v (rd_bytes_run _ _ v _ Ed)). unfold mret, X_ret. do 4 f_equal. unfold write.
    rewrite take_app_length' by done. f_equal. f_equal. rewrite drop_app_ge by lia. rewrite Lh, drop_replicate. f_equal. lia.
Qed.

(** ** The whole load *)

(** Address [a] of an image, at [base] of [size] bytes, is kept as [word]:
    under the retail key, or under the debug key where the retail key does
    not lead into the image. *)
Definition encodes (base size word retail debug a : Z) : Prop :=
  base <= a < base + size /\ (word = Z.lxor a retail \/ word = Z.lxor a debug /\ ~ (base <= Z.lxor word retail < base + size)).

Lemma decode_encodes base size word retail debug a : 0 <= base -> 0 <= size -> base + size < 2 ^ 32 -> encodes base size word retail debug a ->
  XeDecodeAddr word retail debug base size = a.
Proof.
  intros Hb Hs Hw [Ha [-> | [-> Hn]]]; unfold XeDecodeAddr; rewrite add32_id by lia.
  - rewrite Z.lxor_assoc, Z.lxor_nilpotent, Z.lxor_0_r. by rewrite (proj2 (Z.leb_le base a)), (proj2 (Z.ltb_lt a (base + size))) by lia.
  - destruct ((_ <=? _) && (_ <? _)) eqn:E; [exfalso; lia |]. by rewrite Z.lxor_assoc, Z.lxor_nilpotent, Z.lxor_0_r.
Qed.

Section whole.
Context (file : list Z) (w : world) (e th : Z) (j : nat) (s : sec) (n : nat).
Let I : image := image_of file.
Let base : Z := x_base file.

(** The entry [e] and the thunk table [th], as the headers keep them. *)
Definition entry_is : Prop := encodes (x_base file) (x_image file) (field file 0x128) XOR_EP_RETAIL XOR_EP_DEBUG e.
Definition thunks_are : Prop := encodes (x_base file) (x_image file) (field file 0x158) XOR_KT_RETAIL XOR_KT_DEBUG th.
Definition x_tls : Z := field file 0x12C.

(** The thunk table: [n] words and a 0 in section [j], which is there from the
    start; each ordinal is one that the kernel exports. *)
Record table_at : Prop := {
  ta_sec : i_secs (image_of file) !! j = Some s;
  ta_pre : preload s = true;
  ta_vs : s_vs s <> 0;
  ta_range : s_va s <= th /\ th + 4 * (Z.of_nat n + 1) <= s_va s + s_vs s;
  ta_words : forall k, 0 <= k < Z.of_nat n ->
    field (content file s) (th - s_va s + 4 * k) <> 0 /\ exists y, resolves (kernel w) (field (content file s) (th - s_va s + 4 * k)) y;
  ta_base : 0 <= ExportBase (kernel w);
  ta_end : field (content file s) (th - s_va s + 4 * Z.of_nat n) = 0
}.

(** The directory of the thread-local data is in a section, apart from the
    thunks, and the data it names is in a section. *)
Record tls_at (a b zf : Z) : Prop := {
  tl_dir : exists i t, i_secs (image_of file) !! i = Some t /\ preload t = true /\ s_vs t <> 0 /\ s_va t <= x_tls /\ x_tls + 24 <= s_va t + s_vs t /\
    field (content file t) (x_tls - s_va t) = a /\ field (content file t) (x_tls - s_va t + 4) = b /\ field (content file t) (x_tls - s_va t + 16) = zf;
  tl_apart : x_tls + 24 <= th \/ th + 4 * Z.of_nat n <= x_tls;
  tl_data : exists i t, i_secs (image_of file) !! i = Some t /\ preload t = true /\ s_vs t <> 0 /\ s_va t <= a /\ a <= b /\ b <= s_va t + s_vs t;
  tl_fits : 0 <= zf /\ b - a + zf + 32 < 2 ^ 32
}.

Definition tls_ok : Prop := x_tls = 0 \/ exists a b zf, tls_at a b zf.

(** What the pool gave for the block: nothing, or memory that does not reach
    the end of the address space. *)
Definition raw_ok : Prop := tls_raw w = 0 \/ 0 < tls_raw w /\ tls_raw w + 32 < 2 ^ 32.

(** The block of the entry thread.  Without thread-local data it has none,
    and also where the pool gave no memory.  Otherwise it starts in the first
    16 bytes of that memory, so that the data, after a word that holds its
    address, is aligned to 16: the bytes that the image holds, then zeros. *)
Definition tls_given (m : mm) (t : entry_thread) : Prop :=
  if x_tls =? 0 then TlsData t = 0 /\ TlsSize t = 0
  else exists a b zf d, tls_at a b zf /\ ld_bytes (Z.to_nat (b - a)) m a = Some d /\ TlsSize t = tls_size a b zf /\
    if tls_raw w =? 0 then TlsData t = 0 /\ TlsBytes t = []
    else tls_raw w <= TlsData t < tls_raw w + 16 /\ (TlsData t + 4) mod 16 = 0 /\
      TlsBytes t = store32 (TlsData t + 4) ++ d ++ replicate (Z.to_nat (tls_size a b zf) - 4 - length d) 0.

(** The title is in place and its thread is started. *)
Record runs (l : loader) : Prop := {
  rn_image : exists b', thunks_done (resolves (kernel w)) (Z.of_nat n) (th - s_va s) (content file s) b' /\
    image_holds (image_of file) (<[j := Some (Load 1 b')]> (preloaded file (length (i_secs (image_of file))))) (lvm l);
  rn_keys : (XboxLANKey l, XboxSignatureKey l, XboxAlternateSignatureKeys l) = title_keys file;
  rn_thread : exists t, started l = Some t /\ StartContext t = e /\ StackSize t = field file 0x130 /\ tls_given (mem (lvm l)) t;
  rn_handle : XepImageFileHandle l = true
}.

Hypothesis G : good_xbe file.
Hypothesis He : entry_is.
Hypothesis Hth : thunks_are.
Hypothesis Ht : table_at.
Hypothesis Htls : tls_ok.
Hypothesis Hraw : raw_ok.

Lemma entry_decoded : XeDecodeAddr (field file 0x128) XOR_EP_RETAIL XOR_EP_DEBUG (x_base file) (x_image file) = e.
Proof using G He. pose proof (base_range file G) as (B1 & _ & B3 & B4). by apply decode_encodes; [lia | lia | lia |]. Qed.

Lemma thunks_decoded : XeDecodeAddr (field file 0x158) XOR_KT_RETAIL XOR_KT_DEBUG (x_base file) (x_image file) = th.
Proof using G Hth. pose proof (base_range file G) as (B1 & _ & B3 & B4). by apply decode_encodes; [lia | lia | lia |]. Qed.

(** The loop's words are the specified ones. *)
Lemma word_resolves x y : is_u32 x -> thunk_word (kernel w) x = Some y <-> resolves (kernel w) x y.
Proof using Ht. apply thunk_resolves, (ta_base Ht). Qed.

Lemma done_resolves b' : thunks_done (fun x y => thunk_word (kernel w) x = Some y) (Z.of_nat n) (th - s_va s) (content file s) b' ->
  thunks_done (resolves (kernel w)) (Z.of_nat n) (th - s_va s) (content file s) b'.
Proof using G Ht.
  intros [D1 D2 D3]. constructor; [done | | done]. intros k Hk. apply word_resolves; [| by apply D2]. apply field_range, content_bytes, (gx_bytes _ G).
Qed.

Lemma table_words k : 0 <= k < Z.of_nat n -> field (content file s) (th - s_va s + 4 * k) <> 0 /\
  is_Some (thunk_word (kernel w) (field (content file s) (th - s_va s + 4 * k))).
Proof using G Ht.
  intros Hk. destruct (ta_words Ht k Hk) as [Hz [y Hy]]. split; [done |]. exists y. apply word_resolves; [| done]. apply field_range, content_bytes, (gx_bytes _ G).
Qed.

Lemma thunks_nonzero : (th =? 0) = false.
Proof using G Ht.
  destruct (sec_body (image_of file) (gx_layout _ G) j s (ta_sec Ht) (ta_vs Ht)) as (_ & _ & _ & B & _). destruct (ta_range Ht) as [R _]. unfold NXV_LOWEST in B. apply Z.eqb_neq. lia.
Qed.

Section after.
Context (v : vm) (b' : list Z).
Hypothesis Td : thunks_done (resolves (kernel w)) (Z.of_nat n) (th - s_va s) (content file s) b'.
Let A : list (option load) := <[j := Some (Load 1 b')]> (preloaded file (length (i_secs (image_of file)))).
Hypothesis H : image_holds (image_of file) A v.

Lemma loaded_at i t : i_secs (image_of file) !! i = Some t -> preload t = true -> exists l, A !! i = Some (Some l) /\ body l = if decide (i = j) then b' else content file t.
Proof using.
  intros Hi Hp. unfold A. pose proof (lookup_lt_Some _ _ _ Hi) as Hl. case_decide as E.
  - subst i. rewrite list_lookup_insert_eq by (by rewrite length_preloaded). eauto.
  - rewrite list_lookup_insert_ne, (preloaded_lookup file _ i t Hi), decide_True by (done || lia). rewrite Hp. eauto.
Qed.

Lemma dir_word i t o : i_secs (image_of file) !! i = Some t -> preload t = true -> s_vs t <> 0 -> s_va t <= x_tls -> x_tls + 24 <= s_va t + s_vs t ->
  (x_tls + 24 <= th \/ th + 4 * Z.of_nat n <= x_tls) -> 0 <= o <= 20 ->
  ld32 (mem v) (x_tls + o) = Some (field (content file t) (x_tls - s_va t + o)).
Proof using G Td H Ht.
  intros Hi Hp Hv H1 H2 Ha Ho. destruct (loaded_at i t Hi Hp) as (l & El & Eb). unfold ld32.
  rewrite (body_read _ A v (gx_layout _ G) H i t l) by (done || lia). cbn [option_map]. rewrite load32_take. f_equal.
  replace (x_tls + o - s_va t) with (x_tls - s_va t + o) by lia. fold (field (body l) (x_tls - s_va t + o)). rewrite Eb. case_decide as E; [| done].
  subst i. pose proof (ta_sec Ht) as Hs. rewrite Hs in Hi. injection Hi as <-. rewrite !field_nth. by rewrite !(td_rest _ _ _ _ _ Td) by lia.
Qed.

Lemma tls_run : x_tls <> 0 -> exists a b zf d, tls_at a b zf /\ ld_bytes (Z.to_nat (b - a)) (mem v) a = Some d /\
  XeSetupEntryTls (tls_raw w) x_tls v = Some (Done (if XeAllocTls (tls_raw w) =? 0 then (0, tls_size a b zf, []) else
    (XeAllocTls (tls_raw w), tls_size a b zf, store32 (add32 (XeAllocTls (tls_raw w)) 4) ++ d ++ replicate (Z.to_nat (tls_size a b zf) - 4 - length d) 0)), v).
Proof using G Td H Ht Htls.
  intros Hne. destruct Htls as [? | (a & b & zf & T)]; [done |]. destruct (tl_dir _ _ _ T) as (i & t & Hi & Hp & Hv & R1 & R2 & Fa & Fb & Fz). destruct (tl_data _ _ _ T) as (i2 & t2 & Hi2 & Hp2 & Hv2 & S1 & S2 & S3).
  destruct (loaded_at i2 t2 Hi2 Hp2) as (l2 & El2 & _). pose proof (body_read _ A v (gx_layout _ G) H i2 t2 l2 a (Z.to_nat (b - a)) Hi2 El2 Hv2 S1 ltac:(lia)) as Ed.
  pose proof (sec_body _ (gx_layout _ G) i t Hi Hv) as (_ & _ & _ & B1 & B2). pose proof (sec_body _ (gx_layout _ G) i2 t2 Hi2 Hv2) as (_ & _ & _ & B3 & B4). unfold NXV_LOWEST, NXV_HIGHEST in *.
  pose proof (tl_apart _ _ _ T) as Ap. eexists a, b, zf, _. split; [done |]. split; [exact Ed |]. apply setup_tls_run; [| exact Ed]. constructor.
  - pose proof (dir_word i t 0 Hi Hp Hv R1 R2 Ap ltac:(lia)) as E. by rewrite !Z.add_0_r, Fa in E.
  - by rewrite (dir_word i t 4 Hi Hp Hv R1 R2 Ap ltac:(lia)), Fb.
  - by rewrite (dir_word i t 16 Hi Hp Hv R1 R2 Ap ltac:(lia)), Fz.
  - lia.
  - lia.
  - pose proof (tl_fits _ _ _ T). lia.
Qed.

End after.

Hypothesis Hio : serves file (file_io w).
Hypothesis Hc : cert_ok file.
Hypothesis Hk : length (stack_junk w) = 64%nat.
Hypothesis Hb : bytes (stack_junk w).
Context (fuel : nat).
Hypothesis F1 : (Z.to_nat (x_sections file) < fuel)%nat.
Hypothesis F2 : (n < fuel)%nat.

(** From the headers in place to the entry thread. *)
Lemma run_title_run l : image_holds (image_of file) (preloaded file 0) (lvm l) -> header_holds file (lvm l) ->
  ld_bytes (Z.to_nat (x_headers file)) (mem (lvm l)) (x_base file) = Some (take (Z.to_nat (x_headers file)) file) ->
  exists st l' A, run_title fuel w (x_base file) l = Some (Done st, l') /\ image_holds (image_of file) A (lvm l') /\ elsewhere (image_of file) (lvm l) (lvm l') /\
    XeImageRangeStart l' = XeImageRangeStart l /\ XeImageRangeEnd l' = XeImageRangeEnd l /\
    (reads w -> pool_ctx w = true -> NT_SUCCESS (spawn_status w) = true -> image_stocked file (lvm l) -> st = STATUS_SUCCESS) /\
    if NT_SUCCESS st then st = STATUS_SUCCESS /\ runs l' else started l' = started l.
Proof using All.
  intros H Hh Hr. pose proof (gx_layout _ G) as L. unfold run_title.
  rewrite (ybind_done _ _ l _ l (lift_same _ l _ (header_run file G _ 0x118 Hh ltac:(lia)))). pose proof (keys_run file (stack_junk w) l G Hc Hk Hb Hr) as Ek. destruct (title_keys file) as [[ka kb] kc] eqn:Etk.
  fold (x_cert file). rewrite (ybind_done _ _ l tt _ Ek), (ybind_done _ _ _ tt _ eq_refl). set (l1 := set_handle _). change (lvm l) with (lvm l1) in H, Hh.
  rewrite (ybind_done _ _ l1 _ l1 (lift_same _ l1 _ (header_run file G _ 0x120 Hh ltac:(lia)))).
  destruct (load_sections_run file w G Hio fuel 0 (lvm l1) H Hh) as (st & v2 & m & E2 & H2 & W2 & Hn & Hst); [lia | rewrite secs_length; lia |].
  rewrite (ybind_done _ _ l1 st (set_lvm v2 l1) (lift_done _ l1 _ _ E2)). set (l2 := set_lvm v2 l1).
  destruct (NT_SUCCESS st) eqn:En; cbn [negb].
  2: { exists st, l2, (preloaded file m). split; [done |]. split; [done |]. split; [done |]. split; [done |]. split; [done |]. split; [| by rewrite En].
       intros Hrd _ _ Sd. by apply Hst. }
  destruct (Hn eq_refl) as [-> ->]. pose proof (header_keep file G _ v2 Hh W2) as Hh2. change v2 with (lvm l2) in H2, W2, Hh2.
  rewrite (ybind_done _ _ l2 _ l2 (lift_same _ l2 _ (header_run file G _ 0x104 Hh2 ltac:(lia)))), (ybind_done _ _ l2 _ l2 (lift_same _ l2 _ (header_run file G _ 0x10C Hh2 ltac:(lia)))),
    (ybind_done _ _ l2 _ l2 (lift_same _ l2 _ (header_run file G _ 0x128 Hh2 ltac:(lia)))), (ybind_done _ _ l2 _ l2 (lift_same _ l2 _ (header_run file G _ 0x158 Hh2 ltac:(lia)))).
  cbv zeta. fold (x_base file) (x_image file). rewrite entry_decoded, thunks_decoded, thunks_nonzero. cbn [negb].
  pose proof (ta_sec Ht) as Hs. destruct (ta_range Ht) as [R1 R2].
  assert (Aj : preloaded file (length (i_secs (image_of file))) !! j = Some (Some (Load 1 (content file s)))).
  { rewrite (preloaded_lookup file _ j s Hs), decide_True by (by apply lookup_lt_Some in Hs). by rewrite (ta_pre Ht). }
  destruct (thunks_run (image_of file) j s (kernel w) L Hs (ta_vs Ht) n fuel _ (lvm l2) 1 (content file s) (th - s_va s) H2 Aj ltac:(lia) ltac:(lia) table_words (ta_end Ht) F2)
    as (v3 & b' & E3 & H3 & W3 & Td0). pose proof (done_resolves b' Td0) as Td. replace (s_va s + (th - s_va s)) with th in E3 by lia.
  rewrite (ybind_done _ _ l2 tt (set_lvm v3 l2) (lift_done _ l2 _ _ E3)). set (l3 := set_lvm v3 l2). pose proof (header_keep file G _ v3 Hh2 W3) as Hh3. change v3 with (lvm l3) in H3, W3, Hh3.
  rewrite (ybind_done _ _ l3 _ l3 (lift_same _ l3 _ (header_run file G _ 0x12C Hh3 ltac:(lia)))). fold x_tls. assert (W : elsewhere (image_of file) (lvm l) (lvm l3)) by (by etransitivity).
  assert (B : exists x y z, (if negb (x_tls =? 0) then lift (XeSetupEntryTls (tls_raw w) x_tls) else mret (0, 0, [])) l3 = Some (Done (x, y, z), l3) /\
    tls_given (mem (lvm l3)) (Thread e x y (field file 0x130) z)).
  { unfold tls_given. cbn [TlsData TlsSize TlsBytes]. destruct (Z.eqb_spec x_tls 0) as [E0 | E0]; cbn [negb]; [by exists 0, 0, [] |].
    destruct (tls_run (lvm l3) b' Td H3 E0) as (a & b & zf & d & T & Ed & E). rewrite (lift_same _ l3 _ E).
    destruct (Z.eqb_spec (tls_raw w) 0) as [Er | Er].
    - rewrite Er. change (XeAllocTls 0 =? 0) with true. cbv iota. eexists _, _, _. split; [done |]. by exists a, b, zf, d.
    - destruct Hraw as [? | [Hr1 Hr2]]; [done |]. destruct (alloc_tls_aligned (tls_raw w) Hr1 Hr2) as [A1 A2].
      rewrite (proj2 (Z.eqb_neq (XeAllocTls (tls_raw w)) 0)) by lia. rewrite add32_id by lia. eexists _, _, _. split; [done |]. by exists a, b, zf, d. }
  destruct B as (x & y & z & Eb & Tg). rewrite (ybind_done _ _ l3 _ l3 Eb). destruct (pool_ctx w) eqn:Ec; cbn [negb].
  2: { eexists STATUS_INSUFFICIENT_RESOURCES, l3, _. split; [done |]. split; [exact H3 |]. split; [done |]. split; [done |]. split; [done |]. split; [congruence | done]. }
  rewrite (ybind_done _ _ l3 _ l3 (lift_same _ l3 _ (header_run file G _ 0x130 Hh3 ltac:(lia)))). destruct (NT_SUCCESS (spawn_status w)) eqn:Es; cbn [negb].
  2: { eexists (spawn_status w), l3, _. split; [done |]. split; [exact H3 |]. split; [done |]. split; [done |]. split; [done |]. split; [congruence | by rewrite Es]. }
  rewrite (ybind_done _ _ l3 tt _ eq_refl). eexists STATUS_SUCCESS, _, _. split; [reflexivity |]. split; [exact H3 |]. split; [done |]. split; [done |]. split; [done |]. split; [done |].
  change (NT_SUCCESS STATUS_SUCCESS) with true. split; [done |]. constructor.
  - exists b'. done.
  - rewrite Etk. done.
  - eexists. split; [reflexivity |]. done.
  - done.
Qed.

(** *** The headers *)

(** Pages that are not the image's show what they showed. *)
Definition outside_kept (v v' : vm) : Prop :=
  forall a, title_addr a -> ~ (x_base file / 4096 <= a / 4096 < end_page (x_base file + x_image file) 0) -> ld8 (mem v') a = ld8 (mem v) a.

Section headers.
Context (v v1 : vm) (x : region).
Hypothesis P : pages_ok (mem v).
Hypothesis W0 : vm_wf v.
Hypothesis W1 : vm_wf v1.
Hypothesis Em : mem v1 = mem v.
Hypothesis Hx : x ∈ NxvRegionList v1.
Hypothesis Bx : Base x = x_base file.
Hypothesis Ex : x_base file + x_image file <= rend x.
Hypothesis Cx : clear_of (NxvRegionList v) (x_base file) (rend x).

Lemma image_pages : 4096 * (x_base file / 4096) = x_base file /\ 4096 * end_page (x_base file + x_image file) 0 <= rend x /\
  first_page (x_base file) = x_base file / 4096 /\ end_page (x_base file) (x_headers file) = hdr_page (image_of file) /\ hdr_page (image_of file) <= end_page (x_base file + x_image file) 0.
Proof using G W1 Hx Bx Ex.
  clear F1 F2 Hk Em Cx W0 P. destruct (region_range v1 x W1 Hx) as (_ & _ & _ & R4). pose proof (base_page _ (gx_layout _ G)) as Hbp. pose proof (hdr_pages _ (gx_layout _ G)) as (_ & _ & Q).
  change (i_base (image_of file)) with (x_base file) in Hbp. split; [lia |]. split; [| done].
  unfold end_page. pose proof (div_page (x_base file + x_image file + 0 + 4095)). pose proof (Z.div_mod (rend x) 4096 ltac:(lia)). lia.
Qed.

Lemma image_uncommitted k : x_base file / 4096 <= k < end_page (x_base file + x_image file) 0 -> k ∉ cset (mem v1).
Proof using G W0 W1 Em Hx Bx Ex Cx.
  clear F1 F2 Hk. intros Hk'. destruct image_pages as (E1 & E2 & _). rewrite Em. destruct (region_range v1 x W1 Hx) as (_ & _ & R3 & R4). rewrite Bx in R3.
  apply (reserved_clear v (x_base file) (rend x)); try done. lia.
Qed.

Lemma headers_read v2 v3 : vm_wf v2 -> NxvRegionList v2 = NxvRegionList v1 -> commits (mem v1) (mem v2) (x_base file / 4096) (hdr_page (image_of file)) ->
  v3 = with_mem (mem v3) v2 -> stored (mem v2) (mem v3) (x_base file) (take (Z.to_nat (x_headers file)) file) ->
  image_holds (image_of file) (preloaded file 0) v3 /\ header_holds file v3 /\
  ld_bytes (Z.to_nat (x_headers file)) (mem v3) (x_base file) = Some (take (Z.to_nat (x_headers file)) file).
Proof using G W0 W1 Em Hx Bx Ex Cx.
  clear F1 F2 Hk. intros W2 Er Cm E3 S. destruct image_pages as (E1 & E2 & E4 & E5 & E6). pose proof (gx_size _ G) as Hs. pose proof (base_range file G) as (B1 & B2 & B3 & B4). pose proof (gx_layout _ G) as L.
  set (h := take (Z.to_nat (x_headers file)) file) in *. assert (Lh : length h = Z.to_nat (x_headers file)) by (unfold h; rewrite length_take; lia).
  assert (Hr : ld_bytes (length h) (mem v3) (x_base file) = Some h) by (apply (stored_reads (mem v2)); [done | unfold NXV_LOWEST; lia | unfold NXV_HIGHEST; lia]).
  pose proof (x_describes file G) as De. fold h in De. pose proof (sd_tables _ _ _ _ S) as Sm.
  assert (Hc3 : forall k, k ∈ cset (mem v3) <-> k ∈ cset (mem v1) \/ title k /\ x_base file / 4096 <= k < hdr_page (image_of file)) by (intros k; rewrite (same_cset _ _ Sm); apply Cm).
  split; [| split; [| by rewrite <- Lh]].
  - rewrite preloaded_none. apply (image_start _ v3 h L Hr De).
    + rewrite E3. by apply same_vm_wf.
    + apply S.
    + exists x. rewrite E3. cbn [with_mem NxvRegionList]. rewrite Er, Bx. done.
    + apply (plain_same (mem v2)); [done |]. intros k Hk' Hc'. change (i_base (image_of file)) with (x_base file) in Hk'. change (i_end (image_of file)) with (x_base file + x_image file) in Hk'.
      rewrite (cm_bits _ _ _ _ Cm k (proj1 (proj1 (elem_of_cset _ _) Hc')) Hc'). case_decide as Ed; [done |]. exfalso. apply (cm_set _ _ _ _ Cm) in Hc' as [? | [_ ?]]; [by apply (image_uncommitted k) | done].
    + intros k Hk'. change (i_base (image_of file)) with (x_base file) in Hk'. pose proof (hdr_pages _ L) as (_ & Q & _). change (i_hend (image_of file)) with (x_base file + x_headers file) in Q. apply Hc3. right. split; [unfold title; lia | done].
  - intros o Ho. rewrite (field_read _ v3 h L Hr De) by (change (i_base (image_of file)) with (x_base file); change (i_hend (image_of file)) with (x_base file + x_headers file); lia).
    change (i_base (image_of file)) with (x_base file). replace (x_base file + o - x_base file) with o by lia. f_equal. unfold h. apply field_take; lia.
Qed.

End headers.

(** How a load ends. *)
Definition load_ends (l : loader) (st : Z) (l' : loader) : Prop :=
  vm_wf (lvm l') /\ pages_ok (mem (lvm l')) /\ outside_kept (lvm l) (lvm l') /\
  if NT_SUCCESS st then st = STATUS_SUCCESS /\ runs l' /\ XeImageRangeStart l' = x_base file /\ XeImageRangeEnd l' = x_base file + x_image file
  else started l' = started l.

Lemma load_stays l st l' : vm_wf (lvm l) -> pages_ok (mem (lvm l)) -> NT_SUCCESS st = false -> vm_wf (lvm l') -> mem (lvm l') = mem (lvm l) -> started l' = started l -> load_ends l st l'.
Proof. intros W P En W' Em Es. split; [done |]. rewrite Em. split; [done |]. split; [intros a _ _; by rewrite Em | by rewrite En]. Qed.

(** The read of the headers into committed pages. *)
Lemma headers_stored v1 v2 : vm_wf v2 -> commits (mem v1) (mem v2) (x_base file / 4096) (hdr_page (image_of file)) ->
  exists m3, st_bytes (snd (file_io w 0 (x_headers file))) (mem v2) (x_base file) = Some m3 /\ stored (mem v2) m3 (x_base file) (snd (file_io w 0 (x_headers file))) /\
    vm_wf (with_mem m3 v2) /\ outside_kept v1 (with_mem m3 v2).
Proof using G Hio.
  clear F1 F2 Hk. intros W2 Cm. pose proof (gx_size _ G) as Hs. pose proof (base_range file G) as (B1 & B2 & B3 & B4). pose proof (gx_layout _ G) as L.
  pose proof (hdr_pages _ L) as (Q1 & Q2 & Q3). change (i_hend (image_of file)) with (x_base file + x_headers file) in Q2. change (i_end (image_of file)) with (x_base file + x_image file) in Q3.
  pose proof (sv_len _ _ Hio 0 (x_headers file) ltac:(lia)) as Hl. set (d := snd (file_io w 0 (x_headers file))) in *.
  assert (Hp : forall a, x_base file <= a < x_base file + Z.of_nat (length d) -> x_base file / 4096 <= a / 4096 < hdr_page (image_of file))
    by (intros a Ha; apply (header_byte (image_of file) L); change (i_base (image_of file)) with (x_base file); change (i_hend (image_of file)) with (x_base file + x_headers file); lia).
  destruct (st_bytes_spec d (mem v2) (x_base file)) as (m3 & E & S); [apply W2 | apply Cm | unfold NXV_LOWEST; lia | unfold NXV_HIGHEST; lia | | apply (sv_bytes _ _ Hio) |].
  { intros a Ha. specialize (Hp a Ha). assert (Ta : title (a / 4096)) by (apply title_addr_page; unfold title_addr, NXV_LOWEST, NXV_HIGHEST; lia).
    apply rw_bits. rewrite (cm_bits _ _ _ _ Cm _ Ta); [by rewrite decide_True |]. apply (cm_set _ _ _ _ Cm). auto. }
  exists m3. split; [done |]. split; [done |]. split; [apply same_vm_wf; [apply S | done] |]. intros a Ta Ho. cbn [mem with_mem]. rewrite (sd_view _ _ _ _ S a Ta), decide_False.
  - rewrite (cm_view _ _ _ _ Cm a Ta), decide_False by lia. done.
  - intros Ha. specialize (Hp a Ha). lia.
Qed.

(** The commit of the headers, and their read. *)
Lemma headers_run l v1 x : pages_ok (mem (lvm l)) -> vm_wf (lvm l) -> vm_wf v1 -> mem v1 = mem (lvm l) -> x ∈ NxvRegionList v1 -> Base x = x_base file ->
  x_base file + x_image file <= rend x -> clear_of (NxvRegionList (lvm l)) (x_base file) (rend x) ->
  let l1 := set_image_range (x_base file) (add32 (x_base file) (x_image file)) (set_lvm v1 l) in
  exists st l', (r ← lift (XeNtAllocateVirtualMemory (pool_node w) (x_base file) (x_headers file) MEM_COMMIT PAGE_EXECUTE_READWRITE);
    if negb (NT_SUCCESS (fst r)) then mret (fst r)
    else
      status ← lift (ZwReadFile (file_io w) (snd r) (x_headers file) 0);
      if negb (NT_SUCCESS status) then mret status else run_title fuel w (snd r)) l1 = Some (Done st, l') /\ load_ends l st l' /\ (able file w (lvm l) -> st = STATUS_SUCCESS).
Proof using All.
  intros P W0 W1 Em Hx Bx Ex Cx l1. destruct (image_pages v1 x W1 Hx Bx Ex) as (E1 & E2 & E4 & E5 & E6). pose proof (gx_size _ G) as Hs. pose proof (base_range file G) as (B1 & B2 & B3 & B4).
  pose proof (gx_layout _ G) as L. assert (Hle : x_base file + x_headers file <= rend x).
  { pose proof (ly_ends _ L) as (_ & Q & _). pose proof (hdr_pages _ L) as (_ & Q2 & _). change (i_hend (image_of file)) with (x_base file + x_headers file) in Q2. lia. }
  destruct (commit_call v1 x (x_base file) (x_headers file) W1 Hx ltac:(lia) ltac:(lia) Hle (pool_node w)) as (r & E & W2 & Er & Eb & HS & Hst); [by rewrite Em | |].
  { rewrite E4, E5. intros k Hk' Hin. exfalso. apply (image_uncommitted (lvm l) v1 x W0 W1 Em Hx Bx Ex Cx k); [lia | done]. }
  rewrite E4, E5 in HS, Hst. rewrite E4, E1 in Eb.
  assert (Hst1 : able file w (lvm l) -> status r = STATUS_SUCCESS /\ image_stocked file (st r)).
  { intros Ab. apply Hst; [apply Z.div_le_lower_bound; lia | lia | lia | unfold end_page; apply Z.lt_succ_r, Z.div_lt_upper_bound; lia |]. rewrite Em. apply Ab. }
  assert (Er1 : lift (XeNtAllocateVirtualMemory (pool_node w) (x_base file) (x_headers file) MEM_COMMIT PAGE_EXECUTE_READWRITE) l1 = Some (Done (status r, OutBase r), set_lvm (st r) l1))
    by (unfold lift, XeNtAllocateVirtualMemory; cbn [lvm l1 set_image_range set_lvm]; by rewrite E).
  rewrite (ybind_done _ _ l1 _ _ Er1). cbn [fst snd]. destruct HS as [[Es Cm] | [En Cm]].
  2: { rewrite En in *. change (negb (NT_SUCCESS STATUS_NO_MEMORY)) with true. eexists _, _. split; [done |]. split; [| intros Ab; by destruct (Hst1 Ab)]. split; [done |]. split; [apply Cm |]. split; [| done].
       intros a Ta _. cbn [lvm set_lvm]. rewrite (cm_view _ _ _ _ Cm a Ta), decide_False, Em by lia. done. }
  rewrite (Eb Es), Es. change (negb (NT_SUCCESS STATUS_SUCCESS)) with false. cbv iota.
  destruct (headers_stored v1 (st r) W2 Cm) as (m3 & E3 & S & W3 & Out). set (l2 := set_lvm (st r) l1).
  assert (Er2 : lift (ZwReadFile (file_io w) (x_base file) (x_headers file) 0) l2 = Some (Done (fst (file_io w 0 (x_headers file))), set_lvm (with_mem m3 (st r)) l2)).
  { apply lift_done. unfold ZwReadFile. rewrite (bind_done _ _ _ tt (with_mem m3 (st r))); [done |]. unfold wr. cbn [lvm l2 set_lvm]. by rewrite E3. }
  rewrite (ybind_done _ _ l2 _ _ Er2). set (l3 := set_lvm (with_mem m3 (st r)) l2). assert (Out3 : outside_kept (lvm l) (lvm l3)) by (intros a Ta Ha; rewrite <- Em; by apply Out).
  pose proof (sv_data _ _ Hio 0 (x_headers file) ltac:(lia) ltac:(lia)) as Hd. destruct (NT_SUCCESS (fst (file_io w 0 (x_headers file)))) eqn:En; cbn [negb].
  2: { eexists _, l3. split; [done |]. split; [| intros Ab; by rewrite (ab_reads _ _ _ Ab) in En]. split; [done |]. split; [apply S |]. split; [done | by rewrite En]. }
  rewrite (Hd eq_refl) in S. change (drop (Z.to_nat 0) file) with file in S.
  destruct (headers_read (lvm l) v1 x W0 W1 Em Hx Bx Ex Cx (st r) (lvm l3) W2 Er Cm eq_refl S) as (H3 & Hh3 & Hr3).
  destruct (run_title_run l3 H3 Hh3 Hr3) as (st' & l4 & A & E4' & H4 & W4 & X1 & X2 & Ok & HS4). exists st', l4. split; [done |]. pose proof (ih_mem _ _ _ H4) as Hm.
  split; [| intros Ab; apply Ok; [apply Ab | apply Ab | apply Ab |]; apply (same_stocked (mem (st r))); [apply S | by apply Hst1]].
  split; [apply Hm |]. split; [apply Hm |]. split; [intros a Ta Ha; rewrite <- (Out3 a Ta Ha); by apply (ew_view _ _ _ W4) |].
  destruct (NT_SUCCESS st'); [| done]. destruct HS4 as [-> Rn]. split; [done |]. split; [done |]. rewrite X1, X2. cbn [l3 l2 l1 set_lvm set_image_range XeImageRangeStart XeImageRangeEnd].
  split; [done |]. apply add32_id. lia.
Qed.

Lemma map_image_run l : vm_wf (lvm l) -> pages_ok (mem (lvm l)) ->
  exists st l', map_image fuel w (x_base file) (x_image file) (x_headers file) l = Some (Done st, l') /\ load_ends l st l' /\ (able file w (lvm l) -> st = STATUS_SUCCESS).
Proof using All.
  intros W P. pose proof (base_range file G) as (B1 & B2 & B3 & B4). unfold map_image.
  destruct (reserve_call (lvm l) (pool_node w) (x_base file) (x_image file) W (gx_base _ G)) as (r & E & HS); [unfold NXV_LOWEST; lia | lia | unfold NXV_HIGHEST; lia |].
  assert (Er : lift (XeNtAllocateVirtualMemory (pool_node w) (x_base file) (x_image file) MEM_RESERVE PAGE_EXECUTE_READWRITE) l = Some (Done (status r, OutBase r), set_lvm (st r) l))
    by (unfold lift, XeNtAllocateVirtualMemory; by rewrite E).
  rewrite (ybind_done _ _ l _ _ Er). cbn [fst snd]. destruct HS as [(En & Es & Hno) | (-> & -> & W1 & Em & x & Hx & Bx & Ex & Cx)].
  - rewrite En. cbn [negb]. eexists _, _. split; [done |]. split; [apply load_stays; try done; cbn [lvm set_lvm]; by rewrite Es |].
    intros Ab. destruct (Hno (ab_node _ _ _ Ab) (ab_clear _ _ _ Ab)).
  - change (negb (NT_SUCCESS STATUS_SUCCESS)) with false. rewrite Z.eqb_refl. cbn [negb]. rewrite (ybind_done _ _ _ tt _ eq_refl). by apply (headers_run l (st r) x).
Qed.

(** From the file to the title's thread. *)
Lemma load_xbe_run l : vm_wf (lvm l) -> pages_ok (mem (lvm l)) -> exists st l', XeLoadXbe fuel w l = Some (Done st, l') /\ load_ends l st l' /\ (able file w (lvm l) -> st = STATUS_SUCCESS).
Proof using All.
  intros W P. pose proof (gx_size _ G) as Hs. unfold XeLoadXbe. destruct (file_io w 0 0x178) as [st hdrBuf] eqn:Eio.
  pose proof (sv_data _ _ Hio 0 0x178 ltac:(lia) ltac:(lia)) as Hd. rewrite Eio in Hd. cbn [fst snd] in Hd.
  destruct (NT_SUCCESS st) eqn:En.
  2: { exists st, l. split; [done |]. split; [by apply load_stays |]. intros Ab. pose proof (ab_reads _ _ _ Ab 0 0x178) as Hrd. rewrite Eio in Hrd. cbn [fst] in Hrd. congruence. }
  specialize (Hd eq_refl). change (drop (Z.to_nat 0) file) with file in Hd.
  assert (Hf : forall o, 0 <= o <= 0x174 -> field hdrBuf o = field file o) by (intros o Ho; rewrite Hd; apply field_take; lia).
  cbn [negb orb]. rewrite (proj2 (Z.ltb_ge (Z.of_nat (length hdrBuf)) 0x178)) by (rewrite Hd, length_take; lia).
  rewrite !Hf by lia. rewrite (gx_magic _ G), Z.eqb_refl. cbn [negb]. by apply map_image_run.
Qed.

End whole.

(** ** A title, concretely *)

Definition put_words (l : list Z) (ws : list (Z * Z)) : list Z := fold_left (fun l '(o, x) => write l (Z.to_nat o) (store32 x)) ws l.

(** Two sections that share a page: the first with the thunk table and the
    thread-local data, there from the start, the second on demand.  [c] is
    the counter that the second has for the shared page. *)
Definition sample_file (c : Z) : list Z :=
  put_words (replicate 0x440 0)
    [(0, XBE_MAGIC); (0x104, 0x10000); (0x108, 0x400); (0x10C, 0x3000); (0x118, 0x10200); (0x11C, 2); (0x120, 0x10178);
     (0x128, Z.lxor 0x11030 XOR_EP_RETAIL); (0x12C, 0x11010); (0x130, 0x10000); (0x158, Z.lxor 0x11000 XOR_KT_RETAIL);
     (0x178, 2); (0x17C, 0x11000); (0x180, 0x40); (0x184, 0x400); (0x188, 0x2C); (0x194, 0x101E8); (0x198, 0x101EA);
     (0x1B0, 0); (0x1B4, 0x11040); (0x1B8, 0x1000); (0x1BC, 0x430); (0x1C0, 0x10); (0x1CC, c); (0x1D0, 0x101EC);
     (0x200, 0x1D0); (0x2B0, 7); (0x400, 0x80000001); (0x404, 0x80000002);
     (0x410, 0x11028); (0x414, 0x1102C); (0x420, 8); (0x428, 0x04030201); (0x430, 0x44332211)].

Definition sample_io (file : list Z) : reader := fun off len => (STATUS_SUCCESS, take (Z.to_nat len) (drop (Z.to_nat off) file)).

Definition sample_world (file : list Z) : world :=
  World (sample_io file) true 0x81000000 true STATUS_SUCCESS (replicate 64 0) (Exports 0x80010000 1 [0x100; 0x200]).

Definition sample_loader : loader := Loader boot_vm 0 0 [] [] [] false None.

(** The counter of the shared page is one and the same. *)
Definition good_file : list Z := sample_file 0x101E8.

(** Each boundary between sections has a counter. *)
Definition linear_file : list Z := sample_file 0x101EA.

Definition sec0 : sec := Sec 0x10178 2 0x11000 0x40 0x400 0x2C 0x101E8 0x101EA.
Definition sec1 : sec := Sec 0x101B0 0 0x11040 0x1000 0x430 0x10 0x101E8 0x101EC.
Definition good_image : image := Image 0x10000 0x10400 0x13000 [sec0; sec1].

Lemma good_file_image : image_of good_file = good_image.
Proof. vm_compute. reflexivity. Qed.

Lemma in_pair {A} (a b x : A) : x ∈ [a; b] <-> x = a \/ x = b.
Proof. rewrite !elem_of_cons, elem_of_nil. tauto. Qed.

Lemma pair_lookup {A} (a b x : A) i : [a; b] !! i = Some x -> (i = 0%nat /\ x = a) \/ (i = 1%nat /\ x = b).
Proof. destruct i as [| [| i]]; cbn; [intros [= <-]; auto | intros [= <-]; auto | done]. Qed.

Lemma good_counters a : counters_of good_image a -> a = 0x101E8 \/ a = 0x101EA \/ a = 0x101EC.
Proof. intros (s & Hs & Ha). cbn [i_secs good_image] in Hs. apply in_pair in Hs as [-> | ->]; cbn in Ha; lia. Qed.

Lemma good_layout : layout good_image.
Proof.
  assert (H : forall s, s ∈ i_secs good_image -> s = sec0 \/ s = sec1) by (intros s; apply in_pair).
  assert (K : forall i j s t, i <> j -> i_secs good_image !! i = Some s -> i_secs good_image !! j = Some t -> (s = sec0 /\ t = sec1) \/ (s = sec1 /\ t = sec0)).
  { intros i j s t Hn Hi Hj. apply pair_lookup in Hi as [[-> ->] | [-> ->]]; apply pair_lookup in Hj as [[-> ->] | [-> ->]]; try done; auto. }
  constructor.
  - vm_compute. done.
  - split; [done |]. split; vm_compute; done.
  - intros s [-> | ->]%H; vm_compute; done.
  - intros a Ha%good_counters. cbn [i_base i_hend good_image]. lia.
  - intros s [-> | ->]%H; cbn [s_vs s_rs s_raw s_va sec0 sec1]; change (hdr_page good_image) with 17; cbn [i_end good_image]; lia.
  - intros i j s t Hn Hi Hj. destruct (K i j s t Hn Hi Hj) as [[-> ->] | [-> ->]]; unfold apart; cbn; lia.
  - intros a b Ha%good_counters Hb%good_counters. unfold apart. lia.
  - intros a s Ha%good_counters [-> | ->]%H; unfold apart; cbn [s_hdr sec0 sec1]; lia.
  - intros i j s t Hn Hi Hj _ _. destruct (K i j s t Hn Hi Hj) as [[-> ->] | [-> ->]]; unfold apart; cbn; lia.
  - intros i j s t k Hn Hi Hj. assert (E0 : head_page sec0 = 17 /\ tail_page sec0 = 17 /\ head_page sec1 = 17 /\ tail_page sec1 = 18) by done. destruct E0 as (E1 & E2 & E3 & E4).
    destruct (K i j s t Hn Hi Hj) as [[-> ->] | [-> ->]]; unfold spans, counter; rewrite E1, E2, E3, E4; intros [_ H1] [_ H2]; rewrite !decide_True by lia; done.
  - cbn. lia.
Qed.

Lemma sample_serves file : bytes file -> serves file (sample_io file).
Proof.
  intros Hb. constructor; unfold sample_io; cbn [fst snd].
  - intros off len Hl. rewrite length_take. lia.
  - intros off len. by apply bytes_take, bytes_drop.
  - done.
Qed.

Lemma good_bytes : bytes good_file.
Proof.
  assert (E : forallb (fun b => (0 <=? b) && (b <? 256)) good_file = true) by (vm_compute; reflexivity). apply list.Forall_forall. intros b Hb.
  rewrite forallb_forall in E. specialize (E b (proj1 (list_elem_of_In _ _) Hb)). unfold is_u8. change (2 ^ 8) with 256. lia.
Qed.

Lemma good_file_xbe : good_xbe good_file.
Proof.
  assert (H : forall s, s ∈ i_secs (image_of good_file) -> s = sec0 \/ s = sec1) by (intros s; rewrite good_file_image; apply in_pair).
  assert (Hb : x_base good_file = 0x10000) by (vm_compute; reflexivity).
  assert (Hl : length good_file = 1088%nat) by (vm_compute; reflexivity).
  constructor; rewrite ?Hl, ?Hb.
  - apply good_bytes.
  - vm_compute. reflexivity.
  - reflexivity.
  - assert (E : x_headers good_file = 0x400) by (vm_compute; reflexivity). rewrite E. lia.
  - rewrite good_file_image. apply good_layout.
  - intros s [-> | ->]%H; vm_compute; reflexivity.
  - rewrite good_file_image. intros a Ha%good_counters. split; [| lia]. destruct Ha as [-> | [-> | ->]]; vm_compute; reflexivity.
  - intros s [-> | ->]%H; cbn [s_raw s_rs s_hdr sec0 sec1]; lia.
Qed.

Lemma good_entry : entry_is good_file 0x11030 /\ thunks_are good_file 0x11000.
Proof.
  assert (Eb : x_base good_file = 0x10000) by (vm_compute; reflexivity). assert (Ei : x_image good_file = 0x3000) by (vm_compute; reflexivity).
  unfold entry_is, thunks_are, encodes. rewrite Eb, Ei. split; (split; [lia | left; vm_compute; reflexivity]).
Qed.

Lemma good_table : table_at good_file (sample_world good_file) 0x11000 0 sec0 2.
Proof.
  constructor.
  - by rewrite good_file_image.
  - reflexivity.
  - done.
  - cbn [s_va s_vs sec0]. lia.
  - intros k Hk. assert (Hf : Z.testbit (field (content good_file sec0) (0x11000 - s_va sec0 + 4 * k)) 31 = true /\
      field (content good_file sec0) (0x11000 - s_va sec0 + 4 * k) mod 2 ^ 31 = 1 + k)
      by (assert (k = 0 \/ k = 1) as [-> | ->] by lia; split; vm_compute; reflexivity).
    destruct Hf as [H1 H2]. split; [intros H0; by rewrite H0 in H1 |]. unfold resolves. rewrite H1, H2.
    exists (0x80010000 + 0x100 * (1 + k)), (Z.to_nat k), (0x100 * (1 + k)). change (kernel (sample_world good_file)) with (Exports 0x80010000 1 [0x100; 0x200]).
    clear H1 H2. assert (k = 0 \/ k = 1) as [-> | ->] by lia; (split; [reflexivity | split; [lia | split; reflexivity]]).
  - cbn [kernel sample_world ExportBase]. lia.
  - vm_compute. reflexivity.
Qed.

Lemma good_tls : tls_ok good_file 0x11000 2.
Proof.
  right. exists 0x11028, 0x1102C, 8. assert (El : x_tls good_file = 0x11010) by (vm_compute; reflexivity).
  constructor; rewrite ?El.
  - exists 0%nat, sec0. rewrite good_file_image. split; [done |]. split; [done |]. split; [done |]. cbn [s_va s_vs sec0]. split; [lia |]. split; [lia |]. split; [| split]; vm_compute; reflexivity.
  - lia.
  - exists 0%nat, sec0. rewrite good_file_image. split; [done |]. split; [done |]. split; [done |]. cbn [s_va s_vs sec0]. lia.
  - lia.
Qed.

Lemma good_cert : cert_ok good_file.
Proof.
  right. assert (E1 : x_cert good_file = 0x10200) by (vm_compute; reflexivity). assert (E2 : x_base good_file = 0x10000) by (vm_compute; reflexivity).
  assert (E3 : x_headers good_file = 0x400) by (vm_compute; reflexivity). rewrite E1, E2, E3. unfold CERT_SIZE_WITH_ALTERNATES, CERT_ALTERNATE_KEYS, XBOX_ALTERNATE_KEYS, XBOX_KEY_LENGTH. lia.
Qed.

Lemma boot_pages : pages_ok (mem boot_vm).
Proof. intros k [_ Hk]%elem_of_cset. exfalso. apply Hk. reflexivity. Qed.

Lemma sample_able : able good_file (sample_world good_file) (lvm sample_loader).
Proof.
  constructor; [done | reflexivity | reflexivity | reflexivity | |].
  - change (NxvRegionList (lvm sample_loader)) with (@nil region). intros r Hr. by apply not_elem_of_nil in Hr.
  - apply (bool_decide_eq_true_1 _). vm_compute. reflexivity.
Qed.

(** ** Properties *)

(** C4: the loader loads.  For a file that is a title it always returns, and
    where the image's addresses are free, the frames suffice for its pages
    and their tables and nothing outside fails it succeeds.  A success means
    that the title is in place: every section that is to be there holds the
    file's bytes followed by zeros and counts 1, the others are absent; each
    ordinal of the thunk table is replaced by the address in the entry of the
    kernel's export table for it and nothing else is touched; the three keys
    are the HMACs of the certificate's fields; one thread is started, at the
    entry [e] that the headers keep encoded, with an aligned block that holds
    its own address, the initial data and zeros.  A pool that has no memory
    for that block does not fail the load: the thread then has none.
    Whatever happens the memory manager stays consistent, no page outside the
    image changes, and a load that fails starts no thread. *)
Theorem xbe_load_correct file w e th j s n fuel l : good_xbe file -> serves file (file_io w) -> cert_ok file ->
  length (stack_junk w) = 64%nat -> bytes (stack_junk w) -> entry_is file e -> thunks_are file th -> table_at file w th j s n -> tls_ok file th n -> raw_ok w ->
  (Z.to_nat (x_sections file) < fuel)%nat -> (n < fuel)%nat -> vm_wf (lvm l) -> pages_ok (mem (lvm l)) ->
  exists status l', XeLoadXbe fuel w l = Some (Done status, l') /\
    vm_wf (lvm l') /\ pages_ok (mem (lvm l')) /\ outside_kept file (lvm l) (lvm l') /\
    if NT_SUCCESS status then status = STATUS_SUCCESS /\ runs file w e th j s n l' /\
      XeImageRangeStart l' = x_base file /\ XeImageRangeEnd l' = x_base file + x_image file
    else started l' = started l /\ ~ able file w (lvm l).
Proof.
  intros G Hio Hc Hk Hb He Hth Ht Htls Hr F1 F2 W P.
  destruct (load_xbe_run file w e th j s n G He Hth Ht Htls Hr Hio Hc Hk Hb fuel F1 F2 l W P) as (st & l' & E & (A & B & C & D) & Ok).
  exists st, l'. split; [exact E |]. split; [exact A |]. split; [exact B |]. split; [exact C |].
  destruct (NT_SUCCESS st) eqn:En; [exact D |]. split; [exact D |]. intros Ab. by rewrite (Ok Ab) in En.
Qed.

Lemma sample_raw file : raw_ok (sample_world file).
Proof. right. cbn [tls_raw sample_world]. lia. Qed.

(** The concrete title is loaded. *)
Lemma sample_runs : exists l', XeLoadXbe 10 (sample_world good_file) sample_loader = Some (Done STATUS_SUCCESS, l') /\
  runs good_file (sample_world good_file) 0x11030 0x11000 0 sec0 2 l'.
Proof.
  assert (E : option_map fst (XeLoadXbe 10 (sample_world good_file) sample_loader) = Some (Done STATUS_SUCCESS)) by (vm_compute; reflexivity).
  destruct (load_xbe_run good_file (sample_world good_file) 0x11030 0x11000 0 sec0 2 good_file_xbe (proj1 good_entry) (proj2 good_entry) good_table good_tls (sample_raw _) (sample_serves _ good_bytes) good_cert eq_refl (bytes_zero 64) 10
    ltac:(vm_compute; lia) ltac:(lia) sample_loader boot_vm_wf boot_pages) as (st & l' & E' & Le).
  rewrite E' in E. cbn [option_map fst] in E. injection E as ->. exists l'. split; [exact E' |]. apply (proj1 Le).
Qed.

Lemma xbe_load_correct_witness : exists l' t, XeLoadXbe 10 (sample_world good_file) sample_loader = Some (Done STATUS_SUCCESS, l') /\ vm_wf (lvm l') /\
  started l' = Some t /\ StartContext t = 0x11030.
Proof.
  destruct (xbe_load_correct good_file (sample_world good_file) 0x11030 0x11000 0 sec0 2 10 sample_loader good_file_xbe (sample_serves _ good_bytes) good_cert eq_refl (bytes_zero 64)
    (proj1 good_entry) (proj2 good_entry) good_table good_tls (sample_raw _) ltac:(vm_compute; lia) ltac:(lia) boot_vm_wf boot_pages) as (st & l' & E & W & _ & _ & D).
  destruct (NT_SUCCESS st); [| by destruct (proj2 D sample_able)]. destruct D as [-> [Rn _]]. destruct (rn_thread _ _ _ _ _ _ _ _ Rn) as (t & Et & Ec & _).
  exists l', t. split; [exact E |]. split; [exact W |]. split; [exact Et | exact Ec].
Defined.

(** C9: loading and unloading sections refine an image in which each section
    is absent or loaded with a count and its bytes.  The image is laid out so
    that headers, counters and sections are apart, and sections that share a
    page share the counter of that page.  Every call returns and never
    faults.  A load of an absent section ends with the file's bytes and zeros
    in its place and a count of 1, or fails because there is no memory or the
    file could not be read, and then changes no section; it does not fail
    when the frames suffice and the read succeeds; a load of a loaded section
    counts; an unload counts down and with the last
    count takes the section away; a section that is absent is refused.  The
    bytes of all other loaded sections, whatever the title has written to
    them, stay, and so does every page outside the image.  When each counter
    serves one page, the pages given up are exactly those of the section
    that no loaded section has part of. *)
Theorem sections_refine file I A v node c : layout I -> image_holds I A v -> legal file I A c ->
  exists status v' A', run_call node I c v = Some (Done status, v') /\ abs_call file I A c status A' /\
    image_holds I A' v' /\ elsewhere I v v' /\ pages_after I A A' c status (cset (mem v)) (cset (mem v')) /\
    (can_load I c v -> status = STATUS_SUCCESS).
Proof.
  intros L H Hc. destruct c as [i io | i | i o l]; cbn [legal run_call] in *.
  - destruct Hc as (s & Hi & Hio & Hf & Hr). rewrite Hi.
    destruct (load_call I A v node L H file io i s Hi Hio Hf Hr) as (st & v' & A' & E & Ha & H' & W & Pa & Hl). exists st, v', A'. do 5 (split; [done |]). by apply (load_succeeds I v L io i s v').
  - destruct Hc as [s Hi]. rewrite Hi.
    destruct (unload_call I A v node L H file i s Hi) as (st & v' & A' & E & Ha & H' & W & Pa). exists st, v', A'. do 5 (split; [done |]). done.
  - destruct Hc as (s & ld & Hi & Ho & Hv & Hb & H1 & H2). rewrite Hi.
    destruct (store_call I A v L H file i s ld o l Hi Ho Hv Hb H1 H2) as (v' & A' & E & Ha & H' & W & S). exists STATUS_SUCCESS, v', A'.
    split; [by rewrite (bind_done _ _ v tt v' E) | done].
Qed.

Lemma sections_refine_witness : exists v A status v' A', image_holds good_image A v /\
  run_call true good_image (CLoad 1 (sample_io good_file)) v = Some (Done status, v') /\ image_holds good_image A' v'.
Proof.
  destruct sample_runs as (l' & _ & [(b' & _ & H) _ _ _]). rewrite good_file_image in H.
  destruct (sections_refine good_file good_image _ (lvm l') true (CLoad 1 (sample_io good_file)) good_layout H) as (st & v' & A' & E & _ & H' & _).
  - exists sec1. split; [reflexivity |]. split; [apply sample_serves, good_bytes |].
    split; [assert (Hl : length good_file = 1088%nat) by (vm_compute; reflexivity); rewrite Hl; cbn [s_raw s_rs sec1]; lia |].
    intros l0 El. rewrite list_lookup_insert_ne in El by done. rewrite (preloaded_lookup good_file _ 1 sec1) in El by (by rewrite good_file_image).
    rewrite decide_True in El by (cbn; lia). discriminate El.
  - eexists _, _, st, v', A'. split; [exact H |]. split; [exact E | exact H'].
Defined.

(** an unload can take away a page that is in use.  In an image where each
    boundary between adjacent sections has a counter, as the comment over
    the code describes it, but the first section is smaller than a page: the
    title is loaded, its second section is loaded, and its first one is
    unloaded; all three succeed.  The first byte of the second section,
    which is loaded, is then not mapped any more. *)
Theorem unload_unmaps_neighbour : exists l v1 v2, XeLoadXbe 10 (sample_world linear_file) sample_loader = Some (Done STATUS_SUCCESS, l) /\
  XeLoadSection true (sample_io linear_file) (s_hdr sec1) (lvm l) = Some (Done STATUS_SUCCESS, v1) /\ rd32 (s_va sec1) v1 = Some (Done 0x44332211, v1) /\
  XeUnloadSection true (s_hdr sec0) v1 = Some (Done STATUS_SUCCESS, v2) /\ SectionRefCount (s_hdr sec1) v2 = Some (Done 1, v2) /\
  rd32 (s_va sec1) v2 = Some (Fault (s_va sec1), v2).
Proof.
  assert (E : match XeLoadXbe 10 (sample_world linear_file) sample_loader with
    | Some (Done a, l) => match XeLoadSection true (sample_io linear_file) (s_hdr sec1) (lvm l) with
      | Some (Done b, v1) => match XeUnloadSection true (s_hdr sec0) v1 with
        | Some (Done c, v2) => Some (a, b, c, option_map fst (rd32 (s_va sec1) v1), option_map fst (SectionRefCount (s_hdr sec1) v2), option_map fst (rd32 (s_va sec1) v2))
        | _ => None end
      | _ => None end
    | _ => None end = Some (STATUS_SUCCESS, STATUS_SUCCESS, STATUS_SUCCESS, Some (Done 0x44332211), Some (Done 1), Some (Fault (s_va sec1)))) by (vm_compute; reflexivity).
  destruct (XeLoadXbe 10 (sample_world linear_file) sample_loader) as [[[a | |] l] |]; try discriminate E.
  destruct (XeLoadSection true (sample_io linear_file) (s_hdr sec1) (lvm l)) as [[[b | |] v1] |] eqn:E1; try discriminate E.
  destruct (XeUnloadSection true (s_hdr sec0) v1) as [[[c | |] v2] |] eqn:E2; try discriminate E. injection E as -> -> -> E3 E4 E5.
  exists l, v1, v2. split; [reflexivity |]. split; [exact E1 |]. split; [exact (f_equal (fun r => Some (r, v1)) E3) |]. split; [exact E2 |].
  split; [exact (f_equal (fun r => Some (r, v2)) E4) | exact (f_equal (fun r => Some (r, v2)) E5)].
Qed.
